(* ===== verification/_CoqProject ===== *)
-Q . S2P
Prelude.v
JsValue.v
JsRegex.v
JsText.v
JsDate.v
IsoTime.v
QuotaWindow.v
TierPolicy.v
SessionLimit.v
Eligibility.v
Availability.v
Errors.v
ErrorPolicy.v
SlotEngine.v
Failover.v
Scheduler.v
Ranking.v
Waiting.v
ModelPolicy.v
ModelGate.v
Eligible.v
Selection.v
JsJson.v
WebSearch.v
CacheTtl.v
CacheOrder.v
Rectifier.v
Thinking.v
Pricing.v
QuotaRecord.v
AccountStore.v
StoreFacts.v
AccountQuota.v
QuotaFacts.v
Sanitize.v
JsonParse.v
Images.v
Convert.v
Respond.v
Streams.v
StreamFacts.v
AnthropicPolicy.v
Catalog.v
Distill.v
Refusals.v
Sticky.v
Users.v
ApiKeys.v
ApiKeyFacts.v
Redeem.v
Security.v
SecurityFacts.v
Access.v
CodexUsage.v
CredentialFile.v
VmDocument.v
VmFiles.v
Bookkeeping.v
BookFacts.v
CodexRequest.v
CodexAnswer.v
CodexSlot.v
CodexHop.v
CodexHopFacts.v
WorkerStream.v
WorkerStreamFacts.v
KernelHop.v
KernelHopFacts.v
ApiPool.v
Inbound.v
Intercept.v
Keepalive.v
ApiOpenai.v
Health.v
Downstream.v
ApiCall.v
ProxyPool.v
EndpointStore.v
Handler.v
HandlerFacts.v
