(* ===== verification/Prelude.v ===== *)
(** * vm2api gateway: verification library

    The program is a gateway in JavaScript (src/src/lib, .mjs): a request of a client in one of
    several protocols is checked, brought to one protocol, matched with a model, placed on an account and
    a slot (a VM) that may serve it, sent upstream with retries, and answered in the client's
    protocol; what it used is charged.  The library follows that path.

    ** The JavaScript underneath

    - Prelude (this file): numbers [num] (a rational, an infinity or NaN; arithmetic is exact, IEEE rounding is
      modelled where costs are added up to a limit, in [ApiKeys.Double]), tactics, hints.
    - JsValue: values [jsval], objects as association lists in insertion order, coercions, [a ||| b] for
      [a || b], [a ?? b], [v?."k"] for [v?.k].  JsRegex: regular expressions by derivatives, proved
      against their language.  JsText: string operations, facts on fields, on spreading and on deleted keys.  JsDate, IsoTime: dates,
      ISO texts and their round trip.  JsJson, JsonParse: [JSON.stringify], [JSON.parse] and their round trip.
    - A thrown TypeError is [None], or, where the code catches it, a value of its own ([Thrown] of Failover and
      Handler, [Escaped] of CodexHop); a thrown coded error is the left of a sum; text is a list of bytes, so a
      slice counts bytes where the code counts UTF-16 units.  A clock is an argument: an
      operation is given the time it reads.

    ** Accounts, quotas and slots (src/src/lib/pool, src/src/lib/db/repos)

    - QuotaWindow (quota-window.mjs), TierPolicy (quota-tiers.mjs, tier-limits.mjs, weekly-split.mjs), SessionLimit
      (session-limit.mjs), Eligibility (schedule-eligibility.mjs, resource-owner.mjs, credential-weight.mjs),
      Availability (availability.mjs): windows, policies, caps and the verdict on an account.
    - QuotaRecord, AccountQuota and QuotaFacts (account-quota.mjs): the record of an account, the tracker, and its
      refinement of a log of reservations.  AccountStore and StoreFacts (accounts-repo.mjs,
      account-runtime-repo.mjs): two facades over the same rows.
    - Scheduler, Ranking, Waiting, Eligible, Selection (pool-scheduler.mjs): reservations, order of candidates,
      waiting queues, eligibility, the selection loop (rounds between which other requests reserve and release).  ModelGate (slot-model-gate.mjs, claude-tier.mjs).
    - Sticky (sticky-router.mjs, sticky-repo.mjs, the parsing of identity-rewrite.mjs): keys of a conversation and
      their bindings, as a refinement of a map of leases.

    ** Requests and answers (src/src/lib/protocol, src/src/lib/core)

    - Errors (errors.mjs), ErrorPolicy (upstream-error-policy.mjs), SlotEngine (slot-engine.mjs), Failover
      (failover-runner.mjs): what an answer of the provider means, and the loop of attempts as a function
      of an environment that yields a log of effects, each write of which may throw.
    - ModelPolicy (model-policy.mjs, context-1m.mjs), Catalog (models.mjs, gpt-model-policy.mjs): which models exist.
    - WebSearch, CacheTtl and CacheOrder, Rectifier, Thinking, Sanitize, Images, AnthropicPolicy: the rewriting of a
      request (web-search.mjs, cache-ttl.mjs, request-rectifier.mjs, thinking.mjs, sanitize.mjs, images.mjs,
      anthropic-policy.mjs).  Convert, Respond, Streams, StreamFacts (convert.mjs, codex-tools.mjs): the
      protocols of clients, collected and streamed.
    - Distill (distill-detect.mjs), Refusals (refusal-guard.mjs, refusal-guards-repo.mjs, the guards of
      handle-protocol.mjs): requests that are refused before they are sent.

    ** Clients, operators and money (src/src/lib/admin, src/src/lib/db/repos, src/src/lib/core/security.mjs)

    - Pricing (pricing.mjs, openai-pricing.mjs, openai-usage.mjs): usage and cost.
    - Users (users-repo.mjs, panel-users.mjs): operators, passwords, roles.  Security, SecurityFacts (security.mjs):
      the rate limiter, the sessions of the panel, its login.  Access (panel-acl.mjs, panel-tenant.mjs, [requireAuth] of
      server.mjs, the guards of panel-routes.mjs): who may call what and sees what.
    - ApiKeys, ApiKeyFacts (api-keys.mjs, api-keys-repo.mjs, secure.mjs): the keys of clients, their limits, what is
      charged to them.  Redeem (redeem-codes-repo.mjs, groups-repo.mjs): top-up codes and groups.

    ** Slots and their documents (src/src/lib/oauth, src/src/lib/vm, src/src/lib/pool)

    - CredentialFile (credential-mode.mjs, auth-scheme.mjs, oauth-credentials.mjs), VmDocument (oauth-credentials.mjs),
      VmFiles (vm-registry.mjs), Bookkeeping (the writes of pool-scheduler.mjs), BookFacts: what
      is written down about a slot by logins, refreshes, failures, quotas and operators.
    - CodexUsage (codex-usage.mjs, codex-slot-pool.mjs), CodexSlot (codex-slot.mjs): slots of ChatGPT accounts.

    ** Hops

    - WorkerStream, WorkerStreamFacts (go-worker-client.mjs): what a slot's worker answers.  KernelHop, KernelHopFacts
      (kernel-router.mjs, rust-kernel-supervisor.mjs, rust-kernel-client.mjs): the hop to a slot, its retries, the recycling
      of its container.
    - CodexRequest, CodexAnswer (codex-route.mjs, codex-restriction.mjs, openai-wash.mjs, codex-convert.mjs), CodexHop,
      CodexHopFacts (codex-rotate.mjs, handle-codex.mjs): a request to a Codex slot.
    - ApiPool (api-presets.mjs, api-scheduler.mjs), ApiOpenai (api-openai.mjs), ApiCall (api-protocol.mjs,
      [readApiJson] of api-kernel-client.mjs): a request to an endpoint of another provider.
    - EndpointStore (api-endpoints.mjs, api-endpoints-repo.mjs, their routes in panel-routes.mjs): the tables of
      the endpoints, what the panel shows and changes of them, and what the pool of ApiPool is told.
    - ProxyPool (proxy-pool.mjs, proxies-repo.mjs, [isLocalEgressProxy] of egress.mjs): the proxies of the
      slots: parsing, rows, bindings, probes and their consequences for slots.  The network and the slots are
      hooks; the operations of a run are a step relation.

    ** A request from end to end

    - Inbound (platform-detect.mjs, workspace-mode.mjs, seed-policy.mjs), Intercept (intercept.mjs), Health
      (health-probe.mjs): what meets a request first.  Keepalive (stream-keepalive.mjs), Downstream (the writers of
      handle-protocol.mjs and respond.mjs, the usage of crs-persona-usage.mjs): what a client is written.
    - Handler, HandlerFacts (handle-protocol.mjs, [readBody] of respond.mjs, the catch of server.mjs) compose
      them: [serve] takes the [server], what is kept between requests, through one request, with the
      credentials of Access, the keys of ApiKeys, Health, Intercept, Inbound, Catalog, Convert, the guards of Refusals,
      and one of CodexHop, ApiCall, and Failover over KernelHop with the bindings of Sticky and the
      quotas of AccountQuota.  One request runs at a time; the others are in what the environments
      of Failover and KernelHop answer.  What the code writes to a client while an attempt runs is
      written from the log of the attempts, in its order.

    ** What the theorems show

    - A request is answered once, also when an exception leaves its handler; each body that is sent upstream passed
      every guard; the key that a request authenticated with is held around its hop and charged after it (HandlerFacts).
    - Bounds kept by every run: the sessions of an account (SessionLimit), the counters of reservations
      (Scheduler, QuotaFacts), the attempts of a request (Failover), what a key may run and spend
      (ApiKeyFacts), the rate of a client (SecurityFacts), rests after a failure (ErrorPolicy, ApiCall),
      cache markers (CacheOrder, AnthropicPolicy), an administrator (Users), the slots of a proxy (ProxyPool).
    - Refinements and equivalences: the tracker and a log of reservations (QuotaFacts), the router and a map of
      leases (Sticky), the sessions of the panel and a map of leases (SecurityFacts), rules on shared objects
      and on values (Intercept), a stream and the text it carries (WorkerStreamFacts), streamed and collected
      answers (StreamFacts, CodexAnswer), the pricing and its formula (Pricing), a wipe of windows and the
      windows (QuotaWindow), the ledger of codes (Redeem).
    - Safety of choices: only candidates that pass every gate are selected (Eligible, Selection, Eligibility,
      Availability), a committed stream is never retried (ErrorPolicy, Failover), the client is shown one
      stream of a hop (KernelHopFacts, WorkerStreamFacts), every reservation is released unless a write
      before the attempt throws (Failover), every waiter is answered once (Waiting), keys of different clients are
      apart (Sticky), a tenant calls what is listed for tenants on what is his (Access), the metadata of a slot
      keeps no secret and the operator's switch is kept (BookFacts), a health answer comes from a real probe (Health).
    - Shapes and round trips: requests after conversion and sanitising (Convert, Sanitize, CodexHopFacts), tool
      names (AnthropicPolicy), credentials (CredentialFile), policies (TierPolicy, ModelPolicy), answers to
      errors (Errors).
    - What is stored: a slot is on one proxy and what a restart reads is what was saved, the best proxy is allocated,
      failing proxies leave and return (ProxyPool); the panel and the pool agree on the endpoints (EndpointStore).
    - Turns and ends: accounts and endpoints take turns (Ranking, ApiPool), a hop waits for a slot within its budget
      and ends (KernelHopFacts), a request to a Codex slot tries four slots, each at most twice (CodexHopFacts).
    - Some theorems and examples show what the code does against its own comments and tests: a stream that is
      never verified ([stream_never_verified]), a refused prompt that is sent again ([refusal_sent_again]), a
      stream that is shown twice ([committed_sent_again]), usage that is not charged ([stream_without_usage]), a
      refused binding that takes a slot off its proxy ([refused_bind_unbinds]), a probe that enables what an operator
      disabled ([probe_undoes_operator]), a probe that answers after a reload ([answer_after_reload]), an error that
      leaves an endpoint behind ([error_leaves_endpoint]), a reservation that a failed write loses
      ([reservation_lost]), an answer that a failed write loses ([credit_without_answer]), ten charges of ten cents that
      do not use up a dollar ([ten_times_ten_cents]), a secret beside those that are stripped
      ([secret_beside_claude]), a removed operator who reaches what is nobody's ([removed_operator_reaches_platform]).

    ** Fuel

    A recursion that the code bounds by a counter has that counter as fuel: the attempts of Failover
    ([run_calls_bounded]), the rounds of Selection, the characters of a text in JsonParse (one per
    character, [json_parse]), the names tried by [AnthropicPolicy.unused] (one more than the
    names in use, [safeToolName_total]), the weight of a document in [CodexSlot.visit], the polls of a slot in
    [KernelHop.poll] (the budget over the gap, and one; [slot_wait], [hop_total]), the length of the text in
    [KernelHop.replace_all], [Health.split_commas] and [Health.drop_marks]; the most
    slots a proxy may have in [ProxyPool.first_names], as in the code.  The theorems state that the fuel is enough.

    ** Not modelled

    - Personas, envelopes and headers that imitate another client: [w_persona], [w_prepare] and their like are
      arguments of Handler; browser logins, cookies and token exchanges with the provider.
    - The routes of the panel other than those named above, its console, probes and tests other than the health snapshot, messages to
      operators: dispatch and network around the stores that are modelled here.
    - Logs of requests and their reports, which are SQL; migrations, imports, archives and release files.
    - Virtual machines, containers and processes of kernels; the Go programs under src/worker and
      src/api-kernel; scripts.
    - Hashes, encryption, random bytes, locale order and the network are parameters; promises are modelled
      where their order matters (Waiting), elsewhere an operation runs to its end. *)

From Stdlib Require Export ZArith QArith Qround Qreduction Lqa Lia Ascii String DecimalString.
From stdpp Require Export base gmap strings list list_numbers fin_maps.

#[global] Set Default Goal Selector "!".

#[global] Arguments String.append : simpl nomatch.

Declare Scope js_scope.
Delimit Scope js_scope with js.

(** ** Numbers

    A JavaScript number is a rational, an infinity or NaN.  Arithmetic is exact: the
    rounding of IEEE doubles is not modelled (the code's numbers are millisecond counts,
    token counts and short decimals), except where costs are added up to a limit
    ([Double] in ApiKeys.v). *)
Inductive num :=
| Fin (q : Q)
| PInf
| NInf
| NaN.

Definition num_of_Z (z : Z) : num := Fin (inject_Z z).

Definition is_finite (n : num) : bool := match n with Fin _ => true | _ => false end.

Definition num_ltb (a b : num) : bool :=
  match a, b with
  | NaN, _ | _, NaN => false
  | Fin x, Fin y => negb (Qle_bool y x)
  | NInf, NInf => false
  | NInf, _ => true
  | _, NInf => false
  | PInf, _ => false
  | _, PInf => true
  end.

Definition num_leb (a b : num) : bool :=
  match a, b with
  | NaN, _ | _, NaN => false
  | Fin x, Fin y => Qle_bool x y
  | NInf, _ => true
  | _, PInf => true
  | _, _ => false
  end.

Definition num_eqb (a b : num) : bool :=
  match a, b with
  | Fin x, Fin y => Qeq_bool x y
  | PInf, PInf => true
  | NInf, NInf => true
  | _, _ => false
  end.

Definition num_add (a b : num) : num :=
  match a, b with
  | Fin x, Fin y => Fin (Qred (x + y))
  | NaN, _ | _, NaN => NaN
  | PInf, NInf | NInf, PInf => NaN
  | PInf, _ | _, PInf => PInf
  | NInf, _ | _, NInf => NInf
  end.

Definition num_neg (a : num) : num :=
  match a with Fin x => Fin (Qred (- x)) | PInf => NInf | NInf => PInf | NaN => NaN end.

Definition num_sub (a b : num) : num := num_add a (num_neg b).

Definition num_sign (a : num) : option comparison :=
  match a with
  | Fin x => Some (x ?= 0)%Q
  | PInf => Some Gt
  | NInf => Some Lt
  | NaN => None
  end.

Definition num_mul (a b : num) : num :=
  match a, b with
  | Fin x, Fin y => Fin (Qred (x * y))
  | _, _ =>
    match num_sign a, num_sign b with
    | Some Eq, _ | _, Some Eq | None, _ | _, None => NaN
    | Some x, Some y => if decide (x = y) then PInf else NInf
    end
  end.

(** [a / b]; division by zero follows IEEE. *)
Definition num_div (a b : num) : num :=
  match a, b with
  | Fin x, Fin y =>
    if Qeq_bool y 0 then
      match (x ?= 0)%Q with Eq => NaN | Gt => PInf | Lt => NInf end
    else Fin (Qred (x / y))
  | NaN, _ | _, NaN => NaN
  | Fin _, _ => Fin 0
  | _, Fin y => match (y ?= 0)%Q with Lt => num_neg a | _ => a end
  | _, _ => NaN
  end.

(** [Math.min] / [Math.max]: NaN is contagious. *)
Definition num_min (a b : num) : num :=
  match a, b with NaN, _ | _, NaN => NaN | _, _ => if num_leb a b then a else b end.
Definition num_max (a b : num) : num :=
  match a, b with NaN, _ | _, NaN => NaN | _, _ => if num_leb a b then b else a end.

(** [Math.min(...l)] and [Math.max(...l)]. *)
Definition num_min_list (l : list num) : num := foldr num_min PInf l.
Definition num_max_list (l : list num) : num := foldr num_max NInf l.

Definition num_floor (a : num) : num := match a with Fin x => num_of_Z (Qfloor x) | _ => a end.
(** [Math.round]: ties towards +infinity. *)
Definition num_round (a : num) : num := match a with Fin x => num_of_Z (Qfloor (x + (1 # 2))) | _ => a end.

Definition is_integer (a : num) : bool :=
  match a with Fin x => Qeq_bool x (inject_Z (Qfloor x)) | _ => false end.

Bind Scope js_scope with num.

Create HintDb num.

(** ** Laws of the order on numbers *)

Lemma Qle_bool_false x y : Qle_bool x y = false <-> (y < x)%Q.
Proof.
  destruct (Qle_bool x y) eqn:E; split; try done.
  - apply Qle_bool_iff in E. intros H. exfalso. lra.
  - intros _. destruct (Qlt_le_dec y x) as [H|H]; [done|]. apply Qle_bool_iff in H. congruence.
Qed.

(** [q_props] turns boolean comparisons of rationals into propositions. *)
Ltac q_props :=
  repeat match goal with
  | H : negb _ = true |- _ => apply negb_true_iff in H
  | H : negb _ = false |- _ => apply negb_false_iff in H
  | H : Qle_bool _ _ = true |- _ => apply Qle_bool_iff in H
  | H : Qle_bool _ _ = false |- _ => apply Qle_bool_false in H
  | H : Qeq_bool _ _ = true |- _ => apply Qeq_bool_iff in H
  | |- negb _ = true => apply negb_true_iff
  | |- Qle_bool _ _ = true => apply Qle_bool_iff
  | |- Qle_bool _ _ = false => apply Qle_bool_false
  | |- Qeq_bool _ _ = true => apply Qeq_bool_iff
  end.

(** [num_solve]: linear order facts on numbers, by cases on their kind. *)
Ltac num_solve :=
  repeat match goal with n : num |- _ => destruct n end;
  simpl in *; try done; q_props; try done; try lra.

Lemma num_leb_Fin x y : num_leb (Fin x) (Fin y) = true <-> (x <= y)%Q.
Proof. apply Qle_bool_iff. Qed.

Lemma num_ltb_Fin x y : num_ltb (Fin x) (Fin y) = true <-> (x < y)%Q.
Proof. simpl. rewrite negb_true_iff. apply Qle_bool_false. Qed.

Lemma num_leb_Z x y : num_leb (num_of_Z x) (num_of_Z y) = true <-> (x <= y)%Z.
Proof. unfold num_of_Z. rewrite num_leb_Fin. by rewrite <- Zle_Qle. Qed.

Lemma num_ltb_Z x y : num_ltb (num_of_Z x) (num_of_Z y) = true <-> (x < y)%Z.
Proof. unfold num_of_Z. rewrite num_ltb_Fin. by rewrite <- Zlt_Qlt. Qed.

Lemma num_leb_trans a b c : num_leb a b = true -> num_leb b c = true -> num_leb a c = true.
Proof. intros; num_solve. Qed.

Lemma num_ltb_leb a b : num_ltb a b = true -> num_leb a b = true.
Proof. intros; num_solve. Qed.

Lemma num_leb_ltb_trans a b c : num_leb a b = true -> num_ltb b c = true -> num_ltb a c = true.
Proof. intros; num_solve. Qed.

Lemma num_ltb_leb_trans a b c : num_ltb a b = true -> num_leb b c = true -> num_ltb a c = true.
Proof. intros; num_solve. Qed.

Lemma num_ltb_not_leb a b : num_ltb a b = true -> num_leb b a = false.
Proof. intros; num_solve. Qed.

(** For numbers that are not NaN the two comparisons are complementary. *)
Lemma num_leb_negb a b : is_finite a = true -> is_finite b = true -> num_leb a b = negb (num_ltb b a).
Proof. destruct a, b; try done. intros _ _. simpl. by rewrite negb_involutive. Qed.

Lemma num_min_le_l a b : is_finite a = true -> is_finite b = true -> num_leb (num_min a b) a = true.
Proof.
  destruct a as [x| | |], b as [y| | |]; try done. intros _ _. simpl.
  destruct (Qle_bool x y) eqn:E; simpl; q_props; lra.
Qed.

Lemma num_min_le_r a b : is_finite a = true -> is_finite b = true -> num_leb (num_min a b) b = true.
Proof.
  destruct a as [x| | |], b as [y| | |]; try done. intros _ _. simpl.
  destruct (Qle_bool x y) eqn:E; simpl; q_props; lra.
Qed.

Lemma num_max_ge_l a b : is_finite a = true -> is_finite b = true -> num_leb a (num_max a b) = true.
Proof.
  destruct a as [x| | |], b as [y| | |]; try done. intros _ _. simpl.
  destruct (Qle_bool x y) eqn:E; simpl; q_props; lra.
Qed.

Lemma num_min_finite a b : is_finite a = true -> is_finite b = true -> is_finite (num_min a b) = true.
Proof. destruct a, b; try done. intros _ _. simpl. by case_match. Qed.

Lemma num_max_finite a b : is_finite a = true -> is_finite b = true -> is_finite (num_max a b) = true.
Proof. destruct a, b; try done. intros _ _. simpl. by case_match. Qed.

Lemma num_min_glb a x y : num_leb a x = true -> num_leb a y = true -> num_leb a (num_min x y) = true.
Proof.
  intros Hx Hy. unfold num_min. destruct x as [p| | |], y as [q| | |]; try done;
    match goal with |- context [if ?b then _ else _] => by destruct b end.
Qed.

#[export] Hint Resolve num_min_glb num_leb_trans num_ltb_leb num_min_le_l num_min_le_r num_max_ge_l
  num_min_finite num_max_finite : num.

(** [in_list]: a concrete key belongs to a concrete list. *)
Ltac in_list := apply list_elem_of_In; simpl; tauto.

Lemma filtered_sublist {A} (P : A -> bool) l : List.filter P l `sublist_of` l.
Proof. induction l as [|x l IH]; cbn; [constructor|]. destruct (P x); by constructor. Qed.

Lemma same_key {A B} (key : A -> B) l x y : NoDup (map key l) -> x ∈ l -> y ∈ l -> key x = key y -> x = y.
Proof.
  induction l as [|z l IH]; intros Hn Hx Hy E; [by apply not_elem_of_nil in Hx|]. cbn in Hn. apply NoDup_cons in Hn as (Hz & Hn).
  apply elem_of_cons in Hx as [->|Hx]; apply elem_of_cons in Hy as [->|Hy]; [done| | |by apply IH].
  - destruct Hz. rewrite E. by apply list_elem_of_fmap_2.
  - destruct Hz. rewrite <- E. by apply list_elem_of_fmap_2.
Qed.
