(* ===== verification/JsValue.v ===== *)
(** * JavaScript values

    The values the gateway's code passes around: [jsval] with the coercions
    ([truthy], [to_string], [to_number]), property access, object spread and the
    string built-ins the sources use.  Strings are byte strings: case mapping and
    trimming are those of ASCII, other bytes are carried unchanged. *)

From S2P Require Import Prelude.
#[local] Open Scope string_scope.
#[local] Open Scope list_scope.
Set Warnings "-register-all".

(** ** Strings *)

Definition ascii_is (lo hi : nat) (c : ascii) : bool :=
  (lo <=? nat_of_ascii c)%nat && (nat_of_ascii c <=? hi)%nat.
Definition is_digit : ascii -> bool := ascii_is 48 57.
Definition is_upper : ascii -> bool := ascii_is 65 90.
Definition is_lower : ascii -> bool := ascii_is 97 122.
(** White space of [trim] and [\s]: tab, line feed, vertical tab, form feed, carriage return, space. *)
Definition is_space (c : ascii) : bool := ascii_is 9 13 c || ascii_is 32 32 c.

Definition lower_char (c : ascii) : ascii :=
  if is_upper c then ascii_of_nat (nat_of_ascii c + 32) else c.

Fixpoint to_lower (s : string) : string :=
  match s with
  | EmptyString => EmptyString
  | String c s => String (lower_char c) (to_lower s)
  end.

Fixpoint trim_start (s : string) : string :=
  match s with
  | String c r => if is_space c then trim_start r else s
  | EmptyString => EmptyString
  end.

Fixpoint trim_end (s : string) : string :=
  match s with
  | EmptyString => EmptyString
  | String c r =>
    match trim_end r with
    | EmptyString => if is_space c then EmptyString else String c EmptyString
    | r' => String c r'
    end
  end.

Definition trim (s : string) : string := trim_end (trim_start s).

Fixpoint starts_with (p s : string) : bool :=
  match p, s with
  | EmptyString, _ => true
  | String a p, String b s => Ascii.eqb a b && starts_with p s
  | _, _ => false
  end.

(** [s.includes(p)]. *)
Fixpoint includes (s p : string) : bool :=
  starts_with p s || match s with EmptyString => false | String _ r => includes r p end.

Fixpoint drop_chars (n : nat) (s : string) : string :=
  match n, s with
  | S n, String _ r => drop_chars n r
  | _, _ => s
  end.

Fixpoint take_chars (n : nat) (s : string) : string :=
  match n, s with
  | S n, String c r => String c (take_chars n r)
  | _, _ => EmptyString
  end.

(** [s.endsWith(p)]. *)
Definition ends_with (p s : string) : bool :=
  (String.length p <=? String.length s)%nat &&
  String.eqb (drop_chars (String.length s - String.length p) s) p.

(** [l.join(sep)] on strings. *)
Fixpoint join (sep : string) (l : list string) : string :=
  match l with
  | [] => ""
  | [s] => s
  | s :: r => s ++ sep ++ join sep r
  end.

(** The part of [s] before the first [c] ([s.split(c)[0]]). *)
Fixpoint before_char (c : ascii) (s : string) : string :=
  match s with
  | EmptyString => EmptyString
  | String d r => if Ascii.eqb c d then EmptyString else String d (before_char c r)
  end.

(** [a < b] on code units, and the three-way comparison used by sorts. *)
Fixpoint str_compare (a b : string) : comparison :=
  match a, b with
  | EmptyString, EmptyString => Eq
  | EmptyString, _ => Lt
  | _, EmptyString => Gt
  | String x a, String y b =>
    match (nat_of_ascii x ?= nat_of_ascii y)%nat with Eq => str_compare a b | c => c end
  end.

(** ** Numbers and strings *)

(** Decimal digits at the head of [s]: their value, their count, the rest. *)
Fixpoint take_digits (acc : Z) (n : nat) (s : string) : Z * nat * string :=
  match s with
  | String c r =>
    if is_digit c then take_digits (acc * 10 + (Z.of_nat (nat_of_ascii c) - 48)) (S n) r
    else (acc, n, s)
  | EmptyString => (acc, n, s)
  end.

Definition pow10 (e : Z) : Q :=
  if (0 <=? e)%Z then inject_Z (10 ^ e) else / inject_Z (10 ^ (- e)).

Definition take_sign (s : string) : bool * string :=
  match s with
  | String "-" r => (true, r)
  | String "+" r => (false, r)
  | _ => (false, s)
  end.

(** An unsigned decimal literal: [digits [. digits] [e [sign] digits]]; its value and the rest. *)
Definition take_decimal (s : string) : option (Q * string) :=
  let '(int, ni, r) := take_digits 0 0 s in
  let '(mant, nf, r) :=
    match r with
    | String "." r' => let '(m, n, r'') := take_digits int 0 r' in (m, n, r'')
    | _ => (int, 0%nat, r)
    end in
  if ((ni + nf)%nat =? 0)%nat then None
  else
    let '(e, r) :=
      match r with
      | String c r' =>
        if Ascii.eqb (lower_char c) "e" then
          let '(neg, r2) := take_sign r' in
          let '(ev, ne, r3) := take_digits 0 0 r2 in
          if (ne =? 0)%nat then (0%Z, r) else ((if neg then - ev else ev)%Z, r3)
        else (0%Z, r)
      | EmptyString => (0%Z, r)
      end in
    Some (Qred (inject_Z mant * pow10 (e - Z.of_nat nf)), r).

Definition hex_digit (c : ascii) : option Z :=
  let n := Z.of_nat (nat_of_ascii (lower_char c)) in
  if is_digit c then Some (n - 48)%Z
  else if ascii_is 97 102 (lower_char c) then Some (n - 87)%Z else None.

(** The digits of a [0x] / [0o] / [0b] literal in the given radix. *)
Fixpoint radix_value (radix : Z) (acc : Z) (s : string) : option Z :=
  match s with
  | EmptyString => Some acc
  | String c r =>
    d ← hex_digit c;
    if (d <? radix)%Z then radix_value radix (acc * radix + d) r else None
  end.

(** [Number(s)]. *)
Definition str_to_num (s : string) : num :=
  match trim s with
  | EmptyString => Fin 0
  | String "0" (String c (String d r)) as t =>
    let radix := match lower_char c with "x" => 16 | "o" => 8 | "b" => 2 | _ => 0 end%char%Z in
    if (radix =? 0)%Z then
      match take_decimal t with Some (q, EmptyString) => Fin q | _ => NaN end
    else match radix_value radix 0 (String d r) with Some z => num_of_Z z | None => NaN end
  | t =>
    let '(neg, u) := take_sign t in
    if String.eqb u "Infinity" then (if neg then NInf else PInf)
    else match take_decimal u with
         | Some (q, EmptyString) => Fin (if neg then Qred (- q) else q)
         | _ => NaN
         end
  end.

Definition Z_to_string (z : Z) : string := NilZero.string_of_int (Z.to_int z).

(** Digits of the fractional part [r < 1], at most [fuel] of them. *)
Fixpoint frac_digits (fuel : nat) (r : Q) : string :=
  match fuel with
  | O => ""
  | S fuel =>
    if Qeq_bool r 0 then ""
    else let t := Qred (r * 10) in
         let d := Qfloor t in
         Z_to_string d ++ frac_digits fuel (Qred (t - inject_Z d))
  end.

(** [String(n)]: plain decimal notation (at most 20 fractional digits, no exponent form). *)
Definition num_to_string (n : num) : string :=
  match n with
  | NaN => "NaN"
  | PInf => "Infinity"
  | NInf => "-Infinity"
  | Fin q =>
    let a := Qred (if Qle_bool 0 q then q else - q) in
    let i := Qfloor a in
    let f := frac_digits 20 (Qred (a - inject_Z i)) in
    (if Qle_bool 0 q then "" else "-") ++ Z_to_string i ++
    (if String.eqb f "" then "" else "." ++ f)
  end.

(** ** Values *)

Inductive jsval :=
| JUndef
| JNull
| JBool (b : bool)
| JNum (n : num)
| JStr (s : string)
| JArr (l : list jsval)
| JObj (f : list (string * jsval)).

Abbreviation fields := (list (string * jsval)).

Definition jint (z : Z) : jsval := JNum (num_of_Z z).

(** Own properties, in insertion order. *)
Fixpoint assoc (k : string) (f : fields) : jsval :=
  match f with
  | [] => JUndef
  | (k', v) :: r => if String.eqb k k' then v else assoc k r
  end.

Fixpoint has_key (k : string) (f : fields) : bool :=
  match f with
  | [] => false
  | (k', _) :: r => String.eqb k k' || has_key k r
  end.

(** [o[k] = v]: in place when the key exists, else at the end. *)
Fixpoint set_field (k : string) (v : jsval) (f : fields) : fields :=
  match f with
  | [] => [(k, v)]
  | (k', v') :: r => if String.eqb k k' then (k', v) :: r else (k', v') :: set_field k v r
  end.

Definition del_field (k : string) (f : fields) : fields :=
  List.filter (fun p => negb (String.eqb k p.1)) f.

(** Optional chaining [v?.k]; on values that are not objects it is [undefined]. *)
Definition get (v : jsval) (k : string) : jsval :=
  match v with JObj f => assoc k f | _ => JUndef end.

(** [v?.[i]] on arrays. *)
Definition get_at (v : jsval) (i : nat) : jsval :=
  match v with JArr l => nth i l JUndef | _ => JUndef end.

(** The own fields of a spread [{...v}]. *)
Definition fields_of (v : jsval) : fields := match v with JObj f => f | _ => [] end.

(** [{...v, k: x}]. *)
Definition with_field (v : jsval) (k : string) (x : jsval) : jsval := JObj (set_field k x (fields_of v)).

(** [{...v, ...w}]. *)
Definition spread (v w : jsval) : jsval :=
  JObj (foldl (fun acc p => set_field p.1 p.2 acc) (fields_of v) (fields_of w)).

Definition has_own (v : jsval) (k : string) : bool := has_key k (fields_of v).

Definition is_array (v : jsval) : bool := match v with JArr _ => true | _ => false end.
Definition is_string (v : jsval) : bool := match v with JStr _ => true | _ => false end.
Definition is_number (v : jsval) : bool := match v with JNum _ => true | _ => false end.
Definition is_obj (v : jsval) : bool := match v with JObj _ => true | _ => false end.
Definition arr_of (v : jsval) : list jsval := match v with JArr l => l | _ => [] end.

(** [v && typeof v === 'object']: an object or an array. *)
Definition is_object (v : jsval) : bool := match v with JArr _ | JObj _ => true | _ => false end.

(** [v === 'text'], [v === true], [v === 3]. *)
Definition is_str (v : jsval) (s : string) : bool := match v with JStr t => String.eqb t s | _ => false end.
Definition is_bool (v : jsval) (b : bool) : bool := match v with JBool c => Bool.eqb b c | _ => false end.
Definition is_num (v : jsval) (z : Z) : bool := match v with JNum n => num_eqb n (num_of_Z z) | _ => false end.

(** [v == null]. *)
Definition is_nullish (v : jsval) : bool := match v with JUndef | JNull => true | _ => false end.

Definition truthy (v : jsval) : bool :=
  match v with
  | JUndef | JNull => false
  | JBool b => b
  | JNum (Fin q) => negb (Qeq_bool q 0)
  | JNum NaN => false
  | JNum _ => true
  | JStr s => negb (String.eqb s "")
  | JArr _ | JObj _ => true
  end.

(** [String(v)]. *)
Fixpoint to_string (v : jsval) : string :=
  match v with
  | JUndef => "undefined"
  | JNull => "null"
  | JBool true => "true"
  | JBool false => "false"
  | JNum n => num_to_string n
  | JStr s => s
  | JArr l =>
    join "," (List.map (fun x => match x with JUndef | JNull => "" | _ => to_string x end) l)
  | JObj _ => "[object Object]"
  end.

(** [Number(v)]. *)
Definition to_number (v : jsval) : num :=
  match v with
  | JUndef => NaN
  | JNull => Fin 0
  | JBool b => Fin (if b then 1 else 0)
  | JNum n => n
  | JStr s => str_to_num s
  | JArr _ | JObj _ => str_to_num (to_string v)
  end.

(** [a || b] and [a ?? b] as values. *)
Definition or_else (a b : jsval) : jsval := if truthy a then a else b.
Definition nullish_else (a b : jsval) : jsval := if is_nullish a then b else a.

(** [v || ''] as a string, as in [String(v || '')]. *)
Definition str_or_empty (v : jsval) : string := to_string (or_else v (JStr "")).

(** [Number(v) || 0]. *)
Definition num_or_zero (v : jsval) : num :=
  let n := to_number v in if truthy (JNum n) then n else Fin 0.

Notation "v ?. k" := (get v k%string) (at level 10, left associativity, format "v ?. k") : js_scope.
Notation "a ||| b" := (or_else a b) (at level 50, left associativity) : js_scope.
Notation "a ?? b" := (nullish_else a b) (at level 50, left associativity) : js_scope.
#[local] Open Scope js_scope.

(** Induction on values, through the elements of arrays and the values of fields. *)
Section ValueInd.
Context (P : jsval -> Prop) (Hundef : P JUndef) (Hnull : P JNull) (Hbool : forall b, P (JBool b))
  (Hnum : forall n, P (JNum n)) (Hstr : forall s, P (JStr s)) (Harr : forall l, Forall P l -> P (JArr l))
  (Hobj : forall f, Forall (fun p => P p.2) f -> P (JObj f)).
Fixpoint jsval_nested_ind (v : jsval) : P v :=
  match v with
  | JUndef => Hundef
  | JNull => Hnull
  | JBool b => Hbool b
  | JNum n => Hnum n
  | JStr s => Hstr s
  | JArr l =>
    Harr l ((fix go l := match l return Forall P l with
             | [] => @List.Forall_nil _ _
             | x :: r => @List.Forall_cons _ _ x r (jsval_nested_ind x) (go r) end) l)
  | JObj f =>
    Hobj f ((fix go f := match f return Forall (fun p => P p.2) f with
             | [] => @List.Forall_nil _ _
             | p :: r => @List.Forall_cons _ _ p r (jsval_nested_ind p.2) (go r) end) f)
  end.
End ValueInd.

(** ** Laws of property access *)

Lemma assoc_set_eq k v f : assoc k (set_field k v f) = v.
Proof.
  induction f as [|[k' v'] f IH]; simpl; [by rewrite String.eqb_refl|].
  destruct (String.eqb k k') eqn:E; simpl; rewrite E; done.
Qed.

Lemma assoc_set_ne k k' v f : k <> k' -> assoc k (set_field k' v f) = assoc k f.
Proof.
  intros Hne. induction f as [|[k2 v2] f IH]; simpl.
  - by rewrite (proj2 (String.eqb_neq k k') Hne).
  - destruct (String.eqb k' k2) eqn:E; simpl; [|by rewrite IH].
    apply String.eqb_eq in E; subst. by rewrite (proj2 (String.eqb_neq k k2) Hne).
Qed.

Lemma get_with_field_eq v k x : get (with_field v k x) k = x.
Proof. apply assoc_set_eq. Qed.

Lemma get_with_field_ne v k k' x : k <> k' -> get (with_field v k' x) k = get v k.
Proof. intros H. simpl. rewrite assoc_set_ne by done. by destruct v. Qed.

Lemma assoc_del_eq k f : assoc k (del_field k f) = JUndef.
Proof.
  induction f as [|[k' v'] f IH]; simpl; [done|].
  destruct (String.eqb k k') eqn:E; simpl; [done|]. by rewrite E.
Qed.

Lemma assoc_del_ne k k' f : k <> k' -> assoc k (del_field k' f) = assoc k f.
Proof.
  intros Hne. induction f as [|[k2 v2] f IH]; simpl; [done|].
  destruct (String.eqb k' k2) eqn:E; simpl; [|by rewrite IH].
  apply String.eqb_eq in E; subst. by rewrite (proj2 (String.eqb_neq k k2) Hne).
Qed.

Create Rewrite HintDb js.
#[export] Hint Rewrite assoc_set_eq get_with_field_eq assoc_del_eq : js.
#[export] Hint Rewrite assoc_set_ne get_with_field_ne assoc_del_ne using (discriminate || congruence || assumption) : js.

(** [simpl_js] normalises property reads of updated objects. *)
Ltac simpl_js := repeat (progress (autorewrite with js in * || simpl in *)).

(** [js_destruct] splits the conditionals of the goal. *)
Ltac js_destruct := repeat (case_match; simplify_eq/=).

Example to_number_ex : to_number (JStr " 12.50e1 ") = Fin 125 /\ to_number (JStr "0x1F") = Fin 31
  /\ to_number (JStr "1a") = NaN /\ to_number (JStr "") = Fin 0.
Proof. vm_compute. repeat split. Qed.
Example to_string_ex : to_string (JArr [JNum (Fin (17#2)); JNull; JStr "a"]) = "8.5,,a".
Proof. reflexivity. Qed.

(** ** Trimming *)

Lemma trim_start_idem s : trim_start (trim_start s) = trim_start s.
Proof. induction s as [|c s IH]; simpl; [done|]. destruct (is_space c) eqn:E; simpl; [done|]. by rewrite E. Qed.

Lemma trim_end_idem s : trim_end (trim_end s) = trim_end s.
Proof.
  induction s as [|c s IH]; simpl; [done|]. destruct (trim_end s) as [|d r] eqn:E.
  - destruct (is_space c) eqn:Ec; simpl; [done|]. by rewrite Ec.
  - remember (String d r) as t. simpl. rewrite IH. by subst.
Qed.

Lemma trim_start_end_fix s : trim_start s = s -> trim_start (trim_end s) = trim_end s.
Proof.
  destruct s as [|c s]; simpl; [done|]. destruct (is_space c) eqn:Ec.
  - intros H. exfalso. assert (Hl : (String.length (trim_start s) <= String.length s)%nat).
    { clear. induction s as [|c s IH]; simpl; [lia|]. destruct (is_space c); simpl; lia. }
    rewrite H in Hl. simpl in Hl. lia.
  - intros _. destruct (trim_end s); simpl; by rewrite Ec.
Qed.

Lemma trim_trim s : trim (trim s) = trim s.
Proof. unfold trim. rewrite trim_start_end_fix; [apply trim_end_idem | apply trim_start_idem]. Qed.
