(* ===== verification/JsRegex.v ===== *)
(** * Regular expressions

    The patterns of the sources ([/.../i.test(s)]) as syntax trees, matched with
    Brzozowski derivatives, and the proof that the matcher decides the language a
    tree denotes.  A case-insensitive pattern is matched on the lower-cased text. *)

From S2P Require Import Prelude.
From S2P Require Import JsValue.
#[local] Open Scope string_scope.
#[local] Open Scope list_scope.

Inductive rx :=
| RVoid
| REps
| RChr (p : ascii -> bool)
| RSeq (a b : rx)
| RAlt (a b : rx)
| RStar (a : rx)
| RNot (a : rx).

Fixpoint nullable (r : rx) : bool :=
  match r with
  | RVoid | RChr _ => false
  | REps | RStar _ => true
  | RSeq a b => nullable a && nullable b
  | RAlt a b => nullable a || nullable b
  | RNot a => negb (nullable a)
  end.

(** Smart constructors that keep derivatives small. *)
Definition rseq (a b : rx) : rx :=
  match a with RVoid => RVoid | REps => b | _ => match b with RVoid => RVoid | _ => RSeq a b end end.
Definition ralt (a b : rx) : rx :=
  match a with RVoid => b | _ => match b with RVoid => a | _ => RAlt a b end end.

Fixpoint deriv (c : ascii) (r : rx) : rx :=
  match r with
  | RVoid | REps => RVoid
  | RChr p => if p c then REps else RVoid
  | RSeq a b =>
    if nullable a then ralt (rseq (deriv c a) b) (deriv c b) else rseq (deriv c a) b
  | RAlt a b => ralt (deriv c a) (deriv c b)
  | RStar a => rseq (deriv c a) (RStar a)
  | RNot a => RNot (deriv c a)
  end.

(** The whole of [s] matches [r]. *)
Fixpoint rx_full (r : rx) (s : string) : bool :=
  match s with
  | EmptyString => nullable r
  | String c s => rx_full (deriv c r) s
  end.

Definition any_char : rx := RChr (fun _ => true).
(** [.]: any character but the line terminators. *)
Definition dot : rx := RChr (fun c => negb (ascii_is 10 10 c || ascii_is 13 13 c)).
Definition anything : rx := RStar any_char.

(** A literal. *)
Fixpoint lit (s : string) : rx :=
  match s with
  | EmptyString => REps
  | String c EmptyString => RChr (Ascii.eqb c)
  | String c s => RSeq (RChr (Ascii.eqb c)) (lit s)
  end.

Definition ropt (r : rx) : rx := RAlt REps r.
Definition rplus (r : rx) : rx := RSeq r (RStar r).
Fixpoint ralts (l : list rx) : rx :=
  match l with [] => RVoid | [r] => r | r :: l => RAlt r (ralts l) end.
Fixpoint rseqs (l : list rx) : rx :=
  match l with [] => REps | [r] => r | r :: l => RSeq r (rseqs l) end.
Definition lits (l : list string) : rx := ralts (List.map lit l).
Definition one_of (s : string) : rx :=
  RChr (fun c => includes s (String c EmptyString)).

(** [r.test(s)] for an unanchored pattern, for [^r], and for [r$]. *)
Definition rx_test (r : rx) (s : string) : bool := rx_full (RSeq anything (RSeq r anything)) s.
Definition rx_test_start (r : rx) (s : string) : bool := rx_full (RSeq r anything) s.
Definition rx_test_end (r : rx) (s : string) : bool := rx_full (RSeq anything r) s.
(** The same with the [i] flag. *)
Definition rx_test_i (r : rx) (s : string) : bool := rx_test r (to_lower s).

(** ** The language of a tree *)

Fixpoint lang (r : rx) (s : string) : Prop :=
  match r with
  | RVoid => False
  | REps => s = EmptyString
  | RChr p => exists c, s = String c EmptyString /\ p c = true
  | RSeq a b => exists s1 s2, s = (s1 ++ s2)%string /\ lang a s1 /\ lang b s2
  | RAlt a b => lang a s \/ lang b s
  | RStar a => exists l, s = String.concat EmptyString l /\ Forall (lang a) l
  | RNot a => ~ lang a s
  end.

Lemma append_nil_inv (s1 s2 : string) : EmptyString = (s1 ++ s2)%string -> s1 = EmptyString /\ s2 = EmptyString.
Proof. destruct s1; simpl; [auto | discriminate]. Qed.

Lemma concat_empty_cons (s : string) l :
  String.concat EmptyString (s :: l) = (s ++ String.concat EmptyString l)%string.
Proof. destruct l; simpl; [|done]. induction s; simpl; congruence. Qed.

Lemma append_assoc (a b c : string) : ((a ++ b) ++ c = a ++ (b ++ c))%string.
Proof. induction a; simpl; congruence. Qed.

Lemma nullable_spec r : nullable r = true <-> lang r EmptyString.
Proof.
  induction r as [| |p|a IHa b IHb|a IHa b IHb|a IHa|a IHa]; simpl.
  - split; [discriminate | tauto].
  - tauto.
  - split; [discriminate | intros (c & H & _); discriminate].
  - rewrite andb_true_iff, IHa, IHb. split.
    + intros [Ha Hb]. by exists EmptyString, EmptyString.
    + intros (s1 & s2 & E & Ha & Hb). apply append_nil_inv in E as [-> ->]. auto.
  - rewrite orb_true_iff, IHa, IHb. tauto.
  - split; [|done]. intros _. exists []. auto.
  - rewrite negb_true_iff, <- IHa. destruct (nullable a); split; congruence.
Qed.

Lemma rseq_lang a b s : lang (rseq a b) s <-> lang (RSeq a b) s.
Proof.
  assert (H0 : forall r, lang r s <-> lang (RSeq REps r) s).
  { intros r; simpl; split; [intros H; by exists EmptyString, s|].
    intros (s1 & s2 & -> & -> & H); done. }
  assert (H1 : forall r, False <-> lang (RSeq r RVoid) s).
  { intros r; simpl; split; [tauto|]. intros (? & ? & _ & _ & []). }
  destruct a; try (simpl; split; [tauto | intros (? & ? & _ & [] & _)]);
    try apply H0; destruct b; try reflexivity; apply H1.
Qed.

Lemma ralt_lang a b s : lang (ralt a b) s <-> lang a s \/ lang b s.
Proof. destruct a; simpl; try tauto; destruct b; simpl; tauto. Qed.

(** Splitting a non-empty concatenation at its first non-empty part. *)
Lemma concat_cons_inv (P : string -> Prop) c s l :
  String c s = String.concat EmptyString l -> Forall P l ->
  exists s1 l', s = (s1 ++ String.concat EmptyString l')%string /\ P (String c s1) /\ Forall P l'.
Proof.
  induction l as [|x l IH]; [discriminate|]. rewrite concat_empty_cons.
  intros E HF. apply Forall_cons in HF as [Hx HF]. destruct x as [|c' x]; simpl in E; [by apply IH|].
  injection E as -> ->. by exists x, l.
Qed.

Lemma deriv_spec c r s : lang (deriv c r) s <-> lang r (String c s).
Proof.
  revert s. induction r as [| |p|a IHa b IHb|a IHa b IHb|a IHa|a IHa]; intros s; simpl.
  - tauto.
  - split; [tauto | discriminate].
  - destruct (p c) eqn:E; simpl; split.
    + intros ->. by exists c.
    + intros (c' & H & _). by injection H.
    + tauto.
    + intros (c' & H & H'). injection H as -> ->. congruence.
  - assert (Hseq : lang (RSeq (deriv c a) b) s <->
      exists s1 s2, s = (s1 ++ s2)%string /\ lang a (String c s1) /\ lang b s2).
    { simpl. split; intros (s1 & s2 & E & Ha & Hb); exists s1, s2; rewrite IHa in *; auto. }
    assert (Hnn : lang (RSeq a b) (String c s) <->
      (lang a EmptyString /\ lang b (String c s)) \/ lang (RSeq (deriv c a) b) s).
    { rewrite Hseq. simpl. split.
      - intros ([|c' s1] & s2 & E & Ha & Hb); simpl in E; [subst; auto|].
        injection E as -> ->. right. by exists s1, s2.
      - intros [[Ha Hb]|(s1 & s2 & -> & Ha & Hb)]; [by exists EmptyString, (String c s)|].
        by exists (String c s1), s2. }
    simpl in Hnn. rewrite Hnn, <- nullable_spec.
    destruct (nullable a) eqn:E; [rewrite ralt_lang, IHb|]; rewrite rseq_lang; simpl;
      [|split; [|intros [[? _]|]; [congruence|]]]; tauto.
  - rewrite ralt_lang, IHa, IHb. tauto.
  - rewrite rseq_lang. simpl. split.
    + intros (s1 & s2 & -> & Ha & l & -> & HF). rewrite IHa in Ha.
      exists (String c s1 :: l). rewrite concat_empty_cons. auto.
    + intros (l & E & HF). destruct (concat_cons_inv _ _ _ _ E HF) as (s1 & l' & -> & Hx & HF').
      exists s1, (String.concat EmptyString l'). rewrite IHa. eauto.
  - by rewrite IHa.
Qed.

(** The matcher decides the language of the tree. *)
Lemma rx_full_spec r s : rx_full r s = true <-> lang r s.
Proof.
  revert r. induction s as [|c s IH]; intros r; simpl; [apply nullable_spec|].
  by rewrite IH, deriv_spec.
Qed.

Lemma anything_lang s : lang anything s.
Proof.
  induction s as [|c s IH]; simpl in *; [by exists []|].
  destruct IH as (l & E & HF). exists (String c EmptyString :: l).
  rewrite concat_empty_cons. simpl. rewrite <- E. split; [done|]. constructor; [by exists c|done].
Qed.

(** An unanchored test finds a factor of the text. *)
Lemma rx_test_spec r s :
  rx_test r s = true <-> exists pre m post, s = (pre ++ (m ++ post))%string /\ lang r m.
Proof.
  unfold rx_test. rewrite rx_full_spec. split.
  - intros (pre & x & -> & _ & m & post & -> & H & _). eauto.
  - intros (pre & m & post & -> & H). exists pre, (m ++ post)%string. split; [done|].
    split; [apply anything_lang|]. exists m, post. split; [done|]. split; [done | apply anything_lang].
Qed.

Example rx_ex : rx_test_i (RSeq (lit "tool_use") (RSeq (RStar dot) (lit "tool_result"))) "A Tool_Use then TOOL_RESULT" = true.
Proof. vm_compute. reflexivity. Qed.
