(* ===== verification/JsText.v ===== *)
(** * Text built-ins

    [split], [slice], uniqueness through [Set], iteration over the entries of an object, spreading one object
    over another and deleting keys, as the other files use them. *)

From S2P Require Import Prelude.
From S2P Require Import JsValue.
#[local] Open Scope string_scope.
#[local] Open Scope list_scope.
#[local] Open Scope js_scope.

(** [s.split(c)] for a set of separator characters. *)
Fixpoint split_chars (p : ascii -> bool) (s : string) : list string :=
  match s with
  | EmptyString => [""]
  | String c r =>
    if p c then "" :: split_chars p r
    else match split_chars p r with
         | w :: ws => String c w :: ws
         | [] => [String c ""]
         end
  end.
Definition split_char (c : ascii) : string -> list string := split_chars (Ascii.eqb c).

Definition nonempty (s : string) : bool := negb (String.eqb s "").

(** [s.split('/').filter(Boolean).pop() || s] *)
Definition last_segment (s : string) : string :=
  match rev (List.filter nonempty (split_char "/" s)) with w :: _ => w | [] => s end.

(** [s.slice(0, -n)] for [n > 0]. *)
Definition drop_last (n : nat) (s : string) : string := take_chars (String.length s - n) s.

(** [[...new Set(l)]] on strings: first occurrences. *)
Fixpoint uniq (l : list string) : list string :=
  match l with
  | [] => []
  | x :: r => x :: List.filter (fun y => negb (String.eqb x y)) (uniq r)
  end.

Definition mem (x : string) (l : list string) : bool := existsb (String.eqb x) l.

(** [xs.map(String)] and [Array.isArray(v) ? v.map(x => String(x || '').trim()).filter(Boolean) : ...]. *)
Definition trimmed (l : list jsval) : list string := List.filter nonempty (map (fun x => trim (str_or_empty x)) l).

Definition jstrs (l : list string) : jsval := JArr (map JStr l).

(** [Object.keys] of an object's own fields. *)
Definition keys (v : jsval) : list string := map fst (fields_of v).

(** [Object.entries]: the indices are the keys of an array and of a string. *)
Definition entries (v : jsval) : fields :=
  match v with
  | JObj f => f
  | JArr l => imap (fun i x => (Z_to_string (Z.of_nat i), x)) l
  | JStr s => imap (fun i c => (Z_to_string (Z.of_nat i), JStr (String c ""))) (list_ascii_of_string s)
  | _ => []
  end.

(** The equality of [Set] on primitives; two objects are never the same one. *)
Definition same_value (a b : jsval) : bool :=
  match a, b with
  | JUndef, JUndef | JNull, JNull => true
  | JBool x, JBool y => Bool.eqb x y
  | JNum NaN, JNum NaN => true
  | JNum x, JNum y => num_eqb x y
  | JStr x, JStr y => String.eqb x y
  | _, _ => false
  end.
Fixpoint uniq_values (l : list jsval) : list jsval :=
  match l with
  | [] => []
  | x :: r => x :: List.filter (fun y => negb (same_value x y)) (uniq_values r)
  end.

Lemma mem_spec x l : mem x l = true <-> x ∈ l.
Proof.
  unfold mem. rewrite existsb_exists. split.
  - intros (y & Hy & E). apply String.eqb_eq in E as ->. by apply list_elem_of_In.
  - intros H. exists x. split; [by apply list_elem_of_In|apply String.eqb_refl].
Qed.

Lemma uniq_spec l : (forall x, x ∈ uniq l <-> x ∈ l) /\ NoDup (uniq l).
Proof.
  induction l as [|x l [IH1 IH2]]; [split; [done|constructor]|]. cbn [uniq]. split.
  - intros y. rewrite !elem_of_cons, list_elem_of_In, filter_In, <- list_elem_of_In, IH1.
    destruct (String.eqb_spec x y) as [->|Hn]; [tauto|]. simpl. intuition congruence.
  - apply NoDup_cons. split.
    + rewrite list_elem_of_In, filter_In, String.eqb_refl. intros [_ H]. done.
    + apply NoDup_ListNoDup, List.NoDup_filter, NoDup_ListNoDup, IH2.
Qed.

Example last_segment_ex : map last_segment ["anthropic/claude-opus-5"; "sonnet"; "/"] = ["claude-opus-5"; "sonnet"; "/"].
Proof. reflexivity. Qed.

(** [{...v}] and [{...v, k: x}] when [v] may be an array (whose indices are its keys). *)
Definition own (v : jsval) : jsval := JObj (entries v).
Definition with_own (v : jsval) (k : string) (x : jsval) : jsval := JObj (set_field k x (entries v)).
Definition without (v : jsval) (k : string) : jsval := JObj (del_field k (entries v)).

Lemma get_with_own_eq v k x : get (with_own v k x) k = x.
Proof. apply assoc_set_eq. Qed.

Lemma get_with_own_ne v k k' x : is_obj v = true -> k <> k' -> get (with_own v k' x) k = get v k.
Proof. intros Ha H. simpl. rewrite assoc_set_ne by done. by destruct v. Qed.

Lemma get_without_ne v k k' : is_obj v = true -> k <> k' -> get (without v k') k = get v k.
Proof. intros Ha H. simpl. rewrite assoc_del_ne by done. by destruct v. Qed.

Lemma get_without_eq v k : get (without v k) k = JUndef.
Proof. apply assoc_del_eq. Qed.


Definition newline : string := String (ascii_of_nat 10) "".

(** [s.replace(/a/g, b)] for single characters. *)
Fixpoint replace_char (a b : ascii) (s : string) : string :=
  match s with
  | EmptyString => EmptyString
  | String c r => String (if Ascii.eqb c a then b else c) (replace_char a b r)
  end.

(** ** Own keys *)

Lemma has_key_set k k' v f : has_key k (set_field k' v f) = String.eqb k k' || has_key k f.
Proof.
  induction f as [|[k2 v2] f IH]; simpl; [done|].
  destruct (String.eqb k' k2) eqn:E; simpl.
  - apply String.eqb_eq in E as ->. by destruct (String.eqb k k2).
  - rewrite IH. destruct (String.eqb k k2), (String.eqb k k'); reflexivity.
Qed.

Lemma has_key_del k k' f : has_key k (del_field k' f) = negb (String.eqb k' k) && has_key k f.
Proof.
  induction f as [|[k2 v2] f IH]; simpl; [by rewrite andb_false_r|].
  destruct (String.eqb_spec k' k2) as [->|Hn]; simpl; rewrite IH.
  - destruct (String.eqb_spec k2 k) as [->|H2]; simpl; [done|].
    by rewrite (proj2 (String.eqb_neq k k2)) by congruence.
  - destruct (String.eqb_spec k k2) as [->|H2]; simpl; [|done].
    by rewrite (proj2 (String.eqb_neq k' k2)) by done.
Qed.

Lemma keys_has_key k v : k ∈ keys v <-> has_own v k = true.
Proof.
  unfold keys, has_own. induction (fields_of v) as [|[k' x] f IH]; simpl; [split; [inversion 1|done]|].
  rewrite elem_of_cons, orb_true_iff, String.eqb_eq, IH. tauto.
Qed.

Lemma has_own_with v k k' x : has_own (with_field v k' x) k = String.eqb k k' || has_own v k.
Proof. apply has_key_set. Qed.

(** ** Concatenation *)

Lemma string_app_assoc (a b c : string) : ((a ++ b) ++ c = a ++ (b ++ c))%string.
Proof. induction a as [|x a IH]; [done|]. simpl. by rewrite IH. Qed.

Lemma take_chars_app a b : take_chars (String.length a) (a ++ b) = a.
Proof. induction a as [|x a IH]; simpl; [by destruct b|]. by rewrite IH. Qed.

Lemma drop_chars_app a b : drop_chars (String.length a) (a ++ b) = b.
Proof. induction a as [|x a IH]; simpl; [done|]. by rewrite IH. Qed.

Lemma string_app_nil (s : string) : (s ++ "")%string = s.
Proof. induction s as [|x s IH]; [done|]. simpl. by rewrite IH. Qed.

Lemma string_length_app (a b : string) : String.length (a ++ b) = (String.length a + String.length b)%nat.
Proof. induction a as [|x a IH]; simpl; [done|by rewrite IH]. Qed.

Lemma trim_end_snoc s c : is_space c = false -> trim_end (s ++ String c "") = (s ++ String c "")%string.
Proof.
  intros H. induction s as [|x s IH]; cbn [String.append trim_end]; [by rewrite H|].
  rewrite IH. by destruct s.
Qed.

(** Text between two characters that are not white space. *)
Lemma trim_between c s d : is_space c = false -> is_space d = false ->
  trim (String c (s ++ String d "")) = String c (s ++ String d "")%string.
Proof. intros Hc Hd. unfold trim. cbn [trim_start]. rewrite Hc. by apply (trim_end_snoc (String c s)). Qed.

(** Every character of a text. *)
Definition all_chars (p : ascii -> bool) (s : string) : bool := forallb p (list_ascii_of_string s).
Lemma all_chars_cons p c s : all_chars p (String c s) = p c && all_chars p s.
Proof. done. Qed.

(** ** Objects that are spread over others *)

(** [{...v, ...cols}] at a key [cols] does not have. *)
Lemma get_spread_other v cols k : has_key k cols = false -> (spread v (JObj cols))?.k = v?.k.
Proof.
  intros H. unfold spread. cbn [fields_of get]. assert (Hv : v?.k = assoc k (fields_of v)) by by destruct v.
  rewrite Hv. clear Hv. revert H. generalize (fields_of v). induction cols as [|[k2 x] r IH]; intros f H; [done|].
  cbn [foldl]. simpl in H. apply orb_false_iff in H as [H1 H2]. rewrite IH by done.
  apply assoc_set_ne. by apply String.eqb_neq.
Qed.
Lemma get_spread_head v k x f : has_key k f = false -> (spread v (JObj ((k, x) :: f)))?.k = x.
Proof.
  intros H. change (spread v (JObj ((k, x) :: f))) with (spread (JObj (set_field k x (fields_of v))) (JObj f)).
  rewrite get_spread_other by done. unfold get. apply assoc_set_eq.
Qed.

(** ** Keys that an object does not have

    Objects are cleaned by deleting the keys of a list and then given other fields: none of the
    keys comes back. *)

Definition lacks (ks : list string) (v : jsval) : bool := forallb (fun k => negb (has_own v k)) ks.

Lemma lacks_iff ks v : lacks ks v = true <-> forall k, k ∈ ks -> has_own v k = false.
Proof.
  unfold lacks. rewrite forallb_forall. split; intros H k Hk; apply negb_true_iff, H; by apply list_elem_of_In.
Qed.

Lemma lacks_get ks v k : lacks ks v = true -> k ∈ ks -> is_obj v = true -> get v k = JUndef.
Proof.
  rewrite lacks_iff. intros H Hk Ho. specialize (H k Hk). destruct v as [| | | | | |f]; try done. unfold has_own in H. cbn in *.
  induction f as [|[k' x] f IH]; [done|]. cbn in *. by destruct (String.eqb k k'); [|apply IH].
Qed.

Lemma lacks_field ks v k x : k ∉ ks -> lacks ks v = true -> lacks ks (with_field v k x) = true.
Proof.
  rewrite !lacks_iff. intros Hk H k' Hk'. specialize (H k' Hk'). unfold has_own, with_field in *. cbn [fields_of]. rewrite has_key_set, H, orb_false_r.
  apply String.eqb_neq. congruence.
Qed.

Lemma lacks_own ks v : is_obj v = true -> lacks ks v = true -> lacks ks (own v) = true.
Proof. by destruct v. Qed.

(** [delete], of one key and of a list of keys. *)
Lemma has_key_drop l : forall k f, has_key k (fold_left (fun out key => del_field key out) l f) = negb (existsb (String.eqb k) l) && has_key k f.
Proof.
  induction l as [|x l IH]; intros k f; [done|]. cbn [fold_left existsb]. rewrite IH, has_key_del, (String.eqb_sym x k).
  by destruct (String.eqb k x), (existsb (String.eqb k) l).
Qed.

Lemma lacks_dropped l f : lacks l (JObj (fold_left (fun out key => del_field key out) l f)) = true.
Proof.
  apply lacks_iff. intros k Hk. unfold has_own. cbn [fields_of]. rewrite has_key_drop.
  replace (existsb (String.eqb k) l) with true; [done|]. symmetry. apply existsb_exists. exists k. split; [by apply list_elem_of_In|apply String.eqb_refl].
Qed.

Lemma lacks_drop ks l v : is_obj v = true -> lacks ks v = true -> lacks ks (JObj (fold_left (fun out key => del_field key out) l (entries v))) = true.
Proof.
  rewrite !lacks_iff. intros Ho H k Hk. specialize (H k Hk). unfold has_own in *. cbn [fields_of]. rewrite has_key_drop.
  destruct v; try done. cbn in *. by rewrite H, andb_false_r.
Qed.

Lemma lacks_without ks v k : is_obj v = true -> lacks ks v = true -> lacks ks (without v k) = true.
Proof. apply (lacks_drop ks [k] v). Qed.

Lemma lacks_app ks ks' v : lacks ks v = true -> lacks ks' v = true -> lacks (ks ++ ks') v = true.
Proof. unfold lacks. intros H H'. by rewrite forallb_app, H, H'. Qed.

Lemma lacks_sub ks ks' v : (forall k, k ∈ ks' -> k ∈ ks) -> lacks ks v = true -> lacks ks' v = true.
Proof. rewrite !lacks_iff. auto. Qed.

(** A literal that is not in a list of literals. *)
Ltac not_listed := apply (bool_decide_unpack _); exact I.
