(* ===== verification/JsDate.v ===== *)
(** * Dates

    [Date.parse] on the ISO 8601 forms the code reads ([YYYY-MM-DD] with an
    optional time of day, fraction and offset), by the proleptic Gregorian day
    count.  A date-time without offset is read in UTC (the container's zone), and
    a text in another format is not a date here; and [toISOString]. *)

From S2P Require Import Prelude.
From S2P Require Import JsValue.
#[local] Open Scope string_scope.
#[local] Open Scope Z_scope.

(** Days since 1970-01-01 of a civil date. *)
Definition days_from_civil (y m d : Z) : Z :=
  let y' := if m <=? 2 then y - 1 else y in
  let era := y' / 400 in
  let yoe := y' - era * 400 in
  let mp := (m + 9) mod 12 in
  let doy := (153 * mp + 2) / 5 + d - 1 in
  let doe := yoe * 365 + yoe / 4 - yoe / 100 + doy in
  era * 146097 + doe - 719468.

Definition is_leap (y : Z) : bool :=
  ((y mod 4 =? 0) && negb (y mod 100 =? 0)) || (y mod 400 =? 0).

Definition days_in_month (y m : Z) : Z :=
  match m with
  | 2 => if is_leap y then 29 else 28
  | 4 | 6 | 9 | 11 => 30
  | _ => 31
  end.

(** Exactly [n] digits. *)
Definition digits_n (n : nat) (s : string) : option (Z * string) :=
  let '(v, k, r) := take_digits 0 0 (take_chars n s) in
  match r with
  | EmptyString => if (k =? n)%nat then Some (v, drop_chars n s) else None
  | _ => None
  end.

Definition eat (c : ascii) (s : string) : option string :=
  match s with String d r => if Ascii.eqb c d then Some r else None | EmptyString => None end.

(** [Z], [+HH:mm], [-HH:mm] or nothing: the offset in minutes. *)
Definition parse_offset (s : string) : option Z :=
  match s with
  | EmptyString => Some 0
  | String c r =>
    if Ascii.eqb c "Z" then (match r with EmptyString => Some 0 | _ => None end)
    else if Ascii.eqb c "+" || Ascii.eqb c "-" then
      '(hh, r) ← digits_n 2 r; r ← eat ":" r; '(mm, r) ← digits_n 2 r;
      match r with
      | EmptyString => if (hh <=? 23) && (mm <=? 59)
                       then Some ((if Ascii.eqb c "-" then -1 else 1) * (hh * 60 + mm)) else None
      | _ => None
      end
    else None
  end.

(** Seconds and milliseconds after [HH:mm], and the rest. *)
Definition parse_seconds (s : string) : option (Z * Z * string) :=
  match eat ":" s with
  | None => Some (0, 0, s)
  | Some r =>
    '(ss, r) ← digits_n 2 r;
    match eat "." r with
    | None => Some (ss, 0, r)
    | Some r =>
      let '(_, k, rest) := take_digits 0 0 r in
      if (k =? 0)%nat then None
      else let '(v, n, _) := take_digits 0 0 (take_chars 3 (take_chars k r)) in
           Some (ss, v * 10 ^ (3 - Z.of_nat n), rest)
    end
  end.

Definition parse_time (s : string) : option (Z * Z) :=
  '(hh, r) ← digits_n 2 s; r ← eat ":" r; '(mm, r) ← digits_n 2 r;
  '(ss, ms, r) ← parse_seconds r; off ← parse_offset r;
  if (mm <=? 59) && (ss <=? 59) && ((hh <=? 23) || ((hh =? 24) && (mm =? 0) && (ss =? 0) && (ms =? 0)))
  then Some ((hh * 3600 + mm * 60 + ss) * 1000 + ms, off) else None.

(** Four digits, or a sign and six. *)
Definition parse_year (s : string) : option (Z * string) :=
  match s with
  | EmptyString => None
  | String c r =>
    if Ascii.eqb c "+" then digits_n 6 r
    else if Ascii.eqb c "-" then
      '(y, r) ← digits_n 6 r; if y =? 0 then None else Some (- y, r)
    else digits_n 4 s
  end.

Definition parse_iso (s : string) : option Z :=
  '(y, r) ← parse_year s;
  r ← eat "-" r; '(m, r) ← digits_n 2 r; r ← eat "-" r; '(d, r) ← digits_n 2 r;
  if negb ((1 <=? m) && (m <=? 12) && (1 <=? d) && (d <=? days_in_month y m)) then None
  else
    let day := days_from_civil y m d * 86400000 in
    match r with
    | EmptyString => Some day
    | String c r =>
      if Ascii.eqb c "T" || Ascii.eqb c "t" || Ascii.eqb c " " then
        '(t, off) ← parse_time r; Some (day + t - off * 60000)
      else None
    end.

(** The range of a time value: 100 million days around the epoch. *)
Definition MAX_TIME : Z := 8640000000000000.

(** [Date.parse(s)]. *)
Definition date_parse (s : string) : num :=
  match parse_iso s with Some z => if Z.abs z <=? MAX_TIME then num_of_Z z else NaN | None => NaN end.

Example date_ex : date_parse "2026-09-09T10:20:30.5Z" = num_of_Z 1788949230500
  /\ date_parse "2024-02-29" = num_of_Z 1709164800000 /\ date_parse "2023-02-29" = NaN
  /\ date_parse "1970-01-01T08:00:00+08:00" = num_of_Z 0.
Proof. vm_compute. repeat split. Qed.

(** ** Printing *)

(** The civil date of a day count: year, month, day. *)
Definition civil_from_days (days : Z) : Z * Z * Z :=
  let z := days + 719468 in
  let era := z / 146097 in
  let doe := z - era * 146097 in
  let yoe := (doe - doe / 1460 + doe / 36524 - doe / 146096) / 365 in
  let doy := doe - (365 * yoe + yoe / 4 - yoe / 100) in
  let mp := (5 * doy + 2) / 153 in
  let d := doy - (153 * mp + 2) / 5 + 1 in
  let m := if mp <? 10 then mp + 3 else mp - 9 in
  (yoe + era * 400 + (if m <=? 2 then 1 else 0), m, d).

(** The last [n] decimal digits of [v]. *)
Fixpoint pad_digits (n : nat) (v : Z) : string :=
  match n with O => "" | S n => (pad_digits n (v / 10) ++ String (ascii_of_nat (Z.to_nat (48 + v mod 10))) "")%string end.

(** [new Date(ms).toISOString()] within the range of Date; the RangeError is none. *)
Definition to_iso (ms : Z) : option string :=
  if (MAX_TIME <? Z.abs ms) then None
  else
    let '(y, m, d) := civil_from_days (ms / 86400000) in
    let t := ms mod 86400000 in
    let year := if (0 <=? y) && (y <=? 9999) then pad_digits 4 y
                else String (if (y <? 0)%Z then "-"%char else "+"%char) (pad_digits 6 (Z.abs y)) in
    Some (year ++ "-" ++ pad_digits 2 m ++ "-" ++ pad_digits 2 d ++ "T" ++ pad_digits 2 (t / 3600000) ++ ":" ++
          pad_digits 2 (t / 60000 mod 60) ++ ":" ++ pad_digits 2 (t / 1000 mod 60) ++ "." ++
          pad_digits 3 (t mod 1000) ++ "Z")%string.

(** [new Date(n).toISOString()]: the fraction of [n] is dropped. *)
Definition num_to_iso (n : num) : option string :=
  match n with Fin q => to_iso (if Qle_bool 0 q then Qfloor q else - Qfloor (- q)) | _ => None end.

(** [new Date().toISOString()] at a clock reading. *)
Definition iso_now (now : Z) : jsval := JStr (default "" (to_iso now)).

Example iso_ex : map to_iso [0; 1709164800123; -1; 1788949230500]
  = [Some "1970-01-01T00:00:00.000Z"; Some "2024-02-29T00:00:00.123Z"; Some "1969-12-31T23:59:59.999Z"; Some "2026-09-09T10:20:30.500Z"]
  /\ to_iso MAX_TIME = Some "+275760-09-13T00:00:00.000Z" /\ date_parse "+275760-09-13T00:00:00.000Z" = num_of_Z MAX_TIME.
Proof. vm_compute. repeat split. Qed.
