(* ===== verification/IsoTime.v ===== *)
(** * ISO timestamps read back

    [Date.parse] of what [toISOString] prints is the time value it was given: the civil
    calendar of [JsDate] is inverted on the whole range of a Date. *)

From S2P Require Import Prelude.
From S2P Require Import JsValue.
From S2P Require Import JsText.
From S2P Require Import JsDate.
#[local] Open Scope string_scope.
#[local] Open Scope Z_scope.

(** ** The calendar inside an era of 400 years *)

(** Days before year [y] of an era that starts on March 1st. *)
Definition year_start (y : Z) : Z := 365 * y + y / 4 - y / 100.
(** 365 times the year of a day of the era, and a remainder. *)
Definition year_index (doe : Z) : Z := doe - doe / 1460 + doe / 36524 - doe / 146096.

Lemma year_index_mono a b : 0 <= a <= b -> b <= 146096 -> year_index a <= year_index b.
Proof. unfold year_index. intros Ha Hb. Z.to_euclidean_division_equations. lia. Qed.

Fixpoint all_from (p : Z -> bool) (n : nat) (z : Z) : bool :=
  match n with O => true | S n => p z && all_from p n (z + 1) end.

Lemma all_from_spec p n : forall z, all_from p n z = true -> forall k, z <= k < z + Z.of_nat n -> p k = true.
Proof.
  induction n as [|n IH]; intros z H k Hk; [lia|]. cbn [all_from] in H.
  apply andb_true_iff in H as [H1 H2]. destruct (decide (k = z)) as [->|Hn]; [done|]. apply (IH (z + 1)); [done|lia].
Qed.

Definition year_ok (y : Z) : bool :=
  (year_index (year_start y) / 365 =? y) && (year_index (Z.min 146096 (year_start (y + 1) - 1)) / 365 =? y).

Lemma years_ok y : 0 <= y < 400 -> year_ok y = true.
Proof. intros H. apply (all_from_spec year_ok 400 0); [vm_compute; reflexivity|lia]. Qed.

(** The year of a day: the one whose days contain it. *)
Lemma year_of_day doe : 0 <= doe < 146097 -> let y := year_index doe / 365 in
  0 <= y < 400 /\ year_start y <= doe /\ (doe < year_start (y + 1) \/ y = 399).
Proof.
  intros H y.
  assert (Hy : 0 <= y < 400).
  { assert (Hl := year_index_mono 0 doe ltac:(lia) ltac:(lia)).
    assert (Hr := year_index_mono doe 146096 ltac:(lia) ltac:(lia)).
    change (year_index 0) with 0 in Hl. change (year_index 146096) with 145999 in Hr.
    unfold y. Z.to_euclidean_division_equations. lia. }
  assert (Hs : forall a, 0 <= a < 400 -> 0 <= year_start a <= 146096).
  { intros a Ha. unfold year_start. Z.to_euclidean_division_equations. lia. }
  split; [done|]. split.
  - destruct (decide (year_start y <= doe)) as [|Hn]; [done|]. exfalso.
    assert (1 <= y). { destruct (decide (y = 0)) as [E|]; [|lia]. rewrite E in Hn. change (year_start 0) with 0 in Hn. lia. }
    assert (Hok := years_ok (y - 1) ltac:(lia)). unfold year_ok in Hok. apply andb_true_iff in Hok as [_ Hok].
    apply Z.eqb_eq in Hok. replace (y - 1 + 1) with y in Hok by lia.
    assert (Hm := year_index_mono doe (Z.min 146096 (year_start y - 1)) ltac:(lia) ltac:(lia)).
    assert (year_index doe / 365 <= year_index (Z.min 146096 (year_start y - 1)) / 365) by (apply Z.div_le_mono; lia).
    unfold y in *. lia.
  - destruct (decide (y = 399)) as [|Hn9]; [by right|]. left.
    destruct (decide (doe < year_start (y + 1))) as [|Hn]; [done|]. exfalso.
    assert (Hok := years_ok (y + 1) ltac:(lia)). unfold year_ok in Hok. apply andb_true_iff in Hok as [Hok _].
    apply Z.eqb_eq in Hok.
    assert (Hm := year_index_mono (year_start (y + 1)) doe ltac:(specialize (Hs (y + 1)); lia) ltac:(lia)).
    assert (year_index (year_start (y + 1)) / 365 <= year_index doe / 365) by (apply Z.div_le_mono; lia).
    unfold y in *. lia.
Qed.

(** Month and day of a day of the year; the last day exists in leap years. *)
Definition month_ok (doy : Z) : bool :=
  let mp := (5 * doy + 2) / 153 in
  let d := doy - (153 * mp + 2) / 5 + 1 in
  let m := if mp <? 10 then mp + 3 else mp - 9 in
  (1 <=? m) && (m <=? 12) && (1 <=? d) && ((m + 9) mod 12 =? mp) &&
  (if doy =? 365 then (m =? 2) && (d =? 29) else d <=? days_in_month 1 m) && (d <=? 31).

Lemma months_ok doy : 0 <= doy < 366 -> month_ok doy = true.
Proof. intros H. apply (all_from_spec month_ok 366 0); [vm_compute; reflexivity|lia]. Qed.

Lemma days_in_month_1 y m : 1 <= m <= 12 -> days_in_month 1 m <= days_in_month y m <= 31.
Proof.
  intros H. assert (m = 1 \/ m = 2 \/ m = 3 \/ m = 4 \/ m = 5 \/ m = 6 \/ m = 7 \/ m = 8 \/ m = 9 \/ m = 10 \/ m = 11 \/ m = 12) as E by lia.
  repeat destruct E as [->|E]; [..|subst m]; simpl; try lia. destruct (is_leap y); lia.
Qed.

Lemma leap_year yoe era : 0 <= yoe < 400 -> year_start (yoe + 1) - year_start yoe = 366 \/ yoe = 399 ->
  is_leap (yoe + era * 400 + 1) = true.
Proof.
  unfold is_leap, year_start. intros H [E| ->].
  - assert (Hm : (yoe + era * 400 + 1) mod 4 = 0 /\ (yoe + era * 400 + 1) mod 100 <> 0).
    { split; Z.to_euclidean_division_equations; lia. }
    destruct Hm as [-> Hm]. by rewrite (proj2 (Z.eqb_neq _ _) Hm).
  - replace (399 + era * 400 + 1) with (0 + (era + 1) * 400) by lia. rewrite Z_mod_plus_full.
    by rewrite orb_true_r.
Qed.

(** The calendar is inverted, and it only names days that exist. *)
Lemma civil_roundtrip days : let '(y, m, d) := civil_from_days days in
  1 <= m <= 12 /\ 1 <= d <= days_in_month y m /\ days_from_civil y m d = days.
Proof.
  unfold civil_from_days. cbv zeta.
  set (z := days + 719468). set (era := z / 146097). set (doe := z - era * 146097).
  assert (Hdoe : 0 <= doe < 146097) by (unfold doe, era; Z.to_euclidean_division_equations; lia).
  destruct (year_of_day doe Hdoe) as (Hy & Hlo & Hhi). fold (year_index doe).
  set (yoe := year_index doe / 365) in *. fold (year_start yoe). set (doy := doe - year_start yoe).
  assert (Hdoy : 0 <= doy < 366 /\ (doy = 365 -> year_start (yoe + 1) - year_start yoe = 366 \/ yoe = 399)).
  { unfold doy. revert Hlo Hhi. unfold year_start. clearbody yoe doe. intros Hlo Hhi.
    split; [|intros E; destruct Hhi as [Hhi|]; [|by right]; left]; Z.to_euclidean_division_equations; lia. }
  destruct Hdoy as [Hdoy Hleap].
  assert (Hm := months_ok doy Hdoy). unfold month_ok in Hm. cbv zeta in Hm.
  set (mp := (5 * doy + 2) / 153) in *. set (d := doy - (153 * mp + 2) / 5 + 1) in *.
  set (m := if mp <? 10 then mp + 3 else mp - 9) in *.
  rewrite !andb_true_iff in Hm. destruct Hm as [[[[[H1 H2] H3] H4] H5] H6].
  apply Z.leb_le in H1, H2, H3, H6. apply Z.eqb_eq in H4.
  split; [lia|]. split.
  - split; [done|]. destruct (doy =? 365) eqn:E.
    + apply andb_true_iff in H5 as [Em Ed]. apply Z.eqb_eq in Em, Ed. rewrite Em, Ed. simpl.
      rewrite leap_year; [done..|]. apply Hleap, Z.eqb_eq, E.
    + apply Z.leb_le in H5. etransitivity; [exact H5|]. apply days_in_month_1; lia.
  - unfold days_from_civil. cbv zeta. rewrite H4.
    assert (Ey : (if m <=? 2 then yoe + era * 400 + (if m <=? 2 then 1 else 0) - 1
                  else yoe + era * 400 + (if m <=? 2 then 1 else 0)) = yoe + era * 400).
    { destruct (m <=? 2); lia. }
    rewrite Ey. rewrite Z.div_add, (Z.div_small yoe 400) by lia.
    replace (yoe + era * 400 - (0 + era) * 400) with yoe by lia.
    unfold d, doy, year_start, doe, z. lia.
Qed.

(** ** Digits *)

Lemma digit_value v : 0 <= v < 10 -> let c := ascii_of_nat (Z.to_nat (48 + v)) in
  is_digit c = true /\ Z.of_nat (nat_of_ascii c) - 48 = v.
Proof.
  intros H. assert (v = 0 \/ v = 1 \/ v = 2 \/ v = 3 \/ v = 4 \/ v = 5 \/ v = 6 \/ v = 7 \/ v = 8 \/ v = 9) as E by lia.
  repeat destruct E as [->|E]; [..|subst v]; by vm_compute.
Qed.

Lemma pad_digits_length k v : String.length (pad_digits k v) = k.
Proof.
  revert v. induction k as [|k IH]; intros v; [done|]. cbn [pad_digits].
  rewrite string_length_app, IH. simpl. lia.
Qed.

Lemma take_digits_pad k : forall acc n v r, 0 <= v ->
  take_digits acc n (pad_digits k v ++ r) = take_digits (acc * 10 ^ Z.of_nat k + v mod 10 ^ Z.of_nat k) (n + k) r.
Proof.
  induction k as [|k IH]; intros acc n v r Hv.
  - simpl. rewrite Z.mod_1_r, Nat.add_0_r. f_equal. lia.
  - cbn [pad_digits]. rewrite string_app_assoc, IH by (apply Z.div_pos; lia). simpl.
    destruct (digit_value (v mod 10)) as [Hd Hz]; [apply Z.mod_pos_bound; lia|].
    rewrite Hd, Hz. replace (n + S k)%nat with (S (n + k)) by lia. f_equal.
    rewrite Nat2Z.inj_succ, Z.pow_succ_r by lia.
    rewrite (Z.rem_mul_r v 10 (10 ^ Z.of_nat k)) by lia. lia.
Qed.

Lemma digits_n_pad k v r : (k > 0)%nat -> 0 <= v < 10 ^ Z.of_nat k -> digits_n k (pad_digits k v ++ r) = Some (v, r).
Proof.
  intros Hk Hv. unfold digits_n.
  assert (Ht := take_chars_app (pad_digits k v) r). assert (Hd := drop_chars_app (pad_digits k v) r).
  rewrite pad_digits_length in Ht, Hd. rewrite Ht, Hd.
  replace (pad_digits k v) with (pad_digits k v ++ "")%string at 1; [|].
  - rewrite take_digits_pad by lia. simpl. rewrite Nat.eqb_refl, Z.mod_small by lia. done.
  - apply string_app_nil.
Qed.

Lemma eat_app c r : eat c (String c "" ++ r) = Some r.
Proof. simpl. by rewrite Ascii.eqb_refl. Qed.

Lemma parse_year_printed y r : Z.abs y < 1000000 ->
  parse_year ((if (0 <=? y) && (y <=? 9999) then pad_digits 4 y
               else String (if (y <? 0)%Z then "-"%char else "+"%char) (pad_digits 6 (Z.abs y))) ++ r) = Some (y, r).
Proof.
  intros Hy. destruct ((0 <=? y) && (y <=? 9999)) eqn:E.
  - apply andb_true_iff in E as [E1 E2]. apply Z.leb_le in E1, E2.
    assert (Hd := digits_n_pad 4 y r ltac:(lia) ltac:(simpl; lia)). revert Hd. cbn [pad_digits]. cbn [String.app].
    destruct (digit_value ((y / 10 / 10 / 10) mod 10)) as [Hc _]; [apply Z.mod_pos_bound; lia|].
    revert Hc. generalize (ascii_of_nat (Z.to_nat (48 + (y / 10 / 10 / 10) mod 10))). intros c Hc Hd.
    unfold parse_year. destruct (Ascii.eqb_spec c "+") as [->|_]; [done|].
    by destruct (Ascii.eqb_spec c "-") as [->|_]; [done|].
  - assert (Hd := digits_n_pad 6 (Z.abs y) r ltac:(lia) ltac:(simpl; lia)).
    cbn [String.app]. unfold parse_year. destruct (y <? 0) eqn:En.
    + apply Z.ltb_lt in En. cbn [Ascii.eqb Bool.eqb]. rewrite Hd. cbn [mbind option_bind].
      rewrite (proj2 (Z.eqb_neq (Z.abs y) 0)) by lia. f_equal. f_equal. lia.
    + apply Z.ltb_ge in En. cbn [Ascii.eqb Bool.eqb]. rewrite Hd. rewrite Z.abs_eq by lia. done.
Qed.

Lemma civil_year_bound days y m d : civil_from_days days = (y, m, d) -> Z.abs days <= 100000001 -> Z.abs y < 1000000.
Proof.
  intros E Hd. assert (H := civil_roundtrip days). rewrite E in H. destruct H as (Hm & Hdm & H).
  assert (Hd31 : d <= 31) by (destruct (days_in_month_1 y m); lia).
  revert H. unfold days_from_civil. destruct (m <=? 2); intros H; Z.to_euclidean_division_equations; lia.
Qed.

(** ** Timestamps *)

Lemma seconds_printed ss ms : 0 <= ss < 60 -> 0 <= ms < 1000 ->
  parse_seconds (":" ++ pad_digits 2 ss ++ "." ++ pad_digits 3 ms ++ "Z") = Some (ss, ms, "Z").
Proof.
  intros Hs Hms. unfold parse_seconds. rewrite eat_app, digits_n_pad by (simpl; lia). cbn [mbind option_bind].
  rewrite eat_app, take_digits_pad by lia. 
  assert (Hl := take_chars_app (pad_digits 3 ms) "Z"). rewrite pad_digits_length in Hl.
  change (take_digits (0 * 10 ^ Z.of_nat 3 + ms mod 10 ^ Z.of_nat 3) (0 + 3) "Z")
    with (0 * 10 ^ Z.of_nat 3 + ms mod 10 ^ Z.of_nat 3, 3%nat, "Z").
  cbv iota beta. cbn [Nat.eqb]. rewrite Hl.
  assert (Hl2 := take_chars_app (pad_digits 3 ms) ""). rewrite pad_digits_length, string_app_nil in Hl2.
  rewrite Hl2. rewrite <- (string_app_nil (pad_digits 3 ms)), take_digits_pad by lia.
  cbn [take_digits]. rewrite Z.mod_small by (simpl; lia). f_equal. f_equal. f_equal. simpl. lia.
Qed.

Lemma time_printed hh mm ss ms : 0 <= hh < 24 -> 0 <= mm < 60 -> 0 <= ss < 60 -> 0 <= ms < 1000 ->
  parse_time (pad_digits 2 hh ++ ":" ++ pad_digits 2 mm ++ ":" ++ pad_digits 2 ss ++ "." ++ pad_digits 3 ms ++ "Z")
  = Some ((hh * 3600 + mm * 60 + ss) * 1000 + ms, 0).
Proof.
  intros Hh Hm Hs Hms. unfold parse_time. rewrite digits_n_pad by (simpl; lia). cbn [mbind option_bind].
  rewrite eat_app. cbn [mbind option_bind]. rewrite digits_n_pad by (simpl; lia). cbn [mbind option_bind].
  rewrite seconds_printed by done. cbn [mbind option_bind parse_offset Ascii.eqb Bool.eqb].
  by rewrite !(proj2 (Z.leb_le _ _)) by lia.
Qed.

Lemma iso_roundtrip ms s : to_iso ms = Some s -> date_parse s = num_of_Z ms.
Proof.
  unfold to_iso. destruct (MAX_TIME <? Z.abs ms) eqn:Emax; [done|]. apply Z.ltb_ge in Emax.
  assert (Hc := civil_roundtrip (ms / 86400000)).
  destruct (civil_from_days (ms / 86400000)) as [[y m] d] eqn:Ec. cbv zeta.
  destruct Hc as (Hm & Hd & Hdays).
  assert (Hy : Z.abs y < 1000000).
  { apply (civil_year_bound _ _ _ _ Ec). unfold MAX_TIME in Emax. Z.to_euclidean_division_equations. lia. }
  assert (Hd31 : d <= 31) by (destruct (days_in_month_1 y m); lia).
  intros Heq. apply (inj Some) in Heq as <-. unfold date_parse, parse_iso.
  rewrite parse_year_printed by done. cbn [mbind option_bind].
  set (t := ms mod 86400000). assert (Ht : 0 <= t < 86400000) by (apply Z.mod_pos_bound; lia).
  assert (Hh : 0 <= t / 3600000 < 24) by (Z.to_euclidean_division_equations; lia).
  assert (Hmi : 0 <= t / 60000 mod 60 < 60) by (apply Z.mod_pos_bound; lia).
  assert (Hs : 0 <= t / 1000 mod 60 < 60) by (apply Z.mod_pos_bound; lia).
  assert (Hms : 0 <= t mod 1000 < 1000) by (apply Z.mod_pos_bound; lia).
  rewrite eat_app. cbn [mbind option_bind]. rewrite digits_n_pad by (simpl; lia). cbn [mbind option_bind].
  rewrite eat_app. cbn [mbind option_bind]. rewrite digits_n_pad by (simpl; lia). cbn [mbind option_bind].
  rewrite !(proj2 (Z.leb_le _ _)) by lia. cbn [andb negb].
  set (rest := (pad_digits 2 (t / 3600000) ++ _)%string).
  change ("T" ++ rest)%string with (String "T" rest). cbn [Ascii.eqb Bool.eqb orb]. unfold rest.
  rewrite (time_printed _ _ _ _ Hh Hmi Hs Hms). cbn [mbind option_bind].
  replace (days_from_civil y m d * 86400000 + _ - 0 * 60000) with ms.
  - by rewrite (proj2 (Z.leb_le _ _)) by lia.
  - rewrite Hdays. unfold t. Z.to_euclidean_division_equations. lia.
Qed.
