(* ===== verification/QuotaWindow.v ===== *)
(** * Rate-limit windows (src/src/lib/pool/quota-window.mjs)

    The 5h / 7d windows an account carries ([official] and [headers] views of the
    [unified] record), the rules that clear a window whose reset has elapsed or
    that is a leftover of an earlier one, and the numbers the panel and the
    scheduler read from them. *)

From S2P Require Import Prelude.
From S2P Require Import JsValue.
From S2P Require Import JsDate.
#[local] Open Scope string_scope.
#[local] Open Scope list_scope.
#[local] Open Scope js_scope.

Definition WINDOW_5H_MS : num := num_of_Z 18000000.
Definition WINDOW_7D_MS : num := num_of_Z 604800000.
Definition ten_digits : num := num_of_Z 10000000000.

(** Seconds below ten digits, milliseconds above. *)
Definition seconds_or_ms (n : num) : num :=
  if num_ltb n ten_digits then num_mul n (num_of_Z 1000) else n.

(** [/^\d+(\.\d+)?$/] *)
Definition is_plain_decimal (s : string) : bool :=
  let '(_, n, r) := take_digits 0 0 s in
  if (n =? 0)%nat then false
  else match r with
       | EmptyString => true
       | String "." r => let '(_, n, r) := take_digits 0 0 r in negb (n =? 0)%nat && String.eqb r ""
       | _ => false
       end.

Definition parseResetMs (reset : jsval) : num :=
  match reset with
  | JUndef | JNull => NaN
  | JNum (Fin q) => seconds_or_ms (Fin q)
  | _ =>
    let str := trim (to_string reset) in
    if String.eqb str "" then NaN
    else if is_plain_decimal str then
      let n := str_to_num str in
      if negb (is_finite n) || num_leb n (Fin 0) then NaN else seconds_or_ms n
    else date_parse str
  end.

Definition parseUsedAtMs (value : jsval) : num :=
  match value with
  | JUndef | JNull => Fin 0
  | JNum (Fin q) => seconds_or_ms (Fin q)
  | JStr "" => Fin 0
  | _ => let parsed := date_parse (to_string value) in if is_finite parsed then parsed else Fin 0
  end.

(** [OFFICIAL_SOURCES.has(s)] *)
Definition is_official_source (s : string) : bool :=
  String.eqb s "vm-oauth-usage" || String.eqb s "official-cc-usage".

Definition windowHasData (window : jsval) : bool :=
  is_object window &&
  (negb (is_nullish (window?."utilization")) || truthy (window?."status") ||
   truthy (window?."reset") || truthy (window?."resets_at")).

Definition officialWindow (unified : jsval) (key : string) : jsval :=
  if windowHasData (unified?."official"?.key) then unified?."official"?.key
  else
    let legacyOfficial :=
      is_official_source (str_or_empty (unified?."source")) ||
      is_official_source (str_or_empty (unified?."last_probe"?."source")) in
    if legacyOfficial && windowHasData (unified?.key) then unified?.key
    else JObj [("utilization", jint 0); ("reset", JNull); ("status", JStr "active")].

Definition empty_window : jsval :=
  JObj [("utilization", JNull); ("reset", JNull); ("status", JNull)].

Definition headerWindow (unified : jsval) (key : string) : jsval :=
  if windowHasData (unified?."headers"?.key) then unified?."headers"?.key
  else empty_window.

(** A window rewritten as open, with the reason. *)
Definition cleared (window : jsval) (reason : string) : jsval :=
  JObj [("utilization", jint 0); ("status", JStr "active"); ("reset", window?."reset" ?? JNull);
        ("stale", JBool true); ("stale_reason", JStr reason)].

(** [Number.isFinite(resetMs) && resetMs <= now] *)
Definition elapsed (resetMs now : num) : bool := is_finite resetMs && num_leb resetMs now.

Definition headerWindowOrEmpty (unified : jsval) (key : string) (now : num) : jsval :=
  let raw := headerWindow unified key in
  if negb (windowHasData raw) then empty_window
  else if elapsed (parseResetMs (raw?."reset")) now then cleared raw "reset_elapsed"
  else JObj [("utilization", raw?."utilization" ?? JNull); ("reset", raw?."reset" ?? JNull);
             ("status", raw?."status" ?? JNull)].

Definition isRejectedStatus (status : jsval) : bool :=
  let s := to_lower (str_or_empty status) in
  String.eqb s "rejected" || String.eqb s "rate_limited".

Definition isLimited (status utilization : jsval) : bool :=
  isRejectedStatus status ||
  (let n := to_number utilization in is_finite n && num_leb (Fin 1) n).

(** One turn of the loop of [wipeElapsedHeaderWindows]. *)
Definition wipe_key (now : num) (next : jsval) (key : string) : jsval * bool :=
  let w := next?.key in
  if negb (windowHasData w) then (next, false)
  else if elapsed (parseResetMs (w?."reset")) now
       then (with_field next key (cleared w "reset_elapsed"), true)
       else (next, false).

(** [if (!['5h','7d'].some(rejected)) next.exhausted_at = null] *)
Definition drop_exhausted (next : jsval) : jsval :=
  if isRejectedStatus (next?."5h"?."status") || isRejectedStatus (next?."7d"?."status")
  then next else with_field next "exhausted_at" JNull.

Definition wipeElapsedHeaderWindows (unified : jsval) (now : num) : jsval * bool :=
  let headers := unified?."headers" in
  if negb (is_object headers) then (headers, false)
  else
    let '(next, c5) := wipe_key now (JObj (fields_of headers)) "5h" in
    let '(next, c7) := wipe_key now next "7d" in
    ((if c5 || c7 then drop_exhausted next else next), c5 || c7).

(** One turn of the loop of [leftoverClearHeaderWindows]. *)
Definition leftover_key (now usedAt : num) (next : jsval) (key : string) (duration : num) : jsval * bool :=
  let w := next?.key in
  if negb (windowHasData w) || negb (isLimited (w?."status") (w?."utilization")) then (next, false)
  else
    let resetMs := parseResetMs (w?."reset") in
    if negb (is_finite resetMs) || num_leb resetMs now then (next, false)
    else
      let windowStart := num_sub resetMs duration in
      if negb (truthy (JNum usedAt)) || num_leb windowStart usedAt then (next, false)
      else (with_field next key (cleared w "header_no_in_window_usage"), true).

Definition leftoverClearHeaderWindows (unified : jsval) (now : num) (lastUsedAt : jsval) : jsval * bool :=
  let headers := unified?."headers" in
  if negb (is_object headers) then (headers, false)
  else
    let usedAt := parseUsedAtMs lastUsedAt in
    let '(next, c5) := leftover_key now usedAt (JObj (fields_of headers)) "5h" WINDOW_5H_MS in
    let '(next, c7) := leftover_key now usedAt next "7d" WINDOW_7D_MS in
    ((if c5 || c7 then drop_exhausted next else next), c5 || c7).

(** [v != null ? Number(v) : null] *)
Definition number_or_null (v : jsval) : jsval :=
  if is_nullish v then JNull else JNum (to_number v).

Definition listQuotaFromHeaders (unified : jsval) (now : num) : jsval :=
  let wiped := (wipeElapsedHeaderWindows unified now).1 ||| unified?."headers" ||| JObj [] in
  let view := with_field unified "headers" wiped in
  let w5 := headerWindowOrEmpty view "5h" now in
  let w7 := headerWindowOrEmpty view "7d" now in
  let oi := wiped?."7d_oi" ||| unified?."7d_oi" ||| JObj [] in
  JObj [("utilization_5h", number_or_null (w5?."utilization"));
        ("utilization_7d", number_or_null (w7?."utilization"));
        ("status_5h", w5?."status" ||| JNull);
        ("status_7d", w7?."status" ||| JNull);
        ("reset_5h", w5?."reset" ||| JNull);
        ("reset_7d", w7?."reset" ||| JNull);
        ("utilization_7d_oi", number_or_null (oi?."utilization"));
        ("status_7d_oi", oi?."status" ||| JNull);
        ("reset_7d_oi", oi?."reset" ||| JNull);
        ("5h", w5);
        ("7d", w7)].

Definition toPercentUsed (value : jsval) : jsval :=
  match value with
  | JUndef | JNull | JStr "" => JNull
  | _ =>
    let n := to_number value in
    if negb (is_finite n) then JNull
    else if num_ltb n (Fin 0) then jint 0
    else if num_leb n (Fin 1) then JNum (num_div (num_round (num_mul n (num_of_Z 10000))) (num_of_Z 100))
    else if num_ltb (num_of_Z 100) n then jint 100
    else JNum n
  end.

Definition publicUsageWindow (window : jsval) : jsval :=
  let utilization :=
    if is_nullish (window?."utilization") then JNull else toPercentUsed (window?."utilization") in
  let status := window?."status" ||| JNull in
  let resets_at := window?."reset" ||| window?."resets_at" ||| JNull in
  if is_nullish utilization && negb (truthy status) && negb (truthy resets_at) then JNull
  else JObj [("utilization", utilization); ("status", status); ("resets_at", resets_at)].

Definition usageWindowsEmpty (listed : jsval) : bool :=
  let view key u s r :=
    listed?.key |||
    JObj [("utilization", listed?.u); ("status", listed?.s); ("reset", listed?.r)] in
  negb (truthy (publicUsageWindow (view "5h" "utilization_5h" "status_5h" "reset_5h"))) &&
  negb (truthy (publicUsageWindow (view "7d" "utilization_7d" "status_7d" "reset_7d"))).

Definition projectRateWindows (unified : jsval) : jsval :=
  with_field (with_field unified "5h" (officialWindow unified "5h")) "7d" (officialWindow unified "7d").

Definition headerHardBlocked (unified : jsval) (key : string) (now : num) : bool :=
  let h := headerWindow unified key in
  isRejectedStatus (h?."status") && negb (elapsed (parseResetMs (h?."reset")) now).

Definition extraIsLiveOpen (window : jsval) (now : num) : bool :=
  windowHasData window && negb (elapsed (parseResetMs (window?."reset")) now) &&
  negb (isLimited (window?."status") (window?."utilization")).

(** The window passed through, marked as live. *)
Definition live_window (window : jsval) : jsval :=
  let utilization :=
    if is_nullish (window?."utilization") then JNull else JNum (to_number (window?."utilization")) in
  JObj [("utilization",
         if is_finite (to_number utilization) && negb (is_nullish utilization) then utilization
         else window?."utilization" ?? JNull);
        ("status", window?."status" ?? JNull);
        ("reset", window?."reset" ?? JNull);
        ("stale", JBool false)].

Definition effectiveRateWindow (window : jsval) (now : num) (lastUsedAt : jsval) (source : jsval)
    (durationMs : num) : jsval :=
  let utilization :=
    if is_nullish (window?."utilization") then JNull else JNum (to_number (window?."utilization")) in
  let status := window?."status" ?? JNull in
  let resetMs := parseResetMs (window?."reset") in
  if elapsed resetMs now then cleared window "reset_elapsed"
  else if negb (isLimited status utilization) then live_window window
  else
    let fromProbe := is_official_source (str_or_empty source) in
    if negb fromProbe then live_window window
    else
      let usedAt := parseUsedAtMs lastUsedAt in
      let windowStart := if is_finite resetMs then num_sub resetMs durationMs else NaN in
      if is_finite windowStart && truthy (JNum usedAt) && num_ltb usedAt windowStart
      then cleared window "probe_no_in_window_usage"
      else live_window window.

Definition isOfficialWindowLimited (window : jsval) (now : num) : bool :=
  isLimited (window?."status") (window?."utilization") &&
  negb (elapsed (parseResetMs (window?."reset")) now).

Definition applyEffectiveWindows (unified : jsval) (now : num) (lastUsedAt source : jsval) : jsval :=
  let projected := projectRateWindows unified in
  let src := source ||| projected?."source" ||| JNull in
  let eff key duration :=
    spread (projected?.key) (effectiveRateWindow (projected?.key ||| JObj []) now lastUsedAt src duration) in
  with_field (with_field projected "5h" (eff "5h" WINDOW_5H_MS)) "7d" (eff "7d" WINDOW_7D_MS).

(** ** Facts about windows *)

Lemma elapsed_mono r t1 t2 : num_leb t1 t2 = true -> elapsed r t1 = true -> elapsed r t2 = true.
Proof.
  unfold elapsed. intros Ht H. apply andb_true_iff in H as [-> H]. simpl. eauto with num.
Qed.

Lemma cleared_not_rejected w r : isRejectedStatus (cleared w r?."status") = false.
Proof. reflexivity. Qed.

Lemma cleared_has_data w r : windowHasData (cleared w r) = true.
Proof. reflexivity. Qed.

Lemma cleared_reset w r : parseResetMs (cleared w r?."reset") = parseResetMs (w?."reset").
Proof. simpl. by destruct (w?."reset"). Qed.

(** A wiped window blocks neither before nor after the wipe: the wipe only
    rewrites windows whose reset has elapsed. *)
Definition blocks (w : jsval) (now : num) : bool :=
  windowHasData w && isRejectedStatus (w?."status") && negb (elapsed (parseResetMs (w?."reset")) now).

Lemma headerHardBlocked_blocks unified key now :
  headerHardBlocked unified key now = blocks (unified?."headers"?.key) now.
Proof.
  unfold headerHardBlocked, headerWindow, blocks.
  destruct (windowHasData (unified?."headers"?.key)); simpl; [done|reflexivity].
Qed.

Lemma wipe_key_blocks now next key k :
  blocks ((wipe_key now next key).1?.k) now = blocks (next?.k) now.
Proof.
  unfold wipe_key. destruct (windowHasData (next?.key)) eqn:Hd; simpl negb; cbv iota; [|done].
  destruct (elapsed _ _) eqn:He; [|done]. cbn [fst].
  destruct (String.eqb_spec k key) as [->|Hne]; [|by rewrite get_with_field_ne].
  rewrite get_with_field_eq. unfold blocks. rewrite cleared_not_rejected, Hd, He.
  by rewrite !andb_false_r.
Qed.

Lemma drop_exhausted_get next k : k <> "exhausted_at" -> drop_exhausted next?.k = next?.k.
Proof. intros Hk. unfold drop_exhausted. case_match; [done|]. by rewrite get_with_field_ne. Qed.

Lemma get_spread_fields v k : is_object v = true -> JObj (fields_of v)?.k = v?.k.
Proof. by destruct v. Qed.

Lemma wipe_blocks unified now key :
  key <> "exhausted_at" ->
  blocks ((wipeElapsedHeaderWindows unified now).1?.key) now = blocks (unified?."headers"?.key) now.
Proof.
  intros Hk. unfold wipeElapsedHeaderWindows.
  destruct (is_object (unified?."headers")) eqn:Ho; simpl negb; cbv iota; [|done].
  destruct (wipe_key now (JObj (fields_of (unified?."headers"))) "5h") as [n5 c5] eqn:E5.
  destruct (wipe_key now n5 "7d") as [n7 c7] eqn:E7. cbn [fst].
  assert (H7 : blocks (n7?.key) now = blocks (unified?."headers"?.key) now).
  { pose proof (wipe_key_blocks now n5 "7d" key) as H. rewrite E7 in H. cbn [fst] in H. rewrite H.
    pose proof (wipe_key_blocks now (JObj (fields_of (unified?."headers"))) "5h" key) as H5.
    rewrite E5 in H5. cbn [fst] in H5. by rewrite H5, get_spread_fields. }
  by destruct (c5 || c7); [rewrite drop_exhausted_get|].
Qed.

(** The wipe never changes an admission decision. *)
Theorem wipe_preserves_hard_block unified key now :
  key <> "exhausted_at" ->
  headerHardBlocked (with_field unified "headers" (wipeElapsedHeaderWindows unified now).1) key now
  = headerHardBlocked unified key now.
Proof.
  intros Hk. rewrite !headerHardBlocked_blocks, get_with_field_eq. by apply wipe_blocks.
Qed.

(** a header block is only ever lifted by time: if an account is blocked at a
    later instant it was blocked at every earlier one, and from the reset on it is
    open again. *)
Theorem hard_block_antitone unified key t1 t2 :
  num_leb t1 t2 = true ->
  headerHardBlocked unified key t2 = true ->
  headerHardBlocked unified key t1 = true /\
  (is_finite (parseResetMs (headerWindow unified key?."reset")) = true ->
   headerHardBlocked unified key (parseResetMs (headerWindow unified key?."reset")) = false).
Proof.
  intros Ht H. unfold headerHardBlocked in *.
  apply andb_true_iff in H as [Hr He]. rewrite Hr. simpl. split.
  - apply negb_true_iff in He. apply negb_true_iff.
    destruct (elapsed _ t1) eqn:E1; [|done]. eapply elapsed_mono in E1; [|done]. congruence.
  - intros Hf. apply negb_false_iff. unfold elapsed. rewrite Hf. simpl.
    destruct (parseResetMs _); simpl in *; try done. q_props. lra.
Qed.

(** When the official leftover rule clears a limited window. *)
Definition leftover_of_probe (window : jsval) (lastUsedAt source : jsval) (durationMs : num) : bool :=
  let resetMs := parseResetMs (window?."reset") in
  let usedAt := parseUsedAtMs lastUsedAt in
  is_official_source (str_or_empty source) && is_finite resetMs &&
  truthy (JNum usedAt) && num_ltb usedAt (num_sub resetMs durationMs).

Lemma limited_null_status u s : isLimited (s ?? JNull) u = isLimited s u.
Proof. by destruct s. Qed.

Lemma num_sub_finite a b : is_finite a = true -> is_finite b = true -> is_finite (num_sub a b) = true.
Proof. by destruct a, b. Qed.

(** The utilization as the code reads it, and whether the window is to be cleared. *)
Definition window_util (window : jsval) : jsval :=
  if is_nullish (window?."utilization") then JNull else JNum (to_number (window?."utilization")).
Definition window_stale (window : jsval) (now : num) (lastUsedAt source : jsval) (durationMs : num) : bool :=
  elapsed (parseResetMs (window?."reset")) now ||
  (isLimited (window?."status") (window_util window) && leftover_of_probe window lastUsedAt source durationMs).

Definition window_outcome (window : jsval) (stale : bool) (r : jsval) : Prop :=
  r?."stale" = JBool stale /\
  r?."reset" = window?."reset" ?? JNull /\
  r?."status" = (if stale then JStr "active" else window?."status" ?? JNull) /\
  (stale = true -> isLimited (r?."status") (r?."utilization") = false).

(** The effective window is exactly one of two outcomes.  It is cleared (0 %,
    active, marked stale, the reset kept) when its reset has elapsed or when an
    official probe's limit predates the window and nothing was used in it;
    otherwise it is the live window with the status the upstream reported. *)
Theorem effectiveRateWindow_spec window now lastUsedAt source durationMs :
  is_finite durationMs = true ->
  window_outcome window (window_stale window now lastUsedAt source durationMs)
    (effectiveRateWindow window now lastUsedAt source durationMs).
Proof.
  intros Hd. unfold window_outcome, window_stale, effectiveRateWindow, leftover_of_probe.
  fold (window_util window). set (util := window_util window). rewrite limited_null_status.
  destruct (elapsed _ now) eqn:He; [by cbn|]. rewrite orb_false_l.
  destruct (isLimited (window?."status") util) eqn:Hl; [|by cbn]. simpl negb. rewrite andb_true_l.
  cbv iota. destruct (is_official_source _) eqn:Hs; [|by cbn]. simpl negb. cbv iota zeta. rewrite andb_true_l.
  destruct (is_finite (parseResetMs (window?."reset"))) eqn:Hf; [|by cbn].
  rewrite num_sub_finite by done. rewrite !andb_true_l.
  by destruct (truthy _ && num_ltb _ _) eqn:E.
Qed.

(** Usage seen inside a limited header window keeps it: [leftoverClear] only
    opens a window whose whole use lies before its start. *)
Theorem leftover_keeps_used_window unified now lastUsedAt key duration :
  (key = "5h" /\ duration = WINDOW_5H_MS) \/ (key = "7d" /\ duration = WINDOW_7D_MS) ->
  is_obj (unified?."headers") = true ->
  num_leb (num_sub (parseResetMs (unified?."headers"?.key?."reset")) duration) (parseUsedAtMs lastUsedAt) = true ->
  (leftoverClearHeaderWindows unified now lastUsedAt).1?.key = unified?."headers"?.key.
Proof.
  intros Hk Ho Hu. set (w := unified?."headers"?.key) in *. unfold leftoverClearHeaderWindows.
  destruct (unified?."headers") as [| | | | | |f] eqn:Eh; try done. simpl is_object. cbv iota beta.
  set (used := parseUsedAtMs lastUsedAt) in *. change (JObj (fields_of (JObj f))) with (JObj f).
  assert (Hsame : forall n d k, k <> key -> (leftover_key now used n k d).1?.key = n?.key).
  { intros n d k Hne. unfold leftover_key. repeat case_match; try done. cbn [fst].
    by rewrite get_with_field_ne. }
  assert (Hkeep : forall n, n?.key = w -> (leftover_key now used n key duration).1 = n).
  { intros n Hn. unfold leftover_key. rewrite Hn. repeat case_match; try done.
    match goal with H : _ || _ = false |- _ => apply orb_false_iff in H as [_ H] end. congruence. }
  assert (Hx : forall n c, n?.key = w -> (if c : bool then drop_exhausted n else n)?.key = w).
  { intros n [] Hn; [|done]. rewrite drop_exhausted_get; [done|]. by destruct Hk as [[-> _]|[-> _]]. }
  destruct (leftover_key now used (JObj f) "5h" WINDOW_5H_MS) as [n5 c5] eqn:E5.
  destruct (leftover_key now used n5 "7d" WINDOW_7D_MS) as [n7 c7] eqn:E7.
  apply Hx. apply (f_equal fst) in E5, E7. cbn [fst] in E5, E7. subst n5 n7.
  destruct Hk as [[-> ->]|[-> ->]].
  - rewrite Hsame by done. by rewrite Hkeep.
  - rewrite Hkeep; rewrite Hsame; done.
Qed.

(** The percentage shown for a window is absent or between 0 and 100, whatever
    the utilization field holds. *)
Theorem toPercentUsed_bounds value :
  toPercentUsed value = JNull \/
  exists n, toPercentUsed value = JNum (Fin n) /\ (0 <= n <= 100)%Q.
Proof.
  assert (H : forall n, let r := (if negb (is_finite n) then JNull
    else if num_ltb n (Fin 0) then jint 0
    else if num_leb n (Fin 1) then JNum (num_div (num_round (num_mul n (num_of_Z 10000))) (num_of_Z 100))
    else if num_ltb (num_of_Z 100) n then jint 100 else JNum n) in
    r = JNull \/ exists x, r = JNum (Fin x) /\ (0 <= x <= 100)%Q).
  { intros n r. subst r. destruct n as [q| | |]; cbn [is_finite negb]; [|by left..].
    right. destruct (num_ltb (Fin q) (Fin 0)) eqn:E0; [exists (inject_Z 0); split; [done|change (inject_Z 0) with 0%Q; lra]|].
    destruct (num_leb (Fin q) (Fin 1)) eqn:E1.
    - simpl in E0, E1. q_props.
      exists (Qred (inject_Z (Qfloor (Qred (q * inject_Z 10000) + (1 # 2))) / inject_Z 100)).
      split; [reflexivity|]. rewrite Qred_correct.
      set (m := (Qred (q * inject_Z 10000) + (1 # 2))%Q).
      assert (Hm : (0 <= m /\ m < inject_Z 10001)%Q).
      { change (inject_Z 10001) with 10001%Q. pose proof (Qred_correct (q * inject_Z 10000)) as Hr.
        change (inject_Z 10000) with 10000%Q in *. unfold m. split; lra. }
      pose proof (Qfloor_le m) as Hf.
      assert (Hlo : (0 <= Qfloor m)%Z).
      { change 0%Z with (Qfloor 0). apply Qfloor_resp_le. lra. }
      assert (Hhi : (Qfloor m <= 10000)%Z).
      { destruct Hm as [_ Hm]. assert ((inject_Z (Qfloor m) < inject_Z 10001)%Q) as Hlt by lra.
        rewrite <- Zlt_Qlt in Hlt. lia. }
      rewrite Zle_Qle in Hlo, Hhi. change (inject_Z 0) with 0%Q in Hlo. change (inject_Z 10000) with 10000%Q in Hhi.
      unfold Qdiv. change (/ inject_Z 100)%Q with (1 # 100)%Q. split; lra.
    - destruct (num_ltb (num_of_Z 100) (Fin q)) eqn:E2; [exists 100%Q; split; [done|lra]|].
      simpl in E0, E1, E2. q_props. change (inject_Z 100) with 100%Q in E2. exists q. split; [done|lra]. }
  destruct value as [| |b|n|s|l|f]; try (by left); try apply H.
  unfold toPercentUsed. destruct s; [by left|apply H].
Qed.

(** ** Witnesses *)

(** An account whose 5h window is rejected until the given instant and whose 7d
    window was rejected until an instant long past. *)
Definition sample_unified : jsval :=
  JObj [("source", JStr "vm-oauth-usage");
        ("headers", JObj [("5h", JObj [("utilization", jint 1); ("status", JStr "rejected"); ("reset", jint 1788949230)]);
                          ("7d", JObj [("utilization", jint 1); ("status", JStr "rejected"); ("reset", jint 1700000000)])])].
Definition sample_now : num := num_of_Z 1788940000000.

Lemma wipe_preserves_hard_block_witness :
  headerHardBlocked sample_unified "5h" sample_now = true /\
  headerHardBlocked (with_field sample_unified "headers" (wipeElapsedHeaderWindows sample_unified sample_now).1)
    "5h" sample_now = headerHardBlocked sample_unified "5h" sample_now.
Proof. split; [reflexivity | apply wipe_preserves_hard_block; discriminate]. Defined.

Lemma hard_block_antitone_witness :
  headerHardBlocked sample_unified "5h" (num_of_Z 1788930000000) = true /\
  (is_finite (parseResetMs (headerWindow sample_unified "5h"?."reset")) = true ->
   headerHardBlocked sample_unified "5h" (parseResetMs (headerWindow sample_unified "5h"?."reset")) = false).
Proof. apply (hard_block_antitone sample_unified "5h" (num_of_Z 1788930000000) sample_now); reflexivity. Defined.

Lemma effectiveRateWindow_spec_witness :
  let w := sample_unified?."headers"?."5h" in
  let r := effectiveRateWindow w sample_now (jint 1788900000) (JStr "vm-oauth-usage") WINDOW_5H_MS in
  r?."stale" = JBool true /\ r?."status" = JStr "active".
Proof.
  intros w r.
  destruct (effectiveRateWindow_spec w sample_now (jint 1788900000) (JStr "vm-oauth-usage") WINDOW_5H_MS)
    as (H1 & _ & H2 & _); [reflexivity|].
  split; [exact H1 | exact H2].
Defined.

Lemma leftover_keeps_used_window_witness :
  (leftoverClearHeaderWindows sample_unified sample_now (jint 1788940000)).1?."5h"
  = sample_unified?."headers"?."5h".
Proof.
  apply (leftover_keeps_used_window sample_unified sample_now (jint 1788940000) "5h" WINDOW_5H_MS);
    [left; split; reflexivity | reflexivity | reflexivity].
Defined.
