(* ===== verification/TierPolicy.v ===== *)
(** * Tier policies and the weekly split
    (src/src/lib/pool/quota-tiers.mjs, tier-limits.mjs, weekly-split.mjs)

    [QuotaTiers]: the normalised policy of the tiers default / pro / max.
    [TierLimits]: the resolution of one tier's limits in the routing file.
    [WeeklySplit]: the experimental split of the weekly quota. *)

From S2P Require Import Prelude.
From S2P Require Import JsValue.
#[local] Open Scope string_scope.
#[local] Open Scope list_scope.
#[local] Open Scope js_scope.

Definition dec (n d : positive) : num := Fin (Zpos n # d).

(** [Math.min(1, Math.max(0.3, v))] *)
Definition ratio_range (v : num) : num := num_min (Fin 1) (num_max (dec 3 10) v).

Module QuotaTiers.

Definition TIER_KEYS : list string := ["default"; "pro"; "max"].

Definition default_policy (conc : Z) (l5 l7 warn : num) : jsval :=
  JObj [("max_concurrency", jint conc); ("max_rpm", jint 0); ("limit_5h", JNum l5); ("limit_7d", JNum l7);
        ("max_sessions", jint 0); ("session_idle_min", jint 5); ("safety_ratio", JNum l5);
        ("weekly_safety_ratio", JNum l7); ("warn_ratio", JNum warn)].

Definition DEFAULT_TIER_POLICIES : jsval :=
  JObj [("default", default_policy 2 (dec 17 20) (dec 4 5) (dec 3 4));
        ("pro", default_policy 2 (dec 17 20) (dec 4 5) (dec 3 4));
        ("max", default_policy 4 (dec 19 20) (dec 19 20) (dec 17 20))].

Definition clampRatio (n : jsval) (fallback : num) : num :=
  let v := to_number n in if negb (is_finite v) then fallback else ratio_range v.

(** [!Number.isFinite(v) || v < lo ? fallback : Math.min(hi, Math.round(v))] *)
Definition clamp_count (lo hi : Z) (n : jsval) (fallback : num) : num :=
  let v := to_number n in
  if negb (is_finite v) || num_ltb v (num_of_Z lo) then fallback else num_min (num_of_Z hi) (num_round v).

Definition clampConcurrency (n : jsval) (fallback : num) : num := clamp_count 0 256 n fallback.
Definition clampRpm (n : jsval) (fallback : num) : num := clamp_count 0 1000000 n fallback.
Definition clampSessions (n : jsval) (fallback : num) : num := clamp_count 0 256 n fallback.
Definition clampIdleMin (n : jsval) (fallback : num) : num := clamp_count 1 1440 n fallback.

Definition resolveTierKey (tier : jsval) : string :=
  let k := to_lower (str_or_empty tier) in
  if String.eqb k "pro" || String.eqb k "max" then k else "default".

(** One turn of the loop of [mergeTierMaps]. *)
Definition merge_tier (prev next out : jsval) (key : string) : jsval :=
  if is_object (next?.key) then with_field out key (spread (prev?.key ||| JObj []) (next?.key)) else out.

Definition mergeTierMaps (prev next : jsval) : jsval :=
  let out := JObj (fields_of prev) in
  if negb (is_object next) then out else foldl (merge_tier prev next) out TIER_KEYS.

Definition readLimit5h (t base : jsval) : num :=
  clampRatio (t?."limit_5h" ?? t?."safety_ratio") (to_number (base?."limit_5h")).

Definition readLimit7d (t base : jsval) : num :=
  clampRatio (t?."limit_7d" ?? t?."weekly_safety_ratio" ?? t?."weekly_ratio") (to_number (base?."limit_7d")).

(** The policy object of one tier. *)
Definition normalize_tier (src : jsval) (key : string) : jsval :=
  let t := if is_object (src?.key) then src?.key else JObj [] in
  let base := DEFAULT_TIER_POLICIES?.key in
  let limit5 := readLimit5h t base in
  let limit7 := readLimit7d t base in
  let warn := clampRatio (t?."warn_ratio") (to_number (base?."warn_ratio")) in
  let warn := if num_ltb limit5 warn then limit5 else warn in
  JObj [("max_concurrency", JNum (clampConcurrency (t?."max_concurrency") (to_number (base?."max_concurrency"))));
        ("max_rpm", JNum (clampRpm (t?."max_rpm") (to_number (base?."max_rpm"))));
        ("limit_5h", JNum limit5);
        ("limit_7d", JNum limit7);
        ("max_sessions", JNum (clampSessions (t?."max_sessions") (to_number (base?."max_sessions"))));
        ("session_idle_min", JNum (clampIdleMin (t?."session_idle_min") (to_number (base?."session_idle_min"))));
        ("safety_ratio", JNum limit5);
        ("weekly_safety_ratio", JNum limit7);
        ("warn_ratio", JNum warn)].

Definition normalizeTiers (raw : jsval) : jsval :=
  let src := if is_object raw then raw else JObj [] in
  JObj (List.map (fun key => (key, normalize_tier src key)) TIER_KEYS).

Definition resolveTierPolicy (config tier : jsval) : jsval :=
  let tiers :=
    if is_object (config?."tiers") then normalizeTiers (config?."tiers") else normalizeTiers (JObj []) in
  tiers?.(resolveTierKey tier) ||| tiers?."default".

Definition accountTierKey (acc : jsval) : string :=
  resolveTierKey (acc?."unified"?."account_tier" ||| acc?."account_tier").

Definition isNearLimit (acc policy : jsval) : bool :=
  let p := policy ||| resolveTierPolicy (JObj []) (JStr (accountTierKey acc)) in
  let limit5 := to_number (p?."limit_5h" ?? p?."safety_ratio" ?? JNum (dec 17 20)) in
  let limit7 := to_number (p?."limit_7d" ?? p?."weekly_safety_ratio" ?? JNum (dec 4 5)) in
  let u := acc?."unified" ||| JObj [] in
  let w5 := u?."official"?."5h" ||| u?."5h" ||| JObj [] in
  let w7 := u?."official"?."7d" ||| u?."7d" ||| JObj [] in
  let u5 := to_number (w5?."utilization" ||| jint 0) in
  let u7 := to_number (w7?."utilization" ||| jint 0) in
  num_leb limit5 u5 || num_leb limit7 u7.

End QuotaTiers.

Module TierLimits.

Definition TIER_KEYS : list string := ["default"; "pro"; "max"].

Definition isConcurrencyPinned (policy : jsval) : bool :=
  match policy?."concurrencyOverride" with
  | JBool b => b
  | _ => negb (is_nullish (policy?."maxConcurrency"))
  end.

Definition normalizeTier (tier : jsval) : string := QuotaTiers.resolveTierKey tier.

(** The first value that is a number of at least 0; [null] and [''] are skipped. *)
Fixpoint pickNumber (values : list jsval) : option num :=
  match values with
  | [] => None
  | v :: r =>
    match v with
    | JUndef | JNull | JStr "" => pickNumber r
    | _ =>
      let n := to_number v in
      if is_finite n && num_leb (Fin 0) n then Some n else pickNumber r
    end
  end.

Definition pick_or (values : list jsval) (fallback : num) : num := default fallback (pickNumber values).

Definition tierLimits (routingConfig tier : jsval) : jsval :=
  let tiers := routingConfig?."tiers" ||| JObj [] in
  let base := tiers?."default" ||| JObj [] in
  let entry := tiers?.(normalizeTier tier) ||| JObj [] in
  let quota := routingConfig?."quota" ||| JObj [] in
  let concurrency := routingConfig?."concurrency" ||| JObj [] in
  let safety := pick_or [entry?."limit_5h"; entry?."safety_ratio"; base?."limit_5h";
                         base?."safety_ratio"; quota?."safety_ratio"] (dec 19 20) in
  let weekly := pick_or [entry?."limit_7d"; entry?."weekly_safety_ratio"; base?."limit_7d";
                         base?."weekly_safety_ratio"; quota?."weekly_safety_ratio"] safety in
  let warn := pick_or [entry?."warn_ratio"; base?."warn_ratio"; quota?."warn_ratio"] (dec 17 20) in
  JObj [("max_concurrency", JNum (pick_or [entry?."max_concurrency"; base?."max_concurrency";
           concurrency?."default_max_per_account"; concurrency?."default_key_concurrency"] (num_of_Z 20)));
        ("max_rpm", JNum (pick_or [entry?."max_rpm"; base?."max_rpm"; concurrency?."default_max_rpm"] (Fin 0)));
        ("limit_5h", JNum safety);
        ("limit_7d", JNum weekly);
        ("max_sessions", JNum (pick_or [entry?."max_sessions"; base?."max_sessions"] (Fin 0)));
        ("session_idle_min", JNum (pick_or [entry?."session_idle_min"; base?."session_idle_min"] (num_of_Z 5)));
        ("safety_ratio", JNum safety);
        ("weekly_safety_ratio", JNum weekly);
        ("warn_ratio", JNum (num_min warn safety))].

Definition clampRatio (value : jsval) : option num := n ← pickNumber [value]; Some (ratio_range n).

Definition opt_field (k : string) (v : option num) (f : fields) : fields :=
  match v with Some n => set_field k (JNum n) f | None => f end.

(** The entry kept for one tier of the panel's submission. *)
Definition tier_entry (entry : jsval) : fields :=
  let safety := clampRatio (entry?."limit_5h" ?? entry?."safety_ratio") in
  let weekly := clampRatio (entry?."limit_7d" ?? entry?."weekly_safety_ratio") in
  let warn := clampRatio (entry?."warn_ratio") in
  let conc := pickNumber [entry?."max_concurrency"] in
  let rpm := pickNumber [entry?."max_rpm"] in
  let sess := pickNumber [entry?."max_sessions"] in
  let idle := pickNumber [entry?."session_idle_min"] in
  let upto hi n := num_min (num_of_Z hi) (num_round n) in
  let next := opt_field "max_concurrency" (upto 256%Z <$> conc) [] in
  let next := opt_field "max_rpm" (upto 1000000%Z <$> rpm) next in
  let next := opt_field "safety_ratio" safety (opt_field "limit_5h" safety next) in
  let next := opt_field "weekly_safety_ratio" weekly (opt_field "limit_7d" weekly next) in
  let next := opt_field "warn_ratio"
    ((fun w => match safety with Some s => num_min w s | None => w end) <$> warn) next in
  let next := opt_field "max_sessions" (upto 256%Z <$> sess) next in
  opt_field "session_idle_min" ((fun n => num_min (num_of_Z 1440) (num_max (Fin 1) (num_round n))) <$> idle) next.

Definition normalizeTiersConfig (input : jsval) : jsval :=
  JObj (List.concat (List.map (fun key =>
    if is_object (input?.key) then
      match tier_entry (input?.key) with [] => [] | next => [(key, JObj next)] end
    else []) TIER_KEYS)).

End TierLimits.

Module WeeklySplit.

Definition DEFAULT_FABLE_SHARE : num := dec 1 2.

Definition clamp01 (n : num) : num :=
  if negb (is_finite n) then Fin 0 else num_max (Fin 0) (num_min (Fin 1) n).

Definition normalizeUtil (v : jsval) : option num :=
  match v with
  | JUndef | JNull | JStr "" => None
  | _ =>
    let x := to_number v in
    if negb (is_finite x) then None
    else Some (clamp01 (if num_ltb (dec 3 2) x then num_div x (num_of_Z 100) else x))
  end.

(** A share strictly between 0 and 1, else the default. *)
Definition share_or_default (v : jsval) : num :=
  let share := to_number v in
  if is_finite share && num_ltb (Fin 0) share && num_ltb share (Fin 1) then share else DEFAULT_FABLE_SHARE.

Definition weeklySplitConfig (quota : jsval) : bool * num :=
  let raw := if is_object (quota?."weekly_split") then quota?."weekly_split" else JObj [] in
  (match raw?."enabled" with JBool true => true | _ => false end, share_or_default (raw?."fable_share")).

Inductive split_mode := Open | FableOnly | RegularOnly.

Record split := {
  enabled : bool;
  fable_share : num;
  fable_used_weekly : num;
  regular_used_weekly : num;
  fable_remain_weekly : num;
  regular_remain_weekly : num;
  fable_blocked : bool;
  regular_blocked : bool;
  mode : split_mode;
}.

Definition mode_string (m : split_mode) : string :=
  match m with Open => "open" | FableOnly => "fable_only" | RegularOnly => "regular_only" end.

Definition publicWeeklySplit (sp : option split) : jsval :=
  match sp with
  | Some s =>
    if enabled s then
      JObj [("enabled", JBool true); ("fable_share", JNum (fable_share s));
            ("fable_used_weekly", JNum (fable_used_weekly s));
            ("regular_used_weekly", JNum (regular_used_weekly s));
            ("fable_remain_weekly", JNum (fable_remain_weekly s));
            ("regular_remain_weekly", JNum (regular_remain_weekly s));
            ("mode", JStr (mode_string (mode s)))]
    else JNull
  | None => JNull
  end.

Definition epsilon : num := dec 1 1000000000.

Definition computeWeeklySplit (utilization_7d utilization_7d_oi status_7d_oi fable_share_in : jsval)
    (en : bool) : split :=
  let share := share_or_default fable_share_in in
  let u7 := default (Fin 0) (normalizeUtil utilization_7d) in
  let uOi := default (Fin 0) (normalizeUtil utilization_7d_oi) in
  let st := to_lower (str_or_empty status_7d_oi) in
  let oiRejected := String.eqb st "rejected" || String.eqb st "rate_limited" in
  let fableUsed := num_min share (num_max (Fin 0) (num_mul uOi share)) in
  let regularUsed := num_min (Fin 1) (num_max (Fin 0) (num_sub u7 fableUsed)) in
  let fableRemain := num_max (Fin 0) (num_sub share fableUsed) in
  let regularRemain := num_max (Fin 0) (num_sub share regularUsed) in
  let fableBlocked := en && (num_leb fableRemain epsilon || oiRejected || num_leb (Fin 1) uOi) in
  let regularBlocked := en && num_leb regularRemain epsilon in
  {| enabled := en; fable_share := share;
     fable_used_weekly := fableUsed; regular_used_weekly := regularUsed;
     fable_remain_weekly := fableRemain; regular_remain_weekly := regularRemain;
     fable_blocked := fableBlocked; regular_blocked := regularBlocked;
     mode := if en then
               if regularBlocked && negb fableBlocked then FableOnly
               else if fableBlocked && negb regularBlocked then RegularOnly
               else if regularBlocked && fableBlocked then FableOnly else Open
             else Open |}.

Inductive split_reason := fable_split | regular_split.

Definition splitBlocksModel (sp : option split) (model : jsval) : option split_reason :=
  match sp with
  | None => None
  | Some s =>
    if negb (enabled s) then None
    else
      let fable := includes (to_lower (str_or_empty model)) "fable" in
      if fable && fable_blocked s then Some fable_split
      else if negb fable && regular_blocked s then Some regular_split
      else None
  end.

End WeeklySplit.

(** ** Ranges *)

Definition in_range (lo hi : Q) (n : num) : Prop := exists q, n = Fin q /\ (lo <= q <= hi)%Q.

Lemma in_range_finite lo hi n : in_range lo hi n -> is_finite n = true.
Proof. by intros (q & -> & _). Qed.

Lemma in_range_leb lo hi n : in_range lo hi n -> num_leb (Fin lo) n = true /\ num_leb n (Fin hi) = true.
Proof. intros (q & -> & H). rewrite !num_leb_Fin. tauto. Qed.

(** Clamping between finite bounds. *)
Lemma clamp_range lo hi n : (lo <= hi)%Q -> is_finite n = true ->
  in_range lo hi (num_min (Fin hi) (num_max (Fin lo) n)).
Proof.
  destruct n as [q| | |]; try done. intros H _. simpl. destruct (Qle_bool lo q) eqn:E1; simpl.
  - destruct (Qle_bool hi q) eqn:E2; simpl; q_props; eexists; (split; [done|lra]).
  - destruct (Qle_bool hi lo) eqn:E2; simpl; q_props; eexists; (split; [done|lra]).
Qed.

Lemma num_min_idem a b : num_min a (num_min a b) = num_min a b.
Proof.
  destruct a as [x| | |], b as [y| | |]; try done; simpl; try (destruct (Qle_bool x y) eqn:E; simpl; rewrite ?E);
    try done; try (by destruct (Qle_bool x x)).
Qed.

Lemma num_max_in_range lo hi r : in_range lo hi r -> num_max (Fin lo) r = r.
Proof. intros (q & -> & H). simpl. by replace (Qle_bool lo q) with true by (symmetry; apply Qle_bool_iff; lra). Qed.

(** Clamping twice is clamping once. *)
Lemma clamp_idempotent lo hi n : (lo <= hi)%Q -> is_finite n = true ->
  num_min (Fin hi) (num_max (Fin lo) (num_min (Fin hi) (num_max (Fin lo) n))) =
  num_min (Fin hi) (num_max (Fin lo) n).
Proof.
  intros H Hn. rewrite (num_max_in_range lo hi) by (by apply clamp_range). apply num_min_idem.
Qed.

Lemma Qfloor_Z_half z : Qfloor (inject_Z z + (1 # 2)) = z.
Proof.
  pose proof (Qfloor_le (inject_Z z + (1 # 2))) as H1. pose proof (Qlt_floor (inject_Z z + (1 # 2))) as H2.
  set (f := Qfloor _) in *.
  assert (inject_Z f < inject_Z (z + 1))%Q as Ha by (rewrite inject_Z_plus; change (inject_Z 1) with 1%Q; lra).
  assert (inject_Z z < inject_Z (f + 1))%Q as Hb by (rewrite inject_Z_plus in *; change (inject_Z 1) with 1%Q in *; lra).
  rewrite <- Zlt_Qlt in Ha, Hb. lia.
Qed.

Lemma num_round_Z z : num_round (num_of_Z z) = num_of_Z z.
Proof. change (num_of_Z (Qfloor (inject_Z z + (1 # 2))) = num_of_Z z). by rewrite Qfloor_Z_half. Qed.

(** An integer between two bounds. *)
Definition int_range (lo hi : Z) (n : num) : Prop := exists z, n = num_of_Z z /\ (lo <= z <= hi)%Z.

Lemma round_floor_ge lo q : (inject_Z lo <= q)%Q -> (lo <= Qfloor (q + (1 # 2)))%Z.
Proof. intros H. rewrite <- (Qfloor_Z_half lo). apply Qfloor_resp_le. lra. Qed.

Lemma clamp_count_range lo hi n fb :
  (lo <= hi)%Z -> int_range lo hi fb -> int_range lo hi (QuotaTiers.clamp_count lo hi n fb).
Proof.
  intros Hlh Hfb. unfold QuotaTiers.clamp_count. destruct (to_number n) as [q| | |]; try done.
  simpl is_finite. cbn [negb]. rewrite orb_false_l.
  destruct (num_ltb (Fin q) (num_of_Z lo)) eqn:E; [done|]. unfold num_of_Z in E. simpl in E. q_props.
  apply round_floor_ge in E. unfold num_round, num_of_Z, num_min, num_leb.
  set (f := Qfloor (q + (1 # 2))) in *.
  destruct (Qle_bool (inject_Z hi) (inject_Z f)) eqn:E2; q_props; eexists; (split; [reflexivity|]); [lia|].
  rewrite <- Zlt_Qlt in E2. lia.
Qed.

(** A count that is already clamped is kept. *)
Lemma clamp_count_id lo hi x fb :
  int_range lo hi x -> QuotaTiers.clamp_count lo hi (JNum x) fb = x.
Proof.
  intros (z & -> & H). unfold QuotaTiers.clamp_count. simpl to_number.
  replace (num_ltb (num_of_Z z) (num_of_Z lo)) with false
    by (symmetry; destruct (num_ltb _ _) eqn:E; [rewrite num_ltb_Z in E; lia|done]).
  simpl is_finite. cbn [negb orb]. rewrite num_round_Z. unfold num_of_Z, num_min.
  destruct (num_leb _ _) eqn:E; [|done]. apply num_leb_Z in E. by replace z with hi by lia.
Qed.

Lemma ratio_in_range n fb :
  in_range (3 # 10) 1 fb -> in_range (3 # 10) 1 (QuotaTiers.clampRatio n fb).
Proof.
  intros Hfb. unfold QuotaTiers.clampRatio. destruct (is_finite (to_number n)) eqn:E; [|done].
  simpl. by apply (clamp_range (3 # 10) 1).
Qed.

Lemma ratio_id x fb : in_range (3 # 10) 1 x -> x = ratio_range x -> QuotaTiers.clampRatio (JNum x) fb = x.
Proof. intros H E. unfold QuotaTiers.clampRatio. simpl. rewrite (in_range_finite _ _ _ H). simpl. by symmetry. Qed.

Lemma ratio_range_fix n : is_finite n = true -> ratio_range (ratio_range n) = ratio_range n.
Proof. intros H. unfold ratio_range, dec. by apply clamp_idempotent. Qed.

Lemma clampRatio_fix n fb : fb = ratio_range fb -> is_finite fb = true ->
  QuotaTiers.clampRatio n fb = ratio_range (QuotaTiers.clampRatio n fb).
Proof.
  intros Hfb Hf. unfold QuotaTiers.clampRatio. destruct (is_finite (to_number n)) eqn:E; [|done].
  simpl. by rewrite ratio_range_fix.
Qed.

(** ** Normalised tier policies *)

(** The shape every consumer of a tier policy relies on. *)
Record tier_ok (p : jsval) : Prop := {
  ok_conc : exists n, p?."max_concurrency" = JNum n /\ int_range 0 256 n;
  ok_rpm : exists n, p?."max_rpm" = JNum n /\ int_range 0 1000000 n;
  ok_sessions : exists n, p?."max_sessions" = JNum n /\ int_range 0 256 n;
  ok_idle : exists n, p?."session_idle_min" = JNum n /\ int_range 1 1440 n;
  ok_ratios : exists l5 l7 w, p?."limit_5h" = JNum l5 /\ p?."limit_7d" = JNum l7 /\ p?."warn_ratio" = JNum w /\
    p?."safety_ratio" = JNum l5 /\ p?."weekly_safety_ratio" = JNum l7 /\
    in_range (3 # 10) 1 l5 /\ in_range (3 # 10) 1 l7 /\ in_range (3 # 10) 1 w /\ num_leb w l5 = true;
}.

Lemma tier_keys_cases (P : string -> Prop) :
  P "default" -> P "pro" -> P "max" -> forall key, key ∈ QuotaTiers.TIER_KEYS -> P key.
Proof.
  intros HA HB HC key H. unfold QuotaTiers.TIER_KEYS in H.
  do 3 (apply elem_of_cons in H as [->|H]; [done|]). by apply not_elem_of_nil in H.
Qed.

(** The built-in policy of every tier is itself in range. *)
Lemma default_policies_ok key : key ∈ QuotaTiers.TIER_KEYS ->
  let b := QuotaTiers.DEFAULT_TIER_POLICIES?.key in
  int_range 0 256 (to_number (b?."max_concurrency")) /\ int_range 0 1000000 (to_number (b?."max_rpm")) /\
  int_range 0 256 (to_number (b?."max_sessions")) /\ int_range 1 1440 (to_number (b?."session_idle_min")) /\
  in_range (3 # 10) 1 (to_number (b?."limit_5h")) /\ in_range (3 # 10) 1 (to_number (b?."limit_7d")) /\
  in_range (3 # 10) 1 (to_number (b?."warn_ratio")) /\
  to_number (b?."limit_5h") = ratio_range (to_number (b?."limit_5h")) /\
  to_number (b?."limit_7d") = ratio_range (to_number (b?."limit_7d")) /\
  to_number (b?."warn_ratio") = ratio_range (to_number (b?."warn_ratio")).
Proof.
  revert key. apply tier_keys_cases; cbn;
    (repeat split; try (eexists; split; [reflexivity|]; first [lia|lra])).
Qed.

Lemma warn_capped_range l5 w :
  in_range (3 # 10) 1 l5 -> in_range (3 # 10) 1 w ->
  in_range (3 # 10) 1 (if num_ltb l5 w then l5 else w) /\ num_leb (if num_ltb l5 w then l5 else w) l5 = true.
Proof.
  intros (a & -> & Ha) (b & -> & Hb). destruct (num_ltb (Fin a) (Fin b)) eqn:E.
  - split; [by exists a|]. apply num_leb_Fin. lra.
  - split; [by exists b|]. simpl in *. q_props. lra.
Qed.

Lemma normalize_tier_ok src key : key ∈ QuotaTiers.TIER_KEYS -> tier_ok (QuotaTiers.normalize_tier src key).
Proof.
  intros Hk. destruct (default_policies_ok key Hk) as (H1 & H2 & H3 & H4 & H5 & H6 & H7 & _).
  unfold QuotaTiers.normalize_tier.
  set (b := QuotaTiers.DEFAULT_TIER_POLICIES?.key) in *.
  set (t := if is_object (src?.key) then src?.key else JObj []).
  assert (R5 : in_range (3 # 10) 1 (QuotaTiers.readLimit5h t b)) by (by apply ratio_in_range).
  assert (R7 : in_range (3 # 10) 1 (QuotaTiers.readLimit7d t b)) by (by apply ratio_in_range).
  assert (RW : in_range (3 # 10) 1 (QuotaTiers.clampRatio (t?."warn_ratio") (to_number (b?."warn_ratio"))))
    by (by apply ratio_in_range).
  destruct (warn_capped_range _ _ R5 RW) as [RW1 RW2].
  split; cbn -[num_ltb num_leb in_range int_range QuotaTiers.readLimit5h QuotaTiers.readLimit7d].
  all: try (eexists; split; [reflexivity|]; by apply clamp_count_range).
  do 3 eexists. do 5 (split; [reflexivity|]). done.
Qed.

Lemma normalizeTiers_get raw key : key ∈ QuotaTiers.TIER_KEYS ->
  QuotaTiers.normalizeTiers raw?.key =
  QuotaTiers.normalize_tier (if is_object raw then raw else JObj []) key.
Proof. revert key. by apply tier_keys_cases. Qed.

Lemma resolveTierKey_in tier : QuotaTiers.resolveTierKey tier ∈ QuotaTiers.TIER_KEYS.
Proof.
  unfold QuotaTiers.resolveTierKey, QuotaTiers.TIER_KEYS. set (k := to_lower _).
  destruct (String.eqb_spec k "pro") as [->|]; simpl; [set_solver|].
  destruct (String.eqb_spec k "max") as [->|]; set_solver.
Qed.

(** whatever the routing file and the tier name hold, the resolved policy is
    well formed: concurrency, rate, session and idle limits are integers in their
    ranges, both quota limits and the warning ratio lie in [0.3, 1], the warning
    never exceeds the 5h limit, and the legacy names repeat the canonical ones. *)
Theorem resolveTierPolicy_ok config tier : tier_ok (QuotaTiers.resolveTierPolicy config tier).
Proof.
  unfold QuotaTiers.resolveTierPolicy. pose proof (resolveTierKey_in tier) as Hk.
  assert (H : forall raw, tier_ok (QuotaTiers.normalizeTiers raw?.(QuotaTiers.resolveTierKey tier)
      ||| QuotaTiers.normalizeTiers raw?."default")).
  { intros raw. unfold or_else. rewrite (normalizeTiers_get raw _ Hk). simpl truthy. cbv iota.
    by apply normalize_tier_ok. }
  destruct (is_object (config?."tiers")); apply H.
Qed.

Lemma spread_limit_eq t base : let n := QuotaTiers.readLimit5h t base in
  JNum n ?? t?."safety_ratio" = JNum n.
Proof. reflexivity. Qed.

Lemma normalize_tier_idem src key : key ∈ QuotaTiers.TIER_KEYS ->
  QuotaTiers.normalize_tier (QuotaTiers.normalizeTiers src) key =
  QuotaTiers.normalize_tier (if is_object src then src else JObj []) key.
Proof.
  intros Hk. set (s := if is_object src then src else JObj []).
  destruct (default_policies_ok key Hk) as (H1 & H2 & H3 & H4 & H5 & H6 & H7 & F5 & F7 & FW).
  destruct (normalize_tier_ok s key Hk) as [(n1 & E1 & R1) (n2 & E2 & R2) (n3 & E3 & R3) (n4 & E4 & R4)
    (l5 & l7 & w & E5 & E7 & EW & _ & _ & R5 & R7 & RW & Hw)].
  assert (Q5 : l5 = ratio_range l5).
  { unfold QuotaTiers.normalize_tier in E5. cbn in E5. injection E5 as <-.
    apply clampRatio_fix; [exact F5|]. by eapply in_range_finite. }
  assert (Q7 : l7 = ratio_range l7).
  { unfold QuotaTiers.normalize_tier in E7. cbn in E7. injection E7 as <-.
    apply clampRatio_fix; [exact F7|]. by eapply in_range_finite. }
  assert (QW : w = ratio_range w).
  { unfold QuotaTiers.normalize_tier in EW. cbn -[num_ltb] in EW. injection EW as <-.
    destruct (num_ltb _ _).
    - apply clampRatio_fix; [exact F5|]. by eapply in_range_finite.
    - apply clampRatio_fix; [exact FW|]. by eapply in_range_finite. }
  unfold QuotaTiers.normalize_tier at 1. rewrite (normalizeTiers_get src key Hk). fold s.
  change (is_object (QuotaTiers.normalize_tier s key)) with true. cbv iota zeta.
  unfold QuotaTiers.readLimit5h, QuotaTiers.readLimit7d. rewrite E1, E2, E3, E4, E5, E7, EW.
  cbn [nullish_else is_nullish].
  unfold QuotaTiers.clampConcurrency, QuotaTiers.clampRpm, QuotaTiers.clampSessions, QuotaTiers.clampIdleMin.
  rewrite !clamp_count_id, !ratio_id by done.
  assert (HW : num_ltb l5 w = false).
  { destruct (num_ltb l5 w) eqn:E; [|done]. apply num_ltb_not_leb in E. congruence. }
  rewrite HW.
  unfold QuotaTiers.normalize_tier in *. cbn -[num_ltb] in E1, E2, E3, E4, E5, E7, EW |- *.
  injection E1 as <-. injection E2 as <-. injection E3 as <-. injection E4 as <-. injection E5 as <-.
  injection E7 as <-. injection EW as <-. reflexivity.
Qed.

(** Normalising the tiers twice is normalising them once, so a policy block
    written back to disk reads as itself. *)
Theorem normalizeTiers_idempotent raw :
  QuotaTiers.normalizeTiers (QuotaTiers.normalizeTiers raw) = QuotaTiers.normalizeTiers raw.
Proof.
  unfold QuotaTiers.normalizeTiers at 1. change (is_object (QuotaTiers.normalizeTiers raw)) with true.
  cbv iota zeta. unfold QuotaTiers.normalizeTiers at 2. f_equal. apply map_ext_in. intros key Hk.
  rewrite normalize_tier_idem; [done|]. by apply list_elem_of_In.
Qed.

(** ** Resolution order of the routing file *)

Lemma pickNumber_nonneg l n : TierLimits.pickNumber l = Some n -> is_finite n = true /\ num_leb (Fin 0) n = true.
Proof.
  induction l as [|v l IH]; [done|]. simpl. intros H.
  repeat case_match; simplify_eq; auto; by apply andb_true_iff.
Qed.

Lemma pickNumber_skip v l :
  match v with JUndef | JNull => True | JStr s => s = "" | JNum n => num_ltb n (Fin 0) = true | _ => False end ->
  TierLimits.pickNumber (v :: l) = TierLimits.pickNumber l.
Proof.
  destruct v as [| | |n|s| |]; try done; [|by intros ->]. intros H. simpl.
  destruct n as [q| | |]; try done. simpl in *. q_props.
  destruct (Qle_bool 0 q) eqn:E; [|done]. q_props. lra.
Qed.

Lemma pickNumber_take n l : is_finite n = true -> num_leb (Fin 0) n = true ->
  TierLimits.pickNumber (JNum n :: l) = Some n.
Proof. intros H1 H2. cbn -[num_leb is_finite]. by rewrite H1, H2. Qed.

(** What a resolved limit record owes to the tier's entry and the default entry. *)
Definition resolution_ok (routing entry base r : jsval) : Prop :=
  (forall n, entry?."limit_5h" = JNum n -> is_finite n = true -> num_leb (Fin 0) n = true ->
     r?."limit_5h" = JNum n /\ r?."safety_ratio" = JNum n) /\
  (forall n, entry?."limit_5h" = JUndef -> entry?."safety_ratio" = JUndef ->
     base?."limit_5h" = JNum n -> is_finite n = true -> num_leb (Fin 0) n = true ->
     r?."limit_5h" = JNum n) /\
  (routing?."tiers" = JUndef -> routing?."quota" = JUndef ->
     r?."limit_7d" = r?."limit_5h") /\
  exists w s, r?."warn_ratio" = JNum w /\ r?."limit_5h" = JNum s /\
    num_leb w s = true /\ num_leb (Fin 0) w = true.

(** A usable limit in the tier's own entry wins over the default entry and over
    the legacy quota block; without one the default entry decides; the weekly limit
    falls back to the 5h limit; and the warning never exceeds the 5h limit. *)
Theorem tierLimits_resolution routing tier :
  resolution_ok routing (routing?."tiers"?.(TierLimits.normalizeTier tier))
    (routing?."tiers"?."default") (TierLimits.tierLimits routing tier).
Proof.
  unfold resolution_ok. set (entry := routing?."tiers"?.(TierLimits.normalizeTier tier)).
  set (base := routing?."tiers"?."default"). set (r := TierLimits.tierLimits routing tier).
  assert (Hor : forall v k, (v ||| JObj [])?.k = v?.k).
  { intros v k. unfold or_else. destruct (truthy v) eqn:E; [done|]. by destruct v. }
  unfold r, TierLimits.tierLimits. cbn [get assoc String.eqb Ascii.eqb Bool.eqb].
  rewrite !Hor. fold entry base.
  set (safety := TierLimits.pick_or [entry?."limit_5h"; _; _; _; _] _).
  assert (Hs : is_finite safety = true /\ num_leb (Fin 0) safety = true).
  { unfold safety, TierLimits.pick_or. destruct (TierLimits.pickNumber _) eqn:E; [by apply pickNumber_nonneg in E|done]. }
  split; [|split; [|split]].
  - intros n H1 H2 H3. unfold safety, TierLimits.pick_or. rewrite H1, pickNumber_take by done. done.
  - intros n H1 H2 H3 H4 H5. unfold safety, TierLimits.pick_or. rewrite H1, H2, H3.
    rewrite !pickNumber_skip by done. by rewrite pickNumber_take.
  - intros H1 H2. subst entry base. rewrite H1, H2. reflexivity.
  - set (warn := TierLimits.pick_or [entry?."warn_ratio"; _; _] _).
    assert (Hw : is_finite warn = true /\ num_leb (Fin 0) warn = true).
    { unfold warn, TierLimits.pick_or. destruct (TierLimits.pickNumber _) eqn:E; [by apply pickNumber_nonneg in E|done]. }
    exists (num_min warn safety), safety. split; [done|]. split; [done|].
    destruct Hw as [Hw1 Hw2], Hs as [Hs1 Hs2]. split; [by apply num_min_le_r | by apply num_min_glb].
Qed.

(** ** The weekly split *)

Import WeeklySplit.

Lemma share_in v : exists q, share_or_default v = Fin q /\ (0 < q < 1)%Q.
Proof.
  unfold share_or_default. destruct (_ && _) eqn:E.
  - apply andb_true_iff in E as [E E1]. apply andb_true_iff in E as [_ E0].
    destruct (to_number v) as [q| | |]; try done. rewrite num_ltb_Fin in E0, E1. eauto.
  - exists (1 # 2)%Q. split; [done|lra].
Qed.

Lemma clamp01_in n : in_range 0 1 (clamp01 n).
Proof.
  unfold clamp01. destruct n as [q| | |]; simpl; try (exists 0%Q; split; [done|lra]).
  destruct (Qle_bool 1 q) eqn:E; simpl; [exists 1%Q; split; [done|lra]|].
  destruct (Qle_bool 0 q) eqn:E1; simpl; q_props; eexists; (split; [done|lra]).
Qed.

Lemma normalizeUtil_in v : in_range 0 1 (default (Fin 0) (normalizeUtil v)).
Proof.
  unfold normalizeUtil. repeat case_match; simpl; try apply clamp01_in; exists 0%Q; (split; [done|lra]).
Qed.

Lemma min_spec a b : exists q, num_min (Fin a) (Fin b) = Fin q /\ ((a <= b)%Q /\ q = a \/ (b < a)%Q /\ q = b).
Proof. simpl. destruct (Qle_bool a b) eqn:E; q_props; eauto. Qed.
Lemma max_spec a b : exists q, num_max (Fin a) (Fin b) = Fin q /\ ((a <= b)%Q /\ q = b \/ (b < a)%Q /\ q = a).
Proof. simpl. destruct (Qle_bool a b) eqn:E; q_props; eauto. Qed.
Lemma sub_spec a b : exists q, num_sub (Fin a) (Fin b) = Fin q /\ (q == a - b)%Q.
Proof.
  eexists; split; [reflexivity|]. rewrite Qred_correct. pose proof (Qred_correct (- b)). lra.
Qed.
Lemma mul_spec a b : exists q, num_mul (Fin a) (Fin b) = Fin q /\ (q == a * b)%Q.
Proof. eexists; split; [reflexivity|]. apply Qred_correct. Qed.

Definition split_ok (status model : jsval) (en : bool) (s : split) : Prop :=
  (exists sh fu fr ru, fable_share s = Fin sh /\ fable_used_weekly s = Fin fu /\
    fable_remain_weekly s = Fin fr /\ regular_used_weekly s = Fin ru /\
    (0 < sh < 1)%Q /\ (0 <= fu <= sh)%Q /\ (0 <= ru <= 1)%Q /\ (fu + fr == sh)%Q) /\
  (en = false -> fable_blocked s = false /\ regular_blocked s = false /\ mode s = Open) /\
  (en = true -> to_lower (str_or_empty status) = "rejected" -> fable_blocked s = true) /\
  splitBlocksModel (Some s) model =
    (if includes (to_lower (str_or_empty model)) "fable"
     then (if fable_blocked s then Some fable_split else None)
     else (if regular_blocked s then Some regular_split else None)).

(** the split is a partition of the weekly quota: the share lies strictly
    between 0 and 1, what Fable used and what it has left sum to its share, the
    regular use stays in [0, 1], nothing is blocked when the switch is off, a
    rejected overage window blocks Fable, and a model is refused exactly when its
    own half is exhausted. *)
Theorem weekly_split_partition u7 uoi status share en model :
  split_ok status model en (computeWeeklySplit u7 uoi status share en).
Proof.
  unfold split_ok. set (s := computeWeeklySplit u7 uoi status share en). split; [|split; [|split]].
  - unfold s, computeWeeklySplit. cbn [fable_share fable_used_weekly fable_remain_weekly regular_used_weekly].
    destruct (share_in share) as (sh & -> & Hsh).
    destruct (normalizeUtil_in u7) as (a & -> & Ha). destruct (normalizeUtil_in uoi) as (b & -> & Hb).
    destruct (mul_spec b sh) as (m & -> & Hm).
    assert (0 <= b * sh /\ b * sh <= 1 * sh)%Q as [Hm0 Hm1].
    { split; [apply Qmult_le_0_compat; lra | apply Qmult_le_compat_r; lra]. }
    clear s. assert (0 <= m <= sh)%Q as Hms by lra. clear Hm Hm0 Hm1.
    destruct (max_spec 0 m) as (m1 & -> & Hm1). destruct (min_spec sh m1) as (fu & -> & Hfu).
    assert (0 <= fu <= sh)%Q as Hfs by (destruct Hm1 as [[? ->]|[? ->]], Hfu as [[? ->]|[? ->]]; lra).
    clear Hfu Hm1 Hms.
    destruct (sub_spec a fu) as (d & -> & Hd). destruct (max_spec 0 d) as (d1 & -> & Hd1).
    destruct (min_spec 1 d1) as (ru & -> & Hru).
    assert (0 <= ru <= 1)%Q as Hrs by (destruct Hd1 as [[? ->]|[? ->]], Hru as [[? ->]|[? ->]]; lra).
    clear Hru Hd1 Hd.
    destruct (sub_spec sh fu) as (f & -> & Hf). destruct (max_spec 0 f) as (fr & -> & Hfr).
    exists sh, fu, fr, ru. do 4 (split; [reflexivity|]).
    do 3 (split; [lra|]). destruct Hfr as [[? ->]|[? ->]]; lra.
  - intros ->. done.
  - intros -> Hs. unfold s, computeWeeklySplit. cbn [fable_blocked]. rewrite Hs. simpl.
    by rewrite orb_true_r.
  - assert (He : enabled s = en) by done.
    assert (Hoff : en = false -> fable_blocked s = false /\ regular_blocked s = false) by (by intros ->).
    clearbody s. unfold splitBlocksModel. rewrite He.
    destruct (includes _ _), (fable_blocked s), (regular_blocked s), en; try done;
      by destruct (Hoff eq_refl).
Qed.
