(* ===== verification/SessionLimit.v ===== *)
(** * Conversation cap per account (src/src/lib/pool/session-limit.mjs)

    The in-memory registry [byAccount : Map<account, Map<session, {lastSeen, refs}>>]
    and its operations, each returning the new registry.  Times and limits are
    integers (milliseconds, minutes, counts); a missing [idleMin] is 0, which the
    code replaces by 5. *)

From S2P Require Import Prelude.
#[local] Open Scope string_scope.
#[local] Open Scope Z_scope.

Record entry := { lastSeen : Z; refs : Z }.
Abbreviation bag := (gmap string entry).
Abbreviation registry := (gmap string (gmap string entry)).

(** [Math.max(1, Number(idleMin) || 5)] *)
Definition idle_minutes (idleMin : Z) : Z := Z.max 1 (if idleMin =? 0 then 5 else idleMin).
Definition idle_ms (idleMin : Z) : Z := idle_minutes idleMin * 60000.

Definition bag_of (r : registry) (id : string) : bag := default ∅ (r !! id).

(** [_bucket]: the account's map, created when missing; none for an empty id. *)
Definition bucket (r : registry) (accountId : string) : option (registry * bag) :=
  if String.eqb accountId "" then None
  else match r !! accountId with
       | Some b => Some (r, b)
       | None => Some (<[accountId := ∅]> r, ∅)
       end.

Definition prune (r : registry) (accountId : string) (idleMs now : Z) : registry * Z :=
  match r !! accountId with
  | None => (r, 0)
  | Some b =>
    let cutoff := now - Z.max 0 idleMs in
    let b' := filter (fun p => cutoff <= lastSeen p.2) b in
    ((if decide (b' = ∅) then delete accountId r else <[accountId := b']> r), Z.of_nat (size b'))
  end.

Record snap := { active : Z; smax : Z; idle_min : Z }.

Definition snapshot (r : registry) (accountId : string) (max idleMin now : Z) : registry * snap :=
  let '(r', act) := prune r accountId (idle_ms idleMin) now in
  (r', {| active := act; smax := if 0 <? max then max else 0; idle_min := idle_minutes idleMin |}).

Definition has (r : registry) (accountId sessionKey : string) (idleMin now : Z) : registry * bool :=
  if String.eqb sessionKey "" then (r, false)
  else
    let '(r', _) := prune r accountId (idle_ms idleMin) now in
    (r', match r' !! accountId with
         | Some b => match b !! sessionKey with Some _ => true | None => false end
         | None => false
         end).

Inductive verdict :=
| Unlimited
| Existing (d : snap)
| Fresh (d : snap)
| SessionLimit (d : snap) (session_key : string).

Definition accepted (v : verdict) : bool := match v with SessionLimit _ _ => false | _ => true end.

Definition canAccept (r : registry) (accountId sessionKey : string) (max idleMin now : Z) : registry * verdict :=
  if max <=? 0 then (r, Unlimited)
  else if String.eqb sessionKey "" then (r, Unlimited)
  else
    let '(r1, sn) := snapshot r accountId max idleMin now in
    let '(r2, existing) := has r1 accountId sessionKey idleMin now in
    if existing then (r2, Existing sn)
    else if max <=? active sn then (r2, SessionLimit sn sessionKey)
    else (r2, Fresh sn).

Definition touch (r : registry) (accountId sessionKey : string) (now : Z) : registry * option Z :=
  if String.eqb accountId "" || String.eqb sessionKey "" then (r, None)
  else
    match bucket r accountId with
    | None => (r, None)
    | Some (r, b) =>
      let n := match b !! sessionKey with None => 1 | Some e => refs e + 1 end in
      let b' := <[sessionKey := {| lastSeen := now; refs := n |}]> b in
      (<[accountId := b']> r, Some (Z.of_nat (size b')))
    end.

Definition release (r : registry) (accountId sessionKey : string) (now : Z) : registry * Z :=
  if String.eqb accountId "" || String.eqb sessionKey "" then (r, 0)
  else
    match r !! accountId with
    | None => (r, 0)
    | Some b =>
      match b !! sessionKey with
      | None => (r, Z.of_nat (size b))
      | Some e =>
        let seen := if lastSeen e =? 0 then now else lastSeen e in
        let b' := <[sessionKey := {| lastSeen := seen; refs := Z.max 0 (refs e - 1) |}]> b in
        (<[accountId := b']> r, Z.of_nat (size b'))
      end
    end.

Definition reset (r : registry) (accountId : option string) : registry :=
  match accountId with None => ∅ | Some id => delete id r end.

(** ** Facts about the operations *)

Definition sessions (r : registry) (id : string) : nat := size (bag_of r id).

Lemma bag_of_insert_eq r id b : bag_of (<[id := b]> r) id = b.
Proof. unfold bag_of. by rewrite lookup_insert_eq. Qed.

Lemma bag_of_insert_ne r id id' b : id <> id' -> bag_of (<[id := b]> r) id' = bag_of r id'.
Proof. intros H. unfold bag_of. by rewrite lookup_insert_ne. Qed.

Lemma bag_of_delete_ne r id id' : id <> id' -> bag_of (delete id r) id' = bag_of r id'.
Proof. intros H. unfold bag_of. by rewrite lookup_delete_ne. Qed.

Lemma bag_of_delete_eq r id : bag_of (delete id r) id = ∅.
Proof. unfold bag_of. by rewrite lookup_delete_eq. Qed.

Create Rewrite HintDb sess.
#[export] Hint Rewrite bag_of_insert_eq bag_of_delete_eq : sess.
#[export] Hint Rewrite bag_of_insert_ne bag_of_delete_ne using (done || congruence) : sess.

Lemma bag_of_prune_eq r id ms now :
  bag_of (prune r id ms now).1 id = filter (fun p => now - Z.max 0 ms <= lastSeen p.2) (bag_of r id).
Proof.
  unfold prune. destruct (r !! id) as [b|] eqn:E.
  - assert (bag_of r id = b) as -> by (unfold bag_of; by rewrite E). simpl.
    case_decide as Hd; autorewrite with sess; [by rewrite Hd|done].
  - unfold bag_of. rewrite E. simpl. by rewrite map_filter_empty, E.
Qed.

Lemma bag_of_prune_ne r id id' ms now : id <> id' -> bag_of (prune r id ms now).1 id' = bag_of r id'.
Proof.
  intros H. unfold prune. destruct (r !! id) as [b|]; [|done]. simpl. by case_decide; autorewrite with sess.
Qed.

Lemma prune_count r id ms now : (prune r id ms now).2 = Z.of_nat (sessions (prune r id ms now).1 id).
Proof.
  unfold sessions. rewrite bag_of_prune_eq. unfold prune, bag_of. destruct (r !! id) as [b|]; simpl; [done|].
  by rewrite map_filter_empty, map_size_empty.
Qed.

Lemma sessions_prune_le r id id' ms now : (sessions (prune r id ms now).1 id' <= sessions r id')%nat.
Proof.
  unfold sessions. destruct (decide (id = id')) as [<-|Hne].
  - rewrite bag_of_prune_eq. apply map_size_filter.
  - by rewrite bag_of_prune_ne.
Qed.

(** Pruning twice at the same instant prunes once. *)
Lemma prune_prune_bag r id id' ms now :
  bag_of (prune (prune r id ms now).1 id ms now).1 id' = bag_of (prune r id ms now).1 id'.
Proof.
  destruct (decide (id = id')) as [<-|Hne]; [|by rewrite bag_of_prune_ne].
  rewrite !bag_of_prune_eq. apply map_eq. intros k. rewrite !map_lookup_filter.
  destruct (bag_of r id !! k) as [e|]; simpl; [|done]. case_guard; simpl; [|done]. by rewrite option_guard_True.
Qed.

Lemma sessions_touch r id key now id' :
  sessions (touch r id key now).1 id' =
  if decide (id = id' /\ id <> "" /\ key <> "") then size (<[key := Build_entry 0 0]> (bag_of r id)) else sessions r id'.
Proof.
  unfold touch, sessions. destruct (String.eqb_spec id "") as [->|Hid]; simpl.
  { rewrite decide_False; [done|tauto]. }
  destruct (String.eqb_spec key "") as [->|Hkey]; simpl.
  { rewrite decide_False; [done|tauto]. }
  unfold bucket. rewrite (proj2 (String.eqb_neq id "") Hid).
  assert (Hs : forall b : bag, size (<[key := Build_entry 0 0]> b) = size (<[key := Build_entry now 0]> b)).
  { intros b. rewrite !map_size_insert. done. }
  destruct (decide (id = id')) as [<-|Hne].
  - rewrite decide_True by tauto. destruct (r !! id) as [b|] eqn:E; simpl; autorewrite with sess;
      unfold bag_of; rewrite E; simpl; by rewrite !map_size_insert.
  - rewrite decide_False by tauto. destruct (r !! id) as [b|] eqn:E; simpl; by autorewrite with sess.
Qed.

Lemma sessions_release r id key now id' : sessions (release r id key now).1 id' = sessions r id'.
Proof.
  unfold release, sessions. destruct (_ || _); [done|]. destruct (r !! id) as [b|] eqn:E; [|done].
  destruct (b !! key) as [e|] eqn:Ek; [|done]. simpl. destruct (decide (id = id')) as [<-|Hne].
  - autorewrite with sess. unfold bag_of. rewrite E. simpl. rewrite map_size_insert, Ek. done.
  - by autorewrite with sess.
Qed.

(** What [canAccept] saw and left behind. *)
Lemma canAccept_spec r id key max idleMin now :
  0 < max -> key <> "" ->
  let r1 := (prune r id (idle_ms idleMin) now).1 in
  bag_of (canAccept r id key max idleMin now).1 id = bag_of r1 id /\
  accepted (canAccept r id key max idleMin now).2 =
    (bool_decide (is_Some (bag_of r1 id !! key)) || (Z.of_nat (sessions r1 id) <? max)).
Proof.
  intros Hmax Hkey r1. unfold canAccept.
  rewrite (proj2 (Z.leb_gt max 0) Hmax), (proj2 (String.eqb_neq key "") Hkey).
  unfold snapshot, has. rewrite (proj2 (String.eqb_neq key "") Hkey).
  pose proof (prune_count r id (idle_ms idleMin) now) as Hact.
  pose proof (prune_prune_bag r id id (idle_ms idleMin) now) as Hbag. fold r1 in Hact, Hbag.
  assert (Hr1 : (prune r id (idle_ms idleMin) now).1 = r1) by done. clearbody r1.
  destruct (prune r id (idle_ms idleMin) now) as [q act]. cbn [fst snd] in *. subst q.
  destruct (prune r1 id (idle_ms idleMin) now) as [r2 act2]. cbn [fst snd] in *.
  assert (Hex : match r2 !! id with Some b => match b !! key with Some _ => true | None => false end | None => false end
                = bool_decide (is_Some (bag_of r1 id !! key))).
  { rewrite <- Hbag. unfold bag_of. destruct (r2 !! id) as [b|]; simpl.
    - destruct (b !! key); [by rewrite bool_decide_eq_true_2|rewrite bool_decide_eq_false_2; [done|]].
      by intros [? ?].
    - rewrite lookup_empty, bool_decide_eq_false_2; [done|]. by intros [? ?]. }
  simpl. rewrite Hex. destruct (bool_decide _); simpl; [done|].
  destruct (Z.leb_spec max act); simpl; (split; [done|]); rewrite Hact in *; destruct (Z.ltb_spec (Z.of_nat (sessions r1 id)) max); lia || done.
Qed.

(** ** Properties *)

(** The conversations of an account seen within the idle window. *)
Definition live (r : registry) (id : string) (idleMin now : Z) : bag :=
  filter (fun p => now - idle_ms idleMin <= lastSeen p.2) (bag_of r id).

Lemma idle_ms_pos idleMin : 60000 <= idle_ms idleMin.
Proof. unfold idle_ms, idle_minutes. case_match; lia. Qed.

Lemma live_prune r id idleMin now : bag_of (prune r id (idle_ms idleMin) now).1 id = live r id idleMin now.
Proof.
  rewrite bag_of_prune_eq. unfold live. pose proof (idle_ms_pos idleMin).
  by replace (Z.max 0 (idle_ms idleMin)) with (idle_ms idleMin) by lia.
Qed.

(** admission is decided by the live conversations alone: with a positive cap a
    named session is accepted exactly when it is already live or fewer than the cap
    are live, and the registry it leaves holds exactly the live ones. *)
Theorem canAccept_decides r id key max idleMin now :
  0 < max -> key <> "" ->
  accepted (canAccept r id key max idleMin now).2 =
    (bool_decide (is_Some (live r id idleMin now !! key)) || (Z.of_nat (size (live r id idleMin now)) <? max)) /\
  bag_of (canAccept r id key max idleMin now).1 id = live r id idleMin now.
Proof.
  intros Hmax Hkey. destruct (canAccept_spec r id key max idleMin now Hmax Hkey) as [Hb Ha].
  unfold sessions in Ha. rewrite live_prune in Ha, Hb. done.
Qed.

(** One admission, registered when accepted, keeps the account within its cap. *)
Lemma admit_within_cap r id key cap idleMin now t :
  0 < cap -> Z.of_nat (sessions r id) <= cap ->
  let p := canAccept r id key cap idleMin now in
  Z.of_nat (sessions (if accepted p.2 then (touch p.1 id key t).1 else p.1) id) <= cap.
Proof.
  intros Hcap Hinv. destruct (decide (key = "")) as [->|Hkey].
  { unfold canAccept. simpl. destruct (cap <=? 0); simpl; by rewrite sessions_touch, decide_False by tauto. }
  destruct (canAccept_spec r id key cap idleMin now Hcap Hkey) as [Hb Ha].
  pose proof (sessions_prune_le r id id (idle_ms idleMin) now) as Hle.
  set (r1 := (prune r id (idle_ms idleMin) now).1) in *.
  destruct (canAccept r id key cap idleMin now) as [r2 v]. cbn [fst snd] in *.
  assert (Hs : sessions r2 id = sessions r1 id) by (unfold sessions; by rewrite Hb).
  destruct (accepted v); [|lia]. rewrite sessions_touch.
  destruct (decide (id = id /\ id <> "" /\ key <> "")); [|lia].
  rewrite map_size_insert, Hb. unfold sessions, Datatypes.id in *. destruct (bag_of r1 id !! key) eqn:E; [lia|].
  symmetry in Ha. apply orb_true_iff in Ha as [Ha|Ha]; [|lia].
  apply bool_decide_eq_true in Ha as [x Hx]. congruence.
Qed.

Lemma snapshot_sessions_le r id max idleMin now id' : (sessions (snapshot r id max idleMin now).1 id' <= sessions r id')%nat.
Proof.
  unfold snapshot. pose proof (sessions_prune_le r id id' (idle_ms idleMin) now). by destruct (prune r id _ now).
Qed.

(** The uses of the registry by the pool: a request that passes the gate is
    registered; releases, idle pruning and resets come in any order. *)
Inductive event :=
| Admit (id key : string) (now : Z)
| Release (id key : string) (now : Z)
| Prune (id : string) (idleMs now : Z)
| Reset (id : option string).

Section Cap.
Context (cap idle : string -> Z).

Definition run_event (r : registry) (e : event) : registry :=
  match e with
  | Admit id key now =>
    let '(r1, v) := canAccept r id key (cap id) (idle id) now in
    if accepted v then (touch r1 id key now).1 else r1
  | Release id key now => (release r id key now).1
  | Prune id idleMs now => (prune r id idleMs now).1
  | Reset id => reset r id
  end.

Lemma sessions_canAccept_ne r id key now id' :
  id <> id' -> sessions (canAccept r id key (cap id) (idle id) now).1 id' = sessions r id'.
Proof.
  intros Hne. unfold canAccept, snapshot, has.
  destruct (cap id <=? 0); [done|]. destruct (String.eqb key ""); [done|].
  pose proof (bag_of_prune_ne r id id' (idle_ms (idle id)) now Hne) as H1.
  destruct (prune r id _ now) as [r1 a]. simpl in *.
  pose proof (bag_of_prune_ne r1 id id' (idle_ms (idle id)) now Hne) as H2.
  destruct (prune r1 id _ now) as [r2 b]. simpl in *. unfold sessions.
  destruct (match r2 !! id with Some _ => _ | None => _ end); [simpl; by rewrite H2, H1|].
  destruct (cap id <=? a); simpl; by rewrite H2, H1.
Qed.

Lemma run_event_cap r e :
  (forall id, 0 < cap id -> Z.of_nat (sessions r id) <= cap id) ->
  forall id, 0 < cap id -> Z.of_nat (sessions (run_event r e) id) <= cap id.
Proof.
  intros Hinv id Hcap. destruct e as [a key now|a key now|a ms now|a]; simpl.
  - destruct (decide (a = id)) as [->|Hne].
    + pose proof (admit_within_cap r id key (cap id) (idle id) now now Hcap (Hinv id Hcap)) as H.
      by destruct (canAccept r id key (cap id) (idle id) now) as [r2 v].
    + pose proof (sessions_canAccept_ne r a key now id Hne) as H.
      destruct (canAccept r a key (cap a) (idle a) now) as [r2 v]. cbn [fst] in H.
      destruct (accepted v); [|rewrite H; auto]. rewrite sessions_touch, decide_False by tauto. rewrite H. auto.
  - rewrite sessions_release. auto.
  - pose proof (sessions_prune_le r a id ms now). specialize (Hinv id Hcap). lia.
  - specialize (Hinv id Hcap). destruct a as [a|]; simpl.
    + unfold sessions in *. destruct (decide (a = id)) as [->|Hne]; autorewrite with sess; [|done].
      rewrite map_size_empty. lia.
    + unfold sessions, bag_of. rewrite lookup_empty. simpl. rewrite map_size_empty. lia.
Qed.

(** C1: Along every history of admissions, releases, prunings and resets from the
    empty registry no account ever holds more conversations than its cap. *)
Theorem session_cap_invariant es id :
  0 < cap id -> Z.of_nat (sessions (foldl run_event ∅ es) id) <= cap id.
Proof.
  revert id. assert (H0 : forall id, 0 < cap id -> Z.of_nat (sessions ∅ id) <= cap id).
  { intros id H. unfold sessions, bag_of. rewrite lookup_empty. simpl. rewrite map_size_empty. lia. }
  revert H0. generalize (∅ : registry) as r. induction es as [|e es IH]; intros r Hr; simpl; [done|].
  apply IH. by apply run_event_cap.
Qed.
End Cap.

Lemma live_touch r id key t idleMin now :
  id <> "" -> key <> "" -> now <= t + idle_ms idleMin ->
  is_Some (live (touch r id key t).1 id idleMin now !! key).
Proof.
  intros Hid Hkey Ht. unfold touch, bucket.
  rewrite (proj2 (String.eqb_neq id "") Hid), (proj2 (String.eqb_neq key "") Hkey). simpl.
  destruct (r !! id) as [b|]; simpl; unfold live; autorewrite with sess; eexists;
    (apply map_lookup_filter_Some; split; [apply lookup_insert_eq|simpl; lia]).
Qed.

Lemma live_release r id key k t idleMin now :
  now <= t + idle_ms idleMin -> 0 < t ->
  is_Some (live r id idleMin now !! k) -> is_Some (live (release r id key t).1 id idleMin now !! k).
Proof.
  intros Ht Ht0 [e He]. unfold live in *. apply map_lookup_filter_Some in He as [He Hs]. simpl in Hs.
  unfold release. destruct (_ || _); [eexists; by apply map_lookup_filter_Some|].
  unfold bag_of in He |- *. destruct (r !! id) as [b|] eqn:E; simpl in *; rewrite ?E; simpl;
    [|by rewrite lookup_empty in He].
  destruct (b !! key) as [e'|] eqn:Ek; simpl; rewrite ?E; simpl; [|eexists; by apply map_lookup_filter_Some].
  rewrite lookup_insert_eq. simpl. destruct (decide (key = k)) as [->|Hne].
  - simplify_eq. eexists. apply map_lookup_filter_Some. split; [apply lookup_insert_eq|]. simpl. by case_match; lia.
  - eexists. apply map_lookup_filter_Some. split; [by rewrite lookup_insert_ne|done].
Qed.

(** a conversation keeps its place: once touched, the same session is accepted
    again within the idle window whatever the cap and however full the account is,
    also after its request was released. *)
Theorem session_keeps_place r id key t t' max idleMin now :
  id <> "" -> key <> "" -> 0 < t -> t <= t' -> t' <= now -> now <= t + idle_ms idleMin ->
  accepted (canAccept (touch r id key t).1 id key max idleMin now).2 = true /\
  accepted (canAccept (release (touch r id key t).1 id key t').1 id key max idleMin now).2 = true.
Proof.
  intros Hid Hkey Ht Ht1 Ht2 Hnow.
  assert (H : forall q, is_Some (live q id idleMin now !! key) -> accepted (canAccept q id key max idleMin now).2 = true).
  { intros q Hq. destruct (Z.ltb_spec 0 max) as [Hm|Hm].
    - destruct (canAccept_decides q id key max idleMin now Hm Hkey) as [-> _]. by rewrite bool_decide_eq_true_2.
    - unfold canAccept. by rewrite (proj2 (Z.leb_le max 0) Hm). }
  split; apply H; [by apply live_touch|]. apply live_release; [lia|lia|]. by apply live_touch.
Qed.

(** ** Witnesses *)

Lemma canAccept_decides_witness :
  let r := (touch (touch ∅ "a" "s1" 1000).1 "a" "s2" 900000).1 in
  accepted (canAccept r "a" "s3" 2 5 1000000).2 = true /\ accepted (canAccept r "a" "s3" 2 60 1000000).2 = false.
Proof.
  intros r. split.
  - destruct (canAccept_decides r "a" "s3" 2 5 1000000) as [-> _]; [lia|discriminate|reflexivity].
  - destruct (canAccept_decides r "a" "s3" 2 60 1000000) as [-> _]; [lia|discriminate|vm_compute; reflexivity].
Defined.

Lemma session_cap_invariant_witness :
  Z.of_nat (sessions (foldl (run_event (fun _ => 2) (fun _ => 5)) ∅
    [Admit "a" "s1" 1000; Admit "a" "s2" 2000; Admit "a" "s3" 3000; Release "a" "s1" 4000]) "a") <= 2.
Proof. apply (session_cap_invariant (fun _ => 2) (fun _ => 5)). lia. Defined.

Lemma session_keeps_place_witness :
  accepted (canAccept (touch ∅ "a" "s1" 1000).1 "a" "s1" 1 5 200000).2 = true /\
  accepted (canAccept (release (touch ∅ "a" "s1" 1000).1 "a" "s1" 2000).1 "a" "s1" 1 5 200000).2 = true.
Proof. apply (session_keeps_place ∅ "a" "s1" 1000 2000 1 5 200000); vm_compute; (discriminate || reflexivity). Defined.
