(* ===== verification/Eligibility.v ===== *)
(** * Schedulability of a slot
    (src/src/lib/pool/schedule-eligibility.mjs, credential-weight.mjs, schedule-policy.mjs,
     with the predicates it calls in oauth-credentials.mjs, vm-kind.mjs, vm-registry.mjs,
     rust-kernel-client.mjs, resource-owner.mjs and availability.mjs)

    [Credentials], [VmKind], [Kernel], [Ownership]: the predicates on a slot's record.
    [Gate]: grant death, live access, the slot gate, the proxy check and the
    credential gate.  [Weight]: the schedule level of a credential. *)

From S2P Require Import Prelude.
From S2P Require Import JsValue.
From S2P Require Import JsRegex.
From S2P Require Import JsDate.
From S2P Require Import QuotaWindow.
#[local] Open Scope string_scope.
#[local] Open Scope list_scope.
#[local] Open Scope js_scope.

(** [v === true], [v === false]. *)
Definition is_true (v : jsval) : bool := match v with JBool true => true | _ => false end.
Definition is_false (v : jsval) : bool := match v with JBool false => true | _ => false end.

(** [a || b || ...] as a truth value. *)
Definition any_truthy (l : list jsval) : bool := existsb truthy l.
(** [a || b || ... || null] *)
Fixpoint first_truthy (l : list jsval) : jsval :=
  match l with [] => JNull | v :: l => if truthy v then v else first_truthy l end.
(** [bits.filter(Boolean).join(' ')] *)
Definition join_bits (l : list jsval) : string := join " " (List.map to_string (List.filter truthy l)).

Module Credentials.

Definition hasAccessPresence (claude : jsval) : bool :=
  any_truthy [claude?."has_access"; claude?."has_api_key"; claude?."access_token";
              claude?."accessToken"; claude?."api_key"; claude?."apiKey"].
Definition hasRefreshPresence (claude : jsval) : bool :=
  any_truthy [claude?."has_refresh"; claude?."refresh_token"; claude?."refreshToken"].
Definition hasCredentialPresence (claude : jsval) : bool := hasAccessPresence claude || hasRefreshPresence claude.

Definition expiresAtToMs (expiresAt : jsval) : num :=
  let n := num_or_zero expiresAt in
  if negb (truthy (JNum n)) then Fin 0 else seconds_or_ms n.

Definition usageErrorText (probe : jsval) : string :=
  let raw := probe?."usage_error" ||| probe?."error" ||| probe?."message" ||| JStr "" in
  if truthy raw && is_object raw
  then to_string (raw?."message" ||| raw?."type" ||| raw?."code" ||| JStr "")
  else str_or_empty raw.

Definition isOfficialUsageRateLimited (probe : jsval) : bool :=
  if negb (is_object probe) then false
  else if is_true (probe?."rate_limited") then true
  else if num_eqb (to_number (probe?."usage_status" ||| probe?."status" ||| jint 0)) (num_of_Z 429) then true
  else rx_test_i (lits ["rate limited"; "please try again later"; "too many requests"]) (usageErrorText probe).

End Credentials.

Module VmKind.

Inductive kind := Claude | Codex.

Definition labelOf (vm : jsval) (key : string) : string := to_lower (trim (str_or_empty (vm?.key))).
Definition isCodexLabel (value : string) : bool :=
  existsb (String.eqb value) ["openai"; "codex"; "gpt"; "chatgpt"].
Definition isClaudeLabel (value : string) : bool := existsb (String.eqb value) ["anthropic"; "claude"].

Definition normalizeVmKind (vm : jsval) : kind :=
  let platform := labelOf vm "platform" in
  let family := labelOf vm "family" in
  let kind := if String.eqb (labelOf vm "kind") "" then labelOf vm "credential_kind" else labelOf vm "kind" in
  if isCodexLabel platform || isCodexLabel family || isCodexLabel kind then Codex
  else if isClaudeLabel platform || isClaudeLabel family || isClaudeLabel kind then Claude
  else if is_true (vm?."codex_kernel") then Codex
  else if String.eqb (labelOf vm "inference_engine") "codex" then Codex
  else if String.eqb (trim (str_or_empty (vm?."runtime"?."codex_kernel"))) "1" then Codex
  else Claude.

Definition isCodexVm (vm : jsval) : bool := match normalizeVmKind vm with Codex => true | Claude => false end.
Definition isClaudeVm (vm : jsval) : bool := match normalizeVmKind vm with Claude => true | Codex => false end.

End VmKind.

Module Kernel.

Definition finiteNumber (value : jsval) : option num :=
  match value with
  | JUndef | JNull | JStr "" => None
  | _ => let n := to_number value in if is_finite n then Some n else None
  end.

Definition rustKernelProcessUp (health : jsval) : bool :=
  if negb (truthy health) then false
  else if truthy (health?."ok") then true
  else if num_eqb (to_number (health?."status")) (num_of_Z 200) then true
  else is_str (health?."engine") "rust" || truthy (health?."worker_version").

Definition rustKernelCliReady (health : jsval) : bool :=
  if is_nullish (health?."ready_slots") then true
  else let n := to_number (health?."ready_slots") in is_finite n && num_ltb (Fin 0) n.

Definition rustKernelBusy (health : jsval) : bool :=
  if negb (rustKernelProcessUp health) then false
  else if rustKernelCliReady health then false
  else match finiteNumber (health?."cli_pid") with Some pid => num_ltb (Fin 0) pid | None => false end.

Definition rustKernelReachable (health : jsval) : bool := rustKernelProcessUp health && rustKernelCliReady health.

End Kernel.

Module Ownership.

(** [null] is no owner. *)
Definition normalizeOwnerId (id : jsval) : option string :=
  let s := trim (str_or_empty id) in if String.eqb s "" then None else Some s.

Inductive scope := Platform | User (userId : jsval) | Any | OtherScope.
Inductive origin := OriginPlatform | AdminAssigned | UserCreated.

Definition vmOwnerId (vm : jsval) : option string := normalizeOwnerId (vm?."owner_user_id").
Definition proxyOwnerId (proxy : jsval) : option string := normalizeOwnerId (proxy?."owner_user_id").

Definition vmOriginOf (vm : jsval) : origin :=
  let o := trim (str_or_empty (vm?."origin")) in
  if String.eqb o "admin_assigned" then AdminAssigned
  else if String.eqb o "user_created" then UserCreated
  else if String.eqb o "platform" then OriginPlatform
  else match vmOwnerId vm with Some _ => AdminAssigned | None => OriginPlatform end.

Definition is_admin_role (role : jsval) : bool :=
  let r := to_lower (trim (str_or_empty role)) in String.eqb r "admin" || String.eqb r "super".

Definition ownerScopeFromApiKey (record apiKeyKind ownerRole : jsval) : scope :=
  if is_str apiKeyKind "master" then Platform
  else match normalizeOwnerId (record?."user_id") with
       | None => Platform
       | Some userId => if is_admin_role ownerRole then Platform else User (JStr userId)
       end.

Definition vmMatchesOwnerScope (vm : jsval) (s : scope) : bool :=
  match s with
  | Any => true
  | Platform => bool_decide (vmOwnerId vm = None)
  | User u => bool_decide (vmOwnerId vm = normalizeOwnerId u)
  | OtherScope => false
  end.

Definition filterVmsForPanel (vms : list jsval) (role userId : jsval) : list jsval :=
  if is_str role "admin" || is_str role "super" then vms
  else match normalizeOwnerId userId with
       | None => []
       | Some owner => List.filter (fun vm => bool_decide (vmOwnerId vm = Some owner)) vms
       end.

Definition countUserCreatedVms (vms : list jsval) (userId : jsval) : nat :=
  match normalizeOwnerId userId with
  | None => 0
  | Some owner =>
    length (List.filter (fun vm => bool_decide (vmOwnerId vm = Some owner) &&
      match vmOriginOf vm with UserCreated => true | _ => false end) vms)
  end.

Definition canUserDeleteVm (vm userId : jsval) : bool :=
  bool_decide (vmOwnerId vm = normalizeOwnerId userId) &&
  match vmOriginOf vm with UserCreated => true | _ => false end.

Definition canBindProxyToVm (proxy vm role : jsval) : bool :=
  let r := to_lower (trim (str_or_empty role)) in
  if String.eqb r "user" then
    match proxyOwnerId proxy, vmOwnerId vm with
    | Some p, Some v => String.eqb p v
    | _, _ => false
    end
  else match proxyOwnerId proxy, vmOwnerId vm with Some _, None => false | _, _ => true end.

Definition assignOriginForOwner (ownerUserId : jsval) (previousOrigin : origin) (actorIsUser : bool) : origin :=
  match normalizeOwnerId ownerUserId with
  | None => OriginPlatform
  | Some _ =>
    if actorIsUser then UserCreated
    else match previousOrigin with UserCreated => UserCreated | _ => AdminAssigned end
  end.

Definition clampVmCreateQuota (value : jsval) (fallback : num) : num :=
  let n := to_number value in
  if negb (is_finite n) then fallback
  else num_max (Fin 0) (num_min (num_of_Z 100) (num_round n)).

End Ownership.

Module Gate.
Import Credentials.

(** [/^(quota_5h|quota_7d)/] *)
Definition isQuotaWindowReason (reason : jsval) : bool :=
  let r := str_or_empty reason in starts_with "quota_5h" r || starts_with "quota_7d" r.

Definition isLeftoverQuotaScheduleOff (vm scheduleDisabledReason : jsval) : bool :=
  if is_true (vm?."schedule_manual") then false
  else if negb (is_false (vm?."schedulable")) then false
  else isQuotaWindowReason (scheduleDisabledReason ?? vm?."schedule_disabled_reason").

(** The operator's lock; [manualScheduleWins] is the module-level switch. *)
Definition isManualScheduleLocked (manualScheduleWins : bool) (vm : jsval) : bool :=
  if negb manualScheduleWins || negb (truthy vm) then false
  else if is_true (vm?."schedule_manual") then true
  else String.eqb (str_or_empty (vm?."schedule_disabled_reason")) "disabled".

Definition vmHasClaudeCredential (vm : jsval) : bool := hasCredentialPresence (vm?."claude").

Definition isVmScheduleReady (vm : jsval) (allowMissingCredential : bool) : bool :=
  if negb (truthy vm) then false
  else if is_false (vm?."schedulable") && negb (isLeftoverQuotaScheduleOff vm JNull) then false
  else if negb allowMissingCredential && negb (vmHasClaudeCredential vm) then false
  else negb (existsb (String.eqb (to_lower (str_or_empty (vm?."status")))) ["stopped"; "dead"; "error"; "disabled"]).

Definition AUTH_COOLDOWN_REASON : rx := lits ["authentication_failed_after_refresh"; "permission_denied"].
Definition FATAL_CREDENTIAL_COOLDOWN : rx :=
  lits ["oauth_invalid_grant"; "invalid_grant"; "refresh_token_missing"; "organization_disabled"; "oauth_revoked";
        "token has been revoked"].
Definition REFRESH_FAILURE : rx :=
  lits ["credential_refresh_failed"; "oauth_refresh"; "refresh_token_missing"; "invalid_grant"; "token has been revoked"].
Definition GRANT_REVOKED : rx := lits ["access token has been revoked"; "token has been revoked"; "oauth_revoked"].
Definition TEST_PROBE_SOURCES : list string := ["test-chat"; "kin-console-test"; "kin-console-loadtest"].

Definition isTestProbeSource (probe source : jsval) : bool :=
  existsb (String.eqb (to_string (probe?."source" ||| source ||| JStr ""))) TEST_PROBE_SOURCES.

Definition isAuthCooldownReason (reason : jsval) : bool := rx_test_i AUTH_COOLDOWN_REASON (str_or_empty reason).

Definition isRefreshFailure (workerStatus : jsval) : bool :=
  if String.eqb (to_lower (to_string (workerStatus?."last_error_class" ||| workerStatus?."refresh_class" ||| JStr "")))
       "retryable" then false
  else rx_test_i REFRESH_FAILURE
         (to_string (workerStatus?."last_error" ||| workerStatus?."error" ||| workerStatus?."code" ||| JStr "")).

Definition isLiveDiskGrant (vm extras : jsval) : bool :=
  let refreshError := extras?."refresh_error" ?? vm?."refresh_error" ?? vm?."claude"?."refresh_error" ?? JNull in
  let reason := extras?."schedule_disabled_reason" ?? vm?."schedule_disabled_reason" ?? JNull in
  let blob := (str_or_empty refreshError ++ " " ++ str_or_empty reason)%string in
  if rx_test_i GRANT_REVOKED blob || rx_test_i (lits ["oauth_invalid_grant"; "invalid_grant"]) blob then false
  else any_truthy [extras?."has_token"; extras?."has_refresh"; vm?."has_token"; vm?."has_access"; vm?."has_refresh";
                   vm?."claude"?."has_access"; vm?."claude"?."has_refresh"].

Definition isLeftoverGrantRevokeRuntime (state vm extras : jsval) : bool :=
  if negb (truthy state) || negb (isLiveDiskGrant vm extras) then false
  else let reason := str_or_empty (state?."cooldown_reason") in
       rx_test_i GRANT_REVOKED reason || rx_test_i FATAL_CREDENTIAL_COOLDOWN reason.

Definition viewRuntimeWithoutLeftoverRevoke (state vm extras : jsval) : jsval :=
  if negb (isLeftoverGrantRevokeRuntime state vm extras) then state
  else with_field (with_field (with_field state "status" (JStr "ready")) "cooldown_until" JNull) "cooldown_reason" JNull.

Definition isCredentialRuntimeBlocked (state : jsval) (now : num) (vm : jsval) : bool :=
  if negb (truthy state) then false
  else if truthy vm && isLeftoverGrantRevokeRuntime state vm (JObj []) then false
  else if String.eqb (str_or_empty (state?."status")) "disabled" then true
  else let until := num_or_zero (state?."cooldown_until") in
       num_ltb now until && rx_test_i FATAL_CREDENTIAL_COOLDOWN (str_or_empty (state?."cooldown_reason")).

Definition slotHasBoundProxy (vm : jsval) : bool :=
  if negb (truthy (vm?."proxy_cli_enabled")) || negb (truthy (vm?."proxy")) then false
  else
    let scheme := to_lower (to_string (vm?."proxy"?."scheme" ||| vm?."proxy"?."kind" ||| JStr "")) in
    let host := to_lower (str_or_empty (vm?."proxy"?."host")) in
    if is_str (vm?."proxy"?."id") "px-local" || String.eqb scheme "local" || String.eqb host "local" then true
    else truthy (vm?."proxy"?."url") || (truthy (vm?."proxy"?."host") && truthy (vm?."proxy"?."port")).

(** [{ ok: true, reason? }] or [{ ok: false, reason }] *)
Inductive gate := Pass (note : option string) | Fail (reason : string).
Definition passes (g : gate) : bool := match g with Pass _ => true | Fail _ => false end.

Definition evaluateSlotGate (vm : jsval) : gate :=
  if VmKind.isCodexVm vm then Fail "codex_vm"
  else
    let oauthProjection := starts_with "oauth_" (str_or_empty (vm?."schedule_disabled_reason")) in
    if negb (isVmScheduleReady vm oauthProjection) && negb oauthProjection then Fail "vm_unschedulable"
    else if negb (vmHasClaudeCredential vm) && negb oauthProjection then Fail "no_credential"
    else if negb (slotHasBoundProxy vm) then Fail "proxy_required"
    else Pass None.

(** The longest head of [s] whose characters satisfy [p], and the rest. *)
Fixpoint span (p : ascii -> bool) (s : string) : string * string :=
  match s with
  | String c r => if p c then let '(a, b) := span p r in (String c a, b) else (EmptyString, s)
  | EmptyString => (EmptyString, EmptyString)
  end.

(** [([^:/?#]+):(\d+)] at the head of [s]: host and port. *)
Definition host_port (s : string) : option (string * num) :=
  let '(host, r) := span (fun c => negb (includes ":/?#" (String c EmptyString))) s in
  if String.eqb host "" then None
  else match r with
       | String ":" r => let '(v, n, _) := take_digits 0 0 r in
                         if (n =? 0)%nat then None else Some (host, num_of_Z v)
       | _ => None
       end.

(** [^[a-z0-9+.-]+:\/\/(?:[^/@]+@)?([^:/?#]+):(\d+)] with the [i] flag. *)
Definition url_host_port (url : string) : option (string * num) :=
  let '(scheme, r) := span (fun c => is_digit c || is_lower (lower_char c) || includes "+.-" (String c EmptyString)) url in
  if String.eqb scheme "" || negb (starts_with "://" r) then None
  else
    let r := drop_chars 3 r in
    let '(user, r') := span (fun c => negb (includes "/@" (String c EmptyString))) r in
    let with_user := match r' with
                     | String "@" r'' => if String.eqb user "" then None else host_port r''
                     | _ => None
                     end in
    match with_user with Some x => Some x | None => host_port r end.

Definition evaluateProxySync (vm workerProxyEndpoint egressMode : jsval) : gate :=
  if String.eqb (trim (str_or_empty egressMode)) "transparent" then Pass None
  else
    let wantHost := vm?."proxy"?."host" in
    let wantPort := vm?."proxy"?."port" in
    let want :=
      if truthy wantHost && truthy wantPort
      then Some (to_string wantHost ++ ":" ++ num_to_string (to_number wantPort))%string
      else match url_host_port (str_or_empty (vm?."proxy"?."url")) with
           | Some (h, p) => Some (h ++ ":" ++ num_to_string p)%string
           | None => None
           end in
    match want with
    | None => Pass None
    | Some want =>
      match workerProxyEndpoint with
      | JUndef => Pass None
      | _ => if negb (truthy workerProxyEndpoint) then Fail "worker_proxy_missing"
             else if negb (String.eqb want (to_string workerProxyEndpoint)) then Fail "proxy_desynced"
             else Pass None
      end
    end.

Definition accessTtlMs (expiresAt workerCred : jsval) : num :=
  let a := expiresAtToMs expiresAt in
  if truthy (JNum a) then a else expiresAtToMs (workerCred?."expires_at").

(** [expMs && expMs <= now] *)
Definition expired (expMs now : num) : bool := truthy (JNum expMs) && num_leb expMs now.

Definition probeOlderThanRefresh (extras quota : jsval) : bool :=
  let probeAt := date_parse (to_string (extras?."last_probe"?."at" ||| extras?."fable"?."probed_at" |||
    quota?."last_probe"?."at" ||| quota?."fable"?."probed_at" ||| JStr "")) in
  let refreshedAt := date_parse (to_string (extras?."refreshed_at" ||| extras?."oauth_refreshed_at" ||| JStr "")) in
  is_finite probeAt && is_finite refreshedAt && num_ltb probeAt refreshedAt.

(** The error texts consulted for a revoked grant. *)
Definition revoke_bits (extras quota : jsval) : list jsval :=
  let liveDisk := isLiveDiskGrant (extras?."vm" ||| JObj []) extras in
  let staleProbe := probeOlderThanRefresh extras quota in
  let testProbe := isTestProbeSource (extras?."last_probe") JNull || isTestProbeSource (quota?."last_probe") JNull in
  [extras?."schedule_disabled_reason"; extras?."refresh_error"] ++
  (if liveDisk then [] else [extras?."runtime"?."cooldown_reason"; extras?."cooldown_reason"]) ++
  (if staleProbe then []
   else (if testProbe then []
         else [extras?."last_probe"?."error"; extras?."last_probe"?."message"; quota?."last_probe"?."error"]) ++
        [quota?."fable"?."error"; extras?."fable"?."error"; extras?."worker_credential"?."last_error";
         extras?."runtime"?."worker_status"?."last_error"; extras?."runtime"?."worker_status"?."error"]).

Definition isGrantRevoked (extras quota : jsval) : bool :=
  rx_test_i GRANT_REVOKED (join_bits (revoke_bits extras quota)).

Definition isLiveAccess (extras expiresAt : jsval) (now : num) (requireTtl : bool) : bool :=
  if isGrantRevoked extras (JObj []) then false
  else
    let cred := extras?."worker_credential" ||| JObj [] in
    let expMs := accessTtlMs expiresAt cred in
    if requireTtl && negb (truthy (JNum expMs)) then false
    else if expired expMs now then false
    else if is_true (cred?."needs_refresh") && (negb (truthy (JNum expMs)) || num_leb expMs now) then false
    else any_truthy [extras?."has_token"; cred?."has_access"].

Definition evaluateCredentialEligibility (vm workerStatus : jsval) (now : num) : gate :=
  let cred := workerStatus?."credential" ||| JObj [] in
  let vmCredential := vmHasClaudeCredential vm in
  let workerCredential := any_truthy [cred?."has_access"; cred?."has_refresh"] in
  if negb vmCredential && negb workerCredential then Fail "no_credential"
  else
    let expMs := accessTtlMs (vm?."claude"?."expires_at") cred in
    let refreshPresent := hasRefreshPresence (vm?."claude") || truthy (cred?."has_refresh") in
    let accessFresh := truthy (cred?."has_access") && negb (is_true (cred?."needs_refresh")) &&
                       truthy (JNum expMs) && num_ltb now expMs in
    let workerLive := is_true (workerStatus?."ok") && (accessFresh || refreshPresent) in
    let leftoverRevoke := isGrantRevoked
      (JObj [("worker_credential", JObj [("last_error", workerStatus?."last_error" ||| workerStatus?."error")]);
             ("schedule_disabled_reason", vm?."schedule_disabled_reason");
             ("refreshed_at", vm?."claude"?."refreshed_at" ||| JNull)])
      (JObj [("fable", JObj [("error", vm?."claude"?."refresh_error")])]) in
    if leftoverRevoke && negb accessFresh && negb workerLive then Fail "oauth_revoked"
    else if negb workerLive && (isRefreshFailure workerStatus ||
              isRefreshFailure (JObj [("last_error", vm?."claude"?."refresh_error")])) then Fail "oauth_invalid_grant"
    else if expired expMs now && negb refreshPresent then Fail "oauth_expired"
    else if negb (truthy (JNum expMs)) && truthy workerStatus && negb (truthy (cred?."has_access")) && negb refreshPresent
         then Fail "oauth_unconfirmed"
    else if Kernel.rustKernelBusy workerStatus then Pass (Some "slot_busy")
    else if truthy workerStatus && negb (is_true (workerStatus?."ok")) && negb refreshPresent then Fail "worker_unhealthy"
    else if expired expMs now && refreshPresent then Pass (Some "refresh_pending")
    else Pass None.

Definition hasLivePanelCredential (extras expiresAt : jsval) (now : num) : bool := isLiveAccess extras expiresAt now false.
Definition shouldMarkMissingRefresh (vm : jsval) : bool := negb (hasRefreshPresence (vm?."claude")).

Definition credPanelUnavailable (extras expiresAt : jsval) (now : num) : bool :=
  if isGrantRevoked extras (JObj []) then true
  else
    let expMs := accessTtlMs expiresAt (extras?."worker_credential") in
    let refreshPresent := any_truthy [extras?."has_refresh"; extras?."worker_credential"?."has_refresh"] in
    if expired expMs now && negb refreshPresent then true
    else
      let reason := str_or_empty (extras?."schedule_disabled_reason") in
      let err := to_string (extras?."worker_credential"?."last_error" |||
        extras?."runtime"?."worker_status"?."last_error" ||| extras?."runtime"?."worker_status"?."error" ||| JStr "") in
      let fatalGrant := rx_test_i (lits ["oauth_invalid_grant"; "invalid_grant"; "refresh_token_missing"; "refresh token not found"])
                          (reason ++ " " ++ err)%string in
      if fatalGrant && negb (isLiveAccess extras expiresAt now true) then true
      else
        let leftover := String.eqb reason "oauth_cleared" || String.eqb reason "oauth_no_refresh" in
        let live := isLiveAccess extras expiresAt now false ||
          (leftover && (truthy (extras?."has_token") || refreshPresent || truthy (extras?."worker_credential"?."has_access"))) in
        if starts_with "oauth_" reason && negb fatalGrant && negb live then true
        else isCredentialRuntimeBlocked (extras?."runtime" ||| extras?."state") now JNull.

End Gate.

Module Weight.

Definition DAY_MS : num := num_of_Z 86400000.

(** [Number.isInteger(level) && 1 <= level <= 10] *)
Definition valid_level (level : num) : bool :=
  is_integer level && num_leb (num_of_Z 1) level && num_leb level (num_of_Z 10).

Definition is_auto (value : jsval) : bool := String.eqb (to_lower (trim (to_string value))) "auto".

Definition normalizedManualLevel (value : jsval) : option num :=
  if is_nullish value || is_str value "" || is_auto value then None
  else let level := to_number value in if valid_level level then Some level else None.

(** The accepted level ([None]: automatic), or the 400 of the panel. *)
Definition parseScheduleLevelInput (value : jsval) : option (option num) :=
  if is_nullish value || is_auto value then Some None
  else let level := to_number value in if valid_level level then Some (Some level) else None.

Definition manualScheduleLevelOf (vm : jsval) : option num := normalizedManualLevel (vm?."policy"?."priority").

Definition automaticScheduleLevel (resetAt : jsval) (now : num) : num :=
  let resetMs := parseResetMs resetAt in
  if negb (is_finite resetMs) || num_leb resetMs now then num_of_Z 1
  else
    let fullDaysRemaining := num_floor (num_div (num_sub resetMs now) DAY_MS) in
    num_max (num_of_Z 1) (num_min (num_of_Z 7) (num_sub (num_of_Z 7) fullDaysRemaining)).

(** [parseResetMs(v) > now] *)
Definition in_future (v : jsval) (now : num) : bool := num_ltb now (parseResetMs v).

Definition weeklyResetAt (unified : jsval) (now : num) : jsval :=
  let header := headerWindowOrEmpty unified "7d" now in
  let headerReset := header?."reset" ?? header?."resets_at" ?? JNull in
  if in_future headerReset now then headerReset
  else
    let official := officialWindow unified "7d" in
    let officialReset := official?."reset" ?? official?."resets_at" ?? JNull in
    if in_future officialReset now then officialReset else JNull.

(** [undefined] for [manualLevel] or [resetAt] is a field that was not passed; the
    flag of the result says whether the level is manual. *)
Definition resolveCredentialScheduleLevel (vm manualLevel unified resetAt : jsval) (now : num) : num * bool :=
  let manual := match manualLevel with JUndef => manualScheduleLevelOf vm | _ => normalizedManualLevel manualLevel end in
  match manual with
  | Some level => (level, true)
  | None =>
    let effectiveReset := match resetAt with JUndef => weeklyResetAt unified now | _ => resetAt end in
    (automaticScheduleLevel effectiveReset now, false)
  end.

End Weight.

(** ** Tenant isolation *)

Import Ownership Gate Weight.

Lemma str_or_empty_JStr s : str_or_empty (JStr s) = s.
Proof. unfold str_or_empty, or_else. simpl. by destruct (String.eqb_spec s ""). Qed.

Lemma normalizeOwnerId_norm id s : normalizeOwnerId id = Some s -> normalizeOwnerId (JStr s) = Some s.
Proof.
  unfold normalizeOwnerId. rewrite str_or_empty_JStr. set (t := trim (str_or_empty id)).
  destruct (String.eqb_spec t ""); [done|]. intros [= <-].
  assert (trim t = t) as -> by apply trim_trim. by destruct (String.eqb_spec t "").
Qed.

(** The tenant behind an API key: [None] is the platform. *)
Definition tenant_of (record apiKeyKind ownerRole : jsval) : option string :=
  if is_str apiKeyKind "master" || is_admin_role ownerRole then None else normalizeOwnerId (record?."user_id").

(** An API key reaches exactly the slots of its tenant: the master key, keys
    without a user and keys of administrators reach the unowned slots, every other
    key the slots owned by its user; so keys of two tenants never share a slot. *)
Theorem api_key_scope_isolation vm record apiKeyKind ownerRole :
  vmMatchesOwnerScope vm (ownerScopeFromApiKey record apiKeyKind ownerRole) =
  bool_decide (vmOwnerId vm = tenant_of record apiKeyKind ownerRole).
Proof.
  unfold ownerScopeFromApiKey, tenant_of. destruct (is_str apiKeyKind "master"); simpl; [by apply bool_decide_ext|].
  destruct (is_admin_role ownerRole), (normalizeOwnerId (record?."user_id")) as [u|] eqn:E; simpl;
    try (by apply bool_decide_ext).
  by rewrite (normalizeOwnerId_norm _ _ E).
Qed.

(** A user binds a proxy only to a slot it owns together with that proxy, and no
    role binds a user's proxy to a slot of the platform. *)
Theorem proxy_binding_isolation proxy vm role :
  canBindProxyToVm proxy vm role = true ->
  (to_lower (trim (str_or_empty role)) = "user" ->
     exists u, proxyOwnerId proxy = Some u /\ vmOwnerId vm = Some u) /\
  (vmOwnerId vm = None -> proxyOwnerId proxy = None).
Proof.
  unfold canBindProxyToVm. destruct (String.eqb_spec (to_lower (trim (str_or_empty role))) "user") as [Hr|Hr];
    destruct (proxyOwnerId proxy) as [p|], (vmOwnerId vm) as [v|]; try done.
  intros H%String.eqb_eq; subst. eauto.
Qed.

(** ** The gates *)

(** No slot passes the gate without a Claude kind, a bound proxy and, unless an
    OAuth reason is still projected on it, a credential and an operator switch that
    is on (or off only for a quota leftover). *)
Theorem slot_gate_sound vm :
  passes (evaluateSlotGate vm) = true ->
  VmKind.isClaudeVm vm = true /\ slotHasBoundProxy vm = true /\
  (starts_with "oauth_" (str_or_empty (vm?."schedule_disabled_reason")) = false ->
     vmHasClaudeCredential vm = true /\
     (is_false (vm?."schedulable") = true -> isLeftoverQuotaScheduleOff vm JNull = true)).
Proof.
  unfold evaluateSlotGate, VmKind.isCodexVm, VmKind.isClaudeVm.
  destruct (VmKind.normalizeVmKind vm); [|done].
  set (o := starts_with "oauth_" _). destruct (isVmScheduleReady vm o) eqn:Hr; simpl.
  - destruct (vmHasClaudeCredential vm) eqn:Hc; simpl.
    + destruct (slotHasBoundProxy vm); simpl; [|done]. intros _. do 2 (split; [done|]). intros Ho.
      split; [done|]. intros Hs. unfold isVmScheduleReady in Hr. rewrite Hs in Hr.
      destruct (isLeftoverQuotaScheduleOff vm JNull); [done|]. by destruct (negb (truthy vm)).
    + destruct o eqn:Ho; simpl; [|done]. destruct (slotHasBoundProxy vm); done.
  - destruct o eqn:Ho; simpl; [|done]. rewrite andb_false_r. by destruct (slotHasBoundProxy vm).
Qed.

(** a slot whose wanted proxy is known and whose worker reported an endpoint is
    let through only when the two are the same, except in transparent mode. *)
Theorem proxy_sync_sound vm host port endpoint mode :
  vm?."proxy"?."host" = JStr host -> host <> "" -> vm?."proxy"?."port" = jint port -> port <> 0%Z ->
  endpoint <> JUndef -> trim (str_or_empty mode) <> "transparent" ->
  passes (evaluateProxySync vm endpoint mode) = true ->
  to_string endpoint = (host ++ ":" ++ num_to_string (num_of_Z port))%string.
Proof.
  intros Hh Hh0 Hp Hp0 He Hm. unfold evaluateProxySync.
  rewrite (proj2 (String.eqb_neq _ _) Hm), Hh, Hp.
  assert (truthy (JStr host) = true) as -> by (simpl; by rewrite (proj2 (String.eqb_neq _ _) Hh0)).
  assert (truthy (jint port) = true) as ->.
  { simpl. apply negb_true_iff. destruct (Qeq_bool (inject_Z port) 0) eqn:E; [|done].
    apply Qeq_bool_iff in E. change 0%Q with (inject_Z 0) in E. destruct Hp0. by apply inject_Z_injective. }
  cbv iota zeta. simpl andb. cbv iota. simpl to_number. simpl (to_string (JStr host)).
  assert (forall (b : bool) (w e : string), passes (if b then Fail "worker_proxy_missing"
            else if negb (String.eqb w e) then Fail "proxy_desynced" else Pass None) = true -> e = w) as Hpass.
  { intros b w e. destruct b, (String.eqb_spec w e); by subst. }
  by destruct endpoint; [|apply Hpass..].
Qed.

Lemma passes_guard (c : bool) r g : passes (if c then Fail r else g) = negb c && passes g.
Proof. by destruct c. Qed.

(** the credential gate admits a slot only with a credential that can still
    serve: one is on disk or in the worker, and an access token whose time is over
    comes with a refresh token; a live worker is never ejected for a leftover
    grant error. *)
Theorem credential_gate_sound vm ws now :
  (passes (evaluateCredentialEligibility vm ws now) = true ->
     (vmHasClaudeCredential vm = true \/ any_truthy [ws?."credential"?."has_access"; ws?."credential"?."has_refresh"] = true) /\
     (expired (accessTtlMs (vm?."claude"?."expires_at") (ws?."credential")) now = true ->
        Credentials.hasRefreshPresence (vm?."claude") = true \/ truthy (ws?."credential"?."has_refresh") = true)) /\
  (is_true (ws?."ok") = true -> truthy (ws?."credential"?."has_refresh") = true ->
     evaluateCredentialEligibility vm ws now <> Fail "oauth_revoked" /\
     evaluateCredentialEligibility vm ws now <> Fail "oauth_invalid_grant").
Proof.
  assert (Hor : forall v k, (v ||| JObj [])?.k = v?.k).
  { intros v k. unfold or_else. destruct (truthy v) eqn:E; [done|]. by destruct v. }
  unfold evaluateCredentialEligibility. rewrite !Hor.
  assert (Httl : accessTtlMs (vm?."claude"?."expires_at") (ws?."credential" ||| JObj []) =
                 accessTtlMs (vm?."claude"?."expires_at") (ws?."credential")).
  { unfold accessTtlMs. by rewrite Hor. }
  rewrite Httl. cbv zeta. set (rf := Credentials.hasRefreshPresence (vm?."claude")).
  set (wr := truthy (ws?."credential"?."has_refresh")).
  set (ok := is_true (ws?."ok")). set (worker := any_truthy _). set (exp := expired _ now). split.
  - rewrite !passes_guard, !andb_true_iff, !negb_true_iff, andb_false_iff, !negb_false_iff.
    intros (Hcred & _ & _ & Hexp & _). split; [by destruct Hcred; auto|].
    intros He. rewrite He in Hexp. simpl in Hexp. apply negb_false_iff, orb_true_iff in Hexp. done.
  - intros Hok Hr. rewrite Hok, Hr, !orb_true_r. simpl. rewrite !andb_false_r. simpl.
    split; repeat case_match; done.
Qed.

(** After a later login the cached death of a grant no longer blocks: the view
    of a leftover runtime state is never blocked, and viewing twice changes nothing. *)
Theorem leftover_revoke_view_unblocks state vm extras now :
  isLeftoverGrantRevokeRuntime state vm extras = true ->
  isCredentialRuntimeBlocked (viewRuntimeWithoutLeftoverRevoke state vm extras) now JNull = false /\
  viewRuntimeWithoutLeftoverRevoke (viewRuntimeWithoutLeftoverRevoke state vm extras) vm extras =
  viewRuntimeWithoutLeftoverRevoke state vm extras.
Proof.
  intros H.
  assert (viewRuntimeWithoutLeftoverRevoke state vm extras =
    with_field (with_field (with_field state "status" (JStr "ready")) "cooldown_until" JNull) "cooldown_reason" JNull)
    as -> by (unfold viewRuntimeWithoutLeftoverRevoke; by rewrite H).
  set (v := with_field _ "cooldown_reason" JNull).
  assert (Hr : v?."cooldown_reason" = JNull) by apply get_with_field_eq.
  assert (Hu : v?."cooldown_until" = JNull).
  { transitivity (with_field (with_field state "status" (JStr "ready")) "cooldown_until" JNull?."cooldown_until");
      [by apply get_with_field_ne | apply get_with_field_eq]. }
  assert (Hs : v?."status" = JStr "ready").
  { unfold v. rewrite !(get_with_field_ne _ "status") by done. apply get_with_field_eq. }
  split.
  - unfold isCredentialRuntimeBlocked. rewrite Hr, Hu, Hs. simpl.
    by replace (rx_test_i FATAL_CREDENTIAL_COOLDOWN (str_or_empty JNull)) with false by reflexivity;
      rewrite andb_false_r.
  - assert (isLeftoverGrantRevokeRuntime v vm extras = false) as Hf.
    { unfold isLeftoverGrantRevokeRuntime. rewrite Hr. destruct (_ || _); [done|]. reflexivity. }
    unfold viewRuntimeWithoutLeftoverRevoke. by rewrite Hf.
Qed.

(** ** Schedule levels *)

(** [Math.max(1, Math.min(7, 7 - days))] on whole numbers. *)
Definition level_of_days (days : Z) : Z := Z.max 1 (Z.min 7 (7 - days)).

Lemma num_min_Z x y : num_min (num_of_Z x) (num_of_Z y) = num_of_Z (Z.min x y).
Proof.
  unfold num_min. simpl. destruct (Qle_bool (inject_Z x) (inject_Z y)) eqn:E; q_props;
    [rewrite <- Zle_Qle in E | rewrite <- Zlt_Qlt in E]; f_equal; lia.
Qed.

Lemma num_max_Z x y : num_max (num_of_Z x) (num_of_Z y) = num_of_Z (Z.max x y).
Proof.
  unfold num_max. simpl. destruct (Qle_bool (inject_Z x) (inject_Z y)) eqn:E; q_props;
    [rewrite <- Zle_Qle in E | rewrite <- Zlt_Qlt in E]; f_equal; lia.
Qed.

Lemma num_sub_Z x y : num_sub (num_of_Z x) (num_of_Z y) = num_of_Z (x - y).
Proof.
  unfold num_sub, num_neg, num_of_Z, num_add. f_equal. transitivity (Qred (inject_Z (x - y))).
  - apply Qred_complete. rewrite Qred_correct. unfold Z.sub. by rewrite inject_Z_plus, inject_Z_opp.
  - unfold inject_Z, Qred. pose proof (Z.ggcd_gcd (x - y) 1) as Hg.
    pose proof (Z.ggcd_correct_divisors (x - y) 1) as Hd. destruct (Z.ggcd (x - y) 1) as [g [aa bb]].
    simpl in *. rewrite Z.gcd_1_r in Hg. subst g. destruct Hd as [Ha Hb].
    by replace bb with 1%Z by lia; replace aa with (x - y)%Z by lia.
Qed.

Lemma automaticScheduleLevel_days reset r n :
  parseResetMs reset = Fin r -> (n < r)%Q ->
  automaticScheduleLevel reset (Fin n) = num_of_Z (level_of_days (Qfloor ((r - n) / inject_Z 86400000))).
Proof.
  intros Hr Hn. unfold automaticScheduleLevel. rewrite Hr. cbn [is_finite negb orb num_leb]. cbv zeta.
  assert (Qle_bool r n = false) as -> by by apply Qle_bool_false.
  replace (num_floor _) with (num_of_Z (Qfloor ((r - n) / inject_Z 86400000))).
  - by rewrite num_sub_Z, num_min_Z, num_max_Z.
  - unfold num_floor, num_div, DAY_MS, num_of_Z, num_sub, num_neg, num_add.
    change (Qeq_bool (inject_Z 86400000) 0) with false. cbv iota. f_equal. f_equal. apply Qfloor_comp.
    by rewrite !Qred_correct.
Qed.

Lemma automaticScheduleLevel_past reset r n :
  parseResetMs reset = Fin r -> (r <= n)%Q -> automaticScheduleLevel reset (Fin n) = num_of_Z 1.
Proof.
  intros Hr Hn. unfold automaticScheduleLevel. rewrite Hr. simpl. by rewrite (proj2 (Qle_bool_iff r n) Hn).
Qed.

Lemma valid_level_Z z : (1 <= z <= 10)%Z -> valid_level (num_of_Z z) = true.
Proof.
  intros [H1 H2]. unfold valid_level. rewrite !andb_true_iff, !num_leb_Z. repeat split; [|lia..].
  unfold num_of_Z, is_integer. apply Qeq_bool_iff. by rewrite Qfloor_Z.
Qed.

Lemma automatic_level_valid reset n : valid_level (automaticScheduleLevel reset (Fin n)) = true.
Proof.
  destruct (parseResetMs reset) as [r| | |] eqn:E.
  - destruct (Qlt_le_dec n r).
    + rewrite (automaticScheduleLevel_days _ _ _ E) by done. apply valid_level_Z. unfold level_of_days. lia.
    + by rewrite (automaticScheduleLevel_past _ _ _ E).
  - all: unfold automaticScheduleLevel; by rewrite E.
  - all: unfold automaticScheduleLevel; by rewrite E.
  - all: unfold automaticScheduleLevel; by rewrite E.
Qed.

Lemma manual_level_valid v l : normalizedManualLevel v = Some l -> valid_level l = true.
Proof.
  unfold normalizedManualLevel. destruct (_ || _); [done|]. destruct (valid_level _) eqn:E; [|done]. by intros [= <-].
Qed.

(** The schedule level of a credential is always a whole number between 1 and 10,
    whatever the panel stored; an automatic level is at most 7, never falls as the
    weekly reset comes nearer, and is 7 in the last day before it. *)
Theorem schedule_level_ok vm manual unified reset n :
  valid_level (resolveCredentialScheduleLevel vm manual unified reset (Fin n)).1 = true /\
  (forall a b x y, parseResetMs a = Fin x -> parseResetMs b = Fin y -> (n < x)%Q -> (x <= y)%Q ->
     num_leb (automaticScheduleLevel b (Fin n)) (automaticScheduleLevel a (Fin n)) = true /\
     num_leb (automaticScheduleLevel a (Fin n)) (num_of_Z 7) = true /\
     ((x - n < inject_Z 86400000)%Q -> automaticScheduleLevel a (Fin n) = num_of_Z 7)).
Proof.
  split.
  - unfold resolveCredentialScheduleLevel. set (m := match manual with JUndef => _ | _ => _ end).
    destruct m as [l|] eqn:E; simpl.
    + destruct manual; by apply manual_level_valid in E.
    + apply automatic_level_valid.
  - intros a b x y Ha Hb Hx Hxy.
    rewrite (automaticScheduleLevel_days a x n), (automaticScheduleLevel_days b y n) by (done || lra).
    rewrite !num_leb_Z. unfold level_of_days.
    assert (Qfloor ((x - n) / inject_Z 86400000) <= Qfloor ((y - n) / inject_Z 86400000))%Z.
    { apply Qfloor_resp_le. apply Qmult_le_compat_r; [lra|done]. }
    repeat split; [lia..|]. intros Hd. f_equal.
    assert (Qfloor ((x - n) / inject_Z 86400000) = 0)%Z as ->; [|done].
    assert (0 <= (x - n) / inject_Z 86400000)%Q by (apply Qle_shift_div_l; [done|lra]).
    assert ((x - n) / inject_Z 86400000 < 1)%Q by (apply Qlt_shift_div_r; [done|lra]).
    assert (0 <= Qfloor ((x - n) / inject_Z 86400000))%Z by (change 0%Z with (Qfloor 0); by apply Qfloor_resp_le).
    pose proof (Qfloor_le ((x - n) / inject_Z 86400000)) as Hl.
    assert (inject_Z (Qfloor ((x - n) / inject_Z 86400000)) < inject_Z 1)%Q as Hlt by (eapply Qle_lt_trans; eauto).
    rewrite <- Zlt_Qlt in Hlt. lia.
Qed.

(** ** Concrete runs *)

Definition user_slot : jsval := JObj [("owner_user_id", JStr "u1"); ("platform", JStr "claude");
  ("proxy_cli_enabled", JBool true); ("proxy", JObj [("host", JStr "h"); ("port", jint 8080)]);
  ("claude", JObj [("has_refresh", JBool true); ("has_access", JBool true); ("expires_at", jint 2000000000000)])].
Definition user_proxy : jsval := JObj [("owner_user_id", JStr " u1 ")].
Definition healthy_worker : jsval :=
  JObj [("ok", JBool true); ("credential", JObj [("has_refresh", JBool true); ("has_access", JBool true)])].
Definition revoked_state : jsval :=
  JObj [("status", JStr "cooldown"); ("cooldown_until", jint 3000000000000); ("cooldown_reason", JStr "oauth_revoked")].

Lemma proxy_binding_isolation_witness :
  canBindProxyToVm user_proxy user_slot (JStr "User") = true /\
  exists u, proxyOwnerId user_proxy = Some u /\ vmOwnerId user_slot = Some u.
Proof.
  split; [vm_compute; reflexivity|].
  apply (proxy_binding_isolation user_proxy user_slot (JStr "User")); vm_compute; reflexivity.
Defined.

Lemma slot_gate_sound_witness :
  passes (evaluateSlotGate user_slot) = true /\ VmKind.isClaudeVm user_slot = true /\ slotHasBoundProxy user_slot = true.
Proof.
  split; [vm_compute; reflexivity|].
  destruct (slot_gate_sound user_slot) as (H1 & H2 & _); [vm_compute; reflexivity|]. split; assumption.
Defined.

Lemma proxy_sync_sound_witness :
  passes (evaluateProxySync user_slot (JStr "h:8080") JNull) = true /\
  to_string (JStr "h:8080") = ("h" ++ ":" ++ num_to_string (num_of_Z 8080))%string.
Proof.
  split; [vm_compute; reflexivity|].
  apply (proxy_sync_sound user_slot "h" 8080 (JStr "h:8080") JNull); vm_compute; (discriminate || reflexivity).
Defined.

Lemma credential_gate_sound_witness :
  passes (evaluateCredentialEligibility user_slot healthy_worker (num_of_Z 1700000000000)) = true /\
  (vmHasClaudeCredential user_slot = true \/
   any_truthy [healthy_worker?."credential"?."has_access"; healthy_worker?."credential"?."has_refresh"] = true).
Proof.
  split; [vm_compute; reflexivity|].
  refine (proj1 (proj1 (credential_gate_sound user_slot healthy_worker (num_of_Z 1700000000000)) _)).
  vm_compute; reflexivity.
Defined.

Lemma leftover_revoke_view_unblocks_witness :
  isCredentialRuntimeBlocked revoked_state (num_of_Z 1700000000000) JNull = true /\
  isCredentialRuntimeBlocked (viewRuntimeWithoutLeftoverRevoke revoked_state user_slot JNull) (num_of_Z 1700000000000) JNull = false.
Proof.
  split; [vm_compute; reflexivity|].
  apply (leftover_revoke_view_unblocks revoked_state user_slot JNull (num_of_Z 1700000000000)); vm_compute; reflexivity.
Defined.

Lemma schedule_level_ok_witness :
  num_leb (automaticScheduleLevel (jint 1700600000000) (num_of_Z 1700000000000))
          (automaticScheduleLevel (jint 1700000060000) (num_of_Z 1700000000000)) = true /\
  automaticScheduleLevel (jint 1700000060000) (num_of_Z 1700000000000) = num_of_Z 7.
Proof.
  destruct (proj2 (schedule_level_ok JNull JUndef JNull JUndef (inject_Z 1700000000000))
    (jint 1700000060000) (jint 1700600000000) (inject_Z 1700000060000) (inject_Z 1700600000000)) as (H1 & _ & H2);
    [vm_compute; (discriminate || reflexivity)..|].
  split; [exact H1 | apply H2; vm_compute; reflexivity].
Defined.
