(* ===== verification/Availability.v ===== *)
(** * Account evaluation (src/src/lib/pool/availability.mjs)

    [evaluateAccount] is the one judgment behind the panel's capsules and the
    admission of [/v1] requests.  Its input object is the record [input] (a field
    that was not passed is [JUndef]); every derived [const] of the function is a
    definition over it, and [evaluateAccount] is the cascade of early returns in
    the order of the source.  The session registry it consults is the interface
    [SessionGate], implemented by session-limit.mjs. *)

From S2P Require Import Prelude.
From S2P Require Import JsValue.
From S2P Require Import JsRegex.
From S2P Require Import JsDate.
From S2P Require Import QuotaWindow.
From S2P Require Import TierPolicy.
From S2P Require Import SessionLimit.
From S2P Require Import Eligibility.
#[local] Open Scope string_scope.
#[local] Open Scope list_scope.
#[local] Open Scope js_scope.

Module Account.
Import Gate Credentials.

(** ** Constants and helpers *)

Definition USAGE_PROBE_SOURCES : list string := ["vm-oauth-usage"; "official-cc-usage"; "messages-headers"].
Definition INVALID_CREDENTIAL_TEXT : string := "无效凭证".
Definition AUTH_COOLDOWN_TEXT : string := "鉴权冷却".
Definition REVOKE_TEXT : string := "revoke".
Definition CREDENTIAL_REFRESH_FAIL : rx :=
  lits ["oauth_invalid_grant"; "invalid_grant"; "refresh_token_missing"; "refresh token not found"; "oauth_revoked";
        "oauth_no_refresh"; "oauth_cleared"; "credential_refresh_failed"].

(** [a || b || ...] on numbers. *)
Fixpoint first_number (l : list num) : num :=
  match l with
  | [] => Fin 0
  | [n] => n
  | n :: l => if truthy (JNum n) then n else first_number l
  end.

Definition liveAccessTtlMs (vm workerCredential expiresAt : jsval) : num :=
  first_number [expiresAtToMs expiresAt; expiresAtToMs (workerCredential?."expires_at");
                expiresAtToMs (vm?."claude"?."expires_at"); expiresAtToMs (vm?."expires_at")].

Definition currentRefreshError (vm refreshError : jsval) : jsval :=
  first_truthy [refreshError; vm?."claude"?."refresh_error"; vm?."refresh_error"].

Definition isLiveRefreshedAccess (vm expiresAt workerCredential : jsval) (now : num) : bool :=
  let expMs := liveAccessTtlMs vm (workerCredential ||| JObj []) expiresAt in
  if negb (truthy (JNum expMs)) || num_leb expMs now then false
  else if is_true (workerCredential?."needs_refresh") then false
  else any_truthy [workerCredential?."has_access"; vm?."claude"?."has_access"; vm?."has_token"].

Definition isUsageRefreshSuccess (probe probeSource : jsval) : bool :=
  is_true (probe?."ok") &&
  existsb (String.eqb (to_string (probe?."source" ||| probeSource ||| JStr ""))) USAGE_PROBE_SOURCES.

Definition isCredentialRefreshFailed (vm scheduleDisabledReason workerLastError refreshError probe expiresAt refreshedAt
    workerCredential : jsval) (now : num) : bool :=
  if isOfficialUsageRateLimited probe then false
  else
    let recordedError := currentRefreshError vm refreshError in
    let accessLive := isLiveRefreshedAccess vm expiresAt workerCredential now && negb (truthy recordedError) in
    let staleProbe := probeOlderThanRefresh
      (JObj [("last_probe", probe);
             ("refreshed_at", first_truthy [refreshedAt; vm?."claude"?."refreshed_at"; vm?."refreshed_at"])])
      (JObj [("last_probe", probe)]) in
    let bits := [scheduleDisabledReason; vm?."schedule_disabled_reason"; recordedError] ++
      (if accessLive then [] else [workerLastError]) ++
      (if negb staleProbe && negb (accessLive && isUsageRefreshSuccess probe JUndef)
       then [probe?."error"; probe?."message"] else []) in
    rx_test_i CREDENTIAL_REFRESH_FAIL (join_bits bits).

Definition utilRatio (u : jsval) : num :=
  if is_nullish u then Fin 0
  else let n := to_number u in
       if negb (is_finite n) then Fin 0
       else if num_ltb (Fin (3 # 2)) n then num_div n (num_of_Z 100) else n.

Definition probeOf (account quota extras : jsval) : jsval :=
  first_truthy [extras?."lastProbe"; extras?."last_probe"; quota?."last_probe"; account?."last_probe";
                account?."unified"?."last_probe"].

Definition sourceOf (probe account quota extras : jsval) : jsval :=
  first_truthy [probe?."source"; extras?."probeSource"; extras?."probe_source"; quota?."probe_source";
                account?."unified"?."source"].

(** [quota] is an object here; [clock] is [Date.now()]. *)
Definition quotaWindows (quota account : jsval) (clock : num) : jsval :=
  let u := account?."unified" ||| JObj [] in
  let w5 := headerWindowOrEmpty u "5h" clock in
  let w7 := headerWindowOrEmpty u "7d" clock in
  if truthy quota && (negb (is_nullish (quota?."utilization_5h")) ||
       any_truthy [quota?."status_5h"; quota?."status_7d"; quota?."reset_5h"; quota?."reset_7d"])
  then
    spread quota (JObj
      [("utilization_5h", quota?."utilization_5h" ?? w5?."utilization");
       ("utilization_7d", quota?."utilization_7d" ?? w7?."utilization");
       ("status_5h", quota?."status_5h" ||| w5?."status");
       ("status_7d", quota?."status_7d" ||| w7?."status");
       ("reset_5h", first_truthy [quota?."reset_5h"; w5?."reset"]);
       ("reset_7d", first_truthy [quota?."reset_7d"; w7?."reset"]);
       ("last_used_at", first_truthy [quota?."last_used_at"; account?."last_used_at"])])
  else
    JObj [("utilization_5h", w5?."utilization"); ("utilization_7d", w7?."utilization");
          ("status_5h", w5?."status"); ("status_7d", w7?."status");
          ("weekly_split", quota?."weekly_split" ||| account?."weekly_split" ||| u?."weekly_split");
          ("reset_5h", w5?."reset"); ("reset_7d", w7?."reset");
          ("last_used_at", first_truthy [account?."last_used_at"; quota?."last_used_at"])].

Record limits := { limit_5h : num; limit_7d : num; max_sessions : num; session_idle_min : num }.

Definition policyOf (policy : jsval) : limits :=
  let fallback := QuotaTiers.DEFAULT_TIER_POLICIES?."default" in
  {| limit_5h := to_number (policy?."limit_5h" ?? policy?."safety_ratio" ?? fallback?."limit_5h");
     limit_7d := to_number (policy?."limit_7d" ?? policy?."weekly_safety_ratio" ?? fallback?."limit_7d");
     max_sessions := to_number (policy?."max_sessions" ?? jint 0);
     session_idle_min := to_number (policy?."session_idle_min" ?? jint 5) |}.

(** ** The judgment *)

(** [key] of a capsule. *)
Inductive akey := KNone | KBad | KOff | KQuota | KSessions | KCool | KOk.
#[export] Instance akey_eq_dec : EqDecision akey.
Proof. solve_decision. Defined.

Record availability := {
  source : jsval; probed_at : jsval; in_pool : bool;
  key : akey; text : string; accept : bool; usable : bool;
  reason : jsval; window : jsval; av_sessions : jsval; until : jsval }.

(** The [base] of a capsule and the spread of [finish]. *)
Record capsule_base := { b_source : jsval; b_probed_at : jsval; b_in_pool : bool }.
Definition finish (b : capsule_base) (k : akey) (t : string) (acc use : bool) (r w s u : jsval) : availability :=
  {| source := b_source b; probed_at := b_probed_at b; in_pool := b_in_pool b;
     key := k; text := t; accept := acc; usable := use; reason := r; window := w; av_sessions := s; until := u |}.

Definition resetUntilMs (reset : jsval) (now : num) : jsval :=
  let ms := parseResetMs reset in if is_finite ms && num_ltb now ms then JNum ms else JNull.

Definition quotaUntilMs (quota : jsval) (window : string) (now : num) : jsval :=
  if String.eqb window "7d" then resetUntilMs (quota?."reset_7d") now else resetUntilMs (quota?."reset_5h") now.

(** What the judgment asks of a session registry with states [S]:
    [snapshot(accountId, {max, idleMin, now})] and
    [canAccept(accountId, sessionKey, {max, idleMin, now})] with its [ok] and [detail]. *)
Class SessionGate (S : Type) := {
  sg_snapshot : S -> jsval -> num -> num -> num -> S * jsval;
  sg_canAccept : S -> jsval -> jsval -> num -> num -> num -> S * (bool * jsval) }.

Record input := {
  i_vm : jsval; i_account : jsval; hasToken : jsval; hasRefresh : jsval; schedulable : jsval;
  scheduleDisabledReason : jsval; lastProbe : jsval; probeSource : jsval; workerLastError : jsval;
  refreshError : jsval; expiresAt : jsval; refreshedAt : jsval; workerCredential : jsval; i_quota : jsval;
  policy : jsval; sessionKey : jsval; cooldownUntil : jsval; cooldownReason : jsval; now : num;
  clock : num (* [Date.now()] inside [quotaWindows] *) }.

Section Judge.
Context (i : input).

Definition vm : jsval := i_vm i ||| JObj [].
Definition account : jsval := i_account i ||| JObj [].
Definition quota : jsval := i_quota i ||| JObj [].
Definition claude : jsval := vm?."claude" ||| JObj [].
Definition token : jsval := hasToken i ?? JBool (truthy (vm?."has_token" ||| claude?."has_access")).
Definition refresh : jsval := hasRefresh i ?? JBool (truthy (vm?."has_refresh" ||| claude?."has_refresh")).
Definition disabledReason : jsval := scheduleDisabledReason i ?? vm?."schedule_disabled_reason" ?? JNull.
Definition inPool : bool :=
  isLeftoverQuotaScheduleOff vm disabledReason || negb (is_false (schedulable i ?? vm?."schedulable")).
Definition extras : jsval :=
  JObj [("lastProbe", lastProbe i); ("last_probe", lastProbe i); ("probeSource", probeSource i); ("probe_source", probeSource i)].
Definition probe : jsval := probeOf account quota extras.
Definition base : capsule_base :=
  {| b_source := sourceOf probe account quota extras;
     b_probed_at := first_truthy [probe?."at"; probe?."probed_at"]; b_in_pool := inPool |}.
Definition pol : limits := policyOf (policy i).
Definition diskRefreshError : jsval := currentRefreshError vm (refreshError i).

Definition leftover_cooldown_reason : jsval :=
  first_truthy [cooldownReason i; account?."cooldown_reason"; claude?."temp_unschedulable_reason"].
Definition revokeExtras : jsval :=
  JObj [("vm", vm); ("has_token", token); ("has_refresh", refresh); ("last_probe", probe); ("lastProbe", probe);
        ("refreshed_at", refreshedAt i); ("schedule_disabled_reason", disabledReason);
        ("cooldown_reason", leftover_cooldown_reason); ("refresh_error", diskRefreshError);
        ("runtime", JObj [("cooldown_reason", leftover_cooldown_reason)]);
        ("worker_credential", spread (JObj [("last_error", workerLastError i)]) (workerCredential i ||| JObj []))].
Definition revoked : bool := isGrantRevoked revokeExtras (JObj [("last_probe", probe)]).
Definition credRefreshFailed : bool :=
  isCredentialRefreshFailed vm disabledReason (workerLastError i) (refreshError i) probe (expiresAt i) (refreshedAt i)
    (workerCredential i) (now i).

(** [headerHardBlocked(account.unified || {}, k) || headerHardBlocked(quota, k)] *)
Definition hard_blocked (k : string) : bool :=
  headerHardBlocked (account?."unified" ||| JObj []) k (now i) || headerHardBlocked quota k (now i).
(** [quotaUntilMs({ ...quota, reset_k: quota.reset_k || account.unified?.headers?.[k]?.reset }, k, now)] *)
Definition header_until (k : string) : jsval :=
  let f := ("reset_" ++ k)%string in
  quotaUntilMs (with_field quota f (quota?.f ||| account?."unified"?."headers"?.k?."reset")) k (now i).

Definition q : jsval := quotaWindows quota account (clock i).
Definition lastUsedAt : jsval :=
  first_truthy [account?."last_used_at"; quota?."last_used_at"; q?."last_used_at"].
Definition window_of (k : string) (duration : num) : jsval :=
  effectiveRateWindow
    (JObj [("utilization", q?.("utilization_" ++ k)%string); ("status", q?.("status_" ++ k)%string);
           ("reset", q?.("reset_" ++ k)%string)])
    (now i) lastUsedAt (JStr "headers") duration.
Definition w5 : jsval := window_of "5h" WINDOW_5H_MS.
Definition w7 : jsval := window_of "7d" WINDOW_7D_MS.
Definition u5 : num := utilRatio (w5?."utilization").
Definition u7 : num := utilRatio (w7?."utilization").

(** [split?.enabled && split.mode === 'fable_only'] *)
Definition fable_only : bool :=
  truthy (q?."weekly_split"?."enabled") && is_str (q?."weekly_split"?."mode") "fable_only".

Definition accountId : jsval := first_truthy [account?."account_id"; account?."accountId"; vm?."id"].

Definition tempUntil : num := to_number (claude?."temp_unschedulable_until" ||| vm?."temp_unschedulable_until" ||| jint 0).
Definition coolUntil : num :=
  num_max (to_number (cooldownUntil i ||| account?."cooldown_until" ||| vm?."cooldown_until" ||| jint 0))
          (if num_ltb (now i) tempUntil then tempUntil else Fin 0).
Definition cool_reason : jsval :=
  first_truthy [cooldownReason i; account?."cooldown_reason"; claude?."temp_unschedulable_reason";
                vm?."temp_unschedulable_reason"].
Definition REVOKE_COOL : rx := lits ["oauth_revoked"; "token has been revoked"].
Definition revoke_cool : bool := rx_test_i REVOKE_COOL (str_or_empty cool_reason).
Definition leftoverRevokeCool : bool :=
  revoke_cool &&
  isLiveDiskGrant vm (JObj [("refresh_error", diskRefreshError); ("schedule_disabled_reason", disabledReason);
                            ("has_token", token); ("has_refresh", refresh)]).

(** The session step: the registry afterwards, the snapshot, and the refusal's detail. *)
Definition session_step {S} `{SessionGate S} (reg : option S) : option S * jsval * option jsval :=
  match reg with
  | None => (None, JNull, None)
  | Some s =>
    let maxSessions := max_sessions pol in
    let idleMin := session_idle_min pol in
    let '(s1, sessions) := sg_snapshot s accountId maxSessions idleMin (now i) in
    if num_ltb (Fin 0) maxSessions then
      let '(s2, (ok, detail)) := sg_canAccept s1 accountId (sessionKey i) maxSessions idleMin (now i) in
      let atCap := truthy sessions && num_leb maxSessions (to_number (sessions?."active")) && negb (truthy (sessionKey i)) in
      if negb ok || atCap then (Some s2, sessions, Some (detail ||| sessions)) else (Some s2, sessions, None)
    else (Some s1, sessions, None)
  end.

(** [coolUntil > now] and what follows it: [None] when the account is not cooling. *)
Definition cooldown_step : option availability :=
  if negb (num_ltb (now i) coolUntil) || leftoverRevokeCool then None
  else if revoke_cool then Some (finish base KBad REVOKE_TEXT false false (JStr "oauth_revoked") JNull JNull JNull)
  else
    let authCool := isAuthCooldownReason cool_reason in
    Some (finish base KCool (if authCool then AUTH_COOLDOWN_TEXT else "冷却中") false true
            (JStr (if authCool then "auth_cooldown" else "cooldown")) JNull JNull (JNum coolUntil)).

(** The credential and quota gates, in order: the first that closes. *)
Definition closed_gate : option availability :=
  let refuse k t use r w u := Some (finish base k t false use r w JNull u) in
  if negb (truthy token) && negb (truthy refresh) then refuse KNone "无凭证" false (JStr "no_credential") JNull JNull
  else if revoked then refuse KBad REVOKE_TEXT false (JStr "oauth_revoked") JNull JNull
  else if credRefreshFailed then refuse KBad INVALID_CREDENTIAL_TEXT false (JStr "credential_refresh_failed") JNull JNull
  else if negb inPool then refuse KOff "调度关" false (disabledReason ||| JStr "disabled") JNull JNull
  else if hard_blocked "5h" then refuse KQuota "5h 限制" true (JStr "quota_5h_header") (JStr "5h") (header_until "5h")
  else if hard_blocked "7d" then refuse KQuota "7d 限制" true (JStr "quota_7d_header") (JStr "7d") (header_until "7d")
  else
    let until5 := resetUntilMs (w5?."reset") (now i) in
    let until7 := resetUntilMs (w7?."reset") (now i) in
    if num_leb (Fin 1) u5 then refuse KQuota "5h 限制" true (JStr "quota_5h_header") (JStr "5h") until5
    else if num_leb (Fin 1) u7 then refuse KQuota "7d 限制" true (JStr "quota_7d_header") (JStr "7d") until7
    else if num_leb (limit_5h pol) u5 then refuse KQuota "5h 限制" true (JStr "quota_5h_safety") (JStr "5h") until5
    else if num_leb (limit_7d pol) u7 then refuse KQuota "7d 限制" true (JStr "quota_7d_safety") (JStr "7d") until7
    else None.

Definition evaluateAccount {S} `{SessionGate S} (reg : option S) : option S * availability :=
  match closed_gate with
  | Some a => (reg, a)
  | None =>
    if fable_only then
      (reg, finish base KQuota "普通限制" true true (JStr "weekly_split_regular") JNull JNull JNull)
    else
      let '(reg', sessions, refused) := session_step reg in
      (reg', match refused with
             | Some detail => finish base KSessions "会话已满" false true (JStr "session_limit") JNull detail JNull
             | None => match cooldown_step with
                       | Some a => a
                       | None => finish base KOk "可用" true true JNull JNull sessions JNull
                       end
             end)
  end.

End Judge.

(** ** The registry of session-limit.mjs as a session gate

    Caps, idle minutes and the clock are whole numbers; a cap that is not finite is
    no cap. *)
Definition whole (n : num) : Z := match n with Fin q => Qfloor q | _ => 0%Z end.
Definition snap_obj (s : SessionLimit.snap) : jsval :=
  JObj [("active", jint (SessionLimit.active s)); ("max", jint (SessionLimit.smax s)); ("idle_min", jint (SessionLimit.idle_min s))].
Definition verdict_detail (v : SessionLimit.verdict) : jsval :=
  match v with
  | SessionLimit.Unlimited => JUndef
  | SessionLimit.Existing d | SessionLimit.Fresh d => snap_obj d
  | SessionLimit.SessionLimit d k => with_field (snap_obj d) "session_key" (JStr k)
  end.

#[export] Instance registry_gate : SessionGate SessionLimit.registry := {|
  sg_snapshot r id max idleMin now :=
    let '(r', s) := SessionLimit.snapshot r (str_or_empty id) (whole max) (whole idleMin) (whole now) in
    (r', snap_obj s);
  sg_canAccept r id k max idleMin now :=
    let '(r', v) := SessionLimit.canAccept r (str_or_empty id) (str_or_empty k) (whole max) (whole idleMin) (whole now) in
    (r', (SessionLimit.accepted v, verdict_detail v)) |}.

(** ** The other readers of the judgment *)

Definition isAccountRestrictionReason (reason : jsval) : bool :=
  isQuotaWindowReason reason ||
  existsb (String.eqb (to_lower (str_or_empty reason))) ["account_quota_exhausted"; "rate_limited"].

Inductive schedule_state := SOff | SRestricted | SOn.
#[export] Instance schedule_state_eq_dec : EqDecision schedule_state.
Proof. solve_decision. Defined.

Record schedule_view := { sv_state : schedule_state; restriction_reason : jsval; restriction_until : jsval }.

Definition isLeftover (schedulable scheduleManual scheduleDisabledReason : jsval) : bool :=
  isLeftoverQuotaScheduleOff
    (JObj [("schedulable", schedulable); ("schedule_manual", scheduleManual);
           ("schedule_disabled_reason", scheduleDisabledReason)]) scheduleDisabledReason.

Definition resolveScheduleState (schedulable scheduleManual scheduleDisabledReason : jsval) (av : availability)
    (restrictionUntil restrictionReason : jsval) (now : num) : schedule_view :=
  let leftover := isLeftover schedulable scheduleManual scheduleDisabledReason in
  if is_false schedulable && negb leftover
  then {| sv_state := SOff; restriction_reason := JNull; restriction_until := JNull |}
  else
    let until_ms := first_number [num_or_zero restrictionUntil; num_or_zero (until av)] in
    let liveRestriction := num_ltb now until_ms in
    if liveRestriction || bool_decide (key av = KQuota) || bool_decide (key av = KCool)
    then {| sv_state := SRestricted;
            restriction_reason :=
              first_truthy [restrictionReason; reason av; if leftover then scheduleDisabledReason else JNull];
            restriction_until := if liveRestriction then JNum until_ms else until av ||| JNull |}
    else {| sv_state := SOn; restriction_reason := JNull; restriction_until := JNull |}.

(** The input [isQuotaLimitedAccount] builds. *)
Definition quota_limited_input (acc pol : jsval) (now clock : num) : input :=
  let probe := acc?."last_probe" ||| acc?."unified"?."last_probe" ||| JNull in
  {| i_vm := JUndef; i_account := acc; hasToken := JBool true; hasRefresh := JBool true; schedulable := JBool true;
     scheduleDisabledReason := JUndef;
     lastProbe := if truthy (probe?."ok") then probe
                  else JObj [("ok", JBool true);
                             ("source", acc?."unified"?."source" ||| probe?."source" ||| JStr "vm-oauth-usage");
                             ("at", probe?."at")];
     probeSource := JUndef; workerLastError := JUndef; refreshError := JUndef; expiresAt := JUndef;
     refreshedAt := JUndef; workerCredential := JUndef; i_quota := acc?."unified" ||| JObj []; policy := pol;
     sessionKey := JUndef; cooldownUntil := JUndef; cooldownReason := JUndef; now := now; clock := clock |}.

Definition isQuotaLimitedAccount (acc pol : jsval) (now clock : num) : bool :=
  bool_decide (key (evaluateAccount (quota_limited_input acc pol now clock) (None : option SessionLimit.registry)).2 = KQuota).

Definition key_name (k : akey) : string :=
  match k with
  | KNone => "none" | KBad => "bad" | KOff => "off" | KQuota => "quota"
  | KSessions => "sessions" | KCool => "cool" | KOk => "ok"
  end.

(** The JavaScript object of a judgment. *)
Definition av_obj (a : availability) : jsval :=
  JObj [("source", source a); ("probed_at", probed_at a); ("in_pool", JBool (in_pool a)); ("key", JStr (key_name (key a)));
        ("text", JStr (text a)); ("accept", JBool (accept a)); ("usable", JBool (usable a)); ("reason", reason a);
        ("window", window a); ("sessions", av_sessions a); ("until", until a)].

Definition tone_of (k : string) : string :=
  if String.eqb k "ok" then "ok"
  else if existsb (String.eqb k) ["quota"; "sessions"; "warn"] then "warn"
  else if existsb (String.eqb k) ["cool"; "caution"] then "caution"
  else if String.eqb k "off" then "off"
  else if String.eqb k "none" then "none" else "bad".

Definition text_of (k : string) (reason : jsval) : string :=
  if String.eqb k "ok" then "可用"
  else if String.eqb k "none" then "无凭证"
  else if String.eqb k "off" then "调度关"
  else if String.eqb k "quota" then "5h 限制"
  else if String.eqb k "warn" then "5h 警告"
  else if String.eqb k "sessions" then "会话已满"
  else if String.eqb k "cool" then (if is_str reason "auth_cooldown" then AUTH_COOLDOWN_TEXT else "冷却中")
  else if is_str reason "oauth_revoked" then REVOKE_TEXT else INVALID_CREDENTIAL_TEXT.

Definition credStatusFromAvailability (av : jsval) : jsval :=
  let k := av?."key" ||| JStr "none" in
  JObj [("key", k); ("text", av?."text" ||| JStr (text_of (to_string k) (av?."reason")));
        ("tone", JStr (tone_of (to_string k))); ("reason", av?."reason" ||| JNull);
        ("usable", JBool (truthy (av?."usable"))); ("accept", JBool (is_true (av?."accept")));
        ("in_pool", JBool (truthy (av?."in_pool")))].

End Account.

Import Account.

(** ** The shape of a judgment *)

(** A time that is absent or after [now]. *)
Definition null_or_future (v : jsval) (now : num) : Prop := v = JNull \/ exists n, v = JNum n /\ num_ltb now n = true.

(** What every judgment satisfies. *)
Record well_formed (now : num) (a : availability) : Prop := {
  wf_text : text a <> "";
  wf_accept : accept a = true <-> key a = KOk \/ (key a = KQuota /\ reason a = JStr "weekly_split_regular");
  wf_usable : usable a = false <-> key a = KNone \/ key a = KBad \/ key a = KOff;
  wf_reason : reason a = JNull <-> key a = KOk;
  wf_off : key a = KOff -> in_pool a = false;
  wf_pool : in_pool a = false -> accept a = false /\ usable a = false;
  wf_until : null_or_future (until a) now }.

Ltac wf_row := constructor; simpl; intuition (congruence || discriminate || (by left)).

Lemma or_else_not_null v s : s <> "" -> v ||| JStr s <> JNull.
Proof. intros _. unfold or_else. destruct (truthy v) eqn:E; [|done]. by destruct v. Qed.

Lemma resetUntilMs_future r now : null_or_future (resetUntilMs r now) now.
Proof.
  unfold resetUntilMs. destruct (is_finite _ && _) eqn:E; [|by left].
  apply andb_true_iff in E as [_ E]. right. eauto.
Qed.

Lemma quotaUntilMs_future qt w now : null_or_future (quotaUntilMs qt w now) now.
Proof. unfold quotaUntilMs. case_match; apply resetUntilMs_future. Qed.

Lemma null_future now : null_or_future JNull now.
Proof. by left. Qed.
#[export] Hint Resolve resetUntilMs_future quotaUntilMs_future null_future : core.

Section Shape.
Context (i : input).

(** Rows of the cascade: a dead credential, an operator's switch, a closed quota. *)
Lemma wf_dead k t r :
  k = KNone \/ k = KBad -> t <> "" -> r <> JNull ->
  well_formed (now i) (finish (base i) k t false false r JNull JNull JNull).
Proof. intros Hk Ht Hr. wf_row. Qed.

Lemma wf_quota t s w u : t <> "" -> s <> "weekly_split_regular" -> inPool i = true -> null_or_future u (now i) ->
  well_formed (now i) (finish (base i) KQuota t false true (JStr s) w JNull u).
Proof. intros Ht Hs Hp Hu. wf_row. Qed.

Lemma closed_gate_wf a : closed_gate i = Some a -> well_formed (now i) a /\ accept a = false.
Proof.
  unfold closed_gate.
  destruct (negb (truthy (token i)) && _); [intros [= <-]; split; [apply wf_dead; auto; discriminate|done]|].
  destruct (revoked i); [intros [= <-]; split; [apply wf_dead; auto; discriminate|done]|].
  destruct (credRefreshFailed i); [intros [= <-]; split; [apply wf_dead; auto; discriminate|done]|].
  destruct (inPool i) eqn:Hp; simpl negb; cbv iota.
  - repeat (case_match; [intros [= <-]; split;
      [apply wf_quota; (discriminate || done || (unfold header_until; auto)) | done]|]). done.
  - intros [= <-]. split; [|done]. pose proof (or_else_not_null (disabledReason i) "disabled") as Hr.
    constructor; simpl; auto; intuition (congruence || discriminate || auto).
Qed.

Lemma closed_gate_pool : closed_gate i = None -> inPool i = true.
Proof. unfold closed_gate. repeat (case_match; [done|]). intros _. by destruct (inPool i). Qed.

Lemma cooldown_step_wf a :
  inPool i = true -> cooldown_step i = Some a -> well_formed (now i) a /\ accept a = false.
Proof.
  intros Hp. unfold cooldown_step. destruct (num_ltb (now i) (coolUntil i)) eqn:Hc; simpl; [|done].
  destruct (leftoverRevokeCool i); [done|]. destruct (revoke_cool i); intros [= <-]; split; try done;
    [by apply wf_dead; auto|].
  constructor; simpl; try (intuition (congruence || discriminate)); [by case_match|]. right. eauto.
Qed.
End Shape.

(** What the cascade above the cooldown let through. *)
Record gates_open (i : input) : Prop := {
  open_credential : truthy (token i) = true \/ truthy (refresh i) = true;
  open_grant : revoked i = false;
  open_refresh : credRefreshFailed i = false;
  open_pool : inPool i = true;
  open_5h : hard_blocked i "5h" = false;
  open_7d : hard_blocked i "7d" = false;
  open_full : num_leb (Fin 1) (u5 i) = false /\ num_leb (Fin 1) (u7 i) = false;
  open_limit5 : num_leb (limit_5h (pol i)) (u5 i) = false;
  open_limit7 : num_leb (limit_7d (pol i)) (u7 i) = false }.

Lemma closed_gate_None i : closed_gate i = None <-> gates_open i.
Proof.
  unfold closed_gate. split.
  - intros H. repeat case_match; try done. constructor; try done.
    + destruct (truthy (token i)), (truthy (refresh i)); auto.
    + by destruct (inPool i).
  - intros [Hc -> -> -> -> -> [-> ->] -> ->].
    by assert (negb (truthy (token i)) && negb (truthy (refresh i)) = false) as -> by by destruct Hc as [-> | ->];
      rewrite ?andb_false_r.
Qed.

Section Judged.
Context {G : Type} `{SessionGate G} (i : input) (reg : option G).

(** every judgment is well formed: the capsule says schedulable exactly when the
    key is ok or only the regular weekly half is used up; it is unusable exactly when
    the credential is missing or dead or the operator switched the slot off; a
    reason is missing exactly for ok; outside the pool nothing is accepted; and the
    announced end of a restriction lies in the future. *)
Theorem judgment_well_formed : well_formed (now i) (evaluateAccount i reg).2.
Proof.
  unfold evaluateAccount. destruct (closed_gate i) as [a|] eqn:Hg; [by apply closed_gate_wf|].
  pose proof (closed_gate_pool i Hg) as Hp. destruct (fable_only i); simpl; [wf_row|].
  destruct (session_step i reg) as [[r' s] [d|]]; simpl; [wf_row|].
  destruct (cooldown_step i) as [a|] eqn:Hc; [by apply cooldown_step_wf|]. wf_row.
Qed.

(** An account is accepted exactly when it has a credential, its grant is neither
    revoked nor failing, it is in the pool, no live header rejects it, both windows
    are below exhaustion and below the tier's limits and, unless only the Fable half
    of the week is left, its session gate admits the request and no cooldown is
    running (a cooldown for a revoked grant is ignored once a live grant is back). *)
Theorem accept_exactly :
  accept (evaluateAccount i reg).2 = true <->
  gates_open i /\
  (fable_only i = true \/
   ((session_step i reg).2 = None /\ (num_ltb (now i) (coolUntil i) = false \/ leftoverRevokeCool i = true))).
Proof.
  rewrite <- (closed_gate_None i). unfold evaluateAccount.
  destruct (closed_gate i) as [a|] eqn:Hg.
  - simpl. rewrite (proj2 (closed_gate_wf i a Hg)). by split; [|intros [? _]].
  - destruct (fable_only i); simpl; [by split; auto|].
    destruct (session_step i reg) as [[r' s] [d|]]; simpl; [split; [done|]; intros [_ [?|[? _]]]; done|].
    pose proof (cooldown_step_wf i) as Hw. unfold cooldown_step in *.
    destruct (num_ltb (now i) (coolUntil i)) eqn:Hc; simpl in *; [|tauto].
    destruct (leftoverRevokeCool i); simpl in *; [tauto|].
    destruct (revoke_cool i); simpl; (split; [done|]; intros [_ [?|[_ [?|?]]]]; done).
Qed.

End Judged.

(** ** Schedule state of the panel *)

Lemma or_null_future v now : null_or_future v now -> null_or_future (v ||| JNull) now.
Proof. intros [->|[n [-> Hn]]]; [by left|]. unfold or_else. case_match; [right; eauto|by left]. Qed.

(** the panel shows a slot as switched off exactly when the operator did it (not a
    leftover of a quota window); a judgment that says quota or cooling is shown as
    restricted, with an end that is missing or in the future; a slot shown as on has
    neither. *)
Theorem schedule_state_of_judgment {G} `{SessionGate G} (i : input) (reg : option G) sched manual why rUntil rReason :
  forall v, v = resolveScheduleState sched manual why (evaluateAccount i reg).2 rUntil rReason (now i) ->
  (sv_state v = SOff <-> is_false sched = true /\ isLeftover sched manual why = false) /\
  (sv_state v = SOn -> key (evaluateAccount i reg).2 <> KQuota /\ key (evaluateAccount i reg).2 <> KCool /\
     restriction_reason v = JNull) /\
  null_or_future (restriction_until v) (now i).
Proof.
  intros v ->. pose proof (wf_until _ _ (judgment_well_formed i reg)) as Hu.
  generalize dependent (evaluateAccount i reg).2. intros a Hu. unfold resolveScheduleState.
  set (ms := first_number _).
  destruct (is_false sched && negb (isLeftover sched manual why)) eqn:Hs.
  { apply andb_true_iff in Hs as [Hs Hl%negb_true_iff]. simpl. split; [done|split; [done|apply null_future]]. }
  apply andb_false_iff in Hs. rewrite negb_false_iff in Hs.
  assert (Hoff : forall st, st <> SOff -> st = SOff <-> is_false sched = true /\ isLeftover sched manual why = false).
  { intros st Hst. split; [done|]. intros [? ?]. destruct Hs; congruence. }
  destruct (_ || _) eqn:Hr; simpl; (split; [by apply Hoff|]).
  - split; [done|]. destruct (num_ltb (now i) ms) eqn:Hlive; [right; eauto|by apply or_null_future].
  - apply orb_false_iff in Hr as [[_ Hq]%orb_false_iff Hk]. by apply bool_decide_eq_false in Hq, Hk; auto.
Qed.

(** The capsule of the panel repeats the judgment: same key, text, reason and
    flags, and its tone is green exactly for ok. *)
Theorem capsule_of_judgment {G} `{SessionGate G} (i : input) (reg : option G) :
  forall a, a = (evaluateAccount i reg).2 ->
  credStatusFromAvailability (av_obj a) =
    JObj [("key", JStr (key_name (key a))); ("text", JStr (text a)); ("tone", JStr (tone_of (key_name (key a))));
          ("reason", reason a ||| JNull); ("usable", JBool (usable a)); ("accept", JBool (accept a));
          ("in_pool", JBool (in_pool a))] /\
  (tone_of (key_name (key a)) = "ok" <-> reason a = JNull).
Proof.
  intros a ->. destruct (judgment_well_formed i reg) as [Ht _ _ Hr _ _ _].
  destruct (evaluateAccount i reg) as [r' a]. cbn [snd] in *. split.
  - unfold credStatusFromAvailability, av_obj. cbn -[tone_of text_of key_name].
    assert (JStr (key_name (key a)) ||| JStr "none" = JStr (key_name (key a))) as -> by by destruct (key a).
    assert (forall w, JStr (text a) ||| w = JStr (text a)) as ->.
    { intros w. unfold or_else. simpl. by rewrite (proj2 (String.eqb_neq _ _) Ht). }
    by destruct (usable a), (accept a), (in_pool a).
  - rewrite Hr. destruct (key a); simpl; split; (done || discriminate).
Qed.

(** ** Admission and the conversation cap *)

Lemma whole_Z z : whole (num_of_Z z) = z.
Proof. apply Qfloor_Z. Qed.

(** Admission respects the conversation cap: when an account with a finite cap is
    accepted for a session through every gate, registering the session in the
    resulting registry keeps the account within its cap. *)
Theorem accepted_session_within_cap (i : input) (r r' : SessionLimit.registry) cap t :
  max_sessions (pol i) = num_of_Z cap -> (0 < cap)%Z -> fable_only i = false ->
  (Z.of_nat (SessionLimit.sessions r (str_or_empty (accountId i))) <= cap)%Z ->
  (evaluateAccount i (Some r)).1 = Some r' -> accept (evaluateAccount i (Some r)).2 = true ->
  (Z.of_nat (SessionLimit.sessions (SessionLimit.touch r' (str_or_empty (accountId i)) (str_or_empty (sessionKey i)) t).1
                                   (str_or_empty (accountId i))) <= cap)%Z.
Proof.
  intros Hcap Hpos Hfable Hinv Hr' Hacc.
  pose proof (proj1 (accept_exactly i (Some r)) Hacc) as [Hopen [?|[Hs _]]]; [congruence|].
  apply closed_gate_None in Hopen. unfold evaluateAccount in Hr'. rewrite Hopen, Hfable in Hr'.
  destruct (session_step i (Some r)) as [[r2 s] d] eqn:E. cbn [fst snd] in *. subst r2 d. revert E.
  unfold session_step. cbv zeta. rewrite Hcap.
  assert (num_ltb (Fin 0) (num_of_Z cap) = true) as -> by by apply (num_ltb_Z 0).
  cbn [sg_snapshot sg_canAccept registry_gate]. rewrite !whole_Z.
  set (id := str_or_empty (accountId i)) in *. set (k := str_or_empty (sessionKey i)) in *.
  set (idle := whole (session_idle_min (pol i))). set (n := whole (now i)).
  pose proof (SessionLimit.snapshot_sessions_le r id cap idle n id) as Hle.
  destruct (SessionLimit.snapshot r id cap idle n) as [r1 sn]. cbn [fst] in Hle.
  pose proof (SessionLimit.admit_within_cap r1 id k cap idle n t Hpos) as Hadm.
  destruct (SessionLimit.canAccept r1 id k cap idle n) as [r3 v]. cbn [fst snd] in Hadm.
  destruct (SessionLimit.accepted v); simpl negb; cbv iota; [|done].
  destruct (false || _); [done|]. intros [= <- _]. apply Hadm. lia.
Qed.

(** ** Concrete runs *)

Definition sample_input : input :=
  {| i_vm := JObj [("id", JStr "vm1"); ("claude", JObj [("has_access", JBool true); ("has_refresh", JBool true)])];
     i_account := JUndef; hasToken := JUndef; hasRefresh := JUndef; schedulable := JUndef;
     scheduleDisabledReason := JUndef; lastProbe := JUndef; probeSource := JUndef; workerLastError := JUndef;
     refreshError := JUndef; expiresAt := JUndef; refreshedAt := JUndef; workerCredential := JUndef; i_quota := JUndef;
     policy := JObj [("max_sessions", jint 2)]; sessionKey := JStr "s1"; cooldownUntil := JUndef;
     cooldownReason := JUndef; now := num_of_Z 1700000000000; clock := num_of_Z 1700000000000 |}.

(** The same slot with a live rejected header. *)
Definition blocked_input : input :=
  {| i_vm := i_vm sample_input; i_account := JUndef; hasToken := JUndef; hasRefresh := JUndef; schedulable := JUndef;
     scheduleDisabledReason := JUndef; lastProbe := JUndef; probeSource := JUndef; workerLastError := JUndef;
     refreshError := JUndef; expiresAt := JUndef; refreshedAt := JUndef; workerCredential := JUndef;
     i_quota := JObj [("headers", JObj [("5h", JObj [("status", JStr "rejected"); ("reset", jint 1700003600)])]);
                      ("reset_5h", jint 1700003600)];
     policy := JUndef; sessionKey := JUndef; cooldownUntil := JUndef; cooldownReason := JUndef;
     now := num_of_Z 1700000000000; clock := num_of_Z 1700000000000 |}.

Lemma schedule_state_of_judgment_witness :
  sv_state (resolveScheduleState (JBool true) JUndef JUndef (evaluateAccount blocked_input (None : option SessionLimit.registry)).2
              JUndef JUndef (now blocked_input)) = SRestricted /\
  null_or_future (restriction_until (resolveScheduleState (JBool true) JUndef JUndef
    (evaluateAccount blocked_input (None : option SessionLimit.registry)).2 JUndef JUndef (now blocked_input)))
    (now blocked_input).
Proof.
  split; [vm_compute; reflexivity|].
  exact (proj2 (proj2 (schedule_state_of_judgment blocked_input (None : option SessionLimit.registry)
    (JBool true) JUndef JUndef JUndef JUndef _ eq_refl))).
Defined.

Lemma capsule_of_judgment_witness :
  credStatusFromAvailability (av_obj (evaluateAccount sample_input (None : option SessionLimit.registry)).2)?."tone" = JStr "ok" /\
  credStatusFromAvailability (av_obj (evaluateAccount sample_input (None : option SessionLimit.registry)).2)?."accept" = JBool true.
Proof.
  rewrite (proj1 (capsule_of_judgment sample_input (None : option SessionLimit.registry) _ eq_refl)).
  split; vm_compute; reflexivity.
Defined.

Lemma accepted_session_within_cap_witness :
  accept (evaluateAccount sample_input (Some ∅)).2 = true /\
  (Z.of_nat (SessionLimit.sessions (SessionLimit.touch ∅ (str_or_empty (accountId sample_input))
     (str_or_empty (sessionKey sample_input)) 1700000000000).1 (str_or_empty (accountId sample_input))) <= 2)%Z.
Proof.
  split; [vm_compute; reflexivity|].
  apply (accepted_session_within_cap sample_input ∅ ∅ 2 1700000000000);
    vm_compute; (discriminate || reflexivity).
Defined.
