(* ===== verification/Errors.v ===== *)
(** * The gateway's error taxonomy (src/src/lib/core/errors.mjs)

    Every error answer of the gateway is built by [makeError]; [mapUpstreamError]
    maps an upstream failure to one, [validateRequestBody] refuses a body before it
    is converted, and the assistant predicates decide whether a hop produced a
    complete message. *)

From S2P Require Import Prelude.
From S2P Require Import JsValue.
From S2P Require Import JsRegex.
From S2P Require Import Eligibility.
#[local] Open Scope string_scope.
#[local] Open Scope list_scope.
#[local] Open Scope js_scope.

(** Membership in a literal set of strings. *)
Definition is_one_of (s : string) (l : list string) : bool := existsb (String.eqb s) l.

(** [Object.keys(v).length] *)
Definition keys_length (v : jsval) : nat :=
  match v with JObj f => length f | JArr l => length l | JStr s => String.length s | _ => 0 end.

Definition ErrorType : jsval := JObj
  [("AUTH", JStr "authentication_error"); ("PERMISSION", JStr "permission_error");
   ("INVALID_REQUEST", JStr "invalid_request_error"); ("NOT_FOUND", JStr "not_found_error");
   ("RATE_LIMIT", JStr "rate_limit_error"); ("QUOTA", JStr "quota_error"); ("UPSTREAM", JStr "upstream_error");
   ("API", JStr "api_error"); ("OVERLOADED", JStr "overloaded_error"); ("TIMEOUT", JStr "timeout_error");
   ("PROTOCOL", JStr "protocol_error")].

Definition ErrorCode : jsval := JObj
  [("INVALID_API_KEY", JStr "invalid_api_key"); ("MISSING_API_KEY", JStr "missing_api_key");
   ("INVALID_JSON", JStr "invalid_json"); ("BODY_TOO_LARGE", JStr "body_too_large"); ("EMPTY_BODY", JStr "empty_body");
   ("MISSING_FIELD", JStr "missing_field"); ("INVALID_FIELD", JStr "invalid_field");
   ("INVALID_MESSAGES", JStr "invalid_messages"); ("INVALID_CONTENT", JStr "invalid_content");
   ("MODEL_REQUIRED", JStr "model_required"); ("MODEL_NOT_SUPPORTED", JStr "model_not_supported");
   ("GATEWAY_RATE_LIMIT", JStr "gateway_rate_limit"); ("QUOTA_5H_SAFETY", JStr "quota_5h_safety");
   ("QUOTA_7D_SAFETY", JStr "quota_7d_safety"); ("CONCURRENCY_LIMIT", JStr "concurrency_limit");
   ("API_KEY_DISABLED", JStr "api_key_disabled"); ("API_KEY_EXPIRED", JStr "api_key_expired");
   ("API_KEY_QUOTA_EXHAUSTED", JStr "api_key_quota_exhausted"); ("API_KEY_RATE_LIMIT", JStr "api_key_rate_limit");
   ("API_KEY_CONCURRENCY_LIMIT", JStr "api_key_concurrency_limit"); ("UPSTREAM_AUTH", JStr "upstream_auth_error");
   ("UPSTREAM_RATE_LIMIT", JStr "upstream_rate_limit"); ("UPSTREAM_INVALID", JStr "upstream_invalid_request");
   ("UPSTREAM_OVERLOADED", JStr "upstream_overloaded"); ("UPSTREAM_TIMEOUT", JStr "upstream_timeout");
   ("UPSTREAM_ERROR", JStr "upstream_error"); ("INCOMPLETE_RESPONSE", JStr "incomplete_response");
   ("PROTOCOL_UNSUPPORTED", JStr "protocol_unsupported"); ("CONVERT_FAILED", JStr "convert_failed");
   ("HEALTH_UNAVAILABLE", JStr "health_unavailable"); ("DISTILL_BLOCKED", JStr "distill_blocked");
   ("REFUSAL_GUARD", JStr "refusal_guard"); ("VM_NOT_FOUND", JStr "vm_not_found"); ("NOT_FOUND", JStr "not_found");
   ("OAUTH_NEED_REIMPORT", JStr "oauth_need_reimport"); ("OAUTH_REFRESH_FAILED", JStr "oauth_refresh_failed");
   ("COUNT_TOKENS_UNSUPPORTED", JStr "count_tokens_unsupported"); ("USAGE_UNSUPPORTED", JStr "usage_unsupported");
   ("SERVER_OVERLOADED", JStr "server_overloaded")].

Definition CLIENT_POOL_BUSY_MESSAGE : string := "号池负载过高，稍后再试".

Definition POOL_CAPACITY_CODES : list string :=
  ["server_overloaded"; "account_pool_exhausted"; "api_pool_exhausted"; "no_available_accounts"; "no_eligible_accounts";
   "pool_wait_queue_full"; "pool_deadline_exceeded"; "attempts_exhausted"; "max_account_switches_exceeded"].
Definition POOL_CAPACITY_MESSAGE : rx :=
  lits ["no eligible"; "no ready api"; "account pool"; "号池没有"; "无可用账号"; "eligible claude"].
Definition WRAP_CONNECTION_MESSAGE : rx := rseqs [lit "provider error:"; RStar dot; lit "connection error"].

Definition isWrapConnectionError (message : jsval) : bool := rx_test_i WRAP_CONNECTION_MESSAGE (str_or_empty message).

Definition isPoolCapacityError (code message : jsval) : bool :=
  is_one_of (trim (str_or_empty code)) POOL_CAPACITY_CODES || rx_test_i POOL_CAPACITY_MESSAGE (str_or_empty message).

(** ** [makeError] *)

(** The arguments of [makeError]; a field left out is [JUndef]. *)
Record error_args := {
  e_type : jsval; e_code : jsval; e_message : jsval; e_param : jsval; e_details : jsval; e_status : jsval; e_request_id : jsval }.

(** A default parameter value. *)
Definition default_to (v d : jsval) : jsval := match v with JUndef => d | _ => v end.

Definition makeError (a : error_args) : jsval :=
  let type := default_to (e_type a) (ErrorType?."API") in
  let code := default_to (e_code a) (JStr "unknown_error") in
  let error := JObj [("type", type); ("code", code); ("message", e_message a ||| code)] in
  let error := if truthy (e_param a) then with_field error "param" (e_param a) else error in
  let error := if truthy (e_details a) && negb (keys_length (e_details a) =? 0)%nat
               then with_field error "details" (e_details a) else error in
  let error := if truthy (e_request_id a) then with_field error "request_id" (e_request_id a) else error in
  JObj [("status", default_to (e_status a) (jint 500)); ("body", JObj [("error", error)])].

Definition err (type code message : jsval) (status : Z) : error_args :=
  {| e_type := type; e_code := code; e_message := message; e_param := JUndef; e_details := JUndef;
     e_status := jint status; e_request_id := JUndef |}.
Definition with_param (a : error_args) (p : jsval) : error_args :=
  {| e_type := e_type a; e_code := e_code a; e_message := e_message a; e_param := p; e_details := e_details a;
     e_status := e_status a; e_request_id := e_request_id a |}.
Definition with_details (a : error_args) (d : jsval) : error_args :=
  {| e_type := e_type a; e_code := e_code a; e_message := e_message a; e_param := e_param a; e_details := d;
     e_status := e_status a; e_request_id := e_request_id a |}.
Definition with_request_id (a : error_args) (r : jsval) : error_args :=
  {| e_type := e_type a; e_code := e_code a; e_message := e_message a; e_param := e_param a; e_details := e_details a;
     e_status := e_status a; e_request_id := r |}.
Definition with_status (a : error_args) (s : jsval) : error_args :=
  {| e_type := e_type a; e_code := e_code a; e_message := e_message a; e_param := e_param a; e_details := e_details a;
     e_status := s; e_request_id := e_request_id a |}.

(** The answer of every capacity failure. *)
Definition pool_busy : error_args :=
  err (ErrorType?."OVERLOADED") (ErrorCode?."SERVER_OVERLOADED") (JStr CLIENT_POOL_BUSY_MESSAGE) 503.

Definition rewritePoolErrorForClient (mapped originalBody : jsval) : jsval :=
  let code := originalBody?."error"?."code" ||| mapped?."body"?."error"?."code" in
  let message := originalBody?."error"?."message" ||| mapped?."body"?."error"?."message" ||| JStr "" in
  if negb (isPoolCapacityError code message) then mapped else makeError pool_busy.

Definition GATEWAY_OVERLOAD_CODES : list string := ["server_overloaded"; "account_pool_exhausted"; "api_pool_exhausted"].
Definition CLIENT_CANCEL_CODES : list string :=
  ["client_cancelled"; "request_cancelled"; "client_aborted"; "selection_cancelled"; "ECONNRESET"; "aborted"].

Definition isClientCancelledCode (code message : jsval) : bool :=
  is_one_of (trim (str_or_empty code)) CLIENT_CANCEL_CODES ||
  rx_test_i (lits ["econnreset"; "client_aborted"; "request_cancelled"; "selection_cancelled"; "context canceled"])
    (str_or_empty code ++ " " ++ str_or_empty message)%string.

Definition isClientCancelledResult (result : jsval) : bool :=
  isClientCancelledCode (result?."body"?."error"?."code" ||| result?."error_code" ||| JStr "")
    (result?."body"?."error"?."message" ||| result?."error_message" ||| JStr "").

(** ** Complete assistant messages *)

Definition upstreamErrorType (body : jsval) : jsval :=
  if truthy (body?."error"?."type") then body?."error"?."type"
  else if is_str (body?."type") "error" then JStr "error" else JNull.

Definition isAssistantMessageBody (body : jsval) : bool :=
  is_obj body && negb (truthy (body?."error")) &&
  negb (truthy (body?."type") && negb (is_str (body?."type") "message")) &&
  negb (truthy (body?."role") && negb (is_str (body?."role") "assistant")) &&
  (is_str (body?."type") "message" || is_array (body?."content")).

Definition visible_block (block : jsval) : bool :=
  (is_str (block?."type") "text" && negb (String.eqb (trim (str_or_empty (block?."text"))) "")) ||
  is_str (block?."type") "tool_use" ||
  (is_str (block?."type") "refusal" && negb (String.eqb (trim (str_or_empty (block?."refusal" ||| block?."text"))) "")).

Definition assistantVisibleOutput (body : jsval) : bool :=
  existsb visible_block (arr_of (body?."content" ||| body?."message"?."content")).

Definition assistantStopReason (result : jsval) : string :=
  trim (to_string (result?."stopReason" ||| result?."body"?."stop_reason" ||| JStr "")).

(** [result?.body && typeof result.body === 'object' ? result.body : result] *)
Definition body_of (result : jsval) : jsval := if is_object (result?."body") then result?."body" else result.

Definition isCompleteAssistantMessage (result : jsval) : bool :=
  let body := body_of result in
  isAssistantMessageBody body &&
  negb (String.eqb (assistantStopReason (JObj [("body", body); ("stopReason", result?."stopReason")])) "") &&
  assistantVisibleOutput body.

Definition isIncompleteAssistantMessage (result : jsval) : bool :=
  let body := body_of result in
  isAssistantMessageBody body &&
  negb (isCompleteAssistantMessage (if truthy (result?."body") then result else JObj [("body", body)])).

Definition finalizeAssembledAssistantHop (result : jsval) : jsval :=
  if isCompleteAssistantMessage result then
    if truthy (result?."ok") then result else with_field result "ok" (JBool true)
  else if isIncompleteAssistantMessage result || truthy (result?."ok") then
    with_field (with_field (with_field result "ok" (JBool false)) "committed" (JBool false)) "terminalState" (JStr "incomplete")
  else result.

Definition incompleteAssistantClientError (result : jsval) : jsval :=
  spread result (JObj
    [("ok", JBool false); ("committed", JBool false); ("terminalState", JStr "incomplete"); ("status", jint 502);
     ("body", JObj [("type", JStr "error");
        ("error", JObj [("type", ErrorType?."UPSTREAM"); ("code", ErrorCode?."INCOMPLETE_RESPONSE");
           ("message", JStr "Assistant hop ended without visible output or stop_reason")])])]).

(** ** Upstream errors *)

(** The message the client sees, before it is enriched. *)
Definition upstream_message (body : jsval) : jsval :=
  first_truthy [body?."error"?."message";
                if is_string (body?."error") then body?."error" else JNull;
                if truthy (upstreamErrorType body) then body?."message" else JNull;
                body?."raw"].

(** [!msg || String(msg).trim() === '' || /^error$/i.test(String(msg).trim())] *)
Definition bare_message (msg : jsval) : bool :=
  negb (truthy msg) || String.eqb (trim (to_string msg)) "" || String.eqb (to_lower (trim (to_string msg))) "error".

Definition enriched_message (status : jsval) (upType msg : jsval) : jsval :=
  if negb (bare_message msg) then msg
  else if is_num status 429 || is_str upType "rate_limit_error"
       then JStr "Rate limit exceeded (upstream). Please retry later or switch account."
  else if is_num status 401 || is_num status 403 || is_str upType "authentication_error"
       then JStr "Upstream authentication failed. OAuth credential may be expired."
  else if is_num status 529 || is_str upType "overloaded_error" then JStr "Upstream overloaded. Please retry shortly."
  else if truthy upType then JStr ("Upstream error: " ++ to_string upType ++ " (HTTP " ++ to_string status ++ ")")%string
  else JStr ("Upstream HTTP " ++ to_string status)%string.

Definition INCOMPLETE_MESSAGE : rx :=
  lits ["ended before a valid terminal event"; "stream closed before message_stop"; "without visible output or stop_reason"].

(** The answer by status and upstream type, once the message is known. *)
Definition map_by_status (status body headers msg : jsval) : jsval :=
  let upType := upstreamErrorType body in
  let inboundCode := body?."error"?."code" ||| JNull in
  let message := JStr (to_string msg) in
  let request_id := first_truthy [body?."error"?."request_id"; body?."request_id"; headers?."request-id"; headers?."x-request-id"] in
  let details := JObj [("upstream_type", upType); ("upstream_status", status)] in
  let answer a d := makeError (with_request_id (with_details a d) request_id) in
  if is_num status 401 || is_num status 403 || is_str upType "authentication_error" then
    answer (err (ErrorType?."UPSTREAM") (ErrorCode?."UPSTREAM_AUTH") message (if is_num status 403 then 403 else 401)) details
  else if is_num status 429 || is_str upType "rate_limit_error" then
    answer (err (ErrorType?."RATE_LIMIT") (ErrorCode?."UPSTREAM_RATE_LIMIT") message 429)
      (with_field details "retry_after" (headers?."retry-after" ||| JNull))
  else if is_num status 529 || is_str upType "overloaded_error" then
    answer (err (ErrorType?."OVERLOADED") (ErrorCode?."UPSTREAM_OVERLOADED") message 529) details
  else if is_num status 400 || is_str upType "invalid_request_error" then
    answer (with_param (err (ErrorType?."INVALID_REQUEST") (ErrorCode?."UPSTREAM_INVALID") message 400)
              (body?."error"?."param" ||| JUndef)) details
  else if is_str inboundCode "incomplete_response" || is_str inboundCode "upstream_stream_incomplete" ||
          is_str inboundCode "stream_incomplete" || rx_test_i INCOMPLETE_MESSAGE (str_or_empty msg) then
    answer (err (ErrorType?."UPSTREAM")
              (if is_str inboundCode "incomplete_response" then ErrorCode?."INCOMPLETE_RESPONSE" else ErrorCode?."UPSTREAM_ERROR")
              message 502)
      (with_field details "stream" (JStr "incomplete"))
  else if is_num status 408 ||
          (rx_test_i (lit "timeout") (to_string msg) && negb (rx_test_i (lits ["aborted"; "econnreset"; "cancel"]) (to_string msg)))
  then answer (err (ErrorType?."TIMEOUT") (ErrorCode?."UPSTREAM_TIMEOUT") message 504) (JObj [("upstream_status", status)])
  else
    let n := to_number status in
    answer (with_status (err (ErrorType?."UPSTREAM") (ErrorCode?."UPSTREAM_ERROR") message 502)
              (if num_leb (num_of_Z 400) n && num_ltb n (num_of_Z 600) then status else jint 502)) details.

Definition mapUpstreamError (status body headers : jsval) : jsval :=
  let inboundCode := body?."error"?."code" ||| JNull in
  let msg := upstream_message body in
  if is_one_of (str_or_empty inboundCode) GATEWAY_OVERLOAD_CODES || isPoolCapacityError inboundCode msg then makeError pool_busy
  else if isClientCancelledCode inboundCode msg then
    makeError (with_details
      (err (ErrorType?."TIMEOUT") (JStr "client_cancelled") (JStr (to_string (msg ||| JStr "Client closed the connection"))) 499)
      (JObj [("upstream_status", status)]))
  else if is_str inboundCode "slot_busy" || rx_test_i (lit "rust kernel has no free slot") (str_or_empty msg) then
    makeError (err (ErrorType?."OVERLOADED") (JStr "slot_busy") (JStr (to_string (msg ||| JStr "rust kernel has no free slot"))) 503)
  else if is_str inboundCode "wrap_connection_error" || isWrapConnectionError msg then
    makeError (err (ErrorType?."API") (JStr "wrap_connection_error") (JStr (to_string (msg ||| JStr "wrap CLI connection error"))) 503)
  else map_by_status status body headers (enriched_message status (upstreamErrorType body) msg).

(** ** Request bodies *)

(** [{ ok: true, body }] or [{ ok: false, errorResult }] *)
Inductive validation := Valid (body : jsval) | Invalid (errorResult : jsval).

Definition invalid (code : jsval) (message : string) (param : jsval) : validation :=
  Invalid (makeError (with_param (err (ErrorType?."INVALID_REQUEST") code (JStr message) 400) param)).

(** [messages[i]] in an error text. *)
Definition at_index (i : nat) : string := ("messages[" ++ Z_to_string (Z.of_nat i) ++ "]")%string.

(** The body of the loop over the messages: the error of one message. *)
Definition check_message (i : nat) (m : jsval) : option validation :=
  let p := at_index i in
  if negb (is_object m) then Some (invalid (ErrorCode?."INVALID_MESSAGES") (p ++ " must be an object") (JStr p))
  else if negb (truthy (m?."role")) || negb (is_string (m?."role"))
       then Some (invalid (ErrorCode?."MISSING_FIELD") (p ++ ".role is required") (JStr (p ++ ".role")))
  else if is_nullish (m?."content") && negb (truthy (m?."tool_calls"))
       then Some (invalid (ErrorCode?."MISSING_FIELD") (p ++ ".content is required (unless tool_calls present)")
                    (JStr (p ++ ".content")))
  else None.

Fixpoint check_messages (i : nat) (l : list jsval) : option validation :=
  match l with
  | [] => None
  | m :: l => match check_message i m with Some e => Some e | None => check_messages (S i) l end
  end.

Definition check_chat (body : jsval) : option validation :=
  match body?."messages" with
  | JArr [] => Some (invalid (ErrorCode?."INVALID_MESSAGES") "messages must contain at least one item" (JStr "messages"))
  | JArr l => check_messages 0 l
  | _ => Some (invalid (ErrorCode?."INVALID_MESSAGES") "messages must be an array" (JStr "messages"))
  end.

Definition prompt_ok (prompt : jsval) : bool :=
  match prompt with
  | JStr s => negb (String.eqb s "")
  | JArr l => negb (length l =? 0)%nat
  | _ => false
  end.

Definition max_tokens_bad (v : jsval) : bool :=
  negb (is_nullish v) && match v with JNum n => num_ltb n (num_of_Z 1) | _ => true end.

(** The first error of a list of checks. *)
Fixpoint first_error (l : list (option validation)) : option validation :=
  match l with [] => None | Some e :: _ => Some e | None :: l => first_error l end.

Definition validateRequestBody (protocol : string) (body : jsval) : validation :=
  if negb (is_obj body) then invalid (ErrorCode?."EMPTY_BODY") "Request body must be a JSON object" JUndef
  else if negb (is_string (body?."model")) || String.eqb (trim (to_string (body?."model"))) ""
       then invalid (ErrorCode?."MODEL_REQUIRED") "model is required and must be a non-empty string" (JStr "model")
  else
    let checks :=
      [if is_one_of protocol ["openai.chat"; "anthropic.messages"] then check_chat body else None;
       if String.eqb protocol "openai.completions" && negb (prompt_ok (body?."prompt"))
       then Some (invalid (ErrorCode?."MISSING_FIELD") "prompt is required for Completions API" (JStr "prompt")) else None;
       if String.eqb protocol "openai.responses" && is_nullish (body?."input") && negb (is_array (body?."messages"))
       then Some (invalid (ErrorCode?."MISSING_FIELD") "input (or messages) is required for Responses API" (JStr "input"))
       else None;
       if String.eqb protocol "anthropic.messages" && max_tokens_bad (body?."max_tokens")
       then Some (invalid (ErrorCode?."INVALID_FIELD") "max_tokens must be a positive number" (JStr "max_tokens")) else None] in
    match first_error checks with Some e => e | None => Valid body end.

(** ** Diagnostics and the other mappings *)

Definition typeof (v : jsval) : string :=
  match v with
  | JUndef => "undefined" | JNull | JArr _ | JObj _ => "object" | JBool _ => "boolean" | JNum _ => "number" | JStr _ => "string"
  end.

(** [Object.keys(v).sort()] *)
Fixpoint insert_key (k : string) (l : list string) : list string :=
  match l with
  | [] => [k]
  | k' :: r => match str_compare k k' with Gt => k' :: insert_key k r | _ => k :: l end
  end.
Definition sorted_keys (v : jsval) : list string :=
  foldr insert_key [] (match v with
    | JObj f => List.map fst f
    | JArr l => imap (fun i _ => Z_to_string (Z.of_nat i)) l
    | _ => [] end).

Definition inspectRequestBody (body : jsval) : jsval :=
  if is_nullish body then JObj [("empty", JBool true)]
  else if negb (is_object body) then JObj [("type", JStr (typeof body))]
  else JObj
    [("keys", JArr (List.map JStr (sorted_keys body)));
     ("model", body?."model" ?? JNull); ("stream", JBool (truthy (body?."stream")));
     ("messages_count", match body?."messages" with JArr l => jint (Z.of_nat (length l)) | _ => JNull end);
     ("has_input", JBool (negb (is_nullish (body?."input"))));
     ("has_tools", JBool (match body?."tools" with JArr l => negb (length l =? 0)%nat | _ => false end));
     ("has_system", JBool (negb (is_nullish (body?."system")) ||
        existsb (fun m => is_str (m?."role") "system") (arr_of (body?."messages"))));
     ("max_tokens", body?."max_tokens" ?? body?."max_output_tokens" ?? JNull)].

Definition mapQuotaGateError (gate : jsval) : jsval :=
  let code := gate?."reason" ||| JStr "quota_error" in
  let type := if is_str code "concurrency_limit" then ErrorType?."RATE_LIMIT" else ErrorType?."QUOTA" in
  makeError (with_details
    (err type code (gate?."detail"?."message" ||| gate?."reason" ||| JStr "Quota exceeded") 429)
    (gate?."detail" ||| JUndef)).

Definition mapModelError (modelCheck : jsval) : jsval :=
  let e := modelCheck?."error" ||| JObj [] in
  makeError (with_param
    (err (e?."type" ||| ErrorType?."INVALID_REQUEST") (e?."code" ||| ErrorCode?."MODEL_NOT_SUPPORTED")
         (e?."message" ||| JStr "Model not supported") 400)
    (e?."param" ||| JStr "model")).

(** ** Facts about [makeError] *)

(** The status, type, code and message a client reads from an error answer. *)
Definition answer_of (r : jsval) : jsval * jsval * jsval * jsval :=
  (r?."status", r?."body"?."error"?."type", r?."body"?."error"?."code", r?."body"?."error"?."message").

Lemma get_optional_field (c : bool) e k x k' : k' <> k -> (if c then with_field e k x else e)?.k' = e?.k'.
Proof. intros H. destruct c; [by apply get_with_field_ne|done]. Qed.

Lemma makeError_answer a :
  answer_of (makeError a) =
  (default_to (e_status a) (jint 500), default_to (e_type a) (ErrorType?."API"),
   default_to (e_code a) (JStr "unknown_error"),
   e_message a ||| default_to (e_code a) (JStr "unknown_error")).
Proof.
  unfold answer_of, makeError. cbv zeta.
  assert (forall s e k, JObj [("status", s); ("body", JObj [("error", e)])]?."body"?."error"?.k = e?.k) as H by done.
  rewrite !H. by rewrite !get_optional_field by discriminate.
Qed.

(** An error answer: a status of 4xx or 5xx, one of the mapped codes, a message that is not empty. *)
Definition MAPPED_CODES : list string :=
  ["server_overloaded"; "client_cancelled"; "slot_busy"; "wrap_connection_error"; "upstream_auth_error";
   "upstream_rate_limit"; "upstream_overloaded"; "upstream_invalid_request"; "incomplete_response"; "upstream_error";
   "upstream_timeout"].
Definition error_status (v : jsval) : bool :=
  match v with JNum n => num_leb (num_of_Z 400) n && num_ltb n (num_of_Z 600) | _ => false end.

Definition mapped_error (r : jsval) : Prop :=
  exists st ty code msg, answer_of r = (st, ty, JStr code, JStr msg) /\
    error_status st = true /\ is_one_of code MAPPED_CODES = true /\ msg <> "".

Lemma mapped_error_intro a ty code msg :
  e_type a = JStr ty -> e_code a = JStr code -> e_message a = JStr msg ->
  error_status (default_to (e_status a) (jint 500)) = true -> is_one_of code MAPPED_CODES = true -> mapped_error (makeError a).
Proof.
  intros Ht Hc Hm Hs Hin. assert (Hc0 : code <> "") by by intros ->.
  unfold mapped_error. rewrite makeError_answer, Ht, Hc, Hm. simpl.
  unfold or_else. simpl. destruct (String.eqb_spec msg "") as [->|Hne]; simpl; do 4 eexists; eauto.
Qed.

Ltac mapped := eapply mapped_error_intro; try reflexivity.

Lemma map_by_status_mapped n body headers msg : mapped_error (map_by_status (JNum n) body headers msg).
Proof.
  unfold map_by_status. cbv zeta.
  repeat (match goal with |- mapped_error (if ?c then _ else _) => destruct c end); try (by mapped).
  - mapped. by destruct (is_num (JNum n) 403).
  - destruct (is_str _ "incomplete_response"); by mapped.
  - mapped. change (error_status (default_to
      (if num_leb (num_of_Z 400) n && num_ltb n (num_of_Z 600) then JNum n else jint 502) (jint 500)) = true).
    by destruct (num_leb (num_of_Z 400) n && num_ltb n (num_of_Z 600)) eqn:E.
Qed.

(** C11: Whatever the upstream answered, the client gets an error: a status between 400
    and 599 (never a success, even for an upstream 200), one of the gateway's codes
    and a message; and a capacity failure of the pool shows nothing of its cause: it
    is always the same answer. *)
Theorem mapUpstreamError_contract n body headers :
  mapped_error (mapUpstreamError (JNum n) body headers) /\
  (isPoolCapacityError (body?."error"?."code" ||| JNull) (upstream_message body) = true ->
   mapUpstreamError (JNum n) body headers = makeError pool_busy).
Proof.
  unfold mapUpstreamError. cbv zeta. split.
  - repeat (match goal with |- mapped_error (if ?c then _ else _) => destruct c end); try (by mapped).
    apply map_by_status_mapped.
  - intros ->. by rewrite orb_true_r.
Qed.

(** ** Complete messages *)

Lemma body_of_with_field r k v : k <> "body" -> body_of (with_field r k v) =
  if is_object (r?."body") then r?."body" else with_field r k v.
Proof. intros H. unfold body_of. by rewrite get_with_field_ne. Qed.

(** The fields by which a body is judged. *)
Lemma assistant_body_ext b b' :
  is_obj b = is_obj b' -> (forall k, In k ["error"; "type"; "role"; "content"] -> b?.k = b'?.k) ->
  isAssistantMessageBody b = isAssistantMessageBody b'.
Proof.
  intros Ho H. unfold isAssistantMessageBody. rewrite Ho, !H by (simpl; tauto). done.
Qed.

Lemma visible_ext b b' :
  (forall k, In k ["content"; "message"] -> b?.k = b'?.k) -> assistantVisibleOutput b = assistantVisibleOutput b'.
Proof. intros H. unfold assistantVisibleOutput. by rewrite !H by (simpl; tauto). Qed.

(** Setting one of the hop's own flags changes no judgment of its message. *)
Lemma complete_with_flag r k v :
  is_obj r = true -> In k ["ok"; "committed"; "terminalState"] ->
  isCompleteAssistantMessage (with_field r k v) = isCompleteAssistantMessage r.
Proof.
  intros Ho Hk. assert (Hne : forall f, In f ["error"; "type"; "role"; "content"; "message"; "body"; "stop_reason"; "stopReason"] ->
      with_field r k v?.f = r?.f).
  { intros f Hf. apply get_with_field_ne. intros ->. simpl in Hk, Hf. intuition (subst; discriminate). }
  assert (Hb : k <> "body") by (intros ->; simpl in Hk; intuition discriminate).
  unfold isCompleteAssistantMessage. cbv zeta. rewrite body_of_with_field by done. unfold body_of.
  unfold assistantStopReason. rewrite (Hne "stopReason") by (simpl; tauto).
  destruct (is_object (r?."body")); [done|].
  rewrite (assistant_body_ext (with_field r k v) r), (visible_ext (with_field r k v) r).
  - simpl. assert (assoc "stop_reason" (set_field k v (fields_of r)) = r?."stop_reason") as -> by (apply Hne; simpl; tauto).
    done.
  - intros f Hf. apply Hne. simpl in *. tauto.
  - by destruct r.
  - intros f Hf. apply Hne. simpl in *. tauto.
Qed.

Lemma complete_is_obj r : isCompleteAssistantMessage r = true -> is_obj r = true.
Proof.
  unfold isCompleteAssistantMessage, body_of. intros H. apply andb_true_iff in H as [[H _]%andb_true_iff _].
  by destruct r.
Qed.

(** A hop is reported as ok exactly when it carries a complete assistant message
    (the right envelope, a stop reason and visible output), whatever flag it came
    with; otherwise an ok or an assistant body is turned into an uncommitted,
    incomplete hop; doing it twice changes nothing. *)
Theorem hop_ok_iff_complete r :
  truthy (finalizeAssembledAssistantHop r?."ok") = isCompleteAssistantMessage r /\
  (isIncompleteAssistantMessage r = true -> isCompleteAssistantMessage r = false ->
     finalizeAssembledAssistantHop r?."committed" = JBool false /\
     finalizeAssembledAssistantHop r?."terminalState" = JStr "incomplete") /\
  (isCompleteAssistantMessage r = true ->
     finalizeAssembledAssistantHop (finalizeAssembledAssistantHop r) = finalizeAssembledAssistantHop r).
Proof.
  unfold finalizeAssembledAssistantHop at 1 2 3. destruct (isCompleteAssistantMessage r) eqn:Hc.
  - pose proof (complete_is_obj r Hc) as Ho. split; [|split; [done|intros _]].
    + destruct (truthy (r?."ok")) eqn:Hk; [done|]. by rewrite get_with_field_eq.
    + unfold finalizeAssembledAssistantHop at 2 3. rewrite Hc. destruct (truthy (r?."ok")) eqn:Hk.
      * unfold finalizeAssembledAssistantHop. by rewrite Hc, Hk.
      * unfold finalizeAssembledAssistantHop. rewrite complete_with_flag by (done || (simpl; tauto)).
        by rewrite Hc, get_with_field_eq.
  - destruct (isIncompleteAssistantMessage r || truthy (r?."ok")) eqn:Hi.
    + split; [by rewrite !(get_with_field_ne _ "ok"), get_with_field_eq by done|]. split; [|done]. intros _ _.
      by rewrite (get_with_field_ne _ "committed"), !get_with_field_eq by done.
    + apply orb_false_iff in Hi as [Hi Hk]. split; [done|]. split; [|done]. intros; congruence.
Qed.

(** ** Validation *)

Definition nonblank (v : jsval) : bool := match v with JStr s => negb (String.eqb (trim s) "") | _ => false end.
Definition nonempty_string (v : jsval) : bool := match v with JStr s => negb (String.eqb s "") | _ => false end.

Definition message_ok (m : jsval) : bool :=
  is_object m && nonempty_string (m?."role") && (negb (is_nullish (m?."content")) || truthy (m?."tool_calls")).

(** What each protocol requires of a body. *)
Definition acceptable (protocol : string) (body : jsval) : bool :=
  is_obj body && nonblank (body?."model") &&
  (if is_one_of protocol ["openai.chat"; "anthropic.messages"]
   then match body?."messages" with JArr (m :: l) => forallb message_ok (m :: l) | _ => false end else true) &&
  (if String.eqb protocol "openai.completions" then prompt_ok (body?."prompt") else true) &&
  (if String.eqb protocol "openai.responses" then negb (is_nullish (body?."input")) || is_array (body?."messages") else true) &&
  (if String.eqb protocol "anthropic.messages"
   then match body?."max_tokens" with JUndef | JNull => true | JNum n => negb (num_ltb n (num_of_Z 1)) | _ => false end else true).

(** A refusal: 400 with the request's error type. *)
Definition refusal (v : validation) : Prop :=
  exists r, v = Invalid r /\ r?."status" = jint 400 /\ r?."body"?."error"?."type" = JStr "invalid_request_error".

Lemma invalid_refusal code message param : refusal (invalid code message param).
Proof.
  assert (H : forall r s t c m, answer_of r = (s, t, c, m) -> r?."status" = s /\ r?."body"?."error"?."type" = t).
  { intros r s t c m. unfold answer_of. intros [= H1 H2 _ _]. auto. }
  eexists. split; [reflexivity|]. exact (H _ _ _ _ _ (makeError_answer _)).
Qed.
#[local] Hint Resolve invalid_refusal : core.

Lemma check_message_spec i m :
  if message_ok m then check_message i m = None else exists v, check_message i m = Some v /\ refusal v.
Proof.
  unfold message_ok, check_message. destruct (is_object m); simpl; [|eauto].
  destruct (m?."role") as [| |b|n|s|l|f]; try (simpl; rewrite ?orb_true_r; eauto; fail).
  simpl. destruct (String.eqb_spec s ""); simpl; [eauto|].
  destruct (is_nullish (m?."content")), (truthy (m?."tool_calls")); simpl; eauto.
Qed.

Lemma check_messages_spec i l :
  if forallb message_ok l then check_messages i l = None else exists v, check_messages i l = Some v /\ refusal v.
Proof.
  revert i. induction l as [|m l IH]; intros i; simpl; [done|]. pose proof (check_message_spec i m) as Hm.
  destruct (message_ok m); simpl.
  - rewrite Hm. apply IH.
  - destruct Hm as (v & -> & Hv). eauto.
Qed.

Lemma check_chat_spec body :
  if match body?."messages" with JArr (m :: l) => forallb message_ok (m :: l) | _ => false end
  then check_chat body = None else exists v, check_chat body = Some v /\ refusal v.
Proof.
  unfold check_chat. destruct (body?."messages") as [| | | | |l|]; eauto. destruct l as [|m l]; [eauto|].
  apply (check_messages_spec 0 (m :: l)).
Qed.

(** [check b o]: a check that passes exactly when [b] holds and otherwise refuses. *)
Definition check (b : bool) (o : option validation) : Prop :=
  if b then o = None else exists v, o = Some v /\ refusal v.

Lemma first_error_nil : check true (first_error []).
Proof. done. Qed.

Lemma first_error_cons b o bs l : check b o -> check bs (first_error l) -> check (b && bs) (first_error (o :: l)).
Proof. destruct b; simpl; [by intros ->|]. intros (v & -> & Hv) _. eexists; eauto. Qed.

Lemma prompt_check body (applies : bool) v : refusal v ->
  check (if applies then prompt_ok (body?."prompt") else true)
    (if applies && negb (prompt_ok (body?."prompt")) then Some v else None).
Proof. intros H. destruct applies, (prompt_ok _); simpl; eauto. Qed.

Lemma input_check body (applies : bool) v : refusal v ->
  check (if applies then negb (is_nullish (body?."input")) || is_array (body?."messages") else true)
    (if applies && is_nullish (body?."input") && negb (is_array (body?."messages")) then Some v else None).
Proof. intros H. destruct applies, (is_nullish _), (is_array _); simpl; eauto. Qed.

Lemma max_tokens_check v (applies : bool) e : refusal e ->
  check (if applies
         then match v with JUndef | JNull => true | JNum n => negb (num_ltb n (num_of_Z 1)) | _ => false end else true)
    (if applies && max_tokens_bad v then Some e else None).
Proof.
  intros H. unfold max_tokens_bad. destruct applies; [|done]. destruct v; simpl; eauto.
  destruct (num_ltb n (num_of_Z 1)); simpl; eauto.
Qed.

(** A request body is let through, unchanged, exactly when it meets its protocol's
    requirements; every other body is refused with a 400 of type
    invalid_request_error. *)
Theorem validate_exactly protocol body :
  (validateRequestBody protocol body = Valid body <-> acceptable protocol body = true) /\
  (acceptable protocol body = false -> refusal (validateRequestBody protocol body)).
Proof.
  assert (H : if acceptable protocol body then validateRequestBody protocol body = Valid body
              else refusal (validateRequestBody protocol body)).
  { unfold acceptable, validateRequestBody. destruct (is_obj body); [|simpl; auto].
    destruct (body?."model") as [| |b|n|s|l|f]; try (simpl; auto; fail). cbn [nonblank is_string to_string negb orb].
    destruct (String.eqb (trim s) ""); [simpl; auto|]. cbn [negb andb]. cbv zeta.
    match goal with |- context [first_error ?l] =>
      match goal with |- if (?b1 && ?b2 && ?b3 && ?b4) then _ else _ =>
        assert (Hc : check (b1 && (b2 && (b3 && (b4 && true)))) (first_error l)) end end.
    { apply first_error_cons; [destruct (is_one_of _ _); [apply check_chat_spec|done]|].
      apply first_error_cons; [apply prompt_check, invalid_refusal|].
      apply first_error_cons; [apply input_check, invalid_refusal|].
      apply first_error_cons; [apply max_tokens_check, invalid_refusal | apply first_error_nil]. }
    rewrite andb_true_r, !andb_assoc in Hc. revert Hc. unfold check.
    destruct (_ && _); [by intros ->|]. by intros (v & -> & Hv). }
  destruct (acceptable protocol body).
  - by rewrite H.
  - split; [|auto]. split; [|done]. intros E. destruct H as (r & Hr & _). congruence.
Qed.

(** ** Concrete runs *)

Definition sample_hop : jsval :=
  JObj [("ok", JBool false); ("body", JObj [("type", JStr "message"); ("stop_reason", JStr "end_turn");
    ("content", JArr [JObj [("type", JStr "text"); ("text", JStr "hi")]])])].
Definition exhausted_body : jsval := JObj [("error", JObj [("code", JStr "account_pool_exhausted"); ("message", JStr "vm3 dead")])].

Lemma mapUpstreamError_contract_witness :
  isPoolCapacityError (exhausted_body?."error"?."code" ||| JNull) (upstream_message exhausted_body) = true /\
  mapUpstreamError (jint 200) exhausted_body JUndef = makeError pool_busy.
Proof.
  split; [vm_compute; reflexivity|].
  apply (mapUpstreamError_contract (num_of_Z 200) exhausted_body JUndef). vm_compute. reflexivity.
Defined.

Lemma hop_ok_iff_complete_witness :
  isCompleteAssistantMessage sample_hop = true /\
  finalizeAssembledAssistantHop (finalizeAssembledAssistantHop sample_hop) = finalizeAssembledAssistantHop sample_hop.
Proof. split; [vm_compute; reflexivity|]. apply (hop_ok_iff_complete sample_hop). vm_compute. reflexivity. Defined.

Lemma validate_exactly_witness :
  acceptable "openai.chat" (JObj [("model", JStr "m"); ("messages", JArr [])]) = false /\
  refusal (validateRequestBody "openai.chat" (JObj [("model", JStr "m"); ("messages", JArr [])])).
Proof.
  split; [reflexivity|].
  apply (validate_exactly "openai.chat" (JObj [("model", JStr "m"); ("messages", JArr [])])). reflexivity.
Defined.
