(* ===== verification/ErrorPolicy.v ===== *)
(** * What to do with an upstream answer (src/src/lib/pool/upstream-error-policy.mjs)

    [classifyUpstreamResult] turns the result of one hop into a policy: whose fault it
    is ([scope]), what the failover loop does next ([action]) and how long the guilty
    party rests ([cooldownUntil]). *)

From S2P Require Import Prelude.
From S2P Require Import JsValue.
From S2P Require Import JsRegex.
From S2P Require Import JsDate.
From S2P Require Import QuotaWindow.
From S2P Require Import Eligibility.
From S2P Require Import Errors.
#[local] Open Scope string_scope.
#[local] Open Scope list_scope.
#[local] Open Scope js_scope.

(** ** Patterns *)

Definition white : rx := RChr is_space.
(** [.*] *)
Definition dots : rx := RStar dot.
Definition any_of (patterns : list rx) (s : string) : bool := existsb (fun p => rx_test_i p s) patterns.

Definition ENTITLEMENT_PATTERNS : list rx :=
  [lit "extra usage required";
   rseqs [lit "usage credit"; ropt (lit "s"); lit " "; ropt (lit "are "); lit "required"];
   rseqs [lit "fast "; lits ["mode"; "request"]; dots; lits ["credit"; "entitlement"]]].
Definition SIGNATURE_PATTERNS : list rx :=
  [lit "signature"; rseqs [lit "expected"; RAlt (lit "`") white; dots; lit "thinking"];
   lit "cannot be modified"; lit "must contain thinking"; lit "each thinking block"].
Definition PREFILL_PATTERNS : list rx :=
  [rseqs [lit "conversation must "; lits ["end"; "start"]];
   rseqs [lit "final "; ropt (lit "assistant "); lit "message"];
   rseqs [lit "message"; ropt (lit "s"); lit ":"; dots; lits ["end"; "start"]; dots; lits ["user"; "assistant"]];
   rseqs [lit "must "; lits ["end"; "start"]; lit " with a user"]].
Definition TOOL_PAIR_PATTERNS : list rx :=
  [rseqs [lit "tool_use"; dots; lit "tool_result"];
   rseqs [lit "tool_result"; dots; lits ["required"; "missing"; "expected"]]; lit "tool_use_id"].
(** Matched on lower-cased text. *)
Definition SCHEMA_PATTERNS : list rx := [lit "additionalproperties"; lit "output_config"].
Definition SEARCH_HISTORY_PATTERNS : list rx :=
  [lit "encrypted_content"; rseqs [ropt (lit "`"); lit "search_result"; ropt (lit "`"); rplus white; lit "block"];
   lit "web_search_result"].
Definition ADAPTIVE_PATTERNS : list rx :=
  [lit "adaptive thinking"; rseqs [lit "thinking.type"; dots; lit "adaptive"]; lit "does not support adaptive"].
Definition ORGANIZATION_DISABLED_PATTERNS : list rx :=
  [lit "organization has been disabled"; lit "oauth authentication is currently not allowed";
   rseqs [lit "organization"; dots; lits ["blocked"; "banned"; "disabled"]]].
Definition TIMEOUT_PATTERNS : rx := lits ["timeout"; "deadline"; "response header"; "timed out"].

(** ** Reading the answer *)

Definition bodyMessage (body : jsval) : string :=
  match body with
  | JStr s => s
  | _ => to_string (body?."error"?."message" ||| body?."error"?."error" ||| body?."message" ||| body?."error" ||| JStr "")
  end.

Definition bodyCode (body : jsval) : string :=
  to_string (body?."error"?."code" ||| body?."error"?."type" ||| body?."type" ||| JStr "").

(** The first header of that name, in any case. *)
Fixpoint header_field (f : fields) (name : string) : jsval :=
  match f with
  | [] => JNull
  | (k, v) :: f => if String.eqb (to_lower k) (to_lower name)
                   then match v with JArr _ => get_at v 0 | _ => v end else header_field f name
  end.
Definition header (headers : jsval) (name : string) : jsval := header_field (fields_of headers) name.

(** [n < 1e12 ? n * 1000 : n] *)
Definition epoch_ms (n : num) : num := if num_ltb n (num_of_Z 1000000000000) then num_mul n (num_of_Z 1000) else n.

(** A reset header: a number of seconds or milliseconds, or a date. *)
Definition header_time (value : jsval) : option num :=
  if is_nullish value then None
  else let n := to_number value in
       if is_finite n then Some (epoch_ms n)
       else let parsed := date_parse (to_string value) in if is_finite parsed then Some parsed else None.

(** [a || b] on times that may be missing. *)
Definition or_time (a : option num) (b : option num) : option num :=
  match a with Some n => if truthy (JNum n) then a else b | None => b end.

(** [l.length ? Math.min(...l) : null] *)
Definition min_or_null (l : list num) : option num := match l with [] => None | _ => Some (num_min_list l) end.

(** [.filter((value) => value && value > now)], then the earliest. *)
Definition soonest (l : list num) (now : num) : option num :=
  min_or_null (List.filter (fun v => truthy (JNum v) && num_ltb now v) l).

Definition retry_after (headers : jsval) (now : num) : option num :=
  let v := header headers "retry-after" in
  if is_nullish v then None
  else let seconds := to_number v in
       if is_finite seconds && num_leb (Fin 0) seconds then Some (num_add now (num_mul seconds (num_of_Z 1000)))
       else let parsed := date_parse (to_string v) in if is_finite parsed then Some parsed else None.

Definition resetFromHeaders (headers : jsval) (now : num) : option num :=
  match retry_after headers now with
  | Some t => Some t
  | None =>
    soonest (omap (fun name => header_time (header headers name))
      ["anthropic-ratelimit-unified-5h-reset"; "anthropic-ratelimit-unified-7d-reset"; "anthropic-ratelimit-requests-reset"]) now
  end.

Definition usageWindowReset (usage : jsval) (now : num) : option num :=
  if negb (is_object usage) then None
  else
    min_or_null (List.filter (fun v => is_finite v && num_ltb now v)
      (List.map parseResetMs [usage?."reset_5h"; usage?."reset_7d"; usage?."5h"?."reset"; usage?."7d"?."reset"])).

Definition accountLimitUntil (reset : option num) (usage : jsval) (now : num) : num :=
  default (num_add now (num_of_Z 300000)) (or_time reset (or_time (usageWindowReset usage now) None)).

Definition FABLE_FAMILY_KEY : string := "fable".

Definition modelFamily (model : jsval) : option string :=
  let value := to_lower (str_or_empty model) in
  List.find (fun family => includes value family) ["opus"; "sonnet"; "haiku"; "fable"].

Definition isFableModel (model : jsval) : bool := includes (to_lower (str_or_empty model)) "fable".

Definition normalizeModelKey (model : jsval) : string := to_lower (trim (str_or_empty model)).

Definition modelCooldownKeys (model : jsval) : list string :=
  let key := normalizeModelKey model in
  if String.eqb key "" then []
  else key :: (if isFableModel (JStr key) && negb (String.eqb key FABLE_FAMILY_KEY) then [FABLE_FAMILY_KEY] else []).

Definition limited_status (v : jsval) : bool := is_one_of (to_lower (str_or_empty v)) ["rejected"; "rate_limited"].

Definition isFableWindowLimit (headers : jsval) : bool :=
  rx_test_i (lits ["seven_day_overage_included"; "7d_oi"])
    (str_or_empty (header headers "anthropic-ratelimit-unified-representative-claim")) ||
  limited_status (header headers "anthropic-ratelimit-unified-7d_oi-status").

Definition fableResetFromHeaders (headers : jsval) (now : num) : option num :=
  match header_time (header headers "anthropic-ratelimit-unified-7d_oi-reset") with
  | Some ms => if num_ltb now ms then Some ms else None
  | None => None
  end.

Definition isUnifiedAccountLimit (headers : jsval) : bool :=
  existsb (fun name => limited_status (header headers name))
    ["anthropic-ratelimit-unified-5h-status"; "anthropic-ratelimit-unified-7d-status"].

Definition resultErrorCode (result : jsval) : string :=
  to_string (result?."body"?."error"?."code" ||| result?."body"?."error"?."type" ||| JStr "").

(** [`${code} ${message} ${workerCode}`] *)
Definition hay_of (result : jsval) : string :=
  (bodyCode (result?."body") ++ " " ++ bodyMessage (result?."body") ++ " " ++ resultErrorCode result)%string.

Definition UNCONFIRMED_AUTH : rx :=
  lits ["token has been revoked"; "oauth_revoked"; "invalid_grant"; "authentication_error"; "needs_refresh";
        "credential needs refresh"; "no credential"; "credential_required"].
(** The character of code 34. *)
Definition dquote : string := String (ascii_of_nat 34) EmptyString.
Definition NULL_REQUEST_ID : rx :=
  rseqs [lit (dquote ++ "request_id" ++ dquote)%string; RStar white; lit ":"; RStar white; lit "null"].

Definition isUnconfirmedAuthFailure (result : jsval) : bool :=
  let hay := hay_of result in
  let authish := num_eqb (to_number (result?."status")) (num_of_Z 401) || rx_test_i UNCONFIRMED_AUTH hay in
  authish &&
  (is_str (result?."terminalState") "incomplete" || rx_test_i (lit "upstream_stream_incomplete") hay ||
   rx_test NULL_REQUEST_ID (bodyMessage (result?."body")) ||
   rx_test_i (lits ["needs_refresh"; "credential needs refresh"; "slot has no credential"; "credential_required"]) hay).

Definition isTimeoutFailure (workerCode message : string) : bool :=
  rx_test_i TIMEOUT_PATTERNS (workerCode ++ " " ++ message)%string.

Definition isProxyFailure (workerCode message : string) : bool :=
  negb (isTimeoutFailure workerCode message) &&
  rx_test_i (lits ["proxy"; "socks"; "dial"; "dns"; "tls"; "connect"]) (workerCode ++ " " ++ message)%string.

Definition isSilentClaudeRefusal (result : jsval) : bool :=
  String.eqb (assistantStopReason result) "refusal" && negb (assistantVisibleOutput (result?."body")).

Definition DEFAULT_OAUTH_401_COOLDOWN_MS : num := num_of_Z 120000.
Definition MAX_OAUTH_401_COOLDOWN_MS : num := num_of_Z 600000.

Definition clampOauth401CooldownMs (ms : jsval) : num :=
  let n := to_number ms in
  if negb (is_finite n) then DEFAULT_OAUTH_401_COOLDOWN_MS
  else num_min MAX_OAUTH_401_COOLDOWN_MS (num_max (num_of_Z 5000) n).

(** ** The policy *)

Inductive scope := ScRequest | ScStream | ScSuccess | ScClient | ScAccount | ScWorker | ScProxy | ScCredential | ScModel | ScProvider.
Inductive action := Stop | Complete | Continue | ContinueAndCooldown | Disable | RepairAndRetry.
#[export] Instance action_eq_dec : EqDecision action.
Proof. solve_decision. Defined.
#[export] Instance scope_eq_dec : EqDecision scope.
Proof. solve_decision. Defined.

Record outcome := {
  o_scope : scope; o_action : action; o_reason : string; cooldownUntil : option num;
  retrySameAccount : option bool; o_model : option string; mark_tier : option string }.

Definition policy_of (sc : scope) (a : action) (r : string) (until : option num) : outcome :=
  {| o_scope := sc; o_action := a; o_reason := r; cooldownUntil := until; retrySameAccount := None; o_model := None; mark_tier := None |}.
Definition on_model (p : outcome) (m : string) : outcome :=
  {| o_scope := o_scope p; o_action := o_action p; o_reason := o_reason p; cooldownUntil := cooldownUntil p;
     retrySameAccount := retrySameAccount p; o_model := Some m; mark_tier := mark_tier p |}.

Definition continueWithoutCooldown (sc : scope) (reason : string) (retry : bool) : outcome :=
  {| o_scope := sc; o_action := Continue; o_reason := reason; cooldownUntil := None; retrySameAccount := Some retry;
     o_model := None; mark_tier := None |}.

(** The options of [classifyUpstreamResult]; those it does not read are left out. *)
Record options := {
  opt_model : jsval; opt_now : num; opt_repaired : bool; opt_hasRefresh : jsval; opt_oauth401CooldownMs : jsval;
  opt_signatureRepair : bool; opt_usage : jsval }.

Definition MAX_SAFE_INTEGER : num := num_of_Z 9007199254740991.

Section Classify.
Context (result : jsval) (o : options).

Definition status : num := num_or_zero (result?."status").
Definition message : string := bodyMessage (result?."body").
Definition code : string := bodyCode (result?."body").
Definition workerCode : string := resultErrorCode result.
Definition hay : string := hay_of result.
Definition committed : bool := truthy (result?."committed").
Definition reset : option num := resetFromHeaders (result?."headers") (opt_now o).
Definition status_is (z : Z) : bool := num_eqb status (num_of_Z z).
(** [now + ms] *)
Definition after (ms : Z) : num := num_add (opt_now o) (num_of_Z ms).

Definition malformedSuccess : bool :=
  negb (isCompleteAssistantMessage result) &&
  (is_true (result?."ok") || is_str (result?."terminalState") "verified") &&
  (let s := to_number (result?."status" ||| jint 200) in num_leb (num_of_Z 200) s && num_ltb s (num_of_Z 300)).

(** The head of the function: what the answer says as an assistant message. *)
Definition classify_message : option outcome :=
  if isSilentClaudeRefusal result && negb committed then Some (policy_of ScRequest Stop "content_filter_refusal" None)
  else if (isIncompleteAssistantMessage result || malformedSuccess) && negb committed
       then Some (continueWithoutCooldown ScStream "incomplete_assistant" true)
  else if isCompleteAssistantMessage result then Some (policy_of ScSuccess Complete "" None)
  else None.

Definition refuse_grant : outcome :=
  policy_of ScAccount ContinueAndCooldown
    (if is_false (opt_hasRefresh o) then "oauth_no_refresh" else "oauth_revoked") (Some MAX_SAFE_INTEGER).

Definition classify_auth : outcome :=
  if isUnconfirmedAuthFailure result
  then policy_of ScAccount (if committed then Stop else Continue) "oauth_unconfirmed" None
  else refuse_grant.

Definition classify_transport : outcome :=
  if isProxyFailure workerCode message
  then policy_of ScProxy ContinueAndCooldown "proxy_transport_failure" (Some (after 60000))
  else continueWithoutCooldown ScWorker
         (if isTimeoutFailure workerCode message then "worker_timeout" else "worker_transport_failure") true.

Definition classify_400 : outcome :=
  let hay := (code ++ " " ++ message)%string in
  let repair reason := policy_of ScRequest RepairAndRetry reason None in
  if negb (opt_repaired o) && opt_signatureRepair o && any_of SIGNATURE_PATTERNS hay then repair "signature_repairable"
  else if negb (opt_repaired o) && any_of SEARCH_HISTORY_PATTERNS hay then repair "search_repairable"
  else if negb (opt_repaired o) && any_of PREFILL_PATTERNS hay then repair "prefill_repairable"
  else if negb (opt_repaired o) && any_of TOOL_PAIR_PATTERNS hay then repair "tool_pair_repairable"
  else if negb (opt_repaired o) && any_of SCHEMA_PATTERNS hay then repair "schema_repairable"
  else if negb (opt_repaired o) && any_of ADAPTIVE_PATTERNS hay then repair "thinking_repairable"
  else policy_of ScRequest Stop "invalid_request" None.

Definition classify_403 : outcome :=
  if any_of ORGANIZATION_DISABLED_PATTERNS message then policy_of ScAccount Disable "organization_disabled" None
  else if rx_test_i (lits ["<html"; "cloudflare"; "proxy"]) message
       then policy_of ScProxy ContinueAndCooldown "proxy_or_edge_forbidden" (Some (after 60000))
  else if isFableModel (opt_model o)
       then {| o_scope := ScAccount; o_action := Continue; o_reason := "fable_plan_denied"; cooldownUntil := None;
               retrySameAccount := Some false; o_model := None; mark_tier := Some "pro" |}
  else policy_of ScCredential ContinueAndCooldown "permission_denied"
         (Some (num_add (opt_now o) (clampOauth401CooldownMs (opt_oauth401CooldownMs o)))).

Definition classify_429 : outcome :=
  let account reason :=
    policy_of ScAccount ContinueAndCooldown reason (Some (accountLimitUntil reset (opt_usage o) (opt_now o))) in
  if any_of ENTITLEMENT_PATTERNS message then policy_of ScRequest Stop "entitlement_required" None
  else if isUnifiedAccountLimit (result?."headers") then account "account_quota_exhausted"
  else if isFableWindowLimit (result?."headers") || isFableModel (opt_model o) then
    let fableReset := or_time (fableResetFromHeaders (result?."headers") (opt_now o)) reset in
    on_model (policy_of ScModel ContinueAndCooldown "fable_rate_limited" (or_time fableReset (Some (after 60000)))) FABLE_FAMILY_KEY
  else match modelFamily (opt_model o) with
       | Some family =>
         on_model (policy_of ScModel ContinueAndCooldown (family ++ "_rate_limited") (or_time reset (Some (after 60000))))
           (if String.eqb family "fable" then FABLE_FAMILY_KEY else normalizeModelKey (opt_model o))
       | None => account "rate_limited"
       end.

Definition classify_5xx : outcome :=
  if isFableModel (opt_model o) && (status_is 408 || status_is 504 || rx_test_i (lit "timeout") message)
  then on_model (policy_of ScModel ContinueAndCooldown "fable_timeout" (Some (after 30000))) FABLE_FAMILY_KEY
  else continueWithoutCooldown ScProvider
         (if isTimeoutFailure workerCode message then "provider_timeout" else "provider_transient_error") true.

(** The tail: by status, for an answer that was not yet sent to the client. *)
Definition classify_status : outcome :=
  if isWrapConnectionError (JStr message) || isWrapConnectionError (JStr hay)
  then continueWithoutCooldown ScWorker "wrap_connection_error" true
  else if truthy (result?."transportError") || status_is 0 then classify_transport
  else if status_is 400 then classify_400
  else if status_is 401 then refuse_grant
  else if status_is 403 then classify_403
  else if status_is 429 then classify_429
  else if status_is 529 then policy_of ScProvider ContinueAndCooldown "provider_overloaded" (Some (after 15000))
  else if status_is 408 || status_is 502 || status_is 503 || status_is 504 || num_leb (num_of_Z 500) status then classify_5xx
  else policy_of ScRequest Stop ("http_" ++ num_to_string status) None.

Definition AUTH_FAILURE : rx := lits ["token has been revoked"; "oauth_revoked"; "invalid_grant"; "authentication_error"].

Definition classifyUpstreamResult : outcome :=
  match classify_message with
  | Some p => p
  | None =>
    if String.eqb workerCode "selection_cancelled" || rx_test_i (lits ["aborted"; "cancelled"; "canceled"]) workerCode
    then policy_of ScClient Stop "client_cancelled" None
    else if rx_test_i AUTH_FAILURE hay || status_is 401 then classify_auth
    else if committed then policy_of ScStream Stop "downstream_committed_or_incomplete" None
    else classify_status
  end.

End Classify.

Definition shouldContinue (p : outcome) : bool :=
  match o_action p with Continue | ContinueAndCooldown => true | _ => false end.

(** ** Facts *)

(** Case analysis on the conditions of a policy, never looking inside them. *)
Ltac policy_cases :=
  repeat match goal with
  | |- context [if ?c then _ else _] => destruct c eqn:?
  | |- context [match modelFamily ?m with _ => _ end] => destruct (modelFamily m) eqn:?
  end.

Lemma status_is_exclusive result a b : a <> b -> status_is result a = true -> status_is result b = false.
Proof.
  unfold status_is. destruct (status result) as [q| | |]; try done. simpl. intros Hab Ha.
  destruct (Qeq_bool q (inject_Z b)) eqn:Hb; [|done]. q_props. rewrite Ha in Hb. destruct Hab. by apply inject_Z_injective.
Qed.

(** The policies below the head repair only a first 400. *)
Lemma classify_status_repair result o :
  o_action (classify_status result o) = RepairAndRetry -> opt_repaired o = false /\ status_is result 400 = true.
Proof.
  unfold classify_status. destruct (_ || _); [done|]. destruct (_ || status_is result 0).
  { unfold classify_transport. policy_cases; done. }
  destruct (status_is result 400).
  - unfold classify_400. cbv zeta. destruct (opt_repaired o); simpl; [done|auto].
  - intros H. exfalso. revert H. unfold refuse_grant, classify_403, classify_429, classify_5xx, continueWithoutCooldown.
    cbv zeta. policy_cases; done.
Qed.

(** A request is repaired at most once, only after a 400, and never when part of
    the answer was already sent. *)
Theorem repair_only_first_400 result o :
  o_action (classifyUpstreamResult result o) = RepairAndRetry ->
  opt_repaired o = false /\ committed result = false /\ status_is result 400 = true /\
  isCompleteAssistantMessage result = false.
Proof.
  unfold classifyUpstreamResult, classify_message. destruct (_ && _); [done|]. destruct (_ && _); [done|].
  destruct (isCompleteAssistantMessage result); [done|]. destruct (_ || _); [done|].
  destruct (_ || _). { unfold classify_auth, refuse_grant. policy_cases; done. }
  destruct (committed result); [done|]. intros H%classify_status_repair. tauto.
Qed.

Lemma incomplete_not_complete result :
  is_object (result?."body") = true -> isCompleteAssistantMessage result = true -> isIncompleteAssistantMessage result = false.
Proof.
  intros Ho Hc. unfold isIncompleteAssistantMessage. assert (truthy (result?."body") = true) as ->.
  { by destruct (result?."body"). }
  by rewrite Hc, andb_false_r.
Qed.

Lemma complete_not_silent result :
  is_object (result?."body") = true -> isCompleteAssistantMessage result = true -> isSilentClaudeRefusal result = false.
Proof.
  intros Ho Hc. unfold isSilentClaudeRefusal. unfold isCompleteAssistantMessage, body_of in Hc. rewrite Ho in Hc.
  apply andb_true_iff in Hc as [_ ->]. by rewrite andb_false_r.
Qed.

(** A hop with a body counts as success exactly when that body is a complete
    assistant message: an empty 200, a thinking-only or cut stream and a silent
    refusal never do. *)
Theorem success_iff_complete result o :
  is_object (result?."body") = true ->
  o_action (classifyUpstreamResult result o) = Complete <-> isCompleteAssistantMessage result = true.
Proof.
  intros Ho. split.
  - unfold classifyUpstreamResult, classify_message. destruct (isSilentClaudeRefusal result && _); [done|].
    destruct (_ && _); [done|]. destruct (isCompleteAssistantMessage result); [done|].
    destruct (_ || _); [done|]. unfold classify_auth, refuse_grant, classify_status, classify_transport, classify_400,
      classify_403, classify_429, classify_5xx, continueWithoutCooldown. cbv zeta. policy_cases; done.
  - intros Hc. unfold classifyUpstreamResult, classify_message, malformedSuccess.
    by rewrite (complete_not_silent _ Ho Hc), (incomplete_not_complete _ Ho Hc), Hc.
Qed.

(** C12: Once a part of the answer was sent, the hop is never repeated: the policy stops
    or completes, except that a dead grant still parks its account for good. *)
Theorem committed_never_retried result o :
  committed result = true ->
  o_action (classifyUpstreamResult result o) = Stop \/ o_action (classifyUpstreamResult result o) = Complete \/
  classifyUpstreamResult result o = refuse_grant o.
Proof.
  intros Hc. unfold classifyUpstreamResult, classify_message, classify_auth. rewrite Hc. simpl negb. rewrite !andb_false_r.
  policy_cases; auto.
Qed.

(** ** Cooldowns *)

Lemma or_time_case (P : num -> Prop) a b :
  (forall t, a = Some t -> P t) -> (forall t, b = Some t -> P t) -> forall t, or_time a b = Some t -> P t.
Proof. intros Ha Hb t. destruct a as [x|]; simpl; [|auto]. case_match; auto. Qed.

Lemma or_time_some a b : is_Some b -> is_Some (or_time a b).
Proof. intros Hb. destruct a; simpl; [|done]. by case_match. Qed.

Lemma min_list_gt l now : Forall (fun v => num_ltb now v = true) l -> l <> [] -> num_ltb now (num_min_list l) = true.
Proof.
  assert (Hmin : forall a b, num_ltb now a = true -> num_ltb now b = true -> num_ltb now (num_min a b) = true).
  { intros a b Ha Hb. unfold num_min. destruct a, b; try done; by case_match. }
  intros H. induction H as [|v l Hv H IH]; [done|]. intros _. simpl. destruct l as [|v' l].
  - apply Hmin; [done|]. by destruct now, v.
  - apply Hmin; [done|]. by apply IH.
Qed.

Lemma filter_min_gt (f : num -> bool) l now :
  (forall v, f v = true -> num_ltb now v = true) ->
  forall t, min_or_null (List.filter f l) = Some t -> num_ltb now t = true.
Proof.
  intros Hf t. unfold min_or_null. destruct (List.filter f l) as [|v l'] eqn:E; [done|]. intros [= <-]. apply (min_list_gt (v :: l')); [|done].
  rewrite <- E. apply Forall_forall. intros x Hx. apply Hf. apply list_elem_of_In, filter_In in Hx. tauto.
Qed.

Lemma num_ltb_add n ms : (0 < ms)%Z -> num_ltb (Fin n) (num_add (Fin n) (num_of_Z ms)) = true.
Proof.
  intros H. apply num_ltb_Fin. rewrite Qred_correct. assert (inject_Z 0 < inject_Z ms)%Q by (by rewrite <- Zlt_Qlt).
  change (inject_Z 0) with 0%Q in *. lra.
Qed.

Section Cooldown.
Context (result : jsval) (o : options) (n : Q).
Hypothesis now_finite : opt_now o = Fin n.
Hypothesis now_safe : (n < inject_Z 9007199254740991)%Q.
Hypothesis no_retry_after : is_nullish (header (result?."headers") "retry-after") = true.

Lemma reset_gt t : reset result o = Some t -> num_ltb (Fin n) t = true.
Proof.
  unfold reset, resetFromHeaders, retry_after. rewrite no_retry_after, now_finite. apply filter_min_gt.
  intros v Hv. by apply andb_true_iff in Hv as [_ Hv].
Qed.

Lemma usage_reset_gt t : usageWindowReset (opt_usage o) (Fin n) = Some t -> num_ltb (Fin n) t = true.
Proof.
  unfold usageWindowReset. destruct (is_object (opt_usage o)); [|done]. apply filter_min_gt.
  intros v Hv. by apply andb_true_iff in Hv as [_ Hv].
Qed.

Lemma account_until_gt : num_ltb (Fin n) (accountLimitUntil (reset result o) (opt_usage o) (Fin n)) = true.
Proof.
  unfold accountLimitUntil. destruct (or_time _ _) as [t|] eqn:E; [|by apply num_ltb_add].
  revert t E. apply or_time_case; [apply reset_gt|]. by apply or_time_case; [apply usage_reset_gt|].
Qed.

(** A time that was given and is after now. *)
Definition rests (t : option num) : Prop := exists u, t = Some u /\ num_ltb (Fin n) u = true.

Lemma rests_after ms : (0 < ms)%Z -> rests (Some (after o ms)).
Proof. intros H. eexists. split; [reflexivity|]. unfold after. rewrite now_finite. by apply num_ltb_add. Qed.

Lemma rests_or_time a b : (forall t, a = Some t -> num_ltb (Fin n) t = true) -> rests b -> rests (or_time a b).
Proof.
  intros Ha (u & -> & Hu). destruct (or_time_some a (Some u)) as [t Ht]; [done|]. exists t. split; [done|].
  revert t Ht. apply (or_time_case (fun t => num_ltb (Fin n) t = true)); [done|]. by intros t [= <-].
Qed.

Lemma fable_reset_gt t :
  or_time (fableResetFromHeaders (result?."headers") (opt_now o)) (reset result o) = Some t -> num_ltb (Fin n) t = true.
Proof.
  revert t. apply or_time_case; [|apply reset_gt]. intros t. unfold fableResetFromHeaders. rewrite now_finite.
  destruct (header_time _) as [ms|]; [|done]. destruct (num_ltb (Fin n) ms) eqn:E; [|done]. by intros [= <-].
Qed.

Lemma clamp_pos ms : exists z, clampOauth401CooldownMs ms = Fin z /\ (5000 <= z <= 600000)%Q.
Proof.
  unfold clampOauth401CooldownMs. destruct (to_number ms) as [q| | |]; simpl negb; cbv iota.
  2-4: eexists; split; [reflexivity|]; split; discriminate.
  unfold num_max, MAX_OAUTH_401_COOLDOWN_MS, num_of_Z. cbn [num_leb].
  destruct (Qle_bool (inject_Z 5000) q) eqn:E1; unfold num_min; cbn [num_leb];
    match goal with |- context [Qle_bool ?a ?b] => destruct (Qle_bool a b) eqn:E2 end;
    eexists; (split; [reflexivity|]); q_props; unfold inject_Z in *; split; try (discriminate || lra).
Qed.

Lemma rests_clamp ms : rests (Some (num_add (opt_now o) (clampOauth401CooldownMs ms))).
Proof.
  destruct (clamp_pos ms) as (z & -> & Hz & _). eexists. split; [reflexivity|]. rewrite now_finite.
  apply num_ltb_Fin. rewrite Qred_correct. lra.
Qed.

Lemma rests_grant : rests (cooldownUntil (refuse_grant o)).
Proof. eexists. split; [reflexivity|]. by apply num_ltb_Fin. Qed.

Lemma rests_account : rests (Some (accountLimitUntil (reset result o) (opt_usage o) (opt_now o))).
Proof. eexists. split; [reflexivity|]. rewrite now_finite. apply account_until_gt. Qed.

Lemma rests_reset ms : (0 < ms)%Z -> rests (or_time (reset result o) (Some (after o ms))).
Proof. intros H. apply rests_or_time; [apply reset_gt | by apply rests_after]. Qed.

Lemma rests_fable ms : (0 < ms)%Z ->
  rests (or_time (or_time (fableResetFromHeaders (result?."headers") (opt_now o)) (reset result o)) (Some (after o ms))).
Proof. intros H. apply rests_or_time; [apply fable_reset_gt | by apply rests_after]. Qed.

Create HintDb rest.
#[local] Hint Resolve rests_after rests_clamp rests_grant rests_account rests_reset rests_fable : rest.

(** What a policy says about resting. *)
Definition resting (p : outcome) : Prop :=
  (o_action p = ContinueAndCooldown -> rests (cooldownUntil p)) /\
  (o_action p <> ContinueAndCooldown -> cooldownUntil p = None).

Lemma resting_none sc a r : a <> ContinueAndCooldown -> resting (policy_of sc a r None).
Proof. by split. Qed.
Lemma resting_continue sc r b : resting (continueWithoutCooldown sc r b).
Proof. by split. Qed.
Lemma resting_cool sc r t : rests t -> resting (policy_of sc ContinueAndCooldown r t).
Proof. by split. Qed.
Lemma resting_model p m : resting p -> resting (on_model p m).
Proof. done. Qed.

(** A policy that asks for a cooldown names a time after now for it, and no other
    policy names one (a Retry-After header, which may lie in the past, is taken as it
    is and not covered). *)
Theorem cooldown_rests : resting (classifyUpstreamResult result o).
Proof.
  assert (H : (0 < 60000)%Z /\ (0 < 15000)%Z /\ (0 < 30000)%Z) by lia. destruct H as (H1 & H2 & H3).
  unfold classifyUpstreamResult, classify_message, classify_auth, classify_status, classify_transport, classify_400,
    classify_403, classify_429, classify_5xx, refuse_grant. cbv zeta.
  policy_cases; try apply resting_continue; try (by apply resting_none); try apply resting_model;
    try (apply resting_cool; eauto with rest); by split.
Qed.
End Cooldown.

(** ** Model keys *)

Lemma lower_char_space c : is_space (lower_char c) = is_space c.
Proof. destruct c as [[] [] [] [] [] [] [] []]; reflexivity. Qed.
Lemma lower_char_idem c : lower_char (lower_char c) = lower_char c.
Proof. destruct c as [[] [] [] [] [] [] [] []]; reflexivity. Qed.

Lemma to_lower_idem s : to_lower (to_lower s) = to_lower s.
Proof. induction s as [|c s IH]; simpl; [done|]. by rewrite lower_char_idem, IH. Qed.

Lemma to_lower_trim_start s : to_lower (trim_start s) = trim_start (to_lower s).
Proof. induction s as [|c s IH]; simpl; [done|]. rewrite lower_char_space. by destruct (is_space c). Qed.

Lemma to_lower_trim_end s : to_lower (trim_end s) = trim_end (to_lower s).
Proof.
  induction s as [|c s IH]; simpl; [done|]. rewrite <- IH, lower_char_space.
  destruct (trim_end s) as [|d r]; simpl; [by destruct (is_space c)|done].
Qed.

Lemma to_lower_trim s : to_lower (trim s) = trim (to_lower s).
Proof. unfold trim. by rewrite to_lower_trim_end, to_lower_trim_start. Qed.

Lemma normalizeModelKey_idem m : normalizeModelKey (JStr (normalizeModelKey m)) = normalizeModelKey m.
Proof.
  unfold normalizeModelKey at 1. rewrite str_or_empty_JStr. unfold normalizeModelKey.
  set (s := str_or_empty m). rewrite <- to_lower_trim, trim_trim. apply to_lower_idem.
Qed.

(** A model is parked under its normalised key, once: every key of a model is its
    own normal form, no key repeats, and a Fable model is also parked under the
    family key, so two spellings of a model share their cooldowns. *)
Theorem modelCooldownKeys_normal m :
  Forall (fun k => normalizeModelKey (JStr k) = k) (modelCooldownKeys m) /\
  NoDup (modelCooldownKeys m) /\
  (isFableModel (JStr (normalizeModelKey m)) = true -> FABLE_FAMILY_KEY ∈ modelCooldownKeys m) /\
  modelCooldownKeys (JStr (normalizeModelKey m)) = modelCooldownKeys m.
Proof.
  pose proof (normalizeModelKey_idem m) as Hn. unfold modelCooldownKeys. rewrite Hn.
  destruct (String.eqb_spec (normalizeModelKey m) "") as [->|Hne]; [repeat split; constructor || done|].
  destruct (isFableModel _); simpl; [|repeat split; repeat constructor; set_solver].
  destruct (String.eqb_spec (normalizeModelKey m) FABLE_FAMILY_KEY) as [Heq|Hf]; simpl;
    (repeat split; [by repeat constructor|repeat constructor; set_solver|set_solver]).
Qed.

(** ** Concrete runs *)

Definition sample_options : options :=
  {| opt_model := JStr "claude-opus-4-6"; opt_now := num_of_Z 1700000000000; opt_repaired := false; opt_hasRefresh := JBool true;
     opt_oauth401CooldownMs := jint 120000; opt_signatureRepair := false; opt_usage := JNull |}.
Definition upstream_failure (status : Z) (message : string) : jsval :=
  JObj [("status", jint status); ("body", JObj [("error", JObj [("message", JStr message)])])].

Example prefill_is_repaired :
  o_reason (classifyUpstreamResult (upstream_failure 400 "messages: final assistant message must not be empty") sample_options)
  = "prefill_repairable".
Proof. vm_compute. reflexivity. Qed.

Lemma repair_only_first_400_witness :
  o_action (classifyUpstreamResult (upstream_failure 400 "missing tool_use_id") sample_options) = RepairAndRetry /\
  committed (upstream_failure 400 "missing tool_use_id") = false.
Proof.
  split; [vm_compute; reflexivity|].
  apply (repair_only_first_400 (upstream_failure 400 "missing tool_use_id") sample_options). vm_compute. reflexivity.
Defined.

Lemma success_iff_complete_witness :
  isCompleteAssistantMessage sample_hop = true /\ o_action (classifyUpstreamResult sample_hop sample_options) = Complete.
Proof.
  split; [vm_compute; reflexivity|].
  apply (success_iff_complete sample_hop sample_options); vm_compute; reflexivity.
Defined.

Lemma committed_never_retried_witness :
  let r := with_field (upstream_failure 500 "boom") "committed" (JBool true) in
  committed r = true /\
  (o_action (classifyUpstreamResult r sample_options) = Stop \/ o_action (classifyUpstreamResult r sample_options) = Complete \/
   classifyUpstreamResult r sample_options = refuse_grant sample_options).
Proof.
  split; [vm_compute; reflexivity|].
  apply (committed_never_retried (with_field (upstream_failure 500 "boom") "committed" (JBool true)) sample_options).
  vm_compute. reflexivity.
Defined.

Lemma cooldown_rests_witness :
  o_action (classifyUpstreamResult (upstream_failure 429 "slow down") sample_options) = ContinueAndCooldown /\
  resting (inject_Z 1700000000000) (classifyUpstreamResult (upstream_failure 429 "slow down") sample_options).
Proof.
  split; [vm_compute; reflexivity|].
  apply (cooldown_rests (upstream_failure 429 "slow down") sample_options (inject_Z 1700000000000));
    vm_compute; reflexivity.
Defined.
