(* ===== verification/SlotEngine.v ===== *)
(** * Data-plane engine of a slot (src/src/lib/vm/slot-engine.mjs)

    The inference engine and the way official clients reach it.  The persona presets
    of the same file are not modelled. *)

From S2P Require Import Prelude.
From S2P Require Import JsValue.
From S2P Require Import Eligibility.
From S2P Require Import Errors.
#[local] Open Scope string_scope.
#[local] Open Scope list_scope.
#[local] Open Scope js_scope.

(** [String(value ?? '').trim().toLowerCase()] *)
Definition raw_option (value : jsval) : string := to_lower (trim (to_string (value ?? JStr ""))).

(** [s.replaceAll(a, b)] on characters. *)
Fixpoint replace_char (a b : ascii) (s : string) : string :=
  match s with
  | EmptyString => EmptyString
  | String c s => String (if Ascii.eqb c a then b else c) (replace_char a b s)
  end.

Definition normalizeInferenceEngine (value : jsval) (inherit : bool) : string :=
  let raw := raw_option value in
  if String.eqb raw "" then (if inherit then "" else "rust")
  else if is_one_of raw ["rust"; "kernel"; "kin-kernel"; "go"; "worker"; "go-worker"] then "rust"
  else if inherit then "" else "rust".

Definition optionalBool (value : jsval) (fallback : bool) : bool :=
  if is_nullish value || is_str value "" then fallback else is_true value.

Definition optionalTtlMs (value : jsval) (fallback : num) : num :=
  if is_nullish value || is_str value "" then fallback
  else let n := to_number value in if negb (is_finite n) || num_ltb n (Fin 0) then fallback else n.

Record inference_config := {
  engine : string; fallback_to_go : bool; strict : bool; eager_start : bool; health_ttl_ms : num; tcp_nodelay : bool }.

Definition normalizeInferenceConfig (raw : jsval) : inference_config :=
  {| engine := normalizeInferenceEngine (raw?."engine") false; fallback_to_go := false; strict := is_true (raw?."strict");
     eager_start := optionalBool (raw?."eager_start") true; health_ttl_ms := optionalTtlMs (raw?."health_ttl_ms") (num_of_Z 2000);
     tcp_nodelay := optionalBool (raw?."tcp_nodelay") true |}.

(** [None] is [null]: a Codex slot has no Claude engine. *)
Definition resolveInferenceEngine (vm routing : jsval) : option string :=
  if VmKind.isCodexVm vm then None
  else
    let fromVm := normalizeInferenceEngine (vm?."inference_engine") true in
    if String.eqb fromVm "" then Some (normalizeInferenceEngine (routing?."inference"?."engine") false) else Some fromVm.

Definition normalizeOfficialCcInference (value : jsval) (inherit : bool) : string :=
  let raw := replace_char "_" "-" (raw_option value) in
  if is_one_of raw [""; "inherit"; "global"; "default"] then (if inherit then "" else "http")
  else if is_one_of raw ["http"; "hop"; "anthropic-api"; "anthropic_api"] then "http"
  else if is_one_of raw ["cli-hop"; "clihop"; "local-cli"; "local_cli"] then "cli-hop"
  else if inherit then "" else "http".

Definition resolveOfficialCcInference (vm routing : jsval) : option string :=
  if VmKind.isCodexVm vm then None
  else if bool_decide (resolveInferenceEngine vm routing = Some "rust") then Some "cli-hop"
  else
    let fromVm := normalizeOfficialCcInference (vm?."official_cc_inference") true in
    if String.eqb fromVm "" then Some (normalizeOfficialCcInference (routing?."official_cc"?."inference") false) else Some fromVm.

(** [{ ok: true }] is [None], [{ ok: false, error }] the error. *)
Definition assertCliHopAllowed (vm routing : jsval) : option string :=
  if negb (bool_decide (resolveOfficialCcInference vm routing = Some "cli-hop")) then None
  else if negb (bool_decide (resolveInferenceEngine vm routing = Some "rust"))
       then Some "official_cc.inference=cli-hop requires inference.engine=rust"
  else None.

Definition parseOfficialCcInferencePatch (value : jsval) : option string :=
  if is_nullish value then Some ""
  else
    let raw := replace_char "_" "-" (to_lower (trim (to_string value))) in
    if is_one_of raw [""; "inherit"; "global"; "default"] then Some ""
    else if is_one_of raw ["http"; "cli-hop"] then Some raw else None.

(** ** The engine is always the kernel *)

Lemma normalizeInferenceEngine_rust v : normalizeInferenceEngine v false = "rust".
Proof. unfold normalizeInferenceEngine. by repeat case_match. Qed.

Lemma resolveInferenceEngine_rust vm routing : VmKind.isCodexVm vm = false -> resolveInferenceEngine vm routing = Some "rust".
Proof.
  intros H. unfold resolveInferenceEngine. rewrite H, normalizeInferenceEngine_rust.
  unfold normalizeInferenceEngine. destruct (String.eqb (raw_option _) ""); [done|].
  by destruct (is_one_of _ _).
Qed.

(** Every Claude slot hops through the kernel's CLI, whatever was configured. *)
Lemma cli_hop_always vm routing : VmKind.isCodexVm vm = false -> resolveOfficialCcInference vm routing = Some "cli-hop".
Proof.
  intros H. unfold resolveOfficialCcInference. by rewrite H, (resolveInferenceEngine_rust _ _ H), bool_decide_eq_true_2.
Qed.

(** The guard on cli-hop therefore never fires. *)
Lemma cli_hop_allowed vm routing : assertCliHopAllowed vm routing = None.
Proof.
  unfold assertCliHopAllowed. destruct (VmKind.isCodexVm vm) eqn:H.
  - unfold resolveOfficialCcInference. by rewrite H.
  - rewrite (cli_hop_always _ _ H), (resolveInferenceEngine_rust _ _ H). by rewrite !bool_decide_eq_true_2.
Qed.
