(* ===== verification/Failover.v ===== *)
(** * The failover loop (src/src/lib/pool/failover-runner.mjs)

    [run] tries accounts until one gives a verified answer.  What the loop reads from
    its surroundings (the scheduler's selections, the upstream's answers, the clock,
    the abort signal) is the record [env], which also says which writes throw, indexed by the attempt number and taking
    the arguments the code passes; what the loop does to its surroundings is the list
    of [effect]s, in order.  A body of the [try] or [catch] block is one definition,
    and [run] is the [for] loop with its [finally]. *)

From S2P Require Import Prelude.
From S2P Require Import JsValue.
From S2P Require Import JsRegex.
From S2P Require Import QuotaWindow.
From S2P Require Import Eligibility.
From S2P Require Import Errors.
From S2P Require Import ErrorPolicy.
From S2P Require Import SlotEngine.
#[local] Open Scope string_scope.
#[local] Open Scope list_scope.
#[local] Open Scope js_scope.

(** The merged configuration [{ ...DEFAULTS, ...config }]; counts and delays are whole numbers. *)
Record config := {
  max_account_switches : Z; max_total_attempts : Z; total_retry_deadline_ms : Z; max_same_account_retries : Z;
  same_account_retry_delay_ms : Z; same_account_retry_max_hop_ms : Z; signature_repair : bool; oauth_401_cooldown_ms : jsval }.

Definition DEFAULTS : config :=
  {| max_account_switches := 10; max_total_attempts := 12; total_retry_deadline_ms := 120000; max_same_account_retries := 1;
     same_account_retry_delay_ms := 500; same_account_retry_max_hop_ms := 10000; signature_repair := false;
     oauth_401_cooldown_ms := JUndef |}.

(** A reserved account: its ids and the candidate object. *)
Record selected := { s_account : string; s_vm : string; s_obj : jsval }.

(** ** Helpers of the loop *)

Definition usageOf (result : jsval) : jsval := first_truthy [result?."usage"; result?."body"?."usage"].

Definition verifiedSuccess (result : jsval) : bool :=
  truthy (result?."ok") && is_str (result?."terminalState") "verified" && isCompleteAssistantMessage result.

(** The sticky keys, each once, in order. *)
Fixpoint unique_keys (keys seen : list jsval) : list string :=
  match keys with
  | [] => []
  | k :: keys =>
    if negb (truthy k) || existsb (fun s => is_str s (to_string k)) seen then unique_keys keys seen
    else to_string k :: unique_keys keys (k :: seen)
  end.
Definition uniqueStickyKeys (stickyKey stickyKeys : jsval) : list string :=
  unique_keys (stickyKey :: arr_of stickyKeys) [].

Definition poolError (code message : string) (details : jsval) : jsval :=
  JObj [("ok", JBool false); ("status", jint 503); ("via", JStr "pool-failover"); ("terminalState", JStr "exhausted");
        ("body", JObj [("type", JStr "error");
          ("error", JObj [("type", JStr "api_error"); ("code", JStr code); ("message", JStr message); ("details", details)])])].

Definition selectedHasRefresh (s : selected) : jsval :=
  let o := s_obj s in
  match o?."hasRefresh" with
  | JBool b => JBool b
  | _ =>
    let cred := first_truthy [o?."workerStatus"?."credential"; o?."state"?."worker_status"?."credential"; JObj []] in
    JBool (Credentials.hasRefreshPresence (o?."vm"?."claude") || truthy (o?."vm"?."has_refresh") || truthy (cred?."has_refresh"))
  end.

Definition signatureRepairEnabled (c : config) (s : selected) : bool :=
  signature_repair c || bool_decide (resolveOfficialCcInference (s_obj s?."vm") JUndef = Some "cli-hop").

Definition isUnfinishedLastResult (result : jsval) (p : option outcome) : bool :=
  if negb (truthy result) then false
  else match p with
       | Some p => if String.eqb (o_reason p) "incomplete_assistant" then true
                   else is_str (result?."terminalState") "incomplete" || isIncompleteAssistantMessage result
       | None => is_str (result?."terminalState") "incomplete" || isIncompleteAssistantMessage result
       end.

Definition scope_name (s : scope) : string :=
  match s with
  | ScRequest => "request" | ScStream => "stream" | ScSuccess => "success" | ScClient => "client_lifecycle"
  | ScAccount => "account" | ScWorker => "worker" | ScProxy => "proxy" | ScCredential => "credential"
  | ScModel => "model" | ScProvider => "provider"
  end.
Definition action_name (a : action) : string :=
  match a with
  | Stop => "stop" | Complete => "complete" | Continue => "continue" | ContinueAndCooldown => "continue-and-cooldown"
  | Disable => "disable" | RepairAndRetry => "repair-and-retry"
  end.
(** The JavaScript object of a policy. *)
Definition policy_obj (p : outcome) : jsval :=
  JObj ([("scope", JStr (scope_name (o_scope p))); ("action", JStr (action_name (o_action p)))] ++
        (if String.eqb (o_reason p) "" then [] else [("reason", JStr (o_reason p))]) ++
        [("cooldownUntil", match cooldownUntil p with Some t => JNum t | None => JNull end)] ++
        (match retrySameAccount p with Some b => [("retrySameAccount", JBool b)] | None => [] end) ++
        (match o_model p with Some m => [("model", JStr m)] | None => [] end) ++
        (match mark_tier p with Some t => [("mark_tier", JStr t)] | None => [] end)).

Definition preferLastResult (lastResult : jsval) (lastPolicy : option outcome) (fallback extras : jsval) : jsval :=
  if negb (truthy lastResult) then fallback
  else
    let via := lastResult?."via" ||| JStr "pool-failover" in
    let policy := match lastPolicy with Some p => policy_obj p | None => lastResult?."policy" end in
    if isUnfinishedLastResult lastResult lastPolicy
    then spread (spread (incompleteAssistantClientError lastResult)
                   (JObj [("via", via); ("finalState", JStr "incomplete"); ("policy", policy)])) extras
    else spread (spread lastResult
                   (JObj [("via", via);
                          ("finalState", lastResult?."finalState" ||| lastResult?."terminalState" ||| JStr "exhausted");
                          ("policy", policy)])) extras.

Definition canRetrySameAccount (p : outcome) (used : Z) (c : config) (hopMs : Z) : bool :=
  match retrySameAccount p with
  | Some true =>
    if (max_same_account_retries c <=? used)%Z then false
    else if String.eqb (o_reason p) "incomplete_assistant" then true
    else (hopMs <? same_account_retry_max_hop_ms c)%Z
  | _ => false
  end.

(** ** Surroundings *)

Inductive selection :=
| Selected (s : selected)
| NotSelected (info : jsval)         (* [{ ok: false, reason, ... }] *)
| SelectCancelled                    (* thrown with code selection_cancelled *)
| SelectQueueFull                    (* thrown with code pool_wait_queue_full *)
| SelectThrew (e : jsval).

(** What an awaited call gave: a value or a thrown error (its [code] and [message]);
    [commit] says whether [onCommit] had been called. *)
Inductive answer := Answered (result : jsval) (commit : bool) | Threw (code message : jsval) (commit : bool).

(** What the loop does to its surroundings. *)
Inductive effect :=
| EReserve (s : selected)
| EBind (key acc vm : string) (countHit : bool)
| EBegin (n : nat) (s : selected)
| ECall (n : nat) (s : selected) (body meta : jsval)
| EProxyFailure (vm reason : string)
| EFableDenied (s : selected)
| EComplete (n : nat) (p : outcome) (committed : bool) (terminalState usage : jsval)
| EOnAttempt (n : nat)
| EMarkSuccess (s : selected)
| EMarkCooldown (s : selected) (until : option num) (reason : string) (model : option jsval) (status : string)
| EUnbindAccount (acc vm : string)
| ECredentialFailure (s : selected)
| ERelease (s : selected).

(** The writes of an attempt: before its [try], in it once the answer is there and once it is decided upon, and in its
    [catch]. *)
Inductive stage := Opening | Answering | Deciding | Catching.

Record env := {
  e_started : Z;                                           (* [Date.now()] before the loop *)
  e_now : nat -> Z;                                        (* at the top of attempt [n] *)
  e_aborted : nat -> bool;
  e_select : nat -> list string -> selection;              (* given [excluded] *)
  e_apply : nat -> jsval -> selected -> bool -> answer;    (* [applyAttempt(body, selected, { attemptNo, repaired })] *)
  e_call : nat -> jsval -> jsval -> selected -> answer;    (* [callAttempt({ body, attemptMeta, candidate })] *)
  e_on_attempt : nat -> option (jsval * jsval);            (* an error thrown by [onAttempt] *)
  e_fails : nat -> stage -> nat -> effect -> option (jsval * jsval);
                                                           (* an error thrown by the [i]-th write of a stage *)
  e_classify_now : nat -> num;
  e_hop_ms : nat -> Z;
  e_slept : nat -> bool;                                   (* [false]: aborted during the pause *)
  e_account : string -> jsval }.                           (* [accountQuota.repo.get] *)

(** The request of [run]. *)
Record request := {
  rq_body : jsval; rq_model : jsval; rq_stickyKey : jsval; rq_stickyKeys : jsval; rq_pinVmId : jsval }.

(** The mutable variables of [run]. *)
Record state := {
  excluded : list string; retries : gmap string Z; accountSwitches : Z; repaired : bool; requestBody : jsval;
  lastResult : jsval; lastPolicy : option outcome }.

Definition initial (r : request) : state :=
  {| excluded := []; retries := ∅; accountSwitches := 0; repaired := false; requestBody := rq_body r;
     lastResult := JNull; lastPolicy := None |}.

Definition set_last (st : state) (result : jsval) (p : outcome) : state :=
  {| excluded := excluded st; retries := retries st; accountSwitches := accountSwitches st; repaired := repaired st;
     requestBody := requestBody st; lastResult := result; lastPolicy := Some p |}.
Definition set_repaired (st : state) (body : jsval) : state :=
  {| excluded := excluded st; retries := retries st; accountSwitches := accountSwitches st; repaired := true;
     requestBody := body; lastResult := lastResult st; lastPolicy := lastPolicy st |}.
Definition set_retry (st : state) (acc : string) (n : Z) : state :=
  {| excluded := excluded st; retries := <[acc := n]> (retries st); accountSwitches := accountSwitches st;
     repaired := repaired st; requestBody := requestBody st; lastResult := lastResult st; lastPolicy := lastPolicy st |}.
(** [Set.add] on a set in insertion order. *)
Definition add_once (x : string) (l : list string) : list string := if bool_decide (x ∈ l) then l else l ++ [x].
Definition exclude (st : state) (s : selected) : state :=
  {| excluded := add_once (s_vm s) (add_once (s_account s) (excluded st)); retries := retries st;
     accountSwitches := accountSwitches st + 1; repaired := repaired st; requestBody := requestBody st;
     lastResult := lastResult st; lastPolicy := lastPolicy st |}.

(** How an iteration ends: the promise of [run] settles, or the loop goes on. *)
Inductive ending := Returned (r : jsval) | Rejected (e : jsval) | Next (st : state).
(** How the [try] block ends. *)
Inductive trial := Done (e : ending) | Thrown (code message : jsval) (commit : bool).

Section Runner.
Context (cfg : config) (repairAnthropicRequest : jsval -> outcome -> jsval) (r : request) (e : env).

(** A write of the store or of the scheduler may throw; a callback wrapped in [try] and a release do not. *)
Definition throws (n : nat) (g : stage) (i : nat) (f : effect) : option (jsval * jsval) :=
  match f with
  | EBind _ _ _ _ | EBegin _ _ | EComplete _ _ _ _ _ | EMarkSuccess _ | EMarkCooldown _ _ _ _ _ | EUnbindAccount _ _ => e_fails e n g i f
  | _ => None
  end.
(** The effects up to the first that throws, and its error. *)
Fixpoint perform (n : nat) (g : stage) (i : nat) (l : list effect) : list effect * option (jsval * jsval) :=
  match l with
  | [] => ([], None)
  | f :: l =>
    match throws n g i f with
    | Some err => ([], Some err)
    | None => let '(done, err) := perform n g (S i) l in (f :: done, err)
    end
  end.
Definition error_of (err : jsval * jsval) : jsval := JObj [("code", err.1); ("message", err.2)].

Definition pinned : bool := truthy (rq_pinVmId r).
Definition deadline : Z := e_started e + (if (total_retry_deadline_ms cfg =? 0)%Z then 120000 else total_retry_deadline_ms cfg).
Definition attempt_count (n : nat) : jsval := jint (Z.of_nat n).

Definition bindAll (s : selected) (countHit : bool) : list effect :=
  List.map (fun k => EBind k (s_account s) (s_vm s) countHit) (uniqueStickyKeys (rq_stickyKey r) (rq_stickyKeys r)).

Definition selectedUsage (n : nat) (s : selected) : jsval :=
  let account := s_obj s?."account" ||| e_account e (s_account s) in
  if negb (truthy (account?."unified")) then JNull else listQuotaFromHeaders (account?."unified") (e_classify_now e n).

Definition classifyAttempt (n : nat) (result : jsval) (s : selected) (rep : bool) : outcome :=
  classifyUpstreamResult result
    {| opt_model := rq_model r; opt_now := e_classify_now e n; opt_repaired := rep; opt_hasRefresh := selectedHasRefresh s;
       opt_oauth401CooldownMs := default_to (oauth_401_cooldown_ms cfg) (JNum DEFAULT_OAUTH_401_COOLDOWN_MS);
       opt_signatureRepair := signatureRepairEnabled cfg s; opt_usage := selectedUsage n s |}.

Definition notifyProxyFailure (s : selected) (p : outcome) : list effect :=
  if String.eqb (o_reason p) "proxy_transport_failure" then [EProxyFailure (s_vm s) (o_reason p)] else [].

(** [oauth_no_refresh] or [oauth_revoked]: the grant itself is dead. *)
Definition grant_dead (p : outcome) : bool := is_one_of (o_reason p) ["oauth_no_refresh"; "oauth_revoked"].
Definition parked_for_good (p : outcome) : bool := bool_decide (o_action p = Disable) || grant_dead p.

Definition applyCooldown (s : selected) (p : outcome) : list effect :=
  if negb (bool_decide (o_action p = ContinueAndCooldown) || bool_decide (o_action p = Disable)) then []
  else if pinned && grant_dead p then []
  else
    EMarkCooldown s (if parked_for_good p then Some MAX_SAFE_INTEGER else cooldownUntil p) (o_reason p)
      (if bool_decide (o_scope p = ScModel) then Some (match o_model p with Some m => JStr m | None => rq_model r end) else None)
      (if parked_for_good p then "disabled" else "cooldown")
    :: (if bool_decide (o_scope p = ScAccount) then [EUnbindAccount (s_account s) (s_vm s)] else []).

Definition forgetCredential (s : selected) : list effect :=
  [EUnbindAccount (s_account s) (s_vm s); ECredentialFailure s].

(** Cooldown, and forgetting the credential unless the request is pinned. *)
Definition punish (s : selected) (p : outcome) : list effect :=
  applyCooldown s p ++
  (if negb pinned && (bool_decide (o_scope p = ScCredential) || parked_for_good p) then forgetCredential s else []).

Definition final (result : jsval) (s : selected) (n : nat) (finalState : jsval) (policy : option outcome) : jsval :=
  spread result (JObj ([("accountId", JStr (s_account s)); ("vmId", JStr (s_vm s)); ("attemptCount", attempt_count n);
                        ("finalState", finalState)] ++
                       match policy with Some p => [("policy", policy_obj p)] | None => [] end)).

Definition cancelled (n : nat) : jsval :=
  poolError "request_cancelled" "Request was cancelled" (JObj [("attempt_count", attempt_count n)]).

(** The same account again, when the policy and the configuration allow it: the pause may be aborted. *)
Definition same_account (n : nat) (s : selected) (p : outcome) (st : state) : option ending :=
  let used := default 0%Z (retries st !! s_account s) in
  if canRetrySameAccount p used cfg (e_hop_ms e n)
  then Some (if e_slept e n then Next (set_retry st (s_account s) (used + 1)) else Returned (cancelled n))
  else None.

(** The rest of the [try] block once [onAttempt] returned. *)
Definition decide_answer (n : nat) (s : selected) (st : state) (result : jsval) (p : outcome) : list effect * ending :=
  if String.eqb (o_reason p) "content_filter_refusal" then
    (EMarkSuccess s :: bindAll s true, Returned (final result s n (JStr "content_filter") (Some p)))
  else if verifiedSuccess result then
    (EMarkSuccess s :: bindAll s true, Returned (final result s n (JStr "verified") None))
  else if bool_decide (o_action p = RepairAndRetry) && negb (repaired st) && negb (truthy (result?."committed")) then
    ([], Next (set_repaired st (repairAnthropicRequest (requestBody st) p)))
  else
    (punish s p,
     if negb (shouldContinue p) then Returned (final result s n (result?."terminalState" ||| JStr "rejected") (Some p))
     else match same_account n s p st with
          | Some e => e
          | None =>
            let st' := exclude st s in
            if (max_account_switches cfg <? accountSwitches st')%Z then
              Returned (preferLastResult result (Some p)
                (poolError "max_account_switches_exceeded" "Maximum account switches exceeded"
                   (JObj [("attempt_count", attempt_count n); ("last_scope", JStr (scope_name (o_scope p)))]))
                (JObj [("accountId", JStr (s_account s)); ("vmId", JStr (s_vm s)); ("attemptCount", attempt_count n)]))
            else Next st'
          end).

(** [if (result) result.committed = result.committed || committed] *)
Definition commit_result (result : jsval) (commit : bool) : jsval :=
  if truthy result then with_field result "committed" (result?."committed" ||| JBool commit) else result.

(** What is logged about an answer before it is decided upon. *)
Definition log_answer (n : nat) (s : selected) (result : jsval) (p : outcome) (commit : bool) : list effect :=
  notifyProxyFailure s p ++
  (if String.eqb (o_reason p) "fable_plan_denied" then [EFableDenied s] else []) ++
  [EComplete n p (truthy (result?."committed") || commit)
     (result?."terminalState" ||| (if truthy (result?."ok") then JStr "unknown" else JStr "error")) (usageOf result);
   EOnAttempt n].

(** [onAttempt] is called when nothing threw before. *)
Definition first_some {A} (x y : option A) : option A := match x with Some a => Some a | None => y end.
(** The [try] block once the answer has its commit flag. *)
Definition on_result (n : nat) (s : selected) (st : state) (result : jsval) (commit : bool) : list effect * trial :=
  let p := classifyAttempt n result s (repaired st) in
  let '(logged, err) := perform n Answering 0 (log_answer n s result p commit) in
  match first_some err (e_on_attempt e n) with
  | Some (code, message) => (logged, Thrown code message commit)
  | None =>
    let '(l, x) := decide_answer n s (set_last st result p) result p in
    let '(l, err) := perform n Deciding 0 l in
    (logged ++ l, match err with Some (code, message) => Thrown code message commit | None => Done x end)
  end.

(** The [try] block from the answer on.  Reading a field of a [null] answer throws. *)
Definition on_answer (n : nat) (s : selected) (st : state) (answered : jsval) (commit : bool) : list effect * trial :=
  match answered with
  | JNull => ([], Thrown JUndef (JStr "Cannot read properties of null (reading 'ok')") commit)
  | _ => on_result n s st (commit_result answered commit) commit
  end.

(** [prepared] is wrapped when it is an object with its own [body] and [meta]. *)
Definition unwrap_prepared (prepared : jsval) : jsval * jsval :=
  if is_object prepared && has_own prepared "body" && has_own prepared "meta"
  then (prepared?."body", prepared?."meta") else (prepared, JNull).

Definition try_block (n : nat) (s : selected) (st : state) : list effect * trial :=
  match e_apply e n (requestBody st) s (repaired st) with
  | Threw code message _ => ([], Thrown code message false)
  | Answered prepared _ =>
    let '(body, meta) := unwrap_prepared prepared in
    match e_call e n body meta s with
    | Threw code message commit => ([ECall n s body meta], Thrown code message commit)
    | Answered result commit =>
      let '(l, x) := on_answer n s st result commit in (ECall n s body meta :: l, x)
    end
  end.

Definition thrown_result (code message : jsval) (commit : bool) : jsval :=
  JObj [("ok", JBool false); ("status", jint 0); ("transportError", JBool true); ("committed", JBool commit);
        ("terminalState", JStr (if commit then "incomplete" else "transport_error"));
        ("body", JObj [("type", JStr "error");
          ("error", JObj [("type", JStr "worker_error"); ("code", code ||| JStr "attempt_failed");
             ("message", JStr (take_chars 300 (to_string message)))])])].

(** What the [catch] block does when its writes do not throw. *)
Definition catch_plan (n : nat) (s : selected) (st : state) (code message : jsval) (commit : bool) : list effect * ending :=
  let result := thrown_result code message commit in
  let p := classifyAttempt n result s (repaired st) in
  let st := set_last st result p in
  let logged := notifyProxyFailure s p ++ [EComplete n p commit (result?."terminalState") JUndef] in
  if commit || negb (shouldContinue p)
  then (logged, Returned (final result s n (result?."terminalState") (Some p)))
  else
    (logged ++ punish s p,
     match same_account n s p st with Some e => e | None => Next (exclude st s) end).

Definition catch_block (n : nat) (s : selected) (st : state) (code message : jsval) (commit : bool) : list effect * ending :=
  let '(l, x) := catch_plan n s st code message commit in
  let '(l, err) := perform n Catching 0 l in
  (l, match err with Some err => Rejected (error_of err) | None => x end).

(** An attempt on a reserved account: [try], [catch], and [finally] the release. *)
Definition attempt (n : nat) (s : selected) (st : state) : list effect * ending :=
  let '(l, x) := try_block n s st in
  let '(l', x') := match x with
                   | Done x => ([], x)
                   | Thrown code message commit => catch_block n s st code message commit
                   end in
  (l ++ l' ++ [ERelease s], x').

(** One iteration of the loop. *)
Definition iteration (n : nat) (st : state) : list effect * ending :=
  if e_aborted e n then ([], Returned (cancelled (n - 1)))
  else if (deadline <=? e_now e n)%Z then
    ([], Returned (preferLastResult (lastResult st) (lastPolicy st)
            (poolError "pool_deadline_exceeded" "Account pool retry deadline exceeded"
               (JObj [("attempt_count", attempt_count (n - 1));
                      ("last_scope", match lastPolicy st with Some p => JStr (scope_name (o_scope p)) | None => JNull end)]))
            (JObj [("attemptCount", attempt_count (n - 1))])))
  else
    match e_select e n (excluded st) with
    | SelectCancelled => ([], Returned (cancelled (n - 1)))
    | SelectQueueFull =>
      ([], Returned (poolError "pool_wait_queue_full" "Account pool wait queue is full"
              (JObj [("reason", JStr "pool_wait_queue_full"); ("attempt_count", attempt_count (n - 1))])))
    | SelectThrew err => ([], Rejected err)
    | NotSelected info =>
      ([], Returned (preferLastResult (lastResult st) (lastPolicy st)
              (poolError "account_pool_exhausted" "No eligible Claude accounts remain"
                 (JObj [("excluded_accounts", JArr (List.map JStr (excluded st)));
                        ("reason", info?."reason" ||| JStr "no_eligible_accounts");
                        ("wait_ms", info?."waitMs" ?? info?."wait_ms" ?? jint 0);
                        ("soonest_available_ms", info?."soonest_available_ms" ?? JNull);
                        ("wait_reasons", info?."wait_reasons" ||| JArr []);
                        ("eligible", info?."eligible" ?? jint 0); ("available", info?."available" ?? jint 0);
                        ("sticky_cleared", JBool (truthy (info?."sticky_cleared")));
                        ("attempt_count", attempt_count (n - 1))]))
              (JObj [("attemptCount", attempt_count (n - 1))])))
    | Selected s =>
      let '(opened, err) := perform n Opening 0 (bindAll s false ++ [EBegin n s]) in
      match err with
      | Some err => (EReserve s :: opened, Rejected (error_of err))
      | None => let '(l, x) := attempt n s st in (EReserve s :: opened ++ l, x)
      end
    end.

(** The loop from attempt [n] with [k] attempts left. *)
Fixpoint run_from (k n : nat) (st : state) : list effect * ending :=
  match k with
  | O => ([], Returned (preferLastResult (lastResult st) (lastPolicy st)
                 (poolError "attempts_exhausted" "Maximum account attempts exhausted"
                    (JObj [("max_attempts", jint (max_total_attempts cfg))])) (JObj [])))
  | S k =>
    let '(l, x) := iteration n st in
    match x with
    | Next st' => let '(l', x') := run_from k (S n) st' in (l ++ l', x')
    | _ => (l, x)
    end
  end.

Definition run : list effect * ending := run_from (Z.to_nat (max_total_attempts cfg)) 1 (initial r).
End Runner.

(** ** Attempts are bracketed *)

(** The reservations of a log: taken ([inl]) and given back ([inr]). *)
Definition bracket (f : effect) : option (selected + selected) :=
  match f with EReserve s => Some (inl s) | ERelease s => Some (inr s) | _ => None end.
Definition brackets (l : list effect) : list (selected + selected) := omap bracket l.
(** One account after the other, each taken and given back. *)
Definition taken_and_released (l : list selected) : list (selected + selected) := l ≫= fun s => [inl s; inr s].

Lemma brackets_app l1 l2 : brackets (l1 ++ l2) = brackets l1 ++ brackets l2.
Proof. apply omap_app. Qed.

Section Facts.
Context (cfg : config) (repair : jsval -> outcome -> jsval) (r : request) (e : env).

#[local] Abbreviation attempt := (attempt cfg repair r e).
#[local] Abbreviation iteration := (iteration cfg repair r e).
#[local] Abbreviation run_from := (run_from cfg repair r e).

(** What is performed of a list is the list, or a part of it. *)
Lemma perform_in n g i l f : f ∈ (perform e n g i l).1 -> f ∈ l.
Proof.
  revert i. induction l as [|h l IH]; intros i; cbn [perform]; [done|]. destruct (throws e n g i h); [set_solver|].
  specialize (IH (S i)). destruct (perform e n g (S i) l). set_solver.
Qed.
Lemma perform_all {P : effect -> bool} n g i l : forallb P l = true -> forallb P (perform e n g i l).1 = true.
Proof.
  rewrite !forallb_forall. intros H f Hf. apply H. apply list_elem_of_In. apply (perform_in n g i), list_elem_of_In, Hf.
Qed.
Lemma perform_done n g i l : (perform e n g i l).2 = None -> (perform e n g i l).1 = l.
Proof.
  revert i. induction l as [|h l IH]; intros i; cbn [perform]; [done|]. destruct (throws e n g i h); [done|].
  specialize (IH (S i)). destruct (perform e n g (S i) l). simpl in *. intros H. by rewrite IH.
Qed.
(** Which write threw. *)
Lemma perform_failed n g i l err : (perform e n g i l).2 = Some err -> exists j f, f ∈ l /\ e_fails e n g j f = Some err.
Proof.
  revert i. induction l as [|h l IH]; intros i; cbn [perform]; [done|]. destruct (throws e n g i h) as [x|] eqn:E.
  - intros [= <-]. exists i, h. split; [set_solver|]. revert E. unfold throws. by destruct h.
  - specialize (IH (S i)). destruct (perform e n g (S i) l). intros H. destruct (IH H) as (j & f & Hf & Hj).
    exists j, f. split; [set_solver|done].
Qed.

(** Effects that neither take nor give back an account and call nobody. *)
Definition quiet (f : effect) : bool :=
  match f with EReserve _ | ERelease _ | ECall _ _ _ _ => false | _ => true end.

Lemma quiet_brackets l : forallb quiet l = true -> brackets l = [].
Proof. induction l as [|f l IH]; simpl; [done|]. destruct f; simpl; done || auto. Qed.

Lemma forallb_app_true {A} (f : A -> bool) l1 l2 :
  forallb f l1 = true -> forallb f l2 = true -> forallb f (l1 ++ l2) = true.
Proof. intros H1 H2. by rewrite forallb_app, H1, H2. Qed.

Lemma quiet_bindAll s c : forallb quiet (bindAll r s c) = true.
Proof. unfold bindAll. by induction (uniqueStickyKeys _ _). Qed.

Lemma quiet_punish s p : forallb quiet (punish r s p) = true.
Proof. unfold punish, applyCooldown, forgetCredential. by repeat case_match. Qed.

Lemma quiet_notify s p : forallb quiet (notifyProxyFailure s p) = true.
Proof. unfold notifyProxyFailure. by case_match. Qed.

Lemma quiet_decide n s st result p : forallb quiet (decide_answer cfg repair r e n s st result p).1 = true.
Proof.
  unfold decide_answer. repeat (case_match; [simpl; apply quiet_bindAll|]).
  destruct (_ && _ && _); [done|]. apply quiet_punish.
Qed.

Lemma on_answer_cases n s st answered commit :
  on_answer cfg repair r e n s st answered commit =
    ([], Thrown JUndef (JStr "Cannot read properties of null (reading 'ok')") commit) \/
  on_answer cfg repair r e n s st answered commit = on_result cfg repair r e n s st (commit_result answered commit) commit.
Proof. destruct answered; auto. Qed.

Lemma on_answer_obj n s st answered commit :
  is_obj answered = true ->
  on_answer cfg repair r e n s st answered commit = on_result cfg repair r e n s st (commit_result answered commit) commit.
Proof. by destruct answered. Qed.

Lemma quiet_log_answer n s result p commit : forallb quiet (log_answer n s result p commit) = true.
Proof.
  unfold log_answer. apply forallb_app_true; [apply quiet_notify|].
  destruct (String.eqb (o_reason p) "fable_plan_denied"); reflexivity.
Qed.

(** What the [try] block does with an answer: a part of what it logs and decides; the decision when nothing threw. *)
Lemma on_result_spec n s st result commit :
  let p := classifyAttempt cfg r e n result s (repaired st) in
  let d := decide_answer cfg repair r e n s (set_last st result p) result p in
  (forall f, f ∈ (on_result cfg repair r e n s st result commit).1 ->
     f ∈ log_answer n s result p commit \/ f ∈ (perform e n Deciding 0 d.1).1) /\
  (((perform e n Deciding 0 d.1).2 = None /\ (on_result cfg repair r e n s st result commit).2 = Done d.2) \/
   exists c m, (on_result cfg repair r e n s st result commit).2 = Thrown c m commit /\
     ((perform e n Deciding 0 d.1).2 = None -> forall f, f ∈ (on_result cfg repair r e n s st result commit).1 -> f ∈ log_answer n s result p commit)).
Proof.
  cbv zeta. unfold on_result. set (p := classifyAttempt cfg r e n result s (repaired st)).
  pose proof (perform_in n Answering 0 (log_answer n s result p commit)) as Hin.
  destruct (perform e n Answering 0 (log_answer n s result p commit)) as [logged err]. simpl in Hin.
  destruct (first_some err (e_on_attempt e n)) as [[c m]|].
  { split; [intros f Hf; left; by apply Hin|]. right. exists c, m. split; [done|]. intros _ f. apply Hin. }
  destruct (decide_answer cfg repair r e n s (set_last st result p) result p) as [l x]. cbn [fst snd].
  destruct (perform e n Deciding 0 l) as [l2 [[c m]|]]; cbn [fst snd].
  all: split; [by intros f [Hf|Hf]%elem_of_app; [left; apply Hin|right]|].
  - right. exists c, m. split; [done|]. done.
  - by left.
Qed.
Lemma on_result_all (P : effect -> bool) n s st result commit :
  let p := classifyAttempt cfg r e n result s (repaired st) in
  forallb P (log_answer n s result p commit) = true -> forallb P (decide_answer cfg repair r e n s (set_last st result p) result p).1 = true ->
  forallb P (on_result cfg repair r e n s st result commit).1 = true.
Proof.
  cbv zeta. intros Hl Hd. rewrite forallb_forall in *. intros f Hf%list_elem_of_In.
  destruct (proj1 (on_result_spec n s st result commit) f Hf) as [H|H]; [by apply Hl, list_elem_of_In|].
  apply Hd, list_elem_of_In. by eapply perform_in.
Qed.

Lemma quiet_on_answer n s st answered commit : forallb quiet (on_answer cfg repair r e n s st answered commit).1 = true.
Proof.
  destruct (on_answer_cases n s st answered commit) as [-> | ->]; [done|].
  apply on_result_all; [apply quiet_log_answer|apply quiet_decide].
Qed.

(** The [catch] block: its plan, or a part of it and the error that the promise is rejected with. *)
Lemma catch_block_spec n s st c m k :
  (forall f, f ∈ (catch_block cfg r e n s st c m k).1 -> f ∈ (catch_plan cfg r e n s st c m k).1) /\
  ((catch_block cfg r e n s st c m k).2 = (catch_plan cfg r e n s st c m k).2 \/ exists err, (catch_block cfg r e n s st c m k).2 = Rejected err).
Proof.
  unfold catch_block. destruct (catch_plan cfg r e n s st c m k) as [l x]. pose proof (perform_in n Catching 0 l) as Hin.
  destruct (perform e n Catching 0 l) as [l2 [err|]]; cbn [fst snd] in *; split; try done; [right|left]; eauto.
Qed.
Lemma catch_all (P : effect -> bool) n s st c m k :
  forallb P (catch_plan cfg r e n s st c m k).1 = true -> forallb P (catch_block cfg r e n s st c m k).1 = true.
Proof.
  rewrite !forallb_forall. intros H f Hf%list_elem_of_In. apply H, list_elem_of_In. by apply catch_block_spec.
Qed.

Lemma quiet_catch n s st c m k : forallb quiet (catch_block cfg r e n s st c m k).1 = true.
Proof.
  apply catch_all. unfold catch_plan. assert (H : forall p x y z, forallb quiet (notifyProxyFailure s p ++ [EComplete n p x y z]) = true).
  { intros. apply forallb_app_true; [apply quiet_notify|done]. }
  destruct (_ || _); simpl; [apply H|]. apply forallb_app_true; [apply H|apply quiet_punish].
Qed.

(** An attempt: at most one call, then quiet effects, then the release. *)
Lemma attempt_shape n s st :
  exists l, forallb quiet l = true /\
    ((attempt n s st).1 = l ++ [ERelease s] \/ exists body meta, (attempt n s st).1 = ECall n s body meta :: l ++ [ERelease s]).
Proof.
  unfold attempt, try_block. destruct (e_apply e n (requestBody st) s (repaired st)) as [prepared k|c m k].
  2: { pose proof (quiet_catch n s st c m false) as H. destruct (catch_block _ _ _ _ _ _ _ _ _) as [l x].
       exists l. split; [done|]. by left. }
  destruct (unwrap_prepared prepared) as [body meta]. destruct (e_call e n body meta s) as [result k'|c m k'].
  2: { pose proof (quiet_catch n s st c m k') as H. destruct (catch_block _ _ _ _ _ _ _ _ _) as [l x].
       exists l. split; [done|]. right. by exists body, meta. }
  pose proof (quiet_on_answer n s st result k') as H. destruct (on_answer _ _ _ _ _ _ _ _ _) as [l [x|c m k2]]; simpl in *.
  - exists l. split; [done|]. right. by exists body, meta.
  - pose proof (quiet_catch n s st c m k2) as H2. destruct (catch_block _ _ _ _ _ _ _ _ _) as [l2 x]. simpl in *.
    exists (l ++ l2). split; [by apply forallb_app_true|]. right. exists body, meta. by rewrite <- app_assoc.
Qed.

Lemma attempt_brackets n s st : brackets (attempt n s st).1 = [inr s].
Proof.
  destruct (attempt_shape n s st) as (l & Hl & [->|(body & meta & ->)]); simpl; rewrite brackets_app, quiet_brackets by done; done.
Qed.

Lemma quiet_opened n s : forallb quiet (perform e n Opening 0 (bindAll r s false ++ [EBegin n s])).1 = true.
Proof. apply perform_all, forallb_app_true; [apply quiet_bindAll|done]. Qed.

(** A write after the reservation of [s] and before the [try] block throws [err]. *)
Definition opening_throws (s : selected) (err : jsval * jsval) : Prop :=
  exists n i f, f ∈ bindAll r s false ++ [EBegin n s] /\ e_fails e n Opening i f = Some err.

(** What an iteration leaves of its reservation: nothing, unless a write before the [try] block threw. *)
Inductive leaves : list (selected + selected) -> list selected -> ending -> Prop :=
| leaves_nothing s x : leaves [inl s; inr s] [s] x
| leaves_held s err : opening_throws s err -> leaves [inl s] [] (Rejected (error_of err))
| leaves_unreserved x : (forall st', x <> Next st') -> leaves [] [] x.

Lemma iteration_brackets n st : exists l, leaves (brackets (iteration n st).1) l (iteration n st).2.
Proof.
  unfold iteration. destruct (e_aborted e n); [exists []; by constructor|]. destruct (_ <=? _)%Z; [exists []; by constructor|].
  destruct (e_select e n (excluded st)) as [s| | | |]; [|exists []; by constructor..].
  pose proof (quiet_opened n s) as Hq. pose proof (perform_failed n Opening 0 (bindAll r s false ++ [EBegin n s])) as Hf.
  destruct (perform e n Opening 0 _) as [opened [err|]]; cbn [fst snd] in *.
  - exists []. simpl. rewrite quiet_brackets by done. apply leaves_held. destruct (Hf err eq_refl) as (i & f & ? & ?). by exists n, i, f.
  - exists [s]. pose proof (attempt_brackets n s st) as H. destruct (attempt n s st) as [l x]. simpl in *.
    rewrite brackets_app, quiet_brackets, H by done. apply leaves_nothing.
Qed.

(** The reservations of a log and its ending: all given back, or all but the last, whose opening threw. *)
Definition bracketed (k : nat) (out : list effect * ending) : Prop :=
  exists l, (brackets out.1 = taken_and_released l /\ (length l <= k)%nat) \/
    exists s err, brackets out.1 = taken_and_released l ++ [inl s] /\ (length l < k)%nat /\ opening_throws s err /\ out.2 = Rejected (error_of err).

Lemma run_from_brackets k n st : bracketed k (run_from k n st).
Proof.
  revert n st. induction k as [|k IH]; intros n st; simpl; [by exists []; left|].
  destruct (iteration_brackets n st) as [l0 Hl]. destruct (iteration n st) as [l x]. simpl in Hl.
  destruct x as [v|v|st'].
  1,2: remember (brackets l) as b eqn:Hb; unfold bracketed; cbn [fst snd]; rewrite <- Hb; inversion Hl as [s ? | s err Ho |]; subst.
  all: try (exists [s]; left; split; [done|simpl; lia]).
  all: try (exists []; left; split; [done|simpl; lia]).
  - exists []. right. exists s, err. split_and!; [done|simpl; lia|done|done].
  - destruct (IH (S n) st') as (l' & Hl'). destruct (run_from k (S n) st') as [l2 x2]. unfold bracketed. cbn [fst snd] in *.
    remember (brackets l) as b eqn:Hb. inversion Hl as [s ? E| |x H]; subst; [|by destruct (H st')].
    exists (s :: l'). rewrite brackets_app, <- E. destruct Hl' as [[-> Hlen]|(s2 & err & -> & Hlen & Ho & Hx)]; [left; split; [done|simpl; lia]|].
    right. exists s2, err. split_and!; [done|simpl; lia|done|done].
Qed.

(** C5: Every account the loop takes is given back exactly once, before the next one is taken and before the request
    ends, on every path of its [try], [catch] and [finally]: answers, errors thrown by the worker, by a hook or by a write
    of the log, of a binding or of a cooldown, cancellations.  There is one exception: a write between the reservation and
    the [try] block (a binding, or the log of the attempt) that throws; the run is then rejected with that error, all
    earlier accounts were given back and that last one was not.  No more accounts are taken than max_total_attempts, so
    the loop ends. *)
Theorem run_releases_each_reservation :
  exists l, (Z.of_nat (length l) <= Z.max 0 (max_total_attempts cfg))%Z /\
    (brackets (run cfg repair r e).1 = taken_and_released l \/
     exists s err, brackets (run cfg repair r e).1 = taken_and_released l ++ [inl s] /\ (Z.of_nat (length l) < max_total_attempts cfg)%Z /\
       opening_throws s err /\ (run cfg repair r e).2 = Rejected (error_of err)).
Proof.
  destruct (run_from_brackets (Z.to_nat (max_total_attempts cfg)) 1 (initial r)) as (l & [[Hl Hlen]|(s & err & Hl & Hlen & Ho & Hx)]).
  - exists l. split; [lia|]. by left.
  - exists l. split; [lia|]. right. exists s, err. split_and!; [done|lia|done|done].
Qed.

(** ** Progress *)

Definition used (st : state) (a : string) : Z := default 0%Z (retries st !! a).

(** What an attempt that goes on did to the loop's variables. *)
Inductive advance (s : selected) (st st' : state) : Prop :=
| adv_repair : repaired st = false -> repaired st' = true -> excluded st' = excluded st -> retries st' = retries st ->
    advance s st st'
| adv_retry : (used st (s_account s) < max_same_account_retries cfg)%Z -> repaired st' = repaired st ->
    excluded st' = excluded st -> retries st' = <[s_account s := (used st (s_account s) + 1)%Z]> (retries st) ->
    advance s st st'
| adv_exclude : repaired st' = repaired st -> excluded st' = excluded (exclude st s) -> retries st' = retries st ->
    advance s st st'.

Lemma same_account_advance n s p result st q st' :
  same_account cfg e n s p (set_last st result q) = Some (Next st') -> advance s st st'.
Proof.
  unfold same_account. destruct (canRetrySameAccount _ _ _ _) eqn:Hc; [|done]. destruct (e_slept e n); [|done].
  intros [= <-]. apply adv_retry; try done. unfold canRetrySameAccount in Hc.
  destruct (retrySameAccount p) as [[]|]; try done. unfold used. simpl in *.
  destruct (max_same_account_retries cfg <=? default 0 (retries st !! s_account s))%Z eqn:E; [done|]. lia.
Qed.

Lemma decide_advance n s st result p q st' :
  (decide_answer cfg repair r e n s (set_last st result q) result p).2 = Next st' -> advance s st st'.
Proof.
  unfold decide_answer. destruct (String.eqb _ _); [done|]. destruct (verifiedSuccess result); [done|].
  destruct (bool_decide (o_action p = RepairAndRetry)) eqn:Ha; simpl.
  - destruct (repaired st) eqn:Hr, (truthy (result?."committed")); simpl;
      try (unfold shouldContinue; apply bool_decide_eq_true in Ha; rewrite Ha; done).
    intros [= <-]. by apply adv_repair.
  - destruct (negb (shouldContinue p)); [done|].
    destruct (same_account cfg e n s p _) as [x|] eqn:Hs.
    + intros ->. by eapply same_account_advance.
    + destruct (_ <? _)%Z; [done|]. intros [= <-]. by apply adv_exclude.
Qed.

Lemma catch_advance n s st c m k st' : (catch_block cfg r e n s st c m k).2 = Next st' -> advance s st st'.
Proof.
  destruct (proj2 (catch_block_spec n s st c m k)) as [->|[err ->]]; [|done].
  unfold catch_plan. cbv zeta. destruct (_ || _); [done|]. simpl.
  destruct (same_account cfg e n s _ _) as [x|] eqn:Hs.
  - intros ->. by eapply same_account_advance.
  - intros [= <-]. by apply adv_exclude.
Qed.

Lemma attempt_advance n s st st' : (attempt n s st).2 = Next st' -> advance s st st'.
Proof.
  unfold attempt. destruct (try_block cfg repair r e n s st) as [l x] eqn:Ht.
  destruct x as [x|c m k]; simpl.
  - intros ->. unfold try_block in Ht. destruct (e_apply e n (requestBody st) s (repaired st)); [|done].
    destruct (unwrap_prepared result) as [body meta]. destruct (e_call e n body meta s) as [answered k|]; [|done].
    destruct (on_answer_cases n s st answered k) as [Ho|Ho]; rewrite Ho in Ht; [done|].
    set (res := commit_result answered k) in *.
    destruct (proj2 (on_result_spec n s st res k)) as [[_ Hd]|(c & m & Hd & _)]; destruct (on_result cfg repair r e n s st res k) as [l0 x0];
      simplify_eq/=. by eapply decide_advance.
  - pose proof (catch_advance n s st c m k) as Hc. destruct (catch_block _ _ _ _ _ _ _ _ _) as [l2 x]. simpl. apply Hc.
Qed.

(** Calls made on an account. *)
Definition call_on (a : string) (f : effect) : bool :=
  match f with ECall _ s _ _ => String.eqb (s_account s) a | _ => false end.
Definition calls (a : string) (l : list effect) : nat := length (List.filter (call_on a) l).

Lemma calls_app a l1 l2 : calls a (l1 ++ l2) = (calls a l1 + calls a l2)%nat.
Proof. unfold calls. by rewrite List.filter_app, length_app. Qed.

Lemma calls_quiet a l : forallb quiet l = true -> calls a l = 0%nat.
Proof. unfold calls. induction l as [|f l IH]; simpl; [done|]. destruct f; simpl; done || auto. Qed.

Lemma attempt_calls a n s st : (calls a (attempt n s st).1 <= (if String.eqb (s_account s) a then 1 else 0))%nat.
Proof.
  destruct (attempt_shape n s st) as (l & Hl & [->|(body & meta & ->)]).
  - rewrite calls_app, calls_quiet by done. unfold calls. simpl. case_match; lia.
  - change (ECall n s body meta :: l ++ [ERelease s]) with ([ECall n s body meta] ++ l ++ [ERelease s]).
    rewrite !calls_app, (calls_quiet a l) by done. unfold calls. simpl. destruct (String.eqb (s_account s) a); simpl; lia.
Qed.

(** How often an account may still be called. *)
Definition budget (st : state) (a : string) : Z :=
  if bool_decide (a ∈ excluded st) then 0
  else (1 + Z.max 0 (max_same_account_retries cfg - used st a) + (if repaired st then 0 else 1))%Z.

Lemma budget_nonneg st a : (0 <= budget st a)%Z.
Proof. unfold budget. repeat case_match; lia. Qed.

Lemma elem_of_add_once x y l : x ∈ add_once y l <-> x = y \/ x ∈ l.
Proof. unfold add_once. case_bool_decide; rewrite ?elem_of_app, ?list_elem_of_singleton; [|tauto].
  split; [auto|intros [->|?]; auto]. Qed.

Lemma budget_in st a : a ∈ excluded st -> budget st a = 0%Z.
Proof. intros H. unfold budget. by rewrite bool_decide_eq_true_2. Qed.
Lemma budget_out st a : a ∉ excluded st ->
  budget st a = (1 + Z.max 0 (max_same_account_retries cfg - used st a) + (if repaired st then 0 else 1))%Z.
Proof. intros H. unfold budget. by rewrite bool_decide_eq_false_2. Qed.

(** An attempt on an account uses up one of its calls. *)
Lemma advance_budget s st st' a :
  s_account s ∉ excluded st -> advance s st st' ->
  (budget st' a + (if String.eqb (s_account s) a then 1 else 0) <= budget st a)%Z.
Proof.
  intros Hs Hadv. destruct (String.eqb_spec (s_account s) a) as [<-|Hne].
  - rewrite (budget_out st) by done. destruct Hadv as [Hr Hr' He Ht|Hu Hr He Ht|Hr He Ht].
    + rewrite budget_out by (by rewrite He). unfold used. rewrite Ht, Hr, Hr'. lia.
    + rewrite budget_out by (by rewrite He). unfold used in *. rewrite Ht, lookup_insert_eq, Hr. simpl. lia.
    + rewrite budget_in by (rewrite He; simpl; rewrite !elem_of_add_once; auto). case_match; lia.
  - rewrite Z.add_0_r. destruct (decide (a ∈ excluded st)) as [Hin|Hin].
    { rewrite !budget_in; [done|done|]. destruct Hadv as [_ _ He _|_ _ He _|_ He _]; rewrite He; [done..|].
      simpl. rewrite !elem_of_add_once. auto. }
    rewrite (budget_out st) by done. destruct Hadv as [Hr Hr' He Ht|Hu Hr He Ht|Hr He Ht].
    + rewrite budget_out by (by rewrite He). unfold used. rewrite Ht, Hr, Hr'. lia.
    + rewrite budget_out by (by rewrite He). unfold used. rewrite Ht, lookup_insert_ne, Hr by done. lia.
    + unfold budget, used. rewrite Ht, Hr. destruct (bool_decide _), (repaired st); lia.
Qed.

(** The scheduler never hands out an account that was excluded. *)
Definition select_fresh : Prop :=
  forall n ex s, e_select e n ex = Selected s -> (s_account s ∉ ex) /\ (s_vm s ∉ ex).

Lemma run_from_calls k n st a : select_fresh -> (Z.of_nat (calls a (run_from k n st).1) <= budget st a)%Z.
Proof.
  intros Hsel. revert n st. induction k as [|k IH]; intros n st; simpl; [apply budget_nonneg|].
  unfold iteration. destruct (e_aborted e n); [apply budget_nonneg|]. destruct (_ <=? _)%Z; [apply budget_nonneg|].
  destruct (e_select e n (excluded st)) as [s| | | |] eqn:Hs; try apply budget_nonneg.
  apply Hsel in Hs as [Hs _]. pose proof (quiet_opened n s) as Hq. destruct (perform e n Opening 0 _) as [opened [err|]]; cbn [fst] in Hq.
  { change (EReserve s :: opened) with ([EReserve s] ++ opened). cbn [fst]. rewrite calls_app, (calls_quiet a opened) by done. apply budget_nonneg. }
  pose proof (attempt_calls a n s st) as Hc. pose proof (attempt_advance n s st) as Hadv.
  destruct (attempt n s st) as [l x]. simpl in *.
  assert (Hb : calls a (EReserve s :: opened ++ l) = calls a l).
  { change (EReserve s :: opened ++ l) with ([EReserve s] ++ opened ++ l). rewrite !calls_app, (calls_quiet a opened) by done. done. }
  assert (H1 : (Z.of_nat (calls a l) <= budget st a)%Z).
  { destruct (String.eqb_spec (s_account s) a) as [<-|]; [|pose proof (budget_nonneg st a); lia].
    unfold budget. rewrite bool_decide_eq_false_2 by done. case_match; lia. }
  destruct x as [v|v|st']; simpl; rewrite ?Hb; try done.
  specialize (IH (S n) st'). destruct (run_from k (S n) st') as [l2 x2]. simpl in *.
  change (EReserve s :: (opened ++ l) ++ l2) with ((EReserve s :: opened ++ l) ++ l2).
  rewrite (calls_app a (EReserve s :: opened ++ l) l2), Hb. pose proof (advance_budget s st st' a Hs (Hadv st' eq_refl)).
  destruct (String.eqb (s_account s) a); lia.
Qed.

(** C14: With a scheduler that honours exclusions, one request calls an account at most
    once, plus its allowed same-account retries, plus one retry of a repaired body:
    a failing account is never hammered. *)
Theorem run_calls_bounded a :
  select_fresh ->
  (Z.of_nat (calls a (run cfg repair r e).1) <= 2 + Z.max 0 (max_same_account_retries cfg))%Z.
Proof.
  intros Hsel. pose proof (run_from_calls (Z.to_nat (max_total_attempts cfg)) 1 (initial r) a Hsel) as H.
  unfold budget, used in H. simpl in H. rewrite lookup_empty in H. simpl in H. unfold run.
  lia.
Qed.

(** ** Committed answers *)

(** The worker answers with objects and reports a commit through [onCommit]. *)
Definition honest : Prop :=
  forall n body meta s result commit, e_call e n body meta s = Answered result commit ->
    is_obj result = true /\ (truthy (result?."committed") = true -> commit = true).

(** The one policy that goes on after a commit: the grant is dead. *)
Definition grant_exception (p : outcome) : Prop := exists o, p = refuse_grant o.

Definition committed_hop (f : effect) (p : outcome) : Prop := exists n ts u, f = EComplete n p true ts u.
Definition is_call (f : effect) : bool := match f with ECall _ _ _ _ => true | _ => false end.

Lemma commit_result_flag answered commit :
  is_obj answered = true -> (truthy (answered?."committed") = true -> commit = true) ->
  truthy (commit_result answered commit?."committed") = commit /\
  truthy (commit_result answered commit?."committed") || commit = commit.
Proof.
  intros Ho Hc. unfold commit_result. assert (truthy answered = true) as -> by by destruct answered.
  rewrite get_with_field_eq. unfold or_else. destruct (truthy (answered?."committed")) eqn:E.
  - rewrite E. by rewrite Hc.
  - simpl. by destruct commit.
Qed.

(** After a committed answer the decision goes on only for a dead grant. *)
Lemma decide_committed n s st result rep st' :
  committed result = true ->
  (decide_answer cfg repair r e n s st result (classifyAttempt cfg r e n result s rep)).2 = Next st' ->
  grant_exception (classifyAttempt cfg r e n result s rep).
Proof.
  intros Hc. unfold classifyAttempt. set (o := Build_options _ _ _ _ _ _ _).
  destruct (committed_never_retried result o Hc) as [Ha|[Ha|Ha]]; [..|by exists o].
  all: unfold decide_answer, shouldContinue; rewrite Ha; repeat (destruct (String.eqb _ _); [done|]);
    destruct (verifiedSuccess result); [done|]; simpl; done.
Qed.

(** Entries that complete no attempt. *)
Definition incomplete (f : effect) : bool := match f with EComplete _ _ _ _ _ => false | _ => true end.

Lemma incomplete_in l f p : forallb incomplete l = true -> f ∈ l -> ~ committed_hop f p.
Proof.
  intros Hl Hf (m & ts & u & ->). apply list_elem_of_In in Hf. rewrite forallb_forall in Hl. by specialize (Hl _ Hf).
Qed.

Lemma incomplete_notify s p : forallb incomplete (notifyProxyFailure s p) = true.
Proof. unfold notifyProxyFailure. by case_match. Qed.
Lemma incomplete_punish s p : forallb incomplete (punish r s p) = true.
Proof. unfold punish, applyCooldown, forgetCredential. by repeat case_match. Qed.
Lemma incomplete_bindAll s c : forallb incomplete (bindAll r s c) = true.
Proof. unfold bindAll. by induction (uniqueStickyKeys _ _). Qed.
Lemma incomplete_decide n s st result p : forallb incomplete (decide_answer cfg repair r e n s st result p).1 = true.
Proof.
  unfold decide_answer. repeat (case_match; [simpl; apply incomplete_bindAll|]).
  destruct (_ && _ && _); [done|]. apply incomplete_punish.
Qed.

Lemma catch_completions n s st c m k f p :
  f ∈ (catch_block cfg r e n s st c m k).1 -> committed_hop f p -> k = true.
Proof.
  intros Hf%catch_block_spec Hp. unfold catch_plan in Hf.
  assert (Hin : forall q x y z, f ∈ notifyProxyFailure s q ++ [EComplete n q x y z] -> x = true).
  { intros q x y z [H|H]%elem_of_app; [by destruct (incomplete_in _ f p (incomplete_notify s q) H)|].
    apply list_elem_of_singleton in H as ->. by destruct Hp as (m' & ts & u & [= _ _ -> _ _]). }
  destruct (_ || _); simpl in Hf; [by eapply Hin|]. apply elem_of_app in Hf as [Hf|Hf]; [by eapply Hin|].
  by destruct (incomplete_in _ f p (incomplete_punish s _) Hf).
Qed.

Lemma catch_next_uncommitted n s st c m k st' : (catch_block cfg r e n s st c m k).2 = Next st' -> k = false.
Proof. destruct (proj2 (catch_block_spec n s st c m k)) as [->|[err ->]]; [|done]. unfold catch_plan. by destruct k. Qed.
(** The completion an answer logs carries its commit flag and its policy. *)
Lemma log_answer_completion n s result q commit f p :
  f ∈ log_answer n s result q commit -> committed_hop f p -> truthy (result?."committed") || commit = true /\ p = q.
Proof.
  unfold log_answer. intros [H|[H|H]%elem_of_app]%elem_of_app Hp.
  - by destruct (incomplete_in _ f p (incomplete_notify s q) H).
  - exfalso. revert H Hp. apply incomplete_in. destruct (String.eqb (o_reason q) "fable_plan_denied"); reflexivity.
  - destruct Hp as (m' & ts' & u' & ->). apply elem_of_cons in H as [H|[=]%list_elem_of_singleton].
    injection H as _ -> Hk _ _. done.
Qed.

Lemma on_result_completion n s st result commit f p :
  f ∈ (on_result cfg repair r e n s st result commit).1 -> committed_hop f p ->
  truthy (result?."committed") || commit = true /\ p = classifyAttempt cfg r e n result s (repaired st).
Proof.
  intros Hf Hp. destruct (proj1 (on_result_spec n s st result commit) f Hf) as [H|H]; [by eapply log_answer_completion|].
  apply perform_in in H. by destruct (incomplete_in _ f p (incomplete_decide n s _ result _) H).
Qed.

(** How [on_result] goes on after a commit. *)
Lemma on_result_committed n s st result commit st' :
  committed result = true -> (on_result cfg repair r e n s st result commit).2 = Done (Next st') ->
  grant_exception (classifyAttempt cfg r e n result s (repaired st)).
Proof.
  intros Hc. destruct (proj2 (on_result_spec n s st result commit)) as [[_ ->]|(c & m & -> & _)]; [|done].
  intros [= H]. by eapply decide_committed.
Qed.

Lemma on_result_thrown n s st result commit c m k :
  (on_result cfg repair r e n s st result commit).2 = Thrown c m k -> k = commit.
Proof.
  destruct (proj2 (on_result_spec n s st result commit)) as [[_ ->]|(c' & m' & -> & _)]; [done|]. by intros [= _ _ <-].
Qed.

Lemma attempt_committed n s st st' f p :
  honest -> f ∈ (attempt n s st).1 -> committed_hop f p -> (attempt n s st).2 = Next st' -> grant_exception p.
Proof.
  intros Hh Hf Hp Hn. unfold attempt in *. destruct (try_block cfg repair r e n s st) as [l x] eqn:Ht.
  assert (Hcatch : forall c m k, x = Thrown c m k ->
    f ∈ (let '(l', x') := catch_block cfg r e n s st c m k in l') -> False).
  { intros c m k -> Hin. pose proof (catch_completions n s st c m k f p) as H1.
    pose proof (catch_next_uncommitted n s st c m k st') as H2. destruct (catch_block _ _ _ _ _ _ _ _ _) as [l2 x2].
    simpl in *. rewrite H1 in H2 by done. by specialize (H2 Hn). }
  assert (Hl : f ∈ l).
  { destruct x as [x|c m k].
    - simpl in Hf. apply elem_of_app in Hf as [?|Hf]; [done|]. apply list_elem_of_singleton in Hf as ->.
      by destruct Hp as (? & ? & ? & ?).
    - specialize (Hcatch c m k eq_refl). destruct (catch_block _ _ _ _ _ _ _ _ _) as [l2 x2]. simpl in *.
      apply elem_of_app in Hf as [?|[?|Hf]%elem_of_app]; [done|by destruct Hcatch|].
      apply list_elem_of_singleton in Hf as ->. by destruct Hp as (? & ? & ? & ?). }
  clear Hf. unfold try_block in Ht. destruct (e_apply e n (requestBody st) s (repaired st)) as [prepared k0|];
    [|simplify_eq; set_solver].
  destruct (unwrap_prepared prepared) as [body meta]. destruct (e_call e n body meta s) as [answered k|] eqn:Hcall.
  2: { simplify_eq. apply list_elem_of_singleton in Hl as ->. by destruct Hp as (? & ? & ? & ?). }
  destruct (Hh _ _ _ _ _ _ Hcall) as [Ho Hk]. rewrite on_answer_obj in Ht by done.
  destruct (commit_result_flag answered k Ho Hk) as [Hflag Hor]. generalize dependent (commit_result answered k). intros res Ht Hflag Hor.
  pose proof (on_result_completion n s st res k f p) as Hcomp. pose proof (on_result_committed n s st res k st') as Hgo.
  pose proof (on_result_thrown n s st res k) as Hthrow.
  destruct (on_result cfg repair r e n s st res k) as [l0 x0]. simplify_eq. simpl in *.
  apply elem_of_cons in Hl as [->|Hl]; [by destruct Hp as (? & ? & ? & ?)|].
  destruct (Hcomp Hl Hp) as [Hk1 ->]. rewrite Hor in Hk1.
  destruct x as [x|c m k2].
  - simpl in Hn. subst x. by apply Hgo.
  - rewrite (Hthrow c m k2 eq_refl), Hk1 in Hn. pose proof (catch_next_uncommitted n s st c m true st') as H2.
    destruct (catch_block _ _ _ _ _ _ _ _ _). by specialize (H2 Hn).
Qed.

(** After a committed hop of the log, no call follows, unless its grant was dead. *)
Definition commit_final (l : list effect) : Prop :=
  forall l1 f l2 p, l = l1 ++ f :: l2 -> committed_hop f p -> forallb (fun g => negb (is_call g)) l2 = true \/ grant_exception p.

Lemma quiet_no_call l : forallb quiet l = true -> forallb (fun g => negb (is_call g)) l = true.
Proof. induction l as [|f l IH]; simpl; [done|]. destruct f; simpl; done || auto. Qed.

Lemma app_cons_split {A} (l1 l2 m1 m2 : list A) f :
  l1 ++ l2 = m1 ++ f :: m2 -> (exists k, l1 = m1 ++ f :: k /\ m2 = k ++ l2) \/ (exists k, m1 = l1 ++ k /\ l2 = k ++ f :: m2).
Proof.
  revert m1. induction l1 as [|x l1 IH]; intros m1 H; simpl in *; [right; by exists m1|].
  destruct m1 as [|y m1]; simpl in *; injection H as -> H; [left; by exists l1|].
  destruct (IH m1 H) as [(k & -> & ->)|(k & -> & ->)]; [left|right]; by exists k.
Qed.

(** Calls come first in an attempt, so nothing is called after a completion of it. *)
Lemma attempt_commit_final n s st : commit_final (attempt n s st).1.
Proof.
  destruct (attempt_shape n s st) as (l & Hl & H). intros l1 f l2 p Heq Hp. left.
  assert (Hq : forall m, l ++ [ERelease s] = m ++ f :: l2 -> forallb (fun g => negb (is_call g)) l2 = true).
  { intros m Hm. assert (Hall : forallb (fun g => negb (is_call g)) (l ++ [ERelease s]) = true).
    { rewrite forallb_app, quiet_no_call by done. done. }
    rewrite Hm, forallb_app in Hall. apply andb_true_iff in Hall as [_ Hall]. simpl in Hall.
    by apply andb_true_iff in Hall as [_ Hall]. }
  destruct H as [H|(body & meta & H)]; rewrite H in Heq; [by apply (Hq l1)|].
  destruct l1 as [|g l1]; simplify_eq/=; [by destruct Hp as (? & ? & ? & ?)|by apply (Hq l1)].
Qed.

Lemma commit_final_app l1 l2 :
  commit_final l1 -> commit_final l2 -> (forall f p, f ∈ l1 -> committed_hop f p -> grant_exception p) -> commit_final (l1 ++ l2).
Proof.
  intros H1 H2 Hex m1 f m2 p Heq Hp. apply app_cons_split in Heq as [(k & -> & ->)|(k & -> & ->)].
  - right. apply (Hex f p); [set_solver|done].
  - by apply (H2 k f m2 p).
Qed.

Lemma incomplete_commit_final l : forallb incomplete l = true -> commit_final l.
Proof. intros Hl l1 f l2 p -> Hp. destruct (incomplete_in _ f p Hl); [set_solver|done]. Qed.

Lemma prefix_commit_final l1 l2 : forallb incomplete l1 = true -> commit_final l2 -> commit_final (l1 ++ l2).
Proof.
  intros H1 H2. apply commit_final_app; [by apply incomplete_commit_final|done|].
  intros f p Hf Hp. by destruct (incomplete_in _ f p H1 Hf).
Qed.

Lemma incomplete_opened n s : forallb incomplete (perform e n Opening 0 (bindAll r s false ++ [EBegin n s])).1 = true.
Proof. apply perform_all, forallb_app_true; [apply incomplete_bindAll|done]. Qed.

Lemma run_from_commit_final k n st : honest -> commit_final (run_from k n st).1.
Proof.
  intros Hh. revert n st. induction k as [|k IH]; intros n st; simpl; [by apply incomplete_commit_final|].
  unfold iteration. destruct (e_aborted e n); [by apply incomplete_commit_final|].
  destruct (_ <=? _)%Z; [by apply incomplete_commit_final|].
  destruct (e_select e n (excluded st)) as [s| | | |]; try by apply incomplete_commit_final.
  pose proof (incomplete_opened n s) as Ho. destruct (perform e n Opening 0 _) as [opened [err|]]; cbn [fst] in Ho.
  { by apply (incomplete_commit_final (EReserve s :: opened)). }
  pose proof (attempt_commit_final n s st) as Hf. pose proof (attempt_committed n s st) as Hc.
  destruct (attempt n s st) as [l x]. simpl in *.
  assert (Hpre : forall l', commit_final l' -> commit_final (EReserve s :: opened ++ l')).
  { intros l' Hl'. by apply (prefix_commit_final (EReserve s :: opened)). }
  destruct x as [v|v|st']; simpl; [by apply Hpre..|].
  specialize (IH (S n) st'). destruct (run_from k (S n) st') as [l2 x2]. simpl in *.
  rewrite <- app_assoc. apply Hpre. apply commit_final_app; [done..|]. intros f p Hin Hp. by eapply Hc.
Qed.

(** C13: Once a part of an answer went downstream, the loop calls no other account for
    this request: after a committed hop there is no further call, whatever the hop
    ended with, except when its policy is that of a dead grant. *)
Theorem committed_hop_is_last : honest -> commit_final (run cfg repair r e).1.
Proof. intros Hh. by apply run_from_commit_final. Qed.
(** ** Credit *)

(** The end of a run that credits account [s]: a verified answer, or a silent refusal. *)
Definition credited (s : selected) (x : ending) : Prop :=
  exists n result,
    (verifiedSuccess result = true /\ x = Returned (final result s n (JStr "verified") None)) \/
    (isSilentClaudeRefusal result = true /\ exists p, x = Returned (final result s n (JStr "content_filter") (Some p))).

Definition uncredited (f : effect) : bool := match f with EMarkSuccess _ => false | _ => true end.

Lemma uncredited_in l s : forallb uncredited l = true -> EMarkSuccess s ∈ l -> False.
Proof. intros Hl Hs%list_elem_of_In. rewrite forallb_forall in Hl. by specialize (Hl _ Hs). Qed.

Lemma uncredited_bindAll s c : forallb uncredited (bindAll r s c) = true.
Proof. unfold bindAll. by induction (uniqueStickyKeys _ _). Qed.
Lemma uncredited_punish s p : forallb uncredited (punish r s p) = true.
Proof. unfold punish, applyCooldown, forgetCredential. by repeat case_match. Qed.
Lemma uncredited_notify s p : forallb uncredited (notifyProxyFailure s p) = true.
Proof. unfold notifyProxyFailure. by case_match. Qed.

Lemma uncredited_catch n s st c m k : forallb uncredited (catch_block cfg r e n s st c m k).1 = true.
Proof.
  apply catch_all. unfold catch_plan. assert (H : forall q x y z, forallb uncredited (notifyProxyFailure s q ++ [EComplete n q x y z]) = true).
  { intros. apply forallb_app_true; [apply uncredited_notify|done]. }
  destruct (_ || _); simpl; [apply H|]. apply forallb_app_true; [apply H|apply uncredited_punish].
Qed.

Lemma uncredited_log_answer n s result p commit : forallb uncredited (log_answer n s result p commit) = true.
Proof.
  unfold log_answer. apply forallb_app_true; [apply uncredited_notify|].
  destruct (String.eqb (o_reason p) "fable_plan_denied"); reflexivity.
Qed.

(** Only a silent refusal is reported as filtered content. *)
Lemma refusal_reason result o :
  o_reason (classifyUpstreamResult result o) = "content_filter_refusal" -> isSilentClaudeRefusal result = true.
Proof.
  unfold classifyUpstreamResult, classify_message. destruct (isSilentClaudeRefusal result); [done|]. simpl.
  assert (Hf : forall f, modelFamily (opt_model o) = Some f -> (f ++ "_rate_limited")%string <> "content_filter_refusal").
  { intros f Hf%find_some. destruct Hf as [Hf _]. simpl in Hf. by destruct Hf as [<-|[<-|[<-|[<-|[]]]]]. }
  assert (Hh : forall x, ("http_" ++ x)%string <> "content_filter_refusal") by done.
  unfold classify_auth, classify_status, classify_transport, classify_400, classify_403, classify_429,
    classify_5xx, refuse_grant, continueWithoutCooldown, on_model. cbv zeta. policy_cases; simpl; intros H; try discriminate;
    by apply Hf in H || by apply Hh in H.
Qed.

Lemma decide_credit n s st result rep s' :
  EMarkSuccess s' ∈ (decide_answer cfg repair r e n s st result (classifyAttempt cfg r e n result s rep)).1 ->
  s' = s /\ credited s (decide_answer cfg repair r e n s st result (classifyAttempt cfg r e n result s rep)).2.
Proof.
  unfold decide_answer.
  assert (Hh : EMarkSuccess s' ∈ EMarkSuccess s :: bindAll r s true -> s' = s).
  { intros [[= ->]|H]%elem_of_cons; [done|]. by destruct (uncredited_in _ s' (uncredited_bindAll s true) H). }
  destruct (String.eqb_spec (o_reason (classifyAttempt cfg r e n result s rep)) "content_filter_refusal") as [Hr|Hr].
  { intros Hs. split; [by apply Hh|]. exists n, result. right. split; [by apply refusal_reason in Hr|]. eauto. }
  destruct (verifiedSuccess result) eqn:Hv.
  { intros Hs. split; [by apply Hh|]. exists n, result. by left. }
  destruct (_ && _ && _); simpl; [set_solver|]. intros H.
  by destruct (uncredited_in _ s' (uncredited_punish s _) H).
Qed.

Lemma uncredited_opened n s : forallb uncredited (perform e n Opening 0 (bindAll r s false ++ [EBegin n s])).1 = true.
Proof. apply perform_all, forallb_app_true; [apply uncredited_bindAll|done]. Qed.

(** The bindings that follow a credit do not throw. *)
Definition credit_bound : Prop := forall n i key acc vm, e_fails e n Deciding i (EBind key acc vm true) = None.

(** Nothing throws after a credit. *)
Lemma credit_performed n s st result p s' : credit_bound ->
  EMarkSuccess s' ∈ (perform e n Deciding 0 (decide_answer cfg repair r e n s st result p).1).1 ->
  (perform e n Deciding 0 (decide_answer cfg repair r e n s st result p).1).2 = None.
Proof.
  intros Hb. assert (Hbinds : forall l i, (perform e n Deciding i (List.map (fun k => EBind k (s_account s) (s_vm s) true) l)).2 = None).
  { induction l as [|k l IH]; intros i; [done|]. cbn [List.map perform throws]. rewrite Hb. specialize (IH (S i)).
    by destruct (perform e n Deciding (S i) _). }
  assert (Hm : (EMarkSuccess s' ∈ (perform e n Deciding 0 (EMarkSuccess s :: bindAll r s true)).1) ->
    (perform e n Deciding 0 (EMarkSuccess s :: bindAll r s true)).2 = None).
  { cbn [perform]. destruct (throws e n Deciding 0 (EMarkSuccess s)); [set_solver|]. intros _. unfold bindAll.
    specialize (Hbinds (uniqueStickyKeys (rq_stickyKey r) (rq_stickyKeys r)) 1%nat). by destruct (perform e n Deciding 1 _). }
  unfold decide_answer. destruct (String.eqb _ _); [exact Hm|]. destruct (verifiedSuccess result); [exact Hm|].
  destruct (_ && _ && _); cbn [fst]; [done|]. intros H%perform_in. by destruct (uncredited_in _ s' (uncredited_punish s p) H).
Qed.

Lemma on_result_credit n s st result commit s' : credit_bound ->
  EMarkSuccess s' ∈ (on_result cfg repair r e n s st result commit).1 ->
  s' = s /\ exists x, (on_result cfg repair r e n s st result commit).2 = Done x /\ credited s x.
Proof.
  intros Hb Hin. destruct (on_result_spec n s st result commit) as [Hl Hx].
  set (q := classifyAttempt cfg r e n result s (repaired st)) in *.
  assert (Hlog : EMarkSuccess s' ∉ log_answer n s result q commit).
  { intros H. exact (uncredited_in _ s' (uncredited_log_answer n s result q commit) H). }
  destruct (Hl _ Hin) as [H|H]; [done|]. pose proof (credit_performed n s _ result q s' Hb H) as Hn.
  destruct Hx as [[_ Hx]|(c & m & _ & Hx)]; [|by destruct Hlog; apply Hx].
  apply perform_in in H. destruct (decide_credit n s (set_last st result q) result (repaired st) s' H) as [-> Hc]. eauto.
Qed.

Lemma try_credit n s st s' : credit_bound ->
  EMarkSuccess s' ∈ (try_block cfg repair r e n s st).1 ->
  s' = s /\ exists x, (try_block cfg repair r e n s st).2 = Done x /\ credited s x.
Proof.
  intros Hb. unfold try_block. destruct (e_apply e n (requestBody st) s (repaired st)) as [prepared k|c m k]; [|set_solver].
  destruct (unwrap_prepared prepared) as [body meta].
  destruct (e_call e n body meta s) as [answered k'|c m k']; [|by intros [=]%list_elem_of_singleton].
  destruct (on_answer_cases n s st answered k') as [-> | ->]; [by intros [=]%list_elem_of_singleton|].
  pose proof (on_result_credit n s st (commit_result answered k') k' s' Hb) as H.
  destruct (on_result cfg repair r e n s st _ k') as [l x]. simpl in *. by intros [[=]|Hin]%elem_of_cons; apply H.
Qed.

Lemma attempt_credit n s st s' : credit_bound -> EMarkSuccess s' ∈ (attempt n s st).1 -> s' = s /\ credited s (attempt n s st).2.
Proof.
  intros Hb. unfold attempt. pose proof (try_credit n s st s' Hb) as Ht. destruct (try_block cfg repair r e n s st) as [l x].
  simpl in Ht. destruct x as [x|c m k].
  - simpl. intros [H|[=]%list_elem_of_singleton]%elem_of_app. destruct (Ht H) as (-> & x' & [= <-] & Hx). done.
  - pose proof (uncredited_catch n s st c m k) as Hc. destruct (catch_block cfg r e n s st c m k) as [l2 x2]. simpl in *.
    intros [H|[H|[=]%list_elem_of_singleton]%elem_of_app]%elem_of_app.
    + by destruct (Ht H) as (_ & x' & ? & _).
    + by destruct (uncredited_in _ s' Hc H).
Qed.

(** C21: An account is credited with a success only when the request ends right there
    with its answer: a verified, complete message, or a refusal without visible text
    that is passed on as filtered content.  This is of runs in which the bindings that
    follow a credit are written; any other write may throw. *)
Theorem credited_only_for_delivered s :
  credit_bound -> EMarkSuccess s ∈ (run cfg repair r e).1 -> credited s (run cfg repair r e).2.
Proof.
  intros Hb. unfold run. generalize (Z.to_nat (max_total_attempts cfg)), 1%nat, (initial r).
  induction n as [|k IH]; intros n st; simpl; [set_solver|].
  unfold iteration. destruct (e_aborted e n); [set_solver|]. destruct (_ <=? _)%Z; [set_solver|].
  destruct (e_select e n (excluded st)) as [s0| | | |]; try set_solver.
  pose proof (uncredited_opened n s0) as Ho. destruct (perform e n Opening 0 _) as [opened [err|]]; cbn [fst] in Ho.
  { simpl. intros [[=]|H]%elem_of_cons. by destruct (uncredited_in _ s Ho H). }
  pose proof (attempt_credit n s0 st s Hb) as Hc. destruct (attempt n s0 st) as [l x]. simpl in *.
  assert (Hl : EMarkSuccess s ∈ EReserve s0 :: opened ++ l -> EMarkSuccess s ∈ l).
  { intros [[=]|[H|H]%elem_of_app]%elem_of_cons; [|done]. by destruct (uncredited_in _ s Ho H). }
  destruct x as [v|v|st']; simpl.
  - intros H%Hl. by destruct (Hc H) as [-> Hx].
  - intros H%Hl. by destruct (Hc H) as [-> Hx].
  - specialize (IH (S n) st'). destruct (run_from k (S n) st') as [l2 x2]. simpl in *.
    change (EReserve s0 :: (opened ++ l) ++ l2) with ((EReserve s0 :: opened ++ l) ++ l2).
    intros [H%Hl|H]%elem_of_app; [|by apply IH].
    destruct (Hc H) as [-> (m & result & [[_ [=]]|[_ [p [=]]]])].
Qed.
End Facts.

(** ** Concrete runs *)

Definition account (name : string) : selected := {| s_account := name; s_vm := ("vm-" ++ name)%string; s_obj := JObj [] |}.
Definition free (ex : list string) (s : selected) : bool := negb (bool_decide (s_account s ∈ ex)) && negb (bool_decide (s_vm s ∈ ex)).
Definition sample_env (accounts : list selected) (call : selected -> answer) : env :=
  {| e_started := 0; e_now := fun n => Z.of_nat n; e_aborted := fun _ => false;
     e_select := fun _ ex => match List.find (free ex) accounts with Some s => Selected s | None => NotSelected JUndef end;
     e_apply := fun _ body _ _ => Answered body false; e_call := fun _ _ _ s => call s; e_on_attempt := fun _ => None;
     e_fails := fun _ _ _ _ => None;
     e_classify_now := fun _ => num_of_Z 1700000000000; e_hop_ms := fun _ => 60000%Z; e_slept := fun _ => true;
     e_account := fun _ => JNull |}.
Definition sample_request : request :=
  {| rq_body := JObj []; rq_model := JStr "claude-opus-4-6"; rq_stickyKey := JStr "k"; rq_stickyKeys := JUndef; rq_pinVmId := JNull |}.
Definition no_repair (body : jsval) (p : outcome) : jsval := body.
Definition two_accounts : list selected := [account "a"; account "b"].
Definition verified_answer : jsval :=
  JObj [("ok", JBool true); ("terminalState", JStr "verified"); ("status", jint 200);
        ("body", JObj [("type", JStr "message"); ("stop_reason", JStr "end_turn");
           ("content", JArr [JObj [("type", JStr "text"); ("text", JStr "hi")]])])].
(** The first account is overloaded, the second answers. *)
Definition failover_env : env :=
  sample_env two_accounts (fun s => if String.eqb (s_account s) "a" then Answered (JObj [("status", jint 529)]) false
                                    else Answered verified_answer true).
Definition failover_run : list effect * ending := run DEFAULTS no_repair sample_request failover_env.

Lemma sample_env_fresh accounts call : select_fresh (sample_env accounts call).
Proof.
  intros n ex s. simpl. destruct (List.find (free ex) accounts) as [s'|] eqn:E; [|done]. intros [= ->].
  apply find_some in E as [_ E]. unfold free in E. apply andb_true_iff in E as [E1 E2].
  by apply negb_true_iff, bool_decide_eq_false in E1; apply negb_true_iff, bool_decide_eq_false in E2.
Qed.

Lemma run_calls_bounded_witness :
  calls "a" failover_run.1 = 1%nat /\ (Z.of_nat (calls "a" failover_run.1) <= 2 + Z.max 0 (max_same_account_retries DEFAULTS))%Z.
Proof.
  split; [vm_compute; reflexivity|].
  apply (run_calls_bounded DEFAULTS no_repair sample_request failover_env "a"). apply sample_env_fresh.
Defined.

Lemma failover_honest : honest failover_env.
Proof.
  intros n body meta s result commit. unfold failover_env, sample_env. cbn [e_call].
  destruct (String.eqb (s_account s) "a"); intros [= <- <-]; (split; [reflexivity|]); vm_compute; congruence.
Qed.

Lemma committed_hop_is_last_witness : commit_final failover_run.1.
Proof. apply (committed_hop_is_last DEFAULTS no_repair sample_request failover_env). apply failover_honest. Defined.

Lemma credited_only_for_delivered_witness :
  EMarkSuccess (account "b") ∈ failover_run.1 /\ credited (account "b") failover_run.2.
Proof.
  assert (H : EMarkSuccess (account "b") ∈ failover_run.1).
  { apply list_elem_of_In. vm_compute. repeat (first [left; reflexivity | right]). }
  split; [exact H|]. apply (credited_only_for_delivered DEFAULTS no_repair sample_request failover_env); [|exact H].
  intros n i key acc vm. reflexivity.
Defined.

(** The exception of [committed_hop_is_last] happens: the first account streams a part
    of its answer and then reports that its token was revoked; the policy is to
    continue, and the second account is called for the same request. *)
Definition revoked_mid_stream : env :=
  sample_env two_accounts (fun s =>
    if String.eqb (s_account s) "a"
    then Answered (JObj [("status", jint 401); ("body", JObj [("error", JObj [("message", JStr "token has been revoked")])])]) true
    else Answered verified_answer true).

Example committed_grant_is_retried :
  List.filter is_call (run DEFAULTS no_repair sample_request revoked_mid_stream).1 =
  [ECall 1 (account "a") (JObj []) JNull; ECall 2 (account "b") (JObj []) JNull] /\
  existsb (fun f => match f with EComplete 1 _ true _ _ => true | _ => false end)
    (run DEFAULTS no_repair sample_request revoked_mid_stream).1 = true.
Proof. vm_compute. split; reflexivity. Qed.

(** The limit on account switches is only tested after an answer: when the workers
    throw, all twelve attempts go to twelve accounts, although ten switches are the
    maximum. *)
Definition twelve : list selected :=
  List.map (fun i => account (Z_to_string (Z.of_nat i))) (List.seq 1 12).
Definition throwing_env : env := sample_env twelve (fun _ => Threw (JStr "proxy_down") (JStr "socks refused") false).

Example switches_unlimited_on_throw :
  List.map (fun f => match f with ECall _ s _ _ => s_account s | _ => "" end)
    (List.filter is_call (run DEFAULTS no_repair sample_request throwing_env).1)
  = List.map s_account twelve /\ max_account_switches DEFAULTS = 10%Z.
Proof. vm_compute. split; reflexivity. Qed.

(** Every Claude slot repairs signatures, although the switch is off. *)
Lemma signature_repair_always_on c s : VmKind.isCodexVm (s_obj s?."vm") = false -> signatureRepairEnabled c s = true.
Proof.
  intros H. unfold signatureRepairEnabled. rewrite (cli_hop_always _ _ H), bool_decide_eq_true_2 by done. apply orb_true_r.
Qed.

(** The write that opens an attempt throws: the run is rejected, and the account stays reserved. *)
Definition failing (e : env) (fails : nat -> stage -> nat -> effect -> option (jsval * jsval)) : env :=
  {| e_started := e_started e; e_now := e_now e; e_aborted := e_aborted e; e_select := e_select e; e_apply := e_apply e;
     e_call := e_call e; e_on_attempt := e_on_attempt e; e_fails := fails; e_classify_now := e_classify_now e;
     e_hop_ms := e_hop_ms e; e_slept := e_slept e; e_account := e_account e |}.
Definition locked : jsval * jsval := (JStr "SQLITE_BUSY", JStr "database is locked").

Example reservation_lost :
  let out := run DEFAULTS no_repair sample_request
               (failing failover_env (fun _ g _ f => match f with EBegin _ _ => Some locked | _ => None end)) in
  brackets out.1 = [inl (account "a")] /\ out.2 = Rejected (error_of locked).
Proof. vm_compute. split; reflexivity. Qed.

(** The binding after a verified answer throws: each account in turn is asked and credited, and their answers are lost. *)
Definition verifying : env := sample_env two_accounts (fun _ => Answered verified_answer false).
Example credit_without_answer :
  let out := run DEFAULTS no_repair sample_request
               (failing verifying (fun _ g _ f => match f with EBind _ _ _ true => Some locked | _ => None end)) in
  existsb (fun f => match f with EMarkSuccess _ => true | _ => false end) out.1 = true /\
  match out.2 with Returned v => v?."ok" | _ => JNull end = JBool false.
Proof. vm_compute. split; reflexivity. Qed.
