(* ===== verification/Scheduler.v ===== *)
(** * The pool scheduler (src/src/lib/pool/pool-scheduler.mjs)

    [Reservations]: the in-flight counters, [reserve] and its idempotent [release].
    [Ranking]: candidates, [pick] with its sticky precedence, smooth weighted round
    robin, [peekRank].  [Waiting]: wait plans, waiter queues, [notifyCapacity].
    [Selection]: [eligibleCandidates] and one round of [selectAndReserve].

    [a.localeCompare(b)] is the host's collation, a parameter. *)

From S2P Require Import Prelude.
From S2P Require Import JsValue.
From S2P Require Import QuotaWindow.
From S2P Require Import Eligibility.
From S2P Require Import Errors.
From S2P Require Import ErrorPolicy.
#[local] Open Scope string_scope.
#[local] Open Scope list_scope.
#[local] Open Scope js_scope.

(** ** Configuration and small helpers *)

Definition WAIT_TIMEOUT_MIN_MS : num := num_of_Z 1000.
Definition WAIT_TIMEOUT_MAX_MS : num := num_of_Z 120000.

Definition DEFAULT_CONFIG : jsval := JObj
  [("strategy", JStr "weighted-round-robin"); ("max_waiters_per_account", jint 32); ("fallback_wait_timeout_ms", jint 30000);
   ("sticky_wait_timeout_ms", jint 45000); ("worker_health_ttl_ms", jint 5000); ("heartbeat_stale_ms", jint 15000);
   ("fable_max_per_account", jint 4); ("default_max_per_account", jint 2)].

Definition clampWaitTimeoutMs (value : jsval) (fallback : num) : num :=
  if is_nullish value || is_str value "" then fallback
  else let n := to_number value in
       if negb (is_finite n) then fallback
       else num_min WAIT_TIMEOUT_MAX_MS (num_max WAIT_TIMEOUT_MIN_MS (num_round n)).

Definition normalizePoolConfig (config : jsval) : jsval :=
  let next := spread DEFAULT_CONFIG (config ||| JObj []) in
  let next := with_field next "sticky_wait_timeout_ms"
    (JNum (clampWaitTimeoutMs (next?."sticky_wait_timeout_ms") (to_number (DEFAULT_CONFIG?."sticky_wait_timeout_ms")))) in
  with_field next "fallback_wait_timeout_ms"
    (JNum (clampWaitTimeoutMs (next?."fallback_wait_timeout_ms") (to_number (DEFAULT_CONFIG?."fallback_wait_timeout_ms")))).

Definition formatPoolSelectionSummary (details : jsval) : string :=
  let reason := trim (str_or_empty (details?."reason")) in
  if String.eqb reason "" then ""
  else
    let soonest := to_number (details?."soonest_available_ms") in
    join " " ([reason] ++
      (if is_finite soonest && num_leb (Fin 0) soonest
       then [("soonest=" ++ num_to_string (num_round (num_div soonest (num_of_Z 1000))) ++ "s")%string] else []) ++
      (if truthy (details?."sticky_cleared") then ["sticky_cleared"] else [])).

Definition parseConcurrency (value : jsval) (fallback : num) : num :=
  if is_nullish value || is_str value "" then fallback
  else let n := to_number value in if negb (is_finite n) then fallback else num_max (Fin 0) n.

Definition maxConcurrencyOf (vm : jsval) (fallback : num) : num := parseConcurrency (vm?."policy"?."maxConcurrency") fallback.
Definition vmTierOf (vm : jsval) : jsval := first_truthy [vm?."claude"?."account_tier"; vm?."account_tier"].
Definition priorityOf (vm account : jsval) (now : num) : num :=
  (Weight.resolveCredentialScheduleLevel vm JUndef (account?."unified" ||| JObj []) JUndef now).1.
Definition weightOf (vm state : jsval) : num :=
  num_max (Fin 0) (num_or_zero (vm?."policy"?."weight" ?? state?."weight" ?? jint 1)).
Definition cooldownActive (until : jsval) (now : num) : bool := num_ltb now (to_number until).

Definition stickyShouldWait (waitReason : string) : bool :=
  is_one_of waitReason ["concurrency_limit"; "fable_concurrency"; "rpm_limit"; "slot_busy"].

Definition runtimeHealthStatus (value : jsval) : string :=
  if Kernel.rustKernelBusy value then "busy" else if truthy (value?."ok") then "ready" else "worker_unhealthy".

Definition normalizeModel (model : jsval) : string := to_lower (trim (str_or_empty model)).

(** ** Reservations *)

Module Reservations.

(** The two counters of the scheduler. *)
Record counters := { inflight : gmap string Z; inflightFamily : gmap string (gmap string Z) }.
Definition no_inflight : counters := {| inflight := ∅; inflightFamily := ∅ |}.

Definition inflight_of (c : counters) (acc : string) : Z := default 0%Z (inflight c !! acc).

Definition familyInflight (c : counters) (accountId family : string) : Z :=
  default 0%Z (inflightFamily c !! accountId ≫= fun m => m !! family).

Definition bumpFamily (c : counters) (accountId : string) (family : option string) (delta : Z) : counters :=
  match family with
  | None => c
  | Some f =>
    let byFamily := default ∅ (inflightFamily c !! accountId) in
    let next := Z.max 0 (default 0%Z (byFamily !! f) + delta) in
    let byFamily := if (next =? 0)%Z then delete f byFamily else <[f := next]> byFamily in
    {| inflight := inflight c;
       inflightFamily := if decide (byFamily = ∅) then delete accountId (inflightFamily c)
                         else <[accountId := byFamily]> (inflightFamily c) |}
  end.

(** The family of a candidate's model, and the cap of the Fable family. *)
Definition family_of (model : string) : option string := if isFableModel (JStr model) then Some FABLE_FAMILY_KEY else None.
Definition family_full (c : counters) (fableCap : num) (acc : string) (family : option string) : bool :=
  match family with
  | Some f => is_finite fableCap && num_ltb (Fin 0) fableCap && num_leb fableCap (num_of_Z (familyInflight c acc f))
  | None => false
  end.

(** [reserve]: the counters afterwards, or [None] for [null].  [acquired] is the answer
    of the account quota ([None]: it has no [tryAcquire]). *)
Definition reserve (c : counters) (fableCap : num) (acc : string) (maxConcurrency : num) (model : string)
    (acquired : option bool) : option counters :=
  let current := inflight_of c acc in
  if negb (truthy (JNum maxConcurrency)) || num_leb maxConcurrency (num_of_Z current) then None
  else
    let family := family_of model in
    if family_full c fableCap acc family then None
    else match acquired with
         | Some false => None
         | _ => Some (bumpFamily {| inflight := <[acc := (current + 1)%Z]> (inflight c); inflightFamily := inflightFamily c |}
                        acc family 1)
         end.

(** The body of [release], run at most once per reservation. *)
Definition release (c : counters) (acc : string) (family : option string) : counters :=
  let prev := default 0%Z (inflight c !! acc) in
  let next := Z.max 0 ((if (prev =? 0)%Z then 1 else prev) - 1) in
  bumpFamily {| inflight := if (next =? 0)%Z then delete acc (inflight c) else <[acc := next]> (inflight c);
                inflightFamily := inflightFamily c |} acc family (-1).

(** A reservation handed out: its account, its family and the [released] flag of its closure. *)
Record handle := { h_account : string; h_family : option string; released : bool }.

(** The scheduler with the handles it gave out, newest last. *)
Record sched := { counts : counters; handles : list handle }.
Definition empty_sched : sched := {| counts := no_inflight; handles := [] |}.

Inductive event :=
| Reserve (acc : string) (maxConcurrency : num) (model : string) (acquired : option bool)
| Release (h : nat).

Definition step (fableCap : num) (s : sched) (ev : event) : sched :=
  match ev with
  | Reserve acc m model q =>
    match reserve (counts s) fableCap acc m model q with
    | None => s
    | Some c => {| counts := c; handles := handles s ++ [{| h_account := acc; h_family := family_of model; released := false |}] |}
    end
  | Release i =>
    match handles s !! i with
    | None => s
    | Some h =>
      if released h then s
      else {| counts := release (counts s) (h_account h) (h_family h);
              handles := <[i := {| h_account := h_account h; h_family := h_family h; released := true |}]> (handles s) |}
    end
  end.

Definition run (fableCap : num) (s : sched) (evs : list event) : sched := foldl (step fableCap) s evs.

End Reservations.

Import Reservations.

(** ** The counters count the reservations *)

Definition live_on (acc : string) (h : handle) : bool := String.eqb (h_account h) acc && negb (released h).
Definition live_family (acc f : string) (h : handle) : bool :=
  live_on acc h && match h_family h with Some g => String.eqb g f | None => false end.
Definition count {A} (p : A -> bool) (l : list A) : Z := Z.of_nat (length (List.filter p l)).

Lemma count_app {A} (p : A -> bool) l1 l2 : count p (l1 ++ l2) = (count p l1 + count p l2)%Z.
Proof. unfold count. rewrite List.filter_app, length_app. lia. Qed.
Lemma count_cons {A} (p : A -> bool) x l : count p (x :: l) = ((if p x then 1 else 0) + count p l)%Z.
Proof. unfold count. simpl. destruct (p x); simpl; lia. Qed.
Lemma count_nonneg {A} (p : A -> bool) l : (0 <= count p l)%Z.
Proof. unfold count. lia. Qed.

(** Replacing one element. *)
Lemma count_insert {A} (p : A -> bool) l i x y :
  l !! i = Some x -> count p (<[i := y]> l) = (count p l - (if p x then 1 else 0) + (if p y then 1 else 0))%Z.
Proof.
  revert i. induction l as [|z l IH]; intros [|i] H; simplify_eq/=; rewrite !count_cons; [lia|].
  rewrite (IH i H). lia.
Qed.

Lemma count_lookup {A} (p : A -> bool) l i x : l !! i = Some x -> p x = true -> (1 <= count p l)%Z.
Proof.
  revert i. induction l as [|z l IH]; intros [|i] H Hp; simplify_eq/=; rewrite count_cons.
  - rewrite Hp. pose proof (count_nonneg p l). lia.
  - specialize (IH i H Hp). case_match; lia.
Qed.

Lemma inflight_bump c acc fam d : inflight (bumpFamily c acc fam d) = inflight c.
Proof. by destruct fam. Qed.

Lemma family_bump c acc fam d a f :
  (0 <= familyInflight c a f)%Z ->
  familyInflight (bumpFamily c acc fam d) a f =
  if bool_decide (acc = a /\ fam = Some f) then Z.max 0 (familyInflight c a f + d) else familyInflight c a f.
Proof.
  intros H0. destruct fam as [g|]; [|case_bool_decide as Hd; [by destruct Hd|done]]. unfold bumpFamily, familyInflight in *. simpl.
  set (m := default ∅ (inflightFamily c !! acc)).
  assert (Hm : forall k, m !! k = inflightFamily c !! acc ≫= fun m => m !! k).
  { intros k. unfold m. destruct (inflightFamily c !! acc); simpl; [done|by rewrite lookup_empty]. }
  set (next := Z.max 0 _). set (m' := if (next =? 0)%Z then _ else _).
  assert (Hl : forall k, default 0%Z ((if decide (m' = ∅) then delete acc (inflightFamily c) else <[acc := m']> (inflightFamily c)) !! acc
              ≫= fun m => m !! k) = default 0%Z (m' !! k)).
  { intros k. case_decide as Hd; [by rewrite Hd, lookup_delete_eq, lookup_empty|by rewrite lookup_insert_eq]. }
  destruct (decide (acc = a)) as [<-|Hne].
  - rewrite Hl. unfold m'. destruct (decide (g = f)) as [<-|Hgf].
    + rewrite bool_decide_eq_true_2 by done. rewrite <- Hm. fold next. destruct (Z.eqb_spec next 0) as [E|E].
      * rewrite lookup_delete_eq. simpl. lia.
      * by rewrite lookup_insert_eq.
    + rewrite bool_decide_eq_false_2 by (intros [_ [=]]; done).
      destruct (next =? 0)%Z; [rewrite lookup_delete_ne by done|rewrite lookup_insert_ne by done]; by rewrite Hm.
  - rewrite bool_decide_eq_false_2 by (intros [? _]; done).
    case_decide; [by rewrite lookup_delete_ne|by rewrite lookup_insert_ne].
Qed.

(** The counters of [s] are its live handles. *)
Definition accounted (s : sched) : Prop :=
  (forall acc, inflight_of (counts s) acc = count (live_on acc) (handles s)) /\
  (forall acc f, familyInflight (counts s) acc f = count (live_family acc f) (handles s)).

Lemma reserve_counts c cap acc m model q c' a f :
  (forall a f, 0 <= familyInflight c a f)%Z ->
  reserve c cap acc m model q = Some c' ->
  inflight_of c' a = (inflight_of c a + (if String.eqb acc a then 1 else 0))%Z /\
  familyInflight c' a f = (familyInflight c a f + (if bool_decide (acc = a /\ family_of model = Some f) then 1 else 0))%Z.
Proof.
  intros H0. unfold reserve. destruct (_ || _); [done|]. destruct (family_full _ _ _ _); [done|].
  set (c1 := Build_counters _ _). intros Hc. assert (c' = bumpFamily c1 acc (family_of model) 1) as ->.
  { by destruct q as [[]|]; simplify_eq. }
  split.
  - unfold inflight_of. rewrite inflight_bump. unfold c1. simpl. destruct (String.eqb_spec acc a) as [<-|Hne].
    + rewrite lookup_insert_eq. unfold inflight_of. simpl. lia.
    + rewrite lookup_insert_ne by done. lia.
  - rewrite family_bump by apply H0. case_bool_decide; [|unfold c1, familyInflight; simpl; lia].
    change (familyInflight c1 a f) with (familyInflight c a f). specialize (H0 a f). lia.
Qed.

Lemma release_counts c acc fam a f :
  (forall a, 0 <= inflight_of c a)%Z -> (forall a f, 0 <= familyInflight c a f)%Z -> (1 <= inflight_of c acc)%Z ->
  (forall g, fam = Some g -> 1 <= familyInflight c acc g)%Z ->
  inflight_of (release c acc fam) a = (inflight_of c a - (if String.eqb acc a then 1 else 0))%Z /\
  familyInflight (release c acc fam) a f = (familyInflight c a f - (if bool_decide (acc = a /\ fam = Some f) then 1 else 0))%Z.
Proof.
  intros H0 Hf0 H1 Hf. unfold release. set (c1 := Build_counters _ _). split.
  - unfold inflight_of. rewrite inflight_bump. unfold c1. cbn [inflight]. unfold inflight_of in *.
    destruct (Z.eqb_spec (default 0 (inflight c !! acc)) 0)%Z as [E|E]; [lia|].
    destruct (String.eqb_spec acc a) as [<-|Hne].
    + destruct (Z.eqb_spec (Z.max 0 (default 0 (inflight c !! acc) - 1)) 0)%Z;
        [rewrite lookup_delete_eq|rewrite lookup_insert_eq]; simpl; lia.
    + case_match; [rewrite lookup_delete_ne by done|rewrite lookup_insert_ne by done]; lia.
  - rewrite family_bump by apply Hf0. change (familyInflight c1 a f) with (familyInflight c a f).
    case_bool_decide as Hd; [|lia]. destruct Hd as [<- ->]. specialize (Hf f eq_refl). lia.
Qed.

Lemma step_accounted cap s ev : accounted s -> accounted (step cap s ev).
Proof.
  intros [Hi Hf]. assert (H0 : forall a, (0 <= inflight_of (counts s) a)%Z) by (intros a; rewrite Hi; apply count_nonneg).
  assert (Hf0 : forall a f, (0 <= familyInflight (counts s) a f)%Z) by (intros a f; rewrite Hf; apply count_nonneg).
  destruct ev as [acc m model q|i]; simpl.
  - destruct (reserve (counts s) cap acc m model q) as [c'|] eqn:E; [|done]. split; simpl.
    + intros a. destruct (reserve_counts _ _ _ _ _ _ _ a "" Hf0 E) as [-> _]. rewrite Hi, count_app, count_cons. simpl.
      unfold live_on at 3. simpl. rewrite andb_true_r. unfold count at 3. simpl. lia.
    + intros a f. destruct (reserve_counts _ _ _ _ _ _ _ a f Hf0 E) as [_ ->]. rewrite Hf, count_app, count_cons. simpl.
      unfold live_family at 3, live_on. simpl. rewrite andb_true_r. unfold count at 3. simpl.
      destruct (String.eqb_spec acc a) as [->|Hne]; simpl.
      * destruct (family_of model) as [g|]; simpl; [|rewrite bool_decide_eq_false_2 by (by intros [_ ?]); lia].
        destruct (String.eqb_spec g f) as [->|Hgf]; [rewrite bool_decide_eq_true_2 by done; lia|].
        rewrite bool_decide_eq_false_2 by (intros [_ [=]]; done). lia.
      * rewrite bool_decide_eq_false_2 by (by intros [? _]). lia.
  - destruct (handles s !! i) as [h|] eqn:Eh; [|done]. destruct (released h) eqn:Er; [done|].
    assert (Hl : live_on (h_account h) h = true) by (unfold live_on; by rewrite String.eqb_refl, Er).
    assert (H1 : (1 <= inflight_of (counts s) (h_account h))%Z) by (rewrite Hi; by eapply count_lookup).
    assert (Hg : forall g, h_family h = Some g -> (1 <= familyInflight (counts s) (h_account h) g)%Z).
    { intros g Hg. rewrite Hf. eapply count_lookup; [done|]. unfold live_family. by rewrite Hl, Hg, String.eqb_refl. }
    split; simpl.
    + intros a. destruct (release_counts _ _ _ a "" H0 Hf0 H1 Hg) as [-> _]. rewrite Hi, (count_insert _ _ _ _ _ Eh).
      unfold live_on at 3 4. simpl. rewrite Er, andb_true_r, andb_false_r. lia.
    + intros a f. destruct (release_counts _ _ _ a f H0 Hf0 H1 Hg) as [_ ->]. rewrite Hf, (count_insert _ _ _ _ _ Eh).
      unfold live_family at 3 4, live_on. simpl. rewrite Er, andb_true_r, andb_false_r. simpl.
      destruct (String.eqb_spec (h_account h) a) as [<-|Hne]; simpl.
      * destruct (h_family h) as [g|]; simpl; [|rewrite bool_decide_eq_false_2 by (by intros [_ ?]); lia].
        destruct (String.eqb_spec g f) as [->|Hgf]; [rewrite bool_decide_eq_true_2 by done; lia|].
        rewrite bool_decide_eq_false_2 by (intros [_ [=]]; done). lia.
      * rewrite bool_decide_eq_false_2 by (by intros [? _]). lia.
Qed.

Lemma accounted_empty : accounted empty_sched.
Proof.
  split; intros; unfold inflight_of, familyInflight; simpl; by rewrite lookup_empty.
Qed.

(** The caps: [M acc] bounds every limit the account was reserved under. *)
Definition within (M : string -> Z) (fableCap : Z) (s : sched) : Prop :=
  (forall acc, count (live_on acc) (handles s) <= Z.max 0 (M acc))%Z /\
  (forall acc, count (live_family acc FABLE_FAMILY_KEY) (handles s) <= fableCap)%Z.
Definition offers (M : string -> Z) (ev : event) : Prop :=
  match ev with Reserve acc m _ _ => num_leb m (num_of_Z (M acc)) = true | Release _ => True end.

Lemma family_of_fable model f : family_of model = Some f -> f = FABLE_FAMILY_KEY.
Proof. unfold family_of. case_match; congruence. Qed.

Lemma reserve_room c cap acc m model q c' :
  reserve c cap acc m model q = Some c' ->
  num_leb m (num_of_Z (inflight_of c acc)) = false /\ truthy (JNum m) = true /\ family_full c cap acc (family_of model) = false.
Proof.
  unfold reserve. destruct (truthy (JNum m)); [|done]. destruct (num_leb _ _); [done|].
  by destruct (family_full _ _ _ _).
Qed.

Lemma num_room m a b :
  truthy (JNum m) = true -> num_leb m (num_of_Z a) = false -> num_leb m (num_of_Z b) = true -> (a < b)%Z.
Proof.
  unfold num_of_Z. destruct m as [x| | |]; simpl; try done. intros _ Ha Hb.
  apply Qle_bool_iff in Hb. assert (~ (x <= inject_Z a)%Q) as Ha' by (intros H; apply Qle_bool_iff in H; congruence).
  rewrite Zlt_Qlt. lra.
Qed.

Lemma step_within M C s ev :
  accounted s -> within M C s -> (0 < C)%Z -> offers M ev -> within M C (step (num_of_Z C) s ev).
Proof.
  intros [Hi Hf] [Hc Hg] HC Hev. destruct ev as [acc m model q|i]; simpl.
  - destruct (reserve _ _ _ _ _ _) as [c'|] eqn:E; [|done]. destruct (reserve_room _ _ _ _ _ _ _ E) as (Hm & Ht & Hfull). split.
    + intros a. simpl. rewrite count_app, count_cons. change (count (live_on a) []) with 0%Z. unfold live_on at 2. simpl. rewrite andb_true_r.
      destruct (String.eqb_spec acc a) as [<-|]; [|specialize (Hc a); lia].
      pose proof (num_room _ _ _ Ht Hm Hev) as Hlt. rewrite Hi in Hlt. lia.
    + intros a. simpl. rewrite count_app, count_cons. change (count (live_family a FABLE_FAMILY_KEY) []) with 0%Z.
      unfold live_family at 2, live_on. simpl. rewrite andb_true_r.
      destruct (String.eqb_spec acc a) as [<-|]; [|specialize (Hg a); simpl; lia]. simpl.
      destruct (family_of model) as [g|] eqn:Eg; [|specialize (Hg acc); lia].
      apply family_of_fable in Eg as ->. rewrite String.eqb_refl.
      unfold family_full in Hfull. rewrite Hf in Hfull. simpl in Hfull.
      assert (Hpos : num_ltb (Fin 0) (num_of_Z C) = true).
      { unfold num_of_Z. simpl. apply negb_true_iff, not_true_iff_false. rewrite Qle_bool_iff. change 0%Q with (inject_Z 0). rewrite <- Zle_Qle. lia. }
      unfold num_of_Z in *. simpl in *. rewrite Hpos in Hfull. simpl in Hfull.
      apply not_true_iff_false in Hfull. rewrite Qle_bool_iff, <- Zle_Qle in Hfull. lia.
  - destruct (handles s !! i) as [h|] eqn:Eh; [|done]. destruct (released h); [done|]. split; simpl.
    + intros a. rewrite (count_insert _ _ _ _ _ Eh). unfold live_on at 3. simpl. rewrite andb_false_r.
      specialize (Hc a). case_match; lia.
    + intros a. rewrite (count_insert _ _ _ _ _ Eh). unfold live_family at 3, live_on. simpl. rewrite andb_false_r. simpl.
      specialize (Hg a). case_match; lia.
Qed.

(** C6: The scheduler's counters never drift: whatever sequence of reservations and
    (possibly repeated) releases it serves, [inflight] and [inflightFamily] count the
    reservations not yet released, no account holds more of them than the largest limit
    it was offered under, and no account runs more Fable requests than the family cap. *)
Theorem reservations_exact (M : string -> Z) (fableCap : Z) (evs : list event) :
  (0 < fableCap)%Z -> Forall (offers M) evs ->
  let s := run (num_of_Z fableCap) empty_sched evs in
  accounted s /\
  (forall acc, 0 <= inflight_of (counts s) acc <= Z.max 0 (M acc))%Z /\
  (forall acc, 0 <= familyInflight (counts s) acc FABLE_FAMILY_KEY <= fableCap)%Z.
Proof.
  intros HC HM. cbv zeta. cut (accounted (run (num_of_Z fableCap) empty_sched evs) /\ within M fableCap (run (num_of_Z fableCap) empty_sched evs)).
  { intros [[Hi Hf] [Hc Hg]]. split; [done|]. split; intros acc.
    - rewrite Hi. split; [apply count_nonneg|apply Hc].
    - rewrite Hf. split; [apply count_nonneg|apply Hg]. }
  assert (accounted empty_sched /\ within M fableCap empty_sched) as Hs.
  { split; [apply accounted_empty|]. split; intros acc; unfold count; simpl; lia. }
  revert Hs. generalize empty_sched. induction HM as [|ev evs Hev _ IH]; intros s [Ha Hw]; [done|].
  apply IH. split; [by apply step_accounted|by apply step_within].
Qed.

Definition sample_events : list event :=
  [Reserve "a" (num_of_Z 2) "claude-sonnet-4" None; Reserve "a" (num_of_Z 2) "claude-fable-5" (Some true);
   Reserve "a" (num_of_Z 2) "claude-sonnet-4" None; Release 0; Release 0; Reserve "b" (num_of_Z 1) "claude-sonnet-4" (Some false)].
Lemma reservations_exact_witness :
  let s := run (num_of_Z 4) empty_sched sample_events in
  accounted s /\
  (forall acc, 0 <= inflight_of (counts s) acc <= Z.max 0 ((fun _ => 2) acc))%Z /\
  (forall acc, 0 <= familyInflight (counts s) acc FABLE_FAMILY_KEY <= 4)%Z.
Proof. apply (reservations_exact (fun _ => 2%Z) 4 sample_events); [lia|repeat constructor]. Defined.

Example sample_run :
  let s := run (num_of_Z 4) empty_sched sample_events in
  (inflight_of (counts s) "a", familyInflight (counts s) "a" FABLE_FAMILY_KEY, length (handles s)) = (1%Z, 1%Z, 2%nat).
Proof. vm_compute. reflexivity. Qed.

(** Released twice is released once. *)
Lemma release_idempotent cap s i : step cap (step cap s (Release i)) (Release i) = step cap s (Release i).
Proof.
  simpl. destruct (handles s !! i) as [h|] eqn:E; [|simpl; by rewrite E]. destruct (released h) eqn:Er; simpl.
  - by rewrite E, Er.
  - by rewrite list_lookup_insert_eq by (by eapply lookup_lt_Some).
Qed.
