(* ===== verification/Ranking.v ===== *)
(** * Ranking accounts (the [pick] family of src/src/lib/pool/pool-scheduler.mjs)

    The candidates of one selection round, the sticky precedence of [pick], the four
    strategies, smooth weighted round robin and [peekRank].  [a.localeCompare(b)] is the
    host's collation: the parameter [localeCompare].  [bound] is the answer of the sticky
    router for the request's key. *)

From S2P Require Import Prelude.
From S2P Require Import JsValue.
From S2P Require Import Eligibility.
From S2P Require Import Errors.
From S2P Require Import Scheduler.
From Stdlib Require Import Permutation Sorted.
#[local] Open Scope string_scope.
#[local] Open Scope list_scope.

(** An entry of [eligibleCandidates]. *)
Record candidate := {
  vmId : string; accountId : string; model : string; priority : num; weight : num; c_inflight : Z; maxConcurrency : num;
  loadRatio : num; lastUsedAt : num; busy : bool; availableAt : option num; waitReason : option string; cooldownReason : string;
}.

(** The account and slot a sticky key is bound to. *)
Record binding := { b_vmId : string; b_accountId : string }.

Definition bound_to (b : binding) (c : candidate) : bool := String.eqb (vmId c) (b_vmId b) && String.eqb (accountId c) (b_accountId b).

Definition isReservable (c : candidate) : bool :=
  negb (busy c) ||
  (match waitReason c with Some r => String.eqb r "slot_busy" | None => false end && num_ltb (num_of_Z (c_inflight c)) (maxConcurrency c)).

Definition shouldWait (c : candidate) : bool := busy c && match waitReason c with Some r => stickyShouldWait r | None => false end.

(** [Array.prototype.sort] with a comparator: a stable sort. *)
Section sorting.
Context {A : Type} (compare : A -> A -> num).
Definition after (x y : A) : bool := num_ltb (Fin 0) (compare x y).
Fixpoint sort_insert (x : A) (l : list A) : list A :=
  match l with [] => [x] | y :: l' => if after x y then y :: sort_insert x l' else x :: l end.
Definition sort (l : list A) : list A := foldr sort_insert [] l.

Lemma sort_insert_perm x l : Permutation (sort_insert x l) (x :: l).
Proof. induction l as [|y l IH]; simpl; [done|]. case_match; [rewrite IH; apply perm_swap|done]. Qed.
Lemma sort_perm l : Permutation (sort l) l.
Proof. induction l as [|x l IH]; simpl; [done|]. rewrite sort_insert_perm. by constructor. Qed.

(** The head of a sorted list is not after any member, for a total preorder. *)
Hypothesis after_asym : forall x y, after x y = true -> after y x = false.
Hypothesis after_trans : forall x y z, after x y = false -> after y z = false -> after x z = false.
Lemma sort_head l x l' : sort l = x :: l' -> Forall (fun y => after x y = false) (x :: l').
Proof.
  revert x l'. induction l as [|y l IH]; intros x l'; [done|]. simpl.
  assert (Hrefl : forall z, after z z = false).
  { intros z. destruct (after z z) eqn:E; [|done]. pose proof (after_asym _ _ E). congruence. }
  destruct (sort l) as [|z r]; simpl; [intros [= <- <-]; by repeat constructor|].
  specialize (IH z r eq_refl). destruct (after y z) eqn:E; intros [= <- <-].
  - inversion_clear IH as [|? ? Hz Hr]. constructor; [done|].
    eapply Forall_forall. intros w Hw. apply list_elem_of_In, (Permutation_in _ (sort_insert_perm y r)), list_elem_of_In in Hw.
    apply elem_of_cons in Hw as [->|Hw]; [by apply after_asym|]. by eapply Forall_forall in Hr.
  - constructor; [apply Hrefl|]. eapply Forall_impl; [exact IH|]. intros w Hw. by eapply after_trans.
Qed.
End sorting.

Section ranking.
Variable localeCompare : string -> string -> num.

(** [left.lastUsedAt - right.lastUsedAt || left.accountId.localeCompare(right.accountId)] *)
Definition by_age (l r : candidate) : num :=
  let d := num_sub (lastUsedAt l) (lastUsedAt r) in if truthy (JNum d) then d else localeCompare (accountId l) (accountId r).
Definition by_id (l r : candidate) : num := localeCompare (accountId l) (accountId r).

Definition highestPriority (cs : list candidate) : num := num_max_list (map priority cs).
Definition minLoad (cs : list candidate) : num := num_min_list (map loadRatio cs).
(** The candidates of the highest priority, and of those the least loaded. *)
Definition best_pool (cs : list candidate) : list candidate :=
  let pool := List.filter (fun c => num_eqb (priority c) (highestPriority cs)) cs in
  List.filter (fun c => num_eqb (loadRatio c) (minLoad pool)) pool.

(** One step of the loop of [pickSmoothWeighted]: the state, the choice with its current, the total. *)
Definition smooth_step (acc : gmap string num * option (candidate * num) * num) (c : candidate)
    : gmap string num * option (candidate * num) * num :=
  let '(state, selected, total) := acc in
  if num_leb (weight c) (Fin 0) then acc
  else
    let current := num_add (default (Fin 0) (state !! accountId c)) (weight c) in
    (<[accountId c := current]> state,
     match selected with
     | Some (_, best) => if num_ltb best current then Some (c, current) else selected
     | None => Some (c, current)
     end,
     num_add total (weight c)).

Definition pickSmoothWeighted (state : gmap string num) (cs : list candidate) : option candidate * gmap string num :=
  let state := filter (fun kv => existsb (fun c => String.eqb (accountId c) kv.1) cs = true) state in
  match foldl smooth_step (state, None, Fin 0) (sort by_age cs) with
  | (state, None, _) => (head (sort by_id cs), state)
  | (state, Some (selected, _), total) =>
    (Some selected, <[accountId selected := num_sub (default (Fin 0) (state !! accountId selected)) total]> state)
  end.

(** What [pick] leaves: [smooth] split by key kind, [lastStickyCleared], and whether it unbound the key. *)
Record rotation := { cursors : gmap string nat; smooth : gmap string (gmap string num) }.
Record picked := { choice : option (option candidate * string); rotated : rotation; stickyCleared : bool }.

Definition pick_strategy (strategy : string) (rot : rotation) (mdl : string) (pool : list candidate) : option candidate * string * rotation :=
  if String.eqb strategy "lru" || String.eqb strategy "fill-first" then (head (sort by_age pool), strategy, rot)
  else if String.eqb strategy "round-robin" then
    let key := normalizeModel (JStr mdl) in
    let cursor := default 0%nat (cursors rot !! key) in
    (nth_error (sort by_id pool) (Nat.modulo cursor (length pool)), "round-robin",
     {| cursors := <[key := S cursor]> (cursors rot); smooth := smooth rot |})
  else
    let key := normalizeModel (JStr mdl) in
    let '(c, state) := pickSmoothWeighted (default ∅ (smooth rot !! key)) pool in
    (c, "weighted-round-robin", {| cursors := cursors rot; smooth := <[key := state]> (smooth rot) |}).

(** [pick] after the sticky key was looked at. *)
Definition pick_ranked (strategy : string) (rot : rotation) (mdl : string) (candidates : list candidate) (cleared : bool) : picked :=
  match candidates with
  | [] => {| choice := None; rotated := rot; stickyCleared := cleared |}
  | _ =>
    match best_pool candidates with
    | [c] => {| choice := Some (Some c, "priority-load"); rotated := rot; stickyCleared := cleared |}
    | pool => let '(c, reason, rot') := pick_strategy strategy rot mdl pool in
              {| choice := Some (c, reason); rotated := rot'; stickyCleared := cleared |}
    end
  end.

(** [queueRoom acc]: [waiterCount(acc) < maxWaiters()]. *)
Definition pick (strategy : string) (rot : rotation) (queueRoom : string -> bool) (bound : option binding) (mdl : string)
    (candidates eligible : list candidate) : picked :=
  match candidates, eligible with
  | [], [] => {| choice := None; rotated := rot; stickyCleared := false |}
  | _, _ =>
    match bound with
    | None => pick_ranked strategy rot mdl candidates false
    | Some b =>
      match find (bound_to b) eligible with
      | None => pick_ranked strategy rot mdl candidates true
      | Some c =>
        if isReservable c then {| choice := Some (Some c, "sticky"); rotated := rot; stickyCleared := false |}
        else if shouldWait c then
          if queueRoom (accountId c) then {| choice := None; rotated := rot; stickyCleared := false |}
          else pick_ranked strategy rot mdl candidates false
        else pick_ranked strategy rot mdl candidates true
      end
    end
  end.

Definition peekRank (candidates : list candidate) : option (option candidate * string) :=
  match candidates with
  | [] => None
  | _ => let pool := best_pool candidates in
         Some (head (sort by_age pool), if (length pool =? 1)%nat then "priority-load" else "peek")
  end.
End ranking.

(** ** The chosen candidate *)

Lemma max_list_spec l :
  l <> [] -> Forall (fun n => is_finite n = true) l ->
  num_max_list l ∈ l /\ Forall (fun n => num_leb n (num_max_list l) = true) l.
Proof.
  intros Hne Hf. induction Hf as [|n l Hn Hf IH]; [done|]. destruct n as [q| | |]; try done.
  destruct l as [|n' l]; [simpl; split; [by apply elem_of_cons; left|]; constructor; [|done]; apply num_leb_Fin; lra|].
  destruct (IH ltac:(done)) as [Hin Hall]; clear IH. change (num_max_list (Fin q :: n' :: l)) with (num_max (Fin q) (num_max_list (n' :: l))).
  generalize dependent (num_max_list (n' :: l)). intros m Hin Hall.
  assert (is_finite m = true) as Hm by (by eapply Forall_forall in Hf). destruct m as [r| | |]; try done. unfold num_max.
  destruct (num_leb (Fin q) (Fin r)) eqn:E.
  - split; [by apply elem_of_cons; right|]. constructor; [done|done].
  - split; [by apply elem_of_cons; left|]. simpl in E. constructor; [apply num_leb_Fin; lra|].
    eapply Forall_impl; [exact Hall|]. intros x Hx. cbn beta in Hx. eapply num_leb_trans; [exact Hx|]. apply num_leb_Fin. q_props. lra.
Qed.

Lemma min_list_spec l :
  l <> [] -> Forall (fun n => is_finite n = true) l ->
  num_min_list l ∈ l /\ Forall (fun n => num_leb (num_min_list l) n = true) l.
Proof.
  intros Hne Hf. induction Hf as [|n l Hn Hf IH]; [done|]. destruct n as [q| | |]; try done.
  destruct l as [|n' l]; [simpl; split; [by apply elem_of_cons; left|]; constructor; [|done]; apply num_leb_Fin; lra|].
  destruct (IH ltac:(done)) as [Hin Hall]; clear IH. change (num_min_list (Fin q :: n' :: l)) with (num_min (Fin q) (num_min_list (n' :: l))).
  generalize dependent (num_min_list (n' :: l)). intros m Hin Hall.
  assert (is_finite m = true) as Hm by (by eapply Forall_forall in Hf). destruct m as [r| | |]; try done. unfold num_min.
  destruct (num_leb (Fin q) (Fin r)) eqn:E.
  - split; [by apply elem_of_cons; left|]. constructor; [apply num_leb_Fin; lra|].
    eapply Forall_impl; [exact Hall|]. intros x Hx. cbn beta in Hx. by eapply num_leb_trans.
  - split; [by apply elem_of_cons; right|]. simpl in E. constructor; [apply num_leb_Fin; q_props; lra|done].
Qed.

(** Priorities and loads are finite numbers (the eligible candidates have a positive cap). *)
Definition rated (c : candidate) : Prop := is_finite (priority c) = true /\ is_finite (loadRatio c) = true.

(** [c] is among the least loaded of the highest priority of [cs]. *)
Definition best_in (cs : list candidate) (c : candidate) : Prop :=
  c ∈ cs /\ Forall (fun d => num_leb (priority d) (priority c) = true) cs /\
  Forall (fun d => num_eqb (priority d) (priority c) = true -> num_leb (loadRatio c) (loadRatio d) = true) cs.

Lemma num_eqb_leb a b : num_eqb a b = true -> num_leb a b = true /\ num_leb b a = true.
Proof. destruct a, b; try done; simpl. intros H. q_props. split; apply Qle_bool_iff; lra. Qed.
Lemma num_eqb_trans a b c : num_eqb a b = true -> num_eqb c b = true -> num_eqb c a = true.
Proof. destruct a, b, c; try done; simpl. intros. q_props. lra. Qed.
Lemma num_eqb_refl n : is_finite n = true -> num_eqb n n = true.
Proof. destruct n; try done. intros _. simpl. by apply Qeq_bool_iff. Qed.

Lemma elem_filter {A} (p : A -> bool) l x : x ∈ List.filter p l <-> x ∈ l /\ p x = true.
Proof. rewrite !list_elem_of_In. apply filter_In. Qed.

Lemma best_pool_spec cs :
  cs <> [] -> Forall rated cs -> best_pool cs <> [] /\ (forall c, c ∈ best_pool cs <-> best_in cs c).
Proof.
  intros Hne Hr. unfold best_pool. set (pool := List.filter _ cs). set (hi := highestPriority cs) in *.
  assert (Hmap : forall f : candidate -> num, Forall (fun c => is_finite (f c) = true) cs -> Forall (fun n => is_finite n = true) (map f cs)).
  { intros f H. by apply Forall_map. }
  destruct (max_list_spec (map priority cs)) as [Hin Hall]; [by destruct cs|apply Hmap; eapply Forall_impl; [exact Hr|by intros ? []]|].
  fold (highestPriority cs) in Hin, Hall. fold hi in Hin, Hall. rewrite Forall_map in Hall.
  apply list_elem_of_In, in_map_iff in Hin as (c0 & Hc0 & Hi0). apply list_elem_of_In in Hi0.
  assert (Hp0 : c0 ∈ pool).
  { apply elem_filter. split; [done|]. rewrite Hc0. apply num_eqb_refl. rewrite <- Hc0.
    eapply Forall_forall in Hr; [|exact Hi0]. apply Hr. }
  assert (Hpr : Forall rated pool) by (apply Forall_forall; intros x Hx; apply elem_filter in Hx as [Hx _]; by eapply Forall_forall in Hr).
  destruct (min_list_spec (map loadRatio pool)) as [Hm Hma].
  { destruct pool; [by apply elem_of_nil in Hp0|done]. }
  { apply Forall_map. eapply Forall_impl; [exact Hpr|by intros ? []]. }
  fold (minLoad pool) in Hm, Hma. rewrite Forall_map in Hma.
  apply list_elem_of_In, in_map_iff in Hm as (c1 & Hc1 & Hi1). apply list_elem_of_In in Hi1. split.
  - intros Hnil. assert (c1 ∈ ([] : list candidate)) as H; [|by apply elem_of_nil in H]. rewrite <- Hnil. apply elem_filter. split; [done|].
    rewrite Hc1. apply num_eqb_refl. rewrite <- Hc1. eapply Forall_forall in Hpr; [|exact Hi1]. apply Hpr.
  - intros c. rewrite elem_filter. unfold pool at 1. rewrite elem_filter. split.
    + intros [[Hc Hp] Hl]. split; [done|]. apply num_eqb_leb in Hp as Hp'. apply num_eqb_leb in Hl as Hl'. split.
      * eapply Forall_impl; [exact Hall|]. intros d Hd. cbn beta in Hd. eapply num_leb_trans; [exact Hd|apply Hp'].
      * apply Forall_forall. intros d Hd He. eapply num_leb_trans; [apply Hl'|]. eapply Forall_forall in Hma; [exact Hma|].
        apply elem_filter. split; [done|]. apply num_eqb_leb in He as [He1 He2].
        eapply Forall_forall in Hall; [|exact Hd]. cbn beta in Hall. clear Hl Hl' Hma. destruct Hp' as [Hp1 Hp2].
        clear -He1 He2 Hp Hp1. destruct (priority d), (priority c), hi; try done; simpl in *; q_props; lra.
    + intros (Hc & Hp & Hl). assert (Hcp : num_eqb (priority c) hi = true).
      { eapply Forall_forall in Hp; [|exact Hi0]. eapply Forall_forall in Hall; [|exact Hc]. cbn beta in *. rewrite Hc0 in Hp.
        clear -Hp Hall Hr Hc. eapply Forall_forall in Hr; [|exact Hc]. destruct Hr as [Hr _].
        destruct (priority c), hi; try done; simpl in *; q_props; lra. }
      split; [done|]. assert (Hcp' : c ∈ pool) by (by apply elem_filter).
      apply elem_filter in Hi1 as Hi1'. destruct Hi1' as [Hi1' Hp1]. eapply Forall_forall in Hl; [|exact Hi1'].
      specialize (Hl (num_eqb_trans _ _ _ Hcp Hp1)). eapply Forall_forall in Hma; [|exact Hcp']. cbn beta in *.
      rewrite Hc1 in Hl. eapply Forall_forall in Hpr; [|exact Hcp']. destruct Hpr as [_ Hpr].
      clear -Hl Hma Hpr. destruct (loadRatio c), (minLoad pool); try done; simpl in *; q_props; lra.
Qed.

Section picking.
Variable localeCompare : string -> string -> num.
Abbreviation pick := (pick localeCompare).
Abbreviation pick_ranked := (pick_ranked localeCompare).

Lemma head_sort_in (cmp : candidate -> candidate -> num) l : l <> [] -> exists c, head (sort cmp l) = Some c /\ c ∈ l.
Proof.
  intros Hne. pose proof (sort_perm cmp l) as Hp. destruct (sort cmp l) as [|c r] eqn:E.
  - by apply Permutation_nil in Hp.
  - exists c. split; [done|]. apply list_elem_of_In, (Permutation_in _ Hp). by left.
Qed.

Lemma smooth_choice l acc :
  match (foldl smooth_step acc l).1.2 with
  | Some (c, _) => c ∈ l \/ exists b, acc.1.2 = Some (c, b)
  | None => acc.1.2 = None
  end.
Proof.
  revert acc. induction l as [|d l IH]; intros [[st sel] tot]; cbn [foldl fst snd].
  - destruct sel as [[c b]|]; [right; by exists b|done].
  - pose proof (IH (smooth_step (st, sel, tot) d)) as H. destruct (foldl _ _ _) as [[st' sel'] tot']. cbn [fst snd] in *.
    unfold smooth_step in H. destruct (num_leb (weight d) (Fin 0)); cbn [fst snd] in H.
    + destruct sel' as [[c b]|]; [|done]. destruct H as [H|H]; [left; apply elem_of_cons; by right|by right].
    + destruct sel' as [[c b]|].
      * destruct H as [H|[b' H]]; [left; apply elem_of_cons; by right|].
        destruct sel as [[c0 b0]|]; [destruct (num_ltb b0 _)|]; simplify_eq;
          first [by left; apply elem_of_cons; left|right; by exists b'].
      * destruct sel as [[c0 b0]|]; [by destruct (num_ltb b0 _)|done].
Qed.

Lemma pickSmoothWeighted_in st cs : cs <> [] -> exists c, (pickSmoothWeighted localeCompare st cs).1 = Some c /\ c ∈ cs.
Proof.
  intros Hne. unfold pickSmoothWeighted. set (st0 := filter _ st).
  pose proof (smooth_choice (sort (by_age localeCompare) cs) (st0, None, Fin 0)) as H.
  destruct (foldl _ _ _) as [[st' [[c b]|]] tot]; cbn [fst snd] in *; [|by apply head_sort_in].
  exists c. split; [done|]. destruct H as [H|[? H]]; [|done].
  apply list_elem_of_In, (Permutation_in _ (sort_perm (by_age localeCompare) cs)), list_elem_of_In. done.
Qed.

Lemma pick_strategy_in strategy rot mdl pool :
  pool <> [] -> exists c reason rot', pick_strategy localeCompare strategy rot mdl pool = (Some c, reason, rot') /\ c ∈ pool.
Proof.
  intros Hne. unfold pick_strategy. destruct (_ || _).
  - destruct (head_sort_in (by_age localeCompare) pool Hne) as (c & -> & Hc). eauto.
  - destruct (String.eqb strategy "round-robin").
    + destruct (nth_error (sort _ pool) _) as [c|] eqn:E.
      * exists c. do 2 eexists. split; [reflexivity|]. apply nth_error_In in E.
        apply list_elem_of_In, (Permutation_in _ (sort_perm (by_id localeCompare) pool)), E.
      * exfalso. apply nth_error_None in E. rewrite (Permutation_length (sort_perm (by_id localeCompare) pool)) in E.
        assert (length pool <> 0%nat) by (by destruct pool). pose proof (Nat.mod_upper_bound (default 0%nat (cursors rot !! normalizeModel (JStr mdl))) (length pool)). lia.
    + destruct (pickSmoothWeighted_in (default ∅ (smooth rot !! normalizeModel (JStr mdl))) pool Hne) as (c & Hc & Hi).
      destruct (pickSmoothWeighted _ _ _) as [o st]. cbn [fst] in Hc. subst o. eauto.
Qed.

Lemma pick_ranked_spec strategy rot mdl cs cleared :
  Forall rated cs ->
  stickyCleared (pick_ranked strategy rot mdl cs cleared) = cleared /\
  match choice (pick_ranked strategy rot mdl cs cleared) with
  | None => cs = []
  | Some (None, _) => False
  | Some (Some c, _) => best_in cs c
  end.
Proof.
  intros Hr. destruct cs as [|c0 cs]; [done|]. set (l := c0 :: cs). destruct (best_pool_spec l ltac:(done) Hr) as [Hne Hb].
  unfold pick_ranked. destruct (best_pool l) as [|c1 [|c2 r]] eqn:E; [done| |].
  - cbn. split; [done|]. apply Hb. by apply elem_of_cons; left.
  - destruct (pick_strategy_in strategy rot mdl (c1 :: c2 :: r) ltac:(done)) as (c & reason & rot' & Hp & Hc).
    cbn [stickyCleared choice]. rewrite Hp. cbn. split; [done|]. by apply Hb.
Qed.

(** When the bound account decides the choice on its own. *)
Definition sticky_holds (queueRoom : string -> bool) (bound : option binding) (eligible : list candidate) : bool :=
  match bound with
  | Some b => match find (bound_to b) eligible with
              | Some c => isReservable c || (shouldWait c && queueRoom (accountId c))
              | None => false
              end
  | None => false
  end.

Lemma find_elem {A} (p : A -> bool) l x : find p l = Some x -> x ∈ l /\ p x = true.
Proof. intros H. apply find_some in H. by rewrite list_elem_of_In. Qed.

(** When the bound account does not decide, the ranking does. *)
Lemma pick_not_sticky strategy rot queueRoom bound mdl cs eligible :
  sticky_holds queueRoom bound eligible = false ->
  exists cleared, pick strategy rot queueRoom bound mdl cs eligible = pick_ranked strategy rot mdl cs cleared.
Proof.
  unfold sticky_holds, Ranking.pick. destruct cs as [|c cs], eligible as [|e eligible]; try (by exists false);
    (destruct bound as [b|]; [|by exists false]); (destruct (find (bound_to b) _) as [d|]; [|by exists true]);
    (destruct (isReservable d); [done|]); (destruct (shouldWait d); [|by exists true]); cbn [orb andb];
    (destruct (queueRoom (accountId d)); [done|by exists false]).
Qed.

(** The choice of an account.  A bound account that can take the request is chosen; one
    that is only full (concurrency, rate or slot) is waited for while its queue has room;
    otherwise the best candidate is chosen - least loaded among the highest priority -
    and the binding is dropped exactly when its account is gone, cooling down or at fault. *)
Theorem pick_spec strategy rot queueRoom bound mdl cs eligible :
  Forall rated cs -> (cs <> [] \/ eligible <> []) ->
  let r := pick strategy rot queueRoom bound mdl cs eligible in
  (if sticky_holds queueRoom bound eligible then
     stickyCleared r = false /\ rotated r = rot /\
     exists b c, bound = Some b /\ c ∈ eligible /\ bound_to b c = true /\
       choice r = if isReservable c then Some (Some c, "sticky") else None
   else match choice r with
        | None => cs = []
        | Some (None, _) => False
        | Some (Some c, _) => best_in cs c
        end) /\
  (stickyCleared r = true <->
   exists b, bound = Some b /\ match find (bound_to b) eligible with
                               | None => True
                               | Some c => isReservable c = false /\ shouldWait c = false
                               end).
Proof.
  intros Hr Hne. cbv zeta. unfold Ranking.pick.
  assert (forall (X : Type) (x y : X), match cs, eligible with [], [] => x | _, _ => y end = y) as Hm.
  { intros. destruct cs, eligible; try done. by destruct Hne. }
  rewrite Hm. unfold sticky_holds.
  pose proof (fun cl => pick_ranked_spec strategy rot mdl cs cl Hr) as Hp.
  destruct bound as [b|].
  - destruct (find (bound_to b) eligible) as [c|] eqn:Ef.
    + destruct (find_elem _ _ _ Ef) as [Hin Hb]. destruct (isReservable c) eqn:Er; cbn [orb].
      * cbn. split.
        -- split; [done|]. split; [done|]. exists b, c. by rewrite Er.
        -- split; [done|]. intros (b' & [= <-] & H). rewrite Ef in H. destruct H; congruence.
      * destruct (shouldWait c) eqn:Es; cbn [andb].
        -- destruct (queueRoom (accountId c)); cbn.
           ++ split; [split; [done|]; split; [done|]; exists b, c; by rewrite Er|].
              split; [done|]. intros (b' & [= <-] & H). rewrite Ef in H. destruct H; congruence.
           ++ destruct (Hp false) as [-> H]. split; [done|]. split; [done|]. intros (b' & [= <-] & H'). rewrite Ef in H'. destruct H'; congruence.
        -- destruct (Hp true) as [-> H]. split; [done|]. split; [|done]. intros _. exists b. by rewrite Ef.
    + destruct (Hp true) as [-> H]. split; [done|]. split; [|done]. intros _. exists b. by rewrite Ef.
  - destruct (Hp false) as [-> H]. split; [done|]. split; [done|]. by intros (? & ? & _).
Qed.
End picking.

(** ** Smooth weighted round robin is fair *)

Definition qsum (l : list Q) : Q := foldr Qplus 0%Q l.
Lemma qsum_app l1 l2 : (qsum (l1 ++ l2) == qsum l1 + qsum l2)%Q.
Proof. induction l1 as [|x l1 IH]; simpl; [lra|]. rewrite IH. lra. Qed.
#[global] Instance qsum_perm : Proper (Permutation ==> Qeq) qsum.
Proof. induction 1; simpl; lra. Qed.
Lemma qsum_ext {A} (f g : A -> Q) l : (forall x, x ∈ l -> (f x == g x)%Q) -> (qsum (map f l) == qsum (map g l))%Q.
Proof.
  induction l as [|x l IH]; intros H; simpl; [lra|].
  rewrite (H x), IH; [lra| |by apply elem_of_cons; left]. intros y Hy. apply H. by apply elem_of_cons; right.
Qed.
Lemma qsum_plus {A} (f g : A -> Q) l : (qsum (map (fun x => f x + g x) l) == qsum (map f l) + qsum (map g l))%Q.
Proof. induction l as [|x l IH]; simpl; [lra|]. rewrite IH. lra. Qed.
Lemma qsum_bound {A} (f : A -> Q) l b : (forall x, x ∈ l -> f x <= b)%Q -> (qsum (map f l) <= inject_Z (Z.of_nat (length l)) * b)%Q.
Proof.
  induction l as [|x l IH]; intros H; [change (0 <= 0 * b)%Q; lra|]. cbn [map qsum foldr length]. fold (qsum (map f l)).
  rewrite Nat2Z.inj_succ. unfold Z.succ. rewrite inject_Z_plus.
  assert (f x <= b)%Q by (apply H; by apply elem_of_cons; left).
  assert (qsum (map f l) <= inject_Z (Z.of_nat (length l)) * b)%Q by (apply IH; intros y Hy; apply H; by apply elem_of_cons; right).
  change (inject_Z 1) with 1%Q. lra.
Qed.
(** The sum of a function that is [d] at one key and 0 elsewhere. *)
Lemma qsum_single (f : string -> Q) id d ids :
  NoDup ids -> id ∈ ids -> (forall k, k <> id -> f k == 0)%Q -> (f id == d)%Q -> (qsum (map f ids) == d)%Q.
Proof.
  intros Hnd Hin H0 Hd. induction Hnd as [|x ids Hx Hnd IH]; [by apply elem_of_nil in Hin|]. simpl.
  assert (Hz : id ∉ ids -> (qsum (map f ids) == 0)%Q).
  { intros Hn. clear -Hn H0. induction ids as [|y ids IH]; simpl; [lra|]. rewrite IH by (intros ?; apply Hn; by apply elem_of_cons; right).
    rewrite (H0 y); [lra|]. intros ->. apply Hn. by apply elem_of_cons; left. }
  apply elem_of_cons in Hin as [<-|Hin].
  - rewrite (Hz Hx). lra.
  - rewrite (IH Hin), (H0 x); [lra|]. by intros ->.
Qed.

(** The running value of an account, and its weight, as rationals. *)
Definition cur (st : gmap string num) (id : string) : Q := match st !! id with Some (Fin q) => q | _ => 0 end.
Definition fin_state (st : gmap string num) : Prop := forall id n, st !! id = Some n -> is_finite n = true.
Definition wt (c : candidate) : Q := match weight c with Fin w => w | _ => 0 end.
Definition weighted (c : candidate) : Prop := is_finite (weight c) = true /\ (0 <= wt c)%Q.

Lemma cur_default st id : fin_state st -> default (Fin 0) (st !! id) = Fin (cur st id).
Proof. intros H. unfold cur. destruct (st !! id) as [n|] eqn:E; [|done]. specialize (H _ _ E). by destruct n. Qed.
Lemma cur_insert st id q k : cur (<[id := Fin q]> st) k = if decide (id = k) then q else cur st k.
Proof. unfold cur. case_decide as H; [subst; by rewrite lookup_insert_eq|by rewrite lookup_insert_ne]. Qed.
Lemma fin_state_insert st id q : fin_state st -> fin_state (<[id := Fin q]> st).
Proof. intros H k n. destruct (decide (id = k)) as [->|Hn]; [rewrite lookup_insert_eq; by intros [= <-]|rewrite lookup_insert_ne by done; apply H]. Qed.
Lemma weight_wt c : is_finite (weight c) = true -> weight c = Fin (wt c).
Proof. unfold wt. by destruct (weight c). Qed.

(** The weight of an account in a list of candidates with distinct accounts. *)
Definition weight_in (l : list candidate) (id : string) : Q := qsum (map (fun c => if decide (accountId c = id) then wt c else 0%Q) l).

Lemma weight_in_notin l id : id ∉ map accountId l -> (weight_in l id == 0)%Q.
Proof.
  unfold weight_in. induction l as [|c l IH]; simpl; intros H; [lra|]. rewrite IH by (intros ?; apply H; by apply elem_of_cons; right).
  rewrite decide_False; [lra|]. intros <-. apply H. by apply elem_of_cons; left.
Qed.

Definition wrap (sel : option (candidate * Q)) : option (candidate * num) :=
  match sel with Some (c, q) => Some (c, Fin q) | None => None end.

Lemma smooth_step_weighted st sel tot c :
  weighted c -> fin_state st ->
  smooth_step (st, wrap sel, Fin tot) c =
  if Qle_bool (wt c) 0 then (st, wrap sel, Fin tot)
  else let q := Qred (cur st (accountId c) + wt c) in
       (<[accountId c := Fin q]> st,
        wrap (match sel with Some (_, b) => if Qle_bool q b then sel else Some (c, q) | None => Some (c, q) end), Fin (Qred (tot + wt c))).
Proof.
  intros [Hw _] Hst. unfold smooth_step. rewrite (weight_wt c Hw). cbn [num_leb].
  destruct (Qle_bool (wt c) 0); [done|]. rewrite cur_default by done. cbn [num_add]. cbv zeta. f_equal. f_equal.
  destruct sel as [[c0 b]|]; [|done]. cbn [wrap num_ltb]. by destruct (Qle_bool _ b).
Qed.

(** The loop of [pickSmoothWeighted] adds its weight to each account, and chooses the largest. *)
Lemma smooth_loop l st sel tot :
  NoDup (map accountId l) -> Forall weighted l -> fin_state st ->
  exists st' sel' t, foldl smooth_step (st, wrap sel, Fin tot) l = (st', wrap sel', Fin t) /\
  fin_state st' /\ (forall id, cur st' id == cur st id + weight_in l id)%Q /\ (t == tot + qsum (map wt l))%Q /\
  match sel' with
  | None => sel = None /\ Forall (fun c => wt c == 0)%Q l
  | Some (c, q) =>
    (forall d, d ∈ l -> 0 < wt d -> cur st' (accountId d) <= q)%Q /\ (forall c0 b0, sel = Some (c0, b0) -> b0 <= q)%Q /\
    ((c ∈ l /\ 0 < wt c /\ q == cur st' (accountId c))%Q \/ sel = Some (c, q))
  end.
Proof.
  revert st sel tot. induction l as [|d l IH]; intros st sel tot Hnd Hw Hst.
  - exists st, sel, tot. split; [done|]. split; [done|]. split; [intros id; unfold weight_in; simpl; lra|]. split; [simpl; lra|].
    destruct sel as [[c q]|]; [|done]. split; [intros ? H; by apply elem_of_nil in H|]. split; [|by right]. intros c0 b0 [= <- <-]. lra.
  - apply NoDup_cons in Hnd as [Hd Hnd]. apply Forall_cons in Hw as [Hwd Hw].
    cbn [foldl]. rewrite smooth_step_weighted by done. destruct (Qle_bool (wt d) 0) eqn:Ed.
    + apply Qle_bool_iff in Ed. assert (wt d == 0)%Q as Hz by (destruct Hwd; lra).
      destruct (IH st sel tot Hnd Hw Hst) as (st' & sel' & t & -> & Hst' & Hcur & Ht & Hs). exists st', sel', t.
      split; [done|]. split; [done|]. split; [intros id; rewrite Hcur; unfold weight_in; simpl; case_decide; lra|].
      split; [simpl; lra|]. destruct sel' as [[c q]|]; [|destruct Hs; split; [done|by constructor]].
      destruct Hs as (H1 & H2 & H3). split; [|split; [done|]].
      * intros e [->|He]%elem_of_cons; [lra|by apply H1].
      * destruct H3 as [(? & ? & ?)|?]; [left; split; [by apply elem_of_cons; right|done]|by right].
    + apply Qle_bool_false in Ed. cbv zeta. set (q0 := Qred (cur st (accountId d) + wt d)).
      assert (Hq0 : (q0 == cur st (accountId d) + wt d)%Q) by apply Qred_correct.
      set (sel0 := match sel with Some (_, b) => _ | None => _ end).
      destruct (IH (<[accountId d := Fin q0]> st) sel0 (Qred (tot + wt d)) Hnd Hw (fin_state_insert _ _ _ Hst))
        as (st' & sel' & t & -> & Hst' & Hcur & Ht & Hs). exists st', sel', t.
      assert (Hd' : (cur st' (accountId d) == q0)%Q).
      { rewrite Hcur, weight_in_notin by done. rewrite cur_insert, decide_True by done. lra. }
      assert (Hsel0 : exists c0 b0, sel0 = Some (c0, b0) /\ (q0 <= b0)%Q /\
                 (forall c1 b1, sel = Some (c1, b1) -> b1 <= b0)%Q /\ (sel0 = sel \/ (c0 = d /\ b0 = q0))).
      { unfold sel0. destruct sel as [[c1 b1]|].
        - destruct (Qle_bool q0 b1) eqn:E.
          + apply Qle_bool_iff in E. exists c1, b1. split; [done|]. split; [done|]. split; [intros ? ? [= <- <-]; lra|by left].
          + apply Qle_bool_false in E. exists d, q0. split; [done|]. split; [lra|]. split; [intros ? ? [= <- <-]; lra|by right].
        - exists d, q0. split; [done|]. split; [lra|]. split; [done|by right]. }
      destruct Hsel0 as (c0 & b0 & Es & Hqb & Hle & Hor).
      split; [done|]. split; [done|]. split.
      { intros id. rewrite Hcur, cur_insert. unfold weight_in. cbn [map qsum foldr]. fold (qsum (map (fun c => if decide (accountId c = id) then wt c else 0%Q) l)).
        destruct (decide (accountId d = id)) as [<-|]; lra. }
      split; [rewrite Ht, Qred_correct; simpl; lra|]. destruct sel' as [[c q]|]; [|destruct Hs; congruence].
      destruct Hs as (H1 & H2 & H3). specialize (H2 _ _ Es). split; [|split].
      * intros e [->|He]%elem_of_cons Hpos; [lra|by apply H1].
      * intros c1 b1 H. specialize (Hle _ _ H). lra.
      * destruct H3 as [(? & ? & ?)|H3]; [left; split; [by apply elem_of_cons; right|done]|].
        destruct Hor as [Hor|[-> ->]]; [right; congruence|]. left. rewrite Es in H3. simplify_eq.
        split; [by apply elem_of_cons; left|]. split; [done|]. lra.
Qed.

Section fairness.
Variable localeCompare : string -> string -> num.
(** The accounts that compete, with their weights. *)
Variable base : list (string * Q).
Hypothesis base_nodup : NoDup (map fst base).
Hypothesis base_weights : Forall (fun b => 0 <= b.2)%Q base.

Let ids := map fst base.
Definition base_weight (id : string) : Q := qsum (map (fun b => if decide (b.1 = id) then b.2 else 0%Q) base).
Definition total_weight : Q := qsum (map snd base).
(** The candidates of a round are these accounts, in any order and with any age. *)
Definition same_pool (cs : list candidate) : Prop :=
  Permutation (map (fun c => (accountId c, weight c)) cs) (map (fun b => (b.1, Fin b.2)) base).

Lemma same_pool_sum (g : string -> num -> Q) cs :
  same_pool cs -> (qsum (map (fun c => g (accountId c) (weight c)) cs) == qsum (map (fun b => g b.1 (Fin b.2)) base))%Q.
Proof.
  intros H. apply (Permutation_map (fun p => g p.1 p.2)) in H. rewrite !map_map in H. by rewrite H.
Qed.

Lemma same_pool_ids cs : same_pool cs -> Permutation (map accountId cs) ids.
Proof. intros H. apply (Permutation_map fst) in H. rewrite !map_map in H. exact H. Qed.

Lemma same_pool_weighted cs : same_pool cs -> Forall weighted cs.
Proof.
  intros H. apply Forall_forall. intros c Hc. assert (In (accountId c, weight c) (map (fun b => (b.1, Fin b.2)) base)) as Hin.
  { eapply Permutation_in; [exact H|]. apply in_map_iff. exists c. split; [done|by apply list_elem_of_In]. }
  apply in_map_iff in Hin as ([k w] & [= Hk Hw] & Hb). unfold weighted, wt. rewrite <- Hw. split; [done|].
  apply list_elem_of_In in Hb. by eapply Forall_forall in base_weights; [|exact Hb].
Qed.

Lemma weight_in_pool cs id : same_pool cs -> (weight_in cs id == base_weight id)%Q.
Proof.
  intros H. exact (same_pool_sum (fun k n => if decide (k = id) then match n with Fin w => w | _ => 0%Q end else 0%Q) cs H).
Qed.

Lemma total_in_pool cs : same_pool cs -> (qsum (map wt cs) == total_weight)%Q.
Proof. intros H. exact (same_pool_sum (fun _ n => match n with Fin w => w | _ => 0%Q end) cs H). Qed.

Lemma weight_of_member cs c : same_pool cs -> c ∈ cs -> (base_weight (accountId c) == wt c)%Q.
Proof.
  intros H Hc. rewrite <- (weight_in_pool cs _ H). unfold weight_in.
  assert (Hnd : NoDup (map accountId cs)) by (rewrite (same_pool_ids cs H); exact base_nodup). clear H.
  induction cs as [|d cs IH]; [by apply elem_of_nil in Hc|]. cbn [map] in *. apply NoDup_cons in Hnd as [Hd Hnd].
  cbn [qsum foldr]. fold (qsum (map (fun d => if decide (accountId d = accountId c) then wt d else 0%Q) cs)).
  apply elem_of_cons in Hc as [<-|Hc].
  - rewrite decide_True by done. fold (weight_in cs (accountId c)). rewrite weight_in_notin by done. lra.
  - rewrite IH by done. rewrite decide_False; [lra|]. intros E. apply Hd. rewrite E.
    apply list_elem_of_In, in_map, list_elem_of_In, Hc.
Qed.

Lemma sum_base_weight : (qsum (map base_weight ids) == total_weight)%Q.
Proof.
  unfold ids, total_weight. rewrite map_map. apply qsum_ext. intros b Hb. unfold base_weight.
  clear base_weights. revert b Hb. clear ids. induction base as [|d l IH]; intros b Hb; [by apply elem_of_nil in Hb|].
  cbn [map] in *. apply NoDup_cons in base_nodup as [Hd Hnd]. cbn [qsum foldr].
  fold (qsum (map (fun d => if decide (d.1 = b.1) then d.2 else 0%Q) l)).
  apply elem_of_cons in Hb as [<-|Hb].
  - rewrite decide_True by done. assert (qsum (map (fun d => if decide (d.1 = b.1) then d.2 else 0%Q) l) == 0)%Q; [|lra].
    clear -Hd. induction l as [|e l IH]; simpl; [lra|]. rewrite IH by (intros ?; apply Hd; simpl; by apply elem_of_cons; right).
    rewrite decide_False; [lra|]. intros E. apply Hd. simpl. rewrite E. by apply elem_of_cons; left.
  - rewrite IH by done. rewrite decide_False; [lra|]. intros E. apply Hd. rewrite E.
    apply list_elem_of_In, in_map, list_elem_of_In, Hb.
Qed.

Definition balanced (st : gmap string num) : Prop :=
  fin_state st /\ (qsum (map (cur st) ids) == 0)%Q /\
  (forall id, id ∈ ids -> - total_weight < cur st id /\ (base_weight id == 0 -> cur st id == 0))%Q.

Lemma filter_cur (cs : list candidate) st id :
  id ∈ map accountId cs ->
  cur (filter (fun kv : string * num => existsb (fun c => String.eqb (accountId c) kv.1) cs = true) st) id = cur st id.
Proof.
  intros Hin. unfold cur. apply list_elem_of_In, in_map_iff in Hin as (c & <- & Hc).
  assert (He : existsb (fun d => String.eqb (accountId d) (accountId c)) cs = true).
  { apply existsb_exists. exists c. split; [done|apply String.eqb_refl]. }
  destruct (st !! accountId c) as [n|] eqn:E.
  - rewrite (proj2 (map_lookup_filter_Some _ st (accountId c) n)); [done|]. by split.
  - rewrite (proj2 (map_lookup_filter_None _ st (accountId c))); [done|]. by left.
Qed.

Lemma filter_fin (P : string * num -> Prop) `{forall x, Decision (P x)} st : fin_state st -> fin_state (filter P st).
Proof. intros Hf id n Hl. apply map_lookup_filter_Some in Hl as [Hl _]. by apply Hf in Hl. Qed.

Hypothesis total_pos : (0 < total_weight)%Q.

Lemma qsum_map_nonpos (f : string -> Q) l : (forall x, x ∈ l -> f x <= 0)%Q -> (qsum (map f l) <= 0)%Q.
Proof. intros H. pose proof (qsum_bound f l 0%Q H). lra. Qed.

(** One pick: everybody gains his weight, the chosen one pays the total. *)
Lemma pick_round cs st :
  same_pool cs -> balanced st ->
  exists c st', pickSmoothWeighted localeCompare st cs = (Some c, st') /\ accountId c ∈ ids /\ balanced st' /\
  (forall id, id ∈ ids -> cur st' id == cur st id + base_weight id - (if decide (accountId c = id) then total_weight else 0))%Q.
Proof.
  intros Hpool (Hfin & Hsum & Hlow). unfold pickSmoothWeighted. set (st0 := filter _ st).
  pose proof (sort_perm (by_age localeCompare) cs) as Hperm. set (l := sort _ cs) in *.
  assert (Hl : same_pool l) by (unfold same_pool; rewrite Hperm; exact Hpool).
  assert (Hids : forall c, c ∈ l -> accountId c ∈ ids).
  { intros c Hc. apply list_elem_of_In, (Permutation_in _ (same_pool_ids l Hl)), in_map, list_elem_of_In, Hc. }
  assert (H0 : forall id, id ∈ ids -> cur st0 id = cur st id).
  { intros id Hid. apply filter_cur. apply list_elem_of_In, (Permutation_in _ (Permutation_sym (same_pool_ids cs Hpool))), list_elem_of_In, Hid. }
  destruct (smooth_loop l st0 None 0) as (st1 & sel & t & Hf & Hf1 & Hc1 & Ht & Hs).
  { rewrite (same_pool_ids l Hl). exact base_nodup. } { by apply same_pool_weighted. } { by apply filter_fin. }
  cbn [wrap] in Hf. rewrite Hf. rewrite total_in_pool in Ht by done.
  assert (Hcur1 : forall id, id ∈ ids -> (cur st1 id == cur st id + base_weight id)%Q).
  { intros id Hid. by rewrite Hc1, H0, weight_in_pool. }
  assert (Hsum1 : (qsum (map (cur st1) ids) == total_weight)%Q).
  { rewrite (qsum_ext _ _ _ Hcur1), qsum_plus, Hsum, sum_base_weight. lra. }
  assert (Hzero : forall id, id ∈ ids -> (base_weight id == 0 -> cur st1 id == 0)%Q).
  { intros id Hid Hz. rewrite Hcur1, Hz by done. destruct (Hlow id Hid) as [_ ->]; [lra|done]. }
  assert (Hnn : forall c, c ∈ l -> (0 <= wt c)%Q).
  { intros c Hc. pose proof (same_pool_weighted l Hl) as Hw. eapply Forall_forall in Hw; [|exact Hc]. apply Hw. }
  destruct sel as [[c q]|].
  - destruct Hs as (Hmax & _ & [(Hc & Hpos & Hq)|]); [|done]. cbn [wrap].
    assert (Hqpos : (0 < q)%Q).
    { apply Qnot_le_lt. intros Hle. assert (qsum (map (cur st1) ids) <= 0)%Q as Hneg; [|lra].
      apply qsum_map_nonpos. intros id Hid.
      assert (exists d, d ∈ l /\ accountId d = id) as (d & Hd & <-).
      { apply list_elem_of_In, (Permutation_in _ (Permutation_sym (same_pool_ids l Hl))), in_map_iff in Hid as (d & <- & Hd).
        exists d. split; [by apply list_elem_of_In|done]. }
      pose proof (Hnn d Hd). destruct (Qlt_le_dec 0 (wt d)) as [Hp|Hp]; [specialize (Hmax d Hd Hp); lra|].
      rewrite Hzero; [lra|done|]. rewrite (weight_of_member l d Hl Hd). lra. }
    rewrite (cur_default st1 _ Hf1). cbn [num_sub num_add num_neg]. eexists c, _. split; [reflexivity|]. split; [by apply Hids|].
    assert (Hcur2 : forall id, id ∈ ids -> (cur (<[accountId c := Fin (Qred (cur st1 (accountId c) + Qred (- t)))]> st1) id ==
                     cur st id + base_weight id - (if decide (accountId c = id) then total_weight else 0))%Q).
    { intros id Hid. rewrite cur_insert. pose proof (Hcur1 id Hid) as Hi. destruct (decide (accountId c = id)) as [<-|].
      - rewrite !Qred_correct. lra.
      - lra. }
    split; [|exact Hcur2]. split; [by apply fin_state_insert|]. split.
    + rewrite (qsum_ext _ (fun id => (cur st id + base_weight id) + - (if decide (accountId c = id) then total_weight else 0))%Q)
        by (intros id Hid; rewrite (Hcur2 id Hid); lra).
      rewrite !qsum_plus, Hsum, sum_base_weight. rewrite (qsum_single _ (accountId c) (- total_weight)%Q ids); [lra|exact base_nodup|by apply Hids| |].
      * intros k Hk. rewrite decide_False by done. lra.
      * rewrite decide_True by done. lra.
    + intros id Hid. rewrite (Hcur2 id Hid). pose proof (Hcur1 id Hid) as Hi. destruct (Hlow id Hid) as [Hlo Hze].
      destruct (decide (accountId c = id)) as [<-|].
      * split; [lra|]. rewrite (weight_of_member l c Hl Hc). intros; lra.
      * split; [|intros Hz; specialize (Hze Hz); lra].
        assert (0 <= base_weight id)%Q; [|lra].
        apply list_elem_of_In, (Permutation_in _ (Permutation_sym (same_pool_ids l Hl))), in_map_iff in Hid as (d & <- & Hd).
        apply list_elem_of_In in Hd. rewrite (weight_of_member l d Hl Hd). by apply Hnn.
  - exfalso. destruct Hs as [_ Hz]. assert (qsum (map wt l) == 0)%Q as Hq; [|rewrite (total_in_pool l Hl) in Hq; lra].
    clear -Hz. induction Hz as [|c l Hc _ IH]; simpl; [lra|]. lra.
Qed.

(** The scheduler's picks over a sequence of rounds. *)
Fixpoint wrr_run (st : gmap string num) (rounds : list (list candidate)) : list (option candidate) * gmap string num :=
  match rounds with
  | [] => ([], st)
  | cs :: rounds' =>
    let '(c, st1) := pickSmoothWeighted localeCompare st cs in
    let '(chosen, st2) := wrr_run st1 rounds' in (c :: chosen, st2)
  end.
Definition picks (id : string) (chosen : list (option candidate)) : Z :=
  count (fun o => match o with Some c => String.eqb (accountId c) id | None => false end) chosen.

Lemma wrr_run_balance rounds st :
  Forall same_pool rounds -> balanced st ->
  let '(chosen, st') := wrr_run st rounds in
  balanced st' /\ Forall (fun o => exists c, o = Some c) chosen /\
  (forall id, id ∈ ids -> cur st' id == cur st id + inject_Z (Z.of_nat (length rounds)) * base_weight id - inject_Z (picks id chosen) * total_weight)%Q.
Proof.
  intros Hp. revert st. induction Hp as [|cs rounds Hcs _ IH]; intros st Hst.
  - cbn [wrr_run]. split; [done|]. split; [done|]. intros id _. change (inject_Z (Z.of_nat (length []))) with 0%Q.
    change (inject_Z (picks id [])) with 0%Q. lra.
  - cbn [wrr_run]. destruct (pick_round cs st Hcs Hst) as (c & st1 & -> & Hc & Hst1 & Hcur1).
    specialize (IH st1 Hst1). destruct (wrr_run st1 rounds) as [chosen st2]. destruct IH as (Hst2 & Hall & Hcur).
    split; [done|]. split; [constructor; [by exists c|done]|]. intros id Hid. rewrite (Hcur id Hid), (Hcur1 id Hid).
    cbn [length]. rewrite Nat2Z.inj_succ. unfold Z.succ. unfold picks. rewrite count_cons, !inject_Z_plus.
    change (inject_Z 1) with 1%Q. destruct (decide (accountId c = id)) as [->|Hn].
    + rewrite String.eqb_refl. change (inject_Z 1) with 1%Q. lra.
    + rewrite (proj2 (String.eqb_neq _ _) Hn). change (inject_Z 0) with 0%Q. lra.
Qed.
End fairness.

Lemma balanced_empty base : (0 < total_weight base)%Q -> balanced base ∅.
Proof.
  intros HT. split; [intros ? ?; by rewrite lookup_empty|]. assert (forall id, cur ∅ id = 0%Q) as H0 by (intros; unfold cur; by rewrite lookup_empty).
  split; [|intros id _; rewrite H0; split; [lra|reflexivity]].
  induction (map fst base) as [|x l IH]; simpl; [lra|]. rewrite IH, H0. lra.
Qed.

Lemma qsum_opp {A} (f : A -> Q) l : (qsum (map (fun x => - f x) l) == - qsum (map f l))%Q.
Proof. induction l as [|x l IH]; simpl; [lra|]. rewrite IH. lra. Qed.

Lemma balanced_upper base st id :
  NoDup (map fst base) -> id ∈ map fst base -> balanced base st -> (0 < total_weight base)%Q ->
  (cur st id <= inject_Z (Z.of_nat (length base) - 1) * total_weight base)%Q.
Proof.
  intros Hnd Hid (_ & Hsum & Hlow) HT. apply list_elem_of_In in Hid as Hin. destruct (Add_inv _ _ Hin) as [rest Hadd].
  apply Permutation_Add in Hadd. rewrite <- Hadd in Hsum. cbn [map qsum foldr] in Hsum. fold (qsum (map (cur st) rest)) in Hsum.
  assert (Hlen : Z.of_nat (length rest) = (Z.of_nat (length base) - 1)%Z).
  { apply Permutation_length in Hadd. rewrite length_map in Hadd. simpl in Hadd. lia. }
  pose proof (qsum_bound (fun k => - cur st k)%Q rest (total_weight base)) as Hb. rewrite qsum_opp, Hlen in Hb.
  assert (forall k, k ∈ rest -> - cur st k <= total_weight base)%Q as Hr; [|specialize (Hb Hr); lra].
  intros k Hk. destruct (Hlow k); [|lra]. apply list_elem_of_In, (Permutation_in _ Hadd). right. by apply list_elem_of_In.
Qed.

(** C23: Smooth weighted round robin is fair.  Over any number of rounds in which the same
    accounts compete, every round chooses one, and each account is chosen as often as its
    share of the total weight says: never a full turn more, and never [length base - 1]
    turns less - so no account of positive weight starves. *)
Theorem smooth_weighted_fair (localeCompare : string -> string -> num) (base : list (string * Q)) (rounds : list (list candidate)) id :
  NoDup (map fst base) -> Forall (fun b => 0 <= b.2)%Q base -> (0 < total_weight base)%Q -> Forall (same_pool base) rounds ->
  id ∈ map fst base ->
  let chosen := (wrr_run localeCompare ∅ rounds).1 in
  let n := inject_Z (Z.of_nat (length rounds)) in
  length chosen = length rounds /\ Forall (fun o => exists c, o = Some c) chosen /\
  (inject_Z (picks id chosen) * total_weight base < n * base_weight base id + total_weight base)%Q /\
  (n * base_weight base id <= inject_Z (picks id chosen) * total_weight base + inject_Z (Z.of_nat (length base) - 1) * total_weight base)%Q.
Proof.
  intros Hnd Hw HT Hp Hid. cbv zeta.
  pose proof (wrr_run_balance localeCompare base Hnd Hw HT rounds ∅ Hp (balanced_empty base HT)) as H.
  assert (forall st, length (wrr_run localeCompare st rounds).1 = length rounds) as Hl.
  { clear. induction rounds as [|cs r IH]; intros st; [done|]. cbn [wrr_run]. destruct (pickSmoothWeighted _ _ _) as [c st1].
    specialize (IH st1). destruct (wrr_run _ _ _). simpl in *. congruence. }
  specialize (Hl ∅). destruct (wrr_run localeCompare ∅ rounds) as [chosen st']. destruct H as (Hst & Hall & Hcur). cbn [fst] in *.
  split; [done|]. split; [done|]. specialize (Hcur id Hid). replace (cur ∅ id) with 0%Q in Hcur by (unfold cur; by rewrite lookup_empty).
  pose proof (balanced_upper base st' id Hnd Hid Hst HT). destruct Hst as (_ & _ & Hlow). destruct (Hlow id Hid). split; lra.
Qed.

(** The collation used in the examples: code-unit order. *)
Definition byte_compare (a b : string) : num := if String.eqb a b then Fin 0 else if String.ltb a b then Fin (-1) else Fin 1.
Definition sample (acc : string) (prio : Z) (w : Q) (load : Q) : candidate :=
  {| vmId := ("vm-" ++ acc)%string; accountId := acc; model := "claude-sonnet-4"; priority := num_of_Z prio; weight := Fin w; c_inflight := 0;
     maxConcurrency := num_of_Z 2; loadRatio := Fin load; lastUsedAt := Fin 0; busy := false; availableAt := None; waitReason := None;
     cooldownReason := "" |}.
Definition sample_base : list (string * Q) := [("a", 5); ("b", 1); ("c", 1)]%Q.
Definition sample_rounds : list (list candidate) := repeat [sample "a" 1 5 0; sample "b" 1 1 0; sample "c" 1 1 0] 7.

Example sample_sequence :
  map (fun o => match o with Some c => accountId c | None => "" end) (wrr_run byte_compare ∅ sample_rounds).1 =
  ["a"; "a"; "b"; "a"; "c"; "a"; "a"].
Proof. vm_compute. reflexivity. Qed.

Lemma smooth_weighted_fair_witness :
  let chosen := (wrr_run byte_compare ∅ sample_rounds).1 in
  let n := inject_Z (Z.of_nat (length sample_rounds)) in
  length chosen = length sample_rounds /\ Forall (fun o => exists c, o = Some c) chosen /\
  (inject_Z (picks "b" chosen) * total_weight sample_base < n * base_weight sample_base "b" + total_weight sample_base)%Q /\
  (n * base_weight sample_base "b" <= inject_Z (picks "b" chosen) * total_weight sample_base + inject_Z (Z.of_nat (length sample_base) - 1) * total_weight sample_base)%Q.
Proof.
  apply (smooth_weighted_fair byte_compare sample_base sample_rounds "b").
  - apply (bool_decide_unpack (NoDup (map fst sample_base))). vm_compute. exact I.
  - repeat constructor; simpl; lra.
  - vm_compute. reflexivity.
  - apply Forall_forall. intros cs Hcs. apply list_elem_of_In, repeat_spec in Hcs as ->. apply Permutation_refl.
  - apply elem_of_cons; right. apply elem_of_cons; by left.
Defined.

Lemma pick_spec_witness :
  let cs := [sample "a" 1 5 0; sample "b" 2 1 (1 # 2); sample "c" 2 1 0] in
  let r := pick byte_compare "lru" {| cursors := ∅; smooth := ∅ |} (fun _ => true) (Some {| b_vmId := "vm-z"; b_accountId := "z" |}) "m" cs cs in
  (if sticky_holds (fun _ => true) (Some {| b_vmId := "vm-z"; b_accountId := "z" |}) cs then
     stickyCleared r = false /\ rotated r = {| cursors := ∅; smooth := ∅ |} /\
     exists b c, Some {| b_vmId := "vm-z"; b_accountId := "z" |} = Some b /\ c ∈ cs /\ bound_to b c = true /\
       choice r = if isReservable c then Some (Some c, "sticky") else None
   else match choice r with
        | None => cs = []
        | Some (None, _) => False
        | Some (Some c, _) => best_in cs c
        end) /\
  (stickyCleared r = true <->
   exists b, Some {| b_vmId := "vm-z"; b_accountId := "z" |} = Some b /\ match find (bound_to b) cs with
                               | None => True
                               | Some c => isReservable c = false /\ shouldWait c = false
                               end).
Proof.
  intros cs r. apply (pick_spec byte_compare "lru" {| cursors := ∅; smooth := ∅ |} (fun _ => true)); [repeat constructor|by left].
Defined.
Example sample_pick :
  let cs := [sample "a" 1 5 0; sample "b" 2 1 (1 # 2); sample "c" 2 1 0] in
  choice (pick byte_compare "lru" {| cursors := ∅; smooth := ∅ |} (fun _ => true) None "m" cs cs) = Some (Some (sample "c" 2 1 0), "priority-load").
Proof. vm_compute. reflexivity. Qed.
