(* ===== verification/Waiting.v ===== *)
(** * Waiting for capacity (src/src/lib/pool/pool-scheduler.mjs)

    Wait plans ([makeWaitPlan], [remainingSlotWaitMs], [resolveWaitPlan]) and the waiter
    queues: [waitForCapacity], its timer and abort, [notifyCapacity].  A waiter is a number;
    its promise's fate is an entry of the log. *)

From S2P Require Import Prelude.
From S2P Require Import JsValue.
From S2P Require Import QuotaWindow.
From S2P Require Import Eligibility.
From S2P Require Import Scheduler.
From S2P Require Import Ranking.
From Stdlib Require Import Permutation.
#[local] Open Scope string_scope.
#[local] Open Scope list_scope.
#[local] Open Scope js_scope.

(** ** Wait plans *)

(** [Number(v) || d] *)
Definition or_num (n d : num) : num := if truthy (JNum n) then n else d.
Definition maxWaiters (config : jsval) : num := num_max (Fin 1) (or_num (to_number (config?."max_waiters_per_account")) (num_of_Z 32)).
Definition waitBase (config : jsval) (sticky : bool) : num :=
  to_number (if sticky then config?."sticky_wait_timeout_ms" else config?."fallback_wait_timeout_ms").
Definition time_left (deadline : option num) (now : num) : num :=
  match deadline with Some d => if is_finite d then num_sub d now else PInf | None => PInf end.

Record waitPlan := {
  p_accountId : option string; p_vmId : option string; p_reason : option string; timeoutMs : num; p_maxWaiting : num; p_sticky : bool;
  p_deadline : num; p_availableAt : option num;
}.

Definition makeWaitPlan (config : jsval) (c : option candidate) (sticky : bool) (requestDeadline : option num) (now : num) : waitPlan :=
  let timeoutMs := num_max (Fin 0) (num_min (waitBase config sticky) (time_left requestDeadline now)) in
  {| p_accountId := c ≫= fun c => Some (accountId c); p_vmId := c ≫= fun c => Some (vmId c); p_reason := c ≫= waitReason; timeoutMs := timeoutMs;
     p_maxWaiting := maxWaiters config; p_sticky := sticky; p_deadline := num_add now timeoutMs; p_availableAt := c ≫= availableAt |}.

Definition remainingSlotWaitMs (config : jsval) (startedAt : num) (loopDeadline : option num) (sticky : bool) (now : num) : num :=
  let base := waitBase config sticky in
  let planLeft := num_sub base (num_sub now (if truthy (JNum startedAt) then startedAt else now)) in
  num_max (Fin 0) (num_min_list [base; time_left loopDeadline now; planLeft]).

Inductive planned := Plan (p : waitPlan) | QueueFull | NoPlan.

Section plans.
Variable localeCompare : string -> string -> num.
Variable config : jsval.
(** [waiterCount] of an account. *)
Variable waiterCount : string -> Z.

Definition room (acc : string) : bool := num_ltb (num_of_Z (waiterCount acc)) (maxWaiters config).
Definition waitable (c : candidate) : bool := busy c && negb (isReservable c).

(** The first candidate of the order whose queue has room; [None] is the account-less copy of an empty pool. *)
Fixpoint first_room (order : list (option candidate)) : option (option candidate) :=
  match order with
  | [] => None
  | c :: order' => if match c with Some c => room (accountId c) | None => num_ltb (Fin 0) (maxWaiters config) end then Some c else first_room order'
  end.

Definition wait_order (cs : list candidate) : list (option candidate) :=
  let ranked := sort (by_age localeCompare) cs in
  match peekRank localeCompare cs with
  | Some (Some peek, _) => Some peek :: map Some (List.filter (fun c => negb (String.eqb (accountId c) (accountId peek))) ranked)
  | Some (None, _) => None :: map Some ranked
  | None => map Some ranked
  end.

Definition resolveWaitPlan (candidates : list candidate) (bound : option binding) (stickyCleared : bool) (requestDeadline : option num)
    (now : num) : planned :=
  let sticky_match :=
    if stickyCleared then None
    else match bound with
         | Some b => match find (bound_to b) candidates with
                     | Some c => if shouldWait c && negb (isReservable c) && room (accountId c) then Some c else None
                     | None => None
                     end
         | None => None
         end in
  match sticky_match with
  | Some c => Plan (makeWaitPlan config (Some c) true requestDeadline now)
  | None =>
    let pool := List.filter waitable candidates in
    match first_room (wait_order pool) with
    | Some c => Plan (makeWaitPlan config c false requestDeadline now)
    | None => match pool with [] => NoPlan | _ => QueueFull end
    end
  end.
End plans.

(** ** The queues *)

Module Queue.

Record waiter := { w_id : nat; w_sticky : bool }.
Inductive outcome := Woken | TimedOut | Aborted.
(** [waiters]: the buckets in insertion order; the next symbol; the settled promises. *)
Record state := { waiters : list (string * list waiter); next_id : nat; settled : list (nat * outcome) }.
Definition empty : state := {| waiters := []; next_id := 0; settled := [] |}.

Definition bucket_of (key : string) (ws : list (string * list waiter)) : list waiter :=
  match find (fun b => String.eqb b.1 key) ws with Some b => b.2 | None => [] end.
Definition waiterCount (s : state) (key : string) : Z := if String.eqb key "" then 0 else Z.of_nat (length (bucket_of key (waiters s))).
Definition totalWaiters (s : state) : nat := list_sum (map (fun b => length b.2) (waiters s)).

(** [bucket.set(id, entry)], making the bucket when it is missing. *)
Fixpoint enqueue (key : string) (w : waiter) (ws : list (string * list waiter)) : list (string * list waiter) :=
  match ws with
  | [] => [(key, [w])]
  | b :: ws' => if String.eqb b.1 key then (b.1, b.2 ++ [w]) :: ws' else b :: enqueue key w ws'
  end.

(** [cleanup] of one waiter: drop it, and its bucket when that leaves it empty. *)
Definition drop_from (p : waiter -> bool) (b : string * list waiter) : list (string * list waiter) :=
  match List.filter (fun w => negb (p w)) b.2 with [] => [] | rest => [(b.1, rest)] end.
Definition drop_waiters (p : waiter -> bool) (ws : list (string * list waiter)) : list (string * list waiter) := flat_map (drop_from p) ws.
Definition has_id (i : nat) (w : waiter) : bool := (w_id w =? i)%nat.
Definition queued (s : state) : list waiter := flat_map snd (waiters s).

Definition settle (o : outcome) (l : list waiter) : list (nat * outcome) := map (fun w => (w_id w, o)) l.

Inductive event :=
| Wait (accountId stickyKey : string) (sticky aborted : bool)
| Timer (i : nat)
| Abort (i : nat)
| Notify (accountId : string).

Definition bucketId (accountId stickyKey : string) : string :=
  if String.eqb accountId "" then if String.eqb stickyKey "" then "_pool" else stickyKey else accountId.

(** [waitForCapacity]: [None] when it throws [pool_wait_queue_full]. *)
Definition waitForCapacity (maxWaiters : num) (s : state) (acc stickyKey : string) (sticky aborted : bool) : option state :=
  let key := bucketId acc stickyKey in
  if num_leb maxWaiters (num_of_Z (waiterCount s key)) then None
  else
    let w := {| w_id := next_id s; w_sticky := sticky |} in
    if aborted then Some {| waiters := waiters s; next_id := S (next_id s); settled := settled s ++ [(next_id s, Aborted)] |}
    else Some {| waiters := enqueue key w (waiters s); next_id := S (next_id s); settled := settled s |}.

(** The end of one waiter by its timer or its signal: nothing once it was woken, its listeners are gone. *)
Definition leave (o : outcome) (s : state) (i : nat) : state :=
  {| waiters := drop_waiters (has_id i) (waiters s); next_id := next_id s;
     settled := settled s ++ settle o (List.filter (has_id i) (queued s)) |}.

(** [notifyCapacity]: everybody of the account and the others' waiters that do not wait for
    their own account; with no account, everybody. *)
Definition notifyCapacity (s : state) (acc : string) : state :=
  if String.eqb acc "" then {| waiters := []; next_id := next_id s; settled := settled s ++ settle Woken (queued s) |}
  else
    let others := List.filter (fun b => negb (String.eqb b.1 acc)) (waiters s) in
    {| waiters := drop_waiters (fun w => negb (w_sticky w)) others; next_id := next_id s;
       settled := settled s ++ settle Woken (bucket_of acc (waiters s)) ++
                  settle Woken (List.filter (fun w => negb (w_sticky w)) (flat_map snd others)) |}.

Definition step (maxWaiters : num) (s : state) (ev : event) : state :=
  match ev with
  | Wait acc key sticky aborted => default s (waitForCapacity maxWaiters s acc key sticky aborted)
  | Timer i => leave TimedOut s i
  | Abort i => leave Aborted s i
  | Notify acc => notifyCapacity s acc
  end.
Definition run (maxWaiters : num) (s : state) (evs : list event) : state := foldl (step maxWaiters) s evs.

End Queue.

Import Queue.

(** ** Every waiter is answered once *)

Lemma elem_queued s w : w ∈ queued s <-> exists b, b ∈ waiters s /\ w ∈ b.2.
Proof.
  unfold queued. rewrite list_elem_of_In, in_flat_map. split; intros (b & Hb & Hw); exists b; by rewrite ?list_elem_of_In in *.
Qed.

Lemma drop_flat p ws : flat_map snd (drop_waiters p ws) = List.filter (fun w => negb (p w)) (flat_map snd ws).
Proof.
  induction ws as [|b ws IH]; [done|]. cbn [drop_waiters flat_map]. fold (drop_waiters p ws).
  rewrite flat_map_app, IH, List.filter_app. f_equal. unfold drop_from. destruct (List.filter _ b.2); [done|]. simpl. by rewrite app_nil_r.
Qed.

Lemma filter_split {A} (p : A -> bool) l : Permutation l (List.filter p l ++ List.filter (fun x => negb (p x)) l).
Proof.
  induction l as [|x l IH]; [done|]. simpl. destruct (p x); simpl; [by rewrite <- IH|].
  rewrite <- Permutation_middle. by constructor.
Qed.

Lemma enqueue_flat key w ws : Permutation (flat_map snd (enqueue key w ws)) (w :: flat_map snd ws).
Proof.
  induction ws as [|b ws IH]; [done|]. cbn [enqueue]. destruct (String.eqb b.1 key); cbn [flat_map snd].
  - rewrite <- app_assoc. symmetry. apply Permutation_middle.
  - rewrite IH. symmetry. apply Permutation_middle.
Qed.

(** Buckets of the map: distinct keys, none empty. *)
Definition wf_buckets (ws : list (string * list waiter)) : Prop := NoDup (map fst ws) /\ Forall (fun b => b.2 <> []) ws.

Lemma keys_drop p ws k : k ∈ map fst (drop_waiters p ws) -> k ∈ map fst ws.
Proof.
  induction ws as [|b ws IH]; [done|]. cbn [drop_waiters flat_map map]. fold (drop_waiters p ws). rewrite map_app, elem_of_app, elem_of_cons.
  unfold drop_from. intros [H|H]; [|by right; apply IH]. left. destruct (List.filter _ b.2); [by apply elem_of_nil in H|]. by apply list_elem_of_singleton in H.
Qed.

Lemma wf_drop p ws : wf_buckets ws -> wf_buckets (drop_waiters p ws).
Proof.
  intros [Hnd Hne]. induction ws as [|b ws IH]; [done|]. cbn [map] in Hnd. apply NoDup_cons in Hnd as [Hb Hnd]. apply Forall_cons in Hne as [_ Hne].
  destruct (IH Hnd Hne) as [IH1 IH2]. cbn [drop_waiters flat_map]. fold (drop_waiters p ws). unfold drop_from.
  destruct (List.filter _ b.2) as [|w r] eqn:E; [done|]. split; cbn [app map].
  - apply NoDup_cons. split; [|done]. intros H. by apply keys_drop in H.
  - by constructor.
Qed.

Lemma keys_enqueue key w ws k : k ∈ map fst (enqueue key w ws) <-> k = key \/ k ∈ map fst ws.
Proof.
  induction ws as [|b ws IH]; cbn [enqueue]; [simpl; by rewrite list_elem_of_singleton, elem_of_nil; tauto|].
  destruct (String.eqb_spec b.1 key) as [<-|Hn]; cbn [map fst]; rewrite !elem_of_cons; [tauto|]. rewrite IH. tauto.
Qed.

Lemma wf_enqueue key w ws : wf_buckets ws -> wf_buckets (enqueue key w ws).
Proof.
  intros [Hnd Hne]. induction ws as [|b ws IH].
  - split; [apply NoDup_singleton|by constructor].
  - cbn [map] in Hnd. apply NoDup_cons in Hnd as [Hb Hnd]. apply Forall_cons in Hne as [Hbne Hne].
    destruct (IH Hnd Hne) as [IH1 IH2]. cbn [enqueue]. destruct (String.eqb_spec b.1 key) as [E|E].
    + split; [by apply NoDup_cons|]. constructor; [|done]. cbn. by destruct b.2.
    + split; [|by constructor]. cbn [map]. apply NoDup_cons. split; [|done]. rewrite keys_enqueue. by intros [?|?].
Qed.

Lemma wf_filter p ws : wf_buckets ws -> wf_buckets (List.filter p ws).
Proof.
  intros [Hnd Hne]. induction ws as [|b ws IH]; [done|]. cbn [map] in Hnd. apply NoDup_cons in Hnd as [Hb Hnd]. apply Forall_cons in Hne as [Hbne Hne].
  destruct (IH Hnd Hne) as [IH1 IH2]. cbn [List.filter]. destruct (p b); [|done]. split; [|by constructor].
  cbn [map]. apply NoDup_cons. split; [|done]. intros H. apply Hb. apply list_elem_of_In, in_map_iff in H as (c & <- & Hc).
  apply filter_In in Hc as [Hc _]. by apply list_elem_of_In, in_map.
Qed.

(** The numbers handed out are those queued and those settled, each once. *)
Definition accounts_for (s : state) : Prop := Permutation (map w_id (queued s) ++ map fst (settled s)) (seq 0 (next_id s)).

Lemma fst_settle o l : map fst (settle o l) = map w_id l.
Proof. unfold settle. by rewrite map_map. Qed.

Lemma bucket_split acc ws :
  NoDup (map fst ws) ->
  Permutation (flat_map snd ws) (bucket_of acc ws ++ flat_map snd (List.filter (fun b => negb (String.eqb b.1 acc)) ws)).
Proof.
  unfold bucket_of. induction ws as [|b ws IH]; intros Hnd; [done|]. cbn [map] in Hnd. apply NoDup_cons in Hnd as [Hb Hnd]. cbn [flat_map find List.filter].
  destruct (String.eqb_spec b.1 acc) as [E|E]; cbn [negb].
  - assert (List.filter (fun b => negb (String.eqb b.1 acc)) ws = ws) as ->; [|done].
    clear -Hb E. induction ws as [|c ws IH]; [done|]. cbn [map] in Hb. cbn [List.filter].
    destruct (String.eqb_spec c.1 acc) as [E'|_]; cbn [negb]; [exfalso; apply Hb; rewrite E, <- E'; by apply elem_of_cons; left|].
    f_equal. apply IH. intros H. apply Hb. by apply elem_of_cons; right.
  - rewrite (IH Hnd). cbn [flat_map]. rewrite !app_assoc. apply Permutation_app_tail, Permutation_app_comm.
Qed.

Lemma settle_some s ws o l :
  Permutation (queued s) (l ++ flat_map snd ws) -> accounts_for s ->
  accounts_for {| waiters := ws; next_id := next_id s; settled := settled s ++ settle o l |}.
Proof.
  intros Hq Hacc. unfold accounts_for in *. unfold queued at 1. cbn [waiters next_id settled]. rewrite <- Hacc.
  rewrite (Permutation_map w_id Hq), !map_app, fst_settle.
  rewrite (Permutation_app_comm (map fst (settled s))), app_assoc. apply Permutation_app_tail, Permutation_app_comm.
Qed.

Lemma notify_split s acc :
  wf_buckets (waiters s) ->
  let others := List.filter (fun b => negb (String.eqb b.1 acc)) (waiters s) in
  Permutation (queued s) ((bucket_of acc (waiters s) ++ List.filter (fun w => negb (w_sticky w)) (flat_map snd others)) ++
                          flat_map snd (drop_waiters (fun w => negb (w_sticky w)) others)).
Proof.
  intros [Hnd _]. cbv zeta. unfold queued. rewrite (bucket_split acc _ Hnd), drop_flat, <- app_assoc.
  apply Permutation_app_head, filter_split.
Qed.

Lemma step_accounts mw s ev :
  wf_buckets (waiters s) -> accounts_for s -> wf_buckets (waiters (step mw s ev)) /\ accounts_for (step mw s ev).
Proof.
  intros Hwf Hacc. destruct ev as [acc key sticky aborted|i|i|acc]; cbn [step].
  - unfold waitForCapacity. destruct (num_leb _ _); [done|]. unfold accounts_for in *. destruct aborted; cbn [default id waiters].
    + split; [done|]. unfold queued in *. cbn [waiters next_id settled]. rewrite map_app, app_assoc, Hacc. by rewrite seq_S.
    + split; [by apply wf_enqueue|]. unfold queued in *. cbn [waiters next_id settled] in *.
      rewrite (Permutation_map w_id (enqueue_flat _ _ _)), seq_S. cbn [map app Nat.add w_id]. rewrite Hacc. apply Permutation_cons_append.
  - split; [by apply wf_drop|]. apply settle_some; [|done]. rewrite drop_flat. apply filter_split.
  - split; [by apply wf_drop|]. apply settle_some; [|done]. rewrite drop_flat. apply filter_split.
  - unfold notifyCapacity. destruct (String.eqb acc "").
    + split; [split; [apply NoDup_nil_2|constructor]|]. apply settle_some; [|done]. simpl. by rewrite app_nil_r.
    + split; [by apply wf_drop, wf_filter|]. unfold settle. rewrite <- map_app. by apply settle_some; [apply notify_split|].
Qed.

(** [length bucket - 1 < maxWaiters]: the bucket had room when its last waiter came. *)
Definition had_room (mw : num) (l : list waiter) : Prop := num_ltb (num_of_Z (Z.of_nat (length l) - 1)) mw = true.
Definition keyed (ws : list (string * list waiter)) : Prop := Forall (fun b => b.1 <> "") ws.
Definition fits (mw : num) (ws : list (string * list waiter)) : Prop := Forall (fun b => had_room mw b.2) ws.

Lemma had_room_le mw l l' : (length l' <= length l)%nat -> had_room mw l -> had_room mw l'.
Proof. unfold had_room. intros Hl H. eapply num_leb_ltb_trans; [|exact H]. apply num_leb_Z. lia. Qed.

Lemma enqueue_fits mw key w ws :
  num_ltb (num_of_Z (Z.of_nat (length (bucket_of key ws)))) mw = true -> fits mw ws -> fits mw (enqueue key w ws).
Proof.
  intros Hr Hf. induction Hf as [|b ws Hb Hf IH]; cbn [enqueue].
  - constructor; [|constructor]. unfold had_room. cbn. exact Hr.
  - unfold bucket_of in Hr. cbn [find] in Hr. destruct (String.eqb b.1 key).
    + constructor; [|done]. unfold had_room. cbn. rewrite length_app. cbn. by replace (Z.of_nat (length b.2 + 1) - 1)%Z with (Z.of_nat (length b.2)) by lia.
    + constructor; [done|by apply IH].
Qed.

Lemma drop_fits mw p ws : fits mw ws -> fits mw (drop_waiters p ws).
Proof.
  induction 1 as [|b ws Hb Hf IH]; [constructor|]. cbn [drop_waiters flat_map]. apply Forall_app. split; [|done].
  unfold drop_from. pose proof (filter_length_le (fun w => negb (p w)) b.2) as Hl. destruct (List.filter _ b.2) as [|w r] eqn:E; [constructor|].
  constructor; [|constructor]. cbn. by eapply had_room_le.
Qed.

Lemma drop_keyed p ws : keyed ws -> keyed (drop_waiters p ws).
Proof.
  induction 1 as [|b ws Hb Hf IH]; [constructor|]. cbn [drop_waiters flat_map]. apply Forall_app. split; [|done].
  unfold drop_from. destruct (List.filter _ b.2); [constructor|]. by constructor.
Qed.

Lemma bucketId_nonempty acc key : bucketId acc key <> "".
Proof. unfold bucketId. destruct (String.eqb_spec acc ""); [|done]. by destruct (String.eqb_spec key ""). Qed.

Lemma num_leb_false_ltb m z : m <> NaN -> num_leb m (num_of_Z z) = false -> num_ltb (num_of_Z z) m = true.
Proof. unfold num_of_Z. destruct m; try done. intros _ H. simpl in *. by rewrite H. Qed.

Lemma step_fits mw s ev : mw <> NaN -> fits mw (waiters s) -> fits mw (waiters (step mw s ev)).
Proof.
  intros Hn Hf. destruct ev as [acc key sticky aborted|i|i|acc]; cbn [step].
  - unfold waitForCapacity. destruct (num_leb mw _) eqn:E; [done|]. destruct aborted; [done|]. cbn [default id waiters].
    apply enqueue_fits; [|done]. apply (num_leb_false_ltb _ _ Hn) in E. unfold waiterCount in E.
    by rewrite (proj2 (String.eqb_neq _ _) (bucketId_nonempty acc key)) in E.
  - by apply drop_fits.
  - by apply drop_fits.
  - unfold notifyCapacity. destruct (String.eqb acc ""); [constructor|]. apply drop_fits.
    apply Forall_forall. intros b Hb. apply elem_filter in Hb as [Hb _]. by eapply Forall_forall in Hf.
Qed.

(** C22: The waiter queues.  Whatever waits, timers, aborts and notifications happen in
    whatever order: every waiter is either still queued or answered exactly once, no queue
    holds more than [maxWaiters] (plus a fraction), no empty queue is kept, and after
    capacity returned to an account only the waiters bound to other accounts still wait. *)
Theorem waiters_answered_once (maxWaiters : num) (evs : list event) :
  maxWaiters <> NaN ->
  let s := run maxWaiters empty evs in
  accounts_for s /\ NoDup (map w_id (queued s) ++ map fst (settled s)) /\ wf_buckets (waiters s) /\ fits maxWaiters (waiters s) /\
  forall acc, let s' := step maxWaiters s (Notify acc) in
    Forall (fun w => w_sticky w = true) (queued s') /\
    Forall (fun w => (w_id w, Woken) ∈ settled s') (bucket_of acc (waiters s)) /\ bucket_of acc (waiters s') = [].
Proof.
  intros Hn. cbv zeta. assert (wf_buckets (waiters (run maxWaiters empty evs)) /\ accounts_for (run maxWaiters empty evs) /\
      fits maxWaiters (waiters (run maxWaiters empty evs))) as (Hwf & Hacc & Hf).
  { assert (wf_buckets (waiters empty) /\ accounts_for empty /\ fits maxWaiters (waiters empty)) as H0.
    { split; [split; [apply NoDup_nil_2|constructor]|]. split; [apply perm_nil|constructor]. }
    revert H0. generalize empty. unfold run. induction evs as [|ev evs IH]; intros s (H1 & H2 & H3); [done|].
    cbn [foldl]. apply IH. destruct (step_accounts maxWaiters s ev H1 H2). split; [done|]. split; [done|]. by apply step_fits. }
  generalize dependent (run maxWaiters empty evs). intros s Hwf Hacc Hf. split; [done|]. split.
  { unfold accounts_for in Hacc. rewrite Hacc. apply NoDup_ListNoDup, seq_NoDup. }
  split; [done|]. split; [done|]. intros acc. cbn [step]. unfold notifyCapacity. destruct (String.eqb_spec acc "") as [->|Ha].
  - split; [constructor|]. split; [|done]. apply Forall_forall. intros w Hw. apply elem_of_app. right.
    apply list_elem_of_In, in_map_iff. exists w. split; [done|]. apply list_elem_of_In, elem_queued.
    unfold bucket_of in Hw. destruct (find _ _) as [b|] eqn:E; [|by apply elem_of_nil in Hw]. exists b. apply find_elem in E as [? _]. done.
  - cbn [waiters settled queued]. split; [|split].
    + unfold queued. cbn [waiters]. rewrite drop_flat. apply Forall_forall. intros w Hw. apply elem_filter in Hw as [_ Hw]. by rewrite negb_involutive in Hw.
    + apply Forall_forall. intros w Hw. rewrite !elem_of_app. right. left. apply list_elem_of_In, in_map_iff. exists w. split; [done|by apply list_elem_of_In].
    + unfold bucket_of. destruct (find _ _) as [b|] eqn:E; [|done]. apply find_elem in E as [Hb Hk]. exfalso.
      assert (b.1 ∈ map fst (drop_waiters (fun w => negb (w_sticky w)) (List.filter (fun b => negb (String.eqb b.1 acc)) (waiters s)))) as H.
      { by apply list_elem_of_In, in_map, list_elem_of_In. }
      apply keys_drop, list_elem_of_In, in_map_iff in H as (c & Hc & Hi). apply filter_In in Hi as [_ Hi]. rewrite Hc in Hi.
      cbn beta in Hk. rewrite Hk in Hi. done.
Qed.

Definition sample_waits : list event :=
  [Wait "a" "" false false; Wait "a" "" true false; Wait "b" "" true false; Wait "b" "" false false; Wait "b" "" true true; Notify "a"; Timer 1; Timer 2].
Lemma waiters_answered_once_witness :
  let s := run (num_of_Z 2) empty sample_waits in
  accounts_for s /\ NoDup (map w_id (queued s) ++ map fst (settled s)) /\ wf_buckets (waiters s) /\ fits (num_of_Z 2) (waiters s) /\
  forall acc, let s' := step (num_of_Z 2) s (Notify acc) in
    Forall (fun w => w_sticky w = true) (queued s') /\
    Forall (fun w => (w_id w, Woken) ∈ settled s') (bucket_of acc (waiters s)) /\ bucket_of acc (waiters s') = [].
Proof. apply (waiters_answered_once (num_of_Z 2) sample_waits). discriminate. Defined.
Example sample_waits_run :
  (settled (run (num_of_Z 2) empty sample_waits), waiters (run (num_of_Z 2) empty sample_waits)) =
  ([(0%nat, Woken); (1%nat, Woken); (3%nat, Woken); (2%nat, TimedOut)], []).
Proof. vm_compute. reflexivity. Qed.

(** ** Wait plans *)

Lemma num_max_0 n : is_finite n = true -> is_finite (num_max (Fin 0) n) = true /\ num_leb (Fin 0) (num_max (Fin 0) n) = true.
Proof. intros H. split; [by apply num_max_finite|]. by apply num_max_ge_l. Qed.

Definition in_range (lo hi n : num) : Prop := is_finite n = true /\ num_leb lo n = true /\ num_leb n hi = true.

Lemma clamp_wait_range value fallback :
  in_range WAIT_TIMEOUT_MIN_MS WAIT_TIMEOUT_MAX_MS fallback -> in_range WAIT_TIMEOUT_MIN_MS WAIT_TIMEOUT_MAX_MS (clampWaitTimeoutMs value fallback).
Proof.
  intros Hf. unfold clampWaitTimeoutMs. destruct (_ || _); [done|]. destruct (to_number value) as [q| | |]; try done. cbn [is_finite negb num_round].
  assert (is_finite (num_max WAIT_TIMEOUT_MIN_MS (num_of_Z (Qfloor (q + (1 # 2))))) = true) as Hm by (by apply num_max_finite).
  assert (num_leb WAIT_TIMEOUT_MIN_MS (num_max WAIT_TIMEOUT_MIN_MS (num_of_Z (Qfloor (q + (1 # 2))))) = true) as Hl by (by apply num_max_ge_l).
  generalize dependent (num_max WAIT_TIMEOUT_MIN_MS (num_of_Z (Qfloor (q + (1 # 2))))). intros m Hm Hl. repeat split.
  - by apply num_min_finite.
  - by apply num_min_glb.
  - by apply num_min_le_l.
Qed.

Lemma waitBase_range config sticky : in_range WAIT_TIMEOUT_MIN_MS WAIT_TIMEOUT_MAX_MS (waitBase (normalizePoolConfig config) sticky).
Proof.
  unfold waitBase, normalizePoolConfig. destruct sticky.
  - rewrite get_with_field_ne, get_with_field_eq by done. apply clamp_wait_range. by vm_compute.
  - rewrite get_with_field_eq. apply clamp_wait_range. by vm_compute.
Qed.

(** The wait [max(0, m)] for a bound [m] on what is left. *)
Lemma clip_wait m hi : is_finite m = true -> num_leb m hi = true -> num_leb (Fin 0) hi = true -> in_range (Fin 0) hi (num_max (Fin 0) m).
Proof.
  intros Hm Hle H0. destruct (num_max_0 m Hm) as [Hf Hl]. split; [done|]. split; [done|].
  destruct m as [q| | |]; try done. cbn [num_max]. by destruct (num_leb (Fin 0) (Fin q)).
Qed.

Lemma clip_deadline m now d :
  is_finite m = true -> is_finite now = true -> is_finite d = true -> num_leb m (num_sub d now) = true -> num_leb now d = true ->
  num_leb (num_add now (num_max (Fin 0) m)) d = true.
Proof.
  destruct m as [q| | |], now as [n| | |], d as [x| | |]; try done. intros _ _ _ Hm Hn. cbn [num_sub num_neg num_add] in Hm.
  apply num_leb_Fin in Hm, Hn. rewrite !Qred_correct in Hm. cbn [num_max].
  destruct (num_leb (Fin 0) (Fin q)); cbn [num_add]; apply num_leb_Fin; rewrite Qred_correct; lra.
Qed.

Lemma min_left base left : is_finite base = true -> (left = PInf \/ is_finite left = true) ->
  is_finite (num_min base left) = true /\ num_leb (num_min base left) base = true /\ num_leb (num_min base left) left = true.
Proof.
  intros Hb [->|Hl].
  - destruct base as [b| | |]; try done. cbn. split; [done|]. split; [|done]. apply Qle_bool_iff. lra.
  - split; [by apply num_min_finite|]. split; [by apply num_min_le_l|by apply num_min_le_r].
Qed.

(** How long a request waits.  Under any configuration a wait plan lasts between 0 and
    120 s, and neither it nor the remaining wait of a slot runs past the request's deadline
    unless that has already passed. *)
Theorem waits_bounded config c sticky startedAt requestDeadline now :
  is_finite now = true -> is_finite startedAt = true -> (forall d, requestDeadline = Some d -> is_finite d = true) ->
  let p := makeWaitPlan (normalizePoolConfig config) c sticky requestDeadline now in
  let r := remainingSlotWaitMs (normalizePoolConfig config) startedAt requestDeadline sticky now in
  in_range (Fin 0) WAIT_TIMEOUT_MAX_MS (timeoutMs p) /\ in_range (Fin 0) WAIT_TIMEOUT_MAX_MS r /\
  p_deadline p = num_add now (timeoutMs p) /\
  (forall d, requestDeadline = Some d -> num_leb now d = true -> num_leb (p_deadline p) d = true /\ num_leb (num_add now r) d = true).
Proof.
  intros Hn Hs Hd. cbv zeta. unfold remainingSlotWaitMs. cbn [makeWaitPlan timeoutMs p_deadline].
  destruct (waitBase_range config sticky) as (Hb & _ & Hb2). generalize dependent (waitBase (normalizePoolConfig config) sticky). intros base Hb Hb2.
  assert (Hleft : time_left requestDeadline now = PInf \/ is_finite (time_left requestDeadline now) = true).
  { unfold time_left. destruct requestDeadline as [d|]; [|by left]. rewrite (Hd d eq_refl). right. apply num_sub_finite; [exact (Hd d eq_refl)|assumption]. }
  assert (Hplan : is_finite (num_sub base (num_sub now (if truthy (JNum startedAt) then startedAt else now))) = true).
  { apply num_sub_finite; [assumption|]. apply num_sub_finite; [assumption|]. destruct (truthy (JNum startedAt)); assumption. }
  generalize dependent (num_sub base (num_sub now (if truthy (JNum startedAt) then startedAt else now))). intros k Hk.
  destruct (min_left base (time_left requestDeadline now) Hb Hleft) as (Hm & Hm1 & Hm2).
  assert (Hk' : num_min k PInf = k). { by destruct k. }
  assert (Hr : is_finite (num_min (time_left requestDeadline now) k) = true /\
               num_leb (num_min (time_left requestDeadline now) k) (time_left requestDeadline now) = true).
  { destruct Hleft as [->|Hl]; [by destruct k|]. split; [apply num_min_finite; assumption|apply num_min_le_l; assumption]. }
  destruct Hr as [Hr1 Hr2]. cbn [num_min_list foldr]. rewrite Hk'.
  set (r := num_min base (num_min (time_left requestDeadline now) k)).
  assert (Hr3 : is_finite r = true) by (apply num_min_finite; assumption).
  split; [apply clip_wait; [assumption|eapply num_leb_trans; [exact Hm1|exact Hb2]|reflexivity]|].
  split; [apply clip_wait; [assumption| |reflexivity]; eapply num_leb_trans; [apply num_min_le_l; assumption|exact Hb2]|]. split; [done|].
  intros d -> Hle. specialize (Hd d eq_refl). unfold time_left in Hm2, Hr2. rewrite Hd in Hm2, Hr2. split; apply clip_deadline; try assumption.
  - unfold time_left. rewrite Hd. assumption.
  - subst r. unfold time_left in *. rewrite Hd in *. eapply num_leb_trans; [apply num_min_le_r; assumption|assumption].
Qed.

Lemma waits_bounded_witness :
  let config := JObj [("sticky_wait_timeout_ms", JStr "900000")] in
  let p := makeWaitPlan (normalizePoolConfig config) None true (Some (num_of_Z 61000)) (num_of_Z 1000) in
  let r := remainingSlotWaitMs (normalizePoolConfig config) (num_of_Z 500) (Some (num_of_Z 61000)) true (num_of_Z 1000) in
  in_range (Fin 0) WAIT_TIMEOUT_MAX_MS (timeoutMs p) /\ in_range (Fin 0) WAIT_TIMEOUT_MAX_MS r /\
  p_deadline p = num_add (num_of_Z 1000) (timeoutMs p) /\
  (forall d, Some (num_of_Z 61000) = Some d -> num_leb (num_of_Z 1000) d = true -> num_leb (p_deadline p) d = true /\ num_leb (num_add (num_of_Z 1000) r) d = true).
Proof. intros config. apply (waits_bounded config None true); [reflexivity|reflexivity|]. intros d [= <-]. reflexivity. Defined.

Lemma first_room_spec config wc order :
  match first_room config wc order with
  | Some c => c ∈ order /\ (forall x, c = Some x -> room config wc (accountId x) = true)
  | None => Forall (fun c => forall x, c = Some x -> room config wc (accountId x) = false) order
  end.
Proof.
  induction order as [|c order IH]; cbn [first_room]; [constructor|].
  destruct c as [x|].
  - destruct (room config wc (accountId x)) eqn:E.
    + split; [by apply elem_of_cons; left|]. by intros ? [= <-].
    + destruct (first_room config wc order) as [y|]; [destruct IH; split; [by apply elem_of_cons; right|done]|].
      constructor; [|done]. by intros ? [= <-].
  - destruct (num_ltb _ _).
    + split; [by apply elem_of_cons; left|done].
    + destruct (first_room config wc order) as [y|]; [destruct IH; split; [by apply elem_of_cons; right|done]|]. by constructor.
Qed.

(** The order of [resolveWaitPlan] holds the candidates, up to their account. *)
Lemma wait_order_spec lc cs :
  Forall rated cs ->
  (forall o, o ∈ wait_order lc cs -> exists c, o = Some c /\ c ∈ cs) /\
  (forall c, c ∈ cs -> exists d, Some d ∈ wait_order lc cs /\ accountId d = accountId c).
Proof.
  intros Hr. unfold wait_order. pose proof (sort_perm (by_age lc) cs) as Hp.
  assert (Hin : forall c, c ∈ sort (by_age lc) cs <-> c ∈ cs) by (intros c; rewrite !list_elem_of_In; by split; apply Permutation_in).
  destruct cs as [|c0 cs]; [split; [|intros c Hc; by apply elem_of_nil in Hc]|].
  { simpl. intros o Ho. by apply elem_of_nil in Ho. }
  destruct (best_pool_spec (c0 :: cs) ltac:(done) Hr) as [Hne Hb]. cbn [peekRank].
  destruct (head_sort_in (by_age lc) _ Hne) as (p & Hp0 & Hpin). rewrite Hp0. apply Hb in Hpin as (Hpin & _). split.
  - intros o [->|Ho]%elem_of_cons; [by exists p|].
    apply list_elem_of_In, in_map_iff in Ho as (c & <- & Hc). apply list_elem_of_In, elem_filter in Hc as [Hc _]. exists c. split; [done|by apply Hin].
  - intros c Hc. destruct (String.eqb_spec (accountId c) (accountId p)) as [E|E].
    + exists p. split; [by apply elem_of_cons; left|done].
    + exists c. split; [|done]. apply elem_of_cons. right. apply list_elem_of_In, in_map, list_elem_of_In, elem_filter.
      split; [by apply Hin|]. by rewrite (proj2 (String.eqb_neq _ _) E).
Qed.

(** Where a request queues.  A plan names a busy candidate whose queue has room, the
    bound one when the plan is sticky; the queue-full answer means every busy candidate's
    queue is full, and no plan means that nobody is worth waiting for. *)
Theorem wait_plan_spec lc config wc cs bound cleared requestDeadline now :
  Forall rated cs ->
  match resolveWaitPlan lc config wc cs bound cleared requestDeadline now with
  | Plan p => exists c, c ∈ cs /\ waitable c = true /\ room config wc (accountId c) = true /\
                p = makeWaitPlan config (Some c) (p_sticky p) requestDeadline now /\
                (p_sticky p = true -> cleared = false /\ exists b, bound = Some b /\ bound_to b c = true /\ shouldWait c = true)
  | QueueFull => (exists c, c ∈ cs /\ waitable c = true) /\ forall c, c ∈ cs -> waitable c = true -> room config wc (accountId c) = false
  | NoPlan => forall c, c ∈ cs -> waitable c = false
  end.
Proof.
  intros Hr. unfold resolveWaitPlan. set (sm := if cleared then None else _).
  assert (Hsm : forall c, sm = Some c -> cleared = false /\ c ∈ cs /\ waitable c = true /\ room config wc (accountId c) = true /\
                 exists b, bound = Some b /\ bound_to b c = true /\ shouldWait c = true).
  { intros c. unfold sm. destruct cleared; [done|]. destruct bound as [b|]; [|done]. destruct (find _ _) as [d|] eqn:E; [|done].
    destruct (shouldWait d) eqn:Ew; [|done]. destruct (isReservable d) eqn:Er; [done|]. destruct (room _ _ _) eqn:Em; [|done]. intros [= <-].
    apply find_elem in E as [Hd Hbd]. split; [done|]. split; [done|]. unfold waitable. rewrite Er. unfold shouldWait in *. split; [|eauto].
    by destruct (busy d). }
  destruct sm as [c|].
  { destruct (Hsm c eq_refl) as (? & ? & ? & ? & ?). exists c. by repeat split. }
  clear Hsm. set (pool := List.filter waitable cs).
  assert (Hpr : Forall rated pool) by (apply Forall_forall; intros x Hx; apply elem_filter in Hx as [Hx _]; by eapply Forall_forall in Hr).
  destruct (wait_order_spec lc pool Hpr) as [Ho1 Ho2]. pose proof (first_room_spec config wc (wait_order lc pool)) as Hf.
  destruct (first_room config wc (wait_order lc pool)) as [o|].
  - destruct Hf as [Hin Hroom]. destruct (Ho1 o Hin) as (c & -> & Hc). apply elem_filter in Hc as [Hc Hw]. exists c. split; [done|]. split; [done|].
    split; [by apply Hroom|]. by split.
  - assert (Hfull : forall c, c ∈ cs -> waitable c = true -> room config wc (accountId c) = false).
    { intros c Hc Hw. destruct (Ho2 c) as (d & Hd & <-); [by apply elem_filter|]. eapply Forall_forall in Hf; [|exact Hd]. by apply Hf. }
    destruct pool as [|c r] eqn:E.
    + intros c Hc. destruct (waitable c) eqn:Ew; [|done]. assert (c ∈ pool) as H by (by apply elem_filter). rewrite E in H. by apply elem_of_nil in H.
    + split; [|done]. exists c. apply elem_filter. fold pool. rewrite E. by apply elem_of_cons; left.
Qed.

Definition full_candidate (acc : string) : candidate :=
  let c := sample acc 1 1 1 in
  {| vmId := vmId c; accountId := acc; model := model c; priority := priority c; weight := weight c; c_inflight := 2; maxConcurrency := num_of_Z 2;
     loadRatio := loadRatio c; lastUsedAt := Fin 0; busy := true; availableAt := None; waitReason := Some "concurrency_limit"; cooldownReason := "" |}.
Lemma wait_plan_spec_witness :
  let cs := [full_candidate "a"; full_candidate "b"] in
  let wc acc := if String.eqb acc "a" then 32%Z else 0%Z in
  match resolveWaitPlan byte_compare DEFAULT_CONFIG wc cs None false None (Fin 0) with
  | Plan p => exists c, c ∈ cs /\ waitable c = true /\ room DEFAULT_CONFIG wc (accountId c) = true /\
                p = makeWaitPlan DEFAULT_CONFIG (Some c) (p_sticky p) None (Fin 0) /\
                (p_sticky p = true -> false = false /\ exists b, None = Some b /\ bound_to b c = true /\ shouldWait c = true)
  | QueueFull => (exists c, c ∈ cs /\ waitable c = true) /\ forall c, c ∈ cs -> waitable c = true -> room DEFAULT_CONFIG wc (accountId c) = false
  | NoPlan => forall c, c ∈ cs -> waitable c = false
  end.
Proof. intros cs wc. apply (wait_plan_spec byte_compare DEFAULT_CONFIG wc cs None false None (Fin 0)). repeat constructor. Defined.
Example sample_plan :
  match resolveWaitPlan byte_compare DEFAULT_CONFIG (fun acc => if String.eqb acc "a" then 32%Z else 0%Z) [full_candidate "a"; full_candidate "b"] None false None (Fin 0) with
  | Plan p => p_accountId p = Some "b"
  | _ => False
  end.
Proof. vm_compute. reflexivity. Qed.
