(* ===== verification/ModelPolicy.v ===== *)
(** * The model policy (src/src/lib/protocol/model-policy.mjs, context-1m.mjs, gpt-ids.mjs)

    The capability matrix the console edits: its seed, the normalisation of a stored
    policy, the resolution of a requested model to an entry, and what the entry does to a
    request ([thinking], [max_tokens]).  The module's variable [policy] is an argument.
    The persistence ([load], [save], [reset]) is I/O and the beta headers belong to the
    client-identity part, neither is modelled.  [now] is the current time as a string.
    Names of [Object.prototype] members are not looked up on the objects. *)

From S2P Require Import Prelude.
From S2P Require Import JsValue.
From S2P Require Import JsRegex.
From S2P Require Import JsText.
From S2P Require Import Eligibility.
#[local] Open Scope string_scope.
#[local] Open Scope list_scope.
#[local] Open Scope js_scope.

(** ** The 1M-context selector (context-1m.mjs) *)

Definition CONTEXT_1M_BETA : string := "context-1m-2025-08-07".
Definition CLAUDE_CODE_1M_SUFFIX : string := "[1m]".
Definition DEFAULT_CONTEXT_1M_WHITELIST : list string := ["claude-sonnet-5"; "claude-sonnet-5-*"].

Definition has_suffix (s : string) : bool :=
  (String.length CLAUDE_CODE_1M_SUFFIX <? String.length s)%nat && ends_with CLAUDE_CODE_1M_SUFFIX (to_lower s).
(** The loop drops one suffix per turn: the length of the string is enough fuel. *)
Fixpoint strip_suffix (fuel : nat) (s : string) : string :=
  match fuel with
  | O => s
  | S fuel => if has_suffix s then strip_suffix fuel (drop_last 4 s) else s
  end.
Definition stripClaudeCode1mSuffix (model : string) : string := strip_suffix (String.length model) model.
Definition hasClaudeCode1mSuffix (model : string) : bool := negb (String.eqb (stripClaudeCode1mSuffix model) model).

Definition normalizeContext1mWhitelist (raw : jsval) (fallback : list string) : list string :=
  match raw with JArr l => uniq (trimmed l) | _ => fallback end.

Definition matchContext1mPattern (pattern model : string) : bool :=
  let p := to_lower (trim pattern) in
  if String.eqb p "" then false
  else
    let raw := trim model in
    if String.eqb raw "" then false
    else
      let bare := to_lower (stripClaudeCode1mSuffix (last_segment raw)) in
      if ends_with "*" p then starts_with (drop_last 1 p) bare else String.eqb bare p.

Definition shouldPassContext1m (model : string) (whitelist : jsval) : bool :=
  existsb (fun pattern => matchContext1mPattern pattern model) (normalizeContext1mWhitelist whitelist DEFAULT_CONTEXT_1M_WHITELIST).
Definition shouldStripContext1m (model : string) (whitelist : jsval) : bool := negb (shouldPassContext1m model whitelist).

(** ** GPT ids (gpt-ids.mjs) *)

Definition SKIP_GPT : list string :=
  ["whisper"; "tts-"; "dall-e"; "chatgpt-image"; "gpt-image"; "text-embedding"; "text-moderation"; "omni-moderation"; "davinci"; "babbage"; "curie"].
Definition isGptSeriesId (id : jsval) : bool :=
  let s := to_lower (trim (str_or_empty id)) in
  starts_with "gpt" s && negb (existsb (fun p => starts_with p s) SKIP_GPT).

(** ** The matrix *)

Definition id_tail : rx := RChr (fun c => is_digit c || is_lower c || Ascii.eqb c "." || Ascii.eqb c "-").
Definition isCatalogModelId (id : jsval) : bool :=
  let raw := str_or_empty id in
  let s := to_lower raw in
  if ends_with "-" raw || ends_with "." raw then false
  else if ends_with ".md" s then false
  else if rx_full (RSeq (lits ["gpt-"; "codex-"]) (rplus id_tail)) s
  then (2 <=? length (split_chars (fun c => Ascii.eqb c "-" || Ascii.eqb c ".") s))%nat
  else if negb (rx_full (RSeq (lit "claude-") (RSeq (lits ["opus"; "sonnet"; "haiku"; "fable"; "3"]) (RStar id_tail))) s) then false
  else (3 <=? length (split_char "-" s))%nat.

Definition FABLE_51_ID : string := "claude-fable-5-1".
Definition FABLE_51_LEGACY_ID : string := "claude-fable-5.1".

Definition caps (window : Z) (m1 : bool) (mode : string) (adaptive requires interleaved effort ctx : bool) : jsval := JObj
  [("context_window", jint window); ("supports_1m", JBool m1); ("thinking_mode", JStr mode); ("supports_adaptive", JBool adaptive);
   ("requires_adaptive", JBool requires); ("supports_interleaved", JBool interleaved); ("supports_effort", JBool effort);
   ("supports_context_management", JBool ctx)].
Definition CAP_HAIKU : jsval := caps 200000 false "enabled_only" false false false false false.
Definition CAP_SONNET45 : jsval := caps 200000 false "enabled_only" false false true false true.
Definition CAP_46 : jsval := caps 1000000 true "adaptive_or_enabled" true false true true true.
Definition CAP_ADAPTIVE_ONLY : jsval := caps 1000000 true "adaptive_only" true true true true true.
Definition CAP_CODEX : jsval := caps 272000 false "enabled_only" false false false true false.

Definition DEFAULT_REQUIRED : jsval := jstrs ["oauth-2025-04-20"; "interleaved-thinking-2025-05-14"].

Definition entry (partial : jsval) : jsval :=
  let betas := partial?."betas" in let params := partial?."params" in
  JObj
  [("enabled", JBool true);
   ("display_name", partial?."display_name" ||| partial?."id" ||| JStr "");
   ("family", partial?."family" ||| JStr "other");
   ("sort", partial?."sort" ?? jint 100);
   ("capabilities", JObj (fields_of (partial?."capabilities")));
   ("betas", JObj ([("required", betas?."required" ||| DEFAULT_REQUIRED); ("drop", betas?."drop" ||| jstrs [CONTEXT_1M_BETA]);
      ("allow_client", JBool (match betas?."allow_client" with JBool false => false | _ => true end))] ++
      match betas?."pass_context_1m" with JBool b => [("pass_context_1m", JBool b)] | _ => [] end));
   ("params", JObj
     [("max_tokens_default", params?."max_tokens_default" ?? jint 16384); ("max_tokens_cap", params?."max_tokens_cap" ?? jint 64000);
      ("thinking_fallback_budget", params?."thinking_fallback_budget" ?? jint 4096); ("on_adaptive", params?."on_adaptive" ||| JStr "passthrough");
      ("on_enabled", params?."on_enabled" ||| JStr "passthrough")]);
   ("aliases", partial?."aliases" ||| JArr [])].

(** [add(id, cfg)] of the seed. *)
Definition add (id : string) (cfg : fields) : string * jsval := (id, entry (JObj (("id", JStr id) :: cfg))).
Definition seed_row (name family : string) (sort : Z) (capabilities : jsval) (betas params : fields) (aliases : option (list string)) : fields :=
  [("display_name", JStr name); ("family", JStr family); ("sort", jint sort); ("capabilities", capabilities); ("betas", JObj betas);
   ("params", JObj params)] ++ match aliases with Some l => [("aliases", jstrs l)] | None => [] end.
Definition max_params (default cap : Z) : fields := [("max_tokens_default", jint default); ("max_tokens_cap", jint cap)].
Definition passthrough_params (default cap : Z) : fields :=
  max_params default cap ++ [("on_adaptive", JStr "passthrough"); ("on_enabled", JStr "passthrough")].
Definition pass_1m (b : bool) : string * jsval := ("pass_context_1m", JBool b).

Definition seedDefaultPolicy (now : string) : jsval :=
  let haiku_betas := [("required", DEFAULT_REQUIRED); ("drop", jstrs [CONTEXT_1M_BETA; "effort-2025-11-24"; "context-management-2025-06-27"]); pass_1m false] in
  let code_betas := [("required", jstrs ["claude-code-20250219"; "oauth-2025-04-20"; "interleaved-thinking-2025-05-14"]);
                     ("drop", jstrs [CONTEXT_1M_BETA]); pass_1m false] in
  let haiku_params := max_params 8192 64000 ++ [("thinking_fallback_budget", jint 4096); ("on_adaptive", JStr "convert_to_enabled")] in
  let models :=
    [add "claude-haiku-4-5-20251001" (seed_row "Haiku 4.5" "haiku" 10 CAP_HAIKU haiku_betas (haiku_params ++ [("on_enabled", JStr "passthrough")])
       (Some ["haiku"; "claude-haiku-4-5"; "claude-3-5-haiku"; "claude-3-5-haiku-latest"]));
     add "claude-haiku-4-5" (seed_row "Haiku 4.5 (alias id)" "haiku" 11 CAP_HAIKU haiku_betas haiku_params (Some []));
     add "claude-sonnet-4-5-20250929" (seed_row "Sonnet 4.5" "sonnet" 15 CAP_SONNET45 [pass_1m false]
       [("on_adaptive", JStr "convert_to_enabled"); ("max_tokens_default", jint 16384)] (Some ["claude-sonnet-4-5"]));
     add "claude-sonnet-4-6" (seed_row "Sonnet 4.6" "sonnet" 20 CAP_46 code_betas (max_params 16384 64000 ++ [("on_adaptive", JStr "passthrough")])
       (Some ["sonnet"]));
     add "claude-opus-4-6" (seed_row "Opus 4.6" "opus" 25 CAP_46 code_betas (max_params 32000 128000 ++ [("on_adaptive", JStr "passthrough")]) (Some []));
     add "claude-opus-4-7" (seed_row "Opus 4.7" "opus" 28 CAP_ADAPTIVE_ONLY [pass_1m false] (passthrough_params 32000 128000) None);
     add "claude-opus-4-8" (seed_row "Opus 4.8" "opus" 29 CAP_ADAPTIVE_ONLY [pass_1m false] (passthrough_params 32000 128000) None);
     add "claude-sonnet-5" (seed_row "Sonnet 5" "sonnet" 30 CAP_ADAPTIVE_ONLY [pass_1m true] (passthrough_params 16384 128000) (Some []));
     add "claude-opus-5" (seed_row "Opus 5" "opus" 35 CAP_ADAPTIVE_ONLY [pass_1m false] (passthrough_params 32000 128000) (Some ["opus"]));
     add "claude-fable-5" (seed_row "Fable 5" "fable" 40 CAP_ADAPTIVE_ONLY [pass_1m false] (passthrough_params 32000 128000) (Some ["fable"]));
     add FABLE_51_ID (seed_row "Fable 5.1" "fable" 41 CAP_ADAPTIVE_ONLY [pass_1m false] (passthrough_params 32000 128000) (Some [FABLE_51_LEGACY_ID]))] in
  JObj
  [("version", jint 1); ("updated_at", JStr now); ("source", JStr "seed");
   ("defaults", JObj [("enabled", JBool true); ("max_tokens", jint 16384); ("thinking_fallback_budget", jint 4096); ("strip_context_1m", JBool true);
      ("context_1m_whitelist", jstrs DEFAULT_CONTEXT_1M_WHITELIST); ("normalize_thinking", JBool true)]);
   ("models", JObj models);
   ("aliases", JObj [("sonnet", JStr "claude-sonnet-4-6"); ("opus", JStr "claude-opus-5"); ("haiku", JStr "claude-haiku-4-5-20251001");
      ("claude-haiku-4-5", JStr "claude-haiku-4-5-20251001"); ("claude-3-5-haiku", JStr "claude-haiku-4-5-20251001");
      ("claude-3-5-haiku-latest", JStr "claude-haiku-4-5-20251001"); ("fable", JStr "claude-fable-5"); (FABLE_51_LEGACY_ID, JStr FABLE_51_ID)]);
   ("catalog_mode", JStr "policy_only")].

(** [if (patch.k) out.k = x] *)
Definition patch_field (patch : jsval) (k : string) (x : jsval) (out : jsval) : jsval := if truthy (patch?.k) then with_field out k x else out.

Definition deepMergeEntry (base patch : jsval) : jsval :=
  if negb (is_object patch) then base
  else
    let out := spread base patch in
    let out := patch_field patch "capabilities" (spread (base?."capabilities") (patch?."capabilities")) out in
    let out := patch_field patch "betas"
      (with_field (with_field (spread (base?."betas") (patch?."betas")) "required" (patch?."betas"?."required" ?? base?."betas"?."required"))
         "drop" (patch?."betas"?."drop" ?? base?."betas"?."drop")) out in
    let out := patch_field patch "params" (spread (base?."params") (patch?."params")) out in
    patch_field patch "aliases" (patch?."aliases") out.

Definition familyOfModelId (id : jsval) : string :=
  let s := to_lower (str_or_empty id) in
  if starts_with "gpt-" s || starts_with "codex-" s then "codex"
  else default "other" (List.find (includes s) ["haiku"; "opus"; "fable"; "sonnet"]).

Definition digits_45 : rx := RSeq (lit "claude-") (RSeq (lits ["sonnet"; "opus"]) (lit "-4-5")).
Definition heuristicCapabilities (modelId : string) : jsval :=
  let m := to_lower modelId in
  if starts_with "gpt-" m || starts_with "codex-" m then CAP_CODEX
  else if includes m "haiku" || includes m "claude-3." || includes m "claude-3-" then CAP_HAIKU
  else if rx_test digits_45 m then CAP_SONNET45
  else if rx_test (RSeq (lit "claude-") (RSeq (lits ["opus"; "sonnet"; "fable"; "mythos"]) (lit "-5"))) m ||
          includes m "claude-opus-4-7" || includes m "claude-opus-4-8" then CAP_ADAPTIVE_ONLY
  else CAP_46.

(** ** Normalising a stored policy *)

(** The base of an id the seed does not know. *)
Definition new_entry (id : string) : jsval :=
  entry (JObj [("id", JStr id); ("display_name", JStr id);
    ("family", JStr (default "sonnet" (List.find (includes id) ["haiku"; "opus"; "fable"])));
    ("capabilities", heuristicCapabilities id); ("params", JObj [])]).

Definition merge_model (models : jsval) (p : string * jsval) : jsval :=
  let '(id, cfg) := p in
  if String.eqb id "" || String.eqb id FABLE_51_LEGACY_ID then models
  else with_field models id (deepMergeEntry (models?.id ||| new_entry id) cfg).

Definition merge_models (models rawModels : jsval) : jsval :=
  if is_object rawModels then
    let models := with_field models FABLE_51_ID (deepMergeEntry (models?.FABLE_51_ID) (get rawModels FABLE_51_LEGACY_ID)) in
    foldl merge_model models (entries rawModels)
  else models.

Definition fable_aliases (rawModels : jsval) : jsval :=
  JArr (uniq_values (JStr FABLE_51_LEGACY_ID :: arr_of (get rawModels FABLE_51_LEGACY_ID?."aliases") ++ arr_of (get rawModels FABLE_51_ID?."aliases"))).

(** The pass over every entry. *)
Definition settle_entry (seedModels whitelist : jsval) (id : string) (cfg : jsval) : jsval :=
  let cfg := if is_str (cfg?."params"?."on_enabled") "convert_to_adaptive"
             then with_field cfg "params" (with_field (cfg?."params") "on_enabled" (JStr "passthrough")) else cfg in
  match cfg?."betas"?."pass_context_1m" with
  | JBool _ => cfg
  | _ =>
    let pass := match get seedModels id?."betas"?."pass_context_1m" with JBool b => b | _ => shouldPassContext1m id whitelist end in
    with_field cfg "betas" (with_field (cfg?."betas") "pass_context_1m" (JBool pass))
  end.

Definition is_legacy (target : jsval) : bool := String.eqb (to_lower (trim (to_string target))) FABLE_51_LEGACY_ID.

Definition normalizePolicy (now : string) (raw : jsval) : jsval :=
  let seed := seedDefaultPolicy now in
  if negb (is_object raw) then seed
  else
    let models := merge_models (JObj (fields_of (seed?."models"))) (raw?."models") in
    let fable := with_field (models?.FABLE_51_ID) "aliases" (fable_aliases (raw?."models")) in
    let fable := if has_own fable "id" then with_field fable "id" (JStr FABLE_51_ID) else fable in
    let models := with_field models FABLE_51_ID fable in
    let models := JObj (map (fun p => (p.1, settle_entry (seed?."models") (seed?."defaults"?."context_1m_whitelist") p.1 p.2)) (fields_of models)) in
    let rawDefaults := if is_object (raw?."defaults") then raw?."defaults" else JObj [] in
    let aliases := spread (seed?."aliases") (raw?."aliases" ||| JObj []) in
    let aliases := JObj (map (fun p => (p.1, if is_legacy p.2 then JStr FABLE_51_ID else p.2)) (fields_of aliases)) in
    let aliases := with_field aliases FABLE_51_LEGACY_ID (JStr FABLE_51_ID) in
    JObj
    [("version", let n := to_number (raw?."version") in if truthy (JNum n) then JNum n else jint 1);
     ("updated_at", raw?."updated_at" ||| JStr now); ("source", raw?."source" ||| JStr "panel");
     ("defaults", with_field (spread (seed?."defaults") rawDefaults) "context_1m_whitelist"
        (jstrs (if has_own rawDefaults "context_1m_whitelist" then normalizeContext1mWhitelist (rawDefaults?."context_1m_whitelist") []
                else DEFAULT_CONTEXT_1M_WHITELIST)));
     ("models", models); ("aliases", aliases); ("catalog_mode", raw?."catalog_mode" ||| seed?."catalog_mode")].

(** ** Resolving a model *)

Section policy.
Variable policy : jsval.
Let models : jsval := policy?."models".

Definition names_alias (lower : string) (cfg : jsval) : bool := existsb (fun a => String.eqb (to_lower (to_string a)) lower) (arr_of (cfg?."aliases")).

Definition resolvePolicyModelId (raw : jsval) : jsval :=
  let m := trim (str_or_empty raw) in
  if String.eqb m "" then JNull
  else
    let bare := last_segment m in
    let lower := to_lower (stripClaudeCode1mSuffix bare) in
    let aliasTarget := policy?."aliases"?.lower ||| policy?."aliases"?.bare in
    if truthy aliasTarget && truthy (models?.(to_string aliasTarget)) then aliasTarget
    else if truthy (models?.bare) then JStr bare
    else if truthy (models?.lower) then JStr lower
    else match find (fun p => names_alias lower p.2) (fields_of models) with
         | Some (id, _) => JStr id
         | None => match find (fun id => String.eqb (to_lower id) lower) (keys models) with Some id => JStr id | None => JStr bare end
         end.

Definition getModelEntry (modelId : jsval) : jsval :=
  let key := resolvePolicyModelId modelId in
  if truthy key && truthy (models?.(to_string key)) then spread (JObj [("id", key)]) (models?.(to_string key))
  else
    let id := to_string (key ||| JStr (str_or_empty modelId)) in
    let caps := heuristicCapabilities id in
    let defaults := policy?."defaults" in
    JObj
    [("id", JStr id); ("enabled", JBool (match defaults?."enabled" with JBool false => false | _ => true end)); ("display_name", JStr id);
     ("family", JStr "other"); ("sort", jint 999); ("capabilities", caps);
     ("betas", JObj [("required", DEFAULT_REQUIRED);
        ("drop", match defaults?."strip_context_1m" with JBool false => JArr [] | _ => jstrs [CONTEXT_1M_BETA] end); ("allow_client", JBool true)]);
     ("params", JObj [("max_tokens_default", defaults?."max_tokens" ||| jint 16384); ("max_tokens_cap", jint 64000);
        ("thinking_fallback_budget", defaults?."thinking_fallback_budget" ||| jint 4096);
        ("on_adaptive", JStr (if truthy (caps?."supports_adaptive") then "passthrough" else "convert_to_enabled"));
        ("on_enabled", JStr "passthrough")]);
     ("aliases", JArr []); ("_heuristic", JBool true)].

Definition isModelEnabled (modelId : jsval) : bool := match getModelEntry modelId?."enabled" with JBool false => false | _ => true end.
Definition getCapabilities (modelId : jsval) : jsval := getModelEntry modelId?."capabilities".
Definition getBetaPolicy (modelId : jsval) : jsval := getModelEntry modelId?."betas".
Definition getModelParams (modelId : jsval) : jsval := getModelEntry modelId?."params".
Definition getContext1mWhitelist : list string :=
  normalizeContext1mWhitelist (policy?."defaults"?."context_1m_whitelist") DEFAULT_CONTEXT_1M_WHITELIST.

Definition resolveContext1mPass (modelId : string) (entry : jsval) (whitelist : jsval) (strip : bool) : bool :=
  if negb strip then true
  else match entry?."betas"?."pass_context_1m" with JBool b => b | _ => shouldPassContext1m modelId whitelist end.
Definition strip_1m : bool := match policy?."defaults"?."strip_context_1m" with JBool false => false | _ => true end.
Definition shouldPassContext1mByPolicy (modelId : string) : bool :=
  resolveContext1mPass modelId (getModelEntry (JStr modelId)) (jstrs getContext1mWhitelist) strip_1m.

(** ** What an entry does to a request *)

Definition thinking_type (thinking : jsval) : string := to_lower (str_or_empty (thinking?."type")).
Definition or_value (n : num) (d : Z) : num := if truthy (JNum n) then n else num_of_Z d.

Definition clampEnabledThinkingBudget (body : jsval) : jsval :=
  let thinking := body?."thinking" in
  if negb (is_object thinking) then body
  else if negb (String.eqb (thinking_type thinking) "enabled") then body
  else
    let fallback := or_value (to_number (getModelParams (body?."model" ||| JStr "")?."thinking_fallback_budget")) 4096 in
    let own := to_number (thinking?."budget_tokens") in
    let budget := if negb (is_finite own) || num_leb own (Fin 0) then fallback else own in
    if num_eqb own budget then body
    else with_field body "thinking" (with_field (with_field thinking "type" (JStr "enabled")) "budget_tokens" (JNum budget)).

Definition strip_thinking (body : jsval) : jsval := JObj (del_field "thinking" (fields_of body)).

Definition normalizeThinkingByPolicy (body : jsval) : jsval :=
  if negb (is_object body) then body
  else if match policy?."defaults"?."normalize_thinking" with JBool false => true | _ => false end then body
  else
    let thinking := body?."thinking" in
    if negb (is_object thinking) then body
    else
      let entry := getModelEntry (body?."model" ||| JStr "") in
      let type := thinking_type thinking in
      let params := entry?."params" in
      let caps := entry?."capabilities" in
      let on_adaptive := params?."on_adaptive" ||| JStr (if truthy (caps?."supports_adaptive") then "passthrough" else "convert_to_enabled") in
      if String.eqb type "adaptive" && is_str on_adaptive "strip" then strip_thinking body
      else if String.eqb type "adaptive" && is_str on_adaptive "convert_to_enabled" then
        let own := to_number (thinking?."budget_tokens") in
        let budget := if num_ltb (Fin 0) own then JNum own
                      else params?."thinking_fallback_budget" ||| policy?."defaults"?."thinking_fallback_budget" ||| jint 4096 in
        clampEnabledThinkingBudget (with_field body "thinking" (JObj [("type", JStr "enabled"); ("budget_tokens", budget)]))
      else if String.eqb type "enabled" && is_str (params?."on_enabled" ||| JStr "passthrough") "strip" then strip_thinking body
      else clampEnabledThinkingBudget body.

Definition getPolicyCatalogIds (enabledOnly : bool) : list string :=
  map fst (List.filter (fun p => isCatalogModelId (JStr p.1) && (negb enabledOnly || match p.2?."enabled" with JBool false => false | _ => true end))
             (fields_of models)).

Definition filterPublicModelIds (workerIds : list string) : list string :=
  let ids := uniq (map (fun id => if String.eqb id FABLE_51_LEGACY_ID then FABLE_51_ID else id) (List.filter nonempty workerIds)) in
  if is_str (policy?."catalog_mode" ||| JStr "policy_only") "worker_only" then ids else getPolicyCatalogIds true.

Definition FALLBACK_MAX_TOKENS : num := num_of_Z 4096.
Definition positive (n : num) : bool := is_finite n && num_ltb (Fin 0) n.
Definition defaultMaxTokensForModel (modelId : jsval) : num :=
  let params := getModelParams modelId in
  let n := to_number (params?."max_tokens_default") in
  let cap := to_number (params?."max_tokens_cap") in
  let out := if positive n then n else FALLBACK_MAX_TOKENS in
  if positive cap && num_ltb cap out then cap else out.

Definition applyMaxTokensCap (body : jsval) : jsval :=
  if negb (is_object body) then body
  else
    let cap := to_number (getModelParams (body?."model" ||| JStr "")?."max_tokens_cap") in
    if negb (truthy (JNum cap)) || negb (is_finite cap) then body
    else
      let mt := to_number (body?."max_tokens") in
      if is_finite mt && num_ltb cap mt then with_field body "max_tokens" (JNum cap) else body.
End policy.

(** One id the worker reports, merged into the policy. *)
Definition sync_model (acc : jsval * bool) (workerId : string) : jsval * bool :=
  let policy := acc.1 in
  let id := if String.eqb workerId FABLE_51_LEGACY_ID then FABLE_51_ID else workerId in
  if String.eqb id "" || negb (isCatalogModelId (JStr id)) || starts_with "gpt" (to_lower id) || truthy (policy?."models"?.id) then acc
  else
    let family := familyOfModelId (JStr id) in
    let caps := heuristicCapabilities id in
    let codex := String.eqb family "codex" in
    (with_field policy "models" (with_field (policy?."models") id (entry (JObj
      ([("id", JStr id); ("display_name", JStr id); ("family", JStr family); ("capabilities", caps)] ++
       (if codex then [("betas", JObj [("required", JArr []); ("drop", jstrs [CONTEXT_1M_BETA]); ("pass_context_1m", JBool false)])] else []) ++
       [("params", JObj (if codex then passthrough_params 16384 128000
                         else [("on_adaptive", JStr (if truthy (caps?."supports_adaptive") then "passthrough" else "convert_to_enabled"));
                               ("on_enabled", JStr "passthrough")]))])))), true).
Definition syncWorkerModelsIntoPolicy (now : string) (policy : jsval) (workerIds : list string) : jsval :=
  let '(merged, changed) := foldl sync_model (policy, false) workerIds in
  if changed then with_field (with_field merged "updated_at" (JStr now)) "source" (JStr "worker_merge") else policy.

(** ** A normalised policy *)

Definition settled (cfg : jsval) : Prop :=
  (exists b, cfg?."betas"?."pass_context_1m" = JBool b) /\ is_str (cfg?."params"?."on_enabled") "convert_to_adaptive" = false.

Lemma settle_entry_settled seedModels whitelist id cfg : settled (settle_entry seedModels whitelist id cfg).
Proof.
  unfold settle_entry. cbv zeta. set (c := if is_str _ _ then _ else _).
  assert (Hp : is_str (c?."params"?."on_enabled") "convert_to_adaptive" = false).
  { unfold c. destruct (is_str (cfg?."params"?."on_enabled") "convert_to_adaptive") eqn:E; [|done]. by rewrite !get_with_field_eq. }
  generalize dependent c. intros c Hp. unfold settled.
  destruct (c?."betas"?."pass_context_1m") eqn:E; try (by split; [exists b; rewrite ?E|]);
    (split; [eexists; rewrite !get_with_field_eq; reflexivity|by rewrite get_with_field_ne]).
Qed.

Lemma has_key_map (f : string * jsval -> jsval) k l : has_key k (map (fun p => (p.1, f p)) l) = has_key k l.
Proof. induction l as [|[k' v] l IH]; simpl; [done|]. by rewrite IH. Qed.

(** The ids an entry of the matrix can have. *)
Definition legal_models (models : jsval) : Prop :=
  has_own models FABLE_51_LEGACY_ID = false /\ forall id, has_own (seedDefaultPolicy ""?."models") id = true -> has_own models id = true.

Lemma legal_with models id cfg : id <> FABLE_51_LEGACY_ID -> legal_models models -> legal_models (with_field models id cfg).
Proof.
  intros Hid [H1 H2]. split.
  - rewrite has_own_with, H1, orb_false_r. apply String.eqb_neq. congruence.
  - intros k Hk. rewrite has_own_with, (H2 k Hk). apply orb_true_r.
Qed.

Lemma merge_models_legal models raw : legal_models models -> legal_models (merge_models models raw).
Proof.
  intros H. unfold merge_models. destruct (is_object raw); [|done].
  assert (Hb : legal_models (with_field models FABLE_51_ID (deepMergeEntry (models?.FABLE_51_ID) (get raw FABLE_51_LEGACY_ID)))) by (by apply legal_with).
  cbv zeta. revert Hb. generalize (with_field models FABLE_51_ID (deepMergeEntry (models?.FABLE_51_ID) (get raw FABLE_51_LEGACY_ID))).
  induction (entries raw) as [|[id cfg] l IH]; intros m Hm; [done|]. cbn [foldl]. apply IH. unfold merge_model.
  destruct (String.eqb id "" || String.eqb id FABLE_51_LEGACY_ID) eqn:E; [done|]. apply legal_with; [|done].
  apply orb_false_iff in E as [_ E]. by apply String.eqb_neq.
Qed.

Lemma Forall_set_field (P : jsval -> Prop) k v f : P v -> Forall (fun a => P a.2) f -> Forall (fun a => P a.2) (set_field k v f).
Proof.
  intros Hv. induction 1 as [|[k' v'] f Hx Hf IH]; cbn [set_field]; [by repeat constructor|].
  destruct (String.eqb k k'); constructor; done.
Qed.

Lemma seed_settled now : Forall (fun e => settled e.2) (fields_of (seedDefaultPolicy now?."models")).
Proof. repeat (constructor; [split; [eexists; vm_compute; reflexivity|vm_compute; reflexivity]|]). constructor. Qed.

(** Whatever was stored or posted, the normalised policy is well formed: no entry keeps
    the retired [convert_to_adaptive], every entry says whether it takes the 1M context,
    every seeded model is there, the unsupported dotted id is neither a model nor the target
    of an alias, and it is itself an alias of the supported one. *)
Theorem normalizePolicy_wf (now : string) (raw : jsval) :
  let p := normalizePolicy now raw in
  Forall (fun e => settled e.2) (fields_of (p?."models")) /\ legal_models (p?."models") /\
  p?."aliases"?.FABLE_51_LEGACY_ID = JStr FABLE_51_ID /\ Forall (fun a => is_legacy a.2 = false) (fields_of (p?."aliases")).
Proof.
  cbv zeta. unfold normalizePolicy. destruct (is_object raw); cbn [negb].
  - cbv zeta. set (models := with_field (merge_models _ _) _ _).
    assert (Hm : legal_models models).
    { apply legal_with; [done|]. apply merge_models_legal. split; [reflexivity|done]. }
    cbn [get assoc String.eqb Ascii.eqb Bool.eqb fields_of]. split; [|split; [|split]].
    + apply Forall_map, Forall_forall. intros e _. apply settle_entry_settled.
    + destruct Hm as [H1 H2]. unfold legal_models, has_own in *. cbn [fields_of]. rewrite has_key_map. split; [done|].
      intros id Hid. rewrite has_key_map. by apply H2.
    + apply assoc_set_eq.
    + apply (Forall_set_field (fun v => is_legacy v = false)); [reflexivity|]. cbn [fields_of]. apply Forall_map, Forall_forall.
      intros e _. cbn [snd]. destruct (is_legacy e.2) eqn:E; [reflexivity|exact E].
  - split; [apply seed_settled|]. split; [by split|]. split; [reflexivity|]. by repeat constructor.
Qed.

(** ** What the policy does to a request *)

Lemma num_eqb_refl_nonnan n : n <> NaN -> num_eqb n n = true.
Proof. destruct n; try done. intros _. simpl. by apply Qeq_bool_iff. Qed.

Lemma positive_spec own : negb (is_finite own) || num_leb own (Fin 0) = negb (positive own).
Proof. unfold positive. destruct own; try done. simpl. by rewrite negb_involutive. Qed.

Lemma clamp_spec policy f :
  let body := JObj f in
  let out := clampEnabledThinkingBudget policy body in
  (forall k, k <> "thinking" -> out?.k = body?.k) /\
  (thinking_type (body?."thinking") <> "enabled" -> out = body) /\
  (is_object (body?."thinking") = true -> thinking_type (body?."thinking") = "enabled" ->
   let own := to_number (body?."thinking"?."budget_tokens") in
   thinking_type (out?."thinking") = "enabled" /\
   num_eqb (to_number (out?."thinking"?."budget_tokens"))
     (if positive own then own else or_value (to_number (getModelEntry policy (body?."model" ||| JStr "")?."params"?."thinking_fallback_budget")) 4096) = true).
Proof.
  cbv zeta. unfold clampEnabledThinkingBudget. cbv zeta. destruct (is_object (JObj f?."thinking")) eqn:Eo; cbn [negb]; [|by split].
  destruct (String.eqb_spec (thinking_type (JObj f?."thinking")) "enabled") as [Et|Et]; cbn [negb]; [|by split].
  rewrite positive_spec. set (own := to_number (JObj f?."thinking"?."budget_tokens")). unfold getModelParams.
  set (fb := or_value _ 4096). assert (Hfb : fb <> NaN).
  { unfold fb, or_value. destruct (truthy _) eqn:E; [|done]. by intros H; rewrite H in E. }
  set (b := if negb (positive own) then fb else own). replace (if positive own then own else fb) with b by (unfold b; by destruct (positive own)).
  assert (Hb : b <> NaN). { unfold b. destruct (positive own) eqn:E; cbn [negb]; [|done]. intros H. by rewrite H in E. }
  destruct (num_eqb own b) eqn:En.
  - split; [done|]. split; [done|]. intros _ _. by split.
  - split; [intros k Hk; by rewrite get_with_field_ne|]. split; [done|]. intros _ _. rewrite !get_with_field_eq. split.
    + unfold thinking_type. rewrite get_with_field_ne, get_with_field_eq by done. reflexivity.
    + by apply num_eqb_refl_nonnan.
Qed.

(** The thinking block under the policy.  The request changes in nothing else; the block
    is dropped only when the model's entry strips its kind; an adaptive block stays adaptive
    exactly when the entry neither strips nor converts it; and an enabled block leaves with a
    usable budget - the caller's own when it is positive, the model's fallback otherwise. *)
Theorem normalizeThinking_spec (policy body : jsval) (f : fields) :
  body = JObj f -> is_object (body?."thinking") = true -> policy?."defaults"?."normalize_thinking" <> JBool false ->
  let entry := getModelEntry policy (body?."model" ||| JStr "") in
  let thinking := body?."thinking" in
  let on_adaptive := entry?."params"?."on_adaptive" |||
                     JStr (if truthy (entry?."capabilities"?."supports_adaptive") then "passthrough" else "convert_to_enabled") in
  let out := normalizeThinkingByPolicy policy body in
  (forall k, k <> "thinking" -> out?.k = body?.k) /\
  (thinking_type thinking = "adaptive" ->
   if is_str on_adaptive "strip" then out?."thinking" = JUndef
   else if is_str on_adaptive "convert_to_enabled" then thinking_type (out?."thinking") = "enabled"
   else out?."thinking" = thinking) /\
  (thinking_type thinking = "enabled" ->
   if is_str (entry?."params"?."on_enabled" ||| JStr "passthrough") "strip" then out?."thinking" = JUndef
   else thinking_type (out?."thinking") = "enabled" /\
     let own := to_number (thinking?."budget_tokens") in
     num_eqb (to_number (out?."thinking"?."budget_tokens"))
       (if positive own then own else or_value (to_number (entry?."params"?."thinking_fallback_budget")) 4096) = true).
Proof.
  intros -> Ho Hn. cbv zeta. unfold normalizeThinkingByPolicy. cbn [is_object negb].
  replace (match policy?."defaults"?."normalize_thinking" with JBool false => true | _ => false end) with false
    by (destruct (policy?."defaults"?."normalize_thinking") as [| |[]| | | |]; done). cbv zeta. rewrite Ho. cbn [negb].
  set (entry := getModelEntry policy (JObj f?."model" ||| JStr "")). set (ty := thinking_type (JObj f?."thinking")).
  set (oa := entry?."params"?."on_adaptive" ||| _). set (oe := entry?."params"?."on_enabled" ||| _).
  assert (Hstrip : (forall k, k <> "thinking" -> strip_thinking (JObj f)?.k = JObj f?.k) /\ strip_thinking (JObj f)?."thinking" = JUndef).
  { split; [intros k Hk; by apply assoc_del_ne|apply assoc_del_eq]. }
  destruct (clamp_spec policy f) as (Hc1 & Hc2 & Hc3). cbv zeta in Hc3. fold entry in Hc3. fold ty in Hc2, Hc3.
  destruct (String.eqb_spec ty "adaptive") as [Ea|Ea]; cbn [andb].
  - destruct (is_str oa "strip"); [destruct Hstrip; split; [done|]; split; [done|congruence]|].
    destruct (is_str oa "convert_to_enabled").
    + set (bud := if num_ltb _ _ then _ else _). destruct (clamp_spec policy (set_field "thinking" (JObj [("type", JStr "enabled"); ("budget_tokens", bud)]) f)) as (Hd1 & _ & Hd3).
      change (JObj (set_field "thinking" (JObj [("type", JStr "enabled"); ("budget_tokens", bud)]) f))
        with (with_field (JObj f) "thinking" (JObj [("type", JStr "enabled"); ("budget_tokens", bud)])) in Hd1, Hd3.
      split; [intros k Hk; rewrite Hd1 by done; by rewrite get_with_field_ne|]. split; [|congruence]. intros _. apply Hd3; by rewrite get_with_field_eq.
    + rewrite Ea. cbn [String.eqb Ascii.eqb Bool.eqb andb]. rewrite Hc2 by congruence. split; [done|]. split; [done|congruence].
  - destruct (String.eqb_spec ty "enabled") as [Ee|Ee]; cbn [andb].
    + destruct (is_str oe "strip"); [destruct Hstrip; split; [done|]; split; [congruence|done]|].
      split; [done|]. split; [congruence|]. intros _. by apply Hc3.
    + split; [done|]. split; congruence.
Qed.

Definition seeded : jsval := seedDefaultPolicy "2026-08-01T00:00:00.000Z".
Definition haiku_request : jsval := JObj
  [("model", JStr "anthropic/claude-haiku-4-5"); ("thinking", JObj [("type", JStr "adaptive")]); ("max_tokens", jint 100000)].

Lemma normalizeThinking_spec_witness :
  let entry := getModelEntry seeded (haiku_request?."model" ||| JStr "") in
  let thinking := haiku_request?."thinking" in
  let on_adaptive := entry?."params"?."on_adaptive" |||
                     JStr (if truthy (entry?."capabilities"?."supports_adaptive") then "passthrough" else "convert_to_enabled") in
  let out := normalizeThinkingByPolicy seeded haiku_request in
  (forall k, k <> "thinking" -> out?.k = haiku_request?.k) /\
  (thinking_type thinking = "adaptive" ->
   if is_str on_adaptive "strip" then out?."thinking" = JUndef
   else if is_str on_adaptive "convert_to_enabled" then thinking_type (out?."thinking") = "enabled"
   else out?."thinking" = thinking) /\
  (thinking_type thinking = "enabled" ->
   if is_str (entry?."params"?."on_enabled" ||| JStr "passthrough") "strip" then out?."thinking" = JUndef
   else thinking_type (out?."thinking") = "enabled" /\
     let own := to_number (thinking?."budget_tokens") in
     num_eqb (to_number (out?."thinking"?."budget_tokens"))
       (if positive own then own else or_value (to_number (entry?."params"?."thinking_fallback_budget")) 4096) = true).
Proof. eapply (normalizeThinking_spec seeded haiku_request); [reflexivity|reflexivity|discriminate]. Defined.

Example haiku_converted :
  normalizeThinkingByPolicy seeded haiku_request?."thinking" = JObj [("type", JStr "enabled"); ("budget_tokens", jint 4096)].
Proof. vm_compute. reflexivity. Qed.
Example haiku_capped : applyMaxTokensCap seeded haiku_request?."max_tokens" = jint 64000.
Proof. vm_compute. reflexivity. Qed.
Example resolved_ids :
  map (fun m => resolvePolicyModelId seeded (JStr m)) ["Opus"; "openrouter/anthropic/claude-sonnet-5[1m]"; "claude-fable-5.1"; "claude-opus-9"; " "] =
  [JStr "claude-opus-5"; JStr "claude-sonnet-5"; JStr "claude-fable-5-1"; JStr "claude-opus-9"; JNull].
Proof. vm_compute. reflexivity. Qed.
(** The budget below the provider's minimum of 1024 is kept as the caller sent it. *)
Example budget_below_minimum_kept :
  clampEnabledThinkingBudget seeded (JObj [("model", JStr "sonnet"); ("thinking", JObj [("type", JStr "enabled"); ("budget_tokens", jint 500)])])
    ?."thinking"?."budget_tokens" = jint 500.
Proof. vm_compute. reflexivity. Qed.

(** The cap never raises [max_tokens] and touches nothing else. *)
Lemma applyMaxTokensCap_spec policy f :
  let out := applyMaxTokensCap policy (JObj f) in
  (forall k, k <> "max_tokens" -> out?.k = JObj f?.k) /\
  (is_finite (to_number (JObj f?."max_tokens")) = true -> num_leb (to_number (out?."max_tokens")) (to_number (JObj f?."max_tokens")) = true /\
   forall cap, to_number (getModelParams policy (JObj f?."model" ||| JStr "")?."max_tokens_cap") = cap -> positive cap = true ->
   num_leb (to_number (out?."max_tokens")) cap = true).
Proof.
  cbv zeta. unfold applyMaxTokensCap. cbn [is_object negb]. set (cap := to_number (_?."max_tokens_cap")). set (mt := to_number (JObj f?."max_tokens")).
  assert (Hrefl : forall n, is_finite n = true -> num_leb n n = true) by (intros [q| | |] H; try done; apply num_leb_Fin; lra).
  destruct (negb (truthy (JNum cap)) || negb (is_finite cap)) eqn:E.
  - split; [done|]. intros Hf. split; [by apply Hrefl|]. intros c <- Hp. unfold positive in Hp. exfalso.
    destruct cap as [q| | |]; try done. simpl in *. q_props. rewrite orb_false_r in E. q_props. lra.
  - destruct (is_finite mt && num_ltb cap mt) eqn:El.
    + apply andb_true_iff in El as [Hm Hl]. split; [intros k Hk; by rewrite get_with_field_ne|]. intros _. rewrite get_with_field_eq. cbn [to_number].
      apply orb_false_iff in E as [_ E]. split; [by apply num_ltb_leb|]. intros c <- _. apply Hrefl. by destruct (is_finite cap).
    + split; [done|]. intros Hf. split; [by apply Hrefl|]. intros c <- _. fold mt. rewrite Hf in El. simpl in El.
      apply orb_false_iff in E as [_ E]. destruct mt, cap; try done. simpl in *. q_props. done.
Qed.
