(* ===== verification/ModelGate.v ===== *)
(** * Which slot may serve which model
    (src/src/lib/pool/slot-model-gate.mjs, src/src/lib/pool/claude-tier.mjs)

    The tier of an account as its usage shows it, the allowlists of the slots and the gate
    the scheduler asks.  The model policy is an argument. *)

From S2P Require Import Prelude.
From S2P Require Import JsValue.
From S2P Require Import JsRegex.
From S2P Require Import JsText.
From S2P Require Import Eligibility.
From S2P Require Import ErrorPolicy.
From S2P Require Import ModelPolicy.
#[local] Open Scope string_scope.
#[local] Open Scope list_scope.
#[local] Open Scope js_scope.

(** ** Claude tiers *)

Module Tier.

Definition isFablePlanDenied (fb : jsval) : bool :=
  if negb (is_object fb) then false
  else if truthy (fb?."plan_denied") then true
  else
    let st := to_number (fb?."status" ||| jint 0) in
    let err := to_lower (str_or_empty (fb?."error" ||| fb?."type")) in
    if num_eqb st (num_of_Z 401) || includes err "oauth" || includes err "authentication" then false
    else num_eqb st (num_of_Z 403) || includes err "permission".

Definition normOiUtil (u : jsval) : option num :=
  if is_nullish u || is_str u "" then None
  else let n := to_number u in
       if negb (is_finite n) then None else Some (if num_ltb (Fin (3 # 2)) n then num_div n (num_of_Z 100) else n).

Definition isInventedFableWindow (fb quota : jsval) : bool :=
  let st := to_number (fb?."status" ||| jint 0) in
  if truthy (fb?."ok") then false
  else if negb (num_eqb st (num_of_Z 429)) && negb (truthy (fb?."limited")) then false
  else
    let oi := normOiUtil (quota?."utilization_7d_oi" ?? quota?."7d_oi"?."utilization") in
    let reset := quota?."reset_7d_oi" ||| quota?."7d_oi"?."reset" in
    match oi with
    | None => negb (truthy reset)
    | Some n => num_leb (Fin 1) n && negb (truthy reset)
    end.

Definition isFableUnavailablePro (fb quota : jsval) : bool := if isFablePlanDenied fb then true else isInventedFableWindow fb quota.

Definition quotaView (vm quota : jsval) : jsval := JObj
  [("utilization_7d_oi", quota?."utilization_7d_oi" ?? vm?."utilization_7d_oi");
   ("reset_7d_oi", quota?."reset_7d_oi" ||| vm?."reset_7d_oi");
   ("status_7d_oi", quota?."status_7d_oi" ||| vm?."status_7d_oi");
   ("7d_oi", quota?."7d_oi" ||| vm?."7d_oi");
   ("usage_has_fable", quota?."usage_has_fable" ?? vm?."usage_has_fable")].

Definition hasOi (q : jsval) : bool :=
  let oi := q?."7d_oi" ||| JObj [] in
  negb (is_nullish (q?."utilization_7d_oi")) || truthy (q?."reset_7d_oi") || truthy (q?."status_7d_oi") ||
  negb (is_nullish (oi?."utilization")) || truthy (oi?."reset") || truthy (oi?."resets_at") || truthy (oi?."status").

Definition hasClaudeFableUsage (vm quota : jsval) : bool :=
  let q := quotaView vm quota in
  if is_true (q?."usage_has_fable") then true
  else
    let fb := quota?."fable" ||| vm?."fable" ||| JObj [] in
    if truthy (fb?."ok") then true
    else if negb (hasOi q) then false else negb (isInventedFableWindow fb q).

Inductive tier := NoTier | Max | Pro | Unknown.
#[global] Instance tier_eq_dec : EqDecision tier.
Proof. solve_decision. Defined.

Definition inferClaudeTier (vm quota : jsval) : tier :=
  if negb (truthy (vm?."has_token" ||| vm?."has_access")) then NoTier
  else
    let fb := quota?."fable" ||| vm?."fable" ||| JObj [] in
    let q := quotaView vm quota in
    let stored := to_lower (str_or_empty (vm?."account_tier" ||| quota?."account_tier")) in
    if hasClaudeFableUsage vm quota || String.eqb stored "max" then Max
    else if String.eqb stored "pro" || isFableUnavailablePro fb q then Pro else Unknown.

End Tier.

(** ** Slots and models *)

Definition normalizeAllowedModels (raw : jsval) : option (list string) :=
  match raw with JArr l => match uniq (trimmed l) with [] => None | ids => Some ids end | _ => None end.

(** The strings that the pattern for the Fable 5.1 ids accepts. *)
Definition fable51 (s : string) : bool :=
  (starts_with "claude-fable-5-1" s || starts_with "claude-fable-5.1" s) &&
  let rest := drop_chars 16 s in String.eqb rest "" || starts_with "-" rest.

Definition key_pair (a b : string) : bool :=
  String.eqb a b || (Bool.eqb (fable51 a) (fable51 b) && (starts_with (b ++ "-") a || starts_with (a ++ "-") b)).
Definition keysIntersect (left right : list string) : bool := existsb (fun a => existsb (key_pair a) right) left.

Section gate.
Variable policy : jsval.

Definition modelKeys (model : string) : list string :=
  let raw := trim model in
  if String.eqb raw "" then []
  else
    let resolved := to_string (resolvePolicyModelId policy (JStr raw) ||| JStr raw) in
    let entry := getModelEntry policy (JStr raw) in
    uniq (List.filter nonempty
      ([to_lower raw; to_lower resolved; to_lower (str_or_empty (entry?."id"))] ++
       map (fun alias => to_lower (to_string alias)) (arr_of (entry?."aliases")))).

Definition modelMatchesAllowlist (model : string) (allowed : jsval) : bool :=
  match normalizeAllowedModels allowed with
  | None => true
  | Some list =>
    match modelKeys model with
    | [] => false
    | requestKeys => existsb (fun item => keysIntersect requestKeys (modelKeys item)) list
    end
  end.

(** [parseAllowedModelsPatch]: [inl] the unknown model (the empty string: not an array).
    [gptIds] are the ids of the GPT policy. *)
Definition known_model (value : string) : bool :=
  let catalog := map to_lower (getPolicyCatalogIds policy false) in
  let resolved := to_string (resolvePolicyModelId policy (JStr value) ||| JStr value) in
  let entry := getModelEntry policy (JStr value) in
  mem (to_lower resolved) catalog || mem (to_lower value) catalog || mem (to_lower (str_or_empty (entry?."id"))) catalog ||
  existsb (fun alias => String.eqb (to_lower (to_string alias)) (to_lower value)) (arr_of (entry?."aliases")).
Definition stored_id (value : string) : string :=
  to_string (getModelEntry policy (JStr value)?."id" ||| (resolvePolicyModelId policy (JStr value) ||| JStr value)).
Fixpoint parse_models (gpt : bool) (gptIds : list string) (raw : list jsval) : string + list string :=
  match raw with
  | [] => inr []
  | item :: raw' =>
    let value := trim (str_or_empty item) in
    if String.eqb value "" then parse_models gpt gptIds raw'
    else if negb (if gpt then mem (to_lower value) (map to_lower gptIds) else known_model value) then inl value
    else match parse_models gpt gptIds raw' with
         | inl bad => inl bad
         | inr ids => inr ((if gpt then value else stored_id value) :: ids)
         end
  end.
Definition parseAllowedModelsPatch (raw : jsval) (gpt : bool) (gptIds : list string) : string + option (list string) :=
  match raw with
  | JUndef | JNull => inr None
  | JArr l => match parse_models gpt gptIds l with inl bad => inl bad | inr ids => inr (normalizeAllowedModels (jstrs ids)) end
  | _ => inl ""
  end.

Definition quotaView (vm account : jsval) : jsval :=
  let unified := if is_object (account?."unified") then account?."unified" else JObj [] in
  JObj
  [("fable", unified?."fable" ||| vm?."claude"?."fable" ||| vm?."fable" ||| JObj []);
   ("utilization_7d_oi", unified?."utilization_7d_oi" ?? unified?."7d_oi"?."utilization" ?? vm?."utilization_7d_oi");
   ("reset_7d_oi", unified?."reset_7d_oi" ||| unified?."7d_oi"?."reset" ||| vm?."reset_7d_oi");
   ("status_7d_oi", unified?."status_7d_oi" ||| unified?."7d_oi"?."status" ||| vm?."status_7d_oi");
   ("7d_oi", unified?."7d_oi");
   ("account_tier", unified?."account_tier" ||| vm?."claude"?."account_tier" ||| vm?."account_tier");
   ("usage_has_fable", JBool (is_true (unified?."usage_has_fable") || is_true (vm?."usage_has_fable")))].

Definition resolveSlotTier (vm account : jsval) : Tier.tier :=
  let quota := quotaView vm account in
  Tier.inferClaudeTier (JObj
    [("has_token", JBool true); ("account_tier", quota?."account_tier"); ("fable", quota?."fable"); ("utilization_7d_oi", quota?."utilization_7d_oi");
     ("reset_7d_oi", quota?."reset_7d_oi"); ("status_7d_oi", quota?."status_7d_oi"); ("usage_has_fable", quota?."usage_has_fable")]) quota.

Definition isCodexCatalogModel (id : string) : bool := isGptSeriesId (JStr id).

(** [slotAllowsModel]: the reason of the refusal. *)
Definition slotAllowsModel (vm account : jsval) (model : jsval) : option string :=
  let modelKey := trim (str_or_empty model) in
  if String.eqb modelKey "" then None
  else if VmKind.isCodexVm vm && negb (isCodexCatalogModel modelKey) then Some "codex_model_required"
  else if negb (VmKind.isCodexVm vm) && isCodexCatalogModel modelKey then Some "claude_model_required"
  else if isFableModel (JStr modelKey) && match resolveSlotTier vm account with Tier.Max => false | _ => true end then Some "fable_requires_max"
  else match normalizeAllowedModels (vm?."policy"?."allowed_models") with
       | Some allowed => if negb (modelMatchesAllowlist modelKey (jstrs allowed)) then Some "model_not_allowed" else None
       | None => None
       end.
End gate.

(** ** The gate *)

Lemma key_pair_sym a b : key_pair a b = key_pair b a.
Proof.
  unfold key_pair. rewrite String.eqb_sym. f_equal. destruct (fable51 a), (fable51 b); simpl; try done; apply orb_comm.
Qed.
Lemma keysIntersect_sym l r : keysIntersect l r = keysIntersect r l.
Proof.
  apply eq_true_iff_eq. unfold keysIntersect. split; intros H; apply existsb_exists in H as (a & Ha & H); apply existsb_exists in H as (b & Hb & H);
    apply existsb_exists; exists b; (split; [done|]); apply existsb_exists; exists a; (split; [done|]); by rewrite key_pair_sym.
Qed.

(** Only a shared key makes a Fable 5.1 id meet an id that is not one. *)
Lemma fable51_apart l r :
  Forall (fun a => fable51 a = true) l -> Forall (fun b => fable51 b = false) r -> keysIntersect l r = false.
Proof.
  intros Hl Hr. apply not_true_iff_false. intros H. apply existsb_exists in H as (a & Ha & H). apply existsb_exists in H as (b & Hb & H).
  apply list_elem_of_In in Ha, Hb. eapply Forall_forall in Hl; [|exact Ha]. eapply Forall_forall in Hr; [|exact Hb]. cbn beta in *.
  unfold key_pair in H. rewrite Hl, Hr in H. destruct (String.eqb_spec a b) as [->|]; [congruence|done].
Qed.

Lemma uniq_nodup l : NoDup l -> uniq l = l.
Proof.
  induction 1 as [|x l Hx _ IH]; [done|]. cbn [uniq]. rewrite IH. f_equal. apply forallb_filter_id, forallb_forall.
  intros y Hy. destruct (String.eqb_spec x y) as [->|]; [|done]. by apply list_elem_of_In in Hy.
Qed.

(** Normalising an allowlist twice changes nothing. *)
Lemma allowed_models_idem raw ids : normalizeAllowedModels raw = Some ids -> normalizeAllowedModels (jstrs ids) = Some ids.
Proof.
  destruct raw as [| | | | |l|]; try done. simpl. destruct (uniq_spec (trimmed l)) as [Hin Hnd].
  destruct (uniq (trimmed l)) as [|i rest] eqn:E; [done|]. intros [= <-].
  assert (Ht : trimmed (map JStr (i :: rest)) = i :: rest).
  { assert (Forall (fun s => trim s = s /\ s <> "") (i :: rest)) as Hf.
    { apply Forall_forall. intros s Hs. apply Hin, list_elem_of_In, filter_In in Hs as [Hs Hne].
      apply in_map_iff in Hs as (v & <- & _). split; [apply trim_trim|]. unfold nonempty in Hne. by destruct (String.eqb_spec (trim (str_or_empty v)) ""). }
    clear -Hf. unfold trimmed. induction Hf as [|s l [Hs Hne] Hf' IH]; [done|]. cbn [map List.filter].
    replace (str_or_empty (JStr s)) with s by (unfold str_or_empty, or_else; simpl; by destruct (String.eqb_spec s "")).
    rewrite Hs. unfold nonempty at 1. rewrite (proj2 (String.eqb_neq _ _) Hne). cbn [negb]. by rewrite IH. }
  change (match uniq (trimmed (map JStr (i :: rest))) with [] => None | ids => Some ids end = Some (i :: rest)). rewrite Ht.
  by rewrite (uniq_nodup (i :: rest) Hnd).
Qed.

(** The gate of a slot.  A named model passes exactly when it is of the slot's kind (GPT
    ids on Codex slots, the others on Claude slots), a Fable model finds an account of the
    Max tier, and the slot's allowlist, when it has one, holds an entry whose ids meet the
    model's; the reason names the first check that fails. *)
Theorem slot_gate_spec (policy vm account model : jsval) :
  let key := trim (str_or_empty model) in
  let kind_ok := Bool.eqb (VmKind.isCodexVm vm) (isCodexCatalogModel key) in
  let tier_ok := negb (isFableModel (JStr key)) || bool_decide (resolveSlotTier vm account = Tier.Max) in
  let list_ok := modelMatchesAllowlist policy key (vm?."policy"?."allowed_models") in
  key <> "" ->
  slotAllowsModel policy vm account model =
    (if kind_ok then if tier_ok then if list_ok then None else Some "model_not_allowed" else Some "fable_requires_max"
     else if VmKind.isCodexVm vm then Some "codex_model_required" else Some "claude_model_required").
Proof.
  cbv zeta. intros Hk. unfold slotAllowsModel. cbv zeta. rewrite (proj2 (String.eqb_neq _ _) Hk).
  assert (Hlist : match normalizeAllowedModels (vm?."policy"?."allowed_models") with
                  | Some allowed => if negb (modelMatchesAllowlist policy (trim (str_or_empty model)) (jstrs allowed)) then Some "model_not_allowed" else None
                  | None => None
                  end = if modelMatchesAllowlist policy (trim (str_or_empty model)) (vm?."policy"?."allowed_models") then None else Some "model_not_allowed").
  { unfold modelMatchesAllowlist. destruct (normalizeAllowedModels (vm?."policy"?."allowed_models")) as [ids|] eqn:E; [|done].
    rewrite (allowed_models_idem _ _ E). by destruct (match modelKeys _ _ with [] => false | _ => _ end). }
  rewrite Hlist. clear Hlist.
  destruct (VmKind.isCodexVm vm), (isCodexCatalogModel (trim (str_or_empty model))); cbn [andb negb Bool.eqb]; try reflexivity;
    (destruct (isFableModel (JStr (trim (str_or_empty model)))); cbn [andb negb orb]; [|reflexivity]);
    by destruct (resolveSlotTier vm account).
Qed.

Lemma slot_gate_spec_witness :
  let vm := JObj [("policy", JObj [("allowed_models", JArr [JStr " claude-fable-5 "])])] in
  let account := JObj [("unified", JObj [("usage_has_fable", JBool true)])] in
  let model := JStr "claude-fable-5-1" in
  let key := trim (str_or_empty model) in
  let kind_ok := Bool.eqb (VmKind.isCodexVm vm) (isCodexCatalogModel key) in
  let tier_ok := negb (isFableModel (JStr key)) || bool_decide (resolveSlotTier vm account = Tier.Max) in
  let list_ok := modelMatchesAllowlist seeded key (vm?."policy"?."allowed_models") in
  slotAllowsModel seeded vm account model =
    (if kind_ok then if tier_ok then if list_ok then None else Some "model_not_allowed" else Some "fable_requires_max"
     else if VmKind.isCodexVm vm then Some "codex_model_required" else Some "claude_model_required").
Proof. intros vm account model. apply (slot_gate_spec seeded vm account model). discriminate. Defined.

(** A Fable 5 allowlist does not admit Fable 5.1, and a dated id meets its family entry. *)
Example fable51_not_widened :
  slotAllowsModel seeded (JObj [("policy", JObj [("allowed_models", JArr [JStr "claude-fable-5"])])])
    (JObj [("unified", JObj [("usage_has_fable", JBool true)])]) (JStr "claude-fable-5-1") = Some "model_not_allowed".
Proof. vm_compute. reflexivity. Qed.
Example dated_admitted :
  slotAllowsModel seeded (JObj [("policy", JObj [("allowed_models", JArr [JStr "claude-opus-4-6"])])]) JNull (JStr "claude-opus-4-6-20260101") = None.
Proof. vm_compute. reflexivity. Qed.
