(* ===== verification/Eligible.v ===== *)
(** * Who may take a request ([checkEligibility], [eligibleCandidates] of
    src/src/lib/pool/pool-scheduler.mjs)

    What the scheduler reads from its collaborators - the account quota, the runtime
    repository, the worker's health, the slot's files - is the record [surroundings]; what
    it does to them is the list of [effect]s. *)

From S2P Require Import Prelude.
From S2P Require Import JsValue.
From S2P Require Import JsText.
From S2P Require Import QuotaWindow.
From S2P Require Import TierPolicy.
From S2P Require Import SessionLimit.
From S2P Require Import Eligibility.
From S2P Require Import Availability.
From S2P Require Import ErrorPolicy.
From S2P Require Import Scheduler.
From S2P Require Import Ranking.
From S2P Require Import ModelPolicy.
From S2P Require Import ModelGate.
#[local] Open Scope string_scope.
#[local] Open Scope list_scope.
#[local] Open Scope js_scope.

Import Account.

(** The answer of [accountQuota.canAccept]. *)
Inductive quota_gate := QuotaOk | QuotaNo (reason : string) (reset_at : jsval).

(** [accountQuota]: its stored account, its methods at this account. *)
Record quota_ops := {
  q_account : jsval; q_policyFor : jsval -> jsval; q_limitFor : jsval -> jsval -> jsval; q_sessions : option SessionLimit.registry;
  q_fableLimited : bool; q_fableResetAt : jsval; q_weeklySplit : option WeeklySplit.split; q_splitResetAt : WeeklySplit.split_reason -> jsval;
  q_canAccept : quota_gate;
}.

Record surroundings := {
  accountQuota : option quota_ops;
  workerProxyEndpoint : jsval; egressMode : jsval; desynced : bool;
  live_vm : jsval (* [getVm] after the quota sync, null without a project root *);
  hasRoot : bool (* [projectRoot] *);
  lastUsed : jsval (* [lastUsed.get(accountId)] *);
  state_before : jsval; state_after : jsval (* [runtimeRepo.get(accountId)] at the two reads *);
  workerStatus_of : jsval;
  clock_now : num;
}.

Inductive effect :=
| SetSchedulable (on : bool) (reason : string)
| ClearGrantRevokeCooldown
| SyncQuotaSchedule.

Inductive eligibility :=
| Refused (reason : jsval)
| Eligible (vm account workerStatus : jsval) (* [vm] as the checks left it *) (busy : bool) (availableAt : option num) (waitReason : option string).

(** The wait collected by [markWait]. *)
Record wait := { w_busy : bool; w_availableAt : option num; w_reason : option string }.
Definition no_wait : wait := {| w_busy := false; w_availableAt := None; w_reason := None |}.
Definition markWait (now : num) (reason : string) (until : jsval) (w : wait) : wait :=
  let next := num_or_zero until in
  {| w_busy := true;
     w_reason := match w_reason w with Some r => Some r | None => Some reason end;
     w_availableAt := if num_ltb now next
                      then Some (match w_availableAt w with Some at_ => if truthy (JNum at_) then num_min at_ next else next | None => next end)
                      else w_availableAt w |}.
(** [if (b) markWait(reason, until)] *)
Definition mark_if (b : bool) (now : num) (reason : string) (until : jsval) (w : wait) : wait := if b then markWait now reason until w else w.

Section check.
Context (policy config : jsval) (env : surroundings).

Definition or_null (v : jsval) : jsval := v ||| JNull.

Definition effectiveMaxConcurrency (vm account : jsval) (fallback : num) : num :=
  if truthy (vm?."policy"?."concurrencyOverride") then maxConcurrencyOf vm fallback
  else
    let fromQuota := match accountQuota env with Some q => q_limitFor q account (q_policyFor q account) | None => JUndef end in
    if negb (is_nullish fromQuota) && is_finite (to_number fromQuota) then num_max (Fin 0) (to_number fromQuota)
    else maxConcurrencyOf vm fallback.
Definition fallbackCap : num := parseConcurrency (config?."default_max_per_account") (num_of_Z 2).

(** The fields of the slot read again after the quota sync. *)
Definition refresh_vm (vm : jsval) : jsval :=
  let live := live_vm env in
  if hasRoot env && truthy live then
    foldl (fun v k => with_field v k (live?.k))
      (with_field vm "claude" (live?."claude" ||| vm?."claude"))
      ["schedulable"; "schedule_disabled_reason"; "schedule_manual"; "temp_unschedulable_until"; "temp_unschedulable_reason"]
  else vm.

Definition account_input (vm account : jsval) (sessionKey : jsval) (pol : jsval) (now : num) : input :=
  let lastUsedAt := first_truthy [lastUsed env; state_before env?."last_used_at"] in
  {| i_vm := vm; i_account := with_field account "last_used_at" lastUsedAt;
     hasToken := JBool (truthy (vm?."claude"?."has_access") || truthy (vm?."has_token"));
     hasRefresh := JBool (Credentials.hasRefreshPresence (vm?."claude") || truthy (vm?."has_refresh"));
     schedulable := JBool (negb (is_false (vm?."schedulable"))); scheduleDisabledReason := or_null (vm?."schedule_disabled_reason");
     lastProbe := first_truthy [account?."last_probe"; account?."unified"?."last_probe"];
     probeSource := first_truthy [account?."unified"?."source"; account?."last_probe"?."source"];
     workerLastError := account?."worker_status"?."last_error" ||| vm?."claude"?."refresh_error";
     refreshError := vm?."claude"?."refresh_error";
     expiresAt := first_truthy [vm?."claude"?."expires_at"; vm?."expires_at"];
     refreshedAt := first_truthy [vm?."claude"?."refreshed_at"; vm?."refreshed_at"];
     workerCredential := or_null (account?."worker_status"?."credential");
     i_quota := if truthy (account?."unified") then
         spread (listQuotaFromHeaders (account?."unified") now) (JObj
           [("last_used_at", lastUsedAt); ("last_probe", account?."last_probe" ||| account?."unified"?."last_probe");
            ("probe_source", account?."unified"?."source")])
       else JObj [];
     Account.policy := pol; sessionKey := sessionKey;
     cooldownUntil := first_truthy [state_before env?."cooldown_until"; vm?."claude"?."temp_unschedulable_until"; vm?."temp_unschedulable_until"];
     cooldownReason := first_truthy [state_before env?."cooldown_reason"; vm?."claude"?."temp_unschedulable_reason"; vm?."temp_unschedulable_reason"];
     now := now; clock := clock_now env |}.

Definition key_name (k : akey) : string :=
  match k with KNone => "none" | KBad => "bad" | KOff => "off" | KQuota => "quota" | KSessions => "sessions" | KCool => "cool" | KOk => "ok" end.

(** The account's judgment; a cooldown is a wait and comes later. *)
Definition account_gate (q : quota_ops) (vm account sessionKey : jsval) (now : num) : option SessionLimit.registry * option jsval * list effect :=
  let '(reg, ev) := evaluateAccount (account_input vm account sessionKey (or_null (q_policyFor q account)) now) (q_sessions q) in
  if accept ev then (reg, None, [])
  else
    let effs := if hasRoot env && negb (is_false (vm?."schedulable")) && is_str (reason ev) "quota_refresh_failed" &&
                   negb (is_str (vm?."schedule_disabled_reason") "disabled")
                then [SetSchedulable false "quota_refresh_failed"] else [] in
    (reg, match key ev with KCool => None | k => Some (reason ev ||| JStr (key_name k)) end, effs).

(** The gates on the slot's own files: [None] when they are passed. *)
Definition slot_gates (vm : jsval) (pinned : bool) : option jsval * list effect :=
  let gate := Gate.evaluateSlotGate vm in
  let refused := match gate with
                 | Gate.Pass _ => None
                 | Gate.Fail r =>
                   if String.eqb r "no_credential" || (pinned && String.eqb r "vm_unschedulable") then None else Some (JStr r)
                 end in
  match refused with
  | Some r => (Some r, [])
  | None =>
    if negb (Gate.slotHasBoundProxy vm) then (Some (JStr "proxy_required"), [])
    else match Gate.evaluateProxySync vm (if hasRoot env then workerProxyEndpoint env else JUndef) (if hasRoot env then egressMode env else JStr "") with
         | Gate.Pass _ => (None, [])
         | Gate.Fail r =>
           (Some (JStr r), if hasRoot env && desynced env && negb (is_str (vm?."schedule_disabled_reason") "proxy_desynced")
                           then [SetSchedulable false "proxy_desynced"] else [])
         end
  end.

(** The gates on the account, skipped for a pinned slot: the slot as read again, the account. *)
Definition account_gates (vm model sessionKey : jsval) (now : num) : jsval * jsval * option jsval * list effect :=
  match accountQuota env with
  | None => match slotAllowsModel policy vm JNull model with Some r => (vm, JNull, Some (JStr r), []) | None => (vm, JNull, None, []) end
  | Some q =>
    let account := or_null (q_account q) in
    match slotAllowsModel policy vm account model with
    | Some r => (vm, account, Some (JStr r), [])
    | None =>
      if truthy account then
        let vm := refresh_vm vm in
        let '(_, refused, effs) := account_gate q vm account sessionKey now in
        (vm, account, refused, SyncQuotaSchedule :: effs)
      else (vm, account, None, [])
    end
  end.

(** The waits, in the order of the code. *)
Definition model_waits (state : jsval) (modelKey : string) (now : num) (w : wait) : wait :=
  foldl (fun w key =>
           let modelState := state?."model_states"?.key in
           mark_if (truthy modelState && cooldownActive (modelState?."cooldown_until") now) now
             (if String.eqb key FABLE_FAMILY_KEY then "fable_cooldown" else "model_cooldown") (modelState?."cooldown_until") w)
    w (modelCooldownKeys (JStr modelKey)).

Definition split_name (r : WeeklySplit.split_reason) : string :=
  match r with WeeklySplit.fable_split => "fable_split" | WeeklySplit.regular_split => "regular_split" end.

Definition quota_waits (modelKey : string) (now : num) (w : wait) : wait :=
  match accountQuota env with
  | None => w
  | Some q =>
    let w := mark_if (isFableModel (JStr modelKey) && q_fableLimited q) now "fable_quota" (q_fableResetAt q) w in
    match WeeklySplit.splitBlocksModel (q_weeklySplit q) (JStr modelKey) with
    | Some r => markWait now (split_name r) (q_splitResetAt q r) w
    | None => w
    end
  end.

Definition load_waits (c : Reservations.counters) (accountId modelKey : string) (maxConcurrency now : num) (w : wait) : wait :=
  let w := mark_if (num_leb maxConcurrency (num_of_Z (Reservations.inflight_of c accountId))) now "concurrency_limit" JNull w in
  mark_if (Reservations.family_full c (to_number (config?."fable_max_per_account")) accountId (Reservations.family_of modelKey)) now
    "fable_concurrency" JNull w.

(** The last gates: the account quota's answer and the kernel. *)
Definition finish_check (vm account workerStatus : jsval) (pinned : bool) (now : num) (w : wait) : eligibility :=
  let gated := match accountQuota env with
               | Some q =>
                 if pinned then inr w
                 else match q_canAccept q with
                      | QuotaOk => inr w
                      | QuotaNo r reset_at =>
                        if String.eqb r "concurrency_limit" then inr (markWait now "concurrency_limit" JNull w)
                        else if String.eqb r "rpm_limit" then inr (markWait now "rpm_limit" reset_at w)
                        else inl (if String.eqb r "" then "quota_gate" else r)
                      end
               | None => inr w
               end in
  match gated with
  | inl r => Refused (JStr r)
  | inr w =>
    if Kernel.rustKernelBusy workerStatus then
      let w := markWait now "slot_busy" JNull w in Eligible vm account workerStatus (w_busy w) (w_availableAt w) (w_reason w)
    else if truthy workerStatus && Kernel.rustKernelProcessUp workerStatus && negb (Kernel.rustKernelReachable workerStatus)
    then Refused (JStr "worker_unhealthy")
    else Eligible vm account workerStatus (w_busy w) (w_availableAt w) (w_reason w)
  end.

Definition parked_without_refresh (pinned : bool) (state : jsval) : bool :=
  pinned && String.eqb (str_or_empty (state?."cooldown_reason")) "oauth_no_refresh".
Definition cleared_state (state : jsval) : jsval :=
  with_field (with_field (with_field state "status" (JStr "ready")) "cooldown_until" JNull) "cooldown_reason" JNull.

Definition checkEligibility (c : Reservations.counters) (vm : jsval) (accountId : string) (model sessionKey : jsval) (now : num) (pinned : bool)
    : eligibility * list effect :=
  let '(refused, effs) := slot_gates vm pinned in
  match refused with
  | Some r => (Refused r, effs)
  | None =>
    let '(vm, account, refused, effs1) := if pinned then (vm, JNull, None, []) else account_gates vm model sessionKey now in
    let effs := effs ++ effs1 in
    match refused with
    | Some r => (Refused r, effs)
    | None =>
      let workerStatus := workerStatus_of env in
      match Gate.evaluateCredentialEligibility vm workerStatus now with
      | Gate.Fail r => (Refused (JStr r), effs)
      | Gate.Pass _ =>
        let state := state_after env ||| state_before env in
        let leftover := Gate.isLeftoverGrantRevokeRuntime state vm (JObj []) in
        let effs := effs ++ (if leftover then [ClearGrantRevokeCooldown] else []) in
        let state := if leftover then Gate.viewRuntimeWithoutLeftoverRevoke state vm (JObj []) else state in
        let parked := parked_without_refresh pinned state in
        let effs := effs ++ (if parked then [ClearGrantRevokeCooldown] else []) in
        let state := if parked then cleared_state state else state in
        if Gate.isCredentialRuntimeBlocked state now vm then (Refused (JStr "credential_blocked"), effs)
        else
          let maxConcurrency := effectiveMaxConcurrency vm account fallbackCap in
          if num_leb maxConcurrency (Fin 0) then (Refused (JStr "concurrency_disabled"), effs)
          else
            let modelKey := normalizeModel model in
            let w := mark_if (truthy state && cooldownActive (state?."cooldown_until") now && negb parked) now "account_cooldown"
                       (state?."cooldown_until") no_wait in
            let w := load_waits c accountId modelKey maxConcurrency now (quota_waits modelKey now (model_waits state modelKey now w)) in
            (finish_check vm account workerStatus pinned now w, effs)
      end
    end
  end.

End check.

(** ** What an eligible account guarantees *)

Lemma mark_busy b now r u w : w_busy (mark_if b now r u w) = b || w_busy w.
Proof. by destruct b. Qed.

(** A wait is coherent: busy exactly when it has a reason, and only a time to come is told. *)
Record coherent (now : num) (w : wait) : Prop := {
  co_reason : w_busy w = true <-> exists r, w_reason w = Some r;
  co_idle : w_busy w = false -> w_availableAt w = None;
  co_future : forall t, w_availableAt w = Some t -> num_ltb now t = true;
}.

Lemma no_wait_coherent now : coherent now no_wait.
Proof. split; [split; [done|by intros [? ?]]|done|done]. Qed.

Lemma mark_coherent b now r u w : coherent now w -> coherent now (mark_if b now r u w).
Proof.
  destruct b; [|done]. intros [H1 H2 H3]. split; cbn [mark_if markWait w_busy w_reason w_availableAt].
  - split; [|done]. intros _. destruct (w_reason w); eauto.
  - done.
  - intros t. destruct (num_ltb now (num_or_zero u)) eqn:E; [|apply H3]. intros [= <-].
    destruct (w_availableAt w) as [a|]; [|exact E]. match goal with |- context [if ?b then _ else _] => destruct b end; [|exact E]. specialize (H3 a eq_refl).
    revert E H3. generalize (num_or_zero u). intros n. unfold num_min. destruct a, n; try done; case_match; first [exact E|assumption|done].
Qed.

Lemma model_waits_coherent state key now w : coherent now w -> coherent now (model_waits state key now w).
Proof.
  unfold model_waits. revert w. induction (modelCooldownKeys (JStr key)) as [|k l IH]; intros w Hw; [done|].
  cbn [foldl]. apply IH. by apply mark_coherent.
Qed.
Lemma model_waits_busy state key now w : w_busy w = true -> w_busy (model_waits state key now w) = true.
Proof.
  unfold model_waits. revert w. induction (modelCooldownKeys (JStr key)) as [|k l IH]; intros w Hw; [done|].
  cbn [foldl]. apply IH. by rewrite mark_busy, Hw, orb_true_r.
Qed.
Lemma quota_waits_coherent env key now w : coherent now w -> coherent now (quota_waits env key now w).
Proof.
  intros H. unfold quota_waits. destruct (accountQuota env); [|done]. cbv zeta.
  destruct (WeeklySplit.splitBlocksModel _ _); [apply (mark_coherent true)|]; by apply mark_coherent.
Qed.
Lemma load_waits_coherent config c acc key m now w : coherent now w -> coherent now (load_waits config c acc key m now w).
Proof. intros H. unfold load_waits. by apply mark_coherent, mark_coherent. Qed.

Lemma parseConcurrency_finite v fb : is_finite fb = true -> num_leb (Fin 0) fb = true ->
  is_finite (parseConcurrency v fb) = true /\ num_leb (Fin 0) (parseConcurrency v fb) = true.
Proof.
  intros H1 H2. unfold parseConcurrency. destruct (_ || _); [done|]. destruct (is_finite (to_number v)) eqn:E; [|done]. cbn [negb].
  split; [by apply num_max_finite|by apply num_max_ge_l].
Qed.

Lemma effectiveMaxConcurrency_finite env config vm account : is_finite (effectiveMaxConcurrency env vm account (fallbackCap config)) = true.
Proof.
  assert (Hf : is_finite (fallbackCap config) = true /\ num_leb (Fin 0) (fallbackCap config) = true) by (by apply parseConcurrency_finite).
  unfold effectiveMaxConcurrency, maxConcurrencyOf. destruct Hf as [Hf Hf0].
  destruct (truthy _); [by apply parseConcurrency_finite|]. cbv zeta.
  match goal with |- context [negb (is_nullish ?x) && _] => generalize x end. intros v.
  destruct (negb (is_nullish v) && is_finite (to_number v)) eqn:E; [|by apply parseConcurrency_finite].
  apply andb_true_iff in E as [_ E]. by apply num_max_finite.
Qed.

(** The last step keeps the wait coherent, and an idle answer means that nothing was marked. *)
Lemma finish_check_spec env vm account ws pinned now w vm' a ws' busy av wr :
  coherent now w -> finish_check env vm account ws pinned now w = Eligible vm' a ws' busy av wr ->
  vm' = vm /\ a = account /\ ws' = ws /\ coherent now {| w_busy := busy; w_availableAt := av; w_reason := wr |} /\
  (busy = false -> w_busy w = false /\ Kernel.rustKernelBusy ws = false /\
     (pinned = false -> forall q, accountQuota env = Some q -> q_canAccept q = QuotaOk)) /\
  (Kernel.rustKernelBusy ws = false -> (truthy ws && Kernel.rustKernelProcessUp ws && negb (Kernel.rustKernelReachable ws)) = false).
Proof.
  intros Hw. unfold finish_check. set (gated := match accountQuota env with Some q => _ | None => _ end).
  assert (Hg : match gated with
               | inr w' => coherent now w' /\ (w_busy w' = false -> w_busy w = false /\
                   (pinned = false -> forall q, accountQuota env = Some q -> q_canAccept q = QuotaOk))
               | inl _ => True
               end).
  { unfold gated. destruct (accountQuota env) as [q|]; [|by split]. destruct pinned; [by split|].
    destruct (q_canAccept q) as [|r reset] eqn:E; [split; [done|]; intros Hb; split; [done|]; by intros _ q' [= <-]|].
    destruct (String.eqb r "concurrency_limit"); [by split; [by apply (mark_coherent true)|]|].
    destruct (String.eqb r "rpm_limit"); [by split; [by apply (mark_coherent true)|]|done]. }
  destruct gated as [r|w']; [done|]. destruct Hg as [Hc Hb]. destruct (Kernel.rustKernelBusy ws) eqn:Ek.
  - intros [= <- <- <- <- <- <-]. split; [done|]. split; [done|]. split; [done|]. split; [|done].
    apply (mark_coherent true now "slot_busy" JNull w') in Hc. destruct Hc. by split.
  - destruct (_ && _) eqn:Er; [done|]. intros [= <- <- <- <- <- <-]. split; [done|]. split; [done|]. split; [done|]. split; [by destruct Hc; split|].
    split; [|done]. intros Hi. destruct (Hb Hi). by split.
Qed.

Lemma account_gates_model policy env vm model sessionKey now vm' account effs :
  account_gates policy env vm model sessionKey now = (vm', account, None, effs) -> slotAllowsModel policy vm account model = None.
Proof.
  unfold account_gates. destruct (accountQuota env) as [q|].
  - cbv zeta. destruct (slotAllowsModel policy vm (or_null (q_account q)) model) eqn:E; [done|].
    destruct (truthy (or_null (q_account q))); [|by intros [= <- <- <-]].
    destruct (account_gate _ _ _ _ _ _) as [[reg r] e]. by intros [= <- <- -> <-].
  - destruct (slotAllowsModel policy vm JNull model) eqn:E; [done|]. by intros [= <- <- <-].
Qed.

Lemma account_gates_vm policy env vm model sessionKey now vm' account r effs :
  account_gates policy env vm model sessionKey now = (vm', account, r, effs) -> vm' = vm \/ vm' = refresh_vm env vm.
Proof.
  unfold account_gates. destruct (accountQuota env) as [q|].
  - cbv zeta. destruct (slotAllowsModel policy vm (or_null (q_account q)) model); [intros [= <- _ _ _]; by left|].
    destruct (truthy (or_null (q_account q))); [|intros [= <- _ _ _]; by left].
    destruct (account_gate _ _ _ _ _ _) as [[reg r'] e]. intros [= <- _ _ _]. by right.
  - destruct (slotAllowsModel policy vm JNull model); intros [= <- _ _ _]; by left.
Qed.

(** An eligible account can serve.  Its slot has a proxy, in sync with the worker's; the
    credential and the model are fit for the request; its cap is positive.  When it is told
    to be idle, a reservation made at once succeeds unless the account quota itself refuses;
    when it is told to be busy there is a reason, and a time is told only if it is to come. *)
Theorem eligible_sound policy config env c vm accountId model sessionKey now pinned vm' account ws busy av wr effs :
  checkEligibility policy config env c vm accountId model sessionKey now pinned = (Eligible vm' account ws busy av wr, effs) ->
  Gate.slotHasBoundProxy vm = true /\
  Gate.passes (Gate.evaluateProxySync vm (if hasRoot env then workerProxyEndpoint env else JUndef) (if hasRoot env then egressMode env else JStr "")) = true /\
  (Gate.passes (Gate.evaluateCredentialEligibility vm' ws now) = true /\ (vm' = vm \/ vm' = refresh_vm env vm) /\
     let cap := effectiveMaxConcurrency env vm' account (fallbackCap config) in
     num_ltb (Fin 0) cap = true /\
     (busy = false -> forall acquired, acquired <> Some false ->
        exists c', Reservations.reserve c (to_number (config?."fable_max_per_account")) accountId cap (normalizeModel model) acquired = Some c')) /\
  (pinned = false -> slotAllowsModel policy vm account model = None) /\
  (busy = true <-> exists r, wr = Some r) /\ (busy = false -> av = None) /\ (forall t, av = Some t -> num_ltb now t = true).
Proof.
  unfold checkEligibility. destruct (slot_gates env vm pinned) as [r0 e0] eqn:Es.
  destruct r0 as [r|]; [done|].
  assert (Hslot : Gate.slotHasBoundProxy vm = true /\
    Gate.passes (Gate.evaluateProxySync vm (if hasRoot env then workerProxyEndpoint env else JUndef) (if hasRoot env then egressMode env else JStr "")) = true).
  { revert Es. unfold slot_gates. cbv zeta. match goal with |- context [match ?x with Some r => (Some r, []) | None => _ end] => destruct x; [done|] end.
    destruct (Gate.slotHasBoundProxy vm); [|done]. cbn [negb]. by destruct (Gate.evaluateProxySync _ _ _). }
  destruct Hslot as [Hp1 Hp2]. clear Es.
  destruct (if pinned then (vm, JNull, None, []) else account_gates policy env vm model sessionKey now) as [[[vm2 acct] r1] e1] eqn:Ea.
  destruct r1 as [r|]; [done|].
  assert (Hm : (vm2 = vm \/ vm2 = refresh_vm env vm) /\ (pinned = false -> slotAllowsModel policy vm acct model = None)).
  { destruct pinned; [simplify_eq; split; [by left|done]|]. split; [by eapply account_gates_vm|]. intros _. by eapply account_gates_model. }
  clear Ea. cbv zeta. destruct (Gate.evaluateCredentialEligibility vm2 (workerStatus_of env) now) as [n|r] eqn:Ec; [|done].
  match goal with |- context [Gate.isCredentialRuntimeBlocked ?x now vm2] => generalize x end. intros state.
  destruct (Gate.isCredentialRuntimeBlocked state now vm2); [done|].
  pose proof (effectiveMaxConcurrency_finite env config vm2 acct) as Hfin.
  destruct (num_leb (effectiveMaxConcurrency env vm2 acct (fallbackCap config)) (Fin 0)) eqn:Ecap; [done|].
  match goal with |- context [mark_if ?b now "account_cooldown" ?u no_wait] => generalize b; generalize u end. intros u b.
  set (w0 := quota_waits env _ _ _). set (w := load_waits _ _ _ _ _ _ w0).
  assert (Hco : coherent now w).
  { apply load_waits_coherent, quota_waits_coherent, model_waits_coherent, mark_coherent, no_wait_coherent. }
  intros [= Hfc _]. destruct (finish_check_spec _ _ _ _ _ _ _ _ _ _ _ _ _ Hco Hfc) as (-> & -> & -> & [H1 H2 H3] & Hidle & _).
  cbn [w_busy w_reason w_availableAt] in H1, H2, H3. destruct Hm as [Hm1 Hm2].
  split; [done|]. split; [done|]. split; [|split; [exact Hm2|]; split; [exact H1|]; split; [exact H2|exact H3]].
  split; [by rewrite Ec|]. split; [done|]. cbv zeta.
  generalize dependent (effectiveMaxConcurrency env vm2 acct (fallbackCap config)). intros cap Hfin Ecap w Hco Hfc Hidle.
  assert (Hpos : num_ltb (Fin 0) cap = true) by (destruct cap; try done; simpl in *; by rewrite Ecap). split; [done|].
  intros Hb acq Hacq. destruct (Hidle Hb) as (Hw & _). unfold w, load_waits in Hw. cbv zeta in Hw. rewrite !mark_busy in Hw.
  apply orb_false_iff in Hw as [Hfam Hw]. apply orb_false_iff in Hw as [Hinf _].
  unfold Reservations.reserve. cbv zeta. rewrite Hinf, Hfam. assert (truthy (JNum cap) = true) as ->.
  { destruct cap as [q| | |]; try done. apply num_ltb_Fin in Hpos. simpl. apply negb_true_iff, not_true_iff_false. rewrite Qeq_bool_iff. lra. }
  cbn [negb orb]. destruct acq as [[]|]; [eauto|done|eauto].
Qed.

(** ** The candidates of a round *)

(** One row of [listVms], with what reading it gives. *)
Record slot := { s_id : string; s_vm : jsval (* [getVm], null when it is gone *); s_identity : jsval (* the slot's own [account_uuid] *); s_env : surroundings }.

Definition accountIdOf (root : bool) (identity vm : jsval) : jsval :=
  if root && truthy (vm?."id") && truthy identity then identity else first_truthy [vm?."claude"?."account_uuid"; vm?."id"].

Section candidates.
Context (policy config : jsval) (c : Reservations.counters) (model sessionKey : jsval) (excluded : list string) (pin : string)
        (ownerScope : Ownership.scope) (now : num).

Definition make_candidate (s : slot) (vm : jsval) (acc : string) (account : jsval) (busy : bool) (av : option num) (wr : option string) : candidate :=
  let state := state_before (s_env s) in
  let cap := effectiveMaxConcurrency (s_env s) vm account (fallbackCap config) in
  let inflight := Reservations.inflight_of c acc in
  {| Ranking.vmId := to_string ((s_vm s)?."id"); Ranking.accountId := acc; Ranking.model := normalizeModel model; Ranking.priority := priorityOf vm account now; Ranking.weight := weightOf vm state;
     Ranking.c_inflight := inflight; Ranking.maxConcurrency := cap; Ranking.loadRatio := num_div (num_of_Z inflight) cap;
     Ranking.lastUsedAt := to_number (lastUsed (s_env s) ||| state?."last_used_at" ||| jint 0); Ranking.busy := busy; Ranking.availableAt := av; Ranking.waitReason := wr;
     Ranking.cooldownReason := str_or_empty (state?."cooldown_reason") |}.

Definition candidate_of (s : slot) : option candidate :=
  let vm := s_vm s in
  let pinned := negb (String.eqb pin "") in
  if pinned && negb (String.eqb (s_id s) pin) then None
  else if negb (truthy vm) then None
  else if negb (Ownership.vmMatchesOwnerScope vm ownerScope) then None
  else
    let id := accountIdOf (hasRoot (s_env s)) (s_identity s) vm in
    if negb (truthy id) || mem (to_string id) excluded || mem (to_string (vm?."id")) excluded then None
    else match (checkEligibility policy config (s_env s) c vm (to_string id) model sessionKey now pinned).1 with
         | Refused _ => None
         | Eligible vm account _ busy av wr => Some (make_candidate s vm (to_string id) account busy av wr)
         end.

Definition eligibleCandidates (slots : list slot) : list candidate := omap candidate_of slots.
End candidates.

Lemma inflight_nonneg_div z cap : is_finite cap = true -> num_ltb (Fin 0) cap = true -> is_finite (num_div (num_of_Z z) cap) = true.
Proof.
  intros Hf H. destruct cap as [q| | |]; try done. unfold num_of_Z. cbn [num_div]. apply num_ltb_Fin in H.
  destruct (Qeq_bool q 0) eqn:E; [|done]. apply Qeq_bool_iff in E. lra.
Qed.

Lemma priority_finite vm account n : is_finite (priorityOf vm account (Fin n)) = true.
Proof.
  unfold priorityOf. destruct (schedule_level_ok vm JUndef (account?."unified" ||| JObj []) JUndef n) as [H _].
  generalize dependent (Weight.resolveCredentialScheduleLevel vm JUndef (account?."unified" ||| JObj []) JUndef (Fin n)).1. intros l H.
  by destruct l.
Qed.

(** The candidates of a round.  Each comes from a slot of the request's tenant that is
    not excluded (and is the pinned one, if a slot is pinned), has a finite priority and
    load - so the ranking is defined - and a positive cap; when it is idle its reservation
    succeeds at once unless the account quota refuses it. *)
Theorem candidates_sound policy config c model sessionKey excluded pin scope n slots cand :
  cand ∈ eligibleCandidates policy config c model sessionKey excluded pin scope (Fin n) slots ->
  (exists s, s ∈ slots /\ Ranking.vmId cand = to_string ((s_vm s)?."id") /\ Ownership.vmMatchesOwnerScope (s_vm s) scope = true /\ (pin = "" \/ s_id s = pin)) /\
  (Ranking.accountId cand ∉ excluded) /\ (Ranking.vmId cand ∉ excluded) /\ rated cand /\ num_ltb (Fin 0) (Ranking.maxConcurrency cand) = true /\
  (Ranking.busy cand = true <-> exists r, Ranking.waitReason cand = Some r) /\
  (Ranking.busy cand = false -> forall acquired, acquired <> Some false ->
     exists c', Reservations.reserve c (to_number (config?."fable_max_per_account")) (Ranking.accountId cand) (Ranking.maxConcurrency cand) (Ranking.model cand) acquired = Some c').
Proof.
  intros Hin. unfold eligibleCandidates in Hin. apply list_elem_of_omap in Hin as (s & Hs & Hc). revert Hc. unfold candidate_of. cbv zeta.
  destruct (negb (String.eqb pin "") && negb (String.eqb (s_id s) pin)) eqn:Epin; [done|]. destruct (truthy (s_vm s)); [|done]. cbn [negb].
  destruct (Ownership.vmMatchesOwnerScope (s_vm s) scope) eqn:Eo; [|done]. cbn [negb].
  set (id := accountIdOf _ _ _). destruct (negb (truthy id) || mem (to_string id) excluded || mem (to_string ((s_vm s)?."id")) excluded) eqn:Eex; [done|].
  apply orb_false_iff in Eex as [Eex Ex2]. apply orb_false_iff in Eex as [_ Ex1].
  destruct (checkEligibility policy config (s_env s) c (s_vm s) (to_string id) model sessionKey (Fin n) (negb (String.eqb pin ""))) as [e effs] eqn:Ec. cbn [fst].
  destruct e as [r|vm account ws b av wr]; [done|]. intros [= <-]. apply eligible_sound in Ec as (_ & _ & (_ & _ & Hcap & Hres) & _ & Hwr & _ & _).
  cbv zeta in Hcap, Hres. cbn [make_candidate Ranking.vmId Ranking.accountId Ranking.model Ranking.maxConcurrency Ranking.busy Ranking.waitReason Ranking.priority Ranking.loadRatio rated].
  split; [exists s; split; [done|]; split; [done|]; split; [done|]|].
  { destruct (String.eqb_spec pin ""); [by left|]. cbn [negb andb] in Epin. apply negb_false_iff, String.eqb_eq in Epin. by right. }
  split; [rewrite <- mem_spec, Ex1; done|]. split; [rewrite <- mem_spec, Ex2; done|]. split.
  - split; [apply priority_finite|]. apply inflight_nonneg_div; [apply effectiveMaxConcurrency_finite|exact Hcap].
  - split; [exact Hcap|]. split; [exact Hwr|exact Hres].
Qed.

Definition sample_surroundings : surroundings :=
  {| accountQuota := None; workerProxyEndpoint := JUndef; egressMode := JStr ""; desynced := false; live_vm := JNull; hasRoot := false; lastUsed := JUndef;
     state_before := JNull; state_after := JNull; workerStatus_of := healthy_worker; clock_now := num_of_Z 1700000000000 |}.
Definition sample_slot : slot :=
  {| s_id := "vm1"; s_vm := with_field user_slot "id" (JStr "vm1"); s_identity := JStr "acc1"; s_env := sample_surroundings |}.
Definition sample_candidates : list candidate :=
  eligibleCandidates seeded (normalizePoolConfig JNull) Reservations.no_inflight (JStr "claude-opus-5") JNull [] "" (Ownership.User (JStr "u1"))
    (Fin 1700000000000) [sample_slot].
Definition sample_candidate : candidate :=
  {| Ranking.vmId := "vm1"; Ranking.accountId := "vm1"; Ranking.model := "claude-opus-5"; Ranking.priority := Fin 1; Ranking.weight := Fin 1;
     Ranking.c_inflight := 0; Ranking.maxConcurrency := Fin 2; Ranking.loadRatio := Fin 0; Ranking.lastUsedAt := Fin 0; Ranking.busy := false;
     Ranking.availableAt := None; Ranking.waitReason := None; Ranking.cooldownReason := "" |}.
Example sample_candidates_run : sample_candidates = [sample_candidate].
Proof. vm_compute. reflexivity. Qed.

Lemma candidates_sound_witness :
  (exists s, s ∈ [sample_slot] /\ Ranking.vmId sample_candidate = to_string ((s_vm s)?."id") /\
     Ownership.vmMatchesOwnerScope (s_vm s) (Ownership.User (JStr "u1")) = true /\ ("" = "" \/ s_id s = "")) /\
  (Ranking.accountId sample_candidate ∉ []) /\ (Ranking.vmId sample_candidate ∉ []) /\ rated sample_candidate /\
  num_ltb (Fin 0) (Ranking.maxConcurrency sample_candidate) = true /\
  (Ranking.busy sample_candidate = true <-> exists r, Ranking.waitReason sample_candidate = Some r) /\
  (Ranking.busy sample_candidate = false -> forall acquired, acquired <> Some false ->
     exists c', Reservations.reserve Reservations.no_inflight (to_number (normalizePoolConfig JNull?."fable_max_per_account"))
       (Ranking.accountId sample_candidate) (Ranking.maxConcurrency sample_candidate) (Ranking.model sample_candidate) acquired = Some c').
Proof.
  apply (candidates_sound seeded (normalizePoolConfig JNull) Reservations.no_inflight (JStr "claude-opus-5") JNull [] ""
           (Ownership.User (JStr "u1")) 1700000000000 [sample_slot]).
  vm_compute. left.
Defined.

Lemma eligible_sound_witness :
  let config := normalizePoolConfig JNull in
  let vm := s_vm sample_slot in
  Gate.slotHasBoundProxy vm = true /\ Gate.passes (Gate.evaluateProxySync vm JUndef (JStr "")) = true /\
  (Gate.passes (Gate.evaluateCredentialEligibility vm healthy_worker (Fin 1700000000000)) = true /\
   (vm = vm \/ vm = refresh_vm sample_surroundings vm) /\
   let cap := effectiveMaxConcurrency sample_surroundings vm JNull (fallbackCap config) in
   num_ltb (Fin 0) cap = true /\
   (false = false -> forall acquired, acquired <> Some false ->
      exists c', Reservations.reserve Reservations.no_inflight (to_number (config?."fable_max_per_account")) "vm1" cap
        (normalizeModel (JStr "claude-opus-5")) acquired = Some c')) /\
  (false = false -> slotAllowsModel seeded vm JNull (JStr "claude-opus-5") = None) /\
  (false = true <-> exists r : string, None = Some r) /\ (false = false -> @None num = None) /\ (forall t : num, None = Some t -> num_ltb (Fin 1700000000000) t = true).
Proof.
  intros config vm. apply (eligible_sound seeded config sample_surroundings Reservations.no_inflight vm "vm1" (JStr "claude-opus-5") JNull
    (Fin 1700000000000) false vm JNull healthy_worker false None None []). vm_compute. reflexivity.
Defined.

(** An account whose five-hour window is exhausted takes no requests. *)
Definition exhausted_quota : quota_ops :=
  {| q_account := JObj [("account_id", JStr "vm1"); ("unified", JObj [("headers", JObj [("5h", JObj [("status", JStr "rejected"); ("utilization", jint 1);
                                                                    ("reset", jint 1700003600)])])])];
     q_policyFor := fun _ => JNull; q_limitFor := fun _ _ => jint 4; q_sessions := None; q_fableLimited := false; q_fableResetAt := JNull;
     q_weeklySplit := None; q_splitResetAt := fun _ => JNull; q_canAccept := QuotaOk |}.
Example exhausted_refused :
  (checkEligibility seeded (normalizePoolConfig JNull)
    {| accountQuota := Some exhausted_quota; workerProxyEndpoint := JUndef; egressMode := JStr ""; desynced := false; live_vm := JNull; hasRoot := false;
       lastUsed := JUndef; state_before := JNull; state_after := JNull; workerStatus_of := healthy_worker; clock_now := num_of_Z 1700000000000 |}
    Reservations.no_inflight (s_vm sample_slot) "vm1" (JStr "claude-opus-5") JNull (Fin 1700000000000) false).1 = Refused (JStr "quota_5h_header").
Proof. vm_compute. reflexivity. Qed.
