(* ===== verification/Selection.v ===== *)
(** * Selecting and reserving ([selectAndReserve] of src/src/lib/pool/pool-scheduler.mjs)

    A call is a sequence of rounds: rank the candidates, try to reserve them one after the
    other, and when nobody could be reserved fail, throw or wait for capacity.  What a round
    meets - its candidates, the sticky binding, the account quota's answers, the queues, the
    clock, how its wait ends, and what other requests did to the counters and the turns since
    the round before - is the record [round].  The caller may abort, and a read may throw. *)

From S2P Require Import Prelude.
From S2P Require Import JsValue.
From S2P Require Import JsText.
From S2P Require Import Eligibility.
From S2P Require Import ErrorPolicy.
From S2P Require Import Scheduler.
From S2P Require Import Ranking.
From S2P Require Import Waiting.
#[local] Open Scope string_scope.
#[local] Open Scope list_scope.
#[local] Open Scope js_scope.

Definition isUnboundAuthCooldown (c : candidate) (bound : option binding) (stickyCleared : bool) : bool :=
  match bound with
  | Some b =>
    stickyCleared && bound_to b c && match waitReason c with Some r => String.eqb r "account_cooldown" | None => false end &&
    Gate.isAuthCooldownReason (JStr (cooldownReason c))
  | None => false
  end.

(** [Number(candidate.availableAt) || 0] of the candidates, those to come. *)
Definition wake_times (now : num) (cs : list candidate) : list num :=
  List.filter (num_ltb now) (map (fun c => match availableAt c with Some t => if truthy (JNum t) then t else Fin 0 | None => Fin 0 end) cs).

Record snapshot := {
  sn_reason : string; sn_wait_ms : num; soonest_available_ms : option num; wait_reasons : list string; eligible_count : nat; available_count : nat;
  sn_sticky_cleared : bool;
}.
Definition selectionSnapshot (candidates available waitPool : list candidate) (reason : string) (waitMs : num) (stickyCleared : bool) (now : num) : snapshot :=
  {| sn_reason := reason; sn_wait_ms := waitMs;
     soonest_available_ms := match wake_times now waitPool with [] => None | l => Some (num_sub (num_min_list l) now) end;
     wait_reasons := uniq (omap (fun c => waitReason c) waitPool);
     eligible_count := length candidates; available_count := length available; sn_sticky_cleared := stickyCleared |}.

(** How [waitForCapacity] ends. *)
Inductive wait_end := Woken | TimedOut | WaitQueueFull | Aborted.

Record round := {
  r_candidates : list candidate; r_bound : option binding; r_acquired : string -> option bool; r_waiters : string -> Z; r_now : num; r_wait : wait_end;
  (** Other requests reserve and release, and take turns, while this one waits and reads. *)
  r_others : Reservations.counters -> Reservations.counters; r_turns : rotation -> rotation;
  (** The caller aborted, or a read threw, before there were candidates. *)
  r_failed : option string;
}.

Inductive selection :=
| Reserved (c : candidate) (reason : string) (plan : waitPlan) (slotWaitMs : num)
| NoAccount (s : snapshot)
| QueueFullError
| Failed (error : string)
| StillWaiting (* no more rounds were given *).

Section select.
Context (localeCompare : string -> string -> num) (config : jsval) (mdl : string) (allowWait : bool).
(** [stickyKey] is set; the reservations excluded before; the start; the deadlines. *)
Context (hasKey : bool) (blocked : list string) (startedAt : num) (deadline : num).

Definition strategy : string := to_string (config?."strategy" ||| JStr "weighted-round-robin").
Definition fableCap : num := to_number (config?."fable_max_per_account").
Definition failoverDeadline : option num := if truthy (JNum deadline) then Some deadline else None.
Definition loopDeadline : num := match failoverDeadline with Some d => d | None => num_add startedAt (waitBase config hasKey) end.

Definition try_reserve (counts : Reservations.counters) (r : round) (c : candidate) : option Reservations.counters :=
  Reservations.reserve counts fableCap (accountId c) (maxConcurrency c) (model c) (r_acquired r (accountId c)).

(** The loop over the idle candidates, from the first choice.  A turn tries an account not
    tried before, so the number of candidates is enough fuel.  A choice without an account
    does not occur ([pick_spec]); it ends the loop. *)
Fixpoint reserve_loop (fuel : nat) (counts : Reservations.counters) (rot : rotation) (r : round) (available : list candidate)
    (selected : option (option candidate * string)) (attempted : list string)
    : option (candidate * string * Reservations.counters) * list candidate * list string * rotation :=
  match fuel, selected with
  | S fuel, Some (Some c, reason) =>
    match try_reserve counts r c with
    | Some counts' => (Some (c, reason, counts'), [], attempted, rot)
    | None =>
      let miss := {| vmId := vmId c; accountId := accountId c; model := model c; priority := priority c; weight := weight c; c_inflight := c_inflight c;
                     maxConcurrency := maxConcurrency c; loadRatio := loadRatio c; lastUsedAt := lastUsedAt c; busy := true;
                     availableAt := availableAt c; waitReason := Some "concurrency_limit"; cooldownReason := cooldownReason c |} in
      let attempted := accountId c :: attempted in
      let remaining := List.filter (fun d => negb (mem (accountId d) attempted) && negb (mem (accountId d) blocked) && negb (mem (vmId d) blocked)) available in
      match remaining with
      | [] => (None, [miss], attempted, rot)
      | _ =>
        let p := pick localeCompare strategy rot (fun acc => room config (r_waiters r) acc) None mdl remaining (r_candidates r) in
        let '(got, misses, attempted, rot) := reserve_loop fuel counts (rotated p) r available (choice p) attempted in
        (got, miss :: misses, attempted, rot)
      end
    end
  | _, _ => (None, [], attempted, rot)
  end.

(** What to do when nobody could be reserved. *)
Inductive decision := Give (s : snapshot) | Throw | Wait (plan : waitPlan) (slice cap : num).

Definition decide_wait (r : round) (boundBefore : option binding) (cleared : bool) (waitCandidates waitAvailable : list candidate) : decision :=
  let now := r_now r in
  let waitPool := List.filter (fun c => negb (isUnboundAuthCooldown c boundBefore cleared)) waitCandidates in
  let fail reason pool := Give (selectionSnapshot waitCandidates waitAvailable pool reason (num_sub now startedAt) cleared now) in
  match waitCandidates with
  | [] => fail (if isFableModel (JStr mdl) then "fable_requires_max" else "no_eligible_accounts") waitCandidates
  | _ =>
    if negb allowWait || num_leb loopDeadline now then fail "all_accounts_busy" waitPool
    else
      let wakeAts := wake_times now waitPool in
      let concurrencyWait := existsb shouldWait waitPool in
      let plan := resolveWaitPlan localeCompare config (r_waiters r) waitPool (if hasKey then r_bound r else None) cleared (Some loopDeadline) now in
      let waitDeadline := match plan with Plan p => if truthy (JNum (p_deadline p)) then p_deadline p else loopDeadline | _ => loopDeadline end in
      if negb (match wakeAts with [] => true | _ => false end) && num_leb waitDeadline (num_min_list wakeAts) && negb concurrencyWait
      then fail "all_accounts_busy" waitPool
      else match plan with
           | NoPlan => fail "all_accounts_busy" waitPool
           | QueueFull => Throw
           | Plan p =>
             if num_leb (timeoutMs p) (Fin 0) then fail "all_accounts_busy" waitPool
             else
               let waitCap := num_min waitDeadline loopDeadline in
               Wait p (match wakeAts with [] => waitCap | _ => num_min_list (waitCap :: wakeAts) end) waitCap
           end
  end.

Record after_round := { a_counts : Reservations.counters; a_rot : rotation; a_cleared : bool; a_result : option selection }.

Definition reserved (r : round) (counts : Reservations.counters) (rot : rotation) (cleared : bool) (c : candidate) (reason : string) : after_round :=
  let sticky := String.eqb reason "sticky" in
  {| a_counts := counts; a_rot := rot; a_cleared := cleared;
     a_result := Some (Reserved c reason (makeWaitPlan config (Some c) sticky (Some loopDeadline) (r_now r))
                         (remainingSlotWaitMs config startedAt (Some loopDeadline) sticky (r_now r))) |}.

(** One turn of the loop: [a_result] is [None] when another one follows. *)
Definition select_round (r : round) (boundBefore : option binding) (counts : Reservations.counters) (rot : rotation) (cleared : bool) : after_round :=
  let candidates := r_candidates r in
  let available := List.filter isReservable candidates in
  let p := pick localeCompare strategy rot (fun acc => room config (r_waiters r) acc) (if hasKey then r_bound r else None) mdl available candidates in
  let cleared := cleared || stickyCleared p in
  let '(got, misses, attempted, rot) := reserve_loop (S (length candidates)) counts (rotated p) r available (choice p) [] in
  match got with
  | Some (c, reason, counts') => reserved r counts' rot cleared c reason
  | None =>
    let missed d := default d (find (fun m => String.eqb (accountId m) (accountId d)) misses) in
    let waitCandidates := map missed candidates in
    let waitAvailable := List.filter (fun d => negb (mem (accountId d) attempted)) available in
    let result := match decide_wait r boundBefore cleared waitCandidates waitAvailable with
                  | Give s => Some (NoAccount s)
                  | Throw => Some QueueFullError
                  | Wait p slice cap =>
                    match r_wait r with
                    | Woken => None
                    | WaitQueueFull => if p_sticky p then None else Some QueueFullError
                    | Aborted => Some (Failed "selection_cancelled")
                    | TimedOut =>
                      if num_leb cap slice
                      then Some (NoAccount (selectionSnapshot waitCandidates waitAvailable
                             (List.filter (fun c => negb (isUnboundAuthCooldown c boundBefore cleared)) waitCandidates)
                             "all_accounts_busy" (num_sub (r_now r) startedAt) cleared (r_now r)))
                      else None
                    end
                  end in
    {| a_counts := counts; a_rot := rot; a_cleared := cleared; a_result := result |}
  end.

Fixpoint select_rounds (rounds : list round) (boundBefore : option binding) (counts : Reservations.counters) (rot : rotation) (cleared : bool)
    : selection * Reservations.counters * rotation :=
  match rounds with
  | [] => (StillWaiting, counts, rot)
  | r :: rounds' =>
    let counts := r_others r counts in
    let rot := r_turns r rot in
    match r_failed r with
    | Some e => (Failed e, counts, rot)
    | None =>
      let a := select_round r boundBefore counts rot cleared in
      match a_result a with
      | Some s => (s, a_counts a, a_rot a)
      | None => select_rounds rounds' boundBefore (a_counts a) (a_rot a) (a_cleared a)
      end
    end
  end.

(** [selectAndReserve]: the binding is read once before the loop. *)
Definition selectAndReserve (boundBefore : option binding) (rounds : list round) (counts : Reservations.counters) (rot : rotation)
    : selection * Reservations.counters * rotation :=
  select_rounds rounds (if hasKey then boundBefore else None) counts rot false.
End select.

(** [peekAccount]: the account a request would meet now; nothing is bound or reserved. *)
Definition peekAccount (localeCompare : string -> string -> num) (mdl : string) (candidates : list candidate) (bound : option binding)
    : string + candidate * string :=
  match candidates with
  | [] => inl (if isFableModel (JStr mdl) then "fable_requires_max" else "no_eligible_accounts")
  | _ =>
    match bound ≫= fun b => find (bound_to b) candidates with
    | Some c => inr (c, "sticky")
    | None =>
      let idle := List.filter (fun c => negb (busy c)) candidates in
      match peekRank localeCompare (match idle with [] => candidates | _ => idle end) with
      | Some (Some c, reason) => inr (c, reason)
      | _ => inl "no_eligible_accounts"
      end
    end
  end.

(** ** A selection reserves one idle candidate, or nothing *)

Section selected.
Context (localeCompare : string -> string -> num) (config : jsval) (mdl : string) (allowWait : bool).
Context (hasKey : bool) (blocked : list string) (startedAt : num) (deadline : num).
Abbreviation reserve_loop := (reserve_loop localeCompare config mdl blocked).
Abbreviation try_reserve := (try_reserve config).
Abbreviation select_round := (select_round localeCompare config mdl allowWait hasKey blocked startedAt deadline).
Abbreviation pick := (pick localeCompare (strategy config)).

(** The candidates left to try. *)
Definition left_to_try (available : list candidate) (attempted : list string) : list candidate :=
  List.filter (fun d => negb (mem (accountId d) attempted) && negb (mem (accountId d) blocked) && negb (mem (vmId d) blocked)) available.

Lemma mem_cons x a l : mem x (a :: l) = String.eqb x a || mem x l.
Proof. done. Qed.

Lemma left_shrinks available attempted c :
  c ∈ left_to_try available attempted -> (length (left_to_try available (accountId c :: attempted)) < length (left_to_try available attempted))%nat.
Proof.
  unfold left_to_try. assert (Hle : forall l, (length (List.filter (fun d => negb (mem (accountId d) (accountId c :: attempted)) && negb (mem (accountId d) blocked) && negb (mem (vmId d) blocked)) l)
      <= length (List.filter (fun d => negb (mem (accountId d) attempted) && negb (mem (accountId d) blocked) && negb (mem (vmId d) blocked)) l))%nat).
  { induction l as [|d l IH]; cbn [List.filter]; [lia|]. rewrite mem_cons.
    destruct (String.eqb (accountId d) (accountId c)), (mem (accountId d) attempted), (mem (accountId d) blocked), (mem (vmId d) blocked); cbn [negb andb orb length]; lia. }
  induction available as [|d l IH]; intros Hc; [by apply elem_of_nil in Hc|]. cbn [List.filter] in *. specialize (Hle l).
  rewrite mem_cons.
  destruct (String.eqb (accountId d) (accountId c)) eqn:E, (mem (accountId d) attempted), (mem (accountId d) blocked), (mem (vmId d) blocked);
    cbn [negb andb orb length] in *; try (by apply IH); [lia|].
  apply elem_of_cons in Hc as [->|Hc]; [by rewrite String.eqb_refl in E|]. specialize (IH Hc). lia.
Qed.

Lemma pick_plain rot queueRoom l eligible :
  l <> [] -> Forall rated l -> exists c reason, choice (pick rot queueRoom None mdl l eligible) = Some (Some c, reason) /\ c ∈ l.
Proof.
  intros Hne Hr. destruct (pick_not_sticky localeCompare (strategy config) rot queueRoom None mdl l eligible eq_refl) as [cl ->].
  destruct (pick_ranked_spec localeCompare (strategy config) rot mdl l cl Hr) as [_ H].
  destruct (choice _) as [[[c|] reason]|]; [|done|done]. exists c, reason. split; [done|]. apply H.
Qed.

(** The loop reserves a candidate it was given, or has tried every account it could. *)
Lemma reserve_loop_spec fuel counts rot r available c reason attempted :
  Forall rated available -> c ∈ available -> (length (left_to_try available (accountId c :: attempted)) < fuel)%nat ->
  let '(got, _, _, _) := reserve_loop fuel counts rot r available (Some (Some c, reason)) attempted in
  match got with
  | Some (d, _, counts') => d ∈ available /\ try_reserve counts r d = Some counts'
  | None => try_reserve counts r c = None /\
            forall d, d ∈ left_to_try available attempted -> exists e, e ∈ available /\ accountId e = accountId d /\ try_reserve counts r e = None
  end.
Proof.
  intros Hr. revert c reason rot attempted. induction fuel as [|fuel IH]; intros c reason rot attempted Hc Hlen; [lia|].
  cbn [Selection.reserve_loop]. destruct (try_reserve counts r c) as [counts'|] eqn:Et; [by split|].
  fold (left_to_try available (accountId c :: attempted)).
  assert (Hc0 : forall d, d ∈ left_to_try available attempted -> d ∈ left_to_try available (accountId c :: attempted) \/ accountId c = accountId d).
  { intros d Hd. apply elem_filter in Hd as [Hd Hp]. destruct (String.eqb_spec (accountId d) (accountId c)) as [E|E]; [by right|left].
    apply elem_filter. split; [done|]. rewrite mem_cons. by rewrite (proj2 (String.eqb_neq _ _) E). }
  destruct (left_to_try available (accountId c :: attempted)) as [|d0 rest] eqn:El.
  - split; [done|]. intros d Hd. destruct (Hc0 d Hd) as [H|H]; [by apply elem_of_nil in H|]. by exists c.
  - assert (Hrl : Forall rated (d0 :: rest)).
    { rewrite <- El. apply Forall_forall. intros x Hx. apply elem_filter in Hx as [Hx _]. by eapply Forall_forall in Hr. }
    destruct (pick_plain rot (fun acc => room config (r_waiters r) acc) (d0 :: rest) (r_candidates r) ltac:(done) Hrl) as (c2 & reason2 & Hp & Hin).
    cbv zeta. rewrite Hp. assert (Hin2 : c2 ∈ available) by (rewrite <- El in Hin; by apply elem_filter in Hin as [Hin _]).
    specialize (IH c2 reason2 (rotated (pick rot (fun acc => room config (r_waiters r) acc) None mdl (d0 :: rest) (r_candidates r))) (accountId c :: attempted) Hin2).
    assert (length (left_to_try available (accountId c2 :: accountId c :: attempted)) < fuel)%nat as Hlen2.
    { rewrite <- El in Hin. apply left_shrinks in Hin. rewrite El in Hin. lia. }
    specialize (IH Hlen2). destruct (reserve_loop fuel counts _ r available _ (accountId c :: attempted)) as [[[got ms] at_] rot'].
    destruct got as [[[d rs] counts']|]; [done|]. destruct IH as [_ IH]. split; [done|].
    intros d Hd. destruct (Hc0 d Hd) as [H|H]; [apply IH; by rewrite El|]. by exists c.
Qed.

(** One round, from either kind of first choice. *)
Lemma select_round_spec r boundBefore counts rot cleared :
  Forall rated (r_candidates r) ->
  let a := select_round r boundBefore counts rot cleared in
  match a_result a with
  | Some (Reserved c _ _ _) => c ∈ r_candidates r /\ isReservable c = true /\ try_reserve counts r c = Some (a_counts a)
  | _ => a_counts a = counts /\
         (sticky_holds (room config (r_waiters r)) (if hasKey then r_bound r else None) (r_candidates r) = false ->
          forall d, d ∈ left_to_try (r_candidates r) [] -> isReservable d = true ->
          exists e, e ∈ r_candidates r /\ accountId e = accountId d /\ try_reserve counts r e = None)
  end.
Proof.
  intros Hr. cbv zeta. unfold Selection.select_round. set (available := List.filter isReservable (r_candidates r)).
  set (bound := if hasKey then r_bound r else None). set (p := pick rot _ bound mdl available (r_candidates r)).
  assert (Hra : Forall rated available) by (apply Forall_forall; intros x Hx; apply elem_filter in Hx as [Hx _]; by eapply Forall_forall in Hr).
  assert (Hav : forall c, c ∈ available <-> c ∈ r_candidates r /\ isReservable c = true) by (intros c; apply elem_filter).
  assert (Hfirst : match choice p with
                   | Some (Some c, _) => c ∈ available
                   | Some (None, _) => False
                   | None => sticky_holds (room config (r_waiters r)) bound (r_candidates r) = false -> available = []
                   end).
  { unfold p. destruct (sticky_holds (room config (r_waiters r)) bound (r_candidates r)) eqn:Es.
    - unfold sticky_holds in Es. destruct bound as [b|]; [|done]. destruct (find (bound_to b) (r_candidates r)) as [d|] eqn:Ef; [|done].
      unfold Ranking.pick. apply find_elem in Ef as Hd. destruct Hd as [Hd _].
      destruct (r_candidates r) as [|c0 cs] eqn:Er; [by apply elem_of_nil in Hd|]. rewrite Ef.
      replace (match available with [] => _ | _ => _ end) with
        (if isReservable d then {| choice := Some (Some d, "sticky"); rotated := rot; stickyCleared := false |}
         else if shouldWait d then
           if room config (r_waiters r) (accountId d) then {| choice := None; rotated := rot; stickyCleared := false |}
           else Ranking.pick_ranked localeCompare (strategy config) rot mdl available false
         else Ranking.pick_ranked localeCompare (strategy config) rot mdl available true) by (by destruct available).
      destruct (isReservable d) eqn:Ed; [cbn; by apply Hav|]. destruct (shouldWait d); [|done]. cbn [orb andb] in Es. rewrite Es. done.
    - destruct (pick_not_sticky localeCompare (strategy config) rot (room config (r_waiters r)) bound mdl available (r_candidates r) Es) as [cl E].
      change (fun acc => room config (r_waiters r) acc) with (room config (r_waiters r)). rewrite E.
      destruct (pick_ranked_spec localeCompare (strategy config) rot mdl available cl Hra) as [_ H].
      destruct (choice _) as [[[c|] reason]|]; [apply H|done|done]. }
  destruct (choice p) as [[[c|] reason]|] eqn:Ep; [|done|].
  - assert (Hfuel : (length (left_to_try available (accountId c :: [])) < S (length (r_candidates r)))%nat).
    { unfold left_to_try, available. pose proof (filter_length_le (fun d => negb (mem (accountId d) [accountId c]) && negb (mem (accountId d) blocked) && negb (mem (vmId d) blocked)) (List.filter isReservable (r_candidates r))).
      pose proof (filter_length_le isReservable (r_candidates r)). lia. }
    pose proof (reserve_loop_spec (S (length (r_candidates r))) counts (rotated p) r available c reason [] Hra Hfirst Hfuel) as Hl.
    destruct (reserve_loop _ counts (rotated p) r available (Some (Some c, reason)) []) as [[[got ms] at_] rot'].
    destruct got as [[[d rs] counts']|]; cbn [a_result a_counts reserved].
    + destruct Hl as [Hd Ht]. apply Hav in Hd as [Hd1 Hd2]. done.
    + destruct Hl as [_ Hl]. match goal with |- context [decide_wait ?a ?b ?c ?d ?e ?f ?g ?h ?i ?j ?k ?l] => generalize (decide_wait a b c d e f g h i j k l) end.
      intros dec. assert (Hconc : forall d, d ∈ left_to_try (r_candidates r) [] -> isReservable d = true ->
          exists e, e ∈ r_candidates r /\ accountId e = accountId d /\ try_reserve counts r e = None).
      { intros d Hd Hres. destruct (Hl d) as (e & He & ? & ?).
        - apply elem_filter in Hd as [Hd Hp]. apply elem_filter. split; [by apply Hav|done].
        - exists e. apply Hav in He as [He _]. done. }
      destruct dec as [s| |pl sl cap]; [done|done|]. destruct (r_wait r); [done| |by destruct (p_sticky pl)|done]. by destruct (num_leb cap sl).
  - cbn [Selection.reserve_loop]. match goal with |- context [decide_wait ?a ?b ?c ?d ?e ?f ?g ?h ?i ?j ?k ?l] => generalize (decide_wait a b c d e f g h i j k l) end.
    intros dec. assert (Hconc : sticky_holds (room config (r_waiters r)) bound (r_candidates r) = false ->
        forall d, d ∈ left_to_try (r_candidates r) [] -> isReservable d = true ->
        exists e, e ∈ r_candidates r /\ accountId e = accountId d /\ try_reserve counts r e = None).
    { intros Hs d Hd Hres. specialize (Hfirst Hs). apply elem_filter in Hd as [Hd _]. assert (d ∈ available) as H by (by apply Hav). rewrite Hfirst in H. by apply elem_of_nil in H. }
    cbn [a_result a_counts]. destruct dec as [s| |pl sl cap]; [done|done|]. destruct (r_wait r); [done| |by destruct (p_sticky pl)|done]. by destruct (num_leb cap sl).
Qed.
End selected.

(** The counters as the others leave them over some rounds. *)
Definition left_by_others (rounds : list round) (counts : Reservations.counters) : Reservations.counters :=
  fold_left (fun counts r => r_others r counts) rounds counts.

(** C7: Selecting an account.  Over any rounds of well-rated candidates, whatever other requests do to the counters
    between the rounds and wherever the call is aborted, a reserved selection
    names an idle candidate of some round whose reservation the counters and the account
    quota granted, and it is the only change to the counters besides those of the others; any other outcome leaves them
    as the others left them.  And no idle account is passed over: in a round that reserves nobody,
    unless the bound account is waited for, every idle candidate's account was refused. *)
Theorem selection_sound localeCompare config mdl allowWait hasKey blocked startedAt deadline boundBefore rounds counts rot :
  Forall (fun r => Forall rated (r_candidates r)) rounds ->
  (let '(result, counts', _) :=
     selectAndReserve localeCompare config mdl allowWait hasKey blocked startedAt deadline boundBefore rounds counts rot in
   match result with
   | Reserved c _ _ _ => exists before r after, rounds = before ++ r :: after /\ c ∈ r_candidates r /\ isReservable c = true /\
       try_reserve config (left_by_others (before ++ [r]) counts) r c = Some counts'
   | _ => exists before after, rounds = before ++ after /\ counts' = left_by_others before counts
   end) /\
  forall r bound counts rot' cleared, r ∈ rounds ->
    let a := select_round localeCompare config mdl allowWait hasKey blocked startedAt deadline r bound counts rot' cleared in
    (forall c reason plan ms, a_result a <> Some (Reserved c reason plan ms)) ->
    sticky_holds (room config (r_waiters r)) (if hasKey then r_bound r else None) (r_candidates r) = false ->
    forall d, d ∈ r_candidates r -> isReservable d = true -> (accountId d ∉ blocked) -> (vmId d ∉ blocked) ->
    exists e, e ∈ r_candidates r /\ accountId e = accountId d /\ try_reserve config counts r e = None.
Proof.
  intros Hr. split.
  - unfold selectAndReserve. generalize (if hasKey then boundBefore else None). generalize false. revert rot counts.
    induction Hr as [|r rounds Hrr Hr IH]; intros rot counts cleared bound; [by exists [], []|]. cbn [select_rounds].
    destruct (r_failed r) as [e|]; [by exists [r], rounds|].
    pose proof (select_round_spec localeCompare config mdl allowWait hasKey blocked startedAt deadline r bound (r_others r counts) (r_turns r rot) cleared Hrr) as H.
    cbv zeta in H. destruct (a_result _) as [s|].
    + destruct s as [c reason plan ms| | | |]; [by exists [], r, rounds|..]; exists [r], rounds; (split; [done|apply H]).
    + destruct H as [Hc _]. rewrite Hc.
      match goal with |- context [select_rounds _ _ _ _ _ _ _ _ rounds ?b ?cs ?ro ?cl] => specialize (IH ro cs cl b) end.
      destruct (select_rounds _ _ _ _ _ _ _ _ rounds _ _ _ _) as [[result counts'] rot'].
      destruct result as [c reason plan ms| | | |].
      * destruct IH as (before & r' & after & -> & H'). by exists (r :: before), r', after.
      * destruct IH as (before & after & -> & H'). by exists (r :: before), after.
      * destruct IH as (before & after & -> & H'). by exists (r :: before), after.
      * destruct IH as (before & after & -> & H'). by exists (r :: before), after.
      * destruct IH as (before & after & -> & H'). by exists (r :: before), after.
  - clear counts rot. intros r bound counts rot' cleared Hin. cbv zeta. intros Hno Hs d Hd Hres Hb1 Hb2.
    eapply Forall_forall in Hr; [|exact Hin].
    pose proof (select_round_spec localeCompare config mdl allowWait hasKey blocked startedAt deadline r bound counts rot' cleared Hr) as H. cbv zeta in H.
    assert (d ∈ left_to_try blocked (r_candidates r) []) as Hl.
    { apply elem_filter. split; [done|]. rewrite <- mem_spec in Hb1, Hb2. apply not_true_iff_false in Hb1, Hb2. by rewrite Hb1, Hb2. }
    destruct (a_result _) as [s|]; [destruct s as [c reason plan ms| | | |]; [by destruct (Hno c reason plan ms)|..]|]; by apply (proj2 H Hs).
Qed.

Definition sample_round (acquired : string -> option bool) : round :=
  {| r_candidates := [sample "a" 2 1 0; sample "b" 2 1 0; sample "c" 1 1 0]; r_bound := None; r_acquired := acquired; r_waiters := fun _ => 0%Z;
     r_now := num_of_Z 1000; r_wait := TimedOut; r_others := fun counts => counts; r_turns := fun rot => rot; r_failed := None |}.
Definition sample_selection (acquired : string -> option bool) :=
  selectAndReserve byte_compare (normalizePoolConfig JNull) "claude-sonnet-4" true false [] (num_of_Z 1000) (Fin 0) None [sample_round acquired]
    Reservations.no_inflight {| cursors := ∅; smooth := ∅ |}.

(** The quota refuses the two preferred accounts: the third is reserved. *)
Example falls_through :
  match sample_selection (fun acc => Some (String.eqb acc "c")) with
  | (Reserved c _ _ _, counts, _) => accountId c = "c" /\ Reservations.inflight_of counts "c" = 1%Z
  | _ => False
  end.
Proof. vm_compute. by split. Qed.
Example all_refused :
  match sample_selection (fun _ => Some false) with
  | (NoAccount s, counts, _) => sn_reason s = "all_accounts_busy" /\ available_count s = 0%nat
  | _ => False
  end.
Proof. vm_compute. by split. Qed.

Lemma selection_sound_witness :
  (let '(result, counts', _) := sample_selection (fun acc => Some (String.eqb acc "c")) in
   match result with
   | Reserved c _ _ _ => exists before r after, [sample_round (fun acc => Some (String.eqb acc "c"))] = before ++ r :: after /\ c ∈ r_candidates r /\
       isReservable c = true /\ try_reserve (normalizePoolConfig JNull) (left_by_others (before ++ [r]) Reservations.no_inflight) r c = Some counts'
   | _ => exists before after, [sample_round (fun acc => Some (String.eqb acc "c"))] = before ++ after /\
       counts' = left_by_others before Reservations.no_inflight
   end).
Proof.
  apply (selection_sound byte_compare (normalizePoolConfig JNull) "claude-sonnet-4" true false [] (num_of_Z 1000) (Fin 0) None
    [sample_round (fun acc => Some (String.eqb acc "c"))] Reservations.no_inflight {| cursors := ∅; smooth := ∅ |}).
  repeat constructor.
Defined.

(** While a request waits, another one takes a place on the only account: the request that is woken finds none, and the
    place of the other is still counted after it was aborted. *)
Example taken_while_waiting :
  let full acc := Some false in
  let taken counts := default counts (Reservations.reserve counts (Fin 0) "c" (Fin 1) "m" (Some true)) in
  let r := sample_round full in
  let again := {| r_candidates := r_candidates r; r_bound := None; r_acquired := full; r_waiters := r_waiters r; r_now := num_of_Z 2000; r_wait := TimedOut;
                  r_others := taken; r_turns := fun rot => rot; r_failed := Some "selection_cancelled" |} in
  let first := {| r_candidates := r_candidates r; r_bound := None; r_acquired := full; r_waiters := r_waiters r; r_now := num_of_Z 1000; r_wait := Woken;
                  r_others := fun counts => counts; r_turns := fun rot => rot; r_failed := None |} in
  let '(result, counts, _) := selectAndReserve byte_compare (normalizePoolConfig JNull) "claude-sonnet-4" true false [] (num_of_Z 1000) (Fin 0) None [first; again]
    Reservations.no_inflight {| cursors := ∅; smooth := ∅ |} in
  (result, Reservations.inflight_of counts "c") = (Failed "selection_cancelled", 1%Z).
Proof. vm_compute. reflexivity. Qed.
