(* ===== verification/JsJson.v ===== *)
(** * JSON.stringify

    The text of a value.  Property order is insertion order (no key of the program's objects
    is an integer index), strings are bytes: a character outside ASCII is copied. *)

From S2P Require Import Prelude.
From S2P Require Import JsValue.
From S2P Require Import JsText.
#[local] Open Scope string_scope.
#[local] Open Scope list_scope.

Definition dquote : string := String (ascii_of_nat 34) "".
Definition backslash : string := String (ascii_of_nat 92) "".

Definition hex_char (n : nat) : string := String (ascii_of_nat (if (n <? 10)%nat then 48 + n else 87 + n)) "".

(** One character inside a quoted string. *)
Definition escape_char (c : ascii) : string :=
  match nat_of_ascii c with
  | 34 => backslash ++ dquote
  | 92 => backslash ++ backslash
  | 8 => backslash ++ "b"
  | 9 => backslash ++ "t"
  | 10 => backslash ++ "n"
  | 12 => backslash ++ "f"
  | 13 => backslash ++ "r"
  | n => if (n <? 32)%nat then backslash ++ "u00" ++ hex_char (n / 16) ++ hex_char (n mod 16) else String c ""
  end%nat%string.

Fixpoint escape (s : string) : string :=
  match s with EmptyString => "" | String c r => (escape_char c ++ escape r)%string end.

Definition quote (s : string) : string := (dquote ++ escape s ++ dquote)%string.

(** [JSON.stringify(v)], none for [undefined]. *)
Fixpoint stringify (v : jsval) : option string :=
  match v with
  | JUndef => None
  | JNull => Some "null"
  | JBool b => Some (if b then "true" else "false")
  | JNum n => Some (if is_finite n then num_to_string n else "null")
  | JStr s => Some (quote s)
  | JArr l => Some ("[" ++ join "," (map (fun x => default "null" (stringify x)) l) ++ "]")%string
  | JObj f =>
    Some ("{" ++ join "," (omap (fun p => t ← stringify p.2; Some (quote p.1 ++ ":" ++ t)%string) f) ++ "}")%string
  end.

(** [JSON.parse(JSON.stringify(v))] for a value other than [undefined]. *)
Fixpoint json_copy (v : jsval) : jsval :=
  match v with
  | JUndef => JNull
  | JNum n => if is_finite n then JNum n else JNull
  | JArr l => JArr (map json_copy l)
  | JObj f =>
    JObj (omap (fun p => if match p.2 with JUndef => true | _ => false end then None else Some (p.1, json_copy p.2)) f)
  | _ => v
  end.

Example stringify_ex :
  stringify (JObj [("a", JArr [jint 1; JUndef; JStr "x"]); ("b", JUndef); ("c", JNull)])
  = Some ("{" ++ quote "a" ++ ":[1,null," ++ quote "x" ++ "]," ++ quote "c" ++ ":null}")%string.
Proof. vm_compute. reflexivity. Qed.
