(* ===== verification/WebSearch.v ===== *)
(** * Server-side web search (src/src/lib/protocol/web-search.mjs)

    When the gateway arms Anthropic's web_search tool, and how it cleans the tool list of
    a request. *)

From S2P Require Import Prelude.
From S2P Require Import JsValue.
From S2P Require Import JsRegex.
From S2P Require Import JsText.
#[local] Open Scope string_scope.
#[local] Open Scope list_scope.
#[local] Open Scope js_scope.

Definition CLAUDE_WEB_SEARCH_TOOL : jsval :=
  JObj [("type", JStr "web_search_20250305"); ("name", JStr "web_search")].

Definition WEB_SEARCH_HEADER : string := "x-kin-web-search".

Definition WEB_SEARCH_NAMES : list string := ["web_search"; "web_search_20250305"; "websearch"; "google_search"].

Definition searchToolName (tool : jsval) : string :=
  replace_char "-" "_" (to_lower (trim (to_string (tool?."name" ||| tool?."function"?."name" ||| JStr "")))).

Definition isWebSearchTool (tool : jsval) : bool :=
  is_object tool &&
  (let type := to_lower (str_or_empty (tool?."type")) in
   let name := searchToolName tool in
   starts_with "web_search" type || String.eqb type "google_search" || mem name WEB_SEARCH_NAMES).

Definition isCallerClientSearchTool (tool : jsval) : bool :=
  let name := searchToolName tool in String.eqb name "search_web" || String.eqb name "scrape_web".

Definition isAnthropicServerTool (tool : jsval) : bool :=
  let type := str_or_empty (tool?."type") in
  negb (String.eqb type "") && negb (String.eqb type "function") && negb (String.eqb type "custom").

Definition hasClaudeWebSearch (tools : jsval) : bool := is_array tools && existsb isWebSearchTool (arr_of tools).
Definition hasCallerClientSearchTool (tools : jsval) : bool :=
  is_array tools && existsb isCallerClientSearchTool (arr_of tools).

(** [String(value ?? '').trim().toLowerCase()] *)
Definition flag_text (value : jsval) : string := to_lower (trim (to_string (value ?? JStr ""))).

Definition isFalseFlag (value : jsval) : bool :=
  is_bool value false || is_num value 0 || mem (flag_text value) ["false"; "0"; "off"; "no"].

Definition isTrueFlag (value : jsval) : bool :=
  is_bool value true || is_num value 1 || mem (flag_text value) ["true"; "1"; "on"; "yes"].

(** [headers?.[WEB_SEARCH_HEADER] ?? headers?.['X-Kin-Web-Search']] *)
Definition search_header (headers : jsval) : jsval := headers?.WEB_SEARCH_HEADER ?? headers?."X-Kin-Web-Search".

Definition isWebSearchDisabled (body headers : jsval) : bool :=
  isFalseFlag (search_header headers) || isFalseFlag (body?."web_search").

(** The text of one content part. *)
Definition part_text (part : jsval) : string :=
  match part, part?."text", part?."content" with
  | JStr s, _, _ => s
  | _, JStr s, _ => s
  | _, _, JStr s => s
  | _, _, _ => ""
  end.

Definition contentToText (content : jsval) : string :=
  match content with
  | JStr s => s
  | JArr l => join newline (List.filter nonempty (map part_text l))
  | _ => match content?."text" with JStr s => s | _ => "" end
  end.

Definition lastUserPromptText (body : jsval) : string :=
  let messages := arr_of (body?."messages") in
  match List.find (fun m => is_str (m?."role") "user") (rev messages) with
  | Some m => contentToText (m?."content")
  | None =>
    match body?."input" with
    | JStr s => s
    | JArr l => contentToText (JArr l)
    | _ => ""
    end
  end.

Definition MAX_BLOCK_DEPTH : nat := 4.

(** The recursion on [depth], counted down from [MAX_BLOCK_DEPTH + 1]. *)
Fixpoint encrypted_within (fuel : nat) (block : jsval) : bool :=
  match fuel with
  | O => false
  | S fuel =>
    is_object block &&
    (is_string (block?."encrypted_content") ||
     (is_array (block?."content") && existsb (encrypted_within fuel) (arr_of (block?."content"))))
  end.
Definition blockHasEncryptedContent : jsval -> bool := encrypted_within (S MAX_BLOCK_DEPTH).

Definition isWebSearchArtifactBlock (block : jsval) : bool :=
  is_object block &&
  (let type := str_or_empty (block?."type") in
   if String.eqb type "web_search_tool_result" || String.eqb type "web_search_result" then true
   else if String.eqb type "server_tool_use" then isWebSearchTool (JObj [("name", block?."name")])
   else blockHasEncryptedContent block).

Fixpoint artifact_within (fuel : nat) (content : jsval) : bool :=
  match fuel with
  | O => false
  | S fuel =>
    is_array content &&
    existsb (fun block => isWebSearchArtifactBlock block || artifact_within fuel (block?."content")) (arr_of content)
  end.
Definition contentHasWebSearchArtifact : jsval -> bool := artifact_within (S MAX_BLOCK_DEPTH).

Definition historyHasWebSearchArtifacts (body : jsval) : bool :=
  existsb (fun message => contentHasWebSearchArtifact (message?."content")) (arr_of (body?."messages")).

(** [\bR\b] for a pattern that begins and ends with a word character. *)
Definition is_word (c : ascii) : bool := is_digit c || is_upper c || is_lower c || Ascii.eqb c "_".
Definition non_word : rx := RChr (fun c => negb (is_word c)).
Definition whole_word (r : rx) (s : string) : bool :=
  rx_full (RSeq (ropt (RSeq anything non_word)) (RSeq r (ropt (RSeq non_word anything)))) (to_lower s).

Definition WEB_SEARCH_PHRASE : rx :=
  RSeq (lit "web") (RSeq (RStar (RChr (fun c => is_space c || Ascii.eqb c "-"))) (lit "search")).

Definition promptRequestsWebSearch (text : string) : bool :=
  if String.eqb text "" then false
  else if includes text "搜索" then true
  else if whole_word WEB_SEARCH_PHRASE text then true
  else whole_word (lit "search") text.

Definition shouldInjectClaudeWebSearch (officialClient clientClass headers body : jsval) : bool :=
  if truthy officialClient || is_str clientClass "claude_code_official" then false
  else if isWebSearchDisabled body headers then false
  else if isTrueFlag (search_header headers) || isTrueFlag (body?."web_search") then true
  else if historyHasWebSearchArtifacts body then true
  else promptRequestsWebSearch (lastUserPromptText body).

Definition toolChoiceNone (toolChoice : jsval) : bool :=
  is_str toolChoice "none" || (is_object toolChoice && is_str (toolChoice?."type") "none").

Definition ensureClaudeWebSearch (body : jsval) (enabled : bool) : jsval :=
  if negb enabled || negb (is_object body) then body
  else if toolChoiceNone (body?."tool_choice") then body
  else if hasClaudeWebSearch (body?."tools") || hasCallerClientSearchTool (body?."tools") then body
  else with_own body "tools" (JArr (arr_of (body?."tools") ++ [CLAUDE_WEB_SEARCH_TOOL])).

Definition dropWebSearchFlag (body : jsval) : jsval :=
  if negb (is_object body) || negb (has_own body "web_search") then body else without body "web_search".

Definition SERVER_TOOL_DROP : list string := ["input_schema"; "description"; "parameters"; "function"; "strict"].
Definition WEB_SEARCH_KEEP : list string :=
  ["type"; "name"; "allowed_domains"; "blocked_domains"; "user_location"; "max_uses"; "cache_control"; "defer_loading"].

Definition toAnthropicCustomTool (tool : jsval) : jsval :=
  if negb (is_object tool) then tool
  else if isWebSearchTool tool || isAnthropicServerTool tool then tool
  else
    let fn := if is_str (tool?."type") "function" && is_object (tool?."function") then tool?."function" else JNull in
    let name := trim (to_string (fn?."name" ||| tool?."name" ||| JStr "")) in
    if String.eqb name "" then tool
    else
      let description := to_string (fn?."description" ||| tool?."description" ||| JStr "") in
      let input_schema :=
        fn?."parameters" ||| tool?."input_schema" ||| tool?."parameters" |||
        JObj [("type", JStr "object"); ("properties", JObj [])] in
      JObj ([("name", JStr name); ("input_schema", input_schema)] ++
            (if nonempty description then [("description", JStr description)] else []) ++
            (if truthy (tool?."cache_control") then [("cache_control", tool?."cache_control")] else [])).

(** One turn of the loop over [WEB_SEARCH_KEEP]. *)
Definition keep_field (tool out : jsval) (key : string) : jsval :=
  if String.eqb key "type" || String.eqb key "name" then out
  else if is_nullish (tool?.key) then out else with_field out key (tool?.key).

Definition native_search_tool (tool : jsval) : jsval :=
  let type := str_or_empty (tool?."type") in
  let out := if starts_with "web_search_" type then with_field CLAUDE_WEB_SEARCH_TOOL "type" (JStr type)
             else CLAUDE_WEB_SEARCH_TOOL in
  foldl (keep_field tool) out WEB_SEARCH_KEEP.

Definition sanitize_tool (tool : jsval) : jsval :=
  if negb (is_object tool) then tool
  else if isWebSearchTool tool then native_search_tool tool
  else if negb (isAnthropicServerTool tool) then toAnthropicCustomTool tool
  else foldl (fun next key => if has_own next key then without next key else next) tool SERVER_TOOL_DROP.

Definition sanitizeAnthropicTools (tools : jsval) : jsval :=
  match tools with JArr l => JArr (map sanitize_tool l) | _ => tools end.

Definition sanitizeBodyServerTools (body : jsval) : jsval :=
  if negb (is_object body) || negb (is_array (body?."tools")) then body
  else with_own body "tools" (sanitizeAnthropicTools (body?."tools")).

(** ** What the cleaned tools look like *)

(** The keys a rebuilt search tool may carry. *)
Lemma native_search_tool_keys tool k :
  has_own (native_search_tool tool) k = true -> k ∈ WEB_SEARCH_KEEP.
Proof.
  unfold native_search_tool. set (out := if starts_with _ _ then _ else _).
  assert (H0 : forall k, has_own out k = true -> k ∈ WEB_SEARCH_KEEP).
  { intros j. subst out. destruct (starts_with _ _); cbn -[elem_of]; rewrite ?orb_false_r, ?orb_true_iff, !String.eqb_eq;
      intros [->| ->]; set_solver. }
  clearbody out. assert (Hl : forall l, (forall x, x ∈ l -> x ∈ WEB_SEARCH_KEEP) -> forall o,
    (forall k, has_own o k = true -> k ∈ WEB_SEARCH_KEEP) ->
    forall k, has_own (foldl (keep_field tool) o l) k = true -> k ∈ WEB_SEARCH_KEEP).
  { intros l. induction l as [|x l IH]; intros Hin o Ho j; [apply Ho|]. cbn [foldl]. apply IH; [set_solver|].
    intros i. unfold keep_field. destruct (_ || _); [apply Ho|]. destruct (is_nullish _); [apply Ho|].
    unfold has_own, with_field. cbn [fields_of]. rewrite has_key_set, orb_true_iff, String.eqb_eq.
    intros [->|Hi]; [apply Hin; set_solver|by apply Ho]. }
  by apply Hl.
Qed.

Lemma native_search_tool_name tool : native_search_tool tool?."name" = JStr "web_search" /\
  exists t, native_search_tool tool?."type" = JStr t /\ starts_with "web_search_" t = true.
Proof.
  unfold native_search_tool. set (out := if starts_with _ _ then _ else _).
  assert (H0 : out?."name" = JStr "web_search" /\ exists t, out?."type" = JStr t /\ starts_with "web_search_" t = true).
  { subst out. destruct (starts_with _ _) eqn:E; split; [done| |done|]; eexists; (split; [reflexivity|]); [exact E|reflexivity]. }
  clearbody out. revert out H0. generalize WEB_SEARCH_KEEP. intros l.
  induction l as [|x l IH]; intros o Ho; [exact Ho|]. cbn [foldl]. apply IH. unfold keep_field.
  destruct (String.eqb_spec x "type") as [->|H1]; [exact Ho|].
  destruct (String.eqb_spec x "name") as [->|H2]; [exact Ho|]. cbn [orb].
  destruct (is_nullish _); [exact Ho|]. rewrite !get_with_field_ne by congruence. exact Ho.
Qed.

Lemma drop_fields_spec l t : is_obj t = true ->
  let o := foldl (fun next key => if has_own next key then without next key else next) t l in
  (is_obj o = true) /\ (forall k, k ∈ l -> has_own o k = false) /\
  (forall k, has_own t k = false -> has_own o k = false) /\
  (forall k, (k ∉ l) -> has_own o k = has_own t k /\ o?.k = t?.k).
Proof.
  revert t. induction l as [|x l IH]; intros t Ha o; [repeat split; [done|set_solver|done]|].
  subst o. cbn [foldl]. set (t' := if has_own t x then without t x else t).
  assert (Ha' : is_obj t' = true) by (subst t'; by destruct (has_own t x)).
  assert (Hk : forall k, has_own t' k = negb (String.eqb x k) && has_own t k).
  { intros k. subst t'. destruct (has_own t x) eqn:E.
    - unfold has_own, without. cbn [fields_of]. rewrite has_key_del. by destruct t.
    - destruct (String.eqb_spec x k) as [<-|]; [by rewrite E|done]. }
  assert (Hg : forall k, k <> x -> t'?.k = t?.k).
  { intros k Hn. subst t'. destruct (has_own t x); [|done]. by apply get_without_ne. }
  destruct (IH t' Ha') as (H1 & H2 & H3 & H4). split; [done|]. split; [|split].
  - intros k Hin. apply elem_of_cons in Hin as [->|Hin]; [|by apply H2].
    apply H3. by rewrite Hk, String.eqb_refl.
  - intros k Hf. apply H3. by rewrite Hk, Hf, andb_false_r.
  - intros k Hn. rewrite not_elem_of_cons in Hn. destruct Hn as [Hx Hl].
    destruct (H4 k Hl) as [-> ->]. rewrite Hk, Hg by done.
    by rewrite (proj2 (String.eqb_neq x k)) by congruence.
Qed.

Lemma truthy_or_else a b : truthy (a ||| b) = truthy a || truthy b.
Proof. unfold or_else. by destruct (truthy a) eqn:E; [rewrite E|]. Qed.

Definition CUSTOM_TOOL_KEYS : list string := ["name"; "input_schema"; "description"; "cache_control"].

(** every tool of a cleaned list has the shape the provider accepts: a search tool is the
    native one with its optional fields only, another server tool has lost exactly the
    rejected fields, and a named client tool is reduced to name, schema, description and
    cache marker; a list that is cleaned keeps its length. *)
Theorem sanitized_tools_shape l :
  exists l', sanitizeAnthropicTools (JArr l) = JArr l' /\ length l' = length l /\
  forall i t, l !! i = Some t -> is_obj t = true -> exists o, l' !! i = Some o /\
    (isWebSearchTool t = true ->
       o?."name" = JStr "web_search" /\ isAnthropicServerTool o = true /\ forall k, k ∈ keys o -> k ∈ WEB_SEARCH_KEEP) /\
    (isWebSearchTool t = false -> isAnthropicServerTool t = true ->
       (forall k, k ∈ SERVER_TOOL_DROP -> k ∉ keys o) /\ forall k, (k ∉ SERVER_TOOL_DROP) -> o?.k = t?.k) /\
    (isWebSearchTool t = false -> isAnthropicServerTool t = false ->
       o = t \/ (is_string (o?."name") = true /\ truthy (o?."name") = true /\ truthy (o?."input_schema") = true /\
                 forall k, k ∈ keys o -> k ∈ CUSTOM_TOOL_KEYS)).
Proof.
  eexists. split; [reflexivity|]. split; [by rewrite length_map|].
  intros i t Hi Ho. exists (sanitize_tool t). split; [by rewrite list_lookup_fmap, Hi|].
  assert (Hobj : is_object t = true) by (by destruct t). 
  unfold sanitize_tool. rewrite Hobj. cbn [negb]. split; [|split].
  - intros ->. destruct (native_search_tool_name t) as (Hn & ty & Hty & Hs). split; [exact Hn|]. split.
    + unfold isAnthropicServerTool, str_or_empty, or_else. rewrite Hty. destruct ty as [|c ty]; [done|].
      cbn [starts_with] in Hs. apply andb_true_iff in Hs as [Hc _]. apply Ascii.eqb_eq in Hc as <-.
      cbn -[String.eqb]. destruct (String.eqb_spec (String "w" ty) "function"); [done|].
      destruct (String.eqb_spec (String "w" ty) "custom"); done.
    + intros k Hk. by apply (native_search_tool_keys t), keys_has_key.
  - intros -> ->. cbn [negb]. destruct (drop_fields_spec SERVER_TOOL_DROP t Ho) as (_ & H2 & _ & H4). split.
    + intros k Hk. rewrite keys_has_key, (H2 k Hk). done.
    + intros k Hk. by apply H4.
  - intros Hw ->. cbn [negb]. unfold toAnthropicCustomTool. rewrite Hobj, Hw. cbn [negb orb].
    set (fn := if _ && _ then _ else _). destruct (isAnthropicServerTool t); [by left|].
    destruct (String.eqb _ "") eqn:E; [by left|]. right. split; [done|]. split; [cbn; by rewrite E|]. split.
    + cbn [get assoc app String.eqb Ascii.eqb Bool.eqb andb]. by rewrite truthy_or_else, orb_true_r.
    + intros k. unfold keys. cbn [fields_of]. rewrite !map_app. rewrite !elem_of_app.
      intros [H|[H|H]]; [cbn in H; unfold CUSTOM_TOOL_KEYS; set_solver| |];
        (destruct (nonempty _) || destruct (truthy _)); cbn in H; unfold CUSTOM_TOOL_KEYS; set_solver.
Qed.

(** The search tool is armed at most once and never against the request: a second pass
    changes nothing, a request that declares a search tool or forbids tools is kept, and a
    disabled flag or an official client never arms it. *)
Theorem web_search_armed_once f headers clientClass officialClient :
  ensureClaudeWebSearch (ensureClaudeWebSearch (JObj f) true) true = ensureClaudeWebSearch (JObj f) true /\
  (toolChoiceNone (JObj f?."tool_choice") = true -> ensureClaudeWebSearch (JObj f) true = JObj f) /\
  (hasClaudeWebSearch (JObj f?."tools") = true \/ hasCallerClientSearchTool (JObj f?."tools") = true ->
     ensureClaudeWebSearch (JObj f) true = JObj f) /\
  shouldInjectClaudeWebSearch (JBool true) clientClass headers (JObj f) = false /\
  (isWebSearchDisabled (JObj f) headers = true ->
     shouldInjectClaudeWebSearch officialClient clientClass headers (JObj f) = false).
Proof.
  set (body := JObj f). assert (Ha : is_obj body = true) by done. split; [|split; [|split; [|split]]].
  - unfold ensureClaudeWebSearch at 2 3. cbn [negb orb].
    destruct (is_object body) eqn:Ho; cbn [negb]; [|unfold ensureClaudeWebSearch; by rewrite Ho].
    destruct (toolChoiceNone _) eqn:Et; [unfold ensureClaudeWebSearch; by rewrite Ho, Et|].
    destruct (_ || _) eqn:Ew; [unfold ensureClaudeWebSearch; by rewrite Ho, Et, Ew|].
    unfold ensureClaudeWebSearch. cbn [negb orb is_object with_own].
    rewrite get_with_own_ne, Et, get_with_own_eq by done.
    unfold hasClaudeWebSearch at 1. cbn [is_array arr_of andb]. rewrite existsb_app.
    replace (existsb isWebSearchTool [CLAUDE_WEB_SEARCH_TOOL]) with true by reflexivity.
    by rewrite orb_true_r.
  - intros H. unfold ensureClaudeWebSearch. rewrite H. by destruct (is_object body).
  - intros H. unfold ensureClaudeWebSearch. destruct (is_object body); [|done]. cbn [negb orb].
    destruct (toolChoiceNone _); [done|]. destruct H as [->| ->]; [done|by rewrite orb_true_r].
  - reflexivity.
  - intros H. unfold shouldInjectClaudeWebSearch. rewrite H. by destruct (_ || _).
Qed.

Example prompt_ex : map promptRequestsWebSearch ["please Search the docs"; "web - search"; "research"; "searching"; "帮我搜索一下"; "websearch!"]
  = [true; true; false; false; true; true].
Proof. vm_compute. reflexivity. Qed.
