(* ===== verification/CacheTtl.v ===== *)
(** * Prompt-cache breakpoints and their lifetimes (src/src/lib/protocol/cache-ttl.mjs)

    A breakpoint is a node of the request body (the body itself, a tool, a system block, a
    content block of a message) that carries a [cache_control].  The source walks the nodes
    in the order the provider evaluates them; [walkCacheNodes] passes the state its closures
    mutate.  The source's identity tests ([content !== message.content], [changed ? out :
    body]) only avoid copies, so the walk rewrites unconditionally. *)

From S2P Require Import Prelude.
From S2P Require Import JsValue.
From S2P Require Import JsRegex.
From S2P Require Import JsText.
From S2P Require Import JsJson.
From S2P Require Import WebSearch.
#[local] Open Scope string_scope.
#[local] Open Scope list_scope.
#[local] Open Scope js_scope.

(** The two lifetimes, ['1h'] and ['5m']. *)
Inductive ttl := Hour | Five.
#[global] Instance ttl_eq_dec : EqDecision ttl.
Proof. solve_decision. Defined.
Definition ttl_string (t : ttl) : string := match t with Hour => "1h" | Five => "5m" end.
Definition ttl_val (t : ttl) : jsval := JStr (ttl_string t).

Definition DEFAULT_CACHE_TTL : ttl := Hour.
Definition CACHE_TTL_HEADER : string := "x-kin-cache-ttl".

Definition normalizeCacheTtl (value : jsval) : ttl :=
  let raw := to_lower (trim (to_string (value ?? JStr ""))) in
  if String.eqb raw "" then DEFAULT_CACHE_TTL
  else if mem raw ["1h"; "1hr"; "60m"; "3600"; "hour"; "1hour"; "default"] then Hour
  else if mem raw ["5m"; "5min"; "300"] then Five
  else DEFAULT_CACHE_TTL.

Definition cacheTtlFromRouting (routing : jsval) : ttl := normalizeCacheTtl (routing?."compatibility"?."cache_ttl").

(** [file]: the parsed contents of the file, none when it cannot be read or parsed. *)
Definition cacheTtlFromRoutingFile (file : option jsval) : ttl :=
  match file with Some routing => cacheTtlFromRouting routing | None => DEFAULT_CACHE_TTL end.

(** The [collect] of [bodyCacheTtl]. *)
Definition collect_ttl (control : jsval) : list ttl :=
  if negb (is_object control) then []
  else let raw := trim (str_or_empty (control?."ttl")) in
       if nonempty raw then [normalizeCacheTtl (JStr raw)] else [].

Definition collect_nodes (nodes : jsval) : list ttl :=
  flat_map (fun node => collect_ttl (node?."cache_control")) (arr_of nodes).

Definition has_ttl (t : ttl) (l : list ttl) : bool := existsb (fun x => bool_decide (x = t)) l.

Definition bodyCacheTtl (body : jsval) : option ttl :=
  if negb (is_object body) then None
  else
    let ttls :=
      collect_ttl (body?."cache_control") ++ collect_nodes (body?."tools") ++ collect_nodes (body?."system") ++
      flat_map (fun message => collect_nodes (message?."content")) (arr_of (body?."messages")) in
    if has_ttl Hour ttls then Some Hour else if has_ttl Five ttls then Some Five else None.

Definition bodyRequestsHourCache (body : jsval) : bool := bool_decide (bodyCacheTtl body = Some Hour).

Definition resolveCacheTtl (headers body routing : jsval) (file : option jsval) (officialTraffic : bool) : option ttl :=
  if officialTraffic then None
  else
    let hdr := headers?.CACHE_TTL_HEADER ||| headers?."X-Kin-Cache-Ttl" in
    if negb (is_nullish hdr) && nonempty (trim (to_string hdr)) then Some (normalizeCacheTtl hdr)
    else match bodyCacheTtl body with
         | Some requested => Some requested
         | None => if truthy routing then Some (cacheTtlFromRouting routing) else Some (cacheTtlFromRoutingFile file)
         end.

(** [control.type && control.type !== 'ephemeral'] *)
Definition other_kind (control : jsval) : bool := truthy (control?."type") && negb (is_str (control?."type") "ephemeral").

Definition ephemeral (t : jsval) : jsval := JObj [("type", JStr "ephemeral"); ("ttl", t)].

Definition sanitizePublicCacheControl (control : jsval) : jsval :=
  if negb (is_object control) then control
  else if other_kind control then control
  else if negb (is_nullish (control?."ttl")) && nonempty (trim (to_string (control?."ttl")))
  then ephemeral (control?."ttl")
  else JObj [("type", JStr "ephemeral")].

Definition dropCacheControlScope (control : jsval) : jsval :=
  if negb (is_object control) then control
  else if negb (has_own control "scope") then control
  else without control "scope".

Definition setEphemeralTtl (t : ttl) (control : jsval) : jsval :=
  if negb (is_object control) then ephemeral (ttl_val t)
  else if other_kind control then control
  else ephemeral (ttl_val t).

(** Anthropic reads a missing ttl as 5m. *)
Definition ephemeralCacheTtl (control : jsval) : option ttl :=
  if negb (is_object control) then None
  else if String.eqb (to_lower (to_string (control?."ttl" ||| JStr "5m"))) "1h" then Some Hour else Some Five.

(** ** The walk over the nodes of a body *)

Section Walk.
Context {state : Type} (mapFn : state -> jsval -> jsval * state).

Fixpoint map_nodes (s : state) (l : list jsval) : list jsval * state :=
  match l with
  | [] => ([], s)
  | x :: r => let '(y, s) := mapFn s x in let '(r', s) := map_nodes s r in (y :: r', s)
  end.

Definition map_array (k : string) (s : state) (out : jsval) : jsval * state :=
  match out?.k with
  | JArr l => let '(l', s) := map_nodes s l in (with_field out k (JArr l'), s)
  | _ => (out, s)
  end.
End Walk.

Definition walkCacheNodes {state} (mapFn : state -> jsval -> jsval * state) (s : state) (body : jsval) : jsval * state :=
  let out := own body in
  let '(out, s) :=
    if truthy (out?."cache_control") then
      let '(mapped, s) := mapFn s (JObj [("cache_control", out?."cache_control")]) in
      (with_field out "cache_control" (mapped?."cache_control"), s)
    else (out, s) in
  let '(out, s) := map_array mapFn "tools" s out in
  let '(out, s) := map_array mapFn "system" s out in
  map_array (map_array mapFn "content") "messages" s out.

(** A node function that only touches the [cache_control] of the nodes that have one. *)
Definition on_control {state} (g : state -> jsval -> jsval * state) (s : state) (node : jsval) : jsval * state :=
  if is_object node && truthy (node?."cache_control") then
    let '(c, s) := g s (node?."cache_control") in (with_field node "cache_control" c, s)
  else (node, s).

(** The same without state. *)
Definition pure_control (g : jsval -> jsval) : unit -> jsval -> jsval * unit := on_control (fun s c => (g c, s)).

Definition stripIllegalCacheControlFields (body : jsval) : jsval :=
  if negb (is_object body) then body
  else (walkCacheNodes (pure_control sanitizePublicCacheControl) tt body).1.

Definition stripCacheScopeFields (body : jsval) : jsval :=
  if negb (is_object body) then body
  else
    let drop changed c :=
      if has_own c "scope" then (dropCacheControlScope c, true) else (c, changed) in
    let '(out, changed) := walkCacheNodes (on_control drop) false body in
    if changed then out else body.

(** The closure [fix] of [enforceCacheTtlOrder]; its state is [(seen5m, changed)]. *)
Definition downgrade_late_hour (s : bool * bool) (c : jsval) : jsval * (bool * bool) :=
  let '(seen5m, changed) := s in
  match ephemeralCacheTtl c with
  | Some Hour => if seen5m then (ephemeral (ttl_val Five), (seen5m, true)) else (c, s)
  | Some Five => (c, (true, changed))
  | None => (c, s)
  end.

(** The closure [record] of [honorHourCacheTtlOrder]. *)
Definition record_ttl (ttls : list (option ttl)) (c : jsval) : jsval * list (option ttl) :=
  (c, ttls ++ [ephemeralCacheTtl c]).

(** The index of the last ['1h']. *)
Definition last_hour (ttls : list (option ttl)) : option nat :=
  foldl (fun acc p => if bool_decide (p.2 = Some Hour) then Some p.1 else acc) None (imap (fun i t => (i, t)) ttls).

(** The second closure [fix] of [honorHourCacheTtlOrder]: its state is the index. *)
Definition upgrade_early_five (last1h : nat) (idx : nat) (c : jsval) : jsval * nat :=
  (if (idx <? last1h)%nat && bool_decide (ephemeralCacheTtl c = Some Five) then ephemeral (ttl_val Hour) else c, S idx).

Definition honorHourCacheTtlOrder (body : jsval) : jsval :=
  let ttls := (walkCacheNodes (on_control record_ttl) [] body).2 in
  match last_hour ttls with
  | None => body
  | Some last1h =>
    if existsb (fun t => bool_decide (t = Some Five)) (take last1h ttls)
    then (walkCacheNodes (on_control (upgrade_early_five last1h)) 0%nat body).1
    else body
  end.

Definition enforceCacheTtlOrder (body : jsval) (honorHour : bool) : jsval :=
  if negb (is_object body) then body
  else if honorHour then honorHourCacheTtlOrder body
  else
    let '(out, (_, changed)) := walkCacheNodes (on_control downgrade_late_hour) (false, false) body in
    if changed then out else body.

Definition applyCacheTtlToBody (body : jsval) (t : jsval) : jsval :=
  let target := normalizeCacheTtl t in
  if negb (is_object body) then body
  else (walkCacheNodes (pure_control (setEphemeralTtl target)) tt body).1.

(** ** Placing breakpoints *)

Inductive messages_mode := Off | Fill | Rewrite | CliHop.
#[global] Instance messages_mode_eq_dec : EqDecision messages_mode.
Proof. solve_decision. Defined.
Definition mode_string (m : messages_mode) : string :=
  match m with Off => "off" | Fill => "fill" | Rewrite => "rewrite" | CliHop => "cli-hop" end.

Record cache_breakpoints := {
  cb_enabled : bool; cb_preserve_client : bool; cb_system_tail : bool; cb_tools_tail : bool; cb_messages : messages_mode;
}.

Definition DEFAULT_CACHE_BREAKPOINTS : cache_breakpoints :=
  {| cb_enabled := true; cb_preserve_client := true; cb_system_tail := true; cb_tools_tail := true; cb_messages := Rewrite |}.

Definition normalizeMessagesBreakpointMode (value : jsval) : messages_mode :=
  let raw := to_lower (trim (to_string (value ?? JStr ""))) in
  if mem raw ["off"; "none"; "false"; "0"; "disabled"] then Off
  else if mem raw ["cli-hop"; "cli"; "leftover"] then CliHop
  else if mem raw ["rewrite"; "replace"; "restamp"; "auto"] then Rewrite
  else if mem raw ["fill"; "true"; "1"] then Fill
  else cb_messages DEFAULT_CACHE_BREAKPOINTS.

(** The helper [bool]. *)
Definition flag (value : jsval) (fallback : bool) : bool :=
  if is_nullish value then fallback else negb (is_bool value false) && negb (String.eqb (to_string value) "false").

Definition normalizeCacheBreakpoints (raw : jsval) : cache_breakpoints :=
  let src := if is_object raw then raw else JObj [] in
  {| cb_enabled := flag (src?."enabled") (cb_enabled DEFAULT_CACHE_BREAKPOINTS);
     cb_preserve_client := flag (src?."preserve_client") (cb_preserve_client DEFAULT_CACHE_BREAKPOINTS);
     cb_system_tail := flag (src?."system_tail") (cb_system_tail DEFAULT_CACHE_BREAKPOINTS);
     cb_tools_tail := flag (src?."tools_tail") (cb_tools_tail DEFAULT_CACHE_BREAKPOINTS);
     cb_messages := normalizeMessagesBreakpointMode (src?."messages") |}.

Definition cacheBreakpointsFromRouting (routing : jsval) : cache_breakpoints :=
  normalizeCacheBreakpoints (routing?."compatibility"?."cache_breakpoints").
Definition cacheBreakpointsFromRoutingFile (file : option jsval) : cache_breakpoints :=
  match file with Some routing => cacheBreakpointsFromRouting routing | None => normalizeCacheBreakpoints JNull end.

Definition highestInboundCacheTtl (body fallback : jsval) : ttl :=
  if bodyRequestsHourCache body then Hour else normalizeCacheTtl fallback.

Definition callerSystemCacheControl (body : jsval) : jsval :=
  if negb (is_object body) then JNull
  else match body?."system" with
       | JArr l =>
         foldl (fun found block => if is_object (block?."cache_control") then block?."cache_control" else found) JNull l
       | _ => JNull
       end.

(** None: not cacheable. *)
Definition politeEphemeral (control : jsval) (t : ttl) : option jsval :=
  if negb (is_object control) then Some (ephemeral (ttl_val t))
  else if other_kind control then None
  else if nonempty (trim (str_or_empty (control?."ttl"))) then Some control
  else Some (with_field (with_own control "type" (JStr "ephemeral")) "ttl" (ttl_val t)).

Definition stampNode (node : jsval) (t : ttl) : jsval :=
  if negb (is_object node) then node
  else match politeEphemeral (node?."cache_control") t with
       | None => node
       | Some next => with_own node "cache_control" next
       end.

Definition isDeferredLoadingTool (tool : jsval) : bool :=
  is_bool (tool?."defer_loading") true || is_bool (tool?."custom"?."defer_loading") true.

(** [next = l.slice(); next[idx] = f(l[idx])] *)
Definition update_at (idx : nat) (f : jsval -> jsval) (l : list jsval) : list jsval := alter f idx l.

Definition injectSystemTailBreakpoint (body : jsval) (t : jsval) : jsval :=
  if negb (is_object body) then body
  else match body?."system" with
       | JArr ((_ :: _) as l) =>
         with_field body "system" (JArr (update_at (length l - 1) (fun b => stampNode b (normalizeCacheTtl t)) l))
       | _ => body
       end.

(** [[-_]?], [[-_.]] and the rules of [MIN_CACHEABLE_TOKEN_RULES], in order. *)
Definition sep_opt : rx := ropt (one_of "-_").
Definition sep_dot : rx := one_of "-_.".
Definition digit : rx := RChr is_digit.

(** [r(?![-_.]?\d)]: somewhere [r] matches and no digit follows. *)
Definition no_digit_after (r : rx) (s : string) : bool :=
  rx_full (RSeq anything (RSeq r (RNot (RSeq (ropt sep_dot) (RSeq digit anything))))) s.

Definition dotted (family major minor : string) : rx := rseqs [lit family; sep_opt; lit major; sep_dot; lit minor].

Definition MIN_CACHEABLE_TOKEN_RULES : list ((string -> bool) * nat) :=
  [(rx_test (RAlt (rseqs [lit "mythos"; one_of "-_"; lits ["preview"; "beta"]]) (rseqs [lit "preview"; one_of "-_"; lit "mythos"])), 2048%nat);
   (rx_test (dotted "opus" "4" "8"), 1024%nat);
   (rx_test (dotted "opus" "4" "7"), 2048%nat);
   (rx_test (dotted "opus" "4" "6"), 4096%nat);
   (rx_test (dotted "opus" "4" "5"), 4096%nat);
   (rx_test (dotted "opus" "4" "1"), 1024%nat);
   (no_digit_after (rseqs [lit "opus"; sep_opt; lit "4"]), 1024%nat);
   (rx_test (rseqs [lit "opus"; sep_opt; lit "5"]), 512%nat);
   (rx_test (rseqs [lit "fable"; sep_opt; lit "5"]), 512%nat);
   (rx_test (rseqs [lit "mythos"; sep_opt; lit "5"]), 512%nat);
   (rx_test (rseqs [lit "sonnet"; sep_opt; lit "5"]), 1024%nat);
   (no_digit_after (rseqs [lit "sonnet"; sep_opt; lit "4"; ropt (RSeq sep_dot (one_of "56"))]), 1024%nat);
   (rx_test (dotted "haiku" "4" "5"), 4096%nat);
   (rx_test (RAlt (rseqs [lit "3"; one_of "-_"; lit "5"; one_of "-_"; lit "haiku"]) (dotted "haiku" "3" "5")), 2048%nat)].

Definition DEFAULT_MIN_CACHEABLE_TOKENS : nat := 1024.

Definition minCacheableTokens (model : jsval) : nat :=
  let id := to_lower (trim (str_or_empty model)) in
  let id := if ends_with "[1m]" id then drop_last 4 id else id in
  if String.eqb id "" then DEFAULT_MIN_CACHEABLE_TOKENS
  else match List.find (fun rule => rule.1 id) MIN_CACHEABLE_TOKEN_RULES with
       | Some rule => rule.2
       | None => DEFAULT_MIN_CACHEABLE_TOKENS
       end.

Definition blockChars (block : jsval) : nat :=
  match block with
  | JStr s => String.length s
  | _ =>
    if negb (is_object block) then 0
    else match block?."text" with
         | JStr s => String.length s
         | _ => match stringify block with Some s => String.length s | None => 0 end
         end
  end.

Definition sum_chars (l : list jsval) : nat := foldr (fun b n => blockChars b + n)%nat 0%nat l.

Definition estimateCachePrefixTokens (body : jsval) : nat :=
  let tools := sum_chars (arr_of (body?."tools")) in
  let system := match body?."system" with JArr l => sum_chars l | s => blockChars s end in
  ((tools + system) / 4)%nat.

Definition systemPrefixReachesCacheMinimum (body : jsval) : bool :=
  (minCacheableTokens (body?."model") <=? estimateCachePrefixTokens body)%nat.

Definition hasSystemBreakpoint (system : jsval) : bool :=
  is_array system && existsb (fun block => truthy (block?."cache_control")) (arr_of system).

Definition drop_deferred (tool : jsval) : jsval :=
  if negb (isDeferredLoadingTool tool) || negb (truthy (tool?."cache_control")) then tool
  else without tool "cache_control".

Definition stripDeferredToolCacheControl (body : jsval) : jsval :=
  match body?."tools" with
  | JArr l => with_field body "tools" (JArr (map drop_deferred l))
  | _ => body
  end.

(** The last index whose tool may carry a marker. *)
Definition markable (tool : jsval) : bool :=
  is_object tool && negb (isDeferredLoadingTool tool || isAnthropicServerTool tool).
Definition last_index (p : jsval -> bool) (l : list jsval) : option nat :=
  foldl (fun acc q => if p q.2 then Some q.1 else acc) None (imap (fun i x => (i, x)) l).

Definition injectToolsTailBreakpoint (body : jsval) (t : jsval) : jsval :=
  if negb (is_object body) then body
  else
    let out := stripDeferredToolCacheControl body in
    match out?."tools" with
    | JArr l =>
      match last_index markable l with
      | None => out
      | Some idx => with_field out "tools" (JArr (update_at idx (fun x => stampNode x (normalizeCacheTtl t)) l))
      end
    | _ => out
    end.

Definition hasMessageBreakpoint (messages : list jsval) : bool :=
  existsb (fun m => is_array (m?."content") && existsb (fun b => truthy (b?."cache_control")) (arr_of (m?."content"))) messages.

Definition drop_block (block : jsval) : jsval :=
  if negb (is_object block) || negb (truthy (block?."cache_control")) then block else without block "cache_control".

Definition drop_message (message : jsval) : jsval :=
  match message?."content" with
  | JArr l => with_field message "content" (JArr (map drop_block l))
  | _ => message
  end.
Definition dropMessageBreakpoints (messages : list jsval) : list jsval := map drop_message messages.

(** What [stampMessageTail] does to the message it picks. *)
Definition stamp_message (t : ttl) (message : jsval) : jsval :=
  if negb (is_object message) then message
  else match message?."content" with
       | JStr text =>
         with_field message "content"
           (JArr [JObj [("type", JStr "text"); ("text", JStr text); ("cache_control", ephemeral (ttl_val t))]])
       | JArr ((_ :: _) as l) =>
         with_field message "content" (JArr (update_at (length l - 1) (fun b => stampNode b t) l))
       | _ => message
       end.
Definition stampMessageTail (messages : list jsval) (idx : nat) (t : ttl) : list jsval :=
  update_at idx (stamp_message t) messages.

(** Indices of the user turns, the last one first. *)
Definition user_turns (messages : list jsval) : list nat :=
  map fst (List.filter (fun p => is_str (p.2?."role") "user") (rev (imap (fun i m => (i, m)) messages))).

Definition penultimateUserIndex (messages : list jsval) : option nat :=
  if (length messages <? 4)%nat then None
  else match user_turns messages with _ :: i :: _ => Some i | _ => None end.

(** The list of messages [applyMessageBreakpoints] builds. *)
Definition restamp_messages (resolved : messages_mode) (target : ttl) (l : list jsval) : list jsval :=
  let messages := if bool_decide (resolved = Fill) then l else dropMessageBreakpoints l in
  if bool_decide (resolved = CliHop) then messages
  else
    let messages := stampMessageTail messages (length messages - 1) target in
    match penultimateUserIndex messages with
    | Some prevUser => stampMessageTail messages prevUser target
    | None => messages
    end.

Definition applyMessageBreakpoints (body t mode : jsval) : jsval :=
  let resolved := normalizeMessagesBreakpointMode mode in
  if bool_decide (resolved = Off) then body
  else if negb (is_object body) then body
  else match body?."messages" with
       | JArr ((_ :: _) as l) =>
         if bool_decide (resolved = Fill) && hasMessageBreakpoint l then body
         else with_field body "messages" (JArr (restamp_messages resolved (normalizeCacheTtl t) l))
       | _ => body
       end.

(** The system step of [applyCacheBreakpoints]. *)
Definition place_system (cfg : cache_breakpoints) (caller : jsval) (target : ttl) (out : jsval) : jsval :=
  if hasSystemBreakpoint (out?."system") then out
  else if truthy caller then
    injectSystemTailBreakpoint out
      (if truthy (caller?."ttl") then ttl_val (normalizeCacheTtl (caller?."ttl")) else ttl_val target)
  else if cb_system_tail cfg && systemPrefixReachesCacheMinimum out then injectSystemTailBreakpoint out (ttl_val target)
  else out.

(** None is the TypeError of reading [out.system] on a null or undefined body. *)
Definition applyCacheBreakpoints (body t config inbound : jsval) : option jsval :=
  let cfg := normalizeCacheBreakpoints config in
  if negb (cb_enabled cfg) then Some body
  else if is_nullish body then None
  else
    let source := if is_object inbound then inbound else body in
    let target := highestInboundCacheTtl source t in
    let out := if cb_tools_tail cfg then injectToolsTailBreakpoint body (ttl_val target) else body in
    let caller := if cb_preserve_client cfg then callerSystemCacheControl source else JNull in
    let out := place_system cfg caller target out in
    Some (applyMessageBreakpoints out (ttl_val target) (JStr (mode_string (cb_messages cfg)))).

(** ** Accounting the lifetime that was sent *)

(** [out.cache_creation.k1 = a; out.cache_creation.k2 = b]: none is the TypeError of assigning
    to a property of a primitive. *)
Definition set_creation (out : jsval) (k1 : string) (a : num) (k2 : string) (b : num) : option jsval :=
  let cc := if truthy (out?."cache_creation") then out?."cache_creation" else JObj [] in
  if is_object cc
  then Some (with_field out "cache_creation" (with_field (with_field cc k1 (JNum a)) k2 (JNum b)))
  else None.

Definition applyCacheTtlToUsage (usage t : jsval) : option jsval :=
  if negb (is_object usage) then Some usage
  else
    let target := normalizeCacheTtl t in
    let out := with_own usage "cache_ttl" (ttl_val target) in
    let out := if is_object (usage?."cache_creation")
               then with_field out "cache_creation" (own (usage?."cache_creation")) else out in
    let five := num_or_zero (out?."cache_creation_5m_tokens" ?? out?."cache_creation"?."ephemeral_5m_input_tokens") in
    let hour := num_or_zero (out?."cache_creation_1h_tokens" ?? out?."cache_creation"?."ephemeral_1h_input_tokens") in
    let create := num_or_zero (out?."cache_creation_input_tokens" ?? out?."cache_creation_tokens") in
    let total := num_add five hour in
    let total := if negb (truthy (JNum total)) && truthy (JNum create) then create else total in
    if negb (truthy (JNum total)) then Some out
    else match target with
         | Hour =>
           let out := with_field (with_field out "cache_creation_1h_tokens" (JNum total)) "cache_creation_5m_tokens" (jint 0) in
           set_creation out "ephemeral_1h_input_tokens" total "ephemeral_5m_input_tokens" (Fin 0)
         | Five =>
           let out := with_field (with_field out "cache_creation_5m_tokens" (JNum total)) "cache_creation_1h_tokens" (jint 0) in
           set_creation out "ephemeral_5m_input_tokens" total "ephemeral_1h_input_tokens" (Fin 0)
         end.

Example min_tokens_ex :
  map (fun s => minCacheableTokens (JStr s))
    ["claude-opus-4-6"; "claude-opus-4"; "claude-opus-4-20250514"; "claude-sonnet-4-5-20250929"; "Claude-Fable-5[1m]"; "claude-3-5-haiku-latest"; "gpt-5"]
  = [4096; 1024; 1024; 1024; 512; 2048; 1024]%nat.
Proof. vm_compute. reflexivity. Qed.

Definition sample_body : jsval :=
  JObj [("tools", JArr [JObj [("name", JStr "a")]; JObj [("type", JStr "web_search_20250305"); ("name", JStr "web_search")]]);
        ("messages", JArr [JObj [("role", JStr "user"); ("content", JStr "hi")];
                           JObj [("role", JStr "assistant"); ("content", JArr [JObj [("type", JStr "text"); ("text", JStr "ok")]])];
                           JObj [("role", JStr "user"); ("content", JStr "go")];
                           JObj [("role", JStr "assistant"); ("content", JStr "done")]])].

Example breakpoints_placed :
  let out := default JNull (applyCacheBreakpoints sample_body (JStr "5m") JUndef JUndef) in
  map (fun t => t?."cache_control"?."ttl") (arr_of (out?."tools")) = [JStr "5m"; JUndef] /\
  map (fun m => match m?."content" with JArr l => map (fun b => b?."cache_control"?."ttl") l | _ => [] end) (arr_of (out?."messages"))
  = [[JStr "5m"]; [JUndef]; []; [JStr "5m"]].
Proof. vm_compute. split; reflexivity. Qed.
