(* ===== verification/CacheOrder.v ===== *)
(** * Where breakpoints end up: order and budget

    The facts about the walk of CacheTtl.v: a node function that only touches
    [cache_control] acts on the sequence of breakpoints as a state-passing map, so the
    properties of the provider's order are properties of lists. *)

From S2P Require Import Prelude.
From S2P Require Import JsValue.
From S2P Require Import JsText.
From S2P Require Import WebSearch.
From S2P Require Import CacheTtl.
#[local] Open Scope string_scope.
#[local] Open Scope list_scope.
#[local] Open Scope js_scope.

(** ** The sequence of breakpoints, in the provider's order *)

Definition node_control (node : jsval) : list jsval :=
  if is_object node && truthy (node?."cache_control") then [node?."cache_control"] else [].
Definition controls_of (v : jsval) : list jsval := flat_map node_control (arr_of v).
Definition message_controls (m : jsval) : list jsval := controls_of (m?."content").

Definition top_control (body : jsval) : list jsval :=
  if truthy (body?."cache_control") then [body?."cache_control"] else [].
Definition breakpoints (body : jsval) : list jsval :=
  top_control body ++ controls_of (body?."tools") ++ controls_of (body?."system") ++
  flat_map message_controls (arr_of (body?."messages")).

(** No 1h after a 5m. *)
Definition ttl_ordered (l : list (option ttl)) : Prop :=
  forall i j, (i < j)%nat -> l !! i = Some (Some Five) -> l !! j <> Some (Some Hour).

Section WalkFacts.
Context {state : Type} (g : state -> jsval -> jsval * state).
Hypothesis g_truthy : forall s c, truthy c = true -> truthy (g s c).1 = true.

Lemma map_nodes_app {S} (h : S -> jsval -> jsval * S) s l1 l2 :
  map_nodes h s (l1 ++ l2) =
  let '(a, s1) := map_nodes h s l1 in let '(b, s2) := map_nodes h s1 l2 in (a ++ b, s2).
Proof.
  revert s. induction l1 as [|x l1 IH]; intros s; cbn [app map_nodes]; [by destruct (map_nodes h s l2)|].
  destruct (h s x) as [y s1]. rewrite IH. destruct (map_nodes h s1 l1) as [a s2].
  by destruct (map_nodes h s2 l2).
Qed.

(** [f] acts on the breakpoints [c] of a value as [g] does on a list. *)
Definition acts (f : state -> jsval -> jsval * state) (c : jsval -> list jsval) : Prop :=
  forall s x, (c (f s x).1, (f s x).2) = map_nodes g s (c x).

Lemma on_control_acts : acts (on_control g) node_control.
Proof.
  intros s x. unfold on_control, node_control at 2. destruct (is_object x && truthy _) eqn:E.
  - cbn [map_nodes]. pose proof (g_truthy s (x?."cache_control")) as Ht. destruct (g s _) as [c s']. cbn [fst snd] in *.
    apply andb_true_iff in E as [Eo Et]. unfold node_control.
    rewrite get_with_field_eq, Ht by done. reflexivity.
  - cbn [map_nodes fst snd]. unfold node_control. by rewrite E.
Qed.

Lemma map_nodes_acts f c : acts f c -> forall s l,
  (flat_map c (map_nodes f s l).1, (map_nodes f s l).2) = map_nodes g s (flat_map c l).
Proof.
  intros Hf s l. revert s. induction l as [|x l IH]; intros s; [done|]. cbn [flat_map]. rewrite map_nodes_app.
  rewrite <- Hf. cbn [map_nodes]. destruct (f s x) as [y s1]. cbn [fst snd]. rewrite <- IH.
  by destruct (map_nodes f s1 l).
Qed.

Lemma map_array_acts f c k : acts f c -> acts (map_array f k) (fun v => flat_map c (arr_of (v?.k))).
Proof.
  intros Hf s x. unfold map_array. pose proof (map_nodes_acts f c Hf s (arr_of (x?.k))) as H.
  destruct (x?.k) eqn:E; cbn [arr_of flat_map map_nodes fst snd] in *; rewrite ?E; try reflexivity.
  destruct (map_nodes f s l) as [l' s']. cbn [fst snd] in *. by rewrite get_with_field_eq.
Qed.

Lemma map_array_frame (f : state -> jsval -> jsval * state) k k' s x : k' <> k -> (map_array f k s x).1?.k' = x?.k'.
Proof.
  intros Hn. unfold map_array. destruct (x?.k); try reflexivity.
  destruct (map_nodes f s l). cbn [fst]. by apply get_with_field_ne.
Qed.

Lemma get_own v k : is_obj v = true -> own v?.k = v?.k.
Proof. by destruct v. Qed.

(** The walk acts on the breakpoints of the body. *)
Lemma walk_acts s body : is_obj body = true ->
  (breakpoints (walkCacheNodes (on_control g) s body).1, (walkCacheNodes (on_control g) s body).2)
  = map_nodes g s (breakpoints body).
Proof.
  intros Ha. unfold walkCacheNodes. cbv zeta. set (top := if truthy _ then _ else _).
  assert (Ht : (top_control top.1, top.2) = map_nodes g s (top_control body) /\
               forall k, k <> "cache_control" -> top.1?.k = body?.k).
  { subst top. rewrite get_own by done. unfold top_control at 2. destruct (truthy _) eqn:E; cbn [map_nodes].
    - unfold on_control. cbn [is_object get assoc String.eqb Ascii.eqb Bool.eqb andb].
      rewrite E. pose proof (g_truthy s _ E) as Hg. destruct (g s _) as [c s']. cbn [fst snd] in *. split.
      + unfold top_control. rewrite !get_with_field_eq, Hg. reflexivity.
      + intros k Hk. rewrite get_with_field_ne by done. by apply get_own.
    - cbn [fst snd]. split; [unfold top_control; by rewrite get_own, E|]. intros k _. by apply get_own. }
  destruct top as [o0 s0]. cbn [fst snd] in Ht. destruct Ht as [Ht Hk].
  pose proof (map_array_acts _ _ "tools" on_control_acts s0 o0) as H1.
  pose proof (map_array_frame (on_control g) "tools") as F1.
  destruct (map_array (on_control g) "tools" s0 o0) as [o1 s1] eqn:E1. cbn [fst snd] in H1.
  pose proof (map_array_acts _ _ "system" on_control_acts s1 o1) as H2.
  pose proof (map_array_frame (on_control g) "system") as F2.
  destruct (map_array (on_control g) "system" s1 o1) as [o2 s2] eqn:E2. cbn [fst snd] in H2.
  pose proof (map_array_acts _ _ "messages" (map_array_acts _ _ "content" on_control_acts) s2 o2) as H3.
  pose proof (map_array_frame (map_array (on_control g) "content") "messages") as F3.
  destruct (map_array (map_array (on_control g) "content") "messages" s2 o2) as [o3 s3] eqn:E3.
  cbn [fst snd] in *.
  specialize (fun k' h => F1 k' s0 o0 h). rewrite E1 in F1. specialize (fun k' h => F2 k' s1 o1 h). rewrite E2 in F2.
  specialize (fun k' h => F3 k' s2 o2 h). rewrite E3 in F3. cbn [fst] in *.
  rewrite Hk in H1 by done. rewrite F1, Hk in H2 by done. rewrite F2, F1, Hk in H3 by done.
  unfold breakpoints, top_control at 1. rewrite !F3, !F2, !F1 by done. fold (top_control o0).
  change message_controls with (fun v => flat_map node_control (arr_of (v?."content"))). unfold controls_of.
  rewrite map_nodes_app, <- Ht. cbv beta iota. rewrite map_nodes_app, <- H1. cbv beta iota.
  rewrite map_nodes_app, <- H2. cbv beta iota. rewrite <- H3. reflexivity.
Qed.
End WalkFacts.

Lemma map_array_is_obj {state} (f : state -> jsval -> jsval * state) k s x :
  is_obj x = true -> is_obj (map_array f k s x).1 = true.
Proof. intros H. unfold map_array. destruct (x?.k); try exact H. by destruct (map_nodes f s l). Qed.

Lemma walk_is_obj {state} (f : state -> jsval -> jsval * state) s body : is_obj (walkCacheNodes f s body).1 = true.
Proof.
  unfold walkCacheNodes. cbv zeta. set (top := if truthy _ then _ else _).
  assert (Ht : is_obj top.1 = true) by (subst top; destruct (truthy _); [by destruct (f _ _)|done]).
  destruct top as [o0 s0]. cbn [fst] in Ht. apply (map_array_is_obj f "tools" s0) in Ht.
  destruct (map_array f "tools" s0 o0) as [o1 s1]. cbn [fst] in Ht. apply (map_array_is_obj f "system" s1) in Ht.
  destruct (map_array f "system" s1 o1) as [o2 s2]. cbn [fst] in Ht. by apply map_array_is_obj.
Qed.

(** What a walk leaves alone, and where the messages come from. *)
Lemma walk_frame {state} (f : state -> jsval -> jsval * state) s body : is_obj body = true ->
  exists s', arr_of ((walkCacheNodes f s body).1?."messages") = (map_nodes (map_array f "content") s' (arr_of (body?."messages"))).1 /\
  forall k, k ∉ ["messages"; "system"; "tools"; "cache_control"] -> (walkCacheNodes f s body).1?.k = body?.k.
Proof.
  intros Ho. unfold walkCacheNodes. cbv zeta. set (top := if truthy _ then _ else _).
  assert (Ht : forall k, k <> "cache_control" -> top.1?.k = body?.k).
  { intros k Hk. subst top. destruct (truthy _); [|by apply get_own]. destruct (f _ _) as [m s1]. cbn [fst].
    rewrite get_with_field_ne by done. by apply get_own. }
  destruct top as [o0 s0]. cbn [fst] in Ht.
  pose proof (fun k' h => map_array_frame f "tools" k' s0 o0 h) as F1. destruct (map_array f "tools" s0 o0) as [o1 s1]. cbn [fst] in F1.
  pose proof (fun k' h => map_array_frame f "system" k' s1 o1 h) as F2. destruct (map_array f "system" s1 o1) as [o2 s2]. cbn [fst] in F2.
  exists s2. split.
  - rewrite <- Ht, <- F1, <- F2 by done. unfold map_array at 1. destruct (o2?."messages") eqn:E; cbn [fst arr_of]; rewrite ?E; try done.
    destruct (map_nodes _ s2 l) as [l' s']. cbn [fst]. by rewrite get_with_field_eq.
  - intros k Hk. rewrite map_array_frame, F2, F1, Ht; [done|set_solver..].
Qed.

Lemma map_nodes_pure (h : jsval -> jsval) l : map_nodes (fun (s : unit) c => (h c, s)) tt l = (map h l, tt).
Proof. induction l as [|x l IH]; [done|]. cbn [map_nodes map]. by rewrite IH. Qed.

Lemma walk_pure h body : is_obj body = true -> (forall c, truthy c = true -> truthy (h c) = true) ->
  breakpoints (walkCacheNodes (pure_control h) tt body).1 = map h (breakpoints body).
Proof.
  intros Ha Hh. pose proof (walk_acts (fun (s : unit) c => (h c, s)) (fun _ c => Hh c) tt body Ha) as H.
  rewrite map_nodes_pure in H. by injection H.
Qed.

(** ** The provider's order *)

(** The order read from left to right; [seen]: a 5m came before. *)
Fixpoint ordered_from (seen : bool) (l : list (option ttl)) : Prop :=
  match l with
  | [] => True
  | Some Hour :: r => seen = false /\ ordered_from seen r
  | Some Five :: r => ordered_from true r
  | None :: r => ordered_from seen r
  end.

Lemma ordered_from_true l : ordered_from true l <-> forall j, l !! j <> Some (Some Hour).
Proof.
  induction l as [|x l IH]; [split; [intros _ j; by rewrite lookup_nil|done]|]. split.
  - intros H [|j]; destruct x as [[]|]; cbn in *; try done; try (by destruct H); apply IH; done.
  - intros H. assert (Hr : ordered_from true l) by (apply IH; intros j; apply (H (S j))).
    destruct x as [[]|]; cbn; try done. by destruct (H 0%nat).
Qed.

Lemma ordered_from_false l : ordered_from false l <-> ttl_ordered l.
Proof.
  induction l as [|x l IH]; [split; [intros _ i j _; by rewrite lookup_nil|done]|].
  assert (Hs : forall l', ttl_ordered (x :: l') -> ttl_ordered l').
  { intros l' H i j Hij. apply (H (S i) (S j)). lia. }
  destruct x as [[]|]; cbn [ordered_from].
  - rewrite IH. split; [|intros H; split; [done|by apply Hs]].
    intros [_ H] [|i] [|j] Hij; cbn; try done; try lia. apply H. lia.
  - rewrite ordered_from_true. split.
    + intros H [|i] [|j] Hij; cbn; try done; intros _; apply H.
    + intros H j. by apply (H 0%nat (S j)); [lia|].
  - rewrite IH. split; [|by apply Hs]. intros H [|i] [|j] Hij; cbn; try done; try lia. apply H. lia.
Qed.

(** What the pass without [honorHour] does to a breakpoint. *)
Definition downgraded (c c' : jsval) : Prop :=
  c' = c \/ (ephemeralCacheTtl c = Some Hour /\ c' = ephemeral (ttl_val Five)).

Lemma downgrade_truthy s c : truthy c = true -> truthy (downgrade_late_hour s c).1 = true.
Proof. destruct s as [seen ch]. intros H. unfold downgrade_late_hour. by destruct (ephemeralCacheTtl c) as [[]|], seen. Qed.

Lemma downgrade_monotone l : forall seen, (map_nodes downgrade_late_hour (seen, true) l).2.2 = true.
Proof.
  induction l as [|c l IH]; intros seen; [done|]. cbn [map_nodes]. unfold downgrade_late_hour at 1.
  destruct (ephemeralCacheTtl c) as [[]|]; try destruct seen;
    match goal with |- context [map_nodes _ (?s, _) l] => specialize (IH s); destruct (map_nodes _ _ l) end; exact IH.
Qed.

Lemma downgrade_list l : forall seen ch l' s' ch', map_nodes downgrade_late_hour (seen, ch) l = (l', (s', ch')) ->
  Forall2 downgraded l l' /\ ordered_from seen (map ephemeralCacheTtl l') /\
  (ch' = false -> l' = l) /\
  (ordered_from seen (map ephemeralCacheTtl l) -> l' = l /\ ch' = ch).
Proof.
  induction l as [|c l IH]; intros seen ch l' s' ch'; [intros [= <- <- <-]; cbn; repeat split; constructor|].
  cbn [map_nodes map]. unfold downgrade_late_hour at 1.
  destruct (ephemeralCacheTtl c) as [[]|] eqn:E; [destruct seen| |];
    match goal with |- context [map_nodes _ (?a, ?b) l] =>
      pose proof (downgrade_monotone l a) as Hm; destruct (map_nodes _ (a, b) l) as [r [s2 c2]] eqn:Er;
      apply IH in Er as (H1 & H2 & H3 & H4) end;
    intros [= <- <- <-]; cbn [map ordered_from fst snd] in *; rewrite ?E;
    (split; [constructor; [unfold downgraded; auto|exact H1]|]); (split; [cbn; auto|]); split.
  1: intros Hf; congruence.
  1: by intros [? _].
  all: first [intros Hf; by rewrite H3|intros Ho; destruct H4 as [-> ->]; [naive_solver|done]].
Qed.

Lemma record_list l : forall acc, map_nodes record_ttl acc l = (l, acc ++ map ephemeralCacheTtl l).
Proof.
  induction l as [|c l IH]; intros acc; [by rewrite app_nil_r|]. cbn [map_nodes map]. unfold record_ttl at 1.
  rewrite IH. by rewrite <- app_assoc.
Qed.

Lemma upgrade_list n l : forall idx, (map_nodes (upgrade_early_five n) idx l).1 =
  imap (fun i c => (upgrade_early_five n (idx + i) c).1) l.
Proof.
  induction l as [|c l IH]; intros idx; [done|]. cbn [map_nodes imap].
  unfold upgrade_early_five at 1. specialize (IH (S idx)).
  destruct (map_nodes (upgrade_early_five n) (S idx) l) as [l' s']. cbn [fst] in *. subst l'.
  rewrite Nat.add_0_r. f_equal. apply imap_ext. intros i x _. cbn. by replace (idx + S i)%nat with (S (idx + i)) by lia.
Qed.

(** The index of the last ['1h']. *)
Lemma last_hour_spec l : match last_hour l with
  | Some n => l !! n = Some (Some Hour) /\ forall j, (n < j)%nat -> l !! j <> Some (Some Hour)
  | None => forall j, l !! j <> Some (Some Hour)
  end.
Proof.
  induction l as [|x l IH] using rev_ind; [done|]. unfold last_hour in *.
  rewrite imap_app, foldl_app. cbn [imap foldl fst snd]. rewrite Nat.add_0_r.
  destruct (bool_decide (x = Some Hour)) eqn:E.
  - apply bool_decide_eq_true in E as ->. split; [by rewrite list_lookup_middle|].
    intros j Hj. rewrite lookup_ge_None_2; [done|]. rewrite length_app. cbn. lia.
  - apply bool_decide_eq_false in E. destruct (foldl _ None _) as [n|].
    + destruct IH as [H1 H2]. split; [by apply lookup_app_l_Some|]. intros j Hj.
      rewrite lookup_app. destruct (l !! j) as [y|] eqn:Ej; [by rewrite <- Ej; apply H2|].
      destruct (j - length l)%nat as [|k]; cbn; [congruence|done].
    + intros j. rewrite lookup_app. destruct (l !! j) as [y|] eqn:Ej; [by rewrite <- Ej; apply IH|].
      destruct (j - length l)%nat as [|k]; cbn; [congruence|done].
Qed.

Lemma upgrade_truthy n s c : truthy c = true -> truthy (upgrade_early_five n s c).1 = true.
Proof. intros H. unfold upgrade_early_five. cbn. by destruct (_ && _). Qed.

(** What the [honorHour] pass does to a breakpoint. *)
Definition upgraded (c c' : jsval) : Prop :=
  c' = c \/ (ephemeralCacheTtl c = Some Five /\ c' = ephemeral (ttl_val Hour)).

(** The closed form of the [honorHour] pass on the breakpoints. *)
Lemma honor_hour_list l n :
  last_hour (map ephemeralCacheTtl l) = Some n ->
  let l' := imap (fun i c => (upgrade_early_five n i c).1) l in
  Forall2 upgraded l l' /\ ttl_ordered (map ephemeralCacheTtl l').
Proof.
  intros Hn l'. pose proof (last_hour_spec (map ephemeralCacheTtl l)) as H. rewrite Hn in H. destruct H as [H1 H2].
  split.
  - apply Forall2_same_length_lookup_2; [by unfold l'; rewrite length_imap|].
    intros i x y Hx Hy. unfold l' in Hy. rewrite list_lookup_imap, Hx in Hy. injection Hy as <-.
    unfold upgrade_early_five, upgraded. cbn. destruct (_ && _) eqn:E; [|by left].
    apply andb_true_iff in E as [_ E]. apply bool_decide_eq_true in E. by right.
  - intros i j Hij Hi Hj. unfold l' in *. rewrite !list_lookup_fmap, list_lookup_imap in *.
    destruct (l !! i) as [ci|] eqn:Ei; [|done]. destruct (l !! j) as [cj|] eqn:Ej; [|done].
    cbn [fmap option_fmap option_map] in Hi, Hj. unfold upgrade_early_five in Hi, Hj. cbn [fst] in Hi, Hj.
    injection Hi as Hi. injection Hj as Hj.
    assert (Hn' : (n <= i)%nat /\ ephemeralCacheTtl ci = Some Five).
    { destruct (i <? n)%nat eqn:El; cbn [andb] in Hi.
      - destruct (bool_decide (ephemeralCacheTtl ci = Some Five)) eqn:Ef; [change (Some Hour = Some Five) in Hi; done|]. apply bool_decide_eq_false in Ef. by destruct Ef.
      - apply Nat.ltb_ge in El. by split. }
    destruct Hn' as [Hn' _]. rewrite (proj2 (Nat.ltb_ge j n)) in Hj by lia. cbn [andb] in Hj.
    apply (H2 j); [lia|]. by rewrite list_lookup_fmap, Ej, <- Hj.
Qed.

(** What [enforceCacheTtlOrder] leaves, in both modes. *)
Lemma enforce_breakpoints f h : let body := JObj f in let out := enforceCacheTtlOrder body h in
  ttl_ordered (map ephemeralCacheTtl (breakpoints out)) /\
  Forall2 (if h then upgraded else downgraded) (breakpoints body) (breakpoints out) /\
  (ttl_ordered (map ephemeralCacheTtl (breakpoints body)) -> out = body).
Proof.
  intros body out. subst out. assert (Ha : is_obj body = true) by done.
  unfold enforceCacheTtlOrder. replace (is_object body) with true by done. cbn [negb].
  assert (Hrefl : Forall2 (if h then upgraded else downgraded) (breakpoints body) (breakpoints body)).
  { apply Forall_Forall2_diag, Forall_forall. intros x _. destruct h; by left. }
  destruct h.
  - unfold honorHourCacheTtlOrder.
    pose proof (walk_acts record_ttl (fun s c H => H) [] body Ha) as Hw. rewrite record_list in Hw.
    injection Hw as _ Hs. rewrite Hs. cbn [app].
    pose proof (last_hour_spec (map ephemeralCacheTtl (breakpoints body))) as Hl.
    destruct (last_hour _) as [n|] eqn:En.
    2:{ split; [|done]. intros i j _ _. apply Hl. }
    destruct (existsb _ _) eqn:Ef.
    + apply honor_hour_list in En as [H1 H2].
      pose proof (walk_acts (upgrade_early_five n) (upgrade_truthy n) 0%nat body Ha) as Hu.
      apply (f_equal fst) in Hu. cbn [fst] in Hu. rewrite upgrade_list in Hu. cbn [Nat.add] in Hu. rewrite Hu.
      split; [exact H2|]. split; [exact H1|]. intros Ho. exfalso.
      apply existsb_exists in Ef as (t & Ht & E). apply bool_decide_eq_true in E as ->.
      apply list_elem_of_In, list_elem_of_lookup in Ht as (i & Hi). apply lookup_take_Some in Hi as [Hi Hlt].
      destruct Hl as [Hl _]. by apply (Ho i n).
    + split; [|done]. intros i j Hij Hi Hj. destruct Hl as [_ Hl].
      assert (Hin : (j <= n)%nat). { destruct (decide (n < j)%nat); [by destruct (Hl j)|lia]. }
      assert (Hx : existsb (fun t => bool_decide (t = Some Five)) (take n (map ephemeralCacheTtl (breakpoints body))) = true); [|congruence].
      apply existsb_exists. exists (Some Five). split; [|done].
      apply list_elem_of_In, list_elem_of_lookup. exists i. rewrite lookup_take_Some. split; [done|lia].
  - pose proof (walk_acts downgrade_late_hour downgrade_truthy (false, false) body Ha) as Hw.
    destruct (walkCacheNodes _ _ body) as [o [s' ch]]. cbn [fst snd] in Hw.
    symmetry in Hw. apply downgrade_list in Hw as (H1 & H2 & H3 & H4).
    apply ordered_from_false in H2. destruct ch.
    + split; [exact H2|]. split; [exact H1|]. intros Ho. by destruct (H4 (proj2 (ordered_from_false _) Ho)).
    + rewrite (H3 eq_refl) in H2. done.
Qed.

(** C25: The ordering pass makes every request acceptable and changes as little as it can: in
    both modes no 1h breakpoint follows a 5m one, the breakpoints stay where they were, a
    changed one is a 1h lowered (or, honouring the hour, a 5m raised), a request that is
    already in order is untouched, and so a second pass does nothing. *)
Theorem enforce_ttl_order f h :
  ttl_ordered (map ephemeralCacheTtl (breakpoints (enforceCacheTtlOrder (JObj f) h))) /\
  Forall2 (if h then upgraded else downgraded) (breakpoints (JObj f)) (breakpoints (enforceCacheTtlOrder (JObj f) h)) /\
  (ttl_ordered (map ephemeralCacheTtl (breakpoints (JObj f))) -> enforceCacheTtlOrder (JObj f) h = JObj f) /\
  enforceCacheTtlOrder (enforceCacheTtlOrder (JObj f) h) h = enforceCacheTtlOrder (JObj f) h.
Proof.
  destruct (enforce_breakpoints f h) as (H1 & H2 & H3). split; [exact H1|]. split; [exact H2|]. split; [exact H3|].
  assert (Ho : is_obj (enforceCacheTtlOrder (JObj f) h) = true).
  { unfold enforceCacheTtlOrder, honorHourCacheTtlOrder. cbn [is_object negb]. destruct h.
    - destruct (last_hour _); [|done]. destruct (existsb _ _); [apply walk_is_obj|done].
    - pose proof (walk_is_obj (on_control downgrade_late_hour) (false, false) (JObj f)) as Hw.
      destruct (walkCacheNodes _ _ _) as [o [s []]]; [exact Hw|done]. }
  destruct (enforceCacheTtlOrder (JObj f) h) as [| | | | | |f'] eqn:E; try discriminate Ho.
  by apply (enforce_breakpoints f' h).
Qed.

(** ** The budget of placed breakpoints *)

Definition ephemeral_of (P : ttl -> Prop) (c : jsval) : Prop := exists t, P t /\ c = ephemeral (ttl_val t).

(** A list of nodes that carries nothing, after one of them has been stamped. *)
Lemma stamped_controls (c : jsval -> list jsval) (f : jsval -> jsval) (Q : jsval -> Prop) i l :
  flat_map c l = [] -> (forall x, c x = [] -> (length (c (f x)) <= 1)%nat /\ Forall Q (c (f x))) ->
  (length (flat_map c (update_at i f l)) <= 1)%nat /\ Forall Q (flat_map c (update_at i f l)).
Proof.
  intros Hl Hf. unfold update_at. revert i Hl. induction l as [|x l IH]; intros i Hl; [destruct i; (split; [cbn; lia|by apply Forall_nil])|].
  cbn [flat_map] in Hl. apply app_eq_nil in Hl as [Hx Hl]. destruct i as [|i]; cbn [alter list_alter flat_map].
  - rewrite Hl, app_nil_r. by apply Hf.
  - rewrite Hx. cbn [app]. by apply IH.
Qed.

Lemma stampNode_control t x : node_control x = [] -> (length (node_control (stampNode x t)) <= 1)%nat /\
  Forall (ephemeral_of (eq t)) (node_control (stampNode x t)).
Proof.
  intros Hx. unfold stampNode. destruct (is_object x) eqn:Eo; cbn [negb]; [|unfold node_control; rewrite Eo; split; [cbn; lia|constructor]].
  unfold node_control in Hx. rewrite Eo in Hx. cbn [andb] in Hx. destruct (truthy (x?."cache_control")) eqn:Et; [done|].
  unfold politeEphemeral. assert (is_object (x?."cache_control") = false) as -> by (by destruct (x?."cache_control")).
  cbn [negb]. unfold node_control. rewrite get_with_own_eq. cbn [is_object with_own andb truthy].
  split; [cbn; lia|]. constructor; [|constructor]. by exists t.
Qed.

Lemma stamp_message_control t m : message_controls m = [] -> (length (message_controls (stamp_message t m)) <= 1)%nat /\
  Forall (ephemeral_of (eq t)) (message_controls (stamp_message t m)).
Proof.
  intros Hm. unfold stamp_message, message_controls, controls_of in *. destruct (is_object m) eqn:Eo; cbn [negb]; [|rewrite Hm; split; [cbn; lia|constructor]].
  destruct (m?."content") as [| | | |s|[|x r]|] eqn:Ec; try (rewrite Ec; split; [cbn; lia|constructor]).
  - rewrite get_with_field_eq. split; [cbn; lia|]. constructor; [|constructor]. by exists t.
  - rewrite get_with_field_eq. cbn [arr_of].
    apply (stamped_controls node_control (fun b => stampNode b t) _ _ (x :: r) Hm). intros y. apply stampNode_control.
Qed.

Lemma without_control b : node_control (drop_block b) = [].
Proof.
  unfold drop_block, node_control. destruct (is_object b) eqn:Eo; cbn [negb orb andb]; [|by rewrite Eo].
  destruct (truthy _) eqn:Et; cbn [negb]; [|by rewrite Eo, Et]. rewrite get_without_eq. by rewrite andb_false_r.
Qed.

Lemma dropped_controls l : flat_map message_controls (dropMessageBreakpoints l) = [].
Proof.
  unfold dropMessageBreakpoints. induction l as [|m l IH]; [done|]. cbn [map flat_map]. rewrite IH, app_nil_r.
  unfold message_controls, drop_message, controls_of. destruct (m?."content") eqn:E; try by rewrite E.
  rewrite get_with_field_eq. cbn [arr_of]. clear E. induction l0 as [|b bs IHb]; [done|]. cbn [map flat_map].
  by rewrite without_control.
Qed.

(** Stamping a list of messages once more adds at most one. *)
Lemma stamp_more t i l : (length (flat_map message_controls (stampMessageTail l i t)) <= S (length (flat_map message_controls l)))%nat.
Proof.
  unfold stampMessageTail, update_at. revert i. induction l as [|m l IH]; intros i; [destruct i; cbn; lia|].
  destruct i as [|i]; cbn [alter list_alter flat_map]; rewrite !length_app; [|specialize (IH i); lia].
  enough (length (message_controls (stamp_message t m)) <= S (length (message_controls m)))%nat by lia.
  unfold stamp_message, message_controls, controls_of. destruct (is_object m); cbn [negb]; [|lia].
  destruct (m?."content") as [| | | |s|[|x r]|] eqn:Ec; try (rewrite Ec; cbn; lia); rewrite get_with_field_eq; cbn [arr_of]; [cbn; lia|].
  generalize (x :: r). intros k. generalize (length k - 1)%nat. intros j. unfold update_at. revert j.
  induction k as [|b k IHk]; intros j; [destruct j; cbn; lia|].
  destruct j as [|j]; cbn [alter list_alter flat_map]; rewrite !length_app; [|specialize (IHk j); lia].
  assert (forall y, (length (node_control y) <= 1)%nat) as H1 by (intros y; unfold node_control; destruct (_ && _); cbn; lia).
  specialize (H1 (stampNode b t)). lia.
Qed.

(** A step that rewrites one array of the body and leaves at most one breakpoint in it. *)
Definition rewrites (k : string) (a b : jsval) : Prop := is_obj b = true /\ forall k', k' <> k -> b?.k' = a?.k'.

Lemma rewrites_refl k a : is_obj a = true -> rewrites k a a.
Proof. by split. Qed.

Lemma rewrites_with k a v : rewrites k a (with_field a k v).
Proof. split; [done|]. intros k' H. by apply get_with_field_ne. Qed.

Definition placed (n : nat) (l : list jsval) : Prop := (length l <= n)%nat /\ Forall (ephemeral_of (fun _ => True)) l.

Lemma placed_nil n : placed n [].
Proof. split; [cbn; lia|by apply Forall_nil]. Qed.

Lemma placed_weaken t l : (length l <= 1)%nat -> Forall (ephemeral_of (eq t)) l -> placed 1 l.
Proof. intros Hl H. split; [exact Hl|]. eapply Forall_impl; [exact H|]. intros c (t' & _ & ->). by exists t'. Qed.

Lemma placed_app n m a b : placed n a -> placed m b -> placed (n + m) (a ++ b).
Proof. intros [H1 H2] [H3 H4]. split; [rewrite length_app; lia|by apply Forall_app]. Qed.

Lemma stamped_at l i t : flat_map node_control l = [] ->
  placed 1 (flat_map node_control (update_at i (fun b => stampNode b t) l)).
Proof.
  intros H. destruct (stamped_controls node_control (fun b => stampNode b t) (ephemeral_of (eq t)) i l H) as [H1 H2].
  - intros x. apply stampNode_control.
  - by apply (placed_weaken t).
Qed.

Lemma deferred_controls l : flat_map node_control l = [] -> flat_map node_control (map drop_deferred l) = [].
Proof.
  induction l as [|x l IH]; [done|]. cbn [flat_map map]. intros H. apply app_eq_nil in H as [Hx Hl].
  rewrite IH, app_nil_r by done. unfold drop_deferred. destruct (negb _ || _) eqn:E; [done|].
  unfold node_control. by rewrite get_without_eq, andb_false_r.
Qed.

Lemma tools_step a t : is_obj a = true -> controls_of (a?."tools") = [] ->
  rewrites "tools" a (injectToolsTailBreakpoint a t) /\ placed 1 (controls_of (injectToolsTailBreakpoint a t?."tools")).
Proof.
  intros Ho H. unfold injectToolsTailBreakpoint. replace (is_object a) with true by (by destruct a). cbn [negb].
  unfold stripDeferredToolCacheControl.
  destruct (a?."tools") eqn:E; cbv beta iota zeta; rewrite ?E; cbv beta iota;
    try (rewrite ?E; split; [by apply rewrites_refl|apply placed_nil]).
  rewrite get_with_field_eq. unfold controls_of in H. cbn [arr_of] in H. apply deferred_controls in H.
  destruct (last_index markable _) as [i|].
  - split.
    + destruct (rewrites_with "tools" (with_field a "tools" (JArr (map drop_deferred l)))
        (JArr (update_at i (fun x => stampNode x (normalizeCacheTtl t)) (map drop_deferred l)))) as [H1 H2].
      split; [exact H1|]. intros k Hk. rewrite H2 by done. by apply get_with_field_ne.
    + rewrite get_with_field_eq. by apply stamped_at.
  - split; [apply rewrites_with|]. rewrite get_with_field_eq. unfold controls_of. cbn [arr_of]. rewrite H. apply placed_nil.
Qed.

Lemma system_inject a t : is_obj a = true -> controls_of (a?."system") = [] ->
  rewrites "system" a (injectSystemTailBreakpoint a t) /\ placed 1 (controls_of (injectSystemTailBreakpoint a t?."system")).
Proof.
  intros Ho H. unfold injectSystemTailBreakpoint. replace (is_object a) with true by (by destruct a). cbn [negb].
  destruct (a?."system") as [| | | | |[|x r]|] eqn:E; try (rewrite E; (split; [by apply rewrites_refl|apply placed_nil])).
  split; [apply rewrites_with|]. rewrite get_with_field_eq. by apply (stamped_at (x :: r)).
Qed.

Lemma system_step cfg caller target a : is_obj a = true -> controls_of (a?."system") = [] ->
  rewrites "system" a (place_system cfg caller target a) /\ placed 1 (controls_of (place_system cfg caller target a?."system")).
Proof.
  intros Ho H. unfold place_system.
  assert (Hid : rewrites "system" a a /\ placed 1 (controls_of (a?."system"))).
  { split; [by apply rewrites_refl|]. rewrite H. apply placed_nil. }
  destruct (hasSystemBreakpoint _); [done|]. destruct (truthy caller); [by apply system_inject|].
  destruct (_ && _); [by apply system_inject|done].
Qed.

(** The indices of the user turns decrease from below the number of messages. *)
Lemma user_turns_app l m :
  user_turns (l ++ [m]) = (if is_str (m?."role") "user" then [length l] else []) ++ user_turns l.
Proof.
  unfold user_turns. rewrite imap_app, rev_app_distr. cbn [imap rev app List.filter snd].
  rewrite Nat.add_0_r. by destruct (is_str _ _).
Qed.

Lemma user_turns_spec l : Forall (fun i => (i < length l)%nat) (user_turns l) /\
  forall a i r, user_turns l = a :: i :: r -> (i < a)%nat.
Proof.
  induction l as [|m l [IH1 IH2]] using rev_ind; [by split; [apply Forall_nil|]|]. rewrite user_turns_app, length_app.
  assert (Hw : Forall (fun i => (i < length l + length [m])%nat) (user_turns l)).
  { eapply Forall_impl; [exact IH1|]. cbn. lia. }
  destruct (is_str _ _); cbn [app]; split; try done.
  - constructor; [cbn; lia|exact Hw].
  - intros a i r [= <- E]. rewrite E in IH1. by apply Forall_cons in IH1 as [H _].
Qed.

Lemma penultimate_not_last l i : penultimateUserIndex l = Some i -> i <> (length l - 1)%nat.
Proof.
  unfold penultimateUserIndex. destruct (_ <? _)%nat; [done|]. destruct (user_turns_spec l) as [H1 H2].
  destruct (user_turns l) as [|a [|b r]]; try done. intros [= ->].
  apply Forall_cons in H1 as [Ha _]. specialize (H2 a i r eq_refl). lia.
Qed.

(** Stamping two different messages of a list without breakpoints. *)
Lemma stamp_two t l i j : i <> j -> flat_map message_controls l = [] ->
  placed 2 (flat_map message_controls (stampMessageTail (stampMessageTail l i t) j t)).
Proof.
  intros Hij Hl. split.
  - etransitivity; [apply stamp_more|]. apply le_n_S.
    destruct (stamped_controls message_controls (stamp_message t) (ephemeral_of (eq t)) i l Hl) as [H _]; [|exact H].
    intros x. apply stamp_message_control.
  - assert (Hc : forall k x, l !! k = Some x -> message_controls x = []).
    { intros k x Hk. apply list_elem_of_lookup_2, list_elem_of_split in Hk as (l1 & l2 & ->).
      rewrite flat_map_app in Hl. apply app_eq_nil in Hl as [_ Hl]. cbn in Hl. by apply app_eq_nil in Hl as [Hl _]. }
    apply Forall_flat_map, Forall_lookup. intros k x Hk. unfold stampMessageTail, update_at in Hk.
    assert (Hx : exists y, l !! k = Some y /\ (x = y \/ x = stamp_message t y)).
    { destruct (decide (k = j)) as [->|Hj]; [rewrite list_lookup_alter_eq, list_lookup_alter_ne in Hk by done|
        rewrite list_lookup_alter_ne in Hk by done; destruct (decide (k = i)) as [->|Hi];
          [rewrite list_lookup_alter_eq in Hk|rewrite list_lookup_alter_ne in Hk by done]];
        destruct (l !! _) as [y|]; try done; exists y; split; try done; cbn in Hk; injection Hk as <-; auto. }
    destruct Hx as (y & Hy & [->| ->]); apply Hc in Hy.
    + rewrite Hy. by apply Forall_nil.
    + eapply Forall_impl; [apply (stamp_message_control t y Hy)|]. intros c (t' & _ & ->). by exists t'.
Qed.

Lemma restamp_placed resolved target l : (resolved = Fill -> flat_map message_controls l = []) ->
  placed 2 (flat_map message_controls (restamp_messages resolved target l)).
Proof.
  intros H. unfold restamp_messages. set (messages := if bool_decide _ then l else _).
  assert (Hm : flat_map message_controls messages = []).
  { subst messages. destruct (bool_decide _) eqn:E; [apply bool_decide_eq_true in E; by apply H|apply dropped_controls]. }
  clearbody messages. destruct (bool_decide _); [rewrite Hm; apply placed_nil|]. cbv zeta.
  destruct (penultimateUserIndex _) as [i|] eqn:Ep.
  - apply stamp_two; [|exact Hm]. apply penultimate_not_last in Ep. unfold stampMessageTail, update_at in Ep.
    by rewrite length_alter in Ep.
  - destruct (stamped_controls message_controls (stamp_message target) (ephemeral_of (eq target)) (length messages - 1) messages Hm) as [H1 H2];
      [intros x; apply stamp_message_control|]. destruct (placed_weaken target _ H1 H2) as [H3 H4]. split; [|exact H4].
    unfold stampMessageTail. lia.
Qed.

Lemma messages_step a t mode : is_obj a = true -> flat_map message_controls (arr_of (a?."messages")) = [] ->
  rewrites "messages" a (applyMessageBreakpoints a t mode) /\
  placed 2 (flat_map message_controls (arr_of (applyMessageBreakpoints a t mode?."messages"))).
Proof.
  intros Ho H. assert (Hid : rewrites "messages" a a /\ placed 2 (flat_map message_controls (arr_of (a?."messages")))).
  { split; [by apply rewrites_refl|]. rewrite H. apply placed_nil. }
  unfold applyMessageBreakpoints. replace (is_object a) with true by (by destruct a). cbn [negb].
  destruct (bool_decide _); [exact Hid|].
  destruct (a?."messages") as [| | | | |[|x r]|] eqn:E; try (rewrite ?E; exact Hid).
  destruct (_ && _); [rewrite E; exact Hid|]. split; [apply rewrites_with|]. rewrite get_with_field_eq. cbn [arr_of].
  apply restamp_placed. by intros _.
Qed.

(** Rewriting every lifetime of ephemeral breakpoints gives one lifetime, which is in order. *)
Lemma uniform_in_order body t : is_obj body = true ->
  Forall (ephemeral_of (fun _ => True)) (breakpoints body) ->
  map ephemeralCacheTtl (breakpoints (applyCacheTtlToBody body t))
  = List.repeat (Some (normalizeCacheTtl t)) (length (breakpoints body)).
Proof.
  intros Ho H. unfold applyCacheTtlToBody. replace (is_object body) with true by (by destruct body). cbn [negb].
  rewrite walk_pure; [|by destruct body|].
  - rewrite map_map. induction H as [|c l (t' & _ & ->) _ IH]; [done|]. cbn [map length List.repeat]. rewrite IH. f_equal.
    by destruct t', (normalizeCacheTtl t).
  - intros c Hc. unfold setEphemeralTtl. destruct (negb _); [done|]. by destruct (other_kind c).
Qed.

Lemma repeat_ordered t n : ttl_ordered (List.repeat (Some t) n).
Proof.
  intros i j _ Hi Hj. apply list_elem_of_lookup_2, list_elem_of_In, repeat_spec in Hi, Hj. congruence.
Qed.

Lemma placed_breakpoints f t config inbound : breakpoints (JObj f) = [] ->
  exists out, applyCacheBreakpoints (JObj f) t config inbound = Some out /\ is_obj out = true /\ placed 4 (breakpoints out).
Proof.
  intros Hb. unfold applyCacheBreakpoints. destruct (cb_enabled _); cbn [negb];
    [|exists (JObj f); split; [done|]; split; [done|]; rewrite Hb; apply placed_nil].
  cbn [is_nullish]. eexists. split; [reflexivity|].
  unfold breakpoints in Hb. apply app_eq_nil in Hb as [Htop Hb]. apply app_eq_nil in Hb as [Htools Hb].
  apply app_eq_nil in Hb as [Hsys Hmsg].
  set (a := JObj f) in *. assert (Ha : is_obj a = true) by done. clearbody a. cbv zeta.
  set (target := highestInboundCacheTtl _ _). set (cfg := normalizeCacheBreakpoints config).
  set (caller := if cb_preserve_client cfg then _ else _). set (a1 := if cb_tools_tail cfg then _ else a).
  assert (H1 : rewrites "tools" a a1 /\ placed 1 (controls_of (a1?."tools"))).
  { subst a1. destruct (cb_tools_tail cfg); [by apply tools_step|]. split; [by apply rewrites_refl|]. rewrite Htools. apply placed_nil. }
  clearbody a1. destruct H1 as [[Ho1 F1] P1]. rewrite <- (F1 "system") in Hsys by done. rewrite <- (F1 "messages") in Hmsg by done.
  destruct (system_step cfg caller target a1 Ho1 Hsys) as [[Ho2 F2] P2].
  generalize dependent (place_system cfg caller target a1). intros a2 Ho2 F2 P2.
  rewrite <- (F2 "messages") in Hmsg by done.
  destruct (messages_step a2 (ttl_val target) (JStr (mode_string (cb_messages cfg))) Ho2 Hmsg) as [[Ho3 F3] P3].
  split; [exact Ho3|]. unfold breakpoints, top_control. rewrite !F3, !F2, !F1 by done.
  fold (top_control a). rewrite Htop. cbn [app].
  apply (placed_app 1 3); [exact P1|]. by apply (placed_app 1 2).
Qed.

(** The breakpoints the gateway places in a request that has none fit the provider's
    rules: placing succeeds, there are never more than four, every one is an ephemeral marker,
    and once the request's lifetime is applied to them they all have it, so the ordering pass
    has nothing left to do. *)
Theorem breakpoints_budget f t config inbound t' :
  breakpoints (JObj f) = [] ->
  exists out, applyCacheBreakpoints (JObj f) t config inbound = Some out /\
    (length (breakpoints out) <= 4)%nat /\
    Forall (fun c => exists l, c = ephemeral (ttl_val l)) (breakpoints out) /\
    map ephemeralCacheTtl (breakpoints (applyCacheTtlToBody out t'))
      = List.repeat (Some (normalizeCacheTtl t')) (length (breakpoints out)) /\
    enforceCacheTtlOrder (applyCacheTtlToBody out t') false = applyCacheTtlToBody out t'.
Proof.
  intros Hb. destruct (placed_breakpoints f t config inbound Hb) as (out & E & Ho & Hl & Hk).
  exists out. split; [exact E|]. split; [exact Hl|]. split; [|].
  - eapply Forall_impl; [exact Hk|]. intros c (l & _ & ->). by exists l.
  - pose proof (uniform_in_order out t' Ho Hk) as Hu. split; [exact Hu|].
    unfold applyCacheTtlToBody in *. replace (is_object out) with true in * by (by destruct out). cbn [negb] in *.
    pose proof (walk_is_obj (pure_control (setEphemeralTtl (normalizeCacheTtl t'))) tt out) as Hw.
    destruct (walkCacheNodes _ _ _) as [[| | | | | |g] []]; try done. cbn [fst] in *.
    apply (enforce_breakpoints g false). rewrite Hu. apply repeat_ordered.
Qed.

Lemma breakpoints_budget_witness : breakpoints sample_body = [] /\
  exists out, applyCacheBreakpoints sample_body (JStr "5m") JUndef JUndef = Some out /\ (length (breakpoints out) <= 4)%nat.
Proof.
  split; [reflexivity|].
  destruct (breakpoints_budget (fields_of sample_body) (JStr "5m") JUndef JUndef JUndef) as (out & H1 & H2 & _); [reflexivity|].
  by exists out.
Defined.
