(* ===== verification/Rectifier.v ===== *)
(** * Request repair (src/src/lib/protocol/request-rectifier.mjs and
    [repairAnthropicRequest] of src/src/lib/pool/upstream-error-policy.mjs)

    The rewritings of a request body that a 400 answer asks for.  [structuredClone] is the
    identity on values. *)

From S2P Require Import Prelude.
From S2P Require Import JsValue.
From S2P Require Import JsRegex.
From S2P Require Import JsText.
From S2P Require Import JsJson.
From S2P Require Import WebSearch.
From S2P Require Import CacheTtl.
From S2P Require Import CacheOrder.
#[local] Open Scope string_scope.
#[local] Open Scope list_scope.
#[local] Open Scope js_scope.

Definition CONTINUE_USER_TEXT : string := "continue".
Definition MISSING_TOOL_RESULT_TEXT : string := "Tool result unavailable.".
Definition SEARCH_HISTORY_TEXT_LIMIT : nat := Z.to_nat 8000.

Definition text_block (text : string) : jsval := JObj [("type", JStr "text"); ("text", JStr text)].

Definition asBlocks (content : jsval) : list jsval :=
  match content with
  | JArr l => l
  | JStr s => [text_block s]
  | _ => []
  end.

(** The id a block contributes. *)
Definition tool_use_id (block : jsval) : option string :=
  if is_str (block?."type") "tool_use" && truthy (block?."id") then Some (to_string (block?."id")) else None.
Definition tool_result_id (block : jsval) : option string :=
  if is_str (block?."type") "tool_result" && truthy (block?."tool_use_id")
  then Some (to_string (block?."tool_use_id")) else None.

Definition collectToolUseIds (content : jsval) : list string := omap tool_use_id (asBlocks content).
Definition collectToolResultIds (content : jsval) : list string := omap tool_result_id (asBlocks content).

Definition placeholderResult (toolUseId : string) : jsval :=
  JObj [("type", JStr "tool_result"); ("tool_use_id", JStr toolUseId); ("content", JStr MISSING_TOOL_RESULT_TEXT)].

Definition role_of (message : jsval) : string := str_or_empty (message?."role").

(** The answers added in front of a user turn. *)
Definition add_results (extras : list jsval) (message : jsval) : jsval :=
  match message?."content" with
  | JArr l => with_field message "content" (JArr (extras ++ l))
  | JStr s => with_field message "content" (JArr (extras ++ [text_block s]))
  | _ => with_field message "content" (JArr extras)
  end.

Definition missing_results (pending : list string) (message : jsval) : list string :=
  List.filter (fun id => negb (mem id (collectToolResultIds (message?."content")))) pending.

(** The loop of [pairMissingToolResults] on the copied messages: the messages, what is
    pending at the end, and [changed]. *)
Fixpoint pair_loop (pending : list string) (changed : bool) (l : list jsval) : list jsval * list string * bool :=
  match l with
  | [] => ([], pending, changed)
  | message :: r =>
    let '(message, pending, changed) :=
      if String.eqb (role_of message) "assistant"
      then (message, pending ++ collectToolUseIds (message?."content"), changed)
      else if negb (String.eqb (role_of message) "user") || (length pending =? 0)%nat then (message, pending, changed)
      else match missing_results pending message with
           | [] => (message, [], changed)
           | missing => (add_results (map placeholderResult missing) message, [], true)
           end in
    let '(r, pending, changed) := pair_loop pending changed r in
    (message :: r, pending, changed)
  end.

Definition user_message (content : jsval) : jsval := JObj [("role", JStr "user"); ("content", content)].

Definition pairMissingToolResults (body : jsval) : jsval :=
  match body?."messages" with
  | JArr ((_ :: _) as l) =>
    let '(messages, pending, changed) := pair_loop [] false (map own l) in
    let '(messages, changed) :=
      if (length pending =? 0)%nat then (messages, changed)
      else (messages ++ [user_message (JArr (map placeholderResult pending))], true) in
    if changed then with_field body "messages" (JArr messages) else body
  | _ => body
  end.

Definition ensureConversationEndsWithUser (body : jsval) : jsval :=
  match body?."messages" with
  | JArr ((_ :: _) as l) =>
    if negb (String.eqb (role_of (List.last l JUndef)) "assistant") then body
    else with_field body "messages" (JArr (l ++ [user_message (JArr [text_block CONTINUE_USER_TEXT])]))
  | _ => body
  end.

(** [out.type] is object and [additionalProperties] is missing. *)
Definition open_object (f : fields) : bool :=
  String.eqb (to_lower (str_or_empty (assoc "type" f))) "object" && is_nullish (assoc "additionalProperties" f).

(** The recursion on a field: by its name, as the source's successive assignments. *)
Fixpoint fillObjectSchema (node : jsval) : jsval :=
  match node with
  | JArr l => JArr (map fillObjectSchema l)
  | JObj f =>

    let filled := map (fun p =>
      (p.1,
       if String.eqb p.1 "properties" then
         match p.2 with
         | JObj g => JObj (map (fun q => (q.1, fillObjectSchema q.2)) g)
         | JArr l => JObj (imap (fun i x => (Z_to_string (Z.of_nat i), x)) (map fillObjectSchema l))
         | v => v
         end
       else if mem p.1 ["items"; "schema"; "format"] then fillObjectSchema p.2
       else if mem p.1 ["anyOf"; "oneOf"] then match p.2 with JArr l => JArr (map fillObjectSchema l) | v => v end
       else p.2)) f in
    JObj (if open_object f then set_field "additionalProperties" (JBool false) filled else filled)
  | v => v
  end.

Definition ensureOutputConfigSchema (body : jsval) : jsval :=
  let config := body?."output_config" in
  if negb (is_object config) then body
  else
    let next := fillObjectSchema config in
    if bool_decide (stringify next = stringify config) then body else with_field body "output_config" next.

(** ** Replayed search history *)

Definition plainText (content : jsval) : string :=
  match content with
  | JStr s => s
  | JArr l =>
    join newline (List.filter nonempty
      (map (fun block => match block with
                         | JStr s => s
                         | _ => if is_str (block?."type") "text" then str_or_empty (block?."text") else ""
                         end) l))
  | _ => ""
  end.

Definition clip (text : string) : string :=
  let raw := trim text in
  if (String.length raw <=? SEARCH_HISTORY_TEXT_LIMIT)%nat then raw
  else (take_chars SEARCH_HISTORY_TEXT_LIMIT raw ++ "…")%string.

Definition searchResultLine (result : jsval) (index : nat) : string :=
  let number := (Z_to_string (Z.of_nat index + 1) ++ ". ")%string in
  if negb (is_object result) then (number ++ "result")%string
  else
    let title := trim (str_or_empty (result?."title")) in
    let url := trim (to_string (result?."url" ||| result?."source" ||| JStr "")) in
    let head := join " — " (List.filter nonempty [title; url]) in
    let head := if nonempty head then head else "result" in
    let body := clip (plainText (result?."content")) in
    if nonempty body then (number ++ head ++ newline ++ body)%string else (number ++ head)%string.

Definition searchArtifactText (block : jsval) : string :=
  let type := str_or_empty (block?."type") in
  if String.eqb type "server_tool_use" then
    let query := trim (str_or_empty (block?."input"?."query")) in
    if nonempty query then ("[web search] " ++ query)%string
    else ("[server tool " ++ to_string (block?."name" ||| JStr "call") ++ "]")%string
  else
    match block?."content" with
    | JObj c =>
      ("[web search unavailable: " ++ to_string (JObj c?."error_code" ||| JObj c?."type" ||| JStr "error") ++ "]")%string
    | content =>
      if is_array content && (String.eqb type "web_search_tool_result" || ends_with "_tool_result" type) then
        match arr_of content with
        | [] => "[web search results unavailable]"
        | l => ("[web search results]" ++ newline ++ join newline (imap (fun i r => searchResultLine r i) l))%string
        end
      else ("[search result] " ++ trim_start (drop_chars 2 (searchResultLine block 0)))%string
    end.

Definition isServerToolBlock (block : jsval) : bool :=
  let type := str_or_empty (block?."type") in
  if String.eqb type "server_tool_use" then true
  else negb (String.eqb type "tool_result") && ends_with "_tool_result" type.

Definition SEARCH_BLOCK_TYPES : list string := ["search_result"; "web_search_result"].

Definition isFlattenableSearchBlock (block : jsval) : bool :=
  if isServerToolBlock block then true
  else if mem (str_or_empty (block?."type")) SEARCH_BLOCK_TYPES then blockHasEncryptedContent block
  else is_string (block?."encrypted_content").

(** The recursion on [depth], counted down; a block whose nested content is unchanged is the
    same value. *)
Fixpoint flatten_within (fuel : nat) (content : jsval) : jsval :=
  match fuel, content with
  | S fuel, JArr l =>
    JArr (map (fun block =>
      if negb (is_object block) then block
      else if isFlattenableSearchBlock block then text_block (searchArtifactText block)
      else if is_array (block?."content") then with_field block "content" (flatten_within fuel (block?."content"))
      else block) l)
  | _, _ => content
  end.
Definition flattenSearchBlocks : jsval -> jsval := flatten_within (S MAX_BLOCK_DEPTH).

(** The same recursion as [contentHasWebSearchArtifact]. *)
Definition messageNeedsFlatten : jsval -> bool := artifact_within 5.

Definition placeholderContent (role : jsval) : jsval :=
  JArr [text_block (if is_str role "assistant" then "(assistant content removed)" else "(content removed)")].

Definition flatten_message (message : jsval) : jsval :=
  if negb (messageNeedsFlatten (message?."content")) then message
  else match flattenSearchBlocks (message?."content") with
       | JArr [] => with_field message "content" (placeholderContent (message?."role"))
       | content => with_field message "content" content
       end.

Definition flattenSearchResultHistory (body : jsval) : jsval :=
  match body?."messages" with
  | JArr l => with_field body "messages" (JArr (map flatten_message l))
  | _ => body
  end.

Definition rectifyUnofficialRequest (body : jsval) : jsval :=
  ensureOutputConfigSchema (stripIllegalCacheControlFields body).

Definition rectifyUnofficialRequestForRetry (body : jsval) : jsval :=
  ensureConversationEndsWithUser (pairMissingToolResults (ensureOutputConfigSchema (stripIllegalCacheControlFields body))).

(** ** [repairAnthropicRequest] *)

(** The recursion on nested [tool_result] contents. *)
Fixpoint rectifyMessageContent (content role : jsval) : jsval :=
  match content with
  | JArr l =>
    let next := flat_map (fun block =>
      match block with
      | JObj f =>
        if is_str (assoc "type" f) "text" && negb (nonempty (trim (str_or_empty (assoc "text" f)))) then []
        else if is_str (assoc "type" f) "thinking" then
          let text := trim (str_or_empty (assoc "thinking" f)) in
          if nonempty text then [text_block text] else []
        else if is_str (assoc "type" f) "redacted_thinking" then []
        else if is_str (assoc "type" f) "tool_result" && is_array (assoc "content" f) then
          [JObj (map (fun p => (p.1, if String.eqb p.1 "content" then rectifyMessageContent p.2 role else p.2)) f)]
        else [block]
      | _ => [block]
      end) l in
    match next with [] => placeholderContent role | _ => JArr next end
  | _ => content
  end.

Definition rectify_message (message : jsval) : jsval :=
  if negb (is_array (message?."content")) then message
  else with_field message "content" (rectifyMessageContent (message?."content") (message?."role")).

(** [out.context_management.edits] without the thinking edits. *)
Definition drop_thinking_edits (out : jsval) : jsval :=
  match out?."context_management"?."edits" with
  | JArr l =>
    let edits := List.filter (fun edit => negb (is_str (edit?."type") "clear_thinking_20251015")) l in
    with_field out "context_management"
      (match edits with
       | [] => without (out?."context_management") "edits"
       | _ => with_field (out?."context_management") "edits" (JArr edits)
       end)
  | _ => out
  end.

(** The last branch: every thinking block becomes text. *)
Definition remove_thinking (body : jsval) : jsval :=
  let out := if truthy (body?."thinking") then without body "thinking" else body in
  let out := drop_thinking_edits out in
  match out?."messages" with
  | JArr l => with_field out "messages" (JArr (map rectify_message l))
  | _ => out
  end.

(** ** Every tool call is answered *)

(** The provider's rule on a conversation: what an assistant turn calls, the next user turn
    answers.  [pending]: the calls not answered yet. *)
Definition covers (results pending : list string) : Prop := forall id, id ∈ pending -> id = "" \/ id ∈ results.

Fixpoint answered (pending : list string) (l : list jsval) : Prop :=
  match l with
  | [] => pending = []
  | m :: r =>
    if String.eqb (role_of m) "assistant" then answered (pending ++ collectToolUseIds (m?."content")) r
    else if String.eqb (role_of m) "user" then covers (collectToolResultIds (m?."content")) pending /\ answered [] r
    else answered pending r
  end.

Lemma results_of_placeholders ids rest :
  (forall id, id ∈ ids -> id = "" \/ id ∈ collectToolResultIds (JArr (map placeholderResult ids ++ rest))) /\
  (forall id, id ∈ collectToolResultIds (JArr rest) -> id ∈ collectToolResultIds (JArr (map placeholderResult ids ++ rest))).
Proof.
  unfold collectToolResultIds. cbn [asBlocks]. induction ids as [|x ids [IH1 IH2]]; cbn [map app]; [split; [set_solver|done]|].
  assert (Hx : tool_result_id (placeholderResult x) = if String.eqb x "" then None else Some x).
  { unfold tool_result_id, placeholderResult. cbn. by destruct (String.eqb x ""). }
  split; intros id Hid; cbn [omap list_omap]; rewrite Hx.
  - apply elem_of_cons in Hid as [->|Hid].
    + destruct (String.eqb_spec x "") as [->|_]; [by left|right; set_solver].
    + destruct (IH1 id Hid) as [->|H]; [by left|right]. destruct (String.eqb x ""); set_solver.
  - specialize (IH2 id Hid). destruct (String.eqb x ""); set_solver.
Qed.

Lemma missing_spec id pending m :
  id ∈ missing_results pending m <-> id ∈ pending /\ (id ∉ collectToolResultIds (m?."content")).
Proof.
  unfold missing_results. rewrite list_elem_of_In, filter_In, <- list_elem_of_In, negb_true_iff.
  rewrite <- not_true_iff_false, mem_spec. tauto.
Qed.

Lemma add_results_role extras m : is_obj m = true -> role_of (add_results extras m) = role_of m.
Proof. intros H. unfold role_of, add_results. by destruct (m?."content"); rewrite get_with_field_ne. Qed.

Lemma add_results_covers pending m : covers (collectToolResultIds (add_results (map placeholderResult (missing_results pending m)) m?."content")) pending.
Proof.
  assert (Hsplit : forall rest, (forall id, id ∈ collectToolResultIds (m?."content") -> id ∈ collectToolResultIds (JArr rest)) ->
    covers (collectToolResultIds (JArr (map placeholderResult (missing_results pending m) ++ rest))) pending).
  { intros rest Hrest id Hid. destruct (results_of_placeholders (missing_results pending m) rest) as [H1 H2].
    destruct (decide (id ∈ collectToolResultIds (m?."content"))) as [Hin|Hn]; [right; by apply H2, Hrest|].
    apply H1. by apply missing_spec. }
  unfold add_results. destruct (m?."content") eqn:E; rewrite get_with_field_eq;
    try (rewrite <- (app_nil_r (map placeholderResult _)); apply Hsplit; intros id Hid; inversion Hid).
  - apply Hsplit. by intros id.
  - apply Hsplit. by intros id.
Qed.

(** The loop answers everything but what it reports as pending. *)
Lemma pair_loop_answered l : forall pending changed l' pending' changed',
  Forall (fun m => is_obj m = true) l ->
  pair_loop pending changed l = (l', pending', changed') ->
  (forall l2, answered pending' l2 -> answered pending (l' ++ l2)) /\
  (changed' = false -> l' = l) /\ length l' = length l /\ (changed = true -> changed' = true) /\
  map role_of l' = map role_of l.
Proof.
  induction l as [|m l IH]; intros pending changed l' pending' changed' Hl; [by intros [= <- <- <-]|].
  apply Forall_cons in Hl as [Hm Hl]. cbn [pair_loop].
  destruct (String.eqb (role_of m) "assistant") eqn:Ea.
  - destruct (pair_loop _ changed l) as [[r p] c] eqn:E. intros [= <- <- <-].
    destruct (IH _ _ _ _ _ Hl E) as (H1 & H2 & H3 & H4 & H5).
    cbn [app answered length map]. rewrite Ea, H3, H5. split; [exact H1|]. split; [intros Hc; by rewrite H2|]. done.
  - destruct (negb _ || _) eqn:Eu.
    + destruct (pair_loop _ changed l) as [[r p] c] eqn:E. intros [= <- <- <-].
      destruct (IH _ _ _ _ _ Hl E) as (H1 & H2 & H3 & H4 & H5). cbn [app answered length map]. rewrite Ea, H3, H5.
      split; [|split; [intros Hc; by rewrite H2|done]]. intros l2 H. destruct (String.eqb (role_of m) "user"); [|by apply H1].
      cbn [negb orb] in Eu. apply Nat.eqb_eq, nil_length_inv in Eu as ->. split; [intros id Hid; inversion Hid|by apply H1].
    + apply orb_false_iff in Eu as [Eu _]. apply negb_false_iff in Eu.
      destruct (missing_results pending m) as [|x xs] eqn:Em.
      * destruct (pair_loop _ changed l) as [[r p] c] eqn:E. intros [= <- <- <-].
        destruct (IH _ _ _ _ _ Hl E) as (H1 & H2 & H3 & H4 & H5). cbn [app answered length map]. rewrite Ea, Eu, H3, H5.
        split; [|split; [intros Hc; by rewrite H2|done]]. intros l2 H. split; [|by apply H1].
        intros id Hid. right. destruct (decide (id ∈ collectToolResultIds (m?."content"))) as [|Hn]; [done|].
        exfalso. assert (Hin : id ∈ missing_results pending m) by by apply missing_spec. rewrite Em in Hin. inversion Hin.
      * rewrite <- Em. destruct (pair_loop [] true l) as [[r p] c] eqn:E. intros [= <- <- <-].
        destruct (IH _ _ _ _ _ Hl E) as (H1 & H2 & H3 & H4 & H5).
        cbn [app answered length map]. rewrite add_results_role, Ea, Eu, H3, H5 by done.
        split; [intros l2 H; split; [apply add_results_covers|by apply H1]|].
        split; [intros Hc; by rewrite H4 in Hc|]. split; [done|]. split; [intros _; by apply H4|done].
Qed.

Lemma own_obj_ids v : is_obj (own v) = true.
Proof. done. Qed.

Lemma answered_app l1 : forall p l2, answered p l1 -> answered [] l2 -> answered p (l1 ++ l2).
Proof.
  induction l1 as [|m l1 IH]; intros p l2 H1 H2; [cbn in *; by subst|]. cbn [app answered] in *.
  destruct (String.eqb (role_of m) "assistant"); [by apply IH|]. destruct (String.eqb (role_of m) "user"); [|by apply IH].
  destruct H1 as [Hc H1]. split; [done|by apply IH].
Qed.

(** Answering the calls that are left at the end. *)
Lemma answered_tail p : answered p [user_message (JArr (map placeholderResult p))].
Proof.
  cbn [answered]. unfold role_of, user_message. cbn. split; [|done].
  intros id Hid. destruct (results_of_placeholders p []) as [H _]. rewrite app_nil_r in H. by apply H.
Qed.

Definition messages_of (body : jsval) : list jsval := arr_of (body?."messages").

(** The conversation of a request: non-empty, every message an object. *)
Definition conversation (body : jsval) : Prop :=
  is_obj body = true /\ messages_of body <> [] /\ Forall (fun m => is_obj m = true) (messages_of body).

(** The turns of [a] are kept, user turns are added at the end. *)
Definition grown (a b : jsval) : Prop :=
  exists n, map role_of (messages_of b) = map role_of (messages_of a) ++ List.repeat "user" n.

Lemma grown_same a b : map role_of (messages_of b) = map role_of (messages_of a) -> grown a b.
Proof. intros H. exists 0%nat. by rewrite H, app_nil_r. Qed.

Lemma grown_trans a b c : grown a b -> grown b c -> grown a c.
Proof. intros [n Hn] [m Hm]. exists (n + m)%nat. by rewrite Hm, Hn, repeat_app, app_assoc. Qed.

Lemma pair_loop_objects l : forall pending changed, Forall (fun m => is_obj m = true) l ->
  Forall (fun m => is_obj m = true) (pair_loop pending changed l).1.1.
Proof.
  induction l as [|m l IH]; intros p0 c0 Hl; [by apply Forall_nil|]. apply Forall_cons in Hl as [Hm Hl]. cbn [pair_loop].
  destruct (if String.eqb (role_of m) "assistant" then _ else _) as [[m' p1] c1] eqn:Em.
  assert (Hm' : is_obj m' = true).
  { revert Em. destruct (String.eqb _ _); [by intros [= <- _ _]|]. destruct (_ || _); [by intros [= <- _ _]|].
    destruct (missing_results p0 m); intros [= <- _ _]; [done|]. unfold add_results. by destruct (m?."content"). }
  specialize (IH p1 c1 Hl). destruct (pair_loop p1 c1 l) as [[l' p2] c2]. by constructor.
Qed.

Lemma pair_spec body : conversation body ->
  let out := pairMissingToolResults body in
  conversation out /\ answered [] (messages_of out) /\
  grown body out /\ (forall k, k <> "messages" -> out?.k = body?.k).
Proof.
  intros (Ho & Hne & Hl) out. subst out. unfold pairMissingToolResults, messages_of in *.
  destruct (body?."messages") as [| | | | |[|x r]|] eqn:E; try done. cbn [arr_of] in *. set (l := x :: r) in *.
  assert (Hown : map own l = l).
  { clearbody l. clear -Hl. induction Hl as [|m l Hm _ IH]; [done|]. cbn [map]. rewrite IH. by destruct m. }
  rewrite Hown. destruct (pair_loop [] false l) as [[l' p] c] eqn:El.
  destruct (pair_loop_answered l [] false l' p c Hl El) as (H1 & H2 & H3 & _ & H5).
  pose proof (pair_loop_objects l [] false Hl) as Hobj. rewrite El in Hobj. cbn [fst] in Hobj.
  destruct (length p =? 0)%nat eqn:Ep.
  - apply Nat.eqb_eq, nil_length_inv in Ep as ->. destruct c.
    + rewrite get_with_field_eq. cbn [arr_of]. split.
      * split; [done|]. unfold messages_of. rewrite get_with_field_eq. cbn [arr_of]. split; [by intros ->|done].
      * split; [rewrite <- (app_nil_r l'); by apply H1|]. split; [|intros k Hk; by apply get_with_field_ne].
        apply grown_same. unfold messages_of. by rewrite get_with_field_eq, E.
    + rewrite E. cbn [arr_of]. rewrite (H2 eq_refl) in *. split; [unfold conversation, messages_of; by rewrite E|].
      split; [rewrite <- (app_nil_r l); by apply H1|]. split; [by apply grown_same|done].
  - rewrite get_with_field_eq. cbn [arr_of]. split.
    + split; [done|]. unfold messages_of. rewrite get_with_field_eq. cbn [arr_of].
      split; [by destruct l'|]. apply Forall_app. split; [done|]. by constructor.
    + split; [apply H1, answered_tail|]. split; [|intros k Hk; by apply get_with_field_ne].
      exists 1%nat. unfold messages_of. rewrite get_with_field_eq, E. cbn [arr_of]. by rewrite map_app, H5.
Qed.

Lemma output_config_spec body : conversation body ->
  let out := ensureOutputConfigSchema body in
  conversation out /\ messages_of out = messages_of body /\ forall k, k <> "output_config" -> out?.k = body?.k.
Proof.
  intros H out. subst out. unfold ensureOutputConfigSchema. destruct (negb _); [done|]. destruct (bool_decide _); [done|].
  destruct H as (Ho & H1 & H2). unfold conversation, messages_of in *. rewrite get_with_field_ne by done.
  split; [by split|]. split; [done|]. intros k Hk. by apply get_with_field_ne.
Qed.

Lemma ends_with_user_spec body : conversation body -> answered [] (messages_of body) ->
  let out := ensureConversationEndsWithUser body in
  conversation out /\ answered [] (messages_of out) /\ role_of (List.last (messages_of out) JUndef) <> "assistant" /\
  grown body out /\ forall k, k <> "messages" -> out?.k = body?.k.
Proof.
  intros (Ho & Hne & Hl) Ha out. subst out. unfold ensureConversationEndsWithUser, conversation, grown, messages_of in *.
  destruct (body?."messages") as [| | | | |[|x r]|] eqn:E; try done. cbn [arr_of] in *. set (l := x :: r) in *.
  destruct (String.eqb _ "assistant") eqn:Er; cbn [negb].
  - rewrite get_with_field_eq. cbn [arr_of]. split; [split; [done|]; split; [by destruct l|]; apply Forall_app; split; [done|by constructor]|].
    split; [apply answered_app; [done|]; split; [intros id Hid; inversion Hid|done]|]. split; [by rewrite List.last_last|].
    split; [exists 1%nat; by rewrite map_app|]. intros k Hk. by apply get_with_field_ne.
  - rewrite E. cbn [arr_of]. split; [done|]. split; [done|]. split; [intros H; by rewrite H in Er|].
    split; [exists 0%nat; by rewrite app_nil_r|done].
Qed.

Lemma strip_spec body : conversation body ->
  conversation (stripIllegalCacheControlFields body) /\ grown body (stripIllegalCacheControlFields body) /\
  forall k, k ∉ ["messages"; "system"; "tools"; "cache_control"] -> stripIllegalCacheControlFields body?.k = body?.k.
Proof.
  intros (Ho & Hne & Hl). unfold stripIllegalCacheControlFields.
  replace (is_object body) with true by (by destruct body). cbn [negb].
  destruct (walk_frame (pure_control sanitizePublicCacheControl) tt body Ho) as (s' & Hm & Hk).
  assert (Hr : forall l s, Forall (fun m => is_obj m = true) l ->
    let r := (map_nodes (map_array (pure_control sanitizePublicCacheControl) "content") s l).1 in
    Forall (fun m => is_obj m = true) r /\ map role_of r = map role_of l).
  { clear. intros l s Hl. revert s. induction Hl as [|m l Hm _ IH]; intros s; [split; [by apply Forall_nil|done]|].
    cbn [map_nodes]. pose proof (map_array_is_obj (pure_control sanitizePublicCacheControl) "content" s m Hm) as H.
    pose proof (map_array_frame (pure_control sanitizePublicCacheControl) "content" "role" s m ltac:(done)) as Hf.
    destruct (map_array _ _ _ m) as [y s1]. destruct (IH s1) as [H1 H2]. destruct (map_nodes _ s1 l) as [l' s2]. cbn [fst map] in *.
    split; [by constructor|]. rewrite H2. f_equal. unfold role_of. by rewrite Hf. }
  destruct (Hr (messages_of body) s' Hl) as [H1 H2]. unfold messages_of in *. rewrite <- Hm in H1, H2.
  split; [|split; [by apply grown_same|exact Hk]]. split; [apply walk_is_obj|]. split; [|exact H1].
  unfold messages_of in *. intros E. rewrite E in H2. by destruct (arr_of (body?."messages")).
Qed.

(** The repaired request of a retry is one the provider accepts: the conversation keeps
    its turns in order and gains user turns at the end only, every tool call is answered by
    the user turn that follows it, it does not end with an assistant turn, and nothing but
    the messages, the cache markers and the output schema changes. *)
Theorem retry_request_wellformed body :
  conversation body ->
  conversation (rectifyUnofficialRequestForRetry body) /\
  grown body (rectifyUnofficialRequestForRetry body) /\
  answered [] (messages_of (rectifyUnofficialRequestForRetry body)) /\
  role_of (List.last (messages_of (rectifyUnofficialRequestForRetry body)) JUndef) <> "assistant" /\
  (forall k, k ∉ ["messages"; "output_config"; "cache_control"; "tools"; "system"] ->
     rectifyUnofficialRequestForRetry body?.k = body?.k).
Proof.
  intros Hc. unfold rectifyUnofficialRequestForRetry.
  destruct (strip_spec body Hc) as (H1 & G1 & F1). generalize dependent (stripIllegalCacheControlFields body). intros b1 H1 G1 F1.
  destruct (output_config_spec b1 H1) as (H2 & G2 & F2). generalize dependent (ensureOutputConfigSchema b1). intros b2 H2 G2 F2.
  destruct (pair_spec b2 H2) as (H3 & A3 & G3 & F3). generalize dependent (pairMissingToolResults b2). intros b3 H3 A3 G3 F3.
  destruct (ends_with_user_spec b3 H3 A3) as (H4 & A4 & L4 & G4 & F4). split; [done|].
  assert (G2' : grown b1 b2) by (apply grown_same; by rewrite G2).
  split; [exact (grown_trans _ _ _ (grown_trans _ _ _ (grown_trans _ _ _ G1 G2') G3) G4)|].
  split; [done|]. split; [done|].
  intros k Hk. rewrite F4, F3, F2, F1; [done|clear -Hk; set_solver..].
Qed.

Definition sample_conversation : jsval :=
  JObj [("messages", JArr [
    JObj [("role", JStr "user"); ("content", JStr "hi")];
    JObj [("role", JStr "assistant"); ("content", JArr [JObj [("type", JStr "tool_use"); ("id", JStr "t1"); ("name", JStr "ls")]])];
    JObj [("role", JStr "user"); ("content", JStr "and?")];
    JObj [("role", JStr "assistant"); ("content", JArr [JObj [("type", JStr "tool_use"); ("id", JStr "t2"); ("name", JStr "ls")]])]])].

Lemma retry_request_wellformed_witness : conversation sample_conversation /\
  role_of (List.last (messages_of (rectifyUnofficialRequestForRetry sample_conversation)) JUndef) <> "assistant".
Proof.
  assert (H : conversation sample_conversation) by (split; [done|]; split; [done|]; repeat constructor).
  split; [exact H|]. apply (retry_request_wellformed sample_conversation H).
Defined.

(** ** Nothing encrypted is replayed, no thinking block is left *)

Lemma search_type_encrypted fuel block : is_object block = true ->
  is_string (block?."encrypted_content") = true -> encrypted_within (S fuel) block = true.
Proof. intros Ho H. cbn [encrypted_within]. by rewrite Ho, H. Qed.

Lemma flatten_clean fuel : forall content b, b ∈ arr_of (flatten_within fuel content) -> is_array (flatten_within fuel content) = true ->
  encrypted_within fuel b = false.
Proof.
  induction fuel as [|fuel IH]; intros content b; [done|]. cbn [flatten_within].
  destruct content as [| | | | |l|]; cbn [arr_of is_array]; try done. intros Hb _.
  apply list_elem_of_In, in_map_iff in Hb as (x & <- & _).
  destruct (is_object x) eqn:Eo; cbn [negb]; [|cbn [encrypted_within]; by rewrite Eo].
  destruct (isFlattenableSearchBlock x) eqn:Ef; [reflexivity|].
  assert (He : is_string (x?."encrypted_content") = false).
  { revert Ef. unfold isFlattenableSearchBlock. destruct (isServerToolBlock x); [done|]. destruct (mem _ _); [|done].
    destruct (is_string (x?."encrypted_content")) eqn:E; [|done]. unfold blockHasEncryptedContent.
    by rewrite search_type_encrypted. }
  destruct (is_array (x?."content")) eqn:Ea.
  - cbn [encrypted_within]. rewrite get_with_field_ne, He, get_with_field_eq by done. cbn [is_object with_field andb orb].
    destruct (is_array (flatten_within fuel (x?."content"))) eqn:Ef2; [|done]. cbn [andb].
    apply not_true_iff_false. intros H. apply existsb_exists in H as (y & Hy & H). apply list_elem_of_In in Hy.
    by rewrite (IH _ y Hy Ef2) in H.
  - cbn [encrypted_within]. by rewrite Eo, He, Ea.
Qed.

(** After the history of a request is flattened, no message that carried search artefacts
    contains an encrypted payload at any level the provider reads, and the other messages and
    the number of turns are unchanged. *)
Theorem flatten_removes_encrypted body l :
  body?."messages" = JArr l ->
  exists l', flattenSearchResultHistory body?."messages" = JArr l' /\ length l' = length l /\
  forall i m, l !! i = Some m -> exists m', l' !! i = Some m' /\
    (messageNeedsFlatten (m?."content") = false -> m' = m) /\
    (messageNeedsFlatten (m?."content") = true ->
       (forall k, k <> "content" -> m'?.k = m?.k) /\ is_array (m'?."content") = true /\
       forall b, b ∈ arr_of (m'?."content") -> blockHasEncryptedContent b = false).
Proof.
  intros E. unfold flattenSearchResultHistory. rewrite E, get_with_field_eq. eexists. split; [reflexivity|].
  split; [by rewrite length_map|]. intros i m Hi. exists (flatten_message m). split; [by rewrite list_lookup_fmap, Hi|].
  unfold flatten_message. destruct (messageNeedsFlatten (m?."content")) eqn:En; cbn [negb]; (split; [done|]); [|done].
  intros _. assert (Ha : is_array (flattenSearchBlocks (m?."content")) = true).
  { unfold messageNeedsFlatten in En. cbn [artifact_within] in En. by destruct (m?."content"). }
  pose proof (flatten_clean (S MAX_BLOCK_DEPTH) (m?."content")) as Hc.
  fold flattenSearchBlocks blockHasEncryptedContent in Hc.
  destruct (flattenSearchBlocks (m?."content")) as [| | | | |[|x r]|]; try done; rewrite get_with_field_eq;
    (split; [intros k Hk; by apply get_with_field_ne|]); (split; [done|]).
  - intros b Hb. cbn in Hb. apply list_elem_of_singleton in Hb as ->. by destruct (is_str (m?."role") "assistant").
  - intros b Hb. by apply Hc.
Qed.

Definition encrypted_sample : jsval :=
  JObj [("messages", JArr [
    JObj [("role", JStr "assistant"); ("content", JArr [
      JObj [("type", JStr "server_tool_use"); ("name", JStr "web_search"); ("input", JObj [("query", JStr "rocq")])];
      JObj [("type", JStr "web_search_tool_result"); ("content", JArr [
        JObj [("type", JStr "web_search_result"); ("title", JStr "Rocq"); ("url", JStr "https://rocq-prover.org"); ("encrypted_content", JStr "zz")]])]])]])].

Example flatten_ex :
  map (fun m => map (fun b => b?."text") (arr_of (m?."content"))) (messages_of (flattenSearchResultHistory encrypted_sample))
  = [[JStr "[web search] rocq"; JStr ("[web search results]" ++ newline ++ "1. Rocq — https://rocq-prover.org")]].
Proof. vm_compute. reflexivity. Qed.

Lemma flatten_removes_encrypted_witness :
  exists l, encrypted_sample?."messages" = JArr l /\
  exists l', flattenSearchResultHistory encrypted_sample?."messages" = JArr l' /\ length l' = length l.
Proof.
  exists (messages_of encrypted_sample). split; [reflexivity|].
  destruct (flatten_removes_encrypted encrypted_sample (messages_of encrypted_sample)) as (l' & H1 & H2 & _); [reflexivity|].
  by exists l'.
Defined.

(** A block that is no thinking block, nor holds one in its result. *)
Fixpoint thinking_free (b : jsval) : bool :=
  match b with
  | JObj f =>
    negb (is_str (assoc "type" f) "thinking") && negb (is_str (assoc "type" f) "redacted_thinking") &&
    (negb (is_str (assoc "type" f) "tool_result") ||
     (fix content g := match g with
                       | [] => true
                       | p :: r =>
                         if String.eqb "content" p.1 then match p.2 with JArr l => forallb thinking_free l | _ => true end
                         else content r
                       end) f)
  | _ => true
  end.

Definition content_free (v : jsval) : bool := match v with JArr l => forallb thinking_free l | _ => true end.

Lemma thinking_free_obj f : thinking_free (JObj f) =
  negb (is_str (assoc "type" f) "thinking") && negb (is_str (assoc "type" f) "redacted_thinking") &&
  (negb (is_str (assoc "type" f) "tool_result") || content_free (assoc "content" f)).
Proof.
  cbn [thinking_free]. f_equal. f_equal. induction f as [|[k v] f IH]; [done|]. cbn [assoc fst snd].
  destruct (String.eqb "content" k); [done|]. exact IH.
Qed.

(** What [rectifyMessageContent] does to the fields of a tool result. *)
Definition rectify_fields (role : jsval) (f : fields) : fields :=
  map (fun p => (p.1, if String.eqb p.1 "content" then rectifyMessageContent p.2 role else p.2)) f.

Lemma rectify_fields_assoc role f k : assoc k (rectify_fields role f) =
  if String.eqb k "content" then rectifyMessageContent (assoc k f) role else assoc k f.
Proof.
  induction f as [|[k' v] f IH]; cbn [rectify_fields map assoc fst snd]; [by destruct (String.eqb k "content")|].
  destruct (String.eqb_spec k k') as [->|Hn]; [by destruct (String.eqb k' "content")|exact IH].
Qed.

Lemma rectify_free v : (forall role, content_free (rectifyMessageContent v role) = true) /\
  (forall f, v = JObj f -> Forall (fun p => forall role, content_free (rectifyMessageContent p.2 role) = true) f).
Proof.
  induction v as [| |b|n|s|l IH|f IH] using jsval_nested_ind; try (by split).
  2:{ split; [done|]. intros g [= <-]. eapply Forall_impl; [exact IH|]. by intros p [H _]. }
  split; [|done]. intros role. cbn [rectifyMessageContent].
  match goal with |- content_free (match ?n with _ => _ end) = true => set (next := n) end.
  assert (Hn : forallb thinking_free next = true).
  { subst next. apply forallb_forall. intros x Hx. apply in_flat_map in Hx as (b & Hb & Hx).
    apply list_elem_of_In in Hb. rewrite Forall_forall in IH. destruct (IH b Hb) as [_ Hf].
    destruct b as [| | | | | |f]; try (destruct Hx as [<-|[]]; done). specialize (Hf f eq_refl).
    destruct (is_str (assoc "type" f) "text" && _); [done|].
    destruct (is_str (assoc "type" f) "thinking") eqn:E1; [destruct (nonempty _); [destruct Hx as [<-|[]]|]; done|].
    destruct (is_str (assoc "type" f) "redacted_thinking") eqn:E2; [done|].
    destruct (is_str (assoc "type" f) "tool_result" && is_array (assoc "content" f)) eqn:E3; destruct Hx as [<-|[]]; rewrite thinking_free_obj.
    - fold (rectify_fields role f). rewrite !rectify_fields_assoc. cbn [String.eqb Ascii.eqb Bool.eqb andb]. rewrite E1, E2. cbn [negb andb].
      apply orb_true_iff. right. clear -Hf. induction Hf as [|[k v] f Hv _ IHf]; [done|]. cbn [assoc].
      destruct (String.eqb "content" k); [apply Hv|exact IHf].
    - rewrite E1, E2. cbn [negb andb]. destruct (is_str (assoc "type" f) "tool_result"); [|done]. cbn [andb] in E3.
      by destruct (assoc "content" f). }
  clearbody next. destruct next; [|exact Hn]. cbn. by destruct (is_str role "assistant").
Qed.

Lemma rectify_message_free m : content_free (rectify_message m?."content") = true /\ rectify_message m?."content" <> JArr [].
Proof.
  unfold rectify_message. destruct (m?."content") as [| | | | |l|] eqn:E; cbn [is_array negb]; rewrite ?E; try done.
  rewrite get_with_field_eq. split; [apply rectify_free|]. cbn [rectifyMessageContent].
  match goal with |- match ?n with _ => _ end <> _ => by destruct n end.
Qed.

Lemma drop_edits_spec b : is_obj b = true -> let out := drop_thinking_edits b in
  is_obj out = true /\ Forall (fun edit => is_str (edit?."type") "clear_thinking_20251015" = false) (arr_of (out?."context_management"?."edits")) /\
  forall k, k <> "context_management" -> out?.k = b?.k.
Proof.
  intros Ho out. subst out. unfold drop_thinking_edits.
  destruct (b?."context_management"?."edits") as [| | | | |l|] eqn:E; try (rewrite E; split; [done|]; by split; [apply Forall_nil|]).
  split; [done|]. rewrite get_with_field_eq. split; [|intros k Hk; by apply get_with_field_ne].
  set (edits := List.filter _ l). destruct edits as [|x r] eqn:Ee; [by rewrite get_without_eq; apply Forall_nil|].
  rewrite get_with_field_eq. cbn [arr_of]. rewrite <- Ee. apply Forall_forall. intros e Hin.
  subst edits. apply list_elem_of_In, filter_In in Hin as [_ H]. by apply negb_true_iff in H.
Qed.

(** Removing the thinking of a request removes all of it: no message keeps a thinking
    block, not even inside a tool result, the top-level switch and the thinking edits are
    gone, no turn becomes empty, and the other fields are kept. *)
Theorem remove_thinking_complete f :
  let out := remove_thinking (JObj f) in
  truthy (out?."thinking") = false /\
  Forall (fun m => content_free (m?."content") = true /\ m?."content" <> JArr []) (messages_of out) /\
  Forall (fun edit => is_str (edit?."type") "clear_thinking_20251015" = false) (arr_of (out?."context_management"?."edits")) /\
  map role_of (messages_of out) = map role_of (messages_of (JObj f)) /\
  (forall k, k ∉ ["thinking"; "context_management"; "messages"] -> out?.k = JObj f?.k).
Proof.
  intros out. subst out. unfold remove_thinking. cbv zeta. set (b0 := if truthy _ then _ else _).
  assert (H0 : is_obj b0 = true /\ truthy (b0?."thinking") = false /\ forall k, k <> "thinking" -> b0?.k = JObj f?.k).
  { subst b0. destruct (truthy (JObj f?."thinking")) eqn:E; [|done]. split; [done|]. split; [by rewrite get_without_eq|].
    intros k Hk. by apply get_without_ne. }
  clearbody b0. destruct H0 as (Ho & Ht & H0). destruct (drop_edits_spec b0 Ho) as (Ho1 & He & F1).
  generalize dependent (drop_thinking_edits b0). intros b1 Ho1 He F1.
  rewrite <- (F1 "thinking") in Ht by done. unfold messages_of. rewrite <- (H0 "messages"), <- (F1 "messages") by done.
  destruct (b1?."messages") as [| | | | |l|] eqn:E;
    try (rewrite E; repeat split; [exact Ht|by apply Forall_nil|exact He|intros k Hk; rewrite F1, H0 by set_solver; done]).
  rewrite (get_with_field_ne b1 "thinking"), (get_with_field_ne b1 "context_management"), !get_with_field_eq by done.
  cbn [arr_of]. repeat split; [exact Ht| |exact He| |].
  - apply List.Forall_map, Forall_forall. intros m _. apply rectify_message_free.
  - rewrite map_map. apply map_ext. intros m. unfold rectify_message, role_of. destruct (negb _); [done|]. by rewrite get_with_field_ne.
  - intros k Hk. rewrite get_with_field_ne, F1, H0 by set_solver. done.
Qed.
