(* ===== verification/Thinking.v ===== *)
(** * Reasoning settings (src/src/lib/protocol/thinking.mjs) and the dispatch of repairs
    ([repairAnthropicRequest] of src/src/lib/pool/upstream-error-policy.mjs)

    The catch branch of [normalizeThinkingForModel], for a policy that cannot be read, is not
    modelled: [normalizeThinkingByPolicy] is total on the policy it is given. *)

From S2P Require Import Prelude.
From S2P Require Import JsValue.
From S2P Require Import JsRegex.
From S2P Require Import JsText.
From S2P Require Import CacheTtl.
From S2P Require Import ModelPolicy.
From S2P Require Import Errors.
From S2P Require Import ErrorPolicy.
From S2P Require Import Rectifier.
#[local] Open Scope string_scope.
#[local] Open Scope list_scope.
#[local] Open Scope js_scope.

Definition EFFORT_TO_BUDGET : fields :=
  [("minimal", jint 1024); ("low", jint 2048); ("medium", jint 8192); ("high", jint 16384);
   ("xhigh", jint 32768); ("max", jint 32768)].

(** None is null. *)
Definition openaiReasoningToClaudeThinking (body : jsval) : option jsval :=
  let effort := body?."reasoning_effort" in
  let effort := if negb (truthy effort) && is_object (body?."reasoning") then body?."reasoning"?."effort" else effort in
  if negb (truthy effort) then None
  else
    let e := to_lower (to_string effort) in
    if String.eqb e "none" || String.eqb e "off" then Some (JObj [("type", JStr "disabled")])
    else
      let budget := assoc e EFFORT_TO_BUDGET in
      Some (JObj [("type", JStr "enabled"); ("budget_tokens", if truthy budget then budget else assoc "medium" EFFORT_TO_BUDGET)]).

(** The texts of the thinking blocks; [claude.content || []] iterates an array. *)
Definition thinking_texts (block : jsval) : list string :=
  (if is_str (block?."type") "thinking" && truthy (block?."thinking") then [to_string (block?."thinking")] else []) ++
  (if is_str (block?."type") "redacted_thinking" then ["[redacted_thinking]"] else []).
Definition claudeThinkingToOpenAIReasoning (claude : jsval) : option string :=
  match flat_map thinking_texts (arr_of (claude?."content")) with
  | [] => None
  | texts => Some (join newline texts)
  end.

(** [String(model || '').toLowerCase().split('[')[0]] *)
Definition bare_model (model : jsval) : string := before_char "[" (to_lower (str_or_empty model)).

Definition family_of_two : rx := RSeq (lit "claude-") (lits ["sonnet"; "opus"]).
Definition five_series : rx := rseqs [lit "claude-"; lits ["opus"; "sonnet"; "fable"; "mythos"]; lit "-5"].

Definition modelSupportsAdaptiveThinking (model : jsval) : bool :=
  let m := bare_model model in
  if String.eqb m "" then false
  else if includes m "haiku" then false
  else if rx_test (RSeq (lit "claude-3") (one_of ".-")) m then false
  else if rx_test (RSeq family_of_two (lit "-4-5")) m then false
  else if rx_test (RSeq family_of_two (lit "-4-202")) m then false
  else if rx_test_end (RSeq family_of_two (lit "-4")) m then false
  else if rx_test (RSeq family_of_two (RSeq (lit "-4-") (one_of "6789"))) m then true
  else if rx_test (RSeq family_of_two (RSeq (lit "-4.") (one_of "6789"))) m then true
  else if rx_test (RSeq (lit "claude-opus-4-") (one_of "789")) m then true
  else if rx_test five_series m then true
  else includes m "fable" || includes m "mythos".

Definition modelRequiresAdaptiveThinking (model : jsval) : bool :=
  let m := bare_model model in
  if includes m "haiku" then false
  else if rx_test (RSeq (lit "claude-opus-4-") (one_of "789")) m || rx_test (RSeq (lit "claude-opus-4.") (one_of "789")) m then true
  else if rx_test five_series m then true
  else includes m "fable" || includes m "mythos".

Section policy.
Variable policy : jsval.

Definition normalizeThinkingForModel (body : jsval) : jsval := normalizeThinkingByPolicy policy body.

Definition modelSupportsEffort (model : jsval) : bool :=
  is_bool (getCapabilities policy model?."supports_effort") true.

Definition stripUnsupportedEffort (body : jsval) : jsval :=
  if negb (is_object body) then body
  else if modelSupportsEffort (body?."model") then body
  else if negb (is_object (body?."output_config")) then body
  else if negb (has_own (body?."output_config") "effort") then body
  else
    let next := without (body?."output_config") "effort" in
    if (length (keys next) =? 0)%nat then without body "output_config" else with_field body "output_config" next.

(** [policy.reason] selects the repair. *)
Definition repairAnthropicRequest (body : jsval) (p : outcome) : jsval :=
  if negb (bool_decide (o_action p = RepairAndRetry)) then body
  else
    let reason := o_reason p in
    if mem reason ["prefill_repairable"; "tool_pair_repairable"; "schema_repairable"]
    then rectifyUnofficialRequestForRetry body
    else if String.eqb reason "search_repairable" then flattenSearchResultHistory body
    else if String.eqb reason "thinking_repairable" then normalizeThinkingForModel body
    else remove_thinking body.
End policy.

Example adaptive_ex :
  map (fun s => (modelSupportsAdaptiveThinking (JStr s), modelRequiresAdaptiveThinking (JStr s)))
    ["claude-opus-4-6"; "claude-opus-4-7"; "claude-sonnet-4-5"; "claude-haiku-4-5"; "claude-fable-5-1"; "claude-opus-4"; "claude-3-7-sonnet"]
  = [(true, false); (true, true); (false, false); (false, false); (true, true); (false, false); (false, false)].
Proof. vm_compute. reflexivity. Qed.

(** ** The repair fits the complaint *)

Definition REPAIR_REASONS : list string :=
  ["signature_repairable"; "search_repairable"; "prefill_repairable"; "tool_pair_repairable"; "schema_repairable"; "thinking_repairable"].

Lemma classify_400_reason result o : o_action (classify_400 result o) = RepairAndRetry -> o_reason (classify_400 result o) ∈ REPAIR_REASONS.
Proof. unfold classify_400. cbv zeta. policy_cases; cbn [policy_of o_action o_reason]; intros H; first [discriminate H|unfold REPAIR_REASONS; set_solver]. Qed.

(** A repair comes from the branch of status 400. *)
Lemma repair_is_400 result o :
  o_action (classifyUpstreamResult result o) = RepairAndRetry -> classifyUpstreamResult result o = classify_400 result o.
Proof.
  unfold classifyUpstreamResult, classify_message. destruct (_ && _); [done|]. destruct (_ && _); [done|].
  destruct (isCompleteAssistantMessage result); [done|]. destruct (_ || _); [done|].
  destruct (_ || _). { unfold classify_auth, refuse_grant. policy_cases; done. }
  destruct (committed result); [done|]. unfold classify_status. destruct (_ || _); [done|].
  destruct (_ || status_is result 0). { unfold classify_transport. policy_cases; done. }
  destruct (status_is result 400); [done|].
  unfold refuse_grant, classify_403, classify_429, classify_5xx, continueWithoutCooldown. cbv zeta. policy_cases; done.
Qed.

(** What the retry sends answers what the provider complained about.  Every repair the
    classifier asks for has a reason of the list; a complaint about tool pairs, the final
    assistant turn or the schema is answered by a request whose tool calls are all answered
    and whose last turn is not the assistant's, one about search results by a request without
    encrypted payload, one about signatures by a request without any thinking block; any other
    action leaves the request alone. *)
Theorem repair_answers_complaint policy result o f :
  conversation (JObj f) ->
  (o_action (classifyUpstreamResult result o) <> RepairAndRetry ->
     repairAnthropicRequest policy (JObj f) (classifyUpstreamResult result o) = JObj f) /\
  (o_action (classifyUpstreamResult result o) = RepairAndRetry ->
     o_reason (classifyUpstreamResult result o) ∈ REPAIR_REASONS /\
     (o_reason (classifyUpstreamResult result o) ∈ ["prefill_repairable"; "tool_pair_repairable"; "schema_repairable"] ->
        answered [] (messages_of (repairAnthropicRequest policy (JObj f) (classifyUpstreamResult result o))) /\
        role_of (List.last (messages_of (repairAnthropicRequest policy (JObj f) (classifyUpstreamResult result o))) JUndef) <> "assistant") /\
     (o_reason (classifyUpstreamResult result o) = "search_repairable" ->
        Forall2 (fun m m' => messageNeedsFlatten (m?."content") = true ->
                   Forall (fun b => WebSearch.blockHasEncryptedContent b = false) (arr_of (m'?."content")))
          (messages_of (JObj f)) (messages_of (repairAnthropicRequest policy (JObj f) (classifyUpstreamResult result o)))) /\
     (o_reason (classifyUpstreamResult result o) = "signature_repairable" ->
        Forall (fun m => content_free (m?."content") = true)
          (messages_of (repairAnthropicRequest policy (JObj f) (classifyUpstreamResult result o))))).
Proof.
  intros Hc. set (p := classifyUpstreamResult result o). unfold repairAnthropicRequest. split.
  { intros Hn. by rewrite bool_decide_eq_false_2. }
  intros Ha. rewrite bool_decide_eq_true_2 by done. cbn [negb]. split; [|split; [|split]].
  - subst p. rewrite repair_is_400 in * by done. by apply classify_400_reason.
  - intros Hr. apply mem_spec in Hr. rewrite Hr. destruct (retry_request_wellformed (JObj f) Hc) as (_ & _ & H1 & H2 & _). by split.
  - intros ->. cbn [mem existsb String.eqb Ascii.eqb Bool.eqb andb orb].
    destruct Hc as (_ & _ & _). unfold messages_of. destruct (JObj f?."messages") as [| | | | |l|] eqn:E;
      try (unfold flattenSearchResultHistory; rewrite E; rewrite E; by apply Forall2_nil).
    destruct (flatten_removes_encrypted (JObj f) l E) as (l' & -> & Hl & H). cbn [arr_of].
    apply Forall2_same_length_lookup_2; [done|]. intros i x y Hx Hy. destruct (H i x Hx) as (m' & Hm' & _ & H2).
    rewrite Hy in Hm'. injection Hm' as <-. intros Hn. destruct (H2 Hn) as (_ & _ & H3). apply Forall_forall. exact H3.
  - intros ->. cbn [mem existsb String.eqb Ascii.eqb Bool.eqb andb orb].
    destruct (remove_thinking_complete f) as (_ & H & _). eapply Forall_impl; [exact H|]. by intros m [Hm _].
Qed.

Lemma repair_answers_complaint_witness :
  let p := classifyUpstreamResult (upstream_failure 400 "missing tool_use_id") sample_options in
  o_action p = RepairAndRetry /\ answered [] (messages_of (repairAnthropicRequest seeded sample_conversation p)).
Proof.
  intros p. split; [vm_compute; reflexivity|].
  destruct (repair_answers_complaint seeded (upstream_failure 400 "missing tool_use_id") sample_options (fields_of sample_conversation))
    as [_ H]; [split; [done|]; split; [done|]; repeat constructor|].
  destruct H as (_ & H & _); [vm_compute; reflexivity|]. apply H. apply mem_spec. vm_compute. reflexivity.
Defined.
