(* ===== verification/Pricing.v ===== *)
(** * Token usage and its price (src/src/lib/protocol/openai-usage.mjs,
    src/src/lib/admin/pricing.mjs, src/src/lib/admin/openai-pricing.mjs)

    Numbers are exact rationals; a price is rounded where the source rounds it ([round8]).
    The calendar helpers of pricing.mjs (time zones through Intl) are not modelled. *)

From S2P Require Import Prelude.
From S2P Require Import JsValue.
From S2P Require Import JsRegex.
From S2P Require Import JsText.
From S2P Require Import TierPolicy.
From S2P Require Import CacheTtl.
#[local] Open Scope string_scope.
#[local] Open Scope list_scope.
#[local] Open Scope js_scope.

(** ** Usage extraction (openai-usage.mjs) *)

Definition asU64 (value : jsval) : jsval :=
  match value with
  | JNum n => if is_finite n && num_leb (Fin 0) n && is_integer n then value else JUndef
  | _ => JUndef
  end.

Fixpoint nestedU64 (obj : jsval) (path : list string) : jsval :=
  match path with
  | [] => asU64 obj
  | key :: path => if negb (is_object obj) then JUndef else nestedU64 (obj?.key) path
  end.

Definition usageObject (body : jsval) : jsval :=
  if negb (is_object body) then JNull
  else if is_object (body?."usage") then body?."usage" else body.

Definition opt_field (k : string) (v : jsval) : fields := if is_nullish v then [] else [(k, v)].

(** Null is [JNull]. *)
Definition extractOpenaiUsage (body : jsval) : jsval :=
  let usage := usageObject body in
  if negb (is_object usage) then JNull
  else
    let input_tokens := asU64 (usage?."input_tokens") ?? asU64 (usage?."prompt_tokens") in
    let output_tokens := asU64 (usage?."output_tokens") ?? asU64 (usage?."completion_tokens") in
    let cached_tokens :=
      nestedU64 usage ["input_tokens_details"; "cached_tokens"] ??
      nestedU64 usage ["prompt_tokens_details"; "cached_tokens"] ?? asU64 (usage?."cached_tokens") in
    let cache_write_tokens :=
      nestedU64 usage ["input_tokens_details"; "cache_write_tokens"] ??
      nestedU64 usage ["prompt_tokens_details"; "cache_write_tokens"] ??
      asU64 (usage?."cache_write_tokens") ??
      nestedU64 usage ["input_tokens_details"; "cache_creation_tokens"] ??
      nestedU64 usage ["prompt_tokens_details"; "cache_creation_tokens"] ??
      asU64 (usage?."cache_creation_tokens") ?? asU64 (usage?."cache_creation_input_tokens") in
    let hasUsage :=
      existsb (fun k => negb (is_nullish (usage?.k)))
        ["input_tokens"; "output_tokens"; "prompt_tokens"; "completion_tokens"; "cached_tokens"; "cache_write_tokens";
         "input_tokens_details"; "prompt_tokens_details"; "output_tokens_details"; "completion_tokens_details"] ||
      negb (is_nullish cached_tokens) || negb (is_nullish cache_write_tokens) in
    if negb hasUsage then JNull
    else
      let total_tokens :=
        asU64 (usage?."total_tokens") ??
        (if negb (is_nullish input_tokens) || negb (is_nullish output_tokens)
         then JNum (num_add (to_number (input_tokens ||| jint 0)) (to_number (output_tokens ||| jint 0))) else JUndef) in
      JObj (opt_field "input_tokens" input_tokens ++ opt_field "output_tokens" output_tokens ++
            opt_field "cached_tokens" cached_tokens ++ opt_field "cache_write_tokens" cache_write_tokens ++
            opt_field "total_tokens" total_tokens).

Definition count_of (v : jsval) : num := to_number (v ||| jint 0).

Definition openaiChatUsageFromExtract (extracted : jsval) : jsval :=
  if negb (truthy extracted) then JNull
  else if is_nullish (extracted?."input_tokens") && is_nullish (extracted?."output_tokens") then JNull
  else
    let prompt := count_of (extracted?."input_tokens") in
    let completion := count_of (extracted?."output_tokens") in
    JObj ([("prompt_tokens", JNum prompt); ("completion_tokens", JNum completion);
           ("total_tokens", extracted?."total_tokens" ?? JNum (num_add prompt completion))] ++
          (if negb (is_nullish (extracted?."cached_tokens")) || negb (is_nullish (extracted?."cache_write_tokens"))
           then [("prompt_tokens_details",
                  JObj (opt_field "cached_tokens" (extracted?."cached_tokens") ++
                        opt_field "cache_creation_tokens" (extracted?."cache_write_tokens")))]
           else [])).

Definition openaiAnthropicUsageFromExtract (extracted : jsval) : jsval :=
  if negb (truthy extracted) then JObj [("input_tokens", jint 0); ("output_tokens", jint 0)]
  else
    let cached := count_of (extracted?."cached_tokens") in
    let written := count_of (extracted?."cache_write_tokens") in
    let input := count_of (extracted?."input_tokens") in
    let uncached := num_max (Fin 0) (num_sub (num_sub input cached) written) in
    JObj ([("input_tokens", JNum uncached); ("output_tokens", JNum (count_of (extracted?."output_tokens")))] ++
          (if is_nullish (extracted?."cached_tokens") then [] else [("cache_read_input_tokens", JNum cached)]) ++
          (if is_nullish (extracted?."cache_write_tokens") then [] else [("cache_creation_input_tokens", JNum written)])).

Definition normalizeUsage (usage : jsval) : jsval :=
  if negb (is_object usage) then JObj []
  else
    let extracted := extractOpenaiUsage usage in
    let details := usage?."input_tokens_details" ||| usage?."prompt_tokens_details" ||| JObj [] in
    let input := usage?."input_tokens" ?? usage?."tokens_in" ?? usage?."prompt_tokens" ?? extracted?."input_tokens" in
    let output := usage?."output_tokens" ?? usage?."tokens_out" ?? usage?."completion_tokens" ?? extracted?."output_tokens" in
    let cacheRead := usage?."cache_read_tokens" ?? usage?."cache_read_input_tokens" ??
                     details?."cached_tokens" ?? extracted?."cached_tokens" in
    let cacheCreate := usage?."cache_creation_tokens" ?? usage?."cache_creation_input_tokens" ??
                       details?."cache_creation_tokens" ?? details?."cache_write_tokens" ?? extracted?."cache_write_tokens" in
    spread (own usage)
      (JObj [("input_tokens", input); ("output_tokens", output); ("cache_read_tokens", cacheRead);
             ("cache_read_input_tokens", usage?."cache_read_input_tokens" ?? cacheRead);
             ("cache_creation_tokens", cacheCreate);
             ("cache_creation_input_tokens", usage?."cache_creation_input_tokens" ?? cacheCreate)]).

(** ** Price tables *)

Record rates := { r_input : Q; r_output : Q; r_5m : Q; r_1h : Q; r_read : Q }.
Definition rate (i o c5 c1 r : Q) : rates := {| r_input := i; r_output := o; r_5m := c5; r_1h := c1; r_read := r |}.

(** USD per million tokens. *)
Definition OFFICIAL_RATES : list (string * rates) :=
  [("fable-5", rate 10 50 (25#2) 20 1);
   ("mythos-5", rate 10 50 (25#2) 20 1);
   ("opus-5", rate 5 25 (25#4) 10 (1#2));
   ("opus-4.5", rate 5 25 (25#4) 10 (1#2));
   ("opus-4", rate 15 75 (75#4) 30 (3#2));
   ("sonnet-5", rate 2 10 (5#2) 4 (1#5));
   ("sonnet-4", rate 3 15 (15#4) 6 (3#10));
   ("haiku-4.5", rate 1 5 (5#4) 2 (1#10));
   ("haiku-3.5", rate (4#5) 4 1 (8#5) (2#25))].

Definition FAMILY_ALIASES : list (string * string) :=
  [("fable", "fable-5"); ("mythos", "mythos-5"); ("opus", "opus-5"); ("sonnet", "sonnet-4"); ("haiku", "haiku-4.5")].

Fixpoint table_get {A} (k : string) (l : list (string * A)) : option A :=
  match l with [] => None | (k', v) :: r => if String.eqb k k' then Some v else table_get k r end.

(** [s.replace(/\[[^\]]+\]$/, '')] *)
Fixpoint strip_bracket (s : string) : string :=
  match s with
  | EmptyString => EmptyString
  | String c r =>
    if Ascii.eqb c "[" && rx_full (RSeq (rplus (RChr (fun d => negb (Ascii.eqb d "]")))) (lit "]")) r then EmptyString
    else String c (strip_bracket r)
  end.
(** [s.replace(/-fast$/i, '')] *)
Definition strip_fast (s : string) : string := if ends_with "-fast" (to_lower s) then drop_last 5 s else s.

(** [String(raw || '').split('/').filter(Boolean).pop() || ''] *)
Definition last_part (raw : jsval) : string :=
  match rev (List.filter nonempty (split_char "/" (str_or_empty raw))) with w :: _ => w | [] => "" end.
Definition normalizeModelId (raw : jsval) : string := to_lower (trim (strip_fast (strip_bracket (last_part raw)))).

Definition resolvePricingKey (raw : jsval) : option string :=
  let m := normalizeModelId raw in
  if String.eqb m "" then None
  else match table_get m FAMILY_ALIASES with
       | Some key => Some key
       | None =>
         if includes m "fable" then Some "fable-5"
         else if includes m "mythos" then Some "mythos-5"
         else if includes m "haiku-3-5" || includes m "haiku-3.5" then Some "haiku-3.5"
         else if includes m "haiku" then Some "haiku-4.5"
         else if includes m "sonnet-5" then Some "sonnet-5"
         else if includes m "sonnet" then Some "sonnet-4"
         else if includes m "opus-5" then Some "opus-5"
         else if rx_test (RSeq (lits ["opus-4-"; "opus-4."]) (one_of "56789")) m then Some "opus-4.5"
         else if includes m "opus" then Some "opus-4"
         else None
       end.

Definition resolveOfficialRates (raw : jsval) : option (string * rates) :=
  key ← resolvePricingKey raw; r ← table_get key OFFICIAL_RATES; Some (key, r).

(** OpenAI: [cache_write = 0] is not billed. *)
Record openai_rates := { oa_input : Q; oa_output : Q; oa_read : Q; oa_write : Q }.
Definition oa (i o r w : Q) : openai_rates := {| oa_input := i; oa_output := o; oa_read := r; oa_write := w |}.

Definition OPENAI_OFFICIAL_RATES : list (string * openai_rates) :=
  [("gpt-6-astra", oa 10 50 1 (25#2));
   ("gpt-5.6-sol", oa 5 30 (1#2) (25#4));
   ("gpt-5.6-terra", oa 2 12 (1#5) (5#2));
   ("gpt-5.6-luna", oa (1#5) (6#5) (1#50) (1#4));
   ("gpt-5.6", oa 5 30 (1#2) (25#4));
   ("gpt-5.5-pro", oa 30 180 0 0);
   ("gpt-5.5", oa 5 30 (1#2) 0);
   ("gpt-5.4-mini", oa (3#4) (9#2) (3#40) 0);
   ("gpt-5.4-nano", oa (1#5) (5#4) (1#50) 0);
   ("gpt-5.4-pro", oa 30 180 0 0);
   ("gpt-5.4", oa (5#2) 15 (1#4) 0);
   ("gpt-5.3-codex", oa (7#4) 14 (7#40) 0);
   ("gpt-5.2-pro", oa 21 168 0 0);
   ("gpt-5.2", oa (7#4) 14 (7#40) 0);
   ("gpt-5.1", oa (5#4) 10 (1#8) 0);
   ("gpt-5-mini", oa (1#4) 2 (1#40) 0);
   ("gpt-5-nano", oa (1#20) (2#5) (1#200) 0);
   ("gpt-5-pro", oa 15 120 0 0);
   ("gpt-5", oa (5#4) 10 (1#8) 0);
   ("gpt-4.1-mini", oa (2#5) (8#5) (1#10) 0);
   ("gpt-4.1-nano", oa (1#10) (2#5) (1#40) 0);
   ("gpt-4.1", oa 2 8 (1#2) 0);
   ("gpt-4o-2024-05-13", oa 5 15 0 0);
   ("gpt-4o-mini", oa (3#20) (3#5) (3#40) 0);
   ("gpt-4o", oa (5#2) 10 (5#4) 0);
   ("o1-pro", oa 150 600 0 0);
   ("o1", oa 15 60 (15#2) 0);
   ("o3-pro", oa 20 80 0 0);
   ("o3-mini", oa (11#10) (22#5) (11#20) 0);
   ("o3", oa 2 8 (1#2) 0);
   ("o4-mini", oa (11#10) (22#5) (11#40) 0);
   ("gpt-4-turbo", oa 10 30 0 0);
   ("gpt-4", oa 30 60 0 0);
   ("gpt-3.5-turbo-instruct", oa (3#2) 2 0 0);
   ("gpt-3.5-turbo-1106", oa 1 2 0 0);
   ("gpt-3.5-turbo", oa (1#2) (3#2) 0 0);
   ("gpt-5.1-codex-mini", oa (1#4) 2 (1#40) 0);
   ("gpt-5.3-chat-latest", oa (7#4) 14 (7#40) 0);
   ("gpt-5.6-cyber", oa (25#2) 75 (5#4) (125#8));
   ("gpt-5.5-cyber", oa (25#2) 75 (5#4) 0);
   ("chat-latest", oa 5 30 (1#2) 0);
   ("gpt-5-codex", oa (5#4) 10 (1#8) 0);
   ("gpt-5.1-codex", oa (5#4) 10 (1#8) 0);
   ("gpt-5.1-codex-max", oa (5#4) 10 (1#8) 0);
   ("gpt-5-chat-latest", oa (5#4) 10 (1#8) 0);
   ("gpt-5.1-chat-latest", oa (5#4) 10 (1#8) 0);
   ("gpt-5.2-codex", oa (7#4) 14 (7#40) 0);
   ("gpt-5.2-chat-latest", oa (7#4) 14 (7#40) 0)].

Definition OPENAI_ALIASES : list (string * string) :=
  [("gpt-3.5-turbo-0125", "gpt-3.5-turbo");
   ("gpt-4-0314", "gpt-4");
   ("gpt-4-0613", "gpt-4");
   ("gpt-4-turbo-2024-04-09", "gpt-4-turbo");
   ("gpt-4.1-2025-04-14", "gpt-4.1");
   ("gpt-4.1-mini-2025-04-14", "gpt-4.1-mini");
   ("gpt-4.1-nano-2025-04-14", "gpt-4.1-nano");
   ("gpt-4o-2024-08-06", "gpt-4o");
   ("gpt-4o-2024-11-20", "gpt-4o");
   ("gpt-4o-mini-2024-07-18", "gpt-4o-mini");
   ("gpt-5-2025-08-07", "gpt-5");
   ("gpt-5-mini-2025-08-07", "gpt-5-mini");
   ("gpt-5-nano-2025-08-07", "gpt-5-nano");
   ("gpt-5-pro-2025-10-06", "gpt-5-pro");
   ("gpt-5.1-2025-11-13", "gpt-5.1");
   ("gpt-5.2-2025-12-11", "gpt-5.2");
   ("gpt-5.2-pro-2025-12-11", "gpt-5.2-pro");
   ("gpt-5.4-2026-03-05", "gpt-5.4");
   ("gpt-5.4-mini-2026-03-17", "gpt-5.4-mini");
   ("gpt-5.4-nano-2026-03-17", "gpt-5.4-nano");
   ("gpt-5.4-pro-2026-03-05", "gpt-5.4-pro");
   ("gpt-5.5-2026-04-23", "gpt-5.5");
   ("gpt-5.5-pro-2026-04-23", "gpt-5.5-pro");
   ("gpt-daybreak-blue-latest", "gpt-5.6-sol");
   ("gpt-daybreak-red-latest", "gpt-5.6-cyber");
   ("o1-2024-12-17", "o1");
   ("o1-pro-2025-03-19", "o1-pro");
   ("o3-2025-04-16", "o3");
   ("o3-mini-2025-01-31", "o3-mini");
   ("o3-pro-2025-06-10", "o3-pro");
   ("o4-mini-2025-04-16", "o4-mini")].

(** The same normalisation as [normalizeModelId]. *)
Definition resolveOpenaiPricingKey (raw : jsval) : option string :=
  let m := to_lower (trim (strip_fast (strip_bracket (last_part raw)))) in
  if String.eqb m "" then None
  else match table_get m OPENAI_ALIASES with
       | Some key => Some key
       | None => match table_get m OPENAI_OFFICIAL_RATES with Some _ => Some m | None => None end
       end.

Definition resolveOpenaiOfficialRates (raw : jsval) : option (string * openai_rates) :=
  key ← resolveOpenaiPricingKey raw; r ← table_get key OPENAI_OFFICIAL_RATES; Some (key, r).

(** ** The cost of a request *)

(** The helper [n]: a positive count, else 0. *)
Definition n_of (v : jsval) : num :=
  let x := to_number v in if is_finite x && num_ltb (Fin 0) x then x else Fin 0.

Definition usd (tokens : num) (perMTok : Q) : num :=
  if negb (truthy (JNum tokens)) || Qeq_bool perMTok 0 then Fin 0
  else num_mul (num_div tokens (num_of_Z 1000000)) (Fin perMTok).

Definition round8 (v : num) : num :=
  num_div (num_round (num_mul (if truthy (JNum v) then v else Fin 0) (num_of_Z 100000000))) (num_of_Z 100000000).

Record cost := {
  c_model : jsval; pricing_key : option string; known : bool;
  input_tokens : num; output_tokens : num; cache_read_tokens : num; cache_5m_tokens : num; cache_1h_tokens : num;
  input_cost : num; output_cost : num; cache_read_cost : num; cache_creation_cost : num;
  cache_5m_cost : num; cache_1h_cost : num; total_cost : num;
}.

Definition emptyCost (mid : jsval) (input output read c5 c1 : num) : cost :=
  {| c_model := mid ||| JNull; pricing_key := None; known := false;
     input_tokens := input; output_tokens := output; cache_read_tokens := read; cache_5m_tokens := c5; cache_1h_tokens := c1;
     input_cost := Fin 0; output_cost := Fin 0; cache_read_cost := Fin 0; cache_creation_cost := Fin 0;
     cache_5m_cost := Fin 0; cache_1h_cost := Fin 0; total_cost := Fin 0 |}.

(** The billed quantities of a known OpenAI model. *)
Definition openai_cost (mid : jsval) (key : string) (r : openai_rates) (inputTokens outputTokens cacheRead cacheCreate : num) : cost :=
  if num_ltb inputTokens (num_add cacheRead cacheCreate)
  then emptyCost mid inputTokens outputTokens cacheRead cacheCreate (Fin 0)
  else
    let billedRead := if Qeq_bool (oa_read r) 0 then Fin 0 else cacheRead in
    let billedWrite := if Qeq_bool (oa_write r) 0 then Fin 0 else cacheCreate in
    let uncached := num_sub (num_sub inputTokens billedRead) billedWrite in
    let ic := usd uncached (oa_input r) in
    let oc := usd outputTokens (oa_output r) in
    let rc := usd billedRead (oa_read r) in
    let cc := usd billedWrite (oa_write r) in
    {| c_model := mid ||| JNull; pricing_key := Some key; known := true;
       input_tokens := uncached; output_tokens := outputTokens; cache_read_tokens := billedRead;
       cache_5m_tokens := billedWrite; cache_1h_tokens := Fin 0;
       input_cost := round8 ic; output_cost := round8 oc; cache_read_cost := round8 rc; cache_creation_cost := round8 cc;
       cache_5m_cost := round8 cc; cache_1h_cost := Fin 0;
       total_cost := round8 (num_add (num_add (num_add ic oc) rc) cc) |}.

(** Which lifetime the cache-creation tokens are charged at: 5m and 1h tokens. *)
Definition charge_ttl (cache_ttl : jsval) (cache5m cache1h cacheCreate : num) : num * num :=
  let zero x := negb (truthy (JNum x)) in
  let hour := bool_decide (normalizeCacheTtl cache_ttl = Hour) in
  if zero cache5m && zero cache1h && negb (zero cacheCreate)
  then (if hour then (cache5m, cacheCreate) else (cacheCreate, cache1h))
  else if hour && negb (zero cache5m) && zero cache1h then (Fin 0, cache5m)
  else (cache5m, cache1h).

Definition anthropic_cost (mid : jsval) (key : string) (r : rates) (inputTokens outputTokens cacheRead cache5m cache1h : num) : cost :=
  let ic := usd inputTokens (r_input r) in
  let oc := usd outputTokens (r_output r) in
  let rc := usd cacheRead (r_read r) in
  let c5 := usd cache5m (r_5m r) in
  let c1 := usd cache1h (r_1h r) in
  let cc := num_add c5 c1 in
  {| c_model := mid ||| JNull; pricing_key := Some key; known := true;
     input_tokens := inputTokens; output_tokens := outputTokens; cache_read_tokens := cacheRead;
     cache_5m_tokens := cache5m; cache_1h_tokens := cache1h;
     input_cost := round8 ic; output_cost := round8 oc; cache_read_cost := round8 rc; cache_creation_cost := round8 cc;
     cache_5m_cost := round8 c5; cache_1h_cost := round8 c1;
     total_cost := round8 (num_add (num_add (num_add ic oc) rc) cc) |}.

Definition calculateCost (usage model : jsval) : cost :=
  let u := normalizeUsage usage in
  let mid := model ||| u?."model" ||| u?."upstream_model" ||| u?."requested_model" ||| JStr "" in
  let outputTokens := n_of (u?."output_tokens") in
  let cacheRead := n_of (u?."cache_read_tokens") in
  let cache5m := n_of (u?."cache_creation_5m_tokens" ?? u?."cache_creation"?."ephemeral_5m_input_tokens") in
  let cache1h := n_of (u?."cache_creation_1h_tokens" ?? u?."cache_creation"?."ephemeral_1h_input_tokens") in
  let cacheCreate := n_of (u?."cache_creation_tokens") in
  let inputTokens := n_of (u?."input_tokens") in
  match resolveOpenaiOfficialRates mid with
  | Some (key, r) => openai_cost mid key r inputTokens outputTokens cacheRead cacheCreate
  | None =>
    let '(cache5m, cache1h) := charge_ttl (u?."cache_ttl") cache5m cache1h cacheCreate in
    match resolveOfficialRates mid with
    | Some (key, r) => anthropic_cost mid key r inputTokens outputTokens cacheRead cache5m cache1h
    | None => emptyCost mid inputTokens outputTokens cacheRead cache5m cache1h
    end
  end.

(** The columns written to the log; none is null. *)
Definition costColumnsFromUsage (usage model : jsval) : list (option num) * option string :=
  let c := calculateCost usage model in
  let col x := if known c then Some x else None in
  ([col (input_cost c); col (output_cost c); col (cache_read_cost c); col (cache_creation_cost c); col (total_cost c)],
   pricing_key c).

(** ** Buckets *)

Definition BUCKET_COUNTS : list string :=
  ["requests"; "success"; "errors"; "input_tokens"; "output_tokens"; "cache_read_tokens"; "cache_creation_tokens"].
Definition BUCKET_COSTS : list string := ["input_cost"; "output_cost"; "cache_read_cost"; "cache_creation_cost"; "total_cost"].

Definition emptyCostBucket : jsval := JObj (map (fun k => (k, jint 0)) (BUCKET_COUNTS ++ BUCKET_COSTS)).

(** One row of the loop of [sumCostBuckets]. *)
Definition add_count (r out : jsval) (k : string) : jsval :=
  with_field out k (JNum (num_add (to_number (out?.k)) (n_of (r?.k)))).
Definition add_cost (r out : jsval) (k : string) : jsval :=
  with_field out k (JNum (round8 (num_add (to_number (out?.k)) (n_of (r?.k))))).
Definition add_row (out r : jsval) : jsval := foldl (add_cost r) (foldl (add_count r) out BUCKET_COUNTS) BUCKET_COSTS.

Definition sumCostBuckets (rows : list jsval) : jsval := foldl add_row emptyCostBucket rows.

Example pricing_ex : map (fun s => resolvePricingKey (JStr s))
  ["anthropic/claude-opus-4-5-20251101"; "claude-opus-4-1"; "Sonnet"; "claude-sonnet-5[1m]"; "claude-opus-5-fast"; "gpt-5"; ""]
  = [Some "opus-4.5"; Some "opus-4"; Some "sonnet-4"; Some "sonnet-5"; Some "opus-5"; None; None].
Proof. vm_compute. reflexivity. Qed.

Example cost_ex :
  let c := calculateCost (JObj [("input_tokens", jint 1000); ("output_tokens", jint 200); ("cache_read_input_tokens", jint 5000);
                                ("cache_creation_input_tokens", jint 400); ("cache_ttl", JStr "5m")]) (JStr "claude-sonnet-5") in
  (total_cost c, cache_5m_tokens c, pricing_key c) = (Fin (3#500), num_of_Z 400, Some "sonnet-5").
Proof. vm_compute. reflexivity. Qed.

(** ** What is charged *)

Lemma n_of_spec v : exists q, n_of v = Fin q /\ (0 <= q)%Q.
Proof.
  unfold n_of. destruct (to_number v) as [q| | |]; cbn [is_finite andb]; try (exists 0%Q; split; [reflexivity|lra]).
  destruct (num_ltb (Fin 0) (Fin q)) eqn:E; [|exists 0%Q; split; [reflexivity|lra]].
  exists q. split; [done|]. apply num_ltb_Fin in E. lra.
Qed.

Lemma usd_spec q p : exists u, usd (Fin q) p = Fin u /\ (u == q * p / 1000000)%Q.
Proof.
  unfold usd. cbn [truthy]. rewrite negb_involutive. destruct (Qeq_bool q 0) eqn:Eq; cbn [orb].
  - exists 0%Q. split; [done|]. q_props. rewrite Eq. field.
  - destruct (Qeq_bool p 0) eqn:Ep; [exists 0%Q; split; [done|]; q_props; rewrite Ep; field|].
    cbn [num_div num_of_Z]. replace (Qeq_bool (inject_Z 1000000) 0) with false by reflexivity. cbn [num_mul].
    eexists. split; [reflexivity|]. rewrite !Qred_correct. change (inject_Z 1000000) with 1000000%Q. field.
Qed.

Lemma add_spec a b : exists s, num_add (Fin a) (Fin b) = Fin s /\ (s == a + b)%Q.
Proof. eexists. split; [reflexivity|]. apply Qred_correct. Qed.

(** Rounding to eight decimals moves a price by half a unit of the last one at most. *)
Lemma round8_spec q : exists r, round8 (Fin q) = Fin r /\ (- (1 # 200000000) <= r - q <= 1 # 200000000)%Q /\ ((0 <= q)%Q -> (0 <= r)%Q).
Proof.
  unfold round8. assert (Hq : (if truthy (JNum (Fin q)) then Fin q else Fin 0) = Fin q \/ (q == 0)%Q /\ (if truthy (JNum (Fin q)) then Fin q else Fin 0) = Fin 0).
  { cbn [truthy]. destruct (Qeq_bool q 0) eqn:E; cbn [negb]; [right|by left]. q_props. by split. }
  destruct Hq as [->|[Hq ->]].
  2:{ exists 0%Q. split; [reflexivity|]. split; [rewrite Hq; lra|intros _; lra]. }
  cbn [num_mul num_of_Z num_round num_div]. replace (Qeq_bool (inject_Z 100000000) 0) with false by reflexivity.
  eexists. split; [reflexivity|]. rewrite Qred_correct. set (x := Qred (q * inject_Z 100000000)).
  assert (Hx : (x == q * 100000000)%Q) by apply Qred_correct.
  pose proof (Qfloor_le (x + (1 # 2))) as H1. pose proof (Qlt_floor (x + (1 # 2))) as H2. rewrite inject_Z_plus in H2.
  change (inject_Z 1) with 1%Q in H2. change (inject_Z 100000000) with 100000000%Q.
  set (z := inject_Z (Qfloor (x + (1 # 2)))) in *.
  assert (Hz : (z / 100000000 == z * (1 # 100000000))%Q) by field. rewrite Hz. split; [lra|]. intros Hp.
  enough (0 <= z)%Q by lra. subst z. rewrite <- (Zle_Qle 0). change 0%Z with (Qfloor 0). apply Qfloor_resp_le. lra.
Qed.

(** The charge of a cost record at the prices [pi .. p1] (USD per million): every count is a
    non-negative number, the total is the exact price up to half a unit of its eighth
    decimal, and the parts are rounded the same way. *)
Definition near (n : num) (q : Q) : Prop :=
  exists r, n = Fin r /\ (- (1 # 200000000) <= r - q <= 1 # 200000000)%Q /\ (0 <= r)%Q.

Definition priced (c : cost) (pi po pr p5 p1 : Q) : Prop :=
  exists i o r c5 c1 : Q,
    (0 <= i)%Q /\ (0 <= o)%Q /\ (0 <= r)%Q /\ (0 <= c5)%Q /\ (0 <= c1)%Q /\
    input_tokens c = Fin i /\ output_tokens c = Fin o /\ cache_read_tokens c = Fin r /\
    cache_5m_tokens c = Fin c5 /\ cache_1h_tokens c = Fin c1 /\
    near (input_cost c) (i * pi / 1000000) /\ near (output_cost c) (o * po / 1000000) /\
    near (cache_read_cost c) (r * pr / 1000000) /\ near (cache_creation_cost c) ((c5 * p5 + c1 * p1) / 1000000) /\
    near (total_cost c) ((i * pi + o * po + r * pr + c5 * p5 + c1 * p1) / 1000000).

Lemma round8_near q e : (q == e)%Q -> (0 <= e)%Q -> near (round8 (Fin q)) e.
Proof.
  intros He Hp. destruct (round8_spec q) as (r & -> & H1 & H2). exists r. split; [done|].
  split; [split; rewrite <- He; apply H1|]. apply H2. by rewrite He.
Qed.

Lemma million_nonneg a : (0 <= a)%Q -> (0 <= a / 1000000)%Q.
Proof. intros H. assert (E : (a / 1000000 == a * (1 # 1000000))%Q) by field. rewrite E. nra. Qed.

(** The charged parts and their sum; [cc]: the cache-creation part. *)
Lemma charge_near i o r pi po pr cc ec :
  (0 <= i)%Q -> (0 <= o)%Q -> (0 <= r)%Q -> (0 <= pi)%Q -> (0 <= po)%Q -> (0 <= pr)%Q ->
  (exists uc, cc = Fin uc /\ (uc == ec / 1000000)%Q) -> (0 <= ec)%Q ->
  near (round8 (usd (Fin i) pi)) (i * pi / 1000000) /\ near (round8 (usd (Fin o) po)) (o * po / 1000000) /\
  near (round8 (usd (Fin r) pr)) (r * pr / 1000000) /\ near (round8 cc) (ec / 1000000) /\
  near (round8 (num_add (num_add (num_add (usd (Fin i) pi) (usd (Fin o) po)) (usd (Fin r) pr)) cc))
    ((i * pi + o * po + r * pr + ec) / 1000000).
Proof.
  intros Hi Ho Hr Hpi Hpo Hpr (uc & -> & Ec) He.
  destruct (usd_spec i pi) as (ui & -> & Ei), (usd_spec o po) as (uo & -> & Eo), (usd_spec r pr) as (ur & -> & Er).
  destruct (add_spec ui uo) as (s1 & -> & Es1), (add_spec s1 ur) as (s2 & -> & Es2), (add_spec s2 uc) as (s3 & -> & Es3).
  assert (0 <= i * pi)%Q by nra. assert (0 <= o * po)%Q by nra. assert (0 <= r * pr)%Q by nra.
  split; [|split; [|split; [|split]]]; (apply round8_near; [|apply million_nonneg; lra]);
    rewrite ?Es3, ?Es2, ?Es1, ?Ec, ?Ei, ?Eo, ?Er; try reflexivity; field.
Qed.

Lemma near_ext n a b : (a == b)%Q -> near n a -> near n b.
Proof. intros H (r & -> & [H1 H2] & H3). exists r. split; [done|]. split; [split; rewrite <- H; done|done]. Qed.

Definition prices_ok (r : rates) : bool :=
  Qle_bool 0 (r_input r) && Qle_bool 0 (r_output r) && Qle_bool 0 (r_5m r) && Qle_bool 0 (r_1h r) && Qle_bool 0 (r_read r).
Definition openai_prices_ok (r : openai_rates) : bool :=
  Qle_bool 0 (oa_input r) && Qle_bool 0 (oa_output r) && Qle_bool 0 (oa_read r) && Qle_bool 0 (oa_write r).

Lemma table_get_forallb {A} (ok : A -> bool) l k v : forallb (fun p => ok p.2) l = true -> table_get k l = Some v -> ok v = true.
Proof.
  induction l as [|[k' w] l IH]; cbn [forallb table_get snd]; [done|]. intros [H1 H2]%andb_true_iff.
  destruct (String.eqb k k'); [by intros [= <-]|by apply IH].
Qed.

(** Charging by lifetime moves cache-creation tokens between the two rates and loses none. *)
Lemma charge_ttl_spec t a b c : exists c5 c1 : Q, (0 <= a)%Q -> (0 <= b)%Q -> (0 <= c)%Q ->
  charge_ttl t (Fin a) (Fin b) (Fin c) = (Fin c5, Fin c1) /\ (0 <= c5)%Q /\ (0 <= c1)%Q /\
  (c5 + c1 == if Qeq_bool a 0 && Qeq_bool b 0 then c else a + b)%Q /\
  (normalizeCacheTtl t = Hour -> (b == 0)%Q -> (c5 == 0)%Q).
Proof.
  unfold charge_ttl. cbn [truthy]. rewrite !negb_involutive.
  destruct (Qeq_bool a 0) eqn:Ea, (Qeq_bool b 0) eqn:Eb, (Qeq_bool c 0) eqn:Ec;
    destruct (bool_decide (normalizeCacheTtl t = Hour)) eqn:Eh; cbn [andb negb];
    (eexists; eexists; intros Ha Hb Hc; split; [reflexivity|]); q_props;
    (split; [first [assumption|lra]|]); (split; [first [assumption|lra]|]); (split; [lra|]);
    intros Hn Hz; first [apply bool_decide_eq_false in Eh; done|apply Qeq_bool_neq in Eb; by destruct (Eb Hz)|lra].
Qed.

Definition price_table_of (c : cost) (key : string) : Prop :=
  (exists r, table_get key OPENAI_OFFICIAL_RATES = Some r /\ priced c (oa_input r) (oa_output r) (oa_read r) (oa_write r) 0) \/
  (exists r, table_get key OFFICIAL_RATES = Some r /\ priced c (r_input r) (r_output r) (r_read r) (r_5m r) (r_1h r)).

Lemma openai_cost_spec mid key r i o rd w : table_get key OPENAI_OFFICIAL_RATES = Some r ->
  (0 <= i)%Q -> (0 <= o)%Q -> (0 <= rd)%Q -> (0 <= w)%Q ->
  let c := openai_cost mid key r (Fin i) (Fin o) (Fin rd) (Fin w) in
  (known c = false -> total_cost c = Fin 0 /\ pricing_key c = None) /\
  (known c = true -> pricing_key c = Some key /\
    priced c (oa_input r) (oa_output r) (oa_read r) (oa_write r) 0 /\
    exists a b d, input_tokens c = Fin a /\ cache_read_tokens c = Fin b /\ cache_5m_tokens c = Fin d /\ (a + b + d == i)%Q).
Proof.
  intros Hr Hi Ho Hrd Hw c. subst c. unfold openai_cost. destruct (add_spec rd w) as (s & -> & Es).
  destruct (num_ltb (Fin i) (Fin s)) eqn:E; [by split|]. split; [done|]. intros _. split; [done|].
  assert (Hsum : (rd + w <= i)%Q).
  { destruct (Qlt_le_dec i s) as [Hl|Hl]; [|lra]. apply num_ltb_Fin in Hl. congruence. }
  apply (table_get_forallb openai_prices_ok) in Hr; [|vm_compute; reflexivity].
  unfold openai_prices_ok in Hr. repeat rewrite andb_true_iff in Hr. destruct Hr as [[[H1 H2] H3] H4]. q_props.
  assert (Hbr : exists br, (if Qeq_bool (oa_read r) 0 then Fin 0 else Fin rd) = Fin br /\ (0 <= br <= rd)%Q)
    by (destruct (Qeq_bool (oa_read r) 0); eexists; (split; [reflexivity|lra])).
  assert (Hbw : exists bw, (if Qeq_bool (oa_write r) 0 then Fin 0 else Fin w) = Fin bw /\ (0 <= bw <= w)%Q)
    by (destruct (Qeq_bool (oa_write r) 0); eexists; (split; [reflexivity|lra])).
  destruct Hbr as (br & -> & Hbr), Hbw as (bw & -> & Hbw).
  destruct (sub_spec i br) as (x & -> & Ex). destruct (sub_spec x bw) as (u & -> & Eu).
  assert (Hu : (0 <= u)%Q) by lra.
  destruct (usd_spec bw (oa_write r)) as (uw & Ew & Hw').
  destruct (charge_near u o br (oa_input r) (oa_output r) (oa_read r) (usd (Fin bw) (oa_write r)) (bw * oa_write r))
    as (N1 & N2 & N3 & N4 & N5); try lra; [exists uw; by split|nra|].
  split; [|exists u, br, bw; repeat split; lra].
  exists u, o, br, bw, 0%Q. repeat (split; [first [lra|reflexivity]|]). split; [exact N1|]. split; [exact N2|]. split; [exact N3|].
  split; [eapply near_ext; [|exact N4]|eapply near_ext; [|exact N5]]; apply Qmult_comp; try reflexivity; lra.
Qed.

Lemma anthropic_cost_spec mid key r i o rd c5 c1 : table_get key OFFICIAL_RATES = Some r ->
  (0 <= i)%Q -> (0 <= o)%Q -> (0 <= rd)%Q -> (0 <= c5)%Q -> (0 <= c1)%Q ->
  priced (anthropic_cost mid key r (Fin i) (Fin o) (Fin rd) (Fin c5) (Fin c1)) (r_input r) (r_output r) (r_read r) (r_5m r) (r_1h r).
Proof.
  intros Hr Hi Ho Hrd H5 H1. apply (table_get_forallb prices_ok) in Hr; [|vm_compute; reflexivity].
  unfold prices_ok in Hr. repeat rewrite andb_true_iff in Hr. destruct Hr as [[[[P1 P2] P3] P4] P5]. q_props.
  destruct (usd_spec c5 (r_5m r)) as (u5 & E5 & Q5), (usd_spec c1 (r_1h r)) as (u1 & E1 & Q1). destruct (add_spec u5 u1) as (uc & Ec & Qc).
  destruct (charge_near i o rd (r_input r) (r_output r) (r_read r) (num_add (usd (Fin c5) (r_5m r)) (usd (Fin c1) (r_1h r)))
    (c5 * r_5m r + c1 * r_1h r)) as (N1 & N2 & N3 & N4 & N5); try lra.
  - exists uc. rewrite E5, E1, Ec. split; [done|]. rewrite Qc, Q5, Q1. field.
  - assert (0 <= c5 * r_5m r)%Q by nra. assert (0 <= c1 * r_1h r)%Q by nra. lra.
  - exists i, o, rd, c5, c1. repeat (split; [first [lra|reflexivity]|]). repeat (split; [assumption|]).
    eapply near_ext; [|exact N5]. apply Qmult_comp; [|reflexivity]. lra.
Qed.

(** What a request is charged.  An unknown model costs nothing.  For a known one the key
    is in a price table, every count is non-negative, each part and the total are the exact
    price of the counts up to half a unit of the eighth decimal; with an OpenAI model the
    input, cached and cache-write counts add up to the reported input, so no token is
    charged twice. *)
Theorem cost_exact usage model :
  (known (calculateCost usage model) = false ->
     total_cost (calculateCost usage model) = Fin 0 /\ pricing_key (calculateCost usage model) = None) /\
  (known (calculateCost usage model) = true ->
     exists key, pricing_key (calculateCost usage model) = Some key /\ price_table_of (calculateCost usage model) key) /\
  (forall key r, resolveOpenaiOfficialRates (model ||| normalizeUsage usage?."model" ||| normalizeUsage usage?."upstream_model" |||
       normalizeUsage usage?."requested_model" ||| JStr "") = Some (key, r) -> known (calculateCost usage model) = true ->
     exists a b d i, input_tokens (calculateCost usage model) = Fin a /\ cache_read_tokens (calculateCost usage model) = Fin b /\
       cache_5m_tokens (calculateCost usage model) = Fin d /\ n_of (normalizeUsage usage?."input_tokens") = Fin i /\ (a + b + d == i)%Q).
Proof.
  unfold calculateCost. set (u := normalizeUsage usage). set (mid := model ||| _ ||| _ ||| _ ||| _).
  destruct (n_of_spec (u?."output_tokens")) as (o & -> & Ho), (n_of_spec (u?."cache_read_tokens")) as (rd & -> & Hrd),
    (n_of_spec (u?."cache_creation_5m_tokens" ?? u?."cache_creation"?."ephemeral_5m_input_tokens")) as (c5 & -> & H5),
    (n_of_spec (u?."cache_creation_1h_tokens" ?? u?."cache_creation"?."ephemeral_1h_input_tokens")) as (c1 & -> & H1),
    (n_of_spec (u?."cache_creation_tokens")) as (cc & -> & Hcc), (n_of_spec (u?."input_tokens")) as (i & -> & Hi).
  destruct (resolveOpenaiOfficialRates mid) as [[key r]|] eqn:Eo.
  - assert (Hr : table_get key OPENAI_OFFICIAL_RATES = Some r).
    { apply bind_Some in Eo as (k & _ & Eo). by apply bind_Some in Eo as (r' & Hr & [= <- <-]). }
    destruct (openai_cost_spec mid key r i o rd cc Hr Hi Ho Hrd Hcc) as [Hu Hk]. split; [exact Hu|]. split.
    + intros Hkn. destruct (Hk Hkn) as (-> & Hp & _). exists key. split; [done|]. left. by exists r.
    + intros k' r' _ Hkn. destruct (Hk Hkn) as (_ & _ & a & b & d & H). exists a, b, d, i. tauto.
  - destruct (charge_ttl_spec (u?."cache_ttl") c5 c1 cc) as (x & y & Hxy). destruct (Hxy H5 H1 Hcc) as (-> & Hx & Hy & _).
    split; [|split; [|done]].
    + destruct (resolveOfficialRates mid) as [[key r]|]; intros Hf; [discriminate Hf|by split].
    + destruct (resolveOfficialRates mid) as [[key r]|] eqn:Er; [|intros Hf; discriminate Hf]. intros _. exists key. split; [done|]. right. exists r.
      assert (Hr : table_get key OFFICIAL_RATES = Some r).
      { apply bind_Some in Er as (k & _ & Er). by apply bind_Some in Er as (r' & Hr & [= <- <-]). }
      split; [done|]. by apply anthropic_cost_spec.
Qed.
