(* ===== verification/QuotaRecord.v ===== *)
(** * The rate-limit record of an account (the functions below the class of
    src/src/lib/pool/account-quota.mjs)

    What response headers, the official usage answer and the CLI's rate-limit events write
    into the [unified] record.  The source mutates [acc.unified]; here each function takes
    and returns it. *)

From S2P Require Import Prelude.
From S2P Require Import JsValue.
From S2P Require Import JsRegex.
From S2P Require Import JsText.
From S2P Require Import JsDate.
From S2P Require Import QuotaWindow.
From S2P Require Import TierPolicy.
#[local] Open Scope string_scope.
#[local] Open Scope list_scope.
#[local] Open Scope js_scope.

(** [v[k] = f(v[k])] *)
Definition update (v : jsval) (k : string) (f : jsval -> jsval) : jsval := with_field v k (f (v?.k)).

(** [v ||= {}] *)
Definition or_empty (v : jsval) : jsval := v ||| JObj [].

Definition HEADER : string := "anthropic-ratelimit-unified-".

Definition extraHeadersFromLimitError (message headers : jsval) : jsval :=
  let h := JObj (entries headers) in
  if existsb (fun key => rx_test_i (lit "ratelimit-unified-5h") key) (keys h) then h
  else if negb (rx_test_i (lit "hit your limit") (str_or_empty message)) then h
  else with_field (with_field h "anthropic-ratelimit-unified-5h-status" (JStr "rejected"))
         "anthropic-ratelimit-unified-5h-utilization" (JStr "1").

(** A [Headers] object is given as the object of its entries. *)
Definition normalizeHeaders (headers : jsval) : jsval :=
  JObj (foldl (fun o p => set_field (to_lower p.1) p.2 o) [] (entries headers)).

(** [num]: none is null. *)
Definition num_field (v : jsval) : option num :=
  if is_nullish v || is_str v "" then None
  else let n := to_number v in if is_finite n then Some n else None.
Definition opt_num (v : option num) : jsval := match v with Some n => JNum n | None => JNull end.

Definition isUnifiedRejected (h : jsval) : bool :=
  isRejectedStatus (h?."anthropic-ratelimit-unified-5h-status") || isRejectedStatus (h?."anthropic-ratelimit-unified-7d-status").

Definition statusFromUtil (u : num) : string :=
  if num_leb (Fin 1) u then "rate_limited" else if num_leb (dec 17 20) u then "warning" else "active".

(** An incoming window: [undefined] fields are absent. *)
Definition window (utilization reset status : jsval) : jsval :=
  JObj [("utilization", utilization); ("reset", reset); ("status", status)].

Definition writeHeaderWindow (unified : jsval) (key : string) (incoming : jsval) : jsval :=
  let headers := or_empty (unified?."headers") in
  let cur := or_empty (headers?.key) in
  let next :=
    window (if is_nullish (incoming?."utilization") then cur?."utilization" ?? JNull else incoming?."utilization")
           (incoming?."reset" ||| incoming?."resets_at" ||| cur?."reset" ||| JNull)
           (incoming?."status" ||| cur?."status" ||| JNull) in
  let typ := incoming?."rate_limit_type" ||| cur?."rate_limit_type" in
  let next := if truthy typ then with_field next "rate_limit_type" typ else next in
  with_field unified "headers" (with_field headers key next).

Definition officialUtilToExtra (value : jsval) : option num :=
  if is_nullish value || is_str value "" then None
  else
    let n := to_number value in
    if negb (is_finite n) then None
    else Some (if num_ltb (Fin (3 # 2)) n then num_div n (num_of_Z 100) else n).

(** [officialLooksLimited] and [officialOpen], which is its negation. *)
Definition officialLooksLimited (w : jsval) : bool := isLimited (w?."status") (w?."utilization").
Definition officialLooksOpen (w : jsval) : bool := negb (officialLooksLimited w).
Definition officialOpen (w : jsval) : bool :=
  let u := to_number (w?."utilization") in
  if isRejectedStatus (w?."status") then false else negb (is_finite u && num_leb (Fin 1) u).

Definition shouldCopyOfficialToExtra (official extra : jsval) (now : num) : bool :=
  if negb (truthy official) ||
     (is_nullish (official?."utilization") && negb (truthy (official?."status")) &&
      negb (truthy (official?."reset")) && negb (truthy (official?."resets_at")))
  then false
  else if extraIsLiveOpen extra now then
    if officialLooksLimited official then false
    else
      let eu := to_number (extra?."utilization") in
      negb (match officialUtilToExtra (official?."utilization") with
            | Some ou => is_finite eu && num_leb ou (dec 3 20) && num_leb (dec 2 5) eu
            | None => false
            end)
  else
    let extraElapsed := elapsed (parseResetMs (extra?."reset")) now in
    if negb (truthy extra) || (is_nullish (extra?."utilization") && negb (truthy (extra?."status")) && negb (truthy (extra?."reset")))
    then true
    else if extraElapsed then officialLooksOpen official
    else officialLooksLimited extra && officialLooksOpen official.

(** One turn of the loop of [syncActiveToPassive]. *)
Definition sync_key (now : num) (unified : jsval) (key : string) : jsval :=
  let src := unified?."official"?.key ||| unified?.key in
  let extra := unified?."headers"?.key in
  let officialReset := src?."reset" ||| src?."resets_at" ||| JNull in
  if negb (shouldCopyOfficialToExtra src extra now) then
    if truthy officialReset && truthy extra && negb (truthy (extra?."reset"))
    then writeHeaderWindow unified key (JObj [("reset", officialReset)]) else unified
  else writeHeaderWindow unified key
         (window (opt_num (officialUtilToExtra (src?."utilization")))
                 (officialReset ||| extra?."reset" ||| JNull) (src?."status" ||| JNull)).

(** The Fable window of [syncActiveToPassive]. *)
Definition sync_oi (unified : jsval) : jsval :=
  let oi := unified?."7d_oi" in
  if truthy oi && (negb (is_nullish (oi?."utilization")) || truthy (oi?."status") || truthy (oi?."reset")) then
    let cur := unified?."headers"?."7d_oi" in
    update unified "headers" (fun h => with_field h "7d_oi"
      (window (opt_num (officialUtilToExtra (oi?."utilization")) ?? cur?."utilization" ?? JNull)
              (oi?."reset" ||| cur?."reset" ||| JNull) (oi?."status" ||| cur?."status" ||| JNull)))
  else unified.

Definition syncActiveToPassive (unified : jsval) (sampledAt : jsval) (now : Z) : jsval :=
  let u := with_field unified "headers" (or_empty (unified?."headers")) in
  let u := foldl (sync_key (num_of_Z now)) u ["5h"; "7d"] in
  let u := sync_oi u in
  update u "headers" (fun h => with_field h "sampled_at" (sampledAt ||| iso_now now)).

(** [row.source === 'headers' && row.util_5h != null] among the recent allocations. *)
Definition lastHeaderAllocation (rows : list jsval) : jsval :=
  default JNull (List.find (fun row => is_str (row?."source") "headers" && negb (is_nullish (row?."util_5h"))) rows).

(** [expireUsageProbeBackoff] on the account: the account and whether it changed. *)
Definition drop_rate_limited (holder : jsval) : jsval * bool :=
  if truthy (holder?."last_probe"?."rate_limited")
  then (update holder "last_probe" (fun p => with_field p "rate_limited" (JBool false)), true)
  else (holder, false).
Definition expireUsageProbeBackoff (acc : jsval) (now : num) : jsval * bool :=
  if negb (truthy (acc?."unified")) then (acc, false)
  else
    let until := date_parse (to_string (acc?."unified"?."usage_rate_limited_until" ||| JStr "")) in
    if is_finite until && num_ltb now until then (acc, false)
    else
      let '(unified, c1) :=
        if truthy (acc?."unified"?."usage_rate_limited_until")
        then (without (acc?."unified") "usage_rate_limited_until", true) else (acc?."unified", false) in
      let '(acc, c2) := drop_rate_limited acc in
      let '(unified, c3) := drop_rate_limited unified in
      (with_field acc "unified" unified, c1 || c2 || c3).

(** [healOfficialOverwriteExtra]; [rows]: the recent allocations, newest last. *)
Definition healOfficialOverwriteExtra (acc : jsval) (rows : list jsval) (now : num) : jsval * bool :=
  let unified := acc?."unified" in
  if negb (truthy (unified?."headers")) then (acc, false)
  else
    let extra := unified?."headers"?."5h" in
    let official := officialWindow unified "5h" in
    if negb (officialLooksLimited extra) || negb (officialLooksLimited official) then (acc, false)
    else if extraIsLiveOpen extra now then (acc, false)
    else
      let sampled := unified?."headers"?."sampled_at" in
      let probeAt := acc?."last_probe"?."at" ||| unified?."last_probe"?."at" in
      let apart :=
        let d := num_sub (date_parse (to_string sampled)) (date_parse (to_string probeAt)) in
        is_finite (date_parse (to_string sampled)) && is_finite (date_parse (to_string probeAt)) &&
        (num_ltb (num_of_Z 5000) d || num_ltb d (num_of_Z (-5000))) in
      if truthy sampled && truthy probeAt && apart then (acc, false)
      else
        let last := lastHeaderAllocation rows in
        let prev := to_number (last?."util_5h") in
        if negb (is_finite prev) || num_leb (dec 19 20) prev || is_nullish last then (acc, false)
        else
          let u := writeHeaderWindow unified "5h"
                     (window (JNum prev) (extra?."reset" ||| last?."reset_5h" ||| official?."reset" ||| JNull)
                             (last?."status_5h" ||| JStr "allowed")) in
          (with_field acc "unified" (update u "headers" (fun h => with_field h "exhausted_at" JNull)), true).

(** [window[k]] for a header name. *)
Definition header_num (h : jsval) (name : string) : option num := num_field (h?.(HEADER ++ name)%string).
Definition header (h : jsval) (name : string) : jsval := h?.(HEADER ++ name)%string.

Definition rejected_window (h : jsval) (key : string) : jsval :=
  window (opt_num (header_num h (key ++ "-utilization"))) (header h (key ++ "-reset")) (JStr "rejected").

Definition applyHeaderExhausted (unified h : jsval) (now : Z) : jsval :=
  let hit5 := isRejectedStatus (header h "5h-status") in
  let hit7 := isRejectedStatus (header h "7d-status") in
  let u := if hit7 then writeHeaderWindow unified "7d" (rejected_window h "7d") else unified in
  let u := if hit5 || negb hit7 then writeHeaderWindow u "5h" (rejected_window h "5h") else u in
  update u "headers" (fun hs => with_field hs "exhausted_at" (iso_now now)).

Definition windowIsFull (status utilization : jsval) : bool :=
  let n := to_number utilization in
  if negb (is_nullish utilization) && is_finite n then num_leb (Fin 1) n else isRejectedStatus status.

Definition statusFromProbeWindow (utilization incomingStatus : jsval) : jsval :=
  let n := to_number utilization in
  if negb (is_nullish utilization) && is_finite n then
    if num_leb (Fin 1) n then JStr "rejected"
    else
      let s := to_lower (str_or_empty incomingStatus) in
      if String.eqb s "allowed" || String.eqb s "allowed_warning" || String.eqb s "active" then incomingStatus
      else JStr (statusFromUtil n)
  else incomingStatus ||| JNull.

(** None is null: nothing is reported. *)
Definition applyOfficialWindow (incoming : jsval) : option jsval :=
  if is_nullish (incoming?."utilization") && negb (truthy (incoming?."status")) &&
     negb (truthy (incoming?."resets_at")) && negb (truthy (incoming?."reset"))
  then None
  else
    let utilization :=
      if is_nullish (incoming?."utilization") then JNull else JNum (num_or_zero (incoming?."utilization")) in
    Some (JObj ([("utilization", utilization);
                 ("reset", incoming?."resets_at" ||| incoming?."reset" ||| JNull);
                 ("status", statusFromProbeWindow utilization (incoming?."status") ||| JStr "allowed")] ++
                (if truthy (incoming?."stale")
                 then [("stale", JBool true); ("stale_reason", incoming?."stale_reason" ||| JNull)] else []))).

Definition applyProbeWindow (existing incoming : jsval) : jsval :=
  match applyOfficialWindow incoming with
  | Some w => w
  | None => existing ||| JObj [("utilization", jint 0); ("reset", JNull); ("status", JStr "active")]
  end.

Definition writeOfficialWindow (unified : jsval) (key : string) (incoming : jsval) (now : Z) : jsval :=
  match applyOfficialWindow incoming with
  | None => unified
  | Some next =>
    let official := with_field (or_empty (unified?."official")) key next in
    with_field (with_field unified "official" (with_field official "updated_at" (iso_now now))) key next
  end.

(** [headers[k] = {...headers[k], status: 'allowed'}] when it is leftover rejected. *)
Definition allow_key (o : jsval) (key : string) (headers : jsval) : jsval :=
  if officialOpen o && truthy (headers?.key) && isRejectedStatus (headers?.key?."status")
  then with_field headers key (with_own (headers?.key) "status" (JStr "allowed")) else headers.

Definition clearHeaderExhaustIfOfficialOpen (unified : jsval) : jsval :=
  let headers := unified?."headers" in
  if negb (truthy headers) then unified
  else
    let o5 := unified?."official"?."5h" ||| unified?."5h" in
    let o7 := unified?."official"?."7d" ||| unified?."7d" in
    let headers := allow_key o7 "7d" (allow_key o5 "5h" headers) in
    with_field unified "headers"
      (if officialOpen o5 && officialOpen o7 then with_field headers "exhausted_at" JNull else headers).

(** Seconds below 10^12, milliseconds above; a date out of range is none (the RangeError). *)
Definition epochToIso (v : jsval) : option jsval :=
  if is_nullish v || is_str v "" then Some JNull
  else
    let n := to_number v in
    if negb (is_finite n) then Some (JStr (to_string v))
    else JStr <$> num_to_iso (if num_ltb n (num_of_Z 1000000000000) then num_mul n (num_of_Z 1000) else n).

Definition TRANSPORT_WORDS : list string := ["socks"; "transport"; "worker_error"; "upstream_transport"; "refusing socks"; "socket"].
Definition GREETING_WORDS : list string :=
  ["socks"; "greeting"; "reset by peer"; "transport"; "worker_error"; "upstream_transport"; "refusing socks"].

Definition isFableTransportFailure (probe : jsval) : bool :=
  let fable := or_empty (probe?."fable") in
  if truthy (fable?."transport") then true
  else if truthy (probe?."transportError") || truthy (probe?."transport") then true
  else
    let status := to_number (fable?."status" ||| jint 0) in
    let err := str_or_empty (fable?."error" ||| probe?."error" ||| probe?."usage_error") in
    (num_eqb status (Fin 0) && rx_test_i (lits TRANSPORT_WORDS) err) ||
    ((num_eqb status (num_of_Z 502) || num_eqb status (Fin 0)) && rx_test_i (lits GREETING_WORDS) err).

Example epoch_ex : epochToIso (jint 1709164800) = Some (JStr "2024-02-29T00:00:00.000Z")
  /\ epochToIso (JStr "soon") = Some (JStr "soon") /\ epochToIso JNull = Some JNull.
Proof. vm_compute. repeat split. Qed.
