(* ===== verification/AccountStore.v ===== *)
(** * The account tables and their two facades
    (src/src/lib/db/repos/accounts-repo.mjs, account-runtime-repo.mjs)

    [tables] holds the rows of accounts, account_runtime, account_allocations and
    account_groups (schema: src/src/lib/db/migrations).  A row is the object [SELECT *]
    gives; a column of JSON text holds the value that parsing it yields.  [Accounts] is the
    class AccountsRepo, [Runtime] the class AccountRuntimeRepo; each method takes the
    clock reading of its [new Date()].  SQL constraint errors are not modelled. *)

From S2P Require Import Prelude.
From S2P Require Import JsValue.
From S2P Require Import JsRegex.
From S2P Require Import JsText.
From S2P Require Import JsDate.
From S2P Require Import JsJson.
#[local] Open Scope string_scope.
#[local] Open Scope list_scope.
#[local] Open Scope js_scope.

Record tables := {
  t_accounts : fields;                     (* id -> row, in primary-key order *)
  t_runtime : fields;                      (* account_id -> row, in primary-key order *)
  t_allocations : list (string * jsval);   (* oldest first *)
  t_groups : list (string * jsval * jsval) (* account_id, group_id, priority *)
}.

Definition no_tables : tables := {| t_accounts := []; t_runtime := []; t_allocations := []; t_groups := [] |}.

(** ** The statements *)

(** [SELECT * FROM t WHERE id = ?]: [undefined] without a row. *)
Definition select_row (k : string) (rows : fields) : jsval := assoc k rows.

(** A row enters at its place in the primary-key order. *)
Fixpoint insert_row (k : string) (row : jsval) (rows : fields) : fields :=
  match rows with
  | [] => [(k, row)]
  | (k', v) :: r => match str_compare k k' with Gt => (k', v) :: insert_row k row r | _ => (k, row) :: rows end
  end.

(** [UPDATE t SET c = v, ... WHERE id = ?] *)
Definition update_row (k : string) (cols : fields) (rows : fields) : fields :=
  map (fun p => if String.eqb k p.1 then (p.1, spread p.2 (JObj cols)) else p) rows.

(** The columns of accounts with the defaults of the schema. *)
Definition account_defaults : fields :=
  [("id", JNull); ("vm_id", JNull); ("email", JNull); ("name", JStr ""); ("platform", JStr "claude"); ("type", JStr "oauth");
   ("status", JStr "active"); ("priority", jint 50); ("rate_multiplier", jint 1); ("schedulable", jint 1);
   ("load_factor", JNull); ("concurrency", jint 2); ("concurrency_override", jint 0); ("max_rpm", jint 0);
   ("rpm_override", jint 0); ("requests", jint 0); ("tokens_in", jint 0); ("tokens_out", jint 0);
   ("cache_read_tokens", jint 0); ("cache_creation_tokens", jint 0); ("extra", JObj []); ("last_used_at", JNull);
   ("temp_unschedulable_until", JNull); ("temp_unschedulable_reason", JNull); ("rate_limited_at", JNull);
   ("rate_limit_reset_at", JNull); ("overload_until", JNull); ("session_window_start", JNull);
   ("session_window_end", JNull); ("session_window_status", JNull); ("created_at", JNull); ("updated_at", JNull)].

Definition account_row (cols : fields) : jsval := spread (JObj account_defaults) (JObj cols).

Definition set_accounts (t : tables) (rows : fields) : tables :=
  {| t_accounts := rows; t_runtime := t_runtime t; t_allocations := t_allocations t; t_groups := t_groups t |}.
Definition set_runtime (t : tables) (rows : fields) : tables :=
  {| t_accounts := t_accounts t; t_runtime := rows; t_allocations := t_allocations t; t_groups := t_groups t |}.
Definition set_allocations (t : tables) (l : list (string * jsval)) : tables :=
  {| t_accounts := t_accounts t; t_runtime := t_runtime t; t_allocations := l; t_groups := t_groups t |}.

(** [INSERT OR IGNORE INTO account_groups] *)
Definition link_group (t : tables) (id : string) (group priority : jsval) : tables :=
  if existsb (fun g => String.eqb g.1.1 id && same_value g.1.2 group) (t_groups t) then t
  else {| t_accounts := t_accounts t; t_runtime := t_runtime t; t_allocations := t_allocations t;
          t_groups := t_groups t ++ [(id, group, priority)] |}.

(** The flag columns: [v ? 1 : 0]. *)
Definition bit (v : jsval) : jsval := jint (if truthy v then 1 else 0).

Module Accounts.

Definition MAX_ALLOCATIONS_PER_ACCOUNT : nat := 50.

Definition idle_window : jsval := JObj [("utilization", jint 0); ("reset", JNull); ("status", JStr "active")].

Definition DEFAULT_UNIFIED : jsval :=
  JObj [("5h", idle_window); ("7d", idle_window); ("representative_claim", JNull); ("overage_status", JNull);
        ("updated_at", JNull)].

Definition rowToAccount (row : jsval) : jsval :=
  if negb (truthy row) then JNull
  else
    let extra := row?."extra" ||| JObj [] in
    JObj [("account_id", row?."id"); ("vm_id", row?."vm_id"); ("email", row?."email"); ("name", row?."name" ||| JNull);
          ("platform", row?."platform" ||| JStr "claude"); ("type", row?."type" ||| JStr "oauth");
          ("status", row?."status" ||| JStr "active"); ("priority", row?."priority" ?? jint 50);
          ("rate_multiplier", row?."rate_multiplier" ?? jint 1);
          ("schedulable", JBool (is_nullish (row?."schedulable") || truthy (row?."schedulable")));
          ("max_concurrency", row?."concurrency"); ("concurrency_override", bit (row?."concurrency_override"));
          ("max_rpm", row?."max_rpm" ?? jint 0); ("rpm_override", bit (row?."rpm_override"));
          ("requests", row?."requests" ||| jint 0); ("tokens_in", row?."tokens_in" ||| jint 0);
          ("tokens_out", row?."tokens_out" ||| jint 0); ("cache_read_tokens", row?."cache_read_tokens" ||| jint 0);
          ("cache_creation_tokens", row?."cache_creation_tokens" ||| jint 0);
          ("unified", extra?."unified" ?? DEFAULT_UNIFIED); ("last_blocked", extra?."last_blocked" ?? JNull);
          ("last_cli_rate_limit", extra?."last_cli_rate_limit" ?? JNull); ("updated_at", row?."updated_at")].

Definition buildExtra (acc : jsval) : jsval :=
  json_copy (JObj [("unified", acc?."unified" ?? JNull); ("last_blocked", acc?."last_blocked" ?? JNull);
                   ("last_cli_rate_limit", acc?."last_cli_rate_limit" ?? JNull)]).

Definition get (t : tables) (accountId : string) : jsval := rowToAccount (select_row accountId (t_accounts t)).
Definition list_accounts (t : tables) : list jsval := map (fun p => rowToAccount p.2) (t_accounts t).

(** The columns both statements write. *)
Definition shared_columns (acc : jsval) : fields :=
  [("vm_id", acc?."vm_id" ?? JNull); ("email", acc?."email" ?? JNull);
   ("name", acc?."name" ?? acc?."email" ?? acc?."account_id"); ("type", acc?."type" ?? JStr "oauth");
   ("concurrency", acc?."max_concurrency" ?? jint 2); ("concurrency_override", bit (acc?."concurrency_override"));
   ("max_rpm", acc?."max_rpm" ?? jint 0); ("rpm_override", bit (acc?."rpm_override"));
   ("requests", acc?."requests" ?? jint 0); ("tokens_in", acc?."tokens_in" ?? jint 0);
   ("tokens_out", acc?."tokens_out" ?? jint 0); ("cache_read_tokens", acc?."cache_read_tokens" ?? jint 0);
   ("cache_creation_tokens", acc?."cache_creation_tokens" ?? jint 0); ("extra", buildExtra acc)].

Definition id_of (acc : jsval) : string := to_string (acc?."account_id").

(** A row of that id must not exist (the primary key). *)
Definition insert (t : tables) (acc : jsval) (now : Z) : tables * jsval :=
  let id := id_of acc in
  let row := account_row (("id", JStr id) :: shared_columns acc ++
    [("platform", acc?."platform" ?? JStr "claude"); ("status", acc?."status" ?? JStr "active");
     ("created_at", acc?."created_at" ?? iso_now now); ("updated_at", acc?."updated_at" ?? iso_now now)]) in
  let t := set_accounts t (insert_row id row (t_accounts t)) in
  let t := link_group t id (acc?."group_id" ?? jint 1) (acc?."group_priority" ?? jint 50) in
  (t, get t id).

Definition save (t : tables) (acc : jsval) (now : Z) : tables * jsval :=
  let id := id_of acc in
  let t := set_accounts t (update_row id (shared_columns acc ++ [("updated_at", iso_now now)]) (t_accounts t)) in
  (t, get t id).

Definition remove (t : tables) (accountId : string) : tables * bool :=
  ({| t_accounts := del_field accountId (t_accounts t); t_runtime := t_runtime t;
      t_allocations := List.filter (fun a => negb (String.eqb accountId a.1)) (t_allocations t);
      t_groups := List.filter (fun g => negb (String.eqb accountId g.1.1)) (t_groups t) |},
   has_key accountId (t_accounts t)).

Definition of_account (accountId : string) (l : list (string * jsval)) : list (string * jsval) :=
  List.filter (fun a => String.eqb accountId a.1) l.

(** Deletes the rows of the account beyond its [max] newest. *)
Definition trim_allocations (accountId : string) (max : nat) (l : list (string * jsval)) : list (string * jsval) :=
  let surplus := (length (of_account accountId l) - max)%nat in
  (fix go (n : nat) l :=
     match n, l with
     | S n', a :: r => if String.eqb accountId a.1 then go n' r else a :: go n r
     | _, _ => l
     end) surplus l.

Definition addAllocation (t : tables) (accountId : string) (alloc : jsval) (max : nat) (now : Z) : tables :=
  let row := JObj [("at", alloc?."at" ||| iso_now now); ("source", alloc?."source" ?? JNull);
    ("util_5h", alloc?."util_5h" ?? JNull); ("util_7d", alloc?."util_7d" ?? JNull);
    ("status_5h", alloc?."status_5h" ?? JNull); ("status_7d", alloc?."status_7d" ?? JNull);
    ("claim", alloc?."claim" ?? JNull); ("tokens_in", alloc?."tokens_in" ?? JNull);
    ("tokens_out", alloc?."tokens_out" ?? JNull)] in
  set_allocations t (trim_allocations accountId max (t_allocations t ++ [(accountId, row)])).

(** The newest [limit] rows, oldest first. *)
Definition recentAllocations (t : tables) (accountId : string) (limit : nat) : list jsval :=
  let rows := map snd (of_account accountId (t_allocations t)) in
  map (fun r => JObj [("at", r?."at"); ("source", r?."source" ?? JUndef); ("util_5h", r?."util_5h");
                      ("util_7d", r?."util_7d"); ("status_5h", r?."status_5h" ?? JUndef);
                      ("status_7d", r?."status_7d" ?? JUndef); ("claim", r?."claim");
                      ("tokens_in", r?."tokens_in"); ("tokens_out", r?."tokens_out")])
      (drop (length rows - limit) rows).

Definition allocationCount (t : tables) (accountId : string) : nat := length (of_account accountId (t_allocations t)).

End Accounts.

Module Runtime.

(** [toMs] *)
Definition toMs (iso : jsval) : jsval :=
  if is_nullish iso then JNull
  else let t := date_parse (to_string iso) in if is_finite t then JNum t else JNull.

(** [toIso]: a time beyond the range of Date is its last instant. *)
Definition toIso (ms : jsval) : jsval :=
  let n := to_number ms in
  if negb (is_finite n) || num_leb n (Fin 0) then JNull
  else match num_to_iso (num_min n (num_of_Z MAX_TIME)) with Some s => JStr s | None => JNull end.

(** The JSON columns: [null] when absent. *)
Definition parse (value fallback : jsval) : jsval := if is_nullish value then fallback else value.

(** [Math.max(0, n)] *)
Definition at_least_zero (n : num) : num := num_max (Fin 0) n.

Definition mergeState (rt acc : jsval) : jsval :=
  if negb (truthy rt) && negb (truthy acc) then JNull
  else
    JObj [("account_id", rt?."account_id" ?? acc?."id"); ("vm_id", rt?."vm_id" ?? acc?."vm_id" ?? JNull);
          ("status", rt?."status" ||| JStr "unknown"); ("priority", JNum (num_or_zero (acc?."priority")));
          ("weight", JNum (at_least_zero (num_or_zero (acc?."load_factor"))));
          ("cooldown_until", toMs (acc?."temp_unschedulable_until"));
          ("cooldown_reason", acc?."temp_unschedulable_reason" ||| JNull);
          ("model_states", parse (rt?."model_states_json") (JObj [])); ("last_used_at", toMs (acc?."last_used_at"));
          ("credential_generation", JNum (num_or_zero (rt?."credential_generation")));
          ("refresh_status", rt?."refresh_status" ||| JNull);
          ("worker_heartbeat_at",
            if is_nullish (rt?."worker_heartbeat_at") then JNull else JNum (to_number (rt?."worker_heartbeat_at")));
          ("worker_status", parse (rt?."worker_status_json") JNull);
          ("rate_limited_at", toMs (acc?."rate_limited_at")); ("rate_limit_reset_at", toMs (acc?."rate_limit_reset_at"));
          ("overload_until", toMs (acc?."overload_until")); ("session_window_start", toMs (acc?."session_window_start"));
          ("session_window_end", toMs (acc?."session_window_end"));
          ("session_window_status", acc?."session_window_status" ||| JNull);
          ("updated_at", rt?."updated_at" ?? acc?."updated_at" ?? JNull)].

Definition get (t : tables) (accountId : string) : jsval :=
  mergeState (select_row accountId (t_runtime t)) (select_row accountId (t_accounts t)).

(** The ids of both tables, in order. *)
Definition ids (t : tables) : list string :=
  map fst (foldr (fun k rows => if has_key k rows then rows else insert_row k JNull rows) (t_accounts t)
                 (map fst (t_runtime t))).
Definition list_states (t : tables) : list jsval := List.filter truthy (map (get t) (ids t)).

(** The columns of accounts that [upsert] writes. *)
Definition account_columns (next : jsval) : fields :=
  [("vm_id", next?."vm_id"); ("priority", next?."priority"); ("load_factor", next?."weight");
   ("last_used_at", toIso (next?."last_used_at")); ("temp_unschedulable_until", toIso (next?."cooldown_until"));
   ("temp_unschedulable_reason", next?."cooldown_reason" ?? JNull); ("rate_limited_at", toIso (next?."rate_limited_at"));
   ("rate_limit_reset_at", toIso (next?."rate_limit_reset_at")); ("overload_until", toIso (next?."overload_until"));
   ("session_window_start", toIso (next?."session_window_start"));
   ("session_window_end", toIso (next?."session_window_end"));
   ("session_window_status", next?."session_window_status" ?? JNull); ("updated_at", next?."updated_at")].

Definition runtime_row (id : string) (next : jsval) : jsval :=
  JObj [("account_id", JStr id); ("vm_id", next?."vm_id"); ("status", next?."status");
        ("model_states_json", json_copy (next?."model_states" ||| JObj []));
        ("credential_generation", next?."credential_generation" ?? jint 0);
        ("refresh_status", next?."refresh_status" ?? JNull); ("worker_heartbeat_at", next?."worker_heartbeat_at" ?? JNull);
        ("worker_status_json", if is_nullish (next?."worker_status") then JNull else json_copy (next?."worker_status"));
        ("updated_at", next?."updated_at")].

(** [INSERT OR IGNORE INTO accounts] *)
Definition ensure_account (t : tables) (id : string) (vm_id updated_at : jsval) : tables :=
  if has_key id (t_accounts t) then t
  else set_accounts t (insert_row id (account_row [("id", JStr id); ("vm_id", vm_id); ("name", JStr id);
                                                   ("created_at", updated_at); ("updated_at", updated_at)]) (t_accounts t)).

(** [INSERT ... ON CONFLICT(account_id) DO UPDATE] *)
Definition put_runtime (t : tables) (id : string) (row : jsval) : tables :=
  set_runtime t (if has_key id (t_runtime t) then set_field id row (t_runtime t) else insert_row id row (t_runtime t)).

(** The merged state [upsert] writes. *)
Definition upsert_next (current input : jsval) (now : Z) : jsval :=
  let next := spread current input in
  let next := with_field next "status" (input?."status" ?? current?."status" ?? JStr "unknown") in
  let next := with_field next "priority" (JNum (to_number (input?."priority" ?? current?."priority" ?? jint 0))) in
  let next := with_field next "weight"
    (JNum (at_least_zero (to_number (input?."weight" ?? current?."weight" ?? jint 1)))) in
  let next := with_field next "model_states" (input?."model_states" ?? current?."model_states" ?? JObj []) in
  with_field next "updated_at" (iso_now now).

(** The answer [null] leaves the tables as they are. *)
Definition upsert (t : tables) (input : jsval) (now : Z) : tables * jsval :=
  if negb (truthy (input?."account_id")) || negb (truthy (input?."vm_id")) then (t, JNull)
  else
    let id := to_string (input?."account_id") in
    let next := upsert_next (get t id ||| JObj []) input now in
    let t := ensure_account t id (next?."vm_id") (next?."updated_at") in
    let t := link_group t id (jint 1) (jint 50) in
    let t := set_accounts t (update_row id (account_columns next) (t_accounts t)) in
    let t := put_runtime t id (runtime_row id next) in
    (t, get t id).

(** [this.get(id) || { account_id, vm_id, model_states: {} }] *)
Definition current_or_new (t : tables) (accountId : string) (vmId : jsval) : jsval :=
  get t accountId ||| JObj [("account_id", JStr accountId); ("vm_id", vmId); ("model_states", JObj [])].

(** [if (v !== undefined) current[k] = v] *)
Definition set_given (k : string) (v : jsval) (current : jsval) : jsval :=
  match v with JUndef => current | _ => with_field current k v end.

(** [w]: the named arguments of [updateWindow]; an absent one is [undefined]. *)
Definition updateWindow (t : tables) (accountId : string) (vmId w : jsval) (now : Z) : tables * jsval :=
  let current := current_or_new t accountId vmId in
  let current :=
    if negb (truthy (current?."vm_id")) && truthy vmId then with_field current "vm_id" vmId else current in
  if negb (truthy (current?."vm_id")) then (t, JNull)
  else
    let current := set_given "rate_limited_at" (w?."rateLimitedAt") current in
    let current := set_given "rate_limit_reset_at" (w?."rateLimitResetAt") current in
    let current := set_given "overload_until" (w?."overloadUntil") current in
    let current := set_given "session_window_start" (w?."sessionWindowStart") current in
    let current := set_given "session_window_end" (w?."sessionWindowEnd") current in
    let current := set_given "session_window_status" (w?."sessionWindowStatus") current in
    upsert t current now.

(** [Number(until) || null] *)
Definition until_or_null (until : jsval) : jsval := JNum (to_number until) ||| JNull.

Definition LIMIT_REASON : rx := lits ["rate_limited"; "quota_exhausted"].

Definition markCooldown (t : tables) (accountId : string) (vmId until reason model status : jsval) (now : Z) : tables * jsval :=
  let current := current_or_new t accountId vmId in
  let entry := JObj [("status", status); ("cooldown_until", until_or_null until); ("reason", reason ||| JNull);
                     ("updated_at", iso_now now)] in
  let current :=
    if truthy model then
      with_field current "model_states" (with_field (current?."model_states" ||| JObj []) (to_string model) entry)
    else
      let c := with_field current "status" status in
      let c := with_field c "cooldown_until" (until_or_null until) in
      let c := with_field c "cooldown_reason" (reason ||| JNull) in
      let c :=
        if rx_test_i LIMIT_REASON (str_or_empty reason) then
          with_field (with_field c "rate_limited_at" (jint now)) "rate_limit_reset_at" (until_or_null until) else c in
      if rx_test_i (lit "overload") (str_or_empty reason) then with_field c "overload_until" (until_or_null until) else c in
  upsert t current now.

Definition AUTH_COOLDOWN : rx := lits ["authentication_failed_after_refresh"; "permission_denied"].
Definition GRANT_REVOKE_COOLDOWN : rx :=
  lits ["oauth_revoked"; "oauth_invalid_grant"; "invalid_grant"; "token has been revoked"; "oauth_no_refresh"].

Definition isAuthCooldown (state : jsval) : bool := rx_test_i AUTH_COOLDOWN (str_or_empty (state?."cooldown_reason")).

Definition isGrantRevokeCooldown (state : jsval) : bool :=
  rx_test_i GRANT_REVOKE_COOLDOWN (str_or_empty (state?."cooldown_reason")) ||
  (String.eqb (str_or_empty (state?."status")) "disabled" &&
   rx_test_i GRANT_REVOKE_COOLDOWN (str_or_empty (state?."cooldown_reason" ||| state?."status"))).

(** [{...current, vm_id: current.vm_id || vmId, status: 'ready', cooldown_until: null, cooldown_reason: null}] *)
Definition ready_state (current vmId : jsval) : jsval :=
  let c := with_field current "vm_id" (current?."vm_id" ||| vmId) in
  with_field (with_field (with_field c "status" (JStr "ready")) "cooldown_until" JNull) "cooldown_reason" JNull.

(** [!!this.upsert(state)] *)
Definition upsert_done (t : tables) (state : jsval) (now : Z) : tables * bool :=
  let '(t, r) := upsert t state now in (t, truthy r).

Definition clearAuthCooldown (t : tables) (accountId : string) (vmId : jsval) (now : Z) : tables * bool :=
  let current := get t accountId in
  if negb (truthy current) || negb (isAuthCooldown current) then (t, false)
  else upsert_done t (ready_state current vmId) now.

Definition clearGrantRevokeCooldown (t : tables) (accountId : string) (vmId : jsval) (now : Z) : tables * bool :=
  let current := get t accountId in
  if negb (truthy current) || negb (isGrantRevokeCooldown current) then (t, false)
  else upsert_done t (ready_state current vmId) now.

Definition clearAccountCooldown (t : tables) (accountId : string) (vmId : jsval) (now : Z) : tables * bool :=
  let current := get t accountId in
  if negb (truthy current) then (t, false)
  else
    let c := ready_state current vmId in
    upsert_done t (with_field (with_field (with_field c "rate_limit_reset_at" JNull) "overload_until" JNull)
                              "model_states" (JObj [])) now.

(** [x && Number(x) <= now] for a cooldown time. *)
Definition expired (until : jsval) (now : Z) : bool := truthy until && num_leb (to_number until) (num_of_Z now).

(** One state of the loop of [clearExpired]: the state to write back, if it changed. *)
Definition expire_state (state : jsval) (now : Z) : option jsval :=
  let c1 := expired (state?."cooldown_until") now in
  let state' :=
    if c1 then with_field (with_field (with_field state "status" (JStr "ready")) "cooldown_until" JNull) "cooldown_reason" JNull
    else state in
  let models := entries (state?."model_states" ||| JObj []) in
  let kept := List.filter (fun p => negb (expired (p.2?."cooldown_until") now)) models in
  if c1 || (length kept <? length models)%nat then Some (with_field state' "model_states" (JObj kept)) else None.

Definition clearExpired (t : tables) (now : Z) : tables :=
  foldl (fun t state =>
    if negb (truthy (state?."vm_id")) then t
    else match expire_state state now with Some s => (upsert t s now).1 | None => t end) t (list_states t).

Definition remove (t : tables) (accountId : string) : tables * bool :=
  (set_runtime t (del_field accountId (t_runtime t)), has_key accountId (t_runtime t)).

End Runtime.

Example store_ex :
  let t := (Accounts.insert no_tables (JObj [("account_id", JStr "a"); ("vm_id", JStr "vm1"); ("max_concurrency", jint 3)]) 0).1 in
  let t := (Runtime.markCooldown t "a" (JStr "vm1") (jint 5000) (JStr "rate_limited") JUndef (JStr "cooldown") 0).1 in
  (Runtime.get t "a")?."cooldown_until" = jint 5000 /\ (Accounts.get t "a")?."max_concurrency" = jint 3 /\
  (Runtime.get (Runtime.clearExpired t 5000) "a")?."cooldown_until" = JNull.
Proof. vm_compute. repeat split. Qed.
