(* ===== verification/StoreFacts.v ===== *)
(** * What the account tables guarantee

    The two facades of [AccountStore] share the rows of accounts: neither disturbs what the
    other reads, and the timestamps the runtime facade prints are read back unchanged. *)

From S2P Require Import Prelude.
From S2P Require Import JsValue.
From S2P Require Import JsRegex.
From S2P Require Import JsText.
From S2P Require Import JsDate.
From S2P Require Import IsoTime.
From S2P Require Import JsJson.
From S2P Require Import AccountStore.
#[local] Open Scope string_scope.
#[local] Open Scope list_scope.
#[local] Open Scope js_scope.

(** ** Rows *)

Lemma assoc_insert_ne k k' row rows : k <> k' -> assoc k (insert_row k' row rows) = assoc k rows.
Proof.
  intros Hn. induction rows as [|[k2 v] r IH]; simpl; [by rewrite (proj2 (String.eqb_neq k k') Hn)|].
  destruct (str_compare k' k2); simpl; rewrite ?IH, ?(proj2 (String.eqb_neq k k') Hn); done.
Qed.

Lemma str_compare_refl k : str_compare k k = Eq.
Proof. induction k as [|c k IH]; simpl; [done|]. by rewrite Nat.compare_refl. Qed.

Lemma assoc_insert_eq k row rows : has_key k rows = false -> assoc k (insert_row k row rows) = row.
Proof.
  induction rows as [|[k2 v] r IH]; simpl; [by rewrite String.eqb_refl|].
  intros H. apply orb_false_iff in H as [H1 H2].
  destruct (str_compare k k2); simpl; rewrite ?String.eqb_refl, ?H1; auto.
Qed.

Lemma has_key_insert k k' row rows : has_key k (insert_row k' row rows) = String.eqb k k' || has_key k rows.
Proof.
  induction rows as [|[k2 v] r IH]; simpl; [done|].
  destruct (str_compare k' k2); simpl; rewrite ?IH; try done.
  destruct (String.eqb k k2), (String.eqb k k'); reflexivity.
Qed.

Lemma assoc_update k k' cols rows :
  assoc k (update_row k' cols rows) =
  if String.eqb k k' && has_key k rows then spread (assoc k rows) (JObj cols) else assoc k rows.
Proof.
  induction rows as [|[k2 v] r IH]; simpl; [by rewrite andb_false_r|].
  destruct (String.eqb_spec k' k2) as [->|Hn]; simpl; destruct (String.eqb_spec k k2) as [->|H2]; simpl.
  - done.
  - by rewrite IH.
  - by rewrite ?(proj2 (String.eqb_neq k2 k')) by congruence.
  - by rewrite IH.
Qed.

Lemma has_key_update k k' cols rows : has_key k (update_row k' cols rows) = has_key k rows.
Proof.
  induction rows as [|[k2 v] r IH]; simpl; [done|]. rewrite IH. by destruct (String.eqb k' k2).
Qed.

Lemma no_key_assoc k rows : has_key k rows = false -> assoc k rows = JUndef.
Proof.
  induction rows as [|[k2 v] r IH]; simpl; [done|]. intros H. apply orb_false_iff in H as [-> H]. auto.
Qed.

(** ** The two views of a row *)

(** The fields of the runtime state that scheduling reads. *)
Definition SCHEDULING_FIELDS : list string :=
  ["account_id"; "status"; "priority"; "weight"; "cooldown_until"; "cooldown_reason"; "model_states"; "last_used_at";
   "credential_generation"; "refresh_status"; "worker_heartbeat_at"; "worker_status"; "rate_limited_at";
   "rate_limit_reset_at"; "overload_until"; "session_window_start"; "session_window_end"; "session_window_status"].
(** The fields of the account record the quota code owns. *)
Definition QUOTA_FIELDS : list string :=
  ["account_id"; "email"; "name"; "platform"; "type"; "status"; "rate_multiplier"; "schedulable"; "max_concurrency";
   "concurrency_override"; "max_rpm"; "rpm_override"; "requests"; "tokens_in"; "tokens_out"; "cache_read_tokens";
   "cache_creation_tokens"; "unified"; "last_blocked"; "last_cli_rate_limit"].

(** The columns each view reads. *)
Definition SCHEDULING_COLUMNS : list string :=
  ["id"; "priority"; "load_factor"; "temp_unschedulable_until"; "temp_unschedulable_reason"; "last_used_at";
   "rate_limited_at"; "rate_limit_reset_at"; "overload_until"; "session_window_start"; "session_window_end";
   "session_window_status"].
Definition QUOTA_COLUMNS : list string :=
  ["id"; "email"; "name"; "platform"; "type"; "status"; "rate_multiplier"; "schedulable"; "concurrency";
   "concurrency_override"; "max_rpm"; "rpm_override"; "requests"; "tokens_in"; "tokens_out"; "cache_read_tokens";
   "cache_creation_tokens"; "extra"].

Definition agree (cols : list string) (a b : jsval) : Prop := truthy a = truthy b /\ forall c, c ∈ cols -> a?.c = b?.c.

Lemma agree_spread cols v w : truthy v = true -> forallb (fun c => negb (has_key c w)) cols = true ->
  agree cols (spread v (JObj w)) v.
Proof.
  intros Hv H. split; [by rewrite Hv|]. intros c Hc. apply get_spread_other.
  rewrite forallb_forall in H. apply negb_true_iff, H, list_elem_of_In, Hc.
Qed.

Lemma mergeState_agree rt a b k : agree SCHEDULING_COLUMNS a b -> k ∈ SCHEDULING_FIELDS ->
  (Runtime.mergeState rt a)?.k = (Runtime.mergeState rt b)?.k.
Proof.
  intros [Ht Hc] Hk. unfold Runtime.mergeState. rewrite Ht. destruct (_ && _); [done|].
  rewrite !(Hc "id"), !(Hc "priority"), !(Hc "load_factor"), !(Hc "temp_unschedulable_until"),
    !(Hc "temp_unschedulable_reason"), !(Hc "last_used_at"), !(Hc "rate_limited_at"), !(Hc "rate_limit_reset_at"),
    !(Hc "overload_until"), !(Hc "session_window_start"), !(Hc "session_window_end"),
    !(Hc "session_window_status") by in_list.
  clear -Hk. apply list_elem_of_In in Hk. cbn [In SCHEDULING_FIELDS] in Hk.
  repeat (destruct Hk as [<-|Hk]; [cbn [get assoc String.eqb Ascii.eqb Bool.eqb]; reflexivity|]). destruct Hk.
Qed.

Lemma rowToAccount_agree a b k : agree QUOTA_COLUMNS a b -> k ∈ QUOTA_FIELDS ->
  (Accounts.rowToAccount a)?.k = (Accounts.rowToAccount b)?.k.
Proof.
  intros [Ht Hc] Hk. unfold Accounts.rowToAccount. rewrite Ht. destruct (negb _); [done|].
  rewrite !(Hc "id"), !(Hc "email"), !(Hc "name"), !(Hc "platform"), !(Hc "type"), !(Hc "status"),
    !(Hc "rate_multiplier"), !(Hc "schedulable"), !(Hc "concurrency"), !(Hc "concurrency_override"), !(Hc "max_rpm"),
    !(Hc "rpm_override"), !(Hc "requests"), !(Hc "tokens_in"), !(Hc "tokens_out"), !(Hc "cache_read_tokens"),
    !(Hc "cache_creation_tokens"), !(Hc "extra") by in_list.
  clear -Hk. apply list_elem_of_In in Hk. cbn [In QUOTA_FIELDS] in Hk.
  repeat (destruct Hk as [<-|Hk]; [cbn [get assoc String.eqb Ascii.eqb Bool.eqb]; reflexivity|]). destruct Hk.
Qed.

(** Rows are objects that carry their primary key. *)
Definition rows_ok (key : string) (rows : fields) : Prop :=
  forall k, has_key k rows = true -> truthy (assoc k rows) = true /\ (assoc k rows)?.key = JStr k.
Definition tables_ok (t : tables) : Prop := rows_ok "id" (t_accounts t) /\ rows_ok "account_id" (t_runtime t).

Lemma agree_refl cols v : agree cols v v.
Proof. by split. Qed.

Lemma update_agree key cols rows w id id' : rows_ok key rows -> forallb (fun c => negb (has_key c w)) cols = true ->
  agree cols (assoc id (update_row id' w rows)) (assoc id rows).
Proof.
  intros Hr Hw. rewrite assoc_update. destruct (String.eqb id id'); [|apply agree_refl]. simpl.
  destruct (has_key id rows) eqn:E; [|apply agree_refl]. apply agree_spread; [by apply (Hr id)|done].
Qed.

Lemma link_group_rows t id g p : t_accounts (link_group t id g p) = t_accounts t /\ t_runtime (link_group t id g p) = t_runtime t.
Proof. unfold link_group. by destruct (existsb _ _). Qed.

(** ** Neither facade disturbs the other *)

Lemma save_keeps_scheduling t acc now id k : rows_ok "id" (t_accounts t) -> k ∈ SCHEDULING_FIELDS ->
  (Runtime.get (Accounts.save t acc now).1 id)?.k = (Runtime.get t id)?.k.
Proof.
  intros Hr Hk. unfold Accounts.save, Runtime.get, select_row. cbn [fst set_accounts t_accounts t_runtime].
  apply mergeState_agree; [|done]. apply (update_agree "id"); [done|reflexivity].
Qed.

Lemma ensure_assoc t id vm at_ id' : has_key id' (t_accounts t) = true ->
  assoc id' (t_accounts (Runtime.ensure_account t id vm at_)) = assoc id' (t_accounts t).
Proof.
  intros H. unfold Runtime.ensure_account. destruct (has_key id _) eqn:E; [done|]. simpl.
  apply assoc_insert_ne. congruence.
Qed.

Lemma insert_rows_ok key id row rows : truthy row = true -> row?.key = JStr id -> has_key id rows = false ->
  rows_ok key rows -> rows_ok key (insert_row id row rows).
Proof.
  intros Ht Hkey Hid Hr k Hk. rewrite has_key_insert in Hk. destruct (String.eqb_spec k id) as [Ek|Hn].
  - subst k. by rewrite assoc_insert_eq.
  - rewrite assoc_insert_ne by done. by apply Hr.
Qed.

Lemma ensure_ok t id vm at_ : rows_ok "id" (t_accounts t) -> rows_ok "id" (t_accounts (Runtime.ensure_account t id vm at_)).
Proof.
  intros Hr. unfold Runtime.ensure_account. destruct (has_key id _) eqn:E; [done|]. by apply insert_rows_ok.
Qed.

(** The accounts rows after [upsert]. *)
Lemma upsert_accounts t input now : truthy (input?."account_id") && truthy (input?."vm_id") = true ->
  let id := to_string (input?."account_id") in
  let next := Runtime.upsert_next (Runtime.get t id ||| JObj []) input now in
  let t0 := Runtime.ensure_account t id (next?."vm_id") (next?."updated_at") in
  t_accounts (Runtime.upsert t input now).1 = update_row id (Runtime.account_columns next) (t_accounts t0) /\
  t_runtime (Runtime.upsert t input now).1 =
    (if has_key id (t_runtime t) then set_field id (Runtime.runtime_row id next) (t_runtime t)
     else insert_row id (Runtime.runtime_row id next) (t_runtime t)).
Proof.
  intros H id next t0. apply andb_true_iff in H as [H1 H2]. unfold Runtime.upsert. rewrite H1, H2. cbn [negb orb].
  fold id. fold next. fold t0. cbn [fst]. unfold Runtime.put_runtime, set_runtime, set_accounts. cbn [t_accounts t_runtime].
  destruct (link_group_rows t0 id (jint 1) (jint 50)) as [-> ->].
  assert (E : t_runtime t0 = t_runtime t) by (unfold t0, Runtime.ensure_account; by destruct (has_key _ _)).
  by rewrite E.
Qed.

Lemma upsert_has_key t input now id : has_key id (t_accounts t) = true ->
  has_key id (t_accounts (Runtime.upsert t input now).1) = true.
Proof.
  intros H. destruct (truthy (input?."account_id") && truthy (input?."vm_id")) eqn:E.
  - rewrite (proj1 (upsert_accounts t input now E)), has_key_update. unfold Runtime.ensure_account.
    destruct (has_key (to_string _) _); [done|]. cbn [set_accounts t_accounts]. rewrite has_key_insert, H. apply orb_true_r.
  - unfold Runtime.upsert. by rewrite <- negb_andb, E.
Qed.

Lemma upsert_keeps_quota t input now id k : rows_ok "id" (t_accounts t) -> has_key id (t_accounts t) = true -> k ∈ QUOTA_FIELDS ->
  (Accounts.get (Runtime.upsert t input now).1 id)?.k = (Accounts.get t id)?.k.
Proof.
  intros Hr Hid Hk. destruct (truthy (input?."account_id") && truthy (input?."vm_id")) eqn:E.
  - unfold Accounts.get, select_row. rewrite (proj1 (upsert_accounts _ _ now E)).
    apply rowToAccount_agree; [|done]. set (id0 := to_string _). set (next := Runtime.upsert_next _ _ _).
    rewrite <- (ensure_assoc t id0 (next?."vm_id") (next?."updated_at") id Hid).
    apply (update_agree "id"); [by apply ensure_ok|reflexivity].
  - unfold Runtime.upsert. by rewrite <- negb_andb, E.
Qed.

(** ** Reachable tables *)

Inductive step : tables -> tables -> Prop :=
| step_insert t acc now : has_key (Accounts.id_of acc) (t_accounts t) = false -> step t (Accounts.insert t acc now).1
| step_save t acc now : step t (Accounts.save t acc now).1
| step_remove t id : step t (Accounts.remove t id).1
| step_allocation t id alloc max now : step t (Accounts.addAllocation t id alloc max now)
| step_upsert t input now : step t (Runtime.upsert t input now).1
| step_remove_runtime t id : step t (Runtime.remove t id).1.

Definition reachable (t : tables) : Prop := rtc step no_tables t.

Lemma update_rows_ok key id cols rows : has_key key cols = false -> rows_ok key rows -> rows_ok key (update_row id cols rows).
Proof.
  intros Hc Hr k Hk. rewrite has_key_update in Hk. rewrite assoc_update, Hk. destruct (Hr k Hk) as [H1 H2].
  destruct (String.eqb k id); [|done]. split; [done|]. cbn [andb]. by rewrite get_spread_other.
Qed.

Lemma del_rows_ok key id rows : rows_ok key rows -> rows_ok key (del_field id rows).
Proof.
  intros Hr k Hk. rewrite has_key_del in Hk. apply andb_true_iff in Hk as [Hn Hk].
  apply negb_true_iff, String.eqb_neq in Hn. rewrite assoc_del_ne by congruence. by apply Hr.
Qed.

Lemma put_rows_ok key id row rows : truthy row = true -> row?.key = JStr id -> rows_ok key rows ->
  rows_ok key (if has_key id rows then set_field id row rows else insert_row id row rows).
Proof.
  intros Ht Hkey Hr. destruct (has_key id rows) eqn:E; [|by apply insert_rows_ok].
  intros k Hk. rewrite has_key_set in Hk. destruct (String.eqb_spec k id) as [Ek|Hn].
  - subst k. by rewrite assoc_set_eq.
  - rewrite assoc_set_ne by done. by apply Hr.
Qed.

Lemma step_tables_ok t t' : step t t' -> tables_ok t -> tables_ok t'.
Proof.
  intros H [Ha Hr]. destruct H as [t acc now Hk|t acc now|t id|t id alloc max now|t input now|t id].
  - cbn [Accounts.insert fst]. unfold tables_ok. rewrite (proj1 (link_group_rows _ _ _ _)), (proj2 (link_group_rows _ _ _ _)).
    split; [|exact Hr]. by apply insert_rows_ok.
  - split; [|exact Hr]. by apply update_rows_ok.
  - split; [by apply del_rows_ok|exact Hr].
  - by split.
  - destruct (truthy (input?."account_id") && truthy (input?."vm_id")) eqn:E.
    + destruct (upsert_accounts t input now E) as [Ea Er]. unfold tables_ok. rewrite Ea, Er.
      split; [by apply update_rows_ok, ensure_ok|by apply put_rows_ok].
    + unfold Runtime.upsert. by rewrite <- negb_andb, E.
  - split; [exact Ha|by apply del_rows_ok].
Qed.

Lemma reachable_ok t : reachable t -> tables_ok t.
Proof.
  unfold reachable. intros H. remember no_tables as t0 eqn:E. assert (H0 : tables_ok t0) by (subst; done).
  clear E. induction H as [|x y z Hs _ IH]; [done|]. eauto using step_tables_ok.
Qed.

(** The account row is shared by two repositories that do not disturb each other: saving
    the quota record leaves every scheduling field (cooldowns, priorities, windows, model
    states, heartbeat) of every account as it was, and writing the runtime state leaves
    every quota field (usage windows, limits, counters) of every stored account as it was. *)
Theorem facades_independent t : reachable t ->
  (forall acc now id k, k ∈ SCHEDULING_FIELDS ->
     (Runtime.get (Accounts.save t acc now).1 id)?.k = (Runtime.get t id)?.k) /\
  (forall input now id k, k ∈ QUOTA_FIELDS -> has_key id (t_accounts t) = true ->
     (Accounts.get (Runtime.upsert t input now).1 id)?.k = (Accounts.get t id)?.k).
Proof.
  intros H. apply reachable_ok in H as [Ha Hr]. split.
  - intros. by apply save_keeps_scheduling.
  - intros. by apply upsert_keeps_quota.
Qed.

Definition sample_account : jsval :=
  JObj [("account_id", JStr "a"); ("vm_id", JStr "vm1"); ("max_concurrency", jint 3); ("requests", jint 7)].
Definition sample_tables : tables := (Accounts.insert no_tables sample_account 0).1.

Lemma sample_reachable : reachable sample_tables.
Proof. apply rtc_once. by apply (step_insert no_tables sample_account 0). Qed.

Lemma facades_independent_witness : reachable sample_tables /\
  (Accounts.get (Runtime.markCooldown sample_tables "a" JUndef (jint 5000) (JStr "overload") JUndef (JStr "cooldown") 0).1 "a")
    ?."requests" = jint 7.
Proof.
  split; [apply sample_reachable|].
  unfold Runtime.markCooldown. cbv zeta.
  rewrite (proj2 (facades_independent sample_tables sample_reachable)); [reflexivity|in_list|reflexivity].
Defined.

(** ** Timestamps read back *)

(** What [get] reads after [upsert] wrote the state [next]. *)
Lemma upsert_get t input now : truthy (input?."account_id") && truthy (input?."vm_id") = true ->
  rows_ok "id" (t_accounts t) ->
  let id := to_string (input?."account_id") in
  let next := Runtime.upsert_next (Runtime.get t id ||| JObj []) input now in
  exists row, truthy row = true /\ (forall k, (Runtime.get (Runtime.upsert t input now).1 id)?.k =
    (Runtime.mergeState (Runtime.runtime_row id next) (spread row (JObj (Runtime.account_columns next))))?.k).
Proof.
  intros E Hr id next. destruct (upsert_accounts t input now E) as [Ha Hrt]. fold id in Ha, Hrt. fold next in Ha, Hrt.
  set (t0 := Runtime.ensure_account t id (next?."vm_id") (next?."updated_at")) in *.
  assert (Hk : has_key id (t_accounts t0) = true).
  { unfold t0, Runtime.ensure_account. destruct (has_key id (t_accounts t)) eqn:Ek; [done|].
    cbn [set_accounts t_accounts]. by rewrite has_key_insert, String.eqb_refl. }
  exists (assoc id (t_accounts t0)). split; [by apply ensure_ok|]. intros k.
  unfold Runtime.get at 1, select_row. rewrite Ha, Hrt, assoc_update, String.eqb_refl, Hk. cbn [andb].
  destruct (has_key id (t_runtime t)) eqn:Er; [by rewrite assoc_set_eq|by rewrite assoc_insert_eq].
Qed.

Lemma toMs_toIso ms : (1 <= ms)%Z -> Runtime.toMs (Runtime.toIso (jint ms)) = jint (Z.min ms MAX_TIME).
Proof.
  intros H. unfold Runtime.toIso, jint. cbn [to_number].
  replace (negb (is_finite (num_of_Z ms)) || num_leb (num_of_Z ms) (Fin 0)) with false.
  2: { cbn [num_of_Z is_finite negb orb]. symmetry. apply not_true_is_false.
       change (Fin 0) with (num_of_Z 0). rewrite num_leb_Z. lia. }
  assert (Hmin : num_min (num_of_Z ms) (num_of_Z MAX_TIME) = num_of_Z (Z.min ms MAX_TIME)).
  { unfold num_min. cbn [num_of_Z]. destruct (num_leb _ _) eqn:E.
    - apply num_leb_Z in E. by rewrite Z.min_l.
    - rewrite Z.min_r; [done|]. apply not_true_iff_false in E. rewrite num_leb_Z in E. lia. }
  rewrite Hmin. set (z := Z.min ms MAX_TIME). assert (Hz : (1 <= z <= MAX_TIME)%Z) by (unfold z, MAX_TIME; lia).
  cbn [num_to_iso num_of_Z]. rewrite Qfloor_Z.
  replace (Qle_bool 0 (inject_Z z)) with true by (symmetry; apply Qle_bool_iff; change 0%Q with (inject_Z 0); rewrite <- Zle_Qle; lia).
  destruct (to_iso z) as [s|] eqn:Es.
  - unfold Runtime.toMs. cbn [is_nullish to_string]. by rewrite (iso_roundtrip _ _ Es).
  - exfalso. unfold to_iso in Es. destruct (MAX_TIME <? Z.abs z)%Z eqn:Em; [apply Z.ltb_lt in Em; lia|].
    destruct (civil_from_days (z / 86400000)) as [[? ?] ?]. done.
Qed.

Lemma get_spread_own v w k : NoDup (map fst w) -> has_key k w = true -> (spread v (JObj w))?.k = assoc k w.
Proof.
  unfold spread. cbn [fields_of get]. generalize (fields_of v). induction w as [|[k2 x] r IH]; intros f Hn Hk; [done|].
  cbn [foldl map fst] in *. apply NoDup_cons in Hn as [Hnot Hn]. simpl in Hk |- *.
  destruct (String.eqb_spec k k2) as [Ek|Hne]; [|by apply IH].
  subst k2. destruct (has_key k r) eqn:Er.
  - exfalso. apply Hnot. apply (keys_has_key k (JObj r)). exact Er.
  - assert (H := get_spread_other (JObj (set_field k x f)) r k Er). unfold spread in H. cbn [fields_of get] in H.
    rewrite H. apply assoc_set_eq.
Qed.

Lemma set_field_nodup k v f : NoDup (map fst f) -> NoDup (map fst (set_field k v f)).
Proof.
  induction f as [|[k2 x] r IH]; simpl; [intros _; apply NoDup_singleton|]. intros Hn.
  destruct (String.eqb_spec k k2) as [Ek|Hne]; [done|]. simpl. apply NoDup_cons in Hn as [Hnot Hn].
  apply NoDup_cons. split; [|by apply IH]. intros Hin. apply Hnot.
  apply (keys_has_key k2 (JObj r)). apply (keys_has_key k2 (JObj (set_field k v r))) in Hin.
  unfold has_own in Hin. cbn [fields_of] in Hin. rewrite has_key_set in Hin.
  by rewrite (proj2 (String.eqb_neq k2 k)) in Hin by congruence.
Qed.

(** Concrete keys are distinct. *)
Ltac distinct_keys := match goal with |- NoDup ?l => apply (@bool_decide_eq_true_1 (NoDup l) _) end; vm_compute; reflexivity.

(** An object whose keys are distinct. *)
Definition plain (v : jsval) : Prop := exists f, v = JObj f /\ NoDup (map fst f).

Lemma plain_with v k x : plain v -> plain (with_field v k x).
Proof. intros (f & -> & Hn). eexists. split; [reflexivity|]. by apply set_field_nodup. Qed.

Lemma plain_current t id vmId : plain (Runtime.current_or_new t id vmId).
Proof.
  unfold Runtime.current_or_new, or_else. destruct (truthy _) eqn:E.
  - revert E. unfold Runtime.get, Runtime.mergeState. destruct (_ && _); [done|]. intros _. eexists. split; [reflexivity|].
    distinct_keys.
  - eexists. split; [reflexivity|]. distinct_keys.
Qed.

Lemma current_id t id vmId : tables_ok t -> (Runtime.current_or_new t id vmId)?."account_id" = JStr id.
Proof.
  intros [Ha Hr]. unfold Runtime.current_or_new, or_else. destruct (truthy (Runtime.get t id)) eqn:E; [|reflexivity].
  revert E. unfold Runtime.get, Runtime.mergeState, select_row. destruct (_ && _) eqn:E; [done|]. intros _.
  cbn [get assoc String.eqb Ascii.eqb Bool.eqb].
  destruct (has_key id (t_runtime t)) eqn:Er; [by rewrite (proj2 (Hr id Er))|].
  rewrite (no_key_assoc id (t_runtime t)) in * by done.
  destruct (has_key id (t_accounts t)) eqn:Ea; [by rewrite (proj2 (Ha id Ea))|].
  by rewrite (no_key_assoc id (t_accounts t)) in E by done.
Qed.

(** What is read back of a state given to [upsert]. *)
Lemma upsert_reads t c now id : tables_ok t -> plain c -> c?."account_id" = JStr id -> id <> "" -> truthy (c?."vm_id") = true ->
  has_own c "cooldown_until" = true -> has_own c "cooldown_reason" = true -> truthy (c?."status") = true ->
  let s := Runtime.get (Runtime.upsert t c now).1 id in
  s?."cooldown_until" = Runtime.toMs (Runtime.toIso (c?."cooldown_until")) /\
  s?."cooldown_reason" = (c?."cooldown_reason" ?? JNull) ||| JNull /\ s?."status" = c?."status".
Proof.
  intros [Ha _] (f & -> & Hn) Hid Hne Hvm Hcu Hcr Hst s.
  assert (Hid' : truthy (JObj f?."account_id") && truthy (JObj f?."vm_id") = true).
  { rewrite Hvm, Hid. cbn [truthy]. by rewrite (proj2 (String.eqb_neq id "")). }
  destruct (upsert_get t (JObj f) now Hid' Ha) as (row & Hrow & Hget). rewrite Hid in Hget. cbn [to_string] in Hget.
  unfold s. rewrite !Hget. set (next := Runtime.upsert_next _ _ _). unfold Runtime.mergeState.
  cbn [truthy Runtime.runtime_row spread negb andb].
  cbn [get assoc String.eqb Ascii.eqb Bool.eqb].
  assert (Hown : forall k, has_key k f = true -> k <> "status" -> k <> "priority" -> k <> "weight" -> k <> "model_states" ->
    k <> "updated_at" -> next?.k = assoc k f).
  { intros k Hk H1 H2 H3 H4 H5. unfold next, Runtime.upsert_next. rewrite !get_with_field_ne by done. by apply get_spread_own. }
  rewrite !get_spread_own by (reflexivity || distinct_keys). cbn [Runtime.account_columns assoc String.eqb Ascii.eqb Bool.eqb].
  rewrite !Hown by (assumption || discriminate). split; [done|]. split; [done|].
  unfold Runtime.runtime_row. cbn [get assoc String.eqb Ascii.eqb Bool.eqb]. unfold next, Runtime.upsert_next.
  rewrite !get_with_field_ne, get_with_field_eq by done. cbn [get] in Hst |- *.
  unfold nullish_else, or_else. destruct (assoc "status" f) eqn:En; cbn [is_nullish]; try done; by rewrite Hst.
Qed.

Lemma upsert_other t input now id : id <> to_string (input?."account_id") ->
  Runtime.get (Runtime.upsert t input now).1 id = Runtime.get t id.
Proof.
  intros Hn. destruct (truthy (input?."account_id") && truthy (input?."vm_id")) eqn:E.
  2: { unfold Runtime.upsert. by rewrite <- negb_andb, E. }
  unfold Runtime.get, select_row. destruct (upsert_accounts t input now E) as [-> ->].
  rewrite assoc_update, (proj2 (String.eqb_neq id _) Hn). cbn [andb].
  assert (Ha : forall vm at_, assoc id (t_accounts (Runtime.ensure_account t (to_string (input?."account_id")) vm at_)) = assoc id (t_accounts t)).
  { intros. unfold Runtime.ensure_account. destruct (has_key _ _); [done|]. by apply assoc_insert_ne. }
  rewrite Ha. destruct (has_key _ _); [by rewrite assoc_set_ne|by rewrite assoc_insert_ne].
Qed.

Lemma positive_truthy ms : (1 <= ms)%Z -> truthy (jint ms) = true.
Proof.
  intros H. cbn. apply negb_true_iff, not_true_is_false. rewrite Qeq_bool_iff. change 0%Q with (inject_Z 0).
  rewrite inject_Z_injective. lia.
Qed.

(** The state [markCooldown] writes when no model is named. *)
Lemma markCooldown_writes t id vmId until reason status now : tables_ok t -> exists c,
  Runtime.markCooldown t id vmId until reason JUndef status now = Runtime.upsert t c now /\
  plain c /\ c?."account_id" = JStr id /\ c?."vm_id" = (Runtime.current_or_new t id vmId)?."vm_id" /\
  has_own c "cooldown_until" = true /\ has_own c "cooldown_reason" = true /\ c?."status" = status /\
  c?."cooldown_until" = Runtime.until_or_null until /\ c?."cooldown_reason" = reason ||| JNull.
Proof.
  intros Hok. eexists. split; [unfold Runtime.markCooldown; cbv zeta; cbn [truthy]; reflexivity|].
  destruct (rx_test_i (lit "overload") _), (rx_test_i Runtime.LIMIT_REASON _); cbv iota;
    (split; [repeat apply plain_with; apply plain_current|]);
    rewrite !has_own_with; rewrite !get_with_field_ne, ?get_with_field_eq by discriminate;
    rewrite ?get_with_field_ne, ?get_with_field_eq by discriminate;
    rewrite ?get_with_field_ne, ?get_with_field_eq by discriminate;
    by rewrite current_id.
Qed.

(** A cooldown the error policy asks for is the cooldown the scheduler reads back: the
    until time survives the ISO text of the column (a sentinel beyond the range of Date
    becomes its last instant), with its reason and status, and no other account changes. *)
Theorem cooldown_recorded t id vmId ms reason status now : reachable t -> (1 <= ms)%Z -> id <> "" ->
  truthy ((Runtime.current_or_new t id vmId)?."vm_id") = true -> truthy status = true ->
  let t' := (Runtime.markCooldown t id vmId (jint ms) reason JUndef status now).1 in
  let s := Runtime.get t' id in
  s?."cooldown_until" = jint (Z.min ms MAX_TIME) /\ s?."cooldown_reason" = reason ||| JNull /\ s?."status" = status /\
  (forall id', id' <> id -> Runtime.get t' id' = Runtime.get t id').
Proof.
  intros Ht Hms Hid Hvm Hst t' s. apply reachable_ok in Ht as Hok.
  destruct (markCooldown_writes t id vmId (jint ms) reason status now Hok)
    as (c & Hc & Hp & Hcid & Hcvm & Ho1 & Ho2 & Hs & Hu & Hr).
  unfold s, t'. rewrite Hc.
  destruct (upsert_reads t c now id Hok Hp Hcid Hid) as (R1 & R2 & R3); [congruence..|].
  rewrite R1, R2, R3, Hs, Hu, Hr. unfold Runtime.until_or_null. cbn [to_number jint].
  assert (Hpos := positive_truthy ms Hms). unfold jint in Hpos. unfold or_else at 1. rewrite Hpos.
  split; [by apply toMs_toIso|]. split; [|split; [done|]].
  - unfold or_else, nullish_else. destruct (truthy reason) eqn:E; [|done].
    destruct reason; cbn [is_nullish] in *; try done; by rewrite E.
  - intros id' Hn. apply upsert_other. by rewrite Hcid.
Qed.

Lemma cooldown_recorded_witness :
  (Runtime.get (Runtime.markCooldown sample_tables "a" JUndef (jint 1788949230123) (JStr "rate_limited") JUndef (JStr "cooldown") 0).1 "a")
    ?."cooldown_until" = jint 1788949230123.
Proof.
  exact (proj1 (cooldown_recorded sample_tables "a" JUndef 1788949230123 (JStr "rate_limited") (JStr "cooldown") 0
    sample_reachable ltac:(lia) ltac:(discriminate) eq_refl eq_refl)).
Defined.

(** An account stored without a VM: the cooldown of a named VM is not recorded, where
    [updateWindow] would fill the VM in. *)
Lemma cooldown_lost_without_vm :
  let t := (Accounts.insert no_tables (JObj [("account_id", JStr "a")]) 0).1 in
  Runtime.markCooldown t "a" (JStr "vm1") (jint 5000) (JStr "rate_limited") JUndef (JStr "cooldown") 0 = (t, JNull) /\
  (Runtime.updateWindow t "a" (JStr "vm1") (JObj [("rateLimitResetAt", jint 5000)]) 0).2?."rate_limit_reset_at" = jint 5000.
Proof. vm_compute. split; reflexivity. Qed.
