(* ===== verification/AccountQuota.v ===== *)
(** * Account quota (the class AccountQuota of src/src/lib/pool/account-quota.mjs)

    The tracker of one gateway: the account tables, its configuration, and in memory the
    requests in flight, the RPM buckets and the conversations of each account.  A method
    takes the state and the clock reading of its [Date.now()] and returns the new state.
    Counts and times are integers; a limit is a JavaScript number.  The hook
    [onQuotaCooldownCleared] is recorded in [q_cleared]; a failure of the runtime repository,
    which the code swallows, is not modelled. *)

From S2P Require Import Prelude.
From S2P Require Import JsValue.
From S2P Require Import JsRegex.
From S2P Require Import JsText.
From S2P Require Import JsDate.
From S2P Require Import QuotaWindow.
From S2P Require Import TierPolicy.
From S2P Require Import SessionLimit.
From S2P Require Import Eligibility.
From S2P Require Import ModelGate.
From S2P Require Import Pricing.
From S2P Require Import QuotaRecord.
From S2P Require Import AccountStore.
#[local] Open Scope string_scope.
#[local] Open Scope list_scope.
#[local] Open Scope js_scope.

Record quota := {
  q_tables : tables;
  q_config : jsval;               (* this.config *)
  q_concurrency : jsval;          (* this.concurrency *)
  q_tiers : jsval;                (* this.tiers *)
  q_inflight : gmap string Z;
  q_rpm : gmap string (list Z);   (* rpmBuckets, oldest first *)
  q_sessions : registry;
  q_runtime : bool;               (* a runtime repository is attached *)
  q_mock : bool;                  (* KIN_CRS_MOCK=1 *)
  q_cleared : list string         (* calls of onQuotaCooldownCleared *)
}.

Definition set_tables (q : quota) (t : tables) : quota :=
  {| q_tables := t; q_config := q_config q; q_concurrency := q_concurrency q; q_tiers := q_tiers q;
     q_inflight := q_inflight q; q_rpm := q_rpm q; q_sessions := q_sessions q; q_runtime := q_runtime q;
     q_mock := q_mock q; q_cleared := q_cleared q |}.
Definition set_inflight (q : quota) (m : gmap string Z) : quota :=
  {| q_tables := q_tables q; q_config := q_config q; q_concurrency := q_concurrency q; q_tiers := q_tiers q;
     q_inflight := m; q_rpm := q_rpm q; q_sessions := q_sessions q; q_runtime := q_runtime q;
     q_mock := q_mock q; q_cleared := q_cleared q |}.
Definition set_rpm (q : quota) (m : gmap string (list Z)) : quota :=
  {| q_tables := q_tables q; q_config := q_config q; q_concurrency := q_concurrency q; q_tiers := q_tiers q;
     q_inflight := q_inflight q; q_rpm := m; q_sessions := q_sessions q; q_runtime := q_runtime q;
     q_mock := q_mock q; q_cleared := q_cleared q |}.
Definition set_sessions (q : quota) (r : registry) : quota :=
  {| q_tables := q_tables q; q_config := q_config q; q_concurrency := q_concurrency q; q_tiers := q_tiers q;
     q_inflight := q_inflight q; q_rpm := q_rpm q; q_sessions := r; q_runtime := q_runtime q;
     q_mock := q_mock q; q_cleared := q_cleared q |}.
Definition set_policies (q : quota) (config concurrency tiers : jsval) : quota :=
  {| q_tables := q_tables q; q_config := config; q_concurrency := concurrency; q_tiers := tiers;
     q_inflight := q_inflight q; q_rpm := q_rpm q; q_sessions := q_sessions q; q_runtime := q_runtime q;
     q_mock := q_mock q; q_cleared := q_cleared q |}.
Definition note_cleared (q : quota) (id : string) : quota :=
  {| q_tables := q_tables q; q_config := q_config q; q_concurrency := q_concurrency q; q_tiers := q_tiers q;
     q_inflight := q_inflight q; q_rpm := q_rpm q; q_sessions := q_sessions q; q_runtime := q_runtime q;
     q_mock := q_mock q; q_cleared := q_cleared q ++ [id] |}.

(** [this.repo.get(id)], [this.repo.save(acc)] *)
Definition repo_get (q : quota) (id : string) : jsval := Accounts.get (q_tables q) id.
Definition repo_save (q : quota) (acc : jsval) (now : Z) : quota * jsval :=
  let '(t, saved) := Accounts.save (q_tables q) acc now in (set_tables q t, saved).

(** ** Limits *)

(** [Number.isFinite(n) && n >= 0] *)
Definition usable (n : num) : bool := is_finite n && num_leb (Fin 0) n.

Definition defaultMax (q : quota) : num :=
  let n := to_number (q_concurrency q?."default_max_per_account" ?? q_concurrency q?."default_key_concurrency" ??
                      q_tiers q?."default"?."max_concurrency" ?? jint 2) in
  if usable n then n else num_of_Z 2.

Definition defaultRpm (q : quota) : num :=
  let n := to_number (q_concurrency q?."default_max_rpm" ?? q_tiers q?."default"?."max_rpm" ?? jint 0) in
  if usable n then n else Fin 0.

Definition policyFor (q : quota) (acc tier : jsval) : jsval :=
  QuotaTiers.resolveTierPolicy
    (JObj [("tiers", q_tiers q); ("quota", q_config q); ("concurrency", q_concurrency q)])
    (acc?."unified"?."account_tier" ||| acc?."account_tier" ||| tier).

Definition limitFor (q : quota) (acc policy : jsval) : num :=
  let pinned := to_number (acc?."max_concurrency") in
  if truthy (acc?."concurrency_override") && usable pinned then pinned
  else
    let fromPolicy := to_number ((policy ||| policyFor q acc JUndef)?."max_concurrency") in
    if usable fromPolicy then fromPolicy else if usable pinned then pinned else defaultMax q.

Definition rpmLimitFor (q : quota) (acc policy : jsval) : num :=
  if truthy (acc?."rpm_override") then
    let n := to_number (acc?."max_rpm") in if usable n then n else Fin 0
  else
    let fromPolicy := to_number ((policy ||| policyFor q acc JUndef)?."max_rpm") in
    if usable fromPolicy then fromPolicy else defaultRpm q.

(** ** Accounts *)

Definition new_unified (q : quota) (now : Z) : jsval :=
  JObj ([("5h", Accounts.idle_window); ("7d", Accounts.idle_window); ("representative_claim", JNull);
         ("overage_status", JNull); ("updated_at", JNull)] ++
        (if q_mock q then
           [("source", JStr "vm-oauth-usage");
            ("last_probe", JObj [("ok", JBool true); ("source", JStr "vm-oauth-usage"); ("at", iso_now now)])]
         else [])).

(** Without an id the answer is [undefined]. *)
Definition ensure (q : quota) (account : jsval) (now : Z) : quota * jsval :=
  let idv := account?."account_id" ||| account?."account_uuid" ||| account?."id" in
  if negb (truthy idv) then (q, JUndef)
  else
    let id := to_string idv in
    let acc := repo_get q id in
    if negb (truthy acc) then
      let fresh := JObj
        [("account_id", idv); ("vm_id", account?."vm_id" ||| JNull); ("email", account?."email" ||| JNull);
         ("type", account?."type" ||| JStr "oauth");
         ("max_concurrency", account?."max_concurrency" ?? JNum (defaultMax q));
         ("concurrency_override", bit (account?."concurrency_override"));
         ("max_rpm", account?."max_rpm" ?? JNum (defaultRpm q)); ("rpm_override", bit (account?."rpm_override"));
         ("requests", jint 0); ("tokens_in", jint 0); ("tokens_out", jint 0); ("unified", new_unified q now);
         ("last_blocked", JNull); ("last_error", JNull)] in
      let '(t, acc) := Accounts.insert (q_tables q) fresh now in (set_tables q t, acc)
    else
      let vm_moved := truthy (account?."vm_id") && negb (same_value (acc?."vm_id") (account?."vm_id")) in
      let type_moved := truthy (account?."type") && negb (same_value (acc?."type") (account?."type")) in
      if vm_moved || type_moved then
        let acc := if truthy (account?."vm_id") then with_field acc "vm_id" (account?."vm_id") else acc in
        let acc := if truthy (account?."type") then with_field acc "type" (account?."type") else acc in
        repo_save q acc now
      else (q, acc).

Definition ensure_id (q : quota) (accountId : string) (now : Z) : quota * jsval :=
  ensure q (JObj [("account_id", JStr accountId)]) now.

Definition construct (t : tables) (config accounts : jsval) (sessions : registry) (runtime mock : bool) (now : Z) : quota :=
  let cfg := config?."quota" ||| JObj [("safety_ratio", JNum (dec 17 20)); ("weekly_safety_ratio", JNum (dec 4 5));
                                       ("block_on_5h", JBool true); ("block_on_7d", JBool true)] in
  let conc := config?."concurrency" ||| JObj [("default_max_per_account", jint 2)] in
  let q := {| q_tables := t; q_config := cfg; q_concurrency := conc;
              q_tiers := QuotaTiers.normalizeTiers (config?."tiers"); q_inflight := ∅; q_rpm := ∅;
              q_sessions := sessions; q_runtime := runtime; q_mock := mock; q_cleared := [] |} in
  foldl (fun q a => (ensure q a now).1) q (arr_of accounts).

Definition reloadConfig (q : quota) (config : jsval) : quota :=
  set_policies q (config?."quota" ||| q_config q) (config?."concurrency" ||| q_concurrency q)
    (QuotaTiers.normalizeTiers (config?."tiers")).

Definition rebindToVm (q : quota) (accountUuid vmId email : jsval) (now : Z) : quota * jsval :=
  if negb (truthy accountUuid) || negb (truthy vmId) then (q, JNull)
  else
    let '(q, acc) := ensure q (JObj [("account_id", accountUuid); ("vm_id", vmId); ("email", email)]) now in
    if negb (truthy acc) then (q, JNull)
    else if negb (same_value (acc?."vm_id") vmId) || (truthy email && negb (same_value (acc?."email") email)) then
      let acc := with_field acc "vm_id" vmId in
      repo_save q (if truthy email then with_field acc "email" email else acc) now
    else (q, acc).

(** ** Requests in flight and requests per minute *)

Definition RPM_WINDOW_MS : Z := 60000.

Definition inflight_of (q : quota) (id : string) : Z := default 0%Z (q_inflight q !! id).
Definition bucket_of (q : quota) (id : string) : list Z := default [] (q_rpm q !! id).

(** The count and [resetAt]; the bucket is pruned on the way. *)
Definition rpmCount (q : quota) (accountId : string) (now : Z) : quota * (nat * jsval) :=
  let arr := List.filter (fun t => (now - t <? RPM_WINDOW_MS)%Z) (bucket_of q accountId) in
  let resetAt := match arr with t :: _ => if (t =? 0)%Z then JNull else jint (t + RPM_WINDOW_MS) | [] => JNull end in
  (set_rpm q (<[accountId := arr]> (q_rpm q)), (length arr, resetAt)).

Definition rpmTouch (q : quota) (accountId : string) (now : Z) : quota * nat :=
  let arr := bucket_of q accountId ++ [now] in
  (set_rpm q (<[accountId := arr]> (q_rpm q)), length arr).

Definition acquire (q : quota) (accountId : string) : quota * Z :=
  let n := (inflight_of q accountId + 1)%Z in (set_inflight q (<[accountId := n]> (q_inflight q)), n).

Definition release (q : quota) (accountId : string) : quota * Z :=
  let held := match q_inflight q !! accountId with Some n => if (n =? 0)%Z then 1 else n | None => 1 end%Z in
  let n := Z.max 0 (held - 1) in
  (set_inflight q (<[accountId := n]> (q_inflight q)), n).

(** ** The gate *)

Inductive gate :=
| Granted (warn_5h warn_7d : bool)
| Refused (reason : string) (detail : jsval).

Definition gate_ok (g : gate) : bool := match g with Granted _ _ => true | Refused _ _ => false end.

(** [(x).toFixed(d)] for [x >= 0]. *)
Definition to_fixed (d : nat) (x : num) : string :=
  match x with
  | Fin q =>
    let p := (10 ^ Z.of_nat d)%Z in
    let n := Qfloor (q * inject_Z p + (1 # 2)) in
    (Z_to_string (n / p) ++ (if (d =? 0)%nat then "" else "." ++ pad_digits d (n mod p)))%string
  | _ => num_to_string x
  end.

Definition percent (d : nat) (x : num) : string := (to_fixed d (num_mul x (num_of_Z 100)) ++ "%")%string.

Definition concurrency_refusal (inflight : Z) (limit : num) (source : string) : gate :=
  Refused "concurrency_limit" (JObj [("inflight", jint inflight); ("max", JNum limit); ("source", JStr source)]).

(** A refusal of the quota rules leaves its trace on the account. *)
Definition block (q : quota) (acc trace : jsval) (now : Z) : quota :=
  (repo_save q (with_field acc "last_blocked" trace) now).1.

Definition header_refusal (q : quota) (acc : jsval) (key : string) (now : Z) : quota * gate :=
  let h := headerWindow (acc?."unified") key in
  (block q acc (JObj [("at", iso_now now); ("window", JStr key); ("status", h?."status"); ("source", JStr "headers")]) now,
   Refused ("quota_" ++ key ++ "_cli")
     (JObj [("status", h?."status"); ("reset", h?."reset");
            ("message", JStr ("Rate-limit header blocked " ++ key ++ " (" ++ to_string (h?."status") ++ ")"))])).

Definition safety_refusal (q : quota) (acc w : jsval) (key : string) (u : num) (extra : fields) (message : string) (now : Z)
  : quota * gate :=
  (block q acc (JObj [("at", iso_now now); ("window", JStr key); ("utilization", JNum u); ("status", w?."status")]) now,
   Refused ("quota_" ++ key ++ "_safety")
     (JObj ([("utilization", JNum u)] ++ extra ++ [("reset", w?."reset"); ("message", JStr message)]))).

(** A count of the policy, 0 when it is not one. *)
Definition count_limit (v : jsval) : Z := match to_number v with Fin r => Qfloor r | _ => 0%Z end.

(** The conversation cap, then the cap of requests per minute. *)
Definition session_gate (q : quota) (acc policy : jsval) (accountId sessionKey : string) (now : Z) : quota * option gate :=
  let maxSessions := count_limit (policy?."max_sessions" ?? acc?."max_sessions" ?? jint 0) in
  if (0 <? maxSessions)%Z && negb (String.eqb sessionKey "") then
    let '(r, v) := SessionLimit.canAccept (q_sessions q) accountId sessionKey maxSessions
                     (count_limit (policy?."session_idle_min")) now in
    (set_sessions q r,
     match v with
     | SessionLimit.SessionLimit d key =>
       Some (Refused "session_limit" (JObj [("active", jint (SessionLimit.active d)); ("max", jint (SessionLimit.smax d));
               ("idle_min", jint (SessionLimit.idle_min d)); ("session_key", JStr key)]))
     | _ => None
     end)
  else (q, None).

Definition rpm_gate (q : quota) (acc policy : jsval) (accountId : string) (now : Z) : quota * option gate :=
  let rpmLimit := rpmLimitFor q acc policy in
  if num_ltb (Fin 0) rpmLimit then
    let '(q, (n, resetAt)) := rpmCount q accountId now in
    (q, if num_leb rpmLimit (num_of_Z (Z.of_nat n)) then
          Some (Refused "rpm_limit" (JObj [("current", jint (Z.of_nat n)); ("max", JNum rpmLimit); ("reset_at", resetAt);
                                           ("source", JStr "gateway")]))
        else None)
  else (q, None).

(** The thresholds of a policy: [limit_5h], [limit_7d], [warn_ratio]. *)
Definition ratio_5h (q : quota) (policy : jsval) : num :=
  to_number (policy?."limit_5h" ?? policy?."safety_ratio" ?? q_config q?."safety_ratio" ?? JNum (dec 17 20)).
Definition ratio_7d (q : quota) (policy : jsval) : num :=
  to_number (policy?."limit_7d" ?? policy?."weekly_safety_ratio" ?? q_config q?."weekly_safety_ratio" ??
             JNum (ratio_5h q policy)).
Definition ratio_warn (q : quota) (policy : jsval) : num :=
  to_number (policy?."warn_ratio" ?? q_config q?."warn_ratio" ?? JNum (dec 3 4)).

(** [Number(w.utilization || 0)] *)
Definition used (w : jsval) : num := to_number (w?."utilization" ||| jint 0).

Definition canAccept (q : quota) (accountId sessionKey : string) (tier : jsval) (now : Z) : quota * gate :=
  let '(q, acc) := ensure_id q accountId now in
  let policy := policyFor q acc tier in
  let ratio := ratio_5h q policy in
  let weeklyRatio := ratio_7d q policy in
  let warnRatio := ratio_warn q policy in
  let inflight := inflight_of q accountId in
  let limit := limitFor q acc policy in
  let nown := num_of_Z now in
  let u := acc?."unified" in
  let block5 := truthy (q_config q?."block_on_5h") in
  let block7 := truthy (q_config q?."block_on_7d") in
  let w5 := headerWindowOrEmpty u "5h" nown in
  let w7 := headerWindowOrEmpty u "7d" nown in
  let u5 := used w5 in
  let u7 := used w7 in
  if num_leb limit (num_of_Z inflight) then (q, concurrency_refusal inflight limit "gateway")
  else if block5 && headerHardBlocked u "5h" nown then header_refusal q acc "5h" now
  else if block7 && headerHardBlocked u "7d" nown then header_refusal q acc "7d" now
  else if block5 && num_leb ratio u5 then
    safety_refusal q acc w5 "5h" u5 [("safety_ratio", JNum ratio); ("limit_5h", JNum ratio)]
      ("5h usage " ++ percent 1 u5 ++ " ≥ safety " ++ percent 0 ratio ++ "; request blocked to protect quota")%string now
  else if block7 && num_leb weeklyRatio u7 then
    safety_refusal q acc w7 "7d" u7
      [("safety_ratio", JNum weeklyRatio); ("weekly_safety_ratio", JNum weeklyRatio); ("limit_7d", JNum weeklyRatio)]
      ("7d usage " ++ percent 1 u7 ++ " ≥ weekly " ++ percent 0 weeklyRatio ++ "; request blocked to protect weekly quota")%string
      now
  else
    match session_gate q acc policy accountId sessionKey now with
    | (q, Some g) => (q, g)
    | (q, None) =>
      match rpm_gate q acc policy accountId now with
      | (q, Some g) => (q, g)
      | (q, None) => (q, Granted (num_leb warnRatio u5) (num_leb (num_min warnRatio weeklyRatio) u7))
      end
    end.

(** The reservation: the gate again for the concurrency, then the counters. *)
Definition reserve_slot (q : quota) (accountId : string) (tier : jsval) (now : Z) : quota * gate :=
  let '(q, acc) := ensure_id q accountId now in
  let inflight := inflight_of q accountId in
  let limit := limitFor q acc (policyFor q acc tier) in
  if num_leb limit (num_of_Z inflight) then (q, concurrency_refusal inflight limit "quota-reservation")
  else
    let q := set_inflight q (<[accountId := (inflight + 1)%Z]> (q_inflight q)) in
    ((rpmTouch q accountId now).1, Granted false false).

Definition tryAcquire (q : quota) (accountId sessionKey : string) (tier : jsval) (skipGate : bool) (now : Z) : quota * gate :=
  if skipGate then reserve_slot q accountId tier now
  else
    let '(q, g) := canAccept q accountId sessionKey tier now in
    if gate_ok g then reserve_slot q accountId tier now else (q, g).

(** ** Views *)

Definition fableWindowLimited (q : quota) (accountId : string) : bool :=
  isRejectedStatus (repo_get q accountId?."unified"?."7d_oi"?."status").

(** [Date.parse(reset)] as a time, or null. *)
Definition reset_time (reset : jsval) : jsval :=
  if negb (truthy reset) then JNull
  else let parsed := date_parse (to_string reset) in if is_finite parsed then JNum parsed else JNull.

Definition fableWindowResetAt (q : quota) (accountId : string) : jsval :=
  reset_time (repo_get q accountId?."unified"?."7d_oi"?."reset").

Definition weeklySplitOf (q : quota) (accountId : string) (now : Z) : WeeklySplit.split :=
  let '(enabled, share) := WeeklySplit.weeklySplitConfig (q_config q) in
  let u := repo_get q accountId?."unified" ||| JObj [] in
  WeeklySplit.computeWeeklySplit
    (headerWindowOrEmpty u "7d" (num_of_Z now)?."utilization" ?? officialWindow u "7d"?."utilization")
    (u?."7d_oi"?."utilization" ?? u?."fable"?."utilization") (u?."7d_oi"?."status") (JNum share) enabled.

Definition weeklySplitResetAt (q : quota) (accountId : string) (fable : bool) : jsval :=
  reset_time (repo_get q accountId?."unified"?.(if fable then "7d_oi" else "7d")?."reset").

Definition headerUnderSafety (q : quota) (acc : jsval) (now : Z) : bool :=
  let u := acc?."unified" in
  let nown := num_of_Z now in
  if negb (truthy u) then false
  else if headerHardBlocked u "5h" nown || headerHardBlocked u "7d" nown then false
  else
    let policy := policyFor q acc JUndef in
    let ratio := to_number (policy?."limit_5h" ?? policy?."safety_ratio" ?? JNum (dec 17 20)) in
    let weeklyRatio := to_number (policy?."limit_7d" ?? policy?."weekly_safety_ratio" ?? JNum (dec 4 5)) in
    let u5 := used (headerWindowOrEmpty u "5h" nown) in
    let u7 := used (headerWindowOrEmpty u "7d" nown) in
    negb (num_leb (Fin 1) u5 || num_leb ratio u5) && negb (num_leb (Fin 1) u7 || num_leb weeklyRatio u7).

Definition officialUnderSafety : quota -> jsval -> Z -> bool := headerUnderSafety.

Definition nearLimit (q : quota) (acc : jsval) : bool := QuotaTiers.isNearLimit acc (policyFor q acc JUndef).

Definition QUOTA_COOLDOWN : rx := lits ["quota"; "account_quota_exhausted"; "rate_limited"].

Definition clearQuotaExhaustedCooldown (q : quota) (accountId : string) (now : Z) : quota * bool :=
  if String.eqb accountId "" || negb (q_runtime q) then (q, false)
  else
    let state := Runtime.get (q_tables q) accountId in
    if negb (truthy state) then (q, false)
    else
      let reason := str_or_empty (state?."cooldown_reason") in
      if negb (String.eqb reason "" || rx_test_i QUOTA_COOLDOWN reason) then (q, false)
      else if negb (truthy (state?."cooldown_until")) && String.eqb reason "" then (q, false)
      else
        let next := with_field (with_field (with_field (with_field state "status" (JStr "ready")) "cooldown_until" JNull)
                                 "cooldown_reason" JNull) "rate_limit_reset_at" JNull in
        (note_cleared (set_tables q (Runtime.upsert (q_tables q) next now).1) accountId, true).

(** A time of last use: the runtime's, else that of the newest allocation. *)
Definition lastUsedAt (q : quota) (accountId : string) : jsval :=
  let ms := to_number (if q_runtime q then Runtime.get (q_tables q) accountId?."last_used_at" else JUndef) in
  if is_finite ms && num_ltb (Fin 0) ms then JNum ms
  else
    match Accounts.recentAllocations (q_tables q) accountId 1 with
    | row :: _ =>
      if negb (truthy (row?."at")) then JNull
      else let parsed := date_parse (to_string (row?."at")) in if is_finite parsed then JNum parsed else JNull
    | [] => JNull
    end.

(** [_writeSessionWindow] *)
Definition writeSessionWindow (q : quota) (acc : jsval) (now : Z) : quota :=
  if negb (q_runtime q) || negb (truthy acc) then q
  else
    let u := acc?."unified" in
    let extra := headerWindow u "5h" in
    let w5 := if negb (is_nullish (extra?."utilization")) || truthy (extra?."status") || truthy (extra?."reset")
              then extra else officialWindow u "5h" in
    let endIso := w5?."reset" ||| JNull in
    let endMs := if truthy endIso then date_parse (to_string endIso) else NaN in
    let w := JObj
      [("sessionWindowEnd", if is_finite endMs then JNum endMs
                            else if is_finite (parseResetMs endIso) then JNum (parseResetMs endIso) else JNull);
       ("sessionWindowStart", if is_finite endMs then JNum (num_sub endMs WINDOW_5H_MS) else JNull);
       ("sessionWindowStatus", w5?."status" ||| JNull)] in
    set_tables q (Runtime.updateWindow (q_tables q) (to_string (acc?."account_id")) (acc?."vm_id" ||| JNull) w now).1.

(** [repo.save], then the session window, then, under safety, the end of a quota cooldown. *)
Definition save_window (q : quota) (acc : jsval) (now : Z) : quota * jsval :=
  let '(q, saved) := repo_save q acc now in (writeSessionWindow q saved now, saved).
Definition clear_if_safe (q : quota) (accountId : string) (acc : jsval) (now : Z) : quota :=
  if headerUnderSafety q acc now then (clearQuotaExhaustedCooldown q accountId now).1 else q.

(** ** What answers report *)

(** One window of [ingestHeaders]: the record and whether it was sampled. *)
Definition ingest_window (h : jsval) (key : string) (unified : jsval) : jsval * bool :=
  let u := header_num h (key ++ "-utilization") in
  let status := header h (key ++ "-status") in
  let reset := header h (key ++ "-reset") in
  if match u with Some _ => true | None => false end || truthy status || truthy reset then
    (writeHeaderWindow unified key
       (window (opt_num u) reset
          (status ||| match u with Some n => JStr (statusFromUtil n) | None => JNull end)), true)
  else (unified, false).

(** The Fable window of [ingestHeaders]. *)
Definition ingest_oi (h unified : jsval) : jsval * bool :=
  let u := header_num h "7d_oi-utilization" in
  let status := header h "7d_oi-status" in
  let cur := unified?."7d_oi" in
  if match u with Some _ => true | None => false end || truthy status then
    (with_field unified "7d_oi"
       (window (opt_num u ?? cur?."utilization" ?? JNull) (header h "7d_oi-reset" ||| cur?."reset" ||| JNull)
               (status ||| JStr (statusFromUtil (default (Fin 0) u)))), true)
  else (unified, false).

Definition OI_CLAIM : rx := lits ["seven_day_overage_included"; "7d_oi"].

(** The claim and overage headers. *)
Definition ingest_claims (h unified : jsval) : jsval :=
  let claim := header h "representative-claim" in
  let overage := header h "overage-status" in
  let u := if rx_test_i OI_CLAIM (str_or_empty claim)
           then with_field unified "7d_oi" (with_own (or_empty (unified?."7d_oi")) "claim" claim) else unified in
  let u := if truthy claim then with_field u "representative_claim" claim else u in
  if truthy overage then with_field u "overage_status" overage else u.

(** What [ingestHeaders] writes of the headers [h]. *)
Definition ingest_rate_headers (h unified : jsval) : jsval * bool :=
  let '(u, s5) := ingest_window h "5h" unified in
  let '(u, s7) := ingest_window h "7d" u in
  let '(u, so) := ingest_oi h u in
  (ingest_claims h u, s5 || s7 || so).

(** [acc[k] = (acc[k] || 0) + (Number(v) || 0)] *)
Definition add_tokens (acc : jsval) (k : string) (v : jsval) : jsval :=
  with_field acc k (JNum (num_add (num_or_zero (acc?.k)) (num_or_zero v))).

Definition count_usage (acc usageBody : jsval) : jsval :=
  let usage := normalizeUsage (usageBody ||| JObj []) in
  if forallb (fun k => is_nullish (usage?.k)) ["input_tokens"; "output_tokens"; "cache_read_tokens"; "cache_creation_tokens"]
  then acc
  else
    let acc := add_tokens acc "tokens_in" (usage?."input_tokens") in
    let acc := add_tokens acc "tokens_out" (usage?."output_tokens") in
    let acc := add_tokens acc "cache_read_tokens" (usage?."cache_read_tokens") in
    add_tokens acc "cache_creation_tokens" (usage?."cache_creation_tokens").

Definition add_request (acc : jsval) : jsval :=
  with_field acc "requests" (JNum (num_add (to_number (acc?."requests")) (Fin 1))).

(** [extra]: [countRequest], [exhausted], [status]. *)
Definition ingestHeaders (q : quota) (accountId : string) (headers usageBody extra : jsval) (now : Z) : quota * jsval :=
  let '(q, acc) := ensure_id q accountId now in
  let h := normalizeHeaders headers in
  let u := acc?."unified" in
  let u := with_field (with_field u "headers" (or_empty (u?."headers"))) "header_stall" (jint 0) in
  let countRequest := negb (is_bool (extra?."countRequest") false) in
  let exhausted := is_bool (extra?."exhausted") true || is_num (extra?."status") 429 || isUnifiedRejected h in
  let '(u, sampled) := if countRequest || exhausted then ingest_rate_headers h u else (u, false) in
  let u := with_field u "updated_at" (iso_now now) in
  let u := if sampled then update u "headers" (fun hs => with_field hs "sampled_at" (iso_now now)) else u in
  let acc := if countRequest then add_request (count_usage acc usageBody) else acc in
  let u := if exhausted then applyHeaderExhausted u h now else u in
  let nown := num_of_Z now in
  let q :=
    if countRequest then
      let view := headerWindowOrEmpty u "5h" nown in
      let view7 := headerWindowOrEmpty u "7d" nown in
      set_tables q (Accounts.addAllocation (q_tables q) accountId
        (JObj [("at", iso_now now); ("source", JStr "headers");
               ("util_5h", view?."utilization" ?? officialWindow u "5h"?."utilization");
               ("util_7d", view7?."utilization" ?? officialWindow u "7d"?."utilization");
               ("status_5h", view?."status" ||| JNull); ("status_7d", view7?."status" ||| JNull);
               ("claim", u?."representative_claim"); ("tokens_in", usageBody?."input_tokens" ?? JNull);
               ("tokens_out", usageBody?."output_tokens" ?? JNull)]) Accounts.MAX_ALLOCATIONS_PER_ACCOUNT now)
    else q in
  save_window q (with_field acc "unified" u) now.

Definition recordLastProbe (q : quota) (accountId : string) (probe : jsval) (now : Z) : quota * jsval :=
  if String.eqb accountId "" then (q, JNull)
  else
    let '(q, acc) := ensure_id q accountId now in
    let prev := acc?."last_probe" ||| acc?."unified"?."last_probe" ||| JNull in
    if Gate.isTestProbeSource probe JNull && is_bool (prev?."ok") true && negb (Gate.isTestProbeSource prev JNull)
    then (q, acc)
    else
      let last := JObj [("at", probe?."at" ||| iso_now now); ("ok", JBool (truthy (probe?."ok")));
                        ("source", probe?."source" ||| JStr "test-chat"); ("error", probe?."error" ||| JNull);
                        ("transport", JBool (truthy (probe?."transport"))); ("status", probe?."status" ||| JNull)] in
      repo_save q (update (with_field acc "last_probe" last) "unified" (fun u => with_field u "last_probe" last)) now.

(** ** The official usage answer *)

(** [acc.unified] replaced by what [f] makes of it. *)
Definition on_unified (acc : jsval) (f : jsval -> jsval) : jsval := update acc "unified" f.

(** A usage answer that was itself rate limited: back off, keep the last good probe. *)
Definition ingest_usage_limited (acc probe : jsval) (now : Z) : jsval :=
  let nowIso := probe?."probed_at" ||| iso_now now in
  let retryMs := to_number (probe?."retry_after_ms") in
  let backoff :=
    if is_finite retryMs && num_ltb (Fin 0) retryMs
    then num_min (num_max retryMs (num_of_Z 60000)) (num_of_Z 1800000) else num_of_Z 900000 in
  let until := match num_to_iso (num_add (num_of_Z now) backoff) with Some s => JStr s | None => JNull end in
  let prev := acc?."last_probe" ||| acc?."unified"?."last_probe" ||| JObj [] in
  let ok := is_bool (prev?."ok") true in
  let last := spread (own prev) (JObj
    [("at", if ok then prev?."at" ||| prev?."probed_at" ||| nowIso else prev?."at" ||| nowIso); ("ok", JBool ok);
     ("source", prev?."source" ||| probe?."source" ||| JStr "official-cc-usage");
     ("error", if ok then JNull else prev?."error" ||| JNull); ("rate_limited", JBool true); ("attempted_at", nowIso)]) in
  on_unified (with_field acc "last_probe" last) (fun u =>
    with_field (with_field (with_field (or_empty u) "usage_rate_limited_until" until) "usage_probe_attempted_at" nowIso)
               "last_probe" last).

(** The 5h / 7d / Sonnet windows and the overage of the answer. *)
Definition ingest_official_windows (u probe : jsval) (now : Z) : jsval :=
  let official := probe?."interpretations"?."official" ||| JObj [] in
  let u := without u "usage_rate_limited_until" in
  let u := writeOfficialWindow u "5h" (official?."five_hour" ||| probe?."five_hour" ||| JObj []) now in
  let u := writeOfficialWindow u "7d" (official?."seven_day" ||| probe?."seven_day" ||| JObj []) now in
  let sonnet := probe?."seven_day_sonnet" in
  let u := if truthy sonnet
           then with_field u "seven_day_sonnet" (window (sonnet?."utilization" ?? JNull) (sonnet?."resets_at" ||| JNull)
                                                        (sonnet?."status" ||| JNull)) else u in
  let extra := probe?."extra_usage" in
  let u := if truthy extra then with_field u "overage_status" (extra?."status" ||| u?."overage_status") else u in
  with_field u "extra_usage" (extra ||| u?."extra_usage" ||| JNull).

(** What the answer says of the Fable window. *)
Record oi_view := {
  oi : jsval;                (* the window itself *)
  oi_norm : option num;      (* its utilization as a share *)
  oi_rejected : bool
}.

Definition oi_of (probe : jsval) : oi_view :=
  let oi := probe?."seven_day_oi" ||| probe?."seven_day_overage_included" ||| probe?."fable"?."seven_day_oi" in
  let util := if negb (is_nullish (oi?."utilization")) then Some (to_number (oi?."utilization"))
              else if negb (is_nullish (probe?."fable"?."utilization")) then Some (to_number (probe?."fable"?."utilization"))
              else None in
  let norm := n ← util; if is_finite n then Some (if num_ltb (Fin (3 # 2)) n then num_div n (num_of_Z 100) else n) else None in
  {| oi := oi; oi_norm := norm;
     oi_rejected := isRejectedStatus (oi?."status") || match norm with Some n => num_leb (Fin 1) n | None => false end |}.

Definition has_norm (v : oi_view) : bool := match oi_norm v with Some _ => true | None => false end.
(** [!oiNorm]: none, or zero. *)
Definition no_norm (v : oi_view) : bool := match oi_norm v with Some n => negb (truthy (JNum n)) | None => true end.
Definition oi_reset (v : oi_view) : jsval := oi v?."resets_at" ||| oi v?."reset".

Definition ingest_oi_window (u probe : jsval) (v : oi_view) : jsval :=
  let cur := u?."7d_oi" in
  if has_norm v || truthy (oi v?."status") || truthy (oi_reset v) || oi_rejected v then
    with_field u "7d_oi"
      (window (opt_num (oi_norm v) ?? (if oi_rejected v then jint 1 else cur?."utilization" ?? JNull))
              (oi_reset v ||| probe?."fable"?."reset_at" ||| cur?."reset" ||| JNull)
              (if oi_rejected v then JStr "rejected"
               else oi v?."status" ||| match oi_norm v with Some n => JStr (statusFromUtil n) | None => cur?."status" ||| JNull end))
  else u.

(** [probe.ok === true || (probe.usage_status > 0 && probe.usage_status < 400)] *)
Definition usage_ok (probe : jsval) : bool :=
  let s := to_number (probe?."usage_status") in
  is_bool (probe?."ok") true || (num_ltb (Fin 0) s && num_ltb s (num_of_Z 400)).

Definition has_fable_usage (u probe : jsval) (v : oi_view) : bool :=
  is_bool (probe?."usage_has_fable") true ||
  (negb (Tier.isInventedFableWindow (probe?."fable" ||| u?."fable" ||| JObj [])
           (JObj [("utilization_7d_oi", opt_num (oi_norm v)); ("reset_7d_oi", oi_reset v);
                  ("status_7d_oi", oi v?."status"); ("7d_oi", oi v)])) &&
   (has_norm v || truthy (oi_reset v) || truthy (oi v?."status"))).

Definition GRANT_NOISE : rx := lits ["revoked"; "oauth"; "authentication"].

Definition stored_tier (u : jsval) : string := to_lower (str_or_empty (u?."account_tier")).

(** The Fable probe of the answer. *)
Definition ingest_fable_probe (u probe : jsval) (v : oi_view) (hasFable : bool) (now : Z) : jsval :=
  let fb := probe?."fable" in
  let ok := usage_ok probe in
  let noise := ok && negb hasFable &&
    (truthy (fb?."banned") || is_num (fb?."status") 401 || rx_test_i GRANT_NOISE (str_or_empty (fb?."error"))) in
  let pro429 := ok && negb hasFable && no_norm v && negb (truthy (oi_reset v)) &&
    (num_eqb (to_number (fb?."status")) (num_of_Z 429) || truthy (fb?."limited")) in
  let planDenied := negb hasFable && (truthy (fb?."plan_denied") || noise || pro429) in
  let fbOk := (truthy (fb?."ok") && negb (oi_rejected v)) || hasFable in
  let cur := u?."7d_oi" in
  let fable := JObj
    [("limited", JBool (oi_rejected v));
     ("banned", JBool (truthy (fb?."banned") && negb ok &&
                       (is_num (probe?."usage_status") 401 || is_num (probe?."usage_status") 403)));
     ("plan_denied", JBool planDenied); ("ok", JBool fbOk); ("status", fb?."status" ||| jint 0);
     ("reset", fb?."reset_at" ||| cur?."reset" ||| JNull);
     ("utilization", opt_num (oi_norm v) ?? fb?."utilization" ?? cur?."utilization" ?? JNull);
     ("model", fb?."model" ||| JStr "claude-fable-5");
     ("error", if planDenied then (if noise then JStr "plan_denied" else fb?."error" ||| JNull) else fb?."error" ||| JNull);
     ("probed_at", probe?."probed_at" ||| iso_now now)] in
  let u := with_field u "fable" fable in
  if hasFable || fbOk then with_field u "account_tier" (JStr "max")
  else if planDenied && negb (String.eqb (stored_tier u) "max") then with_field u "account_tier" (JStr "pro") else u.

(** Without a usable Fable probe the usage answer alone decides. *)
Definition ingest_fable_usage (u probe : jsval) (v : oi_view) (hasFable : bool) (now : Z) : jsval :=
  let left := u?."fable" ||| JObj [] in
  let at_ := probe?."probed_at" in
  if hasFable then
    let u := with_field u "account_tier" (JStr "max") in
    if truthy (left?."plan_denied") || is_bool (left?."ok") false then
      with_field u "fable" (spread (own left) (JObj [("plan_denied", JBool false); ("ok", JBool true); ("error", JNull);
        ("probed_at", at_ ||| left?."probed_at" ||| iso_now now)]))
    else u
  else if negb (String.eqb (stored_tier u) "max") &&
          (is_bool (probe?."usage_has_fable") false || String.eqb (stored_tier u) "pro" ||
           Tier.isFableUnavailablePro left
             (JObj [("utilization_7d_oi", u?."7d_oi"?."utilization"); ("reset_7d_oi", u?."7d_oi"?."reset");
                    ("status_7d_oi", u?."7d_oi"?."status"); ("7d_oi", u?."7d_oi")]))
  then
    let u := with_field u "fable" (JObj
      [("limited", JBool false); ("banned", JBool false); ("plan_denied", JBool true); ("ok", JBool false);
       ("status", left?."status" ||| jint 403); ("reset", JNull); ("utilization", JNull);
       ("model", left?."model" ||| JStr "claude-fable-5"); ("error", JStr "plan_denied");
       ("probed_at", at_ ||| iso_now now)]) in
    let u := with_field u "account_tier" (JStr "pro") in
    if no_norm v && negb (truthy (oi_reset v)) then with_field u "7d_oi" empty_window else u
  else u.

(** The Fable part of the answer. *)
Definition ingest_fable (u probe : jsval) (now : Z) : jsval :=
  let v := oi_of probe in
  let u := ingest_oi_window u probe v in
  let hasFable := has_fable_usage u probe v in
  let u := if hasFable then with_field u "usage_has_fable" (JBool true)
           else if is_bool (probe?."usage_has_fable") false then with_field u "usage_has_fable" (JBool false) else u in
  if truthy (probe?."fable") && negb (isFableTransportFailure probe) then ingest_fable_probe u probe v hasFable now
  else if usage_ok probe then ingest_fable_usage u probe v hasFable now else u.

(** The last twelve allocations, as [healOfficialOverwriteExtra] reads them. *)
Definition recent12 (q : quota) (accountId : string) : list jsval := Accounts.recentAllocations (q_tables q) accountId 12.

Definition ingestOAuthUsage (q : quota) (accountId : string) (probe : jsval) (now : Z) : quota * jsval :=
  let '(q, acc) := ensure_id q accountId now in
  let nowIso := probe?."probed_at" ||| iso_now now in
  if Credentials.isOfficialUsageRateLimited probe then repo_save q (ingest_usage_limited acc probe now) now
  else
    let u := ingest_official_windows (acc?."unified") probe now in
    let u := ingest_fable u probe now in
    let u := with_field (with_field u "source" (JStr "vm-oauth-usage")) "updated_at" (iso_now now) in
    let usageOk := usage_ok probe in
    let last := JObj
      [("at", nowIso); ("ok", JBool (truthy (probe?."ok"))); ("source", probe?."source" ||| JStr "vm-oauth-usage");
       ("error", probe?."error" ||| probe?."usage_error" ||| (if usageOk then JNull else probe?."fable"?."error") ||| JNull);
       ("transport", JBool (isFableTransportFailure probe))] in
    let acc := with_field (with_field acc "last_probe" last) "unified" (with_field u "last_probe" last) in
    let acc :=
      if usageOk then
        let acc := on_unified acc (fun u => syncActiveToPassive u nowIso now) in
        let acc := (healOfficialOverwriteExtra acc (recent12 q accountId) (num_of_Z now)).1 in
        on_unified acc clearHeaderExhaustIfOfficialOpen
      else acc in
    let '(q, saved) := save_window q acc now in
    (if usageOk then clear_if_safe q accountId saved now else q, saved).

(** ** The CLI's rate-limit events *)

Inductive window_key := W5h | W7d.
Definition key_string (w : window_key) : string := match w with W5h => "5h" | W7d => "7d" end.

Definition event_window (typ : string) : option window_key :=
  if String.eqb typ "seven_day" || String.eqb typ "7d" then Some W7d
  else if String.eqb typ "five_hour" || String.eqb typ "5h" then Some W5h else None.

(** One event of [ingestCliRateLimit]; none when its reset is out of the range of a date. *)
Definition ingest_event (now : Z) (acc info : jsval) : option jsval :=
  if negb (is_object info) then Some acc
  else
    let typ := str_or_empty (info?."rateLimitType" ||| info?."rate_limit_type") in
    let windows := info?."unifiedWindows" ||| info?."unified_windows" ||| JObj [] in
    acc ← match event_window typ with
      | None => Some acc
      | Some w =>
        let key := key_string w in
        let slot := match w with W7d => windows?."seven_day" ||| windows?."7d" | W5h => windows?."five_hour" ||| windows?."5h" end in
        let utilization := officialUtilToExtra (slot?."utilization") in
        let resets := info?."resetsAt" ?? info?."resets_at" in
        reset ← (if is_nullish resets then Some JNull else epochToIso resets);
        let u := writeHeaderWindow (acc?."unified") key
          (window (opt_num utilization) reset
             (info?."status" ||| match utilization with Some n => JStr (statusFromUtil n) | None => JNull end)) in
        let u := update u "headers" (fun hs => update hs key (fun x => with_field x "rate_limit_type" (JStr typ))) in
        Some (with_field acc "unified"
          (if isRejectedStatus (info?."status")
           then update u "headers" (fun hs => with_field hs "exhausted_at" (iso_now now)) else u))
      end;
    let overage := info?."overageStatus" ||| info?."overage_status" in
    let acc := if truthy overage then on_unified acc (fun u => with_field u "overage_status" overage) else acc in
    Some (with_field acc "last_cli_rate_limit" (with_own info "at" (iso_now now))).

Fixpoint ingest_events (now : Z) (acc : jsval) (infos : list jsval) : option jsval :=
  match infos with [] => Some acc | i :: r => acc ← ingest_event now acc i; ingest_events now acc r end.

Definition ingestCliRateLimit (q : quota) (accountId : string) (rateLimitInfo usageBody countRequest : jsval) (now : Z)
  : option (quota * jsval) :=
  let '(q, acc) := ensure_id q accountId now in
  let infos := if is_array rateLimitInfo then arr_of rateLimitInfo
               else if truthy rateLimitInfo then [rateLimitInfo] else [] in
  acc ← ingest_events now acc infos;
  let acc := on_unified acc (fun u =>
    with_field (with_field u "updated_at" (iso_now now)) "source" (JStr "claude_cli_rate_limit_event")) in
  let has_input := negb (is_nullish (usageBody?."input_tokens")) in
  let shouldCount := if is_nullish countRequest then has_input else truthy countRequest in
  let acc :=
    if has_input then add_tokens (add_tokens acc "tokens_in" (usageBody?."input_tokens")) "tokens_out" (usageBody?."output_tokens")
    else acc in
  let acc := if shouldCount then add_request acc else acc in
  let u := acc?."unified" in
  let alloc := JObj
    [("at", iso_now now); ("source", JStr "claude_cli");
     ("util_5h", officialWindow u "5h"?."utilization"); ("util_7d", officialWindow u "7d"?."utilization");
     ("status_5h", headerWindow u "5h"?."status" ||| officialWindow u "5h"?."status");
     ("status_7d", headerWindow u "7d"?."status" ||| officialWindow u "7d"?."status");
     ("claim", u?."representative_claim"); ("tokens_in", usageBody?."input_tokens" ?? JNull);
     ("tokens_out", usageBody?."output_tokens" ?? JNull)] in
  let q := set_tables q (Accounts.addAllocation (q_tables q) accountId alloc Accounts.MAX_ALLOCATIONS_PER_ACCOUNT now) in
  Some (repo_save q acc now).

(** ** Windows whose reset has elapsed *)

(** A stale window that differs from the stored one. *)
Definition window_changed (prev next : jsval) : bool :=
  truthy (next?."stale") &&
  (negb (num_eqb (to_number (prev?."utilization")) (to_number (next?."utilization"))) ||
   negb (String.eqb (str_or_empty (prev?."status")) (str_or_empty (next?."status")))).

Definition persistEffectiveWindows (q : quota) (accountId : string) (now : Z) : quota * jsval :=
  if String.eqb accountId "" then (q, JNull)
  else
    let acc := repo_get q accountId in
    if negb (truthy (acc?."unified")) then (q, acc ||| JNull)
    else
      let nown := num_of_Z now in
      let '(acc, backoffExpired) := expireUsageProbeBackoff acc nown in
      let u := acc?."unified" in
      let used_at := lastUsedAt q accountId in
      let next := applyEffectiveWindows u nown used_at (u?."source" ||| JStr "vm-oauth-usage") in
      let n5 := next?."5h" ||| JObj [] in
      let n7 := next?."7d" ||| JObj [] in
      let changed := window_changed (officialWindow u "5h") n5 || window_changed (officialWindow u "7d") n7 in
      let wiped := wipeElapsedHeaderWindows u nown in
      let leftover := leftoverClearHeaderWindows (if wiped.2 then with_field u "headers" wiped.1 else u) nown used_at in
      let wiped := if leftover.2 then leftover else wiped in
      let rows := recent12 q accountId in
      let finish q acc :=
        let acc := on_unified acc (fun u => with_field u "updated_at" (iso_now now)) in
        let '(q, saved) := save_window q acc now in (clear_if_safe q accountId saved now, saved) in
      if negb changed && negb wiped.2 then
        let '(acc, healed) := healOfficialOverwriteExtra acc rows nown in
        if healed then finish q acc
        else
          let q := if backoffExpired then (repo_save q acc now).1 else q in
          (clear_if_safe q accountId acc now, acc)
      else
        let u := if wiped.2 then with_field next "headers" wiped.1 else next in
        let u := if changed then writeOfficialWindow (writeOfficialWindow u "5h" n5 now) "7d" n7 now else u in
        finish q (healOfficialOverwriteExtra (with_field acc "unified" u) rows nown).1.

Definition REVOKE_TEXT : rx := lits ["access token has been revoked"; "token has been revoked"; "oauth_revoked"].

Definition clearGrantRevokeLeftover (q : quota) (accountId : string) (now : Z) : quota * jsval :=
  let acc := if String.eqb accountId "" then JNull else repo_get q accountId in
  if negb (truthy acc) then (q, JNull)
  else
    let u := acc?."unified" ||| JObj [] in
    let lp := u?."last_probe" ||| acc?."last_probe" ||| JNull in
    let fb := u?."fable" ||| JNull in
    let stale_probe := truthy lp && rx_test_i REVOKE_TEXT (str_or_empty (lp?."error" ||| lp?."message")) in
    let fb_revoked := rx_test_i REVOKE_TEXT (str_or_empty (fb?."error")) in
    let stale_fable := truthy fb && (truthy (fb?."banned") || fb_revoked) in
    let last := spread (own lp) (JObj [("ok", JBool true); ("error", JNull)]) in
    let acc := if stale_probe then with_field acc "last_probe" last else acc in
    let u := if stale_probe then with_field u "last_probe" last else u in
    let max := String.eqb (stored_tier u) "max" in
    let u :=
      if stale_fable then with_field u "fable" (spread (own fb) (JObj
        [("banned", JBool false); ("plan_denied", JBool (negb max));
         ("error", if fb_revoked then (if max then JNull else JStr "plan_denied") else fb?."error" ||| JNull)]))
      else u in
    if stale_probe || stale_fable then
      repo_save q (with_field acc "unified" (with_field u "updated_at" (iso_now now))) now
    else (q, acc).

(** ** Settings *)

Definition setAccountTier (q : quota) (accountId : string) (tier : jsval) (now : Z) : quota * jsval :=
  let key := to_lower (str_or_empty tier) in
  if String.eqb accountId "" || negb (String.eqb key "pro" || String.eqb key "max") then (q, JNull)
  else
    let acc := repo_get q accountId in
    if negb (truthy acc) then (q, JNull)
    else if is_str (acc?."unified"?."account_tier") key then (q, acc)
    else repo_save q (on_unified acc (fun u =>
           with_field (with_field (or_empty u) "account_tier" (JStr key)) "updated_at" (iso_now now))) now.

(** [Math.max(0, Math.min(hi, Number(n) || 0))] *)
Definition clamp_setting (hi : Z) (n : jsval) : num := num_max (Fin 0) (num_min (num_of_Z hi) (num_or_zero n)).
Definition MAX_CONCURRENCY : Z := 256.
Definition MAX_RPM : Z := 1000000.

Definition set_limit (q : quota) (accountId : string) (column pin : string) (v : num) (override : bool) (now : Z) : quota * jsval :=
  let '(q, acc) := ensure_id q accountId now in
  if negb (truthy acc) then (q, JNull)
  else repo_save q (with_field (with_field acc column (JNum v)) pin (bit (JBool override))) now.

Definition setMaxConcurrency (q : quota) (accountId : string) (n : jsval) (override : bool) (now : Z) : quota * jsval :=
  set_limit q accountId "max_concurrency" "concurrency_override" (clamp_setting MAX_CONCURRENCY n) override now.
Definition setMaxRpm (q : quota) (accountId : string) (n : jsval) (override : bool) (now : Z) : quota * jsval :=
  set_limit q accountId "max_rpm" "rpm_override" (clamp_setting MAX_RPM n) override now.

(** [for (const a of this.repo.list()) if (p(a)) out.push(this.repo.save(f(a)))] *)
Definition save_each (q : quota) (p : jsval -> bool) (f : jsval -> jsval) (now : Z) : quota * list jsval :=
  foldl (fun '(q, out) a => if p a then let '(q, s) := repo_save q (f a) now in (q, out ++ [s]) else (q, out))
        (q, []) (Accounts.list_accounts (q_tables q)).

Definition of_vm (vmId a : jsval) : bool := same_value (a?."vm_id") vmId || same_value (a?."account_id") vmId.

Definition setMaxConcurrencyForVm (q : quota) (vmId : string) (n : jsval) (now : Z) : quota * list jsval :=
  let v := clamp_setting MAX_CONCURRENCY n in
  let '(q, out) := save_each q (of_vm (JStr vmId)) (fun a => with_field a "max_concurrency" (JNum v)) now in
  match out with
  | [] => let '(q, s) := setMaxConcurrency q vmId (JNum v) false now in (q, [s])
  | _ => (q, out)
  end.

Definition setMaxRpmForVm (q : quota) (vmId : string) (n : jsval) (override : bool) (now : Z) : quota * list jsval :=
  let v := clamp_setting MAX_RPM n in
  let write a :=
    let a := with_field a "max_rpm" (JNum v) in if override then with_field a "rpm_override" (jint 1) else a in
  let '(q, out) := save_each q (of_vm (JStr vmId)) write now in
  match out with [] => let '(q, s) := setMaxRpm q vmId (JNum v) override now in (q, [s]) | _ => (q, out) end.

Definition skipped (skipIds : list jsval) (a : jsval) : bool :=
  existsb (same_value (a?."account_id")) skipIds || existsb (same_value (a?."vm_id")) skipIds.

Definition applyDefaultConcurrency (q : quota) (n : jsval) (skipIds : list jsval) (now : Z) : quota * list jsval :=
  let v := clamp_setting MAX_CONCURRENCY n in
  save_each q (fun a => negb (skipped skipIds a)) (fun a => with_field a "max_concurrency" (JNum v)) now.

(** The value of the account's tier. *)
Definition tier_rpm (tiers a : jsval) : num :=
  clamp_setting MAX_RPM (QuotaTiers.normalizeTiers tiers?.(QuotaTiers.accountTierKey a)?."max_rpm").
Definition tier_concurrency (tiers a : jsval) : num :=
  let n := to_number (QuotaTiers.normalizeTiers tiers?.(QuotaTiers.accountTierKey a)?."max_concurrency") in
  num_max (Fin 0) (num_min (num_of_Z MAX_CONCURRENCY) (if truthy (JNum n) then n else num_of_Z 2)).

Definition applyTierRpm (q : quota) (tiers : jsval) (skipIds : list jsval) (now : Z) : quota * list jsval :=
  save_each q
    (fun a => negb (skipped skipIds a || truthy (a?."rpm_override")) &&
              negb (num_eqb (to_number (a?."max_rpm")) (tier_rpm tiers a)))
    (fun a => with_field a "max_rpm" (JNum (tier_rpm tiers a))) now.

Definition applyTierConcurrency (q : quota) (tiers : jsval) (skipIds : list jsval) (now : Z) : quota * list jsval :=
  save_each q
    (fun a => negb (skipped skipIds a || truthy (a?."concurrency_override")) &&
              negb (num_eqb (to_number (a?."max_concurrency")) (tier_concurrency tiers a)))
    (fun a => with_field (with_field a "max_concurrency" (JNum (tier_concurrency tiers a))) "concurrency_override" (jint 0)) now.

(** One account of [snapshot]; pruning the RPM buckets is its only effect. *)
Definition snapshot_account (now : Z) (q : quota) (a : jsval) : quota * jsval :=
  let id := to_string (a?."account_id") in
  let used_at := lastUsedAt q id in
  let nown := num_of_Z now in
  let u := a?."unified" in
  let official := applyEffectiveWindows u nown used_at (u?."source") in
  let listed := listQuotaFromHeaders u nown in
  let shown key util status :=
    if negb (is_nullish (listed?.util)) || truthy (listed?.status) then listed?.key else official?.key in
  let '(q, (n, resetAt)) := rpmCount q id now in
  (q, JObj
    [("account_id", a?."account_id"); ("vm_id", a?."vm_id"); ("email", a?."email"); ("inflight", jint (inflight_of q id));
     ("max_concurrency", a?."max_concurrency"); ("rpm", jint (Z.of_nat n)); ("max_rpm", a?."max_rpm" ?? jint 0);
     ("rpm_reset_at", resetAt); ("requests", a?."requests"); ("tokens_in", a?."tokens_in"); ("tokens_out", a?."tokens_out");
     ("cache_read_tokens", a?."cache_read_tokens" ||| jint 0); ("cache_creation_tokens", a?."cache_creation_tokens" ||| jint 0);
     ("last_used_at", used_at);
     ("unified", with_field (with_field official "5h" (shown "5h" "utilization_5h" "status_5h"))
                            "7d" (shown "7d" "utilization_7d" "status_7d"));
     ("last_blocked", a?."last_blocked"); ("recent_allocations", JArr (Accounts.recentAllocations (q_tables q) id 5))]).

Definition snapshot (q : quota) (now : Z) : quota * jsval :=
  let def := q_tiers q?."default" ||| JObj [] in
  let '(q, rows) :=
    foldl (fun '(q, rows) a => let '(q, r) := snapshot_account now q a in (q, rows ++ [r]))
          (q, []) (Accounts.list_accounts (q_tables q)) in
  (q, JObj [("safety_ratio", def?."limit_5h" ?? def?."safety_ratio" ?? q_config q?."safety_ratio");
            ("weekly_safety_ratio", def?."limit_7d" ?? def?."weekly_safety_ratio" ?? q_config q?."weekly_safety_ratio");
            ("tiers", q_tiers q); ("accounts", JArr rows)]).
