(* ===== verification/QuotaFacts.v ===== *)
(** * What the quota tracker guarantees

    [AccountQuota.tryAcquire] against its specification: a log of every grant, in which
    the requests of the last minute are counted from the whole history, and the count of
    requests in flight.  The pruning of the buckets is not observable. *)

From S2P Require Import Prelude.
From S2P Require Import JsValue.
From S2P Require Import JsText.
From S2P Require Import JsDate.
From S2P Require Import JsJson.
From S2P Require Import QuotaWindow.
From S2P Require Import TierPolicy.
From S2P Require Import SessionLimit.
From S2P Require Import QuotaRecord.
From S2P Require Import AccountStore.
From S2P Require Import StoreFacts.
From S2P Require Import AccountQuota.
#[local] Open Scope string_scope.
#[local] Open Scope list_scope.
#[local] Open Scope js_scope.

(** ** Accounts are created once *)

Lemma truthy_row row : truthy row = true -> truthy (Accounts.rowToAccount row) = true.
Proof. intros H. unfold Accounts.rowToAccount. by rewrite H. Qed.

Lemma repo_get_spec t id : tables_ok t -> truthy (Accounts.get t id) = has_key id (t_accounts t).
Proof.
  intros [Ha _]. unfold Accounts.get, select_row. destruct (has_key id (t_accounts t)) eqn:E.
  - apply truthy_row. by apply (Ha id E).
  - by rewrite no_key_assoc.
Qed.

(** What one operation leaves alone: the counters and the configuration. *)
Definition same_counters (q q' : quota) : Prop :=
  q_rpm q' = q_rpm q /\ q_inflight q' = q_inflight q /\ q_config q' = q_config q /\
  q_concurrency q' = q_concurrency q /\ q_tiers q' = q_tiers q.

Lemma ensure_id_spec q id now : tables_ok (q_tables q) -> id <> "" ->
  let '(q1, acc) := ensure_id q id now in
  tables_ok (q_tables q1) /\ same_counters q q1 /\ q_sessions q1 = q_sessions q /\ truthy acc = true /\
  acc = repo_get q1 id /\ has_key id (t_accounts (q_tables q1)) = true /\ (forall now', ensure_id q1 id now' = (q1, acc)).
Proof.
  intros Hok Hid. unfold ensure_id, ensure. cbn [get assoc String.eqb Ascii.eqb Bool.eqb].
  assert (Hj : truthy (JStr id) = true) by (apply negb_true_iff, String.eqb_neq, Hid).
  unfold or_else. rewrite !Hj. change (truthy JUndef) with false. cbn [negb to_string].
  assert (Hget := repo_get_spec (q_tables q) id Hok). unfold repo_get.
  destruct (has_key id (t_accounts (q_tables q))) eqn:Ek; rewrite Hget; cbn [negb].
  - cbn [andb orb]. unfold repo_get. rewrite Hget.
    split_and!; [done|by repeat split|done|done|done|done|done].
  - match goal with |- context [Accounts.insert ?t ?f ?n] => set (fresh := f) end.
    destruct (Accounts.insert (q_tables q) fresh now) as [t acc] eqn:Ei.
    assert (Et : t = (Accounts.insert (q_tables q) fresh now).1) by (by rewrite Ei).
    assert (Ea : acc = (Accounts.insert (q_tables q) fresh now).2) by (by rewrite Ei).
    assert (Hstep : step (q_tables q) t) by (rewrite Et; by apply step_insert).
    assert (Hok' := step_tables_ok _ _ Hstep Hok).
    assert (Hacc : acc = Accounts.get t id) by (by rewrite Ea, Et).
    assert (Hk : has_key id (t_accounts t) = true).
    { rewrite Et. cbn [Accounts.insert fst]. rewrite (proj1 (link_group_rows _ _ _ _)).
      cbn [set_accounts t_accounts]. rewrite has_key_insert. apply orb_true_iff. left. apply String.eqb_eq. reflexivity. }
    assert (Ht := repo_get_spec t id Hok'). rewrite Hk, <- Hacc in Ht.
    cbn [set_tables q_tables q_rpm q_inflight q_config q_concurrency q_tiers q_sessions].
    split_and!; [done|by repeat split|done|done|done|done|].
    intros now'. unfold repo_get. cbn [set_tables q_tables]. by rewrite <- Hacc, Ht.
Qed.

(** ** The specification: a log of grants *)

Definition in_window (now t : Z) : bool := (now - t <? RPM_WINDOW_MS)%Z.
(** The times granted to an account. *)
Definition times_of (id : string) (log : list (string * Z)) : list Z :=
  map snd (List.filter (fun g => String.eqb id g.1) log).
(** The grants of the last minute, counted from the whole history. *)
Definition recent_grants (log : list (string * Z)) (id : string) (now : Z) : nat :=
  length (List.filter (in_window now) (times_of id log)).

(** When the tracker has to grant a request: the order of the checks does not matter. *)
Definition admits (q : quota) (acc : jsval) (log : list (string * Z)) (id key : string) (tier : jsval) (now : Z) : bool :=
  let policy := policyFor q acc tier in
  let u := acc?."unified" in
  let nown := num_of_Z now in
  let block5 := truthy (q_config q?."block_on_5h") in
  let block7 := truthy (q_config q?."block_on_7d") in
  let rpmLimit := rpmLimitFor q acc policy in
  negb (num_leb (limitFor q acc policy) (num_of_Z (inflight_of q id))) &&
  negb (block5 && headerHardBlocked u "5h" nown) && negb (block7 && headerHardBlocked u "7d" nown) &&
  negb (block5 && num_leb (ratio_5h q policy) (used (headerWindowOrEmpty u "5h" nown))) &&
  negb (block7 && num_leb (ratio_7d q policy) (used (headerWindowOrEmpty u "7d" nown))) &&
  match (session_gate q acc policy id key now).2 with None => true | Some _ => false end &&
  negb (num_ltb (Fin 0) rpmLimit && num_leb rpmLimit (num_of_Z (Z.of_nat (recent_grants log id now)))).

(** The buckets agree with the log on everything a later count can see. *)
Definition windowed (q : quota) (log : list (string * Z)) (last : Z) : Prop :=
  forall id now, (last <= now)%Z ->
    List.filter (in_window now) (bucket_of q id) = List.filter (in_window now) (times_of id log).

Lemma filter_later now now' l : (now <= now')%Z ->
  List.filter (in_window now') (List.filter (in_window now) l) = List.filter (in_window now') l.
Proof.
  intros H. induction l as [|t l IH]; [done|]. simpl. destruct (in_window now t) eqn:E; simpl; rewrite IH; [done|].
  destruct (in_window now' t) eqn:E'; [|done]. unfold in_window in *. apply Z.ltb_ge in E. apply Z.ltb_lt in E'. lia.
Qed.

Lemma bucket_insert q id arr i : bucket_of (set_rpm q (<[id := arr]> (q_rpm q))) i = if decide (id = i) then arr else bucket_of q i.
Proof.
  unfold bucket_of. cbn [set_rpm q_rpm]. destruct (decide (id = i)) as [->|Hn].
  - by rewrite lookup_insert_eq.
  - by rewrite lookup_insert_ne.
Qed.

Lemma windowed_later q log last now : windowed q log last -> (last <= now)%Z -> windowed q log now.
Proof. intros H Hl i n Hn. apply H. lia. Qed.

Lemma count_windowed q log last id now : windowed q log last -> (last <= now)%Z ->
  let '(q', (n, _)) := rpmCount q id now in n = recent_grants log id now /\ windowed q' log now.
Proof.
  intros H Hl. unfold rpmCount. change (fun t : Z => (now - t <? RPM_WINDOW_MS)%Z) with (in_window now). split.
  - unfold recent_grants. by rewrite <- (H id now Hl).
  - intros i n Hn. rewrite bucket_insert. destruct (decide (id = i)) as [Hi|_]; [subst i|apply H; lia].
    rewrite filter_later by done. apply H. lia.
Qed.

Lemma times_snoc id log g : times_of id (log ++ [g]) = times_of id log ++ (if String.eqb id g.1 then [g.2] else []).
Proof. unfold times_of. rewrite List.filter_app, map_app. simpl. by destruct (String.eqb id g.1). Qed.

Lemma touch_windowed q log last id now : windowed q log last -> (last <= now)%Z ->
  windowed (rpmTouch q id now).1 (log ++ [(id, now)]) now.
Proof.
  intros H Hl i n Hn. unfold rpmTouch. cbn [fst]. rewrite bucket_insert, times_snoc. cbn [fst snd].
  destruct (decide (id = i)) as [Hi|Hi].
  - subst i. rewrite String.eqb_refl, !List.filter_app. f_equal. apply H. lia.
  - rewrite (proj2 (String.eqb_neq i id)), app_nil_r by congruence. apply H. lia.
Qed.

(** ** The gate decides as the specification *)

(** States that differ in nothing the specification sees. *)
Definition unseen (q q' : quota) : Prop := q_rpm q' = q_rpm q /\ q_inflight q' = q_inflight q.

Lemma windowed_unseen q q' log last : unseen q q' -> windowed q log last -> windowed q' log last.
Proof. intros [E _] H i n Hn. unfold bucket_of. rewrite E. by apply H. Qed.

Lemma save_tables_ok q acc now : tables_ok (q_tables q) -> tables_ok (q_tables (repo_save q acc now).1).
Proof. intros H. apply (step_tables_ok (q_tables q)); [apply step_save|done]. Qed.

Lemma session_gate_frame q acc policy id key now : let '(q', o) := session_gate q acc policy id key now in
  q_rpm q' = q_rpm q /\ q_inflight q' = q_inflight q /\ q_tables q' = q_tables q /\ same_counters q q' /\
  match o with Some g => gate_ok g = false | None => True end.
Proof.
  unfold session_gate. destruct (_ && _); [|by repeat split].
  destruct (SessionLimit.canAccept _ _ _ _ _ _) as [r v]. split_and!; try done. by destruct v.
Qed.

Lemma rpmLimit_same q q' acc policy : same_counters q q' -> truthy policy = true -> rpmLimitFor q' acc policy = rpmLimitFor q acc policy.
Proof.
  intros (_ & _ & Hc & Hn & Ht) Hp. unfold rpmLimitFor, defaultRpm, or_else. by rewrite Hp, Hn, Ht.
Qed.

Lemma policy_truthy q acc tier : truthy (policyFor q acc tier) = true.
Proof.
  unfold policyFor, QuotaTiers.resolveTierPolicy. cbv zeta.
  match goal with |- truthy (or_else _ (?t?."default")) = true => assert (Hd : truthy (t?."default") = true) end.
  - by destruct (is_object _).
  - revert Hd. match goal with |- truthy ?y = true -> truthy (or_else ?x _) = true => generalize x, y end.
    intros a b Hb. unfold or_else. by destruct (truthy a) eqn:E.
Qed.

(** The verdict of the gate, and what it leaves behind. *)
Lemma gate_spec q log last id key tier now : tables_ok (q_tables q) -> windowed q log last -> (last <= now)%Z -> id <> "" ->
  let '(q1, acc) := ensure_id q id now in
  let '(q2, g) := canAccept q id key tier now in
  gate_ok g = admits q1 acc log id key tier now /\ q_inflight q2 = q_inflight q /\ windowed q2 log now /\
  tables_ok (q_tables q2) /\ (gate_ok g = true -> q_tables q2 = q_tables q1 /\ q_config q2 = q_config q1 /\
    q_concurrency q2 = q_concurrency q1 /\ q_tiers q2 = q_tiers q1).
Proof.
  intros Hok Hw Hl Hid. assert (He := ensure_id_spec q id now Hok Hid). unfold canAccept.
  destruct (ensure_id q id now) as [q1 acc]. destruct He as (Hok1 & (Er & Ei & Ec & En & Et) & _ & _ & _ & _ & _).
  assert (Hw1 : windowed q1 log now).
  { apply (windowed_unseen q); [by split|]. by apply (windowed_later q log last). }
  cbv zeta. unfold admits. cbv zeta.
  destruct (num_leb (limitFor _ _ _) _); [by split_and!|]. cbn [negb andb].
  assert (Hblock : forall trace g, gate_ok g = false ->
    let '(q2, g2) := (block q1 acc trace now, g) in
    gate_ok g2 = false /\ q_inflight q2 = q_inflight q /\ windowed q2 log now /\ tables_ok (q_tables q2) /\
    (gate_ok g2 = true -> q_tables q2 = q_tables q1 /\ q_config q2 = q_config q1 /\
     q_concurrency q2 = q_concurrency q1 /\ q_tiers q2 = q_tiers q1)).
  { intros trace g Hg. split_and!; [done|done|done| |by rewrite Hg]. by apply save_tables_ok. }
  destruct (_ && headerHardBlocked _ "5h" _); [by apply Hblock|]. cbn [negb andb].
  destruct (_ && headerHardBlocked _ "7d" _); [by apply Hblock|]. cbn [negb andb].
  destruct (_ && num_leb (ratio_5h _ _) _); [by apply Hblock|]. cbn [negb andb].
  destruct (_ && num_leb (ratio_7d _ _) _); [by apply Hblock|]. cbn [negb andb].
  clear Hblock.
  assert (Hs := session_gate_frame q1 acc (policyFor q1 acc tier) id key now).
  destruct (session_gate q1 acc _ id key now) as [q2 [g|]]; destruct Hs as (Sr & Si & St & Ssame & Hg); cbn [snd].
  { rewrite Hg. split_and!; try done; try congruence.
    apply (windowed_unseen q1); [by split|done]. }
  unfold rpm_gate. rewrite (rpmLimit_same q1 q2) by (done || apply policy_truthy).
  assert (Hw2 : windowed q2 log now) by (apply (windowed_unseen q1); [by split|done]).
  destruct (num_ltb (Fin 0) _); cbn [negb andb].
  - assert (Hc := count_windowed q2 log now id now Hw2 ltac:(lia)). destruct Ssame as (_ & _ & Sc & Sn & St').
    unfold rpmCount in *. destruct Hc as [-> Hw3].
    destruct (num_leb _ _); cbn [gate_ok negb]; split_and!; try done; cbn [set_rpm q_inflight q_tables]; congruence.
  - destruct Ssame as (_ & _ & Sc & Sn & St'). cbn [gate_ok]. split_and!; try done; congruence.
Qed.

Lemma ensure_id_existing q id now : tables_ok (q_tables q) -> id <> "" -> has_key id (t_accounts (q_tables q)) = true ->
  ensure_id q id now = (q, repo_get q id).
Proof.
  intros Hok Hid Hk. assert (H := repo_get_spec (q_tables q) id Hok). rewrite Hk in H.
  assert (Hj : truthy (JStr id) = true) by (apply negb_true_iff, String.eqb_neq, Hid).
  unfold ensure_id, ensure. cbn [get assoc String.eqb Ascii.eqb Bool.eqb]. unfold or_else. rewrite !Hj.
  change (truthy JUndef) with false. cbn [negb to_string andb orb]. unfold repo_get. by rewrite H.
Qed.

Lemma limit_same q q' acc policy : q_concurrency q' = q_concurrency q -> q_tiers q' = q_tiers q -> truthy policy = true ->
  limitFor q' acc policy = limitFor q acc policy.
Proof. intros Hn Ht Hp. unfold limitFor, defaultMax, or_else. by rewrite Hp, Hn, Ht. Qed.

(** What a request for a slot does, against the log. *)
Lemma tryAcquire_spec q log last id key tier now : tables_ok (q_tables q) -> windowed q log last -> (last <= now)%Z -> id <> "" ->
  let '(q1, acc) := ensure_id q id now in
  let '(q2, g) := tryAcquire q id key tier false now in
  gate_ok g = admits q1 acc log id key tier now /\
  (forall i, inflight_of q2 i = inflight_of q i + if gate_ok g && String.eqb i id then 1 else 0)%Z /\
  windowed q2 (if gate_ok g then log ++ [(id, now)] else log) now /\ tables_ok (q_tables q2).
Proof.
  intros Hok Hw Hl Hid. assert (Hc := gate_spec q log last id key tier now Hok Hw Hl Hid).
  assert (He := ensure_id_spec q id now Hok Hid). destruct (ensure_id q id now) as [q1 acc].
  destruct He as (_ & (_ & Ei & _) & _ & _ & Hacc & Hk & _). unfold tryAcquire.
  destruct (canAccept q id key tier now) as [q2 g]. destruct Hc as (Hg & Hi & Hw2 & Hok2 & Hsame).
  destruct (gate_ok g) eqn:Eg.
  2: { rewrite Eg. cbn [andb]. split_and!; try done. intros i. unfold inflight_of. rewrite Hi. lia. }
  destruct (Hsame eq_refl) as (St & Sc & Sn & Ss). unfold reserve_slot.
  rewrite (ensure_id_existing q2 id now) by (done || by rewrite St).
  assert (Ea : repo_get q2 id = acc) by (rewrite Hacc; unfold repo_get; by rewrite St). rewrite Ea.
  assert (Ep : policyFor q2 acc tier = policyFor q1 acc tier) by (unfold policyFor; by rewrite Sc, Sn, Ss). rewrite Ep.
  rewrite (limit_same q1 q2) by (done || apply policy_truthy).
  assert (Ein : inflight_of q2 id = inflight_of q1 id) by (unfold inflight_of; by rewrite Hi, Ei). rewrite Ein.
  assert (Hadm := Hg). symmetry in Hadm. unfold admits in Hadm. cbv zeta in Hadm. rewrite !andb_true_iff in Hadm.
  destruct Hadm as [[[[[[Hlim _] _] _] _] _] _]. apply negb_true_iff in Hlim. rewrite Hlim. cbn [gate_ok andb].
  split_and!; [done| |by apply (touch_windowed _ _ now)|exact Hok2].
  intros i. unfold rpmTouch. cbn [fst]. unfold inflight_of at 1. cbn [set_rpm set_inflight q_inflight].
  destruct (String.eqb_spec i id) as [Ei'|Hn].
  - subst i. rewrite lookup_insert_eq. cbn [default]. unfold inflight_of. rewrite Ei. simpl. lia.
  - rewrite lookup_insert_ne by congruence. unfold inflight_of. rewrite Hi. lia.
Qed.

(** ** Histories *)

(** What the gateway did to a tracker, with the log of its grants and the latest clock
    reading.  [traced_other] is any operation that writes the tables, the policies or the
    conversations only. *)
Inductive traced : quota -> list (string * Z) -> Z -> Prop :=
| traced_start q now : tables_ok (q_tables q) -> q_rpm q = ∅ -> q_inflight q = ∅ -> traced q [] now
| traced_acquire q log last id key tier skip now : traced q log last -> (last <= now)%Z -> id <> "" ->
    traced (tryAcquire q id key tier skip now).1
      (if gate_ok (tryAcquire q id key tier skip now).2 then log ++ [(id, now)] else log) now
| traced_ask q log last id key tier now : traced q log last -> (last <= now)%Z -> id <> "" ->
    traced (canAccept q id key tier now).1 log now
| traced_release q log last id : traced q log last -> traced (release q id).1 log last
| traced_count q log last id now : traced q log last -> (last <= now)%Z -> traced (rpmCount q id now).1 log now
| traced_other q q' log last now : traced q log last -> (last <= now)%Z -> tables_ok (q_tables q') -> unseen q q' ->
    traced q' log now.

Lemma reserve_spec q log last id tier now : tables_ok (q_tables q) -> windowed q log last -> (last <= now)%Z -> id <> "" ->
  (forall i, (0 <= inflight_of q i)%Z) ->
  let '(q2, g) := reserve_slot q id tier now in
  tables_ok (q_tables q2) /\ windowed q2 (if gate_ok g then log ++ [(id, now)] else log) now /\
  forall i, (0 <= inflight_of q2 i)%Z.
Proof.
  intros Hok Hw Hl Hid Hn. unfold reserve_slot. assert (He := ensure_id_spec q id now Hok Hid).
  destruct (ensure_id q id now) as [q1 acc]. destruct He as (Hok1 & (Er & Ei & _) & _).
  assert (Hw1 : windowed q1 log now) by (apply (windowed_later q1 log last); [by apply (windowed_unseen q)|done]).
  assert (Hn1 : forall i, (0 <= inflight_of q1 i)%Z) by (intros i; unfold inflight_of; rewrite Ei; apply Hn).
  destruct (num_leb _ _); cbn [gate_ok concurrency_refusal]; [by split_and!|].
  split_and!; [exact Hok1|by apply (touch_windowed _ _ now)|].
  intros i. unfold rpmTouch. cbn [fst]. unfold inflight_of at 1. cbn [set_rpm set_inflight q_inflight].
  destruct (decide (id = i)) as [Hi|Hi].
  - subst i. rewrite lookup_insert_eq. specialize (Hn1 id). simpl. lia.
  - rewrite lookup_insert_ne by done. apply Hn1.
Qed.

Lemma traced_ok q log last : traced q log last ->
  tables_ok (q_tables q) /\ windowed q log last /\ forall id, (0 <= inflight_of q id)%Z.
Proof.
  induction 1 as [q now Hok Hr Hi|q log last id key tier skip now _ (Hok & Hw & Hn) Hl Hid
    |q log last id key tier now _ (Hok & Hw & Hn) Hl Hid|q log last id _ (Hok & Hw & Hn)
    |q log last id now _ (Hok & Hw & Hn) Hl|q q' log last now _ (Hok & Hw & Hn) Hl Hok' [Er Ei]].
  - split_and!; [done| |]; intros i; unfold inflight_of, bucket_of; [intros n _; by rewrite Hr, lookup_empty|].
    by rewrite Hi, lookup_empty.
  - destruct skip.
    + unfold tryAcquire. assert (Hs := reserve_spec q log last id tier now Hok Hw Hl Hid Hn).
      destruct (reserve_slot q id tier now) as [q2 g]. cbn [fst snd]. by destruct Hs as (? & ? & ?).
    + assert (Hs := tryAcquire_spec q log last id key tier now Hok Hw Hl Hid).
      destruct (ensure_id q id now) as [q1 acc], (tryAcquire q id key tier false now) as [q2 g].
      destruct Hs as (_ & Hi & Hw2 & Hok2). cbn [fst snd]. split_and!; [done..|].
      intros i. rewrite Hi. specialize (Hn i). destruct (_ && _); lia.
  - assert (Hs := gate_spec q log last id key tier now Hok Hw Hl Hid).
    destruct (ensure_id q id now) as [q1 acc], (canAccept q id key tier now) as [q2 g].
    destruct Hs as (_ & Hi & Hw2 & Hok2 & _). cbn [fst]. split_and!; [done..|].
    intros i. unfold inflight_of. rewrite Hi. apply Hn.
  - split_and!; [done..|]. intros i. unfold release. cbn [fst]. unfold inflight_of. cbn [set_inflight q_inflight].
    destruct (decide (id = i)) as [Hi|Hi]; [subst i; rewrite lookup_insert_eq; simpl; lia|].
    rewrite lookup_insert_ne by done. apply Hn.
  - assert (Hc := count_windowed q log last id now Hw Hl). unfold rpmCount in *. destruct Hc as [_ Hw'].
    split_and!; [done..|exact Hn].
  - split_and!; [done| |].
    + apply (windowed_unseen q); [by split|]. by apply (windowed_later q log last).
    + intros i. unfold inflight_of. rewrite Ei. apply Hn.
Qed.

(** C9: The quota tracker refines its specification, a log of every grant: at any point of any
    history of requests, releases, reports and settings, a request for a slot is granted
    exactly when the account is below its concurrency limit, neither window is blocked by
    headers or over its safety ratio, the conversation fits, and the grants of the last
    minute counted from the whole log are below the RPM limit; a grant adds one request in
    flight and one entry of the log, a refusal adds neither. *)
Theorem acquire_refines_log q log last id key tier now : traced q log last -> (last <= now)%Z -> id <> "" ->
  let '(q1, acc) := ensure_id q id now in
  let '(q2, g) := tryAcquire q id key tier false now in
  gate_ok g = admits q1 acc log id key tier now /\
  (forall i, inflight_of q2 i = inflight_of q i + if gate_ok g && String.eqb i id then 1 else 0)%Z /\
  traced q2 (if gate_ok g then log ++ [(id, now)] else log) now.
Proof.
  intros Ht Hl Hid. destruct (traced_ok q log last Ht) as (Hok & Hw & _).
  assert (Hs := tryAcquire_spec q log last id key tier now Hok Hw Hl Hid).
  assert (Hn := traced_acquire q log last id key tier false now Ht Hl Hid).
  destruct (ensure_id q id now) as [q1 acc], (tryAcquire q id key tier false now) as [q2 g]. cbn [fst snd] in Hn.
  by destruct Hs as (? & ? & _).
Qed.

(** A fresh tracker over the empty tables. *)
Definition sample_config : jsval :=
  JObj [("tiers", JObj [("default", JObj [("max_concurrency", jint 2); ("max_rpm", jint 1)])])].
Definition sample_quota : quota := construct no_tables sample_config JUndef ∅ true false 0.

Lemma sample_traced : traced sample_quota [] 0.
Proof. apply traced_start; [by split|reflexivity|reflexivity]. Qed.

(** The second request of the minute meets the RPM limit of one; a minute later it passes. *)
Lemma acquire_refines_log_witness :
  let r := tryAcquire sample_quota "a" "" JUndef false 1000 in
  traced r.1 (if gate_ok r.2 then [("a", 1000%Z)] else []) 1000 /\ gate_ok r.2 = true /\
  gate_ok (tryAcquire r.1 "a" "" JUndef false 60999).2 = false /\
  gate_ok (tryAcquire r.1 "a" "" JUndef false 61000).2 = true.
Proof.
  intros r. split; [|vm_compute; repeat split].
  assert (H := acquire_refines_log sample_quota [] 0 "a" "" JUndef 1000 sample_traced ltac:(lia) ltac:(discriminate)).
  unfold r. destruct (ensure_id sample_quota "a" 1000) as [q1 acc], (tryAcquire sample_quota "a" "" JUndef false 1000) as [q2 g].
  exact (proj2 (proj2 H)).
Defined.

(** ** Reports keep the tables and the counters *)

(** What an operation that only writes the tables keeps. *)
Definition reports (q q' : quota) : Prop :=
  same_counters q q' /\ (tables_ok (q_tables q) -> tables_ok (q_tables q')).

Lemma reports_refl q : reports q q.
Proof. by split. Qed.

Lemma reports_trans q1 q2 q3 : reports q1 q2 -> reports q2 q3 -> reports q1 q3.
Proof.
  intros [(A1 & A2 & A3 & A4 & A5) AT] [(B1 & B2 & B3 & B4 & B5) BT].
  split; [unfold same_counters; split_and!; congruence|tauto].
Qed.

Lemma reports_tables q t : step (q_tables q) t -> reports q (set_tables q t).
Proof. intros H. split; [by repeat split|]. by apply step_tables_ok. Qed.

Lemma updateWindow_step t id vmId w now : Runtime.updateWindow t id vmId w now = (t, JNull) \/
  exists c, Runtime.updateWindow t id vmId w now = Runtime.upsert t c now.
Proof. unfold Runtime.updateWindow. cbv zeta. case_match; [by left|right; by eexists]. Qed.

Lemma writeSessionWindow_reports q acc now : reports q (writeSessionWindow q acc now).
Proof.
  unfold writeSessionWindow. destruct (_ || _); [apply reports_refl|]. cbv zeta.
  match goal with |- context [Runtime.updateWindow ?t ?i ?v ?w ?n] => destruct (updateWindow_step t i v w n) as [E|[c E]] end;
    rewrite E; [by split|]. apply reports_tables, step_upsert.
Qed.

Lemma writeSessionWindow_quota q acc now id k : tables_ok (q_tables q) -> has_key id (t_accounts (q_tables q)) = true ->
  k ∈ QUOTA_FIELDS -> (repo_get (writeSessionWindow q acc now) id)?.k = (repo_get q id)?.k.
Proof.
  intros [Ha _] Hk Hin. unfold writeSessionWindow. destruct (_ || _); [done|]. cbv zeta.
  match goal with |- context [Runtime.updateWindow ?t ?i ?v ?w ?n] => destruct (updateWindow_step t i v w n) as [E|[c E]] end;
    rewrite E; [done|]. unfold repo_get. cbn [set_tables q_tables]. by apply upsert_keeps_quota.
Qed.

Lemma ensure_id_reports q id now : tables_ok (q_tables q) -> id <> "" -> reports q (ensure_id q id now).1.
Proof.
  intros Hok Hid. assert (H := ensure_id_spec q id now Hok Hid). destruct (ensure_id q id now) as [q1 acc].
  destruct H as (H & Hs & _). by split.
Qed.

Lemma save_window_reports q acc now : reports q (save_window q acc now).1.
Proof.
  unfold save_window, repo_save. destruct (Accounts.save (q_tables q) acc now) as [t saved] eqn:E. cbn [fst].
  apply (reports_trans q (set_tables q t)).
  - apply reports_tables. replace t with (Accounts.save (q_tables q) acc now).1 by (by rewrite E). apply step_save.
  - apply writeSessionWindow_reports.
Qed.

Lemma ingestHeaders_reports q id headers usageBody extra now : tables_ok (q_tables q) -> id <> "" ->
  reports q (ingestHeaders q id headers usageBody extra now).1.
Proof.
  intros Hok Hid. unfold ingestHeaders. assert (H := ensure_id_reports q id now Hok Hid).
  destruct (ensure_id q id now) as [q1 acc]. cbn [fst] in H. cbv zeta. destruct (if _ || _ then _ else _) as [u sampled].
  apply (reports_trans q q1); [done|]. destruct (negb (is_bool _ false)); [|apply save_window_reports].
  eapply reports_trans; [|apply save_window_reports]. apply reports_tables, step_allocation.
Qed.

(** The stored copy of a field. *)
Lemma get_json_copy v k x : v?.k = x -> x <> JUndef -> (json_copy v)?.k = json_copy x.
Proof.
  destruct v as [| | | | |l|f]; cbn [get]; try (intros <- H; by destruct H).
  cbn [json_copy get]. induction f as [|[k' y] f IH]; cbn [assoc]; [intros <- H; by destruct H|].
  intros Hx Hn. destruct (String.eqb k k') eqn:E.
  - subst y. destruct x; cbn [omap list_omap fst snd assoc]; rewrite ?E; done.
  - destruct y; cbn [omap list_omap fst snd assoc]; rewrite ?E; by apply IH.
Qed.

Lemma row_unified row : truthy row = true -> truthy (row?."extra") = true ->
  (Accounts.rowToAccount row)?."unified" = row?."extra"?."unified" ?? Accounts.DEFAULT_UNIFIED.
Proof.
  intros Hr He. unfold Accounts.rowToAccount. rewrite Hr. cbn [negb]. cbv zeta. unfold or_else. rewrite He. reflexivity.
Qed.

(** What is read back of a saved account. *)
Lemma save_unified t acc now : tables_ok t -> has_key (Accounts.id_of acc) (t_accounts t) = true ->
  is_obj (acc?."unified") = true ->
  (Accounts.save t acc now).2?."unified" = json_copy (acc?."unified").
Proof.
  intros [Ha _] Hk Hu. unfold Accounts.save. cbv zeta. cbn [snd]. unfold Accounts.get, select_row.
  cbn [set_accounts t_accounts]. rewrite assoc_update, String.eqb_refl, Hk. cbn [andb].
  assert (Ex : (spread (assoc (Accounts.id_of acc) (t_accounts t))
                  (JObj (Accounts.shared_columns acc ++ [("updated_at", iso_now now)])))?."extra" = Accounts.buildExtra acc).
  { rewrite get_spread_own by (reflexivity || distinct_keys). reflexivity. }
  rewrite row_unified, Ex by (done || by rewrite Ex).
  assert (E : (Accounts.buildExtra acc)?."unified" = json_copy (acc?."unified")).
  { unfold Accounts.buildExtra. apply get_json_copy.
    - cbn [get assoc String.eqb Ascii.eqb Bool.eqb]. by destruct (acc?."unified").
    - by destruct (acc?."unified"). }
  rewrite E. by destruct (acc?."unified").
Qed.

(** ** An exhausted account stays blocked until its reset *)

Lemma writeHeaderWindow_status u key incoming s : incoming?."status" = JStr s -> s <> "" ->
  (writeHeaderWindow u key incoming)?."headers"?.key?."status" = JStr s.
Proof.
  intros Hs Hn. unfold writeHeaderWindow. cbv zeta. rewrite get_with_field_eq, get_with_field_eq.
  assert (Ht : forall x y, JStr s ||| x ||| y = JStr s).
  { intros x y. unfold or_else. assert (E : truthy (JStr s) = true) by (by apply negb_true_iff, String.eqb_neq). by rewrite !E. }
  destruct (truthy _); [rewrite get_with_field_ne by done|]; rewrite Hs; cbn [window get assoc String.eqb Ascii.eqb Bool.eqb]; apply Ht.
Qed.

Lemma writeHeaderWindow_other u key key' incoming : key <> key' ->
  (writeHeaderWindow u key incoming)?."headers"?.key' = or_empty (u?."headers")?.key'.
Proof.
  intros Hn. unfold writeHeaderWindow. cbv zeta. rewrite get_with_field_eq. apply get_with_field_ne. congruence.
Qed.

(** The window [applyHeaderExhausted] marks. *)
Definition exhausted_key (h : jsval) : string :=
  if isRejectedStatus (header h "5h-status") || negb (isRejectedStatus (header h "7d-status")) then "5h" else "7d".

Lemma applyHeaderExhausted_status u h now :
  (applyHeaderExhausted u h now)?."headers"?.(exhausted_key h)?."status" = JStr "rejected".
Proof.
  unfold applyHeaderExhausted, exhausted_key. cbv zeta. unfold update. rewrite get_with_field_eq.
  assert (Hne : forall k, k = "5h" \/ k = "7d" -> k <> "exhausted_at") by (intros k [->| ->]; done).
  destruct (isRejectedStatus (header h "5h-status")), (isRejectedStatus (header h "7d-status")); cbn [orb negb];
    rewrite get_with_field_ne by (apply Hne; tauto); by apply writeHeaderWindow_status.
Qed.

(** Saved windows keep a rejected status. *)
Lemma saved_rejected u key : u?."headers"?.key?."status" = JStr "rejected" ->
  (json_copy u)?."headers"?.key?."status" = JStr "rejected".
Proof.
  intros H.
  assert (H1 : u?."headers" <> JUndef) by (intros E; by rewrite E in H).
  assert (H2 : u?."headers"?.key <> JUndef) by (intros E; by rewrite E in H).
  rewrite (get_json_copy u "headers" _ eq_refl H1), (get_json_copy _ key _ eq_refl H2).
  by rewrite (get_json_copy _ "status" _ H).
Qed.

Lemma rejected_window_blocks u key now : u?."headers"?.key?."status" = JStr "rejected" ->
  headerWindow u key = u?."headers"?.key /\
  headerHardBlocked u key now = negb (elapsed (parseResetMs (u?."headers"?.key?."reset")) now).
Proof.
  intros H. assert (Hd : windowHasData (u?."headers"?.key) = true).
  { unfold windowHasData. rewrite H. destruct (u?."headers"?.key); try done. cbn [is_object andb]. by rewrite orb_true_r. }
  assert (Hw : headerWindow u key = u?."headers"?.key) by (unfold headerWindow; by rewrite Hd).
  split; [done|]. unfold headerHardBlocked. by rewrite Hw, H.
Qed.

Lemma repo_get_id t id : tables_ok t -> has_key id (t_accounts t) = true -> (Accounts.get t id)?."account_id" = JStr id.
Proof.
  intros [Ha _] Hk. destruct (Ha id Hk) as [Ht Hid]. unfold Accounts.get, select_row, Accounts.rowToAccount. rewrite Ht.
  cbn [negb]. cbv zeta. cbn [get assoc String.eqb Ascii.eqb Bool.eqb]. exact Hid.
Qed.

(** The counters of a request do not touch the id. *)
Lemma counted_id acc usageBody (b : bool) :
  (if b then add_request (count_usage acc usageBody) else acc)?."account_id" = acc?."account_id".
Proof.
  destruct b; [|done]. unfold add_request, count_usage, add_tokens. cbv zeta.
  rewrite get_with_field_ne by done. destruct (forallb _ _); [done|]. by rewrite !get_with_field_ne by done.
Qed.

(** What is read back after a report is saved. *)
Lemma save_window_unified q acc now id : tables_ok (q_tables q) -> has_key id (t_accounts (q_tables q)) = true ->
  acc?."account_id" = JStr id -> is_obj (acc?."unified") = true ->
  (repo_get (save_window q acc now).1 id)?."unified" = json_copy (acc?."unified").
Proof.
  intros Hok Hk Hid Hu. unfold save_window, repo_save.
  assert (Ei : Accounts.id_of acc = id) by (unfold Accounts.id_of; by rewrite Hid).
  assert (Hs := save_unified (q_tables q) acc now Hok). rewrite Ei in Hs. specialize (Hs Hk Hu).
  assert (Hok' := step_tables_ok _ _ (step_save (q_tables q) acc now) Hok).
  assert (Hk' : has_key id (t_accounts (Accounts.save (q_tables q) acc now).1) = true).
  { unfold Accounts.save. cbn [fst set_accounts t_accounts]. by rewrite has_key_update. }
  assert (Eg : (Accounts.save (q_tables q) acc now).2 = Accounts.get (Accounts.save (q_tables q) acc now).1 id).
  { unfold Accounts.save. cbv zeta. cbn [fst snd]. by rewrite Ei. }
  destruct (Accounts.save (q_tables q) acc now) as [t saved]. cbn [fst snd] in *.
  rewrite writeSessionWindow_quota; [|done|done|in_list]. unfold repo_get. cbn [set_tables q_tables]. by rewrite <- Eg.
Qed.

Lemma writeSessionWindow_key q acc now id : has_key id (t_accounts (q_tables q)) = true ->
  has_key id (t_accounts (q_tables (writeSessionWindow q acc now))) = true.
Proof.
  intros H. unfold writeSessionWindow. destruct (negb (q_runtime q) || _); [exact H|]. cbv zeta.
  match goal with |- context [Runtime.updateWindow ?t ?i ?v ?w ?n] => destruct (updateWindow_step t i v w n) as [E|[c E]] end;
    rewrite E; [exact H|]. cbn [set_tables q_tables]. by apply upsert_has_key.
Qed.

(** The window an exhausted answer leaves in the store. *)
Lemma ingest_exhausted q id headers usageBody extra now : tables_ok (q_tables q) -> id <> "" ->
  is_bool (extra?."exhausted") true || is_num (extra?."status") 429 || isUnifiedRejected (normalizeHeaders headers) = true ->
  let q' := (ingestHeaders q id headers usageBody extra now).1 in
  (repo_get q' id)?."unified"?."headers"?.(exhausted_key (normalizeHeaders headers))?."status" = JStr "rejected" /\
  has_key id (t_accounts (q_tables q')) = true.
Proof.
  intros Hok Hid Hex q'. unfold q', ingestHeaders. assert (He := ensure_id_spec q id now Hok Hid).
  destruct (ensure_id q id now) as [q1 acc]. destruct He as (Hok1 & _ & _ & _ & Hacc & Hk & _).
  cbv zeta. rewrite Hex. rewrite orb_true_r. destruct (ingest_rate_headers _ _) as [u sampled].
  match goal with |- context [applyHeaderExhausted ?x ?h now] =>
    assert (Hst := applyHeaderExhausted_status x h now); assert (Hobj : is_obj (applyHeaderExhausted x h now) = true) by done;
    set (u' := applyHeaderExhausted x h now) in * end.
  match goal with |- context [save_window ?qq _ _] => set (q2 := qq) end.
  assert (Hq2 : tables_ok (q_tables q2) /\ t_accounts (q_tables q2) = t_accounts (q_tables q1)).
  { unfold q2. destruct (negb (is_bool _ false)); [|done]. by split. }
  destruct Hq2 as [Hok2 Et2].
  match goal with |- context [save_window q2 ?a now] => set (acc' := a) end.
  assert (Hid' : acc'?."account_id" = JStr id).
  { unfold acc'. rewrite get_with_field_ne, counted_id, Hacc by done. by apply repo_get_id. }
  assert (Hu' : acc'?."unified" = u') by apply get_with_field_eq.
  split.
  - assert (Hk2 : has_key id (t_accounts (q_tables q2)) = true) by (by rewrite Et2).
    assert (Ho : is_obj (acc'?."unified") = true) by (by rewrite Hu').
    rewrite (save_window_unified q2 acc' now id Hok2 Hk2 Hid' Ho), Hu'. by apply saved_rejected.
  - destruct (save_window_reports q2 acc' now) as [_ Hrep]. unfold save_window.
    unfold repo_save. destruct (Accounts.save _ _ _) as [t saved] eqn:Es. cbn [fst].
    apply writeSessionWindow_key. cbn [set_tables q_tables].
    replace t with (Accounts.save (q_tables q2) acc' now).1 by (by rewrite Es).
    unfold Accounts.save. cbn [fst set_accounts t_accounts]. by rewrite has_key_update, Et2.
Qed.

(** An answer that says the account is exhausted (status 429, a rejected rate-limit header
    or an explicit mark) is stored as a rejected window, and from then on the account
    refuses every request, whatever its conversation and tier, until the reset that window
    carries has elapsed. *)
Theorem exhausted_blocks q log last id headers usageBody extra now :
  traced q log last -> (last <= now)%Z -> id <> "" ->
  truthy (q_config q?."block_on_5h") = true -> truthy (q_config q?."block_on_7d") = true ->
  is_bool (extra?."exhausted") true || is_num (extra?."status") 429 || isUnifiedRejected (normalizeHeaders headers) = true ->
  let q' := (ingestHeaders q id headers usageBody extra now).1 in
  let w := (repo_get q' id)?."unified"?."headers"?.(exhausted_key (normalizeHeaders headers)) in
  w?."status" = JStr "rejected" /\
  forall session tier later, (now <= later)%Z -> elapsed (parseResetMs (w?."reset")) (num_of_Z later) = false ->
    gate_ok (canAccept q' id session tier later).2 = false.
Proof.
  intros Ht Hl Hid Hb5 Hb7 Hex q' w. destruct (traced_ok q log last Ht) as (Hok & Hw & _).
  destruct (ingest_exhausted q id headers usageBody extra now Hok Hid Hex) as [Hst Hk]. fold q' in Hst, Hk.
  split; [exact Hst|]. intros session tier later Hlater Hopen.
  destruct (ingestHeaders_reports q id headers usageBody extra now Hok Hid) as [(Er & Ei & Ec & _) Hok'].
  fold q' in Er, Ei, Ec, Hok'. specialize (Hok' Hok).
  assert (Hw' : windowed q' log later).
  { apply (windowed_unseen q); [by split|]. apply (windowed_later q log last); [done|lia]. }
  assert (Hs := gate_spec q' log later id session tier later Hok' Hw' (Z.le_refl _) Hid).
  rewrite (ensure_id_existing q' id later Hok' Hid Hk) in Hs.
  destruct (canAccept q' id session tier later) as [q2 g]. destruct Hs as [Hg _]. cbn [snd]. rewrite Hg.
  destruct (rejected_window_blocks _ _ (num_of_Z later) Hst) as [_ Hhard]. fold w in Hhard. rewrite Hopen in Hhard.
  unfold admits. cbv zeta. rewrite Ec, Hb5, Hb7. revert Hhard. unfold exhausted_key.
  destruct (isRejectedStatus (header _ "5h-status") || _); intros ->; cbn [andb negb]; by rewrite ?andb_false_r.
Qed.

Lemma exhausted_blocks_witness :
  let extra := JObj [("status", jint 429)] in
  let headers := JObj [("anthropic-ratelimit-unified-5h-reset", JStr "1788949230")] in
  let q' := (ingestHeaders sample_quota "a" headers JNull extra 1788940000000).1 in
  (repo_get q' "a")?."unified"?."headers"?."5h"?."status" = JStr "rejected" /\
  gate_ok (canAccept q' "a" "" JUndef 1788949229999).2 = false /\
  gate_ok (canAccept q' "a" "" JUndef 1788949230000).2 = true.
Proof.
  intros extra headers q'.
  destruct (exhausted_blocks sample_quota [] 0 "a" headers JNull extra 1788940000000 sample_traced
    ltac:(lia) ltac:(discriminate) eq_refl eq_refl eq_refl) as [H1 H2].
  split; [exact H1|]. split; [apply H2; [lia|vm_compute; reflexivity]|vm_compute; reflexivity].
Defined.

(** ** A live window of the headers is not overwritten *)

Lemma sync_key_other now u key k : k <> "headers" -> (sync_key now u key)?.k = u?.k.
Proof.
  intros Hk. unfold sync_key. cbv zeta. assert (Hw : forall w, (writeHeaderWindow u key w)?.k = u?.k).
  { intros w. unfold writeHeaderWindow. cbv zeta. by apply get_with_field_ne. }
  repeat case_match; auto.
Qed.

Lemma sync_key_headers now u key key' : key <> key' -> (sync_key now u key)?."headers"?.key' = u?."headers"?.key'.
Proof.
  intros Hk. unfold sync_key. cbv zeta.
  assert (Hw : forall w, (writeHeaderWindow u key w)?."headers"?.key' = u?."headers"?.key').
  { intros w. rewrite writeHeaderWindow_other by done. unfold or_empty, or_else. destruct (truthy (u?."headers")) eqn:E; [done|].
    by destruct (u?."headers"). }
  repeat case_match; auto.
Qed.

(** The values a window shows: absent is null. *)
Definition shows (w w' : jsval) : Prop :=
  w?."utilization" ?? JNull = w'?."utilization" ?? JNull /\ w?."status" ||| JNull = w'?."status" ||| JNull.

Lemma sync_key_live now u key : extraIsLiveOpen (u?."headers"?.key) now = true ->
  officialLooksLimited (u?."official"?.key ||| u?.key) = true ->
  shows ((sync_key now u key)?."headers"?.key) (u?."headers"?.key).
Proof.
  intros Hlive Hlim. unfold sync_key. cbv zeta. unfold shouldCopyOfficialToExtra. rewrite Hlive, Hlim.
  assert (Hc : (if negb (truthy (u?."official"?.key ||| u?.key)) || (is_nullish ((u?."official"?.key ||| u?.key)?."utilization") &&
      negb (truthy ((u?."official"?.key ||| u?.key)?."status")) && negb (truthy ((u?."official"?.key ||| u?.key)?."reset")) &&
      negb (truthy ((u?."official"?.key ||| u?.key)?."resets_at"))) then false else false) = false) by (by destruct (_ || _)).
  rewrite Hc. cbn [negb].
  destruct (truthy _ && truthy _ && negb _) eqn:E; [|done].
  assert (Hh : or_empty (u?."headers")?.key = u?."headers"?.key).
  { unfold or_empty, or_else. destruct (truthy (u?."headers")) eqn:Eh; [done|]. by destruct (u?."headers"). }
  apply andb_true_iff in E as [E _]. apply andb_true_iff in E as [_ E].
  unfold writeHeaderWindow. cbv zeta. rewrite get_with_field_eq, get_with_field_eq, Hh. unfold or_empty.
  assert (Hx : u?."headers"?.key ||| JObj [] = u?."headers"?.key) by (unfold or_else; by rewrite E). rewrite Hx.
  unfold shows. change (JObj [("reset", ?r)]?."utilization") with JUndef. cbn [is_nullish].
  unfold window. cbn [get assoc String.eqb Ascii.eqb Bool.eqb].
  destruct (truthy (JUndef ||| _)); rewrite ?get_with_field_ne by done; cbn [get assoc String.eqb Ascii.eqb Bool.eqb];
    (split; [by destruct (u?."headers"?.key?."utilization")|]); unfold or_else; cbn [truthy];
    by destruct (truthy (u?."headers"?.key?."status")) eqn:Es; rewrite ?Es.
Qed.

(** The official usage answer never closes a window the response headers show open: when
    the header window is live and open and the official one looks limited, the
    synchronisation keeps the utilization and the status the headers gave, so the
    account is not blocked by it. *)
Theorem live_window_kept unified key sampledAt now : key = "5h" \/ key = "7d" ->
  extraIsLiveOpen (unified?."headers"?.key) (num_of_Z now) = true ->
  officialLooksLimited (unified?."official"?.key ||| unified?.key) = true ->
  shows ((syncActiveToPassive unified sampledAt now)?."headers"?.key) (unified?."headers"?.key).
Proof.
  intros Hkey Hlive Hlim. unfold syncActiveToPassive. cbv zeta. cbn [foldl].
  set (u0 := with_field unified "headers" (or_empty (unified?."headers"))).
  assert (Hk : key <> "headers" /\ key <> "sampled_at" /\ key <> "7d_oi") by (by destruct Hkey; subst key).
  destruct Hk as (K1 & K2 & K3).
  assert (H0 : u0?."headers"?.key = unified?."headers"?.key).
  { unfold u0. rewrite get_with_field_eq. unfold or_empty, or_else. destruct (truthy (unified?."headers")) eqn:Eh; [done|].
    by destruct (unified?."headers"). }
  assert (Ho : u0?."official"?.key ||| u0?.key = unified?."official"?.key ||| unified?.key).
  { unfold u0. by rewrite !get_with_field_ne by done. }
  rewrite <- H0 in Hlive. rewrite <- Ho in Hlim.
  assert (Hend : forall u x, (update (sync_oi u) "headers" (fun h => with_field h "sampled_at" x))?."headers"?.key = u?."headers"?.key).
  { intros u x. unfold update. rewrite get_with_field_eq, get_with_field_ne by done. unfold sync_oi. cbv zeta.
    destruct (_ && _); [|done]. unfold update. by rewrite get_with_field_eq, get_with_field_ne by done. }
  unfold shows. rewrite !Hend, <- H0. set (n := num_of_Z now) in *.
  destruct Hkey; subst key.
  - rewrite !sync_key_headers by done. exact (sync_key_live n u0 "5h" Hlive Hlim).
  - assert (E1 := sync_key_headers n u0 "5h" "7d" ltac:(done)).
    assert (H := sync_key_live n (sync_key n u0 "5h") "7d"). rewrite E1, !sync_key_other in H by done. exact (H Hlive Hlim).
Qed.

Lemma live_window_kept_witness :
  let open := JObj [("utilization", JNum (dec 1 2)); ("status", JStr "allowed"); ("reset", JStr "1788949230")] in
  let u := JObj [("headers", JObj [("5h", open)]);
                 ("official", JObj [("5h", JObj [("utilization", jint 1); ("status", JStr "rejected")])])] in
  (syncActiveToPassive u JNull 1788940000000)?."headers"?."5h"?."status" ||| JNull = JStr "allowed".
Proof.
  intros open u. exact (proj2 (live_window_kept u "5h" JNull 1788940000000 (or_introl eq_refl) eq_refl eq_refl)).
Defined.

(** A tier that rejects everything is stored on its accounts as a limit of two. *)
Lemma tier_zero_becomes_two :
  let tiers := JObj [("default", JObj [("max_concurrency", jint 0)])] in
  tier_concurrency tiers (JObj []) = num_of_Z 2 /\
  limitFor (reloadConfig sample_quota (JObj [("tiers", tiers)])) (JObj []) JUndef = Fin 0.
Proof. vm_compute. split; reflexivity. Qed.
