(* ===== verification/Sanitize.v ===== *)
(** * Shaping of Messages bodies
    (src/src/lib/protocol/sanitize.mjs, anthropic-messages.mjs)

    What the gateway drops, promotes and normalises in a request body before the provider
    sees it.  The functions that mutate [body] take and return it here; spreading a value
    that is not iterable, which throws, is [None]. *)

From S2P Require Import Prelude.
From S2P Require Import JsValue.
From S2P Require Import JsText.
From S2P Require Import ModelPolicy.
From S2P Require Import WebSearch.
#[local] Open Scope string_scope.
#[local] Open Scope list_scope.
#[local] Open Scope js_scope.

Definition DROP_TOP : list string :=
  ["settings"; "claude_settings"; "env"; "user"; "user_id"; "extra_body"; "extra_headers"; "extra"; "n"; "presence_penalty";
   "frequency_penalty"; "logit_bias"; "logprobs"; "top_logprobs"; "functions"; "function_call"; "response_format"; "seed";
   "parallel_tool_calls"; "reasoning_effort"; "max_completion_tokens"; "max_output_tokens"; "store"; "modalities"; "audio";
   "prediction"; "stream_options"; "tool_resources"; "instructions"; "input"; "truncation"; "include"; "previous_response_id";
   "reasoning"; "prompt"; "suffix"; "best_of"; "echo"; "workspace"; "rewrite"; "frequencyPenalty"; "presencePenalty";
   "logitBias"; "functionCall"; "responseFormat"; "maxCompletionTokens"; "parallelToolCalls"; "toolResources";
   "streamOptions"; "previousResponseId"; "reasoningEffort"; "session"; "machine_id"; "device_id"; "account_uuid"; "web_search"].

Definition is_undef (v : jsval) : bool := match v with JUndef => true | _ => false end.

Definition copyOfficialAnthropicFields (body : jsval) : jsval :=
  JObj (List.filter (fun p => negb (is_undef p.2) && negb (mem p.1 DROP_TOP)) (entries body)).

(** [if (v) o[k] = v] *)
Definition set_truthy (k : string) (v o : jsval) : jsval := if truthy v then with_field o k v else o.

(** None is null. *)
Definition openaiResponseFormatToOutputConfig (responseFormat : jsval) : option jsval :=
  if negb (is_object responseFormat) then None
  else
    let type := to_lower (str_or_empty (responseFormat?."type")) in
    if String.eqb type "json_schema" then
      let wrapper := if is_object (responseFormat?."json_schema") then responseFormat?."json_schema" else responseFormat in
      let schema := wrapper?."schema" ||| wrapper in
      if negb (is_object schema) then None
      else
        let format := JObj [("type", JStr "json_schema"); ("schema", schema)] in
        let format := set_truthy "name" (wrapper?."name") format in
        Some (JObj [("format", set_truthy "description" (wrapper?."description") format)])
    else if String.eqb type "json_object" then
      Some (JObj [("format", JObj [("type", JStr "json_schema"); ("schema", JObj [("type", JStr "object")])])])
    else None.

Definition applyStructuredOutput (out source : jsval) : jsval :=
  if negb (is_object out) then out
  else if is_object (out?."output_config") then out
  else
    match openaiResponseFormatToOutputConfig (source?."response_format") with
    | Some mapped => with_field out "output_config" mapped
    | None =>
      match openaiResponseFormatToOutputConfig (source?."text"?."format") with
      | Some mapped => with_field out "output_config" mapped
      | None => out
      end
    end.

(** The contents of a [tool_result] are cleaned too. *)
Fixpoint stripIllegalContentFields (content : jsval) : jsval :=
  match content with
  | JArr l =>
    JArr (map (fun block =>
      match block with
      | JObj f =>
        let nested := is_str (assoc "type" f) "tool_result" in
        JObj (del_field "annotations"
          (map (fun p => (p.1, if nested && String.eqb p.1 "content" then stripIllegalContentFields p.2 else p.2)) f))
      | _ => block
      end) l)
  | _ => content
  end.

(** [body.messages.map(f)] *)
Definition map_messages (f : jsval -> jsval) (body : jsval) : jsval :=
  match body?."messages" with JArr l => with_field body "messages" (JArr (map f l)) | _ => body end.

Definition stripIllegalBodyContentFields (body : jsval) : jsval :=
  if negb (is_object body) then body
  else
    let body := if is_array (body?."system") then with_field body "system" (stripIllegalContentFields (body?."system")) else body in
    map_messages (fun message =>
      if is_array (message?."content") then with_field message "content" (stripIllegalContentFields (message?."content"))
      else message) body.

Definition text_of (s : string) : jsval := JObj [("type", JStr "text"); ("text", JStr s)].
(** A bare string becomes a text block. *)
Definition promote_block (part : jsval) : jsval := match part with JStr s => text_of s | _ => part end.

Definition promoteContentToBlocks (content : jsval) : jsval :=
  match content with
  | JStr s => JArr (if String.eqb s "" then [] else [text_of s])
  | JArr l => JArr (map promote_block l)
  | _ => content
  end.

Definition promoteSystemToBlocks (system : jsval) : jsval :=
  match system with
  | JStr s => if String.eqb s "" then system else JArr [text_of s]
  | JArr l => JArr (map promote_block l)
  | _ => system
  end.

Definition canonicalizeClaudeMessagesShape (body : jsval) : jsval :=
  if negb (is_object body) then body
  else
    let out := own body in
    let out := if is_nullish (out?."system") then out else with_field out "system" (promoteSystemToBlocks (out?."system")) in
    map_messages (fun message =>
      if is_object message then with_own message "content" (promoteContentToBlocks (message?."content")) else message) out.

Definition normalizeStop (out : jsval) : jsval :=
  if truthy (out?."stop_sequences") then without out "stop"
  else if is_nullish (out?."stop") then out
  else
    let stop := out?."stop" in
    without (with_field out "stop_sequences" (if is_array stop then stop else JArr [stop])) "stop".

(** ** Conversations *)

Definition part_text (part : jsval) : jsval :=
  match part with
  | JStr _ => part
  | _ =>
    let t := part?."type" in
    if is_str t "text" || is_str t "input_text" || is_str t "output_text" then part?."text" ||| JStr "" else JStr ""
  end.

Definition contentToPlainText (content : jsval) : string :=
  match content with
  | JStr s => trim s
  | JArr l => trim (join newline (List.filter (fun t => nonempty (trim t)) (map (fun p => to_string (part_text p)) l)))
  | _ => trim (str_or_empty (content?."text"))
  end.

Definition empty_block (block : jsval) : bool :=
  match block with
  | JStr s => negb (nonempty (trim s))
  | _ =>
    if negb (is_object block) then true
    else if is_str (block?."type") "text" || is_nullish (block?."type") then negb (nonempty (trim (str_or_empty (block?."text"))))
    else false
  end.

Definition anthropicContentIsEmpty (content : jsval) : bool :=
  match content with
  | JUndef | JNull => true
  | JStr s => negb (nonempty (trim s))
  | JArr l => forallb empty_block l
  | _ => false
  end.

Definition asContentBlocks (content : jsval) : list jsval :=
  match content with
  | JStr s => if String.eqb s "" then [] else [text_of s]
  | JArr l => l
  | _ => []
  end.

Definition mergeAnthropicContent (left_ right_ : jsval) : jsval :=
  match left_, right_ with
  | JStr a, JStr b => JStr (a ++ newline ++ b)%string
  | _, _ => JArr (asContentBlocks left_ ++ asContentBlocks right_)
  end.

(** [a.role !== b.role] on roles that are strings. *)
Definition same_role (a b : jsval) : bool := String.eqb (to_string (a?."role")) (to_string (b?."role")).

(** The fold over the turns: the turns so far, newest first. *)
Definition merge_turn (out : list jsval) (message : jsval) : list jsval :=
  match out with
  | last :: r =>
    if same_role last message
    then with_field last "content" (mergeAnthropicContent (last?."content") (message?."content")) :: r
    else own message :: out
  | [] => [own message]
  end.
Definition mergeConsecutiveAnthropicMessages (messages : list jsval) : list jsval := rev (foldl merge_turn [] messages).

(** None: spreading an existing system that is neither text nor an array throws. *)
Definition appendSystemParts (existing : jsval) (parts : list string) : option jsval :=
  match List.filter nonempty parts with
  | [] => Some existing
  | extra =>
    let blocks := map text_of extra in
    if is_nullish existing || is_str existing "" then Some (JArr blocks)
    else match promoteSystemToBlocks existing with JArr l => Some (JArr (l ++ blocks)) | _ => None end
  end.

(** One turn: the system parts, the mapped turns (newest first), whether a user turn was seen. *)
Definition normalize_turn (keepMidConversationSystem : bool) (st : list string * list jsval * bool) (message : jsval)
  : list string * list jsval * bool :=
  let '(parts, mapped, seenUser) := st in
  if negb (is_object message) then st
  else
    let role := to_lower (trim (str_or_empty (message?."role"))) in
    if String.eqb role "system" || String.eqb role "developer" then
      if negb seenUser || negb keepMidConversationSystem then
        let text := contentToPlainText (message?."content") in
        (if nonempty text then parts ++ [text] else parts, mapped, seenUser)
      else if anthropicContentIsEmpty (message?."content") then st
      else (parts, with_own message "role" (JStr "system") :: mapped, seenUser)
    else if anthropicContentIsEmpty (message?."content") then st
    else
      let nextRole := if String.eqb role "assistant" then "assistant" else "user" in
      (parts, with_own message "role" (JStr nextRole) :: mapped, seenUser || String.eqb nextRole "user").

Definition dot_turn : jsval := JObj [("role", JStr "user"); ("content", JStr ".")].

Definition normalizeAnthropicMessages (body : jsval) (keepMidConversationSystem : bool) : option jsval :=
  match body?."messages" with
  | JArr l =>
    let '(parts, mapped, _) := foldl (normalize_turn keepMidConversationSystem) ([], [], false) l in
    let merged := mergeConsecutiveAnthropicMessages (rev mapped) in
    let merged := match merged with
                  | first :: _ => if is_str (first?."role") "user" then merged else dot_turn :: merged
                  | [] => []
                  end in
    let body := with_field body "messages" (JArr merged) in
    match parts with
    | [] => Some body
    | _ => system ← appendSystemParts (body?."system") parts; Some (with_field body "system" system)
    end
  | _ => Some body
  end.

Definition liftMidConversationSystemMessages (body : jsval) : option jsval :=
  if is_array (body?."messages") then normalizeAnthropicMessages (own body) false else Some body.

(** ** The bodies sent upstream *)

(** One entry of [out.system.map(...)]; a falsy result is filtered out. *)
Definition system_block (b : jsval) : list jsval :=
  match b with
  | JStr s => [text_of s]
  | _ =>
    match b?."text" with
    | JStr s => [set_truthy "cache_control" (b?."cache_control") (text_of s)]
    | _ => if is_object b then [b] else []
    end
  end.

(** The tail of both functions: no empty tools, no choice without tools. *)
Definition drop_empty_tools (out : jsval) : jsval := match out?."tools" with JArr [] => without out "tools" | _ => out end.
Definition drop_lone_choice (out : jsval) : jsval :=
  if truthy (out?."tool_choice") && negb (truthy (out?."tools")) then without out "tool_choice" else out.
Definition fill_max_tokens (n : num) (out : jsval) : jsval :=
  if truthy (out?."max_tokens") then out else with_field out "max_tokens" (JNum n).

Definition sanitizeAnthropicBody (policy body : jsval) (strictPassthrough : bool) : option jsval :=
  if negb (is_object body) then Some body
  else if strictPassthrough then Some (normalizeStop (own body))
  else
    let out := applyStructuredOutput (copyOfficialAnthropicFields body) body in
    let out := match out?."system" with JArr l => with_field out "system" (JArr (flat_map system_block l)) | _ => out end in
    out ← normalizeAnthropicMessages out true;
    let out := drop_empty_tools (stripIllegalBodyContentFields out) in
    let out := fill_max_tokens (defaultMaxTokensForModel policy (out?."model")) out in
    Some (canonicalizeClaudeMessagesShape (normalizeStop (drop_lone_choice out))).

(** [stream]: none leaves the field as it is. *)
Definition officialMessagesBody (body : jsval) (stream : option bool) : option jsval :=
  let out := applyStructuredOutput (copyOfficialAnthropicFields body) body in
  out ← normalizeAnthropicMessages out true;
  let out := stripIllegalBodyContentFields out in
  let out := if is_array (out?."tools") then with_field out "tools" (sanitizeAnthropicTools (out?."tools")) else out in
  let out := match stream with Some b => with_field out "stream" (JBool b) | None => out end in
  let out := fill_max_tokens (num_of_Z 128000) out in
  Some (canonicalizeClaudeMessagesShape (normalizeStop (drop_lone_choice (drop_empty_tools out)))).

Example normalize_ex :
  let turn r t := JObj [("role", JStr r); ("content", JStr t)] in
  normalizeAnthropicMessages (JObj [("messages", JArr [turn "system" "be kind"; turn "assistant" "hi"; turn "tool" "a";
    turn "user" "b"; turn "user" " "])]) true
  = Some (JObj [("messages", JArr [dot_turn; turn "assistant" "hi"; turn "user" ("a" ++ newline ++ "b")%string]);
                ("system", JArr [text_of "be kind"])]).
Proof. vm_compute. reflexivity. Qed.

(** ** The provider's rules on turns *)

Fixpoint alternating (roles : list string) : Prop :=
  match roles with a :: ((b :: _) as r) => a <> b /\ alternating r | _ => True end.

(** The role of a turn. *)
Definition turn_role (m : jsval) : string := to_string (m?."role").
Definition ROLES : list string := ["user"; "assistant"; "system"].
(** A turn: an object with one of the roles. *)
Definition turn_ok (m : jsval) : Prop := is_obj m = true /\ exists r, m?."role" = JStr r /\ r ∈ ROLES.

Lemma alternating_snoc l a b : alternating (l ++ [a]) -> a <> b -> alternating (l ++ [a; b]).
Proof.
  induction l as [|x l IH]; cbn [app]; [done|]. intros H Hn. destruct l as [|y l]; cbn [app] in *.
  - destruct H as [H _]. done.
  - destruct H as [H1 H2]. split; [done|]. by apply IH.
Qed.

Lemma alternating_rev l : alternating l -> alternating (rev l).
Proof.
  induction l as [|a [|b l] IH]; [done|done|]. intros [Hn H]. specialize (IH H). cbn [rev] in *.
  rewrite <- (assoc_L app). apply alternating_snoc; [done|congruence].
Qed.

Lemma turn_with_content m x : turn_ok m -> turn_ok (with_field m "content" x) /\ turn_role (with_field m "content" x) = turn_role m.
Proof.
  intros [Ho (r & Hr & Hin)]. unfold turn_ok, turn_role. rewrite get_with_field_ne by done. split; [|done].
  split; [done|]. by exists r.
Qed.

Lemma own_turn m : turn_ok m -> own m = m.
Proof. intros [Ho _]. by destruct m. Qed.

Lemma merge_turns l : forall out, Forall turn_ok l -> Forall turn_ok out -> alternating (map turn_role out) ->
  Forall turn_ok (foldl merge_turn out l) /\ alternating (map turn_role (foldl merge_turn out l)).
Proof.
  induction l as [|m l IH]; intros out Hl Ho Ha; [done|]. cbn [foldl]. apply Forall_cons in Hl as [Hm Hl].
  apply IH; [done|..]; unfold merge_turn; destruct out as [|last r]; rewrite ?(own_turn m Hm).
  - by apply Forall_cons.
  - apply Forall_cons in Ho as [H1 H2]. destruct (same_role last m); [apply Forall_cons; split; [by apply turn_with_content|done]|].
    apply Forall_cons; split; [done|]. by apply Forall_cons.
  - done.
  - apply Forall_cons in Ho as [H1 H2]. destruct (same_role last m) eqn:E.
    + cbn [map] in *. by rewrite (proj2 (turn_with_content last _ H1)).
    + cbn [map] in *. split; [|done]. intros Heq. unfold same_role, turn_role in *. by rewrite Heq, String.eqb_refl in E.
Qed.

Lemma normalize_turns keep l : forall st, Forall turn_ok st.1.2 ->
  Forall turn_ok (foldl (normalize_turn keep) st l).1.2.
Proof.
  induction l as [|m l IH]; intros st Hst; [done|]. cbn [foldl]. apply IH. destruct st as [[parts mapped] seen].
  unfold normalize_turn. cbn [fst snd] in *.
  assert (Hrole : forall r, r ∈ ROLES -> Forall turn_ok (with_own m "role" (JStr r) :: mapped)).
  { intros r Hr. apply Forall_cons. split; [|done]. split; [done|]. exists r. split; [apply get_with_own_eq|done]. }
  repeat case_match; cbn [fst snd]; try done; apply Hrole; unfold ROLES; set_solver.
Qed.

(** Whatever conversation a client sends, the turns that reach the provider have only the
    roles user, assistant and system, no two consecutive turns share a role, and a
    conversation that has turns starts with the user's. *)
Theorem normalized_conversation body keep out l : body?."messages" = JArr l ->
  normalizeAnthropicMessages body keep = Some out ->
  exists ms, out?."messages" = JArr ms /\ Forall turn_ok ms /\ alternating (map turn_role ms) /\
    (ms = [] \/ hd_error (map turn_role ms) = Some "user").
Proof.
  intros Hl Hn. unfold normalizeAnthropicMessages in Hn. rewrite Hl in Hn.
  assert (Ht := normalize_turns keep l ([], [], false) (Forall_nil_2 _)).
  destruct (foldl (normalize_turn keep) ([], [], false) l) as [[parts mapped] seen]. cbn [fst snd] in Ht.
  assert (Hm := merge_turns (rev mapped) [] ltac:(by apply Forall_rev) (Forall_nil_2 _) I).
  unfold mergeConsecutiveAnthropicMessages in Hn. set (acc := foldl merge_turn [] (rev mapped)) in *.
  destruct Hm as [Hok Halt]. assert (Hok' : Forall turn_ok (rev acc)) by (by apply List.Forall_rev). apply alternating_rev in Halt. rewrite <- map_rev in Halt.
  set (merged := rev acc) in *.
  set (ms := match merged with first :: _ => if is_str (first?."role") "user" then merged else dot_turn :: merged | [] => [] end) in *.
  exists ms. split.
  - destruct parts as [|p ps]; [injection Hn as <-; apply get_with_field_eq|].
    apply bind_Some in Hn as (sys & _ & Hn). injection Hn as <-. rewrite get_with_field_ne by done. apply get_with_field_eq.
  - unfold ms. clear Hn. destruct merged as [|m r]; [split_and!; [constructor|done|by left]|].
    apply Forall_cons in Hok' as [[Hmo (r0 & Hr0 & Hin)] Hr]. rewrite Hr0. cbn [is_str].
    destruct (String.eqb_spec r0 "user") as [E|Hne].
    + split_and!; [apply Forall_cons; split; [split; [done|by exists r0]|done]|done|].
      right. cbn [map hd_error]. unfold turn_role. by rewrite Hr0, E.
    + split_and!.
      * apply Forall_cons. split; [split; [done|exists "user"; split; [done|unfold ROLES; set_solver]]|].
        apply Forall_cons. split; [split; [done|by exists r0]|done].
      * cbn [map]. split; [|exact Halt]. unfold turn_role at 2. rewrite Hr0. cbn. congruence.
      * right. reflexivity.
Qed.

Lemma normalized_conversation_witness :
  let turn r t := JObj [("role", JStr r); ("content", JStr t)] in
  let l := [turn "assistant" "hi"; turn "function" "a"; turn "user" "b"] in
  exists ms, alternating (map turn_role ms) /\ hd_error (map turn_role ms) = Some "user".
Proof.
  intros turn l.
  destruct (normalized_conversation (JObj [("messages", JArr l)]) true
    (JObj [("messages", JArr [dot_turn; turn "assistant" "hi"; turn "user" ("a" ++ newline ++ "b")%string])]) l eq_refl eq_refl)
    as (ms & Hms & _ & Ha & Hu).
  exists ms. split; [exact Ha|]. destruct Hu as [E|Hu]; [|exact Hu]. subst ms. discriminate Hms.
Defined.
