(* ===== verification/JsonParse.v ===== *)
(** * JSON.parse

    A recursive descent parser of JSON texts ([None] is the SyntaxError), and the round trip
    with [JSON.stringify].  Strings are byte strings: a unicode escape is decoded to UTF-8,
    a surrogate pair to one character. *)

From S2P Require Import Prelude.
From S2P Require Import JsValue.
From S2P Require Import JsText.
From S2P Require Import JsJson.
From Stdlib Require Import DecimalZ DecimalPos DecimalFacts.
#[local] Open Scope string_scope.
#[local] Open Scope list_scope.

Definition is_ws (c : ascii) : bool := match nat_of_ascii c with 9 | 10 | 13 | 32 => true | _ => false end%nat.
Fixpoint skip_ws (s : string) : string :=
  match s with String c r => if is_ws c then skip_ws r else s | EmptyString => s end.

(** ** Strings *)

(** A piece of a string literal: a byte as it is, or an escaped code unit. *)
Definition piece : Type := ascii + Z.

Definition hex4 (a b c d : ascii) : option Z :=
  x ← hex_digit a; y ← hex_digit b; z ← hex_digit c; w ← hex_digit d;
  Some (((x * 16 + y) * 16 + z) * 16 + w)%Z.

(** The character a one-letter escape stands for. *)
Definition simple_escape (c : ascii) : option ascii :=
  match nat_of_ascii c with
  | 34 | 92 | 47 => Some c
  | 98 => Some (ascii_of_nat 8)
  | 102 => Some (ascii_of_nat 12)
  | 110 => Some (ascii_of_nat 10)
  | 114 => Some (ascii_of_nat 13)
  | 116 => Some (ascii_of_nat 9)
  | _ => None
  end%nat.

(** The literal after its opening quote: its pieces and the text after the closing quote. *)
Fixpoint take_pieces (s : string) : option (list piece * string) :=
  match s with
  | EmptyString => None
  | String c r =>
    if (nat_of_ascii c =? 34)%nat then Some ([], r)
    else if (nat_of_ascii c <? 32)%nat then None
    else if (nat_of_ascii c =? 92)%nat then
      match r with
      | String e r1 =>
        if (nat_of_ascii e =? 117)%nat then
          match r1 with
          | String h1 (String h2 (String h3 (String h4 r2))) =>
            u ← hex4 h1 h2 h3 h4; p ← take_pieces r2; Some (inr u :: p.1, p.2)
          | _ => None
          end
        else d ← simple_escape e; p ← take_pieces r1; Some (inl d :: p.1, p.2)
      | EmptyString => None
      end
    else p ← take_pieces r; Some (inl c :: p.1, p.2)
  end.

Definition byte (z : Z) : string := String (ascii_of_nat (Z.to_nat z)) "".
Definition utf8 (u : Z) : string :=
  (if u <? 128 then byte u
   else if u <? 2048 then byte (192 + u / 64) ++ byte (128 + u mod 64)
   else if u <? 65536 then byte (224 + u / 4096) ++ byte (128 + u / 64 mod 64) ++ byte (128 + u mod 64)
   else byte (240 + u / 262144) ++ byte (128 + u / 4096 mod 64) ++ byte (128 + u / 64 mod 64) ++ byte (128 + u mod 64))%Z%string.

Definition high_surrogate (u : Z) : bool := ((55296 <=? u) && (u <? 56320))%Z.
Definition low_surrogate (u : Z) : bool := ((56320 <=? u) && (u <? 57344))%Z.

Fixpoint encode (l : list piece) : string :=
  match l with
  | [] => ""
  | inl c :: r => String c (encode r)
  | inr u :: ((inr w :: r') as r) =>
    if high_surrogate u && low_surrogate w
    then (utf8 (65536 + (u - 55296) * 1024 + (w - 56320))%Z ++ encode r')%string
    else (utf8 u ++ encode r)%string
  | inr u :: r => (utf8 u ++ encode r)%string
  end.

Definition take_string (s : string) : option (string * string) := p ← take_pieces s; Some (encode p.1, p.2).

(** ** Numbers *)

Definition take_number (s : string) : option (num * string) :=
  let '(neg, r0) := match s with String "-" r => (true, r) | _ => (false, s) end in
  let '(int, ni, r1) := take_digits 0 0 r0 in
  if (ni =? 0)%nat || (starts_with "0" r0 && (1 <? ni)%nat) then None
  else
    frac ← match r1 with
           | String "." r => let '(m, n, r') := take_digits int 0 r in if (n =? 0)%nat then None else Some (m, n, r')
           | _ => Some (int, 0%nat, r1)
           end;
    let '(mant, nf, r2) := frac in
    exp ← match r2 with
          | String c r =>
            if Ascii.eqb (lower_char c) "e" then
              let '(eneg, r') := take_sign r in
              let '(e, ne, r'') := take_digits 0 0 r' in
              if (ne =? 0)%nat then None else Some ((if eneg then - e else e)%Z, r'')
            else Some (0%Z, r2)
          | EmptyString => Some (0%Z, r2)
          end;
    let q := Qred (inject_Z mant * pow10 (exp.1 - Z.of_nat nf)) in
    Some (Fin (if neg then Qred (- q) else q), exp.2).

(** ** Values *)

(** [s] after the literal word [w]. *)
Definition take_word (w : string) (v : jsval) (s : string) : option (jsval * string) :=
  if starts_with w s then Some (v, drop_chars (String.length w) s) else None.

(** [n]: one step for a value, one for each element or member; twice the length is enough. *)
Fixpoint parse_value (n : nat) (s : string) : option (jsval * string) :=
  match n with
  | O => None
  | S n =>
    match skip_ws s with
    | EmptyString => None
    | String c r as s =>
      match nat_of_ascii c with
      | 34 => p ← take_string r; Some (JStr p.1, p.2)
      | 91 => match skip_ws r with String "]" r' => Some (JArr [], r') | _ => parse_elements n r end
      | 123 => match skip_ws r with String "}" r' => Some (JObj [], r') | _ => parse_members n [] r end
      | 110 => take_word "null" JNull s
      | 116 => take_word "true" (JBool true) s
      | 102 => take_word "false" (JBool false) s
      | _ => p ← take_number s; Some (JNum p.1, p.2)
      end%nat
    end
  end
with parse_elements (n : nat) (s : string) : option (jsval * string) :=
  match n with
  | O => None
  | S n =>
    x ← parse_value n s;
    match skip_ws x.2 with
    | String "," r => l ← parse_elements n r; match l.1 with JArr l' => Some (JArr (x.1 :: l'), l.2) | _ => None end
    | String "]" r => Some (JArr [x.1], r)
    | _ => None
    end
  end
with parse_members (n : nat) (acc : fields) (s : string) : option (jsval * string) :=
  match n with
  | O => None
  | S n =>
    match skip_ws s with
    | String c r =>
      if (nat_of_ascii c =? 34)%nat then
        k ← take_string r;
        match skip_ws k.2 with
        | String ":" r1 =>
          x ← parse_value n r1;
          match skip_ws x.2 with
          | String "," r2 => parse_members n (set_field k.1 x.1 acc) r2
          | String "}" r2 => Some (JObj (set_field k.1 x.1 acc), r2)
          | _ => None
          end
        | _ => None
        end
      else None
    | EmptyString => None
    end
  end.

(** [JSON.parse(s)]; None: it throws. *)
Definition json_parse (s : string) : option jsval :=
  p ← parse_value (S (2 * String.length s)) s;
  if String.eqb (skip_ws p.2) "" then Some p.1 else None.

Definition quoted_keys (s : string) : string := replace_char "'" (ascii_of_nat 34) s.
Example json_parse_ex :
  json_parse (quoted_keys " {'a': [1, -2.5e1, true,null], 'b' : {}, 'a\u0062': 'x\n\u00e9\ud83d\ude00'} ")
    = Some (JObj [("a", JArr [jint 1; jint (-25); JBool true; JNull]); ("b", JObj []);
                  ("ab", JStr ("x" ++ newline ++ byte 195 ++ byte 169 ++ byte 240 ++ byte 159 ++ byte 152 ++ byte 128)%string)]) /\
  map json_parse ["01"; "[1,]"; "{a:1}"; "1 2"; ""; "-"; "nul"; "[1"] = repeat None 8.
Proof. vm_compute. split; reflexivity. Qed.

(** ** The round trip *)

(** What [JSON.parse] gives back as it is: no undefined, integer numbers, distinct keys. *)
Fixpoint json_value (v : jsval) : Prop :=
  match v with
  | JUndef => False
  | JNum n => exists z, n = num_of_Z z
  | JArr l => foldr (fun x P => json_value x /\ P) True l
  | JObj f => NoDup (map fst f) /\ foldr (fun p P => json_value p.2 /\ P) True f
  | _ => True
  end.

Definition text (v : jsval) : string := default "" (stringify v).

Lemma json_value_text v : json_value v -> stringify v = Some (text v).
Proof. by destruct v. Qed.

Definition piece_of (c : ascii) : piece :=
  match nat_of_ascii c with
  | 8 | 9 | 10 | 12 | 13 => inl c
  | n => if (n <? 32)%nat then inr (Z.of_nat n) else inl c
  end%nat.

Lemma take_escaped c r : take_pieces (escape_char c ++ r) = (p ← take_pieces r; Some (piece_of c :: p.1, p.2)).
Proof. destruct c as [[] [] [] [] [] [] [] []]; reflexivity. Qed.

Lemma encode_piece c l : encode (piece_of c :: l) = String c (encode l).
Proof.
  destruct (piece_of c) as [d|u] eqn:E; cbn [encode].
  - enough (d = c) as -> by done. revert E. unfold piece_of. repeat case_match; congruence.
  - assert (H : high_surrogate u = false /\ utf8 u = String c "").
    { revert E. destruct c as [[] [] [] [] [] [] [] []]; intros E; try discriminate E; injection E as <-; split; reflexivity. }
    destruct H as [Hh Hu]. rewrite Hu, Hh. destruct l as [|[d|w] l]; reflexivity.
Qed.

Lemma take_quoted s rest : take_string (escape s ++ dquote ++ rest) = Some (s, rest).
Proof.
  unfold take_string.
  assert (H : take_pieces (escape s ++ dquote ++ rest) = Some (map piece_of (list_ascii_of_string s), rest)).
  { induction s as [|c s IH]; [reflexivity|]. cbn [escape list_ascii_of_string map].
    rewrite string_app_assoc, take_escaped, IH. reflexivity. }
  rewrite H. cbn [mbind option_bind fst snd]. do 2 f_equal. clear.
  induction s as [|c s IH]; [reflexivity|]. cbn [list_ascii_of_string map]. by rewrite encode_piece, IH.
Qed.

(** *** Integers *)

Fixpoint horner (acc : Z) (d : Decimal.uint) : Z :=
  match d with
  | Decimal.Nil => acc
  | Decimal.D0 d => horner (acc * 10) d
  | Decimal.D1 d => horner (acc * 10 + 1) d
  | Decimal.D2 d => horner (acc * 10 + 2) d
  | Decimal.D3 d => horner (acc * 10 + 3) d
  | Decimal.D4 d => horner (acc * 10 + 4) d
  | Decimal.D5 d => horner (acc * 10 + 5) d
  | Decimal.D6 d => horner (acc * 10 + 6) d
  | Decimal.D7 d => horner (acc * 10 + 7) d
  | Decimal.D8 d => horner (acc * 10 + 8) d
  | Decimal.D9 d => horner (acc * 10 + 9) d
  end%Z.

(** The text after a number: not a digit, a point or an exponent. *)
Definition ends_value (s : string) : Prop := s = "" \/ exists c r, s = String c r /\ c ∈ [","; "]"; "}"]%char.

Lemma take_digits_end acc n rest : ends_value rest -> take_digits acc n rest = (acc, n, rest).
Proof.
  intros [->|(c & r & -> & Hc)]; [done|]. cbn [take_digits].
  enough (is_digit c = false) as -> by done.
  repeat (apply elem_of_cons in Hc as [->|Hc]; [reflexivity|]). inversion Hc.
Qed.

Lemma take_digits_uint d : forall acc n rest, ends_value rest ->
  take_digits acc n (NilEmpty.string_of_uint d ++ rest) = (horner acc d, (n + Decimal.nb_digits d)%nat, rest).
Proof.
  induction d as [| | | | | | | | | |]; intros acc n rest Hr;
    cbn [NilEmpty.string_of_uint String.append take_digits horner Decimal.nb_digits].
  1: rewrite take_digits_end by done; f_equal; f_equal; lia.
  all: change (is_digit _) with true; cbv iota; rewrite IHd by done; apply (f_equal2 pair); [|done];
    apply (f_equal2 pair); [|lia].
  all: first [reflexivity|f_equal; change (Z.of_nat (nat_of_ascii "0") - 48)%Z with 0%Z; lia].
Qed.

Lemma horner_pos d : forall p, horner (Zpos p) d = Zpos (Pos.of_uint_acc d p).
Proof.
  induction d as [| | | | | | | | | |]; intros p; cbn [horner Pos.of_uint_acc]; [done|..];
    rewrite <- IHd; f_equal; lia.
Qed.

Lemma horner_uint d : horner 0 d = Z.of_N (Pos.of_uint d).
Proof. induction d as [| | | | | | | | | |]; cbn [horner Pos.of_uint Z.mul Z.add]; try apply horner_pos; done. Qed.

Lemma of_uint_to_uint p : Pos.of_uint (Pos.to_uint p) = Npos p.
Proof. apply DecimalPos.Unsigned.of_to. Qed.

(** The digits of a positive number do not begin with zero. *)
Lemma to_uint_head p : forall d, Pos.to_uint p <> Decimal.D0 d.
Proof.
  intros d E. assert (H := DecimalPos.Unsigned.to_of (Pos.to_uint p)). rewrite of_uint_to_uint in H. cbn [N.to_uint] in H.
  assert (Hn := of_uint_to_uint p). rewrite E in H, Hn. rewrite unorm_D0 in H.
  assert (Hd : Decimal.nb_digits (Decimal.D0 d) = S (Decimal.nb_digits d)) by done. rewrite H in Hd.
  assert (Hle := nb_digits_unorm d). destruct d; try discriminate Hn; try (specialize (Hle ltac:(discriminate)); lia).
Qed.

Lemma int_digits z : exists neg u, Z_to_string z = ((if neg : bool then "-" else "") ++ NilEmpty.string_of_uint u)%string /\
  z = (if neg then - horner 0 u else horner 0 u)%Z /\ u <> Decimal.Nil /\
  ((exists d, u = Decimal.D0 d) -> u = Decimal.D0 Decimal.Nil).
Proof.
  destruct z as [|p|p]; unfold Z_to_string, Z.to_int.
  - exists false, (Decimal.D0 Decimal.Nil). split_and!; done.
  - exists false, (Pos.to_uint p). split_and!.
    + cbn [NilZero.string_of_int String.append]. unfold NilZero.string_of_uint.
      destruct (Pos.to_uint p) eqn:E; try done. by apply DecimalPos.Unsigned.to_uint_nonnil in E.
    + by rewrite horner_uint, of_uint_to_uint.
    + apply DecimalPos.Unsigned.to_uint_nonnil.
    + intros [d Hd]. by apply to_uint_head in Hd.
  - exists true, (Pos.to_uint p). split_and!.
    + cbn [NilZero.string_of_int]. unfold NilZero.string_of_uint.
      destruct (Pos.to_uint p) eqn:E; try done. by apply DecimalPos.Unsigned.to_uint_nonnil in E.
    + by rewrite horner_uint, of_uint_to_uint.
    + apply DecimalPos.Unsigned.to_uint_nonnil.
    + intros [d Hd]. by apply to_uint_head in Hd.
Qed.

Lemma Qred_Z z : Qred (inject_Z z) = inject_Z z.
Proof.
  unfold inject_Z, Qred.
  assert (H := Z.ggcd_gcd z 1). assert (H2 := Z.ggcd_correct_divisors z 1). rewrite Z.gcd_1_r in H.
  destruct (Z.ggcd z 1) as [g [a b]]. cbn [fst snd] in *. subst g. destruct H2 as [H1 H2].
  rewrite Z.mul_1_l in H1, H2. by subst.
Qed.

Lemma Qred_int z : Qred (inject_Z z * pow10 0) = inject_Z z.
Proof. change (pow10 0) with (inject_Z 1). by rewrite <- inject_Z_mult, Z.mul_1_r, Qred_Z. Qed.

Lemma num_to_string_nonneg z : (0 <= z)%Z -> num_to_string (num_of_Z z) = Z_to_string z.
Proof.
  intros Hz. unfold num_to_string, num_of_Z.
  assert (H : Qle_bool 0 (inject_Z z) = true) by (apply Qle_bool_iff; change 0%Q with (inject_Z 0); by rewrite <- Zle_Qle).
  rewrite H, Qred_Z, Qfloor_Z.
  assert (Hf : Qred (inject_Z z - inject_Z z) = 0%Q) by (change 0%Q with (Qred 0); apply Qred_complete; ring).
  rewrite Hf. change (frac_digits 20 0) with EmptyString. cbn [String.eqb String.append]. apply string_app_nil.
Qed.

Lemma num_to_string_int z : num_to_string (num_of_Z z) = Z_to_string z.
Proof.
  destruct z as [|p|p]; [by apply num_to_string_nonneg|by apply num_to_string_nonneg|].
  transitivity ("-" ++ num_to_string (num_of_Z (Zpos p)))%string; [|by rewrite num_to_string_nonneg].
  reflexivity.
Qed.

Lemma take_number_int z rest : ends_value rest -> take_number (Z_to_string z ++ rest) = Some (num_of_Z z, rest).
Proof.
  intros Hr. destruct (int_digits z) as (neg & u & -> & Hz & Hn & H0). unfold take_number.
  set (t := NilEmpty.string_of_uint u).
  assert (E : match ((if neg then "-" else "") ++ t) ++ rest with String "-" r => (true, r) | _ => (false, ((if neg then "-" else "") ++ t) ++ rest) end%string
    = (neg, (t ++ rest)%string)).
  { destruct neg; [done|]. unfold t. destruct u; try done. }
  rewrite E. unfold t. rewrite take_digits_uint by done. cbn [Nat.add].
  assert (Hnb : (Decimal.nb_digits u =? 0)%nat = false) by (by destruct u).
  assert (Hz0 : starts_with "0" (NilEmpty.string_of_uint u ++ rest) && (1 <? Decimal.nb_digits u)%nat = false).
  { destruct u; try done. rewrite H0 by eauto. done. }
  rewrite Hnb, Hz0. cbn [orb].
  assert (Hq : Qred (inject_Z (horner 0 u) * pow10 (0 - Z.of_nat 0)) = inject_Z (horner 0 u)) by apply Qred_int.
  assert (Hv : Some (Fin (if neg then Qred (- inject_Z (horner 0 u)) else inject_Z (horner 0 u)), rest) = Some (num_of_Z z, rest)).
  { rewrite Hz. destruct neg; [|done]. by rewrite <- inject_Z_opp, Qred_Z. }
  rewrite <- Hv, <- Hq. destruct Hr as [->|(c & r & -> & Hc)]; [by destruct neg|].
  repeat (apply elem_of_cons in Hc as [->|Hc]; [by destruct neg|]). inversion Hc.
Qed.

(** *** Values *)

Lemma text_arr l : foldr (fun x P => json_value x /\ P) True l -> text (JArr l) = ("[" ++ join "," (map text l) ++ "]")%string.
Proof.
  intros H. change (text (JArr l)) with ("[" ++ join "," (map (fun x => default "null" (stringify x)) l) ++ "]")%string.
  do 3 f_equal. induction l as [|x l IH]; [done|]. destruct H as [Hx H]. cbn [map]. by rewrite IH, (json_value_text _ Hx).
Qed.

Definition member_text (p : string * jsval) : string := (quote p.1 ++ ":" ++ text p.2)%string.

Lemma text_obj f : foldr (fun p P => json_value p.2 /\ P) True f ->
  text (JObj f) = ("{" ++ join "," (map member_text f) ++ "}")%string.
Proof.
  intros H. change (text (JObj f))
    with ("{" ++ join "," (omap (fun p => t ← stringify p.2; Some (quote p.1 ++ ":" ++ t)%string) f) ++ "}")%string.
  do 3 f_equal. induction f as [|p f IH]; [done|]. destruct H as [Hx H].
  change (omap ?g (p :: f)) with (match g p with Some y => y :: omap g f | None => omap g f end).
  cbn [map]. rewrite (json_value_text _ Hx), IH by done. reflexivity.
Qed.

Lemma uint_head u : u <> Decimal.Nil -> exists c r, NilEmpty.string_of_uint u = String c r /\ is_digit c = true.
Proof. destruct u; [done|..]; intros _; do 2 eexists; split; reflexivity. Qed.

(** The first character of a printed value. *)
Lemma text_head v : json_value v -> exists c r, text v = String c r /\ is_ws c = false /\ c <> "]"%char.
Proof.
  destruct v as [| |b|m|s|l|f]; intros H.
  - done.
  - by exists "n"%char, "ull".
  - destruct b; [by exists "t"%char, "rue"|by exists "f"%char, "alse"].
  - destruct H as [z ->]. unfold text. cbn [stringify is_finite num_of_Z default].
    change (num_to_string (Fin (inject_Z z))) with (num_to_string (num_of_Z z)). rewrite num_to_string_int.
    destruct (int_digits z) as (neg & u & -> & _ & Hn & _). destruct neg; [eexists _, _; split_and!; [reflexivity|done|done]|].
    destruct (uint_head u Hn) as (c & r & -> & Hd). exists c, r. split_and!; [done|..].
    + destruct c as [[] [] [] [] [] [] [] []]; try discriminate Hd; reflexivity.
    + by intros ->.
  - eexists _, _. split_and!; [reflexivity|done|done].
  - rewrite text_arr by done. eexists _, _. split_and!; [reflexivity|done|done].
  - destruct H as [_ H]. rewrite text_obj by done. eexists _, _. split_and!; [reflexivity|done|done].
Qed.

Lemma skip_ws_text v s : json_value v -> skip_ws (text v ++ s) = (text v ++ s)%string.
Proof. intros H. destruct (text_head v H) as (c & r & -> & Hw & _). cbn [String.append skip_ws]. by rewrite Hw. Qed.

Definition parsed (v : jsval) : Prop :=
  forall n rest, (2 * String.length (text v) <= n)%nat -> ends_value rest -> parse_value n (text v ++ rest) = Some (v, rest).

Lemma ends_value_char c r : c ∈ [","; "]"; "}"]%char -> ends_value (String c r).
Proof. right. by exists c, r. Qed.

Lemma parse_elements_text x l : parsed x -> Forall parsed l -> forall n rest,
  (2 * String.length (join "," (map text (x :: l))) + 1 <= n)%nat ->
  parse_elements n (join "," (map text (x :: l)) ++ "]" ++ rest) = Some (JArr (x :: l), rest).
Proof.
  revert x. induction l as [|y l IH]; intros x Hx Hl n rest Hn; (destruct n as [|n]; [lia|]).
  - cbn [map join] in *. cbn [parse_elements]. rewrite Hx; [done|lia|]. apply ends_value_char. set_solver.
  - apply Forall_cons in Hl as [Hy Hl].
    assert (E : join "," (map text (x :: y :: l)) = (text x ++ "," ++ join "," (map text (y :: l)))%string) by done.
    rewrite E in *. rewrite !string_length_app in Hn. cbn [String.length] in Hn.
    cbn [parse_elements]. rewrite !string_app_assoc. rewrite Hx; [|lia|apply ends_value_char; set_solver].
    cbn [mbind option_bind fst snd String.append skip_ws is_ws nat_of_ascii]. change (is_ws ",") with false. cbv iota.
    change (String "]" rest) with ("]" ++ rest)%string. rewrite (IH y Hy Hl) by lia. done.
Qed.

Lemma set_field_fresh k v f : k ∉ map fst f -> set_field k v f = f ++ [(k, v)].
Proof.
  induction f as [|[k' v'] f IH]; [done|]. intros H. cbn [map fst] in H. cbn [set_field].
  rewrite (proj2 (String.eqb_neq k k')) by set_solver. rewrite IH by set_solver. done.
Qed.

Lemma quote_string k r : quote k = (dquote ++ escape k ++ dquote)%string /\
  take_string (escape k ++ dquote ++ r) = Some (k, r).
Proof. split; [done|apply take_quoted]. Qed.

(** One member: its name, the colon and its value. *)
Lemma parse_member k x n acc r : parsed x -> (2 * String.length (text x) <= n)%nat -> ends_value r ->
  parse_members (S n) acc (member_text (k, x) ++ r) =
  match skip_ws r with
  | String "," r2 => parse_members n (set_field k x acc) r2
  | String "}" r2 => Some (JObj (set_field k x acc), r2)
  | _ => None
  end.
Proof.
  intros Hx Hn Hr. unfold member_text, quote. cbn [fst snd]. rewrite !string_app_assoc.
  change (dquote ++ ?s)%string with (String (ascii_of_nat 34) s) at 1. cbn [parse_members].
  change (skip_ws (String (ascii_of_nat 34) ?s)) with (String (ascii_of_nat 34) s). cbv iota.
  change (nat_of_ascii (ascii_of_nat 34) =? 34)%nat with true. cbv iota.
  rewrite take_quoted. cbn [mbind option_bind fst snd].
  change (skip_ws (":" ++ ?s)) with (String ":" s). cbv iota.
  rewrite Hx by done. reflexivity.
Qed.

Lemma parse_members_text k x f : parsed x -> Forall (fun p => parsed p.2) f -> forall acc n rest,
  NoDup (map fst (acc ++ (k, x) :: f)) ->
  (2 * String.length (join "," (map member_text ((k, x) :: f))) + 1 <= n)%nat ->
  parse_members n acc (join "," (map member_text ((k, x) :: f)) ++ "}" ++ rest) = Some (JObj (acc ++ (k, x) :: f), rest).
Proof.
  assert (Hlen : forall k x, (String.length (text x) <= String.length (member_text (k, x)))%nat).
  { intros. unfold member_text. cbn [fst snd]. rewrite !string_length_app. lia. }
  revert k x. induction f as [|[k2 x2] f IH]; intros k x Hx Hf acc n rest Hd Hn; (destruct n as [|n]; [lia|]).
  all: assert (Hl := Hlen k x).
  all: assert (Hk : k ∉ map fst acc) by (rewrite map_app in Hd; apply NoDup_app in Hd as (_ & Hd & _);
         intros Hin; apply (Hd k Hin); cbn; set_solver).
  - cbn [map join] in *. rewrite parse_member by (done || lia || (apply ends_value_char; set_solver)).
    change (skip_ws ("}" ++ rest)) with (String "}" rest). cbv iota. by rewrite set_field_fresh.
  - apply Forall_cons in Hf as [Hx2 Hf]. cbn [snd] in Hx2.
    assert (E : join "," (map member_text ((k, x) :: (k2, x2) :: f))
      = (member_text (k, x) ++ "," ++ join "," (map member_text ((k2, x2) :: f)))%string) by done.
    rewrite E in *. rewrite !string_length_app in Hn. cbn [String.length] in Hn. rewrite !string_app_assoc.
    rewrite parse_member by (done || lia || (apply ends_value_char; set_solver)).
    change (skip_ws ("," ++ ?s)) with (String "," s). cbv iota. rewrite set_field_fresh by done.
    rewrite IH; [by rewrite <- (assoc_L app)|done|done|by rewrite <- (assoc_L app)|lia].
Qed.

Lemma parse_value_number n c r : is_digit c || Ascii.eqb c "-" = true ->
  parse_value (S n) (String c r) = (p ← take_number (String c r); Some (JNum p.1, p.2)).
Proof. destruct c as [[] [] [] [] [] [] [] []]; intros H; try discriminate H; reflexivity. Qed.

Lemma Z_to_string_head z : exists c r, Z_to_string z = String c r /\ is_digit c || Ascii.eqb c "-" = true.
Proof.
  destruct (int_digits z) as (neg & u & -> & _ & Hn & _). destruct neg; [by eexists _, _|].
  destruct (uint_head u Hn) as (c & r & -> & Hd). exists c, r. by rewrite Hd.
Qed.

Lemma parse_text v : json_value v -> parsed v.
Proof.
  induction v as [| |b|m|s|l IH|f IH] using jsval_nested_ind; intros H n rest Hn Hr;
    (destruct n as [|n]; [destruct (text_head _ H) as (c & r & E & _); rewrite E in Hn; cbn in Hn; lia|]).
  - done.
  - reflexivity.
  - by destruct b.
  - destruct H as [z ->]. change (text (JNum (num_of_Z z))) with (num_to_string (num_of_Z z)) in *. rewrite num_to_string_int in *.
    assert (E := take_number_int z rest Hr). destruct (Z_to_string_head z) as (c & r & Es & Hc). rewrite Es in *.
    cbn [String.append] in *. rewrite parse_value_number by done. by rewrite E.
  - change (text (JStr s)) with (dquote ++ escape s ++ dquote)%string. rewrite !string_app_assoc.
    change (parse_value (S n) (dquote ++ ?t)) with (p ← take_string t; Some (JStr p.1, p.2)). by rewrite take_quoted.
  - rewrite text_arr in * by done. rewrite !string_length_app in Hn. cbn [String.length] in Hn. rewrite !string_app_assoc.
    destruct l as [|x l]; [reflexivity|]. destruct H as [Hx H].
    assert (Hp : Forall parsed (x :: l)).
    { apply Forall_cons in IH as [IHx IH]. apply Forall_cons. split; [by apply IHx|]. clear -IH H.
      induction l as [|y l IHl]; [constructor|]. apply Forall_cons in IH as [? IH]. destruct H. constructor; auto. }
    apply Forall_cons in Hp as [Hpx Hp]. assert (E := parse_elements_text x l Hpx Hp n rest ltac:(lia)).
    destruct (text_head x Hx) as (c & r & Et & Hw & Hb).
    assert (Ej : exists t, (join "," (map text (x :: l)) ++ "]" ++ rest)%string = String c t).
    { destruct l as [|y l]; cbn [map join]; rewrite Et; by eexists. }
    destruct Ej as [t Ej]. rewrite Ej in *. change (parse_value (S n) ("[" ++ String c t))
      with (match skip_ws (String c t) with String "]" r' => Some (JArr [], r') | _ => parse_elements n (String c t) end).
    cbn [skip_ws]. rewrite Hw. rewrite E. clear -Hb. destruct c as [[] [] [] [] [] [] [] []]; try reflexivity. by destruct Hb.
  - destruct H as [Hd H]. rewrite text_obj in * by done. rewrite !string_length_app in Hn. cbn [String.length] in Hn. rewrite !string_app_assoc.
    destruct f as [|[k x] f]; [reflexivity|]. destruct H as [Hx H]. cbn [snd] in *.
    assert (Hp : Forall (fun p => parsed p.2) ((k, x) :: f)).
    { apply Forall_cons in IH as [IHx IH]. apply Forall_cons. split; [by apply IHx|]. clear -IH H.
      induction f as [|y l IHl]; [constructor|]. apply Forall_cons in IH as [? IH]. destruct H. constructor; auto. }
    apply Forall_cons in Hp as [Hpx Hp]. assert (E := parse_members_text k x f Hpx Hp [] n rest Hd ltac:(lia)).
    transitivity (Some (JObj ([] ++ (k, x) :: f), rest)); [|done]. rewrite <- E. destruct f; reflexivity.
Qed.

(** Parsing the printed text of a value gives the value. *)
Lemma json_roundtrip v : json_value v -> json_parse (text v) = Some v.
Proof.
  intros H. unfold json_parse. rewrite <- (string_app_nil (text v)).
  rewrite (parse_text v H) by (rewrite ?string_length_app; cbn [String.length]; lia || by left). reflexivity.
Qed.

Lemma json_roundtrip_stringify v s : json_value v -> stringify v = Some s -> json_parse s = Some v.
Proof. intros H E. rewrite (json_value_text v H) in E. injection E as <-. by apply json_roundtrip. Qed.
