(* ===== verification/Images.v ===== *)
(** * Images in messages (src/src/lib/protocol/images.mjs)

    OpenAI image parts become Claude image blocks; remote pictures are fetched and inlined.
    [None] is a thrown TypeError ([startsWith] on a url that is not a string). *)

From S2P Require Import Prelude.
From S2P Require Import JsValue.
From S2P Require Import JsText.
#[local] Open Scope string_scope.
#[local] Open Scope list_scope.
#[local] Open Scope js_scope.

(** The match of [/^data:([^;]+);base64,(.+)$/s]: the media type holds no semicolon. *)
Definition data_url (url : string) : option (string * string) :=
  if negb (starts_with "data:" url) then None
  else
    let rest := drop_chars 5 url in
    let media := before_char ";" rest in
    let tail := drop_chars (String.length media) rest in
    if nonempty media && starts_with ";base64," tail && nonempty (drop_chars 8 tail)
    then Some (media, drop_chars 8 tail) else None.

Definition image (source : fields) : jsval := JObj [("type", JStr "image"); ("source", JObj source)].

(** [JNull]: no image. *)
Definition openaiImagePartToClaude (part : jsval) : option jsval :=
  if negb (is_str (part?."type") "image_url") then Some JNull
  else
    let url := if is_string (part?."image_url") then part?."image_url" else (part?."image_url")?."url" in
    if negb (truthy url) then Some JNull
    else
      match url with
      | JStr u =>
        if starts_with "data:" u then
          match data_url u with
          | None => Some JNull
          | Some (media, data) => Some (image [("type", JStr "base64"); ("media_type", JStr media); ("data", JStr data)])
          end
        else Some (image [("type", JStr "url"); ("url", url)])
      | _ => None
      end.

Definition text_block_of (s : string) : jsval := JObj [("type", JStr "text"); ("text", JStr s)].

(** [control ? { ...block, cache_control: control } : block] *)
Definition with_control (block control : jsval) : jsval :=
  if truthy control then with_field block "cache_control" control else block.

(** The blocks pushed for one part. *)
Definition part_blocks (p : jsval) : option (list jsval) :=
  match p with
  | JStr s => Some (if nonempty s then [text_block_of s] else [])
  | _ =>
    let t := p?."type" in
    if is_str t "text" || is_str t "input_text"
    then Some [with_control (JObj [("type", JStr "text"); ("text", p?."text" ||| JStr "")]) (p?."cache_control")]
    else if is_str t "image_url" then
      img ← openaiImagePartToClaude p;
      Some (if truthy img then [with_control img (p?."cache_control")] else [])
    else Some []
  end.

Definition openaiContentToClaudeContent (content : jsval) : option (list jsval) :=
  match content with
  | JStr s => Some (if nonempty s then [text_block_of s] else [])
  | JArr l => bs ← mapM part_blocks l; Some (concat bs)
  | _ => let text := to_string (content ?? JStr "") in Some (if nonempty text then [text_block_of text] else [])
  end.

(** The contents of a [tool_result] are converted too; the values are those of the code, which
    returns the very same array when nothing changed. *)
Fixpoint normalizeImageContentBlocks (content : jsval) : option jsval :=
  match content with
  | JArr l =>
    l' ← mapM (fun block =>
      match block with
      | JObj f =>
        if is_str (assoc "type" f) "tool_result" && is_array (assoc "content" f) then
          f' ← mapM (fun p => if String.eqb p.1 "content" then c ← normalizeImageContentBlocks p.2; Some (p.1, c) else Some p) f;
          Some (JObj f')
        else if negb (is_str (assoc "type" f) "image_url") then Some block
        else
          img ← openaiImagePartToClaude block;
          Some (if truthy img then with_control img (assoc "cache_control" f) else block)
      | _ => Some block
      end) l;
    Some (JArr l')
  | _ => Some content
  end.

(** ** Remote images *)

Definition IMAGE_FETCH_MAX : Z := (8 * 1024 * 1024)%Z.

Definition mediaTypeFrom (contentType : jsval) (url : string) : string :=
  let raw := to_lower (trim (before_char ";" (str_or_empty contentType))) in
  if starts_with "image/" raw then raw
  else
    let ext := to_lower (List.last (split_char "." (before_char "?" url)) "") in
    if String.eqb ext "jpg" || String.eqb ext "jpeg" then "image/jpeg"
    else if String.eqb ext "gif" then "image/gif"
    else if String.eqb ext "webp" then "image/webp"
    else "image/png".

(** [Buffer.toString('base64')] *)
Definition base64_char (n : Z) : string :=
  String (ascii_of_nat (Z.to_nat (if n <? 26 then 65 + n else if n <? 52 then 71 + n else if n <? 62 then n - 4
                                  else if n =? 62 then 43 else 47)%Z)) "".
Definition code (c : ascii) : Z := Z.of_nat (nat_of_ascii c).
Fixpoint base64 (l : list ascii) : string :=
  match l with
  | a :: b :: c :: r =>
    let z := (code a * 65536 + code b * 256 + code c)%Z in
    (base64_char (z / 262144) ++ base64_char (z / 4096 mod 64) ++ base64_char (z / 64 mod 64) ++ base64_char (z mod 64) ++ base64 r)
  | [a; b] =>
    let z := (code a * 256 + code b)%Z in
    (base64_char (z / 1024) ++ base64_char (z / 16 mod 64) ++ base64_char (z * 4 mod 64) ++ "=")
  | [a] => (base64_char (code a / 4) ++ base64_char (code a * 16 mod 64) ++ "==")
  | [] => ""
  end%string%Z.

Record response := { r_ok : bool; r_content_type : jsval; r_body : string }.

Section Fetch.
(** What the network answers; None: the fetch rejects, or is aborted by its timer. *)
Variable fetchImpl : string -> option response.

Definition fetchImageAsBase64 (url : string) : option jsval :=
  res ← fetchImpl url;
  let n := Z.of_nat (String.length (r_body res)) in
  if negb (r_ok res) then None
  else if (n =? 0)%Z || (IMAGE_FETCH_MAX <? n)%Z then None
  else Some (JObj [("type", JStr "base64"); ("media_type", JStr (mediaTypeFrom (r_content_type res) url));
                   ("data", JStr (base64 (list_ascii_of_string (r_body res))))]).

(** The url of a block that names a remote picture. *)
Definition remote_url (block : jsval) : string :=
  if is_str (block?."type") "image" && is_str ((block?."source")?."type") "url" then str_or_empty ((block?."source")?."url")
  else if is_str (block?."type") "image_url" then
    match block?."image_url" with JStr s => s | v => str_or_empty (v?."url") end
  else "".
Definition is_http (url : string) : bool := starts_with "http://" (to_lower url) || starts_with "https://" (to_lower url).

(** The block, and whether it is a new object. *)
Definition materialize_leaf (block : jsval) : jsval * bool :=
  let url := remote_url block in
  if negb (is_http url) then (block, false)
  else match fetchImageAsBase64 url with
       | None => (block, false)
       | Some source =>
         (with_control (JObj [("type", JStr "image"); ("source", source)]) (block?."cache_control"), true)
       end.
Fixpoint materializeBlock (block : jsval) : jsval * bool :=
  match block with
  | JObj f =>
    if is_str (assoc "type" f) "tool_result" && is_array (assoc "content" f)
    then (JObj (map (fun p => (p.1, match p.2 with
                                    | JArr l => if String.eqb p.1 "content" then JArr (map (fun c => fst (materializeBlock c)) l) else p.2
                                    | _ => p.2
                                    end)) f), true)
    else materialize_leaf block
  | _ => (block, false)
  end.

Definition materialize_message (msg : jsval) : jsval * bool :=
  match msg?."content" with
  | JArr l =>
    let next := map materializeBlock l in
    (with_field msg "content" (JArr (map fst next)), existsb snd next)
  | _ => (msg, false)
  end.

Definition materializeRemoteImageSources (body : jsval) : jsval :=
  match body?."messages" with
  | JArr l =>
    let next := map materialize_message l in
    if existsb snd next then with_field body "messages" (JArr (map fst next)) else body
  | _ => body
  end.
End Fetch.

Example image_ex :
  openaiImagePartToClaude (JObj [("type", JStr "image_url"); ("image_url", JObj [("url", JStr "data:image/gif;base64,QUJD")])])
  = Some (image [("type", JStr "base64"); ("media_type", JStr "image/gif"); ("data", JStr "QUJD")]).
Proof. reflexivity. Qed.
Example base64_ex : map (fun s => base64 (list_ascii_of_string s)) ["ABC"; "AB"; "A"; "Man?"] = ["QUJD"; "QUI="; "QQ=="; "TWFuPw=="].
Proof. vm_compute. reflexivity. Qed.
