(* ===== verification/Convert.v ===== *)
(** * Requests converted to Claude Messages
    (src/src/lib/protocol/convert.mjs, codex-tools.mjs)

    The request half of the protocol conversion: OpenAI chat, completions and Responses
    bodies become Messages bodies.  [None] is a thrown TypeError (a property read of null or
    undefined, a loop over a value that is not iterable).  A tool named after a member of
    [Object.prototype], which the lookup in [CODEX_TOOL_MAP] also finds, is not modelled. *)

From S2P Require Import Prelude.
From S2P Require Import JsValue.
From S2P Require Import JsText.
From S2P Require Import JsJson.
From S2P Require Import JsonParse.
From S2P Require Import ModelPolicy.
From S2P Require Import WebSearch.
From S2P Require Import Sanitize.
From S2P Require Import Thinking.
From S2P Require Import Images.
#[local] Open Scope string_scope.
#[local] Open Scope list_scope.
#[local] Open Scope js_scope.

(** [for (const x of v || [])] *)
Definition iter_or_empty (v : jsval) : option (list jsval) :=
  if negb (truthy v) then Some []
  else match v with
       | JArr l => Some l
       | JStr s => Some (map (fun c => JStr (String c "")) (list_ascii_of_string s))
       | _ => None
       end.
(** A property read: null and undefined throw. *)
Definition read (v : jsval) (k : string) : option jsval := if is_nullish v then None else Some (v?.k).

(** [if (c) o[k] = v] *)
Definition set_if (c : bool) (k : string) (v o : jsval) : jsval := if c then with_field o k v else o.
Definition set_opt (k : string) (v : option jsval) (o : jsval) : jsval := match v with Some x => with_field o k x | None => o end.

(** ** Tools *)

Definition CODEX_TOOL_MAP : list (string * string) :=
  [("apply_patch", "Bash"); ("applyPatch", "Bash"); ("execute_bash", "Bash"); ("executeBash", "Bash"); ("exec_bash", "Bash");
   ("execBash", "Bash"); ("read_file", "Read"); ("readFile", "Read"); ("write_file", "Write"); ("writeFile", "Write");
   ("search_files", "Grep"); ("searchFiles", "Grep"); ("list_files", "Glob"); ("listFiles", "Glob"); ("update_plan", "TodoWrite");
   ("updatePlan", "TodoWrite"); ("read_plan", "TodoRead"); ("readPlan", "TodoRead"); ("fetch", "WebFetch");
   ("web_fetch", "WebFetch"); ("webFetch", "WebFetch")].

Definition remapToolName (name : jsval) : jsval :=
  if negb (truthy name) then name
  else match List.find (fun p => String.eqb (to_string name) p.1) CODEX_TOOL_MAP with Some p => JStr p.2 | None => name end.

Definition remap_tool (t : jsval) : jsval :=
  if negb (is_object t) then t
  else if truthy (t?."name") then with_own t "name" (remapToolName (t?."name"))
  else if truthy ((t?."function")?."name")
  then with_own t "function" (with_own (t?."function") "name" (remapToolName ((t?."function")?."name")))
  else t.
Definition remapCodexTools (tools : jsval) : jsval := match tools with JArr l => JArr (map remap_tool l) | _ => tools end.

Definition withCacheControl (node source : jsval) : jsval :=
  let control := source?."cache_control" in
  if negb (truthy control) || negb (is_object node) then node else with_own node "cache_control" control.

Definition empty_schema : jsval := JObj [("type", JStr "object"); ("properties", JObj [])].
Definition claude_tool (name description schema : jsval) : jsval :=
  JObj [("name", name); ("description", description ||| JStr ""); ("input_schema", schema)].

(** One turn of the loop; [seen]: a search tool was emitted. *)
Definition convert_tool (seen : bool) (t : jsval) : list jsval * bool :=
  if negb (truthy t) then ([], seen)
  else if isWebSearchTool t then (if seen then [] else [CLAUDE_WEB_SEARCH_TOOL], true)
  else
    let fn := t?."function" in
    let is_fn := is_str (t?."type") "function" in
    if negb (is_fn || truthy fn || truthy (t?."name")) then ([], seen)
    else if is_fn && truthy fn then
      (if negb (truthy (fn?."name")) then []
       else [withCacheControl (claude_tool (fn?."name") (fn?."description") (fn?."parameters" ||| empty_schema))
               (if truthy (fn?."cache_control") then fn else t)], seen)
    else if truthy (t?."name") && truthy (t?."input_schema") then ([t], seen)
    else
      let name := t?."name" ||| fn?."name" in
      (if negb (truthy name) then []
       else [withCacheControl (claude_tool name (t?."description") (t?."input_schema" ||| t?."parameters" ||| empty_schema)) t], seen).
Definition convert_tools (l : list jsval) : list jsval :=
  fst (foldl (fun st t => let '(o, seen) := convert_tool (snd st) t in (fst st ++ o, seen)) ([], false) l).

(** None is undefined. *)
Definition openaiToolsToClaude (tools : jsval) : option jsval :=
  match remapCodexTools tools with
  | JArr l => match convert_tools l with [] => None | out => Some (JArr out) end
  | _ => None
  end.

Definition openaiToolChoiceToClaude (toolChoice : jsval) : option jsval :=
  if is_str toolChoice "auto" then Some (JObj [("type", JStr "auto")])
  else if is_str toolChoice "none" then Some (JObj [("type", JStr "none")])
  else if is_str toolChoice "required" then Some (JObj [("type", JStr "any")])
  else if is_object toolChoice && is_str (toolChoice?."type") "function"
  then Some (JObj [("type", JStr "tool"); ("name", (toolChoice?."function")?."name" ||| toolChoice?."name")])
  else None.

(** ** Messages *)

Definition DEFAULT_MODEL : string := "claude-haiku-4-5-20251001".
Definition mapModel (m : jsval) : string :=
  let s := trim (str_or_empty m) in if String.eqb s "" then DEFAULT_MODEL else s.

(** A text part; [filter(Boolean)] drops what is falsy. *)
Definition text_part (p : jsval) : jsval :=
  match p with
  | JStr _ => p
  | _ =>
    let t := p?."type" in
    if is_str t "text" || is_str t "input_text" || is_str t "output_text" then p?."text" ||| JStr "" else JStr ""
  end.
Definition contentToText (content : jsval) : jsval :=
  match content with
  | JStr _ => content
  | JArr l => JStr (join newline (map to_string (List.filter truthy (map text_part l))))
  | _ => content?."text" ||| JStr ""
  end.

Definition text_block (text : jsval) : jsval := JObj [("type", JStr "text"); ("text", text)].

(** A turn under construction: its role and its blocks. *)
Record turn := { t_role : string; t_blocks : list jsval }.
Definition turn_message (t : turn) : jsval := JObj [("role", JStr (t_role t)); ("content", JArr (t_blocks t))].
Definition blank_user : jsval := JObj [("role", JStr "user"); ("content", JStr "")].

(** Append the blocks to the last turn (the head of the list) when it has this role. *)
Definition append_blocks (role : string) (bs : list jsval) (out : list turn) : list turn :=
  match out with
  | last :: r =>
    if String.eqb (t_role last) role then {| t_role := role; t_blocks := t_blocks last ++ bs |} :: r
    else {| t_role := role; t_blocks := bs |} :: out
  | [] => [{| t_role := role; t_blocks := bs |}]
  end.

(** [messages] in order, with a user turn in front. *)
Definition render_turns (out : list turn) : list jsval :=
  match rev out with
  | [] => []
  | first :: _ => (if String.eqb (t_role first) "user" then [] else [blank_user]) ++ map turn_message (rev out)
  end.

(** The arguments of a tool call; text that is not JSON is wrapped. *)
Definition tool_input (tc : jsval) : jsval :=
  match (tc?."function")?."arguments" with
  | JStr s =>
    match json_parse (if String.eqb s "" then "{}" else s) with Some v => v | None => JObj [("raw", JStr s)] end
  | args => args ||| JObj []
  end.

(** [if (body.stream) out.stream = true] after the settings every protocol shares; then the shape. *)
Definition finish_body (body out : jsval) : jsval :=
  let out := set_opt "thinking" (openaiReasoningToClaudeThinking body) out in
  let out := applyStructuredOutput out body in
  canonicalizeClaudeMessagesShape (set_if (truthy (body?."stream")) "stream" (JBool true) out).

Definition set_system (parts : list jsval) (out : jsval) : jsval :=
  match parts with [] => out | _ => with_field out "system" (JArr (map text_block parts)) end.

Section Requests.
Context (policy : jsval) (random_id : nat -> string).

(** State of the loop over messages: the system texts, the turns (last first), the random ids drawn. *)
Definition loop_state : Type := list jsval * list turn * nat.

Definition tool_use (st : list jsval * nat) (tc : jsval) : option (list jsval * nat) :=
  let '(content, n) := st in
  _ ← read tc "function";
  let given := truthy (tc?."id") in
  Some (content ++ [JObj [("type", JStr "tool_use"); ("id", if given then tc?."id" else JStr ("toolu_" ++ random_id n)%string);
                          ("name", (tc?."function")?."name" ||| tc?."name"); ("input", tool_input tc)]],
        if given then n else S n).
(** [for (const tc of m.tool_calls)] *)
Fixpoint tool_uses (st : list jsval * nat) (l : list jsval) : option (list jsval * nat) :=
  match l with [] => Some st | tc :: r => st' ← tool_use st tc; tool_uses st' r end.

Definition convert_message (st : loop_state) (m : jsval) : option loop_state :=
  let '(parts, out, n) := st in
  role ← read m "role";
  if is_str role "system" || is_str role "developer" then
    let text := contentToText (m?."content") in
    Some (if truthy text then parts ++ [text] else parts, out, n)
  else if is_str role "tool" then
    let block := withCacheControl
      (JObj [("type", JStr "tool_result"); ("tool_use_id", m?."tool_call_id" ||| m?."id" ||| JStr "tool_unknown");
             ("content", contentToText (m?."content"))]) m in
    Some (parts, append_blocks "user" [block] out, n)
  else if is_str role "assistant" then
    let text := contentToText (m?."content") in
    let content := if truthy text then [text_block text] else [] in
    c ← tool_uses (content, n) (arr_of (m?."tool_calls"));
    let blocks := match fst c with [] => [text_block (JStr "")] | bs => bs end in
    Some (parts, {| t_role := "assistant"; t_blocks := blocks |} :: out, snd c)
  else
    content ← openaiContentToClaudeContent (m?."content");
    Some (parts, append_blocks "user" content out, n).
Fixpoint convert_messages (st : loop_state) (l : list jsval) : option loop_state :=
  match l with [] => Some st | m :: r => st' ← convert_message st m; convert_messages st' r end.

(** The system texts and the turns. *)
Definition openaiMessagesToClaude (messages : jsval) : option (list jsval * list jsval) :=
  l ← iter_or_empty messages;
  st ← convert_messages ([], [], 0%nat) l;
  Some (st.1.1, render_turns st.1.2).

Definition openaiToClaude (body : jsval) : option jsval :=
  messages ← read body "messages";
  c ← openaiMessagesToClaude messages;
  let out := JObj [("model", JStr (mapModel (body?."model")));
                   ("max_tokens", body?."max_tokens" ||| body?."max_completion_tokens" ||| JNum (defaultMaxTokensForModel policy (body?."model")));
                   ("messages", JArr (snd c))] in
  let out := set_system (fst c) out in
  let out := set_if (negb (is_nullish (body?."temperature"))) "temperature" (body?."temperature") out in
  let out := set_if (negb (is_nullish (body?."top_p"))) "top_p" (body?."top_p") out in
  let out := set_if (negb (is_nullish (body?."stop"))) "stop_sequences"
               (if is_array (body?."stop") then body?."stop" else JArr [body?."stop"]) out in
  let out := set_if (match body?."stop_sequences" with JArr (_ :: _) => true | _ => false end) "stop_sequences"
               (body?."stop_sequences") out in
  let out := set_opt "tools" (openaiToolsToClaude (body?."tools")) out in
  let out := set_opt "tool_choice" (openaiToolChoiceToClaude (body?."tool_choice")) out in
  Some (finish_body body out).

Definition prompt_text (prompt : jsval) : string :=
  match prompt with
  | JArr l => join newline (map (fun p => to_string (p ?? JStr "")) l)
  | _ => to_string (prompt ?? JStr "")
  end.
Definition completionsToClaude (body : jsval) : option jsval :=
  prompt ← read body "prompt";
  let user := (prompt_text prompt ++ (if truthy (body?."suffix") then to_string (body?."suffix") else ""))%string in
  let content := if String.eqb user "" then "Hello" else user in
  openaiToClaude (with_own body "messages" (JArr [JObj [("role", JStr "user"); ("content", JStr content)]])).

(** State: the system texts and the turns (last first). *)
Definition response_item (st : list jsval * list turn) (item : jsval) : option (list jsval * list turn) :=
  let '(parts, out) := st in
  match item with
  | JStr s => Some (parts, {| t_role := "user"; t_blocks := [text_block item] |} :: out)
  | _ =>
    r ← read item "role";
    let role := if is_str r "assistant" then "assistant" else if is_str r "system" then "system" else "user" in
    let text := contentToText (item?."content" ?? item?."text" ?? item) in
    if String.eqb role "system" then Some (if truthy text then parts ++ [text] else parts, out)
    else Some (parts, append_blocks role [withCacheControl (text_block text) item] out)
  end.
Fixpoint response_items (st : list jsval * list turn) (l : list jsval) : option (list jsval * list turn) :=
  match l with [] => Some st | item :: r => st' ← response_item st item; response_items st' r end.

Definition responsesToClaude (body : jsval) : option jsval :=
  instructions ← read body "instructions";
  let parts := if truthy instructions then [JStr (to_string instructions)] else [] in
  st ← match body?."input" with
       | JStr s => Some (parts, [{| t_role := "user"; t_blocks := [text_block (JStr s)] |}])
       | JArr l => response_items (parts, []) l
       | _ => Some (parts, [])
       end;
  let messages := match render_turns (snd st) with [] => [blank_user] | ms => ms end in
  let out := JObj [("model", JStr (mapModel (body?."model")));
                   ("max_tokens", body?."max_output_tokens" ||| body?."max_tokens" ||| jint 1024);
                   ("messages", JArr messages)] in
  Some (finish_body body (set_opt "tools" (openaiToolsToClaude (body?."tools")) (set_system (fst st) out))).

(** ** The entry points *)

Definition isClaudeMessagesShape (body : jsval) : bool :=
  is_object body && is_array (body?."messages") && is_number (body?."max_tokens") &&
  negb (has_own body "input") && negb (has_own body "choices").

Definition withUpstreamStream (claude : jsval) : jsval := if is_object claude then with_field claude "stream" (JBool true) else claude.

Definition isClientStream (body headers : jsval) : bool :=
  let stream := body?."stream" in
  if is_bool stream false || is_num stream 0 || is_str stream "false" then false
  else if is_bool stream true || is_num stream 1 || is_str stream "true" then true
  else includes (to_lower (str_or_empty (headers?."accept" ||| headers?."Accept"))) "text/event-stream".

(** [inboundHasOpenAIToolShape] of identity/crs-persona.mjs. *)
Definition inboundHasOpenAIToolShape (body : jsval) : bool :=
  existsb (fun tool => truthy tool && (is_str (tool?."type") "function" || (truthy (tool?."function") && negb (truthy (tool?."name")))))
    (arr_of (body?."tools"))
  || (is_object (body?."tool_choice") && String.eqb (to_lower (str_or_empty ((body?."tool_choice")?."type"))) "function").

Definition normalizeOpenAIToolsOnMessages (body : jsval) : jsval :=
  if negb (is_object body) || negb (inboundHasOpenAIToolShape body) then body
  else
    let out := set_opt "tools" (openaiToolsToClaude (body?."tools")) (own body) in
    set_opt "tool_choice" (openaiToolChoiceToClaude (body?."tool_choice")) out.

Record options := { rewrite : bool; strict_passthrough : bool }.

(** The converted body and the mode. *)
Definition toClaudeMessages (protocol : string) (body : jsval) (opts : options) : option (jsval * string) :=
  let mode := if rewrite opts then "rewrite" else "convert" in
  if String.eqb protocol "anthropic.messages" then
    if negb (rewrite opts) then
      if negb (is_object body) then None
      else
        out ← sanitizeAnthropicBody policy (normalizeOpenAIToolsOnMessages body) (strict_passthrough opts);
        let out := fill_max_tokens (defaultMaxTokensForModel policy (out?."model")) out in
        Some (withUpstreamStream out, if inboundHasOpenAIToolShape body then "convert" else "passthrough")
    else
      if is_nullish body then None
      else
        let out := with_own body "model" (JStr (mapModel (body?."model"))) in
        Some (withUpstreamStream (with_field out "max_tokens" (body?."max_tokens" ||| jint 1024)), "rewrite")
  else if String.eqb protocol "openai.chat" then c ← openaiToClaude body; Some (withUpstreamStream c, mode)
  else if String.eqb protocol "openai.completions" then c ← completionsToClaude body; Some (withUpstreamStream c, mode)
  else if String.eqb protocol "openai.responses" then c ← responsesToClaude body; Some (withUpstreamStream c, mode)
  else None.
End Requests.

(** ** What every conversion guarantees *)

(** A turn the provider accepts: one of the two roles, and a list of blocks. *)
Definition claude_turn (m : jsval) : Prop :=
  exists r bs, m = JObj [("role", JStr r); ("content", JArr bs)] /\ r ∈ ["user"; "assistant"].
Definition claude_turns (ms : list jsval) : Prop :=
  Forall claude_turn ms /\ (ms = [] \/ exists m r, ms = m :: r /\ m?."role" = JStr "user").

(** The same before the contents are made lists. *)
Definition raw_turn (m : jsval) : Prop := m = blank_user \/ claude_turn m.
Definition raw_turns (ms : list jsval) : Prop :=
  Forall raw_turn ms /\ (ms = [] \/ exists m r, ms = m :: r /\ m?."role" = JStr "user").

Definition two_roles (out : list turn) : Prop := Forall (fun t => t_role t ∈ ["user"; "assistant"]) out.

Lemma append_two_roles role bs out : role ∈ ["user"; "assistant"] -> two_roles out -> two_roles (append_blocks role bs out).
Proof.
  intros Hr Ho. unfold append_blocks. destruct out as [|last r]; [by constructor|].
  destruct (String.eqb (t_role last) role); [|by constructor]. apply Forall_cons in Ho as [_ Ho]. by constructor.
Qed.

Lemma render_raw out : two_roles out -> raw_turns (render_turns out).
Proof.
  intros Ho. unfold render_turns. assert (Hr : two_roles (rev out)) by (by apply List.Forall_rev).
  destruct (rev out) as [|first l]; [split; [constructor|by left]|].
  assert (Hm : Forall raw_turn (map turn_message (first :: l))).
  { apply Forall_forall. intros m Hm. apply list_elem_of_fmap in Hm as (t & -> & Ht). right. exists (t_role t), (t_blocks t).
    split; [done|]. by apply (proj1 (Forall_forall _ _) Hr). }
  destruct (String.eqb_spec (t_role first) "user") as [E|E].
  - split; [done|]. right. eexists _, _. split; [reflexivity|]. cbn. by rewrite E.
  - split; [constructor; [by left|done]|]. right. by eexists _, _.
Qed.

Definition canonical_message (m : jsval) : jsval :=
  if is_object m then with_own m "content" (promoteContentToBlocks (m?."content")) else m.

Lemma raw_canonical ms : raw_turns ms -> claude_turns (map canonical_message ms).
Proof.
  intros [Hf Hh]. split.
  - clear Hh. induction Hf as [|m ms Hm _ IH]; [constructor|]. constructor; [|done].
    destruct Hm as [->|(r & bs & -> & Hr)]; [by exists "user", []; split; [|set_solver]|].
    by exists r, (map promote_block bs).
  - destruct Hh as [->|(m & r & -> & Hm)]; [by left|]. right. exists (canonical_message m), (map canonical_message r). split; [done|].
    apply Forall_cons in Hf as [[->|(r' & bs & -> & Hr)] _]; done.
Qed.

(** Fields other than the messages and the model. *)
Lemma set_opt_other k v o x : x <> k -> (set_opt k v o)?.x = o?.x.
Proof. intros H. destruct v; [by apply get_with_field_ne|done]. Qed.
Lemma set_if_other c k v o x : x <> k -> (set_if c k v o)?.x = o?.x.
Proof. intros H. destruct c; [by apply get_with_field_ne|done]. Qed.
Lemma set_system_other parts o x : x <> "system" -> (set_system parts o)?.x = o?.x.
Proof. intros H. destruct parts; [done|by apply get_with_field_ne]. Qed.
Lemma structured_other out source x : x <> "output_config" -> (applyStructuredOutput out source)?.x = out?.x.
Proof. intros H. unfold applyStructuredOutput. repeat case_match; rewrite ?get_with_field_ne; done. Qed.
Lemma structured_obj out source : is_obj out = true -> is_obj (applyStructuredOutput out source) = true.
Proof. intros H. unfold applyStructuredOutput. by repeat case_match. Qed.
Lemma set_opt_obj k v o : is_obj o = true -> is_obj (set_opt k v o) = true.
Proof. by destruct v. Qed.
Lemma set_if_obj c k v o : is_obj o = true -> is_obj (set_if c k v o) = true.
Proof. by destruct c. Qed.
Lemma set_system_obj parts o : is_obj o = true -> is_obj (set_system parts o) = true.
Proof. by destruct parts. Qed.

Lemma own_obj v : is_obj v = true -> own v = v.
Proof. by destruct v. Qed.

Lemma canonicalize_messages out ms : is_obj out = true -> out?."messages" = JArr ms ->
  (canonicalizeClaudeMessagesShape out)?."messages" = JArr (map canonical_message ms) /\
  (canonicalizeClaudeMessagesShape out)?."model" = out?."model" /\ is_obj (canonicalizeClaudeMessagesShape out) = true.
Proof.
  intros Ho Hm. unfold canonicalizeClaudeMessagesShape. replace (negb (is_object out)) with false by (by destruct out). cbv zeta iota.
  rewrite own_obj by done.
  set (o := if is_nullish _ then out else _).
  assert (H : o?."messages" = JArr ms /\ o?."model" = out?."model").
  { unfold o. destruct (is_nullish _); [done|]. rewrite !get_with_field_ne by done. done. }
  destruct H as [H1 H2]. unfold map_messages. rewrite H1, get_with_field_eq, get_with_field_ne by done. done.
Qed.

Lemma finish_messages body out ms : is_obj out = true -> out?."messages" = JArr ms ->
  (finish_body body out)?."messages" = JArr (map canonical_message ms) /\
  (finish_body body out)?."model" = out?."model" /\ is_obj (finish_body body out) = true.
Proof.
  intros Ho Hm. unfold finish_body. cbv zeta. set (o := set_if _ _ _ _).
  assert (H : is_obj o = true /\ o?."messages" = JArr ms /\ o?."model" = out?."model").
  { unfold o. split; [by apply set_if_obj, structured_obj, set_opt_obj|].
    rewrite !set_if_other, !structured_other, !set_opt_other by done. done. }
  destruct H as (H1 & H2 & <-). by apply canonicalize_messages.
Qed.

Lemma mapModel_nonempty m : mapModel m <> "".
Proof. unfold mapModel. by destruct (String.eqb_spec (trim (str_or_empty m)) ""). Qed.

(** A converted body: the model, the turns, and that it streams. *)
Definition converted (c : jsval) : Prop :=
  c?."stream" = JBool true /\ (exists s, c?."model" = JStr s /\ s <> "") /\ (exists ms, c?."messages" = JArr ms /\ claude_turns ms).

Lemma finish_converted body out ms m : is_obj out = true -> out?."messages" = JArr ms -> raw_turns ms ->
  out?."model" = JStr (mapModel m) -> converted (withUpstreamStream (finish_body body out)).
Proof.
  intros Ho Hm Hr Hmodel. destruct (finish_messages body out ms Ho Hm) as (H1 & H2 & H3).
  unfold withUpstreamStream. replace (is_object (finish_body body out)) with true by (by destruct (finish_body body out)).
  split_and!.
  - apply get_with_field_eq.
  - exists (mapModel m). rewrite get_with_field_ne, H2 by done. split; [done|apply mapModel_nonempty].
  - exists (map canonical_message ms). rewrite get_with_field_ne, H1 by done. split; [done|by apply raw_canonical].
Qed.

Section Facts.
Context (policy : jsval) (random_id : nat -> string).

Lemma convert_message_roles st m st' : convert_message random_id st m = Some st' -> two_roles st.1.2 -> two_roles st'.1.2.
Proof.
  destruct st as [[parts out] n]. unfold convert_message. cbn [fst snd]. intros H Ho.
  apply bind_Some in H as (role & _ & H).
  destruct (_ || _); [by injection H as <-|]. destruct (is_str role "tool"); [injection H as <-; apply append_two_roles; [set_solver|done]|].
  destruct (is_str role "assistant").
  - apply bind_Some in H as (c & _ & H). injection H as <-. cbn [fst snd]. constructor; [set_solver|done].
  - apply bind_Some in H as (c & _ & H). injection H as <-. apply append_two_roles; [set_solver|done].
Qed.

Lemma convert_messages_roles l : forall st st', convert_messages random_id st l = Some st' -> two_roles st.1.2 -> two_roles st'.1.2.
Proof.
  induction l as [|m l IH]; intros st st' H Ho; [by injection H as <-|]. cbn [convert_messages] in H.
  apply bind_Some in H as (st1 & H1 & H). apply (IH st1); [done|]. by apply (convert_message_roles st m).
Qed.

Lemma response_items_roles l : forall st st', response_items st l = Some st' -> two_roles st.2 -> two_roles st'.2.
Proof.
  induction l as [|m l IH]; intros st st' H Ho; [by injection H as <-|]. cbn [response_items] in H.
  apply bind_Some in H as (st1 & H1 & H). apply (IH st1); [done|]. clear IH H. destruct st as [parts out]. unfold response_item in H1.
  assert (Hstep : forall role bs, String.eqb role "system" = false -> role = "assistant" \/ role = "system" \/ role = "user" -> two_roles (append_blocks role bs out)).
  { intros role bs Hs Hr. apply append_two_roles; [|done]. destruct Hr as [->|[->| ->]]; [set_solver|done|set_solver]. }
  destruct m; try (apply bind_Some in H1 as (r & _ & H1); cbv zeta in H1;
    match goal with _ : context [String.eqb ?role "system"] |- _ =>
      assert (Hr : role = "assistant" \/ role = "system" \/ role = "user") by (repeat case_match; auto);
      destruct (String.eqb role "system") eqn:Es; injection H1 as <-; [done|by apply Hstep] end).
  injection H1 as <-. constructor; [set_solver|done].
Qed.

Lemma openaiToClaude_converted body c : openaiToClaude policy random_id body = Some c -> converted (withUpstreamStream c).
Proof.
  unfold openaiToClaude, openaiMessagesToClaude. intros H. apply bind_Some in H as (messages & _ & H).
  apply bind_Some in H as (p & Hp & H). apply bind_Some in Hp as (l & _ & Hp). apply bind_Some in Hp as (st & Hst & Hp).
  injection Hp as <-. injection H as <-. cbn [fst snd]. assert (Hr := convert_messages_roles l _ _ Hst (List.Forall_nil _)).
  eapply (finish_converted body _ (render_turns st.1.2) (body?."model")).
  - by repeat (apply set_opt_obj || apply set_if_obj || apply set_system_obj).
  - rewrite !set_opt_other, !set_if_other, set_system_other by done. reflexivity.
  - by apply render_raw.
  - rewrite !set_opt_other, !set_if_other, set_system_other by done. reflexivity.
Qed.

Lemma responsesToClaude_converted body c : responsesToClaude body = Some c -> converted (withUpstreamStream c).
Proof.
  unfold responsesToClaude. intros H. apply bind_Some in H as (instructions & _ & H). apply bind_Some in H as (st & Hst & H).
  injection H as <-. assert (Hr : two_roles st.2).
  { destruct (body?."input"); try (injection Hst as <-; repeat constructor).
    apply (response_items_roles _ _ _ Hst). constructor. }
  eapply (finish_converted body _ (match render_turns st.2 with [] => [blank_user] | ms => ms end) (body?."model")).
  - by repeat (apply set_opt_obj || apply set_system_obj).
  - rewrite set_opt_other, set_system_other by done. reflexivity.
  - destruct (render_raw _ Hr) as [Hf Hh]. destruct (render_turns st.2) as [|m r]; [|done].
    split; [constructor; [by left|constructor]|]. right. by eexists _, _.
  - rewrite set_opt_other, set_system_other by done. reflexivity.
Qed.

(** C29: Whatever a chat, completions or Responses client sends, the body that the conversion
    hands on streams, names a model, and holds turns of the roles user and assistant only,
    each a list of blocks, with the user's turn in front. *)
Theorem converted_request protocol body opts c mode :
  protocol ∈ ["openai.chat"; "openai.completions"; "openai.responses"] ->
  toClaudeMessages policy random_id protocol body opts = Some (c, mode) -> converted c.
Proof.
  intros Hp H. unfold toClaudeMessages in H.
  repeat (apply elem_of_cons in Hp as [->|Hp]; [cbn [String.eqb Ascii.eqb Bool.eqb] in H; apply bind_Some in H as (x & Hx & H);
    injection H as <- _; first [by apply (openaiToClaude_converted body)|by apply (responsesToClaude_converted body)|idtac]|]).
  - unfold completionsToClaude in Hx. apply bind_Some in Hx as (prompt & _ & Hx). by eapply openaiToClaude_converted.
  - by apply elem_of_nil in Hp.
Qed.
End Facts.

Definition sample_chat : jsval :=
  JObj [("model", JStr "claude-sonnet-5");
        ("messages", JArr [JObj [("role", JStr "system"); ("content", JStr "be kind")];
                           JObj [("role", JStr "assistant"); ("content", JNull);
                                 ("tool_calls", JArr [JObj [("id", JStr "c1"); ("function", JObj [("name", JStr "f"); ("arguments", JStr "{}")])]])];
                           JObj [("role", JStr "tool"); ("tool_call_id", JStr "c1"); ("content", JStr "42")];
                           JObj [("role", JStr "user"); ("content", JStr "go on")]])].
Definition sample_options : options := {| rewrite := false; strict_passthrough := false |}.
Lemma converted_request_witness :
  match toClaudeMessages (JObj []) (fun _ => "r") "openai.chat" sample_chat sample_options with
  | Some (c, mode) => mode = "convert" /\ converted c
  | None => False
  end.
Proof.
  destruct (toClaudeMessages (JObj []) (fun _ => "r") "openai.chat" sample_chat sample_options) as [[c mode]|] eqn:E; [|vm_compute in E; discriminate E].
  split; [|apply (converted_request (JObj []) (fun _ => "r") "openai.chat" sample_chat sample_options c mode); [set_solver|exact E]].
  assert (Hm : option_map snd (toClaudeMessages (JObj []) (fun _ => "r") "openai.chat" sample_chat sample_options) = Some "convert") by (vm_compute; reflexivity).
  rewrite E in Hm. by injection Hm.
Defined.

(** ** Tool calls and their results *)

(** Field [k] of the blocks of type [t]. *)
Definition typed (t k : string) (bs : list jsval) : list jsval := map (fun b => b?.k) (List.filter (fun b => is_str (b?."type") t) bs).
Definition ids_in (t k : string) (ms : list jsval) : list jsval := flat_map (fun m => typed t k (arr_of (m?."content"))) ms.

(** The ids that the client names: of its tool messages and of the calls of its assistant turns. *)
Definition result_ids (m : jsval) : list jsval :=
  if is_str (m?."role") "tool" then [m?."tool_call_id" ||| m?."id" ||| JStr "tool_unknown"] else [].
Definition call_ids (m : jsval) : list jsval :=
  if is_str (m?."role") "assistant" then map (fun tc => tc?."id") (arr_of (m?."tool_calls")) else [].

Definition turn_ids (t k : string) (out : list turn) : list jsval := flat_map (fun x => typed t k (t_blocks x)) (rev out).

Lemma typed_app t k a b : typed t k (a ++ b) = typed t k a ++ typed t k b.
Proof. unfold typed. by rewrite List.filter_app, map_app. Qed.

Lemma turn_ids_cons t k x out : turn_ids t k (x :: out) = turn_ids t k out ++ typed t k (t_blocks x).
Proof. unfold turn_ids. cbn [rev]. rewrite flat_map_app. cbn [flat_map]. by rewrite app_nil_r. Qed.

Lemma turn_ids_append t k role bs out : turn_ids t k (append_blocks role bs out) = turn_ids t k out ++ typed t k bs.
Proof.
  unfold append_blocks. destruct out as [|last r]; [apply turn_ids_cons|]. destruct (String.eqb (t_role last) role); [|apply turn_ids_cons].
  rewrite !turn_ids_cons. cbn [t_blocks]. by rewrite typed_app, (assoc_L app).
Qed.

Lemma turn_ids_render t k out : ids_in t k (render_turns out) = turn_ids t k out.
Proof.
  unfold render_turns, turn_ids, ids_in. destruct (rev out) as [|first l]; [done|].
  assert (H : forall r, flat_map (fun m => typed t k (arr_of (m?."content"))) (map turn_message r) = flat_map (fun x => typed t k (t_blocks x)) r).
  { intros r. induction r as [|x r IH]; [done|]. cbn [map flat_map]. by rewrite IH. }
  rewrite flat_map_app, H. by destruct (String.eqb (t_role first) "user").
Qed.

(** Blocks that are neither calls nor results. *)
Definition plain (b : jsval) : Prop := exists x, b?."type" = JStr x /\ x ∈ ["text"; "image"].

Lemma typed_plain t k bs : t ∈ ["tool_use"; "tool_result"] -> Forall plain bs -> typed t k bs = [].
Proof.
  intros Ht Hb. unfold typed. induction Hb as [|b bs (x & Hx & Hin) _ IH]; [done|]. cbn [List.filter]. rewrite Hx. cbn [is_str].
  replace (String.eqb x t) with false; [done|]. symmetry. apply String.eqb_neq. intros ->. set_solver.
Qed.

Lemma with_control_type b c : (with_control b c)?."type" = b?."type".
Proof. unfold with_control. destruct (truthy c); [by apply get_with_field_ne|done]. Qed.

Lemma image_part_plain p img : openaiImagePartToClaude p = Some img -> truthy img = true -> plain img.
Proof.
  unfold openaiImagePartToClaude. intros E Ht. repeat case_match; try discriminate E; apply (inj Some) in E as <-; try discriminate Ht;
    exists "image"; split; (done || set_solver).
Qed.

Lemma part_plain p bs : part_blocks p = Some bs -> Forall plain bs.
Proof.
  assert (Htext : forall b, b?."type" = JStr "text" -> plain b) by (intros b Hb; exists "text"; split; [done|set_solver]).
  unfold part_blocks. destruct p as [| | | |s| |f]; try (intros H; apply (inj Some) in H as <-; try destruct (nonempty s); repeat constructor; by apply Htext).
  destruct (_ || _).
  { intros H. apply (inj Some) in H as <-. constructor; [|constructor]. apply Htext. by rewrite with_control_type. }
  destruct (is_str _ "image_url"); [|intros H; apply (inj Some) in H as <-; constructor].
  intros H. apply bind_Some in H as (img & Hi & H). apply (inj Some) in H as <-. destruct (truthy img) eqn:Et; [|constructor].
  constructor; [|constructor]. destruct (image_part_plain _ _ Hi Et) as (x & Hx & Hin). exists x. by rewrite with_control_type.
Qed.

Lemma content_plain content bs : openaiContentToClaudeContent content = Some bs -> Forall plain bs.
Proof.
  assert (Htext : forall s, plain (text_block_of s)) by (intros s; exists "text"; split; [done|set_solver]).
  unfold openaiContentToClaudeContent. destruct content as [| | | |s|l|f];
    try (intros H; apply (inj Some) in H as <-; destruct (nonempty _); repeat constructor; apply Htext).
  intros H. apply bind_Some in H as (bss & Hm & H). apply (inj Some) in H as <-. revert bss Hm.
  induction l as [|p l IH]; intros bss Hm; [injection Hm as <-; constructor|].
  apply mapM_Some_1, Forall2_cons_inv_l in Hm as (b & bss' & Hb & Hm & ->). cbn [concat]. apply Forall_app. split; [by apply (part_plain p)|].
  apply IH. by apply mapM_Some_2.
Qed.

Section Traffic.
Context (random_id : nat -> string).

Lemma tool_uses_typed l : forall content n c, tool_uses random_id (content, n) l = Some c -> Forall (fun tc => truthy (tc?."id") = true) l ->
  typed "tool_use" "id" c.1 = typed "tool_use" "id" content ++ map (fun tc => tc?."id") l /\
  typed "tool_result" "tool_use_id" c.1 = typed "tool_result" "tool_use_id" content.
Proof.
  induction l as [|tc l IH]; intros content n c H Hl; [injection H as <-; by rewrite app_nil_r|].
  apply Forall_cons in Hl as [Ht Hl]. cbn [tool_uses] in H. apply bind_Some in H as ([content' n'] & Hs & H).
  unfold tool_use in Hs. apply bind_Some in Hs as (fn & _ & Hs). rewrite Ht in Hs. injection Hs as <- _.
  destruct (IH _ _ _ H Hl) as [-> ->]. rewrite !typed_app. cbn [map]. rewrite <- (assoc_L app).
  split; [reflexivity|]. by rewrite app_nil_r.
Qed.

Lemma convert_message_ids st m st' : convert_message random_id st m = Some st' ->
  Forall (fun tc => truthy (tc?."id") = true) (arr_of (m?."tool_calls")) ->
  turn_ids "tool_use" "id" st'.1.2 = turn_ids "tool_use" "id" st.1.2 ++ call_ids m /\
  turn_ids "tool_result" "tool_use_id" st'.1.2 = turn_ids "tool_result" "tool_use_id" st.1.2 ++ result_ids m.
Proof.
  destruct st as [[parts out] n]. unfold convert_message, call_ids, result_ids. cbn [fst snd]. intros H Hl.
  apply bind_Some in H as (role & Hrole & H). unfold read in Hrole. destruct (is_nullish m); [done|]. apply (inj Some) in Hrole.
  rewrite Hrole. clear Hrole.
  assert (Hex : forall a b, a <> b -> is_str role a = true -> is_str role b = false).
  { intros a b Hab. destruct role; cbn [is_str]; try done. intros Ha. apply String.eqb_eq in Ha as ->. by apply String.eqb_neq. }
  destruct (is_str role "system" || is_str role "developer") eqn:Es.
  { assert (Hn : is_str role "assistant" = false /\ is_str role "tool" = false).
    { apply orb_true_iff in Es as [Es|Es]; split; (eapply Hex; [|exact Es]; done). }
    destruct Hn as [-> ->]. injection H as <-. cbn [fst snd]. by rewrite !app_nil_r. }
  destruct (is_str role "tool") eqn:Et.
  { rewrite (Hex "tool" "assistant" ltac:(discriminate) Et). injection H as <-. cbn [fst snd]. rewrite !turn_ids_append, app_nil_r.
    clear Es. unfold withCacheControl. set (b := JObj _). cbv zeta. destruct (_ || _); [split; [exact (app_nil_r _)|reflexivity]|].
    assert (Hb : (with_own b "cache_control" (m?."cache_control"))?."type" = JStr "tool_result" /\
      (with_own b "cache_control" (m?."cache_control"))?."tool_use_id" = b?."tool_use_id") by (rewrite !get_with_own_ne by done; done).
    destruct Hb as [Hb1 Hb2]. unfold typed. cbn [List.filter]. rewrite Hb1. cbn [is_str String.eqb Ascii.eqb Bool.eqb map].
    rewrite Hb2. cbn [String.eqb Ascii.eqb Bool.eqb]. split; [apply app_nil_r|reflexivity]. }
  destruct (is_str role "assistant").
  - apply bind_Some in H as (c & Hc & H). apply (inj Some) in H as <-. cbn [fst snd]. rewrite !turn_ids_cons. cbn [t_blocks].
    destruct (tool_uses_typed _ _ _ _ Hc Hl) as [H1 H2].
    assert (Hb : typed "tool_use" "id" (match c.1 with [] => [text_block (JStr "")] | bs => bs end) = typed "tool_use" "id" c.1 /\
      typed "tool_result" "tool_use_id" (match c.1 with [] => [text_block (JStr "")] | bs => bs end) = typed "tool_result" "tool_use_id" c.1)
      by (by destruct c.1).
    destruct Hb as [-> ->]. rewrite H1, H2. destruct (truthy _); split; reflexivity.
  - apply bind_Some in H as (bs & Hbs & H). apply (inj Some) in H as <-. cbn [fst snd]. rewrite !turn_ids_append.
    apply content_plain in Hbs. rewrite !typed_plain by (done || set_solver). done.
Qed.

(** Tool traffic survives the conversion of a conversation: the results carry exactly the ids
    of the client's tool messages, and the calls exactly the ids of the calls of its assistant
    turns, in the order sent. *)
Theorem tool_traffic_preserved l parts ms :
  openaiMessagesToClaude random_id (JArr l) = Some (parts, ms) ->
  Forall (fun m => Forall (fun tc => truthy (tc?."id") = true) (arr_of (m?."tool_calls"))) l ->
  ids_in "tool_result" "tool_use_id" ms = flat_map result_ids l /\ ids_in "tool_use" "id" ms = flat_map call_ids l.
Proof.
  unfold openaiMessagesToClaude. cbn [iter_or_empty truthy negb mbind option_bind]. intros H Hl.
  apply bind_Some in H as (st & Hst & H). injection H as _ <-. rewrite !turn_ids_render.
  enough (G : forall st0, convert_messages random_id st0 l = Some st ->
    turn_ids "tool_result" "tool_use_id" st.1.2 = turn_ids "tool_result" "tool_use_id" st0.1.2 ++ flat_map result_ids l /\
    turn_ids "tool_use" "id" st.1.2 = turn_ids "tool_use" "id" st0.1.2 ++ flat_map call_ids l) by exact (G _ Hst).
  clear Hst. induction l as [|m l IH]; intros st0 H; [injection H as <-; by rewrite !app_nil_r|].
  apply Forall_cons in Hl as [Hm Hl]. cbn [convert_messages] in H. apply bind_Some in H as (st1 & H1 & H).
  destruct (IH Hl st1 H) as [-> ->]. destruct (convert_message_ids _ _ _ H1 Hm) as [-> ->]. cbn [flat_map].
  by rewrite !(assoc_L app).
Qed.
End Traffic.

Lemma tool_traffic_preserved_witness :
  exists ms, openaiMessagesToClaude (fun _ => "r") (sample_chat?."messages") = Some ([JStr "be kind"], ms) /\
    ids_in "tool_result" "tool_use_id" ms = [JStr "c1"] /\ ids_in "tool_use" "id" ms = [JStr "c1"].
Proof.
  eexists. split; [vm_compute; reflexivity|].
  eapply (tool_traffic_preserved (fun _ => "r") (arr_of (sample_chat?."messages")) [JStr "be kind"]); [vm_compute; reflexivity|].
  repeat constructor.
Defined.
