(* ===== verification/Respond.v ===== *)
(** * Responses converted from Claude Messages (src/src/lib/protocol/convert.mjs)

    The response half of the protocol conversion, for clients that do not stream: a Messages
    response becomes an OpenAI chat completion, a Responses object or a legacy completion.
    [None] is a thrown TypeError.  The clock is [now] (milliseconds) and the random parts of
    ids are parameters. *)

From S2P Require Import Prelude.
From S2P Require Import JsValue.
From S2P Require Import JsText.
From S2P Require Import JsJson.
From S2P Require Import JsonParse.
From S2P Require Import Thinking.
From S2P Require Import Convert.
#[local] Open Scope string_scope.
#[local] Open Scope list_scope.
#[local] Open Scope js_scope.

Definition claudeStopReasonToOpenAIFinish (stopReason : jsval) : string :=
  let sr := str_or_empty stopReason in
  if String.eqb sr "tool_use" then "tool_calls"
  else if String.eqb sr "max_tokens" then "length"
  else if String.eqb sr "refusal" then "content_filter"
  else "stop".

(** The text of a refusal block. *)
Definition refusal_part (b : jsval) : jsval :=
  if is_str (b?."type") "refusal" then b?."refusal" ||| b?."text" ||| JStr "" else JStr "".
(** The outer None: the loop throws; an empty text is null. *)
Definition claudeRefusalText (claude : jsval) : option jsval :=
  l ← iter_or_empty (claude?."content");
  Some (JStr (join newline (map to_string (List.filter truthy (map refusal_part l)))) ||| JNull).

Definition claudeHasVisibleOutput (claude : jsval) : option bool :=
  l ← iter_or_empty (claude?."content");
  Some (existsb (fun b => (is_str (b?."type") "text" && nonempty (trim (str_or_empty (b?."text")))) || is_str (b?."type") "tool_use") l).

Definition isClaudeRefusalStop (claude : jsval) : bool := String.eqb (str_or_empty (claude?."stop_reason")) "refusal".

Definition applyOpenAIRefusalFields (message claude : jsval) : option jsval :=
  refusal ← claudeRefusalText claude;
  let message := set_if (truthy refusal) "refusal" refusal message in
  if isClaudeRefusalStop claude && negb (nonempty (trim (str_or_empty (message?."content")))) && negb (truthy (message?."tool_calls"))
  then
    let message := with_field message "content" (refusal ||| JStr "[content_filter]") in
    Some (set_if (negb (truthy (message?."refusal"))) "refusal" (message?."content") message)
  else Some message.

(** ** Token counts *)

Definition cacheReadTokens (usage : jsval) : num := num_or_zero (usage?."cache_read_input_tokens" ?? usage?."cache_read_tokens").
Definition cacheCreationTokens (usage : jsval) : num :=
  num_or_zero (usage?."cache_creation_input_tokens" ?? usage?."cache_creation_tokens").

Definition promptTokensDetails (usage : jsval) : option jsval :=
  let cached := cacheReadTokens usage in
  let created := cacheCreationTokens usage in
  if negb (truthy (JNum cached)) && negb (truthy (JNum created)) then None
  else
    let details := set_if (truthy (JNum cached)) "cached_tokens" (JNum cached) (JObj []) in
    Some (set_if (truthy (JNum created)) "cache_creation_tokens" (JNum created) details).

(** [Number(usage?.k || 0)] *)
Definition count (usage : jsval) (k : string) : num := to_number (usage?.k ||| jint 0).
Definition input_total (usage : jsval) : num :=
  num_add (num_add (count usage "input_tokens") (cacheReadTokens usage)) (cacheCreationTokens usage).

Definition chatUsage (usage : jsval) : jsval :=
  let prompt := input_total usage in
  let completion := count usage "output_tokens" in
  set_opt "prompt_tokens_details" (promptTokensDetails usage)
    (JObj [("prompt_tokens", JNum prompt); ("completion_tokens", JNum completion); ("total_tokens", JNum (num_add prompt completion))]).

Definition responsesUsage (usage : jsval) : jsval :=
  let input := input_total usage in
  let output := count usage "output_tokens" in
  set_opt "input_tokens_details" (promptTokensDetails usage)
    (JObj [("input_tokens", JNum input); ("output_tokens", JNum output); ("total_tokens", JNum (num_add input output))]).

(** ** Chat completions *)

Definition chat_tool_call (b : jsval) : jsval :=
  JObj [("id", b?."id"); ("type", JStr "function");
        ("function", JObj [("name", b?."name"); ("arguments", JStr (text (b?."input" ||| JObj [])))])].

(** [textParts] and [toolCalls] of the blocks. *)
Definition text_parts (l : list jsval) : list jsval :=
  map (fun b => b?."text" ||| JStr "") (List.filter (fun b => is_str (b?."type") "text") l).
Definition tool_calls (l : list jsval) : list jsval :=
  map chat_tool_call (List.filter (fun b => is_str (b?."type") "tool_use") l).
(** [b.type] of every block is read. *)
Definition readable (l : list jsval) : bool := forallb (fun b => negb (is_nullish b)) l.
(** [parts.join('')] *)
Definition join_parts (l : list jsval) : string := join "" (map to_string l).

Definition seconds (now : Z) : jsval := jint (now / 1000).

Definition chat_message (claude : jsval) (l : list jsval) : option jsval :=
  let calls := tool_calls l in
  let message := JObj [("role", JStr "assistant"); ("content", JStr (join_parts (text_parts l)) ||| JNull)] in
  let message := match claudeThinkingToOpenAIReasoning claude with
                 | Some r => with_field message "reasoning_content" (JStr r) | None => message end in
  let message := match calls with
                 | [] => message
                 | _ =>
                   let message := with_field message "tool_calls" (JArr calls) in
                   match text_parts l with [] => with_field message "content" JNull | _ => message end
                 end in
  applyOpenAIRefusalFields message claude.

Definition fromClaudeToOpenAIChat (now : Z) (claude requestedModel : jsval) : option jsval :=
  content ← read claude "content";
  l ← iter_or_empty content;
  if negb (readable l) then None
  else
    message ← chat_message claude l;
    Some (JObj [("id", JStr ("chatcmpl-" ++ to_string (claude?."id" ||| JStr "kin"))%string);
                ("object", JStr "chat.completion"); ("created", seconds now); ("model", requestedModel ||| claude?."model");
                ("choices", JArr [JObj [("index", jint 0); ("message", message);
                                        ("finish_reason", JStr (claudeStopReasonToOpenAIFinish (claude?."stop_reason")))]]);
                ("usage", chatUsage (claude?."usage"))]).

(** ** Responses *)

(** [claude.content || []], on which array methods are called. *)
Definition content_array (claude : jsval) : option (list jsval) :=
  if is_nullish claude then None
  else if negb (truthy (claude?."content")) then Some []
  else match claude?."content" with JArr l => Some l | _ => None end.

Definition output_text (text : jsval) : jsval := JArr [JObj [("type", JStr "output_text"); ("text", text)]].
Definition function_call (b : jsval) : jsval :=
  JObj [("type", JStr "function_call"); ("id", b?."id"); ("name", b?."name"); ("arguments", JStr (text (b?."input" ||| JObj [])))].
Definition filter_reason (refused : bool) : jsval := if refused then JObj [("reason", JStr "content_filter")] else JUndef.

(** [msg_id] and [resp_id] are the two random ids drawn. *)
Definition fromClaudeToResponses (now : Z) (msg_id resp_id : string) (claude requestedModel : jsval) : option jsval :=
  l ← content_array claude;
  if negb (readable l) then None
  else
    refusal ← claudeRefusalText claude;
    let text := join_parts (text_parts l) in
    let refused := isClaudeRefusalStop claude in
    let shown := if refused && negb (nonempty text) && truthy refusal then refusal else JStr text in
    let calls := map function_call (List.filter (fun b => is_str (b?."type") "tool_use") l) in
    let message := JObj [("type", JStr "message"); ("id", JStr ("msg_" ++ msg_id)%string); ("role", JStr "assistant");
                         ("content", output_text shown)] in
    Some (JObj [("id", JStr ("resp_" ++ resp_id)%string); ("object", JStr "response"); ("created_at", seconds now);
                ("status", JStr (if refused then "incomplete" else "completed")); ("incomplete_details", filter_reason refused);
                ("model", requestedModel ||| claude?."model"); ("output", JArr (message :: calls));
                ("output_text", JStr text ||| (if refused then refusal ||| JStr "" else JStr text));
                ("usage", responsesUsage (claude?."usage"))]).

(** ** Legacy completions *)

Definition fromClaudeToOpenAICompletions (now : Z) (claude requestedModel : jsval) : option jsval :=
  l ← content_array claude;
  if negb (readable l) then None
  else
    refusal ← claudeRefusalText claude;
    let text := join_parts (text_parts l) in
    let text := if isClaudeRefusalStop claude && negb (nonempty (trim text)) then refusal ||| JStr "[content_filter]" else JStr text in
    Some (JObj [("id", JStr ("cmpl-" ++ to_string (claude?."id" ||| JStr "kin"))%string);
                ("object", JStr "text_completion"); ("created", seconds now); ("model", requestedModel ||| claude?."model");
                ("choices", JArr [JObj [("text", text); ("index", jint 0);
                                        ("finish_reason", JStr (claudeStopReasonToOpenAIFinish (claude?."stop_reason"))); ("logprobs", JNull)]]);
                ("usage", chatUsage (claude?."usage"))]).

Example chat_ex :
  (r ← fromClaudeToOpenAIChat 5000 (JObj [("id", JStr "x"); ("content", JArr [text_block (JStr "a"); text_block (JStr "b")]);
      ("stop_reason", JStr "max_tokens"); ("usage", JObj [("input_tokens", jint 3); ("cache_read_input_tokens", jint 4)])]) (JStr "m");
   Some (r?."choices", (r?."usage")?."prompt_tokens"))
  = Some (JArr [JObj [("index", jint 0); ("message", JObj [("role", JStr "assistant"); ("content", JStr "ab")]);
                      ("finish_reason", JStr "length")]], jint 7).
Proof. vm_compute. reflexivity. Qed.
