(* ===== verification/Streams.v ===== *)
(** * Streamed responses (src/src/lib/protocol/convert.mjs)

    The server-sent events of the Messages API, one line at a time: reassembly of their JSON,
    the fold into one message for clients that do not stream, and the translation into OpenAI
    chat chunks, legacy completion chunks and Responses events.  A state that the code mutates
    is taken and returned; the clock [now] and the random parts of ids are parameters.  A
    negative index of a content block, which names a property of the array and not an element,
    is ignored. *)

From S2P Require Import Prelude.
From S2P Require Import JsValue.
From S2P Require Import JsText.
From S2P Require Import JsJson.
From S2P Require Import JsonParse.
From S2P Require Import Convert.
From S2P Require Import Respond.
#[local] Open Scope string_scope.
#[local] Open Scope list_scope.
#[local] Open Scope js_scope.

(** ** Lines to events *)

Definition carriage_return : string := String (ascii_of_nat 13) "".
Definition strip_cr (s : string) : string := if ends_with carriage_return s then drop_last 1 s else s.

(** The event of the buffer, which is then emptied. *)
Definition takeParsedSseData (buf : string) : option jsval * string :=
  match json_parse buf with
  | Some evt => if is_object evt then (Some evt, "") else (None, buf)
  | None => (None, buf)
  end.

(** [state.dataBuf ? `${state.dataBuf}\n${piece}` : piece] *)
Definition append_line (buf piece : string) : string := if String.eqb buf "" then piece else (buf ++ newline ++ piece)%string.

(** The event that the line completes, and [state.dataBuf]. *)
Definition consumeClaudeSSEData (line buf : string) : option jsval * string :=
  let raw := strip_cr line in
  if starts_with "event:" raw || starts_with ":" raw then (None, buf)
  else if starts_with "data:" raw then
    let piece := trim (drop_chars 5 raw) in
    if String.eqb piece "" || String.eqb piece "[DONE]" then (None, "")
    else takeParsedSseData (append_line buf piece)
  else if String.eqb raw "" then
    if String.eqb buf "" then (None, buf) else (fst (takeParsedSseData buf), "")
  else if String.eqb buf "" then (None, buf)
  else takeParsedSseData (append_line buf raw).

(** [a + b] *)
Definition js_add (a b : jsval) : jsval :=
  if is_string a || is_string b || is_object a || is_object b then JStr (to_string a ++ to_string b)%string
  else JNum (num_add (to_number a) (to_number b)).
(** [(a || '') + (b || '')] *)
Definition append_value (a b : jsval) : jsval := js_add (a ||| JStr "") (b ||| JStr "").

(** [Number.isInteger(v) ? v : d], a list index; none for a negative one. *)
Definition index_or (v : jsval) (d : nat) : option nat :=
  match v with
  | JNum (Fin q) => if is_integer (Fin q) then (if Qle_bool 0 q then Some (Z.to_nat (Qfloor q)) else None) else Some d
  | _ => Some d
  end.

(** [l[i] = v]: the array grows, with holes. *)
Fixpoint set_at (i : nat) (v : jsval) (l : list jsval) : list jsval :=
  match i, l with
  | O, [] => [v]
  | O, _ :: r => v :: r
  | S i, [] => JUndef :: set_at i v []
  | S i, x :: r => x :: set_at i v r
  end.

(** ** One message for clients that do not stream *)

Record assembler := { a_message : jsval; a_buf : string }.
Definition createClaudeMessageAssembler : assembler := {| a_message := JNull; a_buf := "" |}.

Definition new_message : jsval := JObj [("type", JStr "message"); ("role", JStr "assistant"); ("content", JArr [])].
Definition ensureAssemblerMessage (message : jsval) : jsval :=
  let m := if is_object message then message else new_message in
  if is_array (m?."content") then m else with_field m "content" (JArr []).

Definition start_message (started : jsval) : jsval :=
  let m := with_own started "type" (started?."type" ||| JStr "message") in
  let m := with_field m "role" (started?."role" ||| JStr "assistant") in
  with_field m "content" (JArr (map own (arr_of (started?."content")))).

(** [if (block.type === t && block[t] == null) block[t] = ''] *)
Definition default_text (t : string) (block : jsval) : jsval :=
  set_if (is_str (block?."type") t && is_nullish (block?.t)) t (JStr "") block.

Definition start_block (message evt : jsval) : jsval :=
  let block := default_text "refusal" (default_text "thinking" (default_text "text" (own (evt?."content_block")))) in
  let content := arr_of (message?."content") in
  match index_or (evt?."index") (length content) with
  | Some i => with_field message "content" (JArr (set_at i block content))
  | None => message
  end.

(** The block after one delta. *)
Definition apply_delta (delta block : jsval) : jsval :=
  let t := delta?."type" in
  if is_str t "text_delta" then with_field block "text" (append_value (block?."text") (delta?."text"))
  else if is_str t "thinking_delta" then with_field block "thinking" (append_value (block?."thinking") (delta?."thinking"))
  else if is_str t "signature_delta" && truthy (delta?."signature") then with_field block "signature" (delta?."signature")
  else if is_str t "input_json_delta" then with_field block "_inputJson" (append_value (block?."_inputJson") (delta?."partial_json"))
  else if is_str t "refusal_delta"
  then with_field block "refusal" (js_add (block?."refusal" ||| JStr "") (delta?."refusal" ||| delta?."text" ||| JStr ""))
  else block.

(** The parsed input of a tool call. *)
Definition stop_block (block : jsval) : jsval :=
  match block?."_inputJson" with
  | JStr s =>
    if String.eqb s "" then block
    else
      let input := match json_parse s with Some v => v | None => block?."input" ||| JObj [] end in
      without (with_field block "input" input) "_inputJson"
  | _ => block
  end.

(** [f] on the block of the event, when there is one. *)
Definition update_block (f : jsval -> jsval) (message evt : jsval) : jsval :=
  let content := arr_of (message?."content") in
  match index_or (evt?."index") 0 with
  | Some i => if truthy (nth i content JUndef) then with_field message "content" (JArr (set_at i (f (nth i content JUndef)) content)) else message
  | None => message
  end.

Definition end_message (message evt : jsval) : jsval :=
  let delta := evt?."delta" in
  let m := set_if (truthy (delta?."stop_reason")) "stop_reason" (delta?."stop_reason") message in
  let m := set_if (truthy delta && has_own delta "stop_sequence") "stop_sequence" (delta?."stop_sequence") m in
  set_if (truthy (evt?."usage")) "usage" (spread (own (m?."usage" ||| JObj [])) (own (evt?."usage"))) m.

Definition apply_event (evt message : jsval) : jsval :=
  let t := evt?."type" in
  if is_str t "message_start" && truthy (evt?."message") then start_message (evt?."message")
  else
    let message := ensureAssemblerMessage message in
    if is_str t "content_block_start" && truthy (evt?."content_block") then start_block message evt
    else if is_str t "content_block_delta" && truthy (evt?."delta") then update_block (apply_delta (evt?."delta")) message evt
    else if is_str t "content_block_stop" then update_block stop_block message evt
    else if is_str t "message_delta" then end_message message evt
    else message.

Definition applyClaudeSSELineToMessage (line : string) (st : assembler) : assembler :=
  let '(evt, buf) := consumeClaudeSSEData line (a_buf st) in
  {| a_message := match evt with Some e => apply_event e (a_message st) | None => a_message st end; a_buf := buf |}.

(** ** OpenAI chat chunks *)

Record chat_state := { cs_id : string; cs_model : jsval; toolIndex : nat; toolMap : list (jsval * nat); sentRole : bool; cs_buf : string }.
Definition createOpenAIChatStreamState (random : string) (model : jsval) : chat_state :=
  {| cs_id := "chatcmpl-" ++ random; cs_model := model; toolIndex := 0; toolMap := []; sentRole := false; cs_buf := "" |}%string.

(** [toolMap.get(index) ?? 0] and [toolMap.set(index, i)]; [set] replaces. *)
Definition tool_index (m : list (jsval * nat)) (index : jsval) : nat :=
  match List.find (fun p => same_value p.1 index) m with Some p => p.2 | None => 0%nat end.
Definition map_tool (index : jsval) (i : nat) (m : list (jsval * nat)) : list (jsval * nat) :=
  (index, i) :: List.filter (fun p => negb (same_value p.1 index)) m.

Section Chunks.
Variable now : Z.

Definition chunk (id : string) (model delta finish : jsval) : fields :=
  [("id", JStr id); ("object", JStr "chat.completion.chunk"); ("created", seconds now); ("model", model);
   ("choices", JArr [JObj [("index", jint 0); ("delta", delta); ("finish_reason", finish)]])].

(** A chunk of this stream with the given delta. *)
Definition delta_chunk (st : chat_state) (delta : jsval) : jsval := JObj (chunk (cs_id st) (cs_model st) delta JNull).

Definition tool_start_delta (i : nat) (block : jsval) : jsval :=
  JObj [("tool_calls", JArr [JObj [("index", jint (Z.of_nat i)); ("id", block?."id"); ("type", JStr "function");
                                   ("function", JObj [("name", block?."name"); ("arguments", JStr "")])]])].
Definition tool_arguments_delta (i : nat) (text : jsval) : jsval :=
  JObj [("tool_calls", JArr [JObj [("index", jint (Z.of_nat i)); ("function", JObj [("arguments", text)])]])].

Definition start_chunks (evt : jsval) (st : chat_state) : list jsval * chat_state :=
  let block := evt?."content_block" in
  let t := block?."type" in
  if is_str t "tool_use" then
    let i := toolIndex st in
    ([delta_chunk st (tool_start_delta i block)],
     {| cs_id := cs_id st; cs_model := cs_model st; toolIndex := S i; toolMap := map_tool (evt?."index") i (toolMap st);
        sentRole := sentRole st; cs_buf := cs_buf st |})
  else if is_str t "thinking" || is_str t "redacted_thinking" then ([delta_chunk st (JObj [("reasoning_content", JStr "")])], st)
  else if is_str t "refusal" then ([delta_chunk st (JObj [("refusal", block?."refusal" ||| JStr "")])], st)
  else ([], st).

(** The delta of the chunk for one content delta. *)
Definition delta_of (st : chat_state) (evt : jsval) : option jsval :=
  let delta := evt?."delta" in
  let t := delta?."type" in
  if is_str t "text_delta" then Some (JObj [("content", delta?."text" ||| JStr "")])
  else if is_str t "thinking_delta" then Some (JObj [("reasoning_content", delta?."thinking" ||| JStr "")])
  else if is_str t "signature_delta" && truthy (delta?."signature") then Some (JObj [("reasoning_signature", delta?."signature")])
  else if is_str t "input_json_delta"
  then Some (tool_arguments_delta (tool_index (toolMap st) (evt?."index")) (delta?."partial_json" ||| JStr ""))
  else if is_str t "refusal_delta" then Some (JObj [("refusal", delta?."refusal" ||| delta?."text" ||| JStr "")])
  else None.

Definition event_chunks (evt : jsval) (st : chat_state) : list jsval * chat_state :=
  let t := evt?."type" in
  if is_str t "message_start" then
    ([delta_chunk st (JObj [("role", JStr "assistant"); ("content", JStr "")])],
     {| cs_id := cs_id st; cs_model := cs_model st; toolIndex := toolIndex st; toolMap := toolMap st; sentRole := true; cs_buf := cs_buf st |})
  else if is_str t "content_block_start" then start_chunks evt st
  else if is_str t "content_block_delta" then
    (match delta_of st evt with Some d => [delta_chunk st d] | None => [] end, st)
  else if is_str t "message_delta" then
    let finish := JStr (claudeStopReasonToOpenAIFinish ((evt?."delta")?."stop_reason")) in
    ([JObj (chunk (cs_id st) (cs_model st) (JObj []) finish ++
            [("usage", if truthy (evt?."usage") then chatUsage (evt?."usage") else JUndef)])], st)
  else ([], st).

Definition with_buf (st : chat_state) (buf : string) : chat_state :=
  {| cs_id := cs_id st; cs_model := cs_model st; toolIndex := toolIndex st; toolMap := toolMap st; sentRole := sentRole st; cs_buf := buf |}.

Definition claudeSSELineToOpenAIChatChunks (line : string) (st : chat_state) : list jsval * chat_state :=
  let '(evt, buf) := consumeClaudeSSEData line (cs_buf st) in
  match evt with Some e => event_chunks e (with_buf st buf) | None => ([], with_buf st buf) end.

(** ** Legacy completion chunks *)

Record completion_state := { ps_id : string; ps_model : jsval; ps_chat : chat_state }.
Definition createOpenAICompletionStreamState (random chat_random : string) (model : jsval) : completion_state :=
  {| ps_id := "cmpl-" ++ random; ps_model := model; ps_chat := createOpenAIChatStreamState chat_random model |}%string.

Definition completion_chunk (st : completion_state) (c : jsval) : jsval :=
  let choice := get_at (c?."choices") 0 in
  JObj [("id", JStr (ps_id st)); ("object", JStr "text_completion"); ("created", c?."created"); ("model", ps_model st);
        ("choices", JArr [JObj [("text", (choice?."delta")?."content" ||| JStr ""); ("index", jint 0);
                                ("finish_reason", choice?."finish_reason" ?? JNull); ("logprobs", JNull)]])].
Definition says_something (c : jsval) : bool :=
  let choice := get_at (c?."choices") 0 in truthy (choice?."text") || truthy (choice?."finish_reason").

Definition claudeSSELineToOpenAICompletionChunks (line : string) (st : completion_state) : list jsval * completion_state :=
  let '(chats, chat) := claudeSSELineToOpenAIChatChunks line (ps_chat st) in
  (List.filter says_something (map (completion_chunk st) chats), {| ps_id := ps_id st; ps_model := ps_model st; ps_chat := chat |}).
End Chunks.

(** ** Responses events *)

Record responses_state :=
  { rs_id : string; rs_model : jsval; rs_text : jsval; rs_itemId : jsval; rs_refused : bool; rs_refusalText : jsval; rs_buf : string }.
Definition createResponsesStreamState (random : string) (model : jsval) : responses_state :=
  {| rs_id := "resp_" ++ random; rs_model := model; rs_text := JStr ""; rs_itemId := JUndef; rs_refused := false;
     rs_refusalText := JUndef; rs_buf := "" |}%string.

(** [outputIndex] and [contentIndex] are never anything but 0. *)
Definition part_fields : fields := [("output_index", jint 0); ("content_index", jint 0)].
Definition text_part_of (text : jsval) : jsval := JObj [("type", JStr "output_text"); ("text", text)].
Definition event (type : string) (f : fields) : jsval := JObj (("type", JStr type) :: f).
Definition message_item (st : responses_state) (content : list jsval) (rest : fields) : jsval :=
  JObj ([("type", JStr "message"); ("id", rs_itemId st); ("role", JStr "assistant"); ("content", JArr content)] ++ rest).

Definition created_events (st : responses_state) : list jsval :=
  [event "response.created" [("response", JObj [("id", JStr (rs_id st)); ("object", JStr "response"); ("model", rs_model st);
                                                ("status", JStr "in_progress")])];
   event "response.in_progress" [("response", JObj [("id", JStr (rs_id st)); ("status", JStr "in_progress")])]].
Definition added_events (st : responses_state) : list jsval :=
  [event "response.output_item.added" [("output_index", jint 0); ("item", message_item st [] [("status", JStr "in_progress")])];
   event "response.content_part.added" (part_fields ++ [("part", text_part_of (JStr ""))])].
Definition done_events (st : responses_state) : list jsval :=
  [event "response.output_text.done" (part_fields ++ [("text", rs_text st)]);
   event "response.content_part.done" (part_fields ++ [("part", text_part_of (rs_text st))]);
   event "response.output_item.done"
     [("output_index", jint 0); ("item", message_item st [text_part_of (rs_text st)] [("status", JStr "completed")])]].
Definition final_event (st : responses_state) : jsval :=
  let text := rs_text st ||| (if rs_refused st then rs_refusalText st ||| JStr "" else JStr "") in
  event (if rs_refused st then "response.incomplete" else "response.completed")
    [("response", JObj [("id", JStr (rs_id st)); ("object", JStr "response"); ("model", rs_model st);
                        ("status", JStr (if rs_refused st then "incomplete" else "completed"));
                        ("incomplete_details", filter_reason (rs_refused st));
                        ("output", JArr [message_item st [text_part_of text] []]); ("output_text", text)])].

Definition rs_set (st : responses_state) (text itemId : jsval) (refused : bool) (refusalText : jsval) : responses_state :=
  {| rs_id := rs_id st; rs_model := rs_model st; rs_text := text; rs_itemId := itemId; rs_refused := refused;
     rs_refusalText := refusalText; rs_buf := rs_buf st |}.
Definition add_refusal (st : responses_state) (text : jsval) : responses_state :=
  rs_set st (rs_text st) (rs_itemId st) (rs_refused st) (js_add (rs_refusalText st ||| JStr "") (text ||| JStr "")).

(** [random]: the id drawn when the message starts. *)
Definition event_responses (random : string) (evt : jsval) (st : responses_state) : list jsval * responses_state :=
  let t := evt?."type" in
  let block := evt?."content_block" in
  let delta := evt?."delta" in
  if is_str t "message_start" then
    (created_events st, rs_set st (rs_text st) (JStr ("msg_" ++ random)%string) (rs_refused st) (rs_refusalText st))
  else if is_str t "content_block_start" then
    (if is_str (block?."type") "text" then added_events st else [],
     if is_str (block?."type") "refusal" then add_refusal st (block?."refusal") else st)
  else if is_str t "content_block_delta" then
    if is_str (delta?."type") "text_delta" then
      ([event "response.output_text.delta" (part_fields ++ [("delta", delta?."text" ||| JStr "")])],
       rs_set st (js_add (rs_text st) (delta?."text" ||| JStr "")) (rs_itemId st) (rs_refused st) (rs_refusalText st))
    else if is_str (delta?."type") "refusal_delta" then ([], add_refusal st (delta?."refusal" ||| delta?."text"))
    else ([], st)
  else if is_str t "content_block_stop" then (done_events st, st)
  else if is_str t "message_delta" then
    ([], if is_str (delta?."stop_reason") "refusal"
         then rs_set st (rs_text st) (rs_itemId st) true (rs_refusalText st ||| JStr "") else st)
  else if is_str t "message_stop" then ([final_event st], st)
  else ([], st).

Definition claudeSSELineToResponsesEvents (random line : string) (st : responses_state) : list jsval * responses_state :=
  let '(evt, buf) := consumeClaudeSSEData line (rs_buf st) in
  let st := {| rs_id := rs_id st; rs_model := rs_model st; rs_text := rs_text st; rs_itemId := rs_itemId st;
               rs_refused := rs_refused st; rs_refusalText := rs_refusalText st; rs_buf := buf |} in
  match evt with Some e => event_responses random e st | None => ([], st) end.
