(* ===== verification/StreamFacts.v ===== *)
(** * The streamed and the collected answer agree

    A stream of Messages events is described by the blocks it carries ([sblock]), in the order in
    which the provider sends them, with pings between, and printed to lines ([sse_lines]).  A client that
    concatenates the deltas of the chat chunks ends up with the text, the tool calls and the finish reason that a
    client which does not stream gets in one completion; the arguments of a tool call are the same JSON. *)

From S2P Require Import Prelude.
From S2P Require Import JsValue.
From S2P Require Import JsText.
From S2P Require Import JsJson.
From S2P Require Import JsonParse.
From S2P Require Import Thinking.
From S2P Require Import Convert.
From S2P Require Import Respond.
From S2P Require Import Streams.
#[local] Open Scope string_scope.
#[local] Open Scope list_scope.
#[local] Open Scope js_scope.

(** ** Streams *)

(** A content block with the pieces its text comes in; the pieces of a tool call make up the text of its input. *)
Inductive sblock :=
| SText (pieces : list string)
| SThinking (pieces : list string) (signature : option string)
| STool (id name : string) (input : jsval) (pieces : list string).

Definition block_start (b : sblock) : jsval :=
  match b with
  | SText _ => JObj [("type", JStr "text"); ("text", JStr "")]
  | SThinking _ _ => JObj [("type", JStr "thinking"); ("thinking", JStr "")]
  | STool id name _ _ => JObj [("type", JStr "tool_use"); ("id", JStr id); ("name", JStr name); ("input", JObj [])]
  end.
Definition block_deltas (b : sblock) : list jsval :=
  match b with
  | SText ps => map (fun p => JObj [("type", JStr "text_delta"); ("text", JStr p)]) ps
  | SThinking ps signature =>
    map (fun p => JObj [("type", JStr "thinking_delta"); ("thinking", JStr p)]) ps ++
    match signature with Some s => [JObj [("type", JStr "signature_delta"); ("signature", JStr s)]] | None => [] end
  | STool _ _ _ ps => map (fun p => JObj [("type", JStr "input_json_delta"); ("partial_json", JStr p)]) ps
  end.
Definition indexed (type : string) (i : nat) (f : fields) : jsval := JObj (("type", JStr type) :: ("index", jint (Z.of_nat i)) :: f).
Definition block_events (i : nat) (b : sblock) : list jsval :=
  [indexed "content_block_start" i [("content_block", block_start b)]] ++
  map (fun d => indexed "content_block_delta" i [("delta", d)]) (block_deltas b) ++
  [indexed "content_block_stop" i []].
Fixpoint blocks_events (i : nat) (l : list sblock) : list jsval :=
  match l with [] => [] | b :: r => block_events i b ++ blocks_events (S i) r end.

(** [message]: the message without content; [stop]: its stop reason. *)
Definition message_start (message : jsval) : jsval := JObj [("type", JStr "message_start"); ("message", message)].
Definition message_stop : jsval := JObj [("type", JStr "message_stop")].
Definition body_events (l : list sblock) (stop : string) (usage : jsval) : list jsval :=
  blocks_events 0 l ++ [JObj [("type", JStr "message_delta"); ("delta", JObj [("stop_reason", JStr stop)]); ("usage", usage)]].
(** [l'] is [l] with pings at any places. *)
Definition PING : jsval := JObj [("type", JStr "ping")].
Inductive pinged : list jsval -> list jsval -> Prop :=
| pinged_nil : pinged [] []
| pinged_event e l l' : pinged l l' -> pinged (e :: l) (e :: l')
| pinged_ping l l' : pinged l l' -> pinged l (PING :: l').
Definition stream_events (message : jsval) (l : list jsval) : list jsval := message_start message :: l ++ [message_stop].

(** The three lines of an event. *)
Definition sse_event (e : jsval) : list string :=
  ["event: " ++ to_string (e?."type"); "data: " ++ text e; ""]%string.
Definition sse_lines (l : list jsval) : list string := flat_map sse_event l.

(** ** Clients *)

Definition assembled (lines : list string) : jsval :=
  a_message (foldl (fun st line => applyClaudeSSELineToMessage line st) createClaudeMessageAssembler lines).

(** The chunks of all the lines. *)
Fixpoint chat_chunks (now : Z) (lines : list string) (st : chat_state) : list jsval :=
  match lines with
  | [] => []
  | line :: r => let '(cs, st') := claudeSSELineToOpenAIChatChunks now line st in cs ++ chat_chunks now r st'
  end.

(** What a client has accumulated: the text, the tool calls (id, name, arguments), the finish reason. *)
Record received := { got_text : string; got_tools : list (jsval * jsval * string); got_finish : jsval }.
Definition nothing : received := {| got_text := ""; got_tools := []; got_finish := JNull |}.

Definition js_nat (v : jsval) : nat := match v with JNum (Fin q) => Z.to_nat (Qfloor q) | _ => 0%nat end.
Definition receive_tool (tools : list (jsval * jsval * string)) (c : jsval) : list (jsval * jsval * string) :=
  let arguments := str_or_empty ((c?."function")?."arguments") in
  let i := js_nat (c?."index") in
  match tools !! i with
  | Some (id, name, a) => <[i := (id, name, a ++ arguments)%string]> tools
  | None => tools ++ [(c?."id", (c?."function")?."name", arguments)]
  end.
Definition receive (r : received) (c : jsval) : received :=
  let choice := get_at (c?."choices") 0 in
  let delta := choice?."delta" in
  {| got_text := (got_text r ++ str_or_empty (delta?."content"))%string;
     got_tools := foldl receive_tool (got_tools r) (arr_of (delta?."tool_calls"));
     got_finish := choice?."finish_reason" ?? got_finish r |}.
Definition received_from (chunks : list jsval) : received := foldl receive nothing chunks.

(** The same answer as the completion that is not streamed: the arguments of the completion are the JSON of a
    value, and those received are a text of that value, or nothing for an empty object. *)
Definition same_call (got : jsval * jsval * string) (call : jsval) : Prop :=
  exists input, is_obj input = true /\
    call = JObj [("id", got.1.1); ("type", JStr "function"); ("function", JObj [("name", got.1.2); ("arguments", JStr (text input))])] /\
    (json_parse got.2 = Some input \/ got.2 = "" /\ input = JObj []).
Definition same_answer (r : received) (completion : jsval) : Prop :=
  let choice := get_at (completion?."choices") 0 in
  let message := choice?."message" in
  message?."content" = JStr (got_text r) ||| JNull /\
  Forall2 same_call (got_tools r) (arr_of (message?."tool_calls")) /\
  choice?."finish_reason" = got_finish r.

Definition sample_blocks : list sblock :=
  [SThinking ["hm"] (Some "sig"); SText ["a"; "b"]; STool "t1" "Bash" (JObj [("x", jint 1)]) [""; "{" ++ quote "x"; " : 1 }"];
   STool "t2" "Read" (JObj [("p", JStr "q")]) [text (JObj [("p", JStr "q")])]; STool "t3" "Stop" (JObj []) []; SText ["c"]]%string.
Definition sample_events : list jsval := PING :: body_events sample_blocks "tool_use" (JObj []).
Definition sample_stream : list string := sse_lines (stream_events (JObj [("id", JStr "m"); ("content", JArr [])]) sample_events).
Example received_ex :
  received_from (chat_chunks 0 sample_stream (createOpenAIChatStreamState "r" JNull))
  = {| got_text := "abc";
       got_tools := [(JStr "t1", JStr "Bash", "{" ++ quote "x" ++ " : 1 }"); (JStr "t2", JStr "Read", text (JObj [("p", JStr "q")])); (JStr "t3", JStr "Stop", "")]%string;
       got_finish := JStr "tool_calls" |}.
Proof. vm_compute. reflexivity. Qed.
Example assembled_ex : (assembled sample_stream)?."content" =
  JArr [JObj [("type", JStr "thinking"); ("thinking", JStr "hm"); ("signature", JStr "sig")]; text_block (JStr "ab");
        JObj [("type", JStr "tool_use"); ("id", JStr "t1"); ("name", JStr "Bash"); ("input", JObj [("x", jint 1)])];
        JObj [("type", JStr "tool_use"); ("id", JStr "t2"); ("name", JStr "Read"); ("input", JObj [("p", JStr "q")])];
        JObj [("type", JStr "tool_use"); ("id", JStr "t3"); ("name", JStr "Stop"); ("input", JObj [])];
        text_block (JStr "c")].
Proof. vm_compute. reflexivity. Qed.

(** ** Lines to events *)

Definition object_value (v : jsval) : Prop := json_value v /\ is_obj v = true.

Lemma obj_text v : object_value v -> exists m, text v = ("{" ++ m ++ "}")%string.
Proof. intros [Hj Ho]. destruct v as [| | | | | |f]; try discriminate Ho. destruct Hj as [_ Hj]. rewrite text_obj by done. by eexists. Qed.

Lemma no_cr_snoc s c : Ascii.eqb c (ascii_of_nat 13) = false -> strip_cr (s ++ String c "") = (s ++ String c "")%string.
Proof.
  intros H. unfold strip_cr, ends_with. rewrite string_length_app. change (String.length carriage_return) with 1%nat. cbn [String.length].
  replace (String.length s + 1 - 1)%nat with (String.length s) by lia. rewrite drop_chars_app.
  replace (String.eqb (String c "") carriage_return) with false; [by rewrite andb_false_r|].
  cbn [carriage_return String.eqb]. by rewrite H.
Qed.

Lemma consume_data e : object_value e -> consumeClaudeSSEData ("data: " ++ text e)%string "" = (Some e, "").
Proof.
  intros He. destruct (obj_text e He) as [m Hm]. unfold consumeClaudeSSEData.
  assert (Hc : strip_cr ("data: " ++ text e) = ("data: " ++ text e)%string).
  { rewrite Hm. change ("data: " ++ "{" ++ m ++ "}")%string with (("data: {" ++ m) ++ "}")%string. by apply no_cr_snoc. }
  rewrite Hc. change (starts_with "event:" ("data: " ++ ?s)) with false. change (starts_with ":" ("data: " ++ ?s)) with false.
  change (starts_with "data:" ("data: " ++ ?s)) with true. cbn [orb].
  assert (Ht : trim (drop_chars 5 ("data: " ++ text e)) = text e).
  { rewrite Hm. change (trim (drop_chars 5 ("data: " ++ "{" ++ m ++ "}"))) with (trim (String "{" (m ++ String "}" ""))).
    by apply trim_between. }
  rewrite Ht. assert (Hn : String.eqb (text e) "" || String.eqb (text e) "[DONE]" = false) by (by rewrite Hm).
  rewrite Hn. unfold takeParsedSseData, append_line. cbn [String.eqb]. rewrite json_roundtrip by apply He.
  destruct He as [_ Ho]. by destruct e.
Qed.

Lemma consume_name t : consumeClaudeSSEData ("event: " ++ t)%string "" = (None, "").
Proof.
  unfold consumeClaudeSSEData. replace (starts_with "event:" (strip_cr ("event: " ++ t))) with true; [done|].
  unfold strip_cr. destruct (ends_with _ _); [|done]. unfold drop_last. cbn. by rewrite ?Nat.sub_0_r.
Qed.

Lemma consume_blank : consumeClaudeSSEData "" "" = (None, "").
Proof. reflexivity. Qed.

Lemma assemble_event e m : object_value e ->
  foldl (fun st line => applyClaudeSSELineToMessage line st) {| a_message := m; a_buf := "" |} (sse_event e)
  = {| a_message := apply_event e m; a_buf := "" |}.
Proof.
  intros He. unfold sse_event. cbn [foldl]. unfold applyClaudeSSELineToMessage. cbn [a_buf a_message].
  rewrite consume_name. cbn [a_buf a_message]. rewrite (consume_data e He). cbn [a_buf a_message]. by rewrite consume_blank.
Qed.

Lemma assembled_events l : Forall object_value l ->
  assembled (sse_lines l) = foldl (fun m e => apply_event e m) JNull l.
Proof.
  unfold assembled, createClaudeMessageAssembler. generalize JNull. induction l as [|e l IH]; intros m Hl; [done|].
  apply Forall_cons in Hl as [He Hl]. cbn [sse_lines flat_map]. rewrite foldl_app, (assemble_event e m He). by apply IH.
Qed.

(** The chunks of a list of events, without the lines. *)
Fixpoint events_chunks (now : Z) (l : list jsval) (st : chat_state) : list jsval * chat_state :=
  match l with
  | [] => ([], st)
  | e :: r => let '(cs, st1) := event_chunks now e st in let '(ds, st2) := events_chunks now r st1 in (cs ++ ds, st2)
  end.

Lemma event_chunks_buf now e st : cs_buf (event_chunks now e st).2 = cs_buf st.
Proof. unfold event_chunks, start_chunks. by repeat case_match. Qed.

Lemma chat_chunks_events now l : Forall object_value l -> forall st, cs_buf st = "" ->
  chat_chunks now (sse_lines l) st = (events_chunks now l st).1.
Proof.
  induction l as [|e l IH]; intros Hl st Hst; [done|]. apply Forall_cons in Hl as [He Hl].
  assert (Hw : with_buf st "" = st) by (destruct st; cbn in *; by rewrite Hst).
  cbn [sse_lines flat_map sse_event app chat_chunks]. unfold claudeSSELineToOpenAIChatChunks at 1.
  rewrite Hst, consume_name, Hw. cbn [app]. cbn [chat_chunks]. unfold claudeSSELineToOpenAIChatChunks at 1.
  rewrite Hst, (consume_data e He), Hw. assert (Hb := event_chunks_buf now e st).
  cbn [events_chunks]. destruct (event_chunks now e st) as [cs st1]. cbn [snd] in Hb. rewrite Hst in Hb.
  assert (Hw1 : with_buf st1 "" = st1) by (destruct st1; cbn in *; by rewrite Hb).
  cbn [chat_chunks]. unfold claudeSSELineToOpenAIChatChunks at 1. rewrite Hb, consume_blank, Hw1. cbn [app].
  assert (E := IH Hl st1 Hb). destruct (events_chunks now l st1) as [ds st2]. cbn [fst] in *. by rewrite <- E.
Qed.

(** ** The assembled message *)

Definition cat (ps : list string) : string := foldr String.append "" ps.

(** The pieces of a tool call make up a text of its input, an object, in any spelling; there may be none for an empty one. *)
Definition block_ok (b : sblock) : Prop :=
  match b with
  | STool _ _ input ps => is_obj input = true /\ (json_parse (cat ps) = Some input \/ cat ps = "" /\ input = JObj [])
  | _ => True
  end.

Definition signed (signature : option string) (block : jsval) : jsval :=
  match signature with Some s => if nonempty s then with_field block "signature" (JStr s) else block | None => block end.
Definition collecting (id name s : string) : jsval :=
  JObj [("type", JStr "tool_use"); ("id", JStr id); ("name", JStr name); ("input", JObj []); ("_inputJson", JStr s)].
Definition final_block (b : sblock) : jsval :=
  match b with
  | SText ps => text_block (JStr (cat ps))
  | SThinking ps signature => signed signature (JObj [("type", JStr "thinking"); ("thinking", JStr (cat ps))])
  | STool id name input ps =>
    match ps with
    | _ :: _ => if nonempty (cat ps) then JObj [("type", JStr "tool_use"); ("id", JStr id); ("name", JStr name); ("input", input)] else collecting id name ""
    | [] => JObj [("type", JStr "tool_use"); ("id", JStr id); ("name", JStr name); ("input", input)]
    end
  end.

Definition put (m : jsval) (l : list jsval) : jsval := with_field m "content" (JArr l).

Lemma set_field_twice k v w f : set_field k v (set_field k w f) = set_field k v f.
Proof.
  induction f as [|[k' x] f IH]; cbn [set_field]; [by rewrite String.eqb_refl|].
  destruct (String.eqb k k') eqn:E; cbn [set_field]; rewrite E; [done|by rewrite IH].
Qed.
Lemma put_put m l l' : put (put m l) l' = put m l'.
Proof. unfold put, with_field. cbn [fields_of]. by rewrite set_field_twice. Qed.
Lemma content_put m l : (put m l)?."content" = JArr l.
Proof. apply get_with_field_eq. Qed.
Lemma ensure_put m l : ensureAssemblerMessage (put m l) = put m l.
Proof. unfold ensureAssemblerMessage. change (is_object (put m l)) with true. cbv iota zeta. by rewrite content_put. Qed.

Lemma set_at_end l v : set_at (length l) v l = l ++ [v].
Proof. induction l as [|x l IH]; cbn [length set_at app]; [done|by rewrite IH]. Qed.
Lemma set_at_last l v w : set_at (length l) v (l ++ [w]) = l ++ [v].
Proof. induction l as [|x l IH]; cbn [length set_at app]; [done|by rewrite IH]. Qed.
Lemma nth_last (l : list jsval) w : nth (length l) (l ++ [w]) JUndef = w.
Proof. induction l as [|x l IH]; [done|apply IH]. Qed.

Lemma index_nat i d : index_or (jint (Z.of_nat i)) d = Some i.
Proof.
  unfold jint, num_of_Z, index_or. cbn [is_integer]. rewrite Qfloor_Z.
  replace (Qeq_bool (inject_Z (Z.of_nat i)) (inject_Z (Z.of_nat i))) with true by (symmetry; apply Qeq_bool_iff; reflexivity).
  replace (Qle_bool 0 (inject_Z (Z.of_nat i))) with true; [by rewrite Nat2Z.id|].
  symmetry. apply Qle_bool_iff. change 0%Q with (inject_Z 0). rewrite <- Zle_Qle. lia.
Qed.

Lemma assemble_start m l b : apply_event (indexed "content_block_start" (length l) [("content_block", block_start b)]) (put m l)
  = put m (l ++ [block_start b]).
Proof.
  unfold apply_event. change (is_str _ "message_start") with false. rewrite ensure_put. cbn [andb].
  change (is_str _ "content_block_start" && _) with (truthy (block_start b)). replace (truthy (block_start b)) with true by (by destruct b).
  cbv iota zeta. unfold start_block. change ((indexed _ _ _)?."index") with (jint (Z.of_nat (length l))). rewrite index_nat, content_put.
  cbn [arr_of]. rewrite set_at_end.
  transitivity (put (put m l) (l ++ [default_text "refusal" (default_text "thinking" (default_text "text" (own (block_start b))))])); [done|].
  rewrite put_put. by destruct b.
Qed.

Lemma assemble_update f type g m l v : is_obj v = true ->
  (forall w, apply_event (indexed type (length l) g) (put m w) = update_block f (put m w) (indexed type (length l) g)) ->
  apply_event (indexed type (length l) g) (put m (l ++ [v])) = put m (l ++ [f v]).
Proof.
  intros Hv ->. unfold update_block. change ((indexed _ _ _)?."index") with (jint (Z.of_nat (length l))). rewrite index_nat, content_put.
  cbn [arr_of]. rewrite nth_last, set_at_last. replace (truthy v) with true by (by destruct v).
  apply put_put.
Qed.

Lemma assemble_delta d m l v : is_obj d = true -> is_obj v = true ->
  apply_event (indexed "content_block_delta" (length l) [("delta", d)]) (put m (l ++ [v])) = put m (l ++ [apply_delta d v]).
Proof.
  intros Hd Hv. apply assemble_update; [done|]. intros w. unfold apply_event. rewrite ensure_put.
  change (is_str _ "message_start") with false. change (is_str _ "content_block_start") with false.
  change ((indexed _ _ [("delta", d)])?."delta") with d. replace (truthy d) with true by (by destruct d). reflexivity.
Qed.

Lemma assemble_stop m l v : is_obj v = true ->
  apply_event (indexed "content_block_stop" (length l) []) (put m (l ++ [v])) = put m (l ++ [stop_block v]).
Proof. intros Hv. apply assemble_update; [done|]. intros w. unfold apply_event. rewrite ensure_put. reflexivity. Qed.

Lemma apply_delta_obj d v : is_obj v = true -> is_obj (apply_delta d v) = true.
Proof. intros Hv. unfold apply_delta. by repeat case_match. Qed.

Lemma assemble_deltas ds : forall m l v, Forall (fun d => is_obj d = true) ds -> is_obj v = true ->
  foldl (fun m e => apply_event e m) (put m (l ++ [v])) (map (fun d => indexed "content_block_delta" (length l) [("delta", d)]) ds)
  = put m (l ++ [foldl (fun v d => apply_delta d v) v ds]).
Proof.
  induction ds as [|d ds IH]; intros m l v Hd Hv; [done|]. apply Forall_cons in Hd as [Hd Hds]. cbn [map foldl].
  rewrite assemble_delta by done. apply IH; [done|by apply apply_delta_obj].
Qed.

Lemma append_strings s p : append_value (JStr s) (JStr p) = JStr (s ++ p)%string.
Proof. unfold append_value, or_else. cbn [truthy]. destruct (String.eqb_spec s "") as [->|], (String.eqb_spec p "") as [->|]; done. Qed.

Lemma text_deltas ps : forall s,
  foldl (fun v d => apply_delta d v) (text_block (JStr s)) (block_deltas (SText ps)) = text_block (JStr (s ++ cat ps)%string).
Proof.
  induction ps as [|p ps IH]; intros s; cbn [block_deltas map foldl cat foldr]; [by rewrite string_app_nil|].
  rewrite <- string_app_assoc. etransitivity; [|apply IH]. cbn [block_deltas]. f_equal.
  unfold apply_delta, with_field, text_block. cbn -[append_value append]. by rewrite append_strings.
Qed.

Lemma thinking_deltas ps : forall s,
  foldl (fun v d => apply_delta d v) (JObj [("type", JStr "thinking"); ("thinking", JStr s)])
    (map (fun p => JObj [("type", JStr "thinking_delta"); ("thinking", JStr p)]) ps)
  = JObj [("type", JStr "thinking"); ("thinking", JStr (s ++ cat ps)%string)].
Proof.
  induction ps as [|p ps IH]; intros s; cbn [block_deltas map foldl cat foldr]; [by rewrite string_app_nil|].
  rewrite <- string_app_assoc. etransitivity; [|apply IH]. f_equal.
  unfold apply_delta, with_field. cbn -[append_value append]. by rewrite append_strings.
Qed.

Lemma signed_deltas ps signature : 
  foldl (fun v d => apply_delta d v) (block_start (SThinking ps signature)) (block_deltas (SThinking ps signature)) = final_block (SThinking ps signature).
Proof.
  cbn [block_start block_deltas]. rewrite foldl_app, (thinking_deltas ps ""). destruct signature as [s|]; [|done]. cbn [foldl final_block signed].
  unfold apply_delta. unfold nonempty. cbn -[with_field]. by destruct (String.eqb_spec s "").
Qed.

Lemma tool_deltas id name input ps : forall s,
  foldl (fun v d => apply_delta d v) (collecting id name s) (block_deltas (STool id name input ps)) = collecting id name (s ++ cat ps).
Proof.
  induction ps as [|p ps IH]; intros s; cbn [block_deltas map foldl cat foldr]; [by rewrite string_app_nil|].
  rewrite <- string_app_assoc. etransitivity; [|apply IH]. cbn [block_deltas]. f_equal.
  unfold apply_delta, with_field, collecting. cbn -[append_value append]. by rewrite append_strings.
Qed.

Lemma collected id name input ps : block_ok (STool id name input ps) ->
  stop_block (foldl (fun v d => apply_delta d v) (block_start (STool id name input ps)) (block_deltas (STool id name input ps)))
  = final_block (STool id name input ps).
Proof.
  intros [Ho Hc]. destruct ps as [|p ps]; [destruct Hc as [Hc|[_ ->]]; [done|reflexivity]|].
  assert (E : foldl (fun v d => apply_delta d v) (block_start (STool id name input (p :: ps))) (block_deltas (STool id name input (p :: ps)))
    = collecting id name (cat (p :: ps))).
  { etransitivity; [|apply (tool_deltas id name input)]. cbn [block_deltas map foldl]. f_equal.
    unfold apply_delta, with_field, block_start. cbn -[append_value append].
    change (append_value JUndef (JStr p)) with (append_value (JStr "") (JStr p)). by rewrite append_strings. }
  rewrite E. cbn [final_block]. set (s := cat (p :: ps)) in *. unfold stop_block. change (collecting id name s?."_inputJson") with (JStr s). cbv iota.
  unfold nonempty. destruct (String.eqb_spec s "") as [Hs|Hs]; cbn [negb]; [by rewrite Hs|]. destruct Hc as [Hc|[Hc _]]; [|done]. by rewrite Hc.
Qed.

Lemma deltas_obj b : Forall (fun d => is_obj d = true) (block_deltas b).
Proof.
  assert (H : forall f ps, (forall p : string, is_obj (f p) = true) -> Forall (fun d => is_obj d = true) (map f ps)).
  { intros f ps Hf. apply Forall_forall. intros d Hd. by apply list_elem_of_fmap in Hd as (p & -> & _). }
  destruct b as [ps|ps signature|id name input ps]; cbn [block_deltas]; try (by apply H).
  apply Forall_app. split; [by apply H|]. destruct signature; by repeat constructor.
Qed.

Lemma block_collected b : block_ok b ->
  stop_block (foldl (fun v d => apply_delta d v) (block_start b) (block_deltas b)) = final_block b.
Proof.
  destruct b as [ps|ps signature|id name input ps]; intros Hb.
  - change (block_start (SText ps)) with (text_block (JStr "")). by rewrite text_deltas.
  - rewrite signed_deltas. destruct signature as [s|]; [|done]. cbn [final_block signed]. by destruct (nonempty s).
  - by apply collected.
Qed.

Lemma block_message b m l : block_ok b ->
  foldl (fun m e => apply_event e m) (put m l) (block_events (length l) b) = put m (l ++ [final_block b]).
Proof.
  intros Hb. unfold block_events. rewrite !foldl_app. cbn [foldl]. rewrite assemble_start.
  rewrite assemble_deltas by (apply deltas_obj || by destruct b).
  rewrite assemble_stop; [by rewrite block_collected|].
  assert (H : is_obj (block_start b) = true) by (by destruct b). revert H. generalize (block_start b).
  induction (block_deltas b) as [|d ds IH]; intros v Hv; [done|]. cbn [foldl]. apply IH. by apply apply_delta_obj.
Qed.

Lemma blocks_message bs : forall m l, Forall block_ok bs ->
  foldl (fun m e => apply_event e m) (put m l) (blocks_events (length l) bs) = put m (l ++ map final_block bs).
Proof.
  induction bs as [|b bs IH]; intros m l Hb; cbn [blocks_events map]; [by rewrite app_nil_r|].
  apply Forall_cons in Hb as [Hb Hbs]. rewrite foldl_app, block_message by done.
  assert (E := IH m (l ++ [final_block b]) Hbs). rewrite length_app in E. cbn [length] in E.
  replace (length l + 1)%nat with (S (length l)) in E by lia. rewrite E. by rewrite <- (assoc_L app).
Qed.

(** Pings change nothing. *)
Lemma ensured_fix m : is_object m = true -> is_array (m?."content") = true -> ensureAssemblerMessage m = m.
Proof. unfold ensureAssemblerMessage. intros -> Hc. cbv zeta. by rewrite Hc. Qed.
Lemma ensure_idem m : ensureAssemblerMessage (ensureAssemblerMessage m) = ensureAssemblerMessage m.
Proof.
  apply ensured_fix; unfold ensureAssemblerMessage; cbv zeta.
  - destruct (is_array ((if is_object m then m else new_message)?."content")); [|done]. by destruct (is_object m) eqn:E.
  - destruct (is_array ((if is_object m then m else new_message)?."content")) eqn:E; [done|]. by rewrite get_with_field_eq.
Qed.
Lemma apply_ensured e m : apply_event e (ensureAssemblerMessage m) = apply_event e m.
Proof. unfold apply_event. by rewrite ensure_idem. Qed.
Lemma assemble_pinged l l' : pinged l l' -> forall m,
  ensureAssemblerMessage (foldl (fun m e => apply_event e m) m l') = ensureAssemblerMessage (foldl (fun m e => apply_event e m) m l).
Proof.
  assert (H : forall l m n, ensureAssemblerMessage m = ensureAssemblerMessage n ->
    ensureAssemblerMessage (foldl (fun m e => apply_event e m) m l) = ensureAssemblerMessage (foldl (fun m e => apply_event e m) n l)).
  { intros k. induction k as [|e k IH]; intros m n Hmn; [done|]. cbn [foldl]. apply IH. by rewrite <- (apply_ensured e m), Hmn, apply_ensured. }
  induction 1 as [|e l l' _ IH|l l' _ IH]; intros m; [done|apply IH|]. cbn [foldl]. rewrite <- IH. apply H.
  change (apply_event PING m) with (ensureAssemblerMessage m). apply ensure_idem.
Qed.

(** The message after the whole stream: its content and its stop reason. *)
Lemma stream_message message bs stop usage events : is_obj message = true -> arr_of (message?."content") = [] -> Forall block_ok bs ->
  pinged (body_events bs stop usage) events -> stop <> "" ->
  exists m, foldl (fun m e => apply_event e m) JNull (stream_events message events) = m /\
    m?."content" = JArr (map final_block bs) /\ m?."stop_reason" = JStr stop.
Proof.
  intros Hm Hc Hb Hp Hs. eexists. split; [reflexivity|]. unfold stream_events. cbn [foldl]. rewrite foldl_app. cbn [foldl].
  change (apply_event message_stop ?x) with (ensureAssemblerMessage x). rewrite (assemble_pinged _ _ Hp). unfold body_events. rewrite foldl_app. cbn [foldl].
  assert (E : exists m, apply_event (message_start message) JNull = put m []).
  { unfold apply_event, message_start. cbn [get assoc String.eqb Ascii.eqb Bool.eqb is_str andb]. replace (truthy message) with true by (by destruct message).
    unfold start_message. rewrite Hc. by eexists. }
  destruct E as [m ->]. assert (E := blocks_message bs m [] Hb). cbn [length app] in E. rewrite E.
  set (mm := put m (map final_block bs)).
  assert (E2 : apply_event (JObj [("type", JStr "message_delta"); ("delta", JObj [("stop_reason", JStr stop)]); ("usage", usage)]) mm
    = set_if (truthy usage) "usage" (spread (own ((with_field mm "stop_reason" (JStr stop))?."usage" ||| JObj [])) (own usage))
        (with_field mm "stop_reason" (JStr stop))).
  { unfold apply_event, end_message. cbn -[ensureAssemblerMessage with_field mm spread own set_if truthy].
    assert (Ht : truthy (JStr stop) = true) by (cbn [truthy]; by rewrite (proj2 (String.eqb_neq stop EmptyString) Hs)).
    rewrite Ht. unfold mm. rewrite !ensure_put. reflexivity. }
  rewrite E2. set (m2 := with_field mm "stop_reason" (JStr stop)).
  assert (H2 : m2?."content" = JArr (map final_block bs) /\ m2?."stop_reason" = JStr stop).
  { unfold m2. rewrite get_with_field_ne by done. split; [apply content_put|apply get_with_field_eq]. }
  set (m3 := set_if _ _ _ _).
  assert (H4 : is_object m3 = true /\ m3?."content" = JArr (map final_block bs) /\ m3?."stop_reason" = JStr stop).
  { unfold m3, set_if. destruct (truthy usage); rewrite ?get_with_field_ne by done; by destruct H2. }
  destruct H4 as (Ho & Hc4 & Hs4). unfold ensureAssemblerMessage. rewrite Ho. rewrite Hc4. cbn [is_array]. done.
Qed.

(** ** The chunks received *)

Definition got (now : Z) (r : received) (l : list jsval) (st : chat_state) : received * chat_state :=
  let '(cs, st') := events_chunks now l st in (foldl receive r cs, st').

Lemma got_cons now r e l st : got now r (e :: l) st =
  got now (foldl receive r (event_chunks now e st).1) l (event_chunks now e st).2.
Proof.
  unfold got. cbn [events_chunks]. destruct (event_chunks now e st) as [cs st1]. cbn [fst snd].
  destruct (events_chunks now l st1) as [ds st2]. by rewrite foldl_app.
Qed.

Lemma got_app now l : forall r k st, got now r (l ++ k) st = got now (got now r l st).1 k (got now r l st).2.
Proof. induction l as [|e l IH]; intros r k st; [done|]. cbn [app]. rewrite !got_cons. apply IH. Qed.

Definition receive_block (b : sblock) (r : received) : received :=
  match b with
  | SText ps => {| got_text := got_text r ++ cat ps; got_tools := got_tools r; got_finish := got_finish r |}
  | SThinking _ _ => r
  | STool id name _ ps => {| got_text := got_text r; got_tools := got_tools r ++ [(JStr id, JStr name, cat ps)]; got_finish := got_finish r |}
  end.

Lemma str_or_empty_str s : str_or_empty (JStr s) = s.
Proof. unfold str_or_empty, or_else. cbn [truthy]. by destruct (String.eqb_spec s "") as [->|]. Qed.
Lemma or_empty_str s : JStr s ||| JStr "" = JStr s.
Proof. unfold or_else. cbn [truthy]. by destruct (String.eqb_spec s "") as [->|]. Qed.
Lemma js_nat_index i : js_nat (jint (Z.of_nat i)) = i.
Proof. unfold jint, num_of_Z, js_nat. by rewrite Qfloor_Z, Nat2Z.id. Qed.
Lemma receive_eta r : {| got_text := got_text r; got_tools := got_tools r; got_finish := got_finish r |} = r.
Proof. by destruct r. Qed.

(** Receiving a chunk that only carries a delta. *)
Lemma receive_delta st r now delta : receive r (delta_chunk now st delta) =
  {| got_text := got_text r ++ str_or_empty (delta?."content");
     got_tools := foldl receive_tool (got_tools r) (arr_of (delta?."tool_calls")); got_finish := got_finish r |}.
Proof. reflexivity. Qed.

Lemma event_delta now i d st : event_chunks now (indexed "content_block_delta" i [("delta", d)]) st =
  (match delta_of st (indexed "content_block_delta" i [("delta", d)]) with Some x => [delta_chunk now st x] | None => [] end, st).
Proof. reflexivity. Qed.

Lemma got_text_deltas now i ps k : forall r st,
  got now r (map (fun d => indexed "content_block_delta" i [("delta", d)]) (block_deltas (SText ps)) ++ k) st
  = got now (receive_block (SText ps) r) k st.
Proof.
  induction ps as [|p ps IH]; intros r st; cbn [block_deltas map app receive_block cat foldr].
  - by rewrite string_app_nil, receive_eta.
  - rewrite got_cons, event_delta. cbn [fst snd].
    change (delta_of _ _) with (Some (JObj [("content", JStr p ||| JStr "")])). cbv iota. cbn [foldl].
    rewrite receive_delta, or_empty_str. etransitivity; [apply IH|]. cbn [receive_block got_text got_tools got_finish].
    change (JObj [("content", JStr p)]?."content") with (JStr p). by rewrite str_or_empty_str, string_app_assoc.
Qed.

Lemma got_thinking_deltas now i ps signature k : forall r st,
  got now r (map (fun d => indexed "content_block_delta" i [("delta", d)]) (block_deltas (SThinking ps signature)) ++ k) st = got now r k st.
Proof.
  induction ps as [|p ps IH]; intros r st.
  { destruct signature as [s|]; [|done]. cbn [block_deltas map app]. rewrite got_cons, event_delta. cbn [fst snd].
    unfold delta_of. change (indexed ?a ?b [("delta", ?d)]?."delta") with d. change (is_str _ "text_delta") with false. change (is_str _ "thinking_delta") with false.
    change (is_str (JObj _?."type") "signature_delta") with true. change (is_str _ "input_json_delta") with false. change (is_str _ "refusal_delta") with false.
    cbn [andb]. destruct (truthy _); [|done]. cbn [foldl]. rewrite receive_delta. change (str_or_empty _) with EmptyString. rewrite string_app_nil.
    cbn [get assoc String.eqb arr_of foldl]. by rewrite receive_eta. }
  cbn [block_deltas map app]. rewrite got_cons, event_delta. cbn [fst snd].
  change (delta_of _ _) with (Some (JObj [("reasoning_content", JStr p ||| JStr "")])). cbv iota. cbn [foldl].
  rewrite receive_delta. change (str_or_empty _) with EmptyString. rewrite string_app_nil. cbn [get assoc String.eqb arr_of foldl].
  rewrite receive_eta. apply IH.
Qed.

Lemma receive_arguments tools id name a i p : i = length tools ->
  receive_tool (tools ++ [(id, name, a)]) (JObj [("index", jint (Z.of_nat i)); ("function", JObj [("arguments", JStr p)])])
  = tools ++ [(id, name, a ++ p)%string].
Proof.
  intros ->. unfold receive_tool. change (JObj _?."index") with (jint (Z.of_nat (length tools))).
  change ((JObj _?."function")?."arguments") with (JStr p). rewrite js_nat_index, list_lookup_middle by done.
  rewrite insert_app_r_alt by done. rewrite Nat.sub_diag. cbn [insert list_insert]. by rewrite str_or_empty_str.
Qed.

Lemma got_tool_deltas now i id name input ps k st text tools finish : tool_index (toolMap st) (jint (Z.of_nat i)) = length tools ->
  forall a,
  got now {| got_text := text; got_tools := tools ++ [(JStr id, JStr name, a)]; got_finish := finish |}
    (map (fun d => indexed "content_block_delta" i [("delta", d)]) (block_deltas (STool id name input ps)) ++ k) st
  = got now {| got_text := text; got_tools := tools ++ [(JStr id, JStr name, a ++ cat ps)%string]; got_finish := finish |} k st.
Proof.
  intros Hi. induction ps as [|p ps IH]; intros a; cbn [block_deltas map app cat foldr]; [by rewrite string_app_nil|].
  rewrite got_cons, event_delta. cbn [fst snd].
  change (delta_of _ _) with (Some (tool_arguments_delta (tool_index (toolMap st) (jint (Z.of_nat i))) (JStr p ||| JStr ""))).
  cbv iota. cbn [foldl]. rewrite receive_delta, Hi, or_empty_str. cbn [got_text got_tools got_finish].
  change (str_or_empty _) with EmptyString at 1. rewrite string_app_nil. unfold tool_arguments_delta.
  change (arr_of (JObj [("tool_calls", ?x)]?."tool_calls")) with (arr_of x). cbn [arr_of foldl].
  rewrite receive_arguments by done. etransitivity; [apply IH|]. by rewrite string_app_assoc.
Qed.

Lemma same_index i : same_value (jint i) (jint i) = true.
Proof. unfold jint, num_of_Z, same_value. cbn [num_eqb]. by apply Qeq_bool_iff. Qed.

Lemma receive_call tools i id name : i = length tools ->
  foldl receive_tool tools (arr_of ((tool_start_delta i (JObj [("type", JStr "tool_use"); ("id", JStr id); ("name", JStr name); ("input", JObj [])]))?."tool_calls"))
  = tools ++ [(JStr id, JStr name, EmptyString)].
Proof.
  intros ->. unfold tool_start_delta. change (arr_of (JObj [("tool_calls", ?x)]?."tool_calls")) with (arr_of x). cbn [arr_of foldl].
  unfold receive_tool. change (js_nat _) with (js_nat (jint (Z.of_nat (length tools)))). rewrite js_nat_index.
  by rewrite lookup_ge_None_2 by lia.
Qed.

Lemma got_stop now i r k st : got now r (indexed "content_block_stop" i [] :: k) st = got now r k st.
Proof. by rewrite got_cons. Qed.

Lemma got_block now i b r k st : toolIndex st = length (got_tools r) ->
  exists st', got now r (block_events i b ++ k) st = got now (receive_block b r) k st' /\
    toolIndex st' = length (got_tools (receive_block b r)).
Proof.
  intros Hi. unfold block_events. rewrite <- !(assoc_L app). cbn [app]. rewrite got_cons.
  destruct b as [ps|ps signature|id name input ps].
  - change (event_chunks _ _ st) with (([], st) : list jsval * chat_state). cbn [fst snd foldl].
    exists st. rewrite got_text_deltas, got_stop. done.
  - change (event_chunks _ _ st) with ([delta_chunk now st (JObj [("reasoning_content", JStr "")])], st). cbn [fst snd foldl].
    rewrite receive_delta. change (str_or_empty _) with EmptyString. rewrite string_app_nil. cbn [get assoc String.eqb arr_of foldl].
    rewrite receive_eta. exists st. rewrite got_thinking_deltas, got_stop. done.
  - eexists. split; cycle 1.
    + cbn [receive_block got_tools]. rewrite length_app, <- Hi. cbn [length].
      instantiate (1 := {| cs_id := cs_id st; cs_model := cs_model st; toolIndex := S (toolIndex st);
        toolMap := map_tool (jint (Z.of_nat i)) (toolIndex st) (toolMap st); sentRole := sentRole st; cs_buf := cs_buf st |}).
      cbn [toolIndex]. lia.
    + change (event_chunks _ _ st) with ([delta_chunk now st (tool_start_delta (toolIndex st) (block_start (STool id name input ps)))],
        {| cs_id := cs_id st; cs_model := cs_model st; toolIndex := S (toolIndex st);
           toolMap := map_tool (jint (Z.of_nat i)) (toolIndex st) (toolMap st); sentRole := sentRole st; cs_buf := cs_buf st |}).
      cbn [fst snd foldl]. rewrite receive_delta. change (str_or_empty _) with EmptyString. rewrite string_app_nil.
      cbn [block_start]. rewrite receive_call by done. rewrite got_tool_deltas; [by rewrite got_stop|].
      cbn [toolMap]. unfold tool_index, map_tool. cbn [List.find fst]. by rewrite same_index.
Qed.

Lemma got_blocks now bs k : forall i r st, toolIndex st = length (got_tools r) ->
  exists st', got now r (blocks_events i bs ++ k) st = got now (foldl (fun r b => receive_block b r) r bs) k st'.
Proof.
  induction bs as [|b bs IH]; intros i r st Hi; [by exists st|]. cbn [blocks_events foldl]. rewrite <- (assoc_L app).
  destruct (got_block now i b r (blocks_events (S i) bs ++ k) st Hi) as (st1 & -> & Hi1). by apply IH.
Qed.

(** What the client of a whole stream has. *)
Lemma got_pinged now l l' k : pinged l l' -> forall r st, got now r (l' ++ k) st = got now r (l ++ k) st.
Proof. induction 1 as [|e l l' _ IH|l l' _ IH]; intros r st; [done| |]; cbn [app]; rewrite !got_cons; apply IH. Qed.

Lemma got_stream now message bs stop usage events random model :
  Forall object_value (stream_events message events) -> pinged (body_events bs stop usage) events ->
  received_from (chat_chunks now (sse_lines (stream_events message events)) (createOpenAIChatStreamState random model))
  = let r := foldl (fun r b => receive_block b r) nothing bs in
    {| got_text := got_text r; got_tools := got_tools r; got_finish := JStr (claudeStopReasonToOpenAIFinish (JStr stop)) |}.
Proof.
  intros Ho Hp. rewrite chat_chunks_events by done. set (st0 := createOpenAIChatStreamState random model).
  assert (E : received_from (events_chunks now (stream_events message events) st0).1
    = (got now nothing (stream_events message events) st0).1).
  { unfold got, received_from. by destruct (events_chunks _ _ _). }
  rewrite E. unfold stream_events. rewrite got_cons.
  change (event_chunks _ _ st0) with ([delta_chunk now st0 (JObj [("role", JStr "assistant"); ("content", JStr "")])],
    {| cs_id := cs_id st0; cs_model := cs_model st0; toolIndex := 0; toolMap := []; sentRole := true; cs_buf := "" |}).
  cbn [fst snd foldl]. rewrite receive_delta, (got_pinged now _ _ _ Hp). unfold body_events. rewrite <- (assoc_L app). cbn [app].
  destruct (got_blocks now bs [JObj [("type", JStr "message_delta"); ("delta", JObj [("stop_reason", JStr stop)]); ("usage", usage)];
    message_stop] 0 nothing
    {| cs_id := cs_id st0; cs_model := cs_model st0; toolIndex := 0; toolMap := []; sentRole := true; cs_buf := "" |} eq_refl) as [st' E2].
  etransitivity; [apply (f_equal fst E2)|]. rewrite got_cons. set (r := foldl _ nothing bs). clearbody r.
  change (event_chunks now _ st') with ([JObj (chunk now (cs_id st') (cs_model st') (JObj []) (JStr (claudeStopReasonToOpenAIFinish (JStr stop)))
    ++ [("usage", if truthy usage then chatUsage usage else JUndef)])], st').
  transitivity (receive r (JObj (chunk now (cs_id st') (cs_model st') (JObj []) (JStr (claudeStopReasonToOpenAIFinish (JStr stop)))
    ++ [("usage", if truthy usage then chatUsage usage else JUndef)]))); [done|].
  unfold receive. cbv zeta. f_equal. change (str_or_empty _) with EmptyString. apply string_app_nil.
Qed.

(** ** The two answers *)

Definition block_text (b : sblock) : string := match b with SText ps => cat ps | _ => "" end.
Definition block_tools (b : sblock) : list (jsval * jsval * string) :=
  match b with STool id name _ ps => [(JStr id, JStr name, cat ps)] | _ => [] end.

Lemma received_blocks bs : forall r, let r' := foldl (fun r b => receive_block b r) r bs in
  got_text r' = (got_text r ++ cat (map block_text bs))%string /\ got_tools r' = got_tools r ++ flat_map block_tools bs.
Proof.
  induction bs as [|b bs IH]; intros r; cbn [foldl map cat foldr flat_map]; [by rewrite string_app_nil, app_nil_r|].
  destruct (IH (receive_block b r)) as [-> ->]. fold (cat (map block_text bs)).
  destruct b; cbn [receive_block got_text got_tools block_text block_tools app]; rewrite ?string_app_assoc, <- ?(assoc_L app); done.
Qed.

Lemma join_cat l : join "" l = cat l.
Proof.
  induction l as [|s [|t l] IH]; [done|cbn; by rewrite string_app_nil|].
  transitivity (s ++ "" ++ join "" (t :: l))%string; [done|]. by rewrite IH.
Qed.

Lemma final_texts bs : join_parts (text_parts (map final_block bs)) = cat (map block_text bs).
Proof.
  unfold join_parts. rewrite join_cat. induction bs as [|b bs IH]; [done|].
  destruct b as [ps|ps signature|id name input ps]; [|destruct signature as [s|]; [cbn [map final_block signed]; destruct (nonempty s)|]; exact IH|
    destruct ps; [|cbn [map final_block]; destruct (nonempty _)]; exact IH].
  change (text_parts (map final_block (SText ps :: bs))) with ((JStr (cat ps) ||| JStr "") :: text_parts (map final_block bs)).
  cbn [map cat foldr block_text]. fold (cat (map block_text bs)). rewrite <- IH, or_empty_str. done.
Qed.

Lemma final_thinking ps signature : exists f, final_block (SThinking ps signature) = JObj (("type", JStr "thinking") :: f) /\
  assoc "text" f = JUndef /\ assoc "refusal" f = JUndef.
Proof.
  cbn [final_block]. destruct signature as [s|]; cbn [signed]; [destruct (nonempty s)|]; (eexists; split; [reflexivity|done]).
Qed.
Lemma final_tool id name input ps : block_ok (STool id name input ps) -> exists f,
  final_block (STool id name input ps) = JObj ([("type", JStr "tool_use"); ("id", JStr id); ("name", JStr name); ("input", input)] ++ f) /\
  assoc "text" f = JUndef /\ assoc "refusal" f = JUndef.
Proof.
  intros [Ho Hc]. cbn [final_block]. destruct ps as [|p ps]; [by exists []|]. destruct (nonempty _) eqn:En; [by exists []|].
  unfold nonempty in En. destruct (String.eqb_spec (cat (p :: ps)) "") as [Es|Es]; [|done]. destruct Hc as [Hc|[_ ->]]; [by rewrite Es in Hc|].
  by exists [("_inputJson", JStr "")].
Qed.
Lemma final_calls bs : Forall block_ok bs -> Forall2 same_call (flat_map block_tools bs) (tool_calls (map final_block bs)).
Proof.
  intros Hb. induction Hb as [|b bs Hb _ IH]; [constructor|]. destruct b as [ps|ps signature|id name input ps]; [exact IH| |].
  { destruct (final_thinking ps signature) as (f & Ef & _). cbn [map flat_map block_tools app]. rewrite Ef. exact IH. }
  destruct (final_tool _ _ _ _ Hb) as (f & Ef & _). cbn [map flat_map block_tools app]. rewrite Ef. destruct Hb as [Ho Hc].
  change (tool_calls (JObj ([("type", JStr "tool_use"); ("id", JStr id); ("name", JStr name); ("input", input)] ++ f) :: map final_block bs))
    with (chat_tool_call (JObj ([("type", JStr "tool_use"); ("id", JStr id); ("name", JStr name); ("input", input)] ++ f)) :: tool_calls (map final_block bs)).
  constructor; [|exact IH]. exists input. split; [done|]. split; [|exact Hc]. destruct input; try discriminate Ho. reflexivity.
Qed.

Lemma final_readable bs : Forall block_ok bs -> readable (map final_block bs) = true.
Proof.
  intros Hb. apply forallb_forall. intros x Hx. apply in_map_iff in Hx as (b & <- & Hin). apply list_elem_of_In in Hin.
  rewrite Forall_forall in Hb. specialize (Hb b Hin). destruct b as [ps|ps signature|id name input ps]; [done| |].
  - by destruct (final_thinking ps signature) as (f & -> & _).
  - by destruct (final_tool _ _ _ _ Hb) as (f & -> & _).
Qed.

Lemma no_refusal_text m bs : Forall block_ok bs -> m?."content" = JArr (map final_block bs) -> claudeRefusalText m = Some JNull.
Proof.
  intros Hb Hc. unfold claudeRefusalText. rewrite Hc. cbn [iter_or_empty truthy negb mbind option_bind].
  replace (List.filter truthy (map refusal_part (map final_block bs))) with (@nil jsval); [done|].
  clear Hc. induction Hb as [|b bs Hb _ IH]; [done|]. cbn [map List.filter].
  assert (H : truthy (refusal_part (final_block b)) = false).
  { destruct b as [ps|ps signature|id name input ps]; [done| |].
    - by destruct (final_thinking ps signature) as (f & -> & _).
    - by destruct (final_tool _ _ _ _ Hb) as (f & -> & _). }
  by rewrite H.
Qed.

Lemma chat_message_final m bs stop : Forall block_ok bs -> m?."content" = JArr (map final_block bs) -> m?."stop_reason" = JStr stop -> stop <> "refusal" ->
  exists msg, chat_message m (map final_block bs) = Some msg /\
    msg?."content" = JStr (join_parts (text_parts (map final_block bs))) ||| JNull /\
    arr_of (msg?."tool_calls") = tool_calls (map final_block bs).
Proof.
  intros Hb Hc Hs Hr. unfold chat_message, applyOpenAIRefusalFields. rewrite (no_refusal_text m bs Hb Hc). cbn [mbind option_bind].
  assert (Hrf : isClaudeRefusalStop m = false).
  { unfold isClaudeRefusalStop. rewrite Hs, str_or_empty_str. by apply String.eqb_neq. }
  rewrite Hrf. cbn [andb set_if]. change (truthy JNull) with false. cbn [set_if]. eexists. split; [reflexivity|].
  generalize (claudeThinkingToOpenAIReasoning m). intros reasoning. set (base := JObj _).
  set (first := match reasoning with Some r => with_field base "reasoning_content" (JStr r) | None => base end).
  assert (Hf : first?."content" = JStr (join_parts (text_parts (map final_block bs))) ||| JNull /\ first?."tool_calls" = JUndef).
  { unfold first. destruct reasoning; [rewrite !get_with_field_ne by done|]; done. }
  destruct Hf as [Hf1 Hf2]. destruct (tool_calls (map final_block bs)) as [|c cs] eqn:Et; [split; [done|by rewrite Hf2]|].
  destruct (text_parts (map final_block bs)) as [|t ts] eqn:Ex.
  - rewrite get_with_field_eq, get_with_field_ne, get_with_field_eq by done. done.
  - rewrite get_with_field_ne, get_with_field_eq by done. done.
Qed.

Lemma object_literal f : NoDup (map fst f) -> foldr (fun p P => json_value p.2 /\ P) True f -> object_value (JObj f).
Proof. done. Qed.

Ltac keys_distinct := apply (bool_decide_unpack _); vm_compute; exact I.

Lemma block_event_values i b : block_ok b -> Forall object_value (block_events i b).
Proof.
  intros Hb. unfold block_events. assert (Hz : json_value (jint (Z.of_nat i))) by (by exists (Z.of_nat i)).
  apply Forall_app; split; [|apply Forall_app; split].
  - apply Forall_cons; split; [|done]. apply object_literal; [keys_distinct|].
    destruct b; cbn; repeat split; (done || keys_distinct).
  - apply Forall_forall. intros e He. apply list_elem_of_fmap in He as (d & -> & Hd).
    apply object_literal; [keys_distinct|]. split; [done|]. split; [done|]. split; [|done].
    destruct b as [ps|ps signature|id name input ps]; cbn [block_deltas] in Hd; rewrite ?elem_of_app in Hd.
    + apply list_elem_of_fmap in Hd as (p & -> & _). split; (done || keys_distinct).
    + destruct Hd as [Hd|Hd]; [apply list_elem_of_fmap in Hd as (p & -> & _); split; (done || keys_distinct)|].
      destruct signature; [apply list_elem_of_singleton in Hd as ->; split; (done || keys_distinct)|by apply not_elem_of_nil in Hd].
    + apply list_elem_of_fmap in Hd as (p & -> & _). split; (done || keys_distinct).
  - apply Forall_cons; split; [|done]. apply object_literal; [keys_distinct|]. done.
Qed.

Lemma blocks_event_values bs : forall i, Forall block_ok bs -> Forall object_value (blocks_events i bs).
Proof.
  induction bs as [|b bs IH]; intros i Hb; [constructor|]. apply Forall_cons in Hb as [Hb Hbs]. cbn [blocks_events].
  apply Forall_app. split; [by apply block_event_values|by apply IH].
Qed.

Lemma pinged_values l l' : pinged l l' -> Forall object_value l -> Forall object_value l'.
Proof.
  induction 1 as [|e l l' _ IH|l l' _ IH]; intros H; [constructor| |].
  - apply Forall_cons in H as [H1 H2]. constructor; [done|by apply IH].
  - constructor; [|by apply IH]. apply object_literal; [keys_distinct|done].
Qed.
Lemma stream_values message bs stop usage events : object_value message -> Forall block_ok bs -> json_value usage ->
  pinged (body_events bs stop usage) events -> Forall object_value (stream_events message events).
Proof.
  intros Hm Hb Hu Hp. unfold stream_events. apply Forall_cons; split; [|apply Forall_app; split].
  - apply object_literal; [keys_distinct|]. split; [done|]. split; [apply Hm|done].
  - apply (pinged_values _ _ Hp). apply Forall_app. split; [by apply blocks_event_values|]. apply Forall_singleton.
    apply object_literal; [keys_distinct|]. split; [done|]. split; [|done]. split; [keys_distinct|done].
  - apply Forall_singleton. apply object_literal; [keys_distinct|done].
Qed.


Lemma pinged_refl l : pinged l l.
Proof. induction l; by constructor. Qed.

(** A tool call without arguments: the provider sends no piece of JSON, so the streaming client
    is left with empty arguments where the other one gets an empty object. *)
Definition no_argument_stream : list string :=
  sse_lines (stream_events (JObj [("content", JArr [])]) (body_events [STool "t" "Read" (JObj []) []] "tool_use" (JObj []))).
Example empty_arguments_differ :
  got_tools (received_from (chat_chunks 0 no_argument_stream (createOpenAIChatStreamState "r" JNull))) = [(JStr "t", JStr "Read", "")] /\
  option_map (fun m => m?."content") (Some (assembled no_argument_stream))
    = Some (JArr [JObj [("type", JStr "tool_use"); ("id", JStr "t"); ("name", JStr "Read"); ("input", JObj [])]]).
Proof. split; vm_compute; reflexivity. Qed.

(** The events of a Responses stream. *)
Fixpoint responses_events (random : string) (lines : list string) (st : responses_state) : list jsval :=
  match lines with
  | [] => []
  | line :: r => let '(es, st') := claudeSSELineToResponsesEvents random line st in es ++ responses_events random r st'
  end.
Definition output_types (response : jsval) : list string := map (fun item => to_string (item?."type")) (arr_of (response?."output")).

(** A Responses client that streams never sees the tool calls; the one that does not gets them. *)
Example responses_stream_loses_tools :
  (output_types ((List.last (responses_events "r" sample_stream (createResponsesStreamState "s" JNull)) JUndef)?."response"),
   option_map output_types (fromClaudeToResponses 0 "a" "b" (assembled sample_stream) JNull))
  = (["message"], Some ["message"; "function_call"; "function_call"; "function_call"]).
Proof. vm_compute. reflexivity. Qed.
