(* ===== verification/AnthropicPolicy.v ===== *)
(** * The last shaping of a Messages request (src/src/lib/protocol/anthropic-policy.mjs)

    Empty and unsigned blocks are dropped, sampling is aligned with thinking, the number of
    cache markers is limited, and tool names the provider refuses are replaced and restored
    in the answer.  [prepareAnthropicRequest] is modelled for [unofficial] false.  [None] is a
    thrown TypeError; [sha256] is the hex digest of [crypto.createHash('sha256')].  The blocks
    of a request are assumed not to be shared between two places of it. *)

From S2P Require Import Prelude.
From S2P Require Import JsValue.
From S2P Require Import JsText.
From S2P Require Import JsJson.
From S2P Require Import JsonParse.
From S2P Require Import ModelPolicy.
From S2P Require Import WebSearch.
From S2P Require Import CacheTtl.
From S2P Require Import Rectifier.
From S2P Require Import Thinking.
From S2P Require Import Sanitize.
From S2P Require Import Images.
From S2P Require Import Convert.
#[local] Open Scope string_scope.
#[local] Open Scope list_scope.
#[local] Open Scope js_scope.

(** ** Empty blocks *)

Definition emptyText (block : jsval) : bool := is_str (block?."type") "text" && String.eqb (str_or_empty (block?."text")) "".

Definition isZeroInjectEmptyIdentity (system : jsval) (index : nat) (block : jsval) : bool :=
  (index =? 1)%nat && emptyText block &&
  (let first := get_at system 0 in
   let text := match first with JStr s => s | _ => str_or_empty (first?."text") end in
   starts_with "x-anthropic-billing-header:" (to_lower (trim_start text))).

(** The inner call of [cleanContent], on contents that are stripped already. *)
Fixpoint clean_nested (content : jsval) : jsval :=
  match content with
  | JArr l =>
    JArr (List.filter (fun b => negb (emptyText b)) (map (fun block =>
      match block with
      | JObj f =>
        if is_str (assoc "type" f) "tool_result" && is_array (assoc "content" f)
        then JObj (map (fun p => (p.1, if String.eqb p.1 "content" then clean_nested p.2 else p.2)) f)
        else block
      | _ => block
      end) l))
  | _ => content
  end.
Definition clean_block (block : jsval) : jsval :=
  if is_obj block && is_str (block?."type") "tool_result" && is_array (block?."content")
  then with_field block "content" (clean_nested (block?."content")) else block.

Definition cleanContent (content : jsval) (keepEmptyIdentity : bool) : jsval :=
  match stripIllegalContentFields content with
  | JArr l =>
    JArr (concat (imap (fun i b => if negb (emptyText b) || (keepEmptyIdentity && isZeroInjectEmptyIdentity content i b) then [b] else [])
                       (map clean_block l)))
  | _ => content
  end.

(** ** Cache markers *)

Inductive location := LTool (i : nat) | LSystem (i : nat) | LMessage (i j : nat).
#[export] Instance location_eq_dec : EqDecision location.
Proof. solve_decision. Defined.

Definition is_tool (l : location) : bool := match l with LTool _ => true | _ => false end.
Definition is_system (l : location) : bool := match l with LSystem _ => true | _ => false end.
Definition is_message (l : location) : bool := match l with LMessage _ _ => true | _ => false end.

(** [(v || []).entries()] *)
Definition list_or_empty (v : jsval) : option (list jsval) :=
  if truthy v then match v with JArr l => Some l | _ => None end else Some [].

Definition marker (b : jsval) : bool := truthy (b?."cache_control").
Definition marked (f : nat -> location) (l : list jsval) : list location :=
  concat (imap (fun i b => if marker b then [f i] else []) l).
Definition message_marks (ms : list jsval) : list location :=
  concat (imap (fun i m => marked (LMessage i) (arr_of (m?."content"))) ms).

Definition cacheControlLocations (body : jsval) : option (list location) :=
  tools ← list_or_empty (body?."tools");
  messages ← list_or_empty (body?."messages");
  Some (marked LTool tools ++ marked LSystem (arr_of (body?."system")) ++ message_marks messages).

Definition block_at (body : jsval) (l : location) : jsval :=
  match l with
  | LTool i => get_at (body?."tools") i
  | LSystem i => get_at (body?."system") i
  | LMessage i j => get_at ((get_at (body?."messages") i)?."content") j
  end.

(** [delete location.block.cache_control] for every location of [ds]. *)
Definition unmark (ds : list location) (f : nat -> location) (l : list jsval) : list jsval :=
  imap (fun i b => if bool_decide (f i ∈ ds) then without b "cache_control" else b) l.
Definition unmark_message (ds : list location) (i : nat) (m : jsval) : jsval :=
  match m?."content" with JArr l => with_field m "content" (JArr (unmark ds (LMessage i) l)) | _ => m end.
Definition set_array (k : string) (f : list jsval -> list jsval) (body : jsval) : jsval :=
  match body?.k with JArr l => with_field body k (JArr (f l)) | _ => body end.
Definition unmark_body (ds : list location) (body : jsval) : jsval :=
  set_array "messages" (imap (unmark_message ds)) (set_array "system" (unmark ds LSystem) (set_array "tools" (unmark ds LTool) body)).

(** Tools from the last, then messages from the first, then system blocks from the last. *)
Definition sacrifice_order (live : list location) : list location :=
  rev (List.filter is_tool live) ++ List.filter is_message live ++ rev (List.filter is_system live).

Definition enforceCacheLimit (body : jsval) (maximum : nat) : option jsval :=
  locations ← cacheControlLocations body;
  let thinking := List.filter (fun l => is_str ((block_at body l)?."type") "thinking") locations in
  let body := unmark_body thinking body in
  let live := List.filter (fun l => marker (block_at body l)) locations in
  if (length live <=? maximum)%nat then Some body
  else Some (unmark_body (take (length live - maximum) (sacrifice_order live)) body).

(** ** Thinking *)

Definition DUMMY_THINKING_SIGNATURES : list string := [""; "skip_thought_signature_validator"].
Definition hasUsableThinkingSignature (signature : jsval) : bool :=
  let value := trim (str_or_empty signature) in
  negb (String.eqb value "") && negb (String.length value <? 24)%nat && negb (mem value DUMMY_THINKING_SIGNATURES).

Definition thinkingModeEnabled (body : jsval) : bool :=
  let type := to_lower (str_or_empty ((body?."thinking")?."type")) in
  String.eqb type "enabled" || String.eqb type "adaptive".

Definition alignSamplingWithThinking (body : jsval) : jsval :=
  if negb (thinkingModeEnabled body) then body
  else without (without (with_field body "temperature" (jint 1)) "top_p") "top_k".

Definition keep_block (keepSigned : bool) (message block : jsval) : bool :=
  let thinking := is_str (block?."type") "thinking" in
  if thinking || is_str (block?."type") "redacted_thinking" then
    keepSigned && is_str (message?."role") "assistant" &&
    negb (thinking && negb (nonempty (trim (str_or_empty (block?."thinking"))))) && hasUsableThinkingSignature (block?."signature")
  else true.
Definition stripInvalidThinkingBlocks (body : jsval) : jsval :=
  map_messages (fun message =>
    match message?."content" with
    | JArr l => with_field message "content" (JArr (List.filter (keep_block (thinkingModeEnabled body) message) l))
    | _ => message
    end) body.

Definition CLEAR_THINKING_EDIT : jsval := JObj [("type", JStr "clear_thinking_20251015"); ("keep", JStr "all")].
Definition CONTEXT_MANAGEMENT_BETA : string := "context-management-2025-06-27".
Definition PROMPT_CACHING_SCOPE_BETA : string := "prompt-caching-scope-2026-01-05".
Definition MID_CONVERSATION_SYSTEM_BETA : string := "mid-conversation-system-2026-04-07".

Definition names_haiku (modelId : jsval) : bool := includes (to_lower (str_or_empty modelId)) "haiku".
Definition modelSupportsMidConversationSystem (modelId : jsval) : bool := negb (names_haiku modelId).

Definition anthropicBetaTokensContains (header : jsval) (token : string) : bool :=
  truthy header && negb (String.eqb token "") && mem token (map trim (split_char "," (to_string header))).

Section policy.
Variable policy : jsval.

Definition modelSupportsContextManagement (modelId : jsval) : bool :=
  negb (is_bool (getCapabilities policy modelId?."supports_context_management") false) && negb (names_haiku modelId).

Definition ensureClearThinkingContextManagement (body : jsval) : jsval :=
  if negb (thinkingModeEnabled body) then body
  else if negb (modelSupportsContextManagement (body?."model")) then
    if is_nullish (body?."context_management") then body else without body "context_management"
  else if is_nullish (body?."context_management")
  then with_own body "context_management" (JObj [("edits", JArr [CLEAR_THINKING_EDIT])]) else body.

Definition sanitizeAnthropicBodyForBetaTokens (body anthropicBetaHeader : jsval) : option jsval :=
  if negb (is_object body) then Some body
  else
    let has := anthropicBetaTokensContains anthropicBetaHeader in
    let out := if has_own body "context_management" && negb (has CONTEXT_MANAGEMENT_BETA) then without body "context_management" else body in
    let out := if has PROMPT_CACHING_SCOPE_BETA then out else stripCacheScopeFields out in
    let allowMidSystem := modelSupportsMidConversationSystem (out?."model") && has MID_CONVERSATION_SYSTEM_BETA in
    let speaks_system := existsb (fun message =>
      let role := to_lower (trim (str_or_empty (message?."role"))) in String.eqb role "system" || String.eqb role "developer")
      (arr_of (out?."messages")) in
    if negb allowMidSystem && speaks_system then liftMidConversationSystemMessages out else Some out.

Definition ensureClaudeOAuthBodyDefaults (body : jsval) : jsval :=
  let out := if is_object body then body else JObj [] in
  let out := if is_nullish (out?."temperature") then with_field out "temperature" (jint 1) else out in
  let out := if is_array (out?."tools") then out else with_field out "tools" (JArr []) in
  match out?."tools" with
  | JArr [] => if truthy (out?."tool_choice") then without out "tool_choice" else out
  | _ => out
  end.

(** [{ ...message, content: cleanContent(normalizeImageContentBlocks(message?.content)) }] *)
Definition clean_message (message : jsval) : option jsval :=
  content ← normalizeImageContentBlocks (message?."content");
  Some (with_own message "content" (cleanContent content false)).

(** [breakpoints]: the cache configuration, when the caller passes one, with the TTL and the inbound request. *)
Definition prepareAnthropicRequest (body : jsval) (cacheControlLimit : nat) (breakpoints : option (jsval * jsval * jsval)) : option jsval :=
  if match body with JNull => true | _ => false end then None
  else
  let out := ensureOutputConfigSchema (applyMaxTokensCap policy (normalizeThinkingForModel policy body)) in
  let out := if is_array (out?."system") then with_field out "system" (cleanContent (out?."system") true) else out in
  out ← match out?."messages" with
        | JArr l => l' ← mapM clean_message l; Some (with_field out "messages" (JArr l'))
        | _ => Some out
        end;
  let out := ensureClearThinkingContextManagement (stripInvalidThinkingBlocks out) in
  let out := ensureClaudeOAuthBodyDefaults (alignSamplingWithThinking out) in
  out ← match breakpoints with
        | Some (ttl, config, inbound) => applyCacheBreakpoints out ttl config inbound
        | None => Some out
        end;
  enforceCacheLimit out cacheControlLimit.
End policy.

Example cache_limit_ex :
  let mark := JObj [("cache_control", JObj [])] in
  let body := JObj [("tools", JArr [mark; mark]); ("system", JArr [mark; JStr "x"; mark]);
                    ("messages", JArr [JObj [("content", JArr [mark; JObj [("type", JStr "thinking"); ("cache_control", JObj [])]])]; JObj [("content", JArr [mark])]])] in
  (out ← enforceCacheLimit body 3; cacheControlLocations out) = Some [LSystem 0; LSystem 2; LMessage 1 0].
Proof. vm_compute. reflexivity. Qed.

(** ** The limit on cache markers holds *)

Definition kept (ds : list location) (l : location) : bool := bool_decide (l ∉ ds).

Lemma marked_cons f b l : marked f (b :: l) = (if marker b then [f 0%nat] else []) ++ marked (f ∘ S) l.
Proof. reflexivity. Qed.
Lemma unmark_cons ds f b l : unmark ds f (b :: l) = (if bool_decide (f 0%nat ∈ ds) then without b "cache_control" else b) :: unmark ds (f ∘ S) l.
Proof. reflexivity. Qed.

Lemma marked_unmark ds l : forall f, marked f (unmark ds f l) = List.filter (kept ds) (marked f l).
Proof.
  induction l as [|b l IH]; intros f; [done|]. rewrite unmark_cons, !marked_cons, List.filter_app, IH. f_equal.
  destruct (bool_decide (f 0%nat ∈ ds)) eqn:E.
  - unfold marker at 1. rewrite get_without_eq. cbn [truthy]. destruct (marker b); [|done]. cbn [List.filter]. unfold kept.
    apply bool_decide_eq_true in E. by rewrite bool_decide_false by tauto.
  - destruct (marker b); [|done]. cbn [List.filter]. unfold kept. apply bool_decide_eq_false in E. by rewrite bool_decide_true by done.
Qed.

Lemma elem_of_marked l : forall f x, x ∈ marked f l <-> exists i, x = f i /\ marker (nth i l JUndef) = true.
Proof.
  induction l as [|b l IH]; intros f x.
  - split; [inversion 1|]. intros ([|i] & _ & H); discriminate H.
  - rewrite marked_cons, elem_of_app, IH. split.
    + intros [H|(i & -> & H)]; [|by exists (S i)]. exists 0%nat. destruct (marker b) eqn:E; [|inversion H]. apply list_elem_of_singleton in H. done.
    + intros ([|i] & -> & H); [left; cbn in H; rewrite H; set_solver|right; by exists i].
Qed.

Lemma marked_nodup l : forall f, (forall i j, f i = f j -> i = j) -> NoDup (marked f l).
Proof.
  induction l as [|b l IH]; intros f Hf; [constructor|]. rewrite marked_cons. apply NoDup_app. split_and!.
  - destruct (marker b); [apply NoDup_singleton|constructor].
  - intros x Hx Hm. apply elem_of_marked in Hm as (i & -> & _). destruct (marker b); [|inversion Hx].
    apply list_elem_of_singleton in Hx. cbn in Hx. apply Hf in Hx. discriminate.
  - apply IH. intros i j H. cbn in H. apply Hf in H. lia.
Qed.

(** The marks of messages numbered from [k]. *)
Definition marks_from (k : nat) (ms : list jsval) : list location :=
  concat (imap (fun i m => marked (LMessage (k + i)) (arr_of (m?."content"))) ms).
Lemma marks_from_cons k m ms : marks_from k (m :: ms) = marked (LMessage k) (arr_of (m?."content")) ++ marks_from (S k) ms.
Proof. unfold marks_from. rewrite imap_cons. cbn [concat]. rewrite Nat.add_0_r. f_equal. f_equal. apply imap_ext. intros i x _. cbn. do 2 f_equal. lia. Qed.
Lemma message_marks_from ms : message_marks ms = marks_from 0 ms.
Proof. done. Qed.

Lemma elem_of_marks ms : forall k x, x ∈ marks_from k ms <-> exists i j, x = LMessage (k + i) j /\ marker (get_at ((nth i ms JUndef)?."content") j) = true.
Proof.
  assert (Hg : forall v j, get_at v j = nth j (arr_of v) JUndef) by (intros [] []; done).
  induction ms as [|m ms IH]; intros k x.
  - split; [inversion 1|]. intros ([|i] & j & _ & H); destruct j; discriminate H.
  - rewrite marks_from_cons, elem_of_app, elem_of_marked, IH. split.
    + intros [(j & -> & H)|(i & j & -> & H)]; [exists 0%nat, j; rewrite Nat.add_0_r, Hg; done|exists (S i), j; split; [f_equal; lia|done]].
    + intros ([|i] & j & -> & H); [left; exists j; rewrite Nat.add_0_r, Hg in *; done|right; exists i, j; split; [f_equal; lia|done]].
Qed.

Lemma marks_nodup ms : forall k, NoDup (marks_from k ms).
Proof.
  induction ms as [|m ms IH]; intros k; [constructor|]. rewrite marks_from_cons. apply NoDup_app. split_and!; [| |apply IH].
  - apply marked_nodup. by intros i j [= ->].
  - intros x Hx Hm. apply elem_of_marked in Hx as (j & -> & _). apply elem_of_marks in Hm as (i & j' & E & _). injection E as E _. lia.
Qed.

Lemma marks_unmark ds ms : forall k, marks_from k (imap (fun i m => unmark_message ds (k + i) m) ms) = List.filter (kept ds) (marks_from k ms).
Proof.
  induction ms as [|m ms IH]; intros k; [done|]. rewrite imap_cons, !marks_from_cons, List.filter_app.
  replace (imap ((fun i m => unmark_message ds (k + i) m) ∘ S) ms) with (imap (fun i m => unmark_message ds (S k + i) m) ms)
    by (apply imap_ext; intros i x _; cbn; f_equal; lia).
  rewrite IH, Nat.add_0_r. f_equal. unfold unmark_message.
  destruct (m?."content") eqn:E; rewrite ?E; try done. rewrite get_with_field_eq. apply marked_unmark.
Qed.

Definition on_array (g : list jsval -> list jsval) (v : jsval) : jsval := match v with JArr l => JArr (g l) | _ => v end.

Lemma get_set_array k f body : (set_array k f body)?.k = on_array f (body?.k).
Proof. unfold set_array. destruct (body?.k) eqn:E; rewrite ?E; try done. apply get_with_field_eq. Qed.
Lemma get_set_array_ne k k' f body : k <> k' -> (set_array k' f body)?.k = body?.k.
Proof. intros H. unfold set_array. destruct (body?.k'); try done. by apply get_with_field_ne. Qed.

Lemma unmark_body_get ds body :
  (unmark_body ds body)?."tools" = on_array (unmark ds LTool) (body?."tools") /\
  (unmark_body ds body)?."system" = on_array (unmark ds LSystem) (body?."system") /\
  (unmark_body ds body)?."messages" = on_array (imap (unmark_message ds)) (body?."messages").
Proof.
  unfold unmark_body. split_and!.
  - rewrite !get_set_array_ne by done. apply get_set_array.
  - rewrite get_set_array_ne, get_set_array, !get_set_array_ne by done. done.
  - rewrite get_set_array, !get_set_array_ne by done. done.
Qed.

Lemma list_or_empty_other v l : is_array v = false -> list_or_empty v = Some l -> l = [].
Proof. unfold list_or_empty. destruct (truthy v); [|congruence]. by destruct v. Qed.
Lemma list_or_empty_map g v l : g [] = [] -> list_or_empty v = Some l ->
  list_or_empty (on_array g v) = Some (g l).
Proof.
  intros Hg H. destruct (is_array v) eqn:E.
  - destruct v; try discriminate E. by injection H as <-.
  - assert (l = []) as -> by by apply (list_or_empty_other v). rewrite Hg. by destruct v.
Qed.

Lemma locations_unmark ds body ls : cacheControlLocations body = Some ls ->
  cacheControlLocations (unmark_body ds body) = Some (List.filter (kept ds) ls).
Proof.
  unfold cacheControlLocations. destruct (unmark_body_get ds body) as (Ht & Hs & Hm). intros H.
  apply bind_Some in H as (tools & Htools & H). apply bind_Some in H as (messages & Hmessages & H). apply (inj Some) in H as <-.
  assert (E1 : list_or_empty ((unmark_body ds body)?."tools") = Some (unmark ds LTool tools)).
  { rewrite Ht. by apply (list_or_empty_map (unmark ds LTool)). }
  assert (E2 : list_or_empty ((unmark_body ds body)?."messages") = Some (imap (unmark_message ds) messages)).
  { rewrite Hm. by apply (list_or_empty_map (imap (unmark_message ds))). }
  assert (E3 : arr_of ((unmark_body ds body)?."system") = unmark ds LSystem (arr_of (body?."system"))) by (rewrite Hs; by destruct (body?."system")).
  rewrite E1, E2, E3. cbn [mbind option_bind]. rewrite !List.filter_app, !marked_unmark. do 3 f_equal.
  apply (marks_unmark ds messages 0).
Qed.

Lemma list_or_empty_nth v l i : list_or_empty v = Some l -> get_at v i = nth i l JUndef.
Proof.
  intros H. destruct (is_array v) eqn:E.
  - destruct v; try discriminate E. by injection H as <-.
  - rewrite (list_or_empty_other v l E H). by destruct v, i.
Qed.

Lemma elem_of_locations body ls x : cacheControlLocations body = Some ls -> x ∈ ls <-> marker (block_at body x) = true.
Proof.
  unfold cacheControlLocations. intros H. apply bind_Some in H as (tools & Ht & H). apply bind_Some in H as (messages & Hm & H).
  apply (inj Some) in H as <-. rewrite !elem_of_app, !elem_of_marked, message_marks_from, elem_of_marks.
  assert (Hg : forall v j, get_at v j = nth j (arr_of v) JUndef) by (intros [] []; done).
  destruct x as [i|i|i j]; cbn [block_at].
  - rewrite (list_or_empty_nth _ _ i Ht). split; [|intros; left; by exists i].
    intros [(k & [= ->] & E)|[(k & E & _)|(k & j & E & _)]]; [done|discriminate E..].
  - rewrite Hg. split; [|intros; right; left; by exists i].
    intros [(k & E & _)|[(k & [= ->] & E)|(k & j & E & _)]]; [discriminate E|done|discriminate E].
  - rewrite (list_or_empty_nth _ _ i Hm). split; [|intros; right; right; by exists i, j].
    intros [(k & E & _)|[(k & E & _)|(k & j' & [= -> ->] & E)]]; [discriminate E..|done].
Qed.

Lemma locations_nodup body ls : cacheControlLocations body = Some ls -> NoDup ls.
Proof.
  unfold cacheControlLocations. intros H. apply bind_Some in H as (tools & _ & H). apply bind_Some in H as (messages & _ & H).
  apply (inj Some) in H as <-. rewrite message_marks_from. apply NoDup_app. split_and!; [| |apply NoDup_app; split_and!].
  - apply marked_nodup. by intros i j [= ->].
  - intros x Hx. apply elem_of_marked in Hx as (i & -> & _). rewrite elem_of_app, elem_of_marked, elem_of_marks. naive_solver.
  - apply marked_nodup. by intros i j [= ->].
  - intros x Hx. apply elem_of_marked in Hx as (i & -> & _). rewrite elem_of_marks. naive_solver.
  - apply marks_nodup.
Qed.

Lemma sacrifice_permutation l : sacrifice_order l ≡ₚ l.
Proof.
  unfold sacrifice_order. rewrite <- !(Permutation_rev). induction l as [|x l IH]; [done|].
  destruct x; cbn [List.filter is_tool is_system is_message app]; (etransitivity; [|apply perm_skip, IH]); symmetry; [done| |].
  - rewrite !(assoc_L app). apply Permutation_middle.
  - apply Permutation_middle.
Qed.

Lemma filter_permutation (p : location -> bool) l k : l ≡ₚ k -> List.filter p l ≡ₚ List.filter p k.
Proof.
  induction 1 as [|x l k H IH|x y l|l k m _ IH1 _ IH2]; cbn [List.filter]; [done| | |by rewrite IH1].
  - destruct (p x); by rewrite IH.
  - destruct (p x), (p y); try done. apply Permutation_swap.
Qed.

Lemma filter_kept_all ds l : (forall x, x ∈ l -> x ∉ ds) -> List.filter (kept ds) l = l.
Proof.
  induction l as [|x l IH]; intros H; [done|]. cbn [List.filter]. unfold kept at 1. rewrite bool_decide_true by (apply H; left).
  f_equal. apply IH. intros y Hy. apply H. by right.
Qed.
Lemma filter_kept_none ds l : (forall x, x ∈ l -> x ∈ ds) -> List.filter (kept ds) l = [].
Proof.
  induction l as [|x l IH]; intros H; [done|]. cbn [List.filter]. unfold kept at 1. rewrite bool_decide_false by (intros Hn; apply Hn, H; left).
  apply IH. intros y Hy. apply H. by right.
Qed.

Lemma keep_dropped n l : NoDup l -> List.filter (kept (take n l)) l = drop n l.
Proof.
  intros Hd. rewrite <- (take_drop n l) in Hd. apply NoDup_app in Hd as (_ & Hd & _).
  rewrite <- (take_drop n l) at 2. rewrite List.filter_app, filter_kept_none, filter_kept_all; [done| |done].
  intros x Hx Ht. by apply (Hd x).
Qed.

(** The markers that remain when [live] are there and at most [n] may stay. *)
Lemma sacrificed live n : NoDup live -> (n < length live)%nat ->
  List.filter (kept (take (length live - n) (sacrifice_order live))) live ≡ₚ drop (length live - n) (sacrifice_order live).
Proof.
  intros Hd Hn. assert (Hp := sacrifice_permutation live).
  rewrite <- keep_dropped by (by rewrite Hp). apply filter_permutation. by symmetry.
Qed.

Lemma filter_ext_in (p q : location -> bool) l : (forall x, x ∈ l -> p x = q x) -> List.filter p l = List.filter q l.
Proof.
  induction l as [|x l IH]; intros H; [done|]. cbn [List.filter]. rewrite (H x) by left. rewrite IH; [done|]. intros y Hy. apply H. by right.
Qed.

(** A system marker is sacrificed only when every other one is. *)
Lemma system_last live n x : is_system x = true -> x ∈ take n (sacrifice_order live) ->
  Forall (fun l => is_system l = true) (drop n (sacrifice_order live)).
Proof.
  intros Hx Hin. set (front := rev (List.filter is_tool live) ++ List.filter is_message live).
  assert (E : sacrifice_order live = front ++ rev (List.filter is_system live)) by (unfold front, sacrifice_order; by rewrite (assoc_L app)).
  rewrite E in *. assert (Hf : forall y, y ∈ front -> is_system y = false).
  { intros y Hy. unfold front in Hy. apply elem_of_app in Hy as [Hy|Hy].
    - apply list_elem_of_In, in_rev, filter_In in Hy as [_ Hy]. by destruct y.
    - apply list_elem_of_In, filter_In in Hy as [_ Hy]. by destruct y. }
  assert (Hl : (length front <= n)%nat).
  { destruct (decide (length front <= n)%nat); [done|]. rewrite take_app_le in Hin by lia. apply list_elem_of_In, List.In_nth_error in Hin as [i Hi].
    rewrite (Hf x) in Hx; [done|]. apply (subseteq_take n front). apply list_elem_of_In, (List.nth_error_In _ _ Hi). }
  rewrite drop_app_ge by done. apply Forall_drop, Forall_forall. intros y Hy.
  apply list_elem_of_In, in_rev, filter_In in Hy as [_ Hy]. done.
Qed.

(** The provider's limit on cache markers holds for every request: at most [maximum] remain,
    and a system marker outside a thinking block is given up only when no marker on a tool or
    a message is left. *)
Theorem cache_limit_enforced body maximum out ls :
  enforceCacheLimit body maximum = Some out -> cacheControlLocations out = Some ls ->
  (length ls <= maximum)%nat /\
  (forall l, is_system l = true -> marker (block_at body l) = true -> is_str ((block_at body l)?."type") "thinking" = false ->
    l ∉ ls -> Forall (fun k => is_system k = true) ls).
Proof.
  unfold enforceCacheLimit. intros H Hls. apply bind_Some in H as (L & HL & H). cbv zeta in H.
  set (thinking := List.filter (fun l => is_str ((block_at body l)?."type") "thinking") L) in H.
  assert (Hlive := locations_unmark thinking body L HL). set (body1 := unmark_body thinking body) in *.
  assert (E : List.filter (fun l => marker (block_at body1 l)) L = List.filter (kept thinking) L).
  { apply filter_ext_in. intros x Hx. assert (Hm := elem_of_locations body1 _ x Hlive).
    assert (Hin : x ∈ List.filter (kept thinking) L <-> kept thinking x = true) by (rewrite list_elem_of_In, filter_In, <- list_elem_of_In; tauto).
    destruct (marker (block_at body1 x)), (kept thinking x); try done; [|symmetry]; naive_solver. }
  rewrite E in H. set (live := List.filter (kept thinking) L) in *.
  assert (Hstays : forall l, is_system l = true -> marker (block_at body l) = true -> is_str ((block_at body l)?."type") "thinking" = false -> l ∈ live).
  { intros l _ Hm Hn. apply list_elem_of_In, filter_In. split; [by apply list_elem_of_In, (elem_of_locations body L)|].
    apply bool_decide_eq_true. intros Ht. apply list_elem_of_In, filter_In in Ht as [_ Ht]. congruence. }
  destruct (length live <=? maximum)%nat eqn:El.
  - apply (inj Some) in H as <-. rewrite Hlive in Hls. apply (inj Some) in Hls as <-. apply Nat.leb_le in El. split; [done|].
    intros l H1 H2 H3 Hn. destruct Hn. by apply Hstays.
  - apply (inj Some) in H as <-. apply Nat.leb_gt in El. rewrite (locations_unmark _ _ _ Hlive) in Hls. apply (inj Some) in Hls as <-.
    assert (Hp := sacrificed live maximum (locations_nodup _ _ Hlive) El). assert (Hlen := Permutation_length (sacrifice_permutation live)).
    split; [rewrite (Permutation_length Hp), length_drop; lia|].
    intros l H1 H2 H3 Hn. rewrite Hp. apply (system_last _ _ l H1).
    destruct (decide (l ∈ take (length live - maximum) (sacrifice_order live))) as [|Hd]; [done|]. destruct Hn.
    apply list_elem_of_In, filter_In. split; [by apply list_elem_of_In, Hstays|]. by apply bool_decide_eq_true.
Qed.

Definition marked_block : jsval := JObj [("cache_control", JObj [("type", JStr "ephemeral")])].
Definition crowded_body : jsval :=
  JObj [("tools", JArr [marked_block]); ("system", JArr [marked_block; marked_block]);
        ("messages", JArr [JObj [("content", JArr [marked_block; marked_block])]])].
Lemma cache_limit_enforced_witness : exists out, enforceCacheLimit crowded_body 1 = Some out /\
  (length [LSystem 0] <= 1)%nat /\ Forall (fun k => is_system k = true) [LSystem 0].
Proof.
  eexists. split; [vm_compute; reflexivity|].
  destruct (cache_limit_enforced crowded_body 1 (default JNull (enforceCacheLimit crowded_body 1)) [LSystem 0] ltac:(vm_compute; reflexivity)
    ltac:(vm_compute; reflexivity)) as [Hl Hs].
  split; [exact Hl|]. apply (Hs (LSystem 1)); [reflexivity..|]. intros H. apply list_elem_of_singleton in H. discriminate H.
Defined.

(** ** Tool names *)

Definition name_char (c : ascii) : bool := is_digit c || is_upper c || is_lower c || Ascii.eqb c "_" || Ascii.eqb c "-".
(** [TOOL_NAME.test(name)] *)
Definition TOOL_NAME (name : string) : bool :=
  (1 <=? String.length name)%nat && (String.length name <=? 64)%nat && forallb name_char (list_ascii_of_string name).

Section names.
(** The hex digest of [crypto.createHash('sha256').update(s)]. *)
Variable sha256 : string -> string.

Definition candidate (digest : string) (suffix : nat) : string :=
  if (suffix =? 0)%nat then ("kin_tool_" ++ digest)%string
  else ("kin_tool_" ++ digest ++ "_" ++ Z_to_string (Z.of_nat suffix))%string.
(** The loop: the first candidate from [suffix] on that is not used; [fuel] turns at most. *)
Fixpoint unused (fuel : nat) (digest : string) (suffix : nat) (used : list string) : option string :=
  match fuel with
  | O => None
  | S fuel => if mem (candidate digest suffix) used then unused fuel digest (S suffix) used else Some (candidate digest suffix)
  end.

(** One turn more than there are used names. *)
Definition safeToolName (original : string) (used : list string) : option string :=
  if TOOL_NAME original && negb (mem original used) then Some original
  else unused (S (length used)) (take_chars 16 (sha256 original)) 0 used.

(** State of the loop over tools: the tools so far, the used names, [forward] and [reverse]. *)
Record renaming := { rn_tools : list jsval; rn_used : list string; rn_forward : fields; rn_reverse : fields }.
Definition rename_tool (st : renaming) (tool : jsval) : option renaming :=
  if isAnthropicServerTool tool
  then Some {| rn_tools := rn_tools st ++ [tool]; rn_used := rn_used st; rn_forward := rn_forward st; rn_reverse := rn_reverse st |}
  else
    let original := str_or_empty (tool?."name") in
    rewritten ← safeToolName original (rn_used st);
    Some {| rn_tools := rn_tools st ++ [with_own tool "name" (JStr rewritten)]; rn_used := rn_used st ++ [rewritten];
            rn_forward := set_field original (JStr rewritten) (rn_forward st);
            rn_reverse := set_field rewritten (JStr original) (rn_reverse st) |}.
Fixpoint rename_tools (st : renaming) (l : list jsval) : option renaming :=
  match l with [] => Some st | t :: r => st' ← rename_tool st t; rename_tools st' r end.

(** [table[name]] *)
Definition renamed (table : fields) (name : jsval) : jsval := assoc (to_string name) table.
(** [block?.type === 'tool_use' && table[block.name] ? { ...block, name: table[block.name] } : block] *)
Definition rename_block (table : fields) (block : jsval) : jsval :=
  if is_str (block?."type") "tool_use" && truthy (renamed table (block?."name"))
  then with_field block "name" (renamed table (block?."name")) else block.

(** The new body and [reverse]. *)
Definition rewriteToolNames (body : jsval) (enabled : bool) : option (jsval * fields) :=
  match body?."tools" with
  | JArr ((_ :: _) as l) =>
    if negb enabled then Some (body, [])
    else
      st ← rename_tools {| rn_tools := []; rn_used := []; rn_forward := []; rn_reverse := [] |} l;
      let out := with_field body "tools" (JArr (rn_tools st)) in
      let choice := out?."tool_choice" in
      let out := if truthy (choice?."name") && truthy (renamed (rn_forward st) (choice?."name"))
                 then with_field out "tool_choice" (with_own choice "name" (renamed (rn_forward st) (choice?."name"))) else out in
      let out := map_messages (fun message =>
        match message?."content" with
        | JArr l => with_field message "content" (JArr (map (rename_block (rn_forward st)) l))
        | _ => message
        end) out in
      Some (out, rn_reverse st)
  | _ => Some (body, [])
  end.

Definition restore_blocks (reverse : fields) (content : jsval) : jsval :=
  match content with JArr l => JArr (map (rename_block reverse) l) | _ => content end.
(** None: a message that is neither an object nor falsy cannot be written to. *)
Definition restoreToolNames (response : jsval) (reverse : fields) : option jsval :=
  if negb (is_object response) || (length reverse =? 0)%nat then Some response
  else
    let out := with_own response "content" (restore_blocks reverse (response?."content")) in
    let message := out?."message" in
    if negb (truthy message) then Some out
    else if is_object message
    then Some (with_field out "message" (with_own message "content" (restore_blocks reverse (message?."content"))))
    else None.

(** [payload[k].name] restored when it names a tool. *)
Definition restore_at (k : string) (reverse : fields) (payload : jsval) : jsval :=
  let renamed_part := rename_block reverse (payload?.k) in
  if is_str ((payload?.k)?."type") "tool_use" && truthy (renamed reverse ((payload?.k)?."name")) then with_field payload k renamed_part else payload.
Definition restoreToolNamesInSSELine (line : string) (reverse : fields) : option string :=
  if negb (starts_with "data:" line) || (length reverse =? 0)%nat then Some line
  else
    match json_parse (trim (drop_chars 5 line)) with
    | None => Some line
    | Some payload =>
      let payload := restore_at "delta" reverse (restore_at "content_block" reverse payload) in
      payload ← (if truthy (payload?."message")
                 then m ← restoreToolNames (payload?."message") reverse; Some (with_field payload "message" m) else Some payload);
      Some ("data: " ++ text payload)%string
    end.
End names.

Example rename_ex :
  let tool n := JObj [("name", JStr n)] in
  option_map (fun r => ((r.1)?."tools", r.2))
    (rewriteToolNames (fun s => "0123456789abcdef01") (JObj [("tools", JArr [tool "ok"; tool "no spaces"; tool "ok"; JObj [("type", JStr "bash_1"); ("name", JStr "bash")]])]) true)
  = Some (JArr [tool "ok"; tool "kin_tool_0123456789abcdef"; tool "kin_tool_0123456789abcdef_1"; JObj [("type", JStr "bash_1"); ("name", JStr "bash")]],
          [("ok", JStr "ok"); ("kin_tool_0123456789abcdef", JStr "no spaces"); ("kin_tool_0123456789abcdef_1", JStr "ok")]).
Proof. vm_compute. reflexivity. Qed.

(** *** Fresh names *)

Lemma Z_to_string_inj x y : Z_to_string x = Z_to_string y -> x = y.
Proof.
  intros H. assert (Hx := take_number_int x "" (or_introl eq_refl)). assert (Hy := take_number_int y "" (or_introl eq_refl)).
  rewrite H, Hy in Hx. injection Hx as Hx. done.
Qed.

Lemma string_app_inj (a b c : string) : (a ++ b)%string = (a ++ c)%string -> b = c.
Proof. intros H. rewrite <- (drop_chars_app a b), <- (drop_chars_app a c). by rewrite H. Qed.

Lemma candidate_inj digest i j : candidate digest i = candidate digest j -> i = j.
Proof.
  assert (Hl : forall k, k <> 0%nat -> String.length (candidate digest k) <> String.length (candidate digest 0)).
  { intros k Hk. unfold candidate. rewrite (proj2 (Nat.eqb_neq k 0) Hk). cbn [Nat.eqb]. rewrite !string_length_app. cbn [String.length]. lia. }
  destruct (decide (i = 0%nat)) as [->|Hi], (decide (j = 0%nat)) as [->|Hj]; intros H; [done|..].
  - destruct (Hl j Hj). by rewrite H.
  - destruct (Hl i Hi). by rewrite H.
  - unfold candidate in H. rewrite (proj2 (Nat.eqb_neq i 0) Hi), (proj2 (Nat.eqb_neq j 0) Hj) in H.
    do 3 apply string_app_inj in H. apply Z_to_string_inj in H. lia.
Qed.

Lemma unused_spec digest used fuel : forall suffix,
  match unused fuel digest suffix used with
  | Some r => r ∉ used
  | None => forall i, (suffix <= i < suffix + fuel)%nat -> candidate digest i ∈ used
  end.
Proof.
  induction fuel as [|fuel IH]; intros suffix; cbn [unused]; [lia|]. destruct (mem (candidate digest suffix) used) eqn:E.
  - specialize (IH (S suffix)). destruct (unused fuel digest (S suffix) used); [done|]. intros i Hi.
    destruct (decide (i = suffix)) as [->|]; [by apply mem_spec|]. apply IH. lia.
  - intros H. apply mem_spec in H. congruence.
Qed.

(** The loop ends: there are more candidates than used names. *)
Lemma safeToolName_total sha256 original used : exists r, safeToolName sha256 original used = Some r /\ r ∉ used.
Proof.
  unfold safeToolName. destruct (TOOL_NAME original && _) eqn:E.
  - exists original. split; [done|]. apply andb_true_iff in E as [_ E]. intros H. apply mem_spec in H. by rewrite H in E.
  - set (digest := take_chars 16 (sha256 original)). assert (H := unused_spec digest used (S (length used)) 0).
    destruct (unused _ _ _ _) as [r|]; [by exists r|]. exfalso.
    assert (Hd : NoDup (map (candidate digest) (seq 0 (S (length used))))).
    { apply NoDup_fmap_2; [|apply NoDup_seq]. intros i j. apply candidate_inj. }
    assert (Hs : map (candidate digest) (seq 0 (S (length used))) ⊆ used).
    { intros x Hx. apply list_elem_of_fmap in Hx as (i & -> & Hi). apply H. apply elem_of_seq in Hi. lia. }
    apply NoDup_submseteq in Hs; [|done]. apply submseteq_length in Hs. rewrite length_map, length_seq in Hs. lia.
Qed.

(** The names of the tools that are the client's own. *)
Definition client_names (l : list jsval) : list string :=
  map (fun t => str_or_empty (t?."name")) (List.filter (fun t => negb (isAnthropicServerTool t)) l).

Lemma client_names_app a b : client_names (a ++ b) = client_names a ++ client_names b.
Proof. unfold client_names. by rewrite List.filter_app, map_app. Qed.

Lemma str_or_empty_string s : str_or_empty (JStr s) = s.
Proof. unfold str_or_empty, or_else. cbn [truthy]. by destruct (String.eqb_spec s "") as [->|]. Qed.

Definition renaming_ok (originals : list string) (st : renaming) : Prop :=
  NoDup (rn_used st) /\ client_names (rn_tools st) = rn_used st /\
  map (fun r => assoc r (rn_reverse st)) (rn_used st) = map JStr originals.

Lemma rename_tool_ok sha256 st t originals : is_obj t = true -> renaming_ok originals st ->
  exists st', rename_tool sha256 st t = Some st' /\ renaming_ok (originals ++ client_names [t]) st'.
Proof.
  intros Ho (Hd & Hn & Hr). unfold rename_tool. destruct (isAnthropicServerTool t) eqn:E.
  - eexists. split; [reflexivity|]. unfold renaming_ok. cbn [rn_tools rn_used rn_reverse]. rewrite client_names_app.
    unfold client_names at 2 3. cbn [List.filter]. rewrite E. cbn [negb map]. by rewrite !app_nil_r.
  - destruct (safeToolName_total sha256 (str_or_empty (t?."name")) (rn_used st)) as (r & -> & Hfresh). cbn [mbind option_bind].
    eexists. split; [reflexivity|]. unfold renaming_ok. cbn [rn_tools rn_used rn_reverse]. rewrite client_names_app.
    assert (Et : isAnthropicServerTool (with_own t "name" (JStr r)) = false).
    { unfold isAnthropicServerTool in *. by rewrite get_with_own_ne. }
    unfold client_names at 2 3. cbn [List.filter]. rewrite E, Et. cbn [negb map]. rewrite get_with_own_eq, str_or_empty_string, Hn.
    split_and!; [apply NoDup_app; split_and!; [done| |apply NoDup_singleton]; intros x Hx Hs; apply list_elem_of_singleton in Hs as ->; done|done|].
    rewrite !map_app, <- Hr. cbn [map]. rewrite assoc_set_eq. f_equal. apply map_ext_in. intros x Hx.
    apply assoc_set_ne. intros ->. by apply Hfresh, list_elem_of_In.
Qed.

Lemma rename_tools_ok sha256 l : forall st originals, Forall (fun t => is_obj t = true) l -> renaming_ok originals st ->
  exists st', rename_tools sha256 st l = Some st' /\ renaming_ok (originals ++ client_names l) st'.
Proof.
  induction l as [|t l IH]; intros st originals Hl Hst; [exists st; by rewrite app_nil_r|]. apply Forall_cons in Hl as [Ht Hl].
  destruct (rename_tool_ok sha256 st t originals Ht Hst) as (st1 & H1 & Hok). cbn [rename_tools]. rewrite H1. cbn [mbind option_bind].
  destruct (IH st1 _ Hl Hok) as (st2 & H2 & Hok2). exists st2. split; [done|]. by rewrite <- (assoc_L app), <- client_names_app in Hok2.
Qed.

(** Renaming the tools of a request always ends, the names that are sent are distinct, and the
    returned table takes each of them back to the name the client gave. *)
Theorem tool_names_restored sha256 body l : body?."tools" = JArr l -> l <> [] -> Forall (fun t => is_obj t = true) l ->
  exists out reverse sent, rewriteToolNames sha256 body true = Some (out, reverse) /\ out?."tools" = JArr sent /\
    NoDup (client_names sent) /\ map (fun r => assoc r reverse) (client_names sent) = map JStr (client_names l).
Proof.
  intros Hb Hl Ho. unfold rewriteToolNames. rewrite Hb. destruct l as [|t l]; [done|]. cbn [negb].
  destruct (rename_tools_ok sha256 (t :: l) {| rn_tools := []; rn_used := []; rn_forward := []; rn_reverse := [] |} [] Ho)
    as (st & -> & Hd & Hn & Hr); [by split_and!; [constructor| |]|]. cbn [mbind option_bind app] in *.
  eexists _, _, (rn_tools st). split; [reflexivity|]. rewrite Hn. split; [|done].
  assert (Hm : forall f b, (map_messages f b)?."tools" = b?."tools").
  { intros f b. unfold map_messages. destruct (b?."messages"); try done. by apply get_with_field_ne. }
  rewrite Hm. destruct (_ && _); rewrite ?get_with_field_ne by done; apply get_with_field_eq.
Qed.

Definition odd_tools : list jsval := [JObj [("name", JStr "no spaces")]; JObj [("name", JStr "ok")]; JObj [("name", JStr "ok")]].
Lemma tool_names_restored_witness : exists out reverse sent,
  rewriteToolNames (fun s => s) (JObj [("tools", JArr odd_tools)]) true = Some (out, reverse) /\ out?."tools" = JArr sent /\
  NoDup (client_names sent) /\ map (fun r => assoc r reverse) (client_names sent) = [JStr "no spaces"; JStr "ok"; JStr "ok"].
Proof. apply (tool_names_restored (fun s => s) (JObj [("tools", JArr odd_tools)]) odd_tools); [reflexivity|discriminate|repeat constructor]. Defined.
