(* ===== verification/Catalog.v ===== *)
(** * The catalog of models (src/src/lib/protocol/models.mjs, gpt-model-policy.mjs)

    Which ids the gateway knows, how a caller's name is resolved to one of them, and the
    separate policy of GPT models.  The policy is given as loaded (a database that cannot be
    read is not modelled), [localeCompare] is a parameter, an id a worker reports that is not a
    string is dropped. *)

From S2P Require Import Prelude.
From S2P Require Import JsValue.
From S2P Require Import JsRegex.
From S2P Require Import JsText.
From S2P Require Import JsJson.
From S2P Require Import ModelPolicy.
From S2P Require Import Ranking.
#[local] Open Scope string_scope.
#[local] Open Scope list_scope.
#[local] Open Scope js_scope.

Definition FAMILY_ALIASES : list string := ["sonnet"; "opus"; "haiku"; "fable"].

(** ** Rank of an id *)

Definition RANK_PREFIXES : list string := ["claude-opus-"; "claude-sonnet-"; "claude-haiku-"; "claude-fable-"; "claude-3-"].
Definition rank_body (id : string) : string :=
  match List.find (fun p => starts_with p (to_lower id)) RANK_PREFIXES with
  | Some p => drop_chars (String.length p) id
  | None => id
  end.
(** All digits: the number; else -1. *)
Definition rank_part (p : string) : Z :=
  match take_digits 0 0 p with (v, S _, EmptyString) => v | _ => -1 end%Z.
Definition modelRank (id : string) : list Z := map rank_part (split_chars (fun c => Ascii.eqb c "-" || Ascii.eqb c ".") (rank_body id)).

(** The loop over the longer of the two ranks. *)
Fixpoint cmp_parts (ra rb : list Z) : Z :=
  match ra, rb with
  | [], [] => 0
  | a :: ra, [] => if (-1 =? a)%Z then cmp_parts ra [] else (-1 - a)%Z
  | [], b :: rb => if (b =? -1)%Z then (fix go rb := match rb with [] => 0 | b :: rb => if (b =? -1)%Z then go rb else (b - -1) end)%Z rb else (b - -1)%Z
  | a :: ra, b :: rb => if (b =? a)%Z then cmp_parts ra rb else (b - a)%Z
  end.
Definition cmpRank (a b : string) : num :=
  let d := cmp_parts (modelRank a) (modelRank b) in
  num_of_Z (if (d =? 0)%Z then Z.of_nat (String.length a) - Z.of_nat (String.length b) else d)%Z.

Definition v_number : rx := RSeq (lit "-v") (rplus (RChr is_digit)).
Definition preferred (fam id : string) : bool :=
  let l := to_lower id in
  starts_with ("claude-" ++ fam ++ "-")%string l && negb (ends_with "-fast" l || ends_with "-latest" l || rx_test_end v_number l).
(** None is null. *)
Definition latestIdForFamily (family : string) (ids : list string) : option string :=
  head (sort cmpRank (List.filter (preferred (to_lower family)) ids)).

Definition dated : rx := RSeq (lit "-") (rseqs (repeat (RChr is_digit) 8)).
Definition undatedAliasOf (id : string) : string := if rx_test_end dated id then drop_last 9 id else id.
Definition latestIdForUndatedAlias (raw : string) (ids : list string) : option string :=
  let lower := to_lower raw in
  if String.eqb lower "" then None else head (sort cmpRank (List.filter (fun id => String.eqb (to_lower (undatedAliasOf id)) lower) ids)).

(** ** Resolution *)

(** [cfg.aliases] can be searched; else the whole lookup throws and gives null. *)
Definition searchable (cfg : jsval) : bool := negb (is_nullish cfg) && (negb (truthy (cfg?."aliases")) || is_array (cfg?."aliases")).
Definition alias_candidates (policy : jsval) (lower : string) : list string :=
  let top := policy?."aliases"?.lower in
  (if truthy top then [to_string top] else []) ++
  flat_map (fun p => (if String.eqb (to_lower p.1) lower then [p.1] else []) ++ (if names_alias lower p.2 then [p.1] else []))
    (entries (policy?."models")).
Definition in_catalog (ids : list string) (c : string) : option string :=
  match List.find (fun x => String.eqb (to_lower x) (to_lower c)) ids with
  | Some exact_id => Some exact_id
  | None => latestIdForUndatedAlias c ids
  end.
Fixpoint first_some {A B} (f : A -> option B) (l : list A) : option B :=
  match l with [] => None | x :: r => match f x with Some y => Some y | None => first_some f r end end.
Definition resolvePolicyAliasToCatalog (policy : jsval) (raw : string) (ids : list string) : option string :=
  if forallb (fun p => searchable p.2) (entries (policy?."models"))
  then first_some (in_catalog ids) (alias_candidates policy (to_lower raw)) else None.

Inductive resolution :=
| Resolved (model : string) (alias : option string) (want1m : bool)
| Unresolved (model : option string) (want1m : bool) (reason : string).

Definition resolveCatalogModel (policy raw : jsval) (ids : list string) : resolution :=
  let m := trim (str_or_empty raw) in
  if String.eqb m "" then Unresolved None false "empty"
  else
    let popped := last_segment m in
    let want1m := hasClaudeCode1mSuffix popped in
    let bare := stripClaudeCode1mSuffix popped in
    let lower := to_lower bare in
    match (if mem lower FAMILY_ALIASES then latestIdForFamily lower ids else None) with
    | Some latest => Resolved latest (Some lower) want1m
    | None =>
      let id := if starts_with "claude-" lower then bare else stripClaudeCode1mSuffix m in
      if existsb (fun x => String.eqb (to_lower x) (to_lower id)) ids then Resolved id None want1m
      else
        match latestIdForUndatedAlias id ids with
        | Some d => Resolved d (Some id) want1m
        | None =>
          match resolvePolicyAliasToCatalog policy id ids with
          | Some viaPolicy => Resolved viaPolicy (Some id) want1m
          | None => Unresolved (Some id) want1m (match ids with [] => "catalog_unavailable" | _ => "not_in_catalog" end)
          end
        end
    end.

(** ** The cached catalog *)

Record catalog := { c_at : num; c_ids : list string; c_aliases : list string; c_source : jsval }.
Definition clearModelsCache : catalog := {| c_at := num_of_Z 0; c_ids := []; c_aliases := []; c_source := JNull |}.

Definition catalogIsTestPinned (cache : catalog) : bool :=
  is_str (c_source cache) "go-slot-worker" && (0 <? length (c_ids cache))%nat.

(** The cache after the call; [now] is its clock. *)
Definition setModelCatalog (now : num) (ids : list string) (source : string) : catalog :=
  let renamed := map (fun id => if String.eqb id FABLE_51_LEGACY_ID then FABLE_51_ID else id) ids in
  {| c_at := now; c_ids := uniq (List.filter (fun id => isCatalogModelId (JStr id)) renamed); c_aliases := FAMILY_ALIASES; c_source := JStr source |}.

Definition SEED_MODEL_IDS : list string :=
  List.filter (fun id => isCatalogModelId (JStr id)) (keys (seedDefaultPolicy ""?."models")).

Section catalog.
Context (policy : jsval) (now : num).

Definition seedModelCatalog (cache : catalog) : catalog :=
  if catalogIsTestPinned cache then cache
  else setModelCatalog now (match getPolicyCatalogIds policy false with [] => SEED_MODEL_IDS | ids => ids end) "model-policy".

(** Strings, or the [id] of an object. *)
Definition worker_id (m : jsval) : list string :=
  match m with JStr s => if nonempty s then [s] else [] | _ => match m?."id" with JStr s => if nonempty s then [s] else [] | _ => [] end end.
Definition ingestWorkerModels (cache : catalog) (list : jsval) : catalog :=
  match flat_map worker_id (arr_of (list?."data")) with
  | [] => cache
  | ids => setModelCatalog now (uniq (c_ids cache ++ ids)) "go-slot-worker"
  end.

Definition official_model (cache : catalog) (id : string) : jsval :=
  let e := getModelEntry policy (JStr id) in
  JObj [("id", JStr id); ("object", JStr "model"); ("type", JStr "model"); ("display_name", e?."display_name" ||| JStr id);
        ("owned_by", JStr (if is_str (e?."family") "codex" then "openai" else "anthropic"));
        ("source", c_source cache ||| JStr "model-policy"); ("family", e?."family");
        ("enabled", JBool (negb (is_bool (e?."enabled") false))); ("capabilities", e?."capabilities")].
Definition listOfficialModels (cache : catalog) : list jsval := map (official_model cache) (filterPublicModelIds policy (c_ids cache)).

(** The answer to a caller's model name: accepted, or the code of the error. *)
Inductive verdict :=
| Accepted (model : string) (alias : option string) (want1m : bool) (pending : bool)
| Rejected (code : string).

Definition OTHER_VENDORS : list string := ["gemini"; "deepseek"; "mistral"; "grok"; "text-"; "davinci"].
Definition foreign (id : string) : bool :=
  let l := to_lower id in
  existsb (fun p => starts_with p l) OTHER_VENDORS ||
  (existsb (fun p => starts_with p l) ["gpt-"; "o1"; "o3"; "o4"] && negb (isGptSeriesId (JStr id))).

Definition validateOfficialModel (cache : catalog) (model : jsval) : verdict * catalog :=
  let m := trim (str_or_empty model) in
  if String.eqb m "" then (Rejected "model_required", cache)
  else
    let id := stripClaudeCode1mSuffix (last_segment m) in
    if foreign id then (Rejected "model_not_supported", cache)
    else
      let cache := seedModelCatalog cache in
      match resolveCatalogModel policy (JStr m) (c_ids cache) with
      | Resolved r alias want1m =>
        (if isModelEnabled policy (JStr r) then Accepted r (match alias with Some EmptyString => None | a => a end) want1m false
         else Rejected "model_disabled", cache)
      | Unresolved _ _ _ =>
        (match c_ids cache with
         | [] => if isCatalogModelId (JStr id) then Accepted id None (hasClaudeCode1mSuffix m) true else Rejected "model_not_supported"
         | _ => Rejected "model_not_supported"
         end, cache)
      end.
End catalog.

(** ** GPT models *)

Definition CAP_GPT : jsval :=
  JObj [("context_window", jint 272000); ("supports_1m", JBool false); ("thinking_mode", JStr "enabled_only"); ("supports_adaptive", JBool false);
        ("requires_adaptive", JBool false); ("supports_interleaved", JBool false); ("supports_effort", JBool false);
        ("supports_context_management", JBool false)].
Definition not_false (v : jsval) : bool := negb (is_bool v false).
Definition gpt_entry (id : string) (extra : jsval) : jsval :=
  JObj [("id", JStr id); ("display_name", extra?."display_name" ||| extra?."label" ||| JStr id); ("family", JStr "codex");
        ("enabled", JBool (not_false (extra?."enabled"))); ("sort", extra?."sort" ||| jint 80);
        ("capabilities", extra?."capabilities" ||| CAP_GPT);
        ("params", extra?."params" ||| JObj [("max_tokens_default", jint 16384); ("max_tokens_cap", jint 128000)]);
        ("aliases", extra?."aliases" ||| JArr [])].
Definition gpt_seed (id name : string) (sort : Z) (aliases : list string) : string * jsval :=
  (id, gpt_entry id (JObj ([("display_name", JStr name); ("sort", jint sort)] ++ match aliases with [] => [] | _ => [("aliases", jstrs aliases)] end))).
Definition GPT_MODELS : fields :=
  [gpt_seed "gpt-5.6" "GPT-5.6" 76 []; gpt_seed "gpt-5.5" "GPT-5.5" 77 []; gpt_seed "gpt-5.4" "GPT-5.4" 80 ["codex"];
   gpt_seed "gpt-5.4-mini" "GPT-5.4 Mini" 81 []; gpt_seed "gpt-5.3-codex" "GPT-5.3 Codex" 82 []].
Definition seedGptPolicy (iso : string) : jsval :=
  JObj [("version", jint 1); ("updated_at", JStr iso); ("source", JStr "seed"); ("platform", JStr "openai"); ("models", JObj GPT_MODELS)].

(** The module state: the policy, whether it was loaded, and the stored setting. *)
Record gpt_state := { g_policy : jsval; g_loaded : bool; g_stored : jsval }.
Definition persist (st : gpt_state) (policy : jsval) : gpt_state := {| g_policy := policy; g_loaded := g_loaded st; g_stored := json_copy policy |}.

Section gpt.
Context (iso : string) (localeCompare : string -> string -> num).

Definition loadGptModelPolicy (st : gpt_state) (force : bool) : gpt_state :=
  if g_loaded st && negb force then st
  else
    let stored := g_stored st in
    let st := if is_object stored && is_object (stored?."models") then
                let live := is_str (stored?."source") "codex" && (0 <? length (entries (stored?."models")))%nat in
                let seed := seedGptPolicy iso in
                let merged := if live then stored
                              else with_field (spread seed stored) "models" (spread (seed?."models") (own (stored?."models"))) in
                let policy := with_field merged "platform" (JStr "openai") in
                {| g_policy := with_field policy "source" (policy?."source" ||| JStr "settings"); g_loaded := g_loaded st; g_stored := stored |}
              else persist st (seedGptPolicy iso) in
    {| g_policy := g_policy st; g_loaded := true; g_stored := g_stored st |}.
Definition getGptModelPolicy (st : gpt_state) : gpt_state := if g_loaded st then st else loadGptModelPolicy st false.

Definition save_row (models : jsval) (p : string * jsval) : jsval :=
  if negb (isGptSeriesId (JStr p.1)) || negb (is_object p.2) then models
  else with_field models p.1 (with_field (with_field (spread (models?.(p.1)) (own p.2)) "id" (JStr p.1)) "family" (JStr "codex")).
Definition saveGptModelPolicy (st : gpt_state) (next : jsval) : gpt_state :=
  let seed := seedGptPolicy iso in
  let rows := if is_object (next?."models") then entries (next?."models") else [] in
  let models := foldl save_row (seed?."models") rows in
  let policy := spread seed (own next) in
  persist st (with_field (with_field (with_field (with_field policy "models" models) "platform" (JStr "openai")) "updated_at" (JStr iso)) "source" (JStr "panel")).

Definition gpt_models (policy : jsval) : fields := entries (policy?."models" ||| JObj []).
Definition by_sort (a b : jsval) : num :=
  let d := num_sub (to_number (a?."sort" ||| jint 80)) (to_number (b?."sort" ||| jint 80)) in
  if truthy (JNum d) then d else localeCompare (to_string (a?."id")) (to_string (b?."id")).
(** [{ id, ...cfg, family: 'codex' }] *)
Definition listGptPolicyModels (policy : jsval) : list jsval :=
  sort by_sort
    (map (fun p => with_field (spread (JObj [("id", JStr p.1)]) (own p.2)) "family" (JStr "codex"))
       (List.filter (fun p => isGptSeriesId (JStr p.1) && not_false (p.2?."enabled")) (gpt_models policy))).
Definition getGptPolicyCatalogIds (policy : jsval) (enabledOnly : bool) : list string :=
  map fst (List.filter (fun p => isGptSeriesId (JStr p.1) && (negb enabledOnly || not_false (p.2?."enabled"))) (gpt_models policy)).

Definition isGptModelEnabled (policy : jsval) (id : string) : bool :=
  if negb (isGptSeriesId (JStr id)) then false
  else
    let row := (policy?."models")?.id in
    if truthy row then not_false (row?."enabled")
    else negb (is_str (policy?."source") "codex" && (0 <? length (gpt_models policy))%nat).

Definition resetGptModelPolicy (st : gpt_state) : gpt_state :=
  let st := persist st (seedGptPolicy iso) in {| g_policy := g_policy st; g_loaded := true; g_stored := g_stored st |}.

(** [/(?:^|[-_])(luna|wm)(?:[-_]|$)/i] *)
Definition id_sep : rx := one_of "-_".
Definition internal_id (id : string) : bool :=
  rx_full (RSeq (ropt (RSeq anything id_sep)) (RSeq (lits ["luna"; "wm"]) (ropt (RSeq id_sep anything)))) (to_lower id).
Definition live_row (item : jsval) : string * string :=
  (trim (str_or_empty (match item with JStr _ => item | _ => item?."id" end)), trim (str_or_empty (item?."display_name"))).
(** The rows kept, and the ids seen. *)
Definition keep_row (st : list (string * string) * list string) (item : jsval) : list (string * string) * list string :=
  let '(live, seen) := st in
  let row := live_row item in
  if negb (isGptSeriesId (JStr row.1)) || mem (to_lower row.1) seen || internal_id row.1 then st
  else (live ++ [row], seen ++ [to_lower row.1]).
Definition live_rows (ids : list jsval) : list (string * string) := (foldl keep_row ([], []) ids).1.

Definition synced_entry (policy : jsval) (row : string * string) : string * jsval :=
  let prev := (policy?."models")?.(row.1) in
  let extra := with_field (own prev) "display_name" (JStr row.2 ||| prev?."display_name" ||| JStr row.1) in
  (row.1, gpt_entry row.1 (with_field (with_field extra "enabled" (JBool (not_false (prev?."enabled")))) "source" (JStr "codex"))).
Definition syncGptIdsIntoPolicy (st : gpt_state) (ids : list jsval) : gpt_state :=
  let st := getGptModelPolicy st in
  match live_rows ids with
  | [] => st
  | live =>
    let policy := with_field (own (g_policy st)) "models" (JObj (map (synced_entry (g_policy st)) live)) in
    persist st (with_field (with_field (with_field policy "platform" (JStr "openai")) "updated_at" (JStr iso)) "source" (JStr "codex"))
  end.
End gpt.

(** GET /v1/models. *)
Definition gpt_public_model (m : jsval) : jsval :=
  JObj [("id", m?."id"); ("object", JStr "model"); ("type", JStr "model"); ("display_name", m?."display_name" ||| m?."label" ||| m?."id");
        ("owned_by", JStr "openai"); ("family", JStr "codex"); ("enabled", JBool (not_false (m?."enabled"))); ("source", JStr "gpt-model-policy")].
Definition gatewayModelCatalog (policy gpt_policy : jsval) (now : num) (localeCompare : string -> string -> num) (cache : catalog) : jsval * catalog :=
  let cache := seedModelCatalog policy now cache in
  (JObj [("object", JStr "list");
         ("data", JArr (map gpt_public_model (listGptPolicyModels localeCompare gpt_policy) ++ listOfficialModels policy cache));
         ("source", c_source cache ||| JStr "model-policy")], cache).

Example latest_ex :
  latestIdForFamily "Opus" ["claude-opus-4-1"; "claude-opus-4-7"; "claude-opus-4-7-fast"; "claude-opus-5"; "claude-sonnet-9"] = Some "claude-opus-5" /\
  latestIdForUndatedAlias "claude-haiku-4-5" ["claude-haiku-4-5-20251001"; "claude-haiku-4-5-20260101"] = Some "claude-haiku-4-5-20260101".
Proof. vm_compute. split; reflexivity. Qed.
(** A date outranks a minor version: the oldest Opus 4 is taken for the newest. *)
Example dated_outranks_minor :
  latestIdForFamily "opus" ["claude-opus-4-20250514"; "claude-opus-4-7"] = Some "claude-opus-4-20250514".
Proof. vm_compute. reflexivity. Qed.

(** ** The order of ids *)

Fixpoint lex (ra rb : list Z) : Z :=
  match ra, rb with a :: ra, b :: rb => if (b =? a)%Z then lex ra rb else (b - a)%Z | _, _ => 0%Z end.
Definition pad (n : nat) (l : list Z) : list Z := l ++ repeat (-1)%Z (n - length l).

Lemma pad_cons n a l : pad (S n) (a :: l) = a :: pad n l.
Proof. done. Qed.
Lemma pad_nil n : pad (S n) [] = (-1)%Z :: pad n [].
Proof. unfold pad. cbn [length app]. rewrite !Nat.sub_0_r. reflexivity. Qed.

Lemma cmp_parts_lex ra : forall rb n, (length ra <= n)%nat -> (length rb <= n)%nat -> cmp_parts ra rb = lex (pad n ra) (pad n rb).
Proof.
  assert (Hnil : forall rb n, (length rb <= n)%nat -> cmp_parts [] rb = lex (pad n []) (pad n rb)).
  { induction rb as [|b rb IH]; intros n Hn.
    - cbn [cmp_parts]. induction (pad n []) as [|x l IH]; [done|]. cbn [lex]. by rewrite Z.eqb_refl.
    - destruct n as [|n]; [cbn in Hn; lia|]. rewrite pad_nil, pad_cons. cbn [lex].
      assert (Hn' : (length rb <= n)%nat) by (cbn in Hn; lia). specialize (IH n Hn'). rewrite <- IH.
      cbn [cmp_parts]. destruct (b =? -1)%Z; [|done]. by destruct rb. }
  induction ra as [|a ra IH]; intros rb n Ha Hb; [by apply Hnil|].
  destruct n as [|n]; [cbn in Ha; lia|]. rewrite pad_cons. cbn [length] in Ha.
  destruct rb as [|b rb].
  - rewrite pad_nil. cbn [cmp_parts lex]. rewrite (IH [] n) by (cbn; lia). done.
  - rewrite pad_cons. cbn [cmp_parts lex]. cbn [length] in Hb. rewrite (IH rb n) by lia. done.
Qed.

Lemma lex_opp ra : forall rb, lex rb ra = (- lex ra rb)%Z.
Proof.
  induction ra as [|a ra IH]; intros [|b rb]; cbn [lex]; try done.
  rewrite (Z.eqb_sym a b). destruct (b =? a)%Z; [apply IH|lia].
Qed.
Lemma lex_trans ra : forall rb rc, length ra = length rb -> length rb = length rc -> (lex ra rb <= 0 -> lex rb rc <= 0 ->
  lex ra rc <= 0 /\ (lex ra rc = 0 -> lex ra rb = 0 /\ lex rb rc = 0))%Z.
Proof.
  induction ra as [|a ra IH]; intros [|b rb] [|c rc] Hab Hbc H1 H2; try discriminate; cbn [lex] in *; [lia|].
  destruct (b =? a)%Z eqn:E1, (c =? b)%Z eqn:E2, (c =? a)%Z eqn:E3; try lia.
  apply IH; [by injection Hab|by injection Hbc|done|done].
Qed.

Lemma pad_length n l : (length l <= n)%nat -> length (pad n l) = n.
Proof. intros H. unfold pad. rewrite length_app, repeat_length. lia. Qed.

Lemma rank_sign a b : (cmp_parts (modelRank b) (modelRank a) = - cmp_parts (modelRank a) (modelRank b))%Z.
Proof.
  set (n := (length (modelRank a) + length (modelRank b))%nat). rewrite !(cmp_parts_lex _ _ n) by lia. apply lex_opp.
Qed.

(** The comparator as an integer. *)
Definition rank_order (a b : string) : Z :=
  let d := cmp_parts (modelRank a) (modelRank b) in
  if (d =? 0)%Z then (Z.of_nat (String.length a) - Z.of_nat (String.length b))%Z else d.
Lemma after_rank a b : after cmpRank a b = (0 <? rank_order a b)%Z.
Proof.
  unfold after. change (cmpRank a b) with (num_of_Z (rank_order a b)). change (Fin 0) with (num_of_Z 0).
  destruct (0 <? rank_order a b)%Z eqn:E.
  - apply num_ltb_Z. lia.
  - destruct (num_ltb _ _) eqn:F; [|done]. apply num_ltb_Z in F. lia.
Qed.

Lemma rank_asym a b : after cmpRank a b = true -> after cmpRank b a = false.
Proof.
  rewrite !after_rank. unfold rank_order. cbv zeta. rewrite (rank_sign a b).
  destruct (cmp_parts (modelRank a) (modelRank b) =? 0)%Z eqn:E, (- cmp_parts (modelRank a) (modelRank b) =? 0)%Z eqn:F; lia.
Qed.
Lemma rank_trans a b c : after cmpRank a b = false -> after cmpRank b c = false -> after cmpRank a c = false.
Proof.
  rewrite !after_rank. unfold rank_order. cbv zeta.
  set (n := (length (modelRank a) + length (modelRank b) + length (modelRank c))%nat).
  rewrite !(cmp_parts_lex _ _ n) by lia. intros H1 H2.
  destruct (lex_trans (pad n (modelRank a)) (pad n (modelRank b)) (pad n (modelRank c))) as [H3 H4].
  - rewrite !pad_length by lia. done.
  - rewrite !pad_length by lia. done.
  - destruct (lex (pad n (modelRank a)) (pad n (modelRank b)) =? 0)%Z eqn:E; lia.
  - destruct (lex (pad n (modelRank b)) (pad n (modelRank c)) =? 0)%Z eqn:E; lia.
  - destruct (lex (pad n (modelRank a)) (pad n (modelRank c)) =? 0)%Z eqn:E; [|lia].
    apply Z.eqb_eq in E. destruct (H4 E) as [E1 E2]. rewrite E1, E2 in *. cbn [Z.eqb] in *. lia.
Qed.

Lemma sorted_head ids x : head (sort cmpRank ids) = Some x -> x ∈ ids /\ forall y, y ∈ ids -> after cmpRank x y = false.
Proof.
  intros H. destruct (sort cmpRank ids) as [|z l] eqn:E; [done|]. injection H as ->. assert (Hp := sort_perm cmpRank ids). rewrite E in Hp.
  split; [rewrite <- Hp; left|]. intros y Hy. rewrite <- Hp in Hy.
  apply (proj1 (Forall_forall _ _) (sort_head cmpRank rank_asym rank_trans ids x l E)). done.
Qed.

(** A family name stands for the newest of its models: the id chosen belongs to the catalog and
    the family, is not a fast, latest or numbered variant, and no other candidate ranks before
    it; there is a choice whenever there is a candidate. *)
Theorem latest_is_newest family ids :
  match latestIdForFamily family ids with
  | Some x => x ∈ ids /\ preferred (to_lower family) x = true /\
      forall y, y ∈ ids -> preferred (to_lower family) y = true -> num_leb (cmpRank x y) (Fin 0) = true
  | None => forall y, y ∈ ids -> preferred (to_lower family) y = false
  end.
Proof.
  unfold latestIdForFamily. set (l := List.filter (preferred (to_lower family)) ids).
  assert (Hl : forall y, y ∈ l <-> y ∈ ids /\ preferred (to_lower family) y = true).
  { intros y. unfold l. by rewrite list_elem_of_In, filter_In, <- list_elem_of_In. }
  destruct (head (sort cmpRank l)) as [x|] eqn:E.
  - apply sorted_head in E as [Hx Hy]. apply Hl in Hx as [Hx Hp]. split_and!; [done|done|]. intros y Hin Hpy.
    assert (Ha := Hy y (proj2 (Hl y) (conj Hin Hpy))). unfold after in Ha. change (cmpRank x y) with (num_of_Z (rank_order x y)) in *.
    change (Fin 0) with (num_of_Z 0) in *. apply num_leb_Z. destruct (decide (rank_order x y <= 0)%Z) as [|Hn]; [done|].
    rewrite (proj2 (num_ltb_Z 0 (rank_order x y))) in Ha by lia. done.
  - intros y Hy. destruct (preferred (to_lower family) y) eqn:Hp; [|done]. assert (Hin := proj2 (Hl y) (conj Hy Hp)).
    assert (Hs := sort_perm cmpRank l). destruct (sort cmpRank l); [|done]. apply Permutation_nil_l in Hs. rewrite <- Hs in Hin. inversion Hin.
Qed.

(** ** What is accepted *)

Lemma dated_in raw ids x : latestIdForUndatedAlias raw ids = Some x -> x ∈ ids.
Proof.
  unfold latestIdForUndatedAlias. destruct (String.eqb _ _); [done|]. intros H. apply sorted_head in H as [H _].
  by apply list_elem_of_In, filter_In in H as [H%list_elem_of_In _].
Qed.
Lemma in_catalog_in ids c x : in_catalog ids c = Some x -> x ∈ ids.
Proof.
  unfold in_catalog. destruct (List.find _ ids) as [y|] eqn:E; [|apply dated_in]. intros [= ->].
  by apply find_some in E as [E%list_elem_of_In _].
Qed.
Lemma first_some_in {A B} (f : A -> option B) l y : first_some f l = Some y -> exists x, f x = Some y.
Proof. induction l as [|x l IH]; [done|]. cbn [first_some]. destruct (f x) eqn:E; [intros [= <-]; by exists x|apply IH]. Qed.

Lemma resolved_in policy raw ids m alias w : resolveCatalogModel policy raw ids = Resolved m alias w ->
  exists c, c ∈ ids /\ to_lower c = to_lower m.
Proof.
  unfold resolveCatalogModel. cbv zeta. destruct (String.eqb _ ""); [done|].
  destruct (if mem _ _ then _ else _) as [latest|] eqn:El.
  { intros [= <- _ _]. exists latest. split; [|done]. destruct (mem _ _); [|done]. unfold latestIdForFamily in El.
    apply sorted_head in El as [El _]. by apply list_elem_of_In, filter_In in El as [El%list_elem_of_In _]. }
  set (id := if starts_with "claude-" _ then _ else _). clearbody id. clear El.
  destruct (existsb _ ids) eqn:Ee.
  { intros [= <- _ _]. apply existsb_exists in Ee as (c & Hc & E). exists c. split; [by apply list_elem_of_In|by apply String.eqb_eq]. }
  destruct (latestIdForUndatedAlias id ids) as [d|] eqn:Ed.
  { intros [= <- _ _]. exists d. split; [by apply dated_in in Ed|done]. }
  destruct (resolvePolicyAliasToCatalog policy id ids) as [v|] eqn:Ev; [|done].
  intros [= <- _ _]. exists v. split; [|done]. unfold resolvePolicyAliasToCatalog in Ev. destruct (forallb _ _); [|done].
  apply first_some_in in Ev as [c Hc]. by apply in_catalog_in in Hc.
Qed.

(** The gateway fails closed on model names: a name it accepts stands for a model that is in the
    catalog (up to case) and enabled by the policy, unless the catalog is empty. *)
Theorem accepted_model_known policy now cache model m alias w pending cache' :
  validateOfficialModel policy now cache model = (Accepted m alias w pending, cache') ->
  if pending then c_ids cache' = [] else (exists c, c ∈ c_ids cache' /\ to_lower c = to_lower m) /\ isModelEnabled policy (JStr m) = true.
Proof.
  unfold validateOfficialModel. cbv zeta. destruct (String.eqb _ ""); [done|]. destruct (foreign _); [done|].
  set (c := seedModelCatalog policy now cache). destruct (resolveCatalogModel _ _ _) as [r a w1|] eqn:Er.
  - destruct (isModelEnabled policy (JStr r)) eqn:Ee; [|done]. intros [= <- _ _ <- <-]. split; [|done]. by eapply resolved_in.
  - destruct (c_ids c) eqn:Ec; [|done]. destruct (isCatalogModelId _); [|done]. intros [= _ _ _ <- <-]. done.
Qed.

Definition sample_policy : jsval := seedDefaultPolicy "2026-01-01T00:00:00.000Z".
Lemma accepted_model_known_witness : exists m cache',
  validateOfficialModel sample_policy (num_of_Z 0) clearModelsCache (JStr "anthropic/sonnet") = (Accepted m (Some "sonnet") false false, cache') /\
  (exists c, c ∈ c_ids cache' /\ to_lower c = to_lower m).
Proof.
  assert (E : exists m cache', validateOfficialModel sample_policy (num_of_Z 0) clearModelsCache (JStr "anthropic/sonnet") = (Accepted m (Some "sonnet") false false, cache'))
    by (eexists _, _; vm_compute; reflexivity).
  destruct E as (m & cache' & E). exists m, cache'. split; [exact E|].
  exact (proj1 (accepted_model_known sample_policy (num_of_Z 0) clearModelsCache (JStr "anthropic/sonnet") m (Some "sonnet") false false cache' E)).
Defined.
