(* ===== verification/Distill.v ===== *)
(** * Harvest detection and refusal memory (src/src/lib/core/distill-detect.mjs,
    src/src/lib/core/refusal-guard.mjs, src/src/lib/db/repos/refusal-guards-repo.mjs)

    A request is refused when its prompt carries a configured fingerprint or needle, or when it
    is a contest question asked in the shape of a harvest; a prompt the provider refused once is
    remembered by its digest and refused again without a hop.  The rules file is given as the
    parsed document ([None] when it is missing, unreadable or not JSON); the digest is a
    parameter. *)

From S2P Require Import Prelude.
From S2P Require Import JsValue.
From S2P Require Import JsRegex.
From S2P Require Import JsText.
From S2P Require Import JsDate.
From S2P Require Import JsJson.
From S2P Require Import Errors.
From S2P Require Import WebSearch.
#[local] Open Scope string_scope.
#[local] Open Scope list_scope.
#[local] Open Scope js_scope.

Definition DISTILL_BLOCK_MESSAGE : string := "不允许蒸馏".

Definition HIGH_EFFORT : list string := ["high"; "xhigh"; "max"].

Definition CONTEST_RE : rx :=
  ralts [lits ["prove that"; (backslash ++ "boxed")%string; "olympiad"; "which of the following"; "livecodebench"];
         rseqs [lit "amc"; ropt (RChr (fun c => is_space c || Ascii.eqb c "_" || Ascii.eqb c "-"%char)); lit "aime"]].
Definition is_contest (text : string) : bool :=
  rx_test_i CONTEST_RE text || whole_word (lit "aime") text || whole_word (lit "gpqa") text.

Definition DEFAULT_DISTILL_RULES : jsval := JObj
  [("enabled", JBool true); ("skip_official", JBool true); ("skip_zero", JBool true);
   ("error", JObj [("status", jint 403); ("type", ErrorType?."PERMISSION"); ("code", ErrorCode?."DISTILL_BLOCKED");
                   ("message", JStr DISTILL_BLOCK_MESSAGE)]);
   ("structure", JObj [("min_max_tokens", jint 8192); ("require_no_tools", JBool true); ("require_single_turn", JBool true)]);
   ("needles", jstrs
     ["<think>"; "</think>"; "<answer>"; "<|begin_of_thought|>"; "<|end_of_thought|>"; "<|begin_of_solution|>";
      "Return your final response within \boxed{}";
      "Generate an executable Python function generated from the given prompt";
      "systematic long thinking process"; "as an internal monologue";
      "Please reason step by step, and put your final answer within \boxed{}";
      "Respond in the following format: <think>"]);
   ("fingerprints", jstrs
     ["Let  $a,b,A,B$  be given reals. We consider the function defined by";
      "The graph of the function $y=\cos x - \sin x$ has a line of symmetry given by";
      "Prove that if $\alpha, \beta, \gamma$ are the angles of a triangle, then";
      "Jia walks from home to Yi's house. At the same time, Yi rides a bicycle";
      "Colonoscopy reveals a fungating hemorrhagic mass in the ascending colon";
      "reactant: Cc1ccc2c(cnn2C2CCCCO2)c1B1OC(C)(C)C(C)(C)O1";
      "What is the area, in square units, of an isosceles right triangle with a hypotenuse of 20 units?"])].

Definition ENVELOPE_NEEDLES : list string := ["Persistable response items"].

(** ** Text of a request *)

(** [replace(/\s+/g, ' ')]: each run of spaces is one. *)
Fixpoint squeeze_run (in_run : bool) (s : string) : string :=
  match s with
  | EmptyString => EmptyString
  | String c r =>
    if is_space c then if in_run then squeeze_run true r else String " "%char (squeeze_run true r)
    else String c (squeeze_run false r)
  end.
Definition squeeze : string -> string := squeeze_run false.

(** [replace(/\\\s+/g, '\\')]: no space after a backslash. *)
Fixpoint unspace (after : bool) (s : string) : string :=
  match s with
  | EmptyString => EmptyString
  | String c r => if after && is_space c then unspace true r else String c (unspace (nat_of_ascii c =? 92)%nat r)
  end.

Definition normalizeText (s : jsval) : string := trim (unspace false (squeeze (to_lower (str_or_empty s)))).

Definition part_text (part : jsval) : string :=
  match part with
  | JStr s => s
  | _ => match part?."text", part?."content" with
         | JStr s, _ => s
         | _, JStr s => s
         | _, _ => ""
         end
  end.
Definition contentToText (content : jsval) : string :=
  match content with
  | JStr s => s
  | JArr l => join newline (List.filter nonempty (map part_text l))
  | _ => match content?."text" with JStr s => s | _ => "" end
  end.

Definition systemText (body : jsval) : string :=
  match body?."system" with
  | JStr s => s
  | JArr l => contentToText (JArr l)
  | _ => ""
  end.

Definition userTexts (body : jsval) : list string :=
  let turns := List.filter (fun m => is_str (m?."role") "user") (arr_of (body?."messages")) in
  let input := match body?."input" with
               | JStr s => [s]
               | JArr l => [contentToText (JArr l)]
               | _ => []
               end in
  List.filter nonempty (map (fun m => contentToText (m?."content")) turns ++ input).

Record prompt := { p_system : string; p_user : string; p_joined : string }.

Definition extractPrompt (inbound body : jsval) : prompt :=
  let users := userTexts inbound ++ userTexts body in
  let systems := List.filter nonempty [systemText inbound; systemText body] in
  {| p_system := hd "" systems; p_user := hd "" users; p_joined := join newline (systems ++ users) |}.

(** ** Shape of a request *)

Definition messageCount (body : jsval) : nat :=
  match body?."messages" with
  | JArr l => length l
  | _ => if is_nullish (body?."input") then 0 else 1
  end.
Definition toolsCount (body : jsval) : nat := length (arr_of (body?."tools")).
(** [None] is [null]. *)
Definition maxTokensOf (body : jsval) : option num :=
  let n := body?."max_tokens" ?? body?."max_output_tokens" ?? body?."max_new_tokens" in
  if is_nullish n then None else Some (to_number n).

Record structure := { messages_count : nat; tools_count : nat; max_tokens : option num }.

Definition extractStructure (inbound body : jsval) : structure :=
  let src := if is_object body then body else inbound ||| JObj [] in
  {| messages_count := messageCount src;
     tools_count := match toolsCount src with O => toolsCount inbound | n => n end;
     max_tokens := match maxTokensOf src with None => maxTokensOf inbound | n => n end |}.

Definition inboundWantsThinkingText (inbound : jsval) : bool :=
  let t := inbound?."thinking" in
  let effort := inbound?."reasoning_effort" ||| inbound?."reasoning"?."effort" in
  (is_object t && (String.eqb (to_lower (str_or_empty (t?."display"))) "summarized" ||
                   (String.eqb (to_lower (str_or_empty (t?."type"))) "enabled" &&
                    num_leb (num_of_Z 8192) (to_number (t?."budget_tokens" ||| jint 0)))))
  || (truthy effort && mem (to_lower (to_string effort)) HIGH_EFFORT)
  || num_ltb (num_of_Z 1) (to_number (inbound?."n" ||| inbound?."num_generations" ||| jint 1)).

Definition isHarvest (inbound : jsval) (s : structure) (rules : jsval) : bool :=
  let st := rules?."structure" ||| DEFAULT_DISTILL_RULES?."structure" in
  let minTok := to_number (st?."min_max_tokens" ||| jint 8192) in
  if truthy (st?."require_no_tools") && (0 <? tools_count s)%nat then false
  else if truthy (st?."require_single_turn") && (1 <? messages_count s)%nat then false
  else if match max_tokens s with Some n => num_ltb n minTok | None => false end then false
  else inboundWantsThinkingText inbound.

(** The first of [items] whose normal form occurs in the text; [''] for none. *)
Definition first_hit (normal : jsval -> string) (show : string -> string) (hay : string) (items : jsval) : string :=
  if nonempty hay then
    match List.find (fun raw => nonempty (normal raw) && includes hay (normal raw)) (arr_of items) with
    | Some raw => show (to_string raw)
    | None => ""
    end
  else "".
Definition matchFingerprints (text : string) (fingerprints : jsval) : string :=
  first_hit normalizeText (take_chars 80) (normalizeText (JStr text)) fingerprints.
Definition matchNeedles (text : string) (needles : jsval) : string :=
  first_hit (fun raw => to_lower (str_or_empty raw)) (fun s => s) (to_lower text) needles.

(** ** Rules *)

Definition asStringList (v fallback : jsval) : jsval :=
  match v with JArr l => jstrs (trimmed l) | _ => fallback end.

Definition clampStatus (n : jsval) : jsval :=
  let s := to_number n in
  if negb (is_finite s) || num_ltb s (num_of_Z 400) || num_ltb (num_of_Z 599) s then jint 403 else JNum (num_floor s).

Definition object_or_empty (v : jsval) : jsval := if is_object v then v else JObj [].
(** [v !== false] *)
Definition unless_false (v : jsval) : jsval := JBool (negb (is_bool v false)).

Definition threshold (v : jsval) : num :=
  num_max (num_of_Z 256) (to_number (JNum (to_number (v ||| jint 8192)) ||| jint 8192)).

Definition normalizeDistillRules (raw : jsval) : jsval :=
  let src := object_or_empty raw in
  let err := object_or_empty (src?."error") in
  let st := object_or_empty (src?."structure") in
  let message := to_string (JStr (trim (to_string (err?."message" ||| JStr DISTILL_BLOCK_MESSAGE))) ||| JStr DISTILL_BLOCK_MESSAGE) in
  JObj
    [("enabled", unless_false (src?."enabled")); ("skip_official", unless_false (src?."skip_official"));
     ("skip_zero", unless_false (src?."skip_zero"));
     ("error", JObj [("status", clampStatus (err?."status" ?? jint 403));
                     ("type", JStr (to_string (err?."type" ||| ErrorType?."PERMISSION")));
                     ("code", JStr (to_string (err?."code" ||| ErrorCode?."DISTILL_BLOCKED")));
                     ("message", JStr (take_chars 200 message))]);
     ("structure", JObj [("min_max_tokens", JNum (threshold (st?."min_max_tokens")));
                         ("require_no_tools", unless_false (st?."require_no_tools"));
                         ("require_single_turn", unless_false (st?."require_single_turn"))]);
     ("needles", asStringList (src?."needles") (DEFAULT_DISTILL_RULES?."needles"));
     ("fingerprints", asStringList (src?."fingerprints") (DEFAULT_DISTILL_RULES?."fingerprints"))].

Definition not_bool (body : jsval) (k : string) : list string :=
  match body?.k with
  | JUndef | JNull | JBool _ => []
  | _ => [(k ++ " 必须是布尔")%string]
  end.
Definition not_array (body : jsval) (k : string) : list string :=
  if is_nullish (body?.k) || is_array (body?.k) then [] else [(k ++ " 必须是数组")%string].
Definition typeProblems (body : jsval) : list string :=
  not_bool body "enabled" ++ not_bool body "skip_official" ++ not_bool body "skip_zero" ++
  not_array body "needles" ++ not_array body "fingerprints".

Definition too_long (body : jsval) (k : string) : list string :=
  if (200 <? length (arr_of (body?.k)))%nat then [(k ++ " 最多 200 条")%string] else [].
Definition sizeProblems (body : jsval) : list string := too_long body "needles" ++ too_long body "fingerprints".

Definition errorProblems (err : jsval) : list string :=
  if is_nullish err then []
  else if negb (is_object err) then ["error 必须是对象"]
  else
    (if negb (is_nullish (err?."message")) && negb (nonempty (trim (to_string (err?."message"))))
     then ["error.message 不能为空"] else []) ++
    (let s := to_number (err?."status") in
     if negb (is_nullish (err?."status")) && (negb (is_finite s) || num_ltb s (num_of_Z 400) || num_ltb (num_of_Z 599) s)
     then ["error.status 必须是 400–599"] else []).

(** [null] is not modelled: reading a field of it throws. *)
Definition validateDistillPatch (body : jsval) : list string :=
  typeProblems body ++ sizeProblems body ++ errorProblems (body?."error").

Definition loadDistillRules (file : option jsval) : jsval :=
  match file with
  | None => normalizeDistillRules DEFAULT_DISTILL_RULES
  | Some data => normalizeDistillRules data
  end.

(** The file after the write, and the rules. *)
Definition saveDistillRules (file : option jsval) (patch : jsval) : option jsval * jsval :=
  let cur := loadDistillRules file in
  let src := object_or_empty patch in
  let next := normalizeDistillRules
    (with_field (with_field (spread cur src)
       "error" (spread (cur?."error") (src?."error" ||| JObj [])))
       "structure" (spread (cur?."structure") (src?."structure" ||| JObj []))) in
  (Some (json_copy next), next).

Definition distillBlockError (rules requestId : jsval) : jsval :=
  let e := (normalizeDistillRules rules)?."error" in
  makeError (with_request_id
    {| e_type := e?."type"; e_code := e?."code"; e_message := e?."message"; e_param := JUndef; e_details := JUndef;
       e_status := e?."status"; e_request_id := JUndef |} requestId).

(** ** Verdict *)

Record context := { c_inbound : jsval; c_body : jsval; c_official : bool; c_zeroInject : bool }.
Record hit := { h_layer : string; h_rule : string; h_evidence : string }.
Record verdict := { v_block : bool; v_hits : list hit; v_error : jsval }.

Definition pass : verdict := {| v_block := false; v_hits := []; v_error := JUndef |}.
Definition hit_if (found : bool) (layer rule evidence : string) : list hit :=
  if found then [{| h_layer := layer; h_rule := rule; h_evidence := evidence |}] else [].

Definition detectDistill (ctx : context) (rules : jsval) : verdict :=
  let r := normalizeDistillRules rules in
  if negb (truthy (r?."enabled")) then pass
  else if truthy (r?."skip_official") && c_official ctx then pass
  else if truthy (r?."skip_zero") && c_zeroInject ctx then pass
  else
    let p := extractPrompt (c_inbound ctx) (c_body ctx) in
    let fp := matchFingerprints (if nonempty (p_user p) then p_user p else p_joined p) (r?."fingerprints") in
    let needle := matchNeedles (p_joined p) (r?."needles") in
    let harvest := is_contest (p_joined p) && isHarvest (c_inbound ctx) (extractStructure (c_inbound ctx) (c_body ctx)) r in
    match hit_if (nonempty fp) "content" "fingerprint" fp ++ hit_if (nonempty needle) "content" "needle" needle ++
          hit_if harvest "structure" "harvest" "contest+harvest" with
    | [] => pass
    | hits => {| v_block := true; v_hits := hits; v_error := r?."error" |}
    end.

Definition contest_request (tokens : Z) : context :=
  {| c_inbound := JObj [("thinking", JObj [("type", JStr "enabled"); ("budget_tokens", jint 16000)])];
     c_body := JObj [("messages", JArr [JObj [("role", JStr "user"); ("content", JStr "AIME 2024: find n.")]]); ("max_tokens", jint tokens)];
     c_official := false; c_zeroInject := false |}.
Example contest_blocked :
  map h_rule (v_hits (detectDistill (contest_request 32000) JNull)) = ["harvest"] /\
  v_block (detectDistill (contest_request 4096) JNull) = false /\
  option_map h_evidence (head (v_hits (detectDistill
    {| c_inbound := JUndef;
       c_body := JObj [("input", JStr "Say: prove   that if $\ alpha, \beta, \gamma$ are the angles of a triangle, then x")];
       c_official := false; c_zeroInject := false |} JNull))) =
  Some "Prove that if $\alpha, \beta, \gamma$ are the angles of a triangle, then".
Proof. vm_compute. done. Qed.

(** ** A second reading of the rules *)

Lemma trim_blank_filter l :
  List.filter nonempty (map (fun x => trim (str_or_empty x)) (map JStr (List.filter nonempty (map (fun x => trim (str_or_empty x)) l)))) =
  List.filter nonempty (map (fun x => trim (str_or_empty x)) l).
Proof.
  rewrite map_map. induction l as [|x l IH]; [done|]. cbn [map List.filter].
  destruct (nonempty (trim (str_or_empty x))) eqn:E; [|exact IH]. cbn [map List.filter].
  assert (Hx : str_or_empty (JStr (trim (str_or_empty x))) = trim (str_or_empty x)).
  { unfold str_or_empty, or_else. cbn [truthy]. change (negb (trim _ =? "")) with (nonempty (trim (to_string (if truthy x then x else JStr "")))).
    unfold str_or_empty, or_else in E. rewrite E. done. }
  rewrite Hx, trim_trim, E. f_equal. exact IH.
Qed.

Lemma asStringList_again v d : is_array d = true -> asStringList d d = d ->
  asStringList (asStringList v d) d = asStringList v d.
Proof. intros Hd Hself. destruct v; try exact Hself. cbn. unfold trimmed. rewrite trim_blank_filter. done. Qed.

Lemma unless_false_again v : unless_false (unless_false v) = unless_false v.
Proof. unfold unless_false. cbn. destruct (is_bool v false); done. Qed.

Lemma or_else_truthy a b : truthy a = true -> a ||| b = a.
Proof. intros H. unfold or_else. rewrite H. done. Qed.

Lemma threshold_again v : threshold (JNum (threshold v)) = threshold v.
Proof.
  unfold threshold. set (x := to_number (v ||| jint 8192)).
  assert (Hy : truthy (JNum (to_number (JNum x ||| jint 8192))) = true).
  { unfold or_else. destruct (truthy (JNum x)) eqn:E; done. }
  set (y := to_number (JNum x ||| jint 8192)) in *. clearbody y. clear x.
  assert (H : num_max (num_of_Z 256) y = y \/ num_max (num_of_Z 256) y = num_of_Z 256).
  { unfold num_max. destruct y; try done; auto. destruct (num_leb _ _); auto. }
  destruct H as [H|H]; rewrite H; [|done].
  rewrite (or_else_truthy (JNum y)), (or_else_truthy (JNum _)) by exact Hy. exact H.
Qed.

Definition DECIDING : list string := ["enabled"; "skip_official"; "skip_zero"; "structure"; "needles"; "fingerprints"].

Lemma rules_again raw k : k ∈ DECIDING ->
  (normalizeDistillRules (normalizeDistillRules raw))?.k = (normalizeDistillRules raw)?.k.
Proof.
  intros Hk. set_unfold in Hk.
  destruct Hk as [->|[->|[->|[->|[->|[->|[]]]]]]];
  [apply unless_false_again..| | |].
  - cbn [normalizeDistillRules get assoc String.eqb Ascii.eqb Bool.eqb object_or_empty is_object].
    rewrite threshold_again, !unless_false_again. done.
  - apply asStringList_again; done.
  - apply asStringList_again; done.
Qed.

Lemma verdict_depends ctx r1 r2 :
  (forall k, k ∈ DECIDING -> (normalizeDistillRules r1)?.k = (normalizeDistillRules r2)?.k) ->
  v_block (detectDistill ctx r1) = v_block (detectDistill ctx r2) /\
  v_hits (detectDistill ctx r1) = v_hits (detectDistill ctx r2).
Proof.
  unfold detectDistill, isHarvest. set (a := normalizeDistillRules r1). set (b := normalizeDistillRules r2). clearbody a b.
  intros H. rewrite !(H "enabled"), !(H "skip_official"), !(H "skip_zero"), !(H "structure"), !(H "needles"),
    !(H "fingerprints") by in_list.
  repeat case_match; done.
Qed.

(** A value that JSON keeps as it is. *)
Definition copies (v : jsval) : Prop := v <> JUndef /\ json_copy v = v.

Lemma copies_obj f : Forall (fun p : string * jsval => copies p.2) f -> copies (JObj f).
Proof.
  intros H. split; [done|]. cbn. f_equal. induction H as [|(k, v) f (Hu & Hv) H IH]; [done|]. cbn in *.
  destruct v; try done; rewrite ?Hv, IH; done.
Qed.

Lemma copies_bool v : copies (unless_false v).
Proof. done. Qed.
Lemma copies_str s : copies (JStr s).
Proof. done. Qed.
Lemma copies_num n : is_finite n = true -> copies (JNum n).
Proof. intros H. split; [done|]. cbn. by rewrite H. Qed.
Lemma copies_jstrs l : copies (jstrs l).
Proof. split; [done|]. unfold jstrs. cbn. f_equal. induction l as [|x l IH]; [done|]. cbn. by rewrite IH. Qed.

Lemma copies_strings v d : copies d -> copies (asStringList v d).
Proof. intros Hd. destruct v; try exact Hd. apply copies_jstrs. Qed.

Lemma copies_status n : copies (clampStatus n).
Proof. unfold clampStatus. destruct (to_number n); try done. cbn. destruct (_ || _); done. Qed.

Ltac copies_fields :=
  apply copies_obj; repeat (apply Forall_cons; split); try apply Forall_nil; cbn [snd];
  auto using copies_bool, copies_str, copies_num, copies_status;
  try (apply copies_strings; apply copies_jstrs).

Lemma rules_copied raw : is_finite (to_number ((normalizeDistillRules raw)?."structure"?."min_max_tokens")) = true ->
  copies (normalizeDistillRules raw).
Proof.
  intros H. assert (Ht : is_finite (threshold ((object_or_empty ((object_or_empty raw)?."structure"))?."min_max_tokens")) = true)
    by exact H. clear H.
  copies_fields; copies_fields.
Qed.

(** The rules that [saveDistillRules] returns are the rules in force after a reload of the file:
    every request gets the same verdict and the same hits, provided that the token threshold is
    finite (JSON has no infinity). *)
Theorem saved_rules_in_force file patch ctx :
  let saved := saveDistillRules file patch in
  is_finite (to_number (saved.2?."structure"?."min_max_tokens")) = true ->
  v_block (detectDistill ctx (loadDistillRules saved.1)) = v_block (detectDistill ctx saved.2) /\
  v_hits (detectDistill ctx (loadDistillRules saved.1)) = v_hits (detectDistill ctx saved.2).
Proof.
  unfold saveDistillRules. cbn [fst snd]. intros H. apply verdict_depends. intros k Hk.
  cbn [loadDistillRules]. rewrite (proj2 (rules_copied _ H)). apply rules_again. exact Hk.
Qed.

Definition stricter : jsval := JObj [("structure", JObj [("min_max_tokens", jint 1000)]); ("needles", jstrs [" magic word "; ""])].
Lemma saved_rules_in_force_witness :
  let saved := saveDistillRules None stricter in
  v_block (detectDistill (contest_request 4096) (loadDistillRules saved.1)) = true.
Proof.
  pose proof (saved_rules_in_force None stricter (contest_request 4096)) as H. cbn zeta in H.
  cbn zeta. rewrite (proj1 (H ltac:(vm_compute; reflexivity))). vm_compute. reflexivity.
Defined.
