(* ===== verification/Refusals.v ===== *)
(** * Refusals that are remembered (src/src/lib/core/refusal-guard.mjs,
    src/src/lib/db/repos/refusal-guards-repo.mjs, the guards of
    src/src/lib/protocol/handle-protocol.mjs)

    The table is a map from fingerprints to rows; [sha256] is the hex digest of
    [crypto.createHash('sha256')], times are given in milliseconds.  The object the body's
    fields are read from is a parsed document, so a header set on it is not in the prompt. *)

From stdpp Require Import gmap strings.
From S2P Require Import Prelude.
From S2P Require Import JsValue.
From S2P Require Import JsRegex.
From S2P Require Import JsText.
From S2P Require Import JsDate.
From S2P Require Import JsJson.
From S2P Require Import Errors.
From S2P Require Import Ranking.
From S2P Require Import Distill.
#[local] Open Scope string_scope.
#[local] Open Scope list_scope.
#[local] Open Scope js_scope.

Definition REFUSAL_GUARD_MESSAGE : string :=
  "Request blocked by the refusal guard. Anthropic's API previously refused this pattern.".

Definition off (v : jsval) : bool := is_bool v false || is_num v 0 || is_str v "0" || is_str v "false".

(** [flag] is the first environment variable that is set; [setting] is [None] when there is no
    reader or it throws. *)
Definition isRefusalGuardEnabled (flag : jsval) (setting : option jsval) : bool :=
  if is_str flag "0" || is_str flag "false" then false
  else match setting with Some v => negb (off v) | None => true end.

Definition REFUSAL_HAY : rx :=
  ralts [lits ["usage policy"; "legal/aup"; "unable to respond to this request"; "violate our usage"; "content_filter_refusal"];
         rseqs [lit "stop_reason"; ropt (one_of "=:"); RStar (RChr is_space); lit "refusal"]].

Definition toolNamesOf (body : jsval) : list string :=
  foldr insert_key [] (trimmed (map (fun t => t?."name") (arr_of (body?."tools")))).

(** The document that is digested. *)
Definition fingerprint_payload (body inbound : jsval) : jsval :=
  let tools := match toolNamesOf body with [] => toolNamesOf inbound | l => l end in
  JObj [("model", JStr (to_lower (trim (str_or_empty (body?."model" ||| inbound?."model")))));
        ("prompt", JStr (normalizeText (JStr (p_joined (extractPrompt inbound body))))); ("tools", jstrs tools)].

Definition refusalPreview (body inbound : jsval) : string :=
  let p := extractPrompt inbound body in
  take_chars 240 (trim (squeeze (if nonempty (p_user p) then p_user p else p_joined p))).

Definition isUpstreamRefusal (result extra : jsval) : bool :=
  let stop := str_or_empty (result?."stopReason" ||| result?."body"?."stop_reason" ||| extra?."stop_reason") in
  let hay := List.filter truthy
    [extra?."error_message"; extra?."error_code"; result?."body"?."error"?."message"; result?."body"?."error"?."code";
     (if is_string (result?."error") then result?."error" else result?."error"?."message"); result?."finalState"] in
  is_str (result?."finalState") "content_filter" || String.eqb stop "refusal" ||
  rx_test_i REFUSAL_HAY (join newline (map to_string hay)).

Definition refusalGuardError (requestId : jsval) : jsval :=
  makeError (with_request_id (err (ErrorType?."PERMISSION") (ErrorCode?."REFUSAL_GUARD") (JStr REFUSAL_GUARD_MESSAGE) 403) requestId).

(** ** The table *)

Record row := { g_model : string; g_first_seen_at : string; g_last_seen_at : string; g_hit_count : Z;
                g_source_request_id : jsval; g_error_message : option string; g_preview : option string }.
Notation table := (gmap string row).

Definition iso (now : Z) : string := default "" (to_iso now).

Definition get (t : table) (fingerprint : jsval) : option row := t !! str_or_empty fingerprint.

(** [COALESCE(a, b)] *)
Definition coalesce (a b : option string) : option string := match a with Some _ => a | None => b end.
Definition cut (n : nat) (v : jsval) : option string := if truthy v then Some (take_chars n (to_string v)) else None.

Definition remember (t : table) (fingerprint model requestId errorMessage preview : jsval) (now : Z) : table * option row :=
  let fp := trim (str_or_empty fingerprint) in
  if negb (nonempty fp) then (t, None)
  else
    let message := cut 500 errorMessage in
    let shown := cut 240 preview in
    let r := match t !! fp with
             | Some old =>
               {| g_model := g_model old; g_first_seen_at := g_first_seen_at old; g_last_seen_at := iso now;
                  g_hit_count := g_hit_count old; g_source_request_id := g_source_request_id old;
                  g_error_message := coalesce message (g_error_message old); g_preview := coalesce shown (g_preview old) |}
             | None =>
               {| g_model := str_or_empty model; g_first_seen_at := iso now; g_last_seen_at := iso now; g_hit_count := 0;
                  g_source_request_id := requestId; g_error_message := message; g_preview := shown |}
             end in
    let t := <[fp := r]> t in (t, t !! fp).

Definition counted (now : Z) (r : row) : row :=
  {| g_model := g_model r; g_first_seen_at := g_first_seen_at r; g_last_seen_at := iso now; g_hit_count := g_hit_count r + 1;
     g_source_request_id := g_source_request_id r; g_error_message := g_error_message r; g_preview := g_preview r |}.
Definition hit (t : table) (fingerprint : jsval) (now : Z) : table * option row :=
  let fp := trim (str_or_empty fingerprint) in
  if negb (nonempty fp) then (t, None) else let t := alter (counted now) fp t in (t, t !! fp).

(** [ORDER BY last_seen_at DESC, fingerprint] *)
Definition newest_first (a b : string * row) : num :=
  match str_compare (g_last_seen_at b.2) (g_last_seen_at a.2) with
  | Lt => num_of_Z (-1)
  | Gt => num_of_Z 1
  | Eq => match str_compare a.1 b.1 with Lt => num_of_Z (-1) | Gt => num_of_Z 1 | Eq => Fin 0 end
  end.
Definition limit_of (limit : jsval) : num :=
  num_min (num_of_Z 500) (num_max (num_of_Z 1) (to_number (JNum (to_number limit) ||| jint 200))).
Definition list_rows (t : table) (limit : jsval) : list (string * row) :=
  match limit_of limit with
  | Fin q => take (Z.to_nat (Qfloor q)) (sort newest_first (map_to_list t))
  | _ => []
  end.
Definition count (t : table) : nat := size t.
Definition remove (t : table) (fingerprint : jsval) : table * bool :=
  let fp := trim (str_or_empty fingerprint) in
  if nonempty fp then (delete fp t, bool_decide (is_Some (t !! fp))) else (t, false).
Definition clear (t : table) : table * nat := (∅, size t).

(** ** The guards of a request *)

Record logs := { l_via : string; l_final_state : string; l_error_code : jsval; l_error_message : jsval }.

(** [None]: the request goes on. *)
Definition applyDistillGuard (inbound body : jsval) (official zeroInject : bool) (rules requestId : jsval) : option (jsval * logs) :=
  let v := detectDistill {| c_inbound := inbound; c_body := body; c_official := official; c_zeroInject := zeroInject |} rules in
  if negb (v_block v) then None
  else
    let evidence := join ";" (List.filter nonempty (map (fun h => if nonempty (h_evidence h) then h_evidence h else h_rule h) (v_hits v))) in
    let message := to_string (v_error v?."message") in
    Some (distillBlockError rules requestId,
          {| l_via := "distill-detect"; l_final_state := "distill_blocked"; l_error_code := v_error v?."code";
             l_error_message := JStr (if nonempty evidence then message ++ ": " ++ evidence else message)%string |}).

Section digests.
(** The hex digest of [crypto.createHash('sha256').update(s)]. *)
Variable sha256 : string -> string.

Definition refusalFingerprint (body inbound : jsval) : string := sha256 (default "" (stringify (fingerprint_payload body inbound))).

Definition applyRefusalGuard (enabled : bool) (t : table) (inbound body requestId : jsval) (now : Z) : table * option (jsval * logs) :=
  if negb enabled then (t, None)
  else
    let fp := refusalFingerprint body inbound in
    match get t (JStr fp) with
    | None => (t, None)
    | Some _ =>
      let blocked := refusalGuardError requestId in
      ((hit t (JStr fp) now).1,
       Some (blocked, {| l_via := "refusal-guard"; l_final_state := "refusal_guard"; l_error_code := JStr "refusal_guard";
                         l_error_message := blocked?."body"?."error"?."message" |}))
    end.

Definition rememberRefusal (enabled : bool) (t : table) (inbound body result extra requestId : jsval) (now : Z) : table :=
  if enabled && isUpstreamRefusal result extra then
    (remember t (JStr (refusalFingerprint body inbound)) (body?."model" ||| inbound?."model" ||| JStr "") requestId
       (extra?."error_message" ||| result?."body"?."error"?."message" ||| JNull) (JStr (refusalPreview body inbound)) now).1
  else t.

(** ** What a refusal is remembered by *)

(** The fields a fingerprint is made of. *)
Definition DIGESTED : list string := ["model"; "messages"; "input"; "system"; "tools"].
Definition same_prompt (a b : jsval) : Prop := forall k, k ∈ DIGESTED -> a?.k = b?.k.

Lemma same_prompt_payload b1 b2 i1 i2 : same_prompt b1 b2 -> same_prompt i1 i2 ->
  fingerprint_payload b1 i1 = fingerprint_payload b2 i2.
Proof.
  intros Hb Hi. unfold fingerprint_payload, toolNamesOf, extractPrompt, userTexts, systemText.
  rewrite (Hb "model"), (Hb "messages"), (Hb "input"), (Hb "system"), (Hb "tools"),
    (Hi "model"), (Hi "messages"), (Hi "input"), (Hi "system"), (Hi "tools") by in_list.
  done.
Qed.

(** What happens to the table between two requests. *)
Inductive event :=
  | Refused (body inbound result extra requestId : jsval) (now : Z)
  | Guarded_request (body inbound requestId : jsval) (now : Z)
  | Listed.
Definition run (t : table) (e : event) : table :=
  match e with
  | Refused body inbound result extra requestId now => rememberRefusal true t inbound body result extra requestId now
  | Guarded_request body inbound requestId now => (applyRefusalGuard true t inbound body requestId now).1
  | Listed => t
  end.
Definition answered (t : table) (e : event) : bool :=
  match e with
  | Guarded_request body inbound requestId now => bool_decide (is_Some ((applyRefusalGuard true t inbound body requestId now).2))
  | _ => false
  end.

(** A digest is a word: not blank, without spaces around it. *)
Hypothesis sha256_word : forall s, nonempty (sha256 s) = true /\ trim (sha256 s) = sha256 s.

Lemma fingerprint_key body inbound : let fp := refusalFingerprint body inbound in
  str_or_empty (JStr fp) = fp /\ trim fp = fp /\ nonempty fp = true.
Proof.
  cbn zeta. unfold refusalFingerprint. set (p := default _ _). destruct (sha256_word p) as (Hn & Ht).
  assert (H : str_or_empty (JStr (sha256 p)) = sha256 p).
  { unfold str_or_empty, or_else. cbn [truthy]. unfold nonempty in Hn. rewrite Hn. done. }
  rewrite H. done.
Qed.

Lemma guard_spec t body inbound requestId now : let fp := refusalFingerprint body inbound in
  applyRefusalGuard true t inbound body requestId now =
  match t !! fp with
  | None => (t, None)
  | Some r => (<[fp := counted now r]> t,
               Some (refusalGuardError requestId,
                     {| l_via := "refusal-guard"; l_final_state := "refusal_guard"; l_error_code := JStr "refusal_guard";
                        l_error_message := (refusalGuardError requestId)?."body"?."error"?."message" |}))
  end.
Proof.
  cbn zeta. unfold applyRefusalGuard, get, hit. destruct (fingerprint_key body inbound) as (-> & Ht & Hn).
  cbn [negb]. destruct (t !! refusalFingerprint body inbound) as [r|] eqn:E; [|done].
  rewrite Ht, Hn. cbn [negb fst]. f_equal. apply map_eq. intros k. destruct (decide (k = refusalFingerprint body inbound)) as [->|Hk].
  - rewrite lookup_alter_eq, E, lookup_insert_eq. done.
  - rewrite lookup_alter_ne, lookup_insert_ne by congruence. done.
Qed.

Lemma remembered_kept fp t e : is_Some (t !! fp) -> is_Some (run t e !! fp).
Proof.
  intros H. destruct e as [body inbound result extra rid now|body inbound rid now|]; cbn [run]; [| |done].
  - unfold rememberRefusal. cbn [andb]. destruct (isUpstreamRefusal _ _); [|done]. unfold remember.
    destruct (negb _); [done|]. cbn [fst]. apply lookup_insert_is_Some'. auto.
  - rewrite guard_spec. destruct (t !! refusalFingerprint body inbound); [|done]. cbn [fst]. apply lookup_insert_is_Some'. auto.
Qed.

Lemma remembered_kept_all fp es t : is_Some (t !! fp) -> is_Some (foldl run t es !! fp).
Proof. revert t. induction es as [|e es IH]; intros t H; [done|]. cbn. apply IH, remembered_kept, H. Qed.

Lemma refused_stored t body inbound result extra rid now : isUpstreamRefusal result extra = true ->
  is_Some (run t (Refused body inbound result extra rid now) !! refusalFingerprint body inbound).
Proof.
  intros H. cbn [run]. unfold rememberRefusal. rewrite H. cbn [andb]. unfold remember.
  destruct (fingerprint_key body inbound) as (-> & Ht & Hn). rewrite Ht, Hn. cbn [negb fst]. rewrite lookup_insert_eq. done.
Qed.

(** A prompt the provider refused once is refused from then on without a hop: after the refusal and
    any later traffic, a request with the same model, system, messages and tools (whatever its
    other fields) gets the 403 of the guard, and the row of its fingerprint counts one hit more. *)
Theorem refused_again t es body inbound result extra rid now body' inbound' rid' now' :
  isUpstreamRefusal result extra = true -> same_prompt body' body -> same_prompt inbound' inbound ->
  let t' := foldl run (run t (Refused body inbound result extra rid now)) es in
  let fp := refusalFingerprint body inbound in
  exists r log, t' !! fp = Some r /\
    applyRefusalGuard true t' inbound' body' rid' now' = (<[fp := counted now' r]> t', Some (refusalGuardError rid', log)) /\
    (refusalGuardError rid')?."status" = jint 403.
Proof.
  intros Href Hb Hi. cbn zeta. set (t' := foldl run _ es).
  assert (Hs : is_Some (t' !! refusalFingerprint body inbound)) by (apply remembered_kept_all, refused_stored, Href).
  destruct Hs as (r & Hr). exists r. eexists. split; [exact Hr|].
  assert (Hfp : refusalFingerprint body' inbound' = refusalFingerprint body inbound)
    by (unfold refusalFingerprint; by rewrite (same_prompt_payload _ _ _ _ Hb Hi)).
  rewrite guard_spec, Hfp, Hr. done.
Qed.
End digests.

(** A stand-in for the digest. *)
Definition marked (s : string) : string := String "h" (s ++ "h").
Lemma marked_word s : nonempty (marked s) = true /\ trim (marked s) = marked s.
Proof. split; [done|]. apply trim_between; done. Qed.

Definition asked (tokens : Z) : jsval :=
  JObj [("model", JStr "claude-opus-4-7"); ("max_tokens", jint tokens); ("messages", JArr [JObj [("role", JStr "user"); ("content", JStr "hi")]])].
Lemma refused_again_witness :
  exists r log,
    foldl (run marked) (run marked ∅ (Refused (asked 100) JUndef (JObj [("stopReason", JStr "refusal")]) JUndef JNull 0))
      [Guarded_request (asked 5) JUndef JNull 7] !! refusalFingerprint marked (asked 100) JUndef = Some r /\
    applyRefusalGuard marked true
      (foldl (run marked) (run marked ∅ (Refused (asked 100) JUndef (JObj [("stopReason", JStr "refusal")]) JUndef JNull 0))
        [Guarded_request (asked 5) JUndef JNull 7]) JUndef (asked 9) JNull 8 =
    (<[refusalFingerprint marked (asked 100) JUndef := counted 8 r]>
      (foldl (run marked) (run marked ∅ (Refused (asked 100) JUndef (JObj [("stopReason", JStr "refusal")]) JUndef JNull 0))
        [Guarded_request (asked 5) JUndef JNull 7]), Some (refusalGuardError JNull, log)) /\
    (refusalGuardError JNull)?."status" = jint 403.
Proof.
  apply (refused_again marked marked_word ∅ [Guarded_request (asked 5) JUndef JNull 7]).
  - vm_compute. reflexivity.
  - intros k Hk. set_unfold in Hk. destruct Hk as [->|[->|[->|[->|[->|[]]]]]]; reflexivity.
  - intros k _. reflexivity.
Defined.
