(* ===== verification/Sticky.v ===== *)
(** * Sticky conversations (src/src/lib/pool/sticky-router.mjs, src/src/lib/db/repos/sticky-repo.mjs,
    the parsing half of src/src/lib/identity/identity-rewrite.mjs)

    A conversation key is read from a request and bound to an account and a VM for a time.  The
    table is a map from keys to rows, each operation is given the time it reads from the clock,
    [sha256] is the hex digest of [crypto.createHash('sha256')]. *)

From stdpp Require Import gmap strings sorting.
From Stdlib Require Import Sorted.
From S2P Require Import Prelude.
From S2P Require Import JsValue.
From S2P Require Import JsText.
From S2P Require Import JsJson.
From S2P Require Import JsonParse.
From S2P Require Import Errors.
From S2P Require Import Distill.
#[local] Open Scope string_scope.
#[local] Open Scope list_scope.
#[local] Open Scope js_scope.

(** ** The caller's session (identity-rewrite.mjs) *)

Definition CALLER_SESSION_HEADER_KEYS : list string :=
  ["x-session-id"; "x-conversation-id"; "x-claude-code-session-id"; "session-id"; "thread-id"].
Definition CALLER_SESSION_BODY_KEYS : list string := ["conversation_id"; "session_id"; "thread_id"; "prompt_cache_key"].

Record user_id := { u_device_id : jsval; u_account_uuid : jsval; u_session_id : jsval }.
Definition user_id_of (v : jsval) : user_id :=
  {| u_device_id := v?."device_id" ||| v?."deviceId" ||| JStr "";
     u_account_uuid := v?."account_uuid" ||| v?."accountUuid" ||| JStr "";
     u_session_id := v?."session_id" ||| v?."sessionId" ||| JStr "" |}.

(** What precedes and what follows the first occurrence of [sep]. *)
Fixpoint split_at_first (sep s : string) : option (string * string) :=
  if starts_with sep s then Some ("", drop_chars (String.length sep) s)
  else match s with
       | EmptyString => None
       | String c r => p ← split_at_first sep r; Some (String c p.1, p.2)
       end.
Fixpoint one_line (s : string) : bool :=
  match s with
  | EmptyString => true
  | String c r => negb (ascii_is 10 10 c || ascii_is 13 13 c) && one_line r
  end.
(** user_D_account_A_session_S on one line, D and A as short as can be. *)
Definition packed_user_id (s : string) : option user_id :=
  if starts_with "user_" s && one_line s then
    p ← split_at_first "_account_" (drop_chars 5 s);
    q ← split_at_first "_session_" p.2;
    Some {| u_device_id := JStr p.1; u_account_uuid := JStr q.1; u_session_id := JStr q.2 |}
  else None.

Definition parseUserId (raw : jsval) : option user_id :=
  if negb (truthy raw) then None
  else if is_object raw then Some (user_id_of raw)
  else
    let s := to_string raw in
    match json_parse s with
    | Some p => if is_object p then Some (user_id_of p) else packed_user_id s
    | None => packed_user_id s
    end.

Definition headerValue (headers : jsval) (key : string) : string :=
  if negb (is_object headers) then ""
  else
    match List.find (fun p => String.eqb (to_lower p.1) (to_lower key) && negb (is_nullish p.2 || is_str p.2 ""))
                    (fields_of (own headers)) with
    | Some p => to_string (match p.2 with JArr l => nth 0 l JUndef | v => v end)
    | None => ""
    end.

(** The first that is not empty. *)
Definition first_text (l : list string) : string := match List.find nonempty l with Some s => s | None => "" end.

Definition extractCallerSession (inbound body headers : jsval) : string :=
  let raw := inbound?."metadata"?."user_id" ||| body?."metadata"?."user_id" in
  let session := match parseUserId raw with Some u => u_session_id u | None => JUndef end in
  if truthy session then to_string session
  else
    let v := first_text (map (headerValue headers) CALLER_SESSION_HEADER_KEYS) in
    if nonempty v then v
    else
      let src := if is_object inbound && negb (keys_length inbound =? 0)%nat then inbound else body in
      match List.find (fun k => truthy (src?.k)) CALLER_SESSION_BODY_KEYS with
      | Some k => to_string (src?.k)
      | None => ""
      end.

Definition sessionIdFromOutboundBody (body : jsval) : jsval :=
  match parseUserId (body?."metadata"?."user_id") with Some u => u_session_id u | None => JUndef end ||| JStr "".

(** ** Configuration *)

Definition DEFAULT_STICKY_HEADER_KEYS : list string :=
  ["x-session-id"; "x-conversation-id"; "x-claude-code-session-id"; "session-id"; "thread-id"].
Definition DEFAULT_STICKY_BODY_KEYS : list string := ["conversation_id"; "session_id"; "thread_id"; "prompt_cache_key"].
Definition EPHEMERAL_STICKY_KEYS : list string := ["x-client-request-id"; "x-request-id"].

Record config := { enabled : bool; mode : jsval; ttl_seconds : jsval; header_keys : list string; body_keys : list string }.

Definition keys_or (v : jsval) (d : list string) : list string :=
  match v with JArr ((_ :: _) as l) => map to_string l | _ => d end.
Definition mergeStickyConfig (c : jsval) : config :=
  let sticky := c?."sticky" in
  {| enabled := negb (is_bool (sticky?."enabled") false);
     mode := sticky?."mode" ||| JStr "conversation";
     ttl_seconds := sticky?."ttl_seconds" ||| jint 86400;
     header_keys := List.filter (fun k => negb (mem (to_lower k) EPHEMERAL_STICKY_KEYS))
                                (keys_or (sticky?."header_keys") DEFAULT_STICKY_HEADER_KEYS);
     body_keys := keys_or (sticky?."body_keys") DEFAULT_STICKY_BODY_KEYS |}.

(** ** Keys of a request *)

Definition clientIp (req : jsval) : string :=
  let headers := req?."headers" in
  let xf := trim (before_char "," (str_or_empty (headers?."x-forwarded-for" ||| headers?."X-Forwarded-For"))) in
  let raw := to_string (JStr xf ||| req?."socket"?."remoteAddress" ||| req?."ip" ||| JStr "") in
  take_chars 45 (if starts_with "::ffff:" raw then drop_chars 7 raw else raw).

Definition isPersistableEnvelope (body inbound : jsval) : bool :=
  let hay := to_lower (p_joined (extractPrompt (inbound ||| body) body)) in
  existsb (fun item => includes hay (to_lower item)) ENVELOPE_NEEDLES.

Definition turn_text (c : jsval) : string :=
  match c with
  | JStr s => s
  | JArr l => join newline (map (fun p => match p with JStr s => s | _ => str_or_empty (p?."text") end) l)
  | _ => ""
  end.
(** The text of the first user turn, spaces squeezed. *)
Definition first_user_text (body : jsval) : string :=
  let msgs := match body?."messages", body?."input" with
              | JArr l, _ => l
              | _, JArr l => l
              | _, _ => []
              end in
  let user := match List.find (fun m => String.eqb (to_lower (str_or_empty (m?."role" ||| m?."type"))) "user") msgs with
              | Some m => m
              | None => nth 0 msgs JUndef
              end in
  let text := if truthy user then turn_text (user?."content" ?? user?."text" ?? user?."input")
              else match body?."input", body?."prompt" with
                   | JStr s, _ => s
                   | _, JStr s => s
                   | _, _ => ""
                   end in
  take_chars 4000 (trim (squeeze text)).

Definition isolateKey (raw : string) (req : jsval) : string :=
  let id := req?."apiKeyRecord"?."id" in
  if is_nullish id || is_str id "" then raw else ("k" ++ to_string id ++ ":" ++ raw)%string.

Section keys.
(** The hex digest of [crypto.createHash('sha256').update(s)]. *)
Variable sha256 : string -> string.

Definition firstUserFingerprint (body : jsval) : string :=
  let text := first_user_text body in if nonempty text then take_chars 24 (sha256 text) else "".

Definition managed (req : jsval) : option string :=
  let id := req?."apiKeyRecord"?."id" in if is_nullish id || is_str id "" then None else Some (to_string id).

Definition ip_key (req : jsval) : option string :=
  let ip := clientIp req in if nonempty ip then Some (isolateKey ("ip:" ++ ip)%string req) else None.

Definition session_key (req : jsval) : option string :=
  match managed req with
  | Some id => Some ("k" ++ id ++ ":login")%string
  | None =>
    let auth := trim (str_or_empty (req?."headers"?."authorization" ||| req?."headers"?."x-api-key")) in
    if nonempty auth then Some (isolateKey ("login:" ++ take_chars 24 (sha256 auth))%string req) else ip_key req
  end.

(** The first header, then the first field of the body, that is set. *)
Definition header_key (cfg : config) (req : jsval) : option string :=
  let value k := req?."headers"?.(to_lower k) ||| req?."headers"?.k in
  k ← List.find (fun k => negb (mem (to_lower k) EPHEMERAL_STICKY_KEYS) && truthy (value k)) (header_keys cfg);
  Some (isolateKey (to_string (value k)) req).
Definition body_key (cfg : config) (req body : jsval) : option string :=
  k ← List.find (fun k => truthy (body?.k)) (body_keys cfg); Some (isolateKey (to_string (body?.k)) req).
Definition first_turn_key (req body : jsval) : option string :=
  let fp := firstUserFingerprint body in if nonempty fp then Some (isolateKey ("ch:" ++ fp)%string req) else None.

Definition or_key (a b : option string) : option string := match a with Some _ => a | None => b end.

Definition envelope_key (req body : jsval) : option string :=
  if isPersistableEnvelope body JNull then id ← managed req; Some ("k" ++ id ++ ":envelope")%string else None.
Definition caller_key (req body : jsval) : option string :=
  let caller := extractCallerSession body body (req?."headers" ||| JObj []) in
  if nonempty caller && negb (mem (to_lower caller) EPHEMERAL_STICKY_KEYS) then Some (isolateKey caller req) else None.

Definition extractKey (cfg : config) (req body : jsval) : option string :=
  if negb (enabled cfg) then None
  else if is_str (mode cfg) "ip" then ip_key req
  else if is_str (mode cfg) "session" then session_key req
  else
    or_key (envelope_key req body)
      (or_key (caller_key req body)
         (or_key (header_key cfg req) (or_key (body_key cfg req body) (first_turn_key req body)))).

Definition extractOfficialFamilyKey (cfg : config) (req body : jsval) : option string :=
  if negb (enabled cfg) then None
  else
    let device := match parseUserId (body?."metadata"?."user_id") with
                  | Some u => trim (str_or_empty (u_device_id u))
                  | None => ""
                  end in
    if nonempty device then Some (isolateKey ("dev:" ++ device)%string req) else None.

Definition add_key (key : option string) (keys : list string) : list string :=
  match key with
  | Some k => if nonempty k && negb (mem k keys) then keys ++ [k] else keys
  | None => keys
  end.

Definition collectPoolKeys (cfg : config) (req body : jsval) : list string :=
  if negb (enabled cfg) then []
  else
    let conversation := is_str (mode cfg) "conversation" in
    let keys := if conversation then add_key (envelope_key req body) [] else [] in
    let keys := add_key (extractOfficialFamilyKey cfg req body) keys in
    let keys := if conversation then add_key (first_turn_key req body) keys else keys in
    add_key (extractKey cfg req body) keys.
End keys.

(** ** The table of bindings (sticky-repo.mjs)

    A time that is not a number is stored as NULL: no sweep removes it, and it reads as 0. *)

Record binding := { account_id : option string; vm_id : option string; session_id : option string;
                    bound_at : Z; expires_at : num; hits : Z }.
Notation table := (gmap string binding).

Definition remove (t : table) (key : string) : table := delete key t.
(** [key = ''] of SQL; NULL is equal to nothing. *)
Definition sql_eq (a : option string) (b : string) : bool := match a with Some s => String.eqb s b | None => false end.
Definition names (s : option string) : bool := match s with Some s => nonempty s | None => false end.
Definition of_slot (accountId vmId : option string) (b : binding) : bool :=
  sql_eq (account_id b) (default "" accountId) || sql_eq (vm_id b) (default "" vmId).
Definition removeByAccount (t : table) (accountId vmId : option string) : table * nat :=
  if negb (names accountId) && negb (names vmId) then (t, 0)
  else let t' := filter (fun p => of_slot accountId vmId p.2 = false) t in (t', size t - size t').
Definition purgeExpired (t : table) (now : Z) : table :=
  filter (fun p => num_ltb (expires_at p.2) (num_of_Z now) = false) t.

(** [now > expires_at] *)
Definition over (n : num) (now : Z) : bool := num_ltb (match n with NaN => Fin 0 | n => n end) (num_of_Z now).
Definition expired (b : binding) (now : Z) : bool := over (expires_at b) now.

(** ** The router *)

Record place := { p_account : option string; p_vm : option string; p_session : option string }.
Definition or_null (s : option string) : option string := if names s then s else None.

Definition resolve (cfg : config) (t : table) (key : string) (now : Z) : table * option place :=
  if negb (nonempty key) || negb (enabled cfg) then (t, None)
  else
    let t := purgeExpired t now in
    match t !! key with
    | None => (t, None)
    | Some b =>
      if expired b now then (remove t key, None)
      else (t, Some {| p_account := account_id b; p_vm := vm_id b; p_session := or_null (session_id b) |})
    end.

Definition ttl_ms (cfg : config) : num := num_mul (to_number (ttl_seconds cfg ||| jint 86400)) (num_of_Z 1000).

Definition bind (cfg : config) (t : table) (key : string) (p : place) (countHit : bool) (now : Z) : table :=
  if negb (nonempty key) || negb (enabled cfg) then t
  else
    let prev := t !! key in
    <[key := {| account_id := p_account p; vm_id := p_vm p;
                session_id := if names (p_session p) then p_session p else or_null (b ← prev; session_id b);
                bound_at := now; expires_at := num_add (num_of_Z now) (ttl_ms cfg);
                hits := match prev with Some b => hits b | None => 0 end + (if countHit then 1 else 0) |}]> t.

Definition unbind (t : table) (key : string) : table := if nonempty key then remove t key else t.
Definition unbindByAccount : table -> option string -> option string -> table * nat := removeByAccount.

Definition stats (t : table) (now : Z) : table * (nat * Z) :=
  let t := purgeExpired t now in (t, (size t, map_fold (fun _ b n => n + hits b)%Z 0%Z t)).

(** The first key that is bound. *)
Fixpoint find_bound (cfg : config) (t : table) (keys : list string) (now : Z) : table * option string :=
  match keys with
  | [] => (t, None)
  | key :: r =>
    match resolve cfg t key now with
    | (t, Some _) => (t, Some key)
    | (t, None) => find_bound cfg t r now
    end
  end.
Definition extractPoolKey (sha256 : string -> string) (cfg : config) (t : table) (req body : jsval) (now : Z) : table * option string :=
  let keys := collectPoolKeys sha256 cfg req body in
  match find_bound cfg t keys now with
  | (t, Some key) => (t, Some key)
  | (t, None) => (t, head keys)
  end.

(** ** The contract: a map whose bindings end at their deadline

    The specification never sweeps: a binding stays until it is replaced or unbound, and answers
    as long as its deadline has not passed. *)

Inductive op :=
  | Bind (key : string) (p : place) (countHit : bool)
  | Resolve (key : string)
  | Unbind (key : string)
  | Unbind_slot (accountId vmId : option string)
  | Stats.

Notation answer := (option (option string * option string)).
Definition slot_of (p : place) : option string * option string := (p_account p, p_vm p).

Definition router_step (cfg : config) (t : table) (e : Z * op) : table * answer :=
  match e.2 with
  | Bind key p countHit => (bind cfg t key p countHit e.1, None)
  | Resolve key => let r := resolve cfg t key e.1 in (r.1, slot_of <$> r.2)
  | Unbind key => (unbind t key, None)
  | Unbind_slot a v => ((unbindByAccount t a v).1, None)
  | Stats => ((stats t e.1).1, None)
  end.

Record lease := { l_account : option string; l_vm : option string; l_deadline : num }.
Notation leases := (gmap string lease).

Definition lease_step (cfg : config) (m : leases) (e : Z * op) : leases * answer :=
  let usable key := nonempty key && enabled cfg in
  match e.2 with
  | Bind key p _ =>
    ((if usable key
      then <[key := {| l_account := p_account p; l_vm := p_vm p; l_deadline := num_add (num_of_Z e.1) (ttl_ms cfg) |}]> m
      else m), None)
  | Resolve key =>
    (m, if usable key then l ← m !! key; if over (l_deadline l) e.1 then None else Some (l_account l, l_vm l) else None)
  | Unbind key => ((if nonempty key then delete key m else m), None)
  | Unbind_slot a v =>
    ((if names a || names v
      then filter (fun p => sql_eq (l_account p.2) (default "" a) || sql_eq (l_vm p.2) (default "" v) = false) m
      else m), None)
  | Stats => (m, None)
  end.

Fixpoint run {S} (step : S -> Z * op -> S * answer) (s : S) (l : list (Z * op)) : list answer :=
  match l with
  | [] => []
  | e :: l => let r := step s e in r.2 :: run step r.1 l
  end.

Definition lease_of (b : binding) : lease := {| l_account := account_id b; l_vm := vm_id b; l_deadline := expires_at b |}.

(** The table holds the leases, but for some whose deadline has passed. *)
Definition related (t : table) (m : leases) (now : Z) : Prop :=
  forall key, match t !! key with
              | Some b => m !! key = Some (lease_of b)
              | None => forall l, m !! key = Some l -> over (l_deadline l) now = true
              end.

Lemma over_later n now now' : (now <= now')%Z -> over n now = true -> over n now' = true.
Proof.
  intros H. unfold over. intros Ho. eapply num_ltb_leb_trans; [exact Ho|]. apply num_leb_Z, H.
Qed.

Lemma related_later t m now now' : (now <= now')%Z -> related t m now -> related t m now'.
Proof. intros Hle H key. specialize (H key). destruct (t !! key); [done|]. eauto using over_later. Qed.

(** Dropping rows whose deadline has passed. *)
Lemma related_drop (P : string * binding -> bool) t m now :
  (forall key b, t !! key = Some b -> P (key, b) = true -> expired b now = true) ->
  related t m now -> related (filter (fun p => P p = false) t) m now.
Proof.
  intros HP H key. specialize (H key). rewrite map_lookup_filter. destruct (t !! key) as [b|] eqn:E; [|done].
  cbn [mbind option_bind]. destruct (P (key, b)) eqn:Eb; cbn.
  - intros l. rewrite H. intros [= <-]. exact (HP _ _ E Eb).
  - exact H.
Qed.

Lemma swept_expired b now : num_ltb (expires_at b) (num_of_Z now) = true -> expired b now = true.
Proof. unfold expired, over. destruct (expires_at b); done. Qed.

Lemma related_purge t m now : related t m now -> related (purgeExpired t now) m now.
Proof. apply related_drop. intros key b _. apply swept_expired. Qed.

Lemma related_bind cfg t m key p c now : related t m now ->
  related (bind cfg t key p c now) (lease_step cfg m (now, Bind key p c)).1 now.
Proof.
  intros H. unfold bind. cbn. destruct (nonempty key); cbn; [|exact H]. destruct (enabled cfg); cbn; [|exact H].
  intros k. destruct (decide (k = key)) as [->|Hk].
  - rewrite !lookup_insert_eq. done.
  - rewrite !lookup_insert_ne by congruence. apply H.
Qed.

Lemma related_resolve cfg t m key now : related t m now ->
  related (resolve cfg t key now).1 m now /\
  slot_of <$> (resolve cfg t key now).2 = (lease_step cfg m (now, Resolve key)).2.
Proof.
  intros H. unfold resolve. cbn. destruct (nonempty key); cbn; [|done]. destruct (enabled cfg); cbn; [|done].
  apply related_purge in H. set (t' := purgeExpired t now) in *. clearbody t'. assert (Hk := H key).
  destruct (t' !! key) as [b|] eqn:E.
  - rewrite Hk. cbn. unfold expired. destruct (over (expires_at b) now) eqn:Eo; cbn; [|done]. split; [|done].
    intros k. unfold remove. destruct (decide (k = key)) as [->|Hne].
    + rewrite lookup_delete_eq. intros l. rewrite Hk. intros [= <-]. exact Eo.
    + rewrite lookup_delete_ne by congruence. apply H.
  - split; [exact H|]. destruct (m !! key) as [l|] eqn:El; [|done]. cbn. rewrite (Hk l eq_refl). done.
Qed.

Lemma related_unbind cfg t m key now : related t m now ->
  related (unbind t key) (lease_step cfg m (now, Unbind key)).1 now.
Proof.
  intros H. unfold unbind, remove. cbn. destruct (nonempty key); [|exact H]. intros k.
  destruct (decide (k = key)) as [->|Hk]; [by rewrite !lookup_delete_eq|].
  rewrite !lookup_delete_ne by congruence. apply H.
Qed.

Lemma related_unbind_slot cfg t m a v now : related t m now ->
  related (unbindByAccount t a v).1 (lease_step cfg m (now, Unbind_slot a v)).1 now.
Proof.
  intros H. unfold unbindByAccount, removeByAccount. cbn.
  destruct (names a), (names v); cbn; try exact H; intros k; specialize (H k); rewrite !map_lookup_filter;
    (destruct (t !! k) as [b|]; cbn;
     [rewrite H; cbn; unfold of_slot; destruct (_ || _); cbn; [intros l [=]|reflexivity]
     |destruct (m !! k) as [l|]; cbn; [|intros ? [=]]; specialize (H l eq_refl);
      destruct (_ || _); cbn; intros l' [=]; subst; exact H]).
Qed.

Lemma related_step cfg t m e : related t m e.1 ->
  related (router_step cfg t e).1 (lease_step cfg m e).1 e.1 /\ (router_step cfg t e).2 = (lease_step cfg m e).2.
Proof.
  destruct e as (now, [key p c|key|key|a v|]); intros H; cbn [fst snd router_step].
  - split; [apply related_bind, H|done].
  - apply related_resolve, H.
  - split; [apply related_unbind, H|done].
  - split; [apply related_unbind_slot, H|done].
  - split; [apply related_purge, H|done].
Qed.

Lemma related_run cfg l t m now : related t m now -> Sorted Z.le (now :: map fst l) ->
  run (router_step cfg) t l = run (lease_step cfg) m l.
Proof.
  revert t m now. induction l as [|e l IH]; intros t m now H Hs; [done|].
  apply Sorted_inv in Hs as (Hs & Hle). apply HdRel_inv in Hle. cbn [run].
  destruct (related_step cfg t m e (related_later _ _ _ _ Hle H)) as (H' & ->). f_equal. by eapply IH.
Qed.

(** C8: The router implements a map of leases: as long as the clock does not go back, its answers to any
    sequence of binds, lookups, unbinds and sweeps are those of a map in which a binding answers
    until its deadline, whatever the sweeps removed and when. *)
Theorem sticky_refines_leases cfg l : Sorted Z.le (map fst l) ->
  run (router_step cfg) ∅ l = run (lease_step cfg) ∅ l.
Proof.
  destruct l as [|e l]; [done|]. intros Hs. apply (related_run cfg _ _ _ e.1).
  - intros k. rewrite lookup_empty. intros d. rewrite lookup_empty. done.
  - cbn [map] in *. constructor; [exact Hs|]. constructor. lia.
Qed.

Definition short_config : config := mergeStickyConfig (JObj [("sticky", JObj [("ttl_seconds", jint 10)])]).
Definition at_slot (a v : string) : place := {| p_account := Some a; p_vm := Some v; p_session := None |}.
Definition sample_run : list (Z * op) :=
  [(0, Bind "k1:x" (at_slot "a" "vm1") true); (10000, Resolve "k1:x"); (10001, Stats); (10001, Resolve "k1:x");
   (10002, Bind "k1:x" (at_slot "b" "vm2") true); (10003, Unbind_slot (Some "a") None); (20000, Resolve "k1:x")]%Z.
Lemma sticky_refines_leases_witness :
  run (router_step short_config) ∅ sample_run = run (lease_step short_config) ∅ sample_run /\
  run (router_step short_config) ∅ sample_run =
    [None; Some (Some "a", Some "vm1"); None; None; None; None; Some (Some "b", Some "vm2")].
Proof.
  split; [|vm_compute; reflexivity]. apply (sticky_refines_leases short_config sample_run). repeat constructor; cbn; lia.
Defined.

(** ** Keys of different API keys *)

Section isolation.
Variable sha256 : string -> string.
Variable id : string.
Definition owned (k : string) : Prop := exists raw, k = ("k" ++ id ++ ":" ++ raw)%string.

Lemma isolated_owned raw req : managed req = Some id -> owned (isolateKey raw req).
Proof. unfold managed, isolateKey, owned. destruct (is_nullish _ || _); [done|]. intros [= <-]. by exists raw. Qed.

Lemma owned_ip req k : managed req = Some id -> ip_key req = Some k -> owned k.
Proof. intros Hm. unfold ip_key. destruct (nonempty _); [|done]. intros [= <-]. by apply isolated_owned. Qed.

Lemma or_key_cases (P : Prop) a b k : (a = Some k -> P) -> (b = Some k -> P) -> or_key a b = Some k -> P.
Proof. destruct a; auto. Qed.

Lemma owned_extract cfg req body k : managed req = Some id -> extractKey sha256 cfg req body = Some k -> owned k.
Proof.
  intros Hm. unfold extractKey, session_key, envelope_key, caller_key, header_key, body_key, first_turn_key.
  unfold mbind, option_bind. rewrite Hm. destruct (negb _); [done|]. destruct (is_str _ _); [by apply owned_ip|].
  destruct (is_str _ _); [intros [= <-]; by exists "login"|].
  apply or_key_cases; [destruct (isPersistableEnvelope _ _); cbn; [|done]; intros [= <-]; by exists "envelope"|].
  do 3 (apply or_key_cases; [repeat case_match; intros [= <-]; by apply isolated_owned|]).
  repeat case_match; intros [= <-]. by apply isolated_owned.
Qed.

Lemma owned_add key keys : (forall k, key = Some k -> owned k) -> Forall owned keys -> Forall owned (add_key key keys).
Proof.
  intros Hk H. unfold add_key. destruct key as [k|]; [|exact H]. destruct (_ && _); [|exact H].
  apply Forall_app. split; [exact H|]. constructor; [by apply Hk|constructor].
Qed.

Lemma pool_keys_owned cfg req body : managed req = Some id -> Forall owned (collectPoolKeys sha256 cfg req body).
Proof.
  intros Hm. unfold collectPoolKeys. destruct (negb _); [constructor|].
  assert (He : forall k, envelope_key req body = Some k -> owned k).
  { intros k. unfold envelope_key. rewrite Hm. destruct (isPersistableEnvelope _ _); cbn; intros [= <-]. by exists "envelope". }
  assert (Hf : forall k, extractOfficialFamilyKey cfg req body = Some k -> owned k).
  { intros k. unfold extractOfficialFamilyKey. repeat case_match; intros [= <-]; by apply isolated_owned. }
  assert (Ht : forall k, first_turn_key sha256 req body = Some k -> owned k).
  { intros k. unfold first_turn_key. case_match; intros [= <-]. by apply isolated_owned. }
  apply owned_add; [intros k; by apply owned_extract|].
  destruct (is_str (mode cfg) "conversation").
  - apply owned_add; [exact Ht|]. apply owned_add; [exact Hf|]. apply owned_add; [exact He|constructor].
  - apply owned_add; [exact Hf|constructor].
Qed.
End isolation.

(** No colon in an id. *)
Definition plain_id (id : string) : Prop := before_char ":" id = id.

Lemma before_char_app c s r : before_char c s = s -> before_char c (s ++ String c r) = s.
Proof.
  induction s as [|d s IH]; cbn; [by rewrite Ascii.eqb_refl|]. destruct (Ascii.eqb c d) eqn:E; [done|].
  intros H. injection H as H. by rewrite IH.
Qed.

(** Two managed API keys never share a pool key: whatever the two requests say (headers, bodies,
    addresses), no key read from one is a key read from the other, for ids without a colon. *)
Theorem pool_keys_isolated sha256 cfg1 cfg2 req1 req2 body1 body2 id1 id2 k :
  managed req1 = Some id1 -> managed req2 = Some id2 -> plain_id id1 -> plain_id id2 -> id1 <> id2 ->
  k ∈ collectPoolKeys sha256 cfg1 req1 body1 -> ~ k ∈ collectPoolKeys sha256 cfg2 req2 body2.
Proof.
  intros H1 H2 Hp1 Hp2 Hne Hk1 Hk2.
  assert (F1 := pool_keys_owned sha256 id1 cfg1 req1 body1 H1). assert (F2 := pool_keys_owned sha256 id2 cfg2 req2 body2 H2).
  rewrite Forall_forall in F1, F2. destruct (F1 k Hk1) as (r1 & E1). destruct (F2 k Hk2) as (r2 & E2).
  apply Hne. rewrite <- (before_char_app ":" id1 r1 Hp1), <- (before_char_app ":" id2 r2 Hp2). f_equal.
  rewrite E1 in E2. cbn in E2. apply (f_equal (drop_chars 1)) in E2. exact E2.
Qed.

Definition caller (id session : string) : jsval :=
  JObj [("apiKeyRecord", JObj [("id", JStr id)]); ("headers", JObj [("x-session-id", JStr session)])].
Lemma pool_keys_isolated_witness :
  "kkey_1:s" ∈ collectPoolKeys (fun s => s) (mergeStickyConfig JUndef) (caller "key_1" "s") JUndef /\
  ~ "kkey_1:s" ∈ collectPoolKeys (fun s => s) (mergeStickyConfig JUndef) (caller "key_2" "s") JUndef.
Proof.
  assert (H : "kkey_1:s" ∈ collectPoolKeys (fun s => s) (mergeStickyConfig JUndef) (caller "key_1" "s") JUndef)
    by (vm_compute; constructor).
  split; [exact H|]. apply (pool_keys_isolated _ (mergeStickyConfig JUndef) _ (caller "key_1" "s") _ JUndef _ "key_1" "key_2"); done.
Defined.

(** A caller without an API key record chooses its key freely, another key's included. *)
Example unmanaged_key_chosen :
  collectPoolKeys (fun s => s) (mergeStickyConfig JUndef) (JObj [("headers", JObj [("x-session-id", JStr "kkey_1:s")])]) JUndef =
  ["kkey_1:s"].
Proof. vm_compute. reflexivity. Qed.
