(* ===== verification/Users.v ===== *)
(** * Operators of the panel (src/src/lib/db/repos/users-repo.mjs, src/src/lib/admin/panel-users.mjs)

    The table users is kept in the order of its list ([created_at], then [username]); a deleted
    row stays in it and no query sees it.  Passwords are hashed by [scrypt], a parameter; salts and
    ids are arguments.  A thrown error is its code. *)

From S2P Require Import Prelude.
From S2P Require Import JsValue.
From S2P Require Import JsText.
From S2P Require Import JsDate.
From S2P Require Import Eligibility.
From S2P Require Import AccountStore.
From S2P Require Import StoreFacts.
#[local] Open Scope string_scope.
#[local] Open Scope list_scope.
#[local] Open Scope js_scope.

(** ** The repository *)

Definition visible (row : jsval) : bool := truthy row && is_nullish (row?."deleted_at").

Definition rowToRec (row : jsval) : jsval :=
  JObj [("id", row?."id"); ("email", row?."email"); ("username", row?."username"); ("password_hash", row?."password_hash");
        ("role", row?."role"); ("balance", JNum (num_or_zero (row?."balance")));
        ("concurrency", JNum (num_or_zero (row?."concurrency"))); ("vm_create_quota", JNum (num_or_zero (row?."vm_create_quota")));
        ("status", row?."status"); ("enabled", JBool (is_str (row?."status") "active")); ("notes", row?."notes" ?? JStr "");
        ("last_login_at", row?."last_login_at"); ("last_active_at", row?."last_active_at"); ("created_at", row?."created_at");
        ("updated_at", row?."updated_at")].

Definition statusOf (rec : jsval) : jsval :=
  match rec?."enabled" with
  | JBool true => JStr "active"
  | JBool false => JStr "disabled"
  | _ => rec?."status" ?? JStr "active"
  end.

(** The row a query finds, as a record; [null] without one. *)
Definition found (row : jsval) : jsval := if visible row then rowToRec row else JNull.

Definition list_users (t : fields) : list jsval := map rowToRec (List.filter visible (map snd t)).
Definition getById (t : fields) (id : jsval) : jsval := match id with JStr k => found (select_row k t) | _ => JNull end.
Definition same_name (name : string) (row : jsval) : bool :=
  visible row && String.eqb (to_lower (to_string (row?."username"))) (to_lower name).
Definition getByUsername (t : fields) (username : jsval) : jsval :=
  match List.find (same_name (trim (str_or_empty username))) (map snd t) with
  | Some row => rowToRec row
  | None => JNull
  end.

(** The columns but for [id] and [deleted_at]. *)
Definition user_columns (rec : jsval) : fields :=
  [("email", rec?."email" ?? JStr (to_string (rec?."username") ++ "@panel.local")%string); ("username", rec?."username" ?? JNull);
   ("password_hash", rec?."password_hash" ?? JNull); ("role", rec?."role" ?? JNull); ("balance", rec?."balance" ?? jint 0);
   ("concurrency", rec?."concurrency" ?? jint 5); ("vm_create_quota", rec?."vm_create_quota" ?? jint 0);
   ("status", statusOf rec); ("notes", rec?."notes" ?? JStr ""); ("last_login_at", rec?."last_login_at" ?? JNull);
   ("last_active_at", rec?."last_active_at" ?? JNull); ("created_at", rec?."created_at" ?? JNull);
   ("updated_at", rec?."updated_at" ?? JNull)].

(** [None]: the id is taken. *)
Definition insert (t : fields) (rec : jsval) : option (fields * jsval) :=
  let id := to_string (rec?."id") in
  if has_key id t then None
  else
    let t := t ++ [(id, JObj (("id", JStr id) :: user_columns rec ++ [("deleted_at", JNull)]))] in Some (t, getById t (JStr id)).

(** [UPDATE users SET ... WHERE id = ? AND deleted_at IS NULL] *)
Definition update_visible (id : string) (f : jsval -> fields) (t : fields) : fields :=
  map (fun p => if String.eqb id p.1 && visible p.2 then (p.1, spread p.2 (JObj (f p.2))) else p) t.

Definition update_rec (t : fields) (rec : jsval) : fields * jsval :=
  let t := update_visible (to_string (rec?."id")) (fun _ => user_columns rec) t in (t, getById t (rec?."id")).

Definition remove_user (t : fields) (id : string) (now : Z) : fields * bool :=
  (update_visible id (fun _ => [("deleted_at", iso_now now); ("updated_at", iso_now now)]) t, visible (select_row id t)).

Definition enabled_role (role : string) (row : jsval) : bool :=
  visible row && is_str (row?."role") role && is_str (row?."status") "active".
Definition countEnabledRole (t : fields) (role : string) : nat := length (List.filter (enabled_role role) (map snd t)).

Definition addBalance (t : fields) (id : string) (delta : jsval) (now : Z) : fields * jsval :=
  let t := update_visible id (fun row =>
    [("balance", JNum (num_add (to_number (row?."balance")) (num_or_zero delta))); ("updated_at", iso_now now)]) t in
  (t, getById t (JStr id)).

(** The code of a thrown error. *)
Notation thrown := string (only parsing).

(** A guard throws, or the operation goes on with its value. *)
Notation "'let*' x '<-' a 'in' b" := (match a with inl e => inl e | inr x => b end)
  (at level 200, x name, a at level 100, b at level 200).

(** ** Passwords *)

Definition PANEL_ROLES : list string := ["admin"; "super"; "user"].

Definition name_char (c : ascii) : bool := is_digit c || is_upper c || is_lower c || mem (String c "") ["."; "_"; "-"].
Definition USERNAME_RE (s : string) : bool :=
  match s with
  | String c r => (is_upper c || is_lower c) && all_chars name_char r && (1 <=? String.length r)%nat && (String.length r <=? 31)%nat
  | EmptyString => false
  end.

Definition normalizeUsername (username : jsval) : string := trim (str_or_empty username).
Definition normalizeRole (role : jsval) : string :=
  let r := to_lower (trim (str_or_empty role)) in
  if mem r ["viewer"; "readonly"; "普通"] then "user" else if String.eqb r "管理员" then "admin" else r.
Definition isPanelRole (role : jsval) : bool := mem (normalizeRole role) PANEL_ROLES.

(** The bytes of a hex text, in lower case: [Buffer.from(s, 'hex')] stops at the first pair that is none. *)
Fixpoint hex_bytes (s : string) : string :=
  match s with
  | String a (String b r) =>
    match hex_digit a, hex_digit b with
    | Some _, Some _ => String (lower_char a) (String (lower_char b) (hex_bytes r))
    | _, _ => ""
    end
  | _ => ""
  end.

Section passwords.
(** The bytes of [crypto.scryptSync(password, salt, length, {N, r, p})], in hex; [None] when it throws. *)
Variable scrypt : string -> string -> nat -> num -> num -> num -> option string.

Definition KEYLEN : nat := 32.

(** [salt]: 16 random bytes, in hex. *)
Definition hashPassword (password salt : string) : option string :=
  hash ← scrypt password salt KEYLEN (num_of_Z 16384) (num_of_Z 8) (num_of_Z 1);
  Some ("scrypt$16384$8$1$" ++ salt ++ "$" ++ hash)%string.

Definition verifyPassword (password : string) (stored : jsval) : bool :=
  match split_char "$" (str_or_empty stored) with
  | [tag; n; r; p; salt; hash] =>
    if negb (String.eqb tag "scrypt") then false
    else
      let N := str_to_num n in let r := str_to_num r in let p := str_to_num p in
      if negb (is_finite N && is_finite r && is_finite p) then false
      else
        let salt := hex_bytes salt in let expected := hex_bytes hash in
        if negb (nonempty salt) || negb (nonempty expected) then false
        else match scrypt password salt (Nat.div (String.length expected) 2) N r p with
             | Some actual => String.eqb actual expected
             | None => false
             end
  | _ => false
  end.

(** ** The store of operators *)

Definition assertUsername (username : jsval) : thrown + string :=
  let name := normalizeUsername username in if USERNAME_RE name then inr name else inl "invalid_username".
Definition assertPassword (password : jsval) : thrown + string :=
  let pass := to_string (password ?? JStr "") in
  if (String.length pass <? 8)%nat || (128 <? String.length pass)%nat then inl "invalid_password" else inr pass.
Definition assertRole (role : jsval) : thrown + string :=
  let r := normalizeRole role in if isPanelRole (JStr r) then inr r else inl "invalid_role".

Definition clamp_quota (v : jsval) (fallback : num) : jsval := JNum (Ownership.clampVmCreateQuota v fallback).

Definition publicUserView (rec : jsval) : jsval :=
  if negb (truthy rec) then JNull
  else JObj [("id", rec?."id"); ("username", rec?."username"); ("role", rec?."role");
             ("enabled", JBool (negb (is_bool (rec?."enabled") false)));
             ("vm_create_quota", clamp_quota (rec?."vm_create_quota") (Fin 0)); ("created_at", rec?."created_at");
             ("updated_at", rec?."updated_at"); ("last_login_at", rec?."last_login_at" ||| JNull)].

Definition list_view (t : fields) : list jsval := map publicUserView (list_users t).
Definition countEnabledAdmins (t : fields) : nat := countEnabledRole t "admin".

(** The steps of [create] after the name, in the order of their evaluation; a hash that cannot be
    computed throws. *)
Definition hashed (password : jsval) (salt : string) : thrown + string :=
  match assertPassword password with
  | inl e => inl e
  | inr pass => match hashPassword pass salt with Some h => inr h | None => inl "scrypt" end
  end.

Record new_user := { n_username : jsval; n_password : jsval; n_role : jsval; n_enabled : jsval; n_quota : jsval }.

Definition create (t : fields) (input : new_user) (id salt : string) (now : Z) : thrown + fields * jsval :=
  match assertUsername (n_username input) with
  | inl e => inl e
  | inr name =>
    if truthy (getByUsername t (JStr name)) then inl "username_exists"
    else
      match hashed (n_password input) salt with
      | inl e => inl e
      | inr hash =>
        match assertRole (match n_role input with JUndef => JStr "user" | r => r end) with
        | inl e => inl e
        | inr role =>
          let rec := JObj
            [("id", JStr id); ("username", JStr name); ("password_hash", JStr hash); ("role", JStr role);
             ("enabled", JBool (negb (is_bool (n_enabled input) false)));
             ("vm_create_quota", clamp_quota (match n_quota input with JUndef => jint 0 | q => q end) (Fin 0));
             ("created_at", iso_now now); ("updated_at", iso_now now); ("last_login_at", JNull)] in
          match insert t rec with Some r => inr r | None => inl "constraint" end
        end
      end
  end.

Definition bootstrapFromEnv (t : fields) (username password : jsval) (id salt : string) (now : Z) : thrown + fields * jsval :=
  let name := normalizeUsername username in
  if negb (nonempty name) || negb (truthy password) then inr (t, JNull)
  else
    let existing := getByUsername t (JStr name) in
    if truthy existing then inr (t, publicUserView existing)
    else match create t {| n_username := JStr name; n_password := password; n_role := JStr "admin"; n_enabled := JUndef;
                           n_quota := JUndef |} id salt now with
         | inl e => inl e
         | inr (t, rec) => inr (t, publicUserView rec)
         end.

Definition authenticate (t : fields) (username : jsval) (password : string) (now : Z) : fields * jsval :=
  let rec := getByUsername t username in
  if negb (truthy rec) || is_bool (rec?."enabled") false then (t, JNull)
  else if negb (verifyPassword password (rec?."password_hash")) then (t, JNull)
  else
    let next := with_field rec "last_login_at" (iso_now now) in
    ((update_rec t next).1, publicUserView next).

Definition patch_role (t : fields) (rec patch next : jsval) : thrown + jsval :=
  if is_nullish (patch?."role") then inr next
  else
    let* role <- assertRole (patch?."role") in
    if is_str (rec?."role") "admin" && negb (String.eqb role "admin") && (countEnabledAdmins t <=? 1)%nat then inl "last_admin"
    else inr (with_field next "role" (JStr role)).

Definition patch_enabled (t : fields) (rec patch actorId next : jsval) : thrown + jsval :=
  if is_nullish (patch?."enabled") then inr next
  else
    let enabled := truthy (patch?."enabled") in
    if is_str (rec?."role") "admin" && truthy (rec?."enabled") && negb enabled && (countEnabledAdmins t <=? 1)%nat then inl "last_admin"
    else if truthy actorId && same_value actorId (rec?."id") && negb enabled then inl "self_disable"
    else inr (with_field next "enabled" (JBool enabled)).

Definition patch_password (patch : jsval) (salt : string) (next : jsval) : thrown + jsval :=
  if is_nullish (patch?."password") || String.eqb (to_string (patch?."password")) "" then inr next
  else let* hash <- hashed (patch?."password") salt in inr (with_field next "password_hash" (JStr hash)).

Definition patch_quota (rec patch next : jsval) : jsval :=
  if is_nullish (patch?."vm_create_quota") then next
  else with_field next "vm_create_quota" (clamp_quota (patch?."vm_create_quota") (num_or_zero (rec?."vm_create_quota"))).

Definition update (t : fields) (id : string) (patch actorId : jsval) (salt : string) (now : Z) : thrown + fields * jsval :=
  let rec := getById t (JStr id) in
  if negb (truthy rec) then inr (t, JNull)
  else
    let* next <- patch_role t rec patch rec in
    let* next <- patch_enabled t rec patch actorId next in
    let* next <- patch_password patch salt next in
    let next := patch_quota rec patch next in
    inr (update_rec t (with_field next "updated_at" (iso_now now))).

Definition remove (t : fields) (id : string) (actorId : jsval) (now : Z) : thrown + fields * bool :=
  let rec := getById t (JStr id) in
  if negb (truthy rec) then inr (t, false)
  else if truthy actorId && same_value actorId (rec?."id") then inl "self_delete"
  else if is_str (rec?."role") "admin" && truthy (rec?."enabled") && (countEnabledAdmins t <=? 1)%nat then inl "last_admin"
  else inr (remove_user t id now).
End passwords.

(** ** The last administrator *)

Section administrators.
Variable scrypt : string -> string -> nat -> num -> num -> num -> option string.

Inductive op :=
  | Create (input : new_user) (id salt : string) (now : Z)
  | Update (id : string) (patch actorId : jsval) (salt : string) (now : Z)
  | Remove (id : string) (actorId : jsval) (now : Z)
  | Login (username : jsval) (password : string) (now : Z)
  | Credit (id : string) (delta : jsval) (now : Z).

(** An operation that throws leaves the table. *)
Definition kept {A} (t : fields) (r : thrown + fields * A) : fields := match r with inl _ => t | inr (t, _) => t end.
Definition step (t : fields) (o : op) : fields :=
  match o with
  | Create input id salt now => kept t (create scrypt t input id salt now)
  | Update id patch actorId salt now => kept t (update scrypt t id patch actorId salt now)
  | Remove id actorId now => kept t (remove t id actorId now)
  | Login username password now => (authenticate scrypt t username password now).1
  | Credit id delta now => (addBalance t id delta now).1
  end.

(** Ids are a key, and every row carries its own. *)
Definition keyed_rows (t : fields) : Prop := NoDup (map fst t) /\ Forall (fun p => p.2?."id" = JStr p.1) t.

Notation admin_row := (enabled_role "admin").
Notation one b := (if (b : bool) then 1 else 0)%nat.

Lemma update_keys id f t : map fst (update_visible id f t) = map fst t.
Proof. unfold update_visible. rewrite map_map. apply map_ext. intros p. by destruct (_ && _). Qed.

Lemma update_cons id f k row t :
  update_visible id f ((k, row) :: t) =
  (if String.eqb id k && visible row then (k, spread row (JObj (f row))) else (k, row)) :: update_visible id f t.
Proof. done. Qed.

Lemma update_other id f t : has_key id t = false -> update_visible id f t = t.
Proof.
  induction t as [|[k row] t IH]; [done|]. intros H. apply orb_false_iff in H as (Hk & H). rewrite update_cons, IH by exact H. rewrite Hk. done.
Qed.

Lemma key_absent (id : string) (t : fields) : id ∉ map fst t -> has_key id t = false.
Proof.
  intros H. destruct (has_key id t) eqn:E; [|done]. exfalso. apply H. by apply (keys_has_key id (JObj t)).
Qed.

Lemma count_update (P : jsval -> bool) id f t : NoDup (map fst t) -> (forall row, P row = true -> visible row = true) ->
  let old := select_row id t in
  (length (List.filter P (map snd (update_visible id f t))) + one (P old) =
   length (List.filter P (map snd t)) + one (visible old && P (spread old (JObj (f old)))))%nat.
Proof.
  intros Hn HP. cbn zeta. unfold select_row. induction t as [|[k row] t IH]; intros.
  { cbn. destruct (P JUndef) eqn:E; [|done]. apply HP in E. discriminate. }
  cbn [map fst] in Hn. apply NoDup_cons in Hn as (Hk & Hn). cbn [assoc]. rewrite update_cons.
  destruct (String.eqb_spec id k) as [<-|Hne].
  - rewrite (update_other id f t) by by apply key_absent.
    cbn [andb]. destruct (visible row) eqn:Ev; cbn [andb map snd List.filter].
    + destruct (P row), (P (spread row (JObj (f row)))); cbn [length]; lia.
    + destruct (P row) eqn:E; [|lia]. apply HP in E. congruence.
  - cbn [andb]. specialize (IH Hn). cbn [map snd List.filter].
    destruct (P row); cbn [length]; lia.
Qed.

Lemma update_ok id f t : (forall row, has_key "id" (f row) = false) -> keyed_rows t -> keyed_rows (update_visible id f t).
Proof.
  intros Hf (Hn & Hr). split; [by rewrite update_keys|]. unfold update_visible. apply Forall_map.
  eapply Forall_impl; [exact Hr|]. intros (k, row) Hk. cbn [fst snd] in *. destruct (_ && _); [|exact Hk]. cbn [fst snd].
  by rewrite get_spread_other.
Qed.

Lemma insert_ok t rec r : insert t rec = Some r -> keyed_rows t -> keyed_rows r.1.
Proof.
  unfold insert. destruct (has_key _ _) eqn:E; [done|]. intros [= <-] (Hn & Hr). split; cbn [fst].
  - rewrite map_app. apply NoDup_app. split; [exact Hn|]. split; [|apply NoDup_singleton].
    intros k Hk Hin. apply list_elem_of_singleton in Hin as ->. apply (keys_has_key _ (JObj t)) in Hk. change (has_key (to_string (rec?."id")) t = true) in Hk. congruence.
  - apply Forall_app. split; [exact Hr|]. by repeat constructor.
Qed.

Lemma row_of_key t k row : keyed_rows t -> (k, row) ∈ t -> select_row k t = row /\ row?."id" = JStr k.
Proof.
  intros (Hn & Hr) Hin. split; [|by rewrite Forall_forall in Hr; apply (Hr (k, row))]. clear Hr. unfold select_row.
  induction t as [|[k' row'] t IH]; [by apply not_elem_of_nil in Hin|].
  cbn in Hn. apply NoDup_cons in Hn as (Hk & Hn). cbn [assoc]. apply elem_of_cons in Hin as [[= <- <-]|Hin]; [by rewrite String.eqb_refl|].
  destruct (String.eqb_spec k k') as [<-|_]; [|by apply IH]. exfalso. 
  apply Hk. change k with ((k, row).1). by apply list_elem_of_fmap_2.
Qed.

Lemma visible_key t id : keyed_rows t -> visible (select_row id t) = true -> (select_row id t)?."id" = JStr id.
Proof.
  intros (_ & Hr) Hv. unfold select_row in *. induction t as [|[k row] t IH]; [done|]. cbn [assoc] in *.
  apply Forall_cons in Hr as (Hk & Hr). destruct (String.eqb_spec id k) as [->|_]; [exact Hk|by apply IH].
Qed.

Lemma written_row old next : visible old = true ->
  admin_row (spread old (JObj (user_columns next))) = is_str (next?."role" ?? JNull) "admin" && is_str (statusOf next) "active".
Proof.
  intros Hv. apply andb_true_iff in Hv as (_ & Hd). unfold enabled_role, visible.
  rewrite (get_spread_other _ _ "deleted_at") by reflexivity. rewrite Hd.
  rewrite !get_spread_own by (reflexivity || (unfold user_columns; cbn [map fst]; distinct_keys)). done.
Qed.

Lemma admin_visible row : admin_row row = true -> visible row = true.
Proof. unfold enabled_role. by intros ((?&?)%andb_true_iff & ?)%andb_true_iff. Qed.

(** A write that keeps an administrator one, or that leaves another. *)
Lemma update_rec_admins t id next : keyed_rows t -> next?."id" = JStr id ->
  (admin_row (select_row id t) = true -> (countEnabledAdmins t <= 1)%nat ->
   next?."role" = JStr "admin" /\ next?."enabled" = JBool true) ->
  (1 <= countEnabledAdmins t)%nat -> keyed_rows (update_rec t next).1 /\ (1 <= countEnabledAdmins (update_rec t next).1)%nat.
Proof.
  intros Hok Hid Hkeep Hone. unfold update_rec. rewrite Hid. cbn [fst to_string].
  split; [by apply update_ok|]. unfold countEnabledAdmins, countEnabledRole in *.
  assert (H := count_update admin_row id (fun _ => user_columns next) t (proj1 Hok) admin_visible). cbn zeta in H.
  destruct (admin_row (select_row id t)) eqn:E; [|lia].
  destruct (decide (length (List.filter admin_row (map snd t)) <= 1)%nat) as [Hle|Hgt]; [|lia].
  destruct (Hkeep eq_refl Hle) as (Hr & He). rewrite (admin_visible _ E), (written_row _ next (admin_visible _ E)), Hr in H.
  unfold statusOf in H. rewrite He in H. cbn in H. lia.
Qed.

Lemma found_by_id t id : truthy (getById t (JStr id)) = true ->
  visible (select_row id t) = true /\ getById t (JStr id) = rowToRec (select_row id t).
Proof. unfold getById, found. by destruct (visible _). Qed.

Lemma found_by_name t username : keyed_rows t -> truthy (getByUsername t username) = true ->
  exists id, visible (select_row id t) = true /\ getByUsername t username = rowToRec (select_row id t).
Proof.
  intros Hok. unfold getByUsername. destruct (List.find _ _) as [row|] eqn:E; [|done]. intros _.
  apply List.find_some in E as (Hin & Hp). apply andb_true_iff in Hp as (Hv & _).
  apply in_map_iff in Hin as ((id, row') & <- & Hin). apply list_elem_of_In in Hin.
  destruct (row_of_key _ _ _ Hok Hin) as (Hs & _). exists id. rewrite Hs. done.
Qed.

Lemma admin_record row : admin_row row = true ->
  (rowToRec row)?."role" = JStr "admin" /\ (rowToRec row)?."enabled" = JBool true.
Proof.
  unfold enabled_role, rowToRec. intros ((_ & Hr)%andb_true_iff & Hs)%andb_true_iff. cbn [get assoc String.eqb Ascii.eqb Bool.eqb].
  rewrite Hs. destruct (row?."role"); try done. apply String.eqb_eq in Hr. by subst.
Qed.

(** The records a successful [update] writes. *)
Definition still_admin (v : jsval) : Prop := v?."role" = JStr "admin" /\ v?."enabled" = JBool true.

Lemma patch_role_admin t rec patch next next' : rec?."role" = JStr "admin" -> (countEnabledAdmins t <= 1)%nat ->
  patch_role t rec patch next = inr next' -> still_admin next -> still_admin next'.
Proof.
  intros Hr Hle. unfold patch_role. destruct (is_nullish _); [by intros [= <-]|]. destruct (assertRole _) as [|role]; [done|].
  rewrite Hr. cbn [is_str]. rewrite String.eqb_refl. apply Nat.leb_le in Hle. rewrite Hle.
  destruct (String.eqb_spec role "admin") as [->|]; [|done]. cbn [andb negb]. intros [= <-] (_ & He).
  split; [apply get_with_field_eq|]. by rewrite get_with_field_ne.
Qed.

Lemma patch_enabled_admin t rec patch actorId next next' :
  rec?."role" = JStr "admin" -> rec?."enabled" = JBool true -> (countEnabledAdmins t <= 1)%nat ->
  patch_enabled t rec patch actorId next = inr next' -> still_admin next -> still_admin next'.
Proof.
  intros Hr He Hle. unfold patch_enabled. destruct (is_nullish _); [by intros [= <-]|].
  rewrite Hr, He. cbn [is_str truthy]. rewrite String.eqb_refl. apply Nat.leb_le in Hle. rewrite Hle.
  destruct (truthy (patch?."enabled")); [|done]. cbn [andb negb]. rewrite andb_false_r. intros [= <-] (Hn & _).
  split; [by rewrite get_with_field_ne|apply get_with_field_eq].
Qed.

(** The last steps of [update]. *)
Definition finished (rec patch next : jsval) (now : Z) : jsval := with_field (patch_quota rec patch next) "updated_at" (iso_now now).

Lemma patch_password_keeps patch salt next next' k : k <> "password_hash" -> patch_password scrypt patch salt next = inr next' ->
  next'?.k = next?.k.
Proof.
  intros Hk. unfold patch_password. destruct (_ || _); [by intros [= <-]|]. destruct (hashed _ _ _); [done|].
  intros [= <-]. by rewrite get_with_field_ne.
Qed.
Lemma finished_keeps rec patch next now k : k <> "vm_create_quota" -> k <> "updated_at" -> (finished rec patch next now)?.k = next?.k.
Proof. intros H1 H2. unfold finished, patch_quota. rewrite get_with_field_ne by done. destruct (is_nullish _); [done|]. by rewrite get_with_field_ne. Qed.

Lemma patched_id t rec patch actorId salt now n1 n2 n3 :
  patch_role t rec patch rec = inr n1 -> patch_enabled t rec patch actorId n1 = inr n2 -> patch_password scrypt patch salt n2 = inr n3 ->
  (finished rec patch n3 now)?."id" = rec?."id".
Proof.
  intros E1 E2 E3. rewrite finished_keeps, (patch_password_keeps _ _ _ _ "id" ltac:(done) E3) by done.
  transitivity (n1?."id").
  - revert E2. unfold patch_enabled. destruct (is_nullish _); [by intros [= <-]|].
    destruct (_ && _ && _ && _); [done|]. destruct (_ && _ && _); [done|]. intros [= <-]. by rewrite get_with_field_ne.
  - revert E1. unfold patch_role. destruct (is_nullish _); [by intros [= <-]|]. destruct (assertRole _); [done|].
    destruct (_ && _ && _); [done|]. intros [= <-]. by rewrite get_with_field_ne.
Qed.

Lemma update_admins t id patch actorId salt now : keyed_rows t -> (1 <= countEnabledAdmins t)%nat ->
  let t' := kept t (update scrypt t id patch actorId salt now) in keyed_rows t' /\ (1 <= countEnabledAdmins t')%nat.
Proof.
  intros Hok H1. cbn zeta. unfold update. destruct (truthy (getById t (JStr id))) eqn:Ht; [|done].
  destruct (found_by_id t id Ht) as (Hv & ->). set (rec := rowToRec (select_row id t)) in *.
  assert (Hid : rec?."id" = JStr id) by exact (visible_key t id Hok Hv). cbn [negb].
  destruct (patch_role t rec patch rec) as [|n1] eqn:E1; [done|].
  destruct (patch_enabled t rec patch actorId n1) as [|n2] eqn:E2; [done|].
  destruct (patch_password scrypt patch salt n2) as [|n3] eqn:E3; [done|]. cbn [kept].
  fold (finished rec patch n3 now). apply (update_rec_admins t id); [exact Hok| |intros Ha Hle|exact H1].
  - by rewrite (patched_id _ _ _ _ _ _ _ _ _ E1 E2 E3).
  - destruct (admin_record _ Ha) as (Hr & He). fold rec in Hr, He.
    assert (H2 := patch_enabled_admin t rec patch actorId n1 n2 Hr He Hle E2 (patch_role_admin t rec patch rec n1 Hr Hle E1 (conj Hr He))).
    rewrite !finished_keeps, (patch_password_keeps _ _ _ _ "role" ltac:(done) E3),
      (patch_password_keeps _ _ _ _ "enabled" ltac:(done) E3) by done. exact H2.
Qed.

Lemma login_admins t username password now : keyed_rows t -> (1 <= countEnabledAdmins t)%nat ->
  let t' := (authenticate scrypt t username password now).1 in keyed_rows t' /\ (1 <= countEnabledAdmins t')%nat.
Proof.
  intros Hok H1. cbn zeta. unfold authenticate. destruct (truthy (getByUsername t username)) eqn:Ht; [|done].
  destruct (found_by_name t username Hok Ht) as (id & Hv & ->). destruct (is_bool _ _); [done|].
  destruct (verifyPassword _ _ _); [|done]. cbn [negb orb fst]. apply (update_rec_admins t id); [exact Hok| |intros Ha _|exact H1].
  - rewrite get_with_field_ne by done. exact (visible_key t id Hok Hv).
  - rewrite !get_with_field_ne by done. exact (admin_record _ Ha).
Qed.

Lemma create_admins t input id salt now : keyed_rows t -> (1 <= countEnabledAdmins t)%nat ->
  let t' := kept t (create scrypt t input id salt now) in keyed_rows t' /\ (1 <= countEnabledAdmins t')%nat.
Proof.
  intros Hok H1. cbn zeta. unfold create. destruct (assertUsername _); [done|]. destruct (truthy _); [done|].
  destruct (hashed _ _ _); [done|]. destruct (assertRole _); [done|].
  match goal with |- context [insert t ?r] => set (rec := r) end. destruct (insert t rec) as [r|] eqn:E; [|done].
  assert (Hr := insert_ok t rec r E Hok). destruct r as (t', v). cbn [kept fst] in *. split; [exact Hr|].
  revert E. unfold insert. destruct (has_key _ _); [done|]. intros E. injection E as <- _.
  unfold countEnabledAdmins, countEnabledRole in *. rewrite map_app, List.filter_app, length_app. lia.
Qed.

Lemma remove_admins t id actorId now : keyed_rows t -> (1 <= countEnabledAdmins t)%nat ->
  let t' := kept t (remove t id actorId now) in keyed_rows t' /\ (1 <= countEnabledAdmins t')%nat.
Proof.
  intros Hok H1. cbn zeta. unfold remove. destruct (truthy (getById t (JStr id))) eqn:Ht; [|done].
  destruct (found_by_id t id Ht) as (Hv & ->). cbn [negb]. destruct (_ && same_value _ _); [done|].
  destruct (is_str _ _ && _ && _) eqn:E; [done|]. cbn [kept remove_user].
  assert (H := count_update (enabled_role "admin") id (fun _ => [("deleted_at", iso_now now); ("updated_at", iso_now now)]) t
    (proj1 Hok) admin_visible).
  split; [by apply update_ok|]. unfold countEnabledAdmins, countEnabledRole in *. cbn zeta in H.
  destruct (enabled_role "admin" (select_row id t)) eqn:Ea; [|lia].
  destruct (admin_record _ Ea) as (Hr & He). rewrite Hr, He in E. cbn in E. apply Nat.leb_gt in E. lia.
Qed.

Lemma credit_admins t id delta now : keyed_rows t -> (1 <= countEnabledAdmins t)%nat ->
  let t' := (addBalance t id delta now).1 in keyed_rows t' /\ (1 <= countEnabledAdmins t')%nat.
Proof.
  intros Hok H1. unfold addBalance. cbn [fst]. split; [by apply update_ok|]. unfold countEnabledAdmins, countEnabledRole in *.
  set (f := fun row : jsval => _).
  assert (H := count_update (enabled_role "admin") id f t (proj1 Hok) admin_visible). cbn zeta in H.
  destruct (enabled_role "admin" (select_row id t)) eqn:Ea; [|lia].
  assert (Hs : enabled_role "admin" (spread (select_row id t) (JObj (f (select_row id t)))) = true).
  { revert Ea. unfold enabled_role, visible. rewrite !get_spread_other by reflexivity.
    by intros (((_ & ->)%andb_true_iff & ->)%andb_true_iff & ->)%andb_true_iff. }
  rewrite (admin_visible _ Ea), Hs in H. cbn [andb] in H. lia.
Qed.

(** The panel is never left without an administrator: if one administrator is enabled, then after any
    sequence of creations, updates, removals, logins and credits (also those that are refused) at
    least one still is, and ids are still a key of the table. *)
Theorem administrator_remains t ops : keyed_rows t -> (1 <= countEnabledAdmins t)%nat ->
  keyed_rows (foldl step t ops) /\ (1 <= countEnabledAdmins (foldl step t ops))%nat.
Proof.
  revert t. induction ops as [|o ops IH]; intros t Hok H1; [done|]. cbn [foldl].
  assert (H : keyed_rows (step t o) /\ (1 <= countEnabledAdmins (step t o))%nat).
  { destruct o; cbn [step]; [apply create_admins|apply update_admins|apply remove_admins|apply login_admins|apply credit_admins]; done. }
  destruct H. by apply IH.
Qed.
End administrators.

(** A stand-in for the hash. *)
Definition plain_hash (password salt : string) (length : nat) (N r p : num) : option string := Some "00ff".
Definition operator (name role : string) : new_user :=
  {| n_username := JStr name; n_password := JStr "long enough"; n_role := JStr role; n_enabled := JUndef; n_quota := JUndef |}.
Definition two_admins : fields :=
  foldl (step plain_hash) [] [Create (operator "root" "admin") "1" "aa" 0; Create (operator "boss" "admin") "2" "bb" 1].
Lemma administrator_remains_witness :
  let ops := [Update "1" (JObj [("enabled", JBool false)]) JNull "" 2; Remove "2" JNull 3; Update "2" (JObj [("role", JStr "user")]) JNull "" 4] in
  (countEnabledAdmins (foldl (step plain_hash) two_admins ops) = 1)%nat /\ keyed_rows (foldl (step plain_hash) two_admins ops).
Proof.
  cbn zeta. split; [vm_compute; reflexivity|]. apply (administrator_remains plain_hash).
  - split; [apply (@bool_decide_eq_true_1 _ _); vm_compute; reflexivity|]. vm_compute. repeat constructor.
  - vm_compute. lia.
Defined.

(** ** A stored hash is that of one password *)

Section stored.
Variable scrypt : string -> string -> nat -> num -> num -> num -> option string.

(** Bytes in hex. *)
Definition is_hex (s : string) : Prop := hex_bytes s = s.

(** What the module gives: as many bytes as asked for, in hex. *)
Hypothesis scrypt_hex : forall password salt n N r p h, scrypt password salt n N r p = Some h -> is_hex h /\ String.length h = (2 * n)%nat.

Definition lacks (c : ascii) (s : string) : bool := all_chars (fun d => negb (Ascii.eqb c d)) s.

Lemma split_cut c s r : lacks c s = true -> split_char c (s ++ String c r) = s :: split_char c r.
Proof.
  unfold split_char. induction s as [|d s IH]; cbn; [by rewrite Ascii.eqb_refl|]. intros (Hd & Hs)%andb_true_iff.
  apply negb_true_iff in Hd. rewrite Hd, (IH Hs). done.
Qed.
Lemma split_last c s : lacks c s = true -> split_char c s = [s].
Proof.
  unfold split_char. induction s as [|d s IH]; cbn; [done|]. intros (Hd & Hs)%andb_true_iff.
  apply negb_true_iff in Hd. rewrite Hd, (IH Hs). done.
Qed.

Lemma hex_lacks s : is_hex s -> lacks "$" s = true.
Proof.
  unfold is_hex. revert s. fix IH 1. intros [|a [|b r]]; [done|done|]. cbn [hex_bytes].
  destruct (hex_digit a) eqn:Ea; [|done]. destruct (hex_digit b) eqn:Eb; [|done]. intros [= _ _ H].
  change (negb (Ascii.eqb "$" a) && (negb (Ascii.eqb "$" b) && lacks "$" r) = true).
  destruct (Ascii.eqb_spec "$" a) as [<-|_]; [discriminate Ea|]. destruct (Ascii.eqb_spec "$" b) as [<-|_]; [discriminate Eb|].
  exact (IH r H).
Qed.

(** What [verifyPassword] accepts for a hash that [hashPassword] stored is exactly the passwords with
    the same scrypt value under its salt, the password itself among them. *)
Theorem stored_password_verified password salt stored other :
  is_hex salt -> nonempty salt = true -> hashPassword scrypt password salt = Some stored ->
  let value q := scrypt q salt KEYLEN (num_of_Z 16384) (num_of_Z 8) (num_of_Z 1) in
  verifyPassword scrypt other (JStr stored) = bool_decide (value other = value password) /\
  verifyPassword scrypt password (JStr stored) = true.
Proof.
  intros Hs Hn. unfold hashPassword.
  destruct (scrypt password salt _ _ _ _) as [hash|] eqn:E; [|done]. intros [= <-]. cbn zeta.
  destruct (scrypt_hex _ _ _ _ _ _ _ E) as (Hh & Hl).
  assert (Hv : forall q, verifyPassword scrypt q (JStr ("scrypt$16384$8$1$" ++ salt ++ "$" ++ hash)) =
    match scrypt q salt KEYLEN (num_of_Z 16384) (num_of_Z 8) (num_of_Z 1) with Some a => String.eqb a hash | None => false end).
  { intros q. unfold verifyPassword. change (str_or_empty (JStr ?s)) with s.
    assert (Hsp : split_char "$" ("scrypt$16384$8$1$" ++ salt ++ String "$" hash) = ["scrypt"; "16384"; "8"; "1"; salt; hash]).
    { rewrite <- (split_last "$" hash) by by apply hex_lacks. rewrite <- (split_cut "$" salt) by by apply hex_lacks. reflexivity. }
    change (("$" ++ hash)%string) with (String "$" hash). rewrite Hsp. cbn [String.eqb Ascii.eqb Bool.eqb negb].
    replace (str_to_num "16384") with (num_of_Z 16384) by (vm_compute; reflexivity).
    replace (str_to_num "8") with (num_of_Z 8) by (vm_compute; reflexivity).
    replace (str_to_num "1") with (num_of_Z 1) by (vm_compute; reflexivity).
    unfold is_hex in Hs, Hh. rewrite Hs, Hh, Hl. cbn [is_finite num_of_Z andb negb]. rewrite Hn.
    destruct hash as [|c r]; [discriminate Hl|]. reflexivity. }
  change (("scrypt$16384$8$1$" ++ salt ++ "$" ++ hash)%string) with ("scrypt$16384$8$1$" ++ (salt ++ ("$" ++ hash)))%string.
  rewrite !Hv, E. split; [|apply String.eqb_refl]. destruct (scrypt other salt _ _ _ _) as [a|]; [|done].
  destruct (String.eqb_spec a hash) as [->|Hne]; symmetry; [by apply bool_decide_eq_true_2|].
  apply bool_decide_eq_false_2. intros [= ->]. done.
Qed.
End stored.

(** A stand-in that answers in hex. *)
Fixpoint fill (n : nat) (c : ascii) : string := match n with O => "" | S n => String c (String c (fill n c)) end.
Definition two_hashes (password salt : string) (length : nat) (N r p : num) : option string :=
  Some (fill length (if String.eqb password "open sesame" then "a" else "b")%char).
Lemma two_hashes_hex password salt n N r p h : two_hashes password salt n N r p = Some h -> is_hex h /\ String.length h = (2 * n)%nat.
Proof.
  intros [= <-]. unfold is_hex. destruct (String.eqb _ _); (split; [|]); induction n as [|n IH]; cbn; try rewrite IH; cbn; lia || done.
Qed.
Lemma stored_password_verified_witness :
  exists stored, hashPassword two_hashes "open sesame" "0f" = Some stored /\
    verifyPassword two_hashes "open sesame" (JStr stored) = true /\ verifyPassword two_hashes "open barley" (JStr stored) = false.
Proof.
  eexists. split; [reflexivity|].
  destruct (stored_password_verified two_hashes two_hashes_hex "open sesame" "0f" _ "open barley" eq_refl eq_refl eq_refl) as (Hf & Ht).
  split; [exact Ht|]. rewrite Hf. vm_compute. reflexivity.
Defined.
