(* ===== verification/ApiKeys.v ===== *)
(** * Managed API keys (src/src/lib/admin/api-keys.mjs, src/src/lib/db/repos/api-keys-repo.mjs,
    src/src/lib/db/secure.mjs)

    The rows of the table are kept in the order of its list ([created_at]); nothing here sets
    [deleted_at].  The counts of running requests and the minutes of recent ones live in memory.
    The digest of a key, the cipher and random texts are parameters; thrown errors are their codes. *)

From Stdlib Require Import Qabs Qround Qpower Lqa.
From stdpp Require Import gmap strings.
From S2P Require Import Prelude.
From S2P Require Import JsValue.
From S2P Require Import JsText.
From S2P Require Import JsDate.
From S2P Require Import Pricing.
From S2P Require Import AccountStore.
From S2P Require Import StoreFacts.
From S2P Require Import Users.
#[local] Open Scope string_scope.
#[local] Open Scope list_scope.
#[local] Open Scope js_scope.

(** ** Sums of money

    Costs are added as IEEE doubles, here and by the database ([REAL] columns): the exact sum is
    rounded to 53 bits, ties to the even one, in the range of the exponents of doubles. *)

Module Double.

Definition pow2 (e : Z) : Q := Qpower (2 # 1) e.
Definition round_even (q : Q) : Z :=
  let f := Qfloor q in
  match Qcompare (q - inject_Z f) (1 # 2) with Lt => f | Gt => (f + 1)%Z | Eq => if Z.even f then f else (f + 1)%Z end.
(** The exponent of the last of the 53 bits of [x], which is positive. *)
Definition ulp_exponent (x : Q) : Z :=
  let e := (Z.log2 (Qnum x) - Z.log2 (Zpos (Qden x)))%Z in
  Z.max ((if Qle_bool (pow2 e) x then e else e - 1) - 52) (-1074).
Definition to_double (q : Q) : num :=
  let x := Qred q in
  if Qeq_bool x 0 then Fin 0
  else
    let unit := pow2 (ulp_exponent (Qabs x)) in
    let y := Qred (inject_Z (round_even (x / unit)) * unit) in
    if Qle_bool (pow2 1024) (Qabs y) then if Qle_bool 0 x then PInf else NInf else Fin y.
Definition rounded (n : num) : num := match n with Fin x => to_double x | n => n end.
Definition dadd (a b : num) : num := rounded (num_add a b).
Definition dmul (a b : num) : num := rounded (num_mul a b).

(** *** How far a rounded number is from the exact one *)

Lemma pow2_pos e : (0 < pow2 e)%Q.
Proof. apply Qpower_0_lt. reflexivity. Qed.
Lemma pow2_plus a b : (pow2 (a + b) == pow2 a * pow2 b)%Q.
Proof. apply Qpower_plus. discriminate. Qed.
Lemma pow2_Z n : (0 <= n)%Z -> (pow2 n == inject_Z (2 ^ n))%Q.
Proof. intros H. unfold pow2. change (2 # 1)%Q with (inject_Z 2). by rewrite <- Zpower_Qpower. Qed.
Lemma round_even_near q : (Qabs (inject_Z (round_even q) - q) <= 1 # 2)%Q.
Proof.
  unfold round_even. pose proof (Qfloor_le q) as H1. pose proof (Qlt_floor q) as H2. rewrite inject_Z_plus in H2. change (inject_Z 1) with 1%Q in H2.
  apply Qabs_Qle_condition. destruct (Qcompare_spec (q - inject_Z (Qfloor q)) (1 # 2)) as [H|H|H]; [destruct (Z.even _)|..];
    rewrite ?inject_Z_plus; change (inject_Z 1) with 1%Q; lra.
Qed.
Lemma ulp_small x : (0 < x)%Q -> (pow2 (ulp_exponent x) <= x * pow2 (-52) + pow2 (-1074))%Q.
Proof.
  intros Hx. pose proof (pow2_pos (-1074)) as H1. pose proof (Qmult_lt_0_compat _ _ Hx (pow2_pos (-52))) as H2. unfold ulp_exponent.
  destruct (Z.max_spec ((if Qle_bool (pow2 (Z.log2 (Qnum x) - Z.log2 (Zpos (Qden x)))) x then Z.log2 (Qnum x) - Z.log2 (Zpos (Qden x))
    else Z.log2 (Qnum x) - Z.log2 (Zpos (Qden x)) - 1) - 52) (-1074)) as [[_ ->]|[_ ->]]; [lra|].
  set (e := (Z.log2 (Qnum x) - Z.log2 (Zpos (Qden x)))%Z).
  assert (H : (pow2 (if Qle_bool (pow2 e) x then e else e - 1) <= x)%Q).
  { destruct (Qle_bool (pow2 e) x) eqn:E; [by apply Qle_bool_iff|]. destruct x as [n d]. cbn [Qnum Qden] in e.
    assert (Hn : (0 < n)%Z) by (unfold Qlt in Hx; cbn in Hx; lia). destruct (Z.log2_spec n Hn) as [Ha _]. destruct (Z.log2_spec (Zpos d) ltac:(lia)) as [_ Hb].
    pose proof (Z.log2_nonneg n). pose proof (Z.log2_nonneg (Zpos d)).
    assert (He : (pow2 (e - 1) * inject_Z (2 ^ Z.succ (Z.log2 (Zpos d))) == inject_Z (2 ^ Z.log2 n))%Q).
    { rewrite <- !pow2_Z, <- pow2_plus by lia. unfold e. by replace (Z.log2 n - Z.log2 (Zpos d) - 1 + Z.succ (Z.log2 (Zpos d)))%Z with (Z.log2 n) by lia. }
    pose proof (pow2_pos (e - 1)) as Hp. set (p := pow2 (e - 1)) in *. apply Z.lt_le_incl in Hb. rewrite Zle_Qle in Ha, Hb.
    assert (Hq : (n # d == inject_Z n / inject_Z (Zpos d))%Q) by (by rewrite <- Qmake_Qdiv). rewrite Hq. apply Qle_shift_div_l; [reflexivity|].
    apply (proj2 (Qmult_le_l _ _ p Hp)) in Hb. lra. }
  unfold Z.sub at 1. rewrite pow2_plus. apply (proj2 (Qmult_le_r _ _ (pow2 (-52)) (pow2_pos _))) in H. change (- (52))%Z with (-52)%Z. lra.
Qed.
Lemma to_double_near x : (0 <= x)%Q -> match to_double x with
  | Fin y => 0 <= y /\ x * (1 - pow2 (-53)) - pow2 (-1075) <= y
  | n => n = PInf
  end%Q.
Proof.
  intros Hx. unfold to_double. pose proof (Qred_correct x) as Hr. set (r := Qred x) in *. destruct (Qeq_bool r 0) eqn:E.
  { apply Qeq_bool_iff in E. pose proof (pow2_pos (-1075)). split; [lra|]. rewrite <- Hr, E. lra. }
  apply Qeq_bool_neq in E. assert (H0 : (0 < r)%Q) by (destruct (Qlt_le_dec 0 r); [done|destruct E; lra]).
  assert (Ha : (Qabs r == r)%Q) by (apply Qabs_pos; lra). set (u := pow2 (ulp_exponent (Qabs r))).
  assert (Hu : (u <= r * pow2 (-52) + pow2 (-1074))%Q).
  { unfold u. pose proof (ulp_small (Qabs r)) as H. rewrite Ha in H at 1 3. by apply H. }
  pose proof (pow2_pos (ulp_exponent (Qabs r)) : (0 < u)%Q) as Hp. clearbody u.
  pose proof (round_even_near (r / u)) as H. apply Qabs_Qle_condition in H as [H _].
  assert (Hz : (0 <= inject_Z (round_even (r / u)))%Q).
  { change 0%Q with (inject_Z 0). rewrite <- Zle_Qle. unfold round_even. assert (Hf : (0 <= Qfloor (r / u))%Z).
    { change 0%Z with (Qfloor 0). apply Qfloor_resp_le, Qle_shift_div_l; [done|lra]. }
    destruct (Qcompare _ _); [destruct (Z.even _)|..]; lia. }
  set (m := inject_Z (round_even (r / u))) in *. assert (Hm : (r - (1 # 2) * u <= m * u)%Q).
  { assert (Hd : (r / u * u == r)%Q) by (field; lra). apply (proj2 (Qmult_le_r _ _ u Hp)) in H. lra. }
  pose proof (Qmult_le_0_compat _ _ Hz (Qlt_le_weak _ _ Hp)) as H1.
  assert (He : (pow2 (-52) == 2 * pow2 (-53) /\ pow2 (-1074) == 2 * pow2 (-1075))%Q).
  { split; [rewrite (pow2_plus 1 (-53))|rewrite (pow2_plus 1 (-1075))]; reflexivity. }
  destruct He as [He1 He2]. rewrite He1, He2 in Hu. set (v := pow2 (-53)) in *. set (w := pow2 (-1075)) in *. clearbody v w.
  destruct (Qle_bool (pow2 1024) _); [by rewrite (proj2 (Qle_bool_iff 0 r)) by lra|]. rewrite Qred_correct. split; [done|]. rewrite <- Hr. lra.
Qed.
Lemma to_double_same x y : (x == y)%Q -> to_double x = to_double y.
Proof. intros H. unfold to_double. by rewrite (Qred_complete x y H). Qed.

(** Equal as numbers. *)
Definition same (a b : num) : Prop := match a, b with Fin x, Fin y => (x == y)%Q | _, _ => a = b end.
Lemma same_refl a : same a a.
Proof. by destruct a. Qed.
Lemma dadd_same a b x y : same a b -> (x == y)%Q -> dadd a (Fin x) = dadd b (Fin y).
Proof.
  unfold dadd. destruct a, b; try done. cbn. intros H1 H2. apply to_double_same. rewrite !Qred_correct. by rewrite H1, H2.
Qed.
Lemma to_double_number x : to_double x <> NaN.
Proof. unfold to_double. by repeat case_match. Qed.

End Double.
Import Double.

(** ** Secrets at rest (secure.mjs) *)

Module Secure.

Definition PREFIX : string := "enc:v1:".

Section cipher.
(** AES-256-GCM under the key derived from a secret, in base64: the tag and the cipher text of a
    plain text under an initial vector; what is read back, none when the tag does not match. *)
Variable seal : string -> string -> string -> string * string.
Variable open : string -> string -> string -> string -> option string.
(** The configured secret; [''] when there is none. *)
Variable secret : string.

Definition encryptionEnabled : bool := nonempty secret.

Definition encryptString (plain iv : string) : string :=
  let '(tag, ct) := seal secret iv plain in (PREFIX ++ iv ++ ":" ++ tag ++ ":" ++ ct)%string.
(** [None]: it throws. *)
Definition decryptString (s : string) : option string :=
  if negb (starts_with PREFIX s) then Some s
  else match split_char ":" (drop_chars (String.length PREFIX) s) with
       | iv :: tag :: ct :: _ => open secret iv tag ct
       | _ => None
       end.
Definition isEncrypted (s : string) : bool := starts_with PREFIX s.
Definition maybeEncrypt (plain iv : string) : string := if encryptionEnabled then encryptString plain iv else plain.
Definition maybeDecrypt (s : string) : option string := if isEncrypted s then decryptString s else Some s.

(** What a cipher promises: base64 has no colon, and what was sealed opens. *)
Hypothesis sealed : forall iv plain tag ct, seal secret iv plain = (tag, ct) ->
  open secret iv tag ct = Some plain /\ lacks ":" tag = true /\ lacks ":" ct = true.

Lemma secret_roundtrip plain iv : lacks ":" iv = true -> isEncrypted plain = false ->
  maybeDecrypt (maybeEncrypt plain iv) = Some plain.
Proof.
  intros Hiv Hp. unfold maybeEncrypt, maybeDecrypt. destruct encryptionEnabled; [|by rewrite Hp].
  unfold encryptString. destruct (seal secret iv plain) as (tag, ct) eqn:E. destruct (sealed _ _ _ _ E) as (Ho & Ht & Hc).
  change (isEncrypted (PREFIX ++ ?r)) with true. unfold decryptString. change (starts_with PREFIX (PREFIX ++ ?r)) with true.
  cbn [negb]. rewrite drop_chars_app. change (iv ++ ":" ++ tag ++ ":" ++ ct)%string with (iv ++ String ":" (tag ++ String ":" ct))%string.
  rewrite split_cut, split_cut, split_last by done. exact Ho.
Qed.
End cipher.

End Secure.

(** ** The repository (api-keys-repo.mjs) *)

Module Repo.

Definition COLUMNS : list string :=
  ["id"; "name"; "key"; "status"; "max_concurrency"; "quota_requests"; "quota_requests_used"; "rpm"; "expires_at"; "created_at";
   "updated_at"; "last_used_at"; "requests"; "tokens_in"; "tokens_out"; "cache_read_tokens"; "cache_creation_tokens"; "key_hash";
   "key_prefix"; "key_suffix"; "category"; "key_secret"; "user_id"; "group_id"; "quota"; "quota_used"; "rate_limit_5h";
   "rate_limit_1d"; "rate_limit_7d"; "usage_5h"; "usage_1d"; "usage_7d"; "window_5h_start"; "window_1d_start"; "window_7d_start";
   "ip_whitelist"; "ip_blacklist"; "deleted_at"].

(** The column of the spend in a window, the column of its start, its length. *)
Record window := { w_usage : string; w_start : string; w_ms : Z }.
Definition WINDOWS : list window :=
  [{| w_usage := "usage_5h"; w_start := "window_5h_start"; w_ms := 5 * 3600 * 1000 |};
   {| w_usage := "usage_1d"; w_start := "window_1d_start"; w_ms := 24 * 3600 * 1000 |};
   {| w_usage := "usage_7d"; w_start := "window_7d_start"; w_ms := 7 * 24 * 3600 * 1000 |}].

Definition NUMERIC_DEFAULT_0 : list string :=
  ["quota_requests"; "quota_requests_used"; "requests"; "tokens_in"; "tokens_out"; "quota"; "quota_used"; "rate_limit_5h";
   "rate_limit_1d"; "rate_limit_7d"; "usage_5h"; "usage_1d"; "usage_7d"].

Definition toValue (rec : jsval) (c : string) : jsval :=
  let v := rec?.c in
  if is_nullish v then if String.eqb c "category" then JStr "oauth" else if mem c NUMERIC_DEFAULT_0 then jint 0 else JNull
  else v.

(** The table in the order of [list]. *)
Definition list_rows (t : fields) : list jsval := List.filter visible (map snd t).
Definition find_row (p : jsval -> bool) (t : fields) : jsval :=
  match List.find p (list_rows t) with Some row => row | None => JUndef end.
Definition getById (t : fields) (id : string) : jsval := let row := select_row id t in if visible row then row else JUndef.
Definition getByKey (t : fields) (key : string) : jsval := find_row (fun row => is_str (row?."key") key) t.
Definition getByHash (t : fields) (hash : string) : jsval := find_row (fun row => is_str (row?."key_hash") hash) t.

(** [None]: the id is taken. *)
Definition insert (t : fields) (rec : jsval) : option (fields * jsval) :=
  let id := to_string (rec?."id") in
  if has_key id t then None
  else let t := t ++ [(id, JObj (map (fun c => (c, toValue rec c)) COLUMNS))] in Some (t, getById t id).

Definition write_row (rec row : jsval) : jsval :=
  spread row (JObj (map (fun c => (c, toValue rec c)) (List.filter (fun c => negb (String.eqb c "id")) COLUMNS))).
Definition update (t : fields) (rec : jsval) : fields * jsval :=
  let id := to_string (rec?."id") in
  let t := map (fun p => if String.eqb id p.1 then (p.1, write_row rec p.2) else p) t in (t, getById t id).

Definition remove (t : fields) (id : string) : fields * bool := (del_field id t, has_key id t).

(** The spend and the start of a window after a cost. *)
Definition rollWindow (rec : jsval) (w : window) (cost : num) (nowMs : Z) : num * jsval :=
  let start := if truthy (rec?.(w_start w)) then date_parse (to_string (rec?.(w_start w))) else NaN in
  if negb (is_finite start) || num_leb (num_of_Z (w_ms w)) (num_sub (num_of_Z nowMs) start) then (cost, iso_now nowMs)
  else (dadd (num_or_zero (rec?.(w_usage w))) cost, rec?.(w_start w)).

Record tokens := { t_in : num; t_out : num; t_read : num; t_creation : num }.

Definition added (row : jsval) (c : string) (n : num) : string * jsval := (c, JNum (num_add (to_number (row?.c)) n)).
(** The columns the statement sets. *)
Definition usage_columns (rec row : jsval) (k : tokens) (cost : num) (nowMs : Z) : fields :=
  [added row "requests" (Fin 1); added row "quota_requests_used" (Fin 1); added row "tokens_in" (t_in k);
   added row "tokens_out" (t_out k); ("cache_read_tokens", JNum (num_add (num_or_zero (row?."cache_read_tokens")) (t_read k)));
   ("cache_creation_tokens", JNum (num_add (num_or_zero (row?."cache_creation_tokens")) (t_creation k)));
   ("quota_used", JNum (dadd (to_number (row?."quota_used")) cost))] ++
  concat (map (fun w => let r := rollWindow rec w cost nowMs in [(w_usage w, JNum r.1); (w_start w, r.2)]) WINDOWS) ++
  [("last_used_at", iso_now nowMs); ("updated_at", iso_now nowMs)].

Definition recordUsage (t : fields) (id : string) (k : tokens) (cost : num) (nowMs : Z) : fields * jsval :=
  let rec := getById t id in
  let cost := num_or_zero (JNum cost) in
  if negb (truthy rec) then (t, JNull)
  else
    let t := map (fun p => if String.eqb id p.1 then (p.1, spread p.2 (JObj (usage_columns rec p.2 k cost nowMs))) else p) t in
    (t, getById t id).

Definition count (t : fields) : nat := length (list_rows t).

End Repo.

(** ** Views and limits (api-keys.mjs) *)

Definition KEY_PREFIX : string := "sk-vm-".
Definition HASH_MARKER : string := "hmac:".

Definition clampInt (n : jsval) (min max : Z) (fallback : jsval) : jsval :=
  let v := to_number n in
  if negb (is_finite v) then fallback else JNum (num_max (num_of_Z min) (num_min (num_of_Z max) (num_floor v))).

(** The last [n] characters. *)
Definition take_last (n : nat) (s : string) : string := drop_chars (String.length s - n) s.
(** [random]: 32 bytes in hex. *)
Definition generateApiKey (random : string) : string := (KEY_PREFIX ++ random)%string.

Definition maskApiKey (key : string) : string :=
  if (String.length key <=? 12)%nat then (take_chars 4 key ++ "…")%string
  else (take_chars 8 key ++ "…" ++ take_last 4 key)%string.

(** [Math.max(0, Number(v) || 0)] *)
Definition amount (v : jsval) : jsval := JNum (num_max (Fin 0) (num_or_zero v)).
Definition key_char (c : ascii) : bool := is_digit c || is_upper c || is_lower c || mem (String c "") ["_"; "-"].
(** [new Date(v).toISOString()]; [None]: it throws. *)
Definition iso_of (v : jsval) : option string :=
  num_to_iso (match v with JStr s => date_parse s | _ => to_number v end).
Definition category_of (v : jsval) : jsval := JStr (if String.eqb (to_lower (to_string v)) "api" then "api" else "oauth").

Record refusal := { r_code : string; r_message : string; r_status : Z; r_detail : jsval }.
Definition refuse (code message : string) (status : Z) (detail : jsval) : option refusal :=
  Some {| r_code := code; r_message := message; r_status := status; r_detail := detail |}.

Definition expired (rec : jsval) (now : Z) : bool :=
  truthy (rec?."expires_at") && num_leb (date_parse (to_string (rec?."expires_at"))) (num_of_Z now).

(** [(x ?? 0) >= limit] for a limit that is set. *)
Definition used_up (limit used : jsval) : bool := num_ltb (Fin 0) (to_number limit) && num_leb (to_number limit) (to_number (used ?? jint 0)).

Definition LIMIT_KEYS : list (string * string) :=
  [("rate_limit_5h", "5h"); ("rate_limit_1d", "1d"); ("rate_limit_7d", "7d")].

(** A window of spend that is open and used up. *)
Definition window_spent (rec : jsval) (now : Z) (limitKey : string) (w : Repo.window) : bool :=
  let limit := num_or_zero (rec?.limitKey) in
  let start := if truthy (rec?.(Repo.w_start w)) then date_parse (to_string (rec?.(Repo.w_start w))) else NaN in
  num_ltb (Fin 0) limit && (is_finite start && num_ltb (num_sub (num_of_Z now) start) (num_of_Z (Repo.w_ms w))) &&
  num_leb limit (num_or_zero (rec?.(Repo.w_usage w))).
Definition spend_refusal (rec : jsval) (now : Z) : option refusal :=
  match List.find (fun p => window_spent rec now p.1.1 p.2) (combine LIMIT_KEYS Repo.WINDOWS) with
  | Some ((limitKey, label), w) =>
    refuse "api_key_rate_limit" ("API key " ++ label ++ " spend limit exceeded")%string 429
      (JObj [("limit", JNum (num_or_zero (rec?.limitKey))); ("used", JNum (num_or_zero (rec?.(Repo.w_usage w))))])
  | None => None
  end.

(** The gate up to the rate of requests: what depends on the record alone. *)
Definition record_refusal (rec : jsval) (now : Z) : option refusal :=
  if negb (truthy rec) then refuse "invalid_api_key" "Invalid credentials" 401 JUndef
  else if negb (is_str (rec?."status") "active") then
    if is_str (rec?."status") "quota_exhausted" then refuse "api_key_quota_exhausted" "API key quota exhausted" 429 JUndef
    else refuse "api_key_disabled" "API key is disabled" 403 JUndef
  else if expired rec now then refuse "api_key_expired" "API key has expired" 403 JUndef
  else if used_up (rec?."quota_requests") (rec?."quota_requests_used") then
    refuse "api_key_quota_exhausted" "API key quota exhausted" 429
      (JObj [("quota_requests", rec?."quota_requests"); ("quota_used", rec?."quota_requests_used")])
  else if used_up (rec?."quota" ?? jint 0) (rec?."quota_used") then
    refuse "api_key_quota_exhausted" "API key USD quota exhausted" 429
      (JObj [("quota", rec?."quota"); ("quota_used", rec?."quota_used")])
  else spend_refusal rec now.

(** ** The store *)

Record store := { rows : fields; inflight : gmap string Z; rpmBuckets : gmap string (list Z) }.
Definition with_rows (s : store) (t : fields) : store := {| rows := t; inflight := inflight s; rpmBuckets := rpmBuckets s |}.
Definition running (s : store) (id : string) : Z := default 0%Z (inflight s !! id).
Definition recent (s : store) (id : string) : list Z := default [] (rpmBuckets s !! id).
Definition set_bucket (s : store) (id : string) (l : list Z) : store :=
  {| rows := rows s; inflight := inflight s; rpmBuckets := <[id := l]> (rpmBuckets s) |}.

Definition rpmCount (s : store) (id : string) (now : Z) : store * nat :=
  let l := List.filter (fun t => now - t <? 60000)%Z (recent s id) in (set_bucket s id l, length l).

(** The running requests of all keys of a user. *)
Definition user_running (s : store) (user : jsval) : Z :=
  foldr (fun k n => (if same_value (k?."user_id") user then running s (to_string (k?."id")) else 0) + n)%Z 0%Z (Repo.list_rows (rows s)).

Definition user_refusal (s : store) (users : fields) (rec : jsval) : option refusal :=
  if negb (truthy (rec?."user_id")) then None
  else
    let cap := num_or_zero ((Users.getById users (rec?."user_id"))?."concurrency") in
    let total := user_running s (rec?."user_id") in
    if num_ltb (Fin 0) cap && num_leb cap (num_of_Z total)
    then refuse "user_concurrency_limit" ("User concurrency limit (" ++ num_to_string cap ++ ")")%string 429
           (JObj [("inflight", jint total); ("max", JNum cap)])
    else None.

Definition key_refusal (s : store) (rec : jsval) : option refusal :=
  let max := to_number (rec?."max_concurrency") in
  let n := running s (to_string (rec?."id")) in
  if num_ltb (Fin 0) max && num_leb max (num_of_Z n)
  then refuse "api_key_concurrency_limit" ("API key concurrency limit (" ++ to_string (rec?."max_concurrency") ++ ")")%string 429
         (JObj [("inflight", jint n); ("max", rec?."max_concurrency")])
  else None.

Definition rate_refusal (s : store) (rec : jsval) (now : Z) : store * option refusal :=
  if num_ltb (Fin 0) (to_number (rec?."rpm")) then
    let '(s, n) := rpmCount s (to_string (rec?."id")) now in
    if num_leb (to_number (rec?."rpm")) (num_of_Z (Z.of_nat n))
    then (s, refuse "api_key_rate_limit" ("API key rate limit exceeded (" ++ to_string (rec?."rpm") ++ "/min)")%string 429
               (JObj [("rpm", rec?."rpm"); ("current", jint (Z.of_nat n))]))
    else (s, None)
  else (s, None).

(** [None]: accepted. *)
Definition canAccept (s : store) (users : fields) (rec : jsval) (now : Z) : store * option refusal :=
  match record_refusal rec now with
  | Some r => (s, Some r)
  | None =>
    match rate_refusal s rec now with
    | (s, Some r) => (s, Some r)
    | (s, None) =>
      match key_refusal s rec with
      | Some r => (s, Some r)
      | None => (s, user_refusal s users rec)
      end
    end
  end.

Definition acquire (s : store) (users : fields) (rec : jsval) (now : Z) : store * option refusal :=
  match canAccept s users rec now with
  | (s, Some r) => (s, Some r)
  | (s, None) =>
    let id := to_string (rec?."id") in
    ({| rows := rows s; inflight := <[id := (running s id + 1)%Z]> (inflight s);
        rpmBuckets := <[id := recent s id ++ [now]]> (rpmBuckets s) |}, None)
  end.

Definition release (s : store) (id : string) : store :=
  if negb (nonempty id) then s
  else
    let n := (running s id - 1)%Z in
    {| rows := rows s; inflight := if (n <=? 0)%Z then delete id (inflight s) else <[id := n]> (inflight s); rpmBuckets := rpmBuckets s |}.

Definition remove (s : store) (id : string) : store * bool :=
  let '(t, removed) := Repo.remove (rows s) id in
  if removed then ({| rows := t; inflight := delete id (inflight s); rpmBuckets := delete id (rpmBuckets s) |}, true)
  else (s, false).

(** ** Usage *)

Definition cost_of (usage model : jsval) (rateMultiplier : num) : num :=
  let cost := num_or_zero (usage?."cost" ?? usage?."actual_cost") in
  let cost := if negb (truthy (JNum cost)) && truthy model then
                let c := calculateCost (normalizeUsage usage) model in if known c then total_cost c else cost
              else cost in
  dmul cost (if is_finite rateMultiplier then rateMultiplier else Fin 1).

(** [Number(a) || Number(b) || 0] *)
Definition count_or (a b : jsval) : num := if truthy (JNum (to_number a)) then to_number a else num_or_zero b.

Definition usage_tokens (usage : jsval) : Repo.tokens :=
  let u := normalizeUsage usage in
  {| Repo.t_in := count_or (u?."input_tokens") (u?."tokens_in"); Repo.t_out := count_or (u?."output_tokens") (u?."tokens_out");
     Repo.t_read := num_or_zero (u?."cache_read_input_tokens" ?? u?."cache_read_tokens");
     Repo.t_creation := num_or_zero (u?."cache_creation_input_tokens" ?? u?."cache_creation_tokens") |}.

Definition flip_exhausted (t : fields) (rec : jsval) (now : Z) : fields :=
  if is_str (rec?."status") "active" && used_up (rec?."quota" ?? jint 0) (rec?."quota_used")
  then (Repo.update t (with_field (with_field rec "status" (JStr "quota_exhausted")) "updated_at" (iso_now now))).1
  else t.

Definition recordUsage (s : store) (id : string) (usage model : jsval) (rateMultiplier : num) (now : Z) : store * jsval :=
  if negb (truthy (Repo.getById (rows s) id)) then (s, JNull)
  else
    let '(t, rec) := Repo.recordUsage (rows s) id (usage_tokens usage) (cost_of usage model rateMultiplier) now in
    (with_rows s (if truthy rec then flip_exhausted t rec now else t), rec).

(** ** Credentials of a key *)

Section credentials.
(** The HMAC of a text under the secret of the store, in hex. *)
Variable hmac : string -> string.
Variable seal : string -> string -> string -> string * string.
Variable open : string -> string -> string -> string -> option string.
Variable secret : string.

Definition plainApiKey (rec : jsval) : option string :=
  if negb (truthy rec) then None
  else if truthy (rec?."_plain_key") then Some (to_string (rec?."_plain_key"))
  else
    let legacy := if truthy (rec?."key") && negb (starts_with HASH_MARKER (to_string (rec?."key")))
                  then Some (to_string (rec?."key")) else None in
    if truthy (rec?."key_secret") then
      match Secure.maybeDecrypt open secret (to_string (rec?."key_secret")) with
      | None => None
      | Some plain => if nonempty plain then Some plain else legacy
      end
    else legacy.

Definition publicKeyView (rec : jsval) (reveal : bool) : jsval :=
  if negb (truthy rec) then JNull
  else
    let plain := plainApiKey rec in
    let masked := match plain with
                  | Some key => maskApiKey key
                  | None => (to_string (rec?."key_prefix" ||| JStr KEY_PREFIX) ++ "…" ++ to_string (rec?."key_suffix" ||| JStr "hidden"))%string
                  end in
    JObj [("id", rec?."id"); ("name", rec?."name");
          ("key", JStr (match plain with Some key => if reveal then key else masked | None => masked end));
          ("revealable", JBool (bool_decide (is_Some plain)));
          ("key_prefix", rec?."key_prefix" ||| JStr (take_chars 10 (default KEY_PREFIX plain)));
          ("status", rec?."status"); ("user_id", rec?."user_id" ?? JNull); ("group_id", rec?."group_id" ?? JNull);
          ("max_concurrency", rec?."max_concurrency"); ("quota_requests", rec?."quota_requests");
          ("quota_used", rec?."quota_requests_used" ?? jint 0); ("quota_usd", rec?."quota" ?? jint 0);
          ("quota_usd_used", rec?."quota_used" ?? jint 0); ("rate_limit_5h", rec?."rate_limit_5h" ?? jint 0);
          ("rate_limit_1d", rec?."rate_limit_1d" ?? jint 0); ("rate_limit_7d", rec?."rate_limit_7d" ?? jint 0);
          ("usage_5h", rec?."usage_5h" ?? jint 0); ("usage_1d", rec?."usage_1d" ?? jint 0); ("usage_7d", rec?."usage_7d" ?? jint 0);
          ("rpm", rec?."rpm"); ("expires_at", rec?."expires_at"); ("created_at", rec?."created_at");
          ("updated_at", rec?."updated_at"); ("last_used_at", rec?."last_used_at"); ("requests", rec?."requests" ||| jint 0);
          ("tokens_in", rec?."tokens_in" ||| jint 0); ("tokens_out", rec?."tokens_out" ||| jint 0);
          ("category", JStr (if is_str (rec?."category") "api" then "api" else "oauth")); ("inflight", JUndef)].

Definition list_view (s : store) (reveal : bool) : list jsval :=
  map (fun k => with_field (publicKeyView k reveal) "inflight" (jint (running s (to_string (k?."id"))))) (Repo.list_rows (rows s)).
Definition snapshot (s : store) : nat * nat * list jsval :=
  let keys := list_view s false in (length keys, length (List.filter (fun k => is_str (k?."status") "active") keys), keys).

Definition ownerActive (users : fields) (rec : jsval) : bool :=
  negb (truthy (rec?."user_id")) ||
  (let owner := Users.getById users (rec?."user_id") in truthy owner && is_str (owner?."status") "active").

Inductive authentication := Refused (reason : string) | Accepted (record : jsval).

Definition hashed_fields (rec : jsval) (key iv : string) : jsval :=
  spread rec (JObj [("key", JStr (HASH_MARKER ++ hmac key)%string); ("key_hash", JStr (hmac key));
                    ("key_prefix", JStr (take_chars 10 key)); ("key_suffix", JStr (take_last 4 key));
                    ("key_secret", JStr (Secure.maybeEncrypt seal secret key iv))]).

(** A row that still holds its key in the clear. *)
Definition legacy_match (token : string) (rec : jsval) : bool :=
  negb (starts_with HASH_MARKER (str_or_empty (rec?."key"))) && String.eqb token (str_or_empty (rec?."key")).

Definition authenticate (s : store) (users : fields) (token iv : string) : store * authentication :=
  if negb (nonempty token) then (s, Refused "missing")
  else
    let indexed := Repo.getByHash (rows s) (hmac token) in
    if truthy indexed then
      (s, if ownerActive users indexed then Accepted indexed else Refused "user_disabled")
    else
      match List.find (legacy_match token) (Repo.list_rows (rows s)) with
      | Some rec => let '(t, rec) := Repo.update (rows s) (hashed_fields rec token iv) in (with_rows s t, Accepted rec)
      | None => (s, Refused "invalid")
      end.

(** The answer of [create] and [rotate]: the row and the key in the clear. *)
Definition with_plain (rec : jsval) (key : string) : jsval := spread rec (JObj [("key", JStr key); ("_plain_key", JStr key)]).

Definition create (s : store) (input : jsval) (random id_random iv : string) (now : Z) : thrown + store * jsval :=
  let name := take_chars 100 (trim (to_string (input?."name" ||| JStr "default"))) in
  let name := if nonempty name then name else "default" in
  let key := if truthy (input?."key") then trim (to_string (input?."key")) else generateApiKey random in
  if (String.length key <? 16)%nat then inl "key_too_short"
  else if negb (all_chars key_char key) then inl "key_invalid"
  else if truthy (Repo.getByHash (rows s) (hmac key)) || truthy (Repo.getByKey (rows s) key) then inl "key_exists"
  else
    match (if truthy (input?."expires_at") then iso_of (input?."expires_at") else Some "") with
    | None => inl "RangeError"
    | Some expires =>
      let rec := JObj
        [("id", JStr ("key_" ++ id_random)%string); ("name", JStr name); ("key", JStr (HASH_MARKER ++ hmac key)%string);
         ("key_hash", JStr (hmac key)); ("key_prefix", JStr (take_chars 10 key)); ("key_suffix", JStr (take_last 4 key));
         ("key_secret", JStr (Secure.maybeEncrypt seal secret key iv)); ("status", JStr "active");
         ("max_concurrency", clampInt (input?."max_concurrency") 0 128 (input?."default_concurrency" ?? jint 20));
         ("quota_requests", clampInt (input?."quota_requests") 0 1000000000 (jint 0)); ("quota_requests_used", jint 0);
         ("quota", amount (input?."quota")); ("quota_used", jint 0); ("rate_limit_5h", amount (input?."rate_limit_5h"));
         ("rate_limit_1d", amount (input?."rate_limit_1d")); ("rate_limit_7d", amount (input?."rate_limit_7d"));
         ("user_id", input?."user_id" ?? JNull); ("group_id", input?."group_id" ?? jint 1);
         ("rpm", clampInt (input?."rpm") 0 1000000 (jint 0)); ("expires_at", if nonempty expires then JStr expires else JNull);
         ("created_at", iso_now now); ("updated_at", iso_now now); ("last_used_at", JNull); ("requests", jint 0);
         ("tokens_in", jint 0); ("tokens_out", jint 0); ("category", category_of (input?."category" ||| JStr "oauth"))] in
      match Repo.insert (rows s) rec with
      | None => inl "constraint"
      | Some (t, stored) => inr (with_rows s t, with_plain stored key)
      end
    end.

(** [if (patch[k] != null) rec[c] = f] *)
Definition patched (patch : jsval) (k : string) (f : jsval -> jsval) (rec : jsval) : jsval :=
  if is_nullish (patch?.k) then rec else with_field rec k (f (patch?.k)).

Definition patch_status (patch rec : jsval) : thrown + jsval :=
  if is_nullish (patch?."status") then inr rec
  else
    let st := to_lower (to_string (patch?."status")) in
    if mem st ["active"; "disabled"] then inr (with_field rec "status" (JStr st)) else inl "invalid_status".
Definition patch_expiry (patch rec : jsval) : thrown + jsval :=
  match patch?."expires_at" with
  | JNull => inr (with_field rec "expires_at" JNull)
  | JUndef => inr rec
  | v => match iso_of v with Some iso => inr (with_field rec "expires_at" (JStr iso)) | None => inl "RangeError" end
  end.
Definition patch_limits (patch rec : jsval) : jsval :=
  let rec := patched patch "max_concurrency" (fun v => clampInt v 0 128 (rec?."max_concurrency")) rec in
  let rec := patched patch "quota_requests" (fun v => clampInt v 0 1000000000 (rec?."quota_requests")) rec in
  let rec := patched patch "quota" amount rec in
  let rec := patched patch "rate_limit_5h" amount rec in
  let rec := patched patch "rate_limit_1d" amount rec in
  let rec := patched patch "rate_limit_7d" amount rec in
  let rec := patched patch "group_id" (fun v => JNum (to_number v) ||| jint 1) rec in
  let rec := patched patch "user_id" (fun v => v) rec in
  patched patch "rpm" (fun v => clampInt v 0 1000000 (rec?."rpm")) rec.
(** Back from [quota_exhausted] when the spend is under the cap. *)
Definition recover (rec : jsval) : jsval :=
  if is_str (rec?."status") "quota_exhausted" && negb (used_up (rec?."quota" ?? jint 0) (rec?."quota_used")) &&
     negb (used_up (rec?."quota_requests") (rec?."quota_requests_used"))
  then with_field rec "status" (JStr "active") else rec.

Definition update (s : store) (id : string) (patch : jsval) (now : Z) : thrown + store * jsval :=
  let rec := Repo.getById (rows s) id in
  if negb (truthy rec) then inr (s, JNull)
  else
    let name := take_chars 100 (trim (to_string (patch?."name"))) in
    let rec := if is_nullish (patch?."name") || negb (nonempty name) then rec else with_field rec "name" (JStr name) in
    let* rec <- patch_status patch rec in
    let rec := patch_limits patch rec in
    let* rec <- patch_expiry patch rec in
    let rec := if is_bool (patch?."reset_quota") true
               then with_field (with_field rec "quota_requests_used" (jint 0)) "quota_used" (jint 0) else rec in
    let rec := patched patch "category" category_of (recover rec) in
    let '(t, stored) := Repo.update (rows s) (with_field rec "updated_at" (iso_now now)) in inr (with_rows s t, stored).

Inductive revealed := NoKey | NotRecoverable | Plain (id name : jsval) (key : string).
Definition reveal (s : store) (id : string) : revealed :=
  let rec := Repo.getById (rows s) id in
  if negb (truthy rec) then NoKey
  else match plainApiKey rec with
       | Some key => if nonempty key then Plain (rec?."id") (rec?."name") key else NotRecoverable
       | None => NotRecoverable
       end.

Definition rotate (s : store) (id random iv : string) (now : Z) : thrown + store * jsval :=
  let rec := Repo.getById (rows s) id in
  if negb (truthy rec) then inr (s, JNull)
  else
    let key := generateApiKey random in
    if truthy (Repo.getByHash (rows s) (hmac key)) then inl "key_exists"
    else
      let '(t, stored) := Repo.update (rows s) (with_field (hashed_fields rec key iv) "updated_at" (iso_now now)) in
      inr (with_rows s t, with_plain stored key).
End credentials.
