(* ===== verification/ApiKeyFacts.v ===== *)
(** * Theorems on managed API keys (the model is in ApiKeys.v)

    Admission: what runs at once and what starts within a minute stays under the limits of a key
    and of its owner.  Spend: the windows and the quota of a key add up the costs charged to it. *)

From stdpp Require Import gmap strings sorting.
From Stdlib Require Import Sorted Lqa.
From S2P Require Import Prelude.
From S2P Require Import JsValue.
From S2P Require Import JsText.
From S2P Require Import JsDate.
From S2P Require Import IsoTime.
From S2P Require Import AccountStore.
From S2P Require Import StoreFacts.
From S2P Require Import Users.
From S2P Require Import ApiKeys.
#[local] Open Scope string_scope.
#[local] Open Scope list_scope.
#[local] Open Scope js_scope.

(** ** Admission *)

Inductive event :=
  | Acquire (id : string) (now : Z)
  | Probe (id : string) (now : Z)
  | Release (id : string).
Definition time_of (e : event) : option Z := match e with Acquire _ t | Probe _ t => Some t | Release _ => None end.

Section admission.
Variable users : fields.
(** The rows, which these events leave. *)
Variable table : fields.
Hypothesis table_keyed : keyed_rows table.

Definition row_of (id : string) : jsval := Repo.getById table id.

(** The store after an event, and whether it started a request of [id]. *)
Definition step (id : string) (s : store) (e : event) : store * list Z :=
  match e with
  | Acquire id' now =>
    let r := acquire s users (row_of id') now in (r.1, if String.eqb id id' && negb (bool_decide (is_Some r.2)) then [now] else [])
  | Probe id' now => ((canAccept s users (row_of id') now).1, [])
  | Release id' => (release s id', [])
  end.
(** The store after some events, and the times at which requests of [id] started. *)
Fixpoint run (id : string) (s : store) (es : list event) : store * list Z :=
  match es with
  | [] => (s, [])
  | e :: es => let r := step id s e in let r' := run id r.1 es in (r'.1, r.2 ++ r'.2)
  end.

(** The requests under way, by their keys: one is added when it is let in and taken away when it is released. *)
Fixpoint take_away (id : string) (l : list string) : list string :=
  match l with [] => [] | k :: l => if String.eqb id k then l else k :: take_away id l end.
Definition note (s : store) (l : list string) (e : event) : list string :=
  match e with
  | Acquire id now => if bool_decide (is_Some (acquire s users (row_of id) now).2) then l else id :: l
  | Probe _ _ => l
  | Release id => take_away id l
  end.
Fixpoint under_way (s : store) (l : list string) (es : list event) : list string :=
  match es with [] => l | e :: es => under_way (step "" s e).1 (note s l e) es end.
(** How many of them are of a key; how many are of a user, over all keys. *)
Definition of_key (id : string) (l : list string) : Z := Z.of_nat (length (List.filter (String.eqb id) l)).
Definition of_user (u : string) (l : list string) : Z :=
  Z.of_nat (length (List.filter (fun id => same_value ((row_of id)?."user_id") (JStr u)) l)).

Definition in_minute (T t : Z) : bool := (T - 60000 <? t)%Z && (t <=? T)%Z.
Definition started (T : Z) (l : list Z) : nat := length (List.filter (in_minute T) l).

(** The bucket of a key holds what started in the last minute. *)
Definition recent_ok (s : store) (id : string) (log : list Z) (now : Z) : Prop :=
  forall now', (now <= now')%Z ->
    List.filter (fun t => now' - t <? 60000)%Z (recent s id) = List.filter (fun t => now' - t <? 60000)%Z log.

Lemma filter_filter_imp {A} (p q : A -> bool) l : (forall x, q x = true -> p x = true) ->
  List.filter q (List.filter p l) = List.filter q l.
Proof.
  intros H. induction l as [|x l IH]; [done|]. cbn. destruct (p x) eqn:Ep; cbn; rewrite IH; [done|].
  destruct (q x) eqn:Eq; [|done]. apply H in Eq. congruence.
Qed.

Lemma filter_length_imp {A} (p q : A -> bool) l : (forall x, In x l -> q x = true -> p x = true) ->
  (length (List.filter q l) <= length (List.filter p l))%nat.
Proof.
  intros H. induction l as [|x l IH]; [done|]. cbn. assert (IH' := IH (fun y Hy => H y (or_intror Hy))).
  destruct (q x) eqn:Eq; [rewrite (H x (or_introl eq_refl) Eq); cbn; lia|]. destruct (p x); cbn; lia.
Qed.

(** One more start, when the minute before it had room. *)
Lemma started_snoc m log now : (forall t, In t log -> (t <= now)%Z) ->
  (length (List.filter (fun t => now - t <? 60000)%Z log) < m)%nat ->
  (forall T, (started T log <= m)%nat) -> forall T, (started T (log ++ [now]) <= m)%nat.
Proof.
  intros Hle Hlt Hold T. unfold started. rewrite List.filter_app, length_app. cbn.
  destruct (in_minute T now) eqn:E; cbn; [|specialize (Hold T); unfold started in Hold; lia].
  apply andb_true_iff in E as (E1 & E2). apply Z.ltb_lt in E1. apply Z.leb_le in E2.
  assert (H : (length (List.filter (in_minute T) log) <= length (List.filter (fun t => now - t <? 60000)%Z log))%nat); [|lia].
  apply filter_length_imp. intros t Hin (Ht & _)%andb_true_iff. apply Z.ltb_lt in Ht. apply Z.ltb_lt. lia.
Qed.

(** What the events keep, for a key and the log of its starts up to [now]. *)
Record kept_ok (id : string) (s : store) (log : list Z) (now : Z) : Prop := {
  k_rows : rows s = table;
  k_nonneg : forall id', (0 <= running s id')%Z;
  k_times : forall t, In t log -> (t <= now)%Z;
  k_recent : recent_ok s id log now;
  k_max : forall c, to_number ((row_of id)?."max_concurrency") = num_of_Z c -> (0 < c)%Z -> (running s id <= c)%Z;
  k_rpm : forall m, to_number ((row_of id)?."rpm") = num_of_Z m -> (0 < m)%Z -> forall T, (started T log <= Z.to_nat m)%nat;
}.

Lemma rate_refusal_spec s rec now : let r := rate_refusal s rec now in
  rows r.1 = rows s /\ inflight r.1 = inflight s /\
  (forall id, recent r.1 id = recent s id \/ recent r.1 id = List.filter (fun t => now - t <? 60000)%Z (recent s id)) /\
  (r.2 = None -> forall m, to_number (rec?."rpm") = num_of_Z m -> (0 < m)%Z ->
   (length (List.filter (fun t => now - t <? 60000)%Z (recent s (to_string (rec?."id")))) < Z.to_nat m)%nat).
Proof.
  cbn zeta. unfold rate_refusal, rpmCount. set (l := List.filter _ (recent s (to_string (rec?."id")))).
  assert (Hb : forall id, recent (set_bucket s (to_string (rec?."id")) l) id = recent s id \/
    recent (set_bucket s (to_string (rec?."id")) l) id = List.filter (fun t => now - t <? 60000)%Z (recent s id)).
  { intros id. unfold recent, set_bucket. cbn [rpmBuckets]. destruct (decide (id = to_string (rec?."id"))) as [->|Hne].
    - rewrite lookup_insert_eq. by right.
    - rewrite lookup_insert_ne by congruence. by left. }
  destruct (num_ltb (Fin 0) (to_number (rec?."rpm"))) eqn:E0.
  - destruct (num_leb _ _) eqn:E; (split; [done|]; split; [done|]; split; [exact Hb|]); [done|].
    intros _ m Hm Hpos. cbn [fst snd] in *. rewrite Hm in E. destruct (num_leb_Z m (Z.of_nat (length l))) as (_ & H).
    destruct (decide (m <= Z.of_nat (length l))%Z) as [Hle|Hgt]; [rewrite (H Hle) in E; discriminate|]. lia.
  - split; [done|]. split; [done|]. split; [by left|]. intros _ m Hm Hpos. rewrite Hm in E0.
    destruct (num_ltb_Z 0 m) as (_ & H). change (Fin 0) with (num_of_Z 0) in E0. rewrite (H Hpos) in E0. discriminate.
Qed.

Lemma canAccept_effects s us rec now : let r := canAccept s us rec now in
  rows r.1 = rows s /\ inflight r.1 = inflight s /\
  (forall id, recent r.1 id = recent s id \/ recent r.1 id = List.filter (fun t => now - t <? 60000)%Z (recent s id)) /\
  (r.2 = None ->
   (forall m, to_number (rec?."rpm") = num_of_Z m -> (0 < m)%Z ->
    (length (List.filter (fun t => now - t <? 60000)%Z (recent s (to_string (rec?."id")))) < Z.to_nat m)%nat) /\
   key_refusal s rec = None /\ user_refusal s us rec = None).
Proof.
  cbn zeta. unfold canAccept. destruct (record_refusal rec now); [by split_and!; auto|].
  destruct (rate_refusal_spec s rec now) as (Hr & Hi & Hb & Hn). destruct (rate_refusal s rec now) as (s', [r|]); cbn [fst snd] in *; [by split_and!; auto|].
  assert (Hk : key_refusal s' rec = key_refusal s rec) by (unfold key_refusal, running; by rewrite Hi).
  assert (Hu : user_refusal s' us rec = user_refusal s us rec).
  { unfold user_refusal, user_running, running. by rewrite Hi, Hr. }
  rewrite <- Hk, <- Hu. destruct (key_refusal s' rec) eqn:E; cbn [fst snd]; split_and!; auto; done.
Qed.

(** [acquire]: a refusal changes nothing but the bucket; an acceptance counts the request. *)
Lemma acquire_spec s us rec now : let r := acquire s us rec now in let id := to_string (rec?."id") in
  rows r.1 = rows s /\
  match r.2 with
  | Some _ => inflight r.1 = inflight s /\
      forall id, recent r.1 id = recent s id \/ recent r.1 id = List.filter (fun t => now - t <? 60000)%Z (recent s id)
  | None => inflight r.1 = <[id := (running s id + 1)%Z]> (inflight s) /\
      (forall m, to_number (rec?."rpm") = num_of_Z m -> (0 < m)%Z ->
       (length (List.filter (fun t => now - t <? 60000)%Z (recent s id)) < Z.to_nat m)%nat) /\
      key_refusal s rec = None /\ user_refusal s us rec = None /\
      (forall id', id' <> id -> recent r.1 id' = recent s id' \/ recent r.1 id' = List.filter (fun t => now - t <? 60000)%Z (recent s id')) /\
      (recent r.1 id = recent s id ++ [now] \/ recent r.1 id = List.filter (fun t => now - t <? 60000)%Z (recent s id) ++ [now])
  end.
Proof.
  cbn zeta. unfold acquire. destruct (canAccept_effects s us rec now) as (Hr & Hi & Hb & Hn).
  destruct (canAccept s us rec now) as (s', [r|]); cbn [fst snd] in *; [done|]. split; [exact Hr|].
  destruct (Hn eq_refl) as (Hm & Hk & Hu).
  split; [unfold running; by rewrite Hi|]. repeat (split; [done|]). unfold recent in *. cbn [rpmBuckets]. split.
  - intros id' Hne. rewrite lookup_insert_ne by congruence. apply Hb.
  - rewrite lookup_insert_eq. cbn [default from_option]. destruct (Hb (to_string (rec?."id"))) as [->| ->]; auto.
Qed.

Lemma row_id id : truthy (row_of id) = true -> to_string ((row_of id)?."id") = id.
Proof.
  unfold row_of, Repo.getById. destruct (visible (select_row id table)) eqn:E; [|done]. intros _.
  by rewrite (visible_key table id table_keyed E).
Qed.

Lemma accepted_row s us rec now : (acquire s us rec now).2 = None -> truthy rec = true.
Proof. unfold acquire, canAccept, record_refusal. destruct (truthy rec); [done|]. done. Qed.

Lemma recent_ok_filtered s s' id log now now' : recent_ok s id log now -> (now <= now')%Z ->
  recent s' id = recent s id \/ recent s' id = List.filter (fun t => now' - t <? 60000)%Z (recent s id) -> recent_ok s' id log now'.
Proof.
  intros H Hle Hs T HT. rewrite <- H by lia. destruct Hs as [->| ->]; [done|]. apply filter_filter_imp.
  intros t Ht%Z.ltb_lt. apply Z.ltb_lt. lia.
Qed.

Lemma recent_ok_snoc s s' id log now now' : recent_ok s id log now -> (now <= now')%Z ->
  recent s' id = recent s id ++ [now'] \/ recent s' id = List.filter (fun t => now' - t <? 60000)%Z (recent s id) ++ [now'] ->
  recent_ok s' id (log ++ [now']) now'.
Proof.
  intros H Hle Hs T HT. rewrite List.filter_app, <- (H T) by lia. destruct Hs as [->| ->]; rewrite List.filter_app; [done|]. f_equal.
  apply filter_filter_imp. intros t Ht%Z.ltb_lt. apply Z.ltb_lt. lia.
Qed.

Lemma running_insert s s' id n : inflight s' = <[id := n]> (inflight s) -> running s' id = n /\ forall id', id' <> id -> running s' id' = running s id'.
Proof.
  intros H. unfold running. rewrite H. split; [by rewrite lookup_insert_eq|]. intros id' Hne. by rewrite lookup_insert_ne by congruence.
Qed.

Lemma key_room s rec c : key_refusal s rec = None -> to_number (rec?."max_concurrency") = num_of_Z c -> (0 < c)%Z ->
  (running s (to_string (rec?."id")) + 1 <= c)%Z.
Proof.
  unfold key_refusal. intros H Hc Hpos. rewrite Hc in H. change (Fin 0) with (num_of_Z 0) in H.
  rewrite ((proj2 (num_ltb_Z 0 c)) Hpos) in H. cbn [andb] in H. destruct (num_leb _ _) eqn:E; [done|].
  destruct (decide (c <= running s (to_string (rec?."id")))%Z) as [Hle|]; [|lia]. apply num_leb_Z in Hle. congruence.
Qed.

Lemma kept_later id s s' log now now' : kept_ok id s log now -> (now <= now')%Z -> rows s' = rows s -> inflight s' = inflight s ->
  recent s' id = recent s id \/ recent s' id = List.filter (fun t => now' - t <? 60000)%Z (recent s id) -> kept_ok id s' log now'.
Proof.
  intros [H1 H2 H3 H4 H5 H6] Hle Hr Hi Hb. split; [by rewrite Hr| |intros t Ht; specialize (H3 t Ht); lia|by eapply recent_ok_filtered| |exact H6].
  - intros id'. unfold running. rewrite Hi. apply H2.
  - intros c. unfold running. rewrite Hi. apply H5.
Qed.

Lemma acquire_kept id s log now id' now' : kept_ok id s log now -> (now <= now')%Z ->
  let r := step id s (Acquire id' now') in kept_ok id r.1 (log ++ r.2) now'.
Proof.
  intros H Hle. cbn [step]. destruct (acquire_spec s users (row_of id') now') as (Hr & Hs).
  destruct (acquire s users (row_of id') now') as (s', [r|]) eqn:E; cbn [fst snd] in *.
  { rewrite andb_false_r, app_nil_r. destruct Hs as (Hi & Hb). by eapply kept_later. }
  assert (Ht : truthy (row_of id') = true) by (apply (accepted_row s users _ now'); by rewrite E).
  rewrite (row_id id' Ht) in Hs. destruct Hs as (Hi & Hm & Hk & _ & Ho & Hid).
  destruct (running_insert _ _ _ _ Hi) as (Hrun & Hother). destruct H as [H1 H2 H3 H4 H5 H6].
  destruct (String.eqb_spec id id') as [<-|Hne]; cbn [andb negb bool_decide decide_rel is_Some].
  - rewrite bool_decide_eq_false_2 by (intros [? [=]]). cbn [negb]. split.
    + by rewrite Hr.
    + intros k. destruct (decide (k = id)) as [->|Hk']; [rewrite Hrun; specialize (H2 id); lia|]. rewrite Hother by done. apply H2.
    + intros t Hin. apply in_app_or in Hin as [Hin|[<-|[]]]; [specialize (H3 t Hin)|]; lia.
    + by eapply recent_ok_snoc.
    + intros c Hc Hpos. rewrite Hrun. assert (Hroom := key_room _ _ _ Hk Hc Hpos). by rewrite (row_id id Ht) in Hroom.
    + intros m Hmm Hpos. apply started_snoc; [intros t Hin; specialize (H3 t Hin); lia| |by apply H6].
      rewrite <- (H4 now' Hle). by apply Hm.
  - rewrite app_nil_r. split; [by rewrite Hr| |intros t Hin; specialize (H3 t Hin); lia|eapply recent_ok_filtered; eauto| |exact H6].
    + intros k. destruct (decide (k = id')) as [->|Hk']; [rewrite Hrun; specialize (H2 id'); lia|]. rewrite Hother by done. apply H2.
    + intros c Hc Hpos. rewrite Hother by done. by apply H5.
Qed.

Lemma release_running s id' : (forall k, (0 <= running s k)%Z) ->
  forall k, (0 <= running (release s id') k <= running s k)%Z.
Proof.
  intros H k. assert (Hk := H k). assert (Hi := H id'). unfold release. destruct (negb _); [lia|].
  destruct (Z.leb_spec (running s id' - 1) 0) as [Hle|Hgt]; unfold running in *; cbn [inflight].
  - destruct (decide (k = id')) as [->|Hne]; [rewrite lookup_delete_eq|rewrite lookup_delete_ne by congruence]; cbn in *; lia.
  - destruct (decide (k = id')) as [->|Hne]; [rewrite lookup_insert_eq|rewrite lookup_insert_ne by congruence]; cbn in *; lia.
Qed.

Lemma release_kept id s log now id' : kept_ok id s log now -> kept_ok id (release s id') log now.
Proof.
  intros [H1 H2 H3 H4 H5 H6]. assert (Hr := release_running s id' H2).
  assert (Hs : rows (release s id') = rows s /\ recent (release s id') id = recent s id) by (unfold release; by destruct (negb _)).
  destruct Hs as (Hrows & Hrec). split; [by rewrite Hrows|intros k; specialize (Hr k); lia|done| | |exact H6].
  - intros T HT. rewrite Hrec. by apply H4.
  - intros c Hc Hpos. specialize (H5 c Hc Hpos). specialize (Hr id). lia.
Qed.

Definition after (now : Z) (e : event) : Z := default now (time_of e).

Lemma step_kept id s log now e : kept_ok id s log now -> (now <= after now e)%Z ->
  let r := step id s e in kept_ok id r.1 (log ++ r.2) (after now e).
Proof.
  intros H. destruct e as [id' t|id' t|id']; cbn [after time_of default from_option]; intros Hle.
  - by apply (acquire_kept id s log now).
  - cbn [step fst snd]. rewrite app_nil_r. destruct (canAccept_effects s users (row_of id') t) as (Hr & Hi & Hb & _).
    by eapply kept_later.
  - cbn [step fst snd]. rewrite app_nil_r. by apply release_kept.
Qed.

(** *** The requests of a user *)

(** What the rows of user [u] have, by a count of each key. *)
Definition in_all (u : string) (f : string -> Z) (rows : list jsval) : Z :=
  foldr (fun k m => (if same_value (k?."user_id") (JStr u) then f (to_string (k?."id")) else 0) + m)%Z 0%Z rows.
Lemma in_all_insert u id f g t : keyed_rows t -> (forall k, k <> id -> g k = f k) ->
  let rows := List.filter visible (map snd t) in
  let mine := visible (select_row id t) && same_value ((select_row id t)?."user_id") (JStr u) in
  in_all u g rows = (in_all u f rows + if mine then g id - f id else 0)%Z.
Proof.
  intros (Hn & Hr) Ho. cbn zeta. unfold select_row, in_all.
  induction t as [|[k row] t IH]; [done|]. cbn [map fst] in Hn. apply NoDup_cons in Hn as (Hk & Hn).
  apply Forall_cons in Hr as (Hrow & Hr). cbn [fst snd] in Hrow. specialize (IH Hn Hr).
  cbn [map snd List.filter assoc]. destruct (String.eqb_spec id k) as [<-|Hne].
  - assert (Ht : assoc id t = JUndef) by (apply no_key_assoc, key_absent, Hk). rewrite Ht in IH. cbn [visible truthy andb] in IH.
    destruct (visible row); cbn [foldr andb]; rewrite IH; [|lia]. rewrite Hrow. cbn [to_string].
    destruct (same_value _ _); lia.
  - destruct (visible row); cbn [foldr]; rewrite IH; [|lia]. rewrite Hrow. cbn [to_string]. rewrite Ho by congruence.
    destruct (same_value (row?."user_id") (JStr u)); lia.
Qed.

(** The requests of the rows of user [u], with [n] more for [id]. *)
Lemma total_insert u id n s s' t : keyed_rows t -> inflight s' = <[id := n]> (inflight s) ->
  let total s := foldr (fun k m => (if same_value (k?."user_id") (JStr u) then running s (to_string (k?."id")) else 0) + m)%Z 0%Z
                   (List.filter visible (map snd t)) in
  let mine := visible (select_row id t) && same_value ((select_row id t)?."user_id") (JStr u) in
  total s' = (total s + if mine then n - running s id else 0)%Z.
Proof.
  intros Hk Hi. cbn zeta. destruct (running_insert _ _ _ _ Hi) as (Hid & Ho). pose proof (in_all_insert u id (running s) (running s') t Hk Ho) as H.
  unfold in_all in H. cbn zeta in H. by rewrite H, Hid.
Qed.

Lemma user_room s rec u cap : user_refusal s users rec = None -> rec?."user_id" = JStr u -> u <> "" ->
  num_or_zero ((Users.getById users (JStr u))?."concurrency") = num_of_Z cap -> (0 < cap)%Z -> (user_running s (JStr u) < cap)%Z.
Proof.
  unfold user_refusal. intros H Hu Hne Hc Hpos. rewrite Hu in H. cbn [truthy] in H.
  destruct (String.eqb_spec u "") as [|_]; [done|]. cbn [negb] in H. rewrite Hc in H. change (Fin 0) with (num_of_Z 0) in H.
  rewrite ((proj2 (num_ltb_Z 0 cap)) Hpos) in H. cbn [andb] in H. destruct (num_leb _ _) eqn:E; [done|].
  destruct (decide (cap <= user_running s (JStr u))%Z) as [Hle|]; [|lia]. apply num_leb_Z in Hle. congruence.
Qed.

Lemma same_user v u : same_value v (JStr u) = true -> v = JStr u.
Proof. destruct v as [| | |[]|t| |]; try done. intros H. by apply String.eqb_eq in H as ->. Qed.

Definition user_ok (u : string) (s : store) : Prop :=
  rows s = table /\ (forall id, (0 <= running s id)%Z) /\
  forall cap, num_or_zero ((Users.getById users (JStr u))?."concurrency") = num_of_Z cap -> (0 < cap)%Z ->
  (user_running s (JStr u) <= cap)%Z.

Lemma user_step u id s e : u <> "" -> user_ok u s -> user_ok u (step id s e).1.
Proof.
  intros Hu (Hrows & Hpos & Hcap). destruct e as [id' now|id' now|id']; cbn [step fst].
  - destruct (acquire_spec s users (row_of id') now) as (Hr & Hs). destruct (acquire s users (row_of id') now) as (s', [r|]) eqn:E; cbn [fst snd] in *.
    { destruct Hs as (Hi & _). unfold user_ok, user_running, running. rewrite Hr, Hi. done. }
    assert (Ht : truthy (row_of id') = true) by (apply (accepted_row s users _ now); by rewrite E).
    rewrite (row_id id' Ht) in Hs. destruct Hs as (Hi & _ & _ & Hus & _).
    destruct (running_insert _ _ _ _ Hi) as (Hrun & Hother). split; [by rewrite Hr|]. split.
    + intros k. destruct (decide (k = id')) as [->|Hk']; [rewrite Hrun; specialize (Hpos id'); lia|]. by rewrite Hother.
    + intros cap Hc Hp. specialize (Hcap cap Hc Hp). unfold user_running in *. rewrite Hr, Hrows in *. unfold Repo.list_rows in *.
      rewrite (total_insert u id' _ s s' table table_keyed Hi).
      destruct (visible _ && same_value _ _) eqn:Em; [|lia]. apply andb_true_iff in Em as (Hv & Hsame).
      assert (Hrow : row_of id' = select_row id' table) by (unfold row_of, Repo.getById; by rewrite Hv).
      rewrite <- Hrow in Hsame. apply same_user in Hsame. assert (Hroom := user_room s _ u cap Hus Hsame Hu Hc Hp).
      unfold user_running in Hroom. rewrite Hrows in Hroom. unfold Repo.list_rows in Hroom. lia.
  - destruct (canAccept_effects s users (row_of id') now) as (Hr & Hi & _). unfold user_ok, user_running, running in *. by rewrite Hr, Hi.
  - assert (Hrel := release_running s id' Hpos).
    assert (Hrows' : rows (release s id') = rows s) by (unfold release; by destruct (negb _)).
    split; [by rewrite Hrows'|]. split; [intros k; specialize (Hrel k); lia|]. intros cap Hc Hp. specialize (Hcap cap Hc Hp).
    unfold user_running in *. rewrite Hrows'. revert Hcap. generalize (Repo.list_rows (rows s)). intros l Hcap.
    eapply Z.le_trans; [|exact Hcap]. clear Hcap. induction l as [|k l IH]; cbn [foldr]; [lia|].
    specialize (Hrel (to_string (k?."id"))). destruct (same_value _ _); lia.
Qed.

(** *** Runs *)

Lemma run_kept id es s log now : kept_ok id s log now -> Sorted Z.le (now :: omap time_of es) ->
  exists now', kept_ok id (run id s es).1 (log ++ (run id s es).2) now'.
Proof.
  revert s log now. induction es as [|e es IH]; intros s log now H Hs; [exists now; by rewrite app_nil_r|]. cbn [run fst snd].
  assert (Ha : (now <= after now e)%Z /\ Sorted Z.le (after now e :: omap time_of es)).
  { unfold after. cbn [omap list_omap] in Hs. destruct (time_of e) as [t|]; cbn [default from_option]; [|split; [lia|exact Hs]].
    apply Sorted_inv in Hs as (Hs & Hle). apply HdRel_inv in Hle. done. }
  destruct Ha as (Hle & Hs'). destruct (IH _ _ _ (step_kept id s log now e H Hle) Hs') as (now' & Hk).
  exists now'. by rewrite app_assoc.
Qed.

Lemma run_user u id es s : u <> "" -> user_ok u s -> user_ok u (run id s es).1.
Proof. intros Hu. revert s. induction es as [|e es IH]; intros s H; [done|]. cbn [run fst]. by apply IH, user_step. Qed.
(** *** The requests under way *)

Lemma of_key_cons id k l : of_key id (k :: l) = (of_key id l + if String.eqb id k then 1 else 0)%Z.
Proof. unfold of_key. cbn [List.filter]. destruct (String.eqb id k); cbn [length]; lia. Qed.
Lemma of_key_take id k l : of_key id (take_away k l) = if String.eqb id k then Z.max 0 (of_key id l - 1) else of_key id l.
Proof.
  induction l as [|j l IH]; [by destruct (String.eqb id k)|]. cbn [take_away]. destruct (String.eqb_spec k j) as [<-|Hj].
  - rewrite of_key_cons. destruct (String.eqb id k); [unfold of_key|]; lia.
  - rewrite !of_key_cons, IH. destruct (String.eqb_spec id k) as [->|]; [|done]. rewrite (proj2 (String.eqb_neq k j) Hj). lia.
Qed.

(** What is counted in memory is what is under way; the requests of a key without an id are not taken away. *)
Definition counted (s : store) (l : list string) : Prop :=
  (forall id, (of_key id l <= running s id)%Z) /\ (forall id, nonempty id = true -> running s id = of_key id l) /\
  Forall (fun id => visible (select_row id table) = true) l.
Lemma step_store id s e : (step "" s e).1 = (step id s e).1.
Proof. by destruct e. Qed.
Lemma counted_step s l e : rows s = table -> counted s l -> counted (step "" s e).1 (note s l e).
Proof.
  intros Hrows (H1 & H2 & H3). destruct e as [k now|k now|k]; cbn [step fst note].
  - destruct (acquire_spec s users (row_of k) now) as (Hr & Hs). destruct (acquire s users (row_of k) now) as (s', [r|]) eqn:E; cbn [fst snd] in *.
    { rewrite bool_decide_eq_true_2 by eauto. destruct Hs as (Hi & _). unfold counted, running. rewrite Hi. done. }
    rewrite bool_decide_eq_false_2 by (intros [? [=]]). assert (Ht : truthy (row_of k) = true) by (apply (accepted_row s users _ now); by rewrite E).
    rewrite (row_id k Ht) in Hs. destruct Hs as (Hi & _). destruct (running_insert _ _ _ _ Hi) as (Hrun & Hother).
    split_and!.
    + intros id. rewrite of_key_cons. specialize (H1 id). destruct (String.eqb_spec id k) as [->|Hne]; [lia|]. rewrite Hother by done. lia.
    + intros id Hne. rewrite of_key_cons. specialize (H2 id Hne). destruct (String.eqb_spec id k) as [->|Hk]; [lia|]. rewrite Hother by done. lia.
    + constructor; [|done]. revert Ht. unfold row_of, Repo.getById. by destruct (visible _).
  - destruct (canAccept_effects s users (row_of k) now) as (_ & Hi & _). unfold counted, running. rewrite Hi. done.
  - assert (Hv : Forall (fun id => visible (select_row id table) = true) (take_away k l)).
    { clear -H3. induction H3 as [|j l Hj H IH]; [constructor|]. cbn [take_away]. case_match; [done|by constructor]. }
    unfold release. destruct (nonempty k) eqn:Hn; cbn [negb].
    + assert (Hr : forall id, default 0%Z ((if (running s k - 1 <=? 0)%Z then delete k (inflight s) else <[k := (running s k - 1)%Z]> (inflight s)) !! id) =
        if String.eqb id k then Z.max 0 (running s k - 1) else running s id).
      { intros id. unfold running. destruct (String.eqb_spec id k) as [->|Hne].
        - destruct (Z.leb_spec (default 0%Z (inflight s !! k) - 1) 0); [rewrite lookup_delete_eq|rewrite lookup_insert_eq]; cbn; lia.
        - destruct (Z.leb_spec (default 0%Z (inflight s !! k) - 1) 0); [by rewrite lookup_delete_ne by congruence|by rewrite lookup_insert_ne by congruence]. }
      split_and!; [| |done].
      * intros id. rewrite of_key_take. unfold running at 1. cbn [inflight]. rewrite Hr. specialize (H1 id). destruct (String.eqb_spec id k) as [->|]; lia.
      * intros id Hne. rewrite of_key_take. unfold running at 1. cbn [inflight]. rewrite Hr. specialize (H2 id Hne). destruct (String.eqb_spec id k) as [->|]; lia.
    + split_and!; [| |done].
      * intros id. rewrite of_key_take. specialize (H1 id). destruct (String.eqb id k); unfold of_key in *; lia.
      * intros id Hne. rewrite of_key_take. specialize (H2 id Hne). destruct (String.eqb_spec id k) as [->|]; [congruence|done].
Qed.
Lemma counted_run id es : forall s l, rows s = table -> counted s l -> counted (run id s es).1 (under_way s l es).
Proof.
  induction es as [|e es IH]; intros s l Hr H; [done|]. cbn [run fst under_way]. rewrite (step_store id). apply IH.
  - rewrite <- (step_store id). destruct e as [k now|k now|k]; cbn [step fst].
    + by rewrite (proj1 (acquire_spec s users (row_of k) now)).
    + by rewrite (proj1 (canAccept_effects s users (row_of k) now)).
    + unfold release. by destruct (negb _).
  - rewrite <- (step_store id). by apply counted_step.
Qed.
Lemma in_all_le u f g rs : (forall k, (f k <= g k)%Z) -> (in_all u f rs <= in_all u g rs)%Z.
Proof. intros H. induction rs as [|k rs IH]; cbn [in_all foldr]; [lia|]. specialize (H (to_string (k?."id"))). unfold in_all in *. destruct (same_value _ _); lia. Qed.
Lemma in_all_counts u l : Forall (fun id => visible (select_row id table) = true) l -> in_all u (fun id => of_key id l) (List.filter visible (map snd table)) = of_user u l.
Proof.
  induction 1 as [|id l Hv H IH].
  - unfold of_user. cbn. induction (List.filter visible (map snd table)) as [|k rs IHr]; [done|]. cbn [in_all foldr]. unfold in_all in IHr. rewrite IHr.
    by destruct (same_value _ _).
  - rewrite (in_all_insert u id (fun k => of_key k l) _ table table_keyed).
    2:{ intros k Hk. rewrite of_key_cons. rewrite (proj2 (String.eqb_neq k id) Hk). lia. }
    rewrite IH, Hv, of_key_cons, String.eqb_refl. unfold of_user, row_of, Repo.getById. cbn [List.filter andb]. rewrite Hv.
    destruct (same_value _ _); cbn [length]; lia.
Qed.
End admission.

(** A store without running requests. *)
Definition idle (t : fields) : store := {| rows := t; inflight := ∅; rpmBuckets := ∅ |}.

Lemma idle_running t id : running (idle t) id = 0%Z.
Proof. unfold running. cbn [inflight idle]. by rewrite lookup_empty. Qed.

(** C30: Admission keeps the limits of a key and of its owner: over any sequence of acquisitions, probes and
    releases of any keys, with a clock that does not go back, a key with a concurrency limit never has
    more requests under way than it (let in and not yet released), a key with a rate limit never starts more
    requests than it within any minute, and a user with a concurrency never has more under way over all keys;
    and the count that the gate keeps for a key is the number of its requests under way. *)
Theorem admission_bounds users table id u es : keyed_rows table -> u <> "" -> Sorted Z.le (omap time_of es) ->
  let r := run users table id (idle table) es in
  let limit k := to_number ((Repo.getById table id)?.k) in
  let busy := under_way users table (idle table) [] es in
  (nonempty id = true -> running r.1 id = of_key id busy) /\
  (forall c, limit "max_concurrency" = num_of_Z c -> (0 < c)%Z -> (of_key id busy <= c)%Z) /\
  (forall m, limit "rpm" = num_of_Z m -> (0 < m)%Z -> forall T, (Z.of_nat (started T r.2) <= m)%Z) /\
  (forall cap, num_or_zero ((Users.getById users (JStr u))?."concurrency") = num_of_Z cap -> (0 < cap)%Z ->
   (of_user table u busy <= cap)%Z).
Proof.
  intros Hk Hu Hs. cbn zeta.
  assert (Hc0 : counted table (idle table) []).
  { split_and!; [intros k; by rewrite idle_running|intros k _; by rewrite idle_running|constructor]. }
  destruct (counted_run users table Hk id es (idle table) [] eq_refl Hc0) as (Hb1 & Hb2 & Hb3).
  assert (H0 : forall now, kept_ok table id (idle table) [] now).
  { intros now. split; [done| |done| | |].
    - intros k. rewrite idle_running. lia.
    - intros T _. unfold recent. cbn [rpmBuckets idle]. by rewrite lookup_empty.
    - intros c _ Hc. rewrite idle_running. lia.
    - intros m _ Hm T. cbn. lia. }
  assert (Hrun : exists now', kept_ok table id (run users table id (idle table) es).1 (run users table id (idle table) es).2 now').
  { destruct (omap time_of es) as [|t l] eqn:E.
    - apply (run_kept users table Hk id es _ [] 0%Z (H0 0%Z)). rewrite E. repeat constructor.
    - apply (run_kept users table Hk id es _ [] t (H0 t)). rewrite E. constructor; [done|]. constructor. lia. }
  destruct Hrun as (now' & [_ _ _ _ Hc Hm]). split; [exact (Hb2 id)|].
  split; [intros c Hl Hp; specialize (Hc c Hl Hp); specialize (Hb1 id); lia|]. split.
  - intros m Hl Hp T. specialize (Hm m Hl Hp T). lia.
  - intros cap Hcap Hpos. rewrite <- (in_all_counts table Hk u _ Hb3). eapply Z.le_trans; [by apply in_all_le|].
    assert (Hok : user_ok users table u (run users table id (idle table) es).1); [|destruct Hok as (Hr & _ & Hok); specialize (Hok cap Hcap Hpos);
      unfold user_running in Hok; rewrite Hr in Hok; exact Hok].
    apply (run_user users table Hk u id es (idle table) Hu). split; [done|].
    split; [intros k; rewrite idle_running; lia|]. intros cap' _ Hp. unfold user_running. cbn [rows idle].
    induction (Repo.list_rows table) as [|k l IH]; cbn [foldr]; [lia|]. rewrite idle_running. destruct (same_value _ _); lia.
Qed.

Definition key_row (id : string) (c rpm : Z) : string * jsval :=
  (id, JObj [("id", JStr id); ("status", JStr "active"); ("max_concurrency", jint c); ("rpm", jint rpm); ("user_id", JStr "u1")]).
Definition two_keys : fields := [key_row "k1" 2 3; key_row "k2" 0 0].
Definition one_user : fields := [("u1", JObj [("id", JStr "u1"); ("status", JStr "active"); ("concurrency", jint 3)])].
Definition busy_minute : list event :=
  [Acquire "k1" 0; Acquire "k1" 10; Acquire "k1" 20; Acquire "k2" 30; Acquire "k2" 40; Release "k1"; Acquire "k1" 50; Release "k1";
   Acquire "k1" 60; Acquire "k1" 60001].
Lemma admission_bounds_witness :
  let r := run one_user two_keys "k1" (idle two_keys) busy_minute in
  let busy := under_way one_user two_keys (idle two_keys) [] busy_minute in
  r.2 = [0; 10; 50; 60001]%Z /\ busy = ["k1"; "k2"; "k1"] /\ (of_key "k1" busy <= 2)%Z /\ (forall T, (Z.of_nat (started T r.2) <= 3)%Z) /\
  (of_user two_keys "u1" busy <= 3)%Z.
Proof.
  assert (Hk : keyed_rows two_keys).
  { split; [apply (@bool_decide_eq_true_1 (NoDup (map fst two_keys)) _); vm_compute; reflexivity|]. repeat constructor. }
  assert (Hs : Sorted Z.le (omap time_of busy_minute)) by (cbn; repeat constructor; lia).
  destruct (admission_bounds one_user two_keys "k1" "u1" busy_minute Hk ltac:(discriminate) Hs) as (_ & Hc & Hm & Hu).
  split; [vm_compute; reflexivity|]. split; [vm_compute; reflexivity|]. split; [apply (Hc 2%Z); reflexivity|]. split; [intros T; apply (Hm 3%Z); reflexivity|].
  apply (Hu 3%Z); reflexivity.
Defined.

(** ** Spend *)

(** The rows of a table after a write to one of them. *)
Definition write_at (id : string) (f : jsval -> jsval) (t : fields) : fields :=
  map (fun p => if String.eqb id p.1 then (p.1, f p.2) else p) t.

Lemma write_at_select id f t : has_key id t = true -> select_row id (write_at id f t) = f (select_row id t).
Proof.
  unfold select_row. induction t as [|[k row] t IH]; [done|]. cbn. destruct (String.eqb_spec id k) as [<-|Hne]; cbn.
  - by rewrite String.eqb_refl.
  - rewrite (proj2 (String.eqb_neq id k) Hne). by apply IH.
Qed.

Lemma write_at_has id f t : has_key id (write_at id f t) = has_key id t.
Proof.
  induction t as [|[k row] t IH]; [done|]. cbn. destruct (String.eqb id k) eqn:E; cbn; rewrite E; [done|exact IH].
Qed.

Lemma visible_has id t : visible (select_row id t) = true -> has_key id t = true.
Proof. intros H. destruct (has_key id t) eqn:E; [done|]. unfold select_row in H. by rewrite (no_key_assoc id t E) in H. Qed.

Lemma getById_row id t : visible (select_row id t) = true -> Repo.getById t id = select_row id t.
Proof. unfold Repo.getById. by intros ->. Qed.

(** The row after the statement of a charge. *)
Definition charged (row : jsval) (k : Repo.tokens) (cost : num) (now : Z) : jsval :=
  spread row (JObj (Repo.usage_columns row row k (num_or_zero (JNum cost)) now)).

Ltac column := unfold charged; first
  [ rewrite get_spread_own by (reflexivity || (cbn [map fst Repo.usage_columns]; distinct_keys)); reflexivity
  | rewrite get_spread_other by reflexivity; reflexivity ].

Lemma charged_visible row k cost now : visible row = true -> visible (charged row k cost now) = true.
Proof.
  intros (_ & H)%andb_true_iff. unfold visible. assert (Hd : (charged row k cost now)?."deleted_at" = row?."deleted_at") by column.
  by rewrite Hd, H.
Qed.

Lemma assoc_columns (f : string -> jsval) l c : c ∈ l -> assoc c (map (fun c => (c, f c)) l) = f c /\ has_key c (map (fun c => (c, f c)) l) = true.
Proof.
  induction l as [|d l IH]; intros H; [by apply not_elem_of_nil in H|]. cbn.
  destruct (String.eqb_spec c d) as [->|Hne]; [done|]. apply elem_of_cons in H as [->|H]; [done|]. by apply IH.
Qed.

Lemma write_row_get rec row c : c ∈ Repo.COLUMNS -> c <> "id" -> (Repo.write_row rec row)?.c = Repo.toValue rec c.
Proof.
  intros Hc Hid. unfold Repo.write_row. set (l := List.filter _ Repo.COLUMNS).
  assert (Hl : c ∈ l).
  { apply list_elem_of_In, List.filter_In. split; [by apply list_elem_of_In|]. by apply negb_true_iff, String.eqb_neq. }
  destruct (assoc_columns (Repo.toValue rec) l c Hl) as (Ha & Hh). rewrite get_spread_own; [exact Ha| |exact Hh].
  rewrite map_map. cbn [fst]. rewrite map_id. apply (@bool_decide_eq_true_1 (NoDup l) _). vm_compute. reflexivity.
Qed.

Lemma keyed_write id f t : keyed_rows t -> (forall row, row?."id" = JStr id -> (f row)?."id" = JStr id) -> keyed_rows (write_at id f t).
Proof.
  intros (Hn & Hr) Hf. split.
  - unfold write_at. rewrite map_map. replace (map _ t) with (map fst t); [exact Hn|]. apply map_ext. intros p. by destruct (String.eqb _ _).
  - apply Forall_map. eapply Forall_impl; [exact Hr|]. intros (k, row) Hrow. cbn [fst snd] in *.
    destruct (String.eqb_spec id k) as [<-|_]; [|exact Hrow]. cbn [fst snd]. by apply Hf.
Qed.

Lemma flip_spec t after id now : keyed_rows t -> select_row id t = after -> visible after = true ->
  let t' := flip_exhausted t after now in
  keyed_rows t' /\ visible (select_row id t') = true /\
  forall c, c ∈ Repo.COLUMNS -> c <> "status" -> c <> "updated_at" -> is_nullish (after?.c) = false -> (select_row id t')?.c = after?.c.
Proof.
  intros Hk Hs Hv. cbn zeta. unfold flip_exhausted. destruct (_ && _); [|by rewrite Hs].
  set (rec := with_field _ "updated_at" _). unfold Repo.update. cbn [fst].
  assert (Hid : after?."id" = JStr id) by (rewrite <- Hs; apply visible_key; [exact Hk|by rewrite Hs]).
  assert (Hrid : to_string (rec?."id") = id) by (unfold rec; rewrite !get_with_field_ne by done; by rewrite Hid).
  rewrite Hrid. change (map _ t) with (write_at id (Repo.write_row rec) t).
  assert (Hsel : select_row id (write_at id (Repo.write_row rec) t) = Repo.write_row rec after).
  { rewrite write_at_select, Hs; [done|]. apply visible_has. by rewrite Hs. }
  assert (Hget : forall c, c ∈ Repo.COLUMNS -> c <> "id" -> c <> "status" -> c <> "updated_at" ->
    (Repo.write_row rec after)?.c = Repo.toValue after c).
  { intros c Hc H1 H2 H3. rewrite write_row_get by done. unfold Repo.toValue, rec. by rewrite !get_with_field_ne. }
  assert (Hi : (Repo.write_row rec after)?."id" = after?."id") by (unfold Repo.write_row; by rewrite get_spread_other).
  split; [apply keyed_write; [exact Hk|]; intros row Hrow; unfold Repo.write_row; by rewrite get_spread_other|].
  rewrite Hsel. split.
  - unfold visible. rewrite Hget by (done || in_list). apply andb_true_iff in Hv as (_ & Hd). unfold Repo.toValue. rewrite Hd. done.
  - intros c Hc H2 H3 Hn. destruct (decide (c = "id")) as [->|H1]; [exact Hi|]. rewrite Hget by done. unfold Repo.toValue. by rewrite Hn.
Qed.

(** The fields a charge leaves in a row, whether or not the key is marked as exhausted. *)
Lemma charge_row s id usage model rate now : keyed_rows (rows s) -> visible (select_row id (rows s)) = true ->
  let s' := (recordUsage s id usage model rate now).1 in
  let row := select_row id (rows s) in let after := charged row (usage_tokens usage) (cost_of usage model rate) now in
  keyed_rows (rows s') /\ visible (select_row id (rows s')) = true /\
  forall c, c ∈ Repo.COLUMNS -> c <> "status" -> c <> "updated_at" -> is_nullish (after?.c) = false ->
    (select_row id (rows s'))?.c = after?.c.
Proof.
  intros Hk Hv. cbn zeta. set (row := select_row id (rows s)) in *. unfold recordUsage.
  rewrite (getById_row id _ Hv). fold row. assert (Ht : truthy row = true) by by apply andb_true_iff in Hv as (-> & _).
  rewrite Ht. cbn [negb]. unfold Repo.recordUsage. rewrite (getById_row id _ Hv). fold row. rewrite Ht. cbn [negb].
  set (toks := usage_tokens usage). set (cost := cost_of usage model rate).
  set (after := charged row toks cost now).
  change (map _ (rows s)) with (write_at id (fun r => spread r (JObj (Repo.usage_columns row r toks (num_or_zero (JNum cost)) now))) (rows s)).
  set (t1 := write_at _ _ _).
  assert (H1 : select_row id t1 = after) by (unfold t1; by rewrite write_at_select by by apply visible_has).
  assert (Hv1 : visible after = true) by by apply charged_visible.
  rewrite (getById_row id t1) by by rewrite H1. rewrite H1.
  assert (Hta : truthy after = true) by by apply andb_true_iff in Hv1 as (-> & _). rewrite Hta. cbn [fst with_rows rows].
  apply flip_spec; [|exact H1|exact Hv1]. apply keyed_write; [exact Hk|]. intros r Hr. rewrite get_spread_other by reflexivity. exact Hr.
Qed.

(** *** The ledger of a key *)

(** A stored number. *)
Definition holds (v : jsval) (n : num) : Prop := exists m, v = JNum m /\ Double.same m n.
(** The costs charged, with the times of the charges. *)
Notation ledger := (list (Z * Q)).
Definition total (log : ledger) : Q := foldr (fun p q => (p.2 + q)%Q) 0%Q log.
(** The same added as doubles, in the order of the charges. *)
Definition double_sum (start : num) (log : ledger) : num := fold_left (fun a p => Double.dadd a (Fin p.2)) log start.
(** By how much the sum of [n] costs may fall short of [sum]: 2^-53 of it for each, and the last bit of the smallest
    numbers. *)
Definition shortfall (n : nat) (sum : Q) : Q := inject_Z (Z.of_nat n) * (sum * Double.pow2 (-53) + Double.pow2 (-1075)).

Lemma total_snoc log t q : (total (log ++ [(t, q)]) == total log + q)%Q.
Proof.
  induction log as [|p log IH]; [cbn; lra|]. change (p.2 + total (log ++ [(t, q)]) == p.2 + total log + q)%Q. rewrite IH. lra.
Qed.

Lemma double_sum_snoc a log t q : double_sum a (log ++ [(t, q)]) = Double.dadd (double_sum a log) (Fin q).
Proof. unfold double_sum. by rewrite fold_left_app. Qed.
Lemma double_sum_number a log : a <> NaN -> double_sum a log <> NaN.
Proof.
  intros Ha. unfold double_sum. revert a Ha. induction log as [|p log IH]; intros a Ha; [done|]. cbn [fold_left]. apply IH.
  destruct a; try done. apply Double.to_double_number.
Qed.
(** Costs that are not negative: their sum as doubles is no less than their sum, but for the rounding. *)
Lemma double_sum_near log : Forall (fun p => 0 <= p.2)%Q log ->
  match double_sum (Fin 0) log with Fin d => 0 <= d /\ total log - shortfall (length log) (total log) <= d | n => n = PInf end%Q.
Proof.
  induction log as [|[t q] log IH] using rev_ind; intros H.
  { change (0 <= 0 /\ 0 - 0 * (0 * Double.pow2 (-53) + Double.pow2 (-1075)) <= 0)%Q. rewrite Qmult_0_l. split; lra. }
  apply Forall_app in H as [H [Hq _]%Forall_cons]. cbn [snd] in Hq. specialize (IH H). rewrite double_sum_snoc.
  assert (Ht : (0 <= total log)%Q).
  { clear -H. induction H as [|p log Hp H IH]; [cbn; lra|]. change (total (p :: log)) with (p.2 + total log)%Q. lra. }
  destruct (double_sum (Fin 0) log) as [d| | |]; try done. destruct IH as [Hd IH]. unfold Double.dadd, Double.rounded. cbn [num_add].
  rewrite (Double.to_double_same _ _ (Qred_correct (d + q))). pose proof (Double.to_double_near (d + q) ltac:(lra)) as Hn.
  destruct (Double.to_double _) as [y| | |]; try done. destruct Hn as [Hy Hn]. split; [done|]. unfold shortfall in *. rewrite length_app. cbn [length].
  rewrite total_snoc, Nat.add_1_r, Nat2Z.inj_succ. unfold Z.succ. rewrite inject_Z_plus. change (inject_Z 1) with 1%Q.
  pose proof (Double.pow2_pos (-53)) as Hu. pose proof (Double.pow2_pos (-1075)) as Hv. assert (Hu1 : (Double.pow2 (-53) <= 1)%Q) by (vm_compute; discriminate).
  assert (Hk : (0 <= inject_Z (Z.of_nat (length log)))%Q) by (change 0%Q with (inject_Z 0); rewrite <- Zle_Qle; lia).
  set (k := inject_Z _) in *. set (u := Double.pow2 (-53)) in *. set (v := Double.pow2 (-1075)) in *. set (T := total log) in *. clearbody k u v T.
  assert (Hm : ((T - k * (T * u + v) + q) * (1 - u) <= (d + q) * (1 - u))%Q) by (apply Qmult_le_compat_r; lra).
  assert (H1 : (0 <= k * q * u)%Q) by (apply Qmult_le_0_compat; [by apply Qmult_le_0_compat|lra]).
  assert (H2 : (0 <= k * (T * u + v) * u)%Q).
  { apply Qmult_le_0_compat; [|lra]. apply Qmult_le_0_compat; [done|]. pose proof (Qmult_le_0_compat T u Ht ltac:(lra)). lra. }
  lra.
Qed.

(** The current window of a key: the charges since the one that opened it. *)
Definition current (w : Repo.window) (log : ledger) (t0 : Z) (log' : ledger) : Prop :=
  (exists pre, log = pre ++ log') /\ option_map fst (head log') = Some t0 /\ Forall (fun p => p.1 - t0 < Repo.w_ms w)%Z log'.

(** The window was opened by the charge of [q0] at [t0], and [rest] came since. *)
Definition windowed (row : jsval) (w : Repo.window) (log : ledger) : Prop :=
  match log with
  | [] => truthy (row?.(Repo.w_start w)) = false
  | _ => exists t0 q0 rest, current w log t0 ((t0, q0) :: rest) /\ (Z.abs t0 <= MAX_TIME)%Z /\ row?.(Repo.w_start w) = iso_now t0 /\
         holds (row?.(Repo.w_usage w)) (double_sum (Fin q0) rest)
  end.

Lemma num_leb_sub a b c : num_leb (num_of_Z a) (num_sub (num_of_Z b) (num_of_Z c)) = (a <=? b - c)%Z.
Proof.
  assert (H : num_leb (num_of_Z a) (num_sub (num_of_Z b) (num_of_Z c)) = num_leb (num_of_Z a) (num_of_Z (b - c))).
  { cbn. apply eq_true_iff_eq. rewrite !Qle_bool_iff. rewrite !Qred_correct. unfold Z.sub. rewrite inject_Z_plus, inject_Z_opp. reflexivity. }
  rewrite H. clear H. destruct (Z.leb_spec a (b - c)) as [Hle|Hgt]; [by apply num_leb_Z|].
  destruct (num_leb _ _) eqn:E; [|done]. apply num_leb_Z in E. lia.
Qed.

Lemma iso_now_parse t : (Z.abs t <= MAX_TIME)%Z -> truthy (iso_now t) = true /\ date_parse (to_string (iso_now t)) = num_of_Z t.
Proof.
  intros H. unfold iso_now. destruct (to_iso t) as [s|] eqn:E.
  - cbn [default from_option to_string id]. assert (Hp := iso_roundtrip _ _ E). split; [|exact Hp].
    destruct s; [discriminate Hp|done].
  - exfalso. unfold to_iso in E. destruct (Z.ltb_spec MAX_TIME (Z.abs t)); [lia|]. destruct (civil_from_days _) as [[? ?] ?]. discriminate.
Qed.

Lemma num_or_zero_fin q : exists x, num_or_zero (JNum (Fin q)) = Fin x /\ (x == q)%Q.
Proof.
  unfold num_or_zero. cbn. destruct (Qeq_bool q 0) eqn:E; cbn.
  - exists 0%Q. apply Qeq_bool_iff in E. by rewrite E.
  - by exists q.
Qed.
Lemma num_or_zero_same m n : n <> NaN -> Double.same m n -> Double.same (num_or_zero (JNum m)) n.
Proof.
  intros Hn H. unfold num_or_zero. cbn [to_number truthy]. destruct m as [x| | |], n as [y| | |]; try done.
  destruct (Qeq_bool x 0) eqn:E; cbn; [|exact H]. apply Qeq_bool_iff in E. cbn in H. by rewrite <- H, E.
Qed.

(** The spend and the start of a window after a charge. *)
Lemma roll_windowed row w log t q : (Z.abs t <= MAX_TIME)%Z -> (0 < Repo.w_ms w)%Z -> windowed row w log ->
  let r := Repo.rollWindow row w (num_or_zero (JNum (Fin q))) t in
  exists t0 q0 rest, current w (log ++ [(t, q)]) t0 ((t0, q0) :: rest) /\ (Z.abs t0 <= MAX_TIME)%Z /\ r.2 = iso_now t0 /\
    holds (JNum r.1) (double_sum (Fin q0) rest).
Proof.
  intros Ht Hms Hw. cbn zeta. pose proof (num_or_zero_same (Fin q) (Fin q) ltac:(done) (Double.same_refl _)) as Hq.
  assert (Hopen : exists t0 q0 rest, current w (log ++ [(t, q)]) t0 ((t0, q0) :: rest) /\ (Z.abs t0 <= MAX_TIME)%Z /\ iso_now t = iso_now t0 /\
    holds (JNum (num_or_zero (JNum (Fin q)))) (double_sum (Fin q0) rest)).
  { exists t, q, []. split; [|split; [exact Ht|split; [done|]]].
    - split; [by exists log|]. split; [done|]. repeat constructor. cbn. lia.
    - by eexists. }
  unfold Repo.rollWindow. destruct log as [|p log]; cbn [windowed] in Hw; [rewrite Hw; exact Hopen|].
  destruct Hw as (t0 & q0 & rest & (Hpre & Hhd & Hall) & Ht0 & Hs & m & Hu & Hm). destruct (iso_now_parse t0 Ht0) as (Htr & Hp).
  rewrite Hs, Htr, Hp. cbn [is_finite num_of_Z negb orb]. change (Fin (inject_Z t0)) with (num_of_Z t0).
  rewrite num_leb_sub. destruct (Z.leb_spec (Repo.w_ms w) (t - t0)) as [Hle|Hlt]; [exact Hopen|]. cbn [fst snd].
  exists t0, q0, (rest ++ [(t, q)]). split; [|split; [exact Ht0|split; [done|]]].
  - destruct Hpre as (pre & Hpre). split; [exists pre; by rewrite Hpre, <- app_assoc|]. split; [exact Hhd|].
    change ((t0, q0) :: rest ++ [(t, q)]) with (((t0, q0) :: rest) ++ [(t, q)]).
    apply Forall_app. split; [exact Hall|]. repeat constructor. cbn. lia.
  - rewrite Hu, double_sum_snoc. eexists. split; [reflexivity|]. assert (Hn : double_sum (Fin q0) rest <> NaN) by by apply double_sum_number.
    destruct (num_or_zero (JNum (Fin q))) as [y| | |]; try done.
    rewrite (Double.dadd_same _ (double_sum (Fin q0) rest) y q); [apply Double.same_refl|by apply num_or_zero_same|exact Hq].
Qed.

Record charge := { ch_usage : jsval; ch_model : jsval; ch_rate : num; ch_now : Z }.
Definition charge_step (id : string) (s : store) (c : charge) : store :=
  (recordUsage s id (ch_usage c) (ch_model c) (ch_rate c) (ch_now c)).1.
(** The charge enters the ledger with its time and its cost. *)
Definition entered (c : charge) (p : Z * Q) : Prop :=
  ch_now c = p.1 /\ (Z.abs p.1 <= MAX_TIME)%Z /\ cost_of (ch_usage c) (ch_model c) (ch_rate c) = Fin p.2.

(** The fields no charge writes but the limits are read from. *)
Definition LIMITS : list string := ["quota"; "rate_limit_5h"; "rate_limit_1d"; "rate_limit_7d"].

Definition booked (row : jsval) (log : ledger) : Prop :=
  holds (row?."quota_used") (double_sum (Fin 0) log) /\ Forall (fun w => windowed row w log) Repo.WINDOWS.

Lemma charged_booked row log toks t q : booked row log -> (Z.abs t <= MAX_TIME)%Z -> booked (charged row toks (Fin q) t) (log ++ [(t, q)]).
Proof.
  intros ((m & Hx & Hm) & Hw) Ht. pose proof (num_or_zero_same (Fin q) (Fin q) ltac:(done) (Double.same_refl _)) as Hq. split.
  - assert (H : (charged row toks (Fin q) t)?."quota_used" = JNum (Double.dadd (to_number (row?."quota_used")) (num_or_zero (JNum (Fin q))))) by column.
    rewrite H, Hx, double_sum_snoc. eexists. split; [reflexivity|]. destruct (num_or_zero (JNum (Fin q))) as [y| | |]; try done.
    rewrite (Double.dadd_same _ (double_sum (Fin 0) log) y q); [apply Double.same_refl|exact Hm|exact Hq].
  - rewrite Forall_forall in *. intros w Hin. specialize (Hw w Hin).
    assert (Hms : (0 < Repo.w_ms w)%Z) by (set_unfold in Hin; destruct Hin as [->|[->|[->|[]]]]; reflexivity).
    assert (Hg : (charged row toks (Fin q) t)?.(Repo.w_start w) = (Repo.rollWindow row w (num_or_zero (JNum (Fin q))) t).2 /\
                 (charged row toks (Fin q) t)?.(Repo.w_usage w) = JNum (Repo.rollWindow row w (num_or_zero (JNum (Fin q))) t).1).
    { set_unfold in Hin. destruct Hin as [->|[->|[->|[]]]]; cbn [Repo.w_start Repo.w_usage]; split; column. }
    destruct Hg as (Hs & Hu). destruct (roll_windowed row w log t q Ht Hms Hw) as (t0 & q0 & rest & Hc & Ht0 & Hst & Hn).
    unfold windowed. destruct (log ++ [(t, q)]) eqn:E; [by destruct log|]. exists t0, q0, rest. rewrite Hs, Hu. done.
Qed.

Lemma booked_same row row' log : log <> [] -> booked row log -> (forall c, is_nullish (row?.c) = false ->
  c ∈ Repo.COLUMNS -> c <> "status" -> c <> "updated_at" -> row'?.c = row?.c) -> booked row' log.
Proof.
  intros Hlog ((x & Hx & Hq) & Hw) Hsame. split.
  - exists x. rewrite Hsame; [done|by rewrite Hx|in_list|done..].
  - rewrite Forall_forall in *. intros w Hin. specialize (Hw w Hin). unfold windowed in *. destruct log; [done|].
    destruct Hw as (t0 & q0 & rest & Hc & Ht0 & Hs & y & Hu & Hy). exists t0, q0, rest. split; [done|]. split; [done|].
    assert (Hn : row'?.(Repo.w_start w) = row?.(Repo.w_start w) /\ row'?.(Repo.w_usage w) = row?.(Repo.w_usage w)).
    { split; apply Hsame; rewrite ?Hs, ?Hu; try done; set_unfold in Hin; destruct Hin as [->|[->|[->|[]]]]; (in_list || done). }
    destruct Hn as (-> & ->). split; [exact Hs|]. by exists y.
Qed.

Definition limits_kept (row row' : jsval) : Prop := forall k, k ∈ LIMITS -> is_nullish (row?.k) = false -> row'?.k = row?.k.

Lemma charge_step_booked id s c t q log : keyed_rows (rows s) -> visible (select_row id (rows s)) = true ->
  booked (select_row id (rows s)) log -> entered c (t, q) ->
  let s' := charge_step id s c in
  keyed_rows (rows s') /\ visible (select_row id (rows s')) = true /\ booked (select_row id (rows s')) (log ++ [(t, q)]) /\
  limits_kept (select_row id (rows s)) (select_row id (rows s')).
Proof.
  intros Hk Hv Hb (Hnow & Ht & Hc). cbn zeta. unfold charge_step.
  destruct (charge_row s id (ch_usage c) (ch_model c) (ch_rate c) (ch_now c) Hk Hv) as (Hk' & Hv' & Hsame).
  rewrite Hc, Hnow in *. cbn [fst snd] in *. set (row := select_row id (rows s)) in *.
  set (toks := usage_tokens (ch_usage c)) in *. split; [exact Hk'|]. split; [exact Hv'|]. split.
  - eapply booked_same; [by destruct log|by apply (charged_booked row log toks t q)|]. intros k Hn Hin H1 H2. by apply Hsame.
  - intros k Hin Hn. assert (Ha : (charged row toks (Fin q) t)?.k = row?.k).
    { unfold LIMITS in Hin. set_unfold in Hin. destruct Hin as [->|[->|[->|[->|[]]]]]; column. }
    rewrite <- Ha. unfold LIMITS in Hin. apply Hsame; rewrite ?Ha; try done;
      set_unfold in Hin; destruct Hin as [->|[->|[->|[->|[]]]]]; (in_list || done).
Qed.

Lemma charges_booked id cs : forall s log log', keyed_rows (rows s) -> visible (select_row id (rows s)) = true ->
  booked (select_row id (rows s)) log -> Forall2 entered cs log' ->
  let s' := foldl (charge_step id) s cs in
  visible (select_row id (rows s')) = true /\ booked (select_row id (rows s')) (log ++ log') /\
  limits_kept (select_row id (rows s)) (select_row id (rows s')).
Proof.
  induction cs as [|c cs IH]; intros s log log' Hk Hv Hb H.
  { apply Forall2_nil_inv_l in H as ->. cbn [foldl]. rewrite app_nil_r. done. }
  apply Forall2_cons_inv_l in H as ((t, q) & rest & He & H & ->). cbn [foldl].
  destruct (charge_step_booked id s c t q log Hk Hv Hb He) as (Hk' & Hv' & Hb' & Hl).
  destruct (IH (charge_step id s c) (log ++ [(t, q)]) rest Hk' Hv' Hb' H) as (Hv'' & Hb'' & Hl').
  rewrite <- app_assoc in Hb''. split; [exact Hv''|]. split; [exact Hb''|].
  intros k Hin Hn. rewrite <- (Hl k Hin Hn) in Hn |- *. by apply Hl'.
Qed.

Lemma refused_by_record s us rec now : record_refusal rec now <> None -> (canAccept s us rec now).2 <> None.
Proof. unfold canAccept. by destruct (record_refusal rec now). Qed.

Lemma quota_refuses rec now : used_up (rec?."quota" ?? jint 0) (rec?."quota_used") = true -> record_refusal rec now <> None.
Proof. intros H. unfold record_refusal, refuse. rewrite H. by repeat case_match. Qed.

Lemma window_refuses rec now k label w : ((k, label), w) ∈ combine LIMIT_KEYS Repo.WINDOWS -> window_spent rec now k w = true ->
  record_refusal rec now <> None.
Proof.
  intros Hin H. assert (Hs : spend_refusal rec now <> None).
  { unfold spend_refusal. destruct (List.find _ _) as [[[k' label'] w']|] eqn:E; [done|].
    apply list_elem_of_In in Hin. apply (List.find_none _ _ E) in Hin. cbn [fst snd] in Hin. congruence. }
  unfold record_refusal, refuse. by repeat case_match.
Qed.

Lemma num_or_zero_pos q : (0 < q)%Q -> num_or_zero (JNum (Fin q)) = Fin q.
Proof.
  intros H. unfold num_or_zero. cbn. destruct (Qeq_bool q 0) eqn:E; [|done]. apply Qeq_bool_iff in E. rewrite E in H. by apply Qlt_irrefl in H.
Qed.
(** Comparisons do not tell equal numbers apart. *)
Lemma num_leb_same l m n : Double.same m n -> num_leb (Fin l) m = num_leb (Fin l) n.
Proof. destruct m, n; try done. cbn. intros H. by rewrite H. Qed.

Lemma window_spent_spec rec now k w t0 L n : (0 < L)%Q -> rec?.k = JNum (Fin L) -> rec?.(Repo.w_start w) = iso_now t0 ->
  (Z.abs t0 <= MAX_TIME)%Z -> holds (rec?.(Repo.w_usage w)) n -> n <> NaN -> num_leb (Fin L) n = true -> (now - t0 < Repo.w_ms w)%Z -> window_spent rec now k w = true.
Proof.
  intros HL Hk Hs Ht0 (m & Hu & Hm) Hn Hle Hnow. unfold window_spent. destruct (iso_now_parse t0 Ht0) as (Htr & Hp).
  rewrite Hk, (num_or_zero_pos L HL), Hs, Htr, Hp, Hu.
  rewrite (num_leb_same L _ n) by by apply num_or_zero_same.
  rewrite (proj2 (num_ltb_Fin 0 L) HL). cbn [is_finite num_of_Z andb]. change (Fin (inject_Z t0)) with (num_of_Z t0).
  apply andb_true_iff. split; [|done].
  destruct (num_ltb _ _) eqn:E; [done|]. assert (H := num_leb_sub (Repo.w_ms w) now t0).
  rewrite (num_leb_negb (num_of_Z (Repo.w_ms w))), E in H by done. cbn [negb] in H.
  symmetry in H. apply Z.leb_le in H. lia.
Qed.

(** C31: Spend limits are enforced to the last bit of the sums: after any charges with finite costs, [quota_used] is the
    sum of all costs, added as doubles in their order, and each window holds the same sum of the costs since the charge
    that opened it, all within its length; so a key whose sum reaches its quota is refused from then on, and one whose
    sum in a window reaches the limit of the window is refused until the window ends. Against the exact sum of the
    costs the quota holds up to the rounding of doubles: a key is refused once its costs exceed the quota by 2^-53 of
    them for each charge. *)
Theorem spend_enforced s id cs log : keyed_rows (rows s) -> visible (select_row id (rows s)) = true ->
  booked (select_row id (rows s)) [] -> Forall2 entered cs log ->
  let before := select_row id (rows s) in let s' := foldl (charge_step id) s cs in let row := Repo.getById (rows s') id in
  holds (row?."quota_used") (double_sum (Fin 0) log) /\
  (forall limit, before?."quota" = JNum (Fin limit) -> (0 < limit)%Q ->
   num_leb (Fin limit) (double_sum (Fin 0) log) = true \/
   Forall (fun p => 0 <= p.2)%Q log /\ (limit + shortfall (length log) (total log) <= total log)%Q ->
   forall users now, (canAccept s' users row now).2 <> None) /\
  (forall k label w limit, ((k, label), w) ∈ combine LIMIT_KEYS Repo.WINDOWS -> before?.k = JNum (Fin limit) -> (0 < limit)%Q -> log <> [] ->
   exists t0 q0 rest, current w log t0 ((t0, q0) :: rest) /\ holds (row?.(Repo.w_usage w)) (double_sum (Fin q0) rest) /\
     (num_leb (Fin limit) (double_sum (Fin q0) rest) = true ->
      forall users now, (now - t0 < Repo.w_ms w)%Z -> (canAccept s' users row now).2 <> None)).
Proof.
  intros Hk Hv Hb H. cbn zeta. destruct (charges_booked id cs s [] log Hk Hv Hb H) as (Hv' & (Hq & Hw) & Hl). cbn [app] in *.
  rewrite (getById_row id _ Hv'). set (row := select_row id (rows (foldl _ s cs))) in *. split; [exact Hq|]. split.
  - intros limit Hlim Hpos Hle us now. apply refused_by_record, quota_refuses. destruct Hq as (x & Hx & Hxq).
    rewrite (Hl "quota"), Hlim, Hx by (rewrite ?Hlim; done || in_list). cbn [nullish_else is_nullish].
    unfold used_up. cbn [to_number nullish_else is_nullish]. apply andb_true_iff. split; [by apply num_ltb_Fin|].
    rewrite (num_leb_same _ _ _ Hxq). destruct Hle as [Hle|[Hn Hle]]; [exact Hle|]. pose proof (double_sum_near log Hn) as Hd.
    destruct (double_sum (Fin 0) log) as [d| | |]; try done. apply num_leb_Fin. lra.
  - intros k label w limit Hin Hlim Hpos Hne. rewrite Forall_forall in Hw.
    assert (Hww : w ∈ Repo.WINDOWS /\ k ∈ LIMITS).
    { cbn in Hin. set_unfold in Hin. destruct Hin as [[= -> -> ->]|[[= -> -> ->]|[[= -> -> ->]|[]]]]; split; (in_list || (unfold LIMITS; in_list)). }
    destruct Hww as (Hwin & Hkin). specialize (Hw w Hwin). unfold windowed in Hw. destruct log as [|p log]; [done|].
    destruct Hw as (t0 & q0 & rest & Hc & Ht0 & Hs & Hu). exists t0, q0, rest. split; [exact Hc|]. split; [exact Hu|].
    intros Hle us now Hnow. apply refused_by_record, (window_refuses row now k label w Hin).
    apply (window_spent_spec row now k w t0 limit (double_sum (Fin q0) rest)); try done; [rewrite (Hl k Hkin); [exact Hlim|by rewrite Hlim]|].
    by apply double_sum_number.
Qed.

(** The double nearest to a number of cents. *)
Definition cents (n : Z) : Q := match Double.to_double (n # 100) with Fin q => q | _ => 0%Q end.
Definition forty_cents (now : Z) : charge :=
  {| ch_usage := JObj [("cost", JNum (Fin (cents 40)))]; ch_model := JNull; ch_rate := Fin 1; ch_now := now |}.
Definition limited_key : fields :=
  [("k1", JObj [("id", JStr "k1"); ("status", JStr "active"); ("quota", JNum (Fin 1)); ("quota_used", jint 0);
                ("rate_limit_5h", JNum (Fin (1 # 2)))])].
Definition three_charges : list charge := [forty_cents 0; forty_cents 18000000; forty_cents 18000001].
Definition three_entries : list (Z * Q) := [(0, cents 40); (18000000, cents 40); (18000001, cents 40)]%Z.
Lemma spend_enforced_witness :
  let s' := foldl (charge_step "k1") (idle limited_key) three_charges in
  (forall users now, (canAccept s' users (Repo.getById (rows s') "k1") now).2 <> None) /\
  exists t0 q0 rest, current {| Repo.w_usage := "usage_5h"; Repo.w_start := "window_5h_start"; Repo.w_ms := 5 * 3600 * 1000 |} three_entries t0 ((t0, q0) :: rest) /\
    holds ((Repo.getById (rows s') "k1")?."usage_5h") (double_sum (Fin q0) rest).
Proof.
  destruct (spend_enforced (idle limited_key) "k1" three_charges three_entries) as (_ & Hquota & Hwin).
  - split; [apply (@bool_decide_eq_true_1 (NoDup (map fst limited_key)) _); vm_compute; reflexivity|repeat constructor].
  - reflexivity.
  - split; [exists (Fin 0); split; reflexivity|]. repeat constructor.
  - repeat constructor; cbn [ch_now forty_cents fst]; first [unfold MAX_TIME; lia | vm_compute; reflexivity].
  - split.
    + apply (Hquota 1%Q); [reflexivity|reflexivity|]. left. vm_compute. reflexivity.
    + destruct (Hwin "rate_limit_5h" "5h" _ (1 # 2) ltac:(vm_compute; constructor) eq_refl ltac:(reflexivity) ltac:(discriminate))
        as (t0 & q0 & rest & Hc & Hu & _). by exists t0, q0, rest.
Defined.
(** Ten charges of ten cents do not use up a quota of a dollar: their sum as doubles is a little less, and the key is
    let in once more. *)
Example ten_times_ten_cents :
  let ten := repeat {| ch_usage := JObj [("cost", JNum (Fin (cents 10)))]; ch_model := JNull; ch_rate := Fin 1; ch_now := 0 |} 10 in
  let s := foldl (charge_step "k2") (idle [("k2", JObj [("id", JStr "k2"); ("status", JStr "active"); ("quota", JNum (Fin 1)); ("quota_used", jint 0)])]) ten in
  let row := Repo.getById (rows s) "k2" in
  (row?."quota_used", row?."status", (canAccept s [] row 1).2) = (JNum (Fin (9007199254740991 # 9007199254740992)), JStr "active", None).
Proof. vm_compute. reflexivity. Qed.

(** ** Rotation *)

Section rotation.
Variable hmac : string -> string.
Variable seal : string -> string -> string -> string * string.
Variable open : string -> string -> string -> string -> option string.
Variable secret : string.
Hypothesis sealed : forall iv plain tag ct, seal secret iv plain = (tag, ct) ->
  open secret iv tag ct = Some plain /\ lacks ":" tag = true /\ lacks ":" ct = true.

(** The rows hold digests only, each of one key. *)
Definition digests_only (t : fields) : Prop :=
  (forall k, visible (select_row k t) = true -> exists h,
     (select_row k t)?."key" = JStr (HASH_MARKER ++ h) /\ (select_row k t)?."key_hash" = JStr h /\ (select_row k t)?."_plain_key" = JUndef) /\
  (forall k1 k2 h, visible (select_row k1 t) = true -> visible (select_row k2 t) = true ->
     (select_row k1 t)?."key_hash" = JStr h -> (select_row k2 t)?."key_hash" = JStr h -> k1 = k2).

Lemma listed t row : keyed_rows t -> In row (Repo.list_rows t) -> exists k, select_row k t = row /\ visible row = true.
Proof.
  intros Hk (Hin & Hv)%List.filter_In. apply in_map_iff in Hin as ((k, r) & <- & Hin). apply list_elem_of_In in Hin.
  exists k. split; [by apply row_of_key|exact Hv].
Qed.

Lemma unlisted t k : visible (select_row k t) = true -> In (select_row k t) (Repo.list_rows t).
Proof.
  intros Hv. apply List.filter_In. split; [|exact Hv]. unfold select_row in *. induction t as [|[k' r] t IH]; [done|].
  cbn [assoc] in *. destruct (String.eqb k k'); [by left|right; by apply IH].
Qed.

Lemma by_hash t k h : keyed_rows t -> visible (select_row k t) = true -> (select_row k t)?."key_hash" = JStr h ->
  (forall k', visible (select_row k' t) = true -> (select_row k' t)?."key_hash" = JStr h -> k' = k) ->
  Repo.getByHash t h = select_row k t.
Proof.
  intros Hk Hv Hh Hu. unfold Repo.getByHash, Repo.find_row. destruct (List.find _ _) as [row|] eqn:E.
  - apply List.find_some in E as (Hin & Hm). destruct (listed t row Hk Hin) as (k' & <- & Hv').
    destruct ((select_row k' t)?."key_hash") as [| | |n|h'| |] eqn:Eh; try done. apply String.eqb_eq in Hm as ->. by rewrite (Hu k').
  - assert (H := List.find_none _ _ E _ (unlisted t k Hv)). cbn beta in H. rewrite Hh in H. cbn in H. by rewrite String.eqb_refl in H.
Qed.

Lemma by_no_hash t h : keyed_rows t -> (forall k, visible (select_row k t) = true -> (select_row k t)?."key_hash" <> JStr h) ->
  Repo.getByHash t h = JUndef.
Proof.
  intros Hk Hn. unfold Repo.getByHash, Repo.find_row. destruct (List.find _ _) as [row|] eqn:E; [|done].
  apply List.find_some in E as (Hin & Hm). destruct (listed t row Hk Hin) as (k' & <- & Hv').
  exfalso. apply (Hn k' Hv'). destruct ((select_row k' t)?."key_hash") as [| | |n|h'| |]; try done. by apply String.eqb_eq in Hm as ->.
Qed.

Lemma no_legacy t token : keyed_rows t ->
  (forall k, visible (select_row k t) = true -> exists h, (select_row k t)?."key" = JStr (HASH_MARKER ++ h)) ->
  List.find (legacy_match token) (Repo.list_rows t) = None.
Proof.
  intros Hk Hd. destruct (List.find _ _) as [row|] eqn:E; [|done]. apply List.find_some in E as (Hin & Hm).
  destruct (listed t row Hk Hin) as (k & <- & Hv). destruct (Hd k Hv) as (h & Hkey). unfold legacy_match in Hm.
  rewrite Hkey in Hm. discriminate Hm.
Qed.

Lemma write_at_other id f t k : k <> id -> select_row k (write_at id f t) = select_row k t.
Proof.
  intros Hne. unfold select_row. induction t as [|[k' row] t IH]; [done|].
  change (write_at id f ((k', row) :: t)) with ((if String.eqb id k' then (k', f row) else (k', row)) :: write_at id f t).
  destruct (String.eqb_spec id k') as [<-|]; cbn [assoc]; rewrite IH; [|done]. by rewrite (proj2 (String.eqb_neq k id) Hne).
Qed.

(** The row that [rotate] writes. *)
Definition rotated_row (row : jsval) (key iv : string) (now : Z) : jsval :=
  Repo.write_row (with_field (hashed_fields hmac seal secret row key iv) "updated_at" (iso_now now)) row.

Lemma rotated_get row key iv now c : c ∈ Repo.COLUMNS -> c <> "id" ->
  (rotated_row row key iv now)?.c = Repo.toValue (with_field (hashed_fields hmac seal secret row key iv) "updated_at" (iso_now now)) c.
Proof. apply write_row_get. Qed.

Lemma rotated_fields row key iv now : let r := rotated_row row key iv now in
  r?."key" = JStr (HASH_MARKER ++ hmac key) /\ r?."key_hash" = JStr (hmac key) /\
  r?."key_secret" = JStr (Secure.maybeEncrypt seal secret key iv) /\ r?."id" = row?."id" /\ r?."_plain_key" = row?."_plain_key" /\
  r?."user_id" = Repo.toValue row "user_id" /\ r?."deleted_at" = Repo.toValue row "deleted_at".
Proof.
  assert (Hset : forall c, c ∈ Repo.COLUMNS -> c <> "id" -> c <> "updated_at" ->
    (rotated_row row key iv now)?.c = Repo.toValue (hashed_fields hmac seal secret row key iv) c).
  { intros c Hin Hid Hc. rewrite rotated_get by done. unfold Repo.toValue. by rewrite get_with_field_ne. }
  assert (Hother : forall c, has_key c [("key", JNull); ("key_hash", JNull); ("key_prefix", JNull); ("key_suffix", JNull); ("key_secret", JNull)] = false ->
    c ∈ Repo.COLUMNS -> c <> "id" -> c <> "updated_at" -> (rotated_row row key iv now)?.c = Repo.toValue row c).
  { intros c Hc Hin Hid Hu. rewrite Hset by done. unfold Repo.toValue, hashed_fields. by rewrite get_spread_other. }
  cbn zeta. rewrite (Hset "key"), (Hset "key_hash"), (Hset "key_secret"), (Hother "user_id"), (Hother "deleted_at") by (done || in_list).
  unfold Repo.toValue at 1 2 3. unfold hashed_fields at 1 2 3 4 5 6.
  rewrite !get_spread_own by (reflexivity || distinct_keys). split_and!; try reflexivity.
  - unfold rotated_row, Repo.write_row. by rewrite get_spread_other.
  - unfold rotated_row, Repo.write_row. by rewrite get_spread_other.
Qed.

Lemma owner_kept users row key iv now : ownerActive users (rotated_row row key iv now) = ownerActive users row.
Proof.
  destruct (rotated_fields row key iv now) as (_ & _ & _ & _ & _ & Hu & _). unfold ownerActive. rewrite Hu.
  unfold Repo.toValue. by destruct (row?."user_id").
Qed.

Definition rotated_record (row : jsval) (key iv : string) (now : Z) : jsval :=
  with_field (hashed_fields hmac seal secret row key iv) "updated_at" (iso_now now).

Lemma rotate_spec s id random iv now : visible (select_row id (rows s)) = true -> (select_row id (rows s))?."id" = JStr id ->
  Repo.getByHash (rows s) (hmac (generateApiKey random)) = JUndef ->
  exists stored, rotate hmac seal secret s id random iv now =
    inr (with_rows s (write_at id (Repo.write_row (rotated_record (select_row id (rows s)) (generateApiKey random) iv now)) (rows s)), stored).
Proof.
  intros Hv Hid Hnone. unfold rotate. rewrite (getById_row id _ Hv), Hnone. set (row := select_row id (rows s)) in *.
  assert (Ht : truthy row = true) by by apply andb_true_iff in Hv as (-> & _). rewrite Ht. cbn [negb truthy].
  unfold Repo.update. fold (rotated_record row (generateApiKey random) iv now). set (rec := rotated_record _ _ _ _).
  assert (Hrid : to_string (rec?."id") = id).
  { unfold rec, rotated_record, hashed_fields. rewrite get_with_field_ne, get_spread_other by done. by rewrite Hid. }
  rewrite Hrid. by eexists.
Qed.

(** Rotation moves a key over at once: afterwards the new text authenticates as the same record (if its
    owner is active), the old text is refused, and the panel reveals the new text; other keys of
    the table play no part, and the digests of the two texts only have to differ. *)
Theorem rotated_key users s id random iv iv' now old :
  keyed_rows (rows s) -> digests_only (rows s) -> visible (select_row id (rows s)) = true ->
  (select_row id (rows s))?."key_hash" = JStr (hmac old) -> nonempty old = true ->
  ownerActive users (select_row id (rows s)) = true -> lacks ":" iv = true ->
  let key := generateApiKey random in
  (forall k, visible (select_row k (rows s)) = true -> (select_row k (rows s))?."key_hash" <> JStr (hmac key)) ->
  exists s' stored rec, rotate hmac seal secret s id random iv now = inr (s', stored) /\
    authenticate hmac seal secret s' users key iv' = (s', Accepted rec) /\ rec?."id" = JStr id /\
    authenticate hmac seal secret s' users old iv' = (s', Refused "invalid") /\
    exists name, reveal open secret s' id = Plain (JStr id) name key.
Proof.
  intros Hk (Hd & Hu) Hv Hold Hne Hact Hiv. cbn zeta. set (key := generateApiKey random). intros Hfresh.
  assert (Hid := visible_key (rows s) id Hk Hv). set (row := select_row id (rows s)) in *.
  destruct (rotate_spec s id random iv now Hv Hid (by_no_hash _ _ Hk Hfresh)) as (stored & Hrot).
  fold row key in Hrot. set (t' := write_at _ _ _) in Hrot. set (new := rotated_row row key iv now).
  assert (Hsel : select_row id t' = new) by (unfold t'; by rewrite write_at_select by by apply visible_has).
  assert (Hother : forall k, k <> id -> select_row k t' = select_row k (rows s)) by (intros k; apply write_at_other).
  destruct (rotated_fields row key iv now) as (Fk & Fh & Fs & Fi & Fp & _ & Fd). fold new in Fk, Fh, Fs, Fi, Fp, Fd.
  assert (Hvn : visible new = true).
  { unfold visible. rewrite Fd. apply andb_true_iff in Hv as (_ & Hdel). unfold Repo.toValue. by rewrite Hdel. }
  assert (Hk' : keyed_rows t').
  { apply keyed_write; [exact Hk|]. intros r Hr. unfold Repo.write_row. by rewrite get_spread_other. }
  assert (Hd' : forall k, visible (select_row k t') = true -> exists h, (select_row k t')?."key" = JStr (HASH_MARKER ++ h)).
  { intros k. destruct (decide (k = id)) as [->|Hk1]; [rewrite Hsel; by exists (hmac key)|]. rewrite Hother by done.
    intros Hvk. destruct (Hd k Hvk) as (h & Hh & _). by exists h. }
  assert (Hnk : nonempty key = true) by done.
  assert (Hnew : Repo.getByHash t' (hmac key) = new).
  { rewrite (by_hash t' id (hmac key)); [exact Hsel|exact Hk'|by rewrite Hsel|by rewrite Hsel|].
    intros k Hvk Hhk. destruct (decide (k = id)) as [|Hk1]; [done|]. rewrite Hother in Hvk, Hhk by done. by destruct (Hfresh k Hvk). }
  assert (Hgone : Repo.getByHash t' (hmac old) = JUndef).
  { apply by_no_hash; [exact Hk'|]. intros k. destruct (decide (k = id)) as [->|Hk1].
    - rewrite Hsel, Fh. intros _ [= Heq]. apply (Hfresh id Hv). fold row. by rewrite Hold, Heq.
    - rewrite Hother by done. intros Hvk Hhk. apply Hk1. by apply (Hu k id (hmac old)). }
  exists (with_rows s t'), stored, new. split; [exact Hrot|]. unfold authenticate. rewrite Hnk, Hne. cbn [negb with_rows rows].
  rewrite Hnew, Hgone, (no_legacy t' old Hk' Hd'). assert (Htn : truthy new = true) by by apply andb_true_iff in Hvn as (-> & _).
  rewrite Htn. unfold new at 1. rewrite owner_kept. fold new. rewrite Hact. split; [done|]. split; [by rewrite Fi|]. split; [done|].
  exists (new?."name"). unfold reveal. cbn [with_rows rows]. rewrite (getById_row id t') by by rewrite Hsel. rewrite Hsel, Htn. cbn [negb].
  unfold plainApiKey. rewrite Htn, Fp, Fs, Fi, Hid. destruct (Hd id Hv) as (_ & _ & _ & Hplain). fold row in Hplain. rewrite Hplain. cbn [truthy negb to_string].
  assert (Hrt := Secure.secret_roundtrip seal open secret sealed key iv Hiv eq_refl).
  assert (Hse : String.eqb (Secure.maybeEncrypt seal secret key iv) "" = false).
  { unfold Secure.maybeEncrypt, Secure.encryptString. destruct (Secure.encryptionEnabled _); [|done]. by destruct (seal _ _ _). }
  rewrite Hse, Hrt, Hnk. cbn [negb]. by rewrite Hnk.
Qed.
End rotation.

(** A stand-in for the cipher: two letters for each character. *)
Definition letter (n : nat) : ascii := ascii_of_nat (97 + n).
Fixpoint spell (s : string) : string :=
  match s with
  | EmptyString => ""
  | String c r => let n := nat_of_ascii c in String (letter (n / 16)) (String (letter (n mod 16)) (spell r))
  end.
Fixpoint unspell (s : string) : string :=
  match s with
  | String a (String b r) => String (ascii_of_nat ((nat_of_ascii a - 97) * 16 + (nat_of_ascii b - 97))) (unspell r)
  | _ => ""
  end.
Definition toy_seal (secret iv plain : string) : string * string := ("tag", spell plain).
Definition toy_open (secret iv tag ct : string) : option string := Some (unspell ct).
Lemma toy_sealed secret iv plain tag ct : toy_seal secret iv plain = (tag, ct) ->
  toy_open secret iv tag ct = Some plain /\ lacks ":" tag = true /\ lacks ":" ct = true.
Proof.
  intros [= <- <-]. unfold toy_open. assert (H : unspell (spell plain) = plain /\ lacks ":" (spell plain) = true).
  { induction plain as [|c r (IH1 & IH2)]; [done|]. cbn [spell unspell]. rewrite IH1. split.
    - f_equal. clear. by destruct c as [[] [] [] [] [] [] [] []].
    - unfold lacks, all_chars in *. cbn [list_ascii_of_string forallb]. rewrite IH2. clear. by destruct c as [[] [] [] [] [] [] [] []]. }
  destruct H as (-> & H). done.
Qed.

Definition toy_digest (s : string) : string := ("d" ++ s)%string.
Definition stored_key : fields :=
  [("k1", JObj [("id", JStr "k1"); ("name", JStr "ci"); ("status", JStr "active"); ("key", JStr "hmac:dsk-vm-old"); ("key_hash", JStr "dsk-vm-old")])].
Lemma rotated_key_witness :
  exists s' stored rec, rotate toy_digest toy_seal "pass" (idle stored_key) "k1" "abcdef" "iv" 5 = inr (s', stored) /\
    authenticate toy_digest toy_seal "pass" s' [] "sk-vm-abcdef" "" = (s', Accepted rec) /\ rec?."id" = JStr "k1" /\
    authenticate toy_digest toy_seal "pass" s' [] "sk-vm-old" "" = (s', Refused "invalid") /\
    exists name, reveal toy_open "pass" s' "k1" = Plain (JStr "k1") name "sk-vm-abcdef".
Proof.
  assert (Hone : forall k, visible (select_row k stored_key) = true -> k = "k1").
  { intros k. unfold select_row, stored_key. cbn [assoc]. by destruct (String.eqb_spec k "k1"). }
  apply (rotated_key toy_digest toy_seal toy_open "pass" (toy_sealed "pass") [] (idle stored_key) "k1" "abcdef" "iv" "" 5 "sk-vm-old"); try reflexivity.
  - split; [apply (@bool_decide_eq_true_1 (NoDup (map fst stored_key)) _); vm_compute; reflexivity|repeat constructor].
  - split; [|intros k1 k2 h H1 H2 _ _; by rewrite (Hone k1 H1), (Hone k2 H2)]. intros k Hk. rewrite (Hone k Hk). by exists "dsk-vm-old".
  - intros k Hk. by rewrite (Hone k Hk).
Defined.

(** A row that still holds its key in the clear authenticates although its owner is disabled. *)
Definition legacy_key : fields :=
  [("k1", JObj [("id", JStr "k1"); ("status", JStr "active"); ("key", JStr "sk-legacy-0123456789"); ("user_id", JStr "u1")])].
Definition disabled_user : fields := [("u1", JObj [("id", JStr "u1"); ("status", JStr "disabled")])].
Example legacy_owner_unchecked :
  let a := authenticate toy_digest toy_seal "" (idle legacy_key) disabled_user "sk-legacy-0123456789" "" in
  match a.2 with Accepted rec => ownerActive disabled_user rec = false | Refused _ => False end /\
  (authenticate toy_digest toy_seal "" a.1 disabled_user "sk-legacy-0123456789" "").2 = Refused "user_disabled".
Proof. vm_compute. done. Qed.
