(* ===== verification/Redeem.v ===== *)
(** * Groups and top-up codes (src/src/lib/db/repos/redeem-codes-repo.mjs,
    src/src/lib/db/repos/groups-repo.mjs)

    A code is worth an amount that is credited to one user once; a group is a multiplier of
    prices.  The rows of redeem_codes are kept in the order of their ids. *)

From Stdlib Require Import QArith Lqa Lia.
From stdpp Require Import gmap strings.
From S2P Require Import Prelude.
From S2P Require Import JsValue.
From S2P Require Import JsText.
From S2P Require Import JsDate.
From S2P Require Import AccountStore.
From S2P Require Import StoreFacts.
From S2P Require Import Users.
From S2P Require Import ApiKeys.
From S2P Require Import ApiKeyFacts.
#[local] Open Scope string_scope.
#[local] Open Scope list_scope.
#[local] Open Scope js_scope.

(** ** Groups *)

Module Groups.

Definition DEFAULT_GROUP_ID : Z := 1.
Definition EDITABLE : list string := ["description"; "rate_multiplier"; "is_exclusive"; "rpm_limit"; "sort_order"; "status"].

(** The rows by id. *)
Notation table := (list (Z * jsval)).

Definition rowToRec (row : jsval) : jsval :=
  let rate := to_number (row?."rate_multiplier") in
  JObj [("id", row?."id"); ("name", row?."name"); ("description", row?."description");
        ("rate_multiplier", if is_finite rate then JNum rate else jint 1); ("is_exclusive", JBool (truthy (row?."is_exclusive")));
        ("platform", row?."platform"); ("rpm_limit", JNum (num_or_zero (row?."rpm_limit")));
        ("sort_order", JNum (num_or_zero (row?."sort_order"))); ("status", row?."status"); ("created_at", row?."created_at");
        ("updated_at", row?."updated_at")].

Definition select (p : Z * jsval -> bool) (t : table) : jsval :=
  match List.find (fun r => visible r.2 && p r) t with Some r => rowToRec r.2 | None => JNull end.
Definition getById (t : table) (id : Z) : jsval := select (fun r => (r.1 =? id)%Z) t.
Definition getByName (t : table) (name : jsval) : jsval := select (fun r => is_str (r.2?."name") (trim (str_or_empty name))) t.
Definition getDefault (t : table) : jsval := getById t DEFAULT_GROUP_ID.

(** The columns that are set: those of [EDITABLE] the patch has. *)
Definition patch_columns (patch : jsval) : fields :=
  omap (fun c => match patch?.c with
                 | JUndef => None
                 | v => Some (c, if String.eqb c "is_exclusive" then bit v else v)
                 end) EDITABLE.
Definition update (t : table) (id : Z) (patch : jsval) (now : Z) : table * jsval :=
  match patch_columns patch with
  | [] => (t, getById t id)
  | cols =>
    let t := map (fun r => if (r.1 =? id)%Z && visible r.2
                           then (r.1, spread r.2 (JObj (cols ++ [("updated_at", iso_now now)]))) else r) t in
    (t, getById t id)
  end.

(** The price multiplier of a group; of no group, of the default one. *)
Definition rateMultiplier (t : table) (id : option Z) : num :=
  let g := getById t (default DEFAULT_GROUP_ID id) in if truthy g then to_number (g?."rate_multiplier") else Fin 1.

Lemma rateMultiplier_finite t id : is_finite (rateMultiplier t id) = true.
Proof.
  unfold rateMultiplier, getById, select. destruct (List.find _ _) as [[k row]|]; [|done]. cbn.
  destruct (to_number (row?."rate_multiplier")); done.
Qed.

End Groups.

(** ** Codes *)

Record code_row := { c_id : Z; c_code : string; c_value : num; c_used_by : option string; c_used_at : option string;
                     c_notes : jsval; c_expires_at : option string; c_created_at : string }.
(** [status]: a code is used when it has a user. *)
Definition unused (c : code_row) : bool := match c_used_by c with None => true | Some _ => false end.

Record db := { users : fields; codes : list code_row; next_id : Z }.

Definition generateRedeemCode (random : string) : string := ("kin-" ++ random)%string.

(** [ORDER BY id DESC] *)
Definition list_codes (d : db) : list code_row := rev (codes d).
Definition getByCode (d : db) (code : string) : option code_row := List.find (fun c => String.eqb (c_code c) (trim code)) (codes d).

Inductive created := NotAmount | Duplicate | Created (c : code_row).

Definition create (d : db) (value : jsval) (code random : string) (notes : jsval) (expires_at : option string) (now : Z) : db * created :=
  let v := to_number value in
  if negb (is_finite v) || num_leb v (Fin 0) then (d, NotAmount)
  else
    let text := if nonempty code then code else generateRedeemCode random in
    if existsb (fun c => String.eqb (c_code c) text) (codes d) then (d, Duplicate)
    else
      let c := {| c_id := next_id d; c_code := text; c_value := v; c_used_by := None; c_used_at := None; c_notes := notes;
                  c_expires_at := expires_at; c_created_at := default "" (to_iso now) |} in
      ({| users := users d; codes := codes d ++ [c]; next_id := next_id d + 1 |}, Created c).

Definition remove (d : db) (id : Z) : db * bool :=
  let gone c := (c_id c =? id)%Z && unused c in
  ({| users := users d; codes := List.filter (fun c => negb (gone c)) (codes d); next_id := next_id d |}, existsb gone (codes d)).

Inductive redeemed := Error (code : string) | Redeemed (c : code_row).

Definition mark_used (userId : string) (now : Z) (c : code_row) : code_row :=
  {| c_id := c_id c; c_code := c_code c; c_value := c_value c; c_used_by := Some userId; c_used_at := to_iso now;
     c_notes := c_notes c; c_expires_at := c_expires_at c; c_created_at := c_created_at c |}.

(** [UPDATE redeem_codes SET status = 'used' ... WHERE id = ? AND status = 'unused'] *)
Definition markUsed (d : db) (id : Z) (userId : string) (now : Z) : db * nat :=
  let hit c := (c_id c =? id)%Z && unused c in
  ({| users := users d; codes := map (fun c => if hit c then mark_used userId now c else c) (codes d); next_id := next_id d |},
   length (List.filter hit (codes d))).

Definition code_expired (c : code_row) (now : Z) : bool :=
  match c_expires_at c with Some s => nonempty s && num_ltb (date_parse s) (num_of_Z now) | None => false end.

Definition redeem (d : db) (code userId : string) (now : Z) : db * redeemed :=
  match getByCode d code with
  | None => (d, Error "code_not_found")
  | Some rec =>
    if negb (unused rec) then (d, Error "code_used")
    else if code_expired rec now then (d, Error "code_expired")
    else if negb (truthy (Users.getById (users d) (JStr userId))) then (d, Error "user_not_found")
    else
      let '(d', changes) := markUsed d (c_id rec) userId now in
      if (changes =? 0)%nat then (d, Error "code_used")
      else
        ({| users := (Users.addBalance (users d') userId (JNum (c_value rec)) now).1; codes := codes d'; next_id := next_id d' |},
         match List.find (fun c => (c_id c =? c_id rec)%Z) (codes d') with Some c => Redeemed c | None => Error "" end)
  end.

(** ** The ledger *)

Inductive op :=
  | Issue (value : jsval) (code random : string) (notes : jsval) (expires_at : option string) (now : Z)
  | Withdraw (id : Z)
  | Redeem (code userId : string) (now : Z).

(** A step, and the code that it redeemed. *)
Definition step (d : db) (o : op) : db * option Z :=
  match o with
  | Issue value code random notes expires_at now => ((create d value code random notes expires_at now).1, None)
  | Withdraw id => ((remove d id).1, None)
  | Redeem code userId now =>
    let '(d', r) := redeem d code userId now in (d', match r with Redeemed c => Some (c_id c) | Error _ => None end)
  end.
Definition run (d : db) (ops : list op) : db * list Z :=
  fold_left (fun r o => let '(d', c) := step r.1 o in (d', r.2 ++ match c with Some id => [id] | None => [] end)) ops (d, []).

Definition amount (v : num) : Q := match v with Fin q => q | _ => 0%Q end.
Definition used_by_user (u : string) (c : code_row) : bool := match c_used_by c with Some v => String.eqb v u | None => false end.
(** What the codes that a user has redeemed are worth. *)
Fixpoint worth (u : string) (cs : list code_row) : Q :=
  match cs with [] => 0%Q | c :: cs => ((if used_by_user u c then amount (c_value c) else 0) + worth u cs)%Q end.

Definition balance_is (d : db) (u : string) (q : Q) : Prop :=
  visible (select_row u (users d)) = true /\ exists x, to_number ((select_row u (users d))?."balance") = Fin x /\ (x == q)%Q.

(** Ids are a key below the next one, and amounts are numbers. *)
Definition codes_ok (d : db) : Prop :=
  NoDup (map c_id (codes d)) /\ Forall (fun c => (c_id c < next_id d)%Z /\ is_finite (c_value c) = true) (codes d).

Lemma worth_app u cs cs' : (worth u (cs ++ cs') == worth u cs + worth u cs')%Q.
Proof. induction cs as [|c cs IH]; cbn; [|rewrite IH]; lra. Qed.

Lemma worth_unused u cs : (forall c, c ∈ cs -> unused c = true) -> (worth u cs == 0)%Q.
Proof.
  induction cs as [|c cs IH]; intros H; cbn; [lra|]. rewrite IH by (intros; apply H; by right).
  assert (Hc := H c ltac:(by left)). unfold unused, used_by_user in *. destruct (c_used_by c); [done|lra].
Qed.

Lemma worth_remove u id cs :
  (worth u (List.filter (fun c => negb ((c_id c =? id)%Z && unused c)) cs) == worth u cs)%Q.
Proof.
  induction cs as [|c cs IH]; [done|]. cbn [List.filter]. destruct (_ && _) eqn:E; cbn [negb worth].
  - apply andb_true_iff in E as (_ & E). rewrite IH. unfold unused, used_by_user in *. destruct (c_used_by c); [done|lra].
  - by rewrite IH.
Qed.

Lemma worth_mark u v now rec cs : NoDup (map c_id cs) -> rec ∈ cs -> unused rec = true ->
  (worth u (map (fun c => if (c_id c =? c_id rec)%Z && unused c then mark_used v now c else c) cs) ==
   worth u cs + if String.eqb v u then amount (c_value rec) else 0)%Q.
Proof.
  intros Hn Hin Hu. induction cs as [|c cs IH]; [by apply not_elem_of_nil in Hin|]. cbn [map] in Hn. apply NoDup_cons in Hn as (Hc & Hn).
  set (f := fun c => if (c_id c =? c_id rec)%Z && unused c then mark_used v now c else c) in *. cbn [map worth].
  apply elem_of_cons in Hin as [<-|Hin].
  - assert (Hid : map f cs = cs).
    { rewrite <- (map_id cs) at 2. apply map_ext_in. intros c Hcs. unfold f. destruct (Z.eqb_spec (c_id c) (c_id rec)) as [E|_]; [|done].
      exfalso. apply Hc. rewrite <- E. apply list_elem_of_fmap_2. by apply list_elem_of_In. }
    rewrite Hid. unfold f. rewrite Z.eqb_refl, Hu. cbn [andb]. unfold used_by_user, unused in *. cbn. destruct (c_used_by rec); [done|].
    destruct (String.eqb v u); lra.
  - rewrite (IH Hn Hin). replace (f c) with c; [lra|]. unfold f. destruct (Z.eqb_spec (c_id c) (c_id rec)) as [E|_]; [|done].
    exfalso. apply Hc. rewrite E. by apply list_elem_of_fmap_2.
Qed.

(** Redeeming succeeds in one way only, and otherwise leaves everything as it was. *)
Lemma redeem_cases d code u now :
  (redeem d code u now).1 = d /\ (exists e, (redeem d code u now).2 = Error e) \/
  exists rec, rec ∈ codes d /\ unused rec = true /\ visible (select_row u (users d)) = true /\
    (redeem d code u now).1 = {| users := (Users.addBalance (users d) u (JNum (c_value rec)) now).1;
      codes := map (fun c => if (c_id c =? c_id rec)%Z && unused c then mark_used u now c else c) (codes d); next_id := next_id d |} /\
    exists c, (redeem d code u now).2 = Redeemed c /\ c_id c = c_id rec.
Proof.
  unfold redeem. destruct (getByCode d code) as [rec|] eqn:E; [|by left; split; [|eexists]].
  apply List.find_some in E as (Hin & _). apply list_elem_of_In in Hin.
  destruct (unused rec) eqn:Hu; cbn [negb]; [|by left; split; [|eexists]].
  destruct (code_expired rec now); [by left; split; [|eexists]|].
  destruct (truthy (Users.getById _ _)) eqn:Ht; cbn [negb]; [|by left; split; [|eexists]].
  right. exists rec. unfold markUsed. set (hit := fun c => (c_id c =? c_id rec)%Z && unused c).
  assert (Hh : hit rec = true) by by unfold hit; rewrite Z.eqb_refl, Hu.
  assert (Hl : In rec (List.filter hit (codes d))) by (apply List.filter_In; split; [by apply list_elem_of_In|exact Hh]).
  destruct (length (List.filter hit (codes d)) =? 0)%nat eqn:E0.
  { apply Nat.eqb_eq, length_zero_iff_nil in E0. by rewrite E0 in Hl. }
  split_and!; [exact Hin|done| |done|].
  - unfold Users.getById, found in Ht. by destruct (visible _).
  - cbn [snd codes]. destruct (List.find _ _) as [c|] eqn:Ef.
    + apply List.find_some in Ef as (_ & Ef). apply Z.eqb_eq in Ef. by exists c.
    + exfalso. assert (Hm : In (mark_used u now rec) (map (fun c => if hit c then mark_used u now c else c) (codes d))).
      { apply in_map_iff. exists rec. rewrite Hh. split; [done|by apply list_elem_of_In]. }
      apply (List.find_none _ _ Ef) in Hm. cbn in Hm. by rewrite Z.eqb_refl in Hm.
Qed.

Lemma select_update u v f t : 
  select_row v (update_visible u f t) =
  if String.eqb u v && visible (select_row u t) then spread (select_row u t) (JObj (f (select_row u t))) else select_row v t.
Proof.
  unfold select_row. induction t as [|[k row] t IH]; [by rewrite andb_false_r|]. rewrite update_cons. cbn [assoc].
  destruct (String.eqb_spec u k) as [<-|Hu]; cbn [andb].
  - destruct (String.eqb_spec u v) as [<-|Hv]; cbn [andb].
    + destruct (visible row); cbn [assoc]; by rewrite String.eqb_refl.
    + assert (Hk : String.eqb v u = false) by (apply String.eqb_neq; congruence).
      destruct (visible row); cbn [assoc]; rewrite Hk; rewrite IH; done.
  - destruct (String.eqb_spec v k) as [->|Hv]; [by rewrite (proj2 (String.eqb_neq u k) Hu)|]. exact IH.
Qed.

Lemma credit u b delta now d rec : balance_is d u b -> c_value rec = Fin delta ->
  forall v cs n, let d' := {| users := (Users.addBalance (users d) v (JNum (c_value rec)) now).1; codes := cs; next_id := n |} in
  balance_is d' u (b + if String.eqb v u then delta else 0)%Q.
Proof.
  intros (Hv & x & Hx & Hb) Hd v cs n. cbn zeta. unfold balance_is, Users.addBalance. cbn [users fst]. rewrite select_update, Hd.
  destruct (String.eqb_spec v u) as [->|_]; cbn [andb]; [|split; [exact Hv|exists x; split; [exact Hx|lra]]].
  rewrite Hv. split.
  - unfold visible in *. apply andb_true_iff in Hv as (_ & Hn). apply andb_true_iff. split; [done|]. by rewrite get_spread_other.
  - destruct (num_or_zero_fin delta) as (y & Hy & Hq). rewrite get_spread_own by (reflexivity || distinct_keys). cbn [assoc String.eqb]. rewrite Hx, Hy.
    eexists. split; [reflexivity|]. rewrite Qred_correct, Hb, Hq. lra.
Qed.

Definition conserved (d d' : db) : Prop :=
  codes_ok d' /\
  (forall u b, balance_is d u b -> balance_is d' u (b + worth u (codes d') - worth u (codes d))%Q) /\
  (forall c, c ∈ codes d -> unused c = false -> c ∈ codes d').
Definition fresh (d d' : db) (o : option Z) : Prop :=
  forall id, o = Some id -> (forall c, c ∈ codes d -> c_id c = id -> unused c = true) /\
                            exists c, c ∈ codes d' /\ c_id c = id /\ unused c = false.

Lemma conserved_refl d : codes_ok d -> conserved d d.
Proof. intros H. split_and!; [done| |done]. intros u b (Hv & x & Hx & Hb). split; [done|]. exists x. split; [done|]. lra. Qed.

Lemma create_ok d value code random notes exp now : codes_ok d -> conserved d (create d value code random notes exp now).1.
Proof.
  intros Hok. unfold create. destruct (negb _ || _) eqn:Ef; [by apply conserved_refl|]. apply orb_false_iff in Ef as (Ef & _).
  destruct (existsb _ _); [by apply conserved_refl|]. cbn [fst]. destruct Hok as (Hn & Hb). split_and!; cbn [codes users next_id].
  - split; cbn [codes next_id].
    + rewrite map_app. apply NoDup_app. split_and!; [done| |apply NoDup_singleton]. intros id Hid He.
      apply list_elem_of_singleton in He. cbn in He. subst id. apply list_elem_of_fmap in Hid as (c & He & Hc). rewrite Forall_forall in Hb. apply Hb in Hc. lia.
    + apply Forall_app. split; [eapply Forall_impl; [exact Hb|]; cbn; intros c (? & ?); split; [lia|done]|].
      repeat constructor; cbn; [lia|by destruct (is_finite _)].
  - intros u b (Hv & x & Hx & Hq). split; [done|]. exists x. split; [done|]. cbn [codes]. rewrite worth_app. cbn. lra.
  - intros c Hc _. cbn. apply elem_of_app. by left.
Qed.

Lemma remove_ok d id : codes_ok d -> conserved d (remove d id).1.
Proof.
  intros (Hn & Hb). unfold remove. cbn [fst]. set (P := fun c => _). split_and!; cbn [codes users next_id].
  - split; cbn [codes next_id].
    + eapply sublist_NoDup; [exact Hn|]. apply (fmap_sublist c_id), filtered_sublist.
    + rewrite Forall_forall in *. intros c Hc. apply Hb. apply list_elem_of_In in Hc. apply List.filter_In in Hc as (Hc & _). by apply list_elem_of_In.
  - intros u b (Hv & x & Hx & Hq). split; [done|]. exists x. split; [done|]. cbn [codes]. subst P. rewrite worth_remove. lra.
  - intros c Hc Hu. apply list_elem_of_In, List.filter_In. split; [by apply list_elem_of_In|]. unfold P. by rewrite Hu, andb_false_r.
Qed.

Lemma redeem_ok d code u now : codes_ok d ->
  conserved d (redeem d code u now).1 /\ fresh d (redeem d code u now).1 (step d (Redeem code u now)).2.
Proof.
  intros Hok. unfold step. destruct (redeem_cases d code u now) as [(Hd & e & He)|(rec & Hin & Hu & Hv & Hd & c & Hc & Hid)].
  { destruct (redeem d code u now) as [d' r]. cbn in Hd, He. subst. split; [by apply conserved_refl|done]. }
  destruct (redeem d code u now) as [d' r]. cbn in Hd, Hc. subst d' r. cbn [fst snd]. rewrite Hid. clear c Hid.
  destruct Hok as (Hn & Hb). assert (Hf := proj1 (Forall_forall _ _) Hb rec Hin).
  cbn beta in Hf. destruct (c_value rec) as [delta| | |] eqn:Hval; [clear Hf|exfalso; by destruct Hf..].
  set (f := fun c => if (c_id c =? c_id rec)%Z && unused c then mark_used u now c else c). assert (Hids : map c_id (map f (codes d)) = map c_id (codes d)).
  { rewrite map_map. apply map_ext. intros c. unfold f. by destruct (_ && _). }
  split; [split_and!; cbn [codes users next_id]|].
  - split; cbn [codes next_id]; [by rewrite Hids|]. apply Forall_map. eapply Forall_impl; [exact Hb|]. intros c Hc. cbn. unfold f. by destruct (_ && _).
  - intros v b Hbal. assert (Hcr := credit v b delta now d rec Hbal Hval u (map f (codes d)) (next_id d)). rewrite Hval in Hcr.
    destruct Hcr as (Hv' & x & Hx & Hq). split; [exact Hv'|]. exists x. split; [exact Hx|]. cbn [codes]. unfold f.
    rewrite worth_mark by done. rewrite Hval. cbn [amount]. rewrite Hq. destruct (String.eqb u v); lra.
  - intros c Hc Hus. apply list_elem_of_fmap. exists c. split; [|done]. unfold f. by rewrite Hus, andb_false_r.
  - intros id [= <-]. split.
    + intros c Hc He. assert (c = rec) as ->; [|done]. by apply (same_key c_id (codes d)).
    + exists (f rec). split_and!; [by apply list_elem_of_fmap_2| |]; unfold f; by rewrite Z.eqb_refl, Hu.
Qed.

Lemma step_ok d o : codes_ok d -> conserved d (step d o).1 /\ fresh d (step d o).1 (step d o).2.
Proof.
  destruct o; intros Hok.
  - split; [by apply create_ok|done].
  - split; [by apply remove_ok|done].
  - destruct (redeem_ok d code userId now Hok) as (Hc & Hf). unfold step in *. by destruct (redeem d code userId now).
Qed.

Lemma conserved_trans d1 d2 d3 : conserved d1 d2 -> conserved d2 d3 -> conserved d1 d3.
Proof.
  intros (_ & Hb1 & Hc1) (Hok & Hb2 & Hc2). split_and!; [done| |auto]. intros u b Hb.
  destruct (Hb2 _ _ (Hb1 _ _ Hb)) as (Hv & x & Hx & Hq). split; [done|]. exists x. split; [done|]. rewrite Hq. lra.
Qed.

Lemma run_snoc d ops o : run d (ops ++ [o]) =
  let r := run d ops in ((step r.1 o).1, r.2 ++ match (step r.1 o).2 with Some id => [id] | None => [] end).
Proof. unfold run. rewrite fold_left_app. cbn. by destruct (step _ o). Qed.

(** C32: Top-up codes are a ledger.  Over any sequence of issued, withdrawn and redeemed codes the
    balance of each user changes by what the codes marked as used by that user are worth, no
    code is redeemed twice and a redeemed code is never withdrawn, so that the rows left are the
    account of every credit; and a redemption that is refused changes nothing. *)
Theorem redeem_ledger d ops : codes_ok d ->
  let r := run d ops in
  (forall u b, balance_is d u b -> balance_is r.1 u (b + worth u (codes r.1) - worth u (codes d))%Q) /\
  NoDup r.2 /\
  (forall id, id ∈ r.2 -> exists c, c ∈ codes r.1 /\ c_id c = id /\ unused c = false) /\
  (forall c, c ∈ codes d -> unused c = false -> c ∈ codes r.1) /\
  (forall code u now e, (redeem r.1 code u now).2 = Error e -> (redeem r.1 code u now).1 = r.1).
Proof.
  intros Hok. cbn zeta. assert (Hs : forall r code u now e, (redeem r code u now).2 = Error e -> (redeem r code u now).1 = r).
  { intros r code u now e He. destruct (redeem_cases r code u now) as [(Hd & _)|(rec & _ & _ & _ & _ & c & Hc & _)]; [done|congruence]. }
  enough (conserved d (run d ops).1 /\ NoDup (run d ops).2 /\
    (forall id, id ∈ (run d ops).2 -> exists c, c ∈ codes (run d ops).1 /\ c_id c = id /\ unused c = false)) as ((_ & Hb & Hc) & Hn & Hu).
  { split_and!; [exact Hb|exact Hn|exact Hu|exact Hc|]. apply Hs. }
  induction ops as [|o ops (Hc & Hn & Hu)] using rev_ind.
  { split_and!; [by apply conserved_refl|constructor|]. intros id H. by apply not_elem_of_nil in H. }
  rewrite run_snoc. cbn zeta. cbn [fst snd]. destruct (step_ok (run d ops).1 o (proj1 Hc)) as (Hc' & Hf).
  destruct (step (run d ops).1 o) as [d' c] eqn:E. cbn [fst snd] in *. split_and!; [by eapply conserved_trans| |].
  - apply NoDup_app. split_and!; [done| |by destruct c; repeat constructor; intros ?%not_elem_of_nil].
    intros id Hid He. destruct c as [id'|]; [|by apply not_elem_of_nil in He]. apply list_elem_of_singleton in He as ->.
    destruct (Hu _ Hid) as (c & Hin & Hci & Hun). destruct (Hf _ eq_refl) as (Hno & _). rewrite (Hno c Hin Hci) in Hun. done.
  - intros id Hid. apply elem_of_app in Hid as [Hid|Hid].
    + destruct (Hu _ Hid) as (c' & Hin & Hci & Hun). exists c'. split_and!; try done. destruct Hc' as (_ & _ & Hk). by apply Hk.
    + destruct c as [id'|]; [|by apply not_elem_of_nil in Hid]. apply list_elem_of_singleton in Hid as ->. by apply Hf.
Qed.

Definition one_user : db :=
  {| users := [("u1", JObj [("id", JStr "u1"); ("balance", jint 10); ("deleted_at", JNull)])]; codes := []; next_id := 1 |}.
Definition sample_ops : list op :=
  [Issue (jint 5) "" "a" JNull None 0; Issue (jint 7) "gift" "b" JNull None 0; Redeem " kin-a " "u1" 1; Redeem "kin-a" "u1" 2;
   Redeem "gift" "nobody" 3; Withdraw 1; Withdraw 2; Redeem "gift" "u1" 4].

Lemma redeem_ledger_witness :
  let r := run one_user sample_ops in
  r.2 = [1%Z] /\ map c_id (codes r.1) = [1%Z] /\ balance_is r.1 "u1" (10 + worth "u1" (codes r.1) - 0)%Q /\ (worth "u1" (codes r.1) == 5)%Q.
Proof.
  cbn zeta. split_and!; [by vm_compute|by vm_compute| |by vm_compute].
  assert (Hok : codes_ok one_user) by (split; constructor).
  apply (proj1 (redeem_ledger one_user sample_ops Hok) "u1" 10%Q). split; [done|]. by exists 10%Q.
Defined.
