(* ===== verification/Security.v ===== *)
(** * Credentials of a request (src/src/lib/core/security.mjs)

    The rate limiter, the sessions of the panel, its login, and where a request carries its
    credentials.  [digest] stands for the hex SHA-256; the random part of a token, the
    administrator of the environment and the clock are arguments; the file of sessions is the
    value it parses to, and a write of it may fail. *)

From Stdlib Require Import QArith Lqa Lia.
From stdpp Require Import gmap strings.
From S2P Require Import Prelude.
From S2P Require Import JsValue.
From S2P Require Import JsText.
From S2P Require Import JsDate.
From S2P Require Import StoreFacts.
#[local] Open Scope string_scope.
#[local] Open Scope list_scope.
#[local] Open Scope js_scope.

(** ** The rate limiter: a bucket of tokens per key *)

Module RateLimiter.

Record bucket := { b_tokens : num; b_updated : Z }.

Section Limiter.
Context (capacity refillPerSec : num).

(** The tokens of a bucket at a time. *)
Definition refilled (b : bucket) (now : Z) : num :=
  let elapsed := num_div (num_of_Z (now - b_updated b)) (num_of_Z 1000) in
  num_min capacity (num_add (b_tokens b) (num_mul elapsed refillPerSec)).

Definition allow (buckets : gmap string bucket) (key : string) (now : Z) : gmap string bucket * bool :=
  let b := default {| b_tokens := capacity; b_updated := now |} (buckets !! key) in
  let tokens := refilled b now in
  if num_ltb tokens (num_of_Z 1) then (<[key := {| b_tokens := tokens; b_updated := now |}]> buckets, false)
  else (<[key := {| b_tokens := num_sub tokens (num_of_Z 1); b_updated := now |}]> buckets, true).

(** The calls of a run, each with its key and time, and how many of a key's were allowed. *)
Definition run (buckets : gmap string bucket) (calls : list (string * Z)) : gmap string bucket :=
  fold_left (fun m c => (allow m c.1 c.2).1) calls buckets.
Fixpoint admitted (key : string) (buckets : gmap string bucket) (calls : list (string * Z)) : nat :=
  match calls with
  | [] => 0
  | c :: r => (if String.eqb c.1 key && (allow buckets c.1 c.2).2 then 1 else 0) + admitted key (allow buckets c.1 c.2).1 r
  end%nat.

End Limiter.

End RateLimiter.

(** ** Where a request carries its credentials *)

Module Tokens.

Definition SESSION_PREFIX : string := "kin-panel-".

(** The text after [Bearer]; [None] when the header is none. *)
Definition bearer (headers : jsval) : option string :=
  match headers?."authorization" ||| JStr "" with
  | JStr auth => if starts_with "bearer " (to_lower auth) then Some (trim (drop_chars 7 auth)) else None
  | _ => None
  end.
Definition header_text (headers : jsval) (name : string) : string :=
  if truthy (headers?.name) then trim (to_string (headers?.name)) else "".

Definition extractApiKey (headers : jsval) : string :=
  match bearer headers with
  | Some t => if starts_with SESSION_PREFIX t then "" else t
  | None => header_text headers "x-api-key"
  end.

(** Percent encoding: the characters [encodeURIComponent] keeps, the others byte by byte. *)
Definition unreserved (c : ascii) : bool :=
  is_digit c || is_upper c || is_lower c || existsb (Ascii.eqb c) (list_ascii_of_string "-_.!~*'()").
Definition hex_char (n : nat) : ascii := ascii_of_nat (if (n <? 10)%nat then 48 + n else 55 + n).
Fixpoint encodeURIComponent (s : string) : string :=
  match s with
  | EmptyString => ""
  | String c r =>
    if unreserved c then String c (encodeURIComponent r)
    else let n := nat_of_ascii c in String "%" (String (hex_char (n / 16)) (String (hex_char (n mod 16)) (encodeURIComponent r)))
  end.

(** The byte of an escape [%XX] at the head of a text. *)
Definition escape (s : string) : option (nat * string) :=
  match s with
  | String "%" (String a (String b r)) =>
    match hex_digit a, hex_digit b with Some x, Some y => Some (Z.to_nat (16 * x + y), r) | _, _ => None end
  | _ => None
  end.
(** [n] escaped continuation bytes of a UTF-8 sequence, and the code point they end. *)
Fixpoint continuation (n : nat) (acc : Z) (s : string) : option (Z * list nat * string) :=
  match n with
  | O => Some (acc, [], s)
  | S n =>
    match escape s with
    | Some (b, r) =>
      if (128 <=? b)%nat && (b <? 192)%nat then
        match continuation n (acc * 64 + Z.of_nat (b - 128)) r with Some (c, l, r) => Some (c, b :: l, r) | None => None end
      else None
    | None => None
    end
  end.
(** Shortest form, in range, not a surrogate. *)
Definition code_point_ok (n : nat) (c : Z) : bool :=
  match n with
  | 1%nat => (128 <=? c)%Z
  | 2%nat => (2048 <=? c)%Z && negb ((55296 <=? c)%Z && (c <=? 57343)%Z)
  | 3%nat => (65536 <=? c)%Z && (c <=? 1114111)%Z
  | _ => false
  end.
Definition escaped_sequence (s : string) : option (list nat * string) :=
  match escape s with
  | None => None
  | Some (b, r) =>
    if (b <? 128)%nat then Some ([b], r)
    else
      let '(n, first) := (if (b <? 192)%nat then (0, 0) else if (b <? 224)%nat then (1, b - 192) else if (b <? 240)%nat then (2, b - 224)
                          else if (b <? 248)%nat then (3, b - 240) else (0, 0))%nat in
      match continuation n (Z.of_nat first) r with
      | Some (c, l, r) => if code_point_ok n c then Some (b :: l, r) else None
      | None => None
      end
  end.
(** [None] is a URIError. *)
Fixpoint decode_fuel (fuel : nat) (s : string) : option string :=
  match fuel with
  | O => Some ""
  | S fuel =>
    match s with
    | EmptyString => Some ""
    | String "%" _ =>
      match escaped_sequence s with
      | Some (bytes, r) => option_map (String.append (string_of_list_ascii (map ascii_of_nat bytes))) (decode_fuel fuel r)
      | None => None
      end
    | String c r => option_map (String c) (decode_fuel fuel r)
    end
  end.
Definition decodeURIComponent (s : string) : option string := decode_fuel (S (String.length s)) s.

(** A part of the cookie header: a name and its value. *)
Fixpoint cut_at (c : ascii) (s : string) : option (string * string) :=
  match s with
  | EmptyString => None
  | String d r => if Ascii.eqb c d then Some ("", r) else option_map (fun p => (String d p.1, p.2)) (cut_at c r)
  end.
Fixpoint parse_parts (parts : list string) (out : fields) : option fields :=
  match parts with
  | [] => Some out
  | part :: rest =>
    match cut_at "=" part with
    | None => parse_parts rest out
    | Some (k, v) =>
      if nonempty (trim k) then
        match decodeURIComponent (trim v) with
        | Some t => parse_parts rest (set_field (trim k) (JStr t) out)
        | None => None
        end
      else parse_parts rest out
    end
  end.
Definition parseCookie (header : jsval) : option jsval :=
  if truthy header then option_map JObj (parse_parts (split_char ";" (to_string header)) []) else Some (JObj []).

(** The session token of a request: Bearer, then a header of its own, then a cookie. *)
Definition extractPanelToken (headers : jsval) : option string :=
  let bearer_token := match bearer headers with Some t => if starts_with SESSION_PREFIX t then t else "" | None => "" end in
  if nonempty bearer_token then Some bearer_token
  else if nonempty (header_text headers "x-panel-token") then Some (header_text headers "x-panel-token")
  else
    match parseCookie (headers?."cookie") with
    | None => None
    | Some cookies => Some (str_or_empty (cookies?."kin_panel_token" ||| cookies?."kin_console_token"))
    end.

Definition cookie_scheme (v : jsval) : string := to_lower (trim (str_or_empty v)).
Definition panelCookieSecure (req env : jsval) : bool :=
  let scheme := cookie_scheme (env?."PUBLIC_SCHEME") in
  if String.eqb scheme "https" then true
  else if String.eqb scheme "http" then false
  else
    let xf := to_lower (trim (before_char "," (str_or_empty (req?."headers"?."x-forwarded-proto")))) in
    if String.eqb xf "https" then true
    else if String.eqb xf "http" then false
    else truthy (req?."socket"?."encrypted").

Definition cookie_parts (value maxAge : string) (secure : bool) : string :=
  join "; " (["kin_panel_token=" ++ value; "Path=/"; "Max-Age=" ++ maxAge; "HttpOnly"; "SameSite=Lax"]%string
             ++ if secure then ["Secure"] else []).
Definition panelSessionCookie (token : string) (secure : bool) (maxAgeSec : Z) : string :=
  cookie_parts (encodeURIComponent token) (Z_to_string maxAgeSec) secure.
Definition clearPanelSessionCookie (secure : bool) : string := cookie_parts "" "0" secure.

(** A token the browser sends back among other cookies is the one that was set. *)
Example cookie_sent_back :
  extractPanelToken (JObj [("cookie", JStr "a=1; kin_panel_token=kin-panel-0f%20%C3%A9; b=%41")]) =
  Some (String.append "kin-panel-0f " (string_of_list_ascii (map ascii_of_nat [195; 169]%nat))).
Proof. reflexivity. Qed.
Example malformed_cookie : extractPanelToken (JObj [("cookie", JStr "a=%zz; kin_panel_token=kin-panel-1")]) = None.
Proof. reflexivity. Qed.

End Tokens.

(** ** Sessions of the panel *)

Module Sessions.

Definition SESSION_TTL_MS : Z := 7 * 24 * 3600 * 1000.

(** The Map in memory and the file, which is [None] when it is missing or does not parse. *)
Record store := { sessions : fields; file : option jsval }.

Section Panel.
Context (digest : string -> string) (admin : string) (lookupRole : option (jsval -> jsval)).

Definition panelSessionKey (token : string) : string := digest token.
Definition role_of (user : jsval) : jsval := match lookupRole with Some f => f user | None => JNull end.

Definition alive (now : Z) (s : jsval) : bool := truthy s && num_ltb (num_of_Z now) (to_number (s?."exp")).
Definition stored_key (storedKey : string) : string :=
  if starts_with Tokens.SESSION_PREFIX storedKey then panelSessionKey storedKey else storedKey.
Definition session (user role exp : jsval) : jsval := JObj [("user", user); ("role", role); ("exp", exp)].

Definition load_entry (now : Z) (m : fields) (p : string * jsval) : fields :=
  if alive now p.2 then set_field (stored_key p.1) (session (p.2?."user") (p.2?."role" ||| JNull) (p.2?."exp")) m else m.
Definition loadSessions (d : store) (now : Z) : store :=
  match file d with
  | None => d
  | Some raw => {| sessions := fold_left (load_entry now) (entries (raw ||| JObj [])) (sessions d); file := file d |}
  end.
Definition saveSessions (d : store) (now : Z) (written : bool) : store :=
  if written then {| sessions := sessions d; file := Some (JObj (List.filter (fun p => alive now p.2) (sessions d))) |} else d.

(** A lifetime, or an object of options in its place. *)
Definition session_options (ttlMs extra : jsval) : jsval * jsval :=
  let ttl := match ttlMs with JUndef => jint SESSION_TTL_MS | v => v end in
  let extra := match extra with JUndef => JObj [] | v => v end in
  if truthy ttl && is_object ttl then (ttl?."ttlMs" ||| jint SESSION_TTL_MS, ttl) else (ttl, extra).

Definition createPanelSession (d : store) (username ttlMs extra : jsval) (random : string) (now : Z) (written : bool) : store * string :=
  let '(ttl, extra) := session_options ttlMs extra in
  let token := (Tokens.SESSION_PREFIX ++ random)%string in
  let s := session username (extra?."role" ||| role_of username ||| JStr "admin") (JNum (num_add (num_of_Z now) (to_number ttl))) in
  (saveSessions {| sessions := set_field (panelSessionKey token) s (sessions d); file := file d |} now written, token).

(** The role of a session that has none. *)
Definition with_role (s : jsval) : jsval :=
  let s := if negb (truthy (s?."role")) && match lookupRole with Some _ => true | None => false end
           then with_field s "role" (role_of (s?."user") ||| JNull) else s in
  if truthy (s?."role") then s
  else with_field s "role" (JStr (if nonempty admin && is_str (s?."user") admin then "admin" else "user")).

Definition verifyPanelSession (d : store) (token : string) (now : Z) (written : bool) : store * jsval :=
  if negb (starts_with Tokens.SESSION_PREFIX token) then (d, JNull)
  else
    let key := panelSessionKey token in
    let d := if truthy (assoc key (sessions d)) then d else loadSessions d now in
    let s := assoc key (sessions d) in
    if negb (truthy s) then (d, JNull)
    else if num_ltb (to_number (s?."exp")) (num_of_Z now) then
      (saveSessions {| sessions := del_field key (sessions d); file := file d |} now written, JNull)
    else let s := with_role s in ({| sessions := set_field key s (sessions d); file := file d |}, s).

Definition revokePanelSession (d : store) (token : string) (now : Z) (written : bool) : store :=
  if nonempty token then saveSessions {| sessions := del_field (panelSessionKey token) (sessions d); file := file d |} now written else d.

Definition revoked (name : string) (exceptKey : option string) (p : string * jsval) : bool :=
  is_str (p.2?."user") name && negb (match exceptKey with Some k => String.eqb p.1 k | None => false end).
Definition revokePanelSessionsForUser (d : store) (username : jsval) (exceptToken : string) (now : Z) (written : bool) : store * nat :=
  let name := str_or_empty username in
  if negb (nonempty name) then (d, 0%nat)
  else
    let gone := revoked name (if nonempty exceptToken then Some (panelSessionKey exceptToken) else None) in
    let n := length (List.filter gone (sessions d)) in
    let d := {| sessions := List.filter (fun p => negb (gone p)) (sessions d); file := file d |} in
    (if (n =? 0)%nat then d else saveSessions d now written, n).

(** The process starts: nothing is in memory but what the file holds. *)
Definition boot (d : store) (now : Z) : store := loadSessions {| sessions := []; file := file d |} now.

End Panel.

End Sessions.

(** ** Login *)

Section Login.
(** [authenticate] and [lookupRole] of [attachPanelAuth]; [None] before it is called. *)
Context (authenticate : option (jsval -> jsval -> jsval)) (lookupRole : option (jsval -> jsval)) (env : jsval).

Definition getPanelAdmin : jsval :=
  JObj [("username", env?."VM2API_ADMIN_USER" ||| env?."KIN_ADMIN_USER" ||| JStr "admin");
        ("password", env?."VM2API_ADMIN_PASSWORD" ||| env?."KIN_ADMIN_PASSWORD" ||| JStr "")].

Definition env_login (username password : jsval) : jsval :=
  if negb (truthy (getPanelAdmin?."password")) then JNull
  else if negb (String.eqb (str_or_empty username) (to_string (getPanelAdmin?."username"))) then JNull
  else if negb (String.eqb (str_or_empty password) (to_string (getPanelAdmin?."password"))) then JNull
  else JObj [("username", getPanelAdmin?."username"); ("role", JStr "admin"); ("id", JNull); ("source", JStr "env")].

Definition verifyPanelLogin (username password : jsval) : jsval :=
  match authenticate with
  | Some f =>
    let rec := f username password in
    if truthy rec then JObj [("username", rec?."username"); ("role", rec?."role" ||| JStr "user"); ("id", rec?."id")]
    else if match lookupRole with Some g => truthy (g username) | None => false end then JNull
    else env_login username password
  | None => env_login username password
  end.

End Login.
