(* ===== verification/SecurityFacts.v ===== *)
(** * Properties of credentials (Security)

    The rate limiter never lets through more than its capacity and what is refilled; a session
    is accepted exactly while it is issued, not revoked and not over, across restarts; an
    operator of the database never gets in with the password of the environment. *)

From Stdlib Require Import QArith Lqa Lia Qminmax.
From stdpp Require Import gmap strings.
From S2P Require Import Prelude.
From S2P Require Import JsValue.
From S2P Require Import JsText.
From S2P Require Import JsDate.
From S2P Require Import StoreFacts.
From S2P Require Import Users.
From S2P Require Import Security.
#[local] Open Scope string_scope.
#[local] Open Scope list_scope.
#[local] Open Scope js_scope.

(** ** The rate limiter *)

Section Rate.
Import RateLimiter.
Context (cap refill : Q) (Hcap : (0 <= cap)%Q) (Hrefill : (0 <= refill)%Q).
#[local] Notation limit := (allow (Fin cap) (Fin refill)).
#[local] Notation seconds a b := ((inject_Z b - inject_Z a) / 1000)%Q.

(** Calls in the order of the clock, within an interval. *)
Fixpoint timed (a : Z) (calls : list (string * Z)) (b : Z) : Prop :=
  match calls with [] => (a <= b)%Z | c :: r => (a <= c.2)%Z /\ timed c.2 r b end.

Definition tokens_of (b : bucket) : Q := match b_tokens b with Fin q => q | _ => 0%Q end.
(** The tokens a key has at a time. *)
Definition level (m : gmap string bucket) (key : string) (now : Z) : Q :=
  match m !! key with Some b => Qmin cap (tokens_of b + seconds (b_updated b) now * refill) | None => cap end.

Definition bucket_ok (now : Z) (b : bucket) : Prop :=
  (b_updated b <= now)%Z /\ b_tokens b = Fin (tokens_of b) /\ (0 <= tokens_of b <= cap)%Q.
Definition buckets_ok (now : Z) (m : gmap string bucket) : Prop := map_Forall (fun _ => bucket_ok now) m.

Lemma seconds_le a b c : (b <= c)%Z -> (seconds a b <= seconds a c)%Q.
Proof.
  intros H. apply Qmult_le_compat_r; [|done]. rewrite Zle_Qle in H. lra.
Qed.

Lemma refill_le a b : (a <= b)%Z -> (0 <= seconds a b * refill)%Q.
Proof.
  intros H. apply Qmult_le_0_compat; [|done]. apply Qle_shift_div_l; [done|]. rewrite Zle_Qle in H. lra.
Qed.

Lemma refilled_level m key now b : m !! key = Some b -> bucket_ok now b ->
  exists q, refilled (Fin cap) (Fin refill) b now = Fin q /\ (q == level m key now)%Q.
Proof.
  intros Hm (_ & Ht & _). unfold refilled, level. rewrite Hm, Ht. unfold num_of_Z at 1 2, num_div. cbn [num_mul num_add].
  change (Qeq_bool (inject_Z 1000) 0) with false. cbn [num_mul num_add].
  assert (Hs : (Qred (tokens_of b + Qred (Qred (inject_Z (now - b_updated b) / inject_Z 1000) * refill)) ==
                tokens_of b + seconds (b_updated b) now * refill)%Q).
  { rewrite !Qred_correct. unfold Z.sub. rewrite inject_Z_plus, inject_Z_opp. reflexivity. }
  set (x := Qred (tokens_of b + _)) in *. unfold num_min. cbn [num_leb].
  destruct (Qle_bool cap x) eqn:E.
  - apply Qle_bool_iff in E. exists cap. split; [done|]. rewrite <- Hs. by rewrite Q.min_l.
  - apply Qle_bool_false in E. exists x. split; [done|]. rewrite <- Hs. rewrite Q.min_r; [done|lra].
Qed.

Lemma level_bounds m key now : buckets_ok now m -> (0 <= level m key now <= cap)%Q.
Proof.
  intros H. unfold level. destruct (m !! key) as [b|] eqn:E; [|lra]. destruct (H _ _ E) as (Hu & _ & Hb).
  assert (Hr := refill_le _ _ Hu). split; [|apply Q.le_min_l]. apply Q.min_glb; lra.
Qed.

(** One call: it is allowed when the key has a token, which it then takes. *)
Lemma allow_spec m key now : buckets_ok now m ->
  let r := limit m key now in
  buckets_ok now r.1 /\ r.2 = Qle_bool 1 (level m key now) /\
  (level r.1 key now == level m key now - if r.2 then 1 else 0)%Q /\
  (forall key', key' <> key -> r.1 !! key' = m !! key').
Proof.
  intros Hm. cbn zeta. assert (Hl := level_bounds m key now Hm).
  set (b := default {| b_tokens := Fin cap; b_updated := now |} (m !! key)).
  assert (exists q, refilled (Fin cap) (Fin refill) b now = Fin q /\ (q == level m key now)%Q) as (q & Hq & Hlev).
  { destruct (m !! key) as [b'|] eqn:E; subst b; cbn [default].
    - by apply refilled_level; [|apply (Hm _ _ E)].
    - destruct (refilled_level {[ key := {| b_tokens := Fin cap; b_updated := now |} ]} key now {| b_tokens := Fin cap; b_updated := now |}) as (q & Hq & Hlev).
      + apply lookup_singleton_eq.
      + split_and!; cbn; [lia|done|lra..].
      + exists q. split; [exact Hq|]. rewrite Hlev. unfold level at 1 2. rewrite lookup_singleton_eq, E. cbn.
        assert (seconds now now == 0)%Q as -> by (unfold Qminus; rewrite Qplus_opp_r; reflexivity). apply Q.min_l. lra. }
  assert (Hgood : forall m' x, (0 <= x <= cap)%Q -> m' = <[key := {| b_tokens := Fin x; b_updated := now |}]> m ->
    buckets_ok now m' /\ (level m' key now == x)%Q /\ (forall key', key' <> key -> m' !! key' = m !! key')).
  { intros m' x Hx ->. split_and!.
    - apply map_Forall_insert_2; [split_and!; cbn; [lia|done|lra..]|exact Hm].
    - unfold level. rewrite lookup_insert_eq. cbn.
      assert (seconds now now == 0)%Q as -> by (unfold Qminus; rewrite Qplus_opp_r; reflexivity).
      rewrite Q.min_r; lra.
    - intros key' Hne. by rewrite lookup_insert_ne. }
  assert (Hb : Qle_bool 1 q = Qle_bool 1 (level m key now)) by by rewrite Hlev.
  unfold allow. fold b. rewrite Hq. unfold num_of_Z, num_sub. cbn [num_ltb num_neg num_add]. change (inject_Z 1) with 1%Q. rewrite Hb.
  destruct (Qle_bool 1 (level m key now)) eqn:E; cbn [negb fst snd].
  - apply Qle_bool_iff in E.
    assert (Hx : (Qred (q + Qred (- (1))) == level m key now - 1)%Q) by (rewrite !Qred_correct, Hlev; lra).
    destruct (Hgood _ (Qred (q + Qred (- (1)))) ltac:(rewrite Hx; lra) eq_refl) as (H1 & H2 & H3).
    split_and!; [exact H1|done| |exact H3]. by rewrite H2.
  - destruct (Hgood _ q ltac:(lra) eq_refl) as (H1 & H2 & H3). split_and!; [exact H1|done| |exact H3]. rewrite H2, Hlev. lra.
Qed.

Lemma seconds_split a b c : (seconds a c * refill == seconds a b * refill + seconds b c * refill)%Q.
Proof. field. Qed.

Lemma level_later m key a b : (a <= b)%Z -> (level m key b <= level m key a + seconds a b * refill)%Q.
Proof.
  intros H. assert (Hr := refill_le _ _ H). unfold level. destruct (m !! key) as [k|]; [|lra].
  rewrite (seconds_split _ a b), Qplus_assoc. set (x := (tokens_of k + _)%Q). destruct (Q.min_spec cap x) as [(_ & ->)|(_ & ->)]; destruct (Q.min_spec cap (x + seconds a b * refill)) as [(? & ->)|(? & ->)]; lra.
Qed.

Lemma level_earlier m key a b : (a <= b)%Z -> (level m key a <= level m key b)%Q.
Proof.
  intros H. assert (Hr := refill_le _ _ H). unfold level. destruct (m !! key) as [k|]; [|lra].
  apply Q.min_le_compat_l. rewrite (seconds_split _ a b). lra.
Qed.

Lemma buckets_later a b m : (a <= b)%Z -> buckets_ok a m -> buckets_ok b m.
Proof. intros H Hm k x Hx. destruct (Hm _ _ Hx) as (? & ? & ?). split_and!; [lia|done|lra..]. Qed.

Lemma timed_le a calls b : timed a calls b -> (a <= b)%Z.
Proof. revert a. induction calls as [|c r IH]; intros a H; [done|]. destruct H as (Ha & H). apply IH in H. lia. Qed.

Lemma run_ok m a calls b : buckets_ok a m -> timed a calls b -> buckets_ok b (run (Fin cap) (Fin refill) m calls).
Proof.
  revert m a. induction calls as [|c r IH]; intros m a Hm Ht; cbn [run fold_left].
  - by apply (buckets_later a).
  - destruct Ht as (Ha & Ht). apply (IH _ c.2); [|exact Ht]. by apply (allow_spec m c.1 c.2 (buckets_later _ _ _ Ha Hm)).
Qed.

Lemma admitted_level key m a calls b : buckets_ok a m -> timed a calls b ->
  (inject_Z (Z.of_nat (admitted (Fin cap) (Fin refill) key m calls)) <= level m key a + seconds a b * refill)%Q.
Proof.
  revert m a. induction calls as [|[k t] r IH]; intros m a Hm Ht.
  - cbn in Ht. assert (Hr := refill_le _ _ Ht). destruct (level_bounds m key a Hm). cbn [admitted]. change (inject_Z (Z.of_nat 0)) with 0%Q. lra.
  - destruct Ht as (Ha & Ht). cbn [fst snd] in *. assert (Hmt := buckets_later a t m Ha Hm).
    destruct (allow_spec m k t Hmt) as (Hok & Hallow & Hlev & Hother). cbn [admitted fst snd].
    set (c := limit m k t) in *. specialize (IH c.1 t Hok Ht). assert (Hl := level_later m key a t Ha).
    rewrite (seconds_split a t b).
    rewrite Nat2Z.inj_add, inject_Z_plus. destruct (String.eqb_spec k key) as [->|Hk]; cbn [andb].
    + destruct c.2; cbn [Nat.b2n Z.of_nat]; [change (inject_Z (Z.of_nat 1)) with 1%Q|change (inject_Z (Z.of_nat 0)) with 0%Q]; lra.
    + assert (level c.1 key t = level m key t) as Hsame by (unfold level; by rewrite (Hother key) by congruence).
      rewrite Hsame in IH. change (inject_Z (Z.of_nat 0)) with 0%Q. lra.
Qed.

End Rate.

(** C34: The rate limiter is a token bucket.  However the calls of all keys interleave, in any interval
    a key is let through at most [capacity] times and once more for each token refilled in
    the interval; and once a key has not called for as long as a token takes, it is let
    through. *)
Theorem rate_limited cap refill before calls key start a b :
  (0 <= cap)%Q -> (0 <= refill)%Q -> timed start before a -> timed a calls b ->
  let limiter := RateLimiter.run (Fin cap) (Fin refill) in
  let m := limiter ∅ before in
  (inject_Z (Z.of_nat (RateLimiter.admitted (Fin cap) (Fin refill) key m calls)) <= cap + (inject_Z b - inject_Z a) / 1000 * refill)%Q /\
  (forall t, (b <= t)%Z -> (1 <= cap)%Q ->
    (forall c, limiter m calls !! key = Some c -> (1000 <= (inject_Z t - inject_Z (RateLimiter.b_updated c)) * refill)%Q) ->
    (RateLimiter.allow (Fin cap) (Fin refill) (limiter m calls) key t).2 = true).
Proof.
  intros Hcap Hrefill Hbefore Hcalls. cbn zeta.
  assert (Hm := run_ok cap refill Hcap Hrefill ∅ start before a ltac:(apply map_Forall_empty) Hbefore). split.
  - assert (H := admitted_level cap refill Hcap Hrefill key _ a calls b Hm Hcalls).
    destruct (level_bounds cap refill Hcap Hrefill _ key a Hm). lra.
  - intros t Ht Hone Hwait. assert (Hr := run_ok cap refill Hcap Hrefill _ a calls b Hm Hcalls). apply (buckets_later cap b t) in Hr; [|done].
    destruct (allow_spec cap refill Hcap Hrefill _ key t Hr) as (_ & -> & _). apply Qle_bool_iff. unfold level.
    destruct (_ !! key) as [c|] eqn:E; [|done]. destruct (Hr _ _ E) as (_ & _ & Htok). specialize (Hwait c eq_refl).
    apply Q.min_glb; [done|]. assert (1 <= (inject_Z t - inject_Z (RateLimiter.b_updated c)) / 1000 * refill)%Q; [|lra].
    assert (E' : ((inject_Z t - inject_Z (RateLimiter.b_updated c)) / 1000 * refill == ((inject_Z t - inject_Z (RateLimiter.b_updated c)) * refill) / 1000)%Q) by (field).
    rewrite E'. apply Qle_shift_div_l; [done|lra].
Qed.

Lemma rate_limited_witness :
  let calls := [("k", 0%Z); ("k", 10%Z); ("j", 10%Z); ("k", 20%Z)] in
  RateLimiter.admitted (Fin 2) (Fin 1) "k" ∅ calls = 2%nat /\
  (RateLimiter.allow (Fin 2) (Fin 1) (RateLimiter.run (Fin 2) (Fin 1) ∅ calls) "k" 1020).2 = true.
Proof.
  cbn zeta. split; [by vm_compute|].
  apply (rate_limited 2 1 [] [("k", 0%Z); ("k", 10%Z); ("j", 10%Z); ("k", 20%Z)] "k" 0 0 20);
    [done|done|done|by cbn|done|done|].
  intros c. vm_compute. by intros [= <-].
Defined.

(** A capacity that is not a number lets everything through. *)
Example capacity_not_a_number : RateLimiter.admitted NaN (Fin 1) "k" ∅ [("k", 0%Z); ("k", 0%Z); ("k", 0%Z)] = 3%nat.
Proof. reflexivity. Qed.

(** ** Sessions *)

Section SessionFacts.
Import Sessions.
Context (digest : string -> string) (admin : string) (lookupRole : option (jsval -> jsval)).
(** SHA-256, in hexadecimal: no two tokens that are used have the same digest. *)
Context (Hinj : Inj (=) (=) digest) (Hhex : forall t, starts_with Tokens.SESSION_PREFIX (digest t) = false).

Inductive op :=
  | Login (username ttlMs extra : jsval) (random : string)
  | Verify (token : string)
  | Logout (token : string)
  | LogoutUser (username : jsval) (exceptToken : string)
  | Restart.

Definition step (d : store) (now : Z) (o : op) : store :=
  match o with
  | Login username ttlMs extra random => (createPanelSession digest lookupRole d username ttlMs extra random now true).1
  | Verify token => (verifyPanelSession digest admin lookupRole d token now true).1
  | Logout token => revokePanelSession digest d token now true
  | LogoutUser username exceptToken => (revokePanelSessionsForUser digest d username exceptToken now true).1
  | Restart => boot digest d now
  end.
Definition run (d : store) (ops : list (Z * op)) : store := fold_left (fun d o => step d o.1 o.2) ops d.

(** The specification: who holds each token, and until when. *)
Notation leases := (gmap string (jsval * num)).
Definition lease_step (m : leases) (now : Z) (o : op) : leases :=
  match o with
  | Login username ttlMs extra random =>
    <[(Tokens.SESSION_PREFIX ++ random)%string := (username, num_add (num_of_Z now) (to_number (session_options ttlMs extra).1))]> m
  | Verify _ | Restart => m
  | Logout token => delete token m
  | LogoutUser username exceptToken =>
    let name := str_or_empty username in
    if nonempty name then filter (fun p => is_str p.2.1 name = false \/ (p.1 = exceptToken /\ nonempty exceptToken = true)) m else m
  end.
Definition held (ops : list (Z * op)) : leases := fold_left (fun m o => lease_step m o.1 o.2) ops ∅.

Fixpoint in_order (a : Z) (ops : list (Z * op)) (b : Z) : Prop :=
  match ops with [] => (a <= b)%Z | o :: r => (a <= o.1)%Z /\ in_order o.1 r b end.

Definition entry_ok (m : leases) (p : string * jsval) : Prop :=
  exists token user exp, p.1 = digest token /\ m !! token = Some (user, exp) /\
    is_obj p.2 = true /\ p.2?."user" = user /\ p.2?."exp" = JNum exp.
Definition file_fields (d : store) : fields := match file d with Some raw => entries (raw ||| JObj []) | None => [] end.

Definition related (now : Z) (d : store) (m : leases) : Prop :=
  NoDup (map fst (sessions d)) /\ (forall p, p ∈ sessions d -> entry_ok m p) /\
  (forall p, p ∈ file_fields d -> alive now p.2 = true -> entry_ok m p) /\
  (forall token user exp, m !! token = Some (user, exp) ->
     starts_with Tokens.SESSION_PREFIX token = true /\
     (num_ltb (num_of_Z now) exp = true ->
      has_key (digest token) (sessions d) = true /\ exists s, (digest token, s) ∈ file_fields d /\ entry_ok m (digest token, s))).

Lemma entry_inv m k s token user exp : entry_ok m (k, s) -> k = digest token -> m !! token = Some (user, exp) ->
  is_obj s = true /\ s?."user" = user /\ s?."exp" = JNum exp.
Proof. intros (t & u & e & Hk & Hm & Ho & Hu & He) -> Hm'. cbn in *. apply (inj digest) in Hk as <-. rewrite Hm in Hm'. by simplify_eq. Qed.

Lemma has_key_elem k (f : fields) : has_key k f = true -> (k, assoc k f) ∈ f.
Proof.
  induction f as [|[k' v] f IH]; [done|]. cbn. destruct (String.eqb_spec k k') as [->|]; [by left|]. intros H. right. by apply IH.
Qed.

Lemma set_field_elem k v f p : NoDup (map fst f) -> p ∈ set_field k v f -> p = (k, v) \/ p ∈ f /\ p.1 <> k.
Proof.
  induction f as [|[k' w] f IH]; cbn [map]; intros Hn H.
  - cbn in H. apply list_elem_of_singleton in H. by left.
  - apply NoDup_cons in Hn as (Hk & Hn). cbn in H, Hk. destruct (String.eqb_spec k k') as [->|Hne]; apply elem_of_cons in H as [->|H]; [by left| | |].
    + right. split; [by right|]. intros <-. apply Hk. by apply (list_elem_of_fmap_2 fst) in H.
    + right. split; [by left|done].
    + destruct (IH Hn H) as [->|(Hin & Hp)]; [by left|]. right. split; [by right|done].
Qed.

Lemma set_field_alive k v (f : fields) p : p ∈ f -> p.1 <> k -> p ∈ set_field k v f.
Proof.
  induction f as [|[k' w] f IH]; [by intros ?%not_elem_of_nil|]. intros H Hp. cbn. apply elem_of_cons in H as [->|H]; cbn in Hp.
  - rewrite (proj2 (String.eqb_neq k k')) by congruence. by left.
  - destruct (String.eqb k k'); right; auto.
Qed.

Lemma sessions_later a b d m : (a <= b)%Z -> related a d m -> related b d m.
Proof.
  intros Hab (Hn & Hs & Hf & Hc). assert (Hle : num_leb (num_of_Z a) (num_of_Z b) = true) by by apply num_leb_Z. split_and!; [done|done| |].
  - intros p Hp Ha. apply Hf; [done|]. unfold alive in *. apply andb_true_iff in Ha as (-> & Ha). by apply (num_leb_ltb_trans _ (num_of_Z b)).
  - intros token user exp Hm. destruct (Hc _ _ _ Hm) as (Hp & Hl). split; [done|]. intros He. apply Hl. by apply (num_leb_ltb_trans _ (num_of_Z b)).
Qed.

Lemma file_saved d now : file_fields (saveSessions d now true) = List.filter (fun p => alive now p.2) (sessions d).
Proof. done. Qed.

Lemma entry_alive m now k s token user exp : entry_ok m (k, s) -> k = digest token -> m !! token = Some (user, exp) ->
  alive now s = num_ltb (num_of_Z now) exp.
Proof. intros H Hk Hm. destruct (entry_inv _ _ _ _ _ _ H Hk Hm) as (Ho & _ & He). unfold alive. rewrite He. by destruct s. Qed.

(** A save brings the file up to date with the memory. *)
Lemma saved now d m :
  NoDup (map fst (sessions d)) -> (forall p, p ∈ sessions d -> entry_ok m p) ->
  (forall token user exp, m !! token = Some (user, exp) -> starts_with Tokens.SESSION_PREFIX token = true /\
     (num_ltb (num_of_Z now) exp = true -> has_key (digest token) (sessions d) = true)) ->
  related now (saveSessions d now true) m.
Proof.
  intros Hn Hs Hc. split_and!; [done|done| |].
  - intros p Hp _. rewrite file_saved in Hp. apply list_elem_of_In, List.filter_In in Hp as (Hp & _). apply Hs. by apply list_elem_of_In.
  - intros token user exp Hm. destruct (Hc _ _ _ Hm) as (Hp & Hl). split; [done|]. intros He. specialize (Hl He). split; [done|].
    assert (Hin := has_key_elem _ _ Hl). exists (assoc (digest token) (sessions d)). split; [|by apply Hs]. rewrite file_saved.
    apply list_elem_of_In, List.filter_In. split; [by apply list_elem_of_In|]. cbn. by rewrite (entry_alive m now _ _ token user exp (Hs _ Hin) eq_refl Hm).
Qed.

(** A write of a session that the specification has. *)
Lemma written m m' k v f : NoDup (map fst f) -> (forall p, p ∈ f -> entry_ok m p) -> entry_ok m' (k, v) ->
  (forall token, digest token <> k -> m' !! token = m !! token) ->
  NoDup (map fst (set_field k v f)) /\ (forall p, p ∈ set_field k v f -> entry_ok m' p).
Proof.
  intros Hn Hs Hv Hsame. split; [by apply set_field_nodup|]. intros p Hp. apply (set_field_elem _ _ _ _ Hn) in Hp as [->|(Hp & Hne)]; [done|].
  destruct (Hs _ Hp) as (t & u & e & Hk & Hm & Hr). exists t, u, e. split; [done|]. split; [|done]. rewrite <- Hm. apply Hsame. congruence.
Qed.

Lemma with_role_ok m k s : entry_ok m (k, s) -> entry_ok m (k, with_role admin lookupRole s).
Proof.
  intros (t & u & e & Hk & Hm & Ho & Hu & He). exists t, u, e. split_and!; [done|done| | |]; cbn [snd] in *; unfold with_role.
  - destruct (_ && _); cbn zeta; [|by destruct (truthy _)]. by destruct (truthy _).
  - destruct (_ && _); cbn zeta; destruct (truthy _); rewrite ?get_with_field_ne by (done || by destruct s); done.
  - destruct (_ && _); cbn zeta; destruct (truthy _); rewrite ?get_with_field_ne by (done || by destruct s); done.
Qed.

Lemma loaded m now l f : NoDup (map fst f) -> (forall p, p ∈ f -> entry_ok m p) ->
  (forall p, p ∈ l -> alive now p.2 = true -> entry_ok m p) ->
  let g := fold_left (load_entry digest now) l f in
  NoDup (map fst g) /\ (forall p, p ∈ g -> entry_ok m p) /\ (forall k, has_key k f = true -> has_key k g = true) /\
  (forall p, p ∈ l -> alive now p.2 = true -> has_key p.1 g = true).
Proof.
  revert f. induction l as [|[k s] l IH]; intros f Hn Hs Hl; cbn zeta.
  { split_and!; [done|done|done|]. by intros p ?%not_elem_of_nil. }
  cbn [fold_left]. unfold load_entry at 2 4 6 8. cbn [fst snd]. destruct (alive now s) eqn:Ha.
  - destruct (Hl (k, s) ltac:(by left) Ha) as (t & u & e & Hk & Hm & Ho & Hu & He). cbn [fst snd] in *.
    assert (Hkey : stored_key digest k = k) by by unfold stored_key; rewrite Hk, Hhex.
    rewrite Hkey. destruct (written m m k (session (s?."user") (s?."role" ||| JNull) (s?."exp")) f Hn Hs) as (Hn' & Hs'); [|done|].
    { exists t, u, e. by split_and!. }
    destruct (IH _ Hn' Hs' ltac:(intros; apply Hl; [by right|done])) as (H1 & H2 & H3 & H4). split_and!; [done|done| |].
    + intros k' Hk'. apply H3. rewrite has_key_set, Hk'. apply orb_true_r.
    + intros p Hp Hpa. apply elem_of_cons in Hp as [->|Hp]; [|by apply H4]. apply H3. rewrite has_key_set. cbn. by rewrite String.eqb_refl.
  - destruct (IH _ Hn Hs ltac:(intros; apply Hl; [by right|done])) as (H1 & H2 & H3 & H4). split_and!; [done|done|done|].
    intros p Hp Hpa. apply elem_of_cons in Hp as [->|Hp]; [cbn in Hpa; congruence|by apply H4].
Qed.

Lemma load_related now f d m :
  NoDup (map fst f) -> (forall p, p ∈ f -> entry_ok m p) ->
  related now d m -> related now (loadSessions digest {| sessions := f; file := file d |} now) m.
Proof.
  intros Hn Hs (Hdn & Hds & Hf & Hc).
  assert (Hl : loadSessions digest {| sessions := f; file := file d |} now =
    {| sessions := fold_left (load_entry digest now) (file_fields d) f; file := file d |}).
  { unfold loadSessions, file_fields. cbn [file sessions]. by destruct (file d). }
  rewrite Hl. destruct (loaded m now _ f Hn Hs Hf) as (H1 & H2 & H3 & H4). split_and!; [done|done|exact Hf|].
  intros token user exp Hm. destruct (Hc _ _ _ Hm) as (Hp & Ha). split; [done|]. intros He. destruct (Ha He) as (_ & s & Hin & Hok).
  split; [|by exists s]. cbn [sessions].
  apply (H4 _ Hin). cbn [snd]. by rewrite (entry_alive m now _ _ token user exp Hok eq_refl Hm).
Qed.

Lemma in_memory m k (f : fields) : (forall p, p ∈ f -> entry_ok m p) -> truthy (assoc k f) = has_key k f.
Proof.
  intros Hs. destruct (has_key k f) eqn:E; [|by rewrite (no_key_assoc _ _ E)].
  destruct (Hs _ (has_key_elem _ _ E)) as (? & ? & ? & _ & _ & Ho & _). cbn in Ho. by destruct (assoc k f).
Qed.

Lemma deleted k (f : fields) p : p ∈ del_field k f <-> p ∈ f /\ p.1 <> k.
Proof.
  unfold del_field. rewrite !list_elem_of_In, List.filter_In. split; intros (H & Hk); (split; [done|]).
  - apply negb_true_iff, String.eqb_neq in Hk. congruence.
  - apply negb_true_iff, String.eqb_neq. congruence.
Qed.

Lemma nodup_filter (P : string * jsval -> bool) (f : fields) : NoDup (map fst f) -> NoDup (map fst (List.filter P f)).
Proof. intros H. eapply sublist_NoDup; [exact H|]. apply (fmap_sublist fst), filtered_sublist. Qed.

(** Sessions leave the memory with the leases that end. *)
Lemma removed now d m m' (keep : string * jsval -> bool) :
  related now d m -> (forall t u e, m' !! t = Some (u, e) -> m !! t = Some (u, e)) ->
  (forall p, entry_ok m p -> keep p = true -> entry_ok m' p) ->
  (forall t u e s, m' !! t = Some (u, e) -> num_ltb (num_of_Z now) e = true -> entry_ok m (digest t, s) -> keep (digest t, s) = true) ->
  related now (saveSessions {| sessions := List.filter keep (sessions d); file := file d |} now true) m'.
Proof.
  intros (Hn & Hs & Hf & Hc) Hsub Hkeep Hstay. apply saved; cbn [sessions].
  - by apply nodup_filter.
  - intros p Hp. apply list_elem_of_In, List.filter_In in Hp as (Hp & Hk). apply Hkeep; [|done]. apply Hs. by apply list_elem_of_In.
  - intros t u e Hm. destruct (Hc _ _ _ (Hsub _ _ _ Hm)) as (Hp & Hl). split; [done|]. intros He. destruct (Hl He) as (Hk & _).
    apply has_key_elem in Hk. apply (keys_has_key _ (JObj (List.filter keep (sessions d)))).
    change (digest t ∈ map fst (List.filter keep (sessions d))). apply list_elem_of_fmap. exists (digest t, assoc (digest t) (sessions d)).
    split; [done|]. apply list_elem_of_In, List.filter_In. split; [by apply list_elem_of_In|]. by apply (Hstay t u e); auto.
Qed.

Lemma starts_with_app p s : starts_with p (p ++ s)%string = true.
Proof. induction p as [|c p IH]; [done|]. cbn. by rewrite Ascii.eqb_refl. Qed.

Lemma login_related now d m username ttlMs extra random : related now d m ->
  related now (step d now (Login username ttlMs extra random)) (lease_step m now (Login username ttlMs extra random)).
Proof.
  intros (Hn & Hs & Hf & Hc). cbn [step lease_step]. unfold createPanelSession. destruct (session_options ttlMs extra) as [ttl e]. cbn [fst].
  set (tok := (Tokens.SESSION_PREFIX ++ random)%string). set (exp := num_add _ _).
  destruct (written m (<[tok := (username, exp)]> m) (digest tok) (session username (e?."role" ||| role_of lookupRole username ||| JStr "admin") (JNum exp))
    (sessions d) Hn Hs) as (Hn' & Hs').
  { exists tok, username, exp. rewrite lookup_insert_eq. by split_and!. }
  { intros t Ht. apply lookup_insert_ne. congruence. }
  apply saved; cbn [sessions]; [exact Hn'|exact Hs'|]. intros t u x. destruct (decide (t = tok)) as [->|Hne].
  - rewrite lookup_insert_eq. intros [= <- <-]. split; [apply starts_with_app|]. intros _. rewrite has_key_set. unfold panelSessionKey. by rewrite String.eqb_refl.
  - rewrite lookup_insert_ne by congruence. intros Hm. destruct (Hc _ _ _ Hm) as (Hp & Hl). split; [done|]. intros He.
    rewrite has_key_set. destruct (Hl He) as (-> & _). apply orb_true_r.
Qed.

Lemma logout_related now d m token : related now d m -> related now (step d now (Logout token)) (lease_step m now (Logout token)).
Proof.
  intros H. cbn [step lease_step]. unfold revokePanelSession. destruct (nonempty token) eqn:E.
  - apply (removed now d m (delete token m) (fun p => negb (String.eqb (digest token) p.1)) H).
    + intros t u e Hm. apply lookup_delete_Some in Hm as (_ & Hm). exact Hm.
    + intros p (t & u & e & Hk & Hm & Hr) Hkeep. exists t, u, e. split; [done|]. split; [|done]. rewrite lookup_delete_ne; [done|].
      intros <-. rewrite Hk, String.eqb_refl in Hkeep. done.
    + intros t u e s Hm _ _. apply lookup_delete_Some in Hm as (Hne & _). cbn. apply negb_true_iff, String.eqb_neq. intros Hd. apply (inj digest) in Hd. congruence.
  - replace (delete token m) with m; [exact H|]. symmetry. apply delete_id. destruct (m !! token) as [[u e]|] eqn:Em; [|done].
    destruct H as (_ & _ & _ & Hc). destruct (Hc _ _ _ Em) as (Hp & _). destruct token; done.
Qed.

Lemma filter_none {A} (P : A -> bool) l : length (List.filter P l) = 0%nat -> List.filter (fun x => negb (P x)) l = l.
Proof. induction l as [|x l IH]; [done|]. cbn. destruct (P x); [done|]. cbn. intros H. by rewrite IH. Qed.

Lemma logout_user_related now d m username except : related now d m ->
  related now (step d now (LogoutUser username except)) (lease_step m now (LogoutUser username except)).
Proof.
  intros H. cbn [step lease_step]. unfold revokePanelSessionsForUser. destruct (nonempty (str_or_empty username)) eqn:En; cbn [negb]; [|exact H].
  set (gone := revoked _ _). set (m' := filter _ m).
  assert (Hgone : forall t u e s, entry_ok m (digest t, s) -> m !! t = Some (u, e) ->
    gone (digest t, s) = is_str u (str_or_empty username) && negb (nonempty except && String.eqb (digest t) (digest except))).
  { intros t u e s Hok Hm. destruct (entry_inv _ _ _ _ _ _ Hok eq_refl Hm) as (_ & Hu & _). unfold gone, revoked, panelSessionKey. cbn [fst snd]. rewrite Hu. by destruct (nonempty except). }
  assert (Hm' : forall t u e, m' !! t = Some (u, e) <-> m !! t = Some (u, e) /\ (is_str u (str_or_empty username) && negb (nonempty except && String.eqb (digest t) (digest except))) = false).
  { intros t u e. unfold m'. rewrite map_lookup_filter_Some. cbn [fst snd]. apply and_iff_compat_l. split.
    - intros [->|(-> & ->)]; [done|]. rewrite String.eqb_refl. by rewrite andb_false_r.
    - intros Hb. apply andb_false_iff in Hb as [Hb|Hb]; [by left|]. right. apply negb_false_iff, andb_true_iff in Hb as (-> & Hb). apply String.eqb_eq, (inj digest) in Hb. done. }
  assert (Hkeep : forall p, entry_ok m p -> negb (gone p) = true -> entry_ok m' p).
  { intros [k s] Hok Hk. assert (Hok' := Hok). destruct Hok as (t & u & e & Ek & Hm & Hr). cbn [fst] in Ek. subst k. exists t, u, e. split; [done|]. split; [|done].
    apply Hm'. split; [done|]. apply negb_true_iff in Hk. by rewrite <- (Hgone t u e s). }
  cbn zeta. destruct (_ =? 0)%nat eqn:E0; cbn [fst].
  - apply Nat.eqb_eq in E0. assert (Hid : List.filter (fun p => negb (gone p)) (sessions d) = sessions d) by by apply filter_none.
    rewrite Hid. destruct H as (Hn & Hs & Hf & Hc).
    assert (Hall : forall p, p ∈ sessions d -> negb (gone p) = true).
    { intros p Hp. rewrite <- Hid in Hp. apply list_elem_of_In, List.filter_In in Hp as (_ & Hp). exact Hp. }
    split_and!; cbn [sessions]; [done|by intros p Hp; apply Hkeep; auto| |].
    + intros [k s] Hp Ha. change (file_fields _) with (file_fields d) in Hp. assert (Hok := Hf _ Hp Ha). destruct Hok as (t & u & e & Hk & Hm & Hr).
      assert (Hok := Hf _ Hp Ha). apply Hkeep; [exact Hok|]. cbn [fst] in Hk. subst k. rewrite (Hgone t u e s Hok Hm).
      cbn [snd] in Ha. rewrite (entry_alive m now _ _ t u e Hok eq_refl Hm) in Ha. destruct (Hc _ _ _ Hm) as (_ & Hl). destruct (Hl Ha) as (Hk & _).
      apply has_key_elem in Hk. rewrite <- (Hgone t u e _ (Hs _ Hk) Hm). by apply Hall.
    + intros t u e Hm. apply Hm' in Hm as (Hm & Hb). destruct (Hc _ _ _ Hm) as (Hp & Hl). split; [done|]. intros He. destruct (Hl He) as (Hk & s & Hin & Hok).
      split; [done|]. exists s. split; [done|]. apply Hkeep; [done|]. by rewrite (Hgone t u e s Hok Hm), Hb.
  - apply (removed now d m m' (fun p => negb (gone p)) H); [by intros t u e Hm; apply Hm' in Hm as (Hm & _)|exact Hkeep|].
    intros t u e s Hm _ Hok. apply Hm' in Hm as (Hm & Hb). by rewrite (Hgone t u e s Hok Hm), Hb.
Qed.

Lemma num_ltb_asym a b : num_ltb a b = true -> num_ltb b a = false.
Proof. destruct a as [x| | |], b as [y| | |]; try done. cbn. rewrite !negb_true_iff, negb_false_iff, Qle_bool_false, Qle_bool_iff. lra. Qed.

Lemma verify_spec now d m token : related now d m ->
  let r := verifyPanelSession digest admin lookupRole d token now true in
  related now r.1 m /\
  (truthy r.2 = true -> exists user exp, m !! token = Some (user, exp) /\ r.2?."user" = user /\ num_ltb exp (num_of_Z now) = false) /\
  (forall user exp, m !! token = Some (user, exp) -> num_ltb (num_of_Z now) exp = true -> truthy r.2 = true).
Proof.
  intros H. cbn zeta. unfold verifyPanelSession. destruct (starts_with _ token) eqn:Ep; cbn [negb].
  2: { split_and!; [done|done|]. intros u e Hm. destruct H as (_ & _ & _ & Hc). destruct (Hc _ _ _ Hm) as (Hp & _). congruence. }
  unfold panelSessionKey. set (d1 := if truthy _ then d else _).
  assert (H1 : related now d1 m).
  { unfold d1. destruct (truthy _); [done|]. destruct d as [ss f]. apply (load_related now ss {| sessions := ss; file := f |}); try done; apply H. }
  clearbody d1. destruct H1 as (Hn & Hs & Hf & Hc). rewrite (in_memory m _ _ Hs). destruct (has_key (digest token) (sessions d1)) eqn:Ek; cbn [negb].
  2: { split_and!; [by split_and!|done|]. intros u e Hm He. destruct (Hc _ _ _ Hm) as (_ & Hl). destruct (Hl He) as (Hk & _). congruence. }
  assert (Hok := Hs _ (has_key_elem _ _ Ek)). set (s := assoc _ _) in *. destruct Hok as (t & u & e & Hk & Hm & Ho & Hu & He). cbn [fst snd] in *.
  apply (inj digest) in Hk as <-. rewrite He. cbn [to_number].
  assert (Hok : entry_ok m (digest token, s)) by by exists token, u, e.
  destruct (num_ltb e (num_of_Z now)) eqn:Ex; cbn [fst snd].
  - split_and!; [|done|].
    + apply (removed now d1 m m (fun p => negb (String.eqb (digest token) p.1))); [by split_and!|done|done|].
      intros t u' e' s' Hm' Ha _. cbn. apply negb_true_iff, String.eqb_neq. intros Hd. apply (inj digest) in Hd as <-.
      rewrite Hm in Hm'. injection Hm' as <- <-. apply num_ltb_asym in Ha. congruence.
    + intros u' e' Hm' Ha. rewrite Hm in Hm'. injection Hm' as <- <-. apply num_ltb_asym in Ha. congruence.
  - assert (Hrole := with_role_ok _ _ _ Hok). destruct (entry_inv _ _ _ _ _ _ Hrole eq_refl Hm) as (Hro & Hru & _).
    destruct (written m m (digest token) (with_role admin lookupRole s) _ Hn Hs Hrole ltac:(done)) as (Hn' & Hs'). split_and!.
    + split_and!; [exact Hn'|exact Hs'|exact Hf|]. intros t' u' e' Hm'. destruct (Hc _ _ _ Hm') as (Hp & Hl). split; [done|]. intros Ha.
      destruct (Hl Ha) as (Hk' & Hfile). split; [|exact Hfile]. cbn [sessions]. rewrite has_key_set, Hk'. apply orb_true_r.
    + intros _. by exists u, e.
    + intros _ _ _ _. by destruct (with_role admin lookupRole s).
Qed.

Lemma restart_related now d m : related now d m -> related now (boot digest d now) m.
Proof.
  intros H. apply (load_related now [] d); [constructor|by intros p ?%not_elem_of_nil|exact H].
Qed.

Lemma step_related now d m o : related now d m -> related now (step d now o) (lease_step m now o).
Proof.
  destruct o; intros H.
  - by apply login_related.
  - by apply verify_spec.
  - by apply logout_related.
  - by apply logout_user_related.
  - by apply restart_related.
Qed.

Lemma run_related a ops b d m : in_order a ops b -> related a d m ->
  related b (run d ops) (fold_left (fun m o => lease_step m o.1 o.2) ops m).
Proof.
  revert a d m. induction ops as [|o ops IH]; intros a d m Ht H; cbn [run fold_left].
  - by apply (sessions_later a).
  - destruct Ht as (Ha & Ht). apply (IH o.1); [exact Ht|]. apply step_related. by apply (sessions_later a).
Qed.

Definition no_sessions : store := {| sessions := []; file := None |}.

Lemma no_sessions_related a : related a no_sessions ∅.
Proof.
  split_and!; [constructor|by intros p ?%not_elem_of_nil|by intros p ?%not_elem_of_nil|]. intros t u e. by rewrite lookup_empty.
Qed.

End SessionFacts.


(** A digest for examples. *)
Definition plain_digest (t : string) : string := ("#" ++ t)%string.
Definition two_logins : list (Z * op) :=
  [(0%Z, Login (JStr "root") JUndef JUndef "1"); (5%Z, Login (JStr "root") (jint 100) JUndef "2"); (6%Z, Restart);
   (7%Z, Verify "kin-panel-1"); (8%Z, LogoutUser (JStr "root") "kin-panel-2"); (9%Z, Restart)].


(** A logout whose write fails is undone by the next check, which reads the file again. *)
Example failed_write_revives_session :
  let d := (Sessions.createPanelSession plain_digest None no_sessions (JStr "root") JUndef JUndef "1" 0 true).1 in
  let d := Sessions.revokePanelSession plain_digest d "kin-panel-1" 1 false in
  truthy (Sessions.verifyPanelSession plain_digest "admin" None d "kin-panel-1" 2 true).2 = true.
Proof. vm_compute. reflexivity. Qed.

(** ** Login *)

Section LoginFacts.
Context (scrypt : string -> string -> nat -> num -> num -> num -> option string).

(** What the server attaches: the operators of the database at a time. *)
Definition panel_login (t : fields) (env : jsval) (now : Z) (username password : jsval) : jsval :=
  verifyPanelLogin (Some (fun u p => (Users.authenticate scrypt t u (to_string p) now).2))
                   (Some (fun u => Users.getByUsername t u?."role" ||| JNull)) env username password.

Lemma operator_login t username password now : truthy (Users.authenticate scrypt t username password now).2 = true ->
  let rec := Users.getByUsername t username in
  truthy rec = true /\ is_bool (rec?."enabled") false = false /\ Users.verifyPassword scrypt password (rec?."password_hash") = true /\
  (Users.authenticate scrypt t username password now).2?."username" = rec?."username" /\
  (Users.authenticate scrypt t username password now).2?."role" = rec?."role".
Proof.
  cbn zeta. unfold Users.authenticate. destruct (truthy (Users.getByUsername t username)) eqn:Et; cbn [negb orb]; [|done].
  destruct (is_bool _ false) eqn:Ee; [done|]. destruct (Users.verifyPassword _ _ _); cbn [negb]; [|done]. intros _.
  split_and!; try done; cbn [snd]; unfold Users.publicUserView; cbn [truthy with_field negb get assoc String.eqb]; by apply get_with_field_ne.
Qed.

End LoginFacts.

(** An operator of the database gets in with the password of that operator and in no other way: not when
    disabled, and never with the password of the environment, which is for a name that no
    operator has; the role of the session is the operator's. *)
Theorem login_sound scrypt t env now username password :
  let rec := Users.getByUsername t username in
  let r := panel_login scrypt t env now username password in
  truthy r = true ->
  (truthy (rec?."role") = true ->
     is_bool (rec?."enabled") false = false /\ Users.verifyPassword scrypt (to_string password) (rec?."password_hash") = true /\
     r?."username" = rec?."username" /\ r?."role" = rec?."role") /\
  (truthy (rec?."role") = false -> truthy rec = false ->
     let admin := getPanelAdmin env in
     truthy (admin?."password") = true /\ str_or_empty password = to_string (admin?."password") /\
     str_or_empty username = to_string (admin?."username") /\ r?."role" = JStr "admin").
Proof.
  cbn zeta. unfold panel_login, verifyPanelLogin.
  destruct (truthy (Users.authenticate scrypt t username (to_string password) now).2) eqn:Ea.
  - apply operator_login in Ea as (Ht & He & Hv & Hu & Hr). intros _. split; [|congruence]. intros Hrole. split_and!; [done|done|exact Hu|].
    cbn [get assoc String.eqb]. rewrite Hr. unfold or_else. by rewrite Hrole.
  - intros H. split; intros Hrole.
    + unfold or_else in H. rewrite Hrole in H. rewrite Hrole in H. done.
    + intros _. unfold or_else in H. rewrite Hrole in H. cbn [truthy] in H. unfold env_login in *.
      destruct (truthy (getPanelAdmin env?."password")) eqn:Ep; [|done]. cbn [negb] in *.
      destruct (String.eqb_spec (str_or_empty username) (to_string (getPanelAdmin env?."username"))) as [Eu|]; [|done].
      destruct (String.eqb_spec (str_or_empty password) (to_string (getPanelAdmin env?."password"))) as [Epw|]; [|done].
      unfold or_else. rewrite Hrole. cbn [truthy]. by split_and!.
Qed.

Definition one_operator : fields :=
  [("1", JObj [("id", JStr "1"); ("username", JStr "Ann"); ("password_hash", JStr "scrypt$16384$8$1$aa$00ff"); ("role", JStr "super");
               ("status", JStr "active"); ("deleted_at", JNull)])].

Lemma login_sound_witness :
  let env := JObj [("KIN_ADMIN_USER", JStr "ann"); ("KIN_ADMIN_PASSWORD", JStr "secret")] in
  let hash (p _ : string) (_ : nat) (_ _ _ : num) := if String.eqb p "own" then Some "00ff" else Some "0000" in
  truthy (panel_login hash one_operator env 0 (JStr "ann") (JStr "secret")) = false /\
  (panel_login hash one_operator env 0 (JStr "ann") (JStr "own"))?."role" = JStr "super".
Proof.
  cbn zeta. split; [vm_compute; reflexivity|].
  apply (login_sound (fun p _ _ _ _ _ => if String.eqb p "own" then Some "00ff" else Some "0000") one_operator
    (JObj [("KIN_ADMIN_USER", JStr "ann"); ("KIN_ADMIN_PASSWORD", JStr "secret")]) 0 (JStr "ann") (JStr "own")); vm_compute; reflexivity.
Defined.
