(* ===== verification/Access.v ===== *)
(** * Access to the gateway and its panel (src/src/lib/admin/panel-acl.mjs, src/src/lib/admin/panel-tenant.mjs, [requireAuth]
    of src/src/server.mjs, the guards of src/src/lib/admin/panel-routes.mjs)

    Who a request comes from, which routes a role may call, and which resources a tenant sees.
    The registry of VMs and the pool of proxies are arguments. *)

From stdpp Require Import gmap strings.
From S2P Require Import Prelude.
From S2P Require Import JsValue.
From S2P Require Import JsText.
From S2P Require Import Eligibility.
From S2P Require Import Errors.
From S2P Require Import Users.
From S2P Require Import ApiKeys.
From S2P Require Import Security.
From S2P Require Import SecurityFacts.
#[local] Open Scope string_scope.
#[local] Open Scope list_scope.
#[local] Open Scope js_scope.

(** ** Roles (panel-acl.mjs) *)

Module Acl.

Definition PANEL_VIEWS : list string :=
  ["overview"; "cluster"; "vm"; "import"; "usage"; "proxies"; "models"; "loadtest"; "protocol"; "keys"; "api"; "logs"; "database";
   "settings"; "wrap"; "billing"].

Inductive role := admin | super | user.
#[global] Instance role_eq : EqDecision role.
Proof. solve_decision. Defined.

Definition ROLE_VIEWS (r : role) : list string :=
  match r with
  | user => ["vm"; "proxies"; "keys"; "billing"; "logs"]
  | super => ["overview"; "cluster"; "usage"; "logs"; "vm"]
  | admin => PANEL_VIEWS
  end.
Definition ROLE_CAPS (r : role) : list string :=
  match r with
  | user => ["panel.read"; "vm.read"; "vm.schedule"; "vm.credential_write"; "vm.create"; "vm.delete_owned"; "proxy.write"; "keys.write"; "billing.read"]
  | super => ["panel.read"; "vm.read"; "vm.schedule"]
  | admin => ["*"]
  end.

Definition normalizePanelRole (v : jsval) : role :=
  let r := to_lower (trim (str_or_empty v)) in
  if String.eqb r "admin" then admin else if String.eqb r "super" then super else user.
Definition role_name (r : role) : string := match r with admin => "admin" | super => "super" | user => "user" end.

Definition viewsForRole (v : jsval) : list string := ROLE_VIEWS (normalizePanelRole v).
Definition capabilitiesForRole (v : jsval) : list string := ROLE_CAPS (normalizePanelRole v).
Definition hasCapability (v : jsval) (cap : string) : bool := mem "*" (capabilitiesForRole v) || mem cap (capabilitiesForRole v).
Definition canViewPage (v : jsval) (view : string) : bool := mem view (viewsForRole v).

Record identity := { i_user : jsval; i_role : role; i_source : string }.
Definition panelIdentity (req : jsval) : identity :=
  if is_str (req?."apiKeyKind") "master" then {| i_user := JStr "master"; i_role := admin; i_source := "master_key" |}
  else {| i_user := req?."panelUser" ||| JNull; i_role := normalizePanelRole (req?."panelRole" ||| JStr "user"); i_source := "session" |}.

Definition USER_EXACT_GET : list string :=
  ["/api/panel/me"; "/api/panel/vms"; "/api/panel/proxies"; "/api/panel/proxies/config"; "/api/panel/api-keys"; "/api/panel/request-logs";
   "/api/panel/request-logs/export"; "/api/panel/request-logs/stats"; "/api/panel/billing"].
Definition USER_EXACT_POST : list string := ["/api/panel/vms/create"; "/api/panel/vms/import"; "/api/panel/proxies/import"].
Definition USER_VM_DENIED : list string :=
  ["fleet-status"; "fleet-update"; "reconcile-fingerprints"; "official-cc-bootstrap"; "wrap-cli"; "reset-fingerprint";
   "reconcile-fingerprint"; "seed-settings"; "owner"].

(** A path below a prefix: its first segment, not empty, and what follows the next slash, where there is one. *)
Definition below (prefix path : string) : option (string * option string) :=
  if starts_with prefix path then
    let r := drop_chars (String.length prefix) path in
    let id := before_char "/" r in
    if nonempty id then Some (id, match drop_chars (String.length id) r with String _ rest => Some rest | EmptyString => None end) else None
  else None.
Definition one_segment (prefix path : string) : bool := match below prefix path with Some (_, None) => true | _ => false end.
Definition segment_then (prefix rest path : string) : bool := match below prefix path with Some (_, Some r) => String.eqb r rest | _ => false end.

Definition isRequestLogPath (path : string) : bool :=
  mem path ["/api/panel/request-logs"; "/api/panel/request-logs/export"; "/api/panel/request-logs/stats"] ||
  one_segment "/api/panel/request-logs/" path || segment_then "/api/panel/request-logs/" "attempts" path.
Definition isSuperVmRead (path : string) : bool :=
  negb (String.eqb path "/api/panel/vms/fleet-status") && one_segment "/api/panel/vms/" path.
Definition isSuperSchedule (method path : string) : bool :=
  String.eqb method "POST" &&
  (segment_then "/api/panel/vms/" "schedulable" path || segment_then "/api/panel/vms/" "cooldown/clear" path).

(** A dot of a regular expression is no line break. *)
Definition one_line (s : string) : bool := forallb (fun c => negb (ascii_is 10 10 c || ascii_is 13 13 c)) (list_ascii_of_string s).

Definition userVmPathAllowed (method path : string) : bool :=
  match below "/api/panel/vms/" path with
  | None => false
  | Some (id, rest) =>
    if negb (one_line (default "" rest)) then false
    else
      let rest := default "" rest in
      let head := before_char "/" rest in
      if mem id USER_VM_DENIED || mem head USER_VM_DENIED || starts_with "wrap-cli" rest then false
      else if String.eqb method "GET" then
        if negb (nonempty rest) then true
        else if String.eqb rest "oauth/credential" then false
        else starts_with "oauth/" rest || mem rest ["probe"; "count-tokens"; "test-chat"; "official-cc-bootstrap"]
      else if String.eqb method "POST" then
        if mem id ["create"; "import"] then true
        else if negb (nonempty rest) then false
        else if mem head ["official-cc-bootstrap"; "wrap-cli"; "reset-fingerprint"] then false
        else if String.eqb head "owner" then false
        else mem rest ["schedulable"; "cooldown/clear"; "probe"; "test-chat"; "count-tokens"; "start"; "stop"] || starts_with "oauth/" rest
      else if String.eqb method "DELETE" then negb (nonempty rest)
      else String.eqb method "PUT" && String.eqb rest "oauth/credential"
  end.

Definition userProxyPathAllowed (method path : string) : bool :=
  if String.eqb path "/api/panel/proxies" && mem method ["GET"; "POST"] then true
  else if String.eqb path "/api/panel/proxies/import" && String.eqb method "POST" then true
  else if String.eqb path "/api/panel/proxies/config" then String.eqb method "GET"
  else if String.eqb path "/api/panel/proxies/probe" then false
  else if one_segment "/api/panel/proxies/" path then mem method ["GET"; "PATCH"; "PUT"; "DELETE"]
  else segment_then "/api/panel/proxies/" "reveal" path && String.eqb method "POST".

Definition userKeyPathAllowed (method path : string) : bool :=
  if String.eqb path "/api/panel/api-keys" then mem method ["GET"; "POST"]
  else if one_segment "/api/panel/api-keys/" path then mem method ["GET"; "PATCH"; "DELETE"]
  else (segment_then "/api/panel/api-keys/" "reveal" path || segment_then "/api/panel/api-keys/" "reset" path) && String.eqb method "POST".

Fixpoint to_upper (s : string) : string :=
  match s with
  | EmptyString => EmptyString
  | String c r => String (if is_lower c then ascii_of_nat (nat_of_ascii c - 32) else c) (to_upper r)
  end.
Definition method_of (method : jsval) : string := to_upper (to_string (method ||| JStr "GET")).

Definition isUserAllowed (method path : string) : bool :=
  if String.eqb method "GET" && (mem path USER_EXACT_GET || isRequestLogPath path) then true
  else if String.eqb method "POST" && mem path USER_EXACT_POST then true
  else if starts_with "/api/panel/vms" path then userVmPathAllowed method path
  else if starts_with "/api/panel/proxies" path then userProxyPathAllowed method path
  else starts_with "/api/panel/api-keys" path && userKeyPathAllowed method path.

Definition authorizePanelRoute (method : jsval) (path : string) (r : role) : bool :=
  let m := method_of method in
  match r with
  | admin => true
  | user => isUserAllowed m path
  | super =>
    (String.eqb m "GET" && (mem path ["/api/panel/dashboard"; "/api/panel/usage"; "/api/panel/vms"] || isRequestLogPath path)) ||
    (String.eqb m "GET" && isSuperVmRead path) || isSuperSchedule m path
  end.

Definition mePayload (req : jsval) : jsval :=
  let ident := panelIdentity req in
  JObj [("user", i_user ident); ("role", JStr (role_name (i_role ident))); ("views", jstrs (ROLE_VIEWS (i_role ident)));
        ("capabilities", jstrs (ROLE_CAPS (i_role ident))); ("vm_create_quota", JNum (num_or_zero (req?."panelVmCreateQuota")))].

End Acl.

(** ** Tenants (panel-tenant.mjs) *)

Module Tenant.
Import Acl.

Definition VM_COLLECTION : list string := ["create"; "import"; "fleet-status"; "fleet-update"; "reconcile-fingerprints"].
Definition PROXY_COLLECTION : list string := ["import"; "config"; "probe"].

Definition segment_of (prefix path : string) (collection : list string) : option string :=
  match below prefix path with
  | Some (id, _) => if mem id collection then None else Some id
  | None => None
  end.
Definition panelVmIdFromPath (path : string) : option string := segment_of "/api/panel/vms/" path VM_COLLECTION.

(** The request is of a user, and the resource is missing or of another owner. *)
Definition misses (req row : jsval) (owner : option string) : bool :=
  negb (truthy row) || negb (bool_decide (owner = Ownership.normalizeOwnerId (req?."panelUserId"))).

Definition denyIfUserMissesVm (req : jsval) (getVm : string -> jsval) (path : string) : bool :=
  match i_role (panelIdentity req), panelVmIdFromPath path with
  | user, Some id => misses req (getVm id) (Ownership.vmOwnerId (getVm id))
  | _, _ => false
  end.

Definition denyIfUserCannotDeleteVm (req vm : jsval) : bool :=
  match i_role (panelIdentity req) with
  | admin => false
  | user => negb (Ownership.canUserDeleteVm vm (req?."panelUserId"))
  | super => true
  end.

Definition denyIfUserMissesKey (req : jsval) (keys : fields) (keyId : string) : bool :=
  match i_role (panelIdentity req) with
  | user => let rec := ApiKeys.Repo.getById keys keyId in misses req rec (Ownership.normalizeOwnerId (rec?."user_id"))
  | _ => false
  end.

Definition find_proxy (proxies : list jsval) (id : string) : jsval :=
  default JUndef (List.find (fun p => is_str (p?."id") id) proxies).
Definition denyIfUserMissesProxy (req : jsval) (proxies : list jsval) (path : string) : bool :=
  match i_role (panelIdentity req), segment_of "/api/panel/proxies/" path PROXY_COLLECTION with
  | user, Some id => let row := find_proxy proxies id in misses req row (Ownership.proxyOwnerId row)
  | _, _ => false
  end.

End Tenant.

(** ** Authentication (server.mjs) *)

Record gateway := { g_users : fields; g_keys : ApiKeys.store; g_sessions : Sessions.store; g_buckets : gmap string RateLimiter.bucket }.
Definition with_keys (g : gateway) (k : ApiKeys.store) : gateway :=
  {| g_users := g_users g; g_keys := k; g_sessions := g_sessions g; g_buckets := g_buckets g |}.
Definition with_sessions (g : gateway) (s : Sessions.store) : gateway :=
  {| g_users := g_users g; g_keys := g_keys g; g_sessions := s; g_buckets := g_buckets g |}.
Definition with_buckets (g : gateway) (b : gmap string RateLimiter.bucket) : gateway :=
  {| g_users := g_users g; g_keys := g_keys g; g_sessions := g_sessions g; g_buckets := b |}.

(** What the request is answered with, or what is noted on it. *)
Inductive access := Rejected (error : jsval) | Granted (req : jsval).

Section Authentication.
(** SHA-256 and HMAC of the secret, in hex; the cipher at rest; the name of the administrator of the
    environment; the limits and the key of the configuration. *)
Context (digest hmac : string -> string) (seal : string -> string -> string -> string * string) (secret admin_name : string).
Context (capacity refillPerSec : num) (api_key : string).

Definition lookupRole (t : fields) (user : jsval) : jsval := Users.getByUsername t user?."role" ||| JNull.

Definition missing_key : jsval :=
  makeError (err (ErrorType?."AUTH") (ErrorCode?."MISSING_API_KEY")
    (JStr "Missing credentials. Login at /api/panel/login or provide Authorization Bearer token.") 401).
Definition invalid_key : jsval :=
  makeError (err (ErrorType?."AUTH") (ErrorCode?."INVALID_API_KEY") (JStr "Invalid credentials") 401).
Definition too_many : jsval :=
  makeError (err (ErrorType?."RATE_LIMIT") (ErrorCode?."GATEWAY_RATE_LIMIT") (JStr "Gateway rate limit exceeded. Retry later.") 429).
Definition key_refused (r : ApiKeys.refusal) : jsval :=
  let type := if (r_status r =? 429)%Z then (if includes (r_code r) "quota" then ErrorType?."QUOTA" else ErrorType?."RATE_LIMIT")
              else ErrorType?."PERMISSION" in
  makeError (with_details (err type (JStr (r_code r)) (JStr (r_message r)) (r_status r)) (r_detail r ||| JUndef)).

(** [allowRate]: the request goes on, or is refused. *)
Definition rated (g : gateway) (key : string) (now : Z) (req : jsval) : gateway * access :=
  let '(b, ok) := RateLimiter.allow capacity refillPerSec (g_buckets g) key now in
  (with_buckets g b, if ok then Granted req else Rejected too_many).

Definition session_request (g : gateway) (session : jsval) : jsval :=
  let rec := Users.getByUsername (g_users g) (session?."user") in
  JObj [("panelUser", session?."user"); ("panelRole", session?."role" ||| rec?."role" ||| JStr "user"); ("panelUserId", rec?."id" ||| JNull);
        ("panelVmCreateQuota", rec?."vm_create_quota" ?? jint 0)].
Definition master_request : jsval :=
  JObj [("apiKeyKind", JStr "master"); ("panelRole", JStr "admin"); ("panelUser", JStr "master")].
Definition managed_request (record : jsval) : jsval := JObj [("apiKeyKind", JStr "managed"); ("apiKeyRecord", record)].

Definition managed (g : gateway) (token iv : string) (now : Z) : gateway * access :=
  match ApiKeys.authenticate hmac seal secret (g_keys g) (g_users g) token iv with
  | (k, ApiKeys.Refused _) => (with_keys g k, Rejected invalid_key)
  | (k, ApiKeys.Accepted record) =>
    match ApiKeys.canAccept k (g_users g) record now with
    | (k, Some r) => (with_keys g k, Rejected (key_refused r))
    | (k, None) => rated (with_keys g k) token now (managed_request record)
    end
  end.

(** The credential a request presents; a URIError of the cookies is [None]. *)
Definition presented (headers : jsval) : option string :=
  option_map (fun t => if nonempty t then t else Tokens.extractApiKey headers) (Tokens.extractPanelToken headers).

Definition requireAuth (g : gateway) (headers : jsval) (iv : string) (now : Z) (written : bool) : option (gateway * access) :=
  match presented headers with
  | None => None
  | Some token =>
    Some (if negb (nonempty token) then (g, Rejected missing_key)
          else
            let '(s, session) := Sessions.verifyPanelSession digest admin_name (Some (lookupRole (g_users g))) (g_sessions g) token now written in
            let g := with_sessions g s in
            if truthy session then rated g (String.append "panel:" (to_string (session?."user"))) now (session_request g session)
            else if String.eqb token api_key then rated g token now master_request
            else managed g token iv now)
  end.

(** ** The guards of the panel (panel-routes.mjs) *)

Inductive answer := Unauthenticated (error : jsval) | Forbidden | NotFound | Me (payload : jsval) | Passed (req : jsval).

Definition panel_guards (getVm : string -> jsval) (proxies : list jsval) (method : jsval) (path : string) (req : jsval) : answer :=
  if negb (truthy (req?."panelUser") || is_str (req?."apiKeyKind") "master") then Forbidden
  else if is_str method "GET" && String.eqb path "/api/panel/me" then Me (Acl.mePayload req)
  else if negb (Acl.authorizePanelRoute method path (Acl.i_role (Acl.panelIdentity req))) then Forbidden
  else if Tenant.denyIfUserMissesVm req getVm path || Tenant.denyIfUserMissesProxy req proxies path then NotFound
  else Passed req.
Definition admin_guards (req : jsval) : answer :=
  match Acl.i_role (Acl.panelIdentity req) with Acl.admin => Passed req | _ => Forbidden end.

Definition guarded (guards : jsval -> answer) (g : gateway) (headers : jsval) (iv : string) (now : Z) (written : bool) : option (gateway * answer) :=
  match requireAuth g headers iv now written with
  | None => None
  | Some (g, Rejected e) => Some (g, Unauthenticated e)
  | Some (g, Granted req) => Some (g, guards req)
  end.
Definition handlePanel (getVm : string -> jsval) (proxies : list jsval) (g : gateway) (headers method : jsval) (path iv : string) (now : Z)
    (written : bool) : option (gateway * answer) :=
  if starts_with "/admin" path then guarded admin_guards g headers iv now written
  else guarded (panel_guards getVm proxies method path) g headers iv now written.

End Authentication.

(** ** What passes the guards

    What passes the guards of the panel, and what a role can reach. *)

(** ** Paths *)

Lemma starts_with_split p s : starts_with p s = true -> exists r, s = (p ++ r)%string /\ drop_chars (String.length p) s = r.
Proof.
  revert s. induction p as [|c p IH]; intros s H; [by exists s|]. destruct s as [|d s]; [done|]. cbn in H. apply andb_true_iff in H as (Hc & H).
  apply Ascii.eqb_eq in Hc as <-. destruct (IH s H) as (r & -> & Hr). exists r. by split.
Qed.

Lemma before_char_split c s : exists r, s = (before_char c s ++ r)%string /\ drop_chars (String.length (before_char c s)) s = r /\
  (r = "" \/ exists t, r = String c t).
Proof.
  induction s as [|d s (r & Hs & Hd & Hr)]; [exists ""; by split_and!; [| |left]|]. cbn. destruct (Ascii.eqb_spec c d) as [<-|_].
  - exists (String c s). cbn. split_and!; [done|done|right; by exists s].
  - exists r. cbn. split_and!; [by rewrite <- Hs|done|done].
Qed.

Lemma below_path prefix path id rest : Acl.below prefix path = Some (id, rest) ->
  path = (prefix ++ id ++ match rest with Some r => "/" ++ r | None => "" end)%string.
Proof.
  unfold Acl.below. destruct (starts_with prefix path) eqn:E; [|done]. apply starts_with_split in E as (r & -> & ->).
  destruct (nonempty _); [|done]. intros [= <- <-]. f_equal. destruct (before_char_split "/" r) as (t & Ht & -> & Hc).
  rewrite Ht at 1. f_equal. destruct Hc as [->|(u & ->)]; done.
Qed.

Lemma segment_then_path prefix rest path : Acl.segment_then prefix rest path = true -> exists id, path = (prefix ++ id ++ "/" ++ rest)%string.
Proof.
  unfold Acl.segment_then. destruct (Acl.below prefix path) as [[id [r|]]|] eqn:E; [|done|done]. intros ->%String.eqb_eq. exists id. by apply below_path in E.
Qed.

(** ** Roles *)

(** A supervisor only reads, but for the schedule of a VM. *)
Lemma super_reach method path : Acl.authorizePanelRoute method path Acl.super = true ->
  Acl.method_of method = "GET" \/
  (Acl.method_of method = "POST" /\ exists id, path = ("/api/panel/vms/" ++ id ++ "/schedulable")%string \/ path = ("/api/panel/vms/" ++ id ++ "/cooldown/clear")%string).
Proof.
  unfold Acl.authorizePanelRoute, Acl.isSuperSchedule. cbn zeta. destruct (String.eqb_spec (Acl.method_of method) "GET") as [|_]; [by left|].
  cbn [andb orb]. intros (Hm & H)%andb_true_iff. right. apply String.eqb_eq in Hm. split; [done|].
  apply orb_true_iff in H as [H|H]; apply segment_then_path in H as (id & ->); exists id; [by left|by right].
Qed.

(** Names below [/api/panel/vms/] that stand for an operation on the whole fleet, and operations on a VM that are for an
    operator of the platform. *)
Definition FLEET_NAMES : list string := ["fleet-status"; "fleet-update"; "reconcile-fingerprints"].
Definition OPERATOR_NAMES : list string :=
  ["official-cc-bootstrap"; "wrap-cli"; "reset-fingerprint"; "reconcile-fingerprint"; "seed-settings"; "owner"].
(** What a tenant may call on a VM: to see and probe it, to start, stop and schedule it, to delete it, and to sign it
    in; the credential of the provider can be written, and not be read. *)
Definition TENANT_VM_CALLS : list (string * string) :=
  [("GET", ""); ("GET", "probe"); ("GET", "count-tokens"); ("GET", "test-chat"); ("POST", "schedulable"); ("POST", "cooldown/clear");
   ("POST", "probe"); ("POST", "count-tokens"); ("POST", "test-chat"); ("POST", "start"); ("POST", "stop"); ("DELETE", "");
   ("PUT", "oauth/credential")].
Definition tenant_vm_route (method id rest : string) : Prop :=
  [id; before_char "/" rest] ## FLEET_NAMES ++ OPERATOR_NAMES /\
  ((method, rest) ∈ TENANT_VM_CALLS \/
   (starts_with "oauth/" rest = true /\ (method = "POST" \/ method = "GET" /\ rest <> "oauth/credential")) \/
   (method = "POST" /\ id ∈ ["create"; "import"])).

Lemma mem_false x l : mem x l = false -> x ∉ l.
Proof. intros H Hin. apply mem_spec in Hin. congruence. Qed.

Lemma names_denied l : Forall (fun x => mem x Acl.USER_VM_DENIED = false) l -> l ## FLEET_NAMES ++ OPERATOR_NAMES.
Proof.
  intros H x Hx Hin. rewrite Forall_forall in H. specialize (H x Hx).
  assert (Hd : Forall (fun x => mem x Acl.USER_VM_DENIED = true) (FLEET_NAMES ++ OPERATOR_NAMES)) by (repeat constructor).
  rewrite Forall_forall in Hd. specialize (Hd x Hin). congruence.
Qed.
Lemma user_vm_reach method path id rest : Acl.userVmPathAllowed method path = true -> Acl.below "/api/panel/vms/" path = Some (id, rest) ->
  tenant_vm_route method id (default "" rest).
Proof.
  unfold Acl.userVmPathAllowed. intros H E. rewrite E in H. destruct (negb (Acl.one_line _)); [done|]. cbn zeta in H. set (r := default "" rest) in *.
  destruct (mem id _ || _ || _) eqn:Ed; [done|]. apply orb_false_iff in Ed as ((Hid & Hh)%orb_false_iff & _).
  assert (Hn : [id; before_char "/" r] ## FLEET_NAMES ++ OPERATOR_NAMES) by (apply names_denied; by repeat constructor). split; [exact Hn|].
  clearbody r. assert (Hcalls : forall m l, Forall (fun x => (m, x) ∈ TENANT_VM_CALLS) l -> mem r l = true -> (m, r) ∈ TENANT_VM_CALLS).
  { intros m l Hl Hm%mem_spec. rewrite Forall_forall in Hl. by apply Hl. }
  destruct (String.eqb_spec method "GET") as [->|_].
  { destruct (nonempty r) eqn:En; [|destruct r; [left; in_list|done]]. cbn [negb] in H.
    destruct (String.eqb_spec r "oauth/credential") as [|Hc]; [done|]. apply orb_true_iff in H as [H|H]; [right; left; by auto|]. left.
    apply mem_spec in H. repeat (apply elem_of_cons in H as [H|H]; [first [rewrite H; in_list | idtac]|]); [|by apply not_elem_of_nil in H].
    exfalso. apply (Hn "official-cc-bootstrap"); [rewrite H; in_list|in_list]. }
  destruct (String.eqb_spec method "POST") as [->|_].
  { destruct (mem id ["create"; "import"]) eqn:Em; [right; right; split; [done|by apply mem_spec]|]. destruct (nonempty r); cbn [negb] in H; [|done].
    destruct (mem (before_char "/" r) ["official-cc-bootstrap"; "wrap-cli"; "reset-fingerprint"]); [done|]. destruct (String.eqb (before_char "/" r) "owner"); [done|]. apply orb_true_iff in H as [H|H]; [left|right; left; by auto].
    eapply Hcalls; [|exact H]. repeat (constructor; [in_list|]). constructor. }
  left. destruct (String.eqb_spec method "DELETE") as [->|_]; [destruct r; [in_list|done]|].
  apply andb_true_iff in H as (->%String.eqb_eq & Hr%String.eqb_eq). rewrite Hr. in_list.
Qed.

Lemma exact_get_below path : path ∈ Acl.USER_EXACT_GET -> Acl.below "/api/panel/vms/" path = None.
Proof.
  intros H. assert (Hf : Forall (fun p => Acl.below "/api/panel/vms/" p = None) Acl.USER_EXACT_GET) by by vm_compute; repeat constructor.
  rewrite Forall_forall in Hf. by apply Hf.
Qed.
Lemma exact_post_below path id rest : path ∈ Acl.USER_EXACT_POST -> Acl.below "/api/panel/vms/" path = Some (id, rest) ->
  tenant_vm_route "POST" id (default "" rest).
Proof.
  intros H E. unfold Acl.USER_EXACT_POST in H. repeat (apply elem_of_cons in H as [->|H]); [..|by apply not_elem_of_nil in H]; vm_compute in E; try done; injection E as <- <-.
  all: split; [apply names_denied; by repeat constructor|right; right; split; [done|in_list]].
Qed.

Lemma request_log_not_vm path id rest : Acl.isRequestLogPath path = true -> Acl.below "/api/panel/vms/" path = Some (id, rest) -> False.
Proof.
  unfold Acl.isRequestLogPath, Acl.one_segment, Acl.segment_then. intros H E. apply below_path in E as ->.
  assert (Hb : Acl.below "/api/panel/request-logs/" ("/api/panel/vms/" ++ id ++ match rest with Some r => "/" ++ r | None => "" end)%string = None) by done.
  rewrite Hb in H. cbn in H. done.
Qed.

Lemma user_reach method path id rest : Acl.authorizePanelRoute method path Acl.user = true ->
  Acl.below "/api/panel/vms/" path = Some (id, rest) -> tenant_vm_route (Acl.method_of method) id (default "" rest).
Proof.
  unfold Acl.authorizePanelRoute, Acl.isUserAllowed. cbn zeta. intros H E.
  destruct (_ && (mem path _ || _)) eqn:E1.
  { apply andb_true_iff in E1 as (_ & E1). apply orb_true_iff in E1 as [E1|E1]; [|by destruct (request_log_not_vm _ _ _ E1 E)].
    apply mem_spec, exact_get_below in E1. congruence. }
  destruct (_ && mem path _) eqn:E2.
  { apply andb_true_iff in E2 as (->%String.eqb_eq & E2). apply mem_spec in E2. by apply (exact_post_below path). }
  destruct (starts_with "/api/panel/vms" path) eqn:E3; [by eapply user_vm_reach|].
  exfalso. apply below_path in E as ->. done.
Qed.

(** ** The guards *)

Section Guards.
Context (digest hmac : string -> string) (seal : string -> string -> string -> string * string) (secret admin_name : string).
Context (capacity refillPerSec : num) (api_key : string).
#[local] Notation auth := (requireAuth digest hmac seal secret admin_name capacity refillPerSec api_key).
#[local] Notation handle := (handlePanel digest hmac seal secret admin_name capacity refillPerSec api_key).

(** A session of a user is in force: by the table of leases, the token was issued to the user, has not been revoked and
    is not over. *)
Definition in_force (ops : list (Z * SecurityFacts.op)) (token : string) (user : jsval) (now : Z) : Prop :=
  exists exp, SecurityFacts.held ops !! token = Some (user, exp) /\ num_ltb exp (num_of_Z now) = false.
(** The sessions that the gateway has are those of the calls [ops] so far. *)
Definition sessions_from (ops : list (Z * SecurityFacts.op)) (g : gateway) (now : Z) : Prop :=
  exists admin_name lookup start, SecurityFacts.in_order start ops now /\
    g_sessions g = SecurityFacts.run digest admin_name lookup SecurityFacts.no_sessions ops.

Definition operator_request (ops : list (Z * SecurityFacts.op)) (g : gateway) (headers : jsval) (now : Z) (req : jsval) : Prop :=
  exists token, presented headers = Some token /\
    ((exists session, in_force ops token (session?."user") now /\ req = session_request g session) \/
     (token = api_key /\ req = master_request)).

(** What a check of a session answers does not depend on whether the file could be written. *)
Lemma verify_written lookup d token now w : (Sessions.verifyPanelSession digest admin_name lookup d token now w).2 =
  (Sessions.verifyPanelSession digest admin_name lookup d token now true).2.
Proof. unfold Sessions.verifyPanelSession. by repeat case_match. Qed.
Lemma verified ops g token now w : Inj (=) (=) digest -> (forall t, starts_with Tokens.SESSION_PREFIX (digest t) = false) -> sessions_from ops g now ->
  let s := (Sessions.verifyPanelSession digest admin_name (Some (lookupRole (g_users g))) (g_sessions g) token now w).2 in
  truthy s = true -> in_force ops token (s?."user") now.
Proof.
  intros Hinj Hhex (name & lookup & start & Ht & ->). cbn zeta. rewrite verify_written.
  pose proof (SecurityFacts.run_related digest name lookup Hinj Hhex start ops now _ _ Ht (SecurityFacts.no_sessions_related digest start)) as Hr.
  destruct (SecurityFacts.verify_spec digest admin_name (Some (lookupRole (g_users g))) Hinj Hhex now _ _ token Hr) as (_ & H & _).
  intros Hs. destruct (H Hs) as (user & exp & Hm & -> & He). by exists exp.
Qed.

Lemma rated_granted g key now r g' req : rated capacity refillPerSec g key now r = (g', Granted req) -> req = r.
Proof. unfold rated. destruct (RateLimiter.allow _ _ _ _ _) as [b [|]]; congruence. Qed.

Lemma granted ops g headers iv now written g' req : Inj (=) (=) digest -> (forall t, starts_with Tokens.SESSION_PREFIX (digest t) = false) ->
  sessions_from ops g now -> auth g headers iv now written = Some (g', Granted req) ->
  operator_request ops g headers now req \/ exists record, req = managed_request record.
Proof.
  intros Hinj Hhex Hops. unfold requireAuth, operator_request. destruct (presented headers) as [token|]; [|done]. intros [= H].
  destruct (negb (nonempty token)); [done|]. pose proof (verified ops g token now written Hinj Hhex Hops) as Hv.
  destruct (Sessions.verifyPanelSession _ _ _ _ _ _ _) as [d s]. cbn [snd] in Hv.
  destruct (truthy s) eqn:Et.
  - apply rated_granted in H as ->. left. exists token. split; [done|]. left. exists s. split; [by apply Hv|done].
  - destruct (String.eqb_spec token api_key) as [->|_].
    + apply rated_granted in H as ->. left. exists api_key. split; [done|]. by right.
    + right. unfold managed in H. destruct (ApiKeys.authenticate _ _ _ _ _ _ _) as [k [reason|record]]; [done|].
      destruct (ApiKeys.canAccept _ _ _ _) as [k' [r|]]; [done|]. apply rated_granted in H as ->. by exists record.
Qed.

(** The operator of a request, by the table of users; none: he is no longer in it. *)
Definition operator_id (g : gateway) (req : jsval) : option string :=
  Ownership.normalizeOwnerId ((Users.getByUsername (g_users g) (req?."panelUser"))?."id").
(** A resource is there, and is the operator's; who is not in the table has what is nobody's. *)
Definition belongs (g : gateway) (req row : jsval) (owner : option string) : Prop :=
  truthy row = true /\ match operator_id g req with Some u => owner = Some u | None => owner = None end.

Lemma misses_false ops g headers now req row owner : Acl.i_role (Acl.panelIdentity req) = Acl.user -> operator_request ops g headers now req ->
  Tenant.misses req row owner = false -> belongs g req row owner.
Proof.
  intros Hu (token & _ & [(session & _ & ->)|[_ ->]]); [|done]. unfold Tenant.misses, belongs, operator_id, session_request.
  intros (Ht%negb_false_iff & Ho%negb_false_iff)%orb_false_iff. split; [done|]. apply bool_decide_eq_true_1 in Ho. cbn [get assoc String.eqb Ascii.eqb Bool.eqb] in *.
  assert (E : forall v, Ownership.normalizeOwnerId (v ||| JNull) = Ownership.normalizeOwnerId v).
  { intros v. unfold Ownership.normalizeOwnerId, str_or_empty, or_else. destruct (truthy v) eqn:Ev; [by rewrite Ev|done]. }
  rewrite E in Ho. subst owner. by destruct (Ownership.normalizeOwnerId _).
Qed.

End Guards.


(** ** Examples *)

Definition tenant_row : fields :=
  [("u1", JObj [("id", JStr "u1"); ("username", JStr "ann"); ("role", JStr "user"); ("status", JStr "active"); ("deleted_at", JNull)])].
(** A tenant signed in a while ago. *)
Definition signed_in : list (Z * SecurityFacts.op) := [(0%Z, SecurityFacts.Login (JStr "ann") (jint 1000) (JObj [("role", JStr "user")]) "1")].
Definition sample_gateway (users : fields) : gateway :=
  {| g_users := users; g_keys := {| rows := []; inflight := ∅; rpmBuckets := ∅ |};
     g_sessions := SecurityFacts.run (String.append "#") "admin" None SecurityFacts.no_sessions signed_in; g_buckets := ∅ |}.
Definition sample_vm (id : string) : jsval :=
  if String.eqb id "vm-1" then JObj [("id", JStr "vm-1"); ("owner_user_id", JStr "u1")]
  else if String.eqb id "vm-2" then JObj [("id", JStr "vm-2")] else JUndef.
Definition sample_call_at (now : Z) (users : fields) (method path : string) : option answer :=
  option_map snd (handlePanel (String.append "#") (fun k => k) (fun k _ _ => (k, k)) "" "admin" (Fin 60) (Fin 1) "master-key" sample_vm []
    (sample_gateway users) (JObj [("x-panel-token", JStr "kin-panel-1")]) (JStr method) path "iv" now true).
Notation sample_call := (sample_call_at 10).


(** The session of an operator who is no longer in the table has no owner id, as has a VM of the
    platform: the two are taken for the same. *)
Example removed_operator_reaches_platform :
  match sample_call [] "POST" "/api/panel/vms/vm-2/start" with Some (Passed _) => true | _ => false end = true.
Proof. vm_compute. reflexivity. Qed.
