(* ===== verification/CodexUsage.v ===== *)
(** * Usage of Codex slots and their choice (src/src/lib/protocol/codex-usage.mjs, src/src/lib/pool/codex-slot-pool.mjs,
    [summarizeCodexSlot] of src/src/lib/vm/codex-slot.mjs)

    What the headers of an answer say about the two windows of an account, when a slot is
    parked, and in which order slots are tried.  [a.localeCompare(b)] is the host's collation, a
    parameter. *)

From Stdlib Require Import QArith Qround Lqa Lia Sorted.
From stdpp Require Import gmap strings.
From S2P Require Import Prelude.
From S2P Require Import JsValue.
From S2P Require Import JsRegex.
From S2P Require Import JsText.
From S2P Require Import JsDate.
From S2P Require Import Eligibility.
From S2P Require Import Ranking.
#[local] Open Scope string_scope.
#[local] Open Scope list_scope.
#[local] Open Scope js_scope.

(** ** Snapshots (codex-usage.mjs) *)

Definition number_or_null (value : jsval) : jsval :=
  if is_nullish value || is_str value "" then JNull
  else let n := to_number value in if is_finite n then JNum n else JNull.
Definition num_trunc (n : num) : num :=
  match n with Fin q => num_of_Z (if Qle_bool 0 q then Qfloor q else Qceiling q) | _ => n end.
Definition int_or_null (value : jsval) : jsval :=
  match number_or_null value with JNum n => JNum (num_trunc n) | _ => JNull end.

Definition lowerHeaders (headers : jsval) : option fields :=
  if negb (is_object headers) then None
  else Some (fold_left (fun out p => if is_nullish p.2 then out else set_field (to_lower p.1) (JStr (to_string p.2)) out) (entries headers) []).

(** [null] when the header is absent, a date or a thrown RangeError otherwise. *)
Definition reset_iso (ms : option num) : option jsval :=
  match ms with None => Some JNull | Some n => option_map JStr (num_to_iso n) end.

(** The keys of one role, none when no header of it is there. *)
Definition role_extra (h : fields) (now : Z) (role : string) : option (option fields) :=
  let header name := assoc (String.append "x-codex-" (String.append role name)) h in
  let key name := String.append "codex_" (String.append role name) in
  let used := number_or_null (header "-used-percent") in
  let minutes := int_or_null (header "-window-minutes") in
  let resetAtEpoch := int_or_null (header "-reset-at") in
  let resetAfter := int_or_null (header "-reset-after-seconds") in
  if forallb is_nullish [used; minutes; resetAtEpoch; resetAfter] then Some None
  else
    let resetMs :=
      match resetAtEpoch with
      | JNum n => if num_ltb (Fin 0) n then Some (num_mul n (num_of_Z 1000))
                  else match resetAfter with JNum a => Some (num_add (num_of_Z now) (num_mul a (num_of_Z 1000))) | _ => None end
      | _ => match resetAfter with JNum a => Some (num_add (num_of_Z now) (num_mul a (num_of_Z 1000))) | _ => None end
      end in
    match reset_iso resetMs with
    | None => None
    | Some reset_at =>
      Some (Some [(key "_used_percent", used); (key "_window_minutes", minutes); (key "_reset_at", reset_at);
                  (key "_reset_after_seconds",
                   match resetAfter, resetMs with
                   | JNum a, _ => JNum a
                   | _, None => JNull
                   | _, Some ms => JNum (num_max (Fin 0) (num_round (num_div (num_sub ms (num_of_Z now)) (num_of_Z 1000))))
                   end)])
    end.

(** [None] is a RangeError of a date out of range; [null] when no header is there. *)
Definition extraFromCodexHeaders (headers : jsval) (now : Z) : option jsval :=
  match lowerHeaders headers with
  | None => Some JNull
  | Some h =>
    match role_extra h now "primary", role_extra h now "secondary" with
    | Some None, Some None => Some JNull
    | Some p, Some s =>
      let over := number_or_null (assoc "x-codex-primary-over-secondary-limit-percent" h) in
      let reached := trim (str_or_empty (assoc "x-codex-rate-limit-reached-type" h)) in
      option_map (fun at_ =>
        JObj (default [] p ++ default [] s ++ (if is_nullish over then [] else [("codex_primary_over_secondary_percent", over)]) ++
              [("codex_rate_limit_reached_type", if nonempty reached then JStr reached else JNull); ("codex_usage_updated_at", JStr at_)]))
        (to_iso now)
    | _, _ => None
    end
  end.

Definition extraToCodexSnapshot (extra : jsval) : jsval :=
  let e := if is_object extra then extra else JObj [] in
  JObj [("primary_used_percent", number_or_null (e?."codex_primary_used_percent" ?? e?."codex_7d_used_percent"));
        ("primary_reset_after_seconds", int_or_null (e?."codex_primary_reset_after_seconds" ?? e?."codex_7d_reset_after_seconds"));
        ("primary_window_minutes", int_or_null (e?."codex_primary_window_minutes" ?? e?."codex_7d_window_minutes"));
        ("primary_reset_at", e?."codex_primary_reset_at" ||| e?."codex_7d_reset_at" ||| JNull);
        ("secondary_used_percent", number_or_null (e?."codex_secondary_used_percent" ?? e?."codex_5h_used_percent"));
        ("secondary_reset_after_seconds", int_or_null (e?."codex_secondary_reset_after_seconds" ?? e?."codex_5h_reset_after_seconds"));
        ("secondary_window_minutes", int_or_null (e?."codex_secondary_window_minutes" ?? e?."codex_5h_window_minutes"));
        ("secondary_reset_at", e?."codex_secondary_reset_at" ||| e?."codex_5h_reset_at" ||| JNull);
        ("primary_over_secondary_percent", number_or_null (e?."codex_primary_over_secondary_percent"));
        ("updated_at", e?."codex_usage_updated_at" ||| e?."updated_at" ||| JNull)].

(** Which of the two windows is the short one. *)
Definition five_from_primary (snapshot : jsval) : bool :=
  match number_or_null (snapshot?."primary_window_minutes"), number_or_null (snapshot?."secondary_window_minutes") with
  | JNum p, JNum s => num_ltb p s
  | JNum p, _ => num_leb p (num_of_Z 360)
  | _, JNum s => negb (num_leb s (num_of_Z 360))
  | _, _ => false
  end.
Definition limits_of (five seven : jsval -> string -> jsval) (s : jsval) : jsval :=
  JObj [("used_5h_percent", five s "_used_percent"); ("reset_5h_seconds", five s "_reset_after_seconds");
        ("window_5h_minutes", five s "_window_minutes" ?? jint 300); ("reset_5h_at", five s "_reset_at");
        ("used_7d_percent", seven s "_used_percent"); ("reset_7d_seconds", seven s "_reset_after_seconds");
        ("window_7d_minutes", seven s "_window_minutes" ?? jint 10080); ("reset_7d_at", seven s "_reset_at")].
Definition role_field (role : string) (s : jsval) (name : string) : jsval := s?.(String.append role name).
Definition normalizeCodexLimits (snapshot : jsval) : jsval :=
  if five_from_primary snapshot then limits_of (role_field "primary") (role_field "secondary") snapshot
  else limits_of (role_field "secondary") (role_field "primary") snapshot.

Definition pctToRatio (percent : jsval) : jsval :=
  if is_nullish percent then JNull
  else JNum (num_max (Fin 0) (num_min (num_of_Z 1) (num_div (to_number percent) (num_of_Z 100)))).
Definition statusFromPercent (percent : jsval) : jsval :=
  if is_nullish percent then JNull
  else
    let p := to_number percent in
    JStr (if num_leb (num_of_Z 100) p then "limited" else if num_leb (num_of_Z 90) p then "warn"
          else if num_leb (num_of_Z 75) p then "caution" else "ok").
Definition codexLimitsToQuota (limits : jsval) : jsval :=
  JObj [("utilization_5h", pctToRatio (limits?."used_5h_percent")); ("utilization_7d", pctToRatio (limits?."used_7d_percent"));
        ("reset_5h", limits?."reset_5h_at" ||| JNull); ("reset_7d", limits?."reset_7d_at" ||| JNull);
        ("status_5h", statusFromPercent (limits?."used_5h_percent")); ("status_7d", statusFromPercent (limits?."used_7d_percent"))].

Definition view_window (limits : jsval) (id : string) : jsval :=
  let field a b := limits?.(String.append a (String.append id b)) in
  JObj [("id", JStr id); ("label", JStr id); ("used_percent", field "used_" "_percent"); ("reset_at", field "reset_" "_at");
        ("reset_after_seconds", field "reset_" "_seconds"); ("window_minutes", field "window_" "_minutes")].
Definition buildCodexUsageView (extraOrSnapshot : jsval) : jsval :=
  let snapshot := if is_nullish (extraOrSnapshot?."primary_used_percent") then extraToCodexSnapshot extraOrSnapshot else extraOrSnapshot in
  let limits := normalizeCodexLimits snapshot in
  JObj [("snapshot", snapshot); ("limits", limits); ("quota", codexLimitsToQuota limits); ("unit", JStr "percent_used");
        ("windows", JArr [view_window limits "5h"; view_window limits "7d"])].

(** ** Parking *)

Definition CODEX_DEFAULT_PARK_MS : Z := 60000.
Definition date_of (v : jsval) : num := date_parse (str_or_empty v).
Definition sooner (a : option num) (b : num) : option num :=
  match a with None => Some b | Some x => Some (if num_ltb b x then b else x) end.
Definition later (now : Z) (n : num) : bool := is_finite n && num_ltb (num_of_Z now) n.

(** A window at its cap that has not been reset: whether there is one, and the soonest reset known. *)
Definition park_window (limits : jsval) (now : Z) (acc : option num * bool) (key : string) : option num * bool :=
  let used := number_or_null (limits?.(String.append "used_" (String.append key "_percent"))) in
  let reset := date_of (limits?.(String.append "reset_" (String.append key "_at"))) in
  match used with
  | JNum u =>
    if num_ltb u (num_of_Z 100) then acc
    else if is_finite reset && num_leb reset (num_of_Z now) then acc
    else (if later now reset then sooner acc.1 reset else acc.1, true)
  | _ => acc
  end.
(** The time until which a slot is parked. *)
Definition codexQuotaPark (extra : jsval) (now : Z) : option num :=
  let limits := normalizeCodexLimits (extraToCodexSnapshot extra) in
  let '(until, liveCap) := fold_left (park_window limits now) ["5h"; "7d"] (None, false) in
  let manual := date_of (extra?."codex_limited_until") in
  let until := if later now manual then sooner until manual else until in
  match until with
  | None => if liveCap && negb (is_finite manual) then Some (num_of_Z (now + CODEX_DEFAULT_PARK_MS)) else None
  | _ => until
  end.

(** ** The pool of slots (codex-slot-pool.mjs) *)

Definition isCodexSlotReady (vm : jsval) : bool :=
  truthy vm && VmKind.isCodexVm vm &&
  negb (is_false (vm?."schedulable") && negb (Gate.isLeftoverQuotaScheduleOff vm JNull)) &&
  truthy (vm?."has_token") && negb (mem (to_lower (str_or_empty (vm?."status"))) ["dead"; "error"; "disabled"]).

Definition window_named (id : string) (windows : list jsval) : jsval :=
  default (JObj []) (List.find (fun w => is_str (w?."id") id) windows).
Definition extraFromSummary (vm : jsval) : jsval :=
  if truthy (vm?."codex"?."extra") && is_object (vm?."codex"?."extra") then vm?."codex"?."extra"
  else if truthy (vm?."codex_extra") && is_object (vm?."codex_extra") then vm?."codex_extra"
  else
    let windows := arr_of (vm?."codex_usage"?."windows") in
    let w5 := window_named "5h" windows in let w7 := window_named "7d" windows in
    let limits := vm?."codex_usage"?."limits" ||| JObj [] in
    JObj [("codex_5h_used_percent", w5?."used_percent" ?? limits?."used_5h_percent");
          ("codex_7d_used_percent", w7?."used_percent" ?? limits?."used_7d_percent");
          ("codex_5h_reset_at", w5?."reset_at" ?? limits?."reset_5h_at" ?? vm?."reset_5h");
          ("codex_7d_reset_at", w7?."reset_at" ?? limits?."reset_7d_at" ?? vm?."reset_7d");
          ("codex_5h_window_minutes", w5?."window_minutes" ?? limits?."window_5h_minutes" ?? jint 300);
          ("codex_7d_window_minutes", w7?."window_minutes" ?? limits?."window_7d_minutes" ?? jint 10080);
          ("codex_limited_until", vm?."codex_limited_until" ||| JNull)].

Definition extraPark (vm : jsval) (now : Z) : option num := codexQuotaPark (extraFromSummary vm) now.
Definition isCodexSlotParked (vm : jsval) (now : Z) : bool :=
  later now (date_of (vm?."codex_limited_until")) || match extraPark vm now with Some _ => true | None => false end.

Definition finite_or_zero (n : num) : num := if is_finite n then n else Fin 0.
Definition percent_ratio (v : jsval) : num := let p := to_number v in if is_finite p then num_div p (num_of_Z 100) else Fin 0.
Definition stressOf (vm : jsval) : num :=
  let u5 := to_number (vm?."utilization_5h") in
  let u7 := to_number (vm?."utilization_7d") in
  if negb (is_finite u5) && negb (is_finite u7) then
    let limits := normalizeCodexLimits (extraToCodexSnapshot (extraFromSummary vm)) in
    num_max (percent_ratio (limits?."used_5h_percent")) (percent_ratio (limits?."used_7d_percent"))
  else num_max (finite_or_zero u5) (finite_or_zero u7).
Definition parkUntil (vm : jsval) (now : Z) : num :=
  let until := date_of (vm?."codex_limited_until") in
  if is_finite until then until
  else match extraPark vm now with Some n => if truthy (JNum n) then n else num_of_Z now | None => num_of_Z now end.

Record picked := { p_error : option string; p_ids : list jsval; p_ready : list jsval; p_parked : list jsval }.
Definition no_slots (error : string) : picked := {| p_error := Some error; p_ids := []; p_ready := []; p_parked := [] |}.

Section pool.
Context (localeCompare : string -> string -> num).

(** A comparator that orders by a number, then by id. *)
Definition by_key (key : jsval -> num) (a b : jsval) : num :=
  let d := num_sub (key a) (key b) in
  if num_eqb d (Fin 0) then localeCompare (to_string (a?."id")) (to_string (b?."id")) else d.

Definition ready_slots (vms : list jsval) (now : Z) : list jsval :=
  List.filter (fun vm => isCodexSlotReady vm && negb (isCodexSlotParked vm now)) vms.
Definition parked_slots (vms : list jsval) (now : Z) : list jsval :=
  List.filter (fun vm => isCodexSlotReady vm && isCodexSlotParked vm now) vms.

Definition pickCodexSlots (vms : jsval) (pin : string) (now : Z) : picked :=
  if nonempty pin then
    match List.find (fun vm => is_str (vm?."id") pin) (arr_of vms) with
    | Some vm =>
      if truthy vm && VmKind.isCodexVm vm then {| p_error := None; p_ids := [vm?."id"]; p_ready := [vm?."id"]; p_parked := [] |}
      else no_slots "platform_mismatch"
    | None => no_slots "platform_mismatch"
    end
  else
    let ready := sort (by_key stressOf) (ready_slots (arr_of vms) now) in
    let parked := sort (by_key (fun vm => parkUntil vm now)) (parked_slots (arr_of vms) now) in
    let id vm := vm?."id" in
    match ready ++ parked with
    | [] => no_slots "no_codex_vm"
    | all => {| p_error := None; p_ids := map id all; p_ready := map id ready; p_parked := map id parked |}
    end.

End pool.

Definition FAILOVER_CODE : rx := lits ["usage_limit_reached"; "upstream_auth"; "no_credential"; "sticky_unavailable"].
Definition isCodexFailoverError (result : jsval) : bool :=
  if negb (truthy result) || is_true (result?."ok") || is_true (result?."committed") then false
  else
    let status := JNum (num_or_zero (result?."status")) in
    let code := to_string (result?."body"?."error"?."code" ||| result?."error_code" ||| JStr "") in
    is_num status 429 || is_num status 401 || is_num status 403 || rx_test FAILOVER_CODE code.

(** ** The schedule of a slot *)

Definition window_live (limits : jsval) (key : string) (now : Z) : bool :=
  let used := to_number (limits?.(String.append "used_" (String.append key "_percent"))) in
  let reset := date_of (limits?.(String.append "reset_" (String.append key "_at"))) in
  is_finite used && num_leb (num_of_Z 100) used && (negb (is_finite reset) || num_ltb (num_of_Z now) reset).
Definition codexQuotaWindowReason (vm : jsval) (now : Z) : option string :=
  let extra := extraFromSummary vm in
  let limits := normalizeCodexLimits (extraToCodexSnapshot extra) in
  if window_live limits "5h" now then Some "quota_5h_header"
  else if window_live limits "7d" now then Some "quota_7d_header"
  else if codexQuotaPark extra now then Some "quota_5h_header" else None.
Definition codexRestrictionUntil (vm : jsval) (now : Z) : num :=
  let extra := extraFromSummary vm in
  let limits := normalizeCodexLimits (extraToCodexSnapshot extra) in
  let futures := List.filter (later now)
    [date_of (limits?."reset_5h_at"); date_of (limits?."reset_7d_at"); date_of (extra?."codex_limited_until")] in
  match futures with [] => num_of_Z (now + 5 * 60000) | _ => num_min_list futures end.
Definition hasQuotaRestriction (vm : jsval) : bool :=
  Gate.isQuotaWindowReason (vm?."claude"?."temp_unschedulable_reason" ||| vm?."temp_unschedulable_reason").

Inductive codex_schedule := Keep | Restrict (reason : string) (until : num) | RestoreRestricted (reason : string) (until : num) | Enable | Clear.
Definition evaluateCodexQuotaSchedule (vm : jsval) (now : Z) : codex_schedule :=
  if negb (truthy vm) || negb (VmKind.isCodexVm vm) then Keep
  else
    let leftover := Gate.isLeftoverQuotaScheduleOff vm JNull in
    match codexQuotaWindowReason vm now with
    | Some reason =>
      let until := codexRestrictionUntil vm now in if leftover then RestoreRestricted reason until else Restrict reason until
    | None => if leftover then Enable else if hasQuotaRestriction vm then Clear else Keep
    end.

(** ** The summary of a slot (codex-slot.mjs) *)

(** [accounts]: the list in the credentials file of the slot. *)
Definition summarizeCodexSlot (accounts : list jsval) (vm : jsval) : jsval :=
  let first := match accounts with a :: _ => a ||| JObj [] | [] => JObj [] end in
  let extra := vm?."codex"?."extra" ||| vm?."codex_extra" ||| JObj [] in
  let usage := buildCodexUsageView (vm?."codex"?."usage" ||| extraToCodexSnapshot extra) in
  let hasAccess := truthy (first?."access_token" ||| vm?."codex"?."has_access") in
  let hasRefresh := truthy (first?."refresh_token" ||| vm?."codex"?."has_refresh") in
  JObj [("platform", JStr "openai"); ("family", JStr "codex"); ("has_token", JBool (hasAccess || hasRefresh)); ("has_refresh", JBool hasRefresh);
        ("email", first?."email" ||| vm?."codex"?."email" ||| vm?."email" ||| JNull);
        ("expires_at", first?."expires_at" ||| vm?."codex"?."expires_at" ||| JNull);
        ("chatgpt_account_id", first?."chatgpt_account_id" ||| vm?."codex"?."chatgpt_account_id" ||| JNull);
        ("account_count", jint (Z.of_nat (length accounts))); ("usage", usage); ("reset_credits", vm?."codex"?."reset_credits" ||| JNull)].

(** ** Properties *)

(** The sort keeps a preorder that the comparator refines. *)
Section ordered.
Context {A : Type} (compare : A -> A -> num) (R : A -> A -> Prop).
Hypothesis R_trans : forall x y z, R x y -> R y z -> R x z.
Hypothesis R_after : forall x y, Ranking.after compare x y = true -> R y x.
Hypothesis R_before : forall x y, Ranking.after compare x y = false -> R x y.

Lemma sort_insert_sorted x l : StronglySorted R l -> StronglySorted R (sort_insert compare x l).
Proof.
  induction l as [|y l IH]; intros H; [by repeat constructor|]. apply StronglySorted_inv in H as (Hl & Hy). cbn [sort_insert].
  destruct (Ranking.after compare x y) eqn:E.
  - constructor; [by apply IH|]. rewrite sort_insert_perm. constructor; [by apply R_after|exact Hy].
  - constructor; [by constructor|]. constructor; [by apply R_before|]. eapply Forall_impl; [exact Hy|]. intros z Hz. eapply R_trans; [by apply R_before|exact Hz].
Qed.

Lemma sort_sorted l : StronglySorted R (sort compare l).
Proof. induction l as [|x l IH]; [constructor|]. by apply sort_insert_sorted. Qed.

End ordered.

Lemma percent_ratio_finite v : is_finite (percent_ratio v) = true.
Proof. unfold percent_ratio. by destruct (to_number v). Qed.

Lemma stressOf_finite vm : is_finite (stressOf vm) = true.
Proof.
  unfold stressOf. destruct (_ && _); apply num_max_finite; try apply percent_ratio_finite; unfold finite_or_zero; by destruct (to_number _).
Qed.

Lemma by_key_order lc (key : jsval -> num) x y : is_finite (key x) = true -> is_finite (key y) = true ->
  if Ranking.after (by_key lc key) x y then num_leb (key y) (key x) = true else num_leb (key x) (key y) = true.
Proof.
  intros Hx Hy. unfold Ranking.after, by_key. destruct (key x) as [p| | |], (key y) as [q| | |]; try done. cbn [num_sub num_neg num_add].
  set (d := Qred _). assert (Hd : (d == p - q)%Q) by by unfold d; rewrite !Qred_correct.
  destruct (num_eqb (Fin d) (Fin 0)) eqn:E.
  - cbn in E. apply Qeq_bool_iff in E. destruct (num_ltb _ _); apply num_leb_Fin; lra.
  - destruct (num_ltb (Fin 0) (Fin d)) eqn:El; apply num_leb_Fin.
    + apply num_ltb_Fin in El. lra.
    + cbn in El. apply negb_false_iff, Qle_bool_iff in El. lra.
Qed.

(** Among the slots of the pool an unpinned request is offered every ready one exactly once: those whose
    account still has quota first, the least used of them first, and the parked ones last, so
    that a pool that is spent is still tried. *)
Theorem codex_slots_ordered lc vms now :
  let r := pickCodexSlots lc vms "" now in
  let usable := ready_slots (arr_of vms) now in
  let spent := parked_slots (arr_of vms) now in
  (p_error r = None <-> usable ++ spent <> []) /\
  (p_error r = None -> p_ids r = p_ready r ++ p_parked r /\
     exists ready parked, p_ready r = map (fun vm => vm?."id") ready /\ p_parked r = map (fun vm => vm?."id") parked /\
       Permutation ready usable /\ Permutation parked spent /\
       StronglySorted (fun a b => num_leb (stressOf a) (stressOf b) = true) ready) /\
  (forall vm, vm ∈ usable ++ spent <-> vm ∈ arr_of vms /\ isCodexSlotReady vm = true) /\
  (forall vm, vm ∈ usable -> isCodexSlotParked vm now = false).
Proof.
  cbn zeta. unfold pickCodexSlots. cbn [nonempty String.eqb negb].
  set (R := sort (by_key lc stressOf) _). set (P := sort _ (parked_slots _ _)).
  assert (HR : Permutation R (ready_slots (arr_of vms) now)) by apply sort_perm.
  assert (HP : Permutation P (parked_slots (arr_of vms) now)) by apply sort_perm.
  assert (Hall : Permutation (R ++ P) (ready_slots (arr_of vms) now ++ parked_slots (arr_of vms) now)) by by apply Permutation_app.
  split_and!.
  - destruct (R ++ P) as [|x l] eqn:E; cbn.
    + apply Permutation_nil in Hall. rewrite Hall. done.
    + split; [|done]. intros _ Hn. rewrite Hn in Hall. by apply Permutation_sym, Permutation_nil_cons in Hall.
  - destruct (R ++ P) as [|x l] eqn:E; [done|]. intros _. cbn [p_ids p_ready p_parked]. rewrite <- E, map_app. split; [done|].
    exists R, P. split_and!; [done|done|exact HR|exact HP|]. apply sort_sorted.
    + intros a b c. apply num_leb_trans.
    + intros a b H. assert (Ho := by_key_order lc stressOf a b (stressOf_finite a) (stressOf_finite b)). by rewrite H in Ho.
    + intros a b H. assert (Ho := by_key_order lc stressOf a b (stressOf_finite a) (stressOf_finite b)). by rewrite H in Ho.
  - intros vm. unfold ready_slots, parked_slots. rewrite elem_of_app, !list_elem_of_In, !List.filter_In, !andb_true_iff, negb_true_iff.
    destruct (isCodexSlotParked vm now); naive_solver.
  - intros vm. unfold ready_slots. rewrite list_elem_of_In, List.filter_In, andb_true_iff, negb_true_iff. naive_solver.
Qed.

(** A window at its cap whose reset is not known to have passed. *)
Definition spent_window (limits : jsval) (key : string) (now : Z) : bool :=
  match number_or_null (limits?.(String.append "used_" (String.append key "_percent"))) with
  | JNum u =>
    let reset := date_of (limits?.(String.append "reset_" (String.append key "_at"))) in
    negb (num_ltb u (num_of_Z 100)) && negb (is_finite reset && num_leb reset (num_of_Z now))
  | _ => false
  end.
Definition reset_of (limits : jsval) (key : string) : num := date_of (limits?.(String.append "reset_" (String.append key "_at"))).

Lemma park_window_spec limits now acc key : park_window limits now acc key =
  if spent_window limits key now then (if later now (reset_of limits key) then sooner acc.1 (reset_of limits key) else acc.1, true) else acc.
Proof.
  unfold park_window, spent_window, reset_of. destruct (number_or_null _); try done. destruct (num_ltb _ _); [done|]. by destruct (_ && _).
Qed.

Lemma later_ltb now n : later now n = true -> is_finite n = true /\ num_ltb (num_of_Z now) n = true.
Proof. unfold later. by intros (? & ?)%andb_true_iff. Qed.

(** The times that end the parking, as far as they are known. *)
Definition park_times (limits : jsval) (manual : num) (now : Z) : list num :=
  List.filter (later now) (map (reset_of limits) (List.filter (fun key => spent_window limits key now) ["5h"; "7d"]) ++ [manual]).

Lemma park_soonest extra now : let limits := normalizeCodexLimits (extraToCodexSnapshot extra) in
  let manual := date_of (extra?."codex_limited_until") in
  codexQuotaPark extra now =
  match fold_left sooner (park_times limits manual now) None with
  | None => if (spent_window limits "5h" now || spent_window limits "7d" now) && negb (is_finite manual)
            then Some (num_of_Z (now + CODEX_DEFAULT_PARK_MS)) else None
  | until => until
  end.
Proof.
  cbn zeta. unfold codexQuotaPark, park_times. set (limits := normalizeCodexLimits _). set (manual := date_of _).
  cbn [fold_left]. rewrite !park_window_spec. cbn [List.filter].
  destruct (spent_window limits "5h" now); cbn [fst snd map app List.filter orb];
    destruct (spent_window limits "7d" now); cbn [fst snd map app List.filter orb];
    destruct (later now (reset_of limits "5h")); cbn [fst snd map app List.filter orb];
    destruct (later now (reset_of limits "7d")); cbn [fst snd map app List.filter orb];
    destruct (later now manual); reflexivity.
Qed.

Lemma soonest l a : Forall (fun n => is_finite n = true) l -> (forall x, a = Some x -> is_finite x = true) ->
  match fold_left sooner l a with
  | Some u => (a = Some u \/ u ∈ l) /\ is_finite u = true /\ Forall (fun x => num_leb u x = true) l /\ (forall x, a = Some x -> num_leb u x = true)
  | None => l = [] /\ a = None
  end.
Proof.
  assert (Hrefl : forall n, is_finite n = true -> num_leb n n = true).
  { intros [q| | |]; try done. intros _. apply num_leb_Fin. lra. }
  revert a. induction l as [|x l IH]; intros a Hl Ha; cbn [fold_left].
  - destruct a as [u|]; [|done]. specialize (Ha u eq_refl). split_and!; [by left|done|constructor|]. intros x [= <-]. by apply Hrefl.
  - apply Forall_cons in Hl as (Hx & Hl).
    assert (Hs : exists y, sooner a x = Some y /\ is_finite y = true /\ (y = x \/ a = Some y) /\ num_leb y x = true /\ (forall z, a = Some z -> num_leb y z = true)).
    { unfold sooner. destruct a as [z|]; [|exists x; split_and!; [done|done|by left|by apply Hrefl|done]]. specialize (Ha z eq_refl).
      destruct (num_ltb x z) eqn:E.
      - exists x. split_and!; [done|done|by left|by apply Hrefl|]. intros ? [= <-]. by apply num_ltb_leb.
      - exists z. split_and!; [done|done|by right| |]; [by rewrite num_leb_negb, E|]. intros ? [= <-]. by apply Hrefl. }
    destruct Hs as (y & -> & Hy & Hor & Hyx & Hya). specialize (IH (Some y) Hl ltac:(by intros ? [= <-])).
    destruct (fold_left sooner l (Some y)) as [u|]; [|by destruct IH]. destruct IH as (Hu & Hf & Hall & Huy). specialize (Huy y eq_refl).
    split_and!; [|done|constructor; [by apply (num_leb_trans _ y)|done]|].
    + destruct Hu as [[= ->]|Hu]; [destruct Hor as [->|Hor]; [right; by left|by left]|right; by right].
    + intros z Hz. apply (num_leb_trans _ y); [done|by apply Hya].
Qed.

(** A Codex slot is parked exactly while something says that its account is spent: a window at its cap that has not
    been reset, or a limit set by hand that lies ahead; never beyond the soonest of the times that
    are known, and for a minute when none is. *)
Theorem codex_park_spec extra now :
  let limits := normalizeCodexLimits (extraToCodexSnapshot extra) in
  let manual := date_of (extra?."codex_limited_until") in
  let park := codexQuotaPark extra now in
  let spent key := spent_window limits key now = true in
  (forall until, park = Some until ->
     num_ltb (num_of_Z now) until = true /\
     (until = manual \/ ((spent "5h" \/ spent "7d") /\ (until = reset_of limits "5h" \/ until = reset_of limits "7d" \/ until = num_of_Z (now + CODEX_DEFAULT_PARK_MS))))) /\
  (forall key, key = "5h" \/ key = "7d" -> spent key -> later now (reset_of limits key) = true ->
     exists until, park = Some until /\ num_leb until (reset_of limits key) = true) /\
  (later now manual = true -> exists until, park = Some until /\ num_leb until manual = true) /\
  (~ spent "5h" -> ~ spent "7d" -> later now manual = false -> park = None).
Proof.
  cbn zeta. rewrite park_soonest. cbn zeta. set (limits := normalizeCodexLimits _). set (manual := date_of _).
  set (l := park_times limits manual now).
  assert (Hin : forall n, n ∈ l <-> later now n = true /\ (n = manual \/ exists key, (key = "5h" \/ key = "7d") /\ spent_window limits key now = true /\ n = reset_of limits key)).
  { intros n. unfold l, park_times. rewrite list_elem_of_In, List.filter_In, in_app_iff, in_map_iff. cbn [In]. split.
    - intros ([(key & <- & Hk)|[<-|[]]] & Hl); (split; [done|]); [right; exists key|by left]. apply List.filter_In in Hk as ([<-|[<-|[]]] & Hs); (split_and!; [|done|done]); [by left|by right].
    - intros (Hl & [->|(key & Hk & Hs & ->)]); (split; [|done]); [by right; left|left; exists key]. split; [done|]. apply List.filter_In. split; [|done]. destruct Hk as [->| ->]; [by left|by right; left]. }
  assert (Hf : Forall (fun n => is_finite n = true) l).
  { apply Forall_forall. intros n Hn. apply Hin in Hn as (Hl & _). unfold later in Hl. by apply andb_true_iff in Hl as (? & _). }
  assert (Hs := soonest l None Hf ltac:(done)). destruct (fold_left sooner l None) as [u|].
  - destruct Hs as ([?|Hu] & _ & Hall & _); [done|]. rewrite Forall_forall in Hall. assert (Hu' := Hu). apply Hin in Hu' as (Hl & Hor). split_and!.
    + intros x [= <-]. split; [unfold later in Hl; by apply andb_true_iff in Hl as (_ & ?)|].
      destruct Hor as [->|(key & [->| ->] & Hsp & ->)]; [by left|right|right]; (split; [by auto|]); auto.
    + intros key Hk Hsp Hlk. exists u. split; [done|]. apply Hall. apply Hin. split; [done|]. right. by exists key.
    + intros Hm. exists u. split; [done|]. apply Hall, Hin. split; [done|by left].
    + intros H5 H7 Hm. exfalso. destruct Hor as [->|(key & [->| ->] & Hsp & ->)]; [congruence|by apply H5|by apply H7].
  - destruct Hs as (Hnil & _). assert (Hno : forall n, n ∉ l) by (rewrite Hnil; intros n; apply not_elem_of_nil). split_and!.
    + intros x. destruct (_ && _) eqn:E; [|done]. intros [= <-]. split; [apply num_ltb_Z; unfold CODEX_DEFAULT_PARK_MS; lia|].
      right. apply andb_true_iff in E as (E & _). apply orb_true_iff in E. split; [exact E|by auto].
    + intros key Hk Hsp Hlk. destruct (Hno (reset_of limits key)). apply Hin. split; [done|]. right. by exists key.
    + intros Hm. destruct (Hno manual). apply Hin. split; [done|by left].
    + intros H5 H7 _. destruct (spent_window limits "5h" now); [by destruct H5|]. destruct (spent_window limits "7d" now); [by destruct H7|]. done.
Qed.
