(* ===== verification/CredentialFile.v ===== *)
(** * Credentials of a slot (src/src/lib/oauth/credential-mode.mjs, src/src/lib/oauth/auth-scheme.mjs,
    src/src/lib/oauth/oauth-credentials.mjs)

    The kinds of credentials, the file the worker of a slot reads, and what of it is kept in the
    document of the VM: presence, expiry and identity, never a secret.  A file is the value it
    parses to; owners, modes and links of files are not modelled. *)

From Stdlib Require Import QArith Qround Lqa Lia.
From stdpp Require Import gmap strings.
From S2P Require Import Prelude.
From S2P Require Import JsValue.
From S2P Require Import JsRegex.
From S2P Require Import JsText.
From S2P Require Import JsDate.
From S2P Require Import QuotaWindow.
From S2P Require Import Eligibility.
From S2P Require Import StoreFacts.
#[local] Open Scope string_scope.
#[local] Open Scope list_scope.
#[local] Open Scope js_scope.

(** ** Modes (credential-mode.mjs) *)

Module Mode.

Inductive mode := Oauth | SetupToken | ApiKey.
#[global] Instance mode_eq : EqDecision mode.
Proof. solve_decision. Defined.
Definition mode_name (m : mode) : string := match m with Oauth => "oauth" | SetupToken => "setup-token" | ApiKey => "apikey" end.

Definition normalizeCredentialMode (raw : jsval) : mode :=
  let s := replace_char "_" "-" (to_lower (trim (str_or_empty raw))) in
  if mem s ["setup-token"; "inference"] then SetupToken
  else if mem s ["apikey"; "api-key"; "console"; "console-key"] then ApiKey
  else Oauth.
Definition is_mode (m : mode) (raw : jsval) : bool := bool_decide (normalizeCredentialMode raw = m).
Definition isApiKeyMode : jsval -> bool := is_mode ApiKey.
Definition isSetupTokenMode : jsval -> bool := is_mode SetupToken.
Definition canOfficialCc : jsval -> bool := is_mode Oauth.
Definition canOfficialUsage : jsval -> bool := is_mode Oauth.
Definition canCountTokens (raw : jsval) : bool := isSetupTokenMode raw || isApiKeyMode raw.
Definition canRefreshCredential (raw : jsval) : bool := negb (isApiKeyMode raw).

Definition looks_like (prefix : string) (value : jsval) : bool := starts_with prefix (to_lower (trim (str_or_empty value))).
Definition looksLikeConsoleApiKey : jsval -> bool := looks_like "sk-ant-api03-".
Definition looksLikeSessionKey : jsval -> bool := looks_like "sk-ant-sid".
Definition looksLikeOauthAccessToken : jsval -> bool := looks_like "sk-ant-oat01-".

(** [l.join(sep)] *)
Definition array_join (sep : string) (l : list jsval) : string := join sep (map (fun x => if is_nullish x then "" else to_string x) l).

Definition credentialModeFromOauth (oauth : jsval) : mode :=
  let typed := oauth?."type" ||| oauth?."mode" ||| oauth?."credential_mode" in
  let labeled := if truthy typed then Some (normalizeCredentialMode typed) else None in
  match labeled with
  | Some ApiKey => ApiKey
  | Some SetupToken => SetupToken
  | _ =>
    if looksLikeConsoleApiKey (oauth?."api_key" ||| oauth?."apiKey" ||| oauth?."access_token" ||| oauth?."accessToken") then ApiKey
    else
      let scope := to_string (oauth?."scope" ||| match oauth?."scopes" with JArr l => JStr (array_join " " l) | _ => JStr "" end) in
      if nonempty scope && includes scope "user:inference" && negb (rx_test (lits ["user:profile"; "user:sessions:claude_code"]) scope) then SetupToken
      else if is_str (oauth?."flavor") "setup_token" || is_str (oauth?."flavor") "setup-token" then SetupToken
      else Oauth
  end.
Definition credentialModeOfVm (vm : jsval) : mode :=
  normalizeCredentialMode (vm?."credential_mode" ||| vm?."claude"?."mode" ||| vm?."claude_mode").

(** The code of the error that is thrown, or the relabelled credential. *)
Definition liveOauthToSetupToken (oauth : jsval) : string + jsval :=
  let access := trim (str_or_empty (oauth?."access_token" ||| oauth?."accessToken")) in
  if negb (nonempty access) then inl "credential_required"
  else if isApiKeyMode (oauth?."type" ||| oauth?."mode") || looksLikeConsoleApiKey (JStr access) ||
          looksLikeConsoleApiKey (oauth?."api_key" ||| oauth?."apiKey") then inl "credential_kind_mismatch"
  else inr (JObj
    [("type", JStr (mode_name SetupToken)); ("mode", JStr (mode_name SetupToken)); ("access_token", JStr access);
     ("refresh_token", JStr (str_or_empty (oauth?."refresh_token" ||| oauth?."refreshToken")));
     ("expires_at", oauth?."expires_at" ||| oauth?."expiresAt" ||| JNull); ("email", oauth?."email" ||| oauth?."email_address" ||| JNull);
     ("account_uuid", oauth?."account_uuid" ||| oauth?."accountUuid" ||| JNull); ("org_uuid", oauth?."org_uuid" ||| oauth?."orgUuid" ||| JNull);
     ("scope", JStr "user:inference"); ("scopes", jstrs ["user:inference"]); ("source", JStr "oauth-to-setup-token");
     ("auth_scheme", oauth?."auth_scheme" ||| oauth?."authScheme" ||| JUndef)]).

End Mode.

(** ** The header that carries the credential (auth-scheme.mjs) *)

Module Scheme.

Inductive scheme := XApiKey | Bearer.
Definition scheme_name (s : scheme) : string := match s with XApiKey => "x_api_key" | Bearer => "authorization_bearer" end.

Definition normalizeAuthScheme (raw : jsval) : option scheme :=
  let s := replace_char "-" "_" (to_lower (trim (str_or_empty raw))) in
  if mem s ["authorization_bearer"; "bearer"; "authorization"; "oauth"] then Some Bearer
  else if mem s ["x_api_key"; "apikey"; "api_key"] then Some XApiKey
  else None.
Definition defaultAuthScheme (m : Mode.mode) : scheme := match m with Mode.ApiKey => XApiKey | _ => Bearer end.
Definition resolveAuthScheme (m : Mode.mode) (auth_scheme authScheme extra : jsval) : scheme :=
  match normalizeAuthScheme (auth_scheme ||| authScheme ||| extra?."anthropic_apikey_auth_scheme" ||| extra?."auth_scheme") with
  | Some s => s
  | None => defaultAuthScheme m
  end.
Definition authSchemeOfVm (vm : jsval) : scheme :=
  resolveAuthScheme (Mode.credentialModeOfVm vm) (vm?."auth_scheme" ||| vm?."claude"?."auth_scheme") JUndef JUndef.

End Scheme.

(** ** Normal form (oauth-credentials.mjs) *)

Definition REFRESH_SKEW_MS : Z := 5 * 60 * 1000.
Definition SENSITIVE_CREDENTIAL_KEYS : list string :=
  ["access_token"; "refresh_token"; "session_key"; "accessToken"; "refreshToken"; "sessionKey"; "id_token"; "idToken"; "api_key"; "apiKey"].

Definition zero (n : num) : bool := negb (truthy (JNum n)).
Definition needsRefresh (expiresAt : jsval) (now skewMs : Z) : bool :=
  let ms := Credentials.expiresAtToMs expiresAt in zero ms || num_leb (num_sub ms (num_of_Z now)) (num_of_Z skewMs).
Definition isFullyExpired (expiresAt : jsval) (now : Z) : bool :=
  let ms := Credentials.expiresAtToMs expiresAt in zero ms || num_leb ms (num_of_Z now).

(** The expiry in seconds, when it is a number. *)
Definition expiry (cred : jsval) (now : Z) : jsval :=
  let exp := cred?."expires_at" ||| cred?."expiresAt" ||| jint 0 in
  let exp := if truthy exp && num_ltb (num_of_Z 10000000000) (to_number exp)
             then JNum (num_floor (num_div (to_number exp) (num_of_Z 1000))) else exp in
  if negb (truthy exp) && truthy (cred?."expires_in")
  then JNum (num_add (num_floor (num_div (num_of_Z now) (num_of_Z 1000))) (to_number (cred?."expires_in"))) else exp.
Definition normalizeOauth (cred : jsval) (now : Z) : jsval :=
  let scopes := List.filter truthy (arr_of (cred?."scopes")) in
  JObj [("access_token", cred?."access_token" ||| cred?."accessToken" ||| JStr "");
        ("refresh_token", cred?."refresh_token" ||| cred?."refreshToken" ||| JStr "");
        ("expires_at", expiry cred now ||| JNull);
        ("email", cred?."email" ||| cred?."email_address" ||| cred?."emailAddress" ||| JNull);
        ("account_uuid", cred?."account_uuid" ||| cred?."accountUuid" ||| JNull);
        ("org_uuid", cred?."org_uuid" ||| cred?."orgUuid" ||| JNull);
        ("scope", cred?."scope" ||| match scopes with [] => JNull | _ => JStr (Mode.array_join " " scopes) end);
        ("source", cred?."source" ||| JNull); ("session_key", cred?."session_key" ||| cred?."sessionKey" ||| JNull);
        ("_token_version", cred?."_token_version" ||| cred?."token_version" ||| cred?."kinGeneration" ||| cred?."kin_generation" ||| JNull)].

Definition stripCredentialSecrets (claude : jsval) : jsval :=
  JObj (fold_left (fun out key => del_field key out) SENSITIVE_CREDENTIAL_KEYS (entries claude)).

(** A field that is set under a condition. *)
Definition set_if (b : bool) (k : string) (v o : jsval) : jsval := if b then with_field o k v else o.
Definition set_truthy (k : string) (v o : jsval) : jsval := set_if (truthy v) k v o.

(** [cfg.vm] *)
Definition applyOauthToCfg (vm cred : jsval) (now : Z) : jsval :=
  let n := normalizeOauth cred now in
  let vm := set_truthy "expires_at" (n?."expires_at") vm in
  let vm := set_truthy "email" (n?."email") vm in
  let vm := set_truthy "account_uuid" (n?."account_uuid") vm in
  let vm := set_truthy "org_uuid" (n?."org_uuid") vm in
  let vm := with_field vm "has_access" (JBool (truthy (n?."access_token" ||| cred?."has_access" ||| vm?."has_access"))) in
  let vm := with_field vm "has_refresh" (JBool (truthy (n?."refresh_token" ||| cred?."has_refresh" ||| vm?."has_refresh"))) in
  without (without (without (with_field vm "refresh_error" JNull) "access_token") "refresh_token") "session_key".

(** ** The file of the worker *)

Definition object_or (v d : jsval) : jsval := if truthy v && is_object v then v else d.
Definition scheme_text (m : Mode.mode) (doc inner : jsval) : jsval :=
  JStr (Scheme.scheme_name (Scheme.resolveAuthScheme m
    (doc?."authScheme" ||| doc?."auth_scheme" ||| inner?."authScheme" ||| inner?."auth_scheme") JUndef JUndef)).

(** [null] when the file is missing or holds no credential. *)
Definition readWorkerCredentialFile (doc : jsval) : jsval :=
  let api := object_or (doc?."anthropicApiKey") JNull in
  let apiKey := api?."apiKey" ||| api?."api_key" ||| JStr "" in
  if truthy apiKey || Mode.isApiKeyMode (doc?."type") then
    JObj [("type", JStr "apikey"); ("mode", JStr "apikey"); ("access_token", apiKey); ("api_key", apiKey); ("refresh_token", JStr "");
          ("expires_at", JNull); ("email", api?."email" ||| JNull); ("account_uuid", api?."accountUuid" ||| api?."account_uuid" ||| JNull);
          ("org_uuid", api?."orgUuid" ||| api?."org_uuid" ||| JNull); ("scope", JNull); ("source", JStr "go-slot-worker");
          ("auth_scheme", scheme_text Mode.ApiKey doc api); ("_token_version", doc?."kinGeneration" ||| doc?."kin_generation" ||| JNull)]
  else
    let oauth := object_or (doc?."claudeAiOauth") doc in
    if negb (is_object oauth) then JNull
    else
      let scope := match oauth?."scopes" with JArr l => JStr (Mode.array_join " " l) | _ => oauth?."scope" ||| JNull end in
      let mode := Mode.credentialModeFromOauth (JObj
        [("type", doc?."type" ||| oauth?."type"); ("scope", scope); ("scopes", oauth?."scopes");
         ("access_token", oauth?."accessToken" ||| oauth?."access_token")]) in
      JObj [("type", JStr (Mode.mode_name mode)); ("mode", JStr (Mode.mode_name mode));
            ("access_token", oauth?."accessToken" ||| oauth?."access_token" ||| JStr "");
            ("refresh_token", oauth?."refreshToken" ||| oauth?."refresh_token" ||| JStr "");
            ("expires_at", oauth?."expiresAt" ||| oauth?."expires_at" ||| JNull);
            ("email", oauth?."email" ||| oauth?."emailAddress" ||| oauth?."email_address" ||| JNull);
            ("account_uuid", oauth?."accountUuid" ||| oauth?."account_uuid" ||| JNull);
            ("org_uuid", oauth?."orgUuid" ||| oauth?."org_uuid" ||| JNull); ("scope", scope); ("source", JStr "go-slot-worker");
            ("auth_scheme", scheme_text mode doc oauth); ("_token_version", oauth?."kinGeneration" ||| oauth?."kin_generation" ||| JNull)].

(** [text.split(/\s+/).filter(Boolean)] *)
Definition words (s : string) : list string := List.filter nonempty (split_chars is_space s).
Definition scopes_written (cred n : jsval) (m : Mode.mode) : list jsval :=
  let scopes := match cred?."scopes" with
                | JArr l => List.filter truthy l
                | _ => map JStr (words (str_or_empty (n?."scope" ||| cred?."scope")))
                end in
  match m with
  | Mode.SetupToken =>
    let scopes := map (fun s => if is_str s "inference" then JStr "user:inference" else s) scopes in
    if existsb (fun s => is_str s "user:inference") scopes then scopes else [JStr "user:inference"]
  | _ => scopes
  end.
Definition oauth_written (n : jsval) (scopes : list jsval) (m : Mode.mode) : jsval :=
  let expiresAtMs := JNum (Credentials.expiresAtToMs (n?."expires_at")) in
  let oauth := JObj [("accessToken", n?."access_token" ||| JStr "")] in
  let oauth := set_truthy "refreshToken" (n?."refresh_token") oauth in
  let oauth := set_truthy "expiresAt" expiresAtMs oauth in
  let oauth := set_truthy "email" (n?."email") oauth in
  let oauth := set_truthy "accountUuid" (n?."account_uuid") oauth in
  let oauth := set_truthy "orgUuid" (n?."org_uuid") oauth in
  let oauth := set_if (negb (length scopes =? 0)%nat) "scopes" (JArr scopes) oauth in
  set_if (bool_decide (m = Mode.SetupToken)) "type" (JStr "setup-token") oauth.
(** The document that is written; none when there is nothing to write. *)
Definition writeWorkerCredentialFile (cred : jsval) (now : Z) : option jsval :=
  let mode := Mode.credentialModeFromOauth cred in
  let authScheme := JStr (Scheme.scheme_name (Scheme.resolveAuthScheme mode (cred?."auth_scheme" ||| cred?."authScheme") JUndef JUndef)) in
  match mode with
  | Mode.ApiKey =>
    let apiKey := trim (str_or_empty (cred?."api_key" ||| cred?."apiKey" ||| cred?."access_token" ||| cred?."accessToken")) in
    if negb (nonempty apiKey) then None
    else Some (JObj [("type", JStr "apikey"); ("authScheme", authScheme);
                     ("anthropicApiKey", JObj [("apiKey", JStr apiKey);
                        ("baseUrl", cred?."base_url" ||| cred?."baseUrl" ||| JStr "https://api.anthropic.com")])])
  | _ =>
    let n := normalizeOauth cred now in
    if negb (truthy (n?."access_token")) && negb (truthy (n?."refresh_token")) then None
    else
      let scopes := scopes_written cred n mode in
      Some (JObj [("type", JStr (Mode.mode_name mode)); ("authScheme", authScheme); ("claudeAiOauth", oauth_written n scopes mode)])
  end.

(** Of a slot without secrets: whose credential it is. *)
Definition readSlotCredentialIdentity (doc : jsval) : jsval :=
  let cred := readWorkerCredentialFile doc in
  if negb (truthy cred) then JNull
  else JObj [("account_uuid", cred?."account_uuid" ||| JNull); ("org_uuid", cred?."org_uuid" ||| JNull); ("email", cred?."email" ||| JNull);
             ("has_access", JBool (truthy (cred?."access_token"))); ("has_refresh", JBool (truthy (cred?."refresh_token")));
             ("expires_at", cred?."expires_at" ||| JNull); ("generation", cred?."_token_version" ||| JNull);
             ("source", JStr "slot-credentials.json")].

(** ** The round trip of a credential

    What is written for the worker of a slot is what is read back. *)

(** ** Conditional fields *)

Lemma get_set_if_eq c k v o : (set_if c k v o)?.k = if c then v else o?.k.
Proof. unfold set_if. destruct c; [apply get_with_field_eq|done]. Qed.

Lemma get_set_if_ne c k k' v o : k <> k' -> (set_if c k' v o)?.k = o?.k.
Proof. intros H. unfold set_if. destruct c; [by apply get_with_field_ne|done]. Qed.

Lemma set_if_is_obj c k v o : is_obj o = true -> is_obj (set_if c k v o) = true.
Proof. unfold set_if. by destruct c. Qed.

(** A field that is written when it holds something, and read with its default. *)
Lemma field_back v d : truthy d = false -> ((if truthy (v ||| d) then v ||| d else JUndef) ||| JUndef) ||| d = v ||| d.
Proof. intros Hd. unfold or_else. destruct (truthy v) eqn:E; [by rewrite !E|]. by rewrite Hd. Qed.

Lemma email_back v d : truthy d = false -> (if truthy (v ||| d) then v ||| d else JUndef) ||| JUndef ||| JUndef ||| d = v ||| d.
Proof. intros Hd. unfold or_else. destruct (truthy v) eqn:E; [by rewrite !E|]. by rewrite Hd. Qed.

Lemma token_back v d : truthy d = false -> v ||| d ||| d ||| JUndef ||| d = v ||| d.
Proof. intros Hd. unfold or_else. destruct (truthy v) eqn:E; [by rewrite !E|]. by rewrite !Hd. Qed.

(** ** The scheme *)

Lemma scheme_named s : Scheme.normalizeAuthScheme (JStr (Scheme.scheme_name s)) = Some s.
Proof. by destruct s. Qed.

Lemma scheme_back m s t f inner :
  scheme_text m (JObj [("type", t); ("authScheme", JStr (Scheme.scheme_name s)); f]) inner = JStr (Scheme.scheme_name s).
Proof. by destruct s. Qed.

(** ** The expiry *)

Lemma seconds_or_ms_ms q : num_ltb (seconds_or_ms q) ten_digits = false -> seconds_or_ms (seconds_or_ms q) = seconds_or_ms q.
Proof. intros H. unfold seconds_or_ms at 1. by rewrite H. Qed.

Lemma ms_truthy n : truthy (JNum n) = true -> num_ltb (seconds_or_ms n) ten_digits = false -> truthy (JNum (seconds_or_ms n)) = true.
Proof.
  unfold seconds_or_ms. destruct (num_ltb n ten_digits) eqn:E; [|done]. intros Hn H. destruct n as [q| | |]; try done.
  cbn [num_mul num_of_Z] in *. cbn [truthy]. cbn [truthy] in Hn. apply negb_true_iff. apply not_true_iff_false. intros Hq.
  apply Qeq_bool_iff in Hq. revert H. unfold num_ltb, ten_digits, num_of_Z. rewrite Hq. done.
Qed.

(** From 1970-04-26 on, where milliseconds have their eleven digits. *)
Lemma expiry_back v : num_ltb (Credentials.expiresAtToMs v) ten_digits = false ->
  Credentials.expiresAtToMs (JNum (Credentials.expiresAtToMs v)) = Credentials.expiresAtToMs v.
Proof.
  intros H. unfold Credentials.expiresAtToMs in *. destruct (truthy (JNum (num_or_zero v))) eqn:Hv; [|done]. cbn [negb] in *.
  pose proof (ms_truthy _ Hv H) as Ht. set (n := num_or_zero v) in *.
  change (num_or_zero (JNum (seconds_or_ms n))) with (if truthy (JNum (seconds_or_ms n)) then seconds_or_ms n else Fin 0).
  rewrite Ht, Ht. by apply seconds_or_ms_ms.
Qed.

Lemma ms_positive v : num_ltb (Credentials.expiresAtToMs v) ten_digits = false -> truthy (JNum (Credentials.expiresAtToMs v)) = true.
Proof.
  unfold Credentials.expiresAtToMs. destruct (truthy (JNum (num_or_zero v))) eqn:Hv; [by apply ms_truthy|done].
Qed.

(** ** The round trip *)

(** What the worker reads of a file with an OAuth credential. *)
Lemma read_oauth m s oauth : m <> Mode.ApiKey -> is_obj oauth = true ->
  let back := readWorkerCredentialFile (JObj [("type", JStr (Mode.mode_name m)); ("authScheme", JStr (Scheme.scheme_name s)); ("claudeAiOauth", oauth)]) in
  back?."access_token" = oauth?."accessToken" ||| oauth?."access_token" ||| JStr "" /\
  back?."refresh_token" = oauth?."refreshToken" ||| oauth?."refresh_token" ||| JStr "" /\
  back?."expires_at" = oauth?."expiresAt" ||| oauth?."expires_at" ||| JNull /\
  back?."email" = oauth?."email" ||| oauth?."emailAddress" ||| oauth?."email_address" ||| JNull /\
  back?."account_uuid" = oauth?."accountUuid" ||| oauth?."account_uuid" ||| JNull /\
  back?."org_uuid" = oauth?."orgUuid" ||| oauth?."org_uuid" ||| JNull /\
  back?."auth_scheme" = JStr (Scheme.scheme_name s) /\
  (m = Mode.SetupToken -> back?."mode" = JStr "setup-token").
Proof.
  intros Hm Ho. destruct oauth; try done. cbv zeta. destruct m; [| |done]; destruct s; split_and!; try reflexivity; done.
Qed.

(** And of a file with a console key. *)
Lemma read_api_key key s url : nonempty key = true ->
  let back := readWorkerCredentialFile
    (JObj [("type", JStr "apikey"); ("authScheme", JStr (Scheme.scheme_name s)); ("anthropicApiKey", JObj [("apiKey", JStr key); ("baseUrl", url)])]) in
  back?."auth_scheme" = JStr (Scheme.scheme_name s) /\ back?."mode" = JStr "apikey" /\ back?."api_key" = JStr key /\ back?."access_token" = JStr key.
Proof. intros Hk. destruct key; [done|]. destruct s; split_and!; reflexivity. Qed.

Ltac field_of := unfold oauth_written, set_truthy; repeat first [rewrite get_set_if_eq | rewrite get_set_if_ne by discriminate].

(** Both tokens, the identity and the time of expiry are the same. *)
Definition same_grant (n back : jsval) : Prop :=
  back?."access_token" = n?."access_token" /\ back?."refresh_token" = n?."refresh_token" /\ back?."email" = n?."email" /\
  back?."account_uuid" = n?."account_uuid" /\ back?."org_uuid" = n?."org_uuid" /\
  (num_ltb (Credentials.expiresAtToMs (n?."expires_at")) ten_digits = false ->
   Credentials.expiresAtToMs (back?."expires_at") = Credentials.expiresAtToMs (n?."expires_at")).

(** Each field that is read is the one that was written, with the defaults of the normal form. *)
Lemma oauth_back cred now scopes m s : m <> Mode.ApiKey ->
  let n := normalizeOauth cred now in
  let back := readWorkerCredentialFile
    (JObj [("type", JStr (Mode.mode_name m)); ("authScheme", JStr (Scheme.scheme_name s)); ("claudeAiOauth", oauth_written n scopes m)]) in
  back?."auth_scheme" = JStr (Scheme.scheme_name s) /\
  same_grant n back /\
  (m = Mode.SetupToken -> back?."mode" = JStr "setup-token").
Proof.
  intros Hm. cbv zeta. set (n := normalizeOauth cred now).
  assert (Ho : is_obj (oauth_written n scopes m) = true) by (unfold oauth_written, set_truthy; by repeat apply set_if_is_obj).
  unfold same_grant. destruct (read_oauth m s _ Hm Ho) as (-> & -> & -> & -> & -> & -> & -> & Hmode). split_and!; [done|..|exact Hmode]; clear Ho Hmode.
  - field_of. exact (token_back (cred?."access_token" ||| cred?."accessToken") (JStr "") eq_refl).
  - field_of. exact (field_back (cred?."refresh_token" ||| cred?."refreshToken") (JStr "") eq_refl).
  - field_of. exact (email_back (cred?."email" ||| cred?."email_address" ||| cred?."emailAddress") JNull eq_refl).
  - field_of. exact (field_back (cred?."account_uuid" ||| cred?."accountUuid") JNull eq_refl).
  - field_of. exact (field_back (cred?."org_uuid" ||| cred?."orgUuid") JNull eq_refl).
  - field_of. intros He. pose proof (ms_positive _ He) as Ht. rewrite Ht. change (JObj [("accessToken", n?."access_token" ||| JStr "")]?."expires_at") with JUndef.
    unfold or_else. rewrite !Ht. by apply expiry_back.
Qed.

(** C38: What is written for the worker of a slot is what is read back: of a console key the key
    itself, of an OAuth credential both tokens, the identity, the time it expires (when that is a
    time in milliseconds) and the label of a setup token; and the header scheme of either. *)
Theorem credential_roundtrip cred now doc :
  writeWorkerCredentialFile cred now = Some doc ->
  let n := normalizeOauth cred now in
  let mode := Mode.credentialModeFromOauth cred in
  let back := readWorkerCredentialFile doc in
  back?."auth_scheme" = JStr (Scheme.scheme_name (Scheme.resolveAuthScheme mode (cred?."auth_scheme" ||| cred?."authScheme") JUndef JUndef)) /\
  match mode with
  | Mode.ApiKey =>
    let key := JStr (trim (str_or_empty (cred?."api_key" ||| cred?."apiKey" ||| cred?."access_token" ||| cred?."accessToken"))) in
    back?."mode" = JStr "apikey" /\ back?."api_key" = key /\ back?."access_token" = key
  | _ =>
    same_grant n back /\ (mode = Mode.SetupToken -> back?."mode" = JStr "setup-token")
  end.
Proof.
  unfold writeWorkerCredentialFile. cbv zeta. set (s := Scheme.resolveAuthScheme _ _ _ _).
  destruct (Mode.credentialModeFromOauth cred) eqn:Hm.
  1: destruct (_ && _); [discriminate|]; intros H; injection H as <-; apply (oauth_back _ _ _ Mode.Oauth); discriminate.
  1: destruct (_ && _); [discriminate|]; intros H; injection H as <-; apply (oauth_back _ _ _ Mode.SetupToken); discriminate.
  destruct (nonempty (trim _)) eqn:Hk; [|discriminate]. intros H. injection H as <-. by apply read_api_key.
Qed.

Definition sample_oauth : jsval :=
  JObj [("access_token", JStr "sk-ant-oat01-a"); ("refresh_token", JStr "r"); ("expires_at", jint 1900000000);
        ("email", JStr "a@example.com"); ("auth_scheme", JStr "x_api_key")].
Definition sample_file : jsval := default JNull (writeWorkerCredentialFile sample_oauth 0).
Lemma credential_roundtrip_witness :
  (readWorkerCredentialFile sample_file)?."auth_scheme" = JStr "x_api_key" /\
  (readWorkerCredentialFile sample_file)?."access_token" = JStr "sk-ant-oat01-a" /\
  Credentials.expiresAtToMs ((readWorkerCredentialFile sample_file)?."expires_at") = Fin 1900000000000.
Proof.
  destruct (credential_roundtrip sample_oauth 0 sample_file) as (Hs & (Ha & _ & _ & _ & _ & He) & _); [reflexivity|].
  split_and!; [exact Hs|exact Ha|]. etransitivity; [apply He; vm_compute; reflexivity|vm_compute; reflexivity].
Defined.
