(* ===== verification/VmDocument.v ===== *)
(** * The credential in the document of a VM (src/src/lib/oauth/oauth-credentials.mjs)

    What a login, a refresh, a failure or a quota writes to vm.json.  Every operation reads the
    document and returns the one that is written; [manualScheduleWins] is the switch of
    src/src/lib/pool/schedule-policy.mjs. *)

From stdpp Require Import gmap strings.
From S2P Require Import Prelude.
From S2P Require Import JsValue.
From S2P Require Import JsRegex.
From S2P Require Import JsText.
From S2P Require Import JsDate.
From S2P Require Import Eligibility.
From S2P Require Import StoreFacts.
From S2P Require Import CredentialFile.
#[local] Open Scope string_scope.
#[local] Open Scope list_scope.
#[local] Open Scope js_scope.

Definition touched (vm : jsval) (now : Z) : jsval := with_field vm "updated_at" (iso_now now).
Definition claude_of (vm : jsval) : jsval := JObj (entries (vm?."claude" ||| JObj [])).
Definition with_claude (vm claude : jsval) : jsval := with_field vm "claude" claude.
Definition status_of (vm : jsval) : string := to_lower (str_or_empty (vm?."status")).

Definition QUOTA_PARK : rx := RAlt (RSeq (lits ["quota_5h"; "quota_7d"]) anything) (RSeq anything (RSeq (lit "account_quota_exhausted") anything)).
Definition isQuotaParkReason (reason : jsval) : bool :=
  let r := to_lower (str_or_empty reason) in rx_full QUOTA_PARK r || String.eqb r "rate_limited".
Definition clearClaudeAuthCooldown (claude : jsval) : jsval :=
  without (without (without claude "temp_unschedulable_until") "temp_unschedulable_reason") "oauth_401_generation".

(** [true]: the time is a number ahead. *)
Definition until_ms (until : jsval) : num := num_or_zero until.
Definition ahead (until : jsval) (now : Z) : bool := num_ltb (num_of_Z now) (until_ms until).

Definition markVmRestriction (vm until reason : jsval) (now : Z) : jsval :=
  let why := reason ||| JStr "restricted" in
  let claude := set_if (ahead until now) "temp_unschedulable_until" (JNum (until_ms until)) (claude_of vm) in
  let vm := with_claude vm (with_field claude "temp_unschedulable_reason" why) in
  let vm := set_if (ahead until now) "temp_unschedulable_until" (JNum (until_ms until)) vm in
  touched (with_field vm "temp_unschedulable_reason" why) now.

Definition park_reason (vm : jsval) : jsval := vm?."claude"?."temp_unschedulable_reason" ||| vm?."temp_unschedulable_reason".
Definition clearVmQuotaRestriction (vm : jsval) (now : Z) : jsval :=
  if negb (isQuotaParkReason (park_reason vm)) then vm
  else
    let vm := with_claude vm (without (without (claude_of vm) "temp_unschedulable_until") "temp_unschedulable_reason") in
    touched (without (without vm "temp_unschedulable_until") "temp_unschedulable_reason") now.

Definition AUTH_FAILED : string := "authentication_failed_after_refresh".
Definition markVmAuthCooldown (vm until reason generation : jsval) (now : Z) : jsval :=
  let claude := stripCredentialSecrets (claude_of vm) in
  let claude := set_if (ahead until now) "temp_unschedulable_until" (JNum (until_ms until)) claude in
  let claude := with_field claude "temp_unschedulable_reason" (reason ||| JStr AUTH_FAILED) in
  let claude := set_if (negb (is_nullish generation) && negb (is_str generation "")) "oauth_401_generation" generation claude in
  touched (with_claude vm claude) now.

Definition auth_parked (vm : jsval) : bool :=
  truthy (vm?."claude"?."temp_unschedulable_until" ||| vm?."claude"?."temp_unschedulable_reason" ||| vm?."claude"?."oauth_401_generation").
Definition drop_auth_park (vm : jsval) (now : Z) : jsval :=
  touched (with_claude vm (clearClaudeAuthCooldown (stripCredentialSecrets (vm?."claude")))) now.

Definition REVOKED : rx := lits ["oauth_revoked"; "oauth_invalid_grant"; "token has been revoked"].
Definition healLeftoverAuthState (vm : jsval) (now : Z) : jsval :=
  if negb (truthy (vm?."claude")) then vm
  else if isQuotaParkReason (park_reason vm) then vm
  else if rx_test_i REVOKED (str_or_empty (vm?."schedule_disabled_reason" ||| vm?."claude"?."refresh_error" ||| vm?."claude"?."temp_unschedulable_reason")) then vm
  else if negb (auth_parked vm) then vm
  else drop_auth_park vm now.

Definition clearVmAuthCooldown (vm : jsval) (now : Z) : jsval :=
  if negb (truthy (vm?."claude")) then vm
  else if isQuotaParkReason (park_reason vm) then vm
  else if negb (auth_parked vm) then vm
  else drop_auth_park vm now.

(** ** A new credential *)

Section Schedule.
Context (manualScheduleWins : bool).

Definition restoreScheduleAfterLiveCredential (vm : jsval) : jsval :=
  if negb (truthy vm) || negb (Credentials.hasCredentialPresence (vm?."claude")) then vm
  else if Gate.isManualScheduleLocked manualScheduleWins vm then vm
  else
    let reason := str_or_empty (vm?."schedule_disabled_reason") in
    if nonempty reason && negb (starts_with "oauth_" reason) && negb (String.eqb reason "no_credential") then vm
    else
      let vm := with_field (with_field vm "schedule_disabled_reason" JNull) "schedulable" (JBool true) in
      set_if (mem (status_of vm) ["stopped"; "paused"; "disabled"]) "status" (JStr "running") vm.

Definition rotated (prev n : jsval) : bool :=
  let prevExp := Credentials.expiresAtToMs (prev?."expires_at") in
  let nextExp := Credentials.expiresAtToMs (n?."expires_at") in
  (truthy (JNum nextExp) && truthy (JNum prevExp) && num_ltb (num_add prevExp (num_of_Z 2000)) nextExp) ||
  (truthy (n?."_token_version") && truthy (prev?."_token_version") && num_ltb (to_number (prev?."_token_version")) (to_number (n?."_token_version"))).

Definition REVOKED_BEFORE : rx := lits ["oauth_revoked"; "token has been revoked"].
Definition prev_revoked (vm prev : jsval) : bool :=
  rx_test_i REVOKED_BEFORE (str_or_empty (prev?."refresh_error" ||| prev?."temp_unschedulable_reason" ||| vm?."schedule_disabled_reason")).

(** Presence, expiry, identity and scope of a credential, without its secrets. *)
Definition credential_metadata (prev cred n : jsval) (mode : Mode.mode) : jsval :=
  let c := stripCredentialSecrets prev in
  let c := set_if (truthy (n?."access_token" ||| cred?."has_access" ||| cred?."has_api_key" ||| cred?."api_key")) "has_access" (JBool true) c in
  let c := set_if (truthy (n?."refresh_token" ||| cred?."has_refresh")) "has_refresh" (JBool true) c in
  let c := set_truthy "expires_at" (n?."expires_at") c in
  let c := set_truthy "email" (n?."email") c in
  let c := set_truthy "account_uuid" (n?."account_uuid") c in
  let c := set_truthy "org_uuid" (n?."org_uuid") c in
  let setup := bool_decide (mode = Mode.SetupToken) in
  let c := if truthy (n?."scope")
           then with_field c "scope" (if setup && is_str (n?."scope") "inference" then JStr "user:inference" else n?."scope")
           else set_if setup "scope" (JStr "user:inference") c in
  let c := set_truthy "source" (n?."source") c in
  let c := with_field c "mode" (JStr (Mode.mode_name mode)) in
  let c := with_field c "auth_scheme" (JStr (Scheme.scheme_name
             (Scheme.resolveAuthScheme mode (cred?."auth_scheme" ||| cred?."authScheme" ||| prev?."auth_scheme") JUndef JUndef))) in
  match mode with
  | Mode.ApiKey =>
    without (without (with_field (with_field c "has_api_key" (JBool true)) "has_refresh" (JBool false)) "expires_at") "scope"
  | Mode.SetupToken => if truthy (n?."refresh_token") then without c "has_api_key" else with_field (without c "has_api_key") "has_refresh" (JBool false)
  | Mode.Oauth => without c "has_api_key"
  end.

Definition persistOauthToVm (vm cred : jsval) (acceptLiveGrant : bool) (now : Z) : jsval :=
  let prev := vm?."claude" ||| JObj [] in
  let n := normalizeOauth cred now in
  let mode := Mode.credentialModeFromOauth (with_field cred "mode" (cred?."mode" ||| cred?."type" ||| prev?."mode")) in
  let claude := credential_metadata prev cred n mode in
  if prev_revoked vm prev && negb (rotated prev n) && negb acceptLiveGrant then
    touched (with_claude vm (with_field claude "refresh_error" (prev?."refresh_error" ||| JStr "oauth_revoked"))) now
  else
    let claude := with_field (with_field claude "refresh_error" JNull) "refreshed_at" (iso_now now) in
    let claude := with_field claude "_token_version" (n?."_token_version" ||| jint now) in
    touched (restoreScheduleAfterLiveCredential (with_claude vm (clearClaudeAuthCooldown claude))) now.

(** The metadata of the file the worker has rotated. *)
Definition mirrorWorkerCredentialsToVm (vm file : jsval) (acceptLiveGrant : bool) (now : Z) : option jsval :=
  let cred := readWorkerCredentialFile file in
  if negb (truthy (cred?."access_token")) && negb (truthy (cred?."refresh_token")) then None
  else Some (persistOauthToVm vm cred acceptLiveGrant now).

End Schedule.

Definition persistSlotAuthScheme (vm : jsval) (vmId : string) (rawScheme : jsval) (now : Z) : jsval :=
  let vm := with_field vm "id" (vm?."id" ||| JStr vmId) in
  let mode := Mode.credentialModeFromOauth (JObj [("type", vm?."claude"?."mode"); ("mode", vm?."claude"?."mode")]) in
  let scheme := Scheme.scheme_name (Scheme.resolveAuthScheme mode rawScheme JUndef JUndef) in
  touched (with_claude vm (with_field (vm?."claude" ||| JObj []) "auth_scheme" (JStr scheme))) now.

(** ** A failed refresh *)

Inductive refresh_class := Refreshed | AlreadyFresh | Fatal | Retryable | FailedRefresh.
Definition FATAL_REFRESH : rx :=
  lits ["invalid_grant"; "invalid_refresh_token"; "refresh_token_missing"; "refresh token not found"; "token has been revoked"; "oauth_revoked"; "oauth_no_refresh"].
Definition RETRYABLE_REFRESH : rx := lits ["timeout"; "transport"; "network"; "temporar"; "worker_unavailable"; "worker_timeout"; "worker_socket"].

Definition classifyCredentialRefresh (result : jsval) : refresh_class :=
  if truthy (result?."ok") then (if truthy (result?."refreshed") then Refreshed else AlreadyFresh)
  else
    let code := str_or_empty (result?."error"?."code" ||| result?."error_code") in
    let message := str_or_empty (result?."error"?."message" ||| result?."message" ||| result?."error") in
    let status := num_or_zero (result?."status") in
    let blob := to_lower (code ++ " " ++ message)%string in
    if rx_test FATAL_REFRESH blob then Fatal
    else if is_num (JNum status) 429 || num_leb (num_of_Z 500) status || rx_test RETRYABLE_REFRESH blob then Retryable
    else FailedRefresh.

Definition refreshErrorCodeOf (result : jsval) : string :=
  let code := trim (str_or_empty (result?."error"?."code" ||| result?."error_code")) in
  let message := str_or_empty (result?."error"?."message" ||| result?."message") in
  let blob := (code ++ " " ++ message)%string in
  if rx_test_i (lit "invalid_grant") blob then "invalid_grant"
  else if rx_test_i (lit "invalid_refresh_token") blob then "invalid_refresh_token"
  else if rx_test_i (lits ["refresh_token_missing"; "refresh token not found"]) blob then "refresh_token_missing"
  else if rx_test_i REVOKED_BEFORE blob then "oauth_revoked"
  else if nonempty code then code else "credential_refresh_failed".

Definition markVmRefreshError (vm result : jsval) (now : Z) : jsval :=
  let code := refreshErrorCodeOf result in
  let vm := with_claude vm (with_field (stripCredentialSecrets (claude_of vm)) "refresh_error" (JStr code)) in
  let vm := match classifyCredentialRefresh result with
            | Fatal =>
              let vm := with_field vm "schedulable" (JBool false) in
              let vm := with_field vm "schedule_disabled_reason" (JStr (if String.eqb code "oauth_revoked" then "oauth_revoked" else "oauth_invalid_grant")) in
              set_if (String.eqb (status_of vm) "running") "status" (JStr "paused") vm
            | _ => vm
            end in
  touched vm now.
