(* ===== verification/VmFiles.v ===== *)
(** * The registry of VMs (src/src/lib/vm/vm-registry.mjs)

    The documents of the slots by id, and every operation that changes one: it reads the document,
    changes it and writes it back.  [codexAccounts] is the list in the credentials file of a
    Codex slot, [validTimezone] the answer of [Intl]. *)

From Stdlib Require Import QArith Lqa Lia.
From stdpp Require Import gmap strings.
From S2P Require Import Prelude.
From S2P Require Import JsValue.
From S2P Require Import JsText.
From S2P Require Import JsDate.
From S2P Require Import Eligibility.
From S2P Require Import StoreFacts.
From S2P Require Import CredentialFile.
From S2P Require Import VmDocument.
From S2P Require Import CodexUsage.
#[local] Open Scope string_scope.
#[local] Open Scope list_scope.
#[local] Open Scope js_scope.

(** ** Documents and files *)

Notation files := fields (only parsing).

Definition getVm (t : files) (id : string) : jsval := if has_key id t then assoc id t else JNull.
(** The document that is written, where there is one to read. *)
Definition rewrite_vm (t : files) (id : string) (f : jsval -> jsval) : files * jsval :=
  if has_key id t then let vm := f (assoc id t) in (set_field id vm t, vm) else (t, JNull).
Definition edit (t : files) (id : string) (f : jsval -> jsval) : files := (rewrite_vm t id f).1.

Definition origin_name (o : Ownership.origin) : string :=
  match o with Ownership.OriginPlatform => "platform" | Ownership.AdminAssigned => "admin_assigned" | Ownership.UserCreated => "user_created" end.
Definition owner_value (o : option string) : jsval := match o with Some s => JStr s | None => JNull end.
Definition level_value (o : option num) : jsval := match o with Some n => JNum n | None => JNull end.

(** The models a slot may serve, trimmed, none empty. *)
Definition model_list (models : jsval) : list string := trimmed (arr_of models).

Definition or_null (v : jsval) : jsval := v ||| JNull.
Definition masked_proxy (proxy : jsval) : jsval :=
  if truthy proxy
  then spread proxy (JObj [("password", if truthy (proxy?."password") then JStr "***" else proxy?."password" ?? JNull)])
  else JNull.

Definition summarizeVm (codexAccounts : string -> list jsval) (vm : jsval) : jsval :=
  let is_codex := VmKind.isCodexVm vm in
  let codex := if is_codex then summarizeCodexSlot (codexAccounts (to_string (vm?."id"))) vm else JNull in
  let quota := codex?."usage"?."quota" ||| JObj [] in
  let pick a b := if is_codex then a else b in
  let claude := vm?."claude" in
  JObj
   [("id", vm?."id"); ("name", vm?."name"); ("status", vm?."status" ||| JStr "unknown"); ("kernel", or_null (vm?."kernel"));
    ("inference_engine", or_null (vm?."inference_engine")); ("persona_preset", or_null (vm?."persona_preset"));
    ("seed_policy", or_null (vm?."seed_policy")); ("region", vm?."region" ||| vm?."zone" ||| JNull); ("note", or_null (vm?."note"));
    ("platform", JStr (if is_codex then "openai" else "anthropic")); ("family", JStr (if is_codex then "codex" else "claude"));
    ("codex_kernel", JBool is_codex); ("email", pick (or_null (codex?."email")) (or_null (claude?."email")));
    ("account_uuid", pick JNull (or_null (claude?."account_uuid")));
    ("org_uuid", pick (or_null (vm?."codex"?."chatgpt_account_id")) (or_null (claude?."org_uuid")));
    ("has_token", JBool (if is_codex then truthy (codex?."has_token") else Credentials.hasAccessPresence claude));
    ("expires_at", pick (or_null (codex?."expires_at")) (or_null (claude?."expires_at")));
    ("refreshed_at", pick (or_null (vm?."codex"?."usage"?."snapshot"?."updated_at")) (or_null (claude?."refreshed_at")));
    ("oauth_source", pick (JStr "codex-credentials") (or_null (claude?."source")));
    ("credential_mode", pick (JStr "oauth") (claude?."mode" ||| JStr "oauth")); ("auth_scheme", pick JNull (or_null (claude?."auth_scheme")));
    ("has_refresh", JBool (if is_codex then truthy (codex?."has_refresh") else Credentials.hasRefreshPresence claude));
    ("refresh_error", pick JNull (or_null (claude?."refresh_error"))); ("account_tier", pick (JStr "codex") (or_null (claude?."account_tier")));
    ("has_session_key", JBool false); ("max_concurrency", vm?."policy"?."maxConcurrency" ?? jint 2);
    ("max_rpm", vm?."policy"?."maxRpm" ?? jint 0);
    ("allowed_models", match vm?."policy"?."allowed_models" with JArr (_ :: _) => jstrs (model_list (vm?."policy"?."allowed_models")) | _ => JNull end);
    ("weight", vm?."policy"?."weight" ?? jint 1); ("schedule_level_manual", level_value (Weight.manualScheduleLevelOf vm));
    ("timezone", or_null (vm?."timezone")); ("timezone_source", vm?."timezone_source" ||| JStr "auto"); ("locale", or_null (vm?."locale"));
    ("proxy", masked_proxy (vm?."proxy")); ("claude_code_version", or_null (vm?."claude_code_version")); ("stats", vm?."stats" ||| JObj []);
    ("fingerprint", or_null (vm?."fingerprint")); ("schedulable", JBool (negb (is_false (vm?."schedulable"))));
    ("schedule_manual", JBool (is_true (vm?."schedule_manual"))); ("schedule_disabled_reason", or_null (vm?."schedule_disabled_reason"));
    ("temp_unschedulable_until", claude?."temp_unschedulable_until" ||| vm?."temp_unschedulable_until" ||| JNull);
    ("temp_unschedulable_reason", claude?."temp_unschedulable_reason" ||| vm?."temp_unschedulable_reason" ||| JNull);
    ("owner_user_id", owner_value (Ownership.normalizeOwnerId (vm?."owner_user_id"))); ("origin", JStr (origin_name (Ownership.vmOriginOf vm)));
    ("proxy_id", or_null (vm?."proxy"?."id")); ("proxy_cli_enabled", JBool (truthy (vm?."proxy_cli_enabled")));
    ("created_at", or_null (vm?."created_at")); ("runtime", or_null (vm?."runtime")); ("ip", or_null (vm?."runtime"?."ip"));
    ("pid", or_null (vm?."runtime"?."pid")); ("container", or_null (vm?."runtime"?."container"));
    ("utilization_5h", quota?."utilization_5h" ?? JNull); ("utilization_7d", quota?."utilization_7d" ?? JNull);
    ("reset_5h", quota?."reset_5h" ?? JNull); ("reset_7d", quota?."reset_7d" ?? JNull);
    ("status_5h", quota?."status_5h" ?? JNull); ("status_7d", quota?."status_7d" ?? JNull);
    ("codex_usage", codex?."usage" ||| JNull); ("reset_credits", codex?."reset_credits" ||| JNull)].

(** The documents with an id; a file whose name does not start with [vm-] is not one. *)
Definition listVms (codexAccounts : string -> list jsval) (t : files) : list jsval :=
  map (fun p => summarizeVm codexAccounts p.2) (List.filter (fun p => starts_with "vm-" p.1 && truthy (p.2?."id")) t).

(** ** Changes of a document *)

Definition persistAccountTier (t : files) (vmId : string) (tier : jsval) (now : Z) : files * jsval :=
  let key := to_lower (str_or_empty tier) in
  if negb (mem key ["pro"; "max"]) then (t, JNull)
  else rewrite_vm t vmId (fun vm =>
    let claude := vm?."claude" ||| JObj [] in
    if is_str (claude?."account_tier") key then vm
    else touched (with_claude vm (with_field claude "account_tier" (JStr key))) now).

Definition persistAllowedModels (t : files) (vmId : string) (models : jsval) (now : Z) : files * jsval :=
  rewrite_vm t vmId (fun vm =>
    let policy := own (vm?."policy" ||| JObj []) in
    let policy := match uniq (model_list models) with
                  | [] => without policy "allowed_models"
                  | next => with_field policy "allowed_models" (jstrs next)
                  end in
    touched (with_field vm "policy" policy) now).

(** [None] is the thrown TypeError of a level that is not valid. *)
Definition persistVmScheduleLevel (t : files) (vmId : string) (value : jsval) (now : Z) : option (files * jsval) :=
  match Weight.parseScheduleLevelInput value with
  | None => None
  | Some level => Some (rewrite_vm t vmId (fun vm =>
      let policy := own (vm?."policy" ||| JObj []) in
      let policy := match level with None => without policy "priority" | Some n => with_field policy "priority" (JNum n) end in
      touched (with_field vm "policy" policy) now))
  end.

Definition patch_key (k : string) (patch vm : jsval) : jsval :=
  if has_own patch k then (if truthy (patch?.k) then with_field vm k (patch?.k) else without vm k) else vm.
Definition applySlotEnginePatch (vm patch : jsval) : jsval := patch_key "persona_preset" patch (patch_key "inference_engine" patch vm).
Definition persistSlotEnginePolicy (t : files) (vmId : string) (patch : jsval) (now : Z) : files * jsval :=
  rewrite_vm t vmId (fun vm => touched (applySlotEnginePatch vm patch) now).
Definition persistSlotEnginePolicyMany (codexAccounts : string -> list jsval) (t : files) (ids patch : jsval) (now : Z) :
    files * list string * list jsval :=
  let targets := match ids with JArr (_ :: _) => trimmed (arr_of ids) | _ => map (fun v => to_string (v?."id")) (listVms codexAccounts t) end in
  fold_left (fun (r : files * list string * list jsval) id =>
    let '(t, missing, items) := r in
    let '(t, vm) := persistSlotEnginePolicy t id patch now in
    if truthy vm then (t, missing, items ++ [summarizeVm (fun _ => []) vm]) else (t, missing ++ [id], items)) targets (t, [], []).

Inductive source := Auto | Manual | Force.

Definition set_switch (schedulable : bool) (reason : jsval) (preserveStatus : bool) (now : Z) (vm : jsval) : jsval :=
  let vm := touched (with_field (with_field vm "schedulable" (JBool schedulable)) "schedule_updated_at" (iso_now now)) now in
  if schedulable
  then set_if (negb preserveStatus && String.eqb (status_of vm) "paused") "status" (JStr "running") (with_field vm "schedule_disabled_reason" JNull)
  else set_if (negb preserveStatus && String.eqb (status_of vm) "running") "status" (JStr "paused")
         (with_field vm "schedule_disabled_reason" (reason ||| JStr "disabled")).
Definition schedule_vm (manualScheduleWins schedulable : bool) (reason : jsval) (preserveStatus : bool) (src : source) (now : Z) (vm : jsval) : jsval :=
  match src with
  | Auto => if Gate.isManualScheduleLocked manualScheduleWins vm then vm else set_switch schedulable reason preserveStatus now vm
  | Manual => set_switch schedulable reason preserveStatus now (with_field vm "schedule_manual" (JBool true))
  | Force => set_switch schedulable reason preserveStatus now vm
  end.
Definition summarized (codexAccounts : string -> list jsval) (r : files * jsval) : files * jsval :=
  (r.1, if truthy r.2 then summarizeVm codexAccounts r.2 else JNull).
Definition no_accounts (_ : string) : list jsval := [].
Definition setVmSchedulable (manualScheduleWins : bool) (t : files) (id : string) (schedulable : bool) (reason : jsval) (preserveStatus : bool)
    (src : source) (now : Z) : files * jsval :=
  summarized no_accounts (rewrite_vm t id (schedule_vm manualScheduleWins schedulable reason preserveStatus src now)).

Definition bindVmProxy (t : files) (id : string) (p : jsval) : files * jsval :=
  summarized no_accounts (rewrite_vm t id (fun vm =>
    if truthy p
    then with_field (with_field vm "proxy" (JObj
      [("id", p?."id"); ("host", p?."host"); ("port", p?."port"); ("scheme", p?."scheme" ||| p?."kind" ||| JStr "socks5");
       ("url", or_null (p?."url")); ("username", or_null (p?."username")); ("password", p?."password" ?? JNull)])) "proxy_cli_enabled" (JBool true)
    else with_field vm "proxy" JNull)).

Definition persistVmTimezone (validTimezone : jsval -> string) (t : files) (id : string) (timezone source : jsval) (now : Z) : files * jsval :=
  let zone := validTimezone timezone in
  if negb (nonempty zone) then (t, JNull)
  else summarized no_accounts (rewrite_vm t id (fun vm =>
    let vm := with_field (with_field vm "timezone" (JStr zone)) "timezone_source" source in
    let f := vm?."fingerprint" in
    let vm := set_if (truthy f && is_object f) "fingerprint" (with_field f "timezone" (JStr zone)) vm in
    touched vm now)).

Definition persistVmOwner (t : files) (id : string) (ownerUserId origin : jsval) (now : Z) : files * jsval :=
  rewrite_vm t id (fun vm =>
    let vm := with_field vm "owner_user_id" (owner_value (Ownership.normalizeOwnerId ownerUserId)) in
    touched (with_field vm "origin" (origin ||| JStr (origin_name (Ownership.vmOriginOf vm)))) now).

(** ** The schedule of a Codex slot *)

Inductive synced := SyncKeep | SyncRestrict (reason : string) (until : num) | SyncRestore (reason : string) (until : num) | SyncEnable | SyncClear.

(** The slot is back on the operator's side: on, without a reason. *)
Definition switched_on (vm : jsval) : jsval := with_field (with_field vm "schedulable" (JBool true)) "schedule_disabled_reason" JNull.
Definition force_on (t : files) (id : string) (now : Z) : files := (setVmSchedulable true t id true JNull true Force now).1.

(** [vm]: the caller's copy, which is changed too. *)
Definition restrict_slot (t : files) (vm reason : jsval) (until : num) (now : Z) : files * jsval :=
  let '(t, next) := rewrite_vm t (to_string (vm?."id")) (fun doc => markVmRestriction doc (JNum until) reason now) in
  (t, if truthy next
      then with_field (with_field (with_field vm "claude" (next?."claude")) "temp_unschedulable_until" (next?."temp_unschedulable_until"))
             "temp_unschedulable_reason" (next?."temp_unschedulable_reason")
      else vm).
Definition release_slot (t : files) (vm : jsval) (now : Z) : files * jsval :=
  let '(t, next) := rewrite_vm t (to_string (vm?."id")) (fun doc => clearVmQuotaRestriction doc now) in
  (t, if truthy next then without (without (with_field vm "claude" (next?."claude")) "temp_unschedulable_until") "temp_unschedulable_reason" else vm).

Definition syncCodexQuotaSchedule (t : files) (vm : jsval) (now : Z) : files * jsval * synced :=
  if negb (truthy (vm?."id")) then (t, vm, SyncKeep)
  else
    let id := to_string (vm?."id") in
    let leftover := Gate.isLeftoverQuotaScheduleOff vm JNull in
    match evaluateCodexQuotaSchedule vm now with
    | Restrict reason until | RestoreRestricted reason until =>
      let '(t, vm) := restrict_slot t vm (JStr reason) (if truthy (JNum until) then until else num_of_Z (now + 5 * 60000)) now in
      if leftover then (force_on t id now, switched_on vm, SyncRestore reason until) else (t, vm, SyncRestrict reason until)
    | Clear =>
      let '(t, vm) := release_slot t vm now in
      if leftover then (force_on t id now, switched_on vm, SyncEnable) else (t, vm, SyncClear)
    | Enable =>
      let '(t, vm) := release_slot t vm now in (force_on t id now, switched_on vm, SyncEnable)
    | Keep => if leftover then (force_on t id now, switched_on vm, SyncEnable) else (t, vm, SyncKeep)
    end.

Definition date_iso (v : jsval) : option string := num_to_iso (match v with JStr s => date_parse s | _ => to_number v end).

(** What a slot is known to have used, with the time it is parked until; [None] is a RangeError. *)
Definition merged_usage (codex : jsval) (headers extra limitedUntil : jsval) (now : Z) : option jsval :=
  match extraFromCodexHeaders (headers ||| JObj []) now with
  | None => None
  | Some fromHeaders =>
    let merged := spread (spread (own (codex?."extra" ||| JObj [])) (fromHeaders ||| JObj [])) (own (extra ||| JObj [])) in
    if truthy limitedUntil then option_map (fun s => with_field merged "codex_limited_until" (JStr s)) (date_iso limitedUntil)
    else
      match codexQuotaPark (with_field merged "codex_limited_until" JNull) now with
      | Some until => option_map (fun s => with_field merged "codex_limited_until" (JStr s)) (num_to_iso until)
      | None => Some (without merged "codex_limited_until")
      end
  end.
Definition usage_document (vm merged : jsval) (now : Z) : jsval :=
  let codex := own (vm?."codex" ||| JObj []) in
  touched (with_field vm "codex" (with_field (with_field codex "extra" merged) "usage" (buildCodexUsageView (extraToCodexSnapshot merged)))) now.
Definition persistCodexUsage (t : files) (vmId : string) (headers extra limitedUntil : jsval) (now : Z) : option (files * jsval) :=
  if negb (nonempty vmId) || negb (has_key vmId t) then Some (t, JNull)
  else
    let vm := assoc vmId t in
    option_map (fun merged =>
      let vm := usage_document vm merged now in
      let '(t, _, _) := syncCodexQuotaSchedule (set_field vmId vm t) vm now in
      (t, getVm t vmId ||| vm)) (merged_usage (vm?."codex" ||| JObj []) headers extra limitedUntil now).
