(* ===== verification/Bookkeeping.v ===== *)
(** * Bookkeeping of the pool scheduler (src/src/lib/pool/pool-scheduler.mjs)

    What the scheduler writes down about an account and its slot: success, rest after a failure,
    the timer that ends it, the health of a worker, and the restriction of an account whose
    quota is spent.  The state is the tables of the accounts, the documents of the VMs and the
    scheduler's own maps; [projectRoot] and the repositories are there. *)

From stdpp Require Import gmap strings.
From S2P Require Import Prelude.
From S2P Require Import JsValue.
From S2P Require Import JsText.
From S2P Require Import JsDate.
From S2P Require Import QuotaWindow.
From S2P Require Import SessionLimit.
From S2P Require Import Eligibility.
From S2P Require Import Availability.
From S2P Require Import Scheduler.
From S2P Require Import AccountStore.
From S2P Require Import StoreFacts.
From S2P Require Import AccountQuota.
From S2P Require Import CredentialFile.
From S2P Require Import VmDocument.
From S2P Require Import VmFiles.
#[local] Open Scope string_scope.
#[local] Open Scope list_scope.
#[local] Open Scope js_scope.

#[local] Existing Instance Account.registry_gate.

Record book := {
  b_quota : AccountQuota.quota;               (* this.accountQuota, with the tables of both repositories *)
  b_files : fields;                           (* vms/<id>.json *)
  b_lastUsed : gmap string Z;                 (* this.lastUsed *)
  b_health : gmap string (Z * jsval);         (* this.healthCache *)
  b_timers : gmap string num                  (* this.cooldownTimers that are running, with the time they fire *)
}.
Definition b_tables (b : book) : tables := AccountQuota.q_tables (b_quota b).
Definition with_quota (b : book) (q : AccountQuota.quota) : book :=
  {| b_quota := q; b_files := b_files b; b_lastUsed := b_lastUsed b; b_health := b_health b; b_timers := b_timers b |}.
Definition with_tables (b : book) (t : tables) : book := with_quota b (AccountQuota.set_tables (b_quota b) t).
Definition with_files (b : book) (t : fields) : book :=
  {| b_quota := b_quota b; b_files := t; b_lastUsed := b_lastUsed b; b_health := b_health b; b_timers := b_timers b |}.
Definition with_lastUsed (b : book) (m : gmap string Z) : book :=
  {| b_quota := b_quota b; b_files := b_files b; b_lastUsed := m; b_health := b_health b; b_timers := b_timers b |}.
Definition with_health (b : book) (m : gmap string (Z * jsval)) : book :=
  {| b_quota := b_quota b; b_files := b_files b; b_lastUsed := b_lastUsed b; b_health := m; b_timers := b_timers b |}.
Definition with_timers (b : book) (m : gmap string num) : book :=
  {| b_quota := b_quota b; b_files := b_files b; b_lastUsed := b_lastUsed b; b_health := b_health b; b_timers := m |}.
Definition edit_vm (b : book) (id : string) (f : jsval -> jsval) : book := with_files b (edit (b_files b) id f).

(** ** Timers *)

Definition DAY : num := num_of_Z (24 * 60 * 60 * 1000).
Definition wake_delay (until : jsval) (now : Z) : num := num_max (num_of_Z 1) (num_sub (to_number until) (num_of_Z now)).
Definition scheduleCooldownWake (b : book) (accountId : string) (until : jsval) (now : Z) : book :=
  let timers := delete accountId (b_timers b) in
  let delay := wake_delay until now in
  if negb (is_finite delay) || num_ltb DAY delay then with_timers b timers
  else with_timers b (<[accountId := num_add (num_of_Z now) delay]> timers).
(** The timer fires: it is forgotten, and every waiter is woken. *)
Definition wake (b : book) (accountId : string) : book := with_timers b (delete accountId (b_timers b)).

(** ** Outcomes of a request *)

Record used_slot := {
  u_account : string; u_vm : string; u_priority : jsval; u_weight : jsval;
  u_state : jsval; u_worker : jsval; u_claude : jsval (* [candidate.state], [.workerStatus], [.vm.claude] *)
}.

Definition millis (m : gmap string Z) (id : string) : jsval := match m !! id with Some t => jint t | None => JUndef end.
Definition has_id (id : string) : bool := nonempty id.

Definition markSuccess (b : book) (c : used_slot) (workerStatus countUsage : jsval) (now : Z) : book :=
  let counted := negb (is_false countUsage) in
  let prev := Runtime.get (b_tables b) (u_account c) in
  let b := if counted then with_lastUsed b (<[u_account c := now]> (b_lastUsed b)) else b in
  let row := JObj
    [("account_id", JStr (u_account c)); ("vm_id", JStr (u_vm c)); ("status", JStr "ready"); ("priority", u_priority c); ("weight", u_weight c);
     ("cooldown_until", JNull); ("cooldown_reason", JNull);
     ("last_used_at", if counted then jint now else prev?."last_used_at" ||| millis (b_lastUsed b) (u_account c) ||| JNull);
     ("worker_heartbeat_at", if truthy workerStatus then jint now else u_state c?."worker_heartbeat_at");
     ("worker_status", workerStatus ||| u_state c?."worker_status" ||| JNull)] in
  let b := with_tables b (Runtime.upsert (b_tables b) row now).1 in
  if has_id (u_vm c) then edit_vm b (u_vm c) (fun vm => clearVmAuthCooldown vm now) else b.

Definition generation_of (c : used_slot) : jsval :=
  u_worker c?."credential"?."generation" ?? u_state c?."credential_generation" ?? u_claude c?."_token_version" ?? u_claude c?."expires_at" ?? JNull.
Definition markCooldown (b : book) (c : used_slot) (until reason model status : jsval) (now : Z) : book :=
  let m := if truthy model then JStr (Scheduler.normalizeModel model) else JNull in
  let b := with_tables b (Runtime.markCooldown (b_tables b) (u_account c) (JStr (u_vm c)) until reason m status now).1 in
  let b :=
    if Gate.isAuthCooldownReason reason && has_id (u_vm c)
    then edit_vm b (u_vm c) (fun vm => markVmAuthCooldown vm until reason (generation_of c) now)
    else if negb (truthy model) && Account.isAccountRestrictionReason reason && has_id (u_vm c)
    then edit_vm b (u_vm c) (fun vm => markVmRestriction vm until reason now)
    else b in
  scheduleCooldownWake (with_health b (delete (u_vm c) (b_health b))) (u_account c) until now.

(** The ids of an account and its slot, each once; [true]: a rest was ended, and the waiters are woken. *)
Definition clear_for (clear : tables -> string -> jsval -> Z -> tables * bool) (b : book) (vmId accountId : string) (now : Z) : book * bool :=
  fold_left (fun (r : book * bool) id =>
    let '(t, done) := clear (b_tables r.1) id (JStr vmId) now in (with_tables r.1 t, r.2 || done))
    (uniq (List.filter has_id [accountId; vmId])) (b, false).
Definition clearAuthCooldownFor : book -> string -> string -> Z -> book * bool := clear_for Runtime.clearAuthCooldown.
Definition clearGrantRevokeCooldownFor : book -> string -> string -> Z -> book * bool := clear_for Runtime.clearGrantRevokeCooldown.

(** ** The health of a worker *)

Definition executionContext (vm : jsval) (accountId : string) (homeDir vmPath : string) (credentials : jsval) : jsval :=
  let slot := readSlotCredentialIdentity credentials in
  let claude := vm?."claude" in
  JObj [("vmId", vm?."id"); ("accountId", JStr accountId); ("vm", vm); ("vmPath", JStr vmPath); ("homeDir", JStr homeDir);
        ("oauth", JObj [("email", slot?."email" ||| claude?."email" ||| JNull);
                        ("account_uuid", slot?."account_uuid" ||| JStr accountId ||| claude?."account_uuid" ||| JNull);
                        ("org_uuid", slot?."org_uuid" ||| claude?."org_uuid" ||| JNull);
                        ("expires_at", slot?."expires_at" ||| claude?."expires_at" ||| JNull)]);
        ("proxyUrl", vm?."proxy"?."url" ||| JNull); ("timezone", vm?."timezone" ||| JStr "UTC"); ("locale", vm?."locale" ||| JStr "en_US.UTF-8");
        ("kernel", vm?."kernel" ||| JNull)].

Section Health.
(** The switch of the schedule policy; how long an answer is kept; the credentials file of the slot. *)
Context (manualScheduleWins : bool) (worker_health_ttl_ms : num) (credentials : jsval).

Definition has_credential (value : jsval) : bool := truthy (value?."credential"?."has_access") || truthy (value?."credential"?."has_refresh").

Definition health_row (vmId accountId : string) (value : jsval) (effectiveGen : num) (now : Z) : jsval :=
  JObj [("account_id", JStr accountId); ("vm_id", JStr vmId); ("status", JStr (Scheduler.runtimeHealthStatus value));
        ("worker_heartbeat_at", jint now); ("worker_status", value); ("credential_generation", JNum effectiveGen);
        ("refresh_status", value?."credential"?."credential_state" |||
           (if truthy (value?."credential"?."needs_refresh") then JStr "needed" else JStr "fresh"))].

(** The worker has a newer credential than the document of the slot; without a document or a
    credential to read there is none, and the account is bound all the same. *)
Definition mirrored (b : book) (vmId accountId : string) (now : Z) : book :=
  let vm := if has_key vmId (b_files b)
            then default JNull (mirrorWorkerCredentialsToVm manualScheduleWins (assoc vmId (b_files b)) credentials false now) else JNull in
  let b := if truthy vm then with_files b (set_field vmId vm (b_files b)) else b in
  let uuid := vm?."claude"?."account_uuid" ||| JStr accountId in
  if truthy uuid && negb (is_str uuid vmId)
  then with_quota b (AccountQuota.rebindToVm (b_quota b) uuid (JStr vmId) (vm?."claude"?."email") now).1 else b.

Definition leftover_off (live : jsval) : bool :=
  is_str (live?."schedule_disabled_reason") "oauth_cleared" || is_str (live?."schedule_disabled_reason") "oauth_no_refresh".

(** What an answer changes; [true]: waiters are woken. *)
Definition note_health (b : book) (vmId accountId homeDir : string) (value : jsval) (now : Z) : book * bool :=
  let prev := Runtime.get (b_tables b) accountId in
  let prevGen := num_or_zero (prev?."credential_generation") in
  let nextGen := num_or_zero (value?."credential"?."generation") in
  let b := with_tables b (Runtime.upsert (b_tables b) (health_row vmId accountId value (num_max prevGen nextGen) now) now).1 in
  let liveMs := Credentials.expiresAtToMs (value?."credential"?."expires_at") in
  let prevMs := Credentials.expiresAtToMs (prev?."worker_status"?."credential"?."expires_at") in
  let newer := num_ltb prevGen nextGen ||
               (truthy (JNum liveMs) && num_ltb (num_add (if truthy (JNum prevMs) then prevMs else Fin 0) (num_of_Z 2000)) liveMs) in
  let b := if truthy (value?."ok") && has_credential value && nonempty homeDir && has_id vmId && newer then mirrored b vmId accountId now else b in
  if truthy (value?."ok") && has_credential value && has_id vmId then
    let live := getVm (b_files b) vmId in
    let b := if leftover_off live && truthy (value?."credential"?."has_access") && negb (truthy (live?."claude"?."refresh_error"))
             then edit_vm b vmId (schedule_vm manualScheduleWins true JNull false Auto now) else b in
    if num_ltb (Fin 0) prevGen && num_ltb prevGen nextGen then
      let '(b, woken) := clearAuthCooldownFor b vmId accountId now in (edit_vm b vmId (fun vm => clearVmAuthCooldown vm now), woken)
    else (b, false)
  else (b, false).

(** [answer]: what the worker says, or the message of the error; the cached answer is given again while it is fresh. *)
Definition getWorkerHealth (b : book) (vmId accountId homeDir : string) (answer : string + jsval) (now : Z) : book * jsval * bool :=
  let asked :=
    let value := match answer with inr v => v | inl message => JObj [("ok", JBool false); ("error", JStr message)] end in
    let b := with_health b (<[vmId := (now, value)]> (b_health b)) in
    let '(b, woken) := if has_id accountId then note_health b vmId accountId homeDir value now else (b, false) in
    (b, value, woken) in
  match b_health b !! vmId with
  | Some (at_, value) => if num_ltb (num_of_Z (now - at_)) worker_health_ttl_ms then (b, value, false) else asked
  | None => asked
  end.

End Health.

(** ** The restriction of an account whose quota is spent *)

Definition without_park (vm : jsval) : jsval :=
  let claude := with_field (with_field (own (vm?."claude" ||| JObj [])) "temp_unschedulable_until" JUndef) "temp_unschedulable_reason" JUndef in
  with_field (with_field (with_field vm "claude" claude) "temp_unschedulable_until" JUndef) "temp_unschedulable_reason" JUndef.

Definition sync_input (b : book) (vm account lastUsedAt : jsval) (now : Z) : Account.input :=
  let n := num_of_Z now in
  {| Account.i_vm := without_park vm; Account.i_account := with_field account "last_used_at" lastUsedAt;
     Account.hasToken := JBool (truthy (vm?."claude"?."has_access") || truthy (vm?."has_token"));
     Account.hasRefresh := JBool (Credentials.hasRefreshPresence (vm?."claude") || truthy (vm?."has_refresh"));
     Account.schedulable := JBool true; Account.scheduleDisabledReason := JNull;
     Account.lastProbe := account?."last_probe" ||| account?."unified"?."last_probe" ||| JNull;
     Account.probeSource := account?."unified"?."source" ||| account?."last_probe"?."source" ||| JNull;
     Account.workerLastError := account?."worker_status"?."last_error" ||| vm?."claude"?."refresh_error";
     Account.refreshError := vm?."claude"?."refresh_error"; Account.expiresAt := vm?."claude"?."expires_at" ||| vm?."expires_at" ||| JNull;
     Account.refreshedAt := vm?."claude"?."refreshed_at" ||| vm?."refreshed_at" ||| JNull;
     Account.workerCredential := account?."worker_status"?."credential" ||| JNull;
     Account.i_quota := if truthy (account?."unified") then
         spread (listQuotaFromHeaders (account?."unified") n) (JObj
           [("last_used_at", lastUsedAt); ("last_probe", account?."last_probe" ||| account?."unified"?."last_probe");
            ("probe_source", account?."unified"?."source")])
       else JObj [];
     Account.policy := AccountQuota.policyFor (b_quota b) account (vmTierOf vm) ||| JNull;
     Account.sessionKey := JNull; Account.cooldownUntil := JNull; Account.cooldownReason := JNull; Account.now := n; Account.clock := n |}.

Definition applyQuotaRestriction (b : book) (vm : jsval) (accountId : string) (until : num) (reason : jsval) (now : Z) : book * jsval :=
  let t := (Runtime.markCooldown (b_tables b) accountId (vm?."id") (JNum until) reason JUndef (JStr "cooldown") now).1 in
  let b := with_tables b t in
  let '(f, vm) := restrict_slot (b_files b) vm reason until now in
  (scheduleCooldownWake (with_files b f) accountId (JNum until) now, vm).

Definition clearQuotaRestriction (b : book) (vm : jsval) (accountId : string) (now : Z) : book * jsval * bool :=
  let state := Runtime.get (b_tables b) accountId in
  let reason := state?."cooldown_reason" ||| vm?."claude"?."temp_unschedulable_reason" ||| vm?."temp_unschedulable_reason" in
  if truthy reason && negb (Account.isAccountRestrictionReason reason) && negb (Gate.isQuotaWindowReason reason) then (b, vm, false)
  else if Gate.isAuthCooldownReason reason then (b, vm, false)
  else
    let b := if truthy state && Account.isAccountRestrictionReason (state?."cooldown_reason")
             then with_tables b (Runtime.upsert (b_tables b) (JObj
               [("account_id", JStr accountId); ("vm_id", vm?."id"); ("cooldown_until", JNull); ("cooldown_reason", JNull); ("status", JStr "ready")]) now).1
             else b in
    let '(f, released) := release_slot (b_files b) vm now in
    let vm := if truthy (released?."claude") then released else with_field released "claude" (vm?."claude") in
    (with_files b f, vm, true).

Inductive quota_action := Kept | Restricted (reason : jsval) (until : num) | Restored (reason : jsval) (until : option num) | Enabled | Cleared.

(** The slot goes back on; the caller's copy too. *)
Definition restore_switch (b : book) (vm : jsval) (now : Z) : book * jsval :=
  (with_files b (force_on (b_files b) (to_string (vm?."id")) now), switched_on vm).

Definition account_of (b : book) (vm account : jsval) : string * jsval :=
  let accountId := to_string (account?."account_id" ||| vm?."claude"?."account_uuid" ||| vm?."id") in
  (accountId, account ||| Accounts.get (b_tables b) accountId).
Definition verdict (b : book) (vm account : jsval) (accountId : string) (now : Z) : Account.availability :=
  let lastUsedAt := millis (b_lastUsed b) accountId ||| account?."last_used_at" ||| jint 0 in
  (Account.evaluateAccount (sync_input b vm account lastUsedAt now) (None : option SessionLimit.registry)).2.

Definition syncQuotaSchedule (b : book) (vm account : jsval) (now : Z) : book * jsval * quota_action :=
  let '(accountId, account) := account_of b vm account in
  if negb (truthy (vm?."id")) || negb (truthy account) then (b, vm, Kept)
  else
    let ev := verdict b vm account accountId now in
    let reason := Account.reason ev in
    let leftover := Gate.isLeftoverQuotaScheduleOff vm JNull in
    if negb (Account.accept ev) && Gate.isQuotaWindowReason reason then
      let n := num_or_zero (Account.until ev) in
      let until := if truthy (JNum n) then n else num_of_Z (now + 5 * 60000) in
      let '(b, vm) := applyQuotaRestriction b vm accountId until reason now in
      if leftover then let '(b, vm) := restore_switch b vm now in (b, vm, Restored reason (Some until)) else (b, vm, Restricted reason until)
    else if Account.accept ev then
      let '(b, vm, _) := clearQuotaRestriction b vm accountId now in
      if leftover then let '(b, vm) := restore_switch b vm now in (b, vm, Enabled) else (b, vm, Cleared)
    else if leftover then let '(b, vm) := restore_switch b vm now in (b, vm, Restored reason None)
    else (b, vm, Kept).
