(* ===== verification/BookFacts.v ===== *)
(** * Properties of what is written down about slots (VmDocument, VmFiles, Bookkeeping, CodexUsage)

    The operator's switch outranks every automatic write; no secret stays in a document; what is
    saved of the usage of a Codex slot is lost in its summary. *)

From stdpp Require Import gmap strings.
From S2P Require Import Prelude.
From S2P Require Import JsValue.
From S2P Require Import JsText.
From S2P Require Import JsDate.
From S2P Require Import Eligibility.
From S2P Require Import StoreFacts.
From S2P Require Import Availability.
From S2P Require Import AccountStore.
From S2P Require Import AccountQuota.
From S2P Require Import CredentialFile.
From S2P Require Import VmDocument.
From S2P Require Import CodexUsage.
From S2P Require Import VmFiles.
From S2P Require Import Bookkeeping.
#[local] Open Scope string_scope.
#[local] Open Scope list_scope.
#[local] Open Scope js_scope.

(** ** The operator's switch *)

Definition by_operator (vm : jsval) : bool := is_true (vm?."schedule_manual").
(** What an automatic write leaves alone: the switch only where the operator has set it. *)
Definition held (vm : jsval) : list string := ["id"; "schedule_manual"] ++ if by_operator vm then ["schedulable"] else [].
Definition as_before (a b : jsval) : Prop := is_obj a = true -> is_obj b = true /\ forall k, k ∈ held a -> b?.k = a?.k.

Lemma held_set vm k : k ∈ held vm -> k ∈ ["id"; "schedule_manual"; "schedulable"].
Proof. unfold held. destruct (by_operator vm); set_solver. Qed.

Lemma by_operator_same a b : is_obj a = true -> as_before a b -> by_operator b = by_operator a.
Proof. intros Ho H. destruct (H Ho) as [_ Hk]. unfold by_operator. rewrite Hk; [done|]. unfold held. set_solver. Qed.

#[local] Instance as_before_preorder : PreOrder as_before.
Proof.
  split; [by intros a Ha|]. intros a b c H1 H2 Ha. destruct (H1 Ha) as [Hb K1]. destruct (H2 Hb) as [Hc K2]. split; [done|].
  intros k Hk. rewrite K2, K1; [done..|]. unfold held in *. by rewrite (by_operator_same a b).
Qed.

Lemma before_field a b k v : k ∉ ["id"; "schedule_manual"; "schedulable"] -> as_before a b -> as_before a (with_field b k v).
Proof.
  intros Hk H Ha. destruct (H Ha) as [Hb K]. split; [by destruct b|]. intros k' Hk'. rewrite get_with_field_ne; [by apply K|].
  intros ->. by apply held_set in Hk'.
Qed.

Lemma before_without a b k : k ∉ ["id"; "schedule_manual"; "schedulable"] -> as_before a b -> as_before a (without b k).
Proof.
  intros Hk H Ha. destruct (H Ha) as [Hb K]. split; [done|]. intros k' Hk'. rewrite get_without_ne; [by apply K|done|].
  intros ->. by apply held_set in Hk'.
Qed.

Lemma before_set_if a b c k v : k ∉ ["id"; "schedule_manual"; "schedulable"] -> as_before a b -> as_before a (set_if c k v b).
Proof. intros Hk H. unfold set_if. destruct c; [by apply before_field|done]. Qed.

(** A write of the switch of a slot that is not the operator's. *)
Lemma before_free a b v : by_operator a = false -> as_before a b -> as_before a (with_field b "schedulable" v).
Proof.
  intros Hf H Ha. destruct (H Ha) as [Hb K]. split; [by destruct b|]. intros k Hk. rewrite get_with_field_ne; [by apply K|].
  intros ->. unfold held in Hk. rewrite Hf in Hk. set_solver.
Qed.

Ltac switch_kept :=
  repeat first
    [ assumption | reflexivity
    | apply before_field; [not_listed|] | apply before_without; [not_listed|] | apply before_set_if; [not_listed|]
    | apply before_free; [assumption|] | case_match ].

(** ** Secrets *)

#[local] Notation secret_free := (lacks SENSITIVE_CREDENTIAL_KEYS).
(** What a secret of a grant is called. *)
Definition SECRET_NAMES : list string :=
  ["access_token"; "accessToken"; "refresh_token"; "refreshToken"; "session_key"; "sessionKey"; "id_token"; "idToken"; "api_key"; "apiKey"].
(** The part [claude] of a document has no secret among its own fields.  The other fields of the document are not looked
    at: a secret that was put beside [claude] stays there (see [secret_beside_claude]). *)
Definition metadata_only (vm : jsval) : Prop :=
  is_obj vm = true /\ (is_obj (vm?."claude") = true \/ truthy (vm?."claude") = false) /\ lacks SECRET_NAMES (vm?."claude") = true.
Lemma secrets_listed v : lacks SECRET_NAMES v = lacks SENSITIVE_CREDENTIAL_KEYS v.
Proof.
  apply Bool.eq_iff_eq_true. split; apply lacks_sub; intros k Hk; apply mem_spec in Hk; apply mem_spec;
    revert Hk; unfold mem; cbn; rewrite !orb_true_iff; intuition.
Qed.

Lemma free_if c k v o : k ∉ SENSITIVE_CREDENTIAL_KEYS -> secret_free o = true -> secret_free (set_if c k v o) = true.
Proof. intros Hk H. unfold set_if. destruct c; [by apply lacks_field|done]. Qed.

Lemma doc_claude vm c : is_obj c = true -> secret_free c = true -> metadata_only (with_claude vm c).
Proof. intros Ho Hf. unfold metadata_only, with_claude. rewrite get_with_field_eq, secrets_listed. auto. Qed.

Lemma doc_field vm k v : k <> "claude" -> metadata_only vm -> metadata_only (with_field vm k v).
Proof. intros Hk (Ho & H). split; [done|]. by rewrite get_with_field_ne. Qed.

Lemma doc_without vm k : k <> "claude" -> metadata_only vm -> metadata_only (without vm k).
Proof. intros Hk (Ho & H). split; [done|]. by rewrite get_without_ne. Qed.

Lemma doc_if vm c k v : k <> "claude" -> metadata_only vm -> metadata_only (set_if c k v vm).
Proof. intros Hk H. unfold set_if. destruct c; [by apply doc_field|done]. Qed.

Lemma claude_free vm : metadata_only vm -> secret_free (claude_of vm) = true.
Proof.
  intros (_ & Hc & Hf). rewrite secrets_listed in Hf. unfold claude_of, or_else. destruct Hc as [Hc|Hc]; [|by rewrite Hc].
  destruct (vm?."claude"); try done.
Qed.

Ltac clean :=
  repeat first
    [ assumption
    | lazymatch goal with
      | |- metadata_only (with_claude _ _) => apply doc_claude
      | |- metadata_only (with_field _ _ _) => apply doc_field; [discriminate|]
      | |- metadata_only (without _ _) => apply doc_without; [discriminate|]
      | |- metadata_only (set_if _ _ _ _) => apply doc_if; [discriminate|]
      | |- secret_free (stripCredentialSecrets _) = true => apply lacks_dropped
      | |- secret_free (claude_of _) = true => apply claude_free
      | |- secret_free (with_field _ _ _) = true => apply lacks_field; [not_listed|]
      | |- secret_free (set_if _ _ _ _) = true => apply free_if; [not_listed|]
      | |- secret_free (without _ _) = true => apply lacks_without
      | |- is_obj (set_if _ _ _ _) = true => apply set_if_is_obj
      | |- is_obj (if ?c then _ else _) = true => destruct c
      | |- is_obj (match ?c with _ => _ end) = true => destruct c
      | |- is_obj _ = true => exact eq_refl
      | |- secret_free (if ?c then _ else _) = true => destruct c
      | |- secret_free (match ?c with _ => _ end) = true => destruct c
      | |- metadata_only (if ?c then _ else _) => destruct c
      | |- metadata_only (match ?c with _ => _ end) => destruct c
      end ].

Create HintDb steady.

(** A write leaves the switch alone and stores no secret. *)
Definition steady (f : jsval -> jsval) : Prop := forall vm, as_before vm (f vm) /\ (metadata_only vm -> metadata_only (f vm)).

Lemma restriction_steady until reason now : steady (fun vm => markVmRestriction vm until reason now).
Proof. intros vm. unfold markVmRestriction, touched. cbn zeta. split; [unfold with_claude; switch_kept|intros H; clean]. Qed.

Lemma release_steady now : steady (fun vm => clearVmQuotaRestriction vm now).
Proof. intros vm. unfold clearVmQuotaRestriction, touched. cbn zeta. split; [unfold with_claude; switch_kept|intros H; clean]. Qed.

Lemma auth_steady until reason generation now : steady (fun vm => markVmAuthCooldown vm until reason generation now).
Proof. intros vm. unfold markVmAuthCooldown, touched. cbn zeta. split; [unfold with_claude; switch_kept|intros H; clean]. Qed.

Lemma clear_auth_steady now : steady (fun vm => clearVmAuthCooldown vm now).
Proof.
  intros vm. unfold clearVmAuthCooldown, drop_auth_park, clearClaudeAuthCooldown, touched. cbn zeta.
  split; [unfold with_claude; switch_kept|intros H; clean].
Qed.

Lemma usage_steady merged now : steady (fun vm => usage_document vm merged now).
Proof. intros vm. unfold usage_document, touched. cbn zeta. split; [switch_kept|intros H; clean]. Qed.

Lemma locked_or_free vm : Gate.isManualScheduleLocked true vm = false -> is_obj vm = true -> by_operator vm = false.
Proof. unfold Gate.isManualScheduleLocked, by_operator. intros Hl Ho. destruct (is_true _); [by destruct vm|done]. Qed.

Lemma set_switch_free on reason preserve now vm : by_operator vm = false -> as_before vm (set_switch on reason preserve now vm).
Proof. intros Hf. unfold set_switch, touched. cbn zeta. switch_kept. Qed.

Lemma set_switch_clean on reason preserve now vm : metadata_only vm -> metadata_only (set_switch on reason preserve now vm).
Proof. intros H. unfold set_switch, touched. cbn zeta. clean. Qed.

Lemma auto_steady on reason preserve now : steady (schedule_vm true on reason preserve Auto now).
Proof.
  intros vm. unfold schedule_vm. destruct (Gate.isManualScheduleLocked true vm) eqn:Hl; [done|].
  split; [|apply set_switch_clean]. intros Ho. by apply set_switch_free; [apply locked_or_free|].
Qed.

Lemma restore_steady : steady (restoreScheduleAfterLiveCredential true).
Proof.
  intros vm. unfold restoreScheduleAfterLiveCredential. destruct (_ || _); [done|].
  destruct (Gate.isManualScheduleLocked true vm) eqn:Hl; [done|]. cbn zeta. case_match; [done|]. split; [|intros H'; clean].
  intros Ho. pose proof (locked_or_free _ Hl Ho) as Hf. revert Ho.
  match goal with |- _ -> is_obj ?b = true /\ _ => change (as_before vm b) end. switch_kept.
Qed.

Lemma metadata_free prev cred n mode : is_obj (credential_metadata prev cred n mode) = true /\ secret_free (credential_metadata prev cred n mode) = true.
Proof. unfold credential_metadata, set_truthy. cbn zeta. split; clean. Qed.

(** Whatever was there before. *)
Lemma credential_clean vm cred accept now : metadata_only (persistOauthToVm true vm cred accept now).
Proof.
  unfold persistOauthToVm. cbn zeta. match goal with |- context [credential_metadata ?p ?c ?n ?m] =>
    destruct (metadata_free p c n m) as [Ho Hf]; generalize dependent (credential_metadata p c n m) end.
  intros c Ho Hf. unfold touched, clearClaudeAuthCooldown. destruct (_ && _); [clean|].
  apply doc_field; [done|]. apply restore_steady. clean.
Qed.

Lemma credential_steady cred accept now : steady (fun vm => persistOauthToVm true vm cred accept now).
Proof.
  intros vm. split; [|intros _; apply credential_clean]. unfold persistOauthToVm. cbn zeta. destruct (_ && _); unfold touched, with_claude; [switch_kept|].
  apply before_field; [not_listed|]. etransitivity; [|apply restore_steady]. switch_kept.
Qed.
#[local] Hint Resolve restriction_steady release_steady auth_steady clear_auth_steady usage_steady auto_steady credential_steady : steady.

Lemma refresh_error_clean vm result now : metadata_only vm -> metadata_only (markVmRefreshError vm result now).
Proof. intros H. unfold markVmRefreshError, touched. cbn zeta. clean. Qed.

(** A refresh that fails for good switches the slot off, and leaves the rest of the switch. *)
Definition fatal (result : jsval) : bool := match classifyCredentialRefresh result with Fatal => true | _ => false end.
Lemma refresh_error_switch vm result now : is_obj vm = true ->
  let doc := markVmRefreshError vm result now in
  is_obj doc = true /\ doc?."schedule_manual" = vm?."schedule_manual" /\ doc?."id" = vm?."id" /\
  doc?."schedulable" = if fatal result then JBool false else vm?."schedulable".
Proof.
  intros Ho. cbn zeta. unfold markVmRefreshError, fatal, touched, with_claude, set_if. cbn zeta.
  destruct (classifyCredentialRefresh result); try (rewrite !get_with_field_ne by done; by split_and!).
  destruct (String.eqb _ "running"); rewrite !(get_with_field_ne _ "schedule_manual"), !(get_with_field_ne _ "id") by done;
    (split_and!; [done..|]); rewrite !get_with_field_ne by done; apply get_with_field_eq.
Qed.

(** ** The files *)

(** Every file holds the document of its id. *)
Definition named (t : fields) : Prop := forall id, has_key id t = true -> is_obj (assoc id t) = true /\ (assoc id t)?."id" = JStr id.
Definition kept (t t' : fields) : Prop := forall id, has_key id t' = has_key id t /\
  as_before (assoc id t) (assoc id t') /\ (metadata_only (assoc id t) -> metadata_only (assoc id t')).

#[local] Instance kept_preorder : PreOrder kept.
Proof.
  split; [by split|]. intros a b c H1 H2 id. destruct (H1 id) as (Hb & K1 & F1). destruct (H2 id) as (Hc & K2 & F2).
  split; [by rewrite Hc|]. split; [by etransitivity|auto].
Qed.

Lemma kept_named t t' : kept t t' -> named t -> named t'.
Proof.
  intros H Hn id Hi. destruct (H id) as (Hk & K & _). rewrite Hk in Hi. destruct (Hn id Hi) as [Ho He]. destruct (K Ho) as [Ho' K']. split; [done|].
  rewrite K'; [done|]. unfold held. set_solver.
Qed.

Lemma set_kept id t vm : as_before (assoc id t) vm /\ (metadata_only (assoc id t) -> metadata_only vm) -> has_key id t = true -> kept t (set_field id vm t).
Proof.
  intros H Hi i. rewrite has_key_set. destruct (decide (i = id)) as [->|Hne].
  - by rewrite assoc_set_eq, String.eqb_refl, Hi.
  - rewrite (proj2 (String.eqb_neq _ _) Hne). by rewrite assoc_set_ne.
Qed.

Lemma edit_kept t id f : (has_key id t = true -> as_before (assoc id t) (f (assoc id t)) /\ (metadata_only (assoc id t) -> metadata_only (f (assoc id t)))) -> kept t (edit t id f).
Proof. intros H. unfold edit, rewrite_vm. destruct (has_key id t) eqn:Hi; [apply set_kept; [by apply H|done]|done]. Qed.

Lemma steady_kept t id f : steady f -> kept t (edit t id f).
Proof. intros H. apply edit_kept. intros _. apply H. Qed.

Lemma switch_on_kept t id now : (has_key id t = true -> by_operator (assoc id t) = false) -> kept t (force_on t id now).
Proof. intros H. unfold force_on, setVmSchedulable, summarized. apply edit_kept. intros Hi. split; [|apply set_switch_clean]. apply set_switch_free. by apply H. Qed.

Lemma restrict_kept t vm reason until now : kept t (restrict_slot t vm reason until now).1.
Proof.
  unfold restrict_slot. pose proof (steady_kept t (to_string (vm?."id")) _ (restriction_steady (JNum until) reason now)) as H.
  unfold edit in H. by destruct (rewrite_vm _ _ _).
Qed.

Lemma release_slot_kept t vm now : kept t (release_slot t vm now).1.
Proof.
  unfold release_slot. pose proof (steady_kept t (to_string (vm?."id")) _ (release_steady now)) as H.
  unfold edit in H. by destruct (rewrite_vm _ _ _).
Qed.

(** The caller's copy says of the switch what the file says. *)
Definition copy_of (t : fields) (vm : jsval) (id : string) : Prop :=
  vm?."id" = JStr id /\ (has_key id t = true -> by_operator vm = by_operator (assoc id t)).

Lemma leftover_free vm : Gate.isLeftoverQuotaScheduleOff vm JNull = true -> by_operator vm = false.
Proof. unfold Gate.isLeftoverQuotaScheduleOff, by_operator. by destruct (is_true _). Qed.

(** Only a slot that the operator has not switched off is switched on again. *)
Lemma force_kept t t' vm id now : named t -> copy_of t vm id -> kept t t' -> Gate.isLeftoverQuotaScheduleOff vm JNull = true ->
  kept t (force_on t' id now).
Proof.
  intros Hn [_ Hc] Hk Hl. etransitivity; [exact Hk|]. apply switch_on_kept. intros Hi. destruct (Hk id) as (Hs & Hb & _).
  rewrite Hs in Hi. rewrite (by_operator_same (assoc id t)); [|by apply Hn|done]. rewrite <- Hc by done. by apply leftover_free.
Qed.

Lemma restrict_id t vm reason until now : (restrict_slot t vm reason until now).2?."id" = vm?."id".
Proof.
  unfold restrict_slot. destruct (rewrite_vm _ _ _) as [t' next]. cbn [snd]. destruct (truthy next); [|done].
  by rewrite !get_with_field_ne.
Qed.

Lemma release_id t vm now : (release_slot t vm now).2?."id" = vm?."id".
Proof.
  unfold release_slot. destruct (rewrite_vm _ _ _) as [t' next]. cbn [snd]. destruct (truthy next); [|done].
  rewrite !get_without_ne by done. by rewrite get_with_field_ne.
Qed.

Lemma enabled_leftover vm now : evaluateCodexQuotaSchedule vm now = Enable -> Gate.isLeftoverQuotaScheduleOff vm JNull = true.
Proof.
  unfold evaluateCodexQuotaSchedule. destruct (_ || _); [done|]. destruct (codexQuotaWindowReason vm now).
  - by destruct (Gate.isLeftoverQuotaScheduleOff vm JNull).
  - destruct (Gate.isLeftoverQuotaScheduleOff vm JNull); [done|]. by destruct (hasQuotaRestriction vm).
Qed.

Lemma codex_sync_kept t vm id now : named t -> copy_of t vm id -> kept t (syncCodexQuotaSchedule t vm now).1.1.
Proof.
  intros Hn Hc. unfold syncCodexQuotaSchedule. destruct (negb _); [done|]. rewrite (proj1 Hc). cbn [to_string].
  pose proof (enabled_leftover vm now) as Hl. pose proof (release_slot_kept t vm now) as Hr.
  assert (Hf : forall t', kept t t' -> Gate.isLeftoverQuotaScheduleOff vm JNull = true -> kept t (force_on t' id now)) by (intros; by eapply force_kept).
  destruct (evaluateCodexQuotaSchedule vm now) as [|reason until|reason until| |].
  1: destruct (Gate.isLeftoverQuotaScheduleOff vm JNull); [by apply Hf|done].
  3: destruct (release_slot t vm now); by apply Hf; [|apply Hl].
  3: destruct (release_slot t vm now); destruct (Gate.isLeftoverQuotaScheduleOff vm JNull); [by apply Hf|done].
  all: match goal with |- context [restrict_slot ?t ?vm ?r ?u ?now] =>
         pose proof (restrict_kept t vm r u now) as Hk; destruct (restrict_slot t vm r u now) end;
       destruct (Gate.isLeftoverQuotaScheduleOff vm JNull); [by apply Hf|done].
Qed.

Lemma timers_files b id until now : b_files (scheduleCooldownWake b id until now) = b_files b.
Proof. unfold scheduleCooldownWake. by destruct (_ || _). Qed.

Lemma apply_kept b vm id until reason now : kept (b_files b) (b_files (applyQuotaRestriction b vm id until reason now).1).
Proof.
  unfold applyQuotaRestriction. cbn zeta. match goal with |- context [restrict_slot ?t ?vm ?r ?u ?now] =>
    pose proof (restrict_kept t vm r u now) as Hk; destruct (restrict_slot t vm r u now) end. cbn [fst]. by rewrite timers_files.
Qed.

Lemma apply_id b vm id until reason now : (applyQuotaRestriction b vm id until reason now).2?."id" = vm?."id".
Proof.
  unfold applyQuotaRestriction. cbn zeta. match goal with |- context [restrict_slot ?t ?vm ?r ?u ?now] =>
    pose proof (restrict_id t vm r u now) as Hk; destruct (restrict_slot t vm r u now) end. exact Hk.
Qed.

Lemma clear_kept b vm id now : kept (b_files b) (b_files (clearQuotaRestriction b vm id now).1.1).
Proof.
  unfold clearQuotaRestriction. destruct (_ && negb _); [done|]. destruct (Gate.isAuthCooldownReason _); [done|]. cbn zeta.
  match goal with |- context [release_slot ?t ?vm ?now] => pose proof (release_slot_kept t vm now) as Hk; destruct (release_slot t vm now) end.
  destruct (_ && _); exact Hk.
Qed.

Lemma clear_id b vm id now : (clearQuotaRestriction b vm id now).1.2?."id" = vm?."id".
Proof.
  unfold clearQuotaRestriction. destruct (_ && negb _); [done|]. destruct (Gate.isAuthCooldownReason _); [done|]. cbn zeta.
  match goal with |- context [release_slot ?t ?vm ?now] => pose proof (release_id t vm now) as Hk; destruct (release_slot t vm now) end.
  cbn [snd fst]. destruct (truthy _); [exact Hk|]. by rewrite get_with_field_ne.
Qed.

Lemma sync_kept b vm account id now : named (b_files b) -> copy_of (b_files b) vm id -> kept (b_files b) (b_files (syncQuotaSchedule b vm account now).1.1).
Proof.
  intros Hn Hc. unfold syncQuotaSchedule. destruct (account_of b vm account) as [who row]. destruct (_ || _); [done|]. cbn zeta.
  assert (Hf : forall t vm', kept (b_files b) t -> vm'?."id" = vm?."id" -> Gate.isLeftoverQuotaScheduleOff vm JNull = true ->
    kept (b_files b) (force_on t (to_string (vm'?."id")) now)) by (intros t vm' Hk -> Hl; rewrite (proj1 Hc); by eapply force_kept).
  destruct (_ && Gate.isQuotaWindowReason _).
  - match goal with |- context [applyQuotaRestriction ?b ?vm ?i ?u ?r ?now] =>
      pose proof (apply_kept b vm i u r now) as Hk; pose proof (apply_id b vm i u r now) as Hi; destruct (applyQuotaRestriction b vm i u r now) as [b' vm'] end.
    destruct (Gate.isLeftoverQuotaScheduleOff vm JNull); [by apply Hf|exact Hk].
  - destruct (Account.accept _).
    + pose proof (clear_kept b vm who now) as Hk. pose proof (clear_id b vm who now) as Hi.
      destruct (clearQuotaRestriction b vm who now) as [[b' vm'] ?].
      destruct (Gate.isLeftoverQuotaScheduleOff vm JNull); [by apply Hf|exact Hk].
    + destruct (Gate.isLeftoverQuotaScheduleOff vm JNull); [by apply Hf|done].
Qed.

(** ** The automatic writes *)

(** The outcomes of requests, the worker's answers, the meters of quotas, new credentials and failed refreshes. *)
Inductive automatic :=
| Succeeded (c : used_slot) (workerStatus countUsage : jsval)
| Rested (c : used_slot) (until reason model status : jsval)
| AuthEnded (vmId accountId : string)
| GrantEnded (vmId accountId : string)
| Asked (ttl : num) (credentials : jsval) (vmId accountId homeDir : string) (answer : string + jsval)
| QuotaSynced (summary : bool) (vmId : string) (account : jsval)
| UsageSaved (vmId : string) (headers extra limitedUntil : jsval)
| Switched (vmId : string) (on : bool) (reason : jsval) (preserveStatus : bool)
| Renewed (vmId : string) (cred : jsval) (acceptLiveGrant : bool)
| RefreshFailed (vmId : string) (result : jsval).

Section automatic.
(** The accounts in the credentials files of Codex slots. *)
Context (codexAccounts : string -> list jsval).

Definition automatically (b : book) (r : Z * automatic) : book :=
  let now := r.1 in
  match r.2 with
  | Succeeded c workerStatus countUsage => markSuccess b c workerStatus countUsage now
  | Rested c until reason model status => markCooldown b c until reason model status now
  | AuthEnded vmId accountId => (clearAuthCooldownFor b vmId accountId now).1
  | GrantEnded vmId accountId => (clearGrantRevokeCooldownFor b vmId accountId now).1
  | Asked ttl credentials vmId accountId homeDir answer => (getWorkerHealth true ttl credentials b vmId accountId homeDir answer now).1.1
  | QuotaSynced summary vmId account =>
    let vm := getVm (b_files b) vmId in
    (syncQuotaSchedule b (if summary then summarizeVm codexAccounts vm else vm) account now).1.1
  | UsageSaved vmId headers extra limitedUntil =>
    match persistCodexUsage (b_files b) vmId headers extra limitedUntil now with Some (t, _) => with_files b t | None => b end
  | Switched vmId on reason preserveStatus => edit_vm b vmId (schedule_vm true on reason preserveStatus Auto now)
  | Renewed vmId cred acceptLiveGrant => edit_vm b vmId (fun vm => persistOauthToVm true vm cred acceptLiveGrant now)
  | RefreshFailed vmId result => edit_vm b vmId (fun vm => markVmRefreshError vm result now)
  end.
Definition over_time (b : book) (l : list (Z * automatic)) : book := fold_left automatically l b.

(** The credential of the slot is lost for good. *)
Definition lost_for_good (id : string) (r : Z * automatic) : bool :=
  match r.2 with RefreshFailed vmId result => String.eqb vmId id && fatal result | _ => false end.

Lemma clear_for_files clear b vmId accountId now : b_files (clear_for clear b vmId accountId now).1 = b_files b.
Proof.
  unfold clear_for. generalize (uniq (List.filter has_id [accountId; vmId])) as l. intros l.
  enough (H : forall l r, b_files (fold_left (fun (r : book * bool) id =>
    let '(t, done) := clear (b_tables r.1) id (JStr vmId) now in (with_tables r.1 t, r.2 || done)) l r).1 = b_files r.1) by apply H.
  clear. intros l. induction l as [|x l IH]; intros r; [done|]. cbn [fold_left]. rewrite IH. by destruct (clear _ _ _ _).
Qed.

Lemma success_kept b c w u now : kept (b_files b) (b_files (markSuccess b c w u now)).
Proof.
  unfold markSuccess. cbn zeta. destruct (has_id (u_vm c)); destruct (negb (is_false u)); try done; apply steady_kept; auto with steady.
Qed.

Lemma cooldown_kept b c until reason model status now : kept (b_files b) (b_files (markCooldown b c until reason model status now)).
Proof.
  unfold markCooldown. cbn zeta. rewrite timers_files. cbn [b_files with_health].
  destruct (_ && _); [|destruct (_ && _)]; try done; apply steady_kept; auto with steady.
Qed.

Lemma mirrored_kept credentials b vmId accountId now : kept (b_files b) (b_files (mirrored true credentials b vmId accountId now)).
Proof.
  unfold mirrored. cbn zeta. match goal with |- kept ?t (b_files (if _ then with_quota ?b' _ else _)) => enough (H : kept t (b_files b')) by (destruct (_ && _); exact H) end.
  destruct (has_key vmId (b_files b)) eqn:Hi; [|done]. unfold mirrorWorkerCredentialsToVm. destruct (_ && _); [done|]. cbn [default].
  match goal with |- context [truthy ?v] => destruct (truthy v) end; [|done]. apply set_kept; [apply credential_steady|done].
Qed.

Lemma if_kept (c : bool) (t : fields) (a b : book) : kept t (b_files a) -> kept t (b_files b) -> kept t (b_files (if c then a else b)).
Proof. by destruct c. Qed.

Lemma note_kept credentials b vmId accountId homeDir value now :
  kept (b_files b) (b_files (note_health true credentials b vmId accountId homeDir value now).1).
Proof.
  unfold note_health. cbn zeta. match goal with |- context [if ?c then mirrored true credentials ?b' vmId accountId now else ?b'] =>
    set (b1 := if c then mirrored true credentials b' vmId accountId now else b') end.
  assert (H1 : kept (b_files b) (b_files b1)) by (apply if_kept; [exact (mirrored_kept credentials (with_tables b _) vmId accountId now)|done]).
  clearbody b1. destruct (_ && _); [|exact H1].
  match goal with |- context [if ?c then edit_vm b1 vmId ?f else b1] => set (b2 := if c then edit_vm b1 vmId f else b1) end.
  assert (H2 : kept (b_files b) (b_files b2)).
  { apply if_kept; [|exact H1]. etransitivity; [exact H1|]. apply steady_kept. auto with steady. }
  clearbody b2. destruct (_ && _); [|exact H2].
  pose proof (clear_for_files Runtime.clearAuthCooldown b2 vmId accountId now) as Hc. unfold clearAuthCooldownFor.
  destruct (clear_for _ b2 vmId accountId now) as [b3 woken]. cbn [fst] in Hc |- *.
  etransitivity; [exact H2|]. rewrite <- Hc. apply steady_kept. auto with steady.
Qed.

Lemma health_kept ttl credentials b vmId accountId homeDir answer now :
  kept (b_files b) (b_files (getWorkerHealth true ttl credentials b vmId accountId homeDir answer now).1.1).
Proof.
  unfold getWorkerHealth. cbn zeta. match goal with |- context [note_health true credentials ?b' vmId accountId homeDir ?v now] =>
    pose proof (note_kept credentials b' vmId accountId homeDir v now) as H; destruct (note_health true credentials b' vmId accountId homeDir v now) as [b2 w] end.
  cbn [b_files with_health fst] in H. destruct (b_health b !! vmId) as [[at_ v]|]; [destruct (num_ltb _ _); [done|]|];
    (destruct (has_id accountId); [exact H|done]).
Qed.

Lemma summary_copy t id : named t -> copy_of t (summarizeVm codexAccounts (getVm t id)) id \/ has_key id t = false.
Proof.
  intros Hn. unfold getVm. destruct (has_key id t) eqn:Hi; [left|by right]. destruct (Hn id Hi) as [_ He].
  split; [exact He|]. intros _. unfold by_operator. change ((summarizeVm codexAccounts (assoc id t))?."schedule_manual") with (JBool (is_true (assoc id t?."schedule_manual"))).
  by destruct (is_true (assoc id t?."schedule_manual")).
Qed.

Lemma document_copy t id : named t -> copy_of t (getVm t id) id \/ has_key id t = false.
Proof. intros Hn. unfold getVm. destruct (has_key id t) eqn:Hi; [left|by right]. destruct (Hn id Hi) as [_ He]. by split. Qed.

Lemma quota_kept b summary id account now : named (b_files b) -> kept (b_files b) (b_files (automatically b (now, QuotaSynced summary id account))).
Proof.
  intros Hn. cbn [automatically fst snd]. destruct summary.
  - destruct (summary_copy (b_files b) id Hn) as [Hc|Hi]; [by eapply sync_kept|]. unfold getVm. rewrite Hi. unfold syncQuotaSchedule.
    by destruct (account_of _ _ _).
  - destruct (document_copy (b_files b) id Hn) as [Hc|Hi]; [by eapply sync_kept|]. unfold getVm. rewrite Hi. unfold syncQuotaSchedule.
    by destruct (account_of _ _ _).
Qed.

Lemma saved_kept t id headers extra limitedUntil now t' doc : named t -> persistCodexUsage t id headers extra limitedUntil now = Some (t', doc) -> kept t t'.
Proof.
  intros Hn. unfold persistCodexUsage. destruct (negb (nonempty id)); [by intros [= <- <-]|]. destruct (has_key id t) eqn:Hi; [|by intros [= <- <-]].
  cbn [orb negb]. cbn zeta. destruct (merged_usage _ _ _ _ _) as [merged|]; [|done]. cbn [option_map].
  set (vm := usage_document (assoc id t) merged now). set (t1 := set_field id vm t).
  assert (H1 : kept t t1) by (apply set_kept; [apply usage_steady|done]). pose proof (kept_named _ _ H1 Hn) as Hn1.
  assert (Hi1 : has_key id t1 = true) by (unfold t1; by rewrite has_key_set, String.eqb_refl).
  assert (Hc : copy_of t1 vm id).
  { destruct (Hn1 id Hi1) as [_ He]. unfold t1 in He. rewrite assoc_set_eq in He. split; [exact He|]. intros _. unfold t1. by rewrite assoc_set_eq. }
  pose proof (codex_sync_kept t1 vm id now Hn1 Hc) as H2. destruct (syncCodexQuotaSchedule t1 vm now) as [[t2 ?] ?]. intros [= <- <-].
  by etransitivity.
Qed.

(** Every write but that of a lost credential leaves the operator's switch alone. *)
Lemma write_kept b r : named (b_files b) -> match r.2 with RefreshFailed _ _ => True | _ => kept (b_files b) (b_files (automatically b r)) end.
Proof.
  destruct r as [now []]; intros Hn; cbn [snd]; try done; try (by apply quota_kept); cbn [automatically fst snd];
    try (apply steady_kept; auto with steady).
  - apply success_kept.
  - apply cooldown_kept.
  - unfold clearAuthCooldownFor. by rewrite clear_for_files.
  - unfold clearGrantRevokeCooldownFor. by rewrite clear_for_files.
  - apply health_kept.
  - destruct (persistCodexUsage _ _ _ _ _ _) as [[t doc]|] eqn:E; [|done]. by eapply saved_kept.
Qed.

(** The writes of a lost credential. *)
Lemma refresh_named t id result now : named t -> named (edit t id (fun vm => markVmRefreshError vm result now)).
Proof.
  intros Hn. unfold edit, rewrite_vm. destruct (has_key id t) eqn:Hi; [|done]. intros i Hk. cbn [fst] in *.
  destruct (decide (i = id)) as [->|Hne].
  - rewrite assoc_set_eq. destruct (Hn id Hi) as [Ho He]. destruct (refresh_error_switch _ result now Ho) as (H1 & _ & H2 & _). by rewrite H2.
  - rewrite assoc_set_ne by done. apply Hn. rewrite has_key_set in Hk. by rewrite (proj2 (String.eqb_neq _ _) Hne) in Hk.
Qed.

Lemma step_named b r : named (b_files b) -> named (b_files (automatically b r)).
Proof.
  intros Hn. pose proof (write_kept b r Hn) as Hs. destruct r as [now op]. 
  destruct op; first [exact (kept_named _ _ Hs Hn)|exact (refresh_named _ _ _ _ Hn)].
Qed.

(** The switch of one slot over one write. *)
Lemma step_switch b r id : named (b_files b) -> has_key id (b_files b) = true -> by_operator (assoc id (b_files b)) = true ->
  let t := b_files (automatically b r) in
  has_key id t = true /\ by_operator (assoc id t) = true /\
  (assoc id t)?."schedulable" = if lost_for_good id r then JBool false else (assoc id (b_files b))?."schedulable".
Proof.
  intros Hn Hi Hm. cbn zeta. destruct (Hn id Hi) as [Ho He].
  assert (Hk : lost_for_good id r = false -> kept (b_files b) (b_files (automatically b r)) ->
    let t := b_files (automatically b r) in has_key id t = true /\ by_operator (assoc id t) = true /\
    (assoc id t)?."schedulable" = if lost_for_good id r then JBool false else (assoc id (b_files b))?."schedulable").
  { intros Hl Hk. cbn zeta. rewrite Hl. destruct (Hk id) as (Hs & Hb & _). destruct (Hb Ho) as [_ K]. split_and!.
    - by rewrite Hs.
    - by rewrite (by_operator_same (assoc id (b_files b))).
    - apply K. unfold held. rewrite Hm. set_solver. }
  pose proof (write_kept b r Hn) as Hs. destruct r as [now op]. destruct op as [| | | | | | | | |vmId result]; try (by apply Hk). clear Hs Hk.
  unfold lost_for_good. cbn [automatically fst snd edit_vm b_files with_files]. unfold edit, rewrite_vm.
  destruct (has_key vmId (b_files b)) eqn:Hv; cbn [fst].
  - rewrite has_key_set, Hi, orb_true_r. split; [done|]. destruct (String.eqb_spec vmId id) as [->|Hne].
    + rewrite assoc_set_eq. destruct (refresh_error_switch _ result now Ho) as (_ & H1 & _ & H2). unfold by_operator in *. by rewrite H1, H2.
    + by rewrite assoc_set_ne by done.
  - destruct (String.eqb_spec vmId id) as [->|Hne]; [congruence|done].
Qed.

Definition all_metadata (t : fields) : Prop := forall id, has_key id t = true -> metadata_only (assoc id t).

Lemma step_metadata b r : named (b_files b) -> all_metadata (b_files b) -> all_metadata (b_files (automatically b r)).
Proof.
  intros Hn Hc id Hi. pose proof (write_kept b r Hn) as Hs. destruct r as [now op].
  destruct op as [| | | | | | | | |vmId result]; try (destruct (Hs id) as (Hk & _ & F); apply F, Hc; by rewrite <- Hk).
  cbn [automatically fst snd edit_vm b_files with_files] in *. unfold edit, rewrite_vm in *.
  destruct (has_key vmId (b_files b)) eqn:Hv; cbn [fst] in *; [|by apply Hc]. destruct (decide (id = vmId)) as [->|Hne].
  - rewrite assoc_set_eq. by apply refresh_error_clean, Hc.
  - rewrite assoc_set_ne by done. apply Hc. rewrite has_key_set in Hi. by rewrite (proj2 (String.eqb_neq _ _) Hne) in Hi.
Qed.

(** Whatever the pool does of itself -- it notes successes and failures, ends rests, hears from
    workers, restricts and releases slots as quotas are spent and renewed, saves usage, renews
    credentials -- a slot whose switch the operator has set stays as the operator set it, over any
    sequence of such writes; only a refresh of its credential that fails for good switches it
    off, and nothing automatic switches it on again. *)
Theorem operator_switch_kept b l id :
  named (b_files b) -> has_key id (b_files b) = true -> by_operator (assoc id (b_files b)) = true ->
  let t := b_files (over_time b l) in
  has_key id t = true /\ by_operator (assoc id t) = true /\
  (assoc id t)?."schedulable" = if existsb (lost_for_good id) l then JBool false else (assoc id (b_files b))?."schedulable".
Proof.
  revert b. induction l as [|r l IH]; intros b Hn Hi Hm; [done|]. destruct (step_switch b r id Hn Hi Hm) as (Hi' & Hm' & Hs).
  pose proof (step_named b r Hn) as Hn'.
  destruct (IH (automatically b r) Hn' Hi' Hm') as (H1 & H2 & H3). split_and!; [exact H1|exact H2|]. cbn [over_time fold_left] in H3 |- *.
  change (b_files (over_time b (r :: l))) with (b_files (fold_left automatically l (automatically b r))). unfold over_time in H3.
  rewrite H3. cbn [existsb]. rewrite Hs. by destruct (lost_for_good id r), (existsb (lost_for_good id) l).
Qed.

(** The part [claude] of the documents carries no secret: a new credential leaves none of the secret
    names there, whatever was there before, and over any sequence of automatic writes
    documents whose part [claude] holds metadata only go on so. *)
Theorem no_secret_stored b l :
  (forall vm cred accept now, metadata_only (persistOauthToVm true vm cred accept now)) /\
  (named (b_files b) -> all_metadata (b_files b) -> all_metadata (b_files (over_time b l))).
Proof.
  split; [intros; apply credential_clean|]. revert b. induction l as [|r l IH]; intros b Hn Hc; [done|].
  apply (IH (automatically b r)); [by apply step_named|by apply step_metadata].
Qed.

End automatic.

(** ** The saved usage of a Codex slot *)

Lemma view_of_view s : buildCodexUsageView (buildCodexUsageView s) = buildCodexUsageView (JObj []).
Proof.
  unfold buildCodexUsageView at 2. cbv zeta. generalize (normalizeCodexLimits (if is_nullish (s?."primary_used_percent") then extraToCodexSnapshot s else s)) as limits.
  generalize (if is_nullish (s?."primary_used_percent") then extraToCodexSnapshot s else s) as snapshot. intros snapshot limits.
  generalize (codexLimitsToQuota limits), (view_window limits "5h"), (view_window limits "7d"). intros q w5 w7. reflexivity.
Qed.

Lemma saved_view vm merged now : exists s, (usage_document vm merged now)?."codex"?."usage" = buildCodexUsageView s.
Proof.
  unfold usage_document, touched. rewrite get_with_field_ne by done. rewrite !get_with_field_eq. by eexists.
Qed.

(** What persistCodexUsage saves is a view of the meters; the summary makes a view of that view, in
    which nothing is used: no slot is ever seen as parked by who reads summaries. *)
Lemma usage_lost accounts vm merged now : VmKind.isCodexVm (usage_document vm merged now) = true ->
  let summary := summarizeVm accounts (usage_document vm merged now) in
  summary?."utilization_5h" = JNull /\ summary?."utilization_7d" = JNull /\ summary?."reset_5h" = JNull /\
  (forall t, isCodexSlotParked summary t = false) /\ stressOf summary = Fin 0.
Proof.
  intros Hk. cbn zeta. destruct (saved_view vm merged now) as [s Hs]. generalize dependent (usage_document vm merged now). intros doc Hk Hs.
  unfold summarizeVm. rewrite Hk. cbv zeta. unfold summarizeCodexSlot. rewrite Hs. cbv zeta.
  change (buildCodexUsageView s ||| extraToCodexSnapshot (doc?."codex"?."extra" ||| doc?."codex_extra" ||| JObj [])) with (buildCodexUsageView s).
  rewrite view_of_view. split; [reflexivity|]. split; [reflexivity|]. split; [reflexivity|]. split; [|reflexivity]. intros t. reflexivity.
Qed.

(** ** Witnesses *)

Definition sample_book (schedulable : bool) : book :=
  {| b_quota := AccountQuota.construct no_tables JNull JNull ∅ false false 0;
     b_files := [("vm-1", JObj [("id", JStr "vm-1"); ("status", JStr "running"); ("schedule_manual", JBool true); ("schedulable", JBool schedulable);
                                ("claude", JObj [("has_access", JBool true); ("has_refresh", JBool true)])])];
     b_lastUsed := ∅; b_health := ∅; b_timers := ∅ |}.
Definition sample_writes : list (Z * automatic) :=
  [(1000, Switched "vm-1" true JNull false); (2000, QuotaSynced true "vm-1" JNull);
   (3000, Renewed "vm-1" (JObj [("access_token", JStr "sk-ant-oat01-x")]) false)]%Z.
Definition sample_loss : Z * automatic :=
  (4000%Z, RefreshFailed "vm-1" (JObj [("error", JObj [("code", JStr "invalid_grant")])])).

Lemma sample_named v : named (b_files (sample_book v)).
Proof. intros id. cbn [sample_book b_files has_key assoc]. by destruct (String.eqb_spec id "vm-1") as [->|Hne]. Qed.

Lemma sample_metadata v : all_metadata (b_files (sample_book v)).
Proof. intros id. cbn [sample_book b_files has_key assoc]. destruct (String.eqb_spec id "vm-1") as [->|Hne]; [|done]. intros _. split_and!; [done|by left|done]. Qed.

Lemma operator_switch_kept_witness :
  (assoc "vm-1" (b_files (over_time (fun _ => []) (sample_book false) sample_writes)))?."schedulable" = JBool false /\
  (assoc "vm-1" (b_files (over_time (fun _ => []) (sample_book true) (sample_writes ++ [sample_loss]))))?."schedulable" = JBool false.
Proof.
  split.
  - apply (operator_switch_kept (fun _ => []) (sample_book false) sample_writes "vm-1"); [apply sample_named|reflexivity..].
  - apply (operator_switch_kept (fun _ => []) (sample_book true) (sample_writes ++ [sample_loss]) "vm-1"); [apply sample_named|reflexivity..].
Defined.

Lemma no_secret_stored_witness : all_metadata (b_files (over_time (fun _ => []) (sample_book true) sample_writes)).
Proof. apply no_secret_stored; [apply sample_named|apply sample_metadata]. Defined.

(** A secret beside [claude] survives a login. *)
Example secret_beside_claude :
  (persistOauthToVm true (JObj [("id", JStr "vm-1"); ("access_token", JStr "sk-ant-oat01-old")]) (JObj [("access_token", JStr "sk-ant-oat01-new")]) false 0)?."access_token"
  = JStr "sk-ant-oat01-old".
Proof. vm_compute. reflexivity. Qed.
