(* ===== verification/CodexRequest.v ===== *)
(** * Requests to Codex slots (src/src/lib/protocol/codex-route.mjs, codex-restriction.mjs, openai-wash.mjs,
    and the requests of codex-convert.mjs)

    Which protocols and clients may use a Codex slot, and the one form, that of the Responses
    API, in which a request is sent.  The configuration [raw] is undefined or an object; None is
    a thrown TypeError. *)

From stdpp Require Import gmap strings.
From S2P Require Import Prelude.
From S2P Require Import JsValue.
From S2P Require Import JsRegex.
From S2P Require Import JsText.
From S2P Require Import Eligibility.
From S2P Require Import Ranking.
From S2P Require Import CredentialFile.
#[local] Open Scope string_scope.
#[local] Open Scope list_scope.
#[local] Open Scope js_scope.

(** ** Rotation settings (codex-rotate.mjs) *)

Definition DEFAULT_LENGTHS : list num := [num_of_Z 292; num_of_Z 332].
Record rotate := {
  r_enabled : bool; inject_state : bool; auto_collect : bool;
  state_lengths : list num; state_ttl_seconds : num; probe_model : string
}.
Definition DEFAULT_PROBE_MODEL : string := "gpt-6-astra".
Definition normalizeCodexRotate (raw : jsval) : rotate :=
  let lengths := match raw?."state_lengths" with
                 | JArr l => List.filter (fun n => is_finite n && num_ltb (Fin 0) n) (map to_number l)
                 | _ => DEFAULT_LENGTHS
                 end in
  let ttl := to_number (raw?."state_ttl_seconds") in
  let probe := trim (to_string (raw?."probe_model" ||| JStr DEFAULT_PROBE_MODEL)) in
  {| r_enabled := is_true (raw?."enabled"); inject_state := negb (is_false (raw?."inject_state"));
     auto_collect := negb (is_false (raw?."auto_collect"));
     state_lengths := match lengths with [] => DEFAULT_LENGTHS | _ => lengths end;
     state_ttl_seconds := if is_finite ttl && num_leb (num_of_Z 60) ttl then num_floor ttl else num_of_Z 3600;
     probe_model := if nonempty probe then probe else DEFAULT_PROBE_MODEL |}.

(** ** Routing (codex-route.mjs) *)

Inductive route_mode := Native | ConvertMode | Reject.
#[global] Instance route_mode_eq : EqDecision route_mode.
Proof. solve_decision. Defined.
Definition mode_of (v : jsval) : route_mode :=
  if is_str v "native" then Native else if is_str v "convert" then ConvertMode else Reject.

Definition entry (mode : string) (enabled : bool) : jsval := JObj [("mode", JStr mode); ("enabled", JBool enabled)].
Definition DEFAULT_PROTOCOLS : jsval :=
  JObj [("openai.responses", entry "native" true); ("openai.chat", entry "convert" true);
        ("openai.completions", entry "convert" true); ("anthropic.messages", entry "reject" false)].
Definition DEFAULT_CLIENTS : jsval :=
  JObj [("official_codex", JStr "allow"); ("openai_compatible", JStr "allow"); ("claude_code", JStr "reject"); ("unknown", JStr "allow")].

Record routing := {
  c_enabled : bool;
  c_protocols : list (string * (route_mode * bool));
  chat_to_codex : bool; completions_to_codex : bool; anthropic_to_codex : bool;
  c_clients : list (string * bool);      (* true: 'allow' *)
  c_rotate : rotate
}.
Definition protocol_entry (v : jsval) : route_mode * bool :=
  let item := v ||| JObj [] in
  let mode := mode_of (item?."mode") in
  (mode, negb (is_false (item?."enabled")) && negb (bool_decide (mode = Reject))).
Definition normalizeCodexRouting (raw : jsval) : routing :=
  let protocols := spread DEFAULT_PROTOCOLS (own (raw?."protocols" ||| JObj [])) in
  let clients := spread DEFAULT_CLIENTS (own (raw?."clients" ||| JObj [])) in
  {| c_enabled := negb (is_false (raw?."enabled"));
     c_protocols := map (fun p => (p.1, protocol_entry p.2)) (entries protocols);
     chat_to_codex := negb (is_false (raw?."convert"?."chat_to_codex"));
     completions_to_codex := negb (is_false (raw?."convert"?."completions_to_codex"));
     anthropic_to_codex := is_true (raw?."convert"?."anthropic_to_codex");
     c_clients := map (fun p => (p.1, is_str p.2 "allow")) (entries clients);
     c_rotate := normalizeCodexRotate (raw?."plugin"?."rotate") |}.

Fixpoint find_key {A} (k : string) (l : list (string * A)) : option A :=
  match l with [] => None | (k', v) :: l => if String.eqb k k' then Some v else find_key k l end.

(** The code of the refusal, or the mode. *)
Definition isCodexProtocolAllowed (protocol : string) (codex : routing) : string + route_mode :=
  if negb (c_enabled codex) then inl "codex_disabled"
  else match find_key protocol (c_protocols codex) with
       | Some (mode, enabled) => if negb enabled || bool_decide (mode = Reject) then inl "protocol_not_allowed" else inr mode
       | None => inl "protocol_not_allowed"
       end.

(** ** Clients (codex-restriction.mjs) *)

Definition word_char (c : ascii) : bool := is_digit c || is_lower c || is_upper c || Ascii.eqb c "_".
(** On a text in lower case. *)
Definition OFFICIAL_CODEX_UA : rx :=
  rseqs [RAlt REps (RSeq anything (RChr (fun c => negb (word_char c)))); lit "codex"; ropt (lit "_cli");
         RAlt REps (RSeq (RChr (fun c => Ascii.eqb c "/" || is_space c)) anything)].
Definition CLAUDE_CODE_UA : rx := lits ["claude-cli"; "claude-code"; "anthropic-ai/sdk"].
Definition OPENAI_SDK_UA : rx := lits ["openai/"; "openai-node"; "openai-python"; "chatgpt-user"].

Inductive client := ClaudeCode | OfficialCodex | OpenaiCompatible | UnknownClient.
Definition client_name (c : client) : string :=
  match c with ClaudeCode => "claude_code" | OfficialCodex => "official_codex" | OpenaiCompatible => "openai_compatible" | UnknownClient => "unknown" end.
Definition classifyCodexClient (headers body : jsval) (protocol : string) : client :=
  let ua := to_string (headers?."user-agent" ||| headers?."User-Agent" ||| JStr "") in
  if rx_test_i CLAUDE_CODE_UA ua then ClaudeCode
  else if rx_full OFFICIAL_CODEX_UA (to_lower ua) || truthy (headers?."x-codex-installation-id") || truthy (headers?."session-id") then OfficialCodex
  else if rx_test_i OPENAI_SDK_UA ua || truthy (headers?."openai-beta") || is_array (body?."messages") || negb (is_nullish (body?."input")) ||
          starts_with "openai." protocol then OpenaiCompatible
  else UnknownClient.
Definition restrictCodexClient (headers body : jsval) (codex : routing) (protocol : string) : bool * client :=
  let kind := classifyCodexClient headers body protocol in
  (default false (find_key (client_name kind) (c_clients codex)), kind).

(** ** Conversion (codex-convert.mjs) *)

Definition IDENTITY_KEYS : list string :=
  ["base_url"; "custom_base_url"; "endpoint"; "hostname"; "api_key"; "authorization"; "client_metadata"].
Definition drop_keys (l : list string) (v : jsval) : jsval := JObj (fold_left (fun out k => del_field k out) l (entries v)).
Definition stripCodexIdentity (body : jsval) : jsval :=
  if negb (is_object body) then JObj []
  else
    let next := drop_keys IDENTITY_KEYS body in
    if is_object (next?."metadata")
    then with_field next "metadata" (drop_keys ["user_id"; "device_id"; "installation_id"] (next?."metadata")) else next.

Definition part_text (part : jsval) : jsval :=
  match part with
  | JStr _ => part
  | _ => if is_str (part?."type") "text" || is_str (part?."type") "input_text" || is_str (part?."type") "output_text"
         then part?."text" ||| JStr "" else JStr ""
  end.
Definition textParts (content : jsval) : jsval :=
  match content with
  | JStr _ => content
  | JArr l => JStr (Mode.array_join newline (List.filter truthy (map part_text l)))
  | _ => content?."text" ||| JStr ""
  end.

Definition message_item (role kind : string) (text : jsval) : jsval :=
  JObj [("type", JStr "message"); ("role", JStr role); ("content", JArr [JObj [("type", JStr kind); ("text", text)]])].
Definition chatMessageToInput (message : jsval) : option jsval :=
  if is_nullish message then None
  else
    let text := textParts (message?."content") in
    Some (if is_str (message?."role") "system" then message_item "developer" "input_text" text
          else if is_str (message?."role") "assistant" then message_item "assistant" "output_text" text
          else message_item "user" "input_text" text).

Definition NO_PARAMETERS : jsval := JObj [("type", JStr "object"); ("properties", JObj [])].
Definition tool_to_codex (tool : jsval) : jsval :=
  let f := tool?."function" in
  if is_str (tool?."type") "function" && truthy f
  then JObj [("type", JStr "function"); ("name", f?."name"); ("description", f?."description" ||| JStr "");
             ("parameters", f?."parameters" ||| NO_PARAMETERS)]
  else if truthy (tool?."name")
  then JObj [("type", JStr "function"); ("name", tool?."name"); ("description", tool?."description" ||| JStr "");
             ("parameters", tool?."input_schema" ||| tool?."parameters" ||| NO_PARAMETERS)]
  else tool.
Definition toolsToCodex (tools : jsval) : option jsval :=
  match tools with JArr (x :: l) => Some (JArr (map tool_to_codex (x :: l))) | _ => None end.

Definition streamed (body : jsval) : jsval := JBool (negb (is_false (body?."stream"))).
Definition chatToCodexResponses (body : jsval) : option jsval :=
  input ← mapM chatMessageToInput (arr_of (body?."messages"));
  let out := JObj [("model", body?."model"); ("input", JArr input); ("stream", streamed body); ("store", JBool false)] in
  let out := match toolsToCodex (body?."tools") with Some tools => with_field out "tools" tools | None => out end in
  let out := set_truthy "tool_choice" (body?."tool_choice") out in
  let out := set_truthy "reasoning" (body?."reasoning") out in
  let out := set_truthy "max_output_tokens" (body?."max_tokens" ||| body?."max_completion_tokens") out in
  Some (set_truthy "prompt_cache_key" (body?."prompt_cache_key") out).

Definition codexTextInput (text : jsval) : jsval := JArr [message_item "user" "input_text" (JStr (str_or_empty text))].
Definition completionsToCodexResponses (body : jsval) : jsval :=
  let prompt := match body?."prompt" with JArr l => JStr (Mode.array_join newline l) | p => JStr (str_or_empty p) end in
  let out := JObj [("model", body?."model"); ("input", codexTextInput prompt); ("stream", streamed body); ("store", JBool false)] in
  set_truthy "prompt_cache_key" (body?."prompt_cache_key") out.

Definition CODEX_REASONING_EFFORTS : list string := ["none"; "low"; "medium"; "high"; "xhigh"; "max"].
(** The empty text when there is none. *)
Definition normalizeCodexReasoningEffort (raw : jsval) : string :=
  let effort := to_lower (trim (str_or_empty raw)) in
  if negb (nonempty effort) || String.eqb effort "none" || String.eqb effort "off" then ""
  else if mem effort CODEX_REASONING_EFFORTS then effort else "medium".

Definition developer_item (item : jsval) : jsval :=
  if truthy item && is_object item && is_str (item?."type") "message" && is_str (item?."role") "system"
  then with_field (own item) "role" (JStr "developer") else item.
Definition stripUnsupportedCodexFields (body : jsval) : jsval :=
  let next := drop_keys ["max_output_tokens"; "max_tokens"; "temperature"; "prompt_cache_retention"] body in
  let effort := normalizeCodexReasoningEffort (next?."reasoning"?."effort" ||| next?."reasoning_effort") in
  let next := without next "reasoning_effort" in
  let next := if nonempty effort
              then with_field next "reasoning" (with_field (own (object_or (next?."reasoning") (JObj []))) "effort" (JStr effort))
              else without next "reasoning" in
  match next?."input" with JArr l => with_field next "input" (JArr (map developer_item l)) | _ => next end.

Definition normalizeCodexResponsesInput (body : jsval) : option jsval :=
  let next := own body in
  match next?."input" with
  | JStr s => Some (stripUnsupportedCodexFields (with_field next "input" (codexTextInput (JStr s))))
  | input => if negb (is_array input) && is_array (next?."messages")
             then option_map stripUnsupportedCodexFields (chatToCodexResponses next)
             else Some (stripUnsupportedCodexFields next)
  end.

Definition anthropicToCodexResponses (body : jsval) : option jsval :=
  let system := match body?."system" with JStr s => [JObj [("role", JStr "system"); ("content", JStr s)]] | _ => [] end in
  chatToCodexResponses (JObj
    [("model", body?."model"); ("messages", JArr (system ++ arr_of (body?."messages"))); ("tools", body?."tools");
     ("stream", body?."stream"); ("max_tokens", body?."max_tokens")]).

Inductive converted := ConvertedBody (body : jsval) (rewritten : bool) | NotAllowed.
Definition toCodexResponses (protocol : string) (body : jsval) (codex : routing) : option converted :=
  let stripped := stripCodexIdentity body in
  if String.eqb protocol "openai.responses"
  then option_map (fun b => ConvertedBody b (is_string (stripped?."input"))) (normalizeCodexResponsesInput stripped)
  else if String.eqb protocol "openai.chat" && chat_to_codex codex
  then option_map (fun b => ConvertedBody (stripUnsupportedCodexFields b) true) (chatToCodexResponses stripped)
  else if String.eqb protocol "openai.completions" && completions_to_codex codex
  then Some (ConvertedBody (stripUnsupportedCodexFields (completionsToCodexResponses stripped)) true)
  else if String.eqb protocol "anthropic.messages" && anthropic_to_codex codex
  then option_map (fun b => ConvertedBody (stripUnsupportedCodexFields b) true) (anthropicToCodexResponses stripped)
  else Some NotAllowed.
