(* ===== verification/CodexAnswer.v ===== *)
(** * Answers of Codex slots (src/src/lib/protocol/codex-convert.mjs)

    The events of a Responses stream, one line at a time, as chunks of a chat completion or as
    events of the Messages API, and the body that is assembled of them for a client that does
    not stream.  A state that the code mutates is taken and returned. *)

From stdpp Require Import gmap strings.
From S2P Require Import Prelude.
From S2P Require Import JsValue.
From S2P Require Import JsRegex.
From S2P Require Import JsText.
From S2P Require Import Eligibility.
From S2P Require Import JsJson.
From S2P Require Import Pricing.
From S2P Require Import StoreFacts.
From S2P Require Import JsonParse.
From S2P Require Import CredentialFile.
#[local] Open Scope string_scope.
#[local] Open Scope list_scope.
#[local] Open Scope js_scope.

(** ** Lines *)

Inductive sse_line := Skip | Done | Event (event : jsval).
Definition sse_data (line : string) : option string :=
  let trimmed := trim line in
  if starts_with "data:" trimmed then Some (trim (drop_chars 5 trimmed)) else None.
Definition ends_stream (data : string) : bool := negb (nonempty data) || String.eqb data "[DONE]".
Definition parseSseData (line : string) : sse_line :=
  match sse_data line with
  | None => Skip
  | Some data => if ends_stream data then Done else match json_parse data with Some event => Event event | None => Skip end
  end.

Definition COMPLETED : list string := ["response.completed"; "response.done"].
Definition is_completed (event : jsval) : bool := existsb (is_str (event?."type")) COMPLETED.
Definition is_delta (event : jsval) : bool :=
  is_str (event?."type") "response.output_text.delta" || (truthy (event?."delta") && negb (is_completed event)).
Definition piece_of (event : jsval) : jsval := event?."delta" ||| event?."text" ||| JStr "".
Definition usage_of (event : jsval) : jsval := event?."response"?."usage" ||| event?."usage".

(** ** Chunks of a chat completion *)

Definition blank_line : string := (newline ++ newline)%string.
Definition data_frame (v : jsval) : string := ("data: " ++ text v ++ blank_line)%string.
Definition DONE_FRAME : string := ("data: [DONE]" ++ blank_line)%string.
Definition chat_chunk (id : string) (delta finish_reason : jsval) (rest : fields) : jsval :=
  JObj ([("id", JStr id); ("object", JStr "chat.completion.chunk");
         ("choices", JArr [JObj [("index", jint 0); ("delta", delta); ("finish_reason", finish_reason)]])] ++ rest).

(** None: the event is [null] and a TypeError is thrown; [Some None]: the line is left out. *)
Definition responsesSseToChatChunk (line id : string) : option (option string) :=
  match sse_data line with
  | None => Some None
  | Some data =>
    if ends_stream data then Some (Some DONE_FRAME)
    else match json_parse data with
    | None => Some None
    | Some JNull => None
    | Some event =>
      if is_delta event then Some (Some (data_frame (chat_chunk id (JObj [("content", piece_of event)]) JNull [])))
      else if is_completed event then
        let usage := openaiChatUsageFromExtract (extractOpenaiUsage (usage_of event)) in
        Some (Some (data_frame (chat_chunk id (JObj []) (JStr "stop") (if truthy usage then [("usage", usage)] else [])) ++ DONE_FRAME)%string)
      else Some None
    end
  end.

(** ** Events of the Messages API *)

Record sse_state := { started : bool; s_id : jsval; s_model : jsval; s_text : string }.
Definition createAnthropicSseState : sse_state := {| started := false; s_id := JStr "msg_codex"; s_model := JStr ""; s_text := "" |}.

Definition event_of (type : string) (payload : fields) : jsval := JObj (("type", JStr type) :: payload).
Definition anthropicEvent (v : jsval) : string :=
  ("event: " ++ to_string (v?."type") ++ newline ++ "data: " ++ text v ++ blank_line)%string.
Definition NO_USAGE : jsval := JObj [("input_tokens", jint 0); ("output_tokens", jint 0)].
Definition start_events (st : sse_state) : list jsval :=
  if started st then []
  else [event_of "message_start" [("message", JObj
          [("id", s_id st); ("type", JStr "message"); ("role", JStr "assistant"); ("model", s_model st ||| JStr "gpt"); ("content", JArr []);
           ("stop_reason", JNull); ("usage", NO_USAGE)])];
        event_of "content_block_start" [("index", jint 0); ("content_block", JObj [("type", JStr "text"); ("text", JStr "")])]].
Definition text_event (content : jsval) : jsval :=
  event_of "content_block_delta" [("index", jint 0); ("delta", JObj [("type", JStr "text_delta"); ("text", content)])].
Definition stop_events (usage : jsval) : list jsval :=
  [event_of "content_block_stop" [("index", jint 0)];
   event_of "message_delta" [("delta", JObj [("stop_reason", JStr "end_turn")]); ("usage", usage)];
   event_of "message_stop" []].

(** What the event says of the message. *)
Definition noted (event : jsval) (st : sse_state) : sse_state :=
  {| started := started st; s_id := event?."response"?."id" ||| s_id st; s_model := event?."response"?."model" ||| s_model st; s_text := s_text st |}.
Definition begun (st : sse_state) (more : string) : sse_state :=
  {| started := true; s_id := s_id st; s_model := s_model st; s_text := (s_text st ++ more)%string |}.

(** The events of an event, and of a line, before they are written out. *)
Definition event_events (event : jsval) (done : bool) (st : sse_state) : list jsval * sse_state :=
  let st := noted event st in
  if is_delta event then
    let content := piece_of event in
    if truthy content then (start_events st ++ [text_event content], begun st (to_string content)) else ([], st)
  else if is_completed event || done then
    (start_events st ++ stop_events (openaiAnthropicUsageFromExtract (extractOpenaiUsage (usage_of event))), begun st "")
  else ([], st).
Definition line_events (line : string) (st : sse_state) : list jsval * sse_state :=
  match parseSseData line with
  | Skip => ([], st)
  | Done => event_events (JObj []) true st
  | Event event => event_events (event ||| JObj []) false st
  end.
Definition responsesSseToAnthropicEvents (line : string) (st : sse_state) : option string * sse_state :=
  let '(events, st) := line_events line st in
  (match events with [] => None | _ => Some (String.concat "" (map anthropicEvent events)) end, st).

(** ** The assembled body *)

(** The texts of an output, in order. *)
Fixpoint walk (node : jsval) : list string :=
  match node with
  | JStr s => if nonempty s then [s] else []
  | JArr l => flat_map walk l
  | JObj f =>
    let under := fix under (k : string) (f : fields) : list string :=
      match f with [] => [] | (k', v) :: f => if String.eqb k k' then walk v else under k f end in
    let own_text k := match assoc k f with JStr s => [s] | _ => [] end in
    own_text "text" ++ own_text "output_text" ++ under "content" f ++ under "output" f
  | _ => []
  end.
Definition response_of (body : jsval) : jsval :=
  if truthy (body?."response") && is_object (body?."response") then body?."response" else body.
Definition outputTextFromCodex (body : jsval) : string :=
  let resp := response_of body in
  match walk (resp?."output") with
  | [] => match resp?."output_text" with JStr s => s | _ => "" end
  | chunks => String.concat "" chunks
  end.

Record assembly := { y_id : jsval; y_model : jsval; y_usage : jsval; y_deltas : list jsval }.
Definition assemble_line (a : assembly) (line : string) : assembly :=
  match parseSseData line with
  | Event ev =>
    if negb (truthy ev) then a
    else {| y_id := ev?."response"?."id" ||| y_id a; y_model := ev?."response"?."model" ||| y_model a;
            y_usage := if truthy (ev?."response"?."usage" ||| ev?."usage") then usage_of ev else y_usage a;
            y_deltas := y_deltas a ++ if is_delta ev && truthy (piece_of ev) then [piece_of ev] else [] |}
  | _ => a
  end.
Definition assembleCodexBodyFromSse (chunks : list string) (fallback : jsval) : jsval :=
  let a := fold_left assemble_line chunks
    {| y_id := fallback?."id" ||| fallback?."response"?."id"; y_model := fallback?."model" ||| fallback?."response"?."model";
       y_usage := fallback?."usage" ||| fallback?."response"?."usage" ||| JObj []; y_deltas := [] |} in
  let txt := match y_deltas a with [] => outputTextFromCodex fallback | deltas => Mode.array_join "" deltas end in
  spread (own fallback) (JObj
    [("id", y_id a ||| fallback?."id"); ("model", y_model a ||| fallback?."model");
     ("output", JArr [JObj [("content", JArr [JObj [("type", JStr "output_text"); ("text", JStr txt)]])]]); ("usage", y_usage a)]).

Definition codexBodyToAnthropicMessage (body model : jsval) : jsval :=
  let resp := response_of body in
  JObj [("id", resp?."id" ||| JStr "msg_codex"); ("type", JStr "message"); ("role", JStr "assistant");
        ("model", resp?."model" ||| model ||| JStr "gpt");
        ("content", JArr [JObj [("type", JStr "text"); ("text", JStr (outputTextFromCodex resp))]]);
        ("stop_reason", JStr "end_turn");
        ("usage", openaiAnthropicUsageFromExtract (extractOpenaiUsage (resp?."usage" ||| body?."usage" ||| JObj [])))].

(** ** Streamed and collected answers *)

(** ** The texts of a stream *)

(** What a client that streams is given, and the state after it. *)
Definition stream_step (r : list jsval * sse_state) (line : string) : list jsval * sse_state :=
  let '(events, st) := line_events line r.2 in (r.1 ++ events, st).
Definition stream_events (lines : list string) : list jsval * sse_state := fold_left stream_step lines ([], createAnthropicSseState).

Definition delta_texts (events : list jsval) : list jsval :=
  flat_map (fun e => if is_str (e?."type") "content_block_delta" then [e?."delta"?."text"] else []) events.
Definition starts (events : list jsval) : nat := length (List.filter (fun e => is_str (e?."type") "message_start") events).

(** The texts of a line. *)
Definition pieces (line : string) : list jsval :=
  match parseSseData line with
  | Event ev => if truthy ev && (is_delta ev && truthy (piece_of ev)) then [piece_of ev] else []
  | _ => []
  end.
Definition joined (l : list jsval) : string := String.concat "" (map to_string l).

Lemma concat_append (l m : list string) : String.concat "" (l ++ m) = (String.concat "" l ++ String.concat "" m)%string.
Proof. induction l as [|x l IH]; [done|]. cbn [app]. by rewrite !concat_empty_cons, IH, string_app_assoc. Qed.

Lemma joined_append l m : joined (l ++ m) = (joined l ++ joined m)%string.
Proof. unfold joined. by rewrite map_app, concat_append. Qed.

Lemma joined_nil_r l : (l ++ joined [])%string = l.
Proof. apply string_app_nil. Qed.

Lemma array_join_joined l : Forall (fun v => truthy v = true) l -> Mode.array_join "" l = joined l.
Proof.
  intros H. unfold Mode.array_join, joined.
  assert (Hm : map (fun x => if is_nullish x then "" else to_string x) l = map to_string l).
  { induction H as [|v l Hv H IH]; [done|]. cbn [map]. rewrite IH. by destruct v. }
  rewrite Hm. clear. induction (map to_string l) as [|x m IH]; [done|]. rewrite concat_empty_cons, <- IH. destruct m as [|y m]; [exact (string_app_nil x)|done].
Qed.

(** ** One line *)

Lemma noted_text event st : s_text (noted event st) = s_text st /\ started (noted event st) = started st.
Proof. done. Qed.

Lemma delta_texts_app l m : delta_texts (l ++ m) = delta_texts l ++ delta_texts m.
Proof. apply flat_map_app. Qed.
Lemma starts_app l m : starts (l ++ m) = (starts l + starts m)%nat.
Proof. unfold starts. by rewrite List.filter_app, length_app. Qed.

Lemma start_texts st : delta_texts (start_events st) = [].
Proof. unfold start_events. by destruct (started st). Qed.
Lemma start_count st : starts (start_events st) = if started st then 0%nat else 1%nat.
Proof. unfold start_events. by destruct (started st). Qed.

Lemma falsy_delta ev : truthy ev = false -> is_delta (ev ||| JObj []) = false.
Proof. intros H. unfold or_else. by rewrite H. Qed.

Definition event_pieces (event : jsval) : list jsval := if is_delta event && truthy (piece_of event) then [piece_of event] else [].

(** What a line adds: its texts [l], in events that begin the message when it was not begun. *)
Definition adds (l events : list jsval) (st st' : sse_state) : Prop :=
  delta_texts events = l /\ s_text st' = (s_text st ++ joined l)%string /\
  started st' = started st || negb (Nat.eqb (length events) 0) /\
  starts events = (if started st then 0 else if started st' then 1 else 0)%nat.

Lemma adds_nothing st : adds [] [] st st.
Proof. split_and!; [done|by rewrite joined_nil_r|by rewrite orb_false_r|by destruct (started st)]. Qed.

Lemma event_adds event done st : let '(events, st') := event_events event done st in adds (event_pieces event) events st st'.
Proof.
  unfold event_events, event_pieces. cbn zeta. destruct (is_delta event); cbn [andb].
  - destruct (truthy (piece_of event)); [|apply (adds_nothing (noted event st))]. unfold adds.
    rewrite delta_texts_app, starts_app, start_texts, start_count, length_app, Nat.add_1_r. cbn [begun noted started s_text].
    split_and!; [done|done|by rewrite orb_true_r|by destruct (started st)].
  - destruct (is_completed event || done); [|apply (adds_nothing (noted event st))]. unfold adds.
    rewrite delta_texts_app, starts_app, start_texts, start_count, length_app, Nat.add_comm. cbn [begun noted started s_text].
    split_and!; [done|done|by rewrite orb_true_r|by destruct (started st)].
Qed.

Lemma line_adds line st : let '(events, st') := line_events line st in adds (pieces line) events st st'.
Proof.
  unfold line_events, pieces. destruct (parseSseData line) as [| |ev].
  - apply adds_nothing.
  - apply (event_adds (JObj []) true st).
  - pose proof (event_adds (ev ||| JObj []) false st) as H. unfold event_pieces in H. unfold or_else in *.
    destruct (truthy ev); cbn [andb]; exact H.
Qed.

Lemma assemble_adds a line : y_deltas (assemble_line a line) = y_deltas a ++ pieces line.
Proof.
  unfold assemble_line, pieces. destruct (parseSseData line) as [| |ev]; [by rewrite app_nil_r..|].
  destruct (truthy ev); cbn [negb andb y_deltas]; [done|by rewrite app_nil_r].
Qed.

(** ** All lines *)

Lemma stream_adds lines events st :
  let '(events', st') := fold_left stream_step lines (events, st) in
  exists more, events' = events ++ more /\ adds (flat_map pieces lines) more st st'.
Proof.
  revert events st. induction lines as [|line lines IH]; intros events st; cbn [fold_left flat_map].
  - exists []. split; [by rewrite app_nil_r|apply adds_nothing].
  - unfold stream_step at 2. cbn [fst snd]. pose proof (line_adds line st) as H. destruct (line_events line st) as [ev st1].
    specialize (IH (events ++ ev) st1). destruct (fold_left stream_step lines (events ++ ev, st1)) as [events' st'].
    destruct IH as (more & -> & H2 & H3 & H4 & H5). destruct H as (K2 & K3 & K4 & K5). exists (ev ++ more). rewrite app_assoc. split; [done|].
    unfold adds. rewrite delta_texts_app, starts_app, H2, K2, H3, K3, H4, K4, H5, K5, ?K4, ?H4, ?K4, length_app, joined_append, string_app_assoc.
    split_and!; [done|done| |].
    + destruct (started st); cbn [orb]; [done|]. by destruct (length ev).
    + destruct (started st); cbn [orb]; [done|]. destruct (length ev); cbn; [|done]. by destruct (length more).
Qed.

Lemma assemble_all lines a : y_deltas (fold_left assemble_line lines a) = y_deltas a ++ flat_map pieces lines.
Proof.
  revert a. induction lines as [|line lines IH]; intros a; [by rewrite app_nil_r|]. cbn [fold_left flat_map]. by rewrite IH, assemble_adds, app_assoc.
Qed.

Lemma pieces_truthy lines : Forall (fun v => truthy v = true) (flat_map pieces lines).
Proof.
  induction lines as [|line lines IH]; [constructor|]. cbn [flat_map]. apply Forall_app. split; [|exact IH]. unfold pieces.
  destruct (parseSseData line) as [| |ev]; [constructor..|]. destruct (truthy ev && _) eqn:E; [|constructor]. repeat constructor.
  by apply andb_true_iff in E as [_ [_ ?]%andb_true_iff].
Qed.

(** The text of a message of the Messages API. *)
Definition message_text (message : jsval) : jsval := match message?."content" with JArr (b :: _) => b?."text" | _ => JUndef end.

Lemma own_get v k : is_array v = false -> is_string v = false -> (own v)?.k = v?.k.
Proof. by destruct v. Qed.

Lemma message_of_assembly lines fallback model : flat_map pieces lines <> [] -> is_obj fallback = true -> is_object (fallback?."response") = false ->
  message_text (codexBodyToAnthropicMessage (assembleCodexBodyFromSse lines fallback) model) = JStr (joined (flat_map pieces lines)).
Proof.
  intros Hp Ho Hr. unfold assembleCodexBodyFromSse. cbn zeta. rewrite assemble_all. cbn [y_deltas app].
  match goal with |- context [spread (own fallback) ?w] => set (body := spread (own fallback) w) end.
  assert (Hb : body?."response" = fallback?."response") by (unfold body; rewrite get_spread_other by done; by destruct fallback).
  assert (Hresp : response_of body = body) by (unfold response_of; by rewrite Hb, Hr, andb_false_r).
  unfold codexBodyToAnthropicMessage, message_text. cbn zeta. rewrite Hresp. cbn [get assoc]. unfold outputTextFromCodex. rewrite Hresp.
  assert (Hout : body?."output" = JArr [JObj [("content", JArr [JObj [("type", JStr "output_text"); ("text", JStr (joined (flat_map pieces lines)))]])]]).
  { unfold body. rewrite get_spread_own by (reflexivity || distinct_keys). cbn [assoc]. cbn. rewrite <- array_join_joined by apply pieces_truthy.
    destruct (flat_map pieces lines); done. }
  rewrite Hout. cbn. by rewrite ?string_app_nil.
Qed.

(** A client of the Messages API is given the same text whether it streams or not: over any
    lines of a Codex slot, the texts of the events that are streamed are, in order, those the
    assembled message holds (when there are any, and the body of the answer holds no response of
    its own), and the message is begun exactly once, before its first text. *)
Theorem codex_stream_agrees lines :
  let '(events, st) := stream_events lines in
  let texts := delta_texts events in
  s_text st = joined texts /\
  starts events = (if Nat.eqb (length events) 0 then 0 else 1)%nat /\
  (forall fallback model, texts <> [] -> is_obj fallback = true -> is_object (fallback?."response") = false ->
   message_text (codexBodyToAnthropicMessage (assembleCodexBodyFromSse lines fallback) model) = JStr (joined texts)).
Proof.
  unfold stream_events. pose proof (stream_adds lines [] createAnthropicSseState) as H.
  destruct (fold_left stream_step lines ([], createAnthropicSseState)) as [events st]. destruct H as (more & -> & H2 & H3 & H4 & H5). cbn [app] in *.
  rewrite H2. split_and!; [exact H3| |intros; by apply message_of_assembly]. rewrite H5, H4. cbn. by destruct (length more).
Qed.

Definition sample_lines : list string :=
  map quoted_keys ["event: response.created"; "data: {'type':'response.created','response':{'id':'r1','model':'gpt-6'}}";
                   "data: {'type':'response.output_text.delta','delta':'Hel'}"; "data: {'type':'response.output_text.delta','delta':'lo'}";
                   "data: {'type':'response.completed','response':{'usage':{'input_tokens':3,'output_tokens':2}}}"].
Lemma codex_stream_agrees_witness :
  delta_texts (stream_events sample_lines).1 = [JStr "Hel"; JStr "lo"] /\
  message_text (codexBodyToAnthropicMessage (assembleCodexBodyFromSse sample_lines (JObj [])) JNull) = JStr "Hello".
Proof.
  split; [vm_compute; reflexivity|]. pose proof (codex_stream_agrees sample_lines) as H.
  destruct (stream_events sample_lines) as [events st] eqn:E. destruct H as (_ & _ & H).
  assert (Hd : delta_texts events = [JStr "Hel"; JStr "lo"]).
  { change events with ((events, st).1). rewrite <- E. vm_compute. reflexivity. }
  rewrite H by (rewrite ?Hd; done). by rewrite Hd.
Defined.

(** The end of a stream is not remembered: a [DONE] after a completed response ends the message again. *)
Lemma ended_twice :
  let events := (stream_events (sample_lines ++ ["data: [DONE]"])).1 in
  length (List.filter (fun e => is_str (e?."type") "message_stop") events) = 2%nat.
Proof. vm_compute. reflexivity. Qed.
