(* ===== verification/CodexSlot.v ===== *)
(** * Credentials of Codex slots (src/src/lib/vm/codex-slot.mjs)

    What is accepted as the credential of a ChatGPT account, and the list of accounts in the
    file of a slot.  A credential is a tree of JSON: no object is met twice, so the set of
    objects already seen is left out. *)

From stdpp Require Import gmap strings.
From S2P Require Import Prelude.
From S2P Require Import JsValue.
From S2P Require Import JsText.
From S2P Require Import JsDate.
From S2P Require Import JsonParse.
From S2P Require Import StoreFacts.
From S2P Require Import CredentialFile.
From S2P Require Import VmDocument.
From S2P Require Import CodexUsage.
From S2P Require Import VmFiles.
#[local] Open Scope string_scope.
#[local] Open Scope list_scope.
#[local] Open Scope js_scope.

(** ** Tokens *)

Fixpoint firstString (values : list jsval) : string :=
  match values with
  | [] => ""
  | value :: values => let text := trim (str_or_empty value) in if nonempty text then text else firstString values
  end.
Definition looksLikeClaudeSecret (text : string) : bool := starts_with "sk-ant-" (to_lower (trim text)).

Record tokens := { access : string; refresh : string; idToken : string }.
Definition no_tokens : tokens := {| access := ""; refresh := ""; idToken := "" |}.
Definition unless_found (found : string) (nested : jsval) : string := if nonempty found then found else firstString [nested].
(** One key of an object: a token, or an object to visit later. *)
Definition on_key (r : tokens * list jsval) (p : string * jsval) : tokens * list jsval :=
  let '(t, pending) := r in let '(key, nested) := p in
  if mem key ["accessToken"; "access_token"] then ({| access := unless_found (access t) nested; refresh := refresh t; idToken := idToken t |}, pending)
  else if mem key ["refreshToken"; "refresh_token"] then ({| access := access t; refresh := unless_found (refresh t) nested; idToken := idToken t |}, pending)
  else if mem key ["idToken"; "id_token"] then ({| access := access t; refresh := refresh t; idToken := unless_found (idToken t) nested |}, pending)
  else (t, if is_object nested then nested :: pending else pending).
(** The stack of objects to visit, its top first; None: out of fuel. *)
Fixpoint visit (fuel : nat) (pending : list jsval) (t : tokens) : option tokens :=
  match pending with
  | [] => Some t
  | current :: pending =>
    match fuel with
    | O => None
    | S fuel =>
      match current with
      | JArr l => visit fuel (rev l ++ pending) t
      | JObj f => let '(t, pending) := fold_left on_key f (t, pending) in visit fuel pending t
      | _ => visit fuel pending t
      end
    end
  end.
(** The number of values of a tree. *)
Fixpoint weight (v : jsval) : nat :=
  match v with
  | JArr l => S (list_sum (map weight l))
  | JObj f => S (list_sum (map (fun p => weight p.2) f))
  | _ => 1
  end%nat.
Definition extractOauthTokens (value : jsval) : tokens := default no_tokens (visit (weight value) [value] no_tokens).

(** ** Documents *)

Definition provider_ok (entry : jsval) : bool :=
  let provider := to_lower (trim (str_or_empty (entry?."provider"))) in
  negb (nonempty provider) || mem provider ["openai"; "codex"].
Fixpoint collectImportCandidates (doc : jsval) : list jsval :=
  match doc with
  | JObj f =>
    let documents := fix documents (f : fields) : option (list jsval) :=
      match f with
      | [] => None
      | (k, v) :: f =>
        if String.eqb k "documents" then
          match v with
          | JArr l =>
            Some ((fix each (l : list jsval) : list jsval :=
              match l with
              | [] => []
              | entry :: l =>
                (match entry with
                 | JObj g =>
                   if provider_ok entry then
                     (fix document (g : fields) : list jsval :=
                       match g with [] => [] | (k, w) :: g => if String.eqb k "document" then collectImportCandidates w else document g end) g
                   else []
                 | _ => []
                 end) ++ each l
              end) l)
          | _ => None
          end
        else documents f
      end in
    match documents f with
    | Some out => out
    | None => match doc?."accounts" with JArr l => List.filter is_object l | _ => [doc] end
    end
  | JArr l => List.filter is_object l
  | _ => []
  end.

Definition isOpenaiApiKeyOnly (doc : jsval) : bool :=
  is_obj doc && nonempty (firstString [doc?."OPENAI_API_KEY"; doc?."openai_api_key"; doc?."api_key"]) &&
  (let t := extractOauthTokens doc in negb (nonempty (access t)) && negb (nonempty (refresh t))).

Definition finite_or_0 (n : num) : num := if is_finite n then n else Fin 0.
Definition positive_or_0 (n : num) : num := if is_finite n && num_ltb (Fin 0) n then n else Fin 0.
Definition accountFromTokens (source : jsval) (t : tokens) : jsval :=
  let nested := if is_obj source then (if is_object (source?."credentials") then source?."credentials" else source) else JObj [] in
  let chatgptAccountId := firstString
    [source?."chatgpt_account_id"; nested?."chatgpt_account_id"; source?."account_id"; nested?."account_id"; source?."accountId"; nested?."accountId"] in
  let email := firstString [source?."email"; nested?."email"; nested?."id"] in
  JObj [("id", JStr (if nonempty email then email else if nonempty chatgptAccountId then chatgptAccountId else "codex"));
        ("access_token", JStr (access t)); ("refresh_token", JStr (refresh t)); ("id_token", JStr (idToken t));
        ("expires_at", JNum (finite_or_0 (to_number (source?."expires_at" ||| nested?."expires_at" ||| jint 0))));
        ("chatgpt_account_id", JStr chatgptAccountId); ("email", if nonempty email then JStr email else JNull);
        ("rpm", JNum (positive_or_0 (to_number (source?."rpm" ?? nested?."rpm"))));
        ("max_concurrency", JNum (positive_or_0 (to_number (source?."max_concurrency" ?? nested?."max_concurrency"))))].

(** ** Imports *)

(** The code of the refusal, or the account and how many further tokens were given. *)
Definition imported : Type := string + (jsval * nat).
Definition accepted (source : jsval) (t : tokens) : imported := inr (accountFromTokens source t, 0%nat).
Definition paste_mode (mode : string) : bool := mem mode ["access_token"; "refresh_token"].
Definition parseTokenList (txt mode : string) : imported :=
  match List.filter nonempty (map trim (split_char (ascii_of_nat 10) txt)) with
  | [] => inl "empty"
  | first :: more =>
    if looksLikeClaudeSecret first then inl "credential_kind_mismatch"
    else
      let t := if String.eqb mode "refresh_token" then {| access := ""; refresh := first; idToken := "" |}
               else {| access := first; refresh := ""; idToken := "" |} in
      inr (accountFromTokens (JObj []) t, length more)
  end.

(** The first candidate that holds a token. *)
Fixpoint first_candidate (candidates : list jsval) : imported :=
  match candidates with
  | [] => inl "missing_token"
  | candidate :: candidates =>
    let t := extractOauthTokens candidate in
    if negb (nonempty (access t)) && negb (nonempty (refresh t)) then first_candidate candidates
    else if looksLikeClaudeSecret (access t) || looksLikeClaudeSecret (refresh t) then inl "credential_kind_mismatch"
    else accepted candidate t
  end.
Definition parse_document (doc : jsval) : imported :=
  if negb (is_object doc) then inl "invalid_json"
  else if isOpenaiApiKeyOnly doc then inl "not_oauth_account"
  else first_candidate (collectImportCandidates doc).
Definition parseCodexCredentialInput (input : jsval) (rawMode : jsval) : imported :=
  let mode := to_lower (trim (str_or_empty rawMode)) in
  if paste_mode mode then
    match input with
    | JStr s => parseTokenList s mode
    | _ =>
      let t := extractOauthTokens input in
      if String.eqb mode "access_token" && negb (nonempty (access t)) then inl "missing_token"
      else if String.eqb mode "refresh_token" && negb (nonempty (refresh t)) then inl "missing_token"
      else accepted (if is_object input then input else JObj []) t
    end
  else
    match input with
    | JStr s =>
      if negb (nonempty (trim s)) then inl "empty"
      else match json_parse (trim s) with Some doc => parse_document doc | None => inl "invalid_json" end
    | _ => parse_document input
    end.
Definition parseCodexImportPayload (body : jsval) : imported :=
  let mode := JStr (to_lower (trim (str_or_empty (body?."mode" ||| body?."import_mode")))) in
  let raw := body?."auth_json" ?? body?."raw" ?? body?."text" ?? body?."data" in
  parseCodexCredentialInput (if negb (is_nullish raw) && negb (is_str raw "") then raw else body) mode.

(** ** The file of accounts *)

Definition readCodexAccounts (file : jsval) : list jsval := arr_of (file?."accounts").
Definition writeCodexAccounts (accounts : list jsval) : jsval := JObj [("accounts", JArr accounts)].
Definition upsertCodexAccount (file patch : jsval) : jsval * jsval :=
  let accounts := readCodexAccounts file in
  let cur := spread (own (match accounts with a :: _ => a ||| JObj [] | [] => JObj [] end)) (own patch) in
  let cur := if truthy (cur?."id") then cur else with_field cur "id" (cur?."email" ||| cur?."chatgpt_account_id" ||| JStr "codex") in
  (writeCodexAccounts (match accounts with [] => [cur] | _ :: rest => cur :: rest end), cur).

(** ** Snapshots of quotas *)

Definition reset_credits_of (resetCredits : jsval) (now : Z) : jsval :=
  let rows := List.filter nonempty (map (fun row => trim (str_or_empty (row?."expires_at"))) (arr_of (resetCredits?."credits"))) in
  JObj [("available_count", JNum (num_max (Fin 0) (num_or_zero (resetCredits?."available_count"))));
        ("credits", JArr (map (fun s => JObj [("expires_at", JStr s)]) rows));
        ("fetched_at", resetCredits?."fetched_at" ||| iso_now now)].
Definition persistCodexQuotaSnapshot (t : files) (vmId : string) (extra resetCredits : jsval) (now : Z) : files * jsval :=
  rewrite_vm t vmId (fun vm =>
    let codex := if is_object (vm?."codex") then own (vm?."codex") else JObj [] in
    let codex := if is_object extra then
        let merged := spread (own (codex?."extra" ||| JObj [])) (own extra) in
        with_field (with_field codex "extra" merged) "usage" (buildCodexUsageView (extraToCodexSnapshot merged))
      else codex in
    let codex := if is_object resetCredits then with_field codex "reset_credits" (reset_credits_of resetCredits now) else codex in
    touched (with_field vm "codex" codex) now).

(** ** The search for tokens ends *)

Definition total (l : list jsval) : nat := list_sum (map weight l).

Lemma total_app l m : total (l ++ m) = (total l + total m)%nat.
Proof. unfold total. by rewrite map_app, list_sum_app. Qed.
Lemma total_cons v l : total (v :: l) = (weight v + total l)%nat.
Proof. done. Qed.
Lemma total_rev l : total (rev l) = total l.
Proof. induction l as [|x l IH]; [done|]. cbn [rev]. rewrite total_app, IH, !total_cons. change (total []) with 0%nat. lia. Qed.

Lemma on_key_weight f t pending : (total (fold_left on_key f (t, pending)).2 <= list_sum (map (fun p => weight p.2) f) + total pending)%nat.
Proof.
  revert t pending. induction f as [|[key nested] f IH]; intros t pending; [done|]. cbn [fold_left map].
  assert (H : forall t' pending', on_key (t, pending) (key, nested) = (t', pending') -> (total pending' <= weight nested + total pending)%nat).
  { intros t' pending'. unfold on_key. destruct (mem key _); [intros [= <- <-]; lia|]. destruct (mem key _); [intros [= <- <-]; lia|].
    destruct (mem key _); [intros [= <- <-]; lia|]. destruct (is_object nested); intros [= <- <-]; rewrite ?total_cons; lia. }
  destruct (on_key (t, pending) (key, nested)) as [t' pending'] eqn:E. specialize (H _ _ eq_refl). specialize (IH t' pending').
  change (list_sum (weight (key, nested).2 :: map (fun p => weight p.2) f)) with (weight nested + list_sum (map (fun p => weight p.2) f))%nat. lia.
Qed.

Lemma weight_pos v : (1 <= weight v)%nat.
Proof. destruct v; cbn; lia. Qed.

Lemma visit_ends fuel pending t : (total pending <= fuel)%nat -> exists t', visit fuel pending t = Some t'.
Proof.
  revert pending t. induction fuel as [|fuel IH]; intros pending t H.
  - destruct pending as [|v pending]; [by eexists|]. rewrite total_cons in H. pose proof (weight_pos v). lia.
  - destruct pending as [|v pending]; [by eexists|]. rewrite total_cons in H. pose proof (weight_pos v). cbn [visit].
    destruct v; try (apply IH; lia).
    + apply IH. rewrite total_app, total_rev. change (weight (JArr l)) with (S (total l)) in H. lia.
    + pose proof (on_key_weight f t pending) as Hw. destruct (fold_left on_key f (t, pending)) as [t' pending']. apply IH. cbn [snd] in Hw.
      change (weight (JObj f)) with (S (list_sum (map (fun p => weight p.2) f))) in H. lia.
Qed.

(** The search for tokens through the document of a credential ends, whatever its depth: the
    number of values in the document is enough fuel. *)
Theorem extract_total value : exists t, visit (weight value) [value] no_tokens = Some t /\ extractOauthTokens value = t.
Proof.
  destruct (visit_ends (weight value) [value] no_tokens) as [t Ht]; [rewrite total_cons; change (total []) with 0%nat; lia|]. exists t. split; [done|].
  unfold extractOauthTokens. by rewrite Ht.
Qed.

(** ** What is imported *)

Lemma first_candidate_tokens l account extra : first_candidate l = inr (account, extra) ->
  exists t source, account = accountFromTokens source t /\ looksLikeClaudeSecret (access t) = false /\ looksLikeClaudeSecret (refresh t) = false /\
    (nonempty (access t) || nonempty (refresh t)) = true.
Proof.
  induction l as [|c l IH]; [done|]. cbn [first_candidate]. destruct (negb (nonempty (access _)) && _) eqn:E; [exact IH|].
  destruct (looksLikeClaudeSecret (access _) || _) eqn:Hc; [done|]. intros [= <- <-]. apply orb_false_iff in Hc as [H1 H2].
  eexists _, c. split_and!; [done..|]. destruct (nonempty (access _)); [done|]. by destruct (nonempty (refresh _)).
Qed.

Lemma trim_nonempty_list l first more : List.filter nonempty l = first :: more -> nonempty first = true.
Proof. intros H. assert (Hi : In first (List.filter nonempty l)) by (rewrite H; by left). by apply filter_In in Hi as [_ ?]. Qed.

Definition account_ok (account : jsval) : Prop :=
  exists a r, account?."access_token" = JStr a /\ account?."refresh_token" = JStr r /\ (nonempty a || nonempty r) = true /\
    looksLikeClaudeSecret a = false /\ looksLikeClaudeSecret r = false.
Definition pasted (rawMode : jsval) : bool := paste_mode (to_lower (trim (str_or_empty rawMode))).

(** A credential that is accepted for a Codex slot holds an access or a refresh token, and
    neither is a secret of Claude: of any text, and of any document that is imported without the
    mode of a pasted token. *)
Theorem import_sound input rawMode account extra :
  is_string input = true \/ pasted rawMode = false ->
  parseCodexCredentialInput input rawMode = inr (account, extra) -> account_ok account.
Proof.
  intros Hm. unfold parseCodexCredentialInput. fold (pasted rawMode).
  assert (Hdoc : forall doc, parse_document doc = inr (account, extra) -> account_ok account).
  { intros doc. unfold parse_document. destruct (negb _); [done|]. destruct (isOpenaiApiKeyOnly doc); [done|].
    intros (t & source & -> & H1 & H2 & H3)%first_candidate_tokens. by exists (access t), (refresh t). }
  destruct (pasted rawMode).
  - destruct Hm as [Hm|?]; [|done]. destruct input; try done. unfold parseTokenList.
    destruct (List.filter nonempty _) as [|first more] eqn:E; [done|]. apply trim_nonempty_list in E.
    destruct (looksLikeClaudeSecret first) eqn:Hc; [done|]. intros [= <- <-].
    destruct (String.eqb _ "refresh_token"); [exists "", first|exists first, ""]; split_and!; try done; by rewrite ?E, ?orb_true_r.
  - destruct input; try apply Hdoc. destruct (negb _); [done|]. destruct (json_parse _); [apply Hdoc|done].
Qed.

Definition sample_auth : jsval := JObj [("tokens", JObj [("access_token", JStr "eyJ"); ("refresh_token", JStr "rt")]); ("email", JStr "a@example.com")].
Lemma import_sound_witness : parseCodexCredentialInput sample_auth JUndef = accepted sample_auth {| access := "eyJ"; refresh := "rt"; idToken := "" |} /\
  account_ok (accountFromTokens sample_auth {| access := "eyJ"; refresh := "rt"; idToken := "" |}).
Proof.
  assert (H : parseCodexCredentialInput sample_auth JUndef = accepted sample_auth {| access := "eyJ"; refresh := "rt"; idToken := "" |}) by (vm_compute; reflexivity).
  split; [exact H|]. exact (import_sound sample_auth JUndef _ 0%nat (or_intror eq_refl) H).
Defined.

(** A document with the mode of a pasted token is not asked whose secret it is. *)
Lemma claude_secret_by_mode :
  exists account, parseCodexCredentialInput (JObj [("access_token", JStr "sk-ant-oat01-x")]) (JStr "access_token") = inr (account, 0%nat) /\
    ~ account_ok account.
Proof.
  eexists. split; [vm_compute; reflexivity|]. intros (a & r & Ha & _ & _ & Hc & _). cbn in Ha. injection Ha as <-. by vm_compute in Hc.
Qed.
