(* ===== verification/CodexHop.v ===== *)
(** * The Codex hop (src/src/lib/protocol/codex-rotate.mjs, handle-codex.mjs, openai-wash.mjs)

    A request to a Codex slot, from its admission to its answer: the slots are tried in the order
    of the pool, each at most twice, and what a slot says of its quota and of its turn state is
    kept.  The kernel of a slot is the environment [env], whose calls may throw; what the handler does to
    the outside is the list of its effects, also when an exception leaves it. *)

From stdpp Require Import gmap strings.
From S2P Require Import Prelude.
From S2P Require Import JsValue.
From S2P Require Import JsRegex.
From S2P Require Import JsText.
From S2P Require Import JsJson.
From S2P Require Import Pricing.
From S2P Require Import Errors.
From S2P Require Import Eligibility.
From S2P Require Import StoreFacts.
From S2P Require Import Security.
From S2P Require Import CodexUsage.
From S2P Require Import CredentialFile.
From S2P Require Import VmFiles.
From S2P Require Import CodexRequest.
From S2P Require Import CodexAnswer.
From S2P Require Import CodexSlot.
#[local] Open Scope string_scope.
#[local] Open Scope list_scope.
#[local] Open Scope js_scope.

(** ** Turn states (codex-rotate.mjs) *)

Module Turns.

Record turn := { value : string; vmId : string; account : string; model : string; t_length : num; created : Z; hits : Z }.
(** The map of the store, in order of insertion. *)
Definition store : Type := list (string * turn).
Definition NUL : string := String (ascii_of_nat 0) "".
Definition rotateStoreKey (vmId account : string) (model : jsval) : string := (vmId ++ NUL ++ account ++ NUL ++ trim (str_or_empty model))%string.

Fixpoint put_at (key : string) (t : turn) (s : store) : store :=
  match s with [] => [(key, t)] | (k, t') :: s => if String.eqb key k then (k, t) :: s else (k, t') :: put_at key t s end.
Definition drop (key : string) (s : store) : store := List.filter (fun p => negb (String.eqb key p.1)) s.
Definition ttl_ms (ttlSeconds : num) : num := num_mul (num_max (Fin 0) (if truthy (JNum ttlSeconds) then ttlSeconds else Fin 0)) (num_of_Z 1000).
Definition over (t : turn) (ttlMs : num) (now : Z) : bool := truthy (JNum ttlMs) && num_ltb ttlMs (num_of_Z (now - created t)).

Definition get (s : store) (vmId account : string) (model : jsval) (ttlSeconds : num) (now : Z) : store * option turn :=
  if negb (nonempty (trim (str_or_empty model))) then (s, None)
  else
    let key := rotateStoreKey vmId account model in
    match find_key key s with
    | None => (s, None)
    | Some t => if over t (ttl_ms ttlSeconds) now then (drop key s, None) else (s, Some t)
    end.
Definition put (s : store) (vmId account : string) (model : jsval) (v : string) (now : Z) : store * option turn :=
  let token := trim v in
  let mid := trim (str_or_empty model) in
  if negb (nonempty token) || negb (nonempty mid) then (s, None)
  else
    let t := {| value := token; vmId := vmId; account := account; model := mid; t_length := num_of_Z (Z.of_nat (String.length token)); created := now; hits := 0 |} in
    (put_at (rotateStoreKey vmId account (JStr mid)) t s, Some t).
Definition hit (s : store) (vmId account : string) (model : jsval) : store :=
  let key := rotateStoreKey vmId account model in
  match find_key key s with
  | None => s
  | Some t => put_at key {| value := value t; vmId := Turns.vmId t; account := Turns.account t; model := Turns.model t;
                            t_length := t_length t; created := created t; hits := hits t + 1 |} s
  end.
Definition snapshot (s : store) (ttlSeconds : num) (now : Z) : store :=
  List.filter (fun p => negb (over p.2 (ttl_ms ttlSeconds) now)) s.

Definition lengthAllowed (n : num) (lengths : list num) : bool :=
  match lengths with [] => true | _ => existsb (num_eqb n) lengths end.
(** Of plain headers, or of an answer that holds them. *)
Definition extractTurnStateValue (source : jsval) : string :=
  match source with
  | JStr s => trim s
  | _ =>
    let headers := if truthy (source?."headers") && is_object (source?."headers") then source?."headers" else source in
    trim (to_string (headers?."x-codex-turn-state" ||| headers?."X-Codex-Turn-State" ||| JStr ""))
  end.
Definition injectTurnState (body : jsval) (v : string) : jsval :=
  let next := if is_object body then own body else JObj [] in
  let token := trim v in
  if negb (nonempty token) then next
  else
    let next := with_field next "turn_state" (JStr token) in
    let meta := if is_object (next?."client_metadata") then own (next?."client_metadata") else JObj [] in
    with_field next "client_metadata" (with_field meta "x-codex-turn-state" (JStr token)).

Record applied := { a_store : store; a_body : jsval; injected : bool; needCollect : bool }.
Definition applyCodexRotate (s : store) (body : jsval) (cfg : rotate) (account : string) (model : jsval) (vmId : string) (now : Z) : applied :=
  let nextBody := if is_object body then own body else JObj [] in
  if negb (r_enabled cfg) || negb (inject_state cfg) then {| a_store := s; a_body := nextBody; injected := false; needCollect := false |}
  else
    let mid := JStr (trim (str_or_empty (model ||| nextBody?."model"))) in
    let '(s, t) := get s vmId account mid (state_ttl_seconds cfg) now in
    match t with
    | Some t =>
      if lengthAllowed (t_length t) (state_lengths cfg)
      then {| a_store := hit s vmId account mid; a_body := injectTurnState nextBody (value t); injected := true; needCollect := false |}
      else {| a_store := s; a_body := nextBody; injected := false; needCollect := auto_collect cfg |}
    | None => {| a_store := s; a_body := nextBody; injected := false; needCollect := auto_collect cfg |}
    end.
Definition observeHopTurnState (s : store) (headers : jsval) (account : string) (model : jsval) (vmId : string) (lengths : list num) (now : Z) : store :=
  let v := extractTurnStateValue headers in
  if negb (nonempty v) || negb (lengthAllowed (num_of_Z (Z.of_nat (String.length v))) lengths) then s
  else (put s vmId account model v now).1.

(** ** Collecting *)

Definition drop_quotes (s : string) : string := String.concat "" (split_char (ascii_of_nat 34) s).
Definition probeBody (model : jsval) : string :=
  let mid := drop_quotes (to_string (model ||| JStr DEFAULT_PROBE_MODEL)) in
  default "" (stringify (JObj
    [("model", JStr mid); ("instructions", JStr "You are a helper.");
     ("input", JArr [JObj [("type", JStr "message"); ("role", JStr "user");
                           ("content", JArr [JObj [("type", JStr "input_text"); ("text", JStr "hi")]])]]);
     ("stream", JBool true); ("store", JBool false); ("reasoning", JObj [("effort", JStr "low")]); ("tools", JArr []);
     ("parallel_tool_calls", JBool false)])).

(** What the request came to; the status and the turn state of the answer. *)
Inductive fetched := FetchFailed (aborted : bool) | FetchAnswered (status : num) (v : string).
Inductive collected := CollectError (error : string) | Collected (length : num) | NotCollected (length : num).
Definition collectTurnState (s : store) (accessToken model proxyUrl account vmId : string) (lengths : list num) (answer : fetched) (now : Z) : store * collected :=
  if negb (nonempty (trim accessToken)) || negb (nonempty (trim model)) then (s, CollectError "missing_auth_or_model")
  else if negb (nonempty (trim proxyUrl)) then (s, CollectError "proxy_required")
  else
    match answer with
    | FetchFailed aborted => (s, CollectError (if aborted then "timeout" else "fetch_failed"))
    | FetchAnswered status v =>
      let n := num_of_Z (Z.of_nat (String.length v)) in
      if num_eqb status (num_of_Z 403) || num_leb (num_of_Z 500) status then (s, CollectError "upstream_blocked")
      else if negb (nonempty v) then (s, NotCollected (Fin 0))
      else if negb (lengthAllowed n lengths) then (s, NotCollected n)
      else ((put s vmId (trim account) (JStr (trim model)) v now).1, Collected n)
    end.

Definition CODEX_ROTATE_NEED_GAP_MS : Z := 30000.
Inductive schedule := Scheduled (model : string) | Debounced | Cached | Unscheduled.
(** [needs]: when each key was last asked for. *)
Definition scheduleCodexRotateCollect (s : store) (needs : gmap string Z) (cfg : rotate) (vmId account : string) (model : jsval) (now : Z) :
    store * gmap string Z * schedule :=
  if negb (r_enabled cfg) || negb (auto_collect cfg) then (s, needs, Unscheduled)
  else
    let mid := trim (to_string (model ||| JStr (probe_model cfg))) in
    if negb (nonempty mid) then (s, needs, Unscheduled)
    else
      let key := rotateStoreKey vmId account (JStr mid) in
      let prev := default 0%Z (needs !! key) in
      if negb (Z.eqb prev 0) && Z.ltb (now - prev) CODEX_ROTATE_NEED_GAP_MS then (s, needs, Debounced)
      else
        let '(s, t) := get s vmId account (JStr mid) (state_ttl_seconds cfg) now in
        match t with Some _ => (s, needs, Cached) | None => (s, <[key := now]> needs, Scheduled mid) end.

End Turns.

(** ** The log of a request (openai-wash.mjs) *)

Definition washedOpenaiHopMeta (inboundPath inboundProtocol : jsval) (converted : bool) : jsval :=
  JObj [("inbound_path", inboundPath ||| JNull); ("inbound_protocol", inboundProtocol ||| JNull); ("washed_path", JStr "/v1/responses");
        ("washed_protocol", JStr "openai.responses"); ("convert", JBool converted)].
Definition count_of_input (input : jsval) : Z := match input with JArr l => Z.of_nat (length l) | _ => if is_nullish input then 0 else 1 end%Z.
Definition summarizeWashedResponses (body : jsval) : jsval :=
  if negb (is_object body) then JObj [("empty", JBool true)]
  else JObj
    [("model", body?."model" ||| JNull); ("stream", JBool (negb (is_false (body?."stream")))); ("input_count", jint (count_of_input (body?."input")));
     ("tools_count", jint (Z.of_nat (length (arr_of (body?."tools")))));
     ("top_level_keys", jstrs (List.filter (fun k => negb (mem k ["turn_state"; "client_metadata"])) (sorted_keys (own body))))].
Definition publicWashedResponsesBody (body : jsval) : jsval :=
  if negb (is_object body) then body
  else
    let next := without body "turn_state" in
    if is_object (next?."client_metadata") then with_field next "client_metadata" (without (next?."client_metadata") "x-codex-turn-state") else next.
Definition applyOpenaiWashLog (logBag inboundPath inboundProtocol : jsval) (converted : bool) (outboundBody : option jsval) : jsval :=
  let log := with_field (with_field logBag "protocol" (JStr "openai.responses")) "path" (JStr "/v1/responses") in
  let meta := spread (own (object_or (log?."hop_meta") (JObj []))) (washedOpenaiHopMeta inboundPath inboundProtocol converted) in
  let log := with_field log "hop_meta" meta in
  match outboundBody with
  | Some body =>
    let public := publicWashedResponsesBody body in
    with_field (with_field log "outbound_summary" (summarizeWashedResponses public)) "outbound_body" public
  | None => log
  end.

(** ** The proxy of a slot (egress.mjs) *)

Definition isLocalEgressProxy (proxy : jsval) : bool :=
  is_object proxy &&
  (String.eqb (trim (str_or_empty (proxy?."id"))) "px-local" ||
   String.eqb (to_lower (trim (to_string (proxy?."scheme" ||| proxy?."kind" ||| JStr "")))) "local" ||
   String.eqb (to_lower (trim (str_or_empty (proxy?."host")))) "local").
Definition socks5h (url : string) : string :=
  if starts_with "socks5://" (to_lower url) then ("socks5h://" ++ drop_chars 9 url)%string else url.
Definition boundProxyUrl (proxy : jsval) : string :=
  if isLocalEgressProxy proxy then ""
  else if truthy (proxy?."url") then socks5h (to_string (proxy?."url"))
  else if negb (truthy (proxy?."host")) || negb (truthy (proxy?."port")) then ""
  else
    let auth := if truthy (proxy?."username")
                then (Tokens.encodeURIComponent (to_string (proxy?."username")) ++ ":" ++ Tokens.encodeURIComponent (str_or_empty (proxy?."password")) ++ "@")%string
                else "" in
    ("socks5h://" ++ auth ++ to_string (proxy?."host") ++ ":" ++ to_string (proxy?."port"))%string.

(** ** The handler (handle-codex.mjs) *)

Definition sessionFrom (headers body : jsval) : jsval :=
  JObj [("session_id", headers?."x-session-id" ||| headers?."session-id" ||| headers?."x-conversation-id" ||| body?."conversation_id" |||
                       body?."session_id" ||| JNull);
        ("previous_response_id", body?."previous_response_id" ||| JNull)].

Definition id_char (c : ascii) : bool := is_digit c || is_lower c || is_upper c || Ascii.eqb c "-".
Definition PIN : rx := RSeq (lit "vm-") (rplus (RChr id_char)).
(** The slot that the master key asks for. *)
Definition pinnedVmId (headers : jsval) (master : bool) : option string :=
  let raw := trim (str_or_empty (headers?."x-kin-vm")) in
  if master && rx_full PIN (take_chars 3 (to_lower raw) ++ drop_chars 3 raw) then Some raw else None.

Definition isRetryableCodexTransport (result : jsval) : bool :=
  if negb (truthy result) || is_true (result?."ok") || is_true (result?."committed") then false
  else
    let code := to_string (result?."body"?."error"?."code" ||| result?."error_code" ||| JStr "") in
    let msg := to_string (result?."body"?."error"?."message" ||| result?."error" ||| JStr "") in
    let status := JNum (num_or_zero (result?."status")) in
    is_true (result?."transportError") || is_num status 0 ||
    (is_num status 502 && rx_test_i (lits ["upstream_transport"; "worker_transport"; "transport"]) (code ++ " " ++ msg)) ||
    rx_test_i (lits ["upstream_transport"; "worker_transport_error"]) code.

(** What a slot says of its quota, if anything is to be written; None is a RangeError of a date. *)
Definition ingestCodexHop (t : files) (vmId : string) (result : jsval) (now : Z) : option (option files) :=
  let headers := result?."headers" ||| JObj [] in
  extra ← extraFromCodexHeaders headers now;
  let spent := isCodexFailoverError result &&
    (is_num (JNum (to_number (result?."status"))) 429 ||
     includes (str_or_empty (result?."body"?."error"?."code")) "usage_limit_reached") in
  let default_until := num_of_Z (now + CODEX_DEFAULT_PARK_MS) in
  let park := if truthy extra then codexQuotaPark extra now else Some default_until in
  let limitedUntil :=
    if spent then JNum (match park with Some n => if truthy (JNum n) then n else default_until | None => default_until end) else JNull in
  if negb (truthy extra) && negb (truthy limitedUntil) then Some None
  else option_map (fun p => Some p.1) (persistCodexUsage t vmId headers extra limitedUntil now).

Inductive effect :=
| WriteConfig (vmId proxyUrl : string)
| Ensure (vmId : string)
| Collect (vmId model : string)
| Hop (vmId : string) (retry : bool) (body : jsval)
| SendHeaders
| Write (chunk : string)
| EndStream
| Json (status body : jsval).

(** The kernels of the slots, by the number of the attempt: whether one is ready, the lines it
    sends and what the hop comes to, by whether a line could not be handled.  What may throw gives the message of its
    error: the writes of the schedules, of the configuration of a kernel and of what a slot says, and the two calls of a
    kernel. *)
Record env := {
  e_accounts : string -> jsval;
  e_synced : option string;
  e_config : nat -> string -> option string;
  e_ensure : nat -> string -> string + jsval;
  e_hop : nat -> bool -> string -> jsval -> list string * (bool -> string + jsval);
  e_persisted : nat -> string -> option string;
  e_clock : nat -> Z;
  e_localeCompare : string -> string -> num
}.

Record run := {
  n_files : files; n_turns : Turns.store; n_needs : gmap string Z;
  n_log : jsval; n_errors : nat; n_requests : nat;
  n_sse : sse_state; n_headersSent : bool; n_effects : list effect
}.
Definition emit (e : effect) (r : run) : run :=
  {| n_files := n_files r; n_turns := n_turns r; n_needs := n_needs r; n_log := n_log r; n_errors := n_errors r; n_requests := n_requests r;
     n_sse := n_sse r; n_headersSent := n_headersSent r; n_effects := n_effects r ++ [e] |}.
Definition log_field (k : string) (v : jsval) (r : run) : run :=
  {| n_files := n_files r; n_turns := n_turns r; n_needs := n_needs r; n_log := with_field (n_log r) k v; n_errors := n_errors r; n_requests := n_requests r;
     n_sse := n_sse r; n_headersSent := n_headersSent r; n_effects := n_effects r |}.
Definition count_error (r : run) : run :=
  {| n_files := n_files r; n_turns := n_turns r; n_needs := n_needs r; n_log := n_log r; n_errors := S (n_errors r); n_requests := n_requests r;
     n_sse := n_sse r; n_headersSent := n_headersSent r; n_effects := n_effects r |}.
Definition set_stores (t : files) (s : Turns.store) (needs : gmap string Z) (r : run) : run :=
  {| n_files := t; n_turns := s; n_needs := needs; n_log := n_log r; n_errors := n_errors r; n_requests := n_requests r;
     n_sse := n_sse r; n_headersSent := n_headersSent r; n_effects := n_effects r |}.
Definition set_sse (s : sse_state) (r : run) : run :=
  {| n_files := n_files r; n_turns := n_turns r; n_needs := n_needs r; n_log := n_log r; n_errors := n_errors r; n_requests := n_requests r;
     n_sse := s; n_headersSent := n_headersSent r; n_effects := n_effects r |}.
(** [if (!res.headersSent) writeSSEHeaders(res)] *)
Definition open_stream (r : run) : run :=
  if n_headersSent r then r
  else
    let r := emit SendHeaders r in
    {| n_files := n_files r; n_turns := n_turns r; n_needs := n_needs r; n_log := n_log r; n_errors := n_errors r; n_requests := n_requests r;
       n_sse := n_sse r; n_headersSent := true; n_effects := n_effects r |}.
Definition failed (status : jsval) (code : jsval) (body : jsval) (r : run) : run := emit (Json status body) (log_field "error_code" code (count_error r)).

(** How the handler ends: it returned, or an exception with this message left it. *)
Inductive codex_end := Concluded (r : run) | Escaped (r : run) (message : string).
Definition run_of (x : codex_end) : run := match x with Concluded r | Escaped r _ => r end.
Definition INVALID_TIME : string := "Invalid time value".

Section handler.
Context (e : env) (protocol : string) (stream : bool).

(** What is written of a line; None is a thrown TypeError. *)
Definition deliver (line : string) (r : run) : option run :=
  let r := open_stream r in
  let written chunk r := match chunk with Some c => emit (Write c) r | None => r end in
  if mem protocol ["openai.chat"; "openai.completions"] then option_map (fun c => written c r) (responsesSseToChatChunk line "codex")
  else if String.eqb protocol "anthropic.messages" then
    let '(chunk, s) := responsesSseToAnthropicEvents line (n_sse r) in Some (written chunk (set_sse s r))
  else Some (emit (Write (line ++ newline)%string) r).
(** The lines of a hop, the chunks that are kept for a client that does not stream, and whether a line threw. *)
Fixpoint deliver_all (lines : list string) (r : run) (chunks : list string) : run * list string * bool :=
  match lines with
  | [] => (r, chunks, false)
  | line :: lines =>
    if stream then match deliver line r with Some r => deliver_all lines r chunks | None => (open_stream r, chunks, true) end
    else deliver_all lines r (chunks ++ [line])
  end.
Definition call_hop (i : nat) (retry : bool) (vmId : string) (body : jsval) (r : run) (chunks : list string) : run * list string * bool * (string + jsval) :=
  let '(lines, result) := e_hop e i retry vmId body in
  let '(r, chunks, threw) := deliver_all lines (emit (Hop vmId retry body) r) chunks in
  (r, chunks, negb (length lines =? 0)%nat, result threw).
(** Tried again only when no line has come. *)
Definition retried (result : string + jsval) : string + jsval :=
  match result with inl m => inl m | inr v => inr (with_field (own v) "transport_retried" (JBool true)) end.
Definition runCodexKernelHop (i : nat) (vmId : string) (body : jsval) (r : run) : run * list string * (string + jsval) :=
  let '(r, chunks, emitted, result) := call_hop i false vmId body r [] in
  match result with
  | inl m => (r, chunks, inl m)
  | inr v =>
    if negb (truthy (v?."ok")) && negb emitted && isRetryableCodexTransport v then
      let '(r, chunks, _, again) := call_hop i true vmId body r chunks in (r, chunks, retried again)
    else (r, chunks, inr v)
  end.

Definition no_kernel (ready : jsval) : jsval :=
  JObj [("error", JObj [("type", JStr "api_error"); ("code", JStr "codex_kernel_unavailable");
    ("message", JStr ("Codex kernel 未就绪（" ++ to_string (ready?."reason" ||| JStr "not_ready") ++ "）。GPT 槽走独立 kernel，不是 wrap cli-hop。")%string)])].
Definition unavailable (ready : jsval) : jsval :=
  JObj [("ok", JBool false); ("status", jint 503); ("committed", JBool false); ("body", no_kernel ready)].

Definition log_usage (result requested : jsval) (r : run) : run :=
  let usage := result?."usage" ||| result?."body"?."usage" ||| result?."body"?."response"?."usage" ||| JNull in
  let x := extractOpenaiUsage usage in
  let r := log_field "usage" usage r in
  let r := log_field "input_tokens" (x?."input_tokens" ?? usage?."input_tokens" ?? usage?."prompt_tokens" ?? JNull) r in
  let r := log_field "output_tokens" (x?."output_tokens" ?? usage?."output_tokens" ?? usage?."completion_tokens" ?? JNull) r in
  let r := log_field "cache_read_tokens" (x?."cached_tokens" ?? usage?."input_tokens_details"?."cached_tokens" ?? usage?."cache_read_tokens" ?? JNull) r in
  let r := log_field "cache_creation_tokens"
    (x?."cache_write_tokens" ?? usage?."input_tokens_details"?."cache_write_tokens" ?? usage?."cache_creation_tokens" ?? JNull) r in
  let r := log_field "first_token_ms" (result?."ttftMs" ?? JNull) r in
  let r := log_field "final_state" (result?."terminalState" ||| JStr "verified") r in
  log_field "upstream_model" requested r.
Definition answer (result requested : jsval) (chunks : list string) (r : run) : run :=
  if stream then emit EndStream (open_stream r)
  else
    let assembled := assembleCodexBodyFromSse chunks (result?."body" ||| JObj []) in
    emit (Json (jint 200) (if String.eqb protocol "anthropic.messages" then codexBodyToAnthropicMessage assembled requested else assembled)) r.
Definition UPSTREAM_ERROR : jsval := JObj [("error", JObj [("type", JStr "api_error"); ("code", JStr "codex_upstream")])].
Definition error_code (result : jsval) : jsval := result?."body"?."error"?."code" ||| JStr "codex_upstream".
(** The request has failed: of the last slot that was tried. *)
Definition none_left (last : jsval) (r : run) : run :=
  let r := log_field "upstream_status" (last?."status" ||| jint 0) (log_field "error_code" (error_code last) (count_error r)) in
  emit (Json (last?."status" ||| jint 502) (last?."body" ||| UPSTREAM_ERROR)) r.
(** It has failed after the stream was opened. *)
Definition cut_off (result : jsval) (r : run) : run :=
  emit EndStream (log_field "upstream_status" (result?."status" ||| jint 0) (log_field "error_code" (error_code result) (count_error r))).

Definition first_account (vmId : string) : string * string :=
  let acc := match readCodexAccounts (e_accounts e vmId) with a :: _ => a ||| JObj [] | [] => JObj [] end in
  (trim (to_string (acc?."access_token" ||| acc?."accessToken" ||| JStr "")),
   trim (to_string (acc?."chatgpt_account_id" ||| acc?."chatgptAccountId" ||| JStr ""))).

(** What is kept of the result of a slot, or the error that leaves the handler. *)
Definition note_result (cfg : rotate) (outboundBody : jsval) (i : nat) (vmId account : string) (injected : bool) (result : jsval) (r : run) : run * option string :=
  let now := e_clock e i in
  match ingestCodexHop (n_files r) vmId result now with
  | None => (r, Some INVALID_TIME)
  | Some written =>
    match written, e_persisted e i vmId with
    | Some _, Some m => (r, Some m)
    | _, _ =>
      let turns := if r_enabled cfg
                   then Turns.observeHopTurnState (n_turns r) (result?."headers") account (outboundBody?."model") vmId (state_lengths cfg) now
                   else n_turns r in
      let r := set_stores (default (n_files r) written) turns (n_needs r) r in
      let r := if injected then log_field "codex_rotate_injected" (JBool true) r else r in
      (if truthy (result?."transport_retried") then log_field "transport_retried" (JBool true) r else r, None)
    end
  end.
(** One slot: its turn state, the hop, and what is noted of it. *)
Definition one_slot (cfg : rotate) (outboundBody : jsval) (i : nat) (vm : jsval) (r : run) : run * (string + list string * jsval) :=
  let vmId := to_string (vm?."id") in
  let now := e_clock e i in
  let account := (first_account vmId).2 in
  let applied := Turns.applyCodexRotate (n_turns r) outboundBody cfg account (outboundBody?."model") vmId now in
  let r := set_stores (n_files r) (Turns.a_store applied) (n_needs r) r in
  let r :=
    if Turns.needCollect applied then
      let '(s, needs, scheduled) := Turns.scheduleCodexRotateCollect (n_turns r) (n_needs r) cfg vmId account
                                      (outboundBody?."model" ||| JStr (probe_model cfg)) now in
      let r := set_stores (n_files r) s needs r in
      match scheduled with Turns.Scheduled model => emit (Collect vmId model) r | _ => r end
    else r in
  let '(r, chunks, result) := runCodexKernelHop i vmId (Turns.a_body applied) r in
  match result with
  | inl m => (r, inl m)
  | inr result =>
    let '(r, thrown) := note_result cfg outboundBody i vmId account (Turns.injected applied) result r in
    (r, match thrown with Some m => inl m | None => inr (chunks, result) end)
  end.

Fixpoint try_slots (cfg : rotate) (requested outboundBody : jsval) (ids : list string) (i : nat) (last : jsval) (r : run) : codex_end :=
  match ids with
  | [] => Concluded (none_left last r)
  | id :: rest =>
    let next := negb (length rest =? 0)%nat in
    let vm := getVm (n_files r) id in
    if negb (truthy vm) || negb (VmKind.isCodexVm vm) then try_slots cfg requested outboundBody rest (S i) last r
    else
      let vmId := to_string (vm?."id") in
      let r := emit (WriteConfig vmId (boundProxyUrl (vm?."proxy"))) (log_field "vm_id" (vm?."id") r) in
      match e_config e i vmId with
      | Some m => Escaped r m
      | None =>
        let r := emit (Ensure vmId) r in
        match e_ensure e i vmId with
        | inl m => Escaped r m
        | inr ready =>
          if negb (truthy (ready?."ok")) then
            if next && negb (n_headersSent r) then try_slots cfg requested outboundBody rest (S i) (unavailable ready) r
            else Concluded (failed (jint 503) (JStr "codex_kernel_unavailable") (no_kernel ready) r)
          else
            let '(r, slot) := one_slot cfg outboundBody i vm r in
            match slot with
            | inl m => Escaped r m
            | inr (chunks, result) =>
              if truthy (result?."ok") then
                let r := log_usage result requested r in
                let r := if (i =? 0)%nat then r else log_field "codex_failed_over" (JBool true) r in
                Concluded (answer result requested chunks r)
              else if n_headersSent r then Concluded (cut_off result r)
              else if next && isCodexFailoverError result then try_slots cfg requested outboundBody rest (S i) result r
              else Concluded (none_left result r)
            end
        end
      end
  end.

End handler.

(** ** The whole request *)

Definition CODEX_FAILOVER_MAX : nat := 4.
Definition sync_all (codexAccounts : string -> list jsval) (t : files) (now : Z) : files :=
  fold_left (fun t item =>
    if VmKind.isCodexVm item
    then (syncCodexQuotaSchedule t (getVm t (to_string (item?."id")) ||| item) now).1.1 else t) (listVms codexAccounts t) t.
(** The ids to try, or the refusal; the schedules of the slots are brought up to date first. *)
Definition pickCodexCandidates (e : env) (t : files) (headers : jsval) (master : bool) : files * (string + list string) :=
  match pinnedVmId headers master with
  | Some pin =>
    let vm := getVm t pin in
    (t, if negb (truthy vm) || negb (VmKind.isCodexVm vm) then inl "platform_mismatch" else inr [to_string (vm?."id")])
  | None =>
    let codexAccounts id := readCodexAccounts (e_accounts e id) in
    let t := sync_all codexAccounts t (e_clock e 0) in
    let p := pickCodexSlots (e_localeCompare e) (JArr (listVms codexAccounts t)) "" (e_clock e 0) in
    (t, inr (map to_string (p_ids p)))
  end.

Record request := {
  q_headers : jsval; q_master : bool; q_path : jsval; q_body : jsval; q_inbound : jsval   (* ctx.path, ctx.body, inbound *)
}.
Definition refuse_request (status : Z) (type code message : string) (r : run) : run :=
  failed (jint status) (JStr code) (JObj [("error", JObj [("type", JStr type); ("code", JStr code); ("message", JStr message)])])
    (log_field "via" (JStr "codex-kernel") r).
Definition wants_stream (q : request) : bool := negb (is_false (q_inbound q?."stream")) && negb (is_false (q_body q?."stream")).

Definition NOT_ITERABLE : string := "Cannot read properties of null".
(** Without a pin the schedules are written, which may throw; the model then keeps the files as they were. *)
Definition thrown_by (e : env) (pin : option string) : option string := match pin with Some _ => None | None => e_synced e end.
Definition handleCodexProtocol (e : env) (protocol : string) (raw : jsval) (q : request) (r : run) : codex_end :=
  let codex := normalizeCodexRouting raw in
  match isCodexProtocolAllowed protocol codex with
  | inl code => Concluded (refuse_request 400 "invalid_request_error" code ("protocol '" ++ protocol ++ "' is not allowed on the Codex hop")%string r)
  | inr _ =>
    let '(allowed, kind) := restrictCodexClient (q_headers q) (q_body q ||| q_inbound q) codex protocol in
    if negb allowed then
      Concluded (refuse_request 403 "permission_error" "client_not_allowed" ("client '" ++ client_name kind ++ "' is not allowed on the Codex hop")%string r)
    else
      let wash converted body (r : run) :=
        {| n_files := n_files r; n_turns := n_turns r; n_needs := n_needs r;
           n_log := applyOpenaiWashLog (n_log r) (q_path q) (JStr protocol) converted body; n_errors := n_errors r; n_requests := n_requests r;
           n_sse := n_sse r; n_headersSent := n_headersSent r; n_effects := n_effects r |} in
      match toCodexResponses protocol (q_body q) codex with
      | None => Escaped r NOT_ITERABLE
      | Some NotAllowed =>
        Concluded (refuse_request 400 "invalid_request_error" "protocol_not_allowed" "request could not be converted to Codex Responses" (wash false None r))
      | Some (ConvertedBody body rewritten) =>
        let r := wash rewritten (Some body) r in
        match thrown_by e (pinnedVmId (q_headers q) (q_master q)) with
        | Some m => Escaped r m
        | None =>
          let '(t, picked) := pickCodexCandidates e (n_files r) (q_headers q) (q_master q) in
          let r := set_stores t (n_turns r) (n_needs r) r in
          match picked with
          | inl code =>
            Concluded (refuse_request 400 "invalid_request_error" code
              ("vm '" ++ default "" (pinnedVmId (q_headers q) (q_master q)) ++ "' is not a GPT slot")%string r)
          | inr ids =>
            match take CODEX_FAILOVER_MAX ids with
            | [] => Concluded (refuse_request 503 "api_error" "no_codex_vm" "no Codex kernel VM is configured" r)
            | ids =>
              let r := log_field "via" (JStr "codex-kernel") r in
              let r := {| n_files := n_files r; n_turns := n_turns r; n_needs := n_needs r; n_log := n_log r; n_errors := n_errors r;
                          n_requests := S (n_requests r); n_sse := createAnthropicSseState; n_headersSent := n_headersSent r; n_effects := n_effects r |} in
              try_slots e protocol (wants_stream q) (c_rotate codex) (body?."model") (with_field (own body) "stream" (JBool true)) ids 0 JNull r
            end
          end
        end
      end
  end.
