(* ===== verification/CodexHopFacts.v ===== *)
(** * Properties of the Codex hop (CodexRequest, CodexHop)

    What is sent to a slot holds nothing of the identity of the client; the slots that are tried,
    and the one answer that is given. *)

From stdpp Require Import gmap strings.
From S2P Require Import Prelude.
From S2P Require Import JsValue.
From S2P Require Import JsText.
From S2P Require Import Eligibility.
From S2P Require Import StoreFacts.
From S2P Require Import CredentialFile.
From S2P Require Import CodexUsage.
From S2P Require Import VmFiles.
From S2P Require Import CodexRequest.
From S2P Require Import CodexAnswer.
From S2P Require Import CodexHop.
#[local] Open Scope string_scope.
#[local] Open Scope list_scope.
#[local] Open Scope js_scope.

(** ** The body that is sent *)

(** The keys that a Codex slot does not take, and those that name a client or its server. *)
#[local] Notation PRIVATE_KEYS := IDENTITY_KEYS.
Definition UNSUPPORTED_KEYS : list string := ["max_output_tokens"; "max_tokens"; "temperature"; "prompt_cache_retention"; "reasoning_effort"].
Definition system_item (item : jsval) : bool := is_str (item?."type") "message" && is_str (item?."role") "system".
Definition no_system (input : jsval) : bool := match input with JArr l => forallb (fun item => negb (is_object item && system_item item)) l | _ => true end.
Definition effort_ok (body : jsval) : bool :=
  negb (has_own body "reasoning") || match body?."reasoning"?."effort" with JStr s => mem s ["low"; "medium"; "high"; "xhigh"; "max"] | _ => false end.
Definition sendable (body : jsval) : Prop :=
  is_obj body = true /\ lacks (PRIVATE_KEYS ++ UNSUPPORTED_KEYS) body = true /\ no_system (body?."input") = true /\ effort_ok body = true.

Lemma stripped_private body : is_obj (stripCodexIdentity body) = true /\ lacks IDENTITY_KEYS (stripCodexIdentity body) = true.
Proof.
  unfold stripCodexIdentity. destruct (negb (is_object body)); [done|]. cbn zeta. destruct (is_object _); split; try done.
  - apply lacks_field; [not_listed|]. apply lacks_dropped.
  - apply lacks_dropped.
Qed.

Lemma lacks_set_truthy ks c k v o : k ∉ ks -> lacks ks o = true -> lacks ks (set_if c k v o) = true.
Proof. intros Hk H. unfold set_if. destruct c; [by apply lacks_field|done]. Qed.

Lemma developer_no_system item : is_object (developer_item item) && system_item (developer_item item) = false.
Proof.
  unfold developer_item. destruct (truthy item && is_object item && is_str (item?."type") "message" && is_str (item?."role") "system") eqn:E.
  - unfold system_item. rewrite get_with_field_eq. by rewrite andb_false_r, andb_false_r.
  - unfold system_item. destruct (is_object item) eqn:Ho; [|done]. assert (Ht : truthy item = true) by by destruct item. rewrite Ht in E. exact E.
Qed.

Lemma effort_known raw : nonempty (normalizeCodexReasoningEffort raw) = true ->
  mem (normalizeCodexReasoningEffort raw) ["low"; "medium"; "high"; "xhigh"; "max"] = true.
Proof.
  unfold normalizeCodexReasoningEffort. set (effort := to_lower _). destruct (negb (nonempty effort) || String.eqb effort "none" || _) eqn:E; [done|].
  apply orb_false_iff in E as [[_ E]%orb_false_iff _]. destruct (mem effort CODEX_REASONING_EFFORTS) eqn:Hm; [|done]. intros _.
  unfold CODEX_REASONING_EFFORTS in Hm. unfold mem in Hm. cbn [existsb] in Hm. by rewrite E in Hm.
Qed.

(** Whatever is cleaned can be sent. *)
Lemma supported_sendable body : is_obj body = true -> lacks PRIVATE_KEYS body = true -> sendable (stripUnsupportedCodexFields body).
Proof.
  intros Ho Hp. unfold stripUnsupportedCodexFields. cbn zeta. set (dropped := drop_keys _ body).
  set (effort := normalizeCodexReasoningEffort _). set (plain := without dropped "reasoning_effort").
  assert (Hl : is_obj plain = true /\ lacks (PRIVATE_KEYS ++ UNSUPPORTED_KEYS) plain = true).
  { split; [done|]. apply lacks_app; [by apply lacks_without, lacks_drop|].
    apply (lacks_sub (["max_output_tokens"; "max_tokens"; "temperature"; "prompt_cache_retention"] ++ ["reasoning_effort"])); [done|].
    apply lacks_app; [apply lacks_without, lacks_dropped; done|]. apply (lacks_dropped ["reasoning_effort"]). }
  destruct Hl as [Hpo Hpl]. set (next := if nonempty effort then _ else _).
  assert (Hn : is_obj next = true /\ lacks (PRIVATE_KEYS ++ UNSUPPORTED_KEYS) next = true /\ effort_ok next = true).
  { unfold next. destruct (nonempty effort) eqn:He; split_and!; try done.
    - by apply lacks_field; [not_listed|].
    - unfold effort_ok. rewrite get_with_field_eq, get_with_field_eq. unfold effort in *. rewrite effort_known by done. apply orb_true_r.
    - by apply lacks_without.
    - unfold effort_ok. pose proof (lacks_dropped ["reasoning"] (entries plain)) as H. apply lacks_iff with (k := "reasoning") in H; [|set_solver].
      unfold without. cbn [fold_left] in H. by rewrite H. }
  destruct Hn as (Hno & Hnl & Hne). clearbody next. destruct (next?."input") eqn:Hi;
    try (split_and!; [done..| |done]; by rewrite Hi).
  split_and!; [done|by apply lacks_field; [not_listed|]| |].
  - rewrite get_with_field_eq. cbn [no_system]. apply forallb_forall. intros x (y & <- & _)%in_map_iff. by rewrite developer_no_system.
  - unfold effort_ok in *. rewrite (get_with_field_ne _ "reasoning") by done. unfold has_own, with_field in *. cbn [fields_of]. by rewrite has_key_set.
Qed.

(** A body that is built anew has nothing private. *)
Lemma chat_private body out : chatToCodexResponses body = Some out -> is_obj out = true /\ lacks PRIVATE_KEYS out = true.
Proof.
  unfold chatToCodexResponses. destruct (mapM _ _) as [input|]; [|done]. cbn [option_bind mbind]. cbn zeta. unfold set_truthy.
  set (o := match toolsToCodex _ with Some _ => _ | None => _ end).
  assert (H : is_obj o = true /\ lacks PRIVATE_KEYS o = true) by (unfold o; destruct (toolsToCodex _); done).
  clearbody o. intros [= <-]. destruct H. split; [by repeat apply set_if_is_obj|]. by repeat (apply lacks_set_truthy; [not_listed|]).
Qed.

Lemma converted_sendable protocol body codex out rewritten : toCodexResponses protocol body codex = Some (ConvertedBody out rewritten) -> sendable out.
Proof.
  unfold toCodexResponses. cbn zeta. destruct (stripped_private body) as [Ho Hl].
  assert (Hchat : forall b out' r, option_map (fun b => ConvertedBody (stripUnsupportedCodexFields b) true) (chatToCodexResponses b) = Some (ConvertedBody out' r) -> sendable out').
  { intros b out' r. destruct (chatToCodexResponses b) eqn:E; [|done]. intros [= <- <-]. apply chat_private in E as [? ?]. by apply supported_sendable. }
  destruct (String.eqb protocol "openai.responses").
  - destruct (normalizeCodexResponsesInput _) as [b|] eqn:E; [|done]. intros [= <- <-]. revert E. unfold normalizeCodexResponsesInput. cbn zeta.
    assert (Hown : is_obj (own (stripCodexIdentity body)) = true /\ lacks PRIVATE_KEYS (own (stripCodexIdentity body)) = true) by (split; [done|by apply lacks_own]).
    destruct Hown as [Hoo Hol]. generalize dependent (own (stripCodexIdentity body)). intros next Hoo Hol.
    destruct (next?."input"); try (destruct (negb _ && _); [destruct (chatToCodexResponses next) eqn:E; [|done]; intros [= <-];
      apply chat_private in E as [? ?]; by apply supported_sendable|intros [= <-]; by apply supported_sendable]).
    intros [= <-]. apply supported_sendable; [done|]. by apply lacks_field; [not_listed|].
  - destruct (_ && chat_to_codex codex); [apply Hchat|]. destruct (_ && completions_to_codex codex).
    { intros [= <- <-]. apply supported_sendable; [unfold completionsToCodexResponses, set_truthy; by apply set_if_is_obj|].
      unfold completionsToCodexResponses, set_truthy. by apply lacks_set_truthy; [not_listed|]. }
    destruct (_ && anthropic_to_codex codex); [apply Hchat|done].
Qed.

(** The turn state is the one thing that is added, under its own key. *)
Definition hop_body (body : jsval) : Prop :=
  is_obj body = true /\ lacks (["base_url"; "custom_base_url"; "endpoint"; "hostname"; "api_key"; "authorization"] ++ UNSUPPORTED_KEYS) body = true /\
  no_system (body?."input") = true /\ effort_ok body = true /\ body?."stream" = JBool true /\
  (body?."client_metadata" = JUndef \/ exists token, body?."client_metadata" = JObj [("x-codex-turn-state", JStr token)]).

Lemma with_stream_sendable body : sendable body -> sendable (with_field (own body) "stream" (JBool true)).
Proof.
  intros (Ho & Hl & Hi & He). assert (H : own body = body) by by destruct body. rewrite H. split_and!; [done|by apply lacks_field; [not_listed|]| |].
  - by rewrite get_with_field_ne.
  - unfold effort_ok in *. rewrite get_with_field_ne by done. unfold has_own, with_field in *. cbn [fields_of]. by rewrite has_key_set.
Qed.

Lemma rotated_body s body cfg account model vmId now : sendable body -> body?."stream" = JBool true ->
  hop_body (Turns.a_body (Turns.applyCodexRotate s body cfg account model vmId now)).
Proof.
  intros (Ho & Hl & Hi & He) Hs. assert (Hb : is_object body = true /\ own body = body) by by destruct body. destruct Hb as [Hb Hown].
  assert (Hplain : hop_body body).
  { split_and!; [done|by apply (lacks_sub (PRIVATE_KEYS ++ UNSUPPORTED_KEYS)); [unfold PRIVATE_KEYS, UNSUPPORTED_KEYS; set_solver|]|done..|].
    left. apply (lacks_get (PRIVATE_KEYS ++ UNSUPPORTED_KEYS)); [done|unfold PRIVATE_KEYS; set_solver|done]. }
  unfold Turns.applyCodexRotate. rewrite Hb, Hown. destruct (_ || _); [exact Hplain|]. cbn zeta. destruct (Turns.get _ _ _ _ _ _) as [s' [t|]]; [|exact Hplain].
  destruct (Turns.lengthAllowed _ _); [|exact Hplain]. cbn [Turns.a_body]. unfold Turns.injectTurnState. rewrite Hb, Hown. cbn zeta.
  destruct (negb _); [exact Hplain|]. destruct Hplain as (_ & Pl & _ & _ & _ & Pm). rewrite !(get_with_field_ne _ "client_metadata") by done.
  assert (Hm : is_object (body?."client_metadata") = false).
  { replace (body?."client_metadata") with JUndef; [done|]. symmetry. apply (lacks_get (PRIVATE_KEYS ++ UNSUPPORTED_KEYS)); [done|unfold PRIVATE_KEYS; set_solver|done]. }
  rewrite Hm. unfold hop_body. rewrite !get_with_field_eq, !(get_with_field_ne _ "input"), !(get_with_field_ne _ "stream") by done. split_and!; try done.
  - do 2 (apply lacks_field; [not_listed|]). exact Pl.
  - unfold effort_ok in *. rewrite !(get_with_field_ne _ "reasoning") by done. unfold has_own, with_field in *. cbn [fields_of]. by rewrite !has_key_set.
  - right. by eexists.
Qed.

(** ** The trace of a request *)

(** What is done before the answer is begun. *)
Definition probes (vmId : string) (x : effect) : bool :=
  match x with WriteConfig v _ | Ensure v | Collect v _ | Hop v _ _ => String.eqb v vmId | _ => false end.
Definition is_hop (x : effect) : bool := match x with Hop _ _ _ => true | _ => false end.
Definition hops (l : list effect) : nat := length (List.filter is_hop l).
(** What is done of the slot [vmId], with the body that may be sent. *)
Definition probe_ok (vmId : string) (x : effect) : Prop := probes vmId x = true /\ match x with Hop _ _ body => hop_body body | _ => True end.
(** What is written: nothing, or a stream that was not open before is opened first. *)
Definition stream_part (before after : bool) (l : list effect) : Prop :=
  (after = before /\ l = []) \/ (after = true /\ exists chunks, l = (if before then [] else [SendHeaders]) ++ map Write chunks).

Lemma stream_nothing b : stream_part b b [].
Proof. by left. Qed.
Lemma stream_trans a b c l m : stream_part a b l -> stream_part b c m -> stream_part a c (l ++ m).
Proof.
  intros [[-> ->]|[-> [ws ->]]] [[-> ->]|[-> [ws' ->]]].
  - by left.
  - right. split; [done|]. by exists ws'.
  - right. split; [done|]. exists ws. by rewrite app_nil_r.
  - right. split; [done|]. exists (ws ++ ws'). by rewrite map_app, <- app_assoc.
Qed.

Lemma hops_app l m : hops (l ++ m) = (hops l + hops m)%nat.
Proof. unfold hops. by rewrite List.filter_app, length_app. Qed.

(** The effects and the state of the stream of [r'], after [r] and the effects [l]. *)
Definition after (r r' : run) (l : list effect) : Prop := n_effects r' = n_effects r ++ l.
Lemma after_trans r1 r2 r3 l m : after r1 r2 l -> after r2 r3 m -> after r1 r3 (l ++ m).
Proof. unfold after. intros H1 H2. by rewrite H2, H1, app_assoc. Qed.

Section trace.
Context (e : env) (protocol : string) (stream : bool).

Lemma open_part r : exists l, after r (open_stream r) l /\ stream_part (n_headersSent r) (n_headersSent (open_stream r)) l /\ n_headersSent (open_stream r) = true.
Proof.
  unfold open_stream, after. destruct (n_headersSent r) eqn:H.
  - exists []. rewrite app_nil_r. split_and!; [done|by left|done].
  - exists [SendHeaders]. split_and!; [done| |done]. right. split; [done|]. by exists [].
Qed.

Lemma write_part c r : n_headersSent r = true -> exists l, after r (match c with Some c => emit (Write c) r | None => r end) l /\
  stream_part true (n_headersSent (match c with Some c => emit (Write c) r | None => r end)) l.
Proof.
  intros H. destruct c as [c|].
  - exists [Write c]. split; [done|]. right. split; [done|]. by exists [c].
  - exists []. split; [unfold after; by rewrite app_nil_r|]. by left.
Qed.

Lemma deliver_part line r r' : deliver protocol line r = Some r' -> exists l, after r r' l /\ stream_part (n_headersSent r) (n_headersSent r') l.
Proof.
  unfold deliver. cbn zeta. destruct (open_part r) as (l & Ha & Hs & Ho).
  assert (Hc : forall c r2, n_effects r2 = n_effects (open_stream r) -> n_headersSent r2 = true ->
    exists l, after r (match c with Some c => emit (Write c) r2 | None => r2 end) l /\
      stream_part (n_headersSent r) (n_headersSent (match c with Some c => emit (Write c) r2 | None => r2 end)) l).
  { intros c r2 He H2. destruct (write_part c r2 H2) as (m & Hb & Hm). exists (l ++ m). rewrite Ho in Hs. split; [|by eapply stream_trans].
    unfold after in *. by rewrite Hb, He, Ha, app_assoc. }
  destruct (mem protocol _).
  - destruct (responsesSseToChatChunk line "codex") as [c|]; [|done]. intros [= <-]. by apply Hc.
  - destruct (String.eqb _ _).
    + destruct (responsesSseToAnthropicEvents line _) as [c st]. intros [= <-]. by apply Hc.
    + intros [= <-]. by apply (Hc (Some _)).
Qed.

Lemma deliver_all_part lines r chunks : let '(r', _, _) := deliver_all protocol stream lines r chunks in
  exists l, after r r' l /\ stream_part (n_headersSent r) (n_headersSent r') l /\ (stream = false \/ lines = [] -> l = []).
Proof.
  revert r chunks. induction lines as [|line lines IH]; intros r chunks; cbn [deliver_all].
  - exists []. split_and!; [unfold after; by rewrite app_nil_r|by left|done].
  - destruct stream; [|].
    + destruct (deliver protocol line r) as [r1|] eqn:E.
      * apply deliver_part in E as (l & Ha & Hs). specialize (IH r1 chunks). destruct (deliver_all _ _ _ _ _) as [[r' c] t]. destruct IH as (m & Hb & Hm & _).
        exists (l ++ m). split_and!; [by eapply after_trans|by eapply stream_trans|by intros [?|?]].
      * destruct (open_part r) as (l & Ha & Hs & _). exists l. split_and!; [done..|by intros [?|?]].
    + specialize (IH r (chunks ++ [line])). destruct (deliver_all _ _ _ _ _) as [[r' c] t]. destruct IH as (m & Hb & Hm & Hn). exists m. split_and!; [done..|].
      intros _. apply Hn. by left.
Qed.

(** A call of the kernel of a slot. *)
Lemma call_part i retry vmId body r chunks : let '(r', _, emitted, _) := call_hop e protocol stream i retry vmId body r chunks in
  exists l, after r r' (Hop vmId retry body :: l) /\ stream_part (n_headersSent r) (n_headersSent r') l /\ (stream = false \/ emitted = false -> l = []).
Proof.
  unfold call_hop. destruct (e_hop e i retry vmId body) as [lines result].
  pose proof (deliver_all_part lines (emit (Hop vmId retry body) r) chunks) as H. destruct (deliver_all _ _ _ _ _) as [[r' c] t].
  destruct H as (l & Ha & Hs & Hn). exists l. split_and!; [|done|].
  - unfold after in *. cbn [emit n_effects] in Ha. by rewrite Ha, <- app_assoc.
  - intros [?|He]; [apply Hn; by left|]. apply Hn. right. by destruct lines.
Qed.

Lemma probe_hop vmId retry body : hop_body body -> probe_ok vmId (Hop vmId retry body).
Proof. intros H. split; [apply String.eqb_refl|exact H]. Qed.
Lemma hop_part i vmId body r : hop_body body -> let '(r', _, _) := runCodexKernelHop e protocol stream i vmId body r in
  exists pre l, after r r' (pre ++ l) /\ Forall (probe_ok vmId) pre /\ (hops pre <= 2)%nat /\ stream_part (n_headersSent r) (n_headersSent r') l /\ (stream = false -> l = []).
Proof.
  intros Hb. unfold runCodexKernelHop. pose proof (call_part i false vmId body r []) as H.
  destruct (call_hop e protocol stream i false vmId body r []) as [[[r1 c1] emitted] result]. destruct H as (l & Ha & Hs & Hn).
  assert (Hone : exists pre l, after r r1 (pre ++ l) /\ Forall (probe_ok vmId) pre /\ (hops pre <= 2)%nat /\ stream_part (n_headersSent r) (n_headersSent r1) l /\ (stream = false -> l = [])).
  { exists [Hop vmId false body], l. split_and!; [done|by constructor; [apply probe_hop|]|cbn; lia|done|]. intros Hst. apply Hn. by left. }
  destruct result as [m|v]; [exact Hone|]. destruct (negb _ && negb emitted && _) eqn:E; [|exact Hone].
  apply andb_true_iff in E as [[_ He]%andb_true_iff _]. apply negb_true_iff in He. subst emitted. rewrite Hn in Ha, Hs by (by right).
  pose proof (call_part i true vmId body r1 c1) as H2. destruct (call_hop e protocol stream i true vmId body r1 c1) as [[[r2 c2] em2] result2].
  destruct H2 as (m & Ha2 & Hs2 & Hn2). exists [Hop vmId false body; Hop vmId true body], m. split_and!.
  - exact (after_trans _ _ _ _ _ Ha Ha2).
  - constructor; [by apply probe_hop|]. by constructor; [apply probe_hop|].
  - done.
  - exact (stream_trans _ _ _ [] _ Hs Hs2).
  - intros Hst. apply Hn2. by left.
Qed.

(** What is noted of a slot shows nothing. *)
Lemma note_part cfg body i vmId account injected result r :
  let r' := (note_result e cfg body i vmId account injected result r).1 in n_effects r' = n_effects r /\ n_headersSent r' = n_headersSent r.
Proof.
  cbn zeta. unfold note_result. destruct (ingestCodexHop _ _ _ _) as [written|]; [|done].
  destruct written as [t|], (e_persisted e i vmId); try done; by destruct injected, (truthy (result?."transport_retried")).
Qed.

(** One slot, whether it throws or not. *)
Lemma slot_part cfg body i vm r : sendable body -> body?."stream" = JBool true ->
  let '(r', _) := one_slot e protocol stream cfg body i vm r in
  exists pre l, after r r' (pre ++ l) /\ Forall (probe_ok (to_string (vm?."id"))) pre /\ (hops pre <= 2)%nat /\
    stream_part (n_headersSent r) (n_headersSent r') l /\ (stream = false -> l = []).
Proof.
  intros Hb Hstream. unfold one_slot. cbn zeta.
  match goal with |- context [Turns.applyCodexRotate ?s ?b ?c ?a ?m ?v ?n] => pose proof (rotated_body s b c a m v n Hb Hstream) as Hh; set (applied := Turns.applyCodexRotate s b c a m v n) in * end.
  match goal with |- context [runCodexKernelHop _ _ _ _ _ _ ?r1] => set (r1' := r1) end.
  assert (H1 : exists pre, after r r1' pre /\ Forall (probe_ok (to_string (vm?."id"))) pre /\ hops pre = 0%nat /\ n_headersSent r1' = n_headersSent r).
  { unfold r1'. destruct (Turns.needCollect applied).
    - destruct (Turns.scheduleCodexRotateCollect _ _ _ _ _ _ _) as [[s needs] [m| | |]]; [|exists []; split_and!; try done; unfold after; by rewrite app_nil_r..].
      exists [Collect (to_string (vm?."id")) m]. split_and!; try done. constructor; [|done]. split; [apply String.eqb_refl|done].
    - exists []. split_and!; try done. unfold after. by rewrite app_nil_r. }
  destruct H1 as (pre & Ha1 & Hp1 & Hh1 & Hs1). clearbody r1'.
  pose proof (hop_part i (to_string (vm?."id")) (Turns.a_body applied) r1' Hh) as H. destruct (runCodexKernelHop _ _ _ _ _ _ _) as [[r2 c2] res2].
  destruct H as (pre2 & l & Ha2 & Hp2 & Hh2 & Hs2 & Hn2).
  assert (H2 : exists pre l, after r r2 (pre ++ l) /\ Forall (probe_ok (to_string (vm?."id"))) pre /\ (hops pre <= 2)%nat /\
    stream_part (n_headersSent r) (n_headersSent r2) l /\ (stream = false -> l = [])).
  { exists (pre ++ pre2), l. split_and!; [|by apply Forall_app|by rewrite hops_app, Hh1|by rewrite <- Hs1|done].
    pose proof (after_trans _ _ _ _ _ Ha1 Ha2) as H. by rewrite app_assoc in H. }
  destruct res2 as [m|result]; [exact H2|].
  match goal with |- context [note_result e ?c ?b ?n ?v ?a ?j ?x ?y] => destruct (note_part c b n v a j x y) as [He Hs]; destruct (note_result e c b n v a j x y) as [r3 thrown] end.
  cbn [fst] in He, Hs. unfold after. by rewrite He, Hs.
Qed.

(** The one answer: a JSON body, or a stream that is opened and ended. *)
Definition answered (l : list effect) : Prop := (exists status body, l = [Json status body]) \/ exists chunks, l = SendHeaders :: map Write chunks ++ [EndStream].
(** A slot is visited: its kernel is called at most twice. *)
Definition visit (l : list effect) : Prop := exists vmId, Forall (probe_ok vmId) l /\ (hops l <= 2)%nat.
Definition visits (n : nat) (l : list effect) : Prop := exists parts, l = concat parts /\ (length parts <= n)%nat /\ Forall visit parts.
(** At most [n] visits, one after the other, and then the answer; or what there was of it when an exception left the
    handler: nothing, or a stream that is open. *)
Definition tried (n : nat) (l : list effect) : Prop := exists pre post, l = pre ++ post /\ visits n pre /\ answered post.
Definition left_open (n : nat) (l : list effect) : Prop :=
  exists pre post, l = pre ++ post /\ visits n pre /\ (post = [] \/ exists chunks, post = SendHeaders :: map Write chunks).
Definition ends (n : nat) (r : run) (x : codex_end) : Prop :=
  exists l, after r (run_of x) l /\ match x with Concluded _ => tried n l | Escaped _ _ => left_open n l end.

Lemma visits_none n : visits n [].
Proof. exists []. split_and!; [done|cbn; lia|constructor]. Qed.
Lemma visits_one l : visit l -> visits 1 l.
Proof. intros H. exists [l]. split_and!; [cbn; by rewrite app_nil_r|done|by constructor]. Qed.
Lemma visits_more n pre l : visit pre -> visits n l -> visits (S n) (pre ++ l).
Proof. intros Hp (parts & -> & Hn & Hv). exists (pre :: parts). split_and!; [done|cbn; lia|by constructor]. Qed.
Lemma visits_mono n m l : (n <= m)%nat -> visits n l -> visits m l.
Proof. intros H (parts & -> & Hn & Hv). exists parts. split_and!; [done|lia|done]. Qed.
Lemma ends_more n r1 r2 pre x : after r1 r2 pre -> visit pre -> ends n r2 x -> ends (S n) r1 x.
Proof.
  intros Ha Hp (l & Hl & Hx). exists (pre ++ l). split; [by eapply after_trans|].
  destruct x; destruct Hx as (p & q & -> & Hv & Hq); exists (pre ++ p), q; rewrite app_assoc; (split_and!; [done|by apply visits_more|done]).
Qed.
Lemma ends_mono n m r x : (n <= m)%nat -> ends n r x -> ends m r x.
Proof.
  intros H (l & Hl & Hx). exists l. split; [done|]. destruct x; destruct Hx as (p & q & -> & Hv & Hq); exists p, q; (split_and!; [done|by eapply visits_mono|done]).
Qed.
(** The last visit, and what follows it. *)
Lemma ends_last n r x pre post : after r (run_of x) (pre ++ post) -> visit pre ->
  match x with Concluded _ => answered post | Escaped _ _ => post = [] \/ exists chunks, post = SendHeaders :: map Write chunks end -> ends (S n) r x.
Proof.
  intros Ha Hp Hx. exists (pre ++ post). split; [done|]. assert (Hv : visits (S n) pre) by by (eapply visits_mono; [|apply visits_one]; [lia|]).
  destruct x; by exists pre, post.
Qed.

Lemma answer_part result requested chunks r : exists l, after r (answer protocol stream result requested chunks r) l /\
  (n_headersSent r = false -> answered l) /\ (n_headersSent r = true -> stream = true -> l = [EndStream]).
Proof.
  unfold answer, answered. destruct stream.
  - unfold open_stream. destruct (n_headersSent r); [by exists [EndStream]|]. exists [SendHeaders; EndStream]. unfold after. cbn.
    split_and!; [by rewrite <- app_assoc| |done]. intros _. right. by exists [].
  - eexists. split_and!; [done| |done]. intros _. left. by eexists _, _.
Qed.

Lemma slots_part cfg requested body ids i last r : sendable body -> body?."stream" = JBool true -> n_headersSent r = false ->
  ends (length ids) r (try_slots e protocol stream cfg requested body ids i last r).
Proof.
  intros Hb Hstream. revert i last r. induction ids as [|id ids IH]; intros i last r Hs; cbn [try_slots length].
  - exists [Json (last?."status" ||| jint 502) (last?."body" ||| UPSTREAM_ERROR)]. split; [done|]. eexists [], _.
    split_and!; [done|apply visits_none|]. left. by eexists _, _.
  - destruct (negb (truthy _) || _); [by eapply ends_mono; [|by apply IH]; lia|].
    cbn zeta. set (vmId := to_string (getVm (n_files r) id?."id")). match goal with |- context [emit (WriteConfig vmId ?u) ?r1] => set (r2 := emit (WriteConfig vmId u) r1) end.
    assert (Ha0 : exists pre, after r r2 pre /\ Forall (probe_ok vmId) pre /\ hops pre = 0%nat /\ n_headersSent r2 = false).
    { eexists [_]. unfold r2, after. cbn. split_and!; [done|by constructor; [split; [apply String.eqb_refl|]|]|done|exact Hs]. }
    destruct Ha0 as (pre & Ha0 & Hp0 & Hh0 & Hs0). clearbody r2. destruct (e_config e i vmId) as [m|].
    { apply (ends_last _ r _ pre []); [by rewrite app_nil_r|exists vmId; split; [done|lia]|by left]. }
    assert (Ha1 : after r (emit (Ensure vmId) r2) (pre ++ [Ensure vmId]) /\ Forall (probe_ok vmId) (pre ++ [Ensure vmId]) /\ hops (pre ++ [Ensure vmId]) = 0%nat).
    { split_and!; [by eapply after_trans|apply Forall_app; split; [done|]; constructor; [split; [apply String.eqb_refl|done]|done]|by rewrite hops_app, Hh0]. }
    destruct Ha1 as (Ha1 & Hp1 & Hh1). generalize dependent (pre ++ [Ensure vmId]). intros pre1 Ha1 Hp1 Hh1. clear pre Ha0 Hp0 Hh0.
    assert (Hs1 : n_headersSent (emit (Ensure vmId) r2) = false) by exact Hs0. generalize dependent (emit (Ensure vmId) r2). intros r3 Ha1 Hs1.
    assert (Hv1 : visit pre1) by (exists vmId; split; [done|lia]).
    destruct (e_ensure e i vmId) as [m|ready]; [apply (ends_last _ r _ pre1 []); [by rewrite app_nil_r|done|by left]|].
    destruct (negb (truthy _)).
    { destruct (_ && _); [by eapply ends_more; [..|apply IH]|].
      apply (ends_last _ r _ pre1 [Json (jint 503) (no_kernel ready)]); [by eapply after_trans|done|]. left. by eexists _, _. }
    pose proof (slot_part cfg body i (getVm (n_files r) id) r3 Hb Hstream) as H. destruct (one_slot _ _ _ _ _ _ _ _) as [r4 slot].
    destruct H as (pre2 & l & Ha2 & Hp2 & Hh2 & Hs2 & Hn2). pose proof (after_trans _ _ _ _ _ Ha1 Ha2) as Ha. rewrite app_assoc in Ha. rewrite Hs1 in Hs2.
    assert (Hv : visit (pre1 ++ pre2)) by (exists vmId; split; [by apply Forall_app|rewrite hops_app; lia]).
    destruct slot as [m|[chunks result]].
    { apply (ends_last _ r _ (pre1 ++ pre2) l); [done|done|]. destruct Hs2 as [[_ ->]|[_ [ws ->]]]; [by left|]. right. by exists ws. }
    assert (Hend : forall r5 m, after r4 r5 m -> (n_headersSent r4 = false -> answered m) -> (n_headersSent r4 = true -> m = [EndStream]) ->
      ends (S (length ids)) r (Concluded r5)).
    { intros r5 m Hm Hf Ht. apply (ends_last _ r _ (pre1 ++ pre2) (l ++ m)); [rewrite app_assoc; by eapply after_trans|done|].
      destruct Hs2 as [[Hx ->]|[Hx [ws ->]]]; [by apply Hf|]. right. rewrite Ht by done. by exists ws. }
    destruct (truthy (result?."ok")).
    { match goal with |- context [answer protocol stream result requested chunks ?r4'] => destruct (answer_part result requested chunks r4') as (m & Hm & Hf & Ht); set (r5 := r4') in * end.
      assert (H5 : n_effects r5 = n_effects r4 /\ n_headersSent r5 = n_headersSent r4) by (unfold r5; by destruct (i =? 0)%nat).
      destruct H5 as [He5 Hs5]. apply (Hend _ m); [unfold after in *; by rewrite <- He5|by rewrite <- Hs5|]. intros Hx. apply Ht; [by rewrite Hs5|].
      destruct stream; [done|]. rewrite Hn2 in Hs2 by done. destruct Hs2 as [[? _]|[_ [ws Hw]]]; [congruence|done]. }
    destruct (n_headersSent r4) eqn:Hs4; [by eapply (Hend _ [EndStream])|].
    destruct (_ && isCodexFailoverError result).
    + destruct Hs2 as [[_ ->]|[? _]]; [|done]. rewrite app_nil_r in Ha. eapply ends_more; [exact Ha|done|]. by apply IH.
    + eapply Hend; [done| |done]. intros _. left. by eexists _, _.
Qed.
End trace.

(** ** The whole request *)

Lemma refused_part n status type code message r r1 : n_effects r1 = n_effects r ->
  ends n r (Concluded (refuse_request status type code message r1)) /\ exists l, after r (refuse_request status type code message r1) l /\ hops l = 0%nat.
Proof.
  intros E. assert (Ha : after r (refuse_request status type code message r1)
    [Json (jint status) (JObj [("error", JObj [("type", JStr type); ("code", JStr code); ("message", JStr message)])])]) by (unfold after; cbn; by rewrite E).
  split; [|by eexists]. eexists. split; [exact Ha|]. eexists [], _. split_and!; [done|apply visits_none|]. left. by eexists _, _.
Qed.
Lemma escaped_part n r r1 m : n_effects r1 = n_effects r -> ends n r (Escaped r1 m).
Proof.
  intros E. exists []. split; [unfold after; cbn; by rewrite E, app_nil_r|]. exists [], []. split_and!; [done|apply visits_none|by left].
Qed.

Lemma codex_ends e protocol raw q r : n_headersSent r = false -> ends CODEX_FAILOVER_MAX r (handleCodexProtocol e protocol raw q r).
Proof.
  intros Hs. unfold handleCodexProtocol.
  destruct (isCodexProtocolAllowed _ _) as [code|mode]; [by apply refused_part|].
  destruct (restrictCodexClient _ _ _ _) as [allowed kind]. destruct (negb allowed); [by apply refused_part|]. cbn zeta.
  destruct (toCodexResponses _ _ _) as [[body rewritten|]|] eqn:Ec; [|by apply refused_part|by apply escaped_part].
  apply converted_sendable in Ec. destruct (thrown_by _ _) as [m|]; [by apply escaped_part|].
  destruct (pickCodexCandidates _ _ _ _) as [t [code|ids]]; [by apply refused_part|].
  pose proof (length_take ids CODEX_FAILOVER_MAX) as Hlen. destruct (take CODEX_FAILOVER_MAX ids) as [|id rest] eqn:E; [by apply refused_part|].
  match goal with |- context [try_slots e protocol ?b ?c ?m ?o ?l ?i ?x ?r1] =>
    assert (H : ends (length (id :: rest)) r1 (try_slots e protocol b c m o l i x r1)) by (by apply slots_part; [apply with_stream_sendable|apply get_with_field_eq|exact Hs]);
    generalize dependent (try_slots e protocol b c m o l i x r1) end.
  intros x (l & Ha & Hx). eapply ends_mono; [|exists l; split; [exact Ha|exact Hx]]. rewrite Hlen. lia.
Qed.


(** A client that is not allowed, Claude Code where nothing else is configured, is answered
    403 and no slot is called; nor is one for a protocol that is not enabled. *)
Theorem codex_refused e protocol raw q r :
  let codex := normalizeCodexRouting raw in
  ((exists code, isCodexProtocolAllowed protocol codex = inl code) \/
   (restrictCodexClient (q_headers q) (q_body q ||| q_inbound q) codex protocol).1 = false \/
   (raw = JUndef /\ classifyCodexClient (q_headers q) (q_body q ||| q_inbound q) protocol = ClaudeCode)) ->
  exists r' l, handleCodexProtocol e protocol raw q r = Concluded r' /\ n_effects r' = n_effects r ++ l /\ hops l = 0%nat.
Proof.
  intros codex Hr. subst codex. unfold handleCodexProtocol.
  assert (Href : forall status type code message, exists r' l, Concluded (refuse_request status type code message r) = Concluded r' /\ n_effects r' = n_effects r ++ l /\ hops l = 0%nat).
  { intros status type code message. destruct (refused_part 0 status type code message r r eq_refl) as (_ & l & Ha & Hh). by exists (refuse_request status type code message r), l. }
  destruct (isCodexProtocolAllowed _ _) as [code|mode]; [by apply Href|].
  destruct (restrictCodexClient _ _ _ _) as [allowed kind] eqn:E. assert (Ha : allowed = false).
  { destruct Hr as [[? ?]|[?|[-> Hk]]]; [done|done|]. unfold restrictCodexClient in E. rewrite Hk in E. by injection E as <- <-. }
  rewrite Ha. by apply Href.
Qed.

(** ** A request that fails over *)

Definition slot_doc (id : string) : jsval :=
  JObj [("id", JStr id); ("kind", JStr "codex"); ("family", JStr "codex"); ("platform", JStr "openai"); ("status", JStr "running");
        ("codex", JObj [("has_access", JBool true)])].
Definition quota_error : jsval := JObj [("ok", JBool false); ("status", jint 429); ("body", JObj [("error", JObj [("code", JStr "usage_limit_reached")])])].
Definition sample_env : env :=
  {| e_accounts := fun _ => JObj [("accounts", JArr [JObj [("access_token", JStr "t")]])];
     e_synced := None; e_config := fun _ _ => None; e_ensure := fun _ _ => inr (JObj [("ok", JBool true)]);
     e_hop := fun i _ _ _ => if (i =? 0)%nat then ([], fun _ => inr quota_error) else (["data: {}"], fun _ => inr (JObj [("ok", JBool true)]));
     e_persisted := fun _ _ => None;
     e_clock := fun _ => 1700000000000%Z; e_localeCompare := fun _ _ => num_of_Z (-1) |}.
Definition sample_run : run :=
  {| n_files := [("vm-a", slot_doc "vm-a"); ("vm-b", slot_doc "vm-b")]; n_turns := []; n_needs := ∅; n_log := JObj []; n_errors := 0; n_requests := 0;
     n_sse := createAnthropicSseState; n_headersSent := false; n_effects := [] |}.
Definition sample_request : request :=
  {| q_headers := JObj []; q_master := false; q_path := JStr "/v1/responses";
     q_body := JObj [("model", JStr "gpt-6"); ("input", JStr "hi"); ("api_key", JStr "k")]; q_inbound := JObj [] |}.
#[local] Notation sample_answer := (handleCodexProtocol sample_env "openai.responses" JUndef sample_request sample_run).

Definition hops_of (x : codex_end) : option nat := match x with Concluded r => Some (hops (n_effects r)) | Escaped _ _ => None end.


(** The kernel of the first slot cannot be configured: the exception leaves the handler after one visit. *)
Example codex_escapes :
  let e := {| e_accounts := e_accounts sample_env; e_synced := None; e_config := fun _ _ => Some "EACCES"; e_ensure := e_ensure sample_env;
              e_hop := e_hop sample_env; e_persisted := e_persisted sample_env; e_clock := e_clock sample_env;
              e_localeCompare := e_localeCompare sample_env |} in
  match handleCodexProtocol e "openai.responses" JUndef sample_request sample_run with
  | Escaped r m => (m, n_effects r) | Concluded _ => ("", []) end = ("EACCES", [WriteConfig "vm-a" ""]).
Proof. vm_compute. reflexivity. Qed.

#[local] Notation claude_answer := (handleCodexProtocol sample_env "anthropic.messages" JUndef sample_request sample_run).

Lemma codex_refused_witness : exists r' l, claude_answer = Concluded r' /\ n_effects r' = n_effects sample_run ++ l /\ hops l = 0%nat.
Proof.
  assert (Hc : exists code, isCodexProtocolAllowed "anthropic.messages" (normalizeCodexRouting JUndef) = inl code) by (eexists; vm_compute; reflexivity).
  exact (codex_refused sample_env "anthropic.messages" JUndef sample_request sample_run (or_introl Hc)).
Defined.
