(* ===== verification/WorkerStream.v ===== *)
(** * The stream of a slot worker (src/src/lib/transport/go-worker-client.mjs)

    [streamGoWorker] reads the events of a worker, holds the lines back until one of them commits
    the answer, and tells how the stream ended; [callGoWorker] and [workerHealth] read one body.
    The response is a value: its status, headers, the bytes of its chunks, the error that cut it
    off, if any, and its trailers.  The client is two callbacks on a state of its own, [onCommit]
    and [onEvent], the second of which may throw.  The mock worker that tests switch on by an
    environment variable is left out. *)

From stdpp Require Import gmap strings.
From S2P Require Import Prelude.
From S2P Require Import JsValue.
From S2P Require Import JsText.
From S2P Require Import JsJson.
From S2P Require Import JsonParse.
#[local] Open Scope string_scope.
#[local] Open Scope list_scope.
#[local] Open Scope js_scope.

(** ** Bytes and text *)

(** [Buffer.toString('utf8')]: a maximal part of a sequence that cannot go on is replaced by U+FFFD. *)
Definition REPLACEMENT : string := String (ascii_of_nat 239) (String (ascii_of_nat 191) (String (ascii_of_nat 189) "")).
Inductive lead := Whole | Leads (need lo hi : nat) | Bad.
Definition lead_of (c : ascii) : lead :=
  let n := nat_of_ascii c in
  if (n <? 128)%nat then Whole
  else if ascii_is 194 223 c then Leads 1 128 191
  else if (n =? 224)%nat then Leads 2 160 191
  else if (n =? 237)%nat then Leads 2 128 159
  else if ascii_is 225 239 c then Leads 2 128 191
  else if (n =? 240)%nat then Leads 3 144 191
  else if (n =? 244)%nat then Leads 3 128 143
  else if ascii_is 241 243 c then Leads 3 128 191
  else Bad.
(** Inside a sequence: the bytes read, how many are missing, and the range of the next. *)
Definition sequence : Type := string * nat * nat * nat.
Fixpoint decode_from (st : option sequence) (s : string) : string :=
  match s with
  | "" => match st with Some _ => REPLACEMENT | None => "" end
  | String c s =>
    let begin := match lead_of c with
                 | Whole => String c (decode_from None s)
                 | Leads need lo hi => decode_from (Some (String c "", need, lo, hi)) s
                 | Bad => (REPLACEMENT ++ decode_from None s)%string
                 end in
    match st with
    | None => begin
    | Some (held, need, lo, hi) =>
      if ascii_is lo hi c
      then match need with
           | S (S need) => decode_from (Some ((held ++ String c "")%string, S need, 128, 191)%nat) s
           | _ => (held ++ String c (decode_from None s))%string
           end
      else (REPLACEMENT ++ begin)%string
    end
  end.
Definition decode (s : string) : string := decode_from None s.

(** ** Helpers *)

Record thrown := { t_code : jsval; t_message : string }.
(** How the request for a response ends. *)
Record response := { statusCode : Z; r_headers : jsval; chunks : list string; failure : option thrown; trailers : jsval }.
Definition reply : Type := thrown + response.

Definition readAll (r : response) (limit : Z) : thrown + string :=
  let fix read (l : list string) (seen : string) :=
    match l with
    | [] => match failure r with Some t => inl t | None => inr seen end
    | c :: l =>
      let seen := (seen ++ c)%string in
      if (limit <? Z.of_nat (String.length seen))%Z
      then inl {| t_code := JStr "worker_response_too_large"; t_message := ("worker response exceeds " ++ Z_to_string limit ++ " bytes")%string |}
      else read l seen
    end in
  read (chunks r) "".

Definition worker_error (code : jsval) (message : string) : jsval :=
  JObj [("type", JStr "error");
        ("error", JObj [("type", JStr "worker_error"); ("code", code); ("message", JStr message)])].
Definition parseJson (bytes : string) : jsval :=
  match json_parse (decode bytes) with
  | Some v => v
  | None => worker_error (JStr "worker_invalid_json") (take_chars 400 (decode bytes))
  end.

Definition header_text (v : jsval) : jsval := match v with JArr l => JStr (join "," (map to_string l)) | _ => JStr (to_string v) end.
Definition PRIVATE_HEADERS : list string := ["set-cookie"; "authorization"; "x-api-key"].
Definition publicHeaders (headers : jsval) : jsval :=
  fold_left (fun out p =>
    let lower := to_lower p.1 in
    if is_nullish p.2 || mem lower PRIVATE_HEADERS then out else with_field out lower (header_text p.2))
    (entries headers) (JObj []).

Definition rate_header (lower : string) : bool :=
  starts_with "anthropic-ratelimit-" lower || String.eqb lower "retry-after" || String.eqb lower "request-id".
Definition mergeRateLimitHeaders (headers : jsval) : jsval :=
  let packed := headers?."x-kin-rate-limit-headers" in
  if negb (truthy packed) then own headers
  else
    let parsed := match packed with JStr s => default JUndef (json_parse s) | v => v end in
    if negb (is_obj parsed) then own headers
    else fold_left (fun out p =>
           let lower := to_lower p.1 in
           if is_nullish p.2 || is_str p.2 "" || negb (rate_header lower) then out else with_field out lower (JStr (to_string p.2)))
           (entries parsed) (own headers).

(** [usage], [model] and [stopReason]. *)
Definition streamMetaFromHeaders (headers : jsval) : jsval * jsval * jsval :=
  let usage := if truthy (headers?."x-kin-usage") then default JNull (json_parse (to_string (headers?."x-kin-usage"))) else JNull in
  (usage, headers?."x-kin-model" ||| JNull, headers?."x-kin-stop-reason" ||| JNull).

Definition object_or_empty (v : jsval) : jsval := if truthy v && is_object v then own v else JObj [].
Definition mergeUsage (current next : jsval) : jsval :=
  if negb (truthy next && is_object next) then current
  else fold_left (fun out p =>
         if is_obj p.2 then with_field out p.1 (spread (object_or_empty (out?.(p.1))) (own p.2)) else with_field out p.1 p.2)
         (entries next) (own current).

Definition isDownstreamCommitEvent (event : jsval) : bool :=
  if negb (is_object event) then false
  else
    let t := str_or_empty (event?."type") in
    if mem t ["error"; "message_start"; "kin_response_headers"] then false
    else if mem t ["message_stop"; "response.completed"; "response.done"] then true
    else if String.eqb t "content_block_delta" then
      let d := event?."delta" in truthy (d?."text") || truthy (d?."thinking") || truthy (d?."partial_json")
    else if String.eqb t "content_block_start" then
      let b := event?."content_block" in
      existsb (is_str (b?."type")) ["text"; "thinking"; "tool_use"] || truthy (b?."text") || truthy (b?."thinking")
    else starts_with "response.output_" t.

Definition usageFromSseEvent (event : jsval) : jsval :=
  let object v := truthy v && is_object v in
  if negb (is_object event) then JNull
  else if object (event?."usage") then event?."usage"
  else if object (event?."response"?."usage") then event?."response"?."usage"
  else if object (event?."message"?."usage") then event?."message"?."usage"
  else JNull.

(** ** Reading a stream *)

Definition SSE_TERMINALS : list string := ["message_stop"; "response.completed"; "response.done"].

Record progress := {
  committed : bool; dataBuf : string; lastError : jsval; sawTerminal : bool;
  sseUsage : jsval; sseModel : jsval; sseStop : jsval; sseRateHeaders : jsval;
  pendingLines : list string; ttftMs : jsval;
  seen : nat                                 (* lines read, for the clock *)
}.
Definition started : progress :=
  {| committed := false; dataBuf := ""; lastError := JNull; sawTerminal := false; sseUsage := JNull; sseModel := JNull; sseStop := JNull;
     sseRateHeaders := JObj []; pendingLines := []; ttftMs := JNull; seen := 0 |}.

Definition set_data (d : string) (p : progress) : progress :=
  {| committed := committed p; dataBuf := d; lastError := lastError p; sawTerminal := sawTerminal p; sseUsage := sseUsage p; sseModel := sseModel p;
     sseStop := sseStop p; sseRateHeaders := sseRateHeaders p; pendingLines := pendingLines p; ttftMs := ttftMs p; seen := seen p |}.
Definition set_gate (c : bool) (pending : list string) (p : progress) : progress :=
  {| committed := c; dataBuf := dataBuf p; lastError := lastError p; sawTerminal := sawTerminal p; sseUsage := sseUsage p; sseModel := sseModel p;
     sseStop := sseStop p; sseRateHeaders := sseRateHeaders p; pendingLines := pending; ttftMs := ttftMs p; seen := seen p |}.
Definition set_ttft (t : jsval) (p : progress) : progress :=
  {| committed := committed p; dataBuf := dataBuf p; lastError := lastError p; sawTerminal := sawTerminal p; sseUsage := sseUsage p; sseModel := sseModel p;
     sseStop := sseStop p; sseRateHeaders := sseRateHeaders p; pendingLines := pendingLines p; ttftMs := t; seen := seen p |}.
Definition count_line (p : progress) : progress :=
  {| committed := committed p; dataBuf := dataBuf p; lastError := lastError p; sawTerminal := sawTerminal p; sseUsage := sseUsage p; sseModel := sseModel p;
     sseStop := sseStop p; sseRateHeaders := sseRateHeaders p; pendingLines := pendingLines p; ttftMs := ttftMs p; seen := S (seen p) |}.

(** The buffered event; text that is not JSON yet stays in the buffer. *)
Definition takeSseEvent (p : progress) : jsval * progress :=
  match json_parse (dataBuf p) with
  | Some event => (if is_object event then event else JNull, set_data "" p)
  | None => (JNull, p)
  end.

Definition observeSseEvent (event : jsval) (p : progress) : progress :=
  if negb (truthy event) then p
  else
    let stop := event?."message"?."stop_reason" ||| event?."delta"?."stop_reason" in
    let usage := usageFromSseEvent event in
    {| committed := committed p; dataBuf := dataBuf p;
       lastError := if is_str (event?."type") "error" then event else lastError p;
       sawTerminal := existsb (is_str (event?."type")) SSE_TERMINALS || sawTerminal p;
       sseUsage := if truthy usage then mergeUsage (sseUsage p) usage else sseUsage p;
       sseModel := event?."message"?."model" ||| sseModel p;
       sseStop := stop ||| sseStop p;
       sseRateHeaders := if is_str (event?."type") "kin_response_headers" && truthy (event?."headers") && is_object (event?."headers")
                         then spread (sseRateHeaders p) (own (event?."headers")) else sseRateHeaders p;
       pendingLines := pendingLines p; ttftMs := ttftMs p; seen := seen p |}.

Section Client.
Context {C : Type} (onCommit : C -> C) (onEvent : string -> C -> C * option thrown).
Context (elapsed : nat -> Z).               (* [Date.now() - startedAt] at a line *)

(** What a step leaves: an error that was thrown ends the stream. *)
Definition out : Type := progress * C * option thrown.
Definition and_then (o : out) (f : progress -> C -> out) : out :=
  match o with (p, c, None) => f p c | (p, c, Some t) => (p, c, Some t) end.

Fixpoint emit_all (lines : list string) (c : C) : C * option thrown :=
  match lines with
  | [] => (c, None)
  | line :: lines => match onEvent line c with (c, None) => emit_all lines c | (c, Some t) => (c, Some t) end
  end.
Definition flushCommit (p : progress) (c : C) : out :=
  if committed p then (p, c, None)
  else
    let p := set_gate true (pendingLines p) p in
    match emit_all (pendingLines p) (onCommit c) with
    | (c, None) => (set_gate true [] p, c, None)
    | (c, Some t) => (p, c, Some t)
    end.
Definition emitLine (line : string) (p : progress) (c : C) : out :=
  if negb (committed p) then (set_gate false (pendingLines p ++ [line]) p, c, None)
  else match onEvent line c with (c, t) => (p, c, t) end.

(** [dataBuf] gained a piece: the event is observed and may commit. *)
Definition take_event (p : progress) (c : C) : out :=
  let '(event, p) := takeSseEvent p in
  let p := observeSseEvent event p in
  if isDownstreamCommitEvent event then flushCommit p c else (p, c, None).
Definition append (sep piece : string) (p : progress) : progress :=
  set_data (if nonempty (dataBuf p) then (dataBuf p ++ sep ++ piece)%string else piece) p.

Definition drop_cr (line : string) : string :=
  if ends_with (String (ascii_of_nat 13) "") line then drop_last 1 line else line.

Definition data_line (line : string) (p : progress) (c : C) : out :=
  let piece := trim (drop_chars 5 line) in
  let o := if nonempty piece && negb (String.eqb piece "[DONE]") then take_event (append newline piece p) c else (p, c, None) in
  and_then o (fun p c => (if is_nullish (ttftMs p) then set_ttft (jint (elapsed (seen p))) p else p, c, None)).
(** An empty line ends the event, whether it could be read or not. *)
Definition end_event (p : progress) (c : C) : out :=
  if negb (nonempty (dataBuf p)) then (p, c, None)
  else
    let event := (takeSseEvent p).1 in
    let p := observeSseEvent event (set_data "" p) in
    if isDownstreamCommitEvent event then flushCommit p c else (p, c, None).
Definition read_line (line : string) (p : progress) (c : C) : out :=
  let line := drop_cr line in
  let o :=
    if starts_with "data:" line then data_line line p c
    else if negb (nonempty line) then end_event p c
    else if nonempty (dataBuf p) && negb (starts_with "event:" line) && negb (starts_with ":" line)
    then take_event (set_data (dataBuf p ++ newline ++ line)%string p) c
    else (p, c, None) in
  and_then o (fun p c => emitLine line (count_line p) c).

Fixpoint read_lines (lines : list string) (p : progress) (c : C) : out :=
  match lines with [] => (p, c, None) | line :: lines => and_then (read_line line p c) (read_lines lines) end.

(** The complete lines of a text, and what follows the last of them. *)
Definition cut_lines (s : string) : list string * string :=
  let parts := split_char (ascii_of_nat 10) s in (removelast parts, List.last parts "").
Fixpoint read_chunks (l : list string) (buffer : string) (p : progress) (c : C) : string * out :=
  match l with
  | [] => (buffer, (p, c, None))
  | chunk :: l =>
    let '(lines, buffer) := cut_lines (buffer ++ decode chunk)%string in
    match read_lines lines p c with
    | (p, c, None) => read_chunks l buffer p c
    | o => (buffer, o)
    end
  end.

(** The rest of the text once the stream ended. *)
Definition read_rest (buffer : string) (p : progress) (c : C) : out :=
  and_then (if nonempty buffer then emitLine buffer p c else (p, c, None))
           (fun p c => if nonempty (dataBuf p) then take_event p c else (p, c, None)).

Definition verdict (r : response) (headers : jsval) (p : progress) : jsval :=
  let trailing := mergeRateLimitHeaders (publicHeaders (trailers r)) in
  let terminalState := trailing?."x-kin-terminal-state" ||| headers?."x-kin-terminal-state" |||
                       JStr (if sawTerminal p then "verified" else "incomplete") in
  let '(usage, model, stopReason) := streamMetaFromHeaders (spread headers trailing) in
  JObj [("ok", JBool ((statusCode r =? 200)%Z && negb (truthy (lastError p)) && is_str terminalState "verified"));
        ("status", jint (statusCode r)); ("via", JStr "go-worker-stream");
        ("body", lastError p ||| JObj [("type", JStr "message"); ("role", JStr "assistant"); ("content", JArr [])]);
        ("headers", mergeRateLimitHeaders (spread (spread (sseRateHeaders p) headers) trailing));
        ("usage", usage ||| sseUsage p); ("model", model ||| sseModel p); ("stopReason", stopReason ||| sseStop p);
        ("ttftMs", ttftMs p); ("committed", JBool (committed p)); ("terminalState", terminalState); ("transportError", JBool false)].

Definition transport_failure (t : thrown) (ttft : jsval) (was_committed : bool) : jsval :=
  JObj [("ok", JBool false); ("status", jint 0); ("via", JStr "go-worker-stream");
        ("body", worker_error (t_code t ||| JStr "worker_transport_error") (take_chars 300 (t_message t)));
        ("headers", JObj []); ("ttftMs", ttft); ("committed", JBool was_committed);
        ("terminalState", JStr (if was_committed then "incomplete" else "transport_error")); ("transportError", JBool true)].

Definition is_2xx (status : Z) : bool := (200 <=? status)%Z && (status <? 300)%Z.
Definition rejected (r : response) (headers : jsval) : jsval :=
  match readAll r (1024 * 1024) with
  | inl t => transport_failure t JNull false
  | inr bytes =>
    JObj [("ok", JBool false); ("status", jint (statusCode r)); ("via", JStr "go-worker-stream"); ("body", parseJson bytes); ("headers", headers);
          ("committed", JBool false); ("terminalState", headers?."x-kin-terminal-state" ||| JStr "error"); ("transportError", JBool false)]
  end.

(** The stream of a 2xx response. *)
Definition read_stream (r : response) (c : C) : out :=
  let '(buffer, o) := read_chunks (chunks r) "" started c in
  match o, failure r with
  | (p, c, None), Some t => (p, c, Some t)
  | (p, c, None), None => read_rest buffer p c
  | o, _ => o
  end.
Definition streamGoWorker (answer : reply) (c : C) : jsval * C :=
  match answer with
  | inl t => (transport_failure t JNull false, c)
  | inr r =>
    let headers := mergeRateLimitHeaders (publicHeaders (r_headers r)) in
    if negb (is_2xx (statusCode r)) then (rejected r headers, c)
    else match read_stream r c with
         | (p, c, None) => (verdict r headers p, c)
         | (p, c, Some t) => (transport_failure t (ttftMs p) (committed p), c)
         end
  end.
End Client.

(** ** One body *)

Definition MAX_BODY : Z := 64 * 1024 * 1024.
Definition call_failure (t : thrown) : jsval :=
  JObj [("ok", JBool false); ("status", jint 0); ("via", JStr "go-worker");
        ("body", worker_error (t_code t ||| JStr "worker_transport_error") (take_chars 300 (t_message t)));
        ("headers", JObj []); ("terminalState", JStr "transport_error"); ("transportError", JBool true)].
Definition callGoWorker (answer : reply) : jsval :=
  match answer with
  | inl t => call_failure t
  | inr r =>
    match readAll r MAX_BODY with
    | inl t => call_failure t
    | inr bytes =>
      let parsed := parseJson bytes in
      let headers := mergeRateLimitHeaders (publicHeaders (r_headers r)) in
      JObj [("ok", JBool (is_2xx (statusCode r) && negb (is_str (parsed?."type") "error"))); ("status", jint (statusCode r));
            ("via", JStr "go-worker"); ("body", parsed); ("headers", headers); ("usage", parsed?."usage" ||| JNull);
            ("model", parsed?."model" ||| JNull); ("stopReason", parsed?."stop_reason" ||| JNull);
            ("terminalState", headers?."x-kin-terminal-state" ||| JNull); ("transportError", JBool false)]
    end
  end.

(** The fields of the body win over those computed from the response. *)
Definition workerHealth (answer : reply) : jsval :=
  let failed t := JObj [("ok", JBool false); ("status", jint 0); ("error", JStr (take_chars 300 (t_message t))); ("code", t_code t ||| JStr "worker_unavailable")] in
  match answer with
  | inl t => failed t
  | inr r =>
    match readAll r (1024 * 1024) with
    | inl t => failed t
    | inr bytes =>
      let body := parseJson bytes in
      spread (JObj [("ok", JBool ((statusCode r =? 200)%Z && is_bool (body?."ok") true)); ("status", jint (statusCode r))]) (own body)
    end
  end.
