(* ===== verification/WorkerStreamFacts.v ===== *)
(** * What a worker's stream shows the client (WorkerStream.v)

    Nothing before it commits and then every line, in order, once; the same whatever chunks the
    bytes came in, as long as no chunk ends inside a character. *)

From stdpp Require Import gmap strings.
From S2P Require Import Prelude.
From S2P Require Import JsValue.
From S2P Require Import JsText.
From S2P Require Import JsRegex.
From S2P Require Import JsonParse.
From S2P Require Import WorkerStream.
#[local] Open Scope string_scope.
#[local] Open Scope list_scope.
#[local] Open Scope js_scope.

(** ** Lines of a text *)

Lemma split_cons p c s : exists x l, split_chars p s = x :: l /\
  split_chars p (String c s) = if p c then "" :: x :: l else String c x :: l.
Proof.
  assert (H : exists x l, split_chars p s = x :: l).
  { destruct s as [|d s]; [by eexists _, _|]. cbn [split_chars]. destruct (p d); [by eexists _, _|]. destruct (split_chars p s); by eexists _, _. }
  destruct H as (x & l & H). exists x, l. split; [done|]. cbn [split_chars]. by rewrite H.
Qed.

Definition is_newline (c : ascii) : bool := Ascii.eqb (ascii_of_nat 10) c.
Lemma cut_cons c s : cut_lines (String c s) =
  let '(l, r) := cut_lines s in
  if is_newline c then ("" :: l, r) else match l with [] => ([], String c r) | x :: l => (String c x :: l, r) end.
Proof.
  unfold cut_lines, split_char. destruct (split_cons (Ascii.eqb (ascii_of_nat 10)) c s) as (x & l & -> & ->). unfold is_newline.
  destruct (Ascii.eqb _ c); destruct l; done.
Qed.

(** Cutting a text is cutting a part of it and going on with what was left over. *)
Lemma cut_app a b : cut_lines (a ++ b) =
  let '(l1, r1) := cut_lines a in let '(l2, r2) := cut_lines (r1 ++ b) in (l1 ++ l2, r2).
Proof.
  induction a as [|c a IH]; [change (cut_lines b = let '(l2, r2) := cut_lines b in (l2, r2)); by destruct (cut_lines b)|]. change (String c a ++ b)%string with (String c (a ++ b)). rewrite !cut_cons, IH.
  destruct (cut_lines a) as [l1 r1]. destruct (is_newline c) eqn:E.
  - by destruct (cut_lines (r1 ++ b)).
  - destruct l1 as [|x l1]; [|by destruct (cut_lines (r1 ++ b))].
    change ((String c r1 ++ b)%string) with (String c (r1 ++ b)). rewrite cut_cons, E. by destruct (cut_lines (r1 ++ b)) as [[|? ?] ?].
Qed.

Lemma cut_rest s : cut_lines (cut_lines s).2 = ([], (cut_lines s).2).
Proof.
  induction s as [|c s IH]; [done|]. rewrite cut_cons. destruct (cut_lines s) as [l r]. cbn [snd] in IH.
  destruct (is_newline c) eqn:E; [exact IH|]. destruct l as [|x l]; [|exact IH]. cbn [snd]. by rewrite cut_cons, IH, E.
Qed.

(** ** Bytes of whole characters *)

(** The sequence that is open after some bytes. *)
Fixpoint open_after (st : option sequence) (s : string) : option sequence :=
  match s with
  | "" => st
  | String c s =>
    let begin := match lead_of c with Leads need lo hi => open_after (Some (String c "", need, lo, hi)) s | _ => open_after None s end in
    match st with
    | None => begin
    | Some (held, need, lo, hi) =>
      if ascii_is lo hi c
      then match need with S (S need) => open_after (Some ((held ++ String c "")%string, S need, 128, 191)%nat) s | _ => open_after None s end
      else begin
    end
  end.
Definition whole (s : string) : Prop := open_after None s = None.

Lemma decode_from_app a : forall st b, open_after st a = None -> decode_from st (a ++ b) = (decode_from st a ++ decode b)%string.
Proof.
  induction a as [|c a IH]; intros st b H; [cbn in H; by subst|]. change (String c a ++ b)%string with (String c (a ++ b)).
  assert (Hb : (match lead_of c with Leads need lo hi => open_after (Some (String c "", need, lo, hi)) a | _ => open_after None a end) = None ->
    (match lead_of c with Whole => String c (decode_from None (a ++ b)) | Leads need lo hi => decode_from (Some (String c "", need, lo, hi)) (a ++ b)
     | Bad => (REPLACEMENT ++ decode_from None (a ++ b))%string end) =
    ((match lead_of c with Whole => String c (decode_from None a) | Leads need lo hi => decode_from (Some (String c "", need, lo, hi)) a
      | Bad => (REPLACEMENT ++ decode_from None a)%string end) ++ decode b)%string).
  { destruct (lead_of c); intros Hc; rewrite (IH _ _ Hc); [done|done|by rewrite string_app_assoc]. }
  destruct st as [[[[held need] lo] hi]|]; cbn [open_after decode_from] in *; [|by apply Hb].
  destruct (ascii_is lo hi c); [|rewrite Hb by done; by rewrite string_app_assoc].
  destruct need as [|[|need]]; rewrite (IH _ _ H); done || (rewrite string_app_assoc; done).
Qed.

Lemma decode_chunks l : Forall whole l -> decode (String.concat "" l) = String.concat "" (map decode l).
Proof.
  induction 1 as [|s l Hs Hl IH]; [done|]. cbn [map]. rewrite !concat_empty_cons. unfold decode at 1. rewrite decode_from_app by done. by rewrite IH.
Qed.

(** A character in two chunks is lost: é, the bytes 195 and 169. *)
Lemma split_character : let a := String (ascii_of_nat 195) "" in let b := String (ascii_of_nat 169) "" in
  decode (a ++ b) = (a ++ b)%string /\ (decode a ++ decode b)%string = (REPLACEMENT ++ REPLACEMENT)%string.
Proof. vm_compute. done. Qed.

(** ** Chunks *)

Section Stream.
Context {C : Type} (onCommit : C -> C) (onEvent : string -> C -> C * option thrown) (elapsed : nat -> Z).
#[local] Notation read_lines := (read_lines onCommit onEvent elapsed).
#[local] Notation read_chunks := (read_chunks onCommit onEvent elapsed).

Lemma read_lines_app l1 l2 p c : read_lines (l1 ++ l2) p c = and_then (read_lines l1 p c) (read_lines l2).
Proof.
  revert p c. induction l1 as [|line l1 IH]; intros p c; [done|]. cbn [app WorkerStream.read_lines].
  destruct (read_line _ _ _ line p c) as [[p' c'] [t|]]; [done|]. apply IH.
Qed.

Lemma read_chunks_lines l : forall buffer p c, cut_lines buffer = ([], buffer) ->
  let '(lines, rest) := cut_lines (buffer ++ String.concat "" (map decode l)) in
  (read_chunks l buffer p c).2 = read_lines lines p c /\ ((read_lines lines p c).2 = None -> (read_chunks l buffer p c).1 = rest).
Proof.
  induction l as [|chunk l IH]; intros buffer p c Hb; cbn [map WorkerStream.read_chunks].
  { cbn [String.concat]. rewrite string_app_nil, Hb. done. }
  rewrite concat_empty_cons, <- string_app_assoc, cut_app. pose proof (cut_rest (buffer ++ decode chunk)) as Hr.
  destruct (cut_lines (buffer ++ decode chunk)) as [l1 r1]. cbn [snd] in Hr.
  destruct (cut_lines (r1 ++ String.concat "" (map decode l))) as [l2 rest] eqn:E. rewrite read_lines_app.
  destruct (read_lines l1 p c) as [[p' c'] [t|]]; cbn [and_then]; [done|].
  specialize (IH r1 p' c' Hr). rewrite E in IH. exact IH.
Qed.

(** Reading a whole text at once. *)
Definition read_text (failed : option thrown) (s : string) (c : C) : out :=
  let '(lines, rest) := cut_lines s in
  and_then (read_lines lines started c) (fun p c => match failed with Some t => (p, c, Some t) | None => read_rest onCommit onEvent rest p c end).

Lemma read_stream_text r c : read_stream onCommit onEvent elapsed r c = read_text (failure r) (String.concat "" (map decode (chunks r))) c.
Proof.
  unfold read_stream, read_text. pose proof (read_chunks_lines (chunks r) "" started c eq_refl) as H. cbn [String.append] in H.
  change ("" ++ ?s)%string with s in H. destruct (cut_lines _) as [lines rest]. destruct H as [H1 H2].
  destruct (read_chunks (chunks r) "" started c) as [buffer o]. cbn [fst snd] in H1, H2. subst o.
  destruct (read_lines lines started c) as [[p c'] [t|]]; [by destruct (failure r)|]. cbn [and_then snd] in *. rewrite H2 by done. by destruct (failure r).
Qed.

(** The client sees the same of a worker's stream however its bytes were cut into chunks, as
    long as no chunk ends inside a character: its lines are those of the decoded text. *)
Theorem stream_reads_text r c : Forall whole (chunks r) ->
  read_stream onCommit onEvent elapsed r c = read_text (failure r) (decode (String.concat "" (chunks r))) c.
Proof. intros H. by rewrite read_stream_text, decode_chunks. Qed.
End Stream.

(** ** The gate *)

Inductive emitted := Committed | Line (line : string).
Section Gate.
(** The callback may throw at any line. *)
Context (fails : string -> option thrown) (elapsed : nat -> Z).
(** What the client was shown before. *)
Context (b : list emitted).
Definition log_commit (log : list emitted) : list emitted := log ++ [Committed].
Definition log_line (line : string) (log : list emitted) : list emitted * option thrown := (log ++ [Line line], fails line).

(** [ls]: the lines the stream had so far. *)
Definition held (p : progress) (log : list emitted) (ls : list string) : Prop :=
  if committed p then log = b ++ Committed :: map Line ls else log = b /\ pendingLines p = ls.
Definition cut_off (p : progress) (log : list emitted) (ls : list string) : Prop :=
  committed p = true /\ exists shown, log = b ++ Committed :: map Line shown /\ shown `prefix_of` ls.
Definition shows (ls : list string) (o : progress * list emitted * option thrown) : Prop :=
  match o with (p, log, None) => held p log ls | (p, log, Some _) => cut_off p log ls end.

Lemma cut_off_more p log ls more : cut_off p log ls -> cut_off p log (ls ++ more).
Proof. intros (Hc & shown & -> & Hp). split; [done|]. exists shown. split; [done|]. by apply prefix_app_r. Qed.

Lemma shows_then ls more o f : shows ls o -> (forall p log, held p log ls -> shows (ls ++ more) (f p log)) -> shows (ls ++ more) (and_then o f).
Proof. destruct o as [[p log] [t|]]; cbn [and_then shows]; [intros H _; by apply cut_off_more|intros H Hf; by apply Hf]. Qed.

Lemma emit_all_log lines : forall shown,
  match emit_all log_line lines (b ++ Committed :: map Line shown) with
  | (log, None) => log = b ++ Committed :: map Line (shown ++ lines)
  | (log, Some _) => exists ls, log = b ++ Committed :: map Line (shown ++ ls) /\ ls `prefix_of` lines
  end.
Proof.
  induction lines as [|line lines IH]; intros shown; cbn [emit_all]; [by rewrite app_nil_r|]. unfold log_line at 1.
  destruct (fails line).
  - exists [line]. split; [by rewrite map_app, <- app_assoc|]. by exists lines.
  - specialize (IH (shown ++ [line])). rewrite map_app in IH. rewrite <- app_assoc. cbn [map app] in *.
    destruct (emit_all _ _ _) as [log [t'|]]; [|by rewrite <- app_assoc in IH].
    destruct IH as (ls & -> & [k ->]). exists (line :: ls). split; [by rewrite <- app_assoc|]. by exists k.
Qed.

Lemma flush_shows p log ls : held p log ls -> shows ls (flushCommit log_commit log_line p log).
Proof.
  unfold flushCommit, held. destruct (committed p) eqn:E; [intros ->; cbn [shows]; unfold held; by rewrite E|]. intros [-> <-].
  cbn [pendingLines set_gate]. unfold log_commit. pose proof (emit_all_log (pendingLines p) []) as H. cbn [map app] in H.
  destruct (emit_all _ _ _) as [log [t|]]; [|by rewrite H]. destruct H as (ls & -> & Hp). split; [done|]. by exists ls.
Qed.

Lemma emit_shows line p log ls : held p log ls -> shows (ls ++ [line]) (emitLine log_line line p log).
Proof.
  unfold emitLine, held. destruct (committed p) eqn:E; cbn [negb].
  - intros ->. unfold log_line. destruct (fails line); cbn [shows].
    + split; [done|]. exists (ls ++ [line]). split; [by rewrite map_app, <- app_assoc|done].
    + unfold held. by rewrite E, map_app, <- app_assoc.
  - intros [-> <-]. cbn [shows]. by unfold held.
Qed.

Lemma held_observe event p log ls : held p log ls -> held (observeSseEvent event p) log ls.
Proof. unfold observeSseEvent. by destruct (truthy event). Qed.
Lemma held_take p log ls : held p log ls -> held (takeSseEvent p).2 log ls.
Proof. unfold takeSseEvent. by destruct (json_parse (dataBuf p)). Qed.

Lemma commit_shows event p log ls : held p log ls ->
  shows ls (if isDownstreamCommitEvent event then flushCommit log_commit log_line p log else (p, log, None)).
Proof. intros H. destruct (isDownstreamCommitEvent event); [by apply flush_shows|done]. Qed.
Lemma take_shows p log ls : held p log ls -> shows ls (take_event log_commit log_line p log).
Proof.
  intros H. unfold take_event. pose proof (held_take _ _ _ H) as Ht. destruct (takeSseEvent p) as [event p']. cbn [snd] in Ht.
  by apply commit_shows, held_observe.
Qed.

Lemma same_shows ls o f : shows ls o -> (forall p log, held p log ls -> shows ls (f p log)) -> shows ls (and_then o f).
Proof. intros H Hf. rewrite <- (app_nil_r ls). apply shows_then; [done|]. intros p log Hh. rewrite app_nil_r. by apply Hf. Qed.

Lemma line_shows line p log ls : held p log ls -> shows (ls ++ [drop_cr line]) (read_line log_commit log_line elapsed line p log).
Proof.
  intros H. unfold read_line. apply shows_then; [|intros; by apply emit_shows].
  destruct (starts_with "data:" (drop_cr line)).
  - apply same_shows; [destruct (_ && _); [by apply take_shows|done]|]. intros p' log' Hh. by destruct (is_nullish (ttftMs p')).
  - destruct (negb (nonempty (drop_cr line))); [|destruct (_ && _); [by apply take_shows|done]].
    unfold end_event. destruct (negb _); [done|]. by apply commit_shows, held_observe.
Qed.

Lemma lines_show lines : forall p log ls, held p log ls -> shows (ls ++ map drop_cr lines) (read_lines log_commit log_line elapsed lines p log).
Proof.
  induction lines as [|line lines IH]; intros p log ls H; cbn [map read_lines]; [by rewrite app_nil_r|].
  change (drop_cr line :: map drop_cr lines) with ([drop_cr line] ++ map drop_cr lines). rewrite app_assoc.
  apply shows_then; [by apply line_shows|]. intros. by apply IH.
Qed.

(** The lines of a text, without the carriage return of one that is complete. *)
Definition text_lines (s : string) : list string := map drop_cr (cut_lines s).1 ++ (if nonempty (cut_lines s).2 then [(cut_lines s).2] else []).

Lemma text_shows failed s : let o := read_text log_commit log_line elapsed failed s b in
  shows (text_lines s) o \/ (exists p t, o = (p, b, Some t) /\ committed p = false) \/ (exists p log t, o = (p, log, Some t) /\ cut_off p log (text_lines s)).
Proof.
  cbn zeta. unfold read_text, text_lines. destruct (cut_lines s) as [lines rest]. cbn [fst snd].
  pose proof (lines_show lines started b [] (conj eq_refl eq_refl)) as H. cbn [app] in H.
  destruct (read_lines _ _ _ lines started b) as [[p log] [t|]]; cbn [and_then].
  { right; right. eexists _, _, _. split; [done|]. by apply cut_off_more. }
  destruct failed as [t|].
  { right. cbn [shows] in H. unfold held in H. destruct (committed p) eqn:E.
    - right. eexists _, _, _. split; [done|]. apply cut_off_more. split; [done|]. by eexists.
    - left. destruct H as [-> _]. by exists p, t. }
  left. unfold read_rest. rewrite <- (app_nil_r (_ ++ _)). apply shows_then.
  - destruct (nonempty rest); [by apply emit_shows|]. by rewrite app_nil_r.
  - intros p' log' H'. rewrite app_nil_r. destruct (nonempty (dataBuf p')); [by apply take_shows|done].
Qed.

Lemma stream_gate r :
  let lines := text_lines (String.concat "" (map decode (chunks r))) in
  let '(result, log) := streamGoWorker log_commit log_line elapsed (inr r) b in
  (result?."committed" = JBool false /\ log = b) \/
  (result?."committed" = JBool true /\
   exists shown, log = b ++ Committed :: map Line shown /\ shown `prefix_of` lines /\ (result?."transportError" = JBool false -> shown = lines)).
Proof.
  cbn zeta. unfold streamGoWorker. destruct (negb (is_2xx (statusCode r))); [left; split; [|done]; unfold rejected; by destruct (readAll _ _)|].
  rewrite read_stream_text. pose proof (text_shows (failure r) (String.concat "" (map decode (chunks r)))) as H. cbn zeta in H.
  destruct (read_text _ _ _ _ _ _) as [[p log] [t|]].
  - assert (Hc : (committed p = false /\ log = b) \/ cut_off p log (text_lines (String.concat "" (map decode (chunks r))))).
    { destruct H as [H|[(p' & t' & [= -> -> _] & Hc)|(p' & log' & t' & [= -> -> _] & Hc)]]; [by right|by left|by right]. }
    destruct Hc as [[Hc ->]|[Hc (shown & -> & Hp)]]; cbn [transport_failure get assoc String.eqb Ascii.eqb Bool.eqb]; rewrite Hc; [by left|right].
    split; [done|]. by exists shown.
  - destruct H as [H|[(p' & t' & [=] & _)|(p' & log' & t' & [=] & _)]]. cbn [shows] in H.
    unfold verdict. destruct (streamMetaFromHeaders _) as [[u m] st]. cbn [get assoc String.eqb Ascii.eqb Bool.eqb]. unfold held in H.
    destruct (committed p); [right|left; by destruct H]. split; [done|]. by eexists.
Qed.
End Gate.

(** C16: Until the answer commits the client is shown nothing of a worker's stream, and the result
    says so; once it committed, the lines shown are the first lines of the stream, each once and in
    order, and all of them unless the stream or the client broke off. *)
Theorem commit_gate fails elapsed r :
  let lines := text_lines (String.concat "" (map decode (chunks r))) in
  let '(result, log) := streamGoWorker log_commit (log_line fails) elapsed (inr r) [] in
  (result?."committed" = JBool false /\ log = []) \/
  (result?."committed" = JBool true /\
   exists shown, log = Committed :: map Line shown /\ shown `prefix_of` lines /\ (result?."transportError" = JBool false -> shown = lines)).
Proof. exact (stream_gate fails elapsed [] r). Qed.

(** ** A stream *)

Definition event_line (type : string) (more : fields) : string := ("data: " ++ text (JObj (("type", JStr type) :: more)) ++ newline)%string.
Definition sample_response : response :=
  {| statusCode := 200; r_headers := JObj [("Request-Id", JStr "r"); ("Set-Cookie", JStr "c")]; failure := None; trailers := JObj [];
     chunks := [event_line "message_start" []; event_line "content_block_delta" [("delta", JObj [("text", JStr "h")])];
                event_line "message_stop" []] |}.
Definition never (line : string) : option thrown := None.

Example sample_stream : let '(result, log) := streamGoWorker log_commit (log_line never) (fun _ => 5%Z) (inr sample_response) [] in
  result?."ok" = JBool true /\ result?."headers" = JObj [("request-id", JStr "r")] /\ length log = 4%nat.
Proof. vm_compute. done. Qed.

Lemma stream_reads_text_witness : Forall whole (chunks sample_response) /\
  read_stream log_commit (log_line never) (fun _ => 5%Z) sample_response [] =
  read_text log_commit (log_line never) (fun _ => 5%Z) (failure sample_response) (decode (String.concat "" (chunks sample_response))) [].
Proof.
  assert (H : Forall whole (chunks sample_response)) by (repeat (apply Forall_cons; split; [vm_compute; reflexivity|]); apply Forall_nil; exact I).
  split; [exact H|]. exact (stream_reads_text log_commit (log_line never) (fun _ => 5%Z) sample_response [] H).
Defined.
