(* ===== verification/KernelHop.v ===== *)
(** * The hop to a slot's kernel (src/src/lib/transport/kernel-router.mjs)

    [runHop] makes the kernel of a slot ready, sends the request, once more when the transport
    failed before anything was shown and once more when the credential had to be renewed, and
    recycles a kernel that a dead hop left behind once its last hop is over.  The state kept by
    slot (health, hops under way, recycling; rust-kernel-supervisor.mjs) is [wraps]; what the
    kernel, the container and the clock answer is [env]; what is done to the container is the list
    of [effect]s. *)

From Stdlib Require Import QArith Qround Lqa Lia.
From stdpp Require Import gmap strings.
From S2P Require Import Prelude.
From S2P Require Import JsValue.
From S2P Require Import JsRegex.
From S2P Require Import JsText.
From S2P Require Import Eligibility.
From S2P Require Import WorkerStream.
#[local] Open Scope string_scope.
#[local] Open Scope list_scope.
#[local] Open Scope js_scope.

(** ** Results (rust-kernel-client.mjs) *)

Fixpoint replace_all (fuel : nat) (from to s : string) : string :=
  match fuel with
  | O => s
  | S fuel =>
    match s with
    | "" => ""
    | String c r => if starts_with from s then (to ++ replace_all fuel from to (drop_chars (String.length from) s))%string
                    else String c (replace_all fuel from to r)
    end
  end.
Definition rust_name (v : jsval) : string := let s := to_string v in replace_all (S (String.length s)) "go-worker" "rust-kernel" s.
Definition remapVia (result : jsval) : jsval :=
  if negb (truthy result && is_object result) then result
  else with_field (own result) "via" (JStr (rust_name (result?."via" ||| JStr "go-worker"))).
Definition rustKernelHealth (answer : reply) : jsval :=
  let health := workerHealth answer in
  if truthy (health?."source") then with_field health "source" (JStr (rust_name (health?."source"))) else health.

Definition NEEDS_REFRESH : rx := lit "needs_refresh".
Definition DEAD_TOKEN : rx := lits ["authentication_error"; "token has been revoked"; "oauth_revoked"; "invalid_grant"].
Definition isNeedsRefreshResult (result : jsval) : bool :=
  let code := str_or_empty (result?."body"?."error"?."code" ||| result?."error"?."code") in
  let message := str_or_empty (result?."body"?."error"?."message" ||| result?."error"?."message") in
  let hay := (code ++ " " ++ message)%string in
  String.eqb code "needs_refresh" || rx_test_i NEEDS_REFRESH hay ||
  num_eqb (num_or_zero (result?."status")) (num_of_Z 401) || rx_test_i DEAD_TOKEN hay.

Definition num_or_null (n : option num) : jsval := match n with Some n => JNum n | None => JNull end.
Definition toPublicKernelHealth (health : jsval) (engine : string) : jsval :=
  let rust := String.eqb engine "rust" in
  let processUp := if rust then Kernel.rustKernelProcessUp health
                   else is_true (health?."ok") || num_eqb (to_number (health?."status")) (num_of_Z 200) ||
                        negb (is_nullish (health?."worker_version")) || negb (is_nullish (health?."version")) in
  let reachable := if rust then Kernel.rustKernelReachable health else processUp in
  JObj [("reachable", JBool reachable); ("process_up", JBool processUp); ("status", health?."status" ?? JNull);
        ("worker_version", health?."worker_version" ||| health?."version" ||| JNull); ("engine", health?."engine" ||| JStr engine);
        ("provider", health?."provider" ?? JNull); ("ready_slots", num_or_null (Kernel.finiteNumber (health?."ready_slots")));
        ("cli_pid", num_or_null (Kernel.finiteNumber (health?."cli_pid")));
        ("error_code", if reachable then JNull else health?."code" ||| JStr (engine ++ "_worker_unavailable"))].

(** ** What is kept by slot (rust-kernel-supervisor.mjs) *)

Definition WRAP_RECYCLE_COOLDOWN_MS : Z := 30000.
Definition WRAP_IDLE_RECYCLE_MS : Z := 8 * 60 * 1000.
Record wraps := {
  recycleAt : gmap string Z; lastHopAt : gmap string Z; inflight : gmap string Z; deferred : gmap string jsval;
  healthCache : gmap string (Z * jsval)
}.
Definition no_wraps : wraps := {| recycleAt := ∅; lastHopAt := ∅; inflight := ∅; deferred := ∅; healthCache := ∅ |}.

Inductive effect :=
| ERestart (exec : jsval)           (* [restartRustKernel] is started *)
| ELinkCredential (exec : jsval)    (* [ensureOfficialCredentialLink] *)
| EEnsureCredential (exec : jsval) (force : bool)
| EEnsureKernel (exec : jsval).

Definition exec_id (exec : jsval) : string := to_string (exec?."vmId" ||| exec?."vm"?."id" ||| JStr "").
Definition wrapVmId (exec : jsval) : string := trim (exec_id exec).

Definition set_lastHop (m : gmap string Z) (w : wraps) : wraps :=
  {| recycleAt := recycleAt w; lastHopAt := m; inflight := inflight w; deferred := deferred w; healthCache := healthCache w |}.
Definition set_recycleAt (m : gmap string Z) (w : wraps) : wraps :=
  {| recycleAt := m; lastHopAt := lastHopAt w; inflight := inflight w; deferred := deferred w; healthCache := healthCache w |}.
Definition set_inflight (m : gmap string Z) (w : wraps) : wraps :=
  {| recycleAt := recycleAt w; lastHopAt := lastHopAt w; inflight := m; deferred := deferred w; healthCache := healthCache w |}.
Definition set_deferred (m : gmap string jsval) (w : wraps) : wraps :=
  {| recycleAt := recycleAt w; lastHopAt := lastHopAt w; inflight := inflight w; deferred := m; healthCache := healthCache w |}.
Definition set_health (m : gmap string (Z * jsval)) (w : wraps) : wraps :=
  {| recycleAt := recycleAt w; lastHopAt := lastHopAt w; inflight := inflight w; deferred := deferred w; healthCache := m |}.

Definition noteWrapHop (exec : jsval) (now : Z) (w : wraps) : wraps :=
  let id := wrapVmId exec in if nonempty id then set_lastHop (<[id := now]> (lastHopAt w)) w else w.
Definition beginWrapHop (exec : jsval) (now : Z) (w : wraps) : wraps :=
  let id := wrapVmId exec in
  if nonempty id then set_lastHop (<[id := now]> (lastHopAt w)) (set_inflight (<[id := (default 0 (inflight w !! id) + 1)%Z]> (inflight w)) w) else w.
Definition wrapHopInflight (exec : jsval) (w : wraps) : Z :=
  let id := wrapVmId exec in if nonempty id then default 0%Z (inflight w !! id) else 0%Z.

Inductive scheduled := Scheduled | Cooldown | MissingVm.
Definition scheduleWrapRecycle (exec : jsval) (now cooldownMs : Z) (w : wraps) : wraps * list effect * scheduled :=
  let id := wrapVmId exec in
  if negb (nonempty id) then (w, [], MissingVm)
  else if match recycleAt w !! id with Some prev => (now - prev <? cooldownMs)%Z | None => false end then (w, [], Cooldown)
  else (noteWrapHop exec now (set_recycleAt (<[id := now]> (recycleAt w)) w), [ERestart exec], Scheduled).
Definition recycle (exec : jsval) (now : Z) (w : wraps) : wraps * list effect := (scheduleWrapRecycle exec now WRAP_RECYCLE_COOLDOWN_MS w).1.

Definition deferWrapRecycle (exec : jsval) (w : wraps) : wraps :=
  let id := wrapVmId exec in if nonempty id then set_deferred (<[id := exec]> (deferred w)) w else w.
(** [|| 1]: a count of zero or none is a hop that was not begun. *)
Definition hops_left (id : string) (w : wraps) : Z :=
  let n := default 0%Z (inflight w !! id) in ((if (n =? 0)%Z then 1 else n) - 1)%Z.
Definition endWrapHop (exec : jsval) (now : Z) (w : wraps) : wraps * list effect :=
  let id := wrapVmId exec in
  if negb (nonempty id) then (w, [])
  else
    let n := hops_left id w in
    let '(w, l) :=
      if (n <=? 0)%Z then
        let w := set_inflight (delete id (inflight w)) w in
        match deferred w !! id with
        | Some exec => recycle exec now (set_deferred (delete id (deferred w)) w)
        | None => (w, [])
        end
      else (set_inflight (<[id := n]> (inflight w)) w, []) in
    (set_lastHop (<[id := now]> (lastHopAt w)) w, l).

(** [None]: never, an infinite idle time. *)
Definition wrapIdleMs (exec : jsval) (now : Z) (w : wraps) : option Z :=
  let id := wrapVmId exec in
  if negb (nonempty id) then Some 0%Z else match lastHopAt w !! id with Some prev => Some (now - prev)%Z | None => None end.
Definition recycleWrapIfIdle (exec : jsval) (now idleMs : Z) (w : wraps) : wraps * list effect :=
  if match wrapIdleMs exec now w with Some idle => (idle <? idleMs)%Z | None => false end
  then (noteWrapHop exec now w, [])
  else (scheduleWrapRecycle exec now 0 w).1.

(** ** Settings and the health cache *)

Definition DEFAULT_SLOT_WAIT_MS : num := num_of_Z 30000.
Definition DEFAULT_SLOT_POLL_MS : Z := 200.
Definition setting (raw : jsval) (d : num) : num :=
  if is_nullish raw || is_str raw "" then d
  else let n := to_number raw in if negb (is_finite n) || num_ltb n (Fin 0) then d else n.
Definition rustHealthTtlMs (routing : jsval) : num := setting (routing?."inference"?."health_ttl_ms") (num_of_Z 2000).
Definition rustSlotWaitMs (routing : jsval) : num := setting (routing?."inference"?."slot_wait_ms") DEFAULT_SLOT_WAIT_MS.
Definition is_set (raw : jsval) : bool := negb (is_nullish raw || is_str raw "").
Definition resolveHopSlotWaitMs (remainingBudgetMs routing : jsval) : num :=
  let configured := rustSlotWaitMs routing in
  let budget := to_number remainingBudgetMs in
  if is_set remainingBudgetMs && is_finite budget then
    if num_leb budget (Fin 0) then Fin 0
    else if is_set (routing?."inference"?."slot_wait_ms") then num_min budget configured else budget
  else configured.
Definition rustShouldWaitForSlot (health : jsval) (hops : Z) : bool := Kernel.rustKernelBusy health || (0 <? hops)%Z.

Definition clearRustHealthCache (vmId : string) (w : wraps) : wraps :=
  set_health (if nonempty vmId then delete vmId (healthCache w) else ∅) w.
Definition rememberRustHealth (exec ready : jsval) (now : Z) (w : wraps) : wraps :=
  if nonempty (exec_id exec) && truthy (ready?."ok")
  then set_health (<[exec_id exec := (now, ready?."health" ||| JNull)]> (healthCache w)) w else w.
Definition peekRustHealth (exec : jsval) (ttlMs : num) (now : Z) (w : wraps) : option jsval :=
  if num_leb ttlMs (Fin 0) || negb (nonempty (exec_id exec)) then None
  else match healthCache w !! exec_id exec with
       | Some (at_, health) => if num_ltb ttlMs (num_of_Z (now - at_)) then None else Some health
       | None => None
       end.

(** ** Waiting for a slot *)

Section Wait.
(** The health read by the [k]-th poll, and how much longer than its pause it took; how long the first read took. *)
Context (health_at : nat -> jsval) (extra : nat -> N) (took : N).
Definition ready (reason : string) (health : jsval) : jsval := JObj [("ok", JBool true); ("reason", JStr reason); ("health", health)].
Definition slot_busy (last : jsval) : jsval :=
  JObj [("ok", JBool false); ("reason", JStr "slot_busy"); ("health", last); ("error", JStr "rust kernel has no free slot")].
(** The answer, how often it was polled, and the time since the deadline was set; [None]: out of fuel. *)
Fixpoint poll (fuel k : nat) (spent : Z) (waitMs : num) (gap : Z) (last : jsval) : option (jsval * nat * Z) :=
  match fuel with
  | O => None
  | S fuel =>
    if negb (num_ltb (num_of_Z spent) waitMs) then Some (slot_busy last, k, spent)
    else
      let last := health_at k in
      let spent := (spent + gap + Z.of_N (extra k))%Z in
      if Kernel.rustKernelReachable last then Some (ready "slot_ready" last, S k, spent)
      else poll fuel (S k) spent waitMs gap last
  end.
Definition wait_of (timeoutMs : num) : num := if is_finite timeoutMs then num_max (Fin 0) timeoutMs else DEFAULT_SLOT_WAIT_MS.
Definition gap_of (pollMs : Z) : Z := Z.max 40 (if (pollMs =? 0)%Z then DEFAULT_SLOT_POLL_MS else pollMs).
Definition polls (waitMs : num) (gap : Z) : nat := match waitMs with Fin q => Z.to_nat (Qceiling (q / inject_Z gap)) | _ => 0 end.
(** The deadline is set before the first read of the health. *)
Definition waitForReadySlot (first : jsval) (timeoutMs : num) (pollMs : Z) : option (jsval * nat * Z) :=
  if Kernel.rustKernelReachable first then Some (ready "already_up" first, 0%nat, Z.of_N took)
  else poll (S (polls (wait_of timeoutMs) (gap_of pollMs))) 0 (Z.of_N took) (wait_of timeoutMs) (gap_of pollMs) first.
End Wait.

(** ** One hop *)

Definition resolveHopEngine (rustReady : option bool) (binPath : string) : string * bool :=      (* the reason, and whether blocked *)
  match rustReady with
  | Some true => ("configured_rust", false)
  | Some false => ("rust_unhealthy", true)
  | None => if nonempty (trim binPath) then ("configured_rust", false) else ("bin_missing", true)
  end.

Definition CONNECTION_ERROR : rx := lit "connection error".
Definition isDeadWrapHop (result : jsval) : bool :=
  truthy result &&
  (is_str (result?."terminalState") "incomplete" || truthy (result?."transportError") ||
   rx_test_i CONNECTION_ERROR (str_or_empty (result?."body"?."error"?."message"))).

Definition recycleLeakedWrap (exec : jsval) (now : Z) (w : wraps) : wraps * list effect :=
  let w := clearRustHealthCache (exec_id exec) w in
  if (0 <? wrapHopInflight exec w)%Z then (deferWrapRecycle exec w, []) else recycle exec now w.

Definition rustUnavailableResult (ready : jsval) : jsval :=
  let busy := is_str (ready?."reason") "slot_busy" in
  JObj [("ok", JBool false); ("status", jint (if busy then 503 else 0)); ("via", JStr "rust-kernel"); ("engine", JStr "rust");
        ("body", JObj [("type", JStr "error");
          ("error", JObj [("type", JStr "worker_error"); ("code", ready?."reason" ||| JStr "rust_unavailable");
                          ("message", ready?."error" ||| JStr "rust kernel is not available")])]);
        ("headers", JObj []); ("terminalState", JStr (if busy then "rejected" else "transport_error")); ("transportError", JBool (negb busy))].

Definition FATAL_GRANT : rx := lits ["invalid_grant"; "oauth_revoked"; "token has been revoked"; "refresh_token_missing"].
Definition REVOKED_GRANT : rx := lits ["token has been revoked"; "oauth_revoked"].
Definition credentialEnsureFailure (result ensured : jsval) : jsval :=
  let rawError := ensured?."error" in
  let error := if truthy rawError && is_object rawError then rawError else JObj [] in
  let blob := (str_or_empty (error?."code") ++ " " ++ str_or_empty (error?."message") ++ " " ++
               (match rawError with JStr s => s | _ => "" end))%string in
  let fatal := rx_test_i FATAL_GRANT blob in
  let revoked := rx_test_i REVOKED_GRANT blob in
  let status := to_number (ensured?."status") in
  spread (own result) (JObj
    [("ok", JBool false);
     ("status", if fatal then jint 401 else if truthy (JNum status) then JNum status else result?."status");
     ("committed", if fatal then JBool false else result?."committed");
     ("terminalState", if fatal then JStr "rejected" else result?."terminalState");
     ("body", JObj [("type", JStr "error");
       ("error", JObj
         [("type", if fatal then JStr "authentication_error" else error?."type" ||| JStr "worker_error");
          ("code", if fatal then (if revoked then JStr "oauth_revoked" else error?."code" ||| JStr "invalid_grant")
                   else error?."code" ||| JStr "credential_refresh_failed");
          ("message", JStr (if fatal then (if revoked then "OAuth access token has been revoked" else "OAuth credential was rejected")
                            else take_chars 300 (to_string (error?."message" ||| rawError ||| JStr "credential ensure failed"))))])]);
     ("credential_ensure_failed", JBool true)]).

(** What a hop meets. *)
Record env := {
  e_bin : string;                          (* KIN_KERNEL_BIN *)
  e_newer : bool;                          (* [credentialsNewerThanKernel] *)
  e_peek : Z; e_prepared : Z;              (* the clock when the cache is read, and when the kernel is ready *)
  e_health : jsval;                        (* [rustKernelHealth], and by the polls that wait for a slot *)
  e_first : jsval; e_took : N; e_polled : nat -> jsval; e_extra : nat -> N;
  e_linked : nat -> option thrown;         (* an error of [prepareSlotCredentials], the [n]-th time *)
  e_renewed : option thrown;               (* an error of [ensureWorkerCredential] before the kernel is started *)
  e_started : thrown + jsval;              (* [ensureRustKernel] *)
  e_begin : Z; e_sent : nat -> Z; e_recycled : Z; e_end : Z;
  e_reply : nat -> reply;                  (* the response to the [n]-th time the request is sent *)
  e_elapsed : nat -> nat -> Z;
  e_ensured : thrown + jsval               (* [ensureCredential(exec, { force: true })] *)
}.

Section Hop.
Context {C : Type} (e : env) (exec routing slotWaitMs : jsval).

Definition link (n : nat) : list effect * option thrown :=
  if truthy (exec?."homeDir") then ([ELinkCredential exec], e_linked e n) else ([], None).
(** [ensureRustKernel], and what is remembered of it. *)
Definition started (w : wraps) (l : list effect) : wraps * list effect * (thrown + jsval) :=
  (match e_started e with
   | inl _ => w
   | inr started => if truthy (started?."ok") then rememberRustHealth exec started (e_prepared e) w else clearRustHealthCache (exec_id exec) w
   end, l ++ [EEnsureKernel exec], e_started e).
(** [ensureWorkerCredential], and then [k]. *)
Definition renewed_then (w : wraps) (l : list effect) (k : list effect -> wraps * list effect * (thrown + jsval)) : wraps * list effect * (thrown + jsval) :=
  let l := l ++ [EEnsureCredential exec false] in
  match e_renewed e with Some t => (w, l, inl t) | None => k l end.

Definition bounceRustForFreshTicket (w : wraps) : wraps * list effect * (thrown + jsval) :=
  let '(l, failed) := link 1 in
  match failed with
  | Some t => (w, l, inl t)
  | None =>
    renewed_then w l (fun l =>
      let '(w, l', _) := scheduleWrapRecycle exec (e_peek e) 0 w in
      started (clearRustHealthCache (exec_id exec) w) (l ++ l'))
  end.

Definition cached_health (w : wraps) : option jsval :=
  match peekRustHealth exec (rustHealthTtlMs routing) (e_peek e) w with
  | Some health => if Kernel.rustKernelReachable health then Some health else None
  | None => None
  end.
(** [None]: the wait for a slot ran out of fuel. *)
Definition prepareRust (w : wraps) : option (wraps * list effect * (thrown + jsval)) :=
  let '(l, failed) := link 0 in
  match failed with
  | Some t => Some (w, l, inl t)
  | None =>
    if e_newer e then let '(w, l', r) := bounceRustForFreshTicket w in Some (w, l ++ l', r)
    else
      match cached_health w with
      | Some health => Some (w, l, inr (ready "health_cache" health))
      | None =>
        if Kernel.rustKernelReachable (e_health e)
        then let r := ready "already_up" (e_health e) in Some (rememberRustHealth exec r (e_prepared e) w, l, inr r)
        else if rustShouldWaitForSlot (e_health e) (wrapHopInflight exec w)
        then option_map (fun x => (if truthy (x.1.1?."ok") then rememberRustHealth exec x.1.1 (e_prepared e) w else w, l, inr x.1.1))
               (waitForReadySlot (e_polled e) (e_extra e) (e_took e) (e_first e) (resolveHopSlotWaitMs slotWaitMs routing) DEFAULT_SLOT_POLL_MS)
        else Some (if truthy (exec?."homeDir") then renewed_then w l (started w) else started w l)
      end
  end.

Definition engine_fields (reason : jsval) : fields := [("wanted_engine", JStr "rust"); ("engine_reason", reason)].
Definition marked (result : jsval) (k : string) : jsval := with_field (own result) k (JBool true).

(** Sending the request, the [n]-th time. *)
Context (send : nat -> C -> jsval * C).

(** Once more when the transport failed and nothing was committed. *)
Definition send_twice (c : C) : jsval * C * nat :=
  let '(result, c) := send 0 c in
  if is_true (result?."transportError") && negb (is_true (result?."committed"))
  then let '(result, c) := send 1 c in (marked result "rust_transport_retried", c, 2)
  else (result, c, 1).
(** Once more with a renewed credential; an error of the renewal leaves the hop. *)
Definition send_renewed (n : nat) (result : jsval) (w : wraps) (c : C) : (jsval * option thrown) * wraps * C * list effect :=
  if negb (isNeedsRefreshResult result) then ((result, None), w, c, [])
  else
    match e_ensured e with
    | inl t => ((result, Some t), w, c, [EEnsureCredential exec true])
    | inr ensured =>
      if negb (is_true (ensured?."ok")) then ((credentialEnsureFailure result ensured, None), w, c, [EEnsureCredential exec true])
      else
        let '(w, l) := recycle exec (e_recycled e) w in
        let '(result, c) := send n c in
        ((marked result "credential_retried", None), noteWrapHop exec (e_sent e n) w, c, EEnsureCredential exec true :: l)
    end.

Definition send_all (w : wraps) (c : C) : (jsval * option thrown) * wraps * C * list effect :=
  let '(result, c, n) := send_twice c in send_renewed n result (noteWrapHop exec (e_sent e (n - 1)) w) c.

Definition finish_hop (result : jsval) (w : wraps) : wraps * list effect :=
  let '(w, l) := endWrapHop exec (e_end e) w in
  if isDeadWrapHop result then let '(w, l') := recycleLeakedWrap exec (e_end e) w in (w, l ++ l') else (w, l).

(** The result of the hop, or the error that it is rejected with. *)
Definition runHop (w : wraps) (c : C) : option ((thrown + jsval) * wraps * C * list effect) :=
  let '(reason, blocked) := resolveHopEngine None (e_bin e) in
  if blocked then Some (inr (spread (rustUnavailableResult (JObj [("reason", JStr reason)])) (JObj (engine_fields (JStr reason)))), w, c, [])
  else
    p ← prepareRust w;
    let '(w, l, prepared) := p in
    match prepared with
    | inl t => Some (inl t, w, c, l)
    | inr ready =>
      if negb (truthy (ready?."ok"))
      then Some (inr (spread (rustUnavailableResult ready) (JObj (engine_fields (ready?."reason" ||| JStr "rust_unavailable")))), w, c, l)
      else
        let '(sent, w, c, l1) := send_all (beginWrapHop exec (e_begin e) w) c in
        let '(w, l2) := finish_hop sent.1 w in
        Some (match sent.2 with
              | Some t => inl t
              | None => inr (spread (own sent.1) (JObj (("engine", JStr "rust") :: engine_fields (ready?."reason" ||| JStr "configured_rust"))))
              end, w, c, l ++ l1 ++ l2)
    end.
End Hop.

(** [streamRustKernel] and [callRustKernel]. *)
Definition streamRustKernel {C : Type} (onCommit : C -> C) (onEvent : string -> C -> C * option thrown) (e : env) (n : nat) (c : C) : jsval * C :=
  let '(result, c) := streamGoWorker onCommit onEvent (e_elapsed e n) (e_reply e n) c in (remapVia result, c).
Definition callRustKernel {C : Type} (e : env) (n : nat) (c : C) : jsval * C := (remapVia (callGoWorker (e_reply e n)), c).
Definition dispatchStreamInference {C : Type} (onCommit : C -> C) (onEvent : string -> C -> C * option thrown)
    (e : env) (exec routing slotWaitMs : jsval) : wraps -> C -> option ((thrown + jsval) * wraps * C * list effect) :=
  runHop e exec routing slotWaitMs (streamRustKernel onCommit onEvent e).
Definition dispatchCallInference {C : Type} (e : env) (exec routing slotWaitMs : jsval) : wraps -> C -> option ((thrown + jsval) * wraps * C * list effect) :=
  runHop e exec routing slotWaitMs (callRustKernel e).
