(* ===== verification/KernelHopFacts.v ===== *)
(** * What a hop to a kernel guarantees (KernelHop.v)

    A hop waits for a slot within its budget; a kernel that a dead hop left behind is restarted once, when the last hop of
    its slot is over and not before; the client is shown the stream of one response. *)

From Stdlib Require Import QArith Qround Lqa Lia.
From stdpp Require Import gmap strings.
From S2P Require Import Prelude.
From S2P Require Import JsValue.
From S2P Require Import JsText.
From S2P Require Import Eligibility.
From S2P Require Import WorkerStream.
From S2P Require Import WorkerStreamFacts.
From S2P Require Import KernelHop.
#[local] Open Scope string_scope.
#[local] Open Scope list_scope.
#[local] Open Scope js_scope.

(** ** The wait for a slot *)

Lemma wait_of_finite t : exists q, wait_of t = Fin q /\ (0 <= q)%Q.
Proof.
  unfold wait_of. destruct t as [q| | |]; cbn [is_finite num_max num_leb num_ltb]; try (by exists (inject_Z 30000)).
  unfold num_max. cbn [num_leb]. destruct (Qle_bool 0 q) eqn:E; [|by exists 0%Q]. exists q. split; [done|]. by apply Qle_bool_iff.
Qed.

(** The polls that fit into the wait are fuel enough. *)
Lemma polls_enough q gap spent : (0 < gap)%Z -> (0 <= q)%Q -> (0 <= spent)%Z -> (q <= inject_Z (spent + gap * Z.of_nat (polls (Fin q) gap)))%Q.
Proof.
  intros Hg Hq Hs. cbn [polls]. assert (Hgq : (0 < inject_Z gap)%Q) by (change 0%Q with (inject_Z 0); by rewrite <- Zlt_Qlt).
  assert (Hd : (q == q / inject_Z gap * inject_Z gap)%Q) by (field; intros Hz; rewrite Hz in Hgq; lra).
  assert (Hp : (0 <= q / inject_Z gap)%Q) by (apply Qle_shift_div_l; [done|]; by rewrite Qmult_0_l).
  pose proof (Qle_ceiling (q / inject_Z gap)) as Hc.
  assert (Hz : (0 <= Qceiling (q / inject_Z gap))%Z) by (rewrite Zle_Qle; change (inject_Z 0) with 0%Q; lra).
  rewrite Z2Nat.id by done. eapply Qle_trans; [apply Qle_lteq; right; exact Hd|].
  eapply Qle_trans; [apply Qmult_le_compat_r; [exact Hc|lra]|]. rewrite <- inject_Z_mult, <- Zle_Qle. lia.
Qed.

(** The wait of a hop is at most what is left of the time of its request. *)
Lemma budget_kept remaining routing : is_set remaining = true -> is_finite (to_number remaining) = true ->
  num_leb (wait_of (resolveHopSlotWaitMs remaining routing)) (num_max (Fin 0) (to_number remaining)) = true.
Proof.
  intros Hs Hf. unfold resolveHopSlotWaitMs. rewrite Hs, Hf. cbn [andb]. destruct (to_number remaining) as [b| | |]; try done.
  cbn [num_leb]. destruct (Qle_bool b 0) eqn:Eb.
  { unfold wait_of. cbn. destruct (Qle_bool 0 b) eqn:E0; [exact E0|reflexivity]. }
  assert (Hb : (0 < b)%Q). { destruct (Qlt_le_dec 0 b) as [|Hle]; [done|]. apply Qle_bool_iff in Hle. congruence. }
  assert (Hb0 : num_max (Fin 0) (Fin b) = Fin b). { unfold num_max. cbn [num_leb]. by rewrite (proj2 (Qle_bool_iff 0 b)) by lra. }
  assert (Hself : num_leb (Fin b) (Fin b) = true) by (apply num_leb_Fin; lra).
  rewrite Hb0. destruct (is_set (routing?."inference"?."slot_wait_ms")); [|unfold wait_of; cbn [is_finite]; by rewrite Hb0].
  assert (Hc : exists c, rustSlotWaitMs routing = Fin c /\ (0 <= c)%Q).
  { unfold rustSlotWaitMs, setting. destruct (_ || _); [by exists (inject_Z 30000)|]. cbn zeta.
    destruct (to_number (routing?."inference"?."slot_wait_ms")) as [c| | |]; cbn [is_finite negb orb]; try (by exists (inject_Z 30000)).
    destruct (num_ltb (Fin c) (Fin 0)) eqn:E; [by exists (inject_Z 30000)|]. exists c. split; [done|].
    destruct (Qlt_le_dec c 0) as [Hlt|]; [|done]. apply num_ltb_Fin in Hlt. congruence. }
  destruct Hc as (c & -> & Hc). unfold num_min. cbn [num_leb]. destruct (Qle_bool b c) eqn:E; unfold wait_of; cbn [is_finite].
  - by rewrite Hb0.
  - unfold num_max. cbn [num_leb]. rewrite (proj2 (Qle_bool_iff 0 c)) by done. apply num_leb_Fin.
    destruct (Qlt_le_dec b c) as [Hlt|]; [|done]. assert (H : (b <= c)%Q) by lra. apply Qle_bool_iff in H. congruence.
Qed.

Section Wait.
Context (health_at : nat -> jsval) (extra : nat -> N) (took : N) (first : jsval) (pollMs : Z).
#[local] Notation gap := (gap_of pollMs).

(** What is read of the kernel, first and by the polls, and when the [n]-th poll is over, from the moment the deadline
    was set. *)
Definition read (n : nat) : jsval := match n with O => first | S k => health_at k end.
Fixpoint over_at (n : nat) : Z := match n with O => Z.of_N took | S k => (over_at k + gap + Z.of_N (extra k))%Z end.

Lemma gap_pos : (0 < gap)%Z.
Proof. unfold gap_of. lia. Qed.
Lemma over_at_pos n : (0 <= over_at n)%Z.
Proof. pose proof gap_pos. induction n; cbn [over_at]; lia. Qed.

(** How a wait of [waitMs] ends, after [n] polls. *)
Definition waited (waitMs : num) (v : jsval) (n : nat) : Prop :=
  (forall k, (k < n)%nat -> Kernel.rustKernelReachable (read k) = false /\ num_ltb (num_of_Z (over_at k)) waitMs = true) /\
  ((v?."ok" = JBool true /\ v?."health" = read n /\ Kernel.rustKernelReachable (read n) = true) \/
   (v = slot_busy (read n) /\ Kernel.rustKernelReachable (read n) = false /\ num_ltb (num_of_Z (over_at n)) waitMs = false)).

Lemma poll_waited q fuel : forall k, (q <= inject_Z (over_at k + gap * Z.of_nat fuel))%Q ->
  (forall i, (i < k)%nat -> Kernel.rustKernelReachable (read i) = false /\ num_ltb (num_of_Z (over_at i)) (Fin q) = true) ->
  Kernel.rustKernelReachable (read k) = false ->
  exists v n, poll health_at extra (S fuel) k (over_at k) (Fin q) gap (read k) = Some (v, n, over_at n) /\ waited (Fin q) v n.
Proof.
  pose proof gap_pos as Hg. induction fuel as [|fuel IH]; intros k Hq Hbefore Hk.
  all: cbn [poll]; destruct (num_ltb (num_of_Z (over_at k)) (Fin q)) eqn:E; cbn [negb];
    [|exists (slot_busy (read k)), k; split; [done|]; split; [done|]; by right].
  - exfalso. apply num_ltb_Fin in E. replace (over_at k + gap * Z.of_nat 0)%Z with (over_at k) in Hq by lia. lra.
  - change (health_at k) with (read (S k)). change (over_at k + gap + Z.of_N (extra k))%Z with (over_at (S k)).
    assert (Hnext : forall i, (i < S k)%nat -> Kernel.rustKernelReachable (read i) = false /\ num_ltb (num_of_Z (over_at i)) (Fin q) = true).
    { intros i Hi. destruct (decide (i = k)) as [->|]; [done|]. apply Hbefore. lia. }
    destruct (Kernel.rustKernelReachable (read (S k))) eqn:Er.
    + exists (ready "slot_ready" (read (S k))), (S k). split; [done|]. split; [done|]. by left.
    + apply IH; [|done..]. eapply Qle_trans; [exact Hq|]. rewrite <- Zle_Qle, Nat2Z.inj_succ. cbn [over_at]. lia.
Qed.

Lemma wait_spec timeoutMs : exists v n, waitForReadySlot health_at extra took first timeoutMs pollMs = Some (v, n, over_at n) /\ waited (wait_of timeoutMs) v n.
Proof.
  unfold waitForReadySlot. destruct (Kernel.rustKernelReachable first) eqn:Ef.
  { exists (ready "already_up" first), 0%nat. split; [done|]. split; [intros k Hk; lia|]. by left. }
  destruct (wait_of_finite timeoutMs) as (q & -> & Hq). apply poll_waited; [|intros i Hi; lia|exact Ef].
  apply polls_enough; [apply gap_pos|done|apply over_at_pos].
Qed.

(** C40: A hop waits for a slot of its kernel as long as its budget lasts and no longer, whatever the kernel answers and
    however slowly: the budget is at most what is left of the time of the request; every poll begins before it is spent,
    counted from before the first read of the health; the slot is taken at the first read that finds it free; and the
    wait gives up only when the budget is spent and the last read still found no slot.  So there are fewer polls than the
    budget over the pause, and one. *)
Theorem slot_wait remaining routing :
  let waitMs := wait_of (resolveHopSlotWaitMs remaining routing) in
  (is_set remaining = true -> is_finite (to_number remaining) = true -> num_leb waitMs (num_max (Fin 0) (to_number remaining)) = true) /\
  exists v n, waitForReadySlot health_at extra took first (resolveHopSlotWaitMs remaining routing) pollMs = Some (v, n, over_at n) /\
    waited waitMs v n /\ (n = 0%nat \/ num_ltb (num_of_Z (gap * (Z.of_nat n - 1))) waitMs = true).
Proof.
  cbv zeta. split; [apply budget_kept|]. destruct (wait_spec (resolveHopSlotWaitMs remaining routing)) as (v & n & H & Hw).
  exists v, n. split_and!; [done|done|]. destruct n as [|n]; [by left|right].
  destruct Hw as [Hall _]. destruct (Hall n) as [_ Hlt]; [lia|]. eapply num_leb_ltb_trans; [|exact Hlt]. apply num_leb_Z.
  clear. assert (H : (gap * Z.of_nat n <= over_at n)%Z) by (pose proof gap_pos; induction n; cbn [over_at]; lia). lia.
Qed.
End Wait.

(** The fuel of the wait is enough: every hop ends, with a result or an error. *)
Lemma hop_total {C : Type} (onCommit : C -> C) onEvent e exec routing slotWaitMs w c :
  exists o, dispatchStreamInference onCommit onEvent e exec routing slotWaitMs w c = Some o.
Proof.
  unfold dispatchStreamInference, runHop. destruct (resolveHopEngine None (e_bin e)) as [reason []]; [by eexists|].
  assert (Hp : exists p, prepareRust e exec routing slotWaitMs w = Some p).
  { unfold prepareRust. destruct (link e exec 0) as [l [t|]]; [by eexists|].
    destruct (e_newer e); [destruct (bounceRustForFreshTicket e exec w) as [[? ?] ?]; by eexists|].
    destruct (cached_health e exec routing w); [by eexists|]. destruct (Kernel.rustKernelReachable _); [by eexists|].
    destruct (rustShouldWaitForSlot _ _); [|by eexists].
    destruct (wait_spec (e_polled e) (e_extra e) (e_took e) (e_first e) DEFAULT_SLOT_POLL_MS (resolveHopSlotWaitMs slotWaitMs routing)) as (v & n & -> & _).
    by eexists. }
  destruct Hp as [[[w' l] [t|ready]] ->]; cbn [mbind option_bind]; [by eexists|]. destruct (negb _); [by eexists|].
  destruct (send_all _ _ _ _ _) as [[[sent w2] c2] l1]. destruct (finish_hop e exec sent.1 w2) as [w3 l2]. by eexists.
Qed.

(** ** Hops under way *)

Definition of_slot (id : string) (exec : jsval) : bool := String.eqb (wrapVmId exec) id.
Definition count (id : string) (running : list jsval) : nat := length (List.filter (of_slot id) running).

(** Hops begin and end in any order; what else happens to the kernels leaves the counts alone. *)
Inductive step : wraps * list jsval -> wraps * list jsval -> Prop :=
| StepBegin w running exec now : step (w, running) (beginWrapHop exec now w, exec :: running)
| StepEnd w before exec after e result :
    step (w, before ++ exec :: after) ((finish_hop e exec result w).1, before ++ after)
| StepElse w running w' : inflight w' = inflight w -> deferred w' = deferred w -> step (w, running) (w', running).

Definition reachable : wraps * list jsval -> Prop := rtc step (no_wraps, []).

Definition slot_ok (w : wraps) (running : list jsval) (id : string) : Prop :=
  default 0%Z (inflight w !! id) = Z.of_nat (count id running) /\
  (forall exec, deferred w !! id = Some exec -> wrapVmId exec = id /\ (0 < count id running)%nat).
Definition counted (w : wraps) (running : list jsval) : Prop := forall id, id <> "" -> slot_ok w running id.

Lemma slot_count_app id l1 l2 : count id (l1 ++ l2) = (count id l1 + count id l2)%nat.
Proof. unfold count. by rewrite List.filter_app, length_app. Qed.
Lemma slot_count_cons id exec l : count id (exec :: l) = ((if of_slot id exec then 1 else 0) + count id l)%nat.
Proof. unfold count. cbn [List.filter]. by destruct (of_slot id exec). Qed.
Lemma of_slot_spec id exec : of_slot id exec = true <-> wrapVmId exec = id.
Proof. apply String.eqb_eq. Qed.
Lemma nonempty_spec s : nonempty s = true <-> s <> "".
Proof. unfold nonempty. rewrite negb_true_iff. apply String.eqb_neq. Qed.

Definition same_counts (w w' : wraps) : Prop := inflight w' = inflight w /\ deferred w' = deferred w.
Lemma note_same exec now w : same_counts w (noteWrapHop exec now w).
Proof. unfold noteWrapHop. by destruct (nonempty _). Qed.
Lemma schedule_same exec now cooldown w : same_counts w (scheduleWrapRecycle exec now cooldown w).1.1.
Proof.
  unfold scheduleWrapRecycle. destruct (negb _); [done|]. destruct (match _ with Some _ => _ | None => _ end); [done|]. cbn [fst].
  exact (note_same exec now _).
Qed.
Lemma recycle_same exec now w : same_counts w (recycle exec now w).1.
Proof. apply schedule_same. Qed.

(** What a recycling does: a restart, unless one was started less than the cooldown ago. *)
Definition cooling (id : string) (now : Z) (w : wraps) : bool :=
  match recycleAt w !! id with Some prev => (now - prev <? WRAP_RECYCLE_COOLDOWN_MS)%Z | None => false end.
Lemma recycle_spec exec now w : wrapVmId exec <> "" ->
  (recycle exec now w).2 = (if cooling (wrapVmId exec) now w then [] else [ERestart exec]) /\ cooling (wrapVmId exec) now (recycle exec now w).1 = true.
Proof.
  intros H. unfold recycle, scheduleWrapRecycle, cooling, noteWrapHop. apply nonempty_spec in H. rewrite H. cbn [negb].
  destruct (recycleAt w !! wrapVmId exec) as [prev|] eqn:E.
  - destruct (now - prev <? WRAP_RECYCLE_COOLDOWN_MS)%Z eqn:El; cbn [fst snd]; [by rewrite E, El|]. split; [done|].
    cbn [set_lastHop set_recycleAt recycleAt]. rewrite lookup_insert_eq. apply Z.ltb_lt. unfold WRAP_RECYCLE_COOLDOWN_MS. lia.
  - cbn [fst snd]. split; [done|]. cbn [set_lastHop set_recycleAt recycleAt]. rewrite lookup_insert_eq. apply Z.ltb_lt. unfold WRAP_RECYCLE_COOLDOWN_MS. lia.
Qed.

(** ** The end of a hop *)

(** [others]: the hops of the slot that are still under way. *)
Lemma end_spec exec now w others : wrapVmId exec <> "" -> default 0%Z (inflight w !! wrapVmId exec) = Z.of_nat (S others) ->
  let id := wrapVmId exec in
  let '(w', l) := endWrapHop exec now w in
  (forall id', id' <> id -> inflight w' !! id' = inflight w !! id' /\ deferred w' !! id' = deferred w !! id') /\
  default 0%Z (inflight w' !! id) = Z.of_nat others /\
  match others with
  | O => deferred w' !! id = None /\
         match deferred w !! id with
         | Some exec' => wrapVmId exec' = id -> l = (if cooling id now w then [] else [ERestart exec']) /\ cooling id now w' = true
         | None => l = [] /\ recycleAt w' = recycleAt w
         end
  | S _ => deferred w' !! id = deferred w !! id /\ l = []
  end.
Proof.
  intros Hid Hn id. unfold endWrapHop. fold id. pose proof Hid as Hid'. apply nonempty_spec in Hid'. fold id in Hid'. rewrite Hid'. cbn [negb].
  unfold hops_left. fold id in Hn. rewrite Hn. assert (Hz : (Z.of_nat (S others) =? 0)%Z = false) by (apply Z.eqb_neq; lia). rewrite Hz.
  destruct others as [|others].
  - assert (Hle : (Z.of_nat 1 - 1 <=? 0)%Z = true) by (apply Z.leb_le; lia). rewrite Hle. cbn [set_inflight deferred].
    destruct (deferred w !! id) as [exec'|] eqn:Ed.
    + set (w0 := set_deferred (delete id (deferred w)) (set_inflight (delete id (inflight w)) w)).
      pose proof (recycle_same exec' now w0) as [Hi Hd]. pose proof (recycle_spec exec' now w0) as Hr.
      destruct (recycle exec' now w0) as [w' l]. cbn [fst snd] in *. cbn [set_lastHop inflight deferred]. rewrite Hi, Hd.
      subst w0. cbn [set_inflight set_deferred inflight deferred]. rewrite !lookup_delete_eq. split; [|split; [done|split; [done|]]].
      * intros id' Hne. by rewrite !lookup_delete_ne by congruence.
      * intros He. rewrite He in Hr. destruct (Hr Hid) as [-> Hc]. split; [done|exact Hc].
    + cbn [set_lastHop set_inflight inflight deferred]. rewrite lookup_delete_eq. split_and!; try done.
      intros id' Hne. by rewrite lookup_delete_ne by congruence.
  - assert (Hle : (Z.of_nat (S (S others)) - 1 <=? 0)%Z = false) by (apply Z.leb_gt; lia). rewrite Hle.
    cbn [set_lastHop set_inflight inflight deferred]. rewrite lookup_insert_eq. cbn [default from_option]. split_and!; try done; [|unfold id; cbn; lia].
    intros id' Hne. by rewrite lookup_insert_ne by congruence.
Qed.

Lemma finish_spec e exec result w others : wrapVmId exec <> "" -> default 0%Z (inflight w !! wrapVmId exec) = Z.of_nat (S others) ->
  (forall exec', deferred w !! wrapVmId exec = Some exec' -> wrapVmId exec' = wrapVmId exec) ->
  let id := wrapVmId exec in
  let '(w', l) := finish_hop e exec result w in
  (forall id', id' <> id -> inflight w' !! id' = inflight w !! id' /\ deferred w' !! id' = deferred w !! id') /\
  default 0%Z (inflight w' !! id) = Z.of_nat others /\
  match others with
  | O => deferred w' !! id = None /\
         (if isDeadWrapHop result || bool_decide (is_Some (deferred w !! id))
          then exists x, wrapVmId x = id /\ l = (if cooling id (e_end e) w then [] else [ERestart x]) else l = [])
  | S _ => deferred w' !! id = (if isDeadWrapHop result then Some exec else deferred w !! id) /\ l = []
  end.
Proof.
  intros Hid Hn Hd id. unfold finish_hop. pose proof (end_spec exec (e_end e) w others Hid Hn) as H. cbn zeta in H. fold id in H, Hd.
  destruct (endWrapHop exec (e_end e) w) as [w1 l]. destruct H as (Ho & Hi & Hm).
  assert (Hid' : nonempty id = true) by by apply nonempty_spec.
  destruct (isDeadWrapHop result) eqn:Ed; cbn [orb].
  - unfold recycleLeakedWrap, wrapHopInflight. fold id. rewrite Hid'. set (w2 := clearRustHealthCache (exec_id exec) w1).
    assert (Hw : inflight w2 = inflight w1 /\ deferred w2 = deferred w1 /\ recycleAt w2 = recycleAt w1) by done. destruct Hw as (Hw1 & Hw2 & Hw3). rewrite Hw1, Hi.
    destruct others as [|others].
    + change (0 <? Z.of_nat 0)%Z with false. cbn iota. destruct Hm as [Hm Hl].
      pose proof (recycle_same exec (e_end e) w2) as [Hi3 Hd3]. destruct (recycle_spec exec (e_end e) w2 Hid) as [Hr _]. fold id in Hr.
      destruct (recycle exec (e_end e) w2) as [w3 l3]. cbn [fst snd] in *. rewrite Hi3, Hd3, Hw1, Hw2.
      split; [done|]. split; [done|]. split; [done|].
      assert (Hc : cooling id (e_end e) w2 = cooling id (e_end e) w1) by (unfold cooling; by rewrite Hw3). rewrite Hc in Hr.
      destruct (deferred w !! id) as [exec'|] eqn:E.
      * destruct (Hl (Hd _ eq_refl)) as [-> Hcool]. rewrite Hcool in Hr. exists exec'. subst l3. rewrite app_nil_r. split; [by apply Hd|done].
      * destruct Hl as [-> Hra]. exists exec. subst l3. split; [done|]. unfold cooling. by rewrite Hra.
    + assert (Hlt : (0 <? Z.of_nat (S others))%Z = true) by (apply Z.ltb_lt; lia). rewrite Hlt. destruct Hm as [Hm ->].
      unfold deferWrapRecycle. fold id. rewrite Hid'. cbn [set_deferred inflight deferred]. rewrite Hw1, Hw2, lookup_insert_eq.
      split; [|split_and!; done]. intros id' Hne. rewrite lookup_insert_ne by congruence. by apply Ho.
  - split; [done|]. split; [done|]. destruct others as [|others]; [|done]. destruct Hm as [Hm Hl]. split; [done|].
    destruct (deferred w !! id) as [exec'|]; [|by destruct Hl]. rewrite bool_decide_true by by eexists.
    exists exec'. split; [by apply Hd|]. by apply Hl, Hd.
Qed.

(** A slot without an id is not counted. *)
Lemma finish_nameless e exec result w : wrapVmId exec = "" -> same_counts w (finish_hop e exec result w).1.
Proof.
  intros H. unfold finish_hop, endWrapHop. rewrite H. cbn [nonempty]. change (negb (nonempty "")) with true. cbn iota.
  destruct (isDeadWrapHop result); [|done]. unfold recycleLeakedWrap, wrapHopInflight. rewrite H. change (nonempty "") with false. cbn iota.
  change (0 <? 0)%Z with false. cbn iota. pose proof (recycle_same exec (e_end e) (clearRustHealthCache (exec_id exec) w)) as Hr.
  by destruct (recycle _ _ _).
Qed.

Lemma step_counted s s' : step s s' -> counted s.1 s.2 -> counted s'.1 s'.2.
Proof.
  destruct 1 as [w running exec now|w before exec after e result|w running w' Hi Hd]; cbn [fst snd]; intros H id Hid.
  - destruct (H id Hid) as [Hn Hd]. unfold slot_ok. rewrite slot_count_cons. unfold beginWrapHop.
    destruct (of_slot id exec) eqn:E.
    + apply of_slot_spec in E. rewrite E. apply nonempty_spec in Hid. rewrite Hid. cbn [set_lastHop set_inflight inflight deferred].
      rewrite lookup_insert_eq, Hn. cbn [default from_option]. split; [cbn; lia|]. intros exec' He. destruct (Hd exec' He). split; [done|lia].
    + assert (Hne : wrapVmId exec <> id) by (intros He; apply of_slot_spec in He; congruence).
      destruct (nonempty (wrapVmId exec)); cbn [set_lastHop set_inflight inflight deferred]; [rewrite lookup_insert_ne by done|]; by split.
  - pose proof (slot_count_app id before (exec :: after)) as Hc. rewrite slot_count_cons in Hc. pose proof (slot_count_app id before after) as Hc'.
    destruct (decide (wrapVmId exec = "")) as [He|He].
    { destruct (finish_nameless e exec result w He) as [Hi Hd]. unfold slot_ok. rewrite Hi, Hd.
      assert (Hs : of_slot id exec = false) by (destruct (of_slot id exec) eqn:E; [apply of_slot_spec in E; congruence|done]). rewrite Hs in Hc.
      assert (Heq : count id (before ++ after) = count id (before ++ exec :: after)) by lia. rewrite Heq. by apply H. }
    destruct (H _ He) as [Hn Hd]. assert (Hs : of_slot (wrapVmId exec) exec = true) by by apply of_slot_spec.
    pose proof (slot_count_app (wrapVmId exec) before (exec :: after)) as Hk. rewrite slot_count_cons, Hs in Hk.
    pose proof (slot_count_app (wrapVmId exec) before after) as Hk'.
    assert (Hother : count (wrapVmId exec) (before ++ exec :: after) = S (count (wrapVmId exec) (before ++ after))) by lia.
    pose proof (finish_spec e exec result w (count (wrapVmId exec) (before ++ after)) He) as Hf. cbn zeta in Hf.
    rewrite Hn, Hother in Hf. specialize (Hf eq_refl (fun x Hx => proj1 (Hd x Hx))). destruct (finish_hop e exec result w) as [w' l]. cbn [fst] in *.
    destruct Hf as (Ho & Hi & Hm). unfold slot_ok. destruct (decide (id = wrapVmId exec)) as [->|Hne].
    + rewrite Hi. split; [done|]. destruct (count _ (before ++ after)) as [|k]; [destruct Hm as [-> _]; done|]. destruct Hm as [-> _].
      intros x. destruct (isDeadWrapHop result); [intros [= <-]; split; [done|lia]|]. intros Hx. split; [by apply Hd|lia].
    + destruct (Ho id Hne) as [-> ->]. assert (Hf : of_slot id exec = false) by (destruct (of_slot id exec) eqn:E; [apply of_slot_spec in E; congruence|done]).
      rewrite Hf in Hc. assert (Heq : count id (before ++ after) = count id (before ++ exec :: after)) by lia. rewrite Heq. by apply H.
  - unfold slot_ok. rewrite Hi, Hd. by apply H.
Qed.

Lemma reachable_counted s : reachable s -> counted s.1 s.2.
Proof.
  intros H. assert (H0 : counted (no_wraps, @nil jsval).1 (no_wraps, @nil jsval).2).
  { intros id _. unfold slot_ok. cbn [fst snd no_wraps inflight deferred]. rewrite !lookup_empty. split; [done|]. by intros x [=]. }
  revert H0. unfold reachable in H. induction H as [s|a b c Hab _ IH]; intros H0; [exact H0|]. apply IH. by eapply step_counted.
Qed.

(** Hops to the kernels begin and end in any order.  When a hop ends, nothing is restarted while
    another hop of its slot is under way; when it was the last, and it or one that ended before it
    broke off, the kernel is restarted once, unless it was within the last thirty seconds; and the
    request to restart is remembered exactly until then. *)
Theorem leaked_wrap_recycled w before exec after e result :
  reachable (w, before ++ exec :: after) -> wrapVmId exec <> "" ->
  let id := wrapVmId exec in
  let '(w', l) := finish_hop e exec result w in
  let leaked := isDeadWrapHop result || bool_decide (is_Some (deferred w !! id)) in
  match count id (before ++ after) with
  | O => deferred w' !! id = None /\
         (if leaked then exists x, wrapVmId x = id /\ l = (if cooling id (e_end e) w then [] else [ERestart x]) else l = [])
  | S _ => l = [] /\ bool_decide (is_Some (deferred w' !! id)) = leaked
  end.
Proof.
  intros Hr Hid id. apply reachable_counted in Hr. cbn [fst snd] in Hr. destruct (Hr _ Hid) as [Hn Hd].
  pose proof (slot_count_app id before (exec :: after)) as Hk. rewrite slot_count_cons in Hk. pose proof (slot_count_app id before after) as Hk'.
  assert (Hs : of_slot id exec = true) by by apply of_slot_spec. rewrite Hs in Hk.
  assert (Hother : count id (before ++ exec :: after) = S (count id (before ++ after))) by lia.
  pose proof (finish_spec e exec result w (count id (before ++ after)) Hid) as Hf. cbn zeta in Hf. fold id in Hn, Hd, Hf. rewrite Hn, Hother in Hf.
  specialize (Hf eq_refl (fun x Hx => proj1 (Hd x Hx))). destruct (finish_hop e exec result w) as [w' l]. destruct Hf as (_ & _ & Hm).
  destruct (count id (before ++ after)); [done|]. destruct Hm as [-> ->]. split; [done|]. destruct (isDeadWrapHop result); [|done].
  by rewrite bool_decide_true by by eexists.
Qed.

Definition slot_exec (id : string) : jsval := JObj [("vmId", JStr id); ("homeDir", JStr "/home")].
Definition sample_stream_reply : reply := inr sample_response.
Definition sample_env : env :=
  {| e_bin := "kin-kernel"; e_newer := false; e_peek := 100; e_prepared := 100; e_health := JObj [("ok", JBool true)]; e_first := JUndef; e_took := 0;
     e_polled := fun _ => JUndef; e_extra := fun _ => 0%N; e_linked := fun _ => None; e_renewed := None; e_started := inr JUndef; e_begin := 100; e_sent := fun _ => 200%Z; e_recycled := 200;
     e_end := 300; e_reply := fun _ => sample_stream_reply; e_elapsed := fun _ _ => 7%Z; e_ensured := inr (JObj [("ok", JBool true)]) |}.
Definition broken_off : jsval := JObj [("terminalState", JStr "incomplete")].
Definition two_hops : wraps := beginWrapHop (slot_exec "vm-a") 20 (beginWrapHop (slot_exec "vm-a") 10 no_wraps).

Lemma two_hops_reachable : reachable (two_hops, [slot_exec "vm-a"; slot_exec "vm-a"]).
Proof. eapply rtc_l; [apply (StepBegin no_wraps [] (slot_exec "vm-a") 10)|]. eapply rtc_l; [apply (StepBegin _ _ (slot_exec "vm-a") 20)|]. apply rtc_refl. Qed.

Lemma leaked_wrap_recycled_witness :
  let '(w', l) := finish_hop sample_env (slot_exec "vm-a") broken_off two_hops in
  l = [] /\ bool_decide (is_Some (deferred w' !! "vm-a")) = true.
Proof.
  exact (leaked_wrap_recycled two_hops [] (slot_exec "vm-a") [slot_exec "vm-a"] sample_env broken_off two_hops_reachable
    ltac:(discriminate)).
Defined.

(** ** What the client is shown *)

Lemma get_own_obj v k : is_obj v = true -> (own v)?.k = v?.k.
Proof. by destruct v. Qed.
Lemma get_marked result k k' : is_obj result = true -> k' <> k -> (marked result k)?.k' = result?.k'.
Proof. intros Ho Hne. unfold marked. rewrite get_with_field_ne by done. by apply get_own_obj. Qed.
Lemma get_remap result k : is_obj result = true -> k <> "via" -> (remapVia result)?.k = result?.k.
Proof. intros Ho Hne. unfold remapVia. destruct (negb _); [done|]. rewrite get_with_field_ne by done. by apply get_own_obj. Qed.

Lemma stream_is_obj {C : Type} (onCommit : C -> C) onEvent elapsed answer c : is_obj (streamGoWorker onCommit onEvent elapsed answer c).1 = true.
Proof.
  unfold streamGoWorker. destruct answer as [t|r]; [done|]. destruct (negb _); [cbn [fst]; unfold rejected; by destruct (readAll _ _)|].
  destruct (read_stream _ _ _ _ _) as [[p c'] [t|]]; [done|]. cbn [fst]. unfold verdict. by destruct (streamMetaFromHeaders _) as [[? ?] ?].
Qed.
Lemma remap_is_obj result : is_obj result = true -> is_obj (remapVia result) = true.
Proof. intros H. unfold remapVia. by destruct (negb _). Qed.

Section OneStream.
Context (fails : string -> option thrown) (e : env) (exec routing slotWaitMs : jsval).
#[local] Notation send := (streamRustKernel log_commit (log_line fails) e).

(** The result of sending the request the [n]-th time to a client that was shown nothing yet. *)
Definition sent (n : nat) : jsval := (send n []).1.
(** The lines the [n]-th response has. *)
Definition reply_lines (n : nat) : list string :=
  match e_reply e n with inl _ => [] | inr r => text_lines (String.concat "" (map decode (chunks r))) end.
Definition one_stream (log : list emitted) : Prop :=
  log = [] \/ exists n shown, (n < 3)%nat /\ log = Committed :: map Line shown /\ shown `prefix_of` reply_lines n.

Lemma sent_gate n : let '(result, log) := send n [] in is_obj result = true /\
  ((result?."committed" = JBool false /\ log = []) \/
   (result?."committed" = JBool true /\ exists shown, log = Committed :: map Line shown /\ shown `prefix_of` reply_lines n)).
Proof.
  unfold streamRustKernel, reply_lines. pose proof (stream_is_obj log_commit (log_line fails) (e_elapsed e n) (e_reply e n) []) as Ho.
  assert (H : let '(result, log) := streamGoWorker log_commit (log_line fails) (e_elapsed e n) (e_reply e n) [] in
    (result?."committed" = JBool false /\ log = []) \/
    (result?."committed" = JBool true /\ exists shown, log = Committed :: map Line shown /\ shown `prefix_of`
      match e_reply e n with inl _ => [] | inr r => text_lines (String.concat "" (map decode (chunks r))) end)).
  { destruct (e_reply e n) as [t|r]; [by left|]. pose proof (stream_gate fails (e_elapsed e n) [] r) as H. cbn zeta in H.
    destruct (streamGoWorker _ _ _ (inr r) []) as [result log]. destruct H as [H|(Hc & shown & Hl & Hp & _)]; [by left|right]. split; [done|]. by exists shown. }
  destruct (streamGoWorker _ _ _ _ _) as [result log]. cbn [fst] in Ho. split; [by apply remap_is_obj|]. by rewrite get_remap.
Qed.

Lemma needs_refresh_marked result k : is_obj result = true -> k ∉ ["body"; "error"; "status"] ->
  isNeedsRefreshResult (marked result k) = isNeedsRefreshResult result.
Proof. intros Ho Hk. unfold isNeedsRefreshResult. rewrite !get_marked by (done || set_solver). done. Qed.

(** C15: The client is shown at most one of the responses of a hop, the lines it begins with, even
    when the request is sent up to three times, provided a response that showed something is never
    answered by renewing the credential. *)
Theorem hop_shows_one_stream w o :
  (forall n, (n < 2)%nat -> (sent n)?."committed" = JBool true -> isNeedsRefreshResult (sent n) = false) ->
  dispatchStreamInference log_commit (log_line fails) e exec routing slotWaitMs w [] = Some o ->
  let '(result, w', log, l) := o in one_stream log.
Proof.
  intros Hclean H. unfold dispatchStreamInference, runHop in H. destruct (resolveHopEngine None (e_bin e)) as [reason []]; [injection H as <-; by left|].
  destruct (prepareRust e exec routing slotWaitMs w) as [[[w1 l1] [t|ready]]|]; [injection H as <-; by left| |done]. cbn [mbind option_bind] in H.
  destruct (negb (truthy (ready?."ok"))); [injection H as <-; by left|].
  assert (Hall : forall w0, one_stream (send_all e exec send w0 []).1.2).
  { intros w0. unfold send_all, send_twice.
    assert (Hlast : forall n result w0, (n < 3)%nat -> one_stream (send_renewed e exec send n result w0 []).1.2).
    { intros n result w2 Hn. unfold send_renewed. destruct (negb _); [by left|]. destruct (e_ensured e) as [t|ensured]; [by left|].
      destruct (negb _); [by left|]. destruct (recycle _ _ _) as [w3 l]. pose proof (sent_gate n) as Hg. destruct (send n []) as [r log]. cbn [fst snd].
      destruct Hg as [_ [[_ ->]|(_ & shown & -> & Hp)]]; [by left|right]. exists n, shown. split_and!; done. }
    assert (Hshown : forall n k result w0 log, (k < 2)%nat -> result = sent k \/ result = marked (sent k) "rust_transport_retried" ->
      is_obj (sent k) = true -> (sent k)?."committed" = JBool true -> one_stream log -> one_stream (send_renewed e exec send n result w0 log).1.2).
    { intros n k result w2 log Hk Hr Ho Hc Hl. unfold send_renewed.
      assert (Hf : isNeedsRefreshResult result = false) by (destruct Hr as [-> | ->]; rewrite ?needs_refresh_marked by (done || set_solver); by apply Hclean).
      by rewrite Hf. }
    pose proof (sent_gate 0) as Hg. pose proof (sent_gate 1) as Hg1.
    assert (E0 : sent 0 = (send 0 []).1) by done. assert (E1 : sent 1 = (send 1 []).1) by done.
    destruct (send 0 []) as [r0 log0]. destruct Hg as [Ho [[Hc ->]|(Hc & shown & -> & Hp)]]; cbn [fst] in E0.
    - destruct (is_true (r0?."transportError") && _); [|by apply Hlast; lia]. destruct (send 1 []) as [r1 log1]. cbn [fst] in E1.
      destruct Hg1 as [Ho1 [[Hc1 ->]|(Hc1 & shown1 & -> & Hp1)]]; [by apply Hlast; lia|].
      apply (Hshown _ 1%nat); [lia|rewrite E1; by right|by rewrite E1|by rewrite E1|]. right. exists 1%nat, shown1. split_and!; [lia|done|done].
    - rewrite Hc. change (negb (is_true (JBool true))) with false. rewrite andb_false_r.
      apply (Hshown _ 0%nat); [lia|rewrite E0; by left|by rewrite E0|by rewrite E0|]. right. exists 0%nat, shown. split_and!; [lia|done|done]. }
  specialize (Hall (beginWrapHop exec (e_begin e) w1)). destruct (send_all _ _ _ _ _) as [[[sent0 w2] log] l2]. cbn [fst snd] in Hall.
  destruct (finish_hop e exec sent0.1 w2) as [w3 l3]. by injection H as <-.
Qed.
End OneStream.

(** ** Two hops *)

Definition with_replies (f : nat -> reply) : env :=
  {| e_bin := e_bin sample_env; e_newer := false; e_peek := 100; e_prepared := 100; e_health := e_health sample_env; e_first := JUndef; e_took := 0;
     e_polled := fun _ => JUndef; e_extra := fun _ => 0%N; e_linked := fun _ => None; e_renewed := None; e_started := inr JUndef; e_begin := 100; e_sent := fun _ => 200%Z; e_recycled := 200;
     e_end := 300; e_reply := f; e_elapsed := fun _ _ => 7%Z; e_ensured := inr (JObj [("ok", JBool true)]) |}.
Definition refused_once : env :=
  with_replies (fun n => if (n =? 0)%nat then inl {| t_code := JStr "ECONNREFUSED"; t_message := "refused" |} else sample_stream_reply).
Definition stream_log (o : option ((thrown + jsval) * wraps * list emitted * list effect)) : list emitted :=
  match o with Some (_, _, log, _) => log | None => [] end.
#[local] Notation sample_hop e := (dispatchStreamInference log_commit (log_line never) e (slot_exec "vm-a") JUndef JUndef no_wraps []).

Lemma hop_shows_one_stream_witness : length (stream_log (sample_hop refused_once)) = 4%nat /\
  exists o, sample_hop refused_once = Some o /\ let '(result, w', log, l) := o in one_stream refused_once log.
Proof.
  assert (H : length (stream_log (sample_hop refused_once)) = 4%nat) by (vm_compute; reflexivity). split; [exact H|].
  assert (Hc : forall n, (n < 2)%nat -> (sent never refused_once n)?."committed" = JBool true -> isNeedsRefreshResult (sent never refused_once n) = false).
  { intros n Hn _. destruct n as [|[|n]]; [vm_compute; reflexivity|vm_compute; reflexivity|lia]. }
  destruct (hop_total log_commit (log_line never) refused_once (slot_exec "vm-a") JUndef JUndef no_wraps []) as [o Ho].
  exists o. exact (conj Ho (hop_shows_one_stream never refused_once (slot_exec "vm-a") JUndef JUndef no_wraps o Hc Ho)).
Defined.

(** A response that showed a text and then fails with an authentication error is sent again: the
    client is shown both streams, one after the other. *)
Definition cut_by_auth : response :=
  {| statusCode := 200; r_headers := JObj []; failure := None; trailers := JObj [];
     chunks := [event_line "content_block_delta" [("delta", JObj [("text", JStr "h")])];
                event_line "error" [("error", JObj [("type", JStr "authentication_error"); ("message", JStr "OAuth token has been revoked")])]] |}.
Definition renewed_late : env := with_replies (fun n => if (n =? 0)%nat then inr cut_by_auth else sample_stream_reply).
Lemma committed_sent_again :
  List.filter (fun x => match x with Committed => true | Line _ => false end) (stream_log (sample_hop renewed_late)) = [Committed; Committed].
Proof. vm_compute. reflexivity. Qed.

(** A busy slot that comes free at the third poll. *)
Example slot_comes_free : waitForReadySlot (fun k => JObj [("ok", JBool true); ("ready_slots", jint (if (k =? 2)%nat then 1 else 0)); ("cli_pid", jint 7)])
    (fun _ => 0%N) 10 (JObj [("ok", JBool true); ("ready_slots", jint 0); ("cli_pid", jint 7)]) (num_of_Z 500) 200 =
  Some (ready "slot_ready" (JObj [("ok", JBool true); ("ready_slots", jint 1); ("cli_pid", jint 7)]), 3%nat, 610%Z).
Proof. vm_compute. reflexivity. Qed.
