(* ===== verification/ApiPool.v ===== *)
(** * Endpoints of other providers (src/src/lib/pool/api-presets.mjs, src/src/lib/pool/api-scheduler.mjs)

    The address and the credential of an endpoint, the lists of its models, and the choice of an
    endpoint, one of its keys and an upstream model for a request, in turn. *)

From stdpp Require Import gmap strings.
From S2P Require Import Prelude.
From S2P Require Import JsValue.
From S2P Require Import JsRegex.
From S2P Require Import JsText.
From S2P Require Import JsDate.
From S2P Require Import Eligibility.
From S2P Require Import Ranking.
From S2P Require Import Security.
#[local] Open Scope string_scope.
#[local] Open Scope list_scope.
#[local] Open Scope js_scope.

(** ** Presets (api-presets.mjs) *)

Definition CLAUDE_OFFICIAL_URL : string := "https://api.anthropic.com".
Definition OPENAI_OFFICIAL_URL : string := "https://api.openai.com".
Inductive kind := KClaude | KOpenai | KCustom.
#[global] Instance kind_eq : EqDecision kind.
Proof. solve_decision. Defined.
Definition kind_name (k : kind) : string := match k with KClaude => "claude" | KOpenai => "openai" | KCustom => "custom" end.
(** The label and the address of a preset. *)
Definition API_ENDPOINT_PRESETS (k : kind) : string * string :=
  match k with
  | KClaude => ("Claude 官方", CLAUDE_OFFICIAL_URL)
  | KOpenai => ("OpenAI 官方", OPENAI_OFFICIAL_URL)
  | KCustom => ("自定义", "")
  end.
Inductive wire := Anthropic | Openai.
#[global] Instance wire_eq : EqDecision wire.
Proof. solve_decision. Defined.
Definition wire_name (w : wire) : string := match w with Anthropic => "anthropic" | Openai => "openai" end.

Fixpoint drop_slashes (n : nat) (s : string) : string :=
  match n with O => s | S n => if ends_with "/" s then drop_slashes n (drop_last 1 s) else s end.
Definition trimBaseUrl (url : jsval) : string :=
  let s := trim (str_or_empty url) in
  let s := drop_slashes (String.length s) s in
  if ends_with "/v1" (to_lower s) then drop_last 3 s else s.

Definition normalizeKind (k baseUrl : jsval) : kind :=
  let k := to_lower (trim (str_or_empty k)) in
  if mem k ["claude"; "anthropic"] then KClaude
  else if String.eqb k "openai" then KOpenai
  else
    let u := trimBaseUrl baseUrl in
    if String.eqb u CLAUDE_OFFICIAL_URL then KClaude else if String.eqb u OPENAI_OFFICIAL_URL then KOpenai else KCustom.
Definition normalizeProtocol (protocol : jsval) (k : kind) : wire :=
  match k with
  | KClaude => Anthropic
  | KOpenai => Openai
  | KCustom => if String.eqb (to_lower (str_or_empty protocol)) "openai" then Openai else Anthropic
  end.

Record preset := { p_kind : kind; p_protocol : wire; p_base_url : string; p_name : string }.
Definition resolvePreset (k input : jsval) : preset :=
  let resolvedKind := normalizeKind (k ||| input?."kind") (input?."base_url") in
  let name := trim (str_or_empty (input?."name")) in
  {| p_kind := resolvedKind; p_protocol := normalizeProtocol (input?."protocol") resolvedKind;
     p_base_url := match resolvedKind with KCustom => trimBaseUrl (input?."base_url") | k => (API_ENDPOINT_PRESETS k).2 end;
     p_name := if nonempty name then name else match resolvedKind with KCustom => "api" | k => (API_ENDPOINT_PRESETS k).1 end |}.

Definition modelsUrl (baseUrl : jsval) (afterId : jsval) : string :=
  let url := (trimBaseUrl baseUrl ++ "/v1/models")%string in
  if truthy afterId then (url ++ "?after_id=" ++ Tokens.encodeURIComponent (to_string afterId))%string else url.
Definition messagesUrl (baseUrl : jsval) : string := (trimBaseUrl baseUrl ++ "/v1/messages?beta=true")%string.
Definition chatCompletionsUrl (baseUrl : jsval) : string := (trimBaseUrl baseUrl ++ "/v1/chat/completions")%string.
Definition responsesUrl (baseUrl : jsval) : string := (trimBaseUrl baseUrl ++ "/v1/responses")%string.

Definition SCHEME_FIELDS : list string := ["auth_scheme"; "authScheme"; "anthropic_apikey_auth_scheme"].
Definition without_all (ks : list string) (v : jsval) : jsval := JObj (fold_left (fun f k => del_field k f) ks (entries v)).
Definition upstreamAuthHeaders (protocol : wire) (apiKey extra : jsval) : jsval :=
  let key := trim (str_or_empty apiKey) in
  let bearer := JStr ("Bearer " ++ key)%string in
  let headers := without_all SCHEME_FIELDS extra in
  match protocol with
  | Openai => with_field headers "authorization" bearer
  | Anthropic =>
    let scheme := replace_char "-" "_" (to_lower (trim (str_or_empty (extra?."auth_scheme" ||| extra?."authScheme" ||| extra?."anthropic_apikey_auth_scheme")))) in
    let headers :=
      if mem scheme ["authorization_bearer"; "bearer"; "authorization"]
      then with_field (without headers "x-api-key") "authorization" bearer
      else with_field (without (without headers "authorization") "Authorization") "x-api-key" (JStr key) in
    if truthy (headers?."anthropic-version") then headers else with_field headers "anthropic-version" (JStr "2023-06-01")
  end.

Definition SKIP_OPENAI : list string :=
  ["whisper"; "tts-"; "dall-e"; "chatgpt-image"; "gpt-image"; "text-embedding"; "text-moderation"; "omni-moderation"; "davinci"; "babbage"; "curie"].
Definition skipped_openai (name : string) : bool := existsb (fun p => starts_with p (to_lower name)) SKIP_OPENAI.
Definition upstream_rows (payload : jsval) : list jsval :=
  match payload?."data", payload?."models", payload with
  | JArr l, _, _ => l
  | _, JArr l, _ => l
  | _, _, JArr l => l
  | _, _, _ => []
  end.
Definition parseUpstreamModels (payload : jsval) (protocol : wire) : list jsval :=
  (fold_left (fun acc row =>
     let name := trim (str_or_empty (row?."id" ||| row?."name")) in
     let key := to_lower name in
     if negb (nonempty name) || (bool_decide (protocol = Openai) && skipped_openai name) || mem key acc.1 then acc
     else (key :: acc.1, acc.2 ++ [JObj [("name", JStr name); ("alias", JStr name);
             ("display_name", JStr (to_string (row?."display_name" ||| row?."id" ||| JStr name)))]]))
     (upstream_rows payload) ([], [])).2.

Definition alias_of (m : jsval) (name : string) : string :=
  let alias := trim (to_string (m?."alias" ||| JStr name)) in if nonempty alias then alias else name.
Definition mergeModelLists (existing fetched : list jsval) : list jsval :=
  let '(have, out) := fold_left (fun acc m =>
      let name := trim (str_or_empty (m?."name" ||| m?."upstream_name")) in
      if negb (nonempty name) then acc
      else (to_lower name :: acc.1, acc.2 ++ [JObj [("id", m?."id"); ("name", JStr name); ("alias", JStr (alias_of m name));
                                                    ("image", JBool (truthy (m?."image"))); ("thinking", m?."thinking")]]))
      existing ([], []) in
  (fold_left (fun acc m =>
      let name := trim (str_or_empty (m?."name" ||| m?."id")) in
      if negb (nonempty name) || mem (to_lower name) acc.1 then acc
      else (to_lower name :: acc.1, acc.2 ++ [JObj [("name", JStr name); ("alias", JStr (alias_of m name)); ("image", JBool (truthy (m?."image")))]]))
      fetched (have, out)).2.

(** ** Models of an endpoint (api-scheduler.mjs) *)

Definition norm (v : jsval) : string := trim (str_or_empty v).
Definition lower (v : jsval) : string := to_lower (norm v).
Definition stripPrefix (model prefix : jsval) : string :=
  let p := norm prefix in
  let raw := norm model in
  if negb (nonempty p) then raw
  else if starts_with (to_lower (p ++ "/")) (to_lower raw) then drop_chars (String.length (p ++ "/")) raw else raw.

(** [ids] and [seen] of the loop: an id is added once. *)
Definition add_id (id : string) (l : list string) : list string := if existsb (fun x => String.eqb (to_lower x) (to_lower id)) l then l else l ++ [id].
Definition modelIdsForEndpoint (ep : jsval) (forcePrefix : bool) : list string :=
  let prefix := norm (ep?."prefix") in
  fold_left (fun ids m =>
    let alias := norm (m?."alias") in
    if negb (nonempty alias) then ids
    else
      let ids := if negb forcePrefix || negb (nonempty prefix) then add_id alias ids else ids in
      if nonempty prefix then add_id (prefix ++ "/" ++ alias) ids else ids)
    (arr_of (ep?."models")) [].

Definition resolveUpstreamPool (ep requestedModel : jsval) : list string :=
  let want := to_lower (trim (stripPrefix requestedModel (ep?."prefix"))) in
  if negb (nonempty want) then []
  else fold_left (fun out m =>
         if negb (String.eqb (lower (m?."alias")) want) then out
         else add_id (if nonempty (norm (m?."name")) then norm (m?."name") else norm (m?."alias")) out)
         (arr_of (ep?."models")) [].
Definition endpointMatchesModel (ep requestedModel : jsval) : bool :=
  truthy ep && negb (truthy (ep?."disabled")) && match resolveUpstreamPool ep (JStr (norm requestedModel)) with [] => false | _ => true end.

Definition keyReady (key : jsval) (now : Z) (disableCooling : bool) : bool :=
  if negb (truthy key) || truthy (key?."disabled") then false
  else if disableCooling || negb (truthy (key?."cooldown_until")) then true
  else num_leb (date_parse (to_string (key?."cooldown_until"))) (num_of_Z now).

(** ** The scheduler *)

Record scheduler := {
  endpoints : list jsval; parentCursor : Z; childCursor : gmap string Z; modelCursor : gmap string Z; forcePrefix : bool
}.
Definition new_scheduler : scheduler := {| endpoints := []; parentCursor := 0; childCursor := ∅; modelCursor := ∅; forcePrefix := false |}.
Definition reload (eps : jsval) (s : scheduler) : scheduler :=
  {| endpoints := arr_of eps; parentCursor := parentCursor s; childCursor := childCursor s; modelCursor := modelCursor s; forcePrefix := forcePrefix s |}.

Definition catalog_entry (ep : jsval) (id : string) : jsval :=
  JObj [("id", JStr id); ("object", JStr "model"); ("type", JStr "model"); ("display_name", JStr id); ("owned_by", ep?."name" ||| JStr "api")].
Definition catalog_data (s : scheduler) : list jsval :=
  (fold_left (fun acc ep =>
     if truthy (ep?."disabled") then acc
     else fold_left (fun acc id =>
            if mem (to_lower (trim id)) acc.1 then acc else (to_lower (trim id) :: acc.1, acc.2 ++ [catalog_entry ep id]))
            (modelIdsForEndpoint ep (forcePrefix s)) acc)
     (endpoints s) ([], [])).2.
Definition catalog (s : scheduler) : jsval :=
  JObj [("object", JStr "list"); ("data", JArr (catalog_data s)); ("source", JStr "api-endpoints")].

Definition priority_of (ep : jsval) : num := num_or_zero (ep?."priority").
Definition by_priority (a b : jsval) : num := num_sub (priority_of b) (priority_of a).
Definition parents_for (s : scheduler) (requestedModel : jsval) : list jsval :=
  sort by_priority (List.filter (fun ep => endpointMatchesModel ep requestedModel) (endpoints s)).
Definition ready_keys (ep : jsval) (now : Z) : list jsval :=
  List.filter (fun k => keyReady k now (truthy (ep?."disable_cooling"))) (arr_of (ep?."api_key_entries")).

Record picked := { k_endpoint : jsval; k_key : jsval; upstream_model : string; requested_model : jsval }.
Inductive pick_result := Picked (p : picked) | NotPicked (code message : string).

Definition at_cursor {A} (d : A) (l : list A) (cursor : Z) : A := nth (Z.to_nat (cursor mod Z.of_nat (length l))) l d.
(** The first parent from the cursor on with a ready key: how far it is, and its keys. *)
Fixpoint first_ready (parents : list jsval) (start : Z) (off n : nat) (now : Z) : option (nat * jsval * list jsval) :=
  match n with
  | O => None
  | S n =>
    let ep := at_cursor JUndef parents (start + Z.of_nat off) in
    match ready_keys ep now with
    | [] => first_ready parents start (S off) n now
    | keys => Some (off, ep, keys)
    end
  end.
Definition ep_id (ep : jsval) : string := to_string (ep?."id").
Definition pick (s : scheduler) (requestedModel : jsval) (now : Z) : scheduler * pick_result :=
  match parents_for s requestedModel with
  | [] => (s, NotPicked "model_not_found" ("no api endpoint serves " ++ to_string requestedModel))
  | parents =>
    let start := (parentCursor s mod Z.of_nat (length parents))%Z in
    match first_ready parents start 0 (length parents) now with
    | None => (s, NotPicked "api_pool_exhausted" "no ready api key for this model")
    | Some (off, ep, keys) =>
      let c := default 0%Z (childCursor s !! ep_id ep) in
      let pool := resolveUpstreamPool ep requestedModel in
      let mk := (ep_id ep ++ ":" ++ lower requestedModel)%string in
      let mi := default 0%Z (modelCursor s !! mk) in
      ({| endpoints := endpoints s; parentCursor := start + Z.of_nat off + 1; childCursor := <[ep_id ep := (c + 1)%Z]> (childCursor s);
          modelCursor := <[mk := (mi + 1)%Z]> (modelCursor s); forcePrefix := forcePrefix s |},
       Picked {| k_endpoint := ep; k_key := at_cursor JUndef keys c;
                 upstream_model := at_cursor (to_string requestedModel) pool mi; requested_model := requestedModel |})
    end
  end.

(** ** The choice of an endpoint

    What is chosen serves the model and is ready, nothing that could be chosen is passed over, and the endpoints of a model take turns. *)

(** ** Cursors *)

Lemma at_cursor_nth {A} (d : A) l c : l <> [] -> exists i, (i < length l)%nat /\ at_cursor d l c = nth i l d.
Proof.
  intros Hl. assert (Hn : (0 < Z.of_nat (length l))%Z) by (destruct l; [done|cbn; lia]).
  exists (Z.to_nat (c mod Z.of_nat (length l))). split; [|done]. pose proof (Z.mod_pos_bound c _ Hn). lia.
Qed.
Lemma at_cursor_in {A} (d : A) l c : l <> [] -> at_cursor d l c ∈ l.
Proof. intros Hl. destruct (at_cursor_nth d l c Hl) as (i & Hi & ->). apply list_elem_of_In. by apply nth_In. Qed.
Lemma at_cursor_mod {A} (d : A) l c c' : (c mod Z.of_nat (length l) = c' mod Z.of_nat (length l))%Z -> at_cursor d l c = at_cursor d l c'.
Proof. intros H. unfold at_cursor. by rewrite H. Qed.

(** A whole turn of the cursor sees every member once. *)
Lemma turn_perm {A} (d : A) l c : map (fun k => at_cursor d l (c + Z.of_nat k)) (seq 0 (length l)) ≡ₚ l.
Proof.
  destruct l as [|x l']; [done|]. set (l := x :: l'). set (n := length l). assert (Hn : (0 < n)%nat) by (cbn; lia).
  set (i := Z.to_nat (c mod Z.of_nat n)). assert (Hi : (i < n)%nat) by (subst i; pose proof (Z.mod_pos_bound c (Z.of_nat n) ltac:(lia)); lia).
  assert (Heq : map (fun k => at_cursor d l (c + Z.of_nat k)) (seq 0 n) = drop i l ++ take i l).
  { apply nth_ext with d d; [rewrite length_map, length_seq, length_app, length_drop, length_take; fold n; lia|].
    intros k Hk. rewrite length_map, length_seq in Hk. rewrite (nth_indep _ d (at_cursor d l (c + Z.of_nat 0))) by (by rewrite length_map, length_seq).
    rewrite (map_nth (fun k => at_cursor d l (c + Z.of_nat k)) (seq 0 n) 0%nat k). rewrite seq_nth by done. cbn [Nat.add]. unfold at_cursor. fold n.
    assert (Hm : Z.to_nat ((c + Z.of_nat k) mod Z.of_nat n) = if decide (i + k < n)%nat then (i + k)%nat else (i + k - n)%nat).
    { rewrite <- Z.add_mod_idemp_l by lia. assert (Hc : (c mod Z.of_nat n = Z.of_nat i)%Z) by (subst i; pose proof (Z.mod_pos_bound c (Z.of_nat n) ltac:(lia)); lia).
      rewrite Hc. destruct (decide _) as [Hlt|Hge]; [rewrite Z.mod_small by lia; lia|].
      replace (Z.of_nat i + Z.of_nat k)%Z with (Z.of_nat (i + k - n) + 1 * Z.of_nat n)%Z by lia. rewrite Z.mod_add by lia. rewrite Z.mod_small by lia. lia. }
    rewrite Hm. destruct (decide _) as [Hlt|Hge].
    - rewrite app_nth1 by (rewrite length_drop; fold n; lia). by rewrite nth_skipn.
    - rewrite app_nth2 by (rewrite length_drop; fold n; lia). rewrite length_drop. fold n. rewrite nth_firstn.
      replace (k - (n - i))%nat with (i + k - n)%nat by lia. destruct (Nat.ltb_spec (i + k - n) i); [done|lia]. }
  rewrite Heq, Permutation_app_comm. by rewrite take_drop.
Qed.

(** ** One pick *)

Lemma parents_spec s model ep : ep ∈ parents_for s model <-> ep ∈ endpoints s /\ endpointMatchesModel ep model = true.
Proof.
  unfold parents_for. rewrite (sort_perm by_priority), list_elem_of_In, List.filter_In, <- list_elem_of_In. done.
Qed.

Lemma first_ready_spec parents start now n : forall off,
  match first_ready parents start off n now with
  | Some (k, ep, keys) => (off <= k < off + n)%nat /\ ep = at_cursor JUndef parents (start + Z.of_nat k) /\ keys = ready_keys ep now /\ keys <> [] /\
      (forall j, (off <= j < k)%nat -> ready_keys (at_cursor JUndef parents (start + Z.of_nat j)) now = [])
  | None => forall j, (off <= j < off + n)%nat -> ready_keys (at_cursor JUndef parents (start + Z.of_nat j)) now = []
  end.
Proof.
  induction n as [|n IH]; intros off; cbn [first_ready]; [intros j Hj; lia|].
  destruct (ready_keys (at_cursor JUndef parents (start + Z.of_nat off)) now) as [|key keys] eqn:E.
  - specialize (IH (S off)). destruct (first_ready parents start (S off) n now) as [[[k ep] keys]|].
    + destruct IH as (Hk & He & Hkeys & Hne & Hb). split; [lia|]. do 3 (split; [done|]). intros j Hj.
      destruct (decide (j = off)) as [->|]; [done|]. apply Hb. lia.
    + intros j Hj. destruct (decide (j = off)) as [->|]; [done|]. apply IH. lia.
  - split; [lia|]. split; [done|]. split; [by rewrite E|]. split; [done|]. intros j Hj. lia.
Qed.

Lemma pool_members ep model : endpointMatchesModel ep model = true -> resolveUpstreamPool ep model <> [].
Proof.
  unfold endpointMatchesModel. rewrite !andb_true_iff. intros [_ H] Hn. revert H.
  assert (He : resolveUpstreamPool ep (JStr (norm model)) = resolveUpstreamPool ep model).
  { unfold resolveUpstreamPool. assert (Hs : stripPrefix (JStr (norm model)) (ep?."prefix") = stripPrefix model (ep?."prefix")); [|by rewrite Hs].
    unfold stripPrefix. assert (Hm : norm (JStr (norm model)) = norm model); [|by rewrite Hm].
    unfold norm. by rewrite str_or_empty_JStr, trim_trim. }
  rewrite He, Hn. done.
Qed.

Lemma picked_sound s model now p : (pick s model now).2 = Picked p ->
  k_endpoint p ∈ endpoints s /\ endpointMatchesModel (k_endpoint p) model = true /\
  k_key p ∈ arr_of (k_endpoint p?."api_key_entries") /\ keyReady (k_key p) now (truthy (k_endpoint p?."disable_cooling")) = true /\
  upstream_model p ∈ resolveUpstreamPool (k_endpoint p) model.
Proof.
  unfold pick. destruct (parents_for s model) as [|p0 ps] eqn:Ep; [done|].
  set (parents := p0 :: ps) in *. set (start := (parentCursor s mod Z.of_nat (length parents))%Z).
  assert (Hin : forall c, at_cursor JUndef parents c ∈ parents_for s model) by (intros c; rewrite Ep; by apply at_cursor_in).
  pose proof (first_ready_spec parents start now (length parents) 0) as Hf.
  destruct (first_ready parents start 0 (length parents) now) as [[[k ep] keys]|]; cbn [snd]; [|done].
  intros [= <-]. cbn [k_endpoint k_key upstream_model].
  destruct Hf as (_ & -> & -> & Hne & _). specialize (Hin (start + Z.of_nat k)%Z). apply parents_spec in Hin as [He Hm].
  pose proof (at_cursor_in JUndef _ (default 0%Z (childCursor s !! ep_id (at_cursor JUndef parents (start + Z.of_nat k)))) Hne) as Hk.
  unfold ready_keys in Hk at 2. rewrite list_elem_of_In, List.filter_In, <- list_elem_of_In in Hk. destruct Hk as [Hk Hr].
  split_and!; [done|done|exact Hk|exact Hr|]. apply at_cursor_in. by apply pool_members.
Qed.


(** ** Turns *)

Fixpoint picks (n : nat) (s : scheduler) (model : jsval) (now : Z) : list pick_result :=
  match n with O => [] | S n => let '(s, r) := pick s model now in r :: picks n s model now end.
Definition picked_endpoint (r : pick_result) : option jsval := match r with Picked p => Some (k_endpoint p) | NotPicked _ _ => None end.
(** Every endpoint that lists the model has a key that is ready. *)
Definition all_ready (s : scheduler) (model : jsval) (now : Z) : Prop :=
  forall ep, ep ∈ endpoints s -> endpointMatchesModel ep model = true -> ready_keys ep now <> [].

Lemma pick_next s model now : all_ready s model now -> parents_for s model <> [] ->
  let '(s', r) := pick s model now in
  picked_endpoint r = Some (at_cursor JUndef (parents_for s model) (parentCursor s)) /\ endpoints s' = endpoints s /\
  (parentCursor s' mod Z.of_nat (length (parents_for s model)) = (parentCursor s + 1) mod Z.of_nat (length (parents_for s model)))%Z.
Proof.
  intros Hr Hne. unfold pick. destruct (parents_for s model) as [|p0 ps] eqn:Ep; [done|]. set (parents := p0 :: ps) in *. set (n := Z.of_nat (length parents)).
  assert (Hin : forall c, at_cursor JUndef parents c ∈ parents_for s model) by (intros c; rewrite Ep; by apply at_cursor_in).
  assert (Hn : (0 < n)%Z) by (subst n; cbn; lia).
  assert (Hk : forall c, ready_keys (at_cursor JUndef parents c) now <> []).
  { intros c. specialize (Hin c). apply parents_spec in Hin as [He Hm]. by apply Hr. }
  pose proof (first_ready_spec parents (parentCursor s mod n) now (length parents) 0) as Hf.
  destruct (first_ready parents (parentCursor s mod n) 0 (length parents) now) as [[[k ep] keys]|].
  - destruct Hf as (_ & -> & _ & _ & Hb). assert (k = 0%nat) as ->.
    { destruct k as [|k]; [done|]. exfalso. eapply Hk. apply (Hb 0%nat). lia. }
    cbn [picked_endpoint k_endpoint endpoints parentCursor]. change (Z.of_nat 0) with 0%Z. rewrite !Z.add_0_r. split; [|split; [done|]].
    + f_equal. apply at_cursor_mod. fold n. by rewrite Z.mod_mod by lia.
    + by rewrite Z.add_mod_idemp_l by lia.
  - exfalso. eapply Hk. apply (Hf 0%nat). cbn. lia.
Qed.

Lemma picks_rotate k : forall s model now, all_ready s model now -> parents_for s model <> [] ->
  omap picked_endpoint (picks k s model now) = map (fun j => at_cursor JUndef (parents_for s model) (parentCursor s + Z.of_nat j)) (seq 0 k).
Proof.
  induction k as [|k IH]; intros s model now Hr Hne; [done|]. cbn [picks seq map]. pose proof (pick_next s model now Hr Hne) as H.
  destruct (pick s model now) as [s' r]. destruct H as (Hp & He & Hc). cbn [omap list_omap]. rewrite Hp.
  assert (Hpar : parents_for s' model = parents_for s model) by (unfold parents_for; by rewrite He).
  rewrite IH; [|intros ep; rewrite He; apply Hr|by rewrite Hpar]. rewrite Hpar. f_equal; [by rewrite Z.add_0_r|].
  rewrite <- seq_shift, map_map. apply map_ext. intros j. apply at_cursor_mod.
  rewrite <- Z.add_mod_idemp_l, Hc, Z.add_mod_idemp_l by (destruct (parents_for s model); [done|cbn; lia]). f_equal. lia.
Qed.

(** While the endpoints that list a model have ready keys they take turns: as many picks in a row
    as there are such endpoints choose each of them once. *)
Theorem endpoints_take_turns s model now : all_ready s model now ->
  omap picked_endpoint (picks (length (parents_for s model)) s model now) ≡ₚ parents_for s model.
Proof.
  intros Hr. destruct (parents_for s model) as [|p ps] eqn:E; [done|]. rewrite <- E. rewrite picks_rotate by (done || by rewrite E). apply turn_perm.
Qed.

Definition sample_endpoint (id : string) (priority : Z) : jsval :=
  JObj [("id", JStr id); ("priority", jint priority); ("models", JArr [JObj [("alias", JStr "m"); ("name", JStr ("up-" ++ id))]]);
        ("api_key_entries", JArr [JObj [("id", JStr (id ++ "-k1"))]; JObj [("id", JStr (id ++ "-k2")); ("disabled", JBool true)]])].
Definition sample_pool : scheduler := reload (JArr [sample_endpoint "a" 0; sample_endpoint "b" 5; sample_endpoint "c" 1]) new_scheduler.

Example sample_turn : map (fun r => match r with Picked p => upstream_model p | NotPicked code _ => code end) (picks 4 sample_pool (JStr "m") 0) =
  ["up-b"; "up-c"; "up-a"; "up-b"].
Proof. vm_compute. reflexivity. Qed.

Lemma endpoints_take_turns_witness : all_ready sample_pool (JStr "m") 0 /\
  omap picked_endpoint (picks (length (parents_for sample_pool (JStr "m"))) sample_pool (JStr "m") 0) ≡ₚ parents_for sample_pool (JStr "m").
Proof.
  assert (H : all_ready sample_pool (JStr "m") 0).
  { intros ep He _. cbn [sample_pool reload endpoints arr_of] in He. repeat (apply elem_of_cons in He as [->|He]; [vm_compute; discriminate|]). by apply not_elem_of_nil in He. }
  exact (conj H (endpoints_take_turns sample_pool (JStr "m") 0 H)).
Defined.
