(* ===== verification/Inbound.v ===== *)
(** * What a request is checked and stripped of (src/src/lib/protocol/platform-detect.mjs, workspace-mode.mjs,
    seed-policy.mjs)

    The platform of a model, the workspace of a client, the settings of a slot and what a client
    may say of itself. *)

From stdpp Require Import gmap strings.
From S2P Require Import Prelude.
From S2P Require Import JsValue.
From S2P Require Import JsRegex.
From S2P Require Import JsText.
From S2P Require Import ModelPolicy.
#[local] Open Scope string_scope.
#[local] Open Scope list_scope.
#[local] Open Scope js_scope.

(** ** The platform of a model (platform-detect.mjs) *)

Inductive platform := OnOpenai (model : string) | OnAnthropic (model : string) | Unsupported (code message : string).

(** [raw.split('/').filter(Boolean).pop() || raw] *)
Definition bare_id (raw : string) : string :=
  let id := List.last (List.filter nonempty (split_char "/" raw)) "" in if nonempty id then id else raw.
Definition skipped (id : string) : bool := existsb (fun p => starts_with p id) SKIP_GPT.
(** [/^(sonnet|opus|haiku|fable)(-|$)/i] *)
Definition CLAUDE_FAMILIES : list string := ["sonnet"; "opus"; "haiku"; "fable"].
Definition family_alias (id : string) : bool :=
  existsb (fun f => String.eqb id f || starts_with (f ++ "-") id) CLAUDE_FAMILIES.

Definition detectInboundPlatform (model : jsval) : platform :=
  let raw := trim (str_or_empty model) in
  if negb (nonempty raw) then Unsupported "model_required" "model is required"
  else
    let id := bare_id raw in
    let lower := to_lower id in
    if skipped lower then Unsupported "model_not_supported" ("model '" ++ raw ++ "' is not a GPT chat model")%string
    else if isGptSeriesId (JStr id) then OnOpenai id
    else if starts_with "claude-" lower || starts_with "anthropic.claude-" lower || family_alias lower then OnAnthropic id
    else Unsupported "model_not_supported" ("model '" ++ raw ++ "' is not recognized. No hop.")%string.

Example platform_ex :
  map (fun m => detectInboundPlatform (JStr m)) ["gpt-5"; "openrouter/claude-opus-4-8"; "opus"; "opusx"; " "; "tts-1"; "x/"] =
  [OnOpenai "gpt-5"; OnAnthropic "claude-opus-4-8"; OnAnthropic "opus"; Unsupported "model_not_supported" "model 'opusx' is not recognized. No hop.";
   Unsupported "model_required" "model is required"; Unsupported "model_not_supported" "model 'tts-1' is not a GPT chat model";
   Unsupported "model_not_supported" "model 'x/' is not recognized. No hop."].
Proof. vm_compute. reflexivity. Qed.

(** ** The workspace (workspace-mode.mjs) *)

Definition resolveWorkspaceMode (headers inbound : jsval) : string :=
  let raw := to_lower (trim (str_or_empty (headers?."x-kin-workspace" ||| headers?."x-kin-tool-exec" ||| inbound?."workspace"))) in
  if mem raw ["vm"; "server"; "slot"] then "vm" else "client".
Definition isOfficialClaudeClient (clientClass : jsval) : bool := is_str clientClass "claude_code_official" || is_str clientClass "claude_official_cli".

(** ** The settings of a slot (seed-policy.mjs) *)

Definition isTelemetryEnabled (pol : jsval) : bool := is_bool (pol?."telemetry_disabled") false.
Definition TELEMETRY_KILL_ENV : fields :=
  map (fun k => (k, JStr "1")) ["DISABLE_TELEMETRY"; "CLAUDE_CODE_DISABLE_NONESSENTIAL_TRAFFIC"; "CLAUDE_CODE_USE_BEDROCK"; "CLAUDE_CODE_USE_VERTEX"].
Definition TELEMETRY_KILL_ENV_KEYS : list string := map fst TELEMETRY_KILL_ENV ++ ["DO_NOT_TRACK"].
Definition LEGACY_SCRIPT_ENV_KEYS : list string :=
  TELEMETRY_KILL_ENV_KEYS ++ ["ANTHROPIC_BASE_URL"; "ANTHROPIC_API_KEY"; "ANTHROPIC_AUTH_TOKEN"; "ANTHROPIC_UNIX_SOCKET"].

Definition object_or_none (v : jsval) : fields := if is_object v then entries v else [].
Definition delete_all (ks : list string) (f : fields) : fields := fold_left (fun f k => del_field k f) ks f.
Definition set_all (g f : fields) : fields := fold_left (fun f e => set_field e.1 e.2 f) g f.

Definition stripLegacyScriptEnv (env : jsval) : fields := delete_all LEGACY_SCRIPT_ENV_KEYS (object_or_none env).
Definition applyRequiredSeedEnv (env : fields) (pol : jsval) : fields :=
  if isTelemetryEnabled pol then delete_all TELEMETRY_KILL_ENV_KEYS env else set_all TELEMETRY_KILL_ENV env.
Definition set_if (v : jsval) (ks : list string) (f : fields) : fields :=
  if truthy v then fold_left (fun f k => set_field k (JStr (to_string v)) f) ks f else f.
Definition buildSlotSettingsEnv (pol timezone locale extra : jsval) : fields :=
  let merged := set_all (object_or_none (pol?."extra_env")) (set_all (object_or_none extra) []) in
  let env := stripLegacyScriptEnv (JObj merged) in
  let env := set_if locale ["LANG"; "LC_ALL"] (set_if timezone ["TZ"] env) in
  let env := if negb (isTelemetryEnabled pol) && negb (is_bool (pol?."do_not_track") false) then set_field "DO_NOT_TRACK" (JStr "1") env
             else del_field "DO_NOT_TRACK" env in
  applyRequiredSeedEnv env pol.
Definition buildSeedSettingsEnv (pol extra : jsval) : fields := buildSlotSettingsEnv pol JUndef JUndef extra.

Definition seedTelemetryContract (pol : jsval) : jsval :=
  let enabled := isTelemetryEnabled pol in
  JObj [("telemetry_enabled", JBool enabled); ("telemetry_disabled", JBool (negb enabled)); ("kill_keys", jstrs TELEMETRY_KILL_ENV_KEYS);
        ("required_env", JObj (if enabled then [] else TELEMETRY_KILL_ENV));
        ("note", JStr (if enabled then "telemetry on: kill-switch keys deleted from settings.env"
                       else "telemetry off: kill-switch keys written as 1"))].

Definition not_false (v : jsval) : bool := negb (is_bool v false).
Definition defaultSeedPolicy (partial : jsval) : jsval :=
  let telemetryDisabled := not_false (partial?."telemetry_disabled") in
  let object_or (d v : jsval) := if is_object v then v else d in
  JObj [("telemetry_disabled", JBool telemetryDisabled);
        ("disable_nonessential_traffic", JBool (telemetryDisabled && not_false (partial?."disable_nonessential_traffic")));
        ("do_not_track", JBool (telemetryDisabled && not_false (partial?."do_not_track")));
        ("reject_client_settings", JBool (not_false (partial?."reject_client_settings")));
        ("reject_client_metadata_identity", JBool (not_false (partial?."reject_client_metadata_identity")));
        ("theme", partial?."theme" ||| JStr "dark");
        ("extra_env", object_or (JObj []) (partial?."extra_env"));
        ("settings_json_override", object_or JNull (partial?."settings_json_override"))].
Definition standardSeedPolicy (partial : jsval) : jsval :=
  defaultSeedPolicy (JObj (set_all (entries partial)
    [("telemetry_disabled", JBool false); ("disable_nonessential_traffic", JBool false); ("do_not_track", JBool false)])).

(** ** What a client says of itself *)

(** [/user|machine|device|host|tz|timezone|locale|setting/i] *)
Definition IDENTITY_WORDS : list string := ["user"; "machine"; "device"; "host"; "tz"; "timezone"; "locale"; "setting"].
Definition names_identity (k : string) : bool := existsb (fun w => includes (to_lower k) w) IDENTITY_WORDS.
Definition METADATA_KEYS : list string := ["user_id"; "userId"; "machine_id"; "machineId"; "session_source"].
Definition allowed_metadata (metadata : jsval) : fields :=
  List.filter (fun e => negb (names_identity e.1)) (delete_all METADATA_KEYS (entries metadata)).

Definition sanitizeInboundBody (body seedPolicy : jsval) : jsval :=
  if negb (truthy body && is_object body) then body ||| JObj []
  else
    let out := entries body in
    let rejectMeta := not_false (seedPolicy?."reject_client_metadata_identity") in
    let rejectSettings := not_false (seedPolicy?."reject_client_settings") in
    let metadata := assoc "metadata" out in
    let out :=
      if rejectMeta && truthy metadata && is_object metadata
      then match allowed_metadata metadata with [] => del_field "metadata" out | allow => set_field "metadata" (JObj allow) out end
      else out in
    let out := if rejectSettings then delete_all ["settings"; "claude_settings"; "env"] out else out in
    JObj (if rejectMeta then delete_all ["user"; "user_id"] out else out).

(** ** The contract of telemetry, and what is left of a client *)

Lemma has_key_delete_all k ks f : has_key k (delete_all ks f) = negb (mem k ks) && has_key k f.
Proof.
  unfold delete_all. revert f. induction ks as [|j ks IH]; intros f; cbn [fold_left mem existsb]; [done|].
  rewrite IH, has_key_del, (String.eqb_sym k j). unfold mem. by destruct (String.eqb j k), (existsb (String.eqb k) ks).
Qed.
Lemma assoc_delete_all k ks f : mem k ks = false -> assoc k (delete_all ks f) = assoc k f.
Proof.
  unfold delete_all. revert f. induction ks as [|j ks IH]; intros f; cbn [fold_left mem existsb]; [done|]. intros H.
  apply orb_false_iff in H as [Hj Hk]. rewrite IH by done. apply assoc_del_ne. by apply String.eqb_neq.
Qed.
Lemma has_key_set_all k g f : has_key k (set_all g f) = has_key k g || has_key k f.
Proof.
  unfold set_all. revert f. induction g as [|[j v] g IH]; intros f; cbn [fold_left has_key fst snd]; [done|].
  rewrite IH, has_key_set. by destruct (String.eqb k j), (has_key k g).
Qed.
Lemma has_key_set_if k v ks f : mem k ks = false -> has_key k (set_if v ks f) = has_key k f.
Proof.
  intros Hk. unfold set_if. destruct (truthy v); [|done]. revert f Hk. induction ks as [|j ks IH]; intros f Hk; cbn [fold_left]; [done|].
  cbn [mem existsb] in Hk. apply orb_false_iff in Hk as [Hj Hk]. rewrite IH by done. by rewrite has_key_set, Hj.
Qed.

(** With telemetry on, none of the switches that turn it off is in the settings of a slot; with telemetry
    off each of them is set; the addresses and keys of another endpoint never are. *)
Theorem slot_env_contract pol timezone locale extra :
  let env := buildSlotSettingsEnv pol timezone locale extra in
  (forall k, mem k ["ANTHROPIC_BASE_URL"; "ANTHROPIC_API_KEY"; "ANTHROPIC_AUTH_TOKEN"; "ANTHROPIC_UNIX_SOCKET"] = true -> has_key k env = false) /\
  (forall k, mem k TELEMETRY_KILL_ENV_KEYS = true -> has_key k env = negb (isTelemetryEnabled pol) &&
     (negb (String.eqb k "DO_NOT_TRACK") || not_false (pol?."do_not_track"))).
Proof.
  cbn zeta. unfold buildSlotSettingsEnv, applyRequiredSeedEnv, stripLegacyScriptEnv.
  assert (Hcases : forall k l, mem k l = true -> k ∈ l).
  { intros k l H. unfold mem in H. apply existsb_exists in H as (x & Hx & Heq). apply String.eqb_eq in Heq as ->. by apply list_elem_of_In. }
  split; intros k Hk; apply Hcases in Hk; unfold not_false; destruct (isTelemetryEnabled pol); cbn [negb andb].
  all: destruct (is_bool (pol?."do_not_track") false); cbn [negb andb orb].
  all: repeat (apply elem_of_cons in Hk as [->|Hk]); try (by apply not_elem_of_nil in Hk).
  all: rewrite ?has_key_delete_all, ?has_key_set_all, ?has_key_set, ?has_key_del; cbn [has_key map fst mem existsb TELEMETRY_KILL_ENV String.eqb Ascii.eqb Bool.eqb andb orb negb].
  all: rewrite ?has_key_set_if by reflexivity; rewrite ?has_key_delete_all; try reflexivity.
Qed.

(** What a client says of its machine is dropped, and nothing else. *)
Definition CLIENT_FIELDS : list string := ["settings"; "claude_settings"; "env"; "user"; "user_id"].
Theorem sanitized_inbound f :
  let out := fields_of (sanitizeInboundBody (JObj f) (defaultSeedPolicy (JObj []))) in
  (forall k, mem k CLIENT_FIELDS = true -> has_key k out = false) /\
  (forall e, e ∈ fields_of (assoc "metadata" out) -> names_identity e.1 = false /\ e ∈ entries (assoc "metadata" f)) /\
  (forall k, mem k CLIENT_FIELDS = false -> k <> "metadata" -> assoc k out = assoc k f).
Proof.
  cbn zeta. unfold sanitizeInboundBody. cbn [truthy is_object negb andb entries fields_of].
  change (not_false (defaultSeedPolicy (JObj [])?."reject_client_metadata_identity")) with true.
  change (not_false (defaultSeedPolicy (JObj [])?."reject_client_settings")) with true. cbn [andb].
  set (m := assoc "metadata" f). set (g := if truthy m && is_object m then _ else f).
  split; [|split].
  - intros k Hk. rewrite !has_key_delete_all. unfold CLIENT_FIELDS in Hk. unfold mem in *. cbn [existsb] in *.
    destruct (String.eqb k "settings"), (String.eqb k "claude_settings"), (String.eqb k "env"), (String.eqb k "user"), (String.eqb k "user_id"); try done.
  - intros e He. rewrite !assoc_delete_all in He by reflexivity. subst g.
    destruct (truthy m && is_object m) eqn:Hm.
    + destruct (allowed_metadata m) as [|a l] eqn:Ha; [rewrite assoc_del_eq in He; by apply not_elem_of_nil in He|].
      rewrite assoc_set_eq in He. cbn [fields_of] in He. rewrite <- Ha in He.
      unfold allowed_metadata in He. apply list_elem_of_In, List.filter_In in He as [He Hn]. split; [by destruct (names_identity e.1)|].
      revert He. unfold delete_all. generalize METADATA_KEYS as ks. generalize (entries m). intros g ks. revert g.
      induction ks as [|j ks IH]; intros g; cbn [fold_left]; [by intros H%list_elem_of_In|].
      intros H%IH. unfold del_field in H. by apply list_elem_of_In, List.filter_In in H as [H%list_elem_of_In _].
    + exfalso. fold m in He. destruct m as [| | | | |l|fl]; cbn in Hm, He; try (by apply not_elem_of_nil in He); discriminate.
  - intros k Hk Hne. unfold CLIENT_FIELDS, mem in Hk. cbn [existsb] in Hk. rewrite !orb_false_iff in Hk. destruct Hk as (H1 & H2 & H3 & H4 & H5 & _).
    rewrite !assoc_delete_all by (unfold mem; cbn [existsb]; by rewrite ?H1, ?H2, ?H3, ?H4, ?H5).
    subst g. destruct (truthy m && is_object m); [|done]. destruct (allowed_metadata m); [by apply assoc_del_ne|by apply assoc_set_ne].
Qed.
