(* ===== verification/Intercept.v ===== *)
(** * Rules that rewrite a request (src/src/lib/core/intercept.mjs)

    A rule may replace the body by a document of the configuration and set fields on it; a field is
    named by a path, and [setPath] writes into the objects on that path.  Those objects are shared: with the
    body of the client, and with the configuration itself.  So the objects are cells of a
    store ([heap]), and a body is a reference.  [intercept_values] is the same pass on values; it is what the pass
    does as long as no path has a dot ([intercept_refines_values]); [rule_remembers] shows what
    happens otherwise.  A path through [__proto__] is not modelled. *)

From stdpp Require Import gmap strings.
From S2P Require Import Prelude.
From S2P Require Import JsValue.
From S2P Require Import JsText.
#[local] Open Scope string_scope.
#[local] Open Scope list_scope.
#[local] Open Scope js_scope.

(** ** The store *)

(** A value: one that is not an object, or a reference to a cell. *)
Inductive ref := Plain (v : jsval) | Ref (l : positive).
(** An object or an array with its own properties; the elements of an array under their indices. *)
Record cell := { c_array : bool; c_fields : list (string * ref) }.
Notation heap := (gmap positive cell).

Fixpoint ref_at (k : string) (f : list (string * ref)) : ref :=
  match f with [] => Plain JUndef | (k', v) :: f => if String.eqb k k' then v else ref_at k f end.
Fixpoint put_at (k : string) (v : ref) (f : list (string * ref)) : list (string * ref) :=
  match f with [] => [(k, v)] | (k', v') :: f => if String.eqb k k' then (k', v) :: f else (k', v') :: put_at k v f end.

Definition new_loc (h : heap) : positive := Pos.succ (foldr (fun e m => Pos.max e.1 m) 1%positive (map_to_list h)).
Definition alloc (h : heap) (c : cell) : heap * positive := let l := new_loc h in (<[l := c]> h, l).
Definition write (h : heap) (l : positive) (k : string) (v : ref) : heap :=
  alter (fun c => {| c_array := c_array c; c_fields := put_at k v (c_fields c) |}) l h.
Definition read_field (h : heap) (l : positive) (k : string) : ref :=
  match h !! l with Some c => ref_at k (c_fields c) | None => Plain JUndef end.
Definition own_refs (h : heap) (l : positive) : list (string * ref) := match h !! l with Some c => c_fields c | None => [] end.

(** ** The pass *)

(** [parts] is not empty. *)
Fixpoint set_parts (h : heap) (cur : positive) (parts : list string) (v : ref) : heap :=
  match parts with
  | [] => h
  | [k] => write h cur k v
  | k :: parts =>
    match read_field h cur k with
    | Ref l => set_parts h l parts v
    | Plain _ =>
      let '(h, l) := alloc h {| c_array := false; c_fields := [] |} in
      set_parts (write h cur k (Ref l)) l parts v
    end
  end.
Definition setPath (h : heap) (obj : positive) (path : string) (v : ref) : heap := set_parts h obj (split_char "." path) v.

(** The documents of a rule are values of type [A]: texts of the configuration, or references to them. *)
Record rule (A : Type) := {
  r_enabled : jsval; r_phase : string; path_prefix : string; on_protocol : string;
  set_header : fields; remove_header : list jsval; replace_body_json : A; set_body_field : option (list (string * A))
}.
Arguments r_enabled {A}. Arguments r_phase {A}. Arguments path_prefix {A}. Arguments on_protocol {A}. Arguments set_header {A}.
Arguments remove_header {A}. Arguments replace_body_json {A}. Arguments set_body_field {A}.
Record context (A : Type) := { x_path : string; x_protocol : string; x_body : A; x_headers : fields }.
Arguments x_path {A}. Arguments x_protocol {A}. Arguments x_body {A}. Arguments x_headers {A}.

Definition applies {A} (phase path protocol : string) (r : rule A) : bool :=
  negb (is_bool (r_enabled r) false) && String.eqb (r_phase r) phase &&
  (negb (nonempty (path_prefix r)) || starts_with (path_prefix r) path) &&
  (negb (nonempty (on_protocol r)) || String.eqb (on_protocol r) protocol).
Definition rewrite_headers {A} (r : rule A) (headers : fields) : fields :=
  fold_left (fun hs k => del_field (to_lower (to_string k)) hs) (remove_header r)
    (fold_left (fun hs e => set_field (to_lower e.1) e.2 hs) (set_header r) headers).

Definition rewrite_body (r : rule ref) (h : heap) (body : ref) : heap * ref :=
  let body := match replace_body_json r with Ref l => Ref l | Plain _ => body end in
  match set_body_field r, body with
  | Some sets, Ref l =>
    let '(h, l') := alloc h {| c_array := false; c_fields := own_refs h l |} in
    (fold_left (fun h e => setPath h l' e.1 e.2) sets h, Ref l')
  | _, _ => (h, body)
  end.
Definition apply_rule (phase path protocol : string) (st : heap * ref * fields) (r : rule ref) : heap * ref * fields :=
  if applies phase path protocol r
  then let '(h, body) := rewrite_body r st.1.1 st.1.2 in (h, body, rewrite_headers r st.2)
  else st.
Definition applyIntercept (rules : list (rule ref)) (phase : string) (h : heap) (ctx : context ref) : heap * context ref :=
  let '(h, body, headers) := fold_left (apply_rule phase (x_path ctx) (x_protocol ctx)) rules (h, x_body ctx, x_headers ctx) in
  (h, {| x_path := x_path ctx; x_protocol := x_protocol ctx; x_body := body; x_headers := headers |}).

(** ** The pass on values *)

Definition set_all (g f : fields) : fields := fold_left (fun f e => set_field e.1 e.2 f) g f.
Definition rewrite_value (r : rule jsval) (body : jsval) : jsval :=
  let body := if is_object (replace_body_json r) then replace_body_json r else body in
  match set_body_field r with
  | Some sets => if is_object body then JObj (set_all sets (entries body)) else body
  | None => body
  end.
Definition apply_value (phase path protocol : string) (st : jsval * fields) (r : rule jsval) : jsval * fields :=
  if applies phase path protocol r then (rewrite_value r st.1, rewrite_headers r st.2) else st.
Definition intercept_values (rules : list (rule jsval)) (phase : string) (ctx : context jsval) : context jsval :=
  let '(body, headers) := fold_left (apply_value phase (x_path ctx) (x_protocol ctx)) rules (x_body ctx, x_headers ctx) in
  {| x_path := x_path ctx; x_protocol := x_protocol ctx; x_body := body; x_headers := headers |}.

(** ** What a reference stands for *)

Inductive reads (h : heap) : ref -> jsval -> Prop :=
  | reads_plain v : is_object v = false -> reads h (Plain v) v
  | reads_object l c f : h !! l = Some c -> c_array c = false -> reads_fields h (c_fields c) f -> reads h (Ref l) (JObj f)
  | reads_array l c vs : h !! l = Some c -> c_array c = true -> reads_fields h (c_fields c) (entries (JArr vs)) -> reads h (Ref l) (JArr vs)
with reads_fields (h : heap) : list (string * ref) -> fields -> Prop :=
  | reads_nil : reads_fields h [] []
  | reads_cons k r v rs f : reads h r v -> reads_fields h rs f -> reads_fields h ((k, r) :: rs) ((k, v) :: f).
Scheme reads_mut := Minimality for reads Sort Prop
with reads_fields_mut := Minimality for reads_fields Sort Prop.
Combined Scheme reads_both from reads_mut, reads_fields_mut.

Definition reads_rule (h : heap) (r : rule ref) (v : rule jsval) : Prop :=
  r_enabled r = r_enabled v /\ r_phase r = r_phase v /\ path_prefix r = path_prefix v /\ on_protocol r = on_protocol v /\
  set_header r = set_header v /\ remove_header r = remove_header v /\ reads h (replace_body_json r) (replace_body_json v) /\
  match set_body_field r, set_body_field v with Some f, Some g => reads_fields h f g | None, None => True | _, _ => False end.
(** No path of the rule has a dot. *)
Definition plain_paths {A} (r : rule A) : Prop := forall e, e ∈ default [] (set_body_field r) -> split_char "." e.1 = [e.1].

Lemma reads_grow h h' : h ⊆ h' -> (forall r v, reads h r v -> reads h' r v) /\ (forall rs f, reads_fields h rs f -> reads_fields h' rs f).
Proof.
  intros Hs. apply reads_both; [by constructor| | |constructor|by constructor].
  - intros l c f Hl Ha _ IH. eapply reads_object; [by eapply lookup_weaken|done|done].
  - intros l c vs Hl Ha _ IH. eapply reads_array; [by eapply lookup_weaken|done|done].
Qed.

Lemma new_loc_fresh h : h !! new_loc h = None.
Proof.
  destruct (h !! new_loc h) as [c|] eqn:E; [|done]. exfalso. apply elem_of_map_to_list in E. revert E.
  assert (H : forall l (e : positive * cell), e ∈ l -> (e.1 <= foldr (fun e m => Pos.max e.1 m) 1 l)%positive).
  { induction l as [|a l IH]; intros e He; [by apply not_elem_of_nil in He|]. cbn [foldr]. apply elem_of_cons in He as [->|He]; [lia|]. specialize (IH e He). lia. }
  intros He. specialize (H _ _ He). cbn [fst] in H. unfold new_loc in H. lia.
Qed.
Lemma alloc_grows h c : h ⊆ (alloc h c).1.
Proof. apply insert_subseteq, new_loc_fresh. Qed.

(** A write to a cell that [h] does not have. *)
Lemma write_above h h' l k v : h ⊆ h' -> h !! l = None -> h ⊆ write h' l k v.
Proof.
  intros Hs Hl. apply map_subseteq_spec. intros i c Hi. unfold write. rewrite lookup_alter_ne by (intros ->; congruence). by eapply lookup_weaken.
Qed.
Lemma reads_put h rs f k r v : reads_fields h rs f -> reads h r v -> reads_fields h (put_at k r rs) (set_field k v f).
Proof.
  intros Hf Hr. induction Hf as [|k' r' v' rs f Hr' Hf IH]; cbn [put_at set_field]; [by repeat constructor|].
  destruct (String.eqb k k'); by constructor.
Qed.

Lemma set_plain_fields h l : h !! l = None -> forall sets vals h' c f,
  (forall e, e ∈ sets -> split_char "." e.1 = [e.1]) -> reads_fields h sets vals -> h ⊆ h' -> h' !! l = Some c ->
  reads_fields h (c_fields c) f ->
  exists h'' c', fold_left (fun h e => setPath h l e.1 e.2) sets h' = h'' /\ h ⊆ h'' /\ h'' !! l = Some c' /\ c_array c' = c_array c /\
    reads_fields h (c_fields c') (set_all vals f).
Proof.
  intros Hl. induction sets as [|[k r] sets IH]; intros vals h' c f Hp Hv Hs Hc Hf; inversion Hv as [|k' r' v rs g Hr Hg]; subst; cbn [fold_left fst snd set_all].
  { by exists h', c. }
  assert (Hk : setPath h' l k r = write h' l k r).
  { unfold setPath. assert (E := Hp (k, r) ltac:(by left)). cbn [fst] in E. by rewrite E. }
  rewrite Hk.
  eapply (IH g (write h' l k r) {| c_array := c_array c; c_fields := put_at k r (c_fields c) |}).
  - intros e He. apply Hp. by right.
  - done.
  - by apply write_above.
  - unfold write. by rewrite lookup_alter_eq, Hc.
  - by apply reads_put.
Qed.

Lemma reads_is_object h r v : reads h r v -> is_object v = match r with Ref _ => true | Plain _ => false end.
Proof. by destruct 1. Qed.
Lemma reads_entries h l v : reads h (Ref l) v -> reads_fields h (own_refs h l) (entries v).
Proof. inversion 1 as [|? c f Hl Ha Hf|? c vs Hl Ha Hf]; subst; unfold own_refs; by rewrite Hl. Qed.

Lemma rewrite_body_reads h r v body b : reads_rule h r v -> plain_paths r -> reads h body b ->
  h ⊆ (rewrite_body r h body).1 /\ reads (rewrite_body r h body).1 (rewrite_body r h body).2 (rewrite_value v b).
Proof.
  intros (_ & _ & _ & _ & _ & _ & Hrep & Hset) Hp Hb. unfold rewrite_body, rewrite_value.
  set (body' := match replace_body_json r with Ref l => Ref l | Plain _ => body end).
  set (b' := if is_object (replace_body_json v) then replace_body_json v else b).
  assert (Hb' : reads h body' b').
  { subst body' b'. rewrite (reads_is_object _ _ _ Hrep). by destruct (replace_body_json r). }
  clearbody body' b'. clear Hb Hrep. unfold plain_paths in Hp. destruct (set_body_field r) as [sets|] eqn:Er, (set_body_field v) as [vals|]; try done.
  rewrite (reads_is_object _ _ _ Hb'). destruct body' as [w|l]; [done|]. cbn [default] in Hp.
  destruct (alloc h _) as [h1 l'] eqn:Ea. unfold alloc in Ea. injection Ea as <- <-.
  pose proof (new_loc_fresh h) as Hfresh. set (l' := new_loc h) in *.
  destruct (set_plain_fields h l' Hfresh sets vals (<[l' := {| c_array := false; c_fields := own_refs h l |}]> h) _ (entries b') Hp Hset
      (insert_subseteq _ _ _ Hfresh) (lookup_insert_eq _ _ _) (reads_entries _ _ _ Hb')) as (h'' & c' & -> & Hs & Hc' & Ha & Hf).
  cbn [fst snd]. split; [done|]. eapply reads_object; [done|done|]. by apply (reads_grow h h'').
Qed.

Lemma reads_rule_applies h r v phase path protocol : reads_rule h r v -> applies phase path protocol r = applies phase path protocol v.
Proof. intros (H1 & H2 & H3 & H4 & _). unfold applies. by rewrite H1, H2, H3, H4. Qed.
Lemma reads_rule_headers h r v hs : reads_rule h r v -> rewrite_headers r hs = rewrite_headers v hs.
Proof. intros (_ & _ & _ & _ & H5 & H6 & _). unfold rewrite_headers. by rewrite H5, H6. Qed.
Lemma reads_rule_grow h h' r v : h ⊆ h' -> reads_rule h r v -> reads_rule h' r v.
Proof.
  intros Hs (H1 & H2 & H3 & H4 & H5 & H6 & H7 & H8). pose proof (reads_grow h h' Hs) as (G1 & G2).
  split_and!; try done; [by apply G1|]. destruct (set_body_field r), (set_body_field v); try done. by apply G2.
Qed.

Lemma rules_refine phase path protocol rules vals : forall h body b hs,
  Forall2 (reads_rule h) rules vals -> Forall plain_paths rules -> reads h body b ->
  let st := fold_left (apply_rule phase path protocol) rules (h, body, hs) in
  let sv := fold_left (apply_value phase path protocol) vals (b, hs) in
  h ⊆ st.1.1 /\ reads st.1.1 st.1.2 sv.1 /\ st.2 = sv.2.
Proof.
  revert vals. induction rules as [|r rules IH]; intros vals h body b hs Hr Hp Hb; inversion Hr as [|? v ? vs Hv Hvs]; subst; cbn [fold_left]; [done|].
  apply Forall_cons in Hp as [Hp1 Hp].
  assert (E1 : apply_rule phase path protocol (h, body, hs) r =
    if applies phase path protocol r then ((rewrite_body r h body).1, (rewrite_body r h body).2, rewrite_headers r hs) else (h, body, hs)).
  { unfold apply_rule. cbn [fst snd]. by destruct (applies _ _ _ r), (rewrite_body r h body). }
  assert (E2 : apply_value phase path protocol (b, hs) v =
    if applies phase path protocol r then (rewrite_value v b, rewrite_headers r hs) else (b, hs)).
  { unfold apply_value. by rewrite (reads_rule_applies _ _ _ phase path protocol Hv), (reads_rule_headers _ _ _ hs Hv). }
  rewrite E1, E2. destruct (applies phase path protocol r); [|by apply IH].
  destruct (rewrite_body_reads h r v body b Hv Hp1 Hb) as (Hs & Hb').
  destruct (IH vs (rewrite_body r h body).1 (rewrite_body r h body).2 (rewrite_value v b) (rewrite_headers r hs)) as (G1 & G2 & G3); [|done|done|].
  { eapply Forall2_impl; [exact Hvs|]. intros r1 v1. by apply reads_rule_grow. }
  split_and!; [by etransitivity|done|done].
Qed.

(** C26: With rules whose paths have no dot the pass is the function on values, and leaves every object it was
    given as it was: the document of the client, and those of the configuration. *)
Theorem intercept_refines_values rules vals phase h ctx b :
  Forall2 (reads_rule h) rules vals -> Forall plain_paths rules -> reads h (x_body ctx) b ->
  let '(h', ctx') := applyIntercept rules phase h ctx in
  let spec := intercept_values vals phase {| x_path := x_path ctx; x_protocol := x_protocol ctx; x_body := b; x_headers := x_headers ctx |} in
  h ⊆ h' /\ reads h' (x_body ctx') (x_body spec) /\ x_headers ctx' = x_headers spec.
Proof.
  intros Hr Hp Hb. unfold applyIntercept, intercept_values. cbn [x_path x_protocol x_body x_headers].
  pose proof (rules_refine phase (x_path ctx) (x_protocol ctx) rules vals h (x_body ctx) b (x_headers ctx) Hr Hp Hb) as H.
  destruct (fold_left (apply_rule _ _ _) rules _) as [[h' body'] hs'], (fold_left (apply_value _ _ _) vals _) as [b' hs'']. exact H.
Qed.

(** ** A rule that remembers *)

Definition any_request (replace : ref) (sets : option (list (string * ref))) (prefix : string) : rule ref :=
  {| r_enabled := JBool true; r_phase := "before_upstream"; path_prefix := prefix; on_protocol := ""; set_header := [("X-Tag", JStr "1")];
     remove_header := [JStr "Cookie"]; replace_body_json := replace; set_body_field := sets |}.
Definition object_cell (f : list (string * ref)) : cell := {| c_array := false; c_fields := f |}.
Notation request_on path body := {| x_path := path; x_protocol := "anthropic.messages"; x_body := body; x_headers := [("cookie", JStr "c")] |}.

(** The document of the configuration is 1, its metadata 2; the body of a client is 3, its metadata 4. *)
Definition sample_heap : heap :=
  {[ 1%positive := object_cell [("model", Plain (JStr "m")); ("metadata", Ref 2)]; 2%positive := object_cell [];
     3%positive := object_cell [("model", Plain (JStr "c")); ("metadata", Ref 4)]; 4%positive := object_cell [("a", Plain (JStr "b"))] ]}.

Lemma intercept_refines_values_witness :
  let rules := [any_request (Ref 1) (Some [("stream", Plain (JBool true))]) ""] in
  let body := JObj [("model", JStr "c"); ("metadata", JObj [("a", JStr "b")])] in
  let doc := JObj [("model", JStr "m"); ("metadata", JObj [])] in
  exists vals,
  Forall2 (reads_rule sample_heap) rules vals /\ Forall plain_paths rules /\ reads sample_heap (Ref 3) body /\
  let '(h', ctx') := applyIntercept rules "before_upstream" sample_heap (request_on "/v1" (Ref 3)) in
  reads h' (x_body ctx') (JObj [("model", JStr "m"); ("metadata", JObj []); ("stream", JBool true)]).
Proof.
  set (rules := [any_request (Ref 1) (Some [("stream", Plain (JBool true))]) ""]).
  set (vals := [{| r_enabled := JBool true; r_phase := "before_upstream"; path_prefix := ""; on_protocol := ""; set_header := [("X-Tag", JStr "1")];
     remove_header := [JStr "Cookie"]; replace_body_json := JObj [("model", JStr "m"); ("metadata", JObj [])];
     set_body_field := Some [("stream", JBool true)] |}]).
  assert (Hp : Forall plain_paths rules).
  { repeat constructor. intros e He. apply list_elem_of_singleton in He as ->. reflexivity. }
  assert (Hr : Forall2 (reads_rule sample_heap) rules vals).
  { constructor; [|constructor]. split_and!; try reflexivity.
    - eapply reads_object; [reflexivity|reflexivity|]. constructor; [by constructor|]. constructor; [|constructor].
      eapply reads_object; [reflexivity|reflexivity|constructor].
    - constructor; [by constructor|constructor]. }
  assert (Hb : reads sample_heap (Ref 3) (JObj [("model", JStr "c"); ("metadata", JObj [("a", JStr "b")])])).
  { eapply reads_object; [reflexivity|reflexivity|]. constructor; [by constructor|]. constructor; [|constructor].
    eapply reads_object; [reflexivity|reflexivity|]. constructor; [by constructor|constructor]. }
  exists vals. split_and!; [done..|].
  pose proof (intercept_refines_values rules vals "before_upstream" sample_heap (request_on "/v1" (Ref 3)) _ Hr Hp Hb) as H.
  destruct (applyIntercept rules _ _ _) as [h' ctx']. exact (proj1 (proj2 H)).
Defined.

(** A rule for all requests puts the document in the place of the body, one for [/a] sets [metadata.tag] on it:
    after a request to [/a] the document of the configuration has the tag, and every later request is sent it. *)
Definition tagging : list (rule ref) :=
  [any_request (Ref 1) None ""; any_request (Plain JUndef) (Some [("metadata.tag", Plain (JStr "a"))]) "/a"].
Example rule_remembers :
  let sent path := applyIntercept tagging "before_upstream" sample_heap (request_on path (Ref 3)) in
  read_field (sent "/b").1 2 "tag" = Plain JUndef /\
  read_field (applyIntercept tagging "before_upstream" (sent "/a").1 (request_on "/b" (Ref 3))).1 2 "tag" = Plain (JStr "a") /\
  x_body (applyIntercept tagging "before_upstream" (sent "/a").1 (request_on "/b" (Ref 3))).2 = Ref 1.
Proof. vm_compute. repeat split. Qed.

(** The same path writes into the document of the client, which is logged and looked up as it came. *)
Example client_changed :
  let set_a := [any_request (Plain JUndef) (Some [("metadata.a", Plain (JStr "x"))]) ""] in
  read_field (applyIntercept set_a "before_upstream" sample_heap (request_on "/v1" (Ref 3))).1 4 "a" = Plain (JStr "x").
Proof. vm_compute. reflexivity. Qed.
