(* ===== verification/Keepalive.v ===== *)
(** * Keeping a stream alive (src/src/lib/protocol/stream-keepalive.mjs)

    Between the lines of a slow stream the gateway writes to the client: a ping, a comment, or for a new
    enough CLI an empty delta of the block that is open.  A keepalive is a state that is given lines and
    ticks of its timer.  A block or delta that is named after a member of Object.prototype is not modelled. *)

From Stdlib Require Import Sorted.
From stdpp Require Import gmap strings sorting.
From S2P Require Import Prelude.
From S2P Require Import JsValue.
From S2P Require Import JsText.
From S2P Require Import JsJson.
From S2P Require Import JsonParse.
#[local] Open Scope string_scope.
#[local] Open Scope list_scope.
#[local] Open Scope js_scope.

Definition CLAUDE_CODE_NOOP_DELTA_KEEPALIVE_MIN_VERSION : string := "2.1.193".
Definition DEFAULT_STREAM_KEEPALIVE_MS : Z := 10000.

Definition DELTA_FOR_BLOCK (block : string) : string :=
  if String.eqb block "text" then "text_delta" else if String.eqb block "tool_use" then "input_json_delta"
  else if String.eqb block "thinking" then "thinking_delta" else "".
Definition FIELD_FOR_DELTA (delta : string) : option string :=
  if String.eqb delta "text_delta" then Some "text" else if String.eqb delta "input_json_delta" then Some "partial_json"
  else if String.eqb delta "thinking_delta" then Some "thinking" else None.

(** ** Versions *)

(** [parseInt(part, 10) || 0] *)
Definition int_or_0 (part : string) : Z :=
  let '(negative, s) := take_sign (trim_start part) in
  let '(n, _, _) := take_digits 0 0 s in if negative then (- n)%Z else n.
Definition version_part (v : jsval) (i : nat) : Z := nth i (map int_or_0 (split_char "." (str_or_empty v))) 0%Z.
Definition compareSemver (a b : jsval) : Z :=
  let delta i := (version_part a i - version_part b i)%Z in
  if Z.eqb (delta 0%nat) 0 then if Z.eqb (delta 1%nat) 0 then delta 2%nat else delta 1%nat else delta 0%nat.

(** The digits at the start of a text, at least one, and the rest. *)
Definition digits_then (s : string) : option (string * string) :=
  let '(_, n, rest) := take_digits 0 0 s in if (n =? 0)%nat then None else Some (take_chars n s, rest).
Definition dotted_version (s : string) : option string :=
  match digits_then s with
  | Some (a, String "." s) =>
    match digits_then s with
    | Some (b, String "." s) => match digits_then s with Some (c, _) => Some (a ++ "." ++ b ++ "." ++ c)%string | None => None end
    | _ => None
    end
  | _ => None
  end.
(** The first match of [/claude-cli\/(\d+\.\d+\.\d+)/i]. *)
Fixpoint extract_version (s : string) : string :=
  match (if starts_with "claude-cli/" (to_lower s) then dotted_version (drop_chars 11 s) else None) with
  | Some v => v
  | None => match s with String _ s => extract_version s | EmptyString => "" end
  end.
Definition extractCliVersion (ua : jsval) : string := extract_version (str_or_empty ua).
Definition shouldUseClaudeCodeNoopDeltaKeepalive (ua : jsval) : bool :=
  let version := extractCliVersion ua in
  nonempty version && (0 <=? compareSemver (JStr version) (JStr CLAUDE_CODE_NOOP_DELTA_KEEPALIVE_MIN_VERSION))%Z.

Example versions_ex :
  map (fun ua => (extractCliVersion (JStr ua), shouldUseClaudeCodeNoopDeltaKeepalive (JStr ua)))
    ["claude-cli/2.1.193 (external)"; "x Claude-CLI/2.1.20"; "claude-cli/2.10.3"; "claude-cli/2.1"; "curl/8"] =
  [("2.1.193", true); ("2.1.20", false); ("2.10.3", true); ("", false); ("", false)].
Proof. vm_compute. reflexivity. Qed.

(** ** What is written *)

Definition keepaliveDeltaTypeForContentBlock (blockType : jsval) : string := DELTA_FOR_BLOCK (str_or_empty blockType).
Definition sse_frame (event : string) (data : jsval) : string :=
  ("event: " ++ event ++ newline ++ "data: " ++ default "" (stringify data) ++ newline ++ newline)%string.
Definition buildPingKeepalive : string := sse_frame "ping" (JObj [("type", JStr "ping")]).
Definition buildCommentKeepalive : string := (": keepalive" ++ newline ++ newline)%string.
(** An index is a number as [Number(event.index)] gives it. *)
Definition block_number (index : num) : bool := is_integer index && num_leb (Fin 0) index.
Definition buildClaudeCodeNoopDeltaKeepalive (index : num) (deltaType : string) : string :=
  match FIELD_FOR_DELTA deltaType with
  | Some field =>
    if block_number index
    then sse_frame "content_block_delta" (JObj [("type", JStr "content_block_delta"); ("index", JNum index);
                                                ("delta", JObj [("type", JStr deltaType); (field, JStr "")])])
    else ""
  | None => ""
  end.

(** ** What is seen of the stream *)

Record seen := { blockIndex : num; deltaType : string; s_done : bool }.
Definition nothing_seen : seen := {| blockIndex := num_of_Z (-1); deltaType := ""; s_done := false |}.
Definition no_block (s : seen) : seen := {| blockIndex := num_of_Z (-1); deltaType := ""; s_done := s_done s |}.
Definition in_block (s : seen) (index : num) (delta : string) : seen := {| blockIndex := index; deltaType := delta; s_done := s_done s |}.
Definition finished (s : seen) : seen := {| blockIndex := blockIndex s; deltaType := deltaType s; s_done := true |}.
Definition ends_message (event : jsval) : bool := mem (str_or_empty (event?."type")) ["message_stop"; "error"].

Definition observeKeepaliveEvent (s : seen) (event : jsval) : seen :=
  let type := str_or_empty (event?."type") in
  let index := to_number (event?."index") in
  if String.eqb type "content_block_start" then
    let delta := keepaliveDeltaTypeForContentBlock (event?."content_block"?."type") in
    if is_integer index && nonempty delta then in_block s index delta else no_block s
  else if String.eqb type "content_block_delta" then
    let delta := str_or_empty (event?."delta"?."type") in
    if is_integer index && bool_decide (is_Some (FIELD_FOR_DELTA delta)) then in_block s index delta else s
  else if String.eqb type "content_block_stop" && is_integer index && num_eqb index (blockIndex s) then no_block s
  else if ends_message event then finished (no_block s)
  else s.

Definition parseSseDataLine (line : string) : option jsval :=
  if negb (starts_with "data:" line) then None
  else
    let piece := trim (drop_chars 5 line) in
    if negb (nonempty piece) || String.eqb piece "[DONE]" then None
    else match json_parse piece with Some event => if is_object event then Some event else None | None => None end.

Definition resolveKeepaliveChunk (protocol : string) (userAgent : jsval) (s : seen) : string :=
  if negb (String.eqb protocol "anthropic.messages") then buildCommentKeepalive
  else
    let block := buildClaudeCodeNoopDeltaKeepalive (blockIndex s) (deltaType s) in
    if shouldUseClaudeCodeNoopDeltaKeepalive userAgent && block_number (blockIndex s) && nonempty (deltaType s) && nonempty block
    then block else buildPingKeepalive.

(** ** The keepalive of a stream *)

Record keepalive := { k_seen : seen; lastWriteAt : Z; armed : bool; timer : bool }.
Definition createDownstreamKeepalive : keepalive := {| k_seen := nothing_seen; lastWriteAt := 0; armed := false; timer := false |}.

Section Keepalive.
Context (intervalMs : jsval) (userAgent : jsval) (protocol : string).

Definition interval : num := num_max (Fin 0) (num_or_zero intervalMs).
Definition idle : bool := num_leb interval (Fin 0).
(** How often the timer fires. *)
Definition tick_ms : num := num_min interval (num_of_Z 1000).

Definition start (k : keepalive) : keepalive :=
  if timer k || idle then k else {| k_seen := k_seen k; lastWriteAt := lastWriteAt k; armed := armed k; timer := true |}.
Definition stop (k : keepalive) : keepalive :=
  {| k_seen := finished (k_seen k); lastWriteAt := lastWriteAt k; armed := armed k; timer := false |}.
Definition arm (k : keepalive) (now : Z) : keepalive :=
  if s_done (k_seen k) || idle then k
  else start {| k_seen := k_seen k; lastWriteAt := now; armed := true; timer := timer k |}.
Definition observeLine (k : keepalive) (now : Z) (line : string) : keepalive :=
  let k := {| k_seen := k_seen k; lastWriteAt := now; armed := true; timer := timer k |} in
  match parseSseDataLine line with
  | Some event =>
    let k := {| k_seen := observeKeepaliveEvent (k_seen k) event; lastWriteAt := lastWriteAt k; armed := armed k; timer := timer k |} in
    if s_done (k_seen k) then stop k else k
  | None => k
  end.
(** [fails]: the write throws. *)
Definition beat (k : keepalive) (now : Z) (fails : bool) : keepalive * option string :=
  if negb (armed k) || s_done (k_seen k) || idle then (k, None)
  else if num_ltb (num_of_Z (now - lastWriteAt k)) interval then (k, None)
  else if fails then (stop k, None)
  else ({| k_seen := k_seen k; lastWriteAt := now; armed := armed k; timer := timer k |},
        Some (resolveKeepaliveChunk protocol userAgent (k_seen k))).

(** What happens to it: a line of the stream, or its timer. *)
Inductive event := Line (line : string) | Tick (fails : bool).
Definition on_event (k : keepalive) (e : Z * event) : keepalive * option string :=
  match e.2 with
  | Line line => (observeLine k e.1 line, None)
  | Tick fails => if timer k then beat k e.1 fails else (k, None)
  end.
Fixpoint run (k : keepalive) (l : list (Z * event)) : list (option string) :=
  match l with [] => [] | e :: l => let '(k, w) := on_event k e in w :: run k l end.

(** ** When it writes *)

Definition after (k : keepalive) (l : list (Z * event)) : keepalive := fold_left (fun k e => (on_event k e).1) l k.
Definition active (k : keepalive) (e : Z * event) : Prop := match e.2 with Line _ => True | Tick _ => (on_event k e).2 <> None end.
Definition line_ends (e : event) : bool :=
  match e with Line line => match parseSseDataLine line with Some ev => ends_message ev | None => false end | Tick _ => false end.

Lemma after_snoc k l e : after k (l ++ [e]) = (on_event (after k l) e).1.
Proof. unfold after. by rewrite fold_left_app. Qed.

Lemma observe_done s ev : s_done (observeKeepaliveEvent s ev) = s_done s || ends_message ev.
Proof.
  unfold observeKeepaliveEvent, ends_message. set (t := str_or_empty (ev?."type")).
  destruct (String.eqb t "content_block_start") eqn:E1.
  { apply String.eqb_eq in E1. rewrite E1. change (mem "content_block_start" _) with false. rewrite orb_false_r. by destruct (is_integer _ && nonempty _). }
  destruct (String.eqb t "content_block_delta") eqn:E2.
  { apply String.eqb_eq in E2. rewrite E2. change (mem "content_block_delta" _) with false. rewrite orb_false_r. by destruct (is_integer _ && bool_decide _). }
  destruct (String.eqb t "content_block_stop") eqn:E3; cbn [andb].
  { apply String.eqb_eq in E3. rewrite E3. change (mem "content_block_stop" _) with false. rewrite orb_false_r. by destruct (is_integer _ && num_eqb _ _). }
  destruct (mem t ["message_stop"; "error"]); cbn [finished no_block s_done]; by rewrite ?orb_true_r, ?orb_false_r.
Qed.

Lemma observeLine_spec k now line : armed (observeLine k now line) = true /\ lastWriteAt (observeLine k now line) = now /\
  s_done (k_seen (observeLine k now line)) = s_done (k_seen k) || match parseSseDataLine line with Some ev => ends_message ev | None => false end.
Proof.
  unfold observeLine. destruct (parseSseDataLine line) as [ev|]; cbn [k_seen armed lastWriteAt]; [|by rewrite orb_false_r].
  rewrite <- (observe_done (k_seen k) ev). destruct (s_done (observeKeepaliveEvent (k_seen k) ev)) eqn:E; cbn [stop k_seen armed lastWriteAt s_done finished]; [done|by rewrite E].
Qed.

Lemma beat_spec k now fails : let r := beat k now fails in
  armed r.1 = armed k /\ (s_done (k_seen k) = true -> s_done (k_seen r.1) = true) /\
  match r.2 with
  | Some w => armed k = true /\ s_done (k_seen k) = false /\ num_ltb (num_of_Z (now - lastWriteAt k)) interval = false /\ lastWriteAt r.1 = now
  | None => lastWriteAt r.1 = lastWriteAt k
  end.
Proof.
  unfold beat. destruct (armed k) eqn:Ea, (s_done (k_seen k)) eqn:Ed; cbn [negb orb]; try by split_and!.
  destruct idle; [by split_and!|]. destruct (num_ltb _ _) eqn:El; [by split_and!|]. by destruct fails.
Qed.

(** The state of a keepalive knows the history of its stream. *)
Definition knows (k : keepalive) (l : list (Z * event)) : Prop :=
  let now := after k l in
  (armed now = true -> exists e line, e ∈ l /\ e.2 = Line line) /\
  (s_done (k_seen now) = false -> forall e, e ∈ l -> line_ends e.2 = false) /\
  (forall l1 e l2, l = l1 ++ e :: l2 -> active (after k l1) e -> (e.1 <= lastWriteAt now)%Z).

Lemma knows_snoc k l e : StronglySorted Z.le (map fst (l ++ [e])) -> knows k l -> (forall e', e' ∈ l -> (e'.1 <= e.1)%Z) ->
  (lastWriteAt (on_event (after k l) e).1 = e.1 \/
   lastWriteAt (on_event (after k l) e).1 = lastWriteAt (after k l) /\ ~ active (after k l) e) ->
  (armed (on_event (after k l) e).1 = true -> armed (after k l) = true \/ exists line, e.2 = Line line) ->
  (s_done (k_seen (on_event (after k l) e).1) = false -> s_done (k_seen (after k l)) = false /\ line_ends e.2 = false) ->
  knows k (l ++ [e]).
Proof.
  intros Hs (H1 & H2 & H3) Hle Hw Ha Hd. unfold knows. rewrite after_snoc. split_and!.
  - intros H. destruct (Ha H) as [Hb|(line & Hl)].
    + destruct (H1 Hb) as (e' & line & Hin & He). exists e', line. split; [|done]. apply elem_of_app. by left.
    + exists e, line. split; [|done]. apply elem_of_app. right. by left.
  - intros H e' He'. destruct (Hd H) as (Hd1 & Hd2). apply elem_of_app in He' as [He'|He']; [by apply H2|].
    apply list_elem_of_singleton in He' as ->. done.
  - intros l1 e' l2 El Hact. destruct l2 as [|a l2] using rev_ind.
    + apply app_inj_tail in El as [-> ->]. destruct Hw as [->|[_ Hn]]; [lia|done].
    + rewrite app_comm_cons, app_assoc in El. apply app_inj_tail in El as [-> ->].
      destruct Hw as [->|[-> _]]; [|by eapply H3].
      apply Hle. apply elem_of_app. right. by left.
Qed.

Lemma on_event_line k now line : on_event k (now, Line line) = (observeLine k now line, None).
Proof. done. Qed.

Lemma knows_history l : StronglySorted Z.le (map fst l) -> knows (start createDownstreamKeepalive) l.
Proof.
  induction l as [|e l IH] using rev_ind; intros Hs.
  - unfold knows, after, start. cbn [fold_left]. split_and!; [by destruct (timer _ || idle)| |].
    + intros _ e He. by apply not_elem_of_nil in He.
    + intros [|] x y; discriminate.
  - pose proof Hs as Hs'. rewrite map_app in Hs'. apply StronglySorted_app in Hs' as (Hle & Hs1 & _).
    pose proof (IH Hs1) as Hk. set (k := after (start createDownstreamKeepalive) l) in *.
    assert (Hmax : forall e', e' ∈ l -> (e'.1 <= e.1)%Z).
    { intros e' He'. apply Hle; [|by left]. apply list_elem_of_fmap. by exists e'. }
    destruct e as [now [line|fails]].
    + destruct (observeLine_spec k now line) as (E1 & E2 & E3).
      apply knows_snoc; rewrite ?on_event_line; fold k; cbn [fst snd]; try done; [by left|by right; exists line|].
      rewrite E3. intros H. apply orb_false_iff in H as [? ?]. done.
    + destruct (beat_spec k now fails) as (E1 & E2 & E3).
      apply knows_snoc; try done; fold k; unfold on_event; cbn [fst snd].
      * destruct (timer k) eqn:Et; [|right; split; [done|]; unfold active, on_event; cbn [snd]; rewrite Et; intros Hn; by apply Hn].
        destruct (beat k now fails).2 as [w|] eqn:Ew; [left; by destruct E3 as (_ & _ & _ & ->)|].
        right. split; [done|]. unfold active, on_event. cbn [fst snd]. rewrite Et, Ew. intros Hn. by apply Hn.
      * destruct (timer k); [rewrite E1|]; by left.
      * intros H. split; [|done]. destruct (timer k); [|done]. destruct (s_done (k_seen k)) eqn:Ed; [|done]. rewrite E2 in H; done.
Qed.

(** A keepalive is written only to a stream that has begun (so that a request of which nothing was shown
    can still be tried again, or refused with a status) and has not ended, and only when nothing was
    written for the whole interval. *)
Theorem keepalive_when_idle l now fails w :
  StronglySorted Z.le (map fst (l ++ [(now, Tick fails)])) ->
  (on_event (after (start createDownstreamKeepalive) l) (now, Tick fails)).2 = Some w ->
  (exists e line, e ∈ l /\ e.2 = Line line) /\
  (forall e, e ∈ l -> line_ends e.2 = false) /\
  (forall l1 e l2, l = l1 ++ e :: l2 -> active (after (start createDownstreamKeepalive) l1) e ->
     num_ltb (num_of_Z (now - e.1)) interval = false).
Proof.
  intros Hs Hw. pose proof Hs as Hs'. rewrite map_app in Hs'. apply StronglySorted_app_1_l in Hs'.
  destruct (knows_history l Hs') as (H1 & H2 & H3). set (k := after (start createDownstreamKeepalive) l) in *.
  unfold on_event in Hw. cbn [fst snd] in Hw. destruct (timer k); [|done].
  destruct (beat_spec k now fails) as (_ & _ & E). rewrite Hw in E. destruct E as (Ha & Hd & Hi & _).
  split_and!; [by apply H1|by apply H2|]. intros l1 e l2 El Hact. specialize (H3 l1 e l2 El Hact).
  destruct (num_ltb (num_of_Z (now - e.1)) interval) eqn:El'; [|done].
  rewrite (num_leb_ltb_trans (num_of_Z (now - lastWriteAt k)) (num_of_Z (now - e.1)) interval) in Hi; [done| |done].
  apply num_leb_Z. lia.
Qed.
End Keepalive.

Notation official := (JStr "claude-cli/2.1.200").
Definition slow_stream : list (Z * event) :=
  [(0, Tick false); (20000, Line "event: content_block_start");
   (20001, Line (("data: " ++ default "" (stringify (JObj [("type", JStr "content_block_start"); ("index", jint 0); ("content_block", JObj [("type", JStr "text")])])))%string));
   (25000, Tick false)]%Z.

Lemma keepalive_when_idle_witness :
  let k := after (jint 10000) official "anthropic.messages" (start (jint 10000) createDownstreamKeepalive) in
  (on_event (jint 10000) official "anthropic.messages" (k slow_stream) (30001%Z, Tick false)).2 =
    Some (buildClaudeCodeNoopDeltaKeepalive (Fin 0) "text_delta") /\
  (exists e line, e ∈ slow_stream /\ e.2 = Line line) /\ (forall e, e ∈ slow_stream -> line_ends e.2 = false).
Proof.
  cbv zeta.
  assert (H : (on_event (jint 10000) official "anthropic.messages" (after (jint 10000) official "anthropic.messages" (start (jint 10000) createDownstreamKeepalive) slow_stream)
    (30001%Z, Tick false)).2 = Some (buildClaudeCodeNoopDeltaKeepalive (Fin 0) "text_delta")) by (vm_compute; reflexivity).
  assert (Hs : StronglySorted Z.le (map fst (slow_stream ++ [(30001%Z, Tick false)]))).
  { unfold slow_stream. cbn [map app fst]. repeat constructor; lia. }
  destruct (keepalive_when_idle (jint 10000) official "anthropic.messages" slow_stream 30001 false _ Hs H) as (H1 & H2 & _).
  split_and!; [exact H|exact H1|exact H2].
Defined.

(** A timer that fires between the two lines of an event writes its frame into the event: the client reads a
    ping, and the data of the delta without its name. *)
Example ping_inside_frame :
  run (jint 10000) (JStr "sdk") "anthropic.messages" (start (jint 10000) createDownstreamKeepalive)
    [(0, Line "event: content_block_delta"); (10000, Tick false); (10001, Line "data: {}")]%Z = [None; Some buildPingKeepalive; None].
Proof. vm_compute. reflexivity. Qed.
