(* ===== verification/ApiOpenai.v ===== *)
(** * Requests for endpoints that speak OpenAI (src/src/lib/pool/api-openai.mjs)

    A Messages request as a chat request and as a Responses request, an answer of chat completions as a
    message, collected or streamed.  The messages of a request are an array of objects. *)

From stdpp Require Import gmap strings.
From S2P Require Import Prelude.
From S2P Require Import JsValue.
From S2P Require Import JsText.
From S2P Require Import JsJson.
From S2P Require Import JsonParse.
From S2P Require Import Streams.
#[local] Open Scope string_scope.
#[local] Open Scope list_scope.
#[local] Open Scope js_scope.

(** ** Requests *)

Definition text_of_json (v : jsval) : string := default "" (stringify v).

Definition flattenSystem (system : jsval) : string :=
  if negb (truthy system) then ""
  else match system with
       | JStr s => s
       | JArr l => join newline (map to_string (List.filter truthy (map (fun b => if is_string b then b else b?."text" ||| JStr "") l)))
       | v => to_string v
       end.

Record parts := { p_text : string; p_calls : list jsval; p_results : list jsval }.
Definition tool_call (b : jsval) : jsval :=
  JObj [("id", b?."id"); ("type", JStr "function");
        ("function", JObj [("name", b?."name"); ("arguments", JStr (text_of_json (b?."input" ||| JObj [])))])].
Definition tool_result (b : jsval) : jsval :=
  JObj [("role", JStr "tool"); ("tool_call_id", b?."tool_use_id");
        ("content", match b?."content" with JStr s => JStr s | raw => JStr (text_of_json (raw ?? JStr "")) end)].
Definition blocks_of_type (t : string) (l : list jsval) : list jsval := List.filter (fun b => is_object b && is_str (b?."type") t) l.
Definition contentToOpenAI (content : jsval) : parts :=
  match content with
  | JStr s => {| p_text := s; p_calls := []; p_results := [] |}
  | _ =>
    let l := arr_of content in
    {| p_text := join newline (map (fun b => to_string (b?."text" ||| JStr "")) (blocks_of_type "text" l));
       p_calls := map tool_call (blocks_of_type "tool_use" l); p_results := map tool_result (blocks_of_type "tool_result" l) |}
  end.

Definition open_schema : jsval := JObj [("type", JStr "object"); ("properties", JObj [])].
Definition role_of (msg : jsval) : string :=
  if is_str (msg?."role") "assistant" then "assistant" else if is_str (msg?."role") "system" then "system" else "user".
Definition chat_messages (msg : jsval) : list jsval :=
  let role := role_of msg in
  let p := contentToOpenAI (msg?."content") in
  p_results p ++
  match p_calls p with
  | _ :: _ =>
    if String.eqb role "assistant"
    then [JObj [("role", JStr "assistant"); ("content", JStr (p_text p) ||| JNull); ("tool_calls", JArr (p_calls p))]]
    else if nonempty (p_text p) || String.eqb role "user" then [JObj [("role", JStr role); ("content", JStr (p_text p))]] else []
  | [] => if nonempty (p_text p) || String.eqb role "user" then [JObj [("role", JStr role); ("content", JStr (p_text p))]] else []
  end.
Definition function_tool (t : jsval) : jsval :=
  JObj [("type", JStr "function");
        ("function", JObj [("name", t?."name"); ("description", t?."description" ||| JStr ""); ("parameters", t?."input_schema" ||| open_schema)])].
Definition copy_truthy (v : jsval) (k : string) (out : fields) : fields := if truthy v then set_field k v out else out.
Definition copy_given (v : jsval) (k : string) (out : fields) : fields := if is_nullish v then out else set_field k v out.

Definition claudeToOpenAIChatRequest (claude : jsval) : jsval :=
  let system := flattenSystem (claude?."system") in
  let messages := (if nonempty system then [JObj [("role", JStr "system"); ("content", JStr system)]] else [])
                  ++ flat_map chat_messages (arr_of (claude?."messages")) in
  let out := [("model", claude?."model"); ("messages", JArr messages); ("stream", JBool true)] in
  let out := copy_given (claude?."top_p") "top_p" (copy_given (claude?."temperature") "temperature" (copy_truthy (claude?."max_tokens") "max_tokens" out)) in
  JObj match claude?."tools" with
       | JArr ((_ :: _) as l) => set_field "tools" (JArr (map function_tool (List.filter (fun t => truthy (t?."name")) l))) out
       | _ => out
       end.

Definition input_message (message : jsval) : jsval :=
  let text := match message?."content" with JStr s => s | _ => "" end in
  let item role part := JObj [("type", JStr "message"); ("role", JStr role); ("content", JArr [JObj [("type", JStr part); ("text", JStr text)]])] in
  if is_str (message?."role") "system" then item "developer" "input_text"
  else if is_str (message?."role") "assistant" then item "assistant" "output_text" else item "user" "input_text".
Definition flat_tool (tool : jsval) : jsval :=
  if is_str (tool?."type") "function" && truthy (tool?."function")
  then let f := tool?."function" in
       JObj [("type", JStr "function"); ("name", f?."name"); ("description", f?."description" ||| JStr ""); ("parameters", f?."parameters" ||| open_schema)]
  else tool.
Definition claudeToOpenAIResponsesRequest (claude : jsval) : jsval :=
  let chat := claudeToOpenAIChatRequest claude in
  let out := [("model", chat?."model"); ("input", JArr (map input_message (arr_of (chat?."messages")))); ("stream", JBool true); ("store", JBool false)] in
  let out := match chat?."tools" with JArr ((_ :: _) as l) => set_field "tools" (JArr (map flat_tool l)) out | _ => out end in
  JObj (copy_given (chat?."top_p") "top_p" (copy_given (chat?."temperature") "temperature" (copy_truthy (chat?."max_tokens") "max_output_tokens" out))).

(** ** Answers *)

Definition call_input (arguments : jsval) : jsval :=
  match json_parse (to_string (arguments ||| JStr "{}")) with Some v => v | None => JObj [] end.
Definition stop_reason (finish : jsval) : string :=
  if is_str finish "tool_calls" then "tool_use" else if is_str finish "length" then "max_tokens" else "end_turn".
Definition openaiChatToClaudeMessage (chat : jsval) : jsval :=
  let choice := get_at (chat?."choices") 0 ||| JObj [] in
  let msg := choice?."message" ||| JObj [] in
  let content :=
    (if truthy (msg?."reasoning_content") then [JObj [("type", JStr "thinking"); ("thinking", msg?."reasoning_content")]] else []) ++
    (if truthy (msg?."content") then [JObj [("type", JStr "text"); ("text", msg?."content")]] else []) ++
    map (fun tc => JObj [("type", JStr "tool_use"); ("id", tc?."id"); ("name", tc?."function"?."name"); ("input", call_input (tc?."function"?."arguments"))])
        (arr_of (msg?."tool_calls")) in
  JObj [("type", JStr "message"); ("id", chat?."id"); ("role", JStr "assistant"); ("model", chat?."model"); ("content", JArr content);
        ("stop_reason", JStr (stop_reason (choice?."finish_reason")));
        ("usage", JObj [("input_tokens", chat?."usage"?."prompt_tokens" ||| jint 0); ("output_tokens", chat?."usage"?."completion_tokens" ||| jint 0)])].

Record assembler := { a_id : jsval; a_model : jsval; a_text : jsval; a_reasoning : jsval; a_finish : jsval; a_usage : jsval; a_done : bool }.
Definition createOpenAIChatAssembler : assembler :=
  {| a_id := JStr ""; a_model := JStr ""; a_text := JStr ""; a_reasoning := JStr ""; a_finish := JStr ""; a_usage := JNull; a_done := false |}.
Definition append_if (v text : jsval) : jsval := if truthy v then js_add text v else text.
(** What the line gives: nothing, the end, or a delta; [None]: it throws, on a line that holds [null]. *)
Definition applyOpenAIChatSSELine (line : string) (st : assembler) : option (jsval * assembler) :=
  let raw := trim line in
  if negb (starts_with "data:" raw) then Some (JNull, st)
  else
    let data := trim (drop_chars 5 raw) in
    if negb (nonempty data) || String.eqb data "[DONE]"
    then Some (JObj [("done", JBool true)],
               {| a_id := a_id st; a_model := a_model st; a_text := a_text st; a_reasoning := a_reasoning st; a_finish := a_finish st;
                  a_usage := a_usage st; a_done := true |})
    else
      match json_parse data with
      | None => Some (JNull, st)
      | Some JNull => None
      | Some evt =>
        let choice := get_at (evt?."choices") 0 in
        let delta := choice?."delta" ||| JObj [] in
        Some (delta, {| a_id := evt?."id" ||| a_id st; a_model := evt?."model" ||| a_model st; a_text := append_if (delta?."content") (a_text st);
                        a_reasoning := append_if (delta?."reasoning_content") (a_reasoning st);
                        a_finish := choice?."finish_reason" ||| a_finish st; a_usage := evt?."usage" ||| a_usage st; a_done := a_done st |})
      end.
Definition openAIAssemblerToClaude (st : assembler) : jsval :=
  openaiChatToClaudeMessage (JObj [("id", a_id st); ("model", a_model st);
    ("choices", JArr [JObj [("message", JObj [("content", a_text st ||| JNull); ("reasoning_content", a_reasoning st ||| JUndef)]);
                            ("finish_reason", a_finish st ||| JStr "stop")]]); ("usage", a_usage st)]).

Record flags := { f_started : bool; f_closed : bool }.
Definition claudeSSEFromOpenAIDelta (delta : jsval) (st : assembler) (f : flags) : list jsval * flags :=
  let opening :=
    if f_started f then []
    else [JObj [("type", JStr "message_start");
                ("message", JObj [("id", a_id st ||| JStr "msg_api"); ("type", JStr "message"); ("role", JStr "assistant"); ("content", JArr [])])];
          JObj [("type", JStr "content_block_start"); ("index", jint 0); ("content_block", JObj [("type", JStr "text"); ("text", JStr "")])]] in
  let text :=
    if truthy (delta?."content")
    then [JObj [("type", JStr "content_block_delta"); ("index", jint 0); ("delta", JObj [("type", JStr "text_delta"); ("text", delta?."content")])]]
    else [] in
  let ends := a_done st || truthy (a_finish st) in
  let closing :=
    if ends && negb (f_closed f)
    then [JObj [("type", JStr "content_block_stop"); ("index", jint 0)];
          JObj [("type", JStr "message_delta"); ("delta", JObj [("stop_reason", JStr (stop_reason (a_finish st)))])];
          JObj [("type", JStr "message_stop")]]
    else [] in
  (opening ++ text ++ closing, {| f_started := true; f_closed := f_closed f || ends |}).
