(* ===== verification/Health.v ===== *)
(** * The health snapshot (src/src/lib/admin/health-probe.mjs)

    A probe of the slots keeps one answer, and a request that has the shape of a health check may be
    given that answer without a slot.  What recognises the traffic of the official client, and a
    regular expression that an operator wrote, are arguments. *)

From stdpp Require Import gmap strings.
From S2P Require Import Prelude.
From S2P Require Import JsValue.
From S2P Require Import JsRegex.
From S2P Require Import JsText.
From S2P Require Import JsJson.
From S2P Require Import JsDate.
From S2P Require Import IsoTime.
From S2P Require Import Eligibility.
From S2P Require Import Respond.
#[local] Open Scope string_scope.
#[local] Open Scope list_scope.
#[local] Open Scope js_scope.

Definition HEALTH_REAL_HEADER : string := "x-kin-health-real".
Definition HEALTH_VIA_CACHE : string := "health-cache".
Definition HEALTH_VIA_UNAVAILABLE : string := "health_unavailable".

Definition DEFAULT_PROMPTS : list string := ["hi"; "hello"; "ping"; "test"; "健康"].
Definition DEFAULT_HEALTH_PROBE : jsval :=
  JObj [("enabled", JBool false); ("interval_sec", jint 600); ("cache_ttl_sec", jint 900); ("max_stale_sec", jint 900);
        ("cache_models", JArr []); ("cache_model", JStr ""); ("intercept_unofficial", JBool true); ("fail_closed", JBool true);
        ("run_on_start", JBool true);
        ("real", JObj [("model", JStr "claude-haiku-4-5"); ("prompt", JStr "hello"); ("max_tokens", jint 64); ("timeout_ms", jint 60000);
                       ("outbound_mode", JStr "official"); ("vm_ids", JArr [])]);
        ("match", JObj [("max_tokens", jint 32); ("max_prompt_chars", jint 16); ("prompts", jstrs DEFAULT_PROMPTS);
                        ("require_no_system", JBool true); ("require_no_tools", JBool true); ("require_single_user", JBool true);
                        ("skip_official", JBool true); ("ua_regex", JStr "")])].

(** ** The configuration *)

Definition clampInt (value : jsval) (min max fallback : Z) : jsval :=
  let n := to_number value in
  if negb (is_finite n) || num_leb n (Fin 0) then jint fallback
  else JNum (num_min (num_of_Z max) (num_max (num_of_Z min) (num_round n))).
Definition asBool (value : jsval) (fallback : bool) : bool :=
  match value with
  | JUndef | JNull => fallback
  | JBool b => b
  | _ =>
    let s := to_lower (trim (to_string value)) in
    if mem s ["true"; "1"; "yes"; "on"] then true else if mem s ["false"; "0"; "no"; "off"] then false else fallback
  end.

(** The texts whose keys are new, in their order; a text without a key is left out. *)
Definition first_of_each (key : string -> string) (l : list string) : list string :=
  (fold_left (fun acc t => if negb (nonempty (key t)) || mem (key t) acc.1 then acc else (key t :: acc.1, acc.2 ++ [t])) l ([], [])).2.
Definition normalizePromptList (input : jsval) (fallback : list string) : list string :=
  let src := match input with JArr l => l | _ => map JStr fallback end in
  match first_of_each (fun t => to_lower t) (map (fun raw => trim (str_or_empty raw)) src) with [] => fallback | out => out end.
Definition vm_char (c : ascii) : bool := is_digit c || is_lower c || is_upper c || Ascii.eqb c "-".
Definition vm_id (id : string) : bool :=
  rx_full (RSeq (lit "vm-") (rplus (RChr vm_char))) (to_lower (take_chars 3 id) ++ drop_chars 3 id).
Definition normalizeVmIds (input : jsval) : list string :=
  match input with JArr l => uniq (List.filter vm_id (map (fun id => trim (str_or_empty id)) l)) | _ => [] end.
Definition model_key (id : string) : string := trim (before_char "[" (to_lower id)).
Definition normalizeModelId (id : jsval) : string := model_key (str_or_empty id).

(** The bytes of the fullwidth comma. *)
Definition WIDE_COMMA : string := "，".
Fixpoint split_commas (fuel : nat) (s seen : string) : list string :=
  match fuel, s with
  | S fuel, String c r =>
    if Ascii.eqb c "," || Ascii.eqb c (ascii_of_nat 10) then seen :: split_commas fuel r ""
    else if starts_with WIDE_COMMA s then seen :: split_commas fuel (drop_chars (String.length WIDE_COMMA) s) ""
    else split_commas fuel r (seen ++ String c "")
  | _, _ => [seen]
  end.
Definition normalizeCacheModels (input : jsval) : list string :=
  let l := match input with JStr s => map JStr (split_commas (String.length s) s "") | JArr l => l | _ => [] end in
  first_of_each model_key (map (fun raw => trim (str_or_empty raw)) l).

Definition positive (v : jsval) : bool := let n := to_number v in is_finite n && num_ltb (Fin 0) n.
Definition cacheTtlSec (cfg : jsval) : num :=
  if positive (cfg?."cache_ttl_sec") then to_number (cfg?."cache_ttl_sec")
  else if positive (cfg?."max_stale_sec") then to_number (cfg?."max_stale_sec") else num_of_Z 900.

Definition inboundMatchesCacheModels (body cfg : jsval) : bool :=
  match arr_of (cfg?."cache_models") with
  | [] => true
  | l =>
    let inbound := normalizeModelId (body?."model") in
    nonempty inbound && existsb (fun id => let n := normalizeModelId id in String.eqb inbound n || starts_with n inbound || starts_with inbound n) l
  end.
Definition resolveCacheResponseModel (inbound snapshot cfg : jsval) : string :=
  let pinned := trim (str_or_empty (cfg?."cache_model")) in
  if nonempty pinned then pinned
  else trim (to_string (inbound?."model" ||| snapshot?."model" ||| cfg?."real"?."model" ||| JStr "claude-haiku-4-5")).

Definition object_or_empty (v : jsval) : jsval := if truthy v && is_object v then v else JObj [].
Definition or_text (s d : string) : jsval := JStr (if nonempty s then s else d).
Definition normalizeHealthProbeConfig (raw : jsval) : jsval :=
  let src := object_or_empty raw in
  let realSrc := object_or_empty (src?."real") in
  let matchSrc := object_or_empty (src?."match") in
  let ttl := clampInt (src?."cache_ttl_sec" ?? src?."max_stale_sec") 30 172800 900 in
  JObj [("enabled", JBool (asBool (src?."enabled") false)); ("interval_sec", clampInt (src?."interval_sec") 30 86400 600);
        ("cache_ttl_sec", ttl); ("max_stale_sec", ttl); ("cache_models", jstrs (normalizeCacheModels (src?."cache_models")));
        ("cache_model", JStr (take_chars 120 (trim (str_or_empty (src?."cache_model")))));
        ("intercept_unofficial", JBool (asBool (src?."intercept_unofficial") true));
        ("fail_closed", JBool (asBool (src?."fail_closed") true)); ("run_on_start", JBool (asBool (src?."run_on_start") true));
        ("real", JObj [("model", or_text (trim (to_string (realSrc?."model" ||| JStr "claude-haiku-4-5"))) "claude-haiku-4-5");
                       ("prompt", or_text (take_chars 200 (trim (to_string (realSrc?."prompt" ?? JStr "hello")))) "hello");
                       ("max_tokens", clampInt (realSrc?."max_tokens") 1 128000 64); ("timeout_ms", clampInt (realSrc?."timeout_ms") 10000 180000 60000);
                       ("outbound_mode", JStr (if String.eqb (to_lower (to_string (realSrc?."outbound_mode" ||| JStr "official"))) "unofficial"
                                               then "unofficial" else "official"));
                       ("vm_ids", jstrs (normalizeVmIds (realSrc?."vm_ids")))]);
        ("match", JObj [("max_tokens", clampInt (matchSrc?."max_tokens") 1 4096 32); ("max_prompt_chars", clampInt (matchSrc?."max_prompt_chars") 1 256 16);
                        ("prompts", jstrs (normalizePromptList (matchSrc?."prompts") DEFAULT_PROMPTS));
                        ("require_no_system", JBool (asBool (matchSrc?."require_no_system") true));
                        ("require_no_tools", JBool (asBool (matchSrc?."require_no_tools") true));
                        ("require_single_user", JBool (asBool (matchSrc?."require_single_user") true));
                        ("skip_official", JBool (asBool (matchSrc?."skip_official") true));
                        ("ua_regex", JStr (take_chars 200 (trim (str_or_empty (matchSrc?."ua_regex")))))])].

(** ** The shape of a health check *)

Definition isHealthRealBypass (headers : jsval) : bool :=
  let v := to_lower (trim (str_or_empty (headers?.HEALTH_REAL_HEADER ?? headers?."X-Kin-Health-Real"))) in mem v ["1"; "true"; "yes"].
Definition headerUa (headers : jsval) : string := str_or_empty (headers?."user-agent" ||| headers?."User-Agent").

Fixpoint blockText (block : jsval) : string :=
  match block with
  | JStr s => s
  | JObj f =>
    match assoc "text" f with
    | JStr s => s
    | _ =>
      (fix content (g : fields) :=
         match g with
         | [] => ""
         | (k, v) :: g =>
           if String.eqb "content" k then match v with JStr s => s | JArr l => join "" (map blockText l) | _ => "" end else content g
         end) f
    end
  | _ => ""
  end.
Definition systemText (system : jsval) : string :=
  match system with
  | JUndef | JNull => ""
  | JStr s => trim s
  | JArr l => trim (join "" (map blockText l))
  | _ => trim (blockText system)
  end.
Definition messageText (msg : jsval) : string := if truthy msg && is_object msg then trim (blockText msg) else "".

Record extracted := { x_text : string; x_messages : nat; x_users : nat }.
Definition one_user (s : string) : extracted := {| x_text := trim s; x_messages := 1; x_users := 1 |}.
Definition of_messages (body : jsval) : extracted :=
  let messages := arr_of (body?."messages") in
  let users := List.filter (fun m => String.eqb (to_lower (str_or_empty (m?."role"))) "user") messages in
  {| x_text := trim (join "" (map messageText users)); x_messages := length messages; x_users := length users |}.
Definition extractProbeUserText (body : jsval) : extracted :=
  if negb (is_object body) then {| x_text := ""; x_messages := 0; x_users := 0 |}
  else
    match is_array (body?."messages"), body?."input", body?."prompt" with
    | false, (JUndef | JNull), JStr s => one_user s
    | false, JStr s, _ => one_user s
    | false, JArr l, _ =>
      let users := List.filter (fun m => negb (truthy (m?."role")) || is_str (m?."role") "user" || is_str (m?."role") "input") l in
      {| x_text := trim (join "" (map blockText users)); x_messages := length l; x_users := length users |}
    | _, _, _ => of_messages body
    end.
Definition inboundMaxTokens (body : jsval) : num :=
  let v := body?."max_tokens" ?? body?."max_completion_tokens" in if positive v then to_number v else Fin 0.

Definition MARKS : list string := ["."; "!"; "?"; "。"; "！"; "？"].
Fixpoint drop_marks (fuel : nat) (s : string) : string :=
  match fuel with
  | O => s
  | S fuel => match List.find (fun m => ends_with m s) MARKS with Some m => drop_marks fuel (drop_last (String.length m) s) | None => s end
  end.
Definition normalizeProbeText (text : jsval) : string :=
  let s := to_lower (trim (str_or_empty text)) in trim (drop_marks (String.length s) s).

Example probe_text_ex : map (fun s => normalizeProbeText (JStr s)) [" Hi!?"; "健康。"; "ping ."; "..."] = ["hi"; "健康"; "ping"; ""].
Proof. vm_compute. reflexivity. Qed.

(** ** The snapshot *)

Definition hasCachedMessage (snapshot : jsval) : bool :=
  nonempty (trim (str_or_empty (snapshot?."body"?."id"))) && is_bool (snapshot?."ok") true.
Definition isSnapshotValid (snapshot cfg : jsval) (now : Z) : bool :=
  if negb (is_bool (snapshot?."ok") true) || negb (truthy (snapshot?."at")) then false
  else
    let at_ := date_parse (to_string (snapshot?."at")) in
    let age := num_sub (num_of_Z now) at_ in
    is_finite at_ && num_leb (Fin 0) age && num_leb age (num_mul (cacheTtlSec cfg) (num_of_Z 1000)).

Definition NO_TOKENS : jsval := JObj [("input_tokens", jint 0); ("output_tokens", jint 0)].
Definition text_content (s : string) : jsval := JArr [JObj [("type", JStr "text"); ("text", JStr s)]].
Definition or_object (v d : jsval) : jsval := if truthy v && is_object v then v else d.
Definition sanitizeCachedMessage (body fallback : jsval) : jsval :=
  let src := if truthy body && is_object body && negb (truthy (body?."error")) then body else JObj [] in
  let content := List.filter (fun b => truthy b && is_object b) (arr_of (src?."content")) in
  let text := take_chars 4000 (str_or_empty (fallback?."text")) in
  let id := trim (str_or_empty (src?."id" ||| fallback?."id")) in
  JObj [("id", JStr id ||| JNull); ("type", JStr "message"); ("role", JStr "assistant"); ("model", src?."model" ||| fallback?."model" ||| JNull);
        ("content", match content with [] => if nonempty text then text_content text else JArr [] | _ => JArr content end);
        ("stop_reason", src?."stop_reason" ||| fallback?."stop_reason" ||| JStr "end_turn");
        ("stop_sequence", if has_own src "stop_sequence" then src?."stop_sequence" else fallback?."stop_sequence" ?? JNull);
        ("usage", or_object (src?."usage") (or_object (fallback?."usage") NO_TOKENS))].

Definition viewSnapshot (snapshot cfg : jsval) (now : Z) (nextAt : jsval) : jsval :=
  let valid := isSnapshotValid snapshot cfg now in
  let age := num_sub (num_of_Z now) (date_parse (to_string (snapshot?."at"))) in
  JObj [("ok", JBool (truthy (snapshot?."ok") && valid)); ("at", snapshot?."at" ||| JNull); ("stale", JBool (negb valid));
        ("vm_id", snapshot?."vm_id" ||| JNull); ("model", snapshot?."model" ||| JNull); ("message_id", snapshot?."body"?."id" ||| JNull);
        ("text", snapshot?."text" ||| JNull); ("status", snapshot?."status" ||| jint 0); ("error", snapshot?."error" ||| JNull);
        ("duration_ms", snapshot?."duration_ms" ||| JNull); ("next_at", nextAt);
        ("age_ms", if truthy (snapshot?."at") then JNum (num_max (Fin 0) (num_or_zero (JNum age))) else JNull);
        ("cache_ttl_sec", JNum (cacheTtlSec cfg)); ("cache_models", JArr (arr_of (cfg?."cache_models"))); ("cache_model", cfg?."cache_model" ||| JStr "")].

Definition healthUnavailableError (snapshot requestId : jsval) : jsval :=
  let failure := snapshot?."error" in
  let error := [("type", JStr "api_error"); ("code", JStr HEALTH_VIA_UNAVAILABLE);
                ("message", JStr (if truthy failure then "Health probe unavailable: " ++ to_string failure
                                  else "Health probe unavailable: no valid cached result")%string)] in
  let error := if truthy (snapshot?."at") then set_field "probed_at" (snapshot?."at") error else error in
  let error := if truthy failure then set_field "last_error" (JStr (take_chars 300 (to_string failure))) error else error in
  JObj [("type", JStr "error"); ("error", JObj (if truthy requestId then set_field "request_id" requestId error else error))].

Definition not_false (v : jsval) : bool := negb (is_bool v false).

Section shape.
Context (official_traffic : jsval -> jsval -> bool) (official_ua : string -> bool).   (* of the identity modules *)
(** [new RegExp(source, 'i').test(s)]; none when the source is not an expression. *)
Context (regex_test : string -> string -> option bool).

Definition isHealthShape (headers body cfg : jsval) : bool :=
  let match_ := cfg?."match" ||| DEFAULT_HEALTH_PROBE?."match" in
  if official_traffic headers body then false
  else if not_false (match_?."skip_official") && official_ua (headerUa headers) then false
  else if isHealthRealBypass headers then false
  else if truthy (match_?."ua_regex") && negb (default false (regex_test (to_string (match_?."ua_regex")) (headerUa headers))) then false
  else
    let maxTokens := inboundMaxTokens body in
    if negb (truthy (JNum maxTokens)) || num_ltb (to_number (match_?."max_tokens")) maxTokens then false
    else if not_false (match_?."require_no_system") && nonempty (systemText (body?."system")) then false
    else if not_false (match_?."require_no_tools") && match arr_of (body?."tools") with [] => false | _ => true end then false
    else
      let x := extractProbeUserText body in
      if not_false (match_?."require_single_user") && (negb (x_messages x =? 1)%nat || negb (x_users x =? 1)%nat) then false
      else if negb (nonempty (x_text x)) || num_ltb (to_number (match_?."max_prompt_chars")) (num_of_Z (Z.of_nat (String.length (x_text x)))) then false
      else mem (normalizeProbeText (JStr (x_text x))) (map normalizeProbeText (arr_of (match_?."prompts"))).

Inductive decision := Pass | Cache (snapshot : jsval) | Unavailable (snapshot : jsval).
Definition decideHealthIntercept (headers body cfg snapshot : jsval) (now : Z) : decision :=
  if negb (truthy (cfg?."enabled")) || negb (truthy (cfg?."intercept_unofficial")) then Pass
  else if negb (isHealthShape headers body cfg) then Pass
  else if negb (inboundMatchesCacheModels body cfg) then Pass
  else if isSnapshotValid snapshot cfg now && hasCachedMessage snapshot then Cache snapshot
  else if negb (truthy (cfg?."fail_closed")) then Pass
  else if is_str (snapshot?."error") "no_schedulable_credential" then Unavailable snapshot
  else Pass.
End shape.

(** ** The answer from the snapshot *)

Definition cachedClaudeMessage (snapshot inbound cfg : jsval) : jsval :=
  let src := if truthy (snapshot?."body") && is_object (snapshot?."body") then snapshot?."body" else JNull in
  let id := trim (str_or_empty (src?."id")) in
  if negb (nonempty id) then JNull
  else
    JObj [("id", JStr id); ("type", JStr "message"); ("role", src?."role" ||| JStr "assistant"); ("model", JStr (resolveCacheResponseModel inbound snapshot cfg));
          ("content", match src?."content" with JArr (_ :: _) => src?."content" | _ => text_content (to_string (snapshot?."text" ||| JStr "ok")) end);
          ("stop_reason", src?."stop_reason" ||| JStr "end_turn");
          ("stop_sequence", if has_own src "stop_sequence" then src?."stop_sequence" else JNull); ("usage", or_object (src?."usage") NO_TOKENS)].

(** The clock and the two random ids of the conversions. *)
Section synthesis.
Context (now : Z) (msg_id resp_id : string).

(** [Some JNull]: nothing is cached; [None]: a TypeError on a block that is not one. *)
Definition synthesizeProtocolResponse (protocol : string) (inbound snapshot cfg : jsval) : option jsval :=
  let claude := cachedClaudeMessage snapshot inbound cfg in
  if negb (truthy claude) then Some JNull
  else if String.eqb protocol "openai.chat" then fromClaudeToOpenAIChat now claude (claude?."model")
  else if String.eqb protocol "openai.completions" then fromClaudeToOpenAICompletions now claude (claude?."model")
  else if String.eqb protocol "openai.responses" then fromClaudeToResponses now msg_id resp_id claude (claude?."model")
  else Some claude.

Definition data_line (data : jsval) : string := ("data: " ++ default "undefined" (stringify data))%string.
Definition ev (event : string) (data : jsval) : list string :=
  (if nonempty event then ["event: " ++ event]%string else []) ++ [data_line data; ""].
(** The event with its own type. *)
Definition typed (type : string) (f : fields) : list string := ev type (JObj (("type", JStr type) :: f)).

Definition block_lines (index : nat) (block : jsval) : list string :=
  let index := ("index", jint (Z.of_nat index)) in
  let start block := typed "content_block_start" [index; ("content_block", JObj block)] in
  let delta d := typed "content_block_delta" [index; ("delta", JObj d)] in
  (if is_str (block?."type") "thinking"
   then start [("type", JStr "thinking"); ("thinking", JStr "")] ++
        delta [("type", JStr "thinking_delta"); ("thinking", block?."thinking" ||| JStr "")] ++
        (if truthy (block?."signature") then delta [("type", JStr "signature_delta"); ("signature", block?."signature")] else [])
   else start [("type", JStr "text"); ("text", JStr "")] ++ delta [("type", JStr "text_delta"); ("text", block?."text" ||| JStr "")]) ++
  typed "content_block_stop" [index].
Definition message_lines (claude : jsval) : list string :=
  typed "message_start" [("message", JObj [("id", claude?."id"); ("type", JStr "message"); ("role", JStr "assistant"); ("model", claude?."model");
                                           ("content", JArr []); ("usage", claude?."usage")])] ++
  concat (imap block_lines (arr_of (claude?."content"))) ++
  typed "message_delta" [("delta", JObj [("stop_reason", claude?."stop_reason" ||| JStr "end_turn"); ("stop_sequence", claude?."stop_sequence" ?? JNull)]);
                         ("usage", JObj [("output_tokens", claude?."usage"?."output_tokens" ||| jint 0)])] ++
  typed "message_stop" [].

Definition chat_chunk (chat delta finish : jsval) : list string :=
  ev "" (JObj [("id", chat?."id"); ("object", JStr "chat.completion.chunk"); ("model", chat?."model");
               ("choices", JArr [JObj [("index", jint 0); ("delta", delta); ("finish_reason", finish)]])]).
Definition DONE_LINES : list string := ["data: [DONE]"; ""].
Definition health_lines (protocol : string) (claude : jsval) : option (list string) :=
  let model := claude?."model" in
  if String.eqb protocol "openai.chat" then
    chat ← fromClaudeToOpenAIChat now claude model;
    let choice := get_at (chat?."choices") 0 in
    Some (chat_chunk chat (JObj [("role", JStr "assistant"); ("content", choice?."message"?."content" ||| JStr "")]) JNull ++
          chat_chunk chat (JObj []) (choice?."finish_reason" ||| JStr "stop") ++ DONE_LINES)
  else if String.eqb protocol "openai.completions" then
    cmp ← fromClaudeToOpenAICompletions now claude model;
    let choice := get_at (cmp?."choices") 0 in
    Some (ev "" (JObj [("id", cmp?."id"); ("object", JStr "text_completion"); ("model", cmp?."model");
                       ("choices", JArr [JObj [("text", choice?."text" ||| JStr ""); ("index", jint 0); ("finish_reason", choice?."finish_reason" ||| JStr "stop")]])])
          ++ DONE_LINES)
  else if String.eqb protocol "openai.responses" then
    response ← fromClaudeToResponses now msg_id resp_id claude model;
    let text := join "" (map (fun b => to_string (b?."text" ||| JStr "")) (List.filter (fun b => is_str (b?."type") "text") (arr_of (claude?."content")))) in
    Some (typed "response.output_text.delta" [("delta", JStr text)] ++ typed "response.completed" [("response", response)])
  else Some (message_lines claude).
Definition formatHealthSse (protocol : string) (inbound snapshot cfg : jsval) : option string :=
  let claude := cachedClaudeMessage snapshot inbound cfg in
  if negb (truthy claude) then Some "" else option_map (join newline) (health_lines protocol claude).
End synthesis.

(** The lines are joined, so the last event has no blank line after it: a reader of events that waits for one
    never sees [message_stop], [response.completed] or [DONE]. *)
Example last_event_open :
  let snapshot := JObj [("ok", JBool true); ("text", JStr "ok"); ("body", JObj [("id", JStr "msg_1"); ("content", text_content "hi")])] in
  map (fun protocol => option_map (fun s => (ends_with newline s, ends_with (newline ++ newline) s)) (formatHealthSse 0 "a" "b" protocol (JObj []) snapshot (JObj [])))
    ["anthropic.messages"; "openai.chat"; "openai.completions"; "openai.responses"] = repeat (Some (true, false)) 4.
Proof. vm_compute. reflexivity. Qed.

(** ** The monitor *)

Definition HARD_UNAVAILABLE : list string := ["stopped"; "dead"; "error"; "disabled"].
Definition GRANT_DEAD : rx := lits ["invalid_grant"; "refresh token not found"; "oauth_revoked"; "token has been revoked"].
Definition AUTH_COOL : rx := lits ["authentication_failed"; "invalid_grant"; "oauth_invalid_grant"; "oauth_revoked"].
Definition isHealthProbeTarget (vm : jsval) (now : Z) : bool :=
  if negb (truthy vm) || is_bool (vm?."schedulable") false then false
  else if mem (to_lower (str_or_empty (vm?."status"))) HARD_UNAVAILABLE then false
  else if rx_test_i GRANT_DEAD (str_or_empty (vm?."claude"?."refresh_error" ||| vm?."refresh_error" ||| vm?."schedule_disabled_reason")) then false
  else if num_ltb (num_of_Z now) (num_or_zero (vm?."cooldown_until" ||| vm?."claude"?."temp_unschedulable_until")) &&
          rx_test_i AUTH_COOL (str_or_empty (vm?."cooldown_reason" ||| vm?."claude"?."temp_unschedulable_reason")) then false
  else if truthy (vm?."claude") then Gate.vmHasClaudeCredential vm
  else truthy (vm?."has_token") || truthy (vm?."has_refresh").
Definition selectHealthProbeTargets (vms : list jsval) (cfg : jsval) (now : Z) : list jsval :=
  let allow := map to_string (arr_of (cfg?."real"?."vm_ids")) in
  List.filter (fun vm => (match allow with [] => true | _ => mem (to_string (vm?."id")) allow end) && isHealthProbeTarget vm now) vms.

Record monitor := { m_config : jsval; m_snapshot : jsval; lastRunAt : Z; m_timer : bool }.
Definition createHealthProbeMonitor (config : jsval) : monitor :=
  {| m_config := normalizeHealthProbeConfig config; m_snapshot := JNull; lastRunAt := 0; m_timer := false |}.

(** None: the date is out of range. *)
Definition nextAtIso (m : monitor) : option jsval :=
  if negb (truthy (m_config m?."enabled")) || (lastRunAt m =? 0)%Z then Some JNull
  else match num_mul (to_number (m_config m?."interval_sec")) (num_of_Z 1000) with
       | Fin q => option_map JStr (to_iso (lastRunAt m + Qfloor q))
       | _ => None
       end.
Definition getSnapshot (m : monitor) (now : Z) : option jsval :=
  option_map (viewSnapshot (m_snapshot m) (m_config m) now) (nextAtIso m).

(** What [runChat] gives on a slot: a result, or the text of an error that it throws. *)
Inductive chat := Replied (result : jsval) | ChatThrew (message : string).
Definition iso (now : Z) : jsval := JStr (default "" (to_iso now)).
Definition failed_snapshot (config : jsval) (at_ : Z) (vm_id error : jsval) (started now : Z) : jsval :=
  JObj [("ok", JBool false); ("at", iso at_); ("vm_id", vm_id); ("model", config?."real"?."model"); ("text", JNull); ("status", jint 0);
        ("error", error); ("duration_ms", jint (now - started))].
Definition good_snapshot (config vm result : jsval) (started now : Z) : jsval :=
  let body := sanitizeCachedMessage (result?."body")
    (JObj [("text", result?."text"); ("model", result?."model" ||| config?."real"?."model"); ("stop_reason", result?."stop_reason"); ("usage", result?."usage")]) in
  JObj [("ok", JBool true); ("at", iso now); ("vm_id", result?."vm_id" ||| vm?."id"); ("model", body?."model" ||| result?."model" ||| config?."real"?."model");
        ("text", JStr (take_chars 4000 (to_string (result?."text" ||| JStr "ok")))); ("status", result?."status" ||| jint 200); ("error", JNull);
        ("duration_ms", jint (now - started)); ("body", body)].
(** The slots are asked in turn until one answers; the last error when none does. *)
Fixpoint ask (runChat : jsval -> chat) (targets : list jsval) (lastError : jsval) : (jsval * jsval) + jsval :=
  match targets with
  | [] => inr lastError
  | vm :: targets =>
    match runChat vm with
    | Replied result =>
      if truthy (result?."ok") then inl (vm, result)
      else ask runChat targets (result?."error"?."message" ||| result?."error" ||| JStr "probe_failed")
    | ChatThrew message => ask runChat targets (JStr (take_chars 300 message))
    end
  end.
Definition with_snapshot (m : monitor) (started : Z) (snapshot : jsval) : monitor :=
  {| m_config := m_config m; m_snapshot := snapshot; lastRunAt := started; m_timer := m_timer m |}.
(** A probe from [started] to [now]; one that is asked for while another runs is that one. *)
Definition runRealProbe (m : monitor) (vms : list jsval) (runChat : jsval -> chat) (started now : Z) : monitor :=
  match selectHealthProbeTargets vms (m_config m) started with
  | [] => with_snapshot m started (failed_snapshot (m_config m) started JNull (JStr "no_schedulable_credential") started now)
  | (first :: _) as targets =>
    match ask runChat targets JNull with
    | inl (vm, result) => with_snapshot m started (good_snapshot (m_config m) vm result started now)
    | inr lastError =>
      let text := JStr (take_chars 300 (to_string (lastError ||| JStr "probe_failed"))) in
      with_snapshot m started
        (if truthy (m_snapshot m?."ok") && isSnapshotValid (m_snapshot m) (m_config m) now
         then spread (own (m_snapshot m)) (JObj [("last_error", text); ("last_failed_at", iso now)])
         else failed_snapshot (m_config m) now (first?."id" ||| JNull) text started now)
    end
  end.

Definition set_timer (m : monitor) (on : bool) : monitor :=
  {| m_config := m_config m; m_snapshot := m_snapshot m; lastRunAt := lastRunAt m; m_timer := on |}.
Definition stop (m : monitor) : monitor := set_timer m false.
(** What [start] gives, and whether a probe is run at once. *)
Definition start (m : monitor) (immediate : bool) : monitor * bool :=
  if negb (truthy (m_config m?."enabled")) then (stop m, false)
  else (set_timer m true, immediate && truthy (m_config m?."run_on_start")).
Definition setConfig (m : monitor) (next : jsval) (restart : bool) : monitor :=
  let m := {| m_config := normalizeHealthProbeConfig next; m_snapshot := m_snapshot m; lastRunAt := lastRunAt m; m_timer := m_timer m |} in
  if restart then (start m false).1 else m.

(** ** The answers that are served are answers of slots *)

Inductive op :=
  | Probe (vms : list jsval) (runChat : jsval -> chat) (started now : Z)
  | Configure (next : jsval) (restart : bool)
  | Start (immediate : bool)
  | Stop.
Definition step (m : monitor) (o : op) : monitor :=
  match o with
  | Probe vms runChat started now => runRealProbe m vms runChat started now
  | Configure next restart => setConfig m next restart
  | Start immediate => (start m immediate).1
  | Stop => stop m
  end.
Definition monitored (config : jsval) (ops : list op) : monitor := fold_left step ops (createHealthProbeMonitor config).

(** A request that looks like a health check, for the configuration [match_]: few tokens, one short known prompt of one
    user, no system text, no tools, and neither the official client nor a request that asks for a real hop. *)
Record looks_like_check (t : jsval -> jsval -> bool) (u : string -> bool) (x : string -> string -> option bool) (headers body match_ : jsval) : Prop := {
  lc_unofficial : t headers body = false;
  lc_ua : is_bool (match_?."skip_official") false = false -> u (headerUa headers) = false;
  lc_cached : isHealthRealBypass headers = false;
  lc_regex : truthy (match_?."ua_regex") = true -> x (to_string (match_?."ua_regex")) (headerUa headers) = Some true;
  lc_tokens : inboundMaxTokens body <> Fin 0 /\ num_ltb (to_number (match_?."max_tokens")) (inboundMaxTokens body) = false;
  lc_system : is_bool (match_?."require_no_system") false = false -> systemText (body?."system") = "";
  lc_tools : is_bool (match_?."require_no_tools") false = false -> arr_of (body?."tools") = [];
  lc_single : is_bool (match_?."require_single_user") false = false ->
    x_messages (extractProbeUserText body) = 1%nat /\ x_users (extractProbeUserText body) = 1%nat;
  lc_short : x_text (extractProbeUserText body) <> "" /\
    num_ltb (to_number (match_?."max_prompt_chars")) (num_of_Z (Z.of_nat (String.length (x_text (extractProbeUserText body))))) = false;
  lc_prompt : exists p, p ∈ arr_of (match_?."prompts") /\ normalizeProbeText p = normalizeProbeText (JStr (x_text (extractProbeUserText body)))
}.

Lemma shape_spec t u x headers body cfg : isHealthShape t u x headers body cfg = true ->
  looks_like_check t u x headers body (cfg?."match" ||| DEFAULT_HEALTH_PROBE?."match").
Proof.
  unfold isHealthShape, not_false. cbv zeta. set (match_ := _ ||| _). intros H.
  destruct (t headers body) eqn:E1; [done|]. destruct (negb (is_bool (match_?."skip_official") false) && u _) eqn:E2; [done|].
  destruct (isHealthRealBypass headers) eqn:E3; [done|]. destruct (truthy (match_?."ua_regex") && _) eqn:E4; [done|].
  destruct (negb (truthy _) || _) eqn:E5; [done|]. destruct (negb (is_bool (match_?."require_no_system") false) && _) eqn:E6; [done|].
  destruct (negb (is_bool (match_?."require_no_tools") false) && _) eqn:E7; [done|].
  destruct (negb (is_bool (match_?."require_single_user") false) && _) eqn:E8; [done|].
  destruct (negb (nonempty (x_text _)) || _) eqn:E9; [done|]. apply orb_false_iff in E5 as [E5 E5'], E9 as [E9 E9']. split; try done.
  - intros Hs. by rewrite Hs in E2.
  - intros Hr. rewrite Hr in E4. destruct (x _ _) as [[]|]; done.
  - split; [|done]. intros Hz. by rewrite Hz in E5.
  - intros Hs. rewrite Hs in E6. cbn in E6. unfold nonempty in E6. destruct (String.eqb_spec (systemText (body?."system")) ""); done.
  - intros Hs. rewrite Hs in E7. by destruct (arr_of (body?."tools")).
  - intros Hs. rewrite Hs in E8. cbn in E8. apply orb_false_iff in E8 as [E8 E8']. apply negb_false_iff, Nat.eqb_eq in E8, E8'. done.
  - split; [|done]. intros Hz. by rewrite Hz in E9.
  - apply mem_spec, list_elem_of_fmap in H as (p & Ep & Hp). by exists p.
Qed.

(** A probe of the run: when it ended, and what it found. *)
Definition last_probe (config : jsval) (ops : list op) (vms : list jsval) (runChat : jsval -> chat) (started : Z) (m : monitor) : Prop :=
  exists before after ended, ops = before ++ Probe vms runChat started ended :: after /\ m = monitored config before /\
    Forall (fun o => match o with Probe _ _ _ _ => False | _ => True end) after.
(** Nothing to ask, or every slot that was asked failed, the last one with the very text of having nothing to ask. *)
Definition no_slot (vms : list jsval) (runChat : jsval -> chat) (started : Z) (m : monitor) : Prop :=
  selectHealthProbeTargets vms (m_config m) started = [] \/
  exists e, ask runChat (selectHealthProbeTargets vms (m_config m) started) JNull = inr e /\
    take_chars 300 (to_string (e ||| JStr "probe_failed")) = "no_schedulable_credential".


(** The message of a slot that answered the probe that ended at [ended]. *)
Definition answered_by (ops : list op) (ended : Z) (snapshot : jsval) : Prop :=
  exists vms runChat started vm result config,
    Probe vms runChat started ended ∈ ops /\ vm ∈ vms /\ isHealthProbeTarget vm started = true /\
    runChat vm = Replied result /\ truthy (result?."ok") = true /\ snapshot?."body" = good_snapshot config vm result started ended?."body".
Definition for_want (config : jsval) (ops : list op) : Prop :=
  exists vms runChat started m, last_probe config ops vms runChat started m /\ no_slot vms runChat started m.
Definition traced (config : jsval) (ops : list op) (s : jsval) : Prop :=
  s = JNull \/ is_obj s = true /\
  ((s?."error" = JNull /\ exists ended, answered_by ops ended s /\ s?."at" = iso ended) \/
   (s?."ok" = JBool false /\ (s?."error" = JStr "no_schedulable_credential" -> for_want config ops))).

Lemma answered_more ops o ended s : answered_by ops ended s -> answered_by (ops ++ [o]) ended s.
Proof.
  intros (vms & rc & st & vm & r & c & H & Hr). exists vms, rc, st, vm, r, c. split; [|done]. apply elem_of_app. by left.
Qed.
Lemma want_more config ops o : match o with Probe _ _ _ _ => False | _ => True end -> for_want config ops -> for_want config (ops ++ [o]).
Proof.
  intros Ho (vms & rc & st & m & (b & a & e & -> & Hm & Ha) & Hn). exists vms, rc, st, m. split; [|done].
  exists b, (a ++ [o]), e. split; [by rewrite <- app_assoc|]. split; [done|]. apply Forall_app. split; [done|]. by apply Forall_singleton.
Qed.
Lemma traced_more config ops o s : match o with Probe _ _ _ _ => False | _ => True end -> traced config ops s -> traced config (ops ++ [o]) s.
Proof.
  intros Ho [->|[H1 H2]]; [by left|right]. split; [done|]. destruct H2 as [(He & e & Ha & Ht)|[Hk Hw]]; [left|right].
  - split; [done|]. exists e. split; [by apply answered_more|done].
  - split; [done|]. intros H. by apply want_more, Hw.
Qed.

Lemma ask_answers runChat targets e vm result : ask runChat targets e = inl (vm, result) ->
  vm ∈ targets /\ runChat vm = Replied result /\ truthy (result?."ok") = true.
Proof.
  revert e. induction targets as [|t targets IH]; intros e H; cbn [ask] in H; [done|].
  destruct (runChat t) as [r|] eqn:Er; [destruct (truthy (r?."ok")) eqn:Eo|].
  - injection H as <- <-. split_and!; [by left|done|done].
  - destruct (IH _ H) as (? & ? & ?). split_and!; [by right|done|done].
  - destruct (IH _ H) as (? & ? & ?). split_and!; [by right|done|done].
Qed.
Lemma kept_answer s a b k : is_obj s = true -> k <> "last_error" -> k <> "last_failed_at" ->
  (spread (own s) (JObj [("last_error", a); ("last_failed_at", b)]))?.k = s?.k.
Proof. intros Ho H1 H2. destruct s as [| | | | | |f]; try done. unfold spread, own. cbn [entries fields_of foldl get fst snd]. by rewrite !assoc_set_ne. Qed.

Lemma probe_traced config ops vms runChat started ended : traced config ops (m_snapshot (monitored config ops)) ->
  traced config (ops ++ [Probe vms runChat started ended]) (m_snapshot (runRealProbe (monitored config ops) vms runChat started ended)).
Proof.
  intros Hm. set (m := monitored config ops) in *. assert (Hlast : last_probe config (ops ++ [Probe vms runChat started ended]) vms runChat started m).
  { exists ops, [], ended. split; [done|]. split; [done|constructor]. }
  unfold runRealProbe. destruct (selectHealthProbeTargets vms (m_config m) started) as [|first l] eqn:El.
  { right. split; [done|]. right. split; [done|]. intros _. exists vms, runChat, started, m. split; [done|]. by left. }
  rewrite <- El. destruct (ask runChat _ JNull) as [[vm result]|lastError] eqn:Ea; cbn [with_snapshot m_snapshot].
  - right. split; [done|]. left. split; [done|]. exists ended. split; [|done]. destruct (ask_answers _ _ _ _ _ Ea) as (Hin & Hr & Ho).
    unfold selectHealthProbeTargets in Hin. apply list_elem_of_In, List.filter_In in Hin as [Hv Hc]. apply andb_prop in Hc as [_ Hc].
    exists vms, runChat, started, vm, result, (m_config m). split_and!; [apply elem_of_app; right; by left|by apply list_elem_of_In|done..].
  - destruct (truthy _ && isSnapshotValid _ _ _) eqn:Ev.
    + destruct Hm as [Hn|[Ho Hp]]; [by rewrite Hn in Ev|]. right. split; [done|]. destruct Hp as [(He & e & Ha & Ht)|[Hk _]]; [|by rewrite Hk in Ev].
      left. rewrite !kept_answer by done. split; [done|]. exists e. split; [|done]. apply answered_more.
      destruct Ha as (v & rc & st & vm & r & c & H1 & H2 & H3 & H4 & H5 & H6). exists v, rc, st, vm, r, c. split_and!; try done. by rewrite kept_answer.
    + right. split; [done|]. right. split; [done|]. intros [= He]. exists vms, runChat, started, m. split; [done|]. right. by exists lastError.
Qed.
Lemma monitored_traced config ops : traced config ops (m_snapshot (monitored config ops)).
Proof.
  induction ops as [|o ops IH] using rev_ind; [by left|]. unfold monitored. rewrite fold_left_app. cbn [fold_left].
  fold (monitored config ops). destruct o as [vms rc st now|next restart|imm|]; [by apply probe_traced| | |].
  all: apply traced_more; [done|]; cbn [step]; unfold setConfig, start, stop, set_timer; repeat case_match; exact IH.
Qed.

(** A snapshot that is valid was taken at a time that its text tells. *)
Lemma valid_age s cfg now ended : isSnapshotValid s cfg now = true -> s?."at" = iso ended ->
  (ended <= now)%Z /\ num_leb (num_of_Z (now - ended)) (num_mul (cacheTtlSec cfg) (num_of_Z 1000)) = true.
Proof.
  unfold isSnapshotValid. intros H E. rewrite E in H. unfold iso in H. destruct (to_iso ended) as [text|] eqn:Et; cbn [default] in H.
  2: { by rewrite orb_true_r in H. }
  destruct (_ || _); [done|]. cbv zeta in H. cbn [to_string id] in H. rewrite (iso_roundtrip ended text Et) in H.
  apply andb_prop in H as [[_ H1]%andb_prop H2].
  rewrite num_sub_Z in H1, H2. split; [|done]. change (Fin 0) with (num_of_Z 0) in H1. apply num_leb_Z in H1. lia.
Qed.

(** C10: A request is answered from the snapshot only when it looks like a health check of the configured shape and does
    not come from the official client, and what it is given is the message with which a slot answered
    a probe that ended no longer ago than the configured time; it is refused only when it looks like one and the last probe
    found no slot to ask, or every slot failed, the last one with the very words of there being none. *)
Theorem health_answers_real config ops headers body now t u x :
  let m := monitored config ops in
  let shape := looks_like_check t u x headers body (m_config m?."match" ||| DEFAULT_HEALTH_PROBE?."match") in
  match decideHealthIntercept t u x headers body (m_config m) (m_snapshot m) now with
  | Pass => True
  | Cache snapshot =>
    shape /\ exists ended, answered_by ops ended snapshot /\ (ended <= now)%Z /\
    num_leb (num_of_Z (now - ended)) (num_mul (cacheTtlSec (m_config m)) (num_of_Z 1000)) = true
  | Unavailable _ => shape /\ for_want config ops
  end.
Proof.
  cbv zeta. pose proof (monitored_traced config ops) as Hr. set (m := monitored config ops) in *. unfold decideHealthIntercept.
  destruct (_ || _); [done|]. destruct (isHealthShape _ _ _ _ _ _) eqn:Es; cbn [negb]; [|done]. apply shape_spec in Es.
  destruct (negb (inboundMatchesCacheModels _ _)); [done|].
  assert (Hbad : is_str (m_snapshot m?."error") "no_schedulable_credential" = true -> for_want config ops).
  { destruct Hr as [->|[_ [(He & _)|[_ Hw]]]]; [done|by rewrite He|]. intros H. apply Hw.
    destruct (m_snapshot m?."error"); try done. by apply String.eqb_eq in H as ->. }
  destruct (isSnapshotValid _ _ _ && hasCachedMessage _) eqn:Ev.
  - split; [done|]. apply andb_prop in Ev as [Ev Eh]. unfold hasCachedMessage in Eh. apply andb_prop in Eh as [_ Eh].
    destruct Hr as [Hn|[_ [(_ & e & Ha & Ht)|[Hk _]]]]; [by rewrite Hn in Eh| |by rewrite Hk in Eh]. exists e. split; [done|]. by eapply valid_age.
  - destruct (negb _); [done|]. destruct (is_str _ _) eqn:Ee; [|done]. split; [done|]. by apply Hbad.
Qed.

(** A fleet of one slot that answered a probe, and a request that says hello. *)
Definition probed_slot : jsval := JObj [("id", JStr "vm-a"); ("has_token", JBool true)].
Definition slot_says (vm : jsval) : chat :=
  Replied (JObj [("ok", JBool true); ("text", JStr "hello"); ("body", JObj [("id", JStr "msg_9"); ("content", text_content "hello")])]).
Definition sample_ops : list op := [Probe [probed_slot] slot_says 1000 2000].
Definition hello_body : jsval := JObj [("max_tokens", jint 8); ("messages", JArr [JObj [("role", JStr "user"); ("content", JStr "Hello!")]])].
Definition decided (ops : list op) : decision :=
  let m := monitored (JObj [("enabled", JBool true)]) ops in
  decideHealthIntercept (fun _ _ => false) (fun _ => false) (fun _ _ => None) (JObj []) hello_body (m_config m) (m_snapshot m) 700000.
Lemma health_answers_real_witness : exists snapshot, decided sample_ops = Cache snapshot /\
  exists ended, answered_by sample_ops ended snapshot /\ (ended <= 700000)%Z.
Proof.
  pose proof (health_answers_real (JObj [("enabled", JBool true)]) sample_ops (JObj []) hello_body 700000 (fun _ _ => false) (fun _ => false) (fun _ _ => None)) as H.
  cbv zeta in H. fold (decided sample_ops) in H. destruct (decided sample_ops) as [|s|s] eqn:E; [vm_compute in E; discriminate| |vm_compute in E; discriminate].
  exists s. split; [exact eq_refl|]. destruct H as (_ & ended & Ha & Hn & _). exists ended. exact (conj Ha Hn).
Defined.

(** A probe that fails does not take a fresh answer away. *)
Example failure_keeps_answer :
  let vm := JObj [("id", JStr "vm-a"); ("has_token", JBool true)] in
  let ok _ := Replied (JObj [("ok", JBool true); ("text", JStr "hello"); ("body", JObj [("id", JStr "msg_9"); ("content", text_content "hello")])]) in
  let ops := [Probe [vm] ok 1000 2000; Probe [vm] (fun _ => ChatThrew "socket closed") 601000 602000] in
  let m := monitored (JObj [("enabled", JBool true)]) ops in
  let ask prompt now := decideHealthIntercept (fun _ _ => false) (fun _ => false) (fun _ _ => None) (JObj [])
    (JObj [("max_tokens", jint 8); ("messages", JArr [JObj [("role", JStr "user"); ("content", JStr prompt)]])]) (m_config m) (m_snapshot m) now in
  (match ask "Hello!" 700000%Z with Cache s => s?."body"?."id" | _ => JNull end, match ask "Hello!" 902001%Z with Cache s => s?."body"?."id" | _ => JNull end,
   match ask "hello there, friend" 700000%Z with Cache s => s?."body"?."id" | _ => JNull end, m_snapshot m?."last_error") =
  (JStr "msg_9", JNull, JNull, JStr "socket closed").
Proof. vm_compute. reflexivity. Qed.
