(* ===== verification/Downstream.v ===== *)
(** * The client's side of a stream (the writers of src/src/lib/protocol/handle-protocol.mjs and
    src/src/lib/pool/api-protocol.mjs, src/src/lib/http/respond.mjs)

    A response is the list of what was done to it.  The lines of a Messages stream are written in the protocol of
    the client, which holds the state of its conversion; the input that the gateway added is taken off the
    usage they show (src/src/lib/identity/crs-persona-usage.mjs). *)

From stdpp Require Import gmap strings.
From S2P Require Import Prelude.
From S2P Require Import JsValue.
From S2P Require Import JsText.
From S2P Require Import JsJson.
From S2P Require Import JsonParse.
From S2P Require Import Streams.
#[local] Open Scope string_scope.
#[local] Open Scope list_scope.
#[local] Open Scope js_scope.

(** [Json]: a status and a whole body; [SseHeaders]: a stream is opened; [End]: it is ended. *)
Inductive act := SseHeaders | Write (chunk : string) | End | Json (status body : jsval).
Notation acts := (list act).
Definition opens (a : act) : bool := match a with SseHeaders | Json _ _ => true | _ => false end.
Definition headersSent (r : acts) : bool := existsb opens r.
(** [if (!res.headersSent) writeSSEHeaders(res)] *)
Definition open_stream (r : acts) : acts := if headersSent r then r else r ++ [SseHeaders].
Definition write (chunk : string) (r : acts) : acts := open_stream r ++ [Write chunk].

Definition ended_line (line : string) : string := if ends_with newline line then line else (line ++ newline)%string.
Definition data_frame (chunk : jsval) : string := ("data: " ++ default "undefined" (stringify chunk) ++ newline ++ newline)%string.
Definition writeChunks (chunks : list jsval) (r : acts) : acts := fold_left (fun r c => write (data_frame c) r) chunks r.

Inductive converter := Verbatim | ToChat (st : chat_state) | ToCompletion (st : completion_state) | ToResponses (st : responses_state).
(** [random], [random']: what the creation of the state draws. *)
Definition converter_for (protocol : string) (model : jsval) (random random' : string) : converter :=
  if String.eqb protocol "openai.chat" then ToChat (createOpenAIChatStreamState random model)
  else if String.eqb protocol "openai.completions" then ToCompletion (createOpenAICompletionStreamState random random' model)
  else if String.eqb protocol "openai.responses" then ToResponses (createResponsesStreamState random model)
  else Verbatim.

(** The clock and the id drawn when a line is written. *)
Definition write_line (now : Z) (random line : string) (c : converter) (r : acts) : converter * acts :=
  match c with
  | Verbatim => (c, write (ended_line line) r)
  | ToChat st => let '(chunks, st) := claudeSSELineToOpenAIChatChunks now line st in (ToChat st, writeChunks chunks r)
  | ToCompletion st => let '(chunks, st) := claudeSSELineToOpenAICompletionChunks now line st in (ToCompletion st, writeChunks chunks r)
  | ToResponses st => let '(chunks, st) := claudeSSELineToResponsesEvents random line st in (ToResponses st, writeChunks chunks r)
  end.

(** ** Usage as it is shown

    What is hidden is a number, or a number with fields of its own; the latter is the object of its fields. *)

Record hidden := { h_official : num; h_overlay : num; h_tools : num; h_wipeCache : bool; h_inputHide : num }.
Definition whole (v : jsval) : num := num_max (Fin 0) (num_floor (num_or_zero v)).
Definition parseHideTokens (hideTokens : jsval) : hidden :=
  let plain := {| h_official := whole hideTokens; h_overlay := Fin 0; h_tools := Fin 0; h_wipeCache := false; h_inputHide := whole hideTokens |} in
  if negb (truthy hideTokens && is_object hideTokens) then plain
  else
    let official := whole (hideTokens?."official") in
    let overlay := whole (hideTokens?."overlay") in
    let tools := whole (hideTokens?."tools") in
    let wipeCache := truthy (hideTokens?."wipeCache") in
    let uncached := if is_nullish (hideTokens?."uncached") then Fin 0 else whole (hideTokens?."uncached") in
    let inputHide := if is_nullish (hideTokens?."inputHide") then num_add (num_add uncached overlay) tools else whole (hideTokens?."inputHide") in
    if existsb (fun n => truthy (JNum n)) [official; overlay; tools; inputHide] || wipeCache
    then {| h_official := official; h_overlay := overlay; h_tools := tools; h_wipeCache := wipeCache; h_inputHide := inputHide |}
    else plain.
Definition hides_nothing (h : hidden) : bool :=
  negb (existsb (fun n => truthy (JNum n)) [h_official h; h_overlay h; h_tools h; h_inputHide h] || h_wipeCache h).

(** Set to zero where it is set. *)
Definition zero_at (k : string) (v : jsval) : jsval := if is_nullish (v?.k) then v else with_field v k (jint 0).
Definition zero_details (k : string) (ks : list string) (v : jsval) : jsval :=
  if truthy (v?.k) && is_object (v?.k) then with_field v k (fold_left (fun d j => with_field d j (jint 0)) ks (own (v?.k))) else v.
Definition wipeOfficialCache (out : jsval) : jsval :=
  let out := fold_left (fun out k => zero_at k out)
               ["cache_read_input_tokens"; "cache_read_tokens"; "cache_creation_input_tokens"; "cache_creation_tokens"] out in
  let creation := out?."cache_creation" in
  let out := if truthy creation && is_object creation
             then with_field out "cache_creation" (zero_at "ephemeral_1h_input_tokens" (zero_at "ephemeral_5m_input_tokens" (own creation))) else out in
  zero_details "input_tokens_details" ["cached_tokens"; "cache_write_tokens"]
    (zero_details "prompt_tokens_details" ["cached_tokens"; "cache_creation_tokens"] out).

Definition count_at (k : string) (v : jsval) : option num := if is_nullish (v?.k) then None else Some (num_or_zero (v?.k)).
Definition input_key (v : jsval) : string :=
  if is_nullish (v?."input_tokens") && negb (is_nullish (v?."prompt_tokens")) then "prompt_tokens" else "input_tokens".
Definition take_input (hide : num) (out : jsval) : jsval :=
  let key := input_key out in
  let n := num_or_zero (out?.key) in
  let taken := num_min n hide in
  if num_ltb (Fin 0) hide && num_ltb (Fin 0) taken then
    let out := with_field out key (JNum (num_sub n taken)) in
    if String.eqb key "input_tokens" && negb (is_nullish (out?."prompt_tokens"))
    then with_field out "prompt_tokens" (JNum (num_max (Fin 0) (num_sub (num_or_zero (out?."prompt_tokens")) taken))) else out
  else out.
Definition or_count (a b : option num) : option num := match a with Some _ => a | None => b end.
Definition sum_total (out : jsval) : jsval :=
  match is_nullish (out?."total_tokens"), or_count (count_at "input_tokens" out) (count_at "prompt_tokens" out),
        or_count (count_at "output_tokens" out) (count_at "completion_tokens" out) with
  | false, Some input, Some output => with_field out "total_tokens" (JNum (num_add input output))
  | _, _, _ => out
  end.
Definition hidePersonaUsage (usage hideTokens : jsval) : jsval :=
  let h := parseHideTokens hideTokens in
  if negb (truthy usage && is_object usage) || hides_nothing h then usage
  else
    let out := own usage in
    let creation := usage?."cache_creation" in
    let out := if truthy creation && is_object creation then with_field out "cache_creation" (own creation) else out in
    let out := if h_wipeCache h then wipeOfficialCache out else out in
    sum_total (take_input (h_inputHide h) out).
Definition hidePersonaUsageInEvent (event hideTokens : jsval) : jsval :=
  if negb (truthy event && is_object event) || negb (truthy hideTokens) then event
  else
    let out := own event in
    let out := if truthy (out?."usage") then with_field out "usage" (hidePersonaUsage (out?."usage") hideTokens) else out in
    let message := out?."message" in
    if truthy message && is_object message && truthy (message?."usage")
    then with_field out "message" (with_own message "usage" (hidePersonaUsage (message?."usage") hideTokens)) else out.
(** The blanks after [data:], and the rest of a text without a line break. *)
Fixpoint leading_blanks (s : string) : string :=
  match s with String c r => if is_space c then String c (leading_blanks r) else "" | EmptyString => "" end.
(** What the dot of a regular expression does not match. *)
Definition LINE_BREAKS : list string := [newline; String "013" ""; String "226" (String "128" (String "168" "")); String "226" (String "128" (String "169" ""))].
Definition hidePersonaUsageInSseLine (line : string) (hideTokens : jsval) : string :=
  if negb (truthy hideTokens) || negb (starts_with "data:" line) then line
  else
    let rest := drop_chars 5 line in
    let blanks := leading_blanks rest in
    let data := drop_chars (String.length blanks) rest in
    if negb (nonempty data) || existsb (includes data) LINE_BREAKS || String.eqb data "[DONE]" then line
    else match json_parse data with
         | Some event => ("data:" ++ blanks ++ default "undefined" (stringify (hidePersonaUsageInEvent event hideTokens)))%string
         | None => line
         end.
Definition hidePersonaUsageOnMessage (body hideTokens : jsval) : jsval :=
  if negb (truthy body && is_object body) || negb (truthy hideTokens) || negb (truthy (body?."usage")) then body
  else with_own body "usage" (hidePersonaUsage (body?."usage") hideTokens).

Example hidden_ex :
  let usage (n : Z) := JObj [("input_tokens", jint n); ("output_tokens", jint 7); ("total_tokens", jint (n + 7))] in
  map (hidePersonaUsage (usage 50%Z)) [jint 0; jint 30; jint 90; JObj [("official", jint 30); ("tools", jint 5); ("inputHide", jint 5)]] =
  map usage [50%Z; 20%Z; 0%Z; 45%Z].
Proof. vm_compute. reflexivity. Qed.


(** ** One answer *)

Definition is_write (a : act) : bool := match a with Write _ => true | _ => false end.
(** Nothing yet, or a stream that was opened and is being written. *)
Definition open_or_empty (r : acts) : Prop := r = [] \/ exists ws, r = SseHeaders :: ws /\ forallb is_write ws = true.
(** A status with a body, or a stream that was opened once, written and ended. *)
Definition answered_once (r : acts) : Prop :=
  (exists status body, r = [Json status body]) \/ (exists ws, r = SseHeaders :: ws ++ [End] /\ forallb is_write ws = true).

Lemma open_or_empty_sent r : open_or_empty r -> headersSent r = negb (match r with [] => true | _ => false end).
Proof. intros [->|(ws & -> & _)]; done. Qed.
Lemma open_stream_ok r : open_or_empty r -> exists ws, open_stream r = SseHeaders :: ws /\ forallb is_write ws = true.
Proof.
  intros H. unfold open_stream. rewrite (open_or_empty_sent r H). destruct H as [->|(ws & -> & Hw)]; [by exists []|by exists ws].
Qed.
Lemma write_ok chunk r : open_or_empty r -> open_or_empty (write chunk r).
Proof.
  intros H. destruct (open_stream_ok r H) as (ws & E & Hw). right. exists (ws ++ [Write chunk]). unfold write. rewrite E.
  split; [done|]. by rewrite forallb_app, Hw.
Qed.
Lemma writeChunks_ok chunks r : open_or_empty r -> open_or_empty (writeChunks chunks r).
Proof. unfold writeChunks. revert r. induction chunks as [|c l IH]; intros r H; [done|]. by apply IH, write_ok. Qed.
Lemma write_line_ok now random line c r : open_or_empty r -> open_or_empty (write_line now random line c r).2.
Proof.
  intros H. destruct c as [|st|st|st]; cbn [write_line].
  - by apply write_ok.
  - destruct (claudeSSELineToOpenAIChatChunks _ _ _). by apply writeChunks_ok.
  - destruct (claudeSSELineToOpenAICompletionChunks _ _ _). by apply writeChunks_ok.
  - destruct (claudeSSELineToResponsesEvents _ _ _). by apply writeChunks_ok.
Qed.

Lemma json_answers status body r : open_or_empty r -> headersSent r = false -> answered_once (r ++ [Json status body]).
Proof. intros [->|(ws & -> & _)] H; [left; by exists status, body|done]. Qed.
Lemma end_answers r : open_or_empty r -> headersSent r = true -> answered_once (r ++ [End]).
Proof. intros [->|(ws & -> & Hw)] H; [done|]. right. by exists ws. Qed.

#[export] Hint Resolve write_ok writeChunks_ok write_line_ok : downstream.
