(* ===== verification/ApiCall.v ===== *)
(** * A request to an endpoint of another provider (src/src/lib/pool/api-protocol.mjs, readApiJson of
    src/src/lib/transport/api-kernel-client.mjs)

    The endpoint, its key and its model are picked, the request is sent through the kernel, and its stream is collected
    or written to the client in its protocol.  The kernel is an argument: what it replies to a call. *)

From Stdlib Require Import QArith Lqa Lia.
From stdpp Require Import gmap strings.
From S2P Require Import Prelude.
From S2P Require Import JsValue.
From S2P Require Import JsRegex.
From S2P Require Import JsText.
From S2P Require Import JsDate.
From S2P Require Import IsoTime.
From S2P Require Import JsJson.
From S2P Require Import Sanitize.
From S2P Require Import JsonParse.
From S2P Require Import Streams.
From S2P Require Import CodexAnswer.
From S2P Require Import WorkerStream.
From S2P Require Import ApiPool.
From S2P Require Import ApiOpenai.
From S2P Require Import Downstream.
#[local] Open Scope string_scope.
#[local] Open Scope list_scope.
#[local] Open Scope js_scope.

(** [req] has the kind and the record of its key, and its headers. *)
Definition on_api (v : jsval) : bool := String.eqb (to_lower (to_string v)) "api".
Definition resolveInferenceBackend (req headers : jsval) : string :=
  if is_str (req?."apiKeyKind") "managed" then if on_api (req?."apiKeyRecord"?."category" ||| JStr "oauth") then "api" else "oauth"
  else if is_str (req?."apiKeyKind") "master" then if on_api (headers?."x-kin-backend" ||| JStr "") then "api" else "oauth"
  else "oauth".

Definition joinHeaderMap (headers : jsval) : jsval :=
  JObj (map (fun e => (e.1, JStr (to_string e.2))) (List.filter (fun e => negb (is_nullish e.2 || is_str e.2 "")) (entries headers))).

(** The lines that [onLine] is given, and the error that ends the stream. *)
Fixpoint complete_lines (chunks : list string) (buf : string) : list string * string :=
  match chunks with
  | [] => ([], buf)
  | chunk :: chunks =>
    let '(lines, buf) := cut_lines (buf ++ decode chunk)%string in
    let '(more, buf) := complete_lines chunks buf in
    (lines ++ more, buf)
  end.
Definition readLines (r : response) : list string * option thrown :=
  let '(lines, buf) := complete_lines (chunks r) "" in
  match failure r with
  | Some t => (lines, Some t)
  | None => (if nonempty buf then lines ++ [buf] else lines, None)
  end.

Definition readApiJson (r : response) : option jsval :=
  match readAll r MAX_BODY with
  | inl _ => None
  | inr bytes => Some (default (JStr (decode bytes)) (json_parse (decode bytes)))
  end.

Record call := { f_url : string; f_headers : jsval; f_body : jsval; f_proxy : jsval }.

(** What a request leaves: the pool, the store of endpoints, the response of the client, and a result or an
    exception. *)
Record outcome := { o_pool : scheduler; o_store : list jsval; o_response : acts; o_result : thrown + jsval }.

(** [UPDATE api_endpoint_keys SET cooldown_until = ? WHERE id = ?], as [listRaw] shows it. *)
Definition cool_key (id until : jsval) (key : jsval) : jsval :=
  if same_value (key?."id") id then with_field key "cooldown_until" until else key.
Definition setKeyCooldown (id until : jsval) (eps : list jsval) : list jsval :=
  map (fun ep => with_field ep "api_key_entries" (JArr (map (cool_key id until) (arr_of (ep?."api_key_entries"))))) eps.

Definition api_error (code : jsval) (message : string) : jsval :=
  JObj [("type", JStr "error"); ("error", JObj ([("type", JStr "api_error")] ++ (if is_nullish code then [] else [("code", code)]) ++ [("message", JStr message)]))].
Definition not_picked (code message : string) : jsval :=
  JObj [("ok", JBool false); ("status", jint (if String.eqb code "model_not_found" then 404 else 503)); ("via", JStr "api-kernel");
        ("body", api_error (JStr code) message); ("terminalState", JStr "exhausted")].
Definition not_sent (t : thrown) : jsval :=
  JObj [("ok", JBool false); ("status", jint 502); ("via", JStr "api-kernel");
        ("body", api_error (t_code t ||| JStr "api_kernel_transport") (take_chars 300 (t_message t)));
        ("terminalState", JStr "transport_error"); ("transportError", JBool true)].
Definition result_base (p : picked) (status : Z) (headers : jsval) : fields :=
  [("ok", JBool ((200 <=? status)%Z && (status <? 300)%Z)); ("status", jint status); ("via", JStr "api-kernel"); ("vmId", JNull);
   ("accountId", k_key p?."id"); ("endpointId", k_endpoint p?."id"); ("model", JStr (upstream_model p)); ("headers", headers)].
(** [{ ...resultBase, ...f }] *)
Definition with_base (base f : fields) : jsval := JObj (fold_left (fun acc e => set_field e.1 e.2 acc) f base).
Definition base_ok (base : fields) : bool := truthy (assoc "ok" base).
Definition verified_or_rejected (base : fields) : jsval := JStr (if base_ok base then "verified" else "rejected").
Definition ends_state (done committed : bool) : jsval := JStr (if done then "verified" else if committed then "incomplete" else "rejected").

Definition is_data (line : string) : bool := starts_with "data:" line.
Definition COMPLETED_EVENT : rx := RSeq (lit "response.") (lits ["completed"; "done"]).

Section Call.
Context (protocol : string) (inbound : jsval) (clientStream : bool) (deliveryMode : string).
(** [hidePersonaUsageInSseLine]; the clock and what is drawn at a line; what is drawn for the conversion. *)
Context (hide_line : string -> string) (now : nat -> Z) (random : nat -> string) (drawn drawn' : string).

(** The first line of data, for the time to the first token. *)
Definition ttft (started : Z) (lines : list string) : jsval :=
  match list_find (fun line => is_data line = true) lines with Some (i, _) => jint (now i - started) | None => JNull end.
Definition streamed (base : fields) (started : Z) (lines : list string) (sawStop accepted : bool) : jsval :=
  let committed := existsb is_data lines in
  with_base base [("ok", JBool (base_ok base && (negb (String.eqb deliveryMode "verified") || accepted))); ("terminalState", ends_state sawStop committed);
                  ("committed", JBool committed); ("ttftMs", ttft started lines)].

(** ** A stream of Messages *)

Fixpoint write_lines (i : nat) (lines : list string) (c : converter) (r : acts) : acts :=
  match lines with
  | [] => r
  | line :: lines => let '(c, r) := write_line (now i) (random i) line c r in write_lines (S i) lines c r
  end.
Definition messages_collected (base : fields) (lines : list string) : jsval :=
  let message := a_message (fold_left (fun a line => applyClaudeSSELineToMessage line a) lines createClaudeMessageAssembler) in
  with_base base [("ok", JBool (base_ok base && truthy message));
                  ("body", message ||| JObj [("type", JStr "error"); ("error", JObj [("message", JStr "empty api upstream")])]);
                  ("usage", message?."usage" ||| JNull); ("terminalState", verified_or_rejected base);
                  ("committed", JBool (existsb is_data lines))].
Definition runMessagesUpstream (u : response) (base : fields) (body : jsval) (started : Z) (res : acts) : acts * (thrown + jsval) :=
  let '(lines, failed) := readLines u in
  if clientStream then
    let lines := map hide_line lines in
    let res := write_lines 0 lines (converter_for protocol (inbound?."model" ||| body?."model") drawn drawn') res in
    let sawStop := existsb (fun line => includes line "message_stop") lines in
    (res, match failed with Some t => inl t | None => inr (streamed base started lines sawStop sawStop) end)
  else (res, match failed with Some t => inl t | None => inr (messages_collected base lines) end).

(** ** A stream of Responses *)

(** A line as it is written, the state of the Messages stream, and whether the line says that the answer is
    complete; none: a TypeError. *)
Definition write_event (line : string) (sse : sse_state) (res : acts) : option (sse_state * acts * bool) :=
  let res := open_stream res in
  if String.eqb protocol "openai.responses" then Some (sse, Downstream.write (ended_line line) res, rx_test COMPLETED_EVENT line)
  else if mem protocol ["openai.chat"; "openai.completions"] then
    option_map (fun chunk => match chunk with
                             | Some c => (sse, Downstream.write c res, includes c "[DONE]")
                             | None => (sse, res, false) end) (responsesSseToChatChunk line "codex")
  else
    let '(chunk, sse) := responsesSseToAnthropicEvents line sse in
    Some match chunk with Some c => (sse, Downstream.write c res, includes c "message_stop") | None => (sse, res, false) end.
Fixpoint write_events (lines : list string) (sse : sse_state) (res : acts) (completed : bool) : acts * option bool :=
  match lines with
  | [] => (res, Some completed)
  | line :: lines =>
    match write_event line sse res with
    | Some (sse, res, c) => write_events lines sse res (completed || c)
    | None => (open_stream res, None)
    end
  end.
Definition TYPE_ERROR : thrown := {| t_code := JUndef; t_message := "Cannot read properties of null" |}.

Definition responses_collected (base : fields) (body : jsval) (lines : list string) : jsval :=
  let assembled := assembleCodexBodyFromSse lines (JObj []) in
  let outBody := if String.eqb protocol "anthropic.messages" then codexBodyToAnthropicMessage assembled (inbound?."model" ||| body?."model") else assembled in
  with_base base [("ok", JBool (base_ok base && (truthy (assembled?."output") || truthy (assembled?."id") || truthy outBody))); ("body", outBody);
                  ("usage", assembled?."usage" ||| outBody?."usage" ||| JNull); ("terminalState", verified_or_rejected base); ("committed", JBool true)].
Definition runOpenAIResponsesUpstream (u : response) (base : fields) (body : jsval) (started : Z) (res : acts) : acts * (thrown + jsval) :=
  let '(lines, failed) := readLines u in
  if clientStream then
    match write_events lines createAnthropicSseState res false with
    | (res, None) => (res, inl TYPE_ERROR)
    | (res, Some completed) =>
      (res, match failed with Some t => inl t | None => inr (streamed base started lines completed (completed || existsb is_data lines)) end)
    end
  else (res, match failed with Some t => inl t | None => inr (responses_collected base body lines) end).

(** ** The whole call *)

Definition upstream_call (p : picked) (canonical : jsval) : bool * jsval * call :=
  let ep := k_endpoint p in
  let preset := resolvePreset (ep?."kind") ep in
  let kind := normalizeProtocol (ep?."protocol" ||| JStr (wire_name (p_protocol preset))) (p_kind preset) in
  let extraHeaders := joinHeaderMap (ep?."headers") in
  let scheme := ep?."auth_scheme" ||| extraHeaders?."auth_scheme" ||| extraHeaders?."anthropic_apikey_auth_scheme" in
  let isOpenAI := bool_decide (kind = Openai) in
  let sent := with_own canonical "model" (JStr (upstream_model p)) in
  let body := with_own (if isOpenAI then claudeToOpenAIResponsesRequest sent else sent) "stream" (JBool true) in
  let headers := fold_left (fun f e => set_field e.1 e.2 f)
                   (entries (upstreamAuthHeaders kind (k_key p?."api_key") (with_own extraHeaders "auth_scheme" scheme)))
                   [("content-type", JStr "application/json"); ("accept", JStr "text/event-stream")] in
  let base := JStr (p_base_url preset) in
  (isOpenAI, body, {| f_url := if isOpenAI then responsesUrl base else messagesUrl base; f_headers := JObj headers; f_body := body;
                      f_proxy := k_key p?."proxy_url" |}).

(** The rest after a refusal of the provider; [recorded]: the store takes the write, whose exception is swallowed.
    None: a RangeError of the date. *)
Definition rest_after_429 (recorded : bool) (p : picked) (u : response) (at_ : Z) (pool : scheduler) (store : list jsval) : option (scheduler * list jsval) :=
  let retry := to_number (r_headers u?."retry-after" ||| jint 30) in
  until ← num_to_iso (num_add (num_of_Z at_) (num_mul (num_max (Fin 1) retry) (num_of_Z 1000)));
  let store := if recorded then setKeyCooldown (k_key p?."id") (JStr until) store else store in
  Some (reload (JArr store) pool, store).
Definition RANGE_ERROR : thrown := {| t_code := JUndef; t_message := "Invalid time value" |}.

Context (forward : call -> reply).
(** [recorded]: the store takes the write of a rest.  [at_], [at_429], [started]: the clock when the endpoint is picked,
    when it refuses, and when its stream begins. *)
Context (recorded : bool).
Definition runApiInference (convertedBody : jsval) (at_ at_429 started : Z) (pool : scheduler) (store : list jsval) (res : acts) : outcome :=
  let leave pool store res result := {| o_pool := pool; o_store := store; o_response := res; o_result := result |} in
  match officialMessagesBody convertedBody None with
  | None => leave pool store res (inl TYPE_ERROR)
  | Some canonical =>
    let '(pool, picked) := pick pool (canonical?."model") at_ in
    match picked with
    | NotPicked code message => leave pool store res (inr (not_picked code message))
    | Picked p =>
      let '(isOpenAI, body, c) := upstream_call p canonical in
      match forward c with
      | inl t => leave pool store res (inr (not_sent t))
      | inr u =>
        let status := if (statusCode u =? 0)%Z then 502%Z else statusCode u in
        let rested := if (status =? 429)%Z && negb (truthy (k_endpoint p?."disable_cooling")) then rest_after_429 recorded p u at_429 pool store else Some (pool, store) in
        match rested with
        | None => leave pool store res (inl RANGE_ERROR)
        | Some (pool, store) =>
          let base := result_base p status (r_headers u) in
          if (400 <=? status)%Z then
            let payload := default (JObj []) (readApiJson u) in
            let message := payload?."error"?."message" ||| payload?."message" ||| JStr ("upstream " ++ Z_to_string status)%string in
            leave pool store res (inr (with_base base [("ok", JBool false); ("body", api_error JUndef (take_chars 300 (to_string message)));
                                                       ("terminalState", JStr "rejected")]))
          else
            let '(res, result) := (if isOpenAI then runOpenAIResponsesUpstream else runMessagesUpstream) u base body started res in
            leave pool store res result
        end
      end
    end
  end.
End Call.

(** ** Facts on requests to endpoints of other providers

    A key that a provider refuses for its rate rests; the response of a client holds at most an open stream,
    and nothing when the client does not stream.  The last section shows where the conversions lose what
    was sent. *)

(** ** A refused key *)

Lemma cooled_key id until store : forall ep key, ep ∈ setKeyCooldown id until store -> key ∈ arr_of (ep?."api_key_entries") ->
  same_value (key?."id") id = true -> key?."cooldown_until" = until \/ exists k, key = with_field k "cooldown_until" until.
Proof.
  intros ep key He Hk Hs. unfold setKeyCooldown in He. apply list_elem_of_fmap in He as (ep0 & -> & _).
  unfold with_field at 1 in Hk. cbn [get] in Hk. rewrite assoc_set_eq in Hk. cbn [arr_of] in Hk.
  apply list_elem_of_fmap in Hk as (k0 & -> & _). unfold cool_key in *. destruct (same_value (k0?."id") id) eqn:E; [right; by exists k0|congruence].
Qed.

Lemma cooled_until id until ep key store : ep ∈ setKeyCooldown id until store -> key ∈ arr_of (ep?."api_key_entries") ->
  same_value (key?."id") id = true -> key?."cooldown_until" = until.
Proof.
  intros He Hk Hs. destruct (cooled_key id until store ep key He Hk Hs) as [H|[k ->]]; [done|]. unfold with_field. cbn [get]. apply assoc_set_eq.
Qed.

Definition cools (eps : list jsval) : Prop := forall ep, ep ∈ eps -> truthy (ep?."disable_cooling") = false.
Lemma setKeyCooldown_cools id until store : cools store -> cools (setKeyCooldown id until store).
Proof.
  intros H ep He. unfold setKeyCooldown in He. apply list_elem_of_fmap in He as (ep0 & -> & He).
  rewrite get_with_field_ne by discriminate. by apply H.
Qed.

Lemma date_of_iso n until : num_to_iso n = Some until -> exists z, date_parse until = num_of_Z z /\
  (num_leb (Fin 0) n = true -> num_ltb n (num_of_Z (z + 1)) = true).
Proof.
  destruct n as [q| | |]; cbn [num_to_iso]; try done. intros H. apply iso_roundtrip in H. eexists. split; [exact H|].
  intros Hq. apply num_leb_Fin in Hq. rewrite (proj2 (Qle_bool_iff 0 q) Hq). apply num_ltb_Fin.
  apply Qlt_floor.
Qed.

(** How long a key rests, by the header of the refusal. *)
Definition rest_end (u : response) (at_ : Z) : num :=
  num_add (num_of_Z at_) (num_mul (num_max (Fin 1) (to_number (r_headers u?."retry-after" ||| jint 30))) (num_of_Z 1000)).

Lemma num_max_1 n : num_max (Fin 1) n = NaN \/ num_leb (Fin 1) (num_max (Fin 1) n) = true.
Proof.
  destruct n as [q| | |]; cbn [num_max num_leb]; try (by left); right; try reflexivity.
  destruct (Qle_bool 1 q) eqn:E; [exact E|reflexivity].
Qed.
Lemma rest_end_nonneg u at_ until : (0 <= at_)%Z -> num_to_iso (rest_end u at_) = Some until -> num_leb (Fin 0) (rest_end u at_) = true.
Proof.
  intros Ha. unfold rest_end. destruct (num_max_1 (to_number (r_headers u?."retry-after" ||| jint 30))) as [->|H]; [done|].
  destruct (num_max _ _) as [q| | |]; cbn [num_of_Z num_mul num_add num_to_iso]; try done.
  intros _. apply num_leb_Fin in H. apply num_leb_Fin.
  assert (0 <= inject_Z at_)%Q by (change 0%Q with (inject_Z 0); by rewrite <- Zle_Qle).
  rewrite !Qred_correct. change (inject_Z 1000) with 1000%Q. nra.
Qed.

Lemma rested_key p u at_ pool store pool' store' model now q : (0 <= at_)%Z -> cools store ->
  rest_after_429 true p u at_ pool store = Some (pool', store') -> (pick pool' model now).2 = Picked q ->
  same_value (k_key q?."id") (k_key p?."id") = true -> num_ltb (rest_end u at_) (num_of_Z (now + 1)) = true.
Proof.
  intros Ha Hc Hr Hq Hs. unfold rest_after_429 in Hr. fold (rest_end u at_) in Hr.
  destruct (num_to_iso (rest_end u at_)) as [until|] eqn:Eu; cbn [mbind option_bind] in Hr; [|done]. injection Hr as <- <-.
  destruct (picked_sound _ _ _ _ Hq) as (He & _ & Hk & Hready & _). cbn [reload endpoints arr_of] in He.
  pose proof (cooled_until _ _ _ _ _ He Hk Hs) as Hu. rewrite (setKeyCooldown_cools _ _ _ Hc _ He) in Hready.
  unfold keyReady in Hready. rewrite Hu in Hready. destruct (_ || truthy (_?."disabled")); [done|]. cbn [orb truthy to_string] in Hready.
  destruct (date_of_iso _ _ Eu) as (z & Hz & Hlt). specialize (Hlt (rest_end_nonneg u at_ until Ha Eu)).
  destruct (String.eqb until "") eqn:En.
  { apply String.eqb_eq in En. rewrite En in Hz. by vm_compute in Hz. }
  cbn [negb] in Hready. rewrite Hz in Hready. apply num_leb_Z in Hready.
  eapply num_ltb_leb_trans; [exact Hlt|]. apply num_leb_Z. lia.
Qed.

(** ** What a call leaves *)

Lemma with_base_status p status headers f : assoc "status" f = JUndef -> has_key "status" f = false ->
  (with_base (result_base p status headers) f)?."status" = jint status.
Proof.
  intros _ Hk. unfold with_base, get. assert (H : forall base, assoc "status" (fold_left (fun acc e => set_field e.1 e.2 acc) f base) = assoc "status" base).
  { revert Hk. induction f as [|[k v] f IH]; intros Hk base; cbn [fold_left]; [done|]. cbn [has_key] in Hk. apply orb_false_iff in Hk as [Hk Hf].
    rewrite IH by done. cbn [fst snd]. apply assoc_set_ne. by apply String.eqb_neq. }
  by rewrite H.
Qed.

Section Facts.
Context (protocol : string) (inbound : jsval) (clientStream : bool) (deliveryMode : string).
Context (hide_line : string -> string) (clock : nat -> Z) (random : nat -> string) (drawn drawn' : string) (forward : call -> reply).
#[local] Notation api := (runApiInference protocol inbound clientStream deliveryMode hide_line clock random drawn drawn' forward).

Lemma upstream_status isOpenAI p status headers u body started res res' result :
  (if isOpenAI : bool then runOpenAIResponsesUpstream protocol inbound clientStream deliveryMode clock
   else runMessagesUpstream protocol inbound clientStream deliveryMode hide_line clock random drawn drawn') u (result_base p status headers) body started res
    = (res', inr result) -> result?."status" = jint status.
Proof.
  unfold runOpenAIResponsesUpstream, runMessagesUpstream. destruct isOpenAI, (readLines u) as [lines failed], clientStream.
  - destruct (write_events _ _ _ _ _) as [r [c|]]; [|done]. destruct failed; [done|]. intros [= _ <-]. by apply with_base_status.
  - destruct failed; [done|]. intros [= _ <-]. by apply with_base_status.
  - destruct failed; [done|]. intros [= _ <-]. by apply with_base_status.
  - destruct failed; [done|]. intros [= _ <-]. by apply with_base_status.
Qed.

(** A client that does not stream is not written to, one that streams gets an open stream at most. *)
Lemma write_lines_ok lines i c r : open_or_empty r -> open_or_empty (write_lines clock random i lines c r).
Proof.
  revert i c r. induction lines as [|line lines IH]; intros i c r H; cbn [write_lines]; [done|].
  destruct (write_line (clock i) (random i) line c r) as [c' r'] eqn:E. apply IH. pose proof (write_line_ok (clock i) (random i) line c r H) as H'. by rewrite E in H'.
Qed.
Lemma open_stream_shape r : open_or_empty r -> open_or_empty (open_stream r).
Proof. intros H. destruct (open_stream_ok r H) as (ws & -> & Hw). right. by exists ws. Qed.
Lemma write_event_ok line sse r sse' r' c : open_or_empty r -> write_event protocol line sse r = Some (sse', r', c) -> open_or_empty r'.
Proof.
  intros H%open_stream_shape. unfold write_event. destruct (String.eqb protocol "openai.responses"); [intros [= _ <- _]; by apply write_ok|].
  destruct (mem protocol _).
  - destruct (responsesSseToChatChunk line "codex") as [[chunk|]|]; cbn [option_map]; [intros [= _ <- _]; by apply write_ok|by intros [= _ <- _]|done].
  - destruct (responsesSseToAnthropicEvents line sse) as [[chunk|] s]; intros [= _ <- _]; [by apply write_ok|done].
Qed.
Lemma write_events_ok lines sse r done_ : open_or_empty r -> open_or_empty (write_events protocol lines sse r done_).1.
Proof.
  revert sse r done_. induction lines as [|line lines IH]; intros sse r d H; cbn [write_events]; [done|].
  destruct (write_event protocol line sse r) as [[[s r'] c]|] eqn:E; [|by apply open_stream_shape]. apply IH. by eapply write_event_ok.
Qed.
Lemma upstream_response isOpenAI u base body started res : open_or_empty res ->
  let out := (if isOpenAI : bool then runOpenAIResponsesUpstream protocol inbound clientStream deliveryMode clock
   else runMessagesUpstream protocol inbound clientStream deliveryMode hide_line clock random drawn drawn') u base body started res in
  open_or_empty out.1 /\ (clientStream = false -> out.1 = res).
Proof.
  intros H. unfold runOpenAIResponsesUpstream, runMessagesUpstream. destruct isOpenAI, (readLines u) as [lines failed], clientStream; cbn [fst]; try done.
  - pose proof (write_events_ok lines createAnthropicSseState res false H) as Hw. by destruct (write_events _ _ _ _ _) as [r [c|]].
  - split; [|done]. by apply write_lines_ok.
Qed.
Lemma api_response recorded convertedBody at_ at_429 started pool store res : open_or_empty res ->
  let o := api recorded convertedBody at_ at_429 started pool store res in
  open_or_empty (o_response o) /\ (clientStream = false -> o_response o = res).
Proof.
  intros H. cbv zeta. unfold runApiInference.
  destruct (officialMessagesBody convertedBody None) as [canonical|]; [|done].
  destruct (pick _ _ _) as [pool1 [p|code message]]; [|done]. destruct (upstream_call p canonical) as [[isOpenAI body] c].
  destruct (forward c) as [t|u]; [done|]. destruct (if _ && _ then _ else _) as [[pool' store']|]; [|done].
  destruct (_ <=? _)%Z; [done|].
  pose proof (upstream_response isOpenAI u (result_base p (if (statusCode u =? 0)%Z then 502%Z else statusCode u) (r_headers u)) body started res H) as Hu.
  destruct ((if isOpenAI then _ else _) u _ body started res) as [r x]. exact Hu.
Qed.

(** C28: When the provider answers 429 to the call that is made with a key, and the store takes the write, the key is
    not picked again, whatever the model, before the time that this answer named has passed: the seconds of its
    Retry-After, one at least, and thirty without the header.  This is of endpoints that did not switch the cooling of
    their keys off, and of a Retry-After that is a number: any other text ends the request with an exception ([date_throws]). *)
Theorem refused_key_rests convertedBody at_ at_429 started pool store res canonical p u result model now q :
  (0 <= at_429)%Z -> cools (endpoints pool) -> cools store ->
  officialMessagesBody convertedBody None = Some canonical -> (pick pool (canonical?."model") at_).2 = Picked p ->
  forward (upstream_call p canonical).2 = inr u -> statusCode u = 429%Z ->
  let o := api true convertedBody at_ at_429 started pool store res in
  o_result o = inr result ->
  result?."status" = jint 429 /\ result?."accountId" = k_key p?."id" /\
  ((pick (o_pool o) model now).2 = Picked q -> same_value (k_key q?."id") (k_key p?."id") = true ->
   num_ltb (rest_end u at_429) (num_of_Z (now + 1)) = true).
Proof.
  intros Ha Hp Hst Hc Hpick Hu H429. cbv zeta. unfold runApiInference. rewrite Hc.
  destruct (picked_sound pool (canonical?."model") at_ p Hpick) as (Hin & _).
  destruct (pick pool (canonical?."model") at_) as [pool1 picked]. cbn [snd] in Hpick. subst picked.
  destruct (upstream_call p canonical) as [[isOpenAI body] c]. cbn [snd] in Hu. rewrite Hu, H429, (Hp _ Hin).
  cbn [Z.eqb Pos.eqb negb andb]. destruct (rest_after_429 true p u at_429 pool1 store) as [[pool' store']|] eqn:Er; [|done].
  cbn [Z.leb Z.compare Pos.compare Pos.compare_cont]. cbn [o_result o_pool]. intros [= <-].
  split_and!; [by apply with_base_status|reflexivity|]. intros Hq Hs. by eapply (rested_key p u at_429 pool1 store).
Qed.
End Facts.

(** ** An endpoint *)

Definition endpoint_of (kind : string) : jsval :=
  JObj [("id", JStr "ep_1"); ("name", JStr "pool"); ("kind", JStr kind); ("models", JArr [JObj [("alias", JStr "m"); ("name", JStr "up-m")]]);
        ("api_key_entries", JArr [JObj [("id", JStr "ek_1"); ("api_key", JStr "sk-1234")]])].
Definition pool_of (kind : string) : scheduler := reload (JArr [endpoint_of kind]) new_scheduler.
Definition replied (status : Z) (headers : fields) (chunks : list string) : call -> reply :=
  fun _ => inr {| statusCode := status; r_headers := JObj headers; WorkerStream.chunks := chunks; failure := None; trailers := JObj [] |}.
Definition a_request : jsval := JObj [("model", JStr "m"); ("max_tokens", jint 9); ("messages", JArr [JObj [("role", JStr "user"); ("content", JStr "hi")]])].
Definition no_clock (i : nat) : Z := 0.
Definition no_random (i : nat) : string := "".
Definition called (protocol kind : string) (stream : bool) (forward : call -> reply) : outcome :=
  runApiInference protocol a_request stream "realtime" (fun line => line) no_clock no_random "" "" forward true a_request 0 1000 0 (pool_of kind) [endpoint_of kind] [].

Lemma cools_endpoint kind : cools [endpoint_of kind].
Proof. intros ep He. by apply list_elem_of_singleton in He as ->. Qed.

Definition throttled : response :=
  {| statusCode := 429; r_headers := JObj [("retry-after", JStr "60")]; WorkerStream.chunks := ["{}"]; failure := None; trailers := JObj [] |}.
Lemma refused_key_rests_witness :
  let o := called "anthropic.messages" "claude" false (fun _ => inr throttled) in
  exists result q, o_result o = inr result /\ result?."status" = jint 429 /\
  (pick (o_pool o) (JStr "m") 61000).2 = Picked q /\ num_ltb (rest_end throttled 1000) (num_of_Z (61000 + 1)) = true.
Proof.
  cbv zeta. set (forward := fun _ : call => inr throttled : reply).
  destruct (officialMessagesBody a_request None) as [canonical|] eqn:Ec; [|exfalso; by vm_compute in Ec].
  destruct (pick (pool_of "claude") (canonical?."model") 0).2 as [p|code message] eqn:Ep;
    [|exfalso; vm_compute in Ec; injection Ec as <-; by vm_compute in Ep].
  destruct (o_result (called "anthropic.messages" "claude" false forward)) as [t|result] eqn:Er; [exfalso; by vm_compute in Er|].
  destruct (pick (o_pool (called "anthropic.messages" "claude" false forward)) (JStr "m") 61000).2 as [q|code message] eqn:Eq; [|exfalso; by vm_compute in Eq].
  assert (Hs : same_value (k_key q?."id") (k_key p?."id") = true).
  { vm_compute in Ec. injection Ec as <-. vm_compute in Ep. injection Ep as <-. vm_compute in Eq. injection Eq as <-. vm_compute. reflexivity. }
  destruct (refused_key_rests "anthropic.messages" a_request false "realtime" (fun line => line) no_clock no_random "" "" forward a_request 0 1000 0
    (pool_of "claude") [endpoint_of "claude"] [] canonical p throttled result (JStr "m") 61000 q ltac:(lia) (cools_endpoint _) (cools_endpoint _)
    Ec Ep eq_refl eq_refl Er) as (Hr & _ & Hn).
  exists result, q. split_and!; [done|exact Hr|done|exact (Hn Eq Hs)].
Defined.

(** ** What is lost *)

(** A write that the store refuses is swallowed, and the key is picked again at once. *)
Example unrecorded_rest :
  let o := runApiInference "anthropic.messages" a_request false "realtime" (fun line => line) no_clock no_random "" "" (fun _ => inr throttled) false
             a_request 0 1000 0 (pool_of "claude") [endpoint_of "claude"] [] in
  match (pick (o_pool o) (JStr "m") 1001).2 with Picked q => k_key q?."id" | NotPicked _ _ => JUndef end = JStr "ek_1".
Proof. vm_compute. reflexivity. Qed.

(** A date is a legal value of Retry-After, and throws: the client is told of a server error, and the key does not rest. *)
Example date_throws : match o_result (called "anthropic.messages" "claude" false (replied 429 [("retry-after", JStr "Wed, 21 Oct 2026 07:28:00 GMT")] [])) with
  | inl t => t_message t | inr _ => "" end = "Invalid time value".
Proof. vm_compute. reflexivity. Qed.

(** The calls of tools and the ids of their results are left out of a Responses request, and an empty turn is added. *)
Example calls_lost :
  let turn role block := JObj [("role", JStr role); ("content", JArr [JObj block])] in
  let history := JObj [("model", JStr "m"); ("messages", JArr
    [turn "assistant" [("type", JStr "tool_use"); ("id", JStr "t1"); ("name", JStr "ls"); ("input", JObj [("path", JStr "/")])];
     turn "user" [("type", JStr "tool_result"); ("tool_use_id", JStr "t1"); ("content", JStr "bin")]])] in
  map (fun item => (item?."role", get_at (item?."content") 0?."text")) (arr_of (claudeToOpenAIResponsesRequest history?."input")) =
  [(JStr "assistant", JStr ""); (JStr "user", JStr "bin"); (JStr "user", JStr "")].
Proof. vm_compute. reflexivity. Qed.

(** What an OpenAI endpoint answers to a client of chat completions that does not stream is taken for a message. *)
Definition openai_answer : call -> reply :=
  replied 200 [] [("data: " ++ default "" (stringify (JObj [("type", JStr "response.output_text.delta"); ("delta", JStr "hello")])) ++ newline)%string].
Example body_is_no_message :
  match o_result (called "openai.chat" "openai" false openai_answer) with
  | inr result => (result?."ok", is_array (result?."body"?."content"), is_array (result?."body"?."output"))
  | inl _ => (JNull, true, false)
  end = (JBool true, false, true).
Proof. vm_compute. reflexivity. Qed.

(** A stream has no usage, so that it is charged nothing. *)
Example stream_without_usage :
  match o_result (called "anthropic.messages" "claude" true (replied 200 [] [("data: " ++ default "" (stringify
    (JObj [("type", JStr "message_delta"); ("usage", JObj [("output_tokens", jint 900)])])) ++ newline)%string])) with
  | inr result => (result?."ok", result?."usage", result?."body"?."usage") | inl _ => (JNull, JNull, JNull) end = (JBool true, JUndef, JUndef).
Proof. vm_compute. reflexivity. Qed.
