(* ===== verification/ProxyPool.v ===== *)
(** * The pool of proxies (src/src/lib/vm/proxy-pool.mjs, src/src/lib/db/repos/proxies-repo.mjs)

    Every slot leaves through one proxy, and a proxy serves a few slots.  The pool imports proxies, binds
    slots to them, and probes them: a proxy that fails is taken out with its slots and comes back with
    them.  The working set is kept in memory and written to two tables ([disk]) by [save].  What a socket, the
    egress of a slot and a lookup of a place answer are arguments, as are [new URL] and the time zones of
    [Intl]; the calls made to the VMs are a list. *)

From stdpp Require Import gmap strings.
From S2P Require Import Prelude.
From S2P Require Import JsValue.
From S2P Require Import JsRegex.
From S2P Require Import JsText.
From S2P Require Import JsDate.
From S2P Require Import Eligibility.
From S2P Require Import Ranking.
From S2P Require Import JsJson.
From S2P Require Import JsonParse.
From S2P Require Import Security.
#[local] Open Scope string_scope.
#[local] Open Scope list_scope.
#[local] Open Scope js_scope.
Import Ownership.

(** ** Slots bound to a proxy *)

Definition LOCAL_EGRESS_ID : string := "px-local".
Definition isLocalEgressProxy (proxy : jsval) : bool :=
  truthy proxy && is_object proxy &&
  (String.eqb (trim (str_or_empty (proxy?."id"))) LOCAL_EGRESS_ID ||
   String.eqb (to_lower (trim (str_or_empty (proxy?."scheme" ||| proxy?."kind")))) "local" ||
   String.eqb (to_lower (trim (str_or_empty (proxy?."host")))) "local").

Definition MAX_VMS_PER_PROXY : Z := 5.
Definition BIND_LIMIT_MIN : Z := 1.
Definition BIND_LIMIT_MAX : Z := 32.
Definition DEFAULT_CONFIG : jsval :=
  JObj [("probe_interval_min", jint 10); ("probe_timeout_ms", jint 8000); ("max_failures", jint 2); ("enabled", JBool true);
        ("disconnect_on_error", JBool false); ("geo_timeout_ms", jint 8000); ("follow_proxy_timezone", JBool true);
        ("bind_limit", jint MAX_VMS_PER_PROXY)].

Definition integer_of (n : num) : option Z := match n with Fin x => if is_integer n then Some (Qfloor x) else None | _ => None end.
Definition clampBindLimit (value : jsval) (fallback : Z) : Z :=
  match integer_of (to_number value) with
  | None => fallback
  | Some n => Z.min BIND_LIMIT_MAX (Z.max BIND_LIMIT_MIN n)
  end.

(** The first [room] different names. *)
Fixpoint first_names (room : nat) (seen : list string) (l : list string) : list string :=
  match room, l with
  | S n, id :: l => if negb (nonempty id) || mem id seen then first_names room seen l else id :: first_names n (id :: seen) l
  | _, _ => []
  end.
Definition normalizeVmIds (l : list jsval) : list string := first_names (Z.to_nat BIND_LIMIT_MAX) [] (map (fun v => trim (str_or_empty v)) l).
Definition parse_text (raw : string) : list string :=
  if negb (nonempty raw) then []
  else if starts_with "[" raw then match json_parse raw with Some (JArr l) => normalizeVmIds l | _ => [] end
  else if includes raw "," then normalizeVmIds (map JStr (split_char "," raw))
  else normalizeVmIds [JStr raw].
Definition parseBoundVmIds (value : jsval) : list string :=
  match value with
  | JArr l => normalizeVmIds l
  | _ => match value?."ids" with JArr l => normalizeVmIds l | _ => parse_text (trim (if is_nullish value then "" else to_string value)) end
  end.
Definition encode_names (ids : list string) : jsval :=
  match ids with
  | [] => JNull
  | [id] => JStr id
  | _ => match stringify (jstrs ids) with Some s => JStr s | None => JUndef end
  end.
Definition encodeBoundVmIds (ids : jsval) : jsval := encode_names (parseBoundVmIds ids).

Definition boundVmIdsOf (proxy : jsval) : list string :=
  match proxy?."bound_vm_ids" with
  | JArr (_ :: _) as ids => parseBoundVmIds ids
  | _ => parseBoundVmIds (proxy?."bound_vm_id")
  end.
Definition proxyHasVm (proxy : jsval) (vmId : string) : bool := nonempty vmId && mem vmId (boundVmIdsOf proxy).
Definition first_or_null (ids : list string) : jsval := match ids with id :: _ => JStr id | [] => JNull end.
Definition with_names (p : jsval) (ids : list string) : jsval :=
  with_field (with_field p "bound_vm_ids" (jstrs ids)) "bound_vm_id" (first_or_null ids).
Definition setBoundVmIds (p : jsval) (ids : list string) : jsval := with_names p (parseBoundVmIds (jstrs ids)).
Definition hydrateProxy (p : jsval) : jsval :=
  with_names p (parseBoundVmIds (if truthy (match p?."bound_vm_ids" with JArr l => jint (Z.of_nat (length l)) | JStr s => JStr s | _ => JUndef end)
                                 then p?."bound_vm_ids" else p?."bound_vm_id")).

(** ** What is shown of a proxy *)

Definition or_null (v : jsval) : jsval := v ||| JNull.
Definition GEO_FIELDS : list string := ["ip"; "country"; "country_code"; "region"; "city"; "isp"; "timezone"].
Definition geo_key (k : string) : string := ("geo_" ++ k)%string.
Definition proxyGeoOf (p : jsval) : jsval :=
  if negb (truthy p) || negb (truthy (p?."geo_checked_at") || truthy (p?."geo_ip") || truthy (p?."geo_error")) then JNull
  else JObj (map (fun k => (k, or_null (p?.(geo_key k)))) (GEO_FIELDS ++ ["checked_at"; "error"])).
Definition owner_value (o : option string) : jsval := match o with Some s => JStr s | None => JNull end.
Definition publicProxy (limit : Z) (p : jsval) : jsval :=
  let ids := boundVmIdsOf p in
  let local := isLocalEgressProxy p in
  JObj [("id", p?."id"); ("host", p?."host"); ("port", p?."port"); ("has_auth", JBool (truthy (p?."username" ||| p?."password")));
        ("status", p?."status"); ("enabled", p?."enabled"); ("owner_user_id", owner_value (proxyOwnerId p));
        ("bound_vm_id", first_or_null ids); ("bound_vm_ids", jstrs ids); ("bound_count", jint (Z.of_nat (length ids))); ("bind_limit", jint limit);
        ("consecutive_failures", p?."consecutive_failures" ||| jint 0); ("latency_ms", p?."latency_ms" ?? JNull);
        ("last_probe_at", or_null (p?."last_probe_at")); ("last_error", or_null (p?."last_error")); ("created_at", p?."created_at");
        ("kind", JStr (if local then "local" else "socks5")); ("scheme", if local then JStr "local" else p?."scheme" ||| JStr "socks5");
        ("geo", proxyGeoOf p)].

(** ** A proxy as it is written by an operator *)

Definition isSocksPort (value : jsval) : bool :=
  match integer_of (to_number value) with Some n => (1 <=? n)%Z && (n <=? 65535)%Z | None => false end.
Definition looksLikeHost (value : jsval) : bool :=
  let host := trim (str_or_empty value) in nonempty host && negb (all_chars is_digit host).
Definition localEgressRecord (now : Z) : jsval :=
  JObj [("id", JStr LOCAL_EGRESS_ID); ("scheme", JStr "local"); ("kind", JStr "local"); ("host", JStr "local"); ("port", jint 0);
        ("username", JNull); ("password", JNull); ("raw", JStr "local"); ("enabled", JBool true); ("status", JStr "ok");
        ("bound_vm_ids", JArr []); ("created_at", iso_now now)].
Record socks := { k_host : string; k_port : num; k_username : option string; k_password : option string; k_raw : string }.
Definition socks5Record (host port username password raw : jsval) : option socks :=
  if negb (looksLikeHost host) || negb (isSocksPort port) then None
  else
    let user := if is_nullish username || is_str username "" then None else Some (to_string username) in
    let pass := match user with None => None | Some _ => Some (if is_nullish password then "" else to_string password) end in
    Some {| k_host := trim (to_string host); k_port := to_number port; k_username := user; k_password := pass;
            k_raw := if truthy raw then to_string raw else (to_string host ++ ":" ++ to_string port)%string |}.
Definition parseSocks5Fields (fields : jsval) : option socks :=
  socks5Record (fields?."host") (fields?."port") (fields?."username" ?? fields?."user") (fields?."password" ?? fields?."pass") (fields?."raw").

(** [new URL]: host, port, user and password; none where it throws. *)
Record url := { l_hostname : string; l_port : string; l_username : string; l_password : string }.
Section Lines.
Context (parse_url : string -> option url).

Definition is_quote (c : ascii) : bool := Ascii.eqb c "'" || Ascii.eqb c (ascii_of_nat 34).
Definition drop_quote (s : string) : string := match s with String c r => if is_quote c then r else s | EmptyString => s end.
Fixpoint drop_last_quote (s : string) : string :=
  match s with
  | EmptyString => s
  | String c EmptyString => if is_quote c then "" else s
  | String c r => String c (drop_last_quote r)
  end.
Definition unquoted (s : string) : string := trim (drop_last_quote (drop_quote s)).
Definition decoded (s : string) : option jsval := if nonempty s then option_map JStr (Tokens.decodeURIComponent s) else Some JNull.
Definition from_url (raw : string) : option socks :=
  let rest := if starts_with "socks5h://" (to_lower raw) then ("socks5://" ++ drop_chars 10 raw)%string else raw in
  u ← parse_url rest;
  username ← decoded (l_username u);
  password ← decoded (l_password u);
  socks5Record (JStr (l_hostname u)) (if nonempty (l_port u) then JStr (l_port u) else jint 1080) username password (JStr raw).

(** The parts around the last [c]. *)
Definition around_last (c : ascii) (s : string) : option (string * string) :=
  match rev (split_char c s) with
  | after :: b :: before => Some (join (String c "") (rev (b :: before)), after)
  | _ => None
  end.
Definition from_at (raw : string) : option (option socks) :=
  match around_last "@" raw with
  | Some (cred, hostPort) =>
    if negb (nonempty cred) then None
    else match around_last ":" hostPort with
         | Some (host, port) =>
           if isSocksPort (JStr port) then
             let user := before_char ":" cred in
             let password := if includes cred ":" then drop_chars (S (String.length user)) cred else "" in
             Some (socks5Record (JStr host) (JStr port) (JStr user) (JStr password) (JStr raw))
           else None
         | None => None
         end
  | None => None
  end.
Definition from_parts (raw : string) : option socks :=
  let record host port username password := socks5Record (JStr host) (JStr port) username password (JStr raw) in
  let starts host port := looksLikeHost (JStr host) && isSocksPort (JStr port) in
  match split_char ":" raw with
  | [host; port] => record host port JUndef JUndef
  | [host; port; user] => if starts host port then record host port (JStr user) (JStr "") else None
  | host :: port :: user :: pass =>
    if starts host port then record host port (JStr user) (JStr (join ":" pass))
    else match rev pass with
         | port' :: host' :: middle =>
           if isSocksPort (JStr port') && looksLikeHost (JStr host') then record host' port' (JStr host) (JStr (join ":" (port :: user :: rev middle)))
           else None
         | [port'] => if isSocksPort (JStr port') && looksLikeHost (JStr user) then record user port' (JStr host) (JStr port) else None
         | [] => None
         end
  | _ => None
  end.
Definition parseSocks5Line (line : jsval) : option socks :=
  let raw := trim (str_or_empty line) in
  if negb (nonempty raw) || starts_with "#" raw then None
  else
    let raw := unquoted raw in
    let low := to_lower raw in
    if starts_with "socks5://" low || starts_with "socks5h://" low then from_url raw
    else match from_at raw with Some r => r | None => from_parts raw end.
End Lines.

(** ** The pool *)

(** What is done to the slots of a proxy. *)
Inductive call :=
| DisableVm (vm : string) (reason : string) (proxy : jsval)
| DisconnectVm (vm : string) (reason : string) (proxy : jsval)
| EnableVm (vm : string) (reason : string) (proxy : jsval).
(** Which of them the pool was given. *)
Record hooks := { h_disable : bool; h_disconnect : bool; h_enable : bool }.
Record disk := { d_config : jsval; d_rows : list jsval }.
(** [gone]: the objects that have left the pool, in order; what awaits an answer may still hold one of them. *)
Record pool := { config : jsval; proxies : list jsval; probing : bool; timer : option num; saved : disk; calls : list call; gone : list jsval }.

Definition with_proxies (l : list jsval) (p : pool) : pool :=
  {| config := config p; proxies := l; probing := probing p; timer := timer p; saved := saved p; calls := calls p; gone := gone p |}.
Definition with_config (c : jsval) (p : pool) : pool :=
  {| config := c; proxies := proxies p; probing := probing p; timer := timer p; saved := saved p; calls := calls p; gone := gone p |}.
Definition with_probing (b : bool) (p : pool) : pool :=
  {| config := config p; proxies := proxies p; probing := b; timer := timer p; saved := saved p; calls := calls p; gone := gone p |}.
Definition with_timer (t : option num) (p : pool) : pool :=
  {| config := config p; proxies := proxies p; probing := probing p; timer := t; saved := saved p; calls := calls p; gone := gone p |}.
Definition with_disk (d : disk) (p : pool) : pool :=
  {| config := config p; proxies := proxies p; probing := probing p; timer := timer p; saved := d; calls := calls p; gone := gone p |}.
Definition with_gone (l : list jsval) (p : pool) : pool :=
  {| config := config p; proxies := proxies p; probing := probing p; timer := timer p; saved := saved p; calls := calls p; gone := l |}.
Definition call_all (l : list call) (p : pool) : pool :=
  {| config := config p; proxies := proxies p; probing := probing p; timer := timer p; saved := saved p; calls := calls p ++ l; gone := gone p |}.

(** The rows (proxies-repo.mjs). *)
Definition COLUMNS : list string :=
  ["id"; "protocol"; "host"; "port"; "username"; "password"; "raw"; "status"; "enabled"; "name"; "owner_user_id"; "bound_vm_id";
   "consecutive_failures"; "latency_ms"; "last_probe_at"; "last_error"; "geo_ip"; "geo_country"; "geo_country_code"; "geo_region"; "geo_city";
   "geo_isp"; "geo_timezone"; "geo_checked_at"; "geo_error"; "created_at"; "updated_at"].
Definition column (p : jsval) (c : string) : jsval :=
  if String.eqb c "enabled" then jint (if is_bool (p?."enabled") false then 0 else 1)
  else if String.eqb c "protocol" then p?."protocol" ?? p?."scheme" ?? JStr "socks5"
  else if String.eqb c "name" then
    p?."name" ?? (if truthy (p?."host") && negb (is_nullish (p?."port")) then JStr (to_string (p?."host") ++ ":" ++ to_string (p?."port"))%string else p?."id")
  else p?.c ?? JNull.
Definition to_row (p : jsval) : jsval := JObj (map (fun c => (c, column p c)) COLUMNS).
Definition rowToProxy (row : jsval) : jsval := with_field (with_field row "scheme" (row?."protocol")) "enabled" (JBool (truthy (row?."enabled"))).
(** [ORDER BY created_at, id]; a time that is null comes first. *)
Definition text_key (v : jsval) : string := match v with JStr s => s | _ => "" end.
Definition by_created (a b : jsval) : num :=
  match str_compare (text_key (a?."created_at")) (text_key (b?."created_at")) with
  | Lt => num_of_Z (-1) | Gt => Fin 1
  | Eq => match str_compare (text_key (a?."id")) (text_key (b?."id")) with Lt => num_of_Z (-1) | Gt => Fin 1 | Eq => Fin 0 end
  end.
Definition loadAll (rows : list jsval) : list jsval := map rowToProxy (sort by_created rows).

Definition load (p : pool) : pool :=
  with_proxies (map hydrateProxy (loadAll (d_rows (saved p))))
    (with_config (spread DEFAULT_CONFIG (d_config (saved p) ||| JObj [])) (with_gone (gone p ++ proxies p) p)).
Definition save (p : pool) : pool :=
  with_disk {| d_config := config p;
               d_rows := map (fun x => to_row (with_field x "bound_vm_id" (encode_names (boundVmIdsOf x)))) (proxies p) |} p.
Definition empty_disk : disk := {| d_config := JUndef; d_rows := [] |}.
Definition new_pool (d : disk) : pool :=
  load {| config := DEFAULT_CONFIG; proxies := []; probing := false; timer := None; saved := d; calls := []; gone := [] |}.

Definition bindLimit (p : pool) : Z := clampBindLimit (config p?."bind_limit") MAX_VMS_PER_PROXY.
Definition public (p : pool) (x : jsval) : jsval := publicProxy (bindLimit p) x.
Definition not_dead (x : jsval) : bool := negb (is_str (x?."status") "dead").
Definition enabled (x : jsval) : bool := truthy (x?."enabled").
Definition count {A} (f : A -> bool) (l : list A) : jsval := jint (Z.of_nat (length (List.filter f l))).
(** Of the proxies of one owner, or of all. *)
Definition snapshot (owner : option jsval) (p : pool) : jsval :=
  let limit := bindLimit p in
  let l := match owner with
           | None => proxies p
           | Some o => List.filter (fun x => bool_decide (proxyOwnerId x = normalizeOwnerId o)) (proxies p)
           end in
  let used x := length (boundVmIdsOf x) in
  JObj [("config", with_field (config p) "bind_limit" (jint limit));
        ("totals", JObj [("total", jint (Z.of_nat (length l)));
           ("free", count (fun x => enabled x && (used x =? 0)%nat && not_dead x) l);
           ("open", count (fun x => enabled x && not_dead x && (Z.of_nat (used x) <? limit)%Z) l);
           ("bound", count (fun x => (0 <? used x)%nat) l); ("ok", count (fun x => enabled x && is_str (x?."status") "ok") l);
           ("dead", count (fun x => negb (enabled x) || is_str (x?."status") "dead") l); ("probing", JBool (probing p));
           ("slots_used", jint (Z.of_nat (list_sum (map used l)))); ("slots_cap", jint (Z.of_nat (length l) * limit)); ("bind_limit", jint limit)]);
        ("proxies", JArr (map (public p) l))].

Definition ok (f : fields) : jsval := JObj (("ok", JBool true) :: f).
Definition failed (error : string) (f : fields) : jsval := JObj ([("ok", JBool false); ("error", JStr error)] ++ f).

Definition ensureLocal (now : Z) (p : pool) : pool * jsval :=
  match List.find isLocalEgressProxy (proxies p) with
  | Some x => (p, ok [("created", JBool false); ("proxy", public p x)])
  | None =>
    let x := localEgressRecord now in
    (save (with_proxies (x :: proxies p) p), ok [("created", JBool true); ("proxy", public p x)])
  end.

(** ** Import *)

Inductive parsed := Parsed (k : socks) | Bad (label : string).
Definition or_bad (k : option socks) (label : string) : parsed := match k with Some k => Parsed k | None => Bad label end.
Definition address_key (host port username : string) : string := (host ++ ":" ++ port ++ ":" ++ username)%string.
Definition key_of (x : jsval) : string := address_key (to_string (x?."host")) (to_string (x?."port")) (str_or_empty (x?."username")).
Definition key_of_socks (k : socks) : string := address_key (k_host k) (num_to_string (k_port k)) (default "" (k_username k)).
Definition opt_str (o : option string) : jsval := match o with Some s => JStr s | None => JNull end.
Definition new_proxy (id : string) (owner : jsval) (now : Z) (k : socks) : jsval :=
  JObj [("id", JStr id); ("scheme", JStr "socks5"); ("host", JStr (k_host k)); ("port", JNum (k_port k)); ("username", opt_str (k_username k));
        ("password", opt_str (k_password k)); ("raw", JStr (k_raw k)); ("status", JStr "unknown"); ("enabled", JBool true);
        ("owner_user_id", owner_value (normalizeOwnerId owner)); ("bound_vm_id", JNull); ("bound_vm_ids", JArr []);
        ("consecutive_failures", jint 0); ("latency_ms", JNull); ("last_probe_at", JNull); ("last_error", JNull); ("created_at", iso_now now)].
Definition skipped (line reason : string) : jsval := JObj [("line", JStr line); ("reason", JStr reason)].
(** The proxies that are added, with the ids drawn for them, and what is skipped. *)
Fixpoint import_all (owner : jsval) (now : Z) (ids : nat -> string) (n : nat) (existing : list string) (l : list parsed) : list jsval * list jsval :=
  match l with
  | [] => ([], [])
  | Bad label :: l => let '(added, out) := import_all owner now ids n existing l in (added, skipped label "parse_failed" :: out)
  | Parsed k :: l =>
    if mem (key_of_socks k) existing then
      let '(added, out) := import_all owner now ids n existing l in
      (added, skipped (k_host k ++ ":" ++ num_to_string (k_port k))%string "duplicate" :: out)
    else
      let '(added, out) := import_all owner now ids (S n) (key_of_socks k :: existing) l in
      (new_proxy (ids n) owner now k :: added, out)
  end.
Definition importParsed (ids : nat -> string) (records : list parsed) (extra : jsval) (now : Z) (p : pool) : pool * jsval :=
  let '(added, out) := import_all (extra?."ownerUserId" ||| extra?."owner_user_id") now ids 0 (map key_of (proxies p)) records in
  (save (with_proxies (proxies p ++ added) p),
   JObj [("added", jint (Z.of_nat (length added))); ("skipped", jint (Z.of_nat (length out))); ("items", JArr (map (public p) added));
         ("skip_details", JArr (firstn 20 out))]).
Definition drop_return (s : string) : string := if ends_with (String (ascii_of_nat 13) "") s then drop_last 1 s else s.
(** The lines; the last one has no line feed after it. *)
Fixpoint drop_returns (l : list string) : list string :=
  match l with [] => [] | [s] => [s] | s :: l => drop_return s :: drop_returns l end.
Definition record_of (fields : jsval) : parsed :=
  or_bad (parseSocks5Fields fields) (str_or_empty (fields?."host") ++ ":" ++ str_or_empty (fields?."port"))%string.
Definition import_records (parse_url : string -> option url) (text extra : jsval) : list parsed :=
  let line s := or_bad (parseSocks5Line parse_url (JStr s)) (trim s) in
  let lines := List.filter (fun s => nonempty (trim s)) (drop_returns (split_char (ascii_of_nat 10) (str_or_empty text))) in
  let given := extra?."fields" ||| extra?."proxies" ||| extra?."entries" ||| JArr [] in
  let given := match given with JArr l => l | v => [v] end in
  map line lines ++ map record_of (List.filter (fun v => truthy v && is_object v) given) ++
  (if truthy (extra?."host") || truthy (extra?."port") then [record_of extra] else []).
Definition importLines (parse_url : string -> option url) (ids : nat -> string) (text extra : jsval) (now : Z) (p : pool) : pool * jsval :=
  importParsed ids (import_records parse_url text extra) extra now p.

(** ** Slots are bound and let go *)

Definition has_id (id : string) (x : jsval) : bool := is_str (x?."id") id.
Definition find_id (id : string) (p : pool) : option jsval := List.find (has_id id) (proxies p).
(** The proxy [List.find] finds is changed in its place. *)
Fixpoint change_first (f : jsval -> bool) (g : jsval -> jsval) (l : list jsval) : list jsval :=
  match l with [] => [] | x :: l => if f x then g x :: l else x :: change_first f g l end.
Definition change (id : string) (g : jsval -> jsval) (p : pool) : pool := with_proxies (change_first (has_id id) g (proxies p)) p.
Definition without_vm (vm : string) (l : list string) : list string := List.filter (fun id => negb (String.eqb id vm)) l.
Definition let_go (vm : string) (x : jsval) : jsval := if mem vm (boundVmIdsOf x) then setBoundVmIds x (without_vm vm (boundVmIdsOf x)) else x.

Definition bind (proxyId : string) (vmId : jsval) (p : pool) : pool * jsval :=
  match find_id proxyId p with
  | None => (p, failed "proxy_not_found" [])
  | Some x =>
    if negb (enabled x) || negb (not_dead x) then (p, failed "proxy_disabled" [])
    else
      let vm := trim (str_or_empty vmId) in
      if negb (nonempty vm) then (p, failed "vm_id_required" [])
      else
        let p := with_proxies (map (fun y => if has_id proxyId y then y else let_go vm y) (proxies p)) p in
        let ids := boundVmIdsOf x in
        if mem vm ids then (save p, ok [("proxy", public p x)])
        else
          let limit := bindLimit p in
          if (limit <=? Z.of_nat (length ids))%Z
          then (p, failed "proxy_bind_limit" [("max", jint limit); ("bound_vm_ids", jstrs ids)])
          else
            let x := setBoundVmIds x (ids ++ [vm]) in
            (save (change proxyId (fun _ => x) p), ok [("proxy", public p x)])
  end.
Definition unbind (proxyId : string) (vmId : jsval) (p : pool) : pool * jsval :=
  match find_id proxyId p with
  | None => (p, failed "proxy_not_found" [])
  | Some x =>
    let ids := boundVmIdsOf x in
    let target := trim (if is_nullish vmId then "" else to_string vmId) in
    let '(removed, kept) := if nonempty target then (List.filter (fun id => String.eqb id target) ids, without_vm target ids) else (ids, []) in
    let x := setBoundVmIds x kept in
    (save (change proxyId (fun _ => x) p), ok [("proxy", public p x); ("unbound_vm_ids", jstrs removed)])
  end.
Definition unbindVm (vmId : jsval) (p : pool) : pool :=
  let vm := trim (str_or_empty vmId) in
  if nonempty vm then save (with_proxies (map (let_go vm) (proxies p)) p) else p.

Definition score (x : jsval) : Z := if is_str (x?."status") "ok" then 0 else if is_str (x?."status") "unknown" then 1 else 2.
Definition bound_count (x : jsval) : Z := Z.of_nat (length (boundVmIdsOf x)).
Definition by_score (a b : jsval) : num :=
  num_of_Z (if (score a =? score b)%Z then bound_count a - bound_count b else score a - score b).
Definition candidates (owner : option string) (p : pool) : list jsval :=
  List.filter (fun x => enabled x && not_dead x && negb (is_str (x?."status") "fail") && (bound_count x <? bindLimit p)%Z &&
                        bool_decide (proxyOwnerId x = owner)) (proxies p).
Definition allocateForVm (vmId : string) (ownerUserId : jsval) (p : pool) : pool * jsval :=
  if negb (nonempty vmId) then (p, JNull)
  else match List.find (fun x => enabled x && proxyHasVm x vmId) (proxies p) with
       | Some x => (p, public p x)
       | None =>
         match sort by_score (candidates (normalizeOwnerId ownerUserId) p) with
         | [] => (p, JNull)
         | pick :: _ =>
           let '(p, r) := bind (to_string (pick?."id")) (JStr vmId) p in
           (p, if truthy (r?."ok") then r?."proxy" else JNull)
         end
       end.

Definition withAuth (x : jsval) : jsval :=
  if isLocalEgressProxy x then
    JObj [("id", x?."id" ||| JStr LOCAL_EGRESS_ID); ("url", JStr ""); ("host", JStr "local"); ("port", jint 0); ("scheme", JStr "local");
          ("kind", JStr "local"); ("username", JNull); ("password", JNull)]
  else
    let auth := if is_nullish (x?."username") then ""
                else (Tokens.encodeURIComponent (to_string (x?."username")) ++ ":" ++ Tokens.encodeURIComponent (str_or_empty (x?."password")) ++ "@")%string in
    JObj [("id", x?."id"); ("url", JStr ("socks5://" ++ auth ++ to_string (x?."host") ++ ":" ++ to_string (x?."port"))%string);
          ("host", x?."host"); ("port", x?."port"); ("username", or_null (x?."username"));
          ("password", if is_nullish (x?."password") then JNull else x?."password")].
Definition serves (vmId : string) (x : jsval) : bool := proxyHasVm x vmId && enabled x && not_dead x.
Definition getProxyForVm (vmId : string) (p : pool) : jsval :=
  match List.find (serves vmId) (proxies p) with Some x => withAuth x | None => JNull end.
Definition getProxyByIdWithAuth (id : string) (p : pool) : jsval :=
  match find_id id p with Some x => withAuth x | None => JNull end.
Definition ensureBoundToVm (vmId : string) (preferredId : option string) (p : pool) : pool * jsval :=
  if negb (nonempty vmId) then (p, JNull)
  else if truthy (getProxyForVm vmId p) then (p, getProxyForVm vmId p)
  else match preferredId with
       | None => allocateForVm vmId JNull p
       | Some id =>
         let '(p, r) := bind id (JStr vmId) p in
         if truthy (r?."ok") then (p, getProxyForVm vmId p) else allocateForVm vmId JNull p
       end.

(** ** The operator *)

Definition set_all (f : fields) (x : jsval) : jsval := spread x (JObj f).
Definition cascade (mk : string -> string -> jsval -> call) (on : bool) (reason : string) (x : jsval) : list call :=
  if on then map (fun vm => mk vm reason (x?."id")) (boundVmIdsOf x) else [].
Definition cascadeDisableVm (h : hooks) := cascade DisableVm (h_disable h).
Definition cascadeEnableVm (h : hooks) := cascade EnableVm (h_enable h).
Definition cascadeDisconnectVm (h : hooks) (reason : string) (x : jsval) : list call :=
  if h_disconnect h then cascade DisconnectVm true reason x else cascade DisableVm (h_disable h) reason x.

Definition setEnabled (h : hooks) (id : string) (on : jsval) (p : pool) : pool * jsval :=
  match find_id id p with
  | None => (p, failed "proxy_not_found" [])
  | Some x =>
    let '(x, l) := if truthy on
                   then (set_all [("enabled", JBool true); ("status", JStr "unknown"); ("consecutive_failures", jint 0); ("last_error", JNull)] x, [])
                   else let x := set_all [("enabled", JBool false); ("status", JStr "dead")] x in
                        (x, cascadeDisableVm h "proxy_manually_disabled" x) in
    (save (call_all l (change id (fun _ => x) p)), ok [("proxy", public p x)])
  end.
Fixpoint remove_first (f : jsval -> bool) (l : list jsval) : list jsval :=
  match l with [] => [] | x :: l => if f x then l else x :: remove_first f l end.
Definition remove (id : string) (p : pool) : pool * jsval :=
  match find_id id p with
  | None => (p, failed "proxy_not_found" [])
  | Some x => (save (with_proxies (remove_first (has_id id) (proxies p)) (with_gone (gone p ++ [x]) p)), ok [("removed", public p x)])
  end.
Definition socks_fields (k : socks) : fields :=
  [("host", JStr (k_host k)); ("port", JNum (k_port k)); ("username", opt_str (k_username k)); ("password", opt_str (k_password k));
   ("raw", JStr (k_host k ++ ":" ++ num_to_string (k_port k))%string)].
Definition update (id : string) (patch : jsval) (p : pool) : pool * jsval :=
  match find_id id p with
  | None => (p, failed "proxy_not_found" [])
  | Some x =>
    let field k := if has_own patch k then patch?.k else x?.k in
    let username := field "username" in
    if negb (existsb (has_own patch) ["host"; "port"; "username"; "password"]) then (p, failed "no_editable_fields" [])
    else if has_own patch "password" && negb (is_str (patch?."password") "") && (is_nullish username || is_str username "")
    then (p, failed "password_without_username" [])
    else
      let password := if has_own patch "password" then patch?."password" else if truthy username then x?."password" else JNull in
      match socks5Record (field "host") (field "port") username password JUndef with
      | None => (p, failed "invalid_proxy" [])
      | Some k => let x := set_all (socks_fields k) x in (save (change id (fun _ => x) p), ok [("proxy", public p x)])
      end
  end.

Definition INTERVALS : list Z := [5; 10; 30; 60]%Z.
Definition startScheduler (p : pool) : pool :=
  with_timer (if truthy (config p?."enabled")
              then Some (num_mul (to_number (config p?."probe_interval_min" ||| jint 10)) (num_of_Z 60000)) else None) p.
Definition stopScheduler (p : pool) : pool := with_timer None p.
Definition set_config (k : string) (v : jsval) (p : pool) : pool := with_config (with_field (config p) k v) p.
(** [Number(v) || default] *)
Definition num_or (v : jsval) (default : num) : num := let n := to_number v in if truthy (JNum n) then n else default.
Definition at_least (least default : Z) (v : jsval) : jsval := JNum (num_max (num_of_Z least) (num_or v (num_of_Z default))).
(** A field that is set changes the configuration before the next is looked at: an error leaves the changes of the fields before it. *)
Definition if_set (patch : jsval) (k : string) (f : jsval -> jsval) (p : pool) : pool :=
  if is_nullish (patch?.k) then p else set_config k (f (patch?.k)) p.
Definition updateConfig (patch : jsval) (p : pool) : pool * jsval :=
  let interval := patch?."probe_interval_min" in
  if negb (is_nullish interval) && negb (existsb (fun n => num_eqb (to_number interval) (num_of_Z n)) INTERVALS)
  then (p, failed "invalid_interval" [("allowed", JArr (map jint INTERVALS))])
  else
    let p := if_set patch "probe_interval_min" (fun v => JNum (to_number v)) p in
    let p := if_set patch "probe_timeout_ms" (at_least 1000 8000) p in
    let p := if_set patch "geo_timeout_ms" (at_least 1000 8000) p in
    let p := if_set patch "follow_proxy_timezone" (fun v => JBool (truthy v)) p in
    let p := if_set patch "max_failures" (at_least 1 2) p in
    let p := if_set patch "enabled" (fun v => JBool (truthy v)) p in
    let p := if_set patch "disconnect_on_error" (fun v => JBool (truthy v)) p in
    let limit := patch?."bind_limit" in
    let invalid := match integer_of (to_number limit) with Some n => (n <? BIND_LIMIT_MIN)%Z || (BIND_LIMIT_MAX <? n)%Z | None => true end in
    if negb (is_nullish limit) && invalid
    then (p, failed "invalid_bind_limit" [("min", jint BIND_LIMIT_MIN); ("max", jint BIND_LIMIT_MAX)])
    else
      let p := startScheduler (save (if_set patch "bind_limit" (fun v => JNum (to_number v)) p)) in
      (p, ok [("config", config p)]).

(** ** Probes *)

(** [a || b] of a count. *)
Definition failures (x : jsval) : num := to_number (x?."consecutive_failures" ||| jint 0).
Definition max_failures (p : pool) : num := to_number (config p?."max_failures" ||| jint 2).
Definition resumes (x : jsval) : bool :=
  existsb (includes (str_or_empty (x?."last_error"))) ["egress_down"; "proxy_probe_failed"] || is_str (x?."status") "fail" || (is_str (x?."status") "dead" && truthy (x?."last_error")).
(** The proxy after an answer, and what is done to its slots. *)
Definition applyProbeResult (h : hooks) (cascades : bool) (limit : num) (result : jsval) (now : Z) (x : jsval) : jsval * list call :=
  let x := set_all [("last_probe_at", iso_now now); ("latency_ms", result?."latency_ms")] x in
  if is_str (result?."scope") "egress" then
    let error := ("egress_down:" ++ to_string (result?."error" ||| JStr "down"))%string in
    let x := with_field x "last_error" (JStr error) in
    let x := if enabled x then with_field x "status" (JStr "ok") else x in
    (x, if cascades then cascadeDisableVm h error x else [])
  else if truthy (result?."ok") then
    let resume := resumes x in
    let x := set_all [("status", JStr "ok"); ("consecutive_failures", jint 0); ("last_error", JNull)] x in
    let x := if resume && negb (enabled x) then with_field x "enabled" (JBool true) else x in
    (x, if cascades && resume then cascadeEnableVm h "proxy_recovered" x else [])
  else
    let n := num_add (failures x) (Fin 1) in
    let x := set_all [("consecutive_failures", JNum n); ("last_error", result?."error" ||| JStr "probe_failed"); ("status", JStr "fail")] x in
    if num_leb limit n then
      let x := set_all [("enabled", JBool false); ("status", JStr "dead")] x in
      (x, if cascades then cascadeDisableVm h ("proxy_probe_failed:" ++ to_string (x?."last_error"))%string x else [])
    else (x, []).
(** The object that a caller holds while it awaits: its id, and how many objects with this id had left the pool when it
    was taken.  It is in the pool until one more of them leaves. *)
Definition ref : Type := string * nat.
Definition left_count (id : string) (p : pool) : nat := length (List.filter (has_id id) (gone p)).
Definition capture (id : string) (p : pool) : ref := (id, left_count id p).
Definition attached (r : ref) (p : pool) : bool := (left_count r.1 p =? r.2)%nat.
Definition deref (r : ref) (p : pool) : option jsval :=
  if attached r p then find_id r.1 p else nth_error (List.filter (has_id r.1) (gone p)) r.2.
Fixpoint change_nth (f : jsval -> bool) (k : nat) (x : jsval) (l : list jsval) : list jsval :=
  match l with
  | [] => []
  | y :: l => if f y then match k with O => x :: l | S k => y :: change_nth f k x l end else y :: change_nth f k x l
  end.
Definition assign (r : ref) (x : jsval) (p : pool) : pool :=
  if attached r p then change r.1 (fun _ => x) p else with_gone (change_nth (has_id r.1) r.2 x (gone p)) p.

(** The answer of a probe arrives, for the object that was asked. *)
Definition probed (h : hooks) (cascades : bool) (r : ref) (result : jsval) (now : Z) (p : pool) : pool :=
  match deref r p with
  | None => p
  | Some x => let '(x, l) := applyProbeResult h cascades (max_failures p) result now x in call_all l (assign r x p)
  end.

(** What a socket does, and the answer it gives, [elapsed] after the connection was tried. *)
Inductive socket_event := Connected | Data | TimedOut | SocketError (message : string) | Closed.
Fixpoint probe_socket (connected : bool) (l : list (socket_event * Z)) : option jsval :=
  let finish (good : bool) (error : jsval) (elapsed : Z) := Some (JObj [("ok", JBool good); ("latency_ms", jint elapsed); ("error", error)]) in
  match l with
  | [] => None
  | (Connected, _) :: l => probe_socket true l
  | (Data, t) :: _ => finish true JNull t
  | (TimedOut, t) :: _ => finish connected (if connected then JNull else JStr "timeout") t
  | (SocketError message, t) :: _ => if connected then finish true JNull t else finish false (JStr message) t
  | (Closed, t) :: _ => finish connected (if connected then JNull else JStr "connection_closed") t
  end.
(** What the egress of the slots answers, before and after it was repaired; none: there is no check. *)
Record egress := { g_check : option (jsval * jsval); g_repair : bool }.
Definition checked (g : egress) : option jsval :=
  match g_check g with
  | None => None
  | Some (first, again) => Some (if negb (truthy (first?."ok")) && g_repair g then again else first)
  end.
Definition egress_failed (latency error : jsval) : jsval :=
  JObj [("ok", JBool false); ("scope", JStr "egress"); ("socks_ok", JBool true); ("latency_ms", latency); ("error", error)].
Definition probeOne (socket : jsval) (g : egress) (x : jsval) : jsval :=
  if isLocalEgressProxy x then
    match checked g with
    | Some eg =>
      if truthy (eg?."ok") then JObj [("ok", JBool true); ("scope", JStr "local"); ("latency_ms", jint 0)]
      else egress_failed (jint 0) (eg?."reason" ||| JStr "local_network_missing")
    | None => JObj [("ok", JBool true); ("scope", JStr "local"); ("latency_ms", jint 0)]
    end
  else
    let socks := with_field socket "scope" (JStr "socks") in
    if negb (truthy (socket?."ok")) then socks
    else match checked g with
         | None => socks
         | Some eg => if truthy (eg?."ok") then socks else egress_failed (socket?."latency_ms") (eg?."reason" ||| JStr "egress_down")
         end.

Definition probeById (h : hooks) (id : string) (socket : jsval) (g : egress) (now : Z) (p : pool) : pool * jsval :=
  match find_id id p with
  | None => (p, failed "proxy_not_found" [])
  | Some x =>
    let result := probeOne socket g x in
    let r := capture id p in
    let p := save (probed h true r result now p) in
    (p, ok [("proxy", match deref r p with Some x => public p x | None => JNull end); ("probe", result)])
  end.
Definition to_probe (onlyEnabled : bool) (x : jsval) : bool :=
  negb onlyEnabled || enabled x || is_str (x?."status") "fail" || (is_str (x?."status") "dead" && truthy (x?."last_error")).
(** A round begins, if none is under way, with the proxies it will ask; their answers come one by one ([probed]); and it ends. *)
Definition begin_probes (onlyEnabled : bool) (p : pool) : option (pool * list ref) :=
  if probing p then None
  else Some (with_probing true p, map (fun x => capture (to_string (x?."id")) p) (List.filter (to_probe onlyEnabled) (proxies p))).
Definition end_probes (p : pool) : pool := with_probing false (save p).
Definition probe_next (h : hooks) (socket : string -> jsval) (g : egress) (now : Z) (acc : pool * list jsval) (r : ref) : pool * list jsval :=
  let '(p, results) := acc in
  match deref r p with
  | None => acc
  | Some x =>
    let result := probeOne (socket r.1) g x in
    let p := probed h true r result now p in
    (p, results ++ [match deref r p with
                    | Some x => spread (spread (JObj [("id", JStr r.1)]) result) (JObj [("status", x?."status"); ("enabled", x?."enabled")])
                    | None => JNull
                    end])
  end.
Definition probeAll (h : hooks) (onlyEnabled : bool) (socket : string -> jsval) (g : egress) (now : Z) (p : pool) : pool * jsval :=
  match begin_probes onlyEnabled p with
  | None => (p, failed "probe_in_progress" [])
  | Some (p, asked) =>
    let '(p, results) := fold_left (probe_next h socket g now) asked (p, []) in
    (end_probes p, ok [("total", jint (Z.of_nat (length results))); ("results", JArr results)])
  end.

Definition disconnectOnErrorEnabled (p : pool) : bool := truthy (config p?."disconnect_on_error").
Definition reportRuntimeFailure (h : hooks) (vmId : string) (error : jsval) (now : Z) (p : pool) : pool * jsval :=
  if negb (disconnectOnErrorEnabled p) then (p, ok [("skipped", JBool true); ("reason", JStr "disconnect_on_error_disabled")])
  else if negb (nonempty vmId) then (p, failed "vm_id_required" [])
  else match List.find (fun x => proxyHasVm x vmId) (proxies p) with
       | None => (p, failed "no_bound_proxy" [])
       | Some x =>
         let id := to_string (x?."id") in
         let result := JObj [("ok", JBool false); ("latency_ms", x?."latency_ms" ?? JNull); ("error", JStr (to_string (error ||| JStr "runtime_socks_failure")))] in
         let '(x, l) := applyProbeResult h false (max_failures p) result now x in
         let reason := ("proxy_disconnect:" ++ to_string (x?."last_error" ||| error))%string in
         (save (call_all (l ++ cascadeDisconnectVm h reason x) (change id (fun _ => x) p)), ok [("skipped", JBool false); ("proxy", public p x)])
       end.

(** ** Where a proxy is *)

Section Geo.
Context (validTimezone : jsval -> string).

Definition followProxyTimezoneEnabled (p : pool) : bool := negb (is_bool (config p?."follow_proxy_timezone") false).
Definition applyGeoResult (result : jsval) (now : Z) (x : jsval) : jsval :=
  let x := with_field x "geo_checked_at" (iso_now now) in
  if negb (truthy (result?."ok")) then with_field x "geo_error" (JStr (take_chars 200 (to_string (result?."error" ||| JStr "geo_lookup_failed"))))
  else
    let geo := result?."geo" ||| JObj [] in
    let zone := validTimezone (geo?."timezone") in
    set_all (("geo_error", JNull) :: map (fun k => (geo_key k, or_null (geo?.k))) ["ip"; "country"; "country_code"; "region"; "city"; "isp"] ++
             [("geo_timezone", or_null (JStr zone))]) x.
(** The answer of a lookup arrives, for the object that it was made for. *)
Definition located (r : ref) (result : jsval) (now : Z) (p : pool) : pool :=
  match deref r p with None => p | Some x => assign r (applyGeoResult result now x) p end.
Definition detectGeo (id : string) (force : bool) (lookup : jsval -> jsval) (now : Z) (p : pool) : pool * jsval :=
  match find_id id p with
  | None => (p, failed "proxy_not_found" [])
  | Some x =>
    if negb force && truthy (x?."geo_checked_at") && truthy (x?."geo_ip")
    then (p, ok [("cached", JBool true); ("proxy", public p x); ("geo", proxyGeoOf x)])
    else
      let result := lookup (if isLocalEgressProxy x then JStr "" else withAuth x?."url") in
      let q := save (located (capture id p) result now p) in
      let x := applyGeoResult result now x in
      (q, if truthy (result?."ok") then ok [("cached", JBool false); ("proxy", public p x); ("geo", proxyGeoOf x)]
          else JObj [("ok", JBool false); ("error", result?."error" ||| JStr "geo_lookup_failed"); ("proxy", public p x)])
  end.
Definition geo_next (force : bool) (lookup : jsval -> jsval) (now : Z) (acc : pool * list jsval) (id : string) : pool * list jsval :=
  let '(p, r) := detectGeo id force lookup now acc.1 in
  let good := truthy (r?."ok") in
  (p, acc.2 ++ [JObj [("id", JStr id); ("ok", JBool good); ("cached", JBool (truthy (r?."cached")));
                      ("error", if good then JNull else or_null (r?."error")); ("geo", if good then r?."geo" else JNull)]]).
Definition detectGeoAll (onlyEnabled force : bool) (lookup : jsval -> jsval) (now : Z) (p : pool) : pool * jsval :=
  let ids := map (fun x => to_string (x?."id")) (List.filter (fun x => negb onlyEnabled || enabled x) (proxies p)) in
  let '(p, results) := fold_left (geo_next force lookup now) ids (p, []) in
  (p, ok [("total", jint (Z.of_nat (length results))); ("results", JArr results)]).
Definition proxyTimezone (id : string) (p : pool) : string := match find_id id p with Some x => validTimezone (x?."geo_timezone") | None => "" end.
Definition timezoneForVm (vmId : string) (p : pool) : string :=
  match List.find (fun x => proxyHasVm x vmId) (proxies p) with Some x => validTimezone (x?."geo_timezone") | None => "" end.
End Geo.

(** ** Names of slots *)

Definition name_char (c : ascii) : bool := is_digit c || is_upper c || is_lower c || Ascii.eqb c "-" || Ascii.eqb c "_".
(** The id of a VM: letters, digits, hyphens and underscores. *)
Definition plain (id : string) : bool := nonempty id && all_chars name_char id.
Definition tidy (ids : list string) : Prop :=
  NoDup ids /\ Forall (fun id => trim id = id /\ nonempty id = true) ids /\ (length ids <= Z.to_nat BIND_LIMIT_MAX)%nat.

Lemma first_names_spec l : forall room seen, let r := first_names room seen l in
  NoDup r /\ Forall (fun id => id ∉ seen /\ nonempty id = true /\ id ∈ l) r /\ (length r <= room)%nat.
Proof.
  assert (Hc : forall id l (seen r : list string), Forall (fun x => x ∉ seen /\ nonempty x = true /\ x ∈ l) r ->
    Forall (fun x => x ∉ seen /\ nonempty x = true /\ x ∈ id :: l) r).
  { intros id l' seen r H. eapply Forall_impl; [exact H|]. intros x (? & ? & ?). repeat split; [done..|by right]. }
  induction l as [|id l IH]; intros room seen; destruct room as [|room]; cbn [first_names]; try (repeat split; [constructor..|cbn; lia]).
  destruct (negb (nonempty id) || mem id seen) eqn:E.
  - destruct (IH (S room) seen) as (H1 & H2 & H3). split; [done|]. split; [|done]. by apply Hc.
  - apply orb_false_iff in E as [En%negb_false_iff Es]. destruct (IH room (id :: seen)) as (H1 & H2 & H3). cbn [length]. split; [|split; [|lia]].
    + apply NoDup_cons. split; [|done]. intros Hin. eapply Forall_forall in Hin; [|exact H2]. destruct Hin as [Hin _]. apply Hin. by left.
    + apply Forall_cons. split.
      * split; [|split; [done|by left]]. intros Hin. apply mem_spec in Hin. congruence.
      * eapply Forall_impl; [apply (Hc id), H2|]. intros x (Hs & ? & ?). split; [|done]. intros Hin. apply Hs. by right.
Qed.
Lemma first_names_id l : forall room seen, NoDup l -> Forall (fun id => id ∉ seen /\ nonempty id = true) l -> (length l <= room)%nat ->
  first_names room seen l = l.
Proof.
  induction l as [|id l IH]; intros room seen Hd Hs Hl; [by destruct room|]. destruct room as [|room]; [cbn in Hl; lia|]. cbn [first_names].
  apply NoDup_cons in Hd as [Hn Hd]. apply Forall_cons in Hs as [[Hs He] Hr]. rewrite He. destruct (mem id seen) eqn:E; [by apply mem_spec in E|].
  cbn [negb orb]. f_equal. apply IH; [done| |cbn in Hl; lia]. rewrite Forall_forall in *. intros x Hx. destruct (Hr x Hx) as [Hxs Hxe]. split; [|done].
  intros [->|Hi]%elem_of_cons; by auto.
Qed.
Lemma normalize_tidy l : tidy (normalizeVmIds l).
Proof.
  unfold normalizeVmIds. destruct (first_names_spec (map (fun v => trim (str_or_empty v)) l) (Z.to_nat BIND_LIMIT_MAX) []) as (H1 & H2 & H3).
  split; [done|]. split; [|done]. eapply Forall_impl; [exact H2|]. intros id (_ & He & (v & -> & _)%list_elem_of_fmap). split; [apply trim_trim|done].
Qed.
Lemma normalize_id ids : tidy ids -> normalizeVmIds (map JStr ids) = ids.
Proof.
  intros (Hd & Ht & Hl). unfold normalizeVmIds.
  assert (map (fun v => trim (str_or_empty v)) (map JStr ids) = ids) as ->.
  { clear Hd Hl. induction Ht as [|id ids [Hi _] _ IH]; [done|]. cbn [map]. by rewrite str_or_empty_JStr, Hi, IH. }
  apply first_names_id; [done| |done]. eapply Forall_impl; [exact Ht|]. intros id [_ He]. split; [apply not_elem_of_nil|done].
Qed.
Lemma tidy_nil : tidy [].
Proof. repeat split; [constructor..|cbn; lia]. Qed.
#[local] Hint Resolve tidy_nil normalize_tidy : pool.
Lemma parse_text_tidy raw : tidy (parse_text raw).
Proof. unfold parse_text. repeat case_match; auto with pool. Qed.
#[local] Hint Resolve parse_text_tidy : pool.
Lemma parse_tidy v : tidy (parseBoundVmIds v).
Proof. unfold parseBoundVmIds. repeat case_match; auto with pool. Qed.
#[local] Hint Resolve parse_tidy : pool.
Lemma names_tidy x : tidy (boundVmIdsOf x).
Proof. unfold boundVmIdsOf. repeat case_match; auto with pool. Qed.
#[local] Hint Resolve names_tidy : pool.
Lemma tidy_filter f ids : tidy ids -> tidy (List.filter f ids).
Proof.
  intros (Hd & Ht & Hl). split; [|split].
  - clear -Hd. induction Hd as [|id ids Hn Hd IH]; [constructor|]. cbn [List.filter]. destruct (f id); [|done]. constructor; [|done].
    intros H. apply Hn. apply list_elem_of_In, List.filter_In in H as [H _]. by apply list_elem_of_In.
  - rewrite Forall_forall in *. intros id H. apply list_elem_of_In, List.filter_In in H as [H _]. apply Ht. by apply list_elem_of_In.
  - pose proof (List.filter_length_le f ids). lia.
Qed.
#[local] Hint Resolve tidy_filter : pool.

Lemma names_with x ids : tidy ids -> boundVmIdsOf (with_names x ids) = ids.
Proof.
  intros H. unfold boundVmIdsOf, with_names. rewrite get_with_field_ne, get_with_field_eq by done. rewrite get_with_field_eq.
  destruct ids as [|id ids]; [reflexivity|]. by apply (normalize_id (id :: ids)).
Qed.
Lemma names_set x ids : tidy ids -> boundVmIdsOf (setBoundVmIds x ids) = ids.
Proof. intros H. unfold setBoundVmIds. unfold parseBoundVmIds at 1, jstrs. rewrite normalize_id by done. by apply names_with. Qed.
Lemma names_hydrate x : boundVmIdsOf (hydrateProxy x) = parseBoundVmIds (if truthy (match x?."bound_vm_ids" with JArr l => jint (Z.of_nat (length l)) | JStr s => JStr s | _ => JUndef end)
                                 then x?."bound_vm_ids" else x?."bound_vm_id").
Proof. unfold hydrateProxy. apply names_with. auto with pool. Qed.
(** Only these two fields are looked at. *)
Lemma names_ext x y : x?."bound_vm_ids" = y?."bound_vm_ids" -> x?."bound_vm_id" = y?."bound_vm_id" -> boundVmIdsOf x = boundVmIdsOf y.
Proof. intros H1 H2. unfold boundVmIdsOf. by rewrite H1, H2. Qed.

Lemma trim_start_chars f s : (forall c, f c = true -> is_space c = false) -> all_chars f s = true -> trim s = s.
Proof.
  intros Hf Hs. unfold trim. assert (trim_start s = s) as ->.
  { destruct s as [|c s]; [done|]. rewrite all_chars_cons in Hs. cbn [trim_start]. apply andb_prop in Hs as [Hc _]. by rewrite (Hf c Hc). }
  induction s as [|c s IH]; [done|]. rewrite all_chars_cons in Hs. apply andb_prop in Hs as [Hc Hs]. cbn [trim_end]. rewrite (IH Hs).
  destruct s; [by rewrite (Hf c Hc)|done].
Qed.
Lemma name_char_facts c : name_char c = true -> is_space c = false /\ Ascii.eqb c "[" = false /\ Ascii.eqb c "," = false.
Proof. destruct c as [[] [] [] [] [] [] [] []]; cbn; first [discriminate | repeat split]. Qed.
Lemma includes_comma s : all_chars name_char s = true -> includes s "," = false.
Proof.
  induction s as [|c s IH]; [done|]. rewrite all_chars_cons. intros [Hc Hs]%andb_prop. cbn [includes starts_with]. rewrite (IH Hs).
  destruct (name_char_facts c Hc) as (_ & _ & H). rewrite Ascii.eqb_sym, H. done.
Qed.
Lemma parse_encode ids : tidy ids -> Forall (fun id => plain id = true) ids -> parseBoundVmIds (encode_names ids) = ids.
Proof.
  intros Ht Hp. destruct ids as [|id [|id' ids]]; [reflexivity| |].
  - apply Forall_cons in Hp as [[Hn Hc]%andb_prop _]. cbn [encode_names parseBoundVmIds get]. unfold parse_text. cbn [is_nullish to_string].
    rewrite (trim_start_chars name_char) by (done || intros c H; apply (name_char_facts c H)). rewrite Hn. cbn [negb].
    assert (starts_with "[" id = false) as ->.
    { destruct id as [|c s]; [done|]. rewrite all_chars_cons in Hc. apply andb_prop in Hc as [Hc _]. cbn [starts_with].
      rewrite Ascii.eqb_sym. by destruct (name_char_facts c Hc) as (_ & -> & _). }
    rewrite includes_comma by done. by apply (normalize_id [id]).
  - assert (Hj : json_value (jstrs (id :: id' :: ids))). { cbn. split; [done|]. split; [done|]. clear. induction ids; [done|]. by split. }
    assert (exists t, text (jstrs (id :: id' :: ids)) = String "[" (t ++ String "]" "")%string) as [t Et].
    { unfold jstrs. rewrite text_arr by exact Hj. eexists. reflexivity. }
    assert (Hr := json_roundtrip _ Hj). cbn [encode_names]. rewrite (json_value_text _ Hj). rewrite Et in *.
    cbn [parseBoundVmIds get is_nullish to_string]. rewrite trim_between by done. unfold parse_text. cbn [nonempty String.eqb negb starts_with Ascii.eqb Bool.eqb].
    rewrite Hr. by apply normalize_id.
Qed.

(** ** Views: the slots on each proxy *)

Definition proxy_id (x : jsval) : string := match x?."id" with JStr s => s | _ => "" end.
Definition view_of (x : jsval) : string * list string := (proxy_id x, boundVmIdsOf x).
Definition view (l : list jsval) : list (string * list string) := view_of <$> l.
Definition shaped (x : jsval) : Prop := is_obj x = true /\ exists id, x?."id" = JStr id.
#[export] Instance view_perm : Proper ((≡ₚ) ==> (≡ₚ)) view.
Proof. intros l l' H. unfold view. by rewrite H. Qed.
Definition slots (v : list (string * list string)) : list string := v ≫= snd.
(** Ids of proxies are different, a slot is on one proxy at most, and slots have plain names. *)
Definition well (v : list (string * list string)) : Prop := NoDup v.*1 /\ NoDup (slots v) /\ Forall (fun vm => plain vm = true) (slots v).
Definition sound (l : list jsval) : Prop := Forall shaped l /\ well (view l).
(** Slot [vm] is on the proxy [id]. *)
Definition on (v : list (string * list string)) (vm id : string) : Prop := exists ids, (id, ids) ∈ v /\ vm ∈ ids.

Lemma well_perm v v' : v ≡ₚ v' -> well v -> well v'.
Proof. intros H (H1 & H2 & H3). unfold well, slots in *. by rewrite <- H. Qed.
Lemma elem_slots v vm : vm ∈ slots v <-> exists id, on v vm id.
Proof.
  unfold slots, on. rewrite list_elem_of_bind. split.
  - intros ([id ids] & Hv & Hi). by exists id, ids.
  - intros (id & ids & Hi & Hv). by exists (id, ids).
Qed.
Lemma on_unique v vm id id' : well v -> on v vm id -> on v vm id' -> id = id'.
Proof.
  intros (_ & H & _). induction v as [|[i ids] v IH]; intros (a & Ha & Hva) (b & Hb & Hvb); [by apply not_elem_of_nil in Ha|].
  unfold slots in H. cbn [mbind list_bind snd] in H. apply NoDup_app in H as (_ & Hd & H).
  apply elem_of_cons in Ha as [Ha|Ha], Hb as [Hb|Hb]; simplify_eq; [done| | |apply IH; [done|by exists a|by exists b]].
  - exfalso. apply (Hd vm); [done|]. apply elem_slots. by exists id', b.
  - exfalso. apply (Hd vm); [done|]. apply elem_slots. by exists id, a.
Qed.

Lemma find_split (f : jsval -> bool) l x : List.find f l = Some x -> f x = true /\ exists a b, l = a ++ x :: b /\ Forall (fun y => f y = false) a /\
  (forall g, change_first f g l = a ++ g x :: b) /\ remove_first f l = a ++ b.
Proof.
  induction l as [|y l IH]; [done|]. cbn [List.find change_first remove_first]. destruct (f y) eqn:E.
  - intros [= <-]. split; [done|]. by exists [], l.
  - intros H. destruct (IH H) as (Hx & a & b & -> & Ha & Hc & Hr). split; [done|]. exists (y :: a), b. split; [done|]. split; [by constructor|].
    split; [intros g; by rewrite Hc|by rewrite Hr].
Qed.
Lemma has_id_spec id x : shaped x -> has_id id x = true <-> proxy_id x = id.
Proof. intros [_ [i E]]. unfold has_id, proxy_id. rewrite E. cbn. split; [apply String.eqb_eq|intros ->; apply String.eqb_refl]. Qed.

Lemma view_change f y x l : List.find f l = Some x -> view_of y = view_of x -> view (change_first f (fun _ => y) l) = view l.
Proof.
  intros H E. destruct (find_split f l x H) as (_ & a & b & -> & _ & Hc & _). rewrite Hc. unfold view. by rewrite !fmap_app, !fmap_cons, E.
Qed.
Lemma shaped_change f y x l : List.find f l = Some x -> shaped y -> Forall shaped l -> Forall shaped (change_first f (fun _ => y) l).
Proof.
  intros H Hy Hl. destruct (find_split f l x H) as (_ & a & b & -> & _ & Hc & _). rewrite Hc. apply Forall_app in Hl as [Ha Hb].
  apply Forall_cons in Hb as [_ Hb]. apply Forall_app. split; [done|by constructor].
Qed.
Lemma sound_change f y x l : List.find f l = Some x -> sound l -> shaped y -> view_of y = view_of x -> sound (change_first f (fun _ => y) l).
Proof. intros H [Hs Hw] Hy E. split; [by eapply shaped_change|]. by rewrite (view_change f y x). Qed.
Lemma shaped_find f l x : Forall shaped l -> List.find f l = Some x -> shaped x.
Proof. intros Hl H. destruct (find_split f l x H) as (_ & a & b & -> & _). by apply Forall_app in Hl as [_ [? _]%Forall_cons]. Qed.

(** Fields other than these do not change what is seen. *)
Definition VIEWED : list string := ["id"; "bound_vm_ids"; "bound_vm_id"].
Lemma seen_same x y : shaped x -> is_obj y = true -> (forall k, k ∈ VIEWED -> y?.k = x?.k) -> shaped y /\ view_of y = view_of x.
Proof.
  intros [Ho [id Hi]] Hy H. split.
  - split; [done|]. exists id. rewrite (H "id"); [done|by left].
  - unfold view_of, proxy_id. rewrite (H "id") by by left. f_equal. apply names_ext; apply H; unfold VIEWED; set_solver.
Qed.
Definition unviewed (f : fields) : bool := forallb (fun k => negb (has_key k f)) VIEWED.
Lemma seen_set_all f x : shaped x -> unviewed f = true -> shaped (set_all f x) /\ view_of (set_all f x) = view_of x.
Proof.
  intros Hx Hf. apply seen_same; [done|by destruct x, Hx|]. intros k Hk. apply get_spread_other.
  unfold unviewed in Hf. rewrite forallb_forall in Hf. apply negb_true_iff, Hf. by apply list_elem_of_In.
Qed.
Lemma seen_field k v x : shaped x -> mem k VIEWED = false -> shaped (with_field x k v) /\ view_of (with_field x k v) = view_of x.
Proof.
  intros Hx Hk. apply seen_same; [done|done|]. intros j Hj. apply get_with_field_ne. intros ->. apply mem_spec in Hj. congruence.
Qed.

Lemma shaped_with x ids : shaped x -> shaped (with_names x ids) /\ proxy_id (with_names x ids) = proxy_id x.
Proof.
  intros [Ho [id Hi]]. unfold shaped, proxy_id, with_names. rewrite !get_with_field_ne by done. split; [split; [done|by exists id]|done].
Qed.
Lemma seen_set x ids : shaped x -> tidy ids -> shaped (setBoundVmIds x ids) /\ view_of (setBoundVmIds x ids) = (proxy_id x, ids).
Proof.
  intros Hx Ht. unfold view_of. rewrite names_set by done. unfold setBoundVmIds. destruct (shaped_with x (parseBoundVmIds (jstrs ids)) Hx) as [Hs ->].
  by split.
Qed.

(** ** Operations on views *)

Definition view_let_go (vm : string) (v : list (string * list string)) : list (string * list string) := prod_map id (without_vm vm) <$> v.
Definition view_add (i vm : string) (v : list (string * list string)) : list (string * list string) :=
  (fun e => if String.eqb e.1 i then (e.1, e.2 ++ [vm]) else e) <$> v.

Lemma elem_without vm vm' l : vm' ∈ without_vm vm l <-> vm' <> vm /\ vm' ∈ l.
Proof.
  unfold without_vm. rewrite list_elem_of_In, List.filter_In, <- list_elem_of_In, negb_true_iff, String.eqb_neq. tauto.
Qed.
Lemma without_other vm l : vm ∉ l -> without_vm vm l = l.
Proof.
  induction l as [|x l IH]; intros H; [done|]. apply not_elem_of_cons in H as [Hx H]. unfold without_vm in *. cbn [List.filter].
  rewrite (proj2 (String.eqb_neq x vm)) by done. cbn [negb]. by rewrite IH.
Qed.
Lemma seen_let_go vm x : shaped x -> shaped (let_go vm x) /\ view_of (let_go vm x) = (proxy_id x, without_vm vm (boundVmIdsOf x)).
Proof.
  intros Hx. unfold let_go. destruct (mem vm (boundVmIdsOf x)) eqn:E; [apply seen_set; [done|apply tidy_filter, names_tidy]|].
  split; [done|]. unfold view_of. rewrite without_other; [done|]. intros H. apply mem_spec in H. congruence.
Qed.
Lemma on_let_go vm v vm' id : on (view_let_go vm v) vm' id <-> vm' <> vm /\ on v vm' id.
Proof.
  unfold on, view_let_go. split.
  - intros (ids & ([i l] & E & Hl)%list_elem_of_fmap & Hv). cbn in E. simplify_eq. apply elem_without in Hv as [? ?]. split; [done|]. by exists l.
  - intros (Hn & ids & Hi & Hv). exists (without_vm vm ids). split; [|by apply elem_without]. apply list_elem_of_fmap. by exists (id, ids).
Qed.
Lemma slots_filter vm v : slots (view_let_go vm v) = without_vm vm (slots v).
Proof.
  unfold slots, view_let_go, without_vm. induction v as [|[i l] v IH]; [done|]. cbn. rewrite IH. by rewrite List.filter_app.
Qed.
Lemma keys_let_go vm v : (view_let_go vm v).*1 = v.*1.
Proof. unfold view_let_go. rewrite <- list_fmap_compose. by apply list_fmap_ext. Qed.
Lemma well_let_go vm v : well v -> well (view_let_go vm v).
Proof.
  intros (H1 & H2 & H3). split; [by rewrite keys_let_go|]. rewrite slots_filter. split.
  - clear -H2. unfold without_vm. induction H2 as [|x l Hx H IH]; [constructor|]. cbn [List.filter]. destruct (negb _); [|done]. constructor; [|done].
    intros Hi. by apply Hx, (elem_without vm x l).
  - rewrite Forall_forall in *. intros x Hx. apply elem_without in Hx as [_ Hx]. by apply H3.
Qed.
Lemma on_add i vm v vm' id : i ∈ v.*1 -> NoDup v.*1 -> on (view_add i vm v) vm' id <-> (vm' = vm /\ id = i) \/ on v vm' id.
Proof.
  intros Hi Hd. unfold on, view_add. split.
  - intros (ids & ([j l] & E & Hl)%list_elem_of_fmap & Hv). cbn [fst snd] in E. destruct (String.eqb_spec j i) as [->|Hn]; simplify_eq.
    + apply elem_of_app in Hv as [Hv|Hv]; [right; by exists l|]. apply list_elem_of_singleton in Hv as ->. by left.
    + right. by exists l.
  - intros [[-> ->]|(ids & Hin & Hv)].
    + apply list_elem_of_fmap in Hi as ([j l] & -> & Hl). exists (l ++ [vm]). split; [|set_solver]. apply list_elem_of_fmap. exists (j, l). cbn [fst snd].
      by rewrite String.eqb_refl.
    + destruct (String.eqb_spec id i) as [->|Hn].
      * exists (ids ++ [vm]). split; [|set_solver]. apply list_elem_of_fmap. exists (i, ids). cbn [fst snd]. by rewrite String.eqb_refl.
      * exists ids. split; [|done]. apply list_elem_of_fmap. exists (id, ids). cbn [fst snd]. by rewrite (proj2 (String.eqb_neq id i)).
Qed.
Lemma keys_add i vm v : (view_add i vm v).*1 = v.*1.
Proof. unfold view_add. rewrite <- list_fmap_compose. apply list_fmap_ext. intros ? [j l] _. cbn. by case_match. Qed.
Lemma slots_add i vm v : i ∈ v.*1 -> NoDup v.*1 -> slots (view_add i vm v) ≡ₚ vm :: slots v.
Proof.
  unfold slots, view_add. induction v as [|[j l] v IH]; intros Hi Hd; [by apply not_elem_of_nil in Hi|]. cbn [fmap list_fmap fst snd mbind list_bind] in *.
  apply NoDup_cons in Hd as [Hn Hd]. destruct (String.eqb_spec j i) as [->|Hj].
  - assert ((fun e : string * list string => if String.eqb e.1 i then (e.1, e.2 ++ [vm]) else e) <$> v = v) as Ev.
    { clear -Hn. induction v as [|[k m] v IH]; [done|]. cbn [fmap list_fmap fst snd] in *. apply not_elem_of_cons in Hn as [Hk Hn].
      rewrite (proj2 (String.eqb_neq k i)) by done. f_equal. by apply IH. }
    change (list_fmap _ _ ?f v) with (f <$> v). rewrite Ev. cbn [snd]. rewrite <- app_assoc. cbn [app]. by rewrite <- Permutation_middle.
  - apply elem_of_cons in Hi as [Hi|Hi]; [done|]. cbn [snd]. change (list_fmap _ _ ?f v) with (f <$> v).
    change (list_bind _ _ ?f ?w) with (w ≫= f). rewrite IH by done. by rewrite <- Permutation_middle.
Qed.
Lemma well_add i vm v : i ∈ v.*1 -> plain vm = true -> vm ∉ slots v -> well v -> well (view_add i vm v).
Proof.
  intros Hi Hp Hn (H1 & H2 & H3). split; [by rewrite keys_add|]. rewrite slots_add by done. split; [by constructor|by constructor].
Qed.

(** ** Binding *)

Lemma find_shaped id p x : sound (proxies p) -> find_id id p = Some x -> shaped x /\ proxy_id x = id /\ x ∈ proxies p.
Proof.
  intros [Hs _] H. assert (Hx := shaped_find _ _ _ Hs H). split; [done|]. split; [|by apply list_elem_of_In, (List.find_some _ _ H)].
  apply has_id_spec; [done|]. apply (List.find_some _ _ H).
Qed.
Lemma view_elem l x : x ∈ l -> view_of x ∈ view l.
Proof. intros H. apply list_elem_of_fmap. by exists x. Qed.
Lemma key_elem l x : x ∈ l -> proxy_id x ∈ (view l).*1.
Proof. intros H. apply list_elem_of_fmap. exists (view_of x). split; [done|by apply view_elem]. Qed.
Lemma same_id l x y : sound l -> x ∈ l -> y ∈ l -> proxy_id x = proxy_id y -> x = y.
Proof.
  intros [_ (Hd & _)] Hx Hy E. induction l as [|z l IH]; [by apply not_elem_of_nil in Hx|]. cbn in Hd. apply NoDup_cons in Hd as [Hn Hd].
  apply elem_of_cons in Hx as [->|Hx], Hy as [->|Hy]; [done| | |by apply IH].
  - destruct Hn. rewrite E. by apply key_elem.
  - destruct Hn. rewrite <- E. by apply key_elem.
Qed.
Lemma on_has l x vm : x ∈ l -> vm ∈ boundVmIdsOf x -> on (view l) vm (proxy_id x).
Proof. intros Hx Hv. exists (boundVmIdsOf x). split; [by apply view_elem|done]. Qed.

(** The others let a slot go. *)
Definition others_let_go (id vm : string) (l : list jsval) : list jsval := map (fun y => if has_id id y then y else let_go vm y) l.
Lemma others_view id vm l x : sound l -> x ∈ l -> proxy_id x = id ->
  Forall shaped (others_let_go id vm l) /\
  view (others_let_go id vm l) = if mem vm (boundVmIdsOf x) then view l else view_let_go vm (view l).
Proof.
  intros Hl Hx Hid. assert (He : forall y, y ∈ l -> shaped y /\ (has_id id y = true -> y = x)).
  { intros y Hy. pose proof (proj1 (Forall_forall _ _) (proj1 Hl) y Hy) as Hs. split; [done|]. intros Hh. apply (same_id l); [done..|].
    rewrite Hid. by apply has_id_spec. }
  split.
  - apply Forall_forall. intros z (y & -> & Hy)%list_elem_of_fmap. destruct (He y Hy) as [Hs _]. case_match; [done|]. by apply seen_let_go.
  - destruct (mem vm (boundVmIdsOf x)) eqn:E; unfold view, view_let_go, others_let_go.
    + rewrite <- (list_fmap_compose _ view_of). apply list_fmap_ext. intros k y Hy%list_elem_of_lookup_2. unfold compose.
      destruct (has_id id y) eqn:Hh; [done|]. destruct (He y Hy) as [Hs _]. destruct (seen_let_go vm y Hs) as [_ ->]. unfold view_of. f_equal.
      apply without_other. intros Hv. assert (Hq : proxy_id y = id).
      { destruct Hl as [_ Hw]. eapply on_unique; [exact Hw|by apply on_has|]. rewrite <- Hid. apply on_has; [done|]. by apply mem_spec. }
      apply has_id_spec in Hq; [congruence|done].
    + rewrite <- (list_fmap_compose _ view_of), <- (list_fmap_compose view_of). apply list_fmap_ext. intros k y Hy%list_elem_of_lookup_2. unfold compose.
      destruct (He y Hy) as [Hs Hu]. destruct (has_id id y) eqn:Hh; [|by destruct (seen_let_go vm y Hs)].
      rewrite (Hu eq_refl) in *. unfold prod_map, view_of. cbn. f_equal. symmetry. apply without_other. intros Hv%mem_spec. congruence.
Qed.

(** What the pool holds in the end, by the way [bind] goes. *)
Variant bind_way (id vm : string) (p : pool) (x : jsval) (p' : pool) (r : jsval) : Prop :=
| BindKept : vm ∈ boundVmIdsOf x -> truthy (r?."ok") = true -> view (proxies p') = view (proxies p) -> saved p' = saved (save p') -> bind_way id vm p x p' r
| BindRefused : vm ∉ boundVmIdsOf x -> (bindLimit p <= bound_count x)%Z -> truthy (r?."ok") = false ->
    view (proxies p') = view_let_go vm (view (proxies p)) -> saved p' = saved p -> bind_way id vm p x p' r
| BindNew : vm ∉ boundVmIdsOf x -> (bound_count x < bindLimit p)%Z -> truthy (r?."ok") = true ->
    view (proxies p') = view_add id vm (view_let_go vm (view (proxies p))) -> saved p' = saved (save p') -> bind_way id vm p x p' r.
Lemma plain_tidy vm : plain vm = true -> trim vm = vm /\ nonempty vm = true.
Proof.
  intros [Hn Hc]%andb_prop. split; [|done]. apply (trim_start_chars name_char); [|done]. intros c H. apply (name_char_facts c H).
Qed.
Lemma limit_max p : (bindLimit p <= BIND_LIMIT_MAX)%Z.
Proof. unfold bindLimit, clampBindLimit, MAX_VMS_PER_PROXY, BIND_LIMIT_MAX. case_match; lia. Qed.
Lemma tidy_snoc vm ids : tidy ids -> plain vm = true -> vm ∉ ids -> (Z.of_nat (length ids) < BIND_LIMIT_MAX)%Z -> tidy (ids ++ [vm]).
Proof.
  intros (Hd & Ht & Hl) Hp Hn Hb. split; [|split].
  - apply NoDup_app. split; [done|]. split; [set_solver|apply NoDup_singleton].
  - apply Forall_app. split; [done|]. constructor; [by apply plain_tidy|constructor].
  - rewrite length_app. cbn [length]. unfold BIND_LIMIT_MAX in *. lia.
Qed.
Lemma bind_ways id vmId p x : let vm := trim (str_or_empty vmId) in sound (proxies p) -> find_id id p = Some x -> enabled x = true -> not_dead x = true ->
  plain vm = true -> let '(p', r) := bind id vmId p in bind_way id vm p x p' r /\ Forall shaped (proxies p').
Proof.
  intros vm Hp Hf He Hd Hv. destruct (find_shaped id p x Hp Hf) as (Hs & Hid & Hx). destruct (others_view id vm _ x Hp Hx Hid) as [Ho Ev].
  unfold bind. rewrite Hf, He, Hd. fold vm. destruct (plain_tidy vm Hv) as [_ ->]. cbn [negb orb]. fold (others_let_go id vm (proxies p)).
  destruct (mem vm (boundVmIdsOf x)) eqn:E; cbn iota in Ev.
  - split; [|done]. apply BindKept; [by apply mem_spec|done..].
  - assert (Hn : vm ∉ boundVmIdsOf x) by (intros H%mem_spec; congruence). cbn [bindLimit with_proxies config]. change (bindLimit (with_proxies _ p)) with (bindLimit p).
    destruct (Z.leb_spec (bindLimit p) (Z.of_nat (length (boundVmIdsOf x)))) as [Hl|Hl].
    + split; [|done]. apply BindRefused; done.
    + assert (Ht : tidy (boundVmIdsOf x ++ [vm])) by (apply tidy_snoc; [apply names_tidy|done..|pose proof (limit_max p); lia]).
      destruct (seen_set x _ Hs Ht) as [Hy Ey]. set (y := setBoundVmIds x (boundVmIdsOf x ++ [vm])) in *. cbn [proxies save with_disk change with_proxies].
      assert (Hq : List.find (has_id id) (others_let_go id vm (proxies p)) = Some x).
      { revert Hf Hx. unfold find_id, others_let_go. generalize (proxies p) as l. induction l as [|z l IH]; [done|]. cbn [List.find map].
        destruct (has_id id z) eqn:Ez; [by rewrite Ez|]. intros Hf _. assert (has_id id (let_go vm z) = false) as ->.
        { unfold has_id in *. replace (let_go vm z?."id") with (z?."id"); [done|]. unfold let_go. case_match; [|done].
          unfold setBoundVmIds, with_names. by rewrite !get_with_field_ne. }
        apply IH; [done|]. by apply list_elem_of_In, (List.find_some _ _ Hf). }
      split; [|by eapply shaped_change]. apply BindNew; [done|done|done| |done].
      destruct (find_split _ _ _ Hq) as (Hh & a & b & El & Ha & Hc & _). rewrite <- Ev.
      change (proxies (save _)) with (change_first (has_id id) (fun _ => y) (others_let_go id vm (proxies p))). rewrite Hc, El.
      unfold view, view_add. rewrite !fmap_app, !fmap_cons. cbn [view_of fst]. rewrite Hid, String.eqb_refl. cbn [snd].
      assert (Hsame : forall c, Forall shaped c -> Forall (fun z => proxy_id z <> id) c ->
        (fun e => if String.eqb e.1 id then (e.1, e.2 ++ [vm]) else e) <$> (view_of <$> c) = view_of <$> c).
      { clear. intros c _ H. induction H as [|z c Hz H IH]; [done|]. cbn. rewrite (proj2 (String.eqb_neq _ _) Hz). by f_equal. }
      assert (Hk : NoDup (view (others_let_go id vm (proxies p))).*1).
      { rewrite Ev. destruct Hp as [_ (Hk & _)]. by rewrite keys_let_go. }
      rewrite El in Hk, Ho. unfold view in Hk. rewrite !fmap_app, !fmap_cons in Hk. cbn in Hk. rewrite Hid in Hk.
      apply Forall_app in Ho as [Hoa [_ Hob]%Forall_cons]. apply NoDup_app in Hk as (_ & Hka & [Hkb _]%NoDup_cons).
      rewrite !Hsame; [by rewrite Ey, Hid|done| |done|].
      * apply Forall_forall. intros z Hz E'. apply Hkb. rewrite <- E'. apply list_elem_of_fmap. exists (view_of z). split; [done|by apply view_elem].
      * apply Forall_forall. intros z Hz E'. apply (Hka id); [|by left]. rewrite <- E'. apply list_elem_of_fmap. exists (view_of z). split; [done|by apply view_elem].
Qed.

(** C19: A slot is bound to one proxy, and a refused binding leaves it on none.  For a proxy that is enabled: the
    binding is refused exactly when the proxy is full and does not have the slot; whatever happens, every other slot
    stays where it was, and the slot is afterwards on that proxy when it was accepted and nowhere when it was
    refused, although it may have been on another proxy before. *)
Theorem bind_moves_slot id vmId p x : let vm := trim (str_or_empty vmId) in
  sound (proxies p) -> find_id id p = Some x -> enabled x = true -> not_dead x = true -> plain vm = true ->
  let '(p', r) := bind id vmId p in
  (truthy (r?."ok") = true <-> on (view (proxies p)) vm id \/ (bound_count x < bindLimit p)%Z) /\
  forall vm' id', on (view (proxies p')) vm' id' <->
    if decide (vm' = vm) then id' = id /\ truthy (r?."ok") = true else on (view (proxies p)) vm' id'.
Proof.
  intros vm Hp Hf He Hd Hv. pose proof (bind_ways id vmId p x Hp Hf He Hd Hv) as H. fold vm in H. destruct (bind id vmId p) as [p' r].
  destruct (find_shaped id p x Hp Hf) as (Hs & Hid & Hx). pose proof (proj2 Hp) as Hw.
  assert (Hon : on (view (proxies p)) vm id <-> vm ∈ boundVmIdsOf x).
  { split; [|intros Hin; rewrite <- Hid; by apply on_has]. intros (ids & (y & Ey & Hy)%list_elem_of_fmap & Hin). unfold view_of in Ey. simplify_eq.
    rewrite (same_id (proxies p) x y); done. }
  destruct H as [[Hin Hok Ev _|Hin Hl Hok Ev _|Hin Hl Hok Ev _] _]; rewrite Ev.
  - split; [tauto|]. intros vm' id'. case_decide as Hc; [|done]. subst vm'. split; [|intros [-> _]; by apply Hon].
    intros H. split; [|done]. eapply on_unique; [exact Hw|exact H|]. by apply Hon.
  - split; [split; [congruence|intros [Hq%Hon|?]; [done|lia]]|]. intros vm' id'. rewrite on_let_go. case_decide; [|tauto]. split; [tauto|intros [_ ?]; congruence].
  - split; [tauto|]. intros vm' id'. rewrite on_add, on_let_go; [|rewrite keys_let_go, <- Hid; by apply key_elem|rewrite keys_let_go; apply Hw].
    case_decide; [|tauto]. subst vm'. tauto.
Qed.

(** ** Saved and loaded *)

Lemma assoc_map (f : string -> jsval) c l : assoc c (map (fun c => (c, f c)) l) = if mem c l then f c else JUndef.
Proof.
  induction l as [|d l IH]; [done|]. cbn [map assoc]. unfold mem in *. cbn [existsb]. destruct (String.eqb_spec c d) as [->|Hn]; [done|]. exact IH.
Qed.
Definition written (x : jsval) : jsval := to_row (with_field x "bound_vm_id" (encode_names (boundVmIdsOf x))).
Definition read (row : jsval) : jsval := hydrateProxy (rowToProxy row).
Lemma column_nullish (v : jsval) : v <> JUndef -> v ?? JNull = v.
Proof. by destruct v. Qed.
(** What is read of a row is written as that row. *)
Lemma read_written x : shaped x -> Forall (fun vm => plain vm = true) (boundVmIdsOf x) ->
  shaped (read (written x)) /\ view_of (read (written x)) = view_of x /\ written (read (written x)) = written x.
Proof.
  intros [Ho [id Hid]] Hp. set (r := written x).
  assert (Hr : forall c, mem c COLUMNS = true -> r?.c = column (with_field x "bound_vm_id" (encode_names (boundVmIdsOf x))) c).
  { intros c Hc. unfold r, written, to_row. cbn [get]. by rewrite assoc_map, Hc. }
  assert (Hb : r?."bound_vm_id" = encode_names (boundVmIdsOf x)).
  { rewrite Hr by done. unfold column. cbn [String.eqb Ascii.eqb Bool.eqb]. rewrite get_with_field_eq. apply column_nullish. by destruct (boundVmIdsOf x) as [|? [|? ?]]. }
  assert (Hu : r?."bound_vm_ids" = JUndef) by (unfold r, written, to_row; cbn [get]; by rewrite assoc_map).
  assert (Hn : boundVmIdsOf (read r) = boundVmIdsOf x).
  { unfold read. rewrite names_hydrate. unfold rowToProxy. rewrite !get_with_field_ne by done. rewrite Hu. cbn [truthy]. rewrite Hb.
    apply parse_encode; [apply names_tidy|done]. }
  assert (Hc : forall c, c <> "bound_vm_ids" -> c <> "bound_vm_id" -> c <> "enabled" -> c <> "scheme" -> read r?.c = r?.c).
  { intros c H1 H2 H3 H4. unfold read, hydrateProxy, with_names, rowToProxy. by rewrite !get_with_field_ne by done. }
  assert (Hi : r?."id" = JStr id). { rewrite Hr by done. unfold column. cbn [String.eqb Ascii.eqb Bool.eqb]. by rewrite get_with_field_ne, Hid. }
  split; [|split].
  - split; [done|]. exists id. by rewrite Hc.
  - unfold view_of, proxy_id. rewrite Hn, Hc, Hi, Hid by done. done.
  - change (written (read r) = r). unfold written at 1. rewrite Hn. unfold to_row at 1. unfold r at 2, written, to_row. f_equal. apply map_ext_in.
    intros c Hin. f_equal. unfold column. destruct (String.eqb_spec c "enabled") as [->|Hce].
    { rewrite !get_with_field_ne by done. unfold read, hydrateProxy, with_names, rowToProxy. rewrite !get_with_field_ne, get_with_field_eq by done.
      rewrite Hr by done. unfold column. cbn [String.eqb Ascii.eqb Bool.eqb]. rewrite get_with_field_ne by done. by destruct (is_bool (x?."enabled") false). }
    assert (Hm : mem c COLUMNS = true) by by apply mem_spec, list_elem_of_In.
    destruct (String.eqb_spec c "bound_vm_id") as [->|Hcb]; [by rewrite !get_with_field_eq|]. rewrite !(get_with_field_ne _ c) by done.
    assert (Hcs : c <> "bound_vm_ids" /\ c <> "scheme") by (split; intros ->; done).
    assert (Hv := Hr c Hm). unfold column in Hv. rewrite (proj2 (String.eqb_neq _ _) Hce) in Hv.
    destruct (String.eqb_spec c "protocol") as [->|Hcp].
    { rewrite !get_with_field_ne in Hv by done. rewrite !get_with_field_ne by done. rewrite Hc, Hv by done. by destruct (x?."protocol"), (x?."scheme"). }
    destruct (String.eqb_spec c "name") as [->|Hcn].
    { rewrite !get_with_field_ne in Hv by done. rewrite !get_with_field_ne by done. rewrite (Hc "name"), Hv, Hid by done.
      destruct (x?."name"), (truthy (x?."host") && negb (is_nullish (x?."port"))); done. }
    rewrite Hc, Hv by tauto. rewrite get_with_field_ne by done. by destruct (x?.c).
Qed.
Lemma loaded_perm p : sound (proxies p) -> proxies (load (save p)) ≡ₚ map (fun x => read (written x)) (proxies p).
Proof.
  intros _. cbn [load save proxies with_proxies with_disk with_config saved d_rows]. unfold loadAll. rewrite map_map.
  rewrite (sort_perm by_created), map_map. done.
Qed.
Lemma sound_plain l x : sound l -> x ∈ l -> shaped x /\ Forall (fun vm => plain vm = true) (boundVmIdsOf x).
Proof.
  intros [Hs (_ & _ & Hp)] Hx. rewrite Forall_forall in Hs. split; [by apply Hs|]. rewrite Forall_forall in Hp |- *. intros vm Hv. apply Hp, elem_slots.
  exists (proxy_id x). by apply on_has.
Qed.
Lemma view_loaded p : sound (proxies p) -> view (proxies (load (save p))) ≡ₚ view (proxies p) /\ Forall shaped (proxies (load (save p))).
Proof.
  intros Hp. rewrite (loaded_perm p Hp). assert (H : forall x, x ∈ proxies p -> shaped (read (written x)) /\ view_of (read (written x)) = view_of x).
  { intros x Hx. destruct (sound_plain _ x Hp Hx) as [Hs Hv]. destruct (read_written x Hs Hv) as (H1 & H2 & _). done. }
  split.
  - unfold view. rewrite <- (list_fmap_compose _ view_of). apply reflexive_eq, list_fmap_ext. intros k x Hx%list_elem_of_lookup_2. by apply H.
  - apply Forall_forall. intros y (x & -> & Hx)%list_elem_of_fmap. by apply H.
Qed.
Lemma sound_saved p : sound (proxies p) -> sound (proxies (load (save p))).
Proof.
  intros Hp. destruct (view_loaded p Hp) as [Hv Hs]. split; [done|]. symmetry in Hv. apply (well_perm _ _ Hv). apply Hp.
Qed.
(** What is saved of the pool comes back: every slot is on the proxy it was on, and saving again writes the
    same rows. *)
Theorem pool_roundtrip p : sound (proxies p) ->
  view (proxies (load (save p))) ≡ₚ view (proxies p) /\ d_rows (saved (save (load (save p)))) ≡ₚ d_rows (saved (save p)).
Proof.
  intros Hp. split; [by apply view_loaded|].
  change (map written (proxies (load (save p))) ≡ₚ map written (proxies p)). rewrite (loaded_perm p Hp), map_map.
  apply reflexive_eq, map_ext_in. intros x Hx%list_elem_of_In. destruct (sound_plain _ x Hp Hx) as [Hs Hv]. by apply read_written.
Qed.

(** ** Every operation *)

Inductive op :=
| OImport (records : list parsed) (extra : jsval) (ids : nat -> string) (now : Z)
| OLocal (now : Z)
| OBind (id : string) (vm : jsval)
| OUnbind (id : string) (vm : jsval)
| OUnbindVm (vm : jsval)
| OAllocate (vm : string) (owner : jsval)
| OEnsure (vm : string) (preferred : option string)
| OEnabled (id : string) (on : jsval)
| ORemove (id : string)
| OUpdate (id : string) (patch : jsval)
| OConfig (patch : jsval)
| OBegin (onlyEnabled : bool)
| OProbed (cascades : bool) (r : ref) (result : jsval) (now : Z)
| OEnd
| ORuntime (vm : string) (error : jsval) (now : Z)
| OLocated (zone : jsval -> string) (r : ref) (result : jsval) (now : Z)
| OGeo (zone : jsval -> string) (id : string) (force : bool) (lookup : jsval -> jsval) (now : Z)
| OTimer (on : bool)
| OLoad.
Definition perform (h : hooks) (o : op) (p : pool) : pool :=
  match o with
  | OImport records extra ids now => (importParsed ids records extra now p).1
  | OLocal now => (ensureLocal now p).1
  | OBind id vm => (bind id vm p).1
  | OUnbind id vm => (unbind id vm p).1
  | OUnbindVm vm => unbindVm vm p
  | OAllocate vm owner => (allocateForVm vm owner p).1
  | OEnsure vm preferred => (ensureBoundToVm vm preferred p).1
  | OEnabled id on => (setEnabled h id on p).1
  | ORemove id => (remove id p).1
  | OUpdate id patch => (update id patch p).1
  | OConfig patch => (updateConfig patch p).1
  | OBegin onlyEnabled => match begin_probes onlyEnabled p with Some (p, _) => p | None => p end
  | OProbed cascades r result now => probed h cascades r result now p
  | OEnd => end_probes p
  | ORuntime vm error now => (reportRuntimeFailure h vm error now p).1
  | OLocated zone r result now => save (located zone r result now p)
  | OGeo zone id force lookup now => (detectGeo zone id force lookup now p).1
  | OTimer on => if on then startScheduler p else stopScheduler p
  | OLoad => load p
  end.
(** Ids that are drawn are new; slots are named as VMs are. *)
Definition allowed (o : op) (p : pool) : Prop :=
  match o with
  | OImport _ _ ids _ => (forall n m, ids n = ids m -> n = m) /\ forall n, ids n ∉ (view (proxies p)).*1
  | OBind _ vm => plain (trim (str_or_empty vm)) = true \/ nonempty (trim (str_or_empty vm)) = false
  | OAllocate vm _ | OEnsure vm _ => plain vm = true \/ nonempty vm = false
  | _ => True
  end.
(** Runs from what was on disk; [L]: the greatest [bind_limit] that was in force. *)
Inductive ran (h : hooks) (d : disk) : Z -> pool -> Prop :=
| ran_start : ran h d (bindLimit (new_pool d)) (new_pool d)
| ran_step L o p : ran h d L p -> allowed o p -> ran h d (Z.max L (bindLimit (perform h o p))) (perform h o p).

(** In memory, and what [load] would read. *)
Definition kept (p : pool) : Prop := sound (proxies p) /\ sound (proxies (load p)).
Lemma kept_save p : sound (proxies p) -> kept (save p).
Proof. intros H. split; [done|by apply sound_saved]. Qed.
Lemma kept_same p p' : proxies p' = proxies p -> saved p' = saved p -> kept p -> kept p'.
Proof. intros H1 H2 [Hp Hl]. split; [by rewrite H1|]. cbn [load proxies with_proxies with_config saved] in *. by rewrite H2. Qed.
Lemma kept_saved p p' : sound (proxies p') -> saved p' = saved p -> kept p -> kept p'.
Proof. intros H1 H2 [_ Hl]. split; [done|]. cbn [load proxies with_proxies with_config saved] in *. by rewrite H2. Qed.
Lemma kept_just_saved p : sound (proxies p) -> saved p = saved (save p) -> kept p.
Proof. intros H1 H2. split; [done|]. pose proof (sound_saved p H1) as Hs. cbn [load proxies with_proxies with_config saved] in *. by rewrite H2. Qed.

Lemma well_sublist v v' : v'.*1 `sublist_of` v.*1 -> slots v' `sublist_of` slots v -> well v -> well v'.
Proof.
  intros H1 H2 (Ha & Hb & Hc). split; [exact (sublist_NoDup _ _ Ha H1)|]. split; [exact (sublist_NoDup _ _ Hb H2)|].
  rewrite Forall_forall in *. intros vm Hvm. exact (Hc vm (elem_of_sublist _ _ _ Hvm H2)).
Qed.
Lemma filter_sublist {A} (f : A -> bool) l : List.filter f l `sublist_of` l.
Proof. induction l as [|x l IH]; [constructor|]. cbn. destruct (f x); by constructor. Qed.
Lemma view_app l k : view (l ++ k) = view l ++ view k.
Proof. apply fmap_app. Qed.
Lemma slots_app v w : slots (v ++ w) = slots v ++ slots w.
Proof. unfold slots. apply bind_app. Qed.
(** A proxy that loses slots, and one that is removed. *)
Lemma sound_less f x y l : List.find f l = Some x -> shaped y -> proxy_id y = proxy_id x -> boundVmIdsOf y `sublist_of` boundVmIdsOf x ->
  sound l -> sound (change_first f (fun _ => y) l).
Proof.
  intros H Hy Hi Hn [Hs Hw]. split; [by eapply shaped_change|]. destruct (find_split f l x H) as (_ & a & b & -> & _ & -> & _).
  revert Hw. rewrite !view_app. apply well_sublist.
  - rewrite !fmap_app. cbn. by rewrite Hi.
  - rewrite !slots_app. apply sublist_app; [done|]. unfold view, slots. cbn. by apply sublist_app.
Qed.
Lemma sound_removed f x l : List.find f l = Some x -> sound l -> sound (remove_first f l).
Proof.
  intros H [Hs Hw]. destruct (find_split f l x H) as (_ & a & b & -> & _ & _ & ->). split.
  { apply Forall_app in Hs as [? [_ ?]%Forall_cons]. by apply Forall_app. }
  revert Hw. rewrite !view_app. apply well_sublist.
  - rewrite !fmap_app. cbn. apply sublist_app; [done|by constructor].
  - rewrite !slots_app. apply sublist_app; [done|]. unfold view, slots. cbn. by apply sublist_inserts_l.
Qed.

(** A found proxy is changed where it is not seen. *)
Lemma sound_seen id p x y : find_id id p = Some x -> sound (proxies p) -> shaped y /\ view_of y = view_of x -> sound (proxies (change id (fun _ => y) p)).
Proof. intros H Hp [Hy Hv]. by apply (sound_change _ y x). Qed.
Lemma shaped_all id p x : find_id id p = Some x -> sound (proxies p) -> shaped x.
Proof. intros H Hp. by apply (find_shaped id p x). Qed.

Lemma kept_bind id vmId p : plain (trim (str_or_empty vmId)) = true \/ nonempty (trim (str_or_empty vmId)) = false -> kept p -> kept (bind id vmId p).1.
Proof.
  intros Hv Hp. destruct (find_id id p) as [x|] eqn:Hf; [|unfold bind; by rewrite Hf].
  destruct (negb (enabled x) || negb (not_dead x)) eqn:He; [unfold bind; by rewrite Hf, He|].
  destruct Hv as [Hv|Hv]; [|unfold bind; by rewrite Hf, He, Hv]. apply orb_false_iff in He as [He%negb_false_iff Hd%negb_false_iff].
  pose proof (bind_ways id vmId p x (proj1 Hp) Hf He Hd Hv) as H. destruct (bind id vmId p) as [p' r]. destruct H as [H Hs]. cbn [fst].
  destruct (find_shaped id p x (proj1 Hp) Hf) as (_ & Hid & Hx). destruct Hp as [[Hps Hw] Hl].
  destruct H as [Hin _ Ev Es|Hin _ _ Ev Es|Hin _ _ Ev Es].
  - apply kept_just_saved; [|done]. split; [done|by rewrite Ev].
  - apply (kept_saved p); [|done|by split]. split; [done|]. rewrite Ev. by apply well_let_go.
  - apply kept_just_saved; [|done]. split; [done|]. rewrite Ev. apply well_add; [|done| |by apply well_let_go].
    + rewrite keys_let_go, <- Hid. by apply key_elem.
    + rewrite slots_filter, elem_without. tauto.
Qed.
Lemma kept_allocate vm owner p : plain vm = true \/ nonempty vm = false -> kept p -> kept (allocateForVm vm owner p).1.
Proof.
  intros Hv Hp. unfold allocateForVm. destruct (nonempty vm) eqn:Hn; [|done]. cbn [negb]. destruct (List.find _ _); [done|]. destruct (sort _ _) as [|pick l]; [done|].
  pose proof (kept_bind (to_string (pick?."id")) (JStr vm) p) as H. destruct (bind _ _ p) as [p' r]. apply H; [|done]. rewrite str_or_empty_JStr.
  destruct Hv as [Hv|Hv]; [|congruence]. left. by rewrite (proj1 (plain_tidy vm Hv)).
Qed.
Lemma kept_ensure vm preferred p : plain vm = true \/ nonempty vm = false -> kept p -> kept (ensureBoundToVm vm preferred p).1.
Proof.
  intros Hv Hp. unfold ensureBoundToVm. destruct (nonempty vm) eqn:Hn; [|done]. cbn [negb]. destruct (truthy (getProxyForVm vm p)); [done|].
  destruct preferred as [i|]; [|by apply kept_allocate; [left; destruct Hv; congruence|]]. pose proof (kept_bind i (JStr vm) p) as H. destruct (bind i (JStr vm) p) as [p' r].
  assert (Hk : kept p'). { apply H; [|done]. rewrite str_or_empty_JStr. destruct Hv as [Hv|Hv]; [|congruence]. left. by rewrite (proj1 (plain_tidy vm Hv)). }
  destruct (truthy (r?."ok")); [done|]. apply kept_allocate; [left; destruct Hv; congruence|done].
Qed.
Lemma kept_unbind id vmId p : kept p -> kept (unbind id vmId p).1.
Proof.
  intros Hp. unfold unbind. destruct (find_id id p) as [x|] eqn:Hf; [|done]. pose proof (shaped_all id p x Hf (proj1 Hp)) as Hx.
  set (t := trim _). assert (H : forall ids, ids `sublist_of` boundVmIdsOf x -> tidy ids -> kept (save (change id (fun _ => setBoundVmIds x ids) p))).
  { intros ids Hs Ht. apply kept_save. destruct (seen_set x ids Hx Ht) as [Hy Ey]. unfold view_of in Ey. injection Ey as Ei En.
    apply (sound_less _ x); [done|done|done| |by apply Hp]. by rewrite En. }
  destruct (nonempty t); cbn [fst]; apply H; [apply filter_sublist|apply tidy_filter, names_tidy|apply sublist_nil_l|apply tidy_nil].
Qed.
Lemma kept_unbindVm vmId p : kept p -> kept (unbindVm vmId p).
Proof.
  intros Hp. unfold unbindVm. set (vm := trim _). destruct (nonempty vm); [|done]. apply kept_save. destruct Hp as [[Hs Hw] _].
  rewrite Forall_forall in Hs. split.
  - apply Forall_forall. intros y (x & -> & Hx)%list_elem_of_fmap. by apply seen_let_go, Hs.
  - cbn [proxies with_proxies]. replace (view (map (let_go vm) (proxies p))) with (view_let_go vm (view (proxies p))); [by apply well_let_go|].
    unfold view, view_let_go. rewrite <- (list_fmap_compose view_of), <- (list_fmap_compose (let_go vm)). apply list_fmap_ext.
    intros k x Hx%list_elem_of_lookup_2. symmetry. by apply seen_let_go, Hs.
Qed.
Lemma seen_probe h cascades limit result now x : shaped x -> let y := (applyProbeResult h cascades limit result now x).1 in shaped y /\ view_of y = view_of x.
Proof.
  intros Hx y. assert (H : forall z, shaped z /\ view_of z = view_of x -> forall f, unviewed f = true -> shaped (set_all f z) /\ view_of (set_all f z) = view_of x).
  { intros z [Hz Ez] f Hf. destruct (seen_set_all f z Hz Hf) as [? E]. split; [done|]. by rewrite E. }
  assert (H' : forall z, shaped z /\ view_of z = view_of x -> forall k v, mem k VIEWED = false -> shaped (with_field z k v) /\ view_of (with_field z k v) = view_of x).
  { intros z [Hz Ez] k v Hk. destruct (seen_field k v z Hz Hk) as [? E]. split; [done|]. by rewrite E. }
  subst y. unfold applyProbeResult. cbn zeta. repeat case_match; cbn [fst]; repeat first [apply H; [|reflexivity] | apply H'; [|reflexivity]]; done.
Qed.
Lemma assign_same r x p : attached r p = false -> proxies (assign r x p) = proxies p /\ saved (assign r x p) = saved p /\ config (assign r x p) = config p.
Proof. intros H. unfold assign. by rewrite H. Qed.
Lemma kept_assign r x y p : deref r p = Some x -> (shaped x -> shaped y /\ view_of y = view_of x) -> kept p -> kept (assign r y p).
Proof.
  intros Hf Hy Hp. unfold deref in Hf. destruct (attached r p) eqn:E.
  - unfold assign. rewrite E. apply (kept_saved p); [|done|done]. apply (sound_seen _ p x y Hf (proj1 Hp)), Hy. by apply (shaped_all _ p x Hf (proj1 Hp)).
  - destruct (assign_same r y p E) as (H1 & H2 & _). by apply (kept_same p).
Qed.
Lemma kept_probed h cascades r result now p : kept p -> kept (probed h cascades r result now p).
Proof.
  intros Hp. unfold probed. destruct (deref r p) as [x|] eqn:Hf; [|done].
  pose proof (seen_probe h cascades (max_failures p) result now x) as H. destruct (applyProbeResult _ _ _ _ _ x) as [y l].
  apply (kept_same (assign r y p)); [done..|]. by apply (kept_assign r x).
Qed.
(** A proxy is found by its id. *)
Lemma find_self p x : sound (proxies p) -> x ∈ proxies p -> find_id (to_string (x?."id")) p = Some x.
Proof.
  intros Hp Hin. pose proof (proj1 (Forall_forall _ _) (proj1 Hp) x Hin) as [Ho [id Hi]]. rewrite Hi. cbn [to_string]. unfold find_id.
  destruct (List.find (has_id id) (proxies p)) as [z|] eqn:E.
  - f_equal. destruct (List.find_some _ _ E) as [Hz Hh]. apply list_elem_of_In in Hz. apply (same_id (proxies p)); [done..|].
    apply has_id_spec in Hh; [|by eapply shaped_find; [apply Hp|]]. rewrite Hh. unfold proxy_id. by rewrite Hi.
  - pose proof (List.find_none _ _ E x (proj1 (list_elem_of_In _ _) Hin)) as Hn. unfold has_id in Hn. rewrite Hi in Hn. cbn in Hn. by rewrite String.eqb_refl in Hn.
Qed.
Lemma kept_runtime h vm error now p : kept p -> kept (reportRuntimeFailure h vm error now p).1.
Proof.
  intros Hp. unfold reportRuntimeFailure. destruct (negb (disconnectOnErrorEnabled p)); [done|]. destruct (negb (nonempty vm)); [done|].
  destruct (List.find _ (proxies p)) as [x|] eqn:Hf; [|done]. pose proof (shaped_find _ _ x (proj1 (proj1 Hp)) Hf) as Hx.
  set (result := JObj _). pose proof (seen_probe h false (max_failures p) result now x Hx) as H.
  destruct (applyProbeResult _ _ _ _ _ x) as [y l]. cbn [fst] in *. apply kept_save.
  apply (sound_seen _ p x y (find_self p x (proj1 Hp) (proj2 (list_elem_of_In _ _) (proj1 (List.find_some _ _ Hf)))) (proj1 Hp)), H.
Qed.

Lemma import_added owner now ids l : forall n existing, let added := (import_all owner now ids n existing l).1 in
  Forall shaped added /\ view added = (fun i => (ids i, [])) <$> seq n (length added).
Proof.
  induction l as [|[k|label] l IH]; intros n existing; cbn [import_all]; [done| |].
  - destruct (mem _ existing).
    + specialize (IH n existing). destruct (import_all _ _ _ n existing l). exact IH.
    + specialize (IH (S n) (key_of_socks k :: existing)). destruct (import_all _ _ _ (S n) _ l) as [added out]. destruct IH as [Hs Hv]. split.
      * constructor; [|done]. split; [done|]. by exists (ids n).
      * cbn [fst length seq] in *. unfold view in *. rewrite !fmap_cons, Hv. done.
  - specialize (IH n existing). destruct (import_all _ _ _ n existing l). exact IH.
Qed.
Lemma slots_empty (f : nat -> string) l : slots ((fun i => (f i, [])) <$> l) = [].
Proof. unfold slots. induction l as [|i l IH]; [done|]. cbn in *. done. Qed.
Lemma kept_import records extra ids now p : (forall n m, ids n = ids m -> n = m) -> (forall n, ids n ∉ (view (proxies p)).*1) -> kept p ->
  kept (importParsed ids records extra now p).1.
Proof.
  intros Hi Hn [[Hs (H1 & H2 & H3)] _]. unfold importParsed. pose proof (import_added (extra?."ownerUserId" ||| extra?."owner_user_id") now ids records 0 (map key_of (proxies p))) as H.
  destruct (import_all _ _ _ _ _ _) as [added out]. cbn [fst] in *. destruct H as [Ha Hv]. apply kept_save. split; [by apply Forall_app|].
  cbn [proxies with_proxies]. rewrite view_app, Hv. split.
  - rewrite fmap_app, <- list_fmap_compose. apply NoDup_app. split; [done|]. split.
    + intros id Hid (n & -> & _)%list_elem_of_fmap. by apply (Hn n).
    + apply NoDup_fmap_2; [intros a b; apply Hi|apply NoDup_seq].
  - rewrite slots_app, slots_empty, app_nil_r. done.
Qed.
Lemma kept_local now p : kept p -> kept (ensureLocal now p).1.
Proof.
  intros Hp. unfold ensureLocal. destruct (List.find isLocalEgressProxy (proxies p)) as [x|] eqn:E; [done|]. destruct Hp as [[Hs (H1 & H2 & H3)] _].
  apply kept_save. split; [constructor; [|done]; split; [done|]; by exists LOCAL_EGRESS_ID|]. cbn [proxies with_proxies]. split; [|done].
  unfold view. rewrite !fmap_cons. cbn [view_of fst]. apply NoDup_cons. split; [|done].
  intros ([id ids] & Ei & (x & Ex & Hx)%list_elem_of_fmap)%list_elem_of_fmap. unfold view_of in Ex. cbn [fst] in Ei.
  assert (Ep : proxy_id x = LOCAL_EGRESS_ID) by (change (LOCAL_EGRESS_ID = id) in Ei; congruence).
  apply list_elem_of_In in Hx. pose proof (List.find_none _ _ E x Hx) as Hl. rewrite Forall_forall in Hs. destruct (Hs x (proj2 (list_elem_of_In _ _) Hx)) as [Ho [i Hi]].
  unfold isLocalEgressProxy in Hl. unfold proxy_id in Ep. rewrite Hi in *. subst i. by destruct x.
Qed.
Lemma kept_enabled h id on p : kept p -> kept (setEnabled h id on p).1.
Proof.
  intros Hp. unfold setEnabled. destruct (find_id id p) as [x|] eqn:Hf; [|done]. pose proof (shaped_all id p x Hf (proj1 Hp)) as Hx.
  destruct (truthy on); cbn [fst]; apply kept_save; by apply (sound_seen _ p x _ Hf (proj1 Hp)), seen_set_all.
Qed.
Lemma kept_remove id p : kept p -> kept (remove id p).1.
Proof.
  intros Hp. unfold remove. destruct (find_id id p) as [x|] eqn:Hf; [|done]. apply kept_save. cbn [proxies with_proxies]. apply (sound_removed _ x); [done|apply Hp].
Qed.
Lemma kept_update id patch p : kept p -> kept (update id patch p).1.
Proof.
  intros Hp. unfold update. destruct (find_id id p) as [x|] eqn:Hf; [|done]. cbn zeta. destruct (negb (existsb _ _)); [done|]. destruct (_ && _); [done|].
  destruct (socks5Record _ _ _ _ _) as [k|]; [|done]. apply kept_save, (sound_seen _ p x _ Hf (proj1 Hp)), seen_set_all; [|done]. by apply (shaped_all id p x Hf (proj1 Hp)).
Qed.
Definition same_slots (p p' : pool) : Prop := proxies p' = proxies p /\ saved p' = saved p.
Lemma same_if_set patch k f p q : same_slots p q -> same_slots p (if_set patch k f q).
Proof. intros [H1 H2]. unfold if_set. by case_match. Qed.
Lemma kept_config patch p : kept p -> kept (updateConfig patch p).1.
Proof.
  intros Hp. assert (Hs : forall q, same_slots p q -> kept q) by (intros q [? ?]; by apply (kept_same p)).
  unfold updateConfig. cbn zeta. case_match; [done|]. case_match; cbn [fst].
  - apply Hs. by repeat apply same_if_set.
  - match goal with |- kept (startScheduler (save ?q)) =>
      assert (Hq : same_slots p q) by (by repeat apply same_if_set); apply (kept_same (save q)); [reflexivity..|]; apply kept_save; rewrite (proj1 Hq) end.
    apply Hp.
Qed.
Lemma seen_geo zone result now x : shaped x -> shaped (applyGeoResult zone result now x) /\ view_of (applyGeoResult zone result now x) = view_of x.
Proof.
  intros Hx. unfold applyGeoResult. destruct (seen_field "geo_checked_at" (iso_now now) x Hx eq_refl) as [Hy Ey]. cbn zeta. case_match.
  - match goal with |- context [with_field ?y "geo_error" ?v] => destruct (seen_field "geo_error" v y Hy eq_refl) as [? E] end. split; [done|]. by rewrite E.
  - match goal with |- context [set_all ?f ?y] => destruct (seen_set_all f y Hy eq_refl) as [? E] end. split; [done|]. by rewrite E.
Qed.
Lemma kept_located zone r result now p : kept p -> kept (located zone r result now p).
Proof.
  intros Hp. unfold located. destruct (deref r p) as [x|] eqn:Hf; [|done]. apply (kept_assign r x); [done|apply seen_geo|done].
Qed.
Lemma kept_geo zone id force lookup now p : kept p -> kept (detectGeo zone id force lookup now p).1.
Proof. intros Hp. unfold detectGeo. destruct (find_id id p) as [x|]; [|done]. case_match; [done|]. apply kept_save, (kept_located _ _ _ _ _ Hp). Qed.
#[local] Hint Resolve kept_bind kept_unbind kept_unbindVm kept_allocate kept_ensure kept_probed kept_runtime kept_local kept_enabled kept_remove kept_update
  kept_config kept_geo kept_located : kept.
Lemma kept_perform h o p : allowed o p -> kept p -> kept (perform h o p).
Proof.
  intros Ha Hp. destruct o; cbn [perform allowed] in *; auto with kept.
  - destruct Ha. by apply kept_import.
  - unfold begin_probes. by destruct (probing p).
  - apply (kept_same (save p)); [done..|]. apply kept_save, Hp.
  - apply kept_save, (kept_located _ _ _ _ _ Hp).
  - by destruct on0.
  - destruct Hp as [_ Hl]. by split.
Qed.

(** ** No more slots than the limit *)

Definition cap (L : Z) (l : list jsval) : Prop := Forall (fun e => Z.of_nat (length e.2) <= L)%Z (view l).
(** In memory and on disk, with the limit itself. *)
Definition capped (L : Z) (p : pool) : Prop := cap L (proxies p) /\ cap L (proxies (load p)).

Lemma cap_spec L l : cap L l <-> Forall (fun x => bound_count x <= L)%Z l.
Proof. unfold cap, view. by rewrite Forall_fmap. Qed.
Lemma capped_save L p : sound (proxies p) -> cap L (proxies p) -> capped L (save p).
Proof. intros Hp H. split; [done|]. unfold cap. rewrite (proj1 (view_loaded p Hp)). exact H. Qed.
Lemma capped_kept L p p' : cap L (proxies p') -> saved p' = saved p -> capped L p -> capped L p'.
Proof. intros H1 H2 [_ Hl]. split; [done|]. unfold cap in *. cbn [load proxies with_proxies with_config with_gone saved] in *. by rewrite H2. Qed.
Lemma capped_same L p p' : proxies p' = proxies p -> saved p' = saved p -> capped L p -> capped L p'.
Proof. intros H1 H2 Hp. apply (capped_kept L p); [|done|done]. rewrite H1. apply Hp. Qed.
Lemma capped_just_saved L p : sound (proxies p) -> cap L (proxies p) -> saved p = saved (save p) -> capped L p.
Proof.
  intros Hp H1 H2. destruct (capped_save L p Hp H1) as [_ Hl]. split; [done|]. unfold cap in *. cbn [load proxies with_proxies with_config with_gone saved] in *.
  by rewrite H2.
Qed.

(** A proxy whose slots are fewer or the same. *)
Lemma cap_change L f x y l : List.find f l = Some x -> (length (boundVmIdsOf y) <= length (boundVmIdsOf x))%nat -> cap L l -> cap L (change_first f (fun _ => y) l).
Proof.
  intros H Hn. destruct (find_split f l x H) as (_ & a & b & -> & _ & -> & _). rewrite !cap_spec, !Forall_app, !Forall_cons. unfold bound_count.
  intros (Ha & Hx & Hb). split_and!; [done|lia|done].
Qed.
Lemma cap_let_go L vm v : Forall (fun e => Z.of_nat (length e.2) <= L)%Z v -> Forall (fun e => Z.of_nat (length e.2) <= L)%Z (view_let_go vm v).
Proof.
  intros H. unfold view_let_go. apply Forall_fmap. eapply Forall_impl; [exact H|]. intros [i ids] Hi. cbn in *.
  pose proof (List.filter_length_le (fun id => negb (String.eqb id vm)) ids). unfold without_vm. lia.
Qed.

Lemma capped_bind L id vmId p : plain (trim (str_or_empty vmId)) = true \/ nonempty (trim (str_or_empty vmId)) = false -> kept p ->
  (bindLimit p <= L)%Z -> capped L p -> capped L (bind id vmId p).1.
Proof.
  intros Hv Hk HL Hp. pose proof (kept_bind id vmId p Hv Hk) as Hk'. destruct (find_id id p) as [x|] eqn:Hf; [|unfold bind; by rewrite Hf].
  destruct (negb (enabled x) || negb (not_dead x)) eqn:He; [unfold bind; by rewrite Hf, He|].
  destruct Hv as [Hv|Hv]; [|unfold bind; by rewrite Hf, He, Hv]. apply orb_false_iff in He as [He%negb_false_iff Hd%negb_false_iff].
  pose proof (bind_ways id vmId p x (proj1 Hk) Hf He Hd Hv) as H. destruct (bind id vmId p) as [p' r]. destruct H as [H Hs]. cbn [fst] in *.
  destruct (find_shaped id p x (proj1 Hk) Hf) as (_ & Hid & Hx).
  destruct H as [Hin _ Ev Es|Hin _ _ Ev Es|Hin Hl _ Ev Es].
  - apply capped_just_saved; [apply Hk'| |done]. unfold cap. rewrite Ev. apply Hp.
  - apply (capped_kept L p); [|done..]. unfold cap. rewrite Ev. apply cap_let_go, Hp.
  - apply capped_just_saved; [apply Hk'| |done]. unfold cap. rewrite Ev. unfold view_add. apply Forall_fmap, Forall_forall. intros [i ids] Hi. cbn.
    assert (Hc : (Z.of_nat (length ids) <= L)%Z).
    { pose proof (cap_let_go L (trim (str_or_empty vmId)) _ (proj1 Hp)) as H. rewrite Forall_forall in H. exact (H _ Hi). }
    destruct (String.eqb_spec i id) as [->|]; [|exact Hc]. cbn. rewrite length_app. cbn [length].
    unfold view_let_go in Hi. apply list_elem_of_fmap in Hi as ([i' ids'] & E & (y & Ey & Hy)%list_elem_of_fmap). unfold view_of in Ey. cbn in E. simplify_eq.
    rewrite (same_id (proxies p) y x (proj1 Hk)) in * by done.
    unfold bound_count in Hl. pose proof (List.filter_length_le (fun id => negb (String.eqb id (trim (str_or_empty vmId)))) (boundVmIdsOf x)).
    unfold without_vm. lia.
Qed.
Lemma bind_limit_kept id vmId p : bindLimit (bind id vmId p).1 = bindLimit p.
Proof. unfold bind. destruct (find_id id p); [|done]. repeat (case_match; try done). Qed.
Lemma capped_allocate L vm owner p : plain vm = true \/ nonempty vm = false -> kept p -> (bindLimit p <= L)%Z -> capped L p -> capped L (allocateForVm vm owner p).1.
Proof.
  intros Hv Hk HL Hp. unfold allocateForVm. destruct (nonempty vm) eqn:Hn; [|done]. cbn [negb]. destruct (List.find _ _); [done|]. destruct (sort _ _) as [|pick l]; [done|].
  pose proof (capped_bind L (to_string (pick?."id")) (JStr vm) p) as H. destruct (bind _ _ p) as [p' r]. apply H; [|done..]. rewrite str_or_empty_JStr.
  destruct Hv as [Hv|Hv]; [|congruence]. left. by rewrite (proj1 (plain_tidy vm Hv)).
Qed.
Lemma capped_ensure L vm preferred p : plain vm = true \/ nonempty vm = false -> kept p -> (bindLimit p <= L)%Z -> capped L p ->
  capped L (ensureBoundToVm vm preferred p).1.
Proof.
  intros Hv Hk HL Hp. unfold ensureBoundToVm. destruct (nonempty vm) eqn:Hn; [|done]. cbn [negb]. destruct (truthy (getProxyForVm vm p)); [done|].
  assert (Hv' : plain vm = true) by (destruct Hv; congruence).
  destruct preferred as [i|]; [|by apply capped_allocate; [left|..]].
  assert (Ht : plain (trim (str_or_empty (JStr vm))) = true) by (rewrite str_or_empty_JStr; by rewrite (proj1 (plain_tidy vm Hv'))).
  pose proof (capped_bind L i (JStr vm) p (or_introl Ht) Hk HL Hp) as H. pose proof (kept_bind i (JStr vm) p (or_introl Ht) Hk) as Hk'.
  pose proof (bind_limit_kept i (JStr vm) p) as Hb. destruct (bind i (JStr vm) p) as [p' r]. cbn [fst] in *.
  destruct (truthy (r?."ok")); [done|]. apply capped_allocate; [by left|done|lia|done].
Qed.
Lemma capped_unbind L id vmId p : kept p -> capped L p -> capped L (unbind id vmId p).1.
Proof.
  intros Hk Hp. pose proof (kept_unbind id vmId p Hk) as Hk'. unfold unbind in *. destruct (find_id id p) as [x|] eqn:Hf; [|done].
  set (t := trim _) in *. assert (H : forall ids, (length ids <= length (boundVmIdsOf x))%nat -> tidy ids ->
    cap L (proxies (save (change id (fun _ => setBoundVmIds x ids) p)))).
  { intros ids Hs Ht. apply (cap_change L _ x); [done|by rewrite names_set|apply Hp]. }
  destruct (nonempty t); cbn [fst] in *; (apply capped_just_saved; [apply Hk'|apply H|reflexivity]).
  - apply List.filter_length_le.
  - apply tidy_filter, names_tidy.
  - cbn. lia.
  - apply tidy_nil.
Qed.
Lemma capped_unbindVm L vmId p : kept p -> capped L p -> capped L (unbindVm vmId p).
Proof.
  intros Hk Hp. pose proof (kept_unbindVm vmId p Hk) as Hk'. unfold unbindVm in *. set (vm := trim _) in *. destruct (nonempty vm); [|done].
  apply capped_just_saved; [apply Hk'| |reflexivity]. destruct Hk as [[Hs _] _]. rewrite Forall_forall in Hs. rewrite cap_spec.
  apply Forall_forall. intros y (x & -> & Hx)%list_elem_of_fmap. destruct (seen_let_go vm x (Hs x Hx)) as [_ E]. unfold view_of in E. injection E as _ E.
  unfold bound_count. rewrite E. pose proof (proj1 (cap_spec L _) (proj1 Hp)) as H. rewrite Forall_forall in H. specialize (H x Hx). unfold bound_count in H.
  pose proof (List.filter_length_le (fun id => negb (String.eqb id vm)) (boundVmIdsOf x)). unfold without_vm. lia.
Qed.

(** A change that is not seen, of any object. *)
Lemma names_of_view x y : view_of y = view_of x -> boundVmIdsOf y = boundVmIdsOf x.
Proof. unfold view_of. by intros [= _ ->]. Qed.
Lemma cap_seen L id p x y : find_id id p = Some x -> view_of y = view_of x -> cap L (proxies p) -> cap L (proxies (change id (fun _ => y) p)).
Proof. intros Hf Hy. apply (cap_change L _ x); [done|]. by rewrite (names_of_view x y). Qed.
Lemma capped_assign L r x y p : kept p -> deref r p = Some x -> (shaped x -> shaped y /\ view_of y = view_of x) -> capped L p -> capped L (assign r y p).
Proof.
  intros Hk Hf Hy Hp. unfold deref in Hf. destruct (attached r p) eqn:E.
  - unfold assign. rewrite E. apply (capped_kept L p); [|done|done]. apply (cap_seen L _ p x); [done| |apply Hp]. apply Hy. by apply (shaped_all _ p x Hf (proj1 Hk)).
  - destruct (assign_same r y p E) as (H1 & H2 & _). by apply (capped_same L p).
Qed.
Lemma capped_probed L h cascades r result now p : kept p -> capped L p -> capped L (probed h cascades r result now p).
Proof.
  intros Hk Hp. unfold probed. destruct (deref r p) as [x|] eqn:Hf; [|done].
  pose proof (seen_probe h cascades (max_failures p) result now x) as H. destruct (applyProbeResult _ _ _ _ _ x) as [y l].
  apply (capped_same L (assign r y p)); [done..|]. by apply (capped_assign L r x).
Qed.
Lemma capped_located L zone r result now p : kept p -> capped L p -> capped L (located zone r result now p).
Proof. intros Hk Hp. unfold located. destruct (deref r p) as [x|] eqn:Hf; [|done]. apply (capped_assign L r x); [done|done|apply seen_geo|done]. Qed.
(** A pool that is saved as it is. *)
Lemma capped_saved L p : kept p -> capped L p -> capped L (save p).
Proof. intros Hk Hp. apply capped_save; [apply Hk|apply Hp]. Qed.

Lemma capped_import L records extra ids now p : (0 <= L)%Z -> kept (importParsed ids records extra now p).1 -> capped L p -> capped L (importParsed ids records extra now p).1.
Proof.
  intros HL Hk Hp. unfold importParsed in *. pose proof (import_added (extra?."ownerUserId" ||| extra?."owner_user_id") now ids records 0 (map key_of (proxies p))) as H.
  destruct (import_all _ _ _ _ _ _) as [added out]. cbn [fst] in *. destruct H as [_ Hv]. apply capped_just_saved; [apply Hk| |reflexivity].
  unfold cap. cbn [proxies with_proxies save with_disk]. rewrite view_app, Hv. apply Forall_app. split; [apply Hp|]. apply Forall_fmap, Forall_forall. intros n _. cbn. lia.
Qed.
Lemma capped_local L now p : (0 <= L)%Z -> kept p -> capped L p -> capped L (ensureLocal now p).1.
Proof.
  intros HL Hk Hp. pose proof (kept_local now p Hk) as Hk'. unfold ensureLocal in *. destruct (List.find isLocalEgressProxy (proxies p)) as [x|]; [done|].
  apply capped_just_saved; [apply Hk'| |reflexivity]. unfold cap. cbn [fst proxies with_proxies save with_disk]. unfold view. rewrite fmap_cons. constructor; [cbn; lia|apply Hp].
Qed.
Lemma capped_changed L id p x y f : kept p -> find_id id p = Some x -> unviewed f = true -> y = set_all f x -> capped L p -> capped L (save (change id (fun _ => y) p)).
Proof.
  intros Hk Hf Hu -> Hp. destruct (seen_set_all f x (shaped_all id p x Hf (proj1 Hk)) Hu) as [Hs Hv].
  apply capped_save; [by apply (sound_seen _ p x _ Hf (proj1 Hk))|]. apply (cap_seen L id p x); [done|done|apply Hp].
Qed.
Lemma capped_enabled L h id on p : kept p -> capped L p -> capped L (setEnabled h id on p).1.
Proof.
  intros Hk Hp. unfold setEnabled. destruct (find_id id p) as [x|] eqn:Hf; [|done].
  destruct (truthy on); cbn [fst]; (eapply capped_changed; [done|done| |reflexivity|done]; done).
Qed.
Lemma capped_remove L id p : kept p -> capped L p -> capped L (remove id p).1.
Proof.
  intros Hk Hp. pose proof (kept_remove id p Hk) as Hk'. unfold remove in *. destruct (find_id id p) as [x|] eqn:Hf; [|done]. apply capped_just_saved; [apply Hk'| |done].
  destruct (find_split _ _ _ Hf) as (_ & a & b & E & _ & _ & Er). cbn [fst proxies save with_disk with_proxies call_all with_gone]. rewrite Er. destruct Hp as [Hp _].
  rewrite E in Hp. revert Hp. rewrite !cap_spec, !Forall_app, Forall_cons. tauto.
Qed.
Lemma capped_update L id patch p : kept p -> capped L p -> capped L (update id patch p).1.
Proof.
  intros Hk Hp. unfold update. destruct (find_id id p) as [x|] eqn:Hf; [|done]. cbn zeta. destruct (negb (existsb _ _)); [done|]. destruct (_ && _); [done|].
  destruct (socks5Record _ _ _ _ _) as [k|]; [|done]. eapply capped_changed; [done|done| |reflexivity|done]. done.
Qed.
Lemma capped_config L patch p : kept p -> capped L p -> capped L (updateConfig patch p).1.
Proof.
  intros Hk Hp. unfold updateConfig. cbn zeta. case_match; [done|]. case_match; cbn [fst].
  - match goal with |- capped L ?q => assert (Hq : same_slots p q) by (by repeat apply same_if_set) end. by apply (capped_same L p); try apply Hq.
  - match goal with |- capped L (startScheduler (save ?q)) =>
      assert (Hq : same_slots p q) by (by repeat apply same_if_set); apply (capped_same L (save q)); [reflexivity..|] end.
    destruct Hq as [H1 H2]. apply capped_save; rewrite H1; [apply Hk|apply Hp].
Qed.
Lemma capped_runtime L h vm error now p : kept p -> capped L p -> capped L (reportRuntimeFailure h vm error now p).1.
Proof.
  intros Hk Hp. pose proof (kept_runtime h vm error now p Hk) as Hk'. unfold reportRuntimeFailure in *. destruct (negb _); [done|]. destruct (negb _); [done|].
  destruct (List.find _ (proxies p)) as [x|] eqn:Hf; [|done]. cbn zeta in *. assert (Hx : x ∈ proxies p) by (by apply list_elem_of_In, (List.find_some _ _ Hf)).
  pose proof (find_self p x (proj1 Hk) Hx) as Hi. set (result := JObj _) in *.
  pose proof (seen_probe h false (max_failures p) result now x (shaped_all _ p x Hi (proj1 Hk))) as Hs.
  destruct (applyProbeResult h false (max_failures p) result now x) as [y l]. cbn [fst] in *. apply capped_just_saved; [apply Hk'| |reflexivity].
  apply (cap_seen L _ p x); [done|apply Hs|apply Hp].
Qed.
Lemma capped_geo L zone id force lookup now p : kept p -> capped L p -> capped L (detectGeo zone id force lookup now p).1.
Proof.
  intros Hk Hp. unfold detectGeo. destruct (find_id id p) as [x|]; [|done]. case_match; [done|].
  apply capped_saved; [by apply kept_located|by apply capped_located].
Qed.
#[local] Hint Resolve capped_bind capped_unbind capped_unbindVm capped_allocate capped_ensure capped_probed capped_runtime capped_local capped_enabled capped_remove
  capped_update capped_config capped_geo capped_located : kept.
Lemma capped_perform L h o p : (0 <= L)%Z -> (bindLimit p <= L)%Z -> allowed o p -> kept p -> capped L p -> capped L (perform h o p).
Proof.
  intros H0 HL Ha Hk Hp. pose proof (kept_perform h o p Ha Hk) as Hk'. destruct o; cbn [perform allowed] in *; auto with kept.
  - by apply capped_import.
  - unfold begin_probes. by destruct (probing p).
  - apply (capped_same L (save p)); [done..|]. by apply capped_saved.
  - apply capped_saved; [by apply kept_located|by apply capped_located].
  - by destruct on0.
  - destruct Hp as [_ Hl]. by split.
Qed.

Lemma limit_min p : (BIND_LIMIT_MIN <= bindLimit p)%Z.
Proof. unfold bindLimit, clampBindLimit, MAX_VMS_PER_PROXY, BIND_LIMIT_MAX, BIND_LIMIT_MIN. case_match; lia. Qed.
Lemma cap_weaken L M l : (L <= M)%Z -> cap L l -> cap M l.
Proof. intros H Hl. eapply Forall_impl; [exact Hl|]. intros e He. cbn in *. lia. Qed.
Lemma ran_kept h d L p : sound (proxies (new_pool d)) -> ran h d L p -> kept p.
Proof. intros Hd H. induction H as [|L o p H IH Ha]; [by split|by apply kept_perform]. Qed.
Lemma ran_limit h d L p : ran h d L p -> (bindLimit p <= L)%Z.
Proof. destruct 1; lia. Qed.
Lemma ran_capped h d L p : sound (proxies (new_pool d)) -> cap (bindLimit (new_pool d)) (proxies (new_pool d)) -> ran h d L p -> capped L p.
Proof.
  intros Hd Hc H. induction H as [|L o p H IH Ha]; [by split|]. pose proof (ran_limit _ _ _ _ H) as HL. pose proof (limit_min p) as Hm. unfold BIND_LIMIT_MIN in Hm.
  destruct (capped_perform L h o p ltac:(lia) HL Ha (ran_kept h d L p Hd H) IH) as [H1 H2].
  split; (eapply cap_weaken; [|done]; lia).
Qed.

(** C18: Through every run of the pool a slot is on one proxy and no proxy holds more slots than the limit of the
    configuration ([bind_limit], [bindLimit] in the pool): no more than the greatest limit [L] that was in force since
    the start, provided that the disk that was started from kept to its own. The limit may be lowered while slots are
    bound, and then nobody is turned out, hence the greatest one. The same is true of what a restart would read:
    whatever is imported, bound, unbound, allocated, edited, disabled, removed, probed, located or reloaded, in any
    order and with the answers of probes arriving at any time. *)
Theorem one_proxy_per_slot h d L p : sound (proxies (new_pool d)) ->
  Forall (fun x => (bound_count x <= bindLimit (new_pool d))%Z) (proxies (new_pool d)) -> ran h d L p ->
  forall q, q ∈ [p; load p] ->
  (forall vm i j x y, proxies q !! i = Some x -> proxies q !! j = Some y -> vm ∈ boundVmIdsOf x -> vm ∈ boundVmIdsOf y -> i = j) /\
  Forall (fun x => (bound_count x <= L)%Z) (proxies q).
Proof.
  intros Hd Hc Hr q Hq. assert (Hs : sound (proxies q) /\ cap L (proxies q)).
  { destruct (ran_kept h d L p Hd Hr) as [H1 H2], (ran_capped h d L p Hd (proj2 (cap_spec _ _) Hc) Hr) as [H3 H4].
    apply elem_of_cons in Hq as [->|Hq]; [done|]. by apply list_elem_of_singleton in Hq as ->. }
  destruct Hs as [Hs Hl]. split; [|by apply cap_spec].
  intros vm i j x y Hi Hj Hx Hy. assert (E : proxy_id x = proxy_id y).
  { eapply on_unique; [apply Hs|apply on_has; [by eapply list_elem_of_lookup_2|exact Hx]|apply on_has; [by eapply list_elem_of_lookup_2|done]]. }
  destruct Hs as [_ (Hn & _)]. apply (NoDup_lookup _ i j (proxy_id x) Hn); unfold view; rewrite <- list_fmap_compose, list_lookup_fmap; [by rewrite Hi|]. by rewrite Hj, E.
Qed.

(** ** Which proxy is allocated *)

(** [x] is no worse than [y]: probed before unknown, then the one with fewer slots. *)
Definition no_worse (x y : jsval) : Prop := (score x < score y)%Z \/ (score x = score y /\ bound_count x <= bound_count y)%Z.
Lemma after_score x y : after by_score x y = false <-> no_worse x y.
Proof.
  unfold after, by_score, no_worse. change (Fin 0) with (num_of_Z 0). rewrite <- not_true_iff_false, num_ltb_Z.
  destruct (Z.eqb_spec (score x) (score y)); lia.
Qed.
Lemma least_first l x l' : sort by_score l = x :: l' -> x ∈ l /\ Forall (no_worse x) l.
Proof.
  intros E. assert (Hp := sort_perm by_score l). rewrite E in Hp. split; [rewrite <- Hp; by left|]. rewrite <- Hp.
  eapply Forall_impl; [|intros y H; by apply after_score; exact H]. apply (sort_head by_score) in E; [done|..].
  - intros a b H. apply after_score. apply not_false_iff_true in H. rewrite after_score in H. unfold no_worse in *. lia.
  - intros a b c Ha Hb. apply after_score. apply after_score in Ha, Hb. unfold no_worse in *. lia.
Qed.
Lemma candidate_spec owner p x : x ∈ candidates owner p <-> x ∈ proxies p /\ enabled x = true /\ not_dead x = true /\ is_str (x?."status") "fail" = false /\
  (bound_count x < bindLimit p)%Z /\ proxyOwnerId x = owner.
Proof.
  unfold candidates. rewrite list_elem_of_In, List.filter_In, <- list_elem_of_In, !andb_true_iff, negb_true_iff, Z.ltb_lt, bool_decide_eq_true. tauto.
Qed.

(** ** Probes *)

Lemma set_all_cons k v f x : set_all ((k, v) :: f) x = set_all f (with_field x k v).
Proof. done. Qed.
Lemma set_all_nil k v x : set_all [] (with_field x k v) = with_field x k v.
Proof. done. Qed.
(** The answers of probes, one after the other. *)
Definition answers (h : hooks) (limit : num) (now : Z) (rs : list jsval) (x : jsval) : jsval :=
  fold_left (fun x r => (applyProbeResult h true limit r now x).1) rs x.
Definition bad_answer (r : jsval) : Prop := truthy (r?."ok") = false /\ is_str (r?."scope") "egress" = false.
(** What [k] bad answers leave. *)
Lemma num_add_Z a b : num_add (num_of_Z a) (num_of_Z b) = num_of_Z (a + b).
Proof.
  unfold num_add, num_of_Z. f_equal. rewrite (Qred_complete _ (inject_Z (a + b))) by (by rewrite inject_Z_plus).
  apply Qred_Z.
Qed.
Definition failing (m : Z) (k : nat) (x : jsval) : Prop :=
  failures x = num_of_Z (Z.of_nat k) /\ enabled x = (Z.of_nat k <? m)%Z /\
  (k = O \/ is_str (x?."status") (if enabled x then "fail" else "dead") = true /\ truthy (x?."last_error") = true).
Lemma failing_step h m k r now x : (0 < m)%Z -> bad_answer r -> failing m k x ->
  failing m (S k) (applyProbeResult h true (num_of_Z m) r now x).1 /\ boundVmIdsOf (applyProbeResult h true (num_of_Z m) r now x).1 = boundVmIdsOf x.
Proof.
  intros Hm [Hr Hs] (Hq & He & _). unfold applyProbeResult. rewrite Hr, Hs. cbn zeta. rewrite !set_all_cons, !set_all_nil.
  set (y := with_field (with_field x "last_probe_at" _) _ _).
  assert (Hqy : num_add (failures y) (Fin 1) = num_of_Z (Z.of_nat (S k))).
  { unfold failures in *. subst y. rewrite !get_with_field_ne, Hq by done. rewrite Nat2Z.inj_succ. apply (num_add_Z (Z.of_nat k) 1). }
  rewrite Hqy. assert (Hc : num_leb (num_of_Z m) (num_of_Z (Z.of_nat (S k))) = (m <=? Z.of_nat (S k))%Z).
  { apply eq_iff_eq_true. by rewrite num_leb_Z, Z.leb_le. }
  rewrite Hc. assert (Hf : forall z, z?."consecutive_failures" = JNum (num_of_Z (Z.of_nat (S k))) -> failures z = num_of_Z (Z.of_nat (S k))).
  { intros z Hz. unfold failures. rewrite Hz. done. }
  assert (He' : forall v, truthy (v ||| JStr "probe_failed") = true) by (intros v; unfold or_else; by destruct (truthy v) eqn:E).
  assert (Hn : forall z, z?."bound_vm_ids" = x?."bound_vm_ids" -> z?."bound_vm_id" = x?."bound_vm_id" -> boundVmIdsOf z = boundVmIdsOf x) by (intros; by apply names_ext).
  destruct (Z.leb_spec m (Z.of_nat (S k))) as [Hl|Hl]; cbn [fst]; rewrite ?set_all_cons, ?set_all_nil; unfold failing; (split; [split; [|split]|]).
  - apply Hf. by rewrite !get_with_field_ne, get_with_field_eq by done.
  - unfold enabled. rewrite get_with_field_ne, get_with_field_eq by done. cbn [truthy]. symmetry. apply Z.ltb_ge. lia.
  - right. unfold enabled. rewrite get_with_field_eq. rewrite (get_with_field_ne _ "enabled"), get_with_field_eq by done. cbn [truthy]. split; [done|].
    rewrite !(get_with_field_ne _ "last_error"), get_with_field_eq by done. apply He'.
  - apply Hn; subst y; by rewrite !get_with_field_ne.
  - apply Hf. by rewrite !get_with_field_ne, get_with_field_eq by done.
  - unfold enabled in *. subst y. rewrite !get_with_field_ne by done. rewrite He. apply eq_iff_eq_true. rewrite !Z.ltb_lt. lia.
  - right. unfold enabled in *. subst y. rewrite !(get_with_field_ne _ "enabled") by done. rewrite He, (proj2 (Z.ltb_lt _ _)) by lia. rewrite get_with_field_eq. split; [done|].
    rewrite !(get_with_field_ne _ "last_error"), get_with_field_eq by done. apply He'.
  - apply Hn; subst y; by rewrite !get_with_field_ne.
Qed.
Lemma failing_answers h m now rs : forall k x, (0 < m)%Z -> Forall bad_answer rs -> failing m k x ->
  failing m (k + length rs) (answers h (num_of_Z m) now rs x) /\ boundVmIdsOf (answers h (num_of_Z m) now rs x) = boundVmIdsOf x.
Proof.
  induction rs as [|r rs IH]; intros k x Hm Hr Hx; [by rewrite Nat.add_0_r|]. apply Forall_cons in Hr as [Hr Hrs].
  destruct (failing_step h m k r now x Hm Hr Hx) as [Hx' Hn]. destruct (IH (S k) _ Hm Hrs Hx') as [H1 H2]. cbn [length].
  change (answers h (num_of_Z m) now (r :: rs) x) with (answers h (num_of_Z m) now rs (applyProbeResult h true (num_of_Z m) r now x).1).
  split; [by rewrite <- Nat.add_succ_comm|]. by rewrite H2.
Qed.
(** C36: A proxy is taken out by the configured number of failed probes in a row and comes back with one that
    succeeds.  From a proxy without failures: after fewer it is still enabled, from that number on it is disabled
    and dead; a good answer after any failure enables it, clears the count and enables every slot on it. *)
Theorem proxy_fails_and_recovers h m now rs good x : (0 < m)%Z -> enabled x = true -> failures x = Fin 0 ->
  Forall bad_answer rs -> rs <> [] -> truthy (good?."ok") = true -> is_str (good?."scope") "egress" = false -> h_enable h = true ->
  let y := answers h (num_of_Z m) now rs x in
  enabled y = (Z.of_nat (length rs) <? m)%Z /\ not_dead y = enabled y /\
  let '(z, l) := applyProbeResult h true (num_of_Z m) good now y in
  enabled z = true /\ not_dead z = true /\ failures z = Fin 0 /\ l = map (fun vm => EnableVm vm "proxy_recovered" (z?."id")) (boundVmIdsOf x).
Proof.
  intros Hm He Hf Hr Hne Hg Hs Hh y.
  assert (H0 : failing m 0 x) by (split; [done|split; [rewrite He; symmetry; by apply Z.ltb_lt|by left]]).
  destruct (failing_answers h m now rs 0 x Hm Hr H0) as [(_ & Hy & Hstatus) Hn]. fold y in Hy, Hstatus, Hn. cbn [plus] in *.
  destruct Hstatus as [Hz|[Hstatus Herr]]; [by destruct rs|]. split; [done|]. split.
  { unfold not_dead. unfold is_str in *. destruct (y?."status") as [| | | |s| |]; try done. apply String.eqb_eq in Hstatus as ->. by destruct (enabled y). }
  assert (Hres : forall a b, resumes (with_field (with_field y "last_probe_at" a) "latency_ms" b) = true).
  { intros a b. unfold resumes. rewrite !get_with_field_ne by done. unfold is_str in *. destruct (y?."status") as [| | | |s| |]; try done.
    apply String.eqb_eq in Hstatus as ->. rewrite Herr. destruct (enabled y); by rewrite ?orb_true_r. }
  unfold applyProbeResult. rewrite Hg, Hs. cbn zeta. rewrite !set_all_cons, !set_all_nil, Hres. cbn [andb].
  set (z := with_field (with_field (with_field _ "status" _) _ _) "last_error" JNull).
  assert (Hb : boundVmIdsOf z = boundVmIdsOf x) by (rewrite <- Hn; apply names_ext; subst z; by rewrite !get_with_field_ne).
  assert (Hd : not_dead z = true) by (unfold not_dead; subst z; by rewrite !get_with_field_ne, get_with_field_eq by done).
  assert (Hfz : failures z = Fin 0) by (unfold failures; subst z; by rewrite get_with_field_ne, get_with_field_eq).
  unfold cascadeEnableVm, cascade. rewrite Hh. destruct (enabled z) eqn:Ez; cbn [negb].
  - rewrite Hb. done.
  - unfold enabled, not_dead, failures in *. rewrite get_with_field_eq, !(get_with_field_ne _ _ "enabled") by done. rewrite <- Hb. repeat split; [done|done|].
    rewrite (names_ext _ z) by by rewrite get_with_field_ne. done.
Qed.

(** ** Pools that are run *)

(** Every form of a line. *)
Example lines_ex :
  let parse s := option_map (fun k => (k_host k, num_to_string (k_port k), k_username k, k_password k)) (parseSocks5Line (fun _ => None) (JStr s)) in
  map parse ["h.example:1080"; "1.2.3.4:1080:user:pa:ss"; "user:pa:ss:1.2.3.4:1080"; "user:pa@ss@h.example:1080"; " 'h.example:1080:user' "; "# note"; "h.example:99999";
             "12345:1080"] =
  [Some ("h.example", "1080", None, None); Some ("1.2.3.4", "1080", Some "user", Some "pa:ss"); Some ("1.2.3.4", "1080", Some "user", Some "pa:ss");
   Some ("h.example", "1080", Some "user", Some "pa@ss"); Some ("h.example", "1080", Some "user", Some ""); None; None; None].
Proof. vm_compute. reflexivity. Qed.

Definition all_hooks : hooks := {| h_disable := true; h_disconnect := true; h_enable := true |}.
Definition host_line (host : string) : parsed := or_bad (parseSocks5Line (fun _ => None) (JStr (host ++ ":1080")%string)) host.
Fixpoint unary (n : nat) : string := match n with O => "" | S n => String "i" (unary n) end.
(** Two proxies, one slot each on them, at most one slot on a proxy. *)
Definition sample_ops : list op :=
  [OImport [host_line "a.example"; host_line "b.example"] JUndef (fun n => ("px-" ++ unary n)%string) 1000; OConfig (JObj [("bind_limit", jint 1)]);
   OBind "px-" (JStr "vm-1"); OBind "px-i" (JStr "vm-2")].
Definition sample_pool : pool := fold_left (fun p o => perform all_hooks o p) sample_ops (new_pool empty_disk).
Lemma unary_inj n m : unary n = unary m -> n = m.
Proof. revert m. induction n as [|n IH]; intros [|m]; cbn; [done..|]. intros [= H]. f_equal. by apply IH. Qed.
Lemma sound_empty : sound (proxies (new_pool empty_disk)).
Proof. split; [constructor|]. repeat split; constructor. Qed.
Lemma ran_to h d L M p o : ran h d L p -> allowed o p -> Z.max L (bindLimit (perform h o p)) = M -> ran h d M (perform h o p).
Proof. intros H Ha <-. by constructor. Qed.
(** The limit was five at first, and one when the slots were bound. *)
Lemma sample_pool_reachable : ran all_hooks empty_disk 5 sample_pool.
Proof.
  unfold sample_pool, sample_ops. cbn [fold_left].
  apply (ran_to _ _ 5); [|by left|vm_compute; reflexivity]. apply (ran_to _ _ 5); [|by left|vm_compute; reflexivity].
  apply (ran_to _ _ 5); [|done|vm_compute; reflexivity]. apply (ran_to _ _ 5); [exact (ran_start all_hooks empty_disk)| |vm_compute; reflexivity].
  split; [|intros n; apply not_elem_of_nil]. intros n m [= H]. by apply unary_inj.
Qed.
Lemma sample_sound : sound (proxies sample_pool).
Proof. exact (proj1 (ran_kept all_hooks empty_disk 5 sample_pool sound_empty sample_pool_reachable)). Qed.
Lemma sample_view : view (proxies sample_pool) = [("px-", ["vm-1"]); ("px-i", ["vm-2"])].
Proof. vm_compute. reflexivity. Qed.

Lemma second_of {A} (x y : A) : y ∈ [x; y].
Proof. right. left. Qed.
Lemma one_proxy_per_slot_witness : view (proxies sample_pool) = [("px-", ["vm-1"]); ("px-i", ["vm-2"])] /\
  Forall (fun x => (bound_count x <= 5)%Z) (proxies (load sample_pool)).
Proof.
  destruct (one_proxy_per_slot all_hooks empty_disk 5 sample_pool sound_empty ltac:(constructor) sample_pool_reachable (load sample_pool)
    (second_of sample_pool (load sample_pool))) as [_ H].
  exact (conj sample_view H).
Defined.
Lemma pool_roundtrip_witness : view (proxies sample_pool) = [("px-", ["vm-1"]); ("px-i", ["vm-2"])] /\
  view (proxies (load (save sample_pool))) ≡ₚ view (proxies sample_pool).
Proof. exact (conj sample_view (proj1 (pool_roundtrip sample_pool sample_sound))). Defined.
Definition found (id : string) (p : pool) : bool := match find_id id p with Some x => enabled x && not_dead x | None => false end.
Lemma found_some id p : found id p = true -> exists x, find_id id p = Some x /\ enabled x = true /\ not_dead x = true.
Proof. unfold found. destruct (find_id id p) as [x|]; [|done]. intros [? ?]%andb_prop. by exists x. Qed.
(** The second proxy is full: the slot is refused there, and is no longer on the first. *)
Lemma bind_moves_slot_witness : exists x, find_id "px-i" sample_pool = Some x /\ truthy ((bind "px-i" (JStr "vm-1") sample_pool).2?."ok") = false /\
  forall id, ~ on (view (proxies (bind "px-i" (JStr "vm-1") sample_pool).1)) "vm-1" id.
Proof.
  destruct (found_some "px-i" sample_pool ltac:(vm_compute; reflexivity)) as (x & Hf & He & Hd).
  pose proof (bind_moves_slot "px-i" (JStr "vm-1") sample_pool x sample_sound Hf He Hd ltac:(vm_compute; reflexivity)) as H.
  assert (Hr : truthy ((bind "px-i" (JStr "vm-1") sample_pool).2?."ok") = false) by (vm_compute; reflexivity).
  destruct (bind "px-i" (JStr "vm-1") sample_pool) as [p' r]. cbn [fst snd] in *. exists x. split; [exact Hf|]. split; [exact Hr|].
  intros id Hon. apply (proj2 H) in Hon. cbn in Hon. destruct Hon as [_ Hon]. rewrite Hr in Hon. discriminate.
Defined.
(** A third slot finds room on neither; without a limit of one it goes to the first proxy. *)
Definition roomy_pool : pool := fold_left (fun p o => perform all_hooks o p) [OConfig (JObj [("bind_limit", jint 2)]); OUnbind "px-i" JNull] sample_pool.
Lemma roomy_reachable : ran all_hooks empty_disk 5 roomy_pool.
Proof.
  unfold roomy_pool. cbn [fold_left]. apply (ran_to _ _ 5); [|done|vm_compute; reflexivity]. apply (ran_to _ _ 5); [apply sample_pool_reachable|done|vm_compute; reflexivity].
Qed.
Lemma roomy_sound : sound (proxies roomy_pool).
Proof. exact (proj1 (ran_kept all_hooks empty_disk 5 roomy_pool sound_empty roomy_reachable)). Qed.
Definition probed_proxy : jsval := with_names (JObj [("id", JStr "px-1"); ("enabled", JBool true); ("status", JStr "ok"); ("consecutive_failures", jint 0)]) ["vm-1"].
Definition timed_out : jsval := JObj [("ok", JBool false); ("latency_ms", jint 8000); ("error", JStr "timeout"); ("scope", JStr "socks")].
Definition answered : jsval := JObj [("ok", JBool true); ("latency_ms", jint 40); ("error", JNull); ("scope", JStr "socks")].
Lemma proxy_fails_and_recovers_witness : enabled (answers all_hooks (num_of_Z 2) 5000 [timed_out] probed_proxy) = true /\
  enabled (answers all_hooks (num_of_Z 2) 5000 [timed_out; timed_out] probed_proxy) = false.
Proof.
  assert (Hb : bad_answer timed_out) by (split; reflexivity).
  assert (H : forall rs, Forall bad_answer rs -> rs <> [] -> enabled (answers all_hooks (num_of_Z 2) 5000 rs probed_proxy) = (Z.of_nat (length rs) <? 2)%Z).
  { intros rs H1 H2. exact (proj1 (proxy_fails_and_recovers all_hooks 2 5000 rs answered probed_proxy ltac:(lia) eq_refl eq_refl H1 H2 eq_refl eq_refl eq_refl)). }
  split; [exact (H [timed_out] ltac:(repeat constructor; exact Hb) ltac:(discriminate))|].
  exact (H [timed_out; timed_out] ltac:(repeat constructor; exact Hb) ltac:(discriminate)).
Defined.

(** A refused binding takes the slot off its proxy; a restart puts it back. *)
Example refused_bind_unbinds :
  let '(p, r) := bind "px-i" (JStr "vm-1") sample_pool in
  (r?."error", truthy (getProxyForVm "vm-1" sample_pool), truthy (getProxyForVm "vm-1" p), truthy (getProxyForVm "vm-1" (load p))) =
  (JStr "proxy_bind_limit", true, false, true).
Proof. vm_compute. reflexivity. Qed.
(** A proxy that the operator disabled after a failed probe is enabled by the next round of probes. *)
Example probe_undoes_operator :
  let g := {| g_check := None; g_repair := false |} in
  let p := (setEnabled all_hooks "px-" (JBool false) (probed all_hooks true (capture "px-" sample_pool) timed_out 2000 sample_pool)).1 in
  let after := (probeAll all_hooks true (fun _ => answered) g 3000 p).1 in
  (found "px-" sample_pool, found "px-" p, found "px-" after) = (true, false, true).
Proof. vm_compute. reflexivity. Qed.
(** The pool is reloaded while a round of probes is under way. Two bad answers arrive then for the object that the round
    asked about: the proxy of the pool stays enabled, and the slot on it is disabled all the same. *)
Example answer_after_reload :
  let r := capture "px-" sample_pool in
  let late p := probed all_hooks true r timed_out 2000 p in
  let p := late (late (load sample_pool)) in
  (found "px-" p, found "px-" (late (late sample_pool)), length (calls p), length (calls sample_pool)) = (true, false, 1%nat, 0%nat).
Proof. vm_compute. reflexivity. Qed.
(** One that was disabled while it worked stays disabled. *)
Example operator_kept_otherwise :
  let g := {| g_check := None; g_repair := false |} in
  let p := (setEnabled all_hooks "px-" (JBool false) sample_pool).1 in
  (found "px-" p, found "px-" (probeAll all_hooks true (fun _ => answered) g 3000 p).1) = (false, false).
Proof. vm_compute. reflexivity. Qed.
(** A refused change of the configuration is made in memory as far as its mistake, and is not saved. *)
Example config_half_made :
  let '(p, r) := updateConfig (JObj [("probe_interval_min", jint 60); ("bind_limit", jint 0)]) sample_pool in
  (truthy (r?."ok"), config p?."probe_interval_min", config (load p)?."probe_interval_min") = (false, jint 60, jint 10).
Proof. vm_compute. reflexivity. Qed.
