(* ===== verification/EndpointStore.v ===== *)
(** * The endpoints an operator keeps (src/src/lib/admin/api-endpoints.mjs, src/src/lib/db/repos/api-endpoints-repo.mjs, their
    routes in src/src/lib/admin/panel-routes.mjs)

    Endpoints of other providers with their keys and models are rows of three tables; the pool of ApiPool is
    given the endpoints put together again after every change.  Ids are drawn ([ids]); the kernel that
    fetches a list of models is the argument of ApiCall.  A thrown error leaves what was written before it. *)

From stdpp Require Import gmap strings.
From S2P Require Import Prelude.
From S2P Require Import JsValue.
From S2P Require Import JsRegex.
From S2P Require Import JsText.
From S2P Require Import JsDate.
From S2P Require Import Ranking.
From S2P Require Import JsJson.
From S2P Require Import JsonParse.
From S2P Require Import CredentialFile.
From S2P Require Import WorkerStream.
From S2P Require Import ApiPool.
From S2P Require Import ApiCall.
#[local] Open Scope string_scope.
#[local] Open Scope list_scope.
#[local] Open Scope js_scope.

(** ** The tables (api-endpoints-repo.mjs) *)

Record tables := { t_eps : list jsval; t_keys : list jsval; t_models : list jsval }.
Definition with_eps (l : list jsval) (t : tables) : tables := {| t_eps := l; t_keys := t_keys t; t_models := t_models t |}.
Definition with_key_rows (l : list jsval) (t : tables) : tables := {| t_eps := t_eps t; t_keys := l; t_models := t_models t |}.
Definition with_model_rows (l : list jsval) (t : tables) : tables := {| t_eps := t_eps t; t_keys := t_keys t; t_models := l |}.

Definition bool01 (v : jsval) : jsval := jint (if truthy v then 1 else 0).
Definition parsed_or (default v : jsval) : jsval := match v with JStr s => if nonempty s then match json_parse s with Some v => v | None => default end else default | _ => default end.
Definition rowEp (row : jsval) : jsval :=
  JObj [("id", row?."id"); ("name", row?."name"); ("disabled", JBool (truthy (row?."disabled"))); ("prefix", row?."prefix" ||| JStr "");
        ("base_url", row?."base_url"); ("headers", parsed_or (JObj []) (row?."headers_json")); ("disable_cooling", JBool (truthy (row?."disable_cooling")));
        ("priority", JNum (num_or_zero (row?."priority"))); ("kind", row?."kind" ||| JStr "custom"); ("protocol", row?."protocol" ||| JStr "anthropic");
        ("created_at", row?."created_at"); ("updated_at", row?."updated_at")].
Definition rowKey (row : jsval) : jsval :=
  JObj [("id", row?."id"); ("endpoint_id", row?."endpoint_id"); ("api_key", row?."api_key"); ("proxy_url", row?."proxy_url" ||| JStr "");
        ("disabled", JBool (truthy (row?."disabled"))); ("cooldown_until", row?."cooldown_until" ||| JNull); ("created_at", row?."created_at")].
Definition rowModel (row : jsval) : jsval :=
  let levels := parsed_or JNull (row?."thinking_levels_json") in
  JObj [("id", row?."id"); ("endpoint_id", row?."endpoint_id"); ("sort", JNum (num_or_zero (row?."sort"))); ("name", row?."upstream_name");
        ("alias", row?."alias"); ("image", JBool (truthy (row?."image"))); ("thinking", if truthy levels then JObj [("levels", levels)] else JUndef)].

(** [ORDER BY]: one key after the other. *)
Definition compare_text (k : string) (a b : jsval) : comparison := str_compare (str_or_empty (a?.k)) (str_or_empty (b?.k)).
Definition compare_num (k : string) (a b : jsval) : comparison :=
  if num_ltb (num_or_zero (a?.k)) (num_or_zero (b?.k)) then Lt else if num_ltb (num_or_zero (b?.k)) (num_or_zero (a?.k)) then Gt else Eq.
Definition lexical (cs : list comparison) : num :=
  match List.find (fun c => negb (match c with Eq => true | _ => false end)) cs with Some Lt => num_of_Z (-1) | Some Gt => Fin 1 | _ => Fin 0 end.
Definition ep_order (a b : jsval) : num := lexical [compare_num "priority" b a; compare_text "created_at" a b; compare_text "id" a b].
Definition key_order (a b : jsval) : num := lexical [compare_text "created_at" a b; compare_text "id" a b].
Definition model_order (a b : jsval) : num := lexical [compare_num "sort" a b; compare_text "id" a b].

Definition has (k : string) (v : jsval) (row : jsval) : bool := same_value (row?.k) v.
Definition keys_of (id : jsval) (t : tables) : list jsval := map rowKey (sort key_order (List.filter (has "endpoint_id" id) (t_keys t))).
Definition models_of (id : jsval) (t : tables) : list jsval := map rowModel (sort model_order (List.filter (has "endpoint_id" id) (t_models t))).
Definition hydrate (t : tables) (ep : jsval) : jsval :=
  with_own (with_own ep "api_key_entries" (JArr (keys_of (ep?."id") t))) "models" (JArr (models_of (ep?."id") t)).
Definition listHydrated (t : tables) : list jsval := map (fun row => hydrate t (rowEp row)) (sort ep_order (t_eps t)).
Definition getHydrated (id : jsval) (t : tables) : jsval :=
  match List.find (has "id" id) (t_eps t) with Some row => hydrate t (rowEp row) | None => JNull end.

(** A value that is bound: undefined is null. *)
Definition cell (v : jsval) : jsval := v ?? JNull.
Definition ep_row (rec : jsval) : jsval :=
  JObj [("id", cell (rec?."id")); ("name", cell (rec?."name")); ("disabled", bool01 (rec?."disabled")); ("prefix", rec?."prefix" ||| JStr "");
        ("base_url", cell (rec?."base_url")); ("headers_json", JStr (default "" (stringify (rec?."headers" ||| JObj []))));
        ("disable_cooling", bool01 (rec?."disable_cooling")); ("priority", JNum (num_or_zero (rec?."priority")));
        ("kind", rec?."kind" ||| JStr "custom"); ("protocol", rec?."protocol" ||| JStr "anthropic"); ("created_at", cell (rec?."created_at"));
        ("updated_at", cell (rec?."updated_at"))].
Definition insertEndpoint (rec : jsval) (t : tables) : tables := with_eps (t_eps t ++ [ep_row rec]) t.
Definition updateEndpoint (rec : jsval) (t : tables) : tables :=
  with_eps (map (fun row => if has "id" (rec?."id") row then with_field (ep_row rec) "id" (row?."id") else row) (t_eps t)) t.
Definition without_rows (k : string) (v : jsval) (l : list jsval) : list jsval := List.filter (fun row => negb (has k v row)) l.
Definition removeEndpoint (id : jsval) (t : tables) : tables * bool :=
  ({| t_eps := without_rows "id" id (t_eps t); t_keys := without_rows "endpoint_id" id (t_keys t); t_models := without_rows "endpoint_id" id (t_models t) |},
   existsb (has "id" id) (t_eps t)).
Definition key_row (rec : jsval) : jsval :=
  JObj [("id", rec?."id"); ("endpoint_id", rec?."endpoint_id"); ("api_key", rec?."api_key"); ("proxy_url", rec?."proxy_url" ||| JStr "");
        ("disabled", bool01 (rec?."disabled")); ("cooldown_until", rec?."cooldown_until" ||| JNull); ("created_at", rec?."created_at")].
Definition insertKey (rec : jsval) (t : tables) : tables * jsval :=
  (with_key_rows (t_keys t ++ [key_row rec]) t, rowKey (key_row rec)).
Definition removeKey (id : jsval) (t : tables) : tables * bool :=
  (with_key_rows (without_rows "id" id (t_keys t)) t, existsb (has "id" id) (t_keys t)).
Definition changed_key (patch rec : jsval) : jsval :=
  let next := trim (to_string (patch?."api_key")) in
  let rec := if negb (is_nullish (patch?."api_key")) && (4 <=? String.length next)%nat then with_field rec "api_key" (JStr next) else rec in
  let rec := if is_nullish (patch?."proxy_url") then rec else with_field rec "proxy_url" (JStr (trim (to_string (patch?."proxy_url")))) in
  let rec := if is_nullish (patch?."disabled") then rec else with_field rec "disabled" (JBool (truthy (patch?."disabled"))) in
  match patch?."cooldown_until" with JUndef => rec | v => with_field rec "cooldown_until" (v ||| JNull) end.
Definition write_key (rec row : jsval) : jsval :=
  fold_left (fun row e => with_field row e.1 e.2)
    [("api_key", rec?."api_key"); ("proxy_url", rec?."proxy_url" ||| JStr ""); ("disabled", bool01 (rec?."disabled")); ("cooldown_until", cell (rec?."cooldown_until"))] row.
Definition updateKey (id patch : jsval) (t : tables) : tables * jsval :=
  match List.find (has "id" id) (t_keys t) with
  | None => (t, JNull)
  | Some row =>
    let rec := changed_key patch (rowKey row) in
    (with_key_rows (map (fun row => if has "id" id row then write_key rec row else row) (t_keys t)) t, rowKey (write_key rec row))
  end.
Definition cool_row (id until row : jsval) : jsval := if has "id" id row then with_field row "cooldown_until" until else row.
Definition setKeyCooldown (id until : jsval) (t : tables) : tables := with_key_rows (map (cool_row id until) (t_keys t)) t.
Definition model_row (endpointId : jsval) (i : nat) (m : jsval) : jsval :=
  let levels := match m?."thinking"?."levels", m?."thinking_levels" with JArr l, _ => JArr l | _, JArr l => JArr l | _, _ => JNull end in
  JObj [("id", m?."id"); ("endpoint_id", endpointId); ("sort", JNum (to_number (m?."sort" ?? jint (Z.of_nat i)))); ("upstream_name", m?."name" ||| m?."upstream_name");
        ("alias", m?."alias" ||| m?."name"); ("image", bool01 (m?."image"));
        ("thinking_levels_json", match levels with JNull => JNull | l => JStr (default "" (stringify l)) end)].
(** The rows are written one by one; none: an id is taken, and the transaction is undone. *)
Fixpoint insert_models (endpointId : jsval) (i : nat) (l rows : list jsval) : option (list jsval) :=
  match l with
  | [] => Some rows
  | m :: l => if existsb (has "id" (m?."id")) rows then None else insert_models endpointId (S i) l (rows ++ [model_row endpointId i m])
  end.
Definition replaceModelRows (endpointId : jsval) (models : list jsval) (t : tables) : option tables :=
  option_map (fun rows => with_model_rows rows t) (insert_models endpointId 0 models (without_rows "endpoint_id" endpointId (t_models t))).

(** ** The store (api-endpoints.mjs) *)

Definition maskUpstreamKey (key : jsval) : string :=
  let s := str_or_empty key in
  if (String.length s <=? 8)%nat then (take_chars 2 s ++ "…")%string
  else (take_chars 4 s ++ "…" ++ drop_chars (String.length s - 4) s)%string.
Definition endpointAuthScheme (ep fallbackProtocol : jsval) : jsval :=
  match p_protocol (resolvePreset (ep?."kind") ep) with
  | Openai => JStr "authorization_bearer"
  | Anthropic =>
    JStr (Scheme.scheme_name (Scheme.resolveAuthScheme Mode.ApiKey
      (ep?."auth_scheme" ||| ep?."headers"?."auth_scheme" ||| ep?."headers"?."anthropic_apikey_auth_scheme") JUndef JUndef))
  end.
Definition stripAuthSchemeHeader (headers : jsval) : jsval := without_all SCHEME_FIELDS (headers ||| JObj []).
Definition headersWithAuthScheme (headers scheme : jsval) : jsval :=
  let next := stripAuthSchemeHeader headers in if truthy scheme then with_field next "auth_scheme" scheme else next.
Definition last_four (s : string) : string := drop_chars (String.length s - 4) s.
Definition public_key (reveal : bool) (k : jsval) : jsval :=
  JObj [("id", k?."id"); ("proxy_url", k?."proxy_url" ||| JStr ""); ("disabled", JBool (truthy (k?."disabled"))); ("cooldown_until", k?."cooldown_until" ||| JNull);
        ("api_key", if reveal then k?."api_key" else JStr (maskUpstreamKey (k?."api_key"))); ("key_suffix", JStr (last_four (str_or_empty (k?."api_key"))))].
Definition public_model (m : jsval) : jsval :=
  JObj [("id", m?."id"); ("name", m?."name"); ("alias", m?."alias"); ("image", JBool (truthy (m?."image"))); ("thinking", m?."thinking")].
Definition publicEndpointView (ep : jsval) (reveal : bool) : jsval :=
  if negb (truthy ep) then JNull
  else
    let preset := resolvePreset (ep?."kind") ep in
    JObj [("id", ep?."id"); ("name", ep?."name"); ("disabled", JBool (truthy (ep?."disabled"))); ("prefix", ep?."prefix" ||| JStr "");
          ("kind", JStr (kind_name (p_kind preset))); ("protocol", JStr (wire_name (p_protocol preset)));
          ("base_url", JStr (p_base_url preset) ||| ep?."base_url"); ("headers", stripAuthSchemeHeader (ep?."headers"));
          ("auth_scheme", endpointAuthScheme ep (JStr "")); ("disable_cooling", JBool (truthy (ep?."disable_cooling")));
          ("priority", JNum (num_or_zero (ep?."priority"))); ("created_at", ep?."created_at"); ("updated_at", ep?."updated_at");
          ("api_key_entries", JArr (map (public_key reveal) (arr_of (ep?."api_key_entries")))); ("models", JArr (map public_model (arr_of (ep?."models"))))].
Definition list_view (reveal : bool) (t : tables) : list jsval := map (fun ep => publicEndpointView ep reveal) (listHydrated t).

Record problem := { e_code : jsval; e_text : string }.
Definition INVALID_BASE_URL : problem := {| e_code := JStr "invalid_base_url"; e_text := "base_url must be http(s)" |}.
Definition ENDPOINT_NOT_FOUND : problem := {| e_code := JStr "endpoint_not_found"; e_text := "endpoint not found" |}.
Definition KEY_TOO_SHORT : problem := {| e_code := JStr "key_too_short"; e_text := "api_key too short" |}.
Definition TAKEN : problem := {| e_code := JStr "SQLITE_CONSTRAINT_PRIMARYKEY"; e_text := "UNIQUE constraint failed: api_endpoint_models.id" |}.
Definition NOT_AN_OBJECT : problem := {| e_code := JUndef; e_text := "Cannot read properties of null" |}.
Definition is_http (url : string) : bool := let s := to_lower url in starts_with "http://" s || starts_with "https://" s.
(** What an operation leaves, and what it throws or returns. *)
Definition result : Type := tables * (problem + jsval).

Section Store.
Context (ids : string -> nat -> string) (now : Z).

Definition store_model (i : nat) (m : jsval) : jsval :=
  JObj [("id", m?."id" ||| JStr (ids "em_" i)); ("sort", jint (Z.of_nat i)); ("name", JStr (trim (str_or_empty (m?."name" ||| m?."upstream_name"))));
        ("alias", JStr (trim (str_or_empty (m?."alias" ||| m?."name")))); ("image", JBool (truthy (m?."image"))); ("thinking", m?."thinking")].
Definition replaceModels (endpointId : jsval) (models : list jsval) (t : tables) : result :=
  if existsb is_nullish models then (t, inl NOT_AN_OBJECT)
  else
    let rows := List.filter (fun m => truthy (m?."name") && truthy (m?."alias")) (imap store_model models) in
    match replaceModelRows endpointId rows t with
    | None => (t, inl TAKEN)
    | Some t => (t, inr (getHydrated endpointId t))
    end.
(** The [n]-th key that is added. *)
Definition addKey (n : nat) (endpointId input : jsval) (t : tables) : result :=
  if negb (truthy (getHydrated endpointId t)) then (t, inl ENDPOINT_NOT_FOUND)
  else match input with
       | JNull => (t, inl NOT_AN_OBJECT)
       | _ =>
         let api_key := trim (str_or_empty (input?."api_key")) in
         if (String.length api_key <? 4)%nat then (t, inl KEY_TOO_SHORT)
         else
           let '(t, key) := insertKey (JObj [("id", JStr (ids "ek_" n)); ("endpoint_id", endpointId); ("api_key", JStr api_key);
                                             ("proxy_url", JStr (trim (str_or_empty (input?."proxy_url")))); ("disabled", JBool (truthy (input?."disabled")));
                                             ("cooldown_until", JNull); ("created_at", iso_now now)]) t in
           (t, inr key)
       end.
Fixpoint add_keys (n : nat) (endpointId : jsval) (l : list jsval) (t : tables) : tables * option problem :=
  match l with
  | [] => (t, None)
  | k :: l => match addKey n endpointId k t with (t, inl e) => (t, Some e) | (t, inr _) => add_keys (S n) endpointId l t end
  end.
Definition new_endpoint (input : jsval) : jsval :=
  let preset := resolvePreset (input?."kind") input in
  let name := take_chars 80 (trim (p_name preset)) in
  JObj [("id", JStr (ids "ep_" 0)); ("name", JStr (if nonempty name then name else "api")); ("disabled", JBool (truthy (input?."disabled")));
        ("prefix", JStr (trim (str_or_empty (input?."prefix")))); ("base_url", JStr (p_base_url preset)); ("kind", JStr (kind_name (p_kind preset)));
        ("protocol", JStr (wire_name (p_protocol preset)));
        ("headers", headersWithAuthScheme (if truthy (input?."headers") && is_object (input?."headers") then input?."headers" else JObj [])
                      (input?."auth_scheme" ||| input?."authScheme"));
        ("disable_cooling", JBool (truthy (input?."disable_cooling"))); ("priority", JNum (num_or_zero (input?."priority")));
        ("created_at", iso_now now); ("updated_at", iso_now now)].
Definition create (input : jsval) (t : tables) : result :=
  if negb (is_http (p_base_url (resolvePreset (input?."kind") input))) then (t, inl INVALID_BASE_URL)
  else
    let rec := new_endpoint input in
    let id := rec?."id" in
    let t := insertEndpoint rec t in
    let '(t, thrown) := match arr_of (input?."models") with [] => (t, None) | models => match replaceModels id models t with (t, inl e) => (t, Some e) | (t, inr _) => (t, None) end end in
    let '(t, thrown) := match thrown with Some e => (t, Some e) | None => add_keys 0 id (arr_of (input?."api_key_entries")) t end in
    (t, match thrown with Some e => inl e | None => inr (getHydrated id t) end).
Definition set_if (patch : jsval) (k : string) (f : jsval -> jsval) (rec : jsval) : jsval := if is_nullish (patch?.k) then rec else with_field rec k (f (patch?.k)).
Definition renamed (rec v : jsval) : jsval := let name := take_chars 80 (trim (to_string v)) in if nonempty name then JStr name else rec?."name".
Definition patched (patch rec : jsval) : problem + jsval :=
  let rec := set_if patch "name" (renamed rec) rec in
  let rec := set_if patch "disabled" (fun v => JBool (truthy v)) rec in
  let rec := set_if patch "prefix" (fun v => JStr (trim (to_string v))) rec in
  let moved := negb (is_nullish (patch?."kind") && is_nullish (patch?."protocol") && is_nullish (patch?."base_url")) in
  let preset := resolvePreset (patch?."kind" ?? rec?."kind")
                  (with_own (spread rec (own patch)) "base_url" (if is_nullish (patch?."base_url") then rec?."base_url" else patch?."base_url")) in
  if moved && negb (is_http (p_base_url preset)) then inl INVALID_BASE_URL
  else
    let rec := if moved then with_field (with_field (with_field rec "kind" (JStr (kind_name (p_kind preset)))) "protocol" (JStr (wire_name (p_protocol preset))))
                               "base_url" (JStr (p_base_url preset)) else rec in
    let rec := if is_nullish (patch?."headers") || negb (is_object (patch?."headers")) then rec else with_field rec "headers" (patch?."headers") in
    let rec := if is_nullish (patch?."auth_scheme") && is_nullish (patch?."authScheme") then rec
               else with_field rec "headers" (headersWithAuthScheme (rec?."headers") (patch?."auth_scheme" ||| patch?."authScheme")) in
    let rec := set_if patch "disable_cooling" (fun v => JBool (truthy v)) rec in
    let rec := set_if patch "priority" (fun v => JNum (num_or_zero v)) rec in
    inr (with_field rec "updated_at" (iso_now now)).
Definition update (id patch : jsval) (t : tables) : result :=
  let rec := getHydrated id t in
  if negb (truthy rec) then (t, inr JNull)
  else match patched patch rec with
       | inl e => (t, inl e)
       | inr rec =>
         let t := updateEndpoint rec t in
         match patch?."models" with
         | JArr models => match replaceModels id models t with (t, inl e) => (t, inl e) | (t, inr _) => (t, inr (getHydrated id t)) end
         | _ => (t, inr (getHydrated id t))
         end
       end.
Definition mergeFetchedModels (endpointId : jsval) (fetched : list jsval) (t : tables) : result :=
  let ep := getHydrated endpointId t in
  if negb (truthy ep) then (t, inr JNull) else replaceModels endpointId (mergeModelLists (arr_of (ep?."models")) fetched) t.

(** ** Models of a provider *)

Definition KEY_REQUIRED : problem := {| e_code := JStr "key_required"; e_text := "需要上游 key 才能获取模型" |}.
Record fetch_problem := { f_problem : problem; f_status : Z }.
Definition models_call (preset : preset) (key : string) (proxy_url headers auth_scheme afterId : jsval) : call :=
  let scheme := auth_scheme ||| headers?."auth_scheme" ||| headers?."anthropic_apikey_auth_scheme" in
  {| f_url := modelsUrl (JStr (p_base_url preset)) afterId;
     f_headers := JObj (fold_left (fun f e => set_field e.1 e.2 f)
                    (entries (upstreamAuthHeaders (p_protocol preset) (JStr key) (with_own headers "auth_scheme" scheme))) [("accept", JStr "application/json")]);
     f_body := JStr ""; f_proxy := proxy_url |}.
Fixpoint fetch_pages (pages : nat) (forward : call -> reply) (ask : jsval -> call) (protocol : wire) (afterId : jsval) (models : list jsval) : fetch_problem + list jsval :=
  match pages with
  | O => inr models
  | S pages =>
    match forward (ask afterId) with
    | inl t => inl {| f_problem := {| e_code := t_code t; e_text := t_message t |}; f_status := 0 |}
    | inr u =>
      let status := if (statusCode u =? 0)%Z then 502%Z else statusCode u in
      match readApiJson u with
      | None => inl {| f_problem := {| e_code := JUndef; e_text := "api kernel body too large" |}; f_status := 0 |}
      | Some payload =>
        if (400 <=? status)%Z then
          let message := payload?."error"?."message" ||| payload?."message" ||| JStr ("upstream " ++ Z_to_string status)%string in
          inl {| f_problem := {| e_code := JStr "fetch_models_failed"; e_text := take_chars 300 (to_string message) |}; f_status := status |}
        else
          let models := models ++ parseUpstreamModels payload protocol in
          if truthy (payload?."has_more") && truthy (payload?."last_id") then fetch_pages pages forward ask protocol (payload?."last_id") models
          else inr models
      end
    end
  end.
Definition fetchUpstreamModels (forward : call -> reply) (kind protocol base_url api_key proxy_url headers auth_scheme : jsval) : fetch_problem + (preset * list jsval) :=
  let preset := resolvePreset kind (JObj [("protocol", protocol); ("base_url", base_url)]) in
  let key := trim (str_or_empty api_key) in
  if (String.length key <? 4)%nat then inl {| f_problem := KEY_REQUIRED; f_status := 0 |}
  else if negb (is_http (p_base_url preset)) then inl {| f_problem := INVALID_BASE_URL; f_status := 0 |}
  else if match headers with JNull => negb (truthy auth_scheme) | _ => false end then inl {| f_problem := NOT_AN_OBJECT; f_status := 0 |}
  else match fetch_pages 8 forward (models_call preset key proxy_url headers auth_scheme) (p_protocol preset) (JStr "") [] with
       | inl e => inl e
       | inr models => inr (preset, models)
       end.

(** ** The routes of the panel (panel-routes.mjs) *)

Record admin := { a_tables : tables; a_pool : scheduler }.
Inductive route :=
| GetEndpoints
| PostFetchModels (body : jsval)
| PostEndpoint (body : jsval)
| PatchEndpoint (id body : jsval)
| DeleteEndpoint (id : jsval)
| PostFetchFor (id body : jsval)
| PostKey (id body : jsval)
| DeleteKey (kid : jsval)
| PatchKey (kid body : jsval).
Definition answer : Type := Z * jsval.
Definition good (f : fields) : jsval := JObj (("ok", JBool true) :: f).
Definition refused (status : Z) (f : fields) : answer := (status, JObj [("ok", JBool false); ("error", JObj f)]).
Definition not_found (what : string) : answer := refused 404 [("message", JStr (what ++ " not found")%string)].
Definition thrown_answer (status : Z) (e : problem) (code : jsval) : answer := refused status [("message", JStr (e_text e)); ("code", code)].
Definition fetch_refused (e : fetch_problem) : answer :=
  thrown_answer (if (0 <? f_status e)%Z && (f_status e <? 600)%Z then f_status e else 400) (f_problem e)
    (e_code (f_problem e) ||| JStr "fetch_models_failed").
(** The pool is given the endpoints again. *)
Definition reloaded (t : tables) (a : admin) : admin := {| a_tables := t; a_pool := reload (JArr (listHydrated t)) (a_pool a) |}.
Definition left_behind (t : tables) (a : admin) : admin := {| a_tables := t; a_pool := a_pool a |}.
Definition key_item (kid view : jsval) : jsval :=
  match List.find (has "id" kid) (arr_of (view?."api_key_entries")) with Some k => k | None => JUndef end.
Definition usable_key (body k : jsval) : bool := negb (truthy (k?."disabled")) && (negb (truthy (body?."key_id")) || same_value (k?."id") (body?."key_id")).

Definition serve_route (forward : call -> reply) (r : route) (a : admin) : admin * answer :=
  let t := a_tables a in
  match r with
  | GetEndpoints =>
    (a, (200%Z, good [("items", JArr (list_view false t));
                      ("presets", JArr (map (fun k => JObj [("kind", JStr (kind_name k)); ("label", JStr (API_ENDPOINT_PRESETS k).1); ("base_url", JStr (API_ENDPOINT_PRESETS k).2);
                                                     ("protocol", JStr (wire_name (match k with KOpenai => Openai | _ => Anthropic end)))])
                                         [KClaude; KOpenai; KCustom]))]))
  | PostFetchModels body =>
    (a, match fetchUpstreamModels forward (body?."kind") (body?."protocol") (body?."base_url") (body?."api_key") (body?."proxy_url") (body?."headers")
                (body?."auth_scheme" ||| body?."authScheme") with
        | inl e => fetch_refused e
        | inr (preset, models) =>
          (200%Z, good [("kind", JStr (kind_name (p_kind preset))); ("protocol", JStr (wire_name (p_protocol preset)));
                        ("base_url", JStr (p_base_url preset)); ("models", JArr models)])
        end)
  | PostEndpoint body =>
    match create (body ||| JObj []) t with
    | (t, inl e) => (left_behind t a, thrown_answer 400 e (e_code e ||| JStr "create_failed"))
    | (t, inr rec) => (reloaded t a, (201%Z, good [("item", publicEndpointView rec true)]))
    end
  | PatchEndpoint id body =>
    match update id (body ||| JObj []) t with
    | (t, inl e) => (left_behind t a, thrown_answer 400 e (e_code e))
    | (t, inr rec) => if truthy rec then (reloaded t a, (200%Z, good [("item", publicEndpointView rec false)])) else (left_behind t a, not_found "endpoint")
    end
  | DeleteEndpoint id =>
    match removeEndpoint id t with
    | (t, true) => (reloaded t a, (200%Z, good [("deleted", id)]))
    | (t, false) => (left_behind t a, not_found "endpoint")
    end
  | PostFetchFor id body =>
    let ep := getHydrated id t in
    if negb (truthy ep) then (a, not_found "endpoint")
    else match List.find (usable_key body) (arr_of (ep?."api_key_entries")) with
         | None => (a, thrown_answer 400 KEY_REQUIRED (JStr "key_required"))
         | Some key =>
           match fetchUpstreamModels forward (ep?."kind") (ep?."protocol") (ep?."base_url") (key?."api_key") (key?."proxy_url") (ep?."headers") JUndef with
           | inl e => (a, fetch_refused e)
           | inr (_, models) =>
             let shown rec := (200%Z, good [("fetched", jint (Z.of_nat (length models))); ("item", publicEndpointView rec false); ("models", JArr models)]) in
             if is_bool (body?."apply") false then (a, shown ep)
             else match mergeFetchedModels id models t with
                  | (t, inl e) => (left_behind t a, thrown_answer 400 e (e_code e ||| JStr "fetch_models_failed"))
                  | (t, inr rec) => (reloaded t a, shown rec)
                  end
           end
         end
  | PostKey id body =>
    match addKey 0 id (body ||| JObj []) t with
    | (t, inl e) => (left_behind t a, thrown_answer (if is_str (e_code e) "endpoint_not_found" then 404 else 400) e (e_code e))
    | (t, inr key) => (reloaded t a, (201%Z, good [("item", key_item (key?."id") (publicEndpointView (getHydrated id t) true) ||| key)]))
    end
  | DeleteKey kid =>
    match removeKey kid t with
    | (t, true) => (reloaded t a, (200%Z, good [("deleted", kid)]))
    | (t, false) => (left_behind t a, not_found "key")
    end
  | PatchKey kid body =>
    match updateKey kid (body ||| JObj []) t with
    | (t, rec) =>
      if truthy rec then (reloaded t a, (200%Z, good [("item", key_item kid (publicEndpointView (getHydrated (rec?."endpoint_id") t) false))]))
      else (left_behind t a, not_found "key")
    end
  end.
End Store.

(** ** The rest of a key in the tables and in the pool *)

Lemma sort_map (cmp : jsval -> jsval -> num) f l : (forall x y, cmp (f x) (f y) = cmp x y) -> sort cmp (map f l) = map f (sort cmp l).
Proof.
  intros H. induction l as [|x l IH]; [done|]. cbn [map sort foldr]. unfold sort in IH. rewrite IH. generalize (foldr (sort_insert cmp) [] l) as m.
  induction m as [|y m IHm]; [done|]. cbn [map sort_insert]. unfold after. rewrite H. case_match; [by rewrite IHm|done].
Qed.
Lemma filter_map (p : jsval -> bool) f l : (forall x, p (f x) = p x) -> List.filter p (map f l) = map f (List.filter p l).
Proof. intros H. induction l as [|x l IH]; [done|]. cbn. rewrite H. destruct (p x); cbn; by rewrite IH. Qed.
Lemma cool_row_get id until row k : k <> "cooldown_until" -> cool_row id until row?.k = row?.k.
Proof. intros H. unfold cool_row. case_match; [|done]. by rewrite get_with_field_ne. Qed.
(** [setKeyCooldown] of ApiCall, on the endpoints put together, is that of the tables. *)
Theorem cooldown_refines id until t : until <> "" ->
  listHydrated (setKeyCooldown id (JStr until) t) = ApiCall.setKeyCooldown id (JStr until) (listHydrated t).
Proof.
  intros Hu. unfold listHydrated, ApiCall.setKeyCooldown. cbn [setKeyCooldown with_key_rows t_eps]. rewrite map_map. apply map_ext. intros row.
  assert (Hk : forall ep, keys_of ep (setKeyCooldown id (JStr until) t) = map (cool_key id (JStr until)) (keys_of ep t)).
  { intros ep. unfold keys_of, setKeyCooldown. cbn [with_key_rows t_keys]. rewrite filter_map by (intros x; unfold has; by rewrite cool_row_get).
    rewrite sort_map by (intros x y; unfold key_order, compare_text; by rewrite !cool_row_get). rewrite !map_map. apply map_ext. intros x.
    unfold cool_row, cool_key, has. cbn [rowKey get assoc String.eqb Ascii.eqb Bool.eqb]. destruct (same_value (x?."id") id); [|done].
    unfold rowKey. rewrite !get_with_field_ne, get_with_field_eq by done. unfold or_else. cbn [truthy]. rewrite (get_with_field_ne x "created_at"), (proj2 (String.eqb_neq until "") Hu) by done. reflexivity. }
  unfold hydrate. rewrite Hk. reflexivity.
Qed.

(** ** The panel and the pool *)

(** The endpoint of a row is there. *)
Definition owned (t : tables) (row : jsval) : Prop := existsb (has "id" (row?."endpoint_id")) (t_eps t) = true.
Definition sound (t : tables) : Prop :=
  Forall (fun row => exists id, row?."id" = JStr id) (t_eps t) /\ Forall (owned t) (t_keys t) /\ Forall (owned t) (t_models t).
Definition synced (a : admin) : Prop := endpoints (a_pool a) = listHydrated (a_tables a).

Lemma has_string k s v row : row?.k = JStr s -> has k v row = true <-> v = JStr s.
Proof. intros E. unfold has. rewrite E. destruct v; cbn; try (split; done). rewrite String.eqb_eq. naive_solver. Qed.
Lemma found_owned id t : truthy (getHydrated id t) = true -> existsb (has "id" id) (t_eps t) = true.
Proof.
  unfold getHydrated. destruct (List.find (has "id" id) (t_eps t)) as [row|] eqn:E; [|done]. intros _. apply existsb_exists.
  exists row. by apply List.find_some in E.
Qed.
Lemma without_rows_elem k v l row : row ∈ without_rows k v l <-> row ∈ l /\ has k v row = false.
Proof. unfold without_rows. by rewrite list_elem_of_In, List.filter_In, <- list_elem_of_In, negb_true_iff. Qed.
Lemma without_none k v l : existsb (has k v) l = false -> without_rows k v l = l.
Proof.
  intros H. unfold without_rows. induction l as [|x l IH]; [done|]. cbn in *. apply orb_false_iff in H as [-> H]. cbn. by rewrite (IH H).
Qed.
Lemma owned_more t t' row : (forall v, existsb (has "id" v) (t_eps t) = true -> existsb (has "id" v) (t_eps t') = true) -> owned t row -> owned t' row.
Proof. unfold owned. auto. Qed.
Lemma sound_same_eps t t' : t_eps t' = t_eps t -> Forall (owned t) (t_keys t') -> Forall (owned t) (t_models t') -> sound t -> sound t'.
Proof.
  intros E Hk Hm (Hi & _). unfold sound. rewrite E. split; [done|].
  split; (eapply Forall_impl; [eassumption|]); intros row; apply owned_more; by rewrite E.
Qed.

Lemma insert_models_owned t ep l : forall i rows rows', existsb (has "id" ep) (t_eps t) = true -> Forall (owned t) rows ->
  insert_models ep i l rows = Some rows' -> Forall (owned t) rows'.
Proof.
  induction l as [|m l IH]; intros i rows rows' He Hr; cbn [insert_models]; [by intros [= <-]|]. destruct (existsb (has "id" (m?."id")) rows); [done|].
  apply IH; [done|]. apply Forall_app. split; [done|]. constructor; [exact He|constructor].
Qed.
Lemma sound_replace ids ep models t t' e : sound t -> existsb (has "id" ep) (t_eps t) = true -> replaceModels ids ep models t = (t', e) ->
  sound t' /\ t_eps t' = t_eps t /\ (forall p, e = inl p -> t' = t).
Proof.
  intros Hs He. unfold replaceModels. destruct (existsb is_nullish models); [intros [= <- <-]; done|]. unfold replaceModelRows.
  destruct (insert_models _ _ _ _) as [rows|] eqn:E; cbn [option_map]; intros [= <- <-]; [|done]. split; [|split; done].
  apply (sound_same_eps t); [done|apply Hs| |done]. apply (insert_models_owned t ep _ _ _ _ He) in E; [done|].
  apply Forall_forall. intros row [Hr _]%without_rows_elem. destruct Hs as (_ & _ & Hm). rewrite Forall_forall in Hm. by apply Hm.
Qed.
Lemma sound_addKey ids now n ep input t t' e : sound t -> addKey ids now n ep input t = (t', e) -> sound t' /\ t_eps t' = t_eps t /\ (forall p, e = inl p -> t' = t).
Proof.
  intros Hs. unfold addKey. destruct (truthy (getHydrated ep t)) eqn:E; [|intros [= <- <-]; done]. cbn [negb]. apply found_owned in E.
  assert (H : forall rec, rec?."endpoint_id" = ep -> sound (insertKey rec t).1).
  { intros rec Hr. apply (sound_same_eps t); [done| |apply Hs|done]. cbn. apply Forall_app. split; [apply Hs|]. constructor; [|constructor].
    unfold owned. cbn. by rewrite Hr. }
  destruct input; try (destruct (_ <? _)%nat; [by intros [= <- <-]|]; intros [= <- <-]; split; [by apply H|done]). by intros [= <- <-].
Qed.
Lemma sound_add_keys ids now ep l : forall n t, sound t -> sound (add_keys ids now n ep l t).1.
Proof.
  induction l as [|k l IH]; intros n t Hs; [done|]. cbn [add_keys]. destruct (addKey ids now n ep k t) as [t' e] eqn:E.
  destruct (sound_addKey _ _ _ _ _ _ _ _ Hs E) as (Hs' & _). destruct e; [done|]. by apply IH.
Qed.
Lemma sound_eps t l : sound t -> Forall (fun row => exists id, row?."id" = JStr id) l ->
  (forall v, existsb (has "id" v) (t_eps t) = true -> existsb (has "id" v) l = true) -> sound (with_eps l t).
Proof.
  intros (Hi & Hk & Hm) Hl H. split; [done|]. split; (eapply Forall_impl; [eassumption|]); intros row; by apply owned_more.
Qed.
Lemma sound_create ids now input t : sound t -> sound (create ids now input t).1.
Proof.
  intros Hs. unfold create. destruct (negb _); [done|]. cbn zeta. set (rec := new_endpoint ids now input).
  assert (H0 : sound (insertEndpoint rec t)).
  { apply sound_eps; [done| |intros v Hv; rewrite existsb_app, Hv; done]. apply Forall_app. split; [apply Hs|]. constructor; [|constructor]. by exists (ids "ep_" 0%nat). }
  assert (He : existsb (has "id" (rec?."id")) (t_eps (insertEndpoint rec t)) = true).
  { cbn [insertEndpoint with_eps t_eps]. rewrite existsb_app. apply orb_true_iff. right. cbn [existsb]. rewrite orb_false_r.
    apply (has_string "id" (ids "ep_" 0%nat)); done. }
  destruct (arr_of (input?."models")) as [|m l].
  - pose proof (sound_add_keys ids now (rec?."id") (arr_of (input?."api_key_entries")) 0 _ H0) as H. by destruct (add_keys _ _ _ _ _ _).
  - destruct (replaceModels _ _ _ _) as [t1 [e|v]] eqn:E; destruct (sound_replace _ _ _ _ _ _ H0 He E) as (H1 & _); [done|].
    pose proof (sound_add_keys ids now (rec?."id") (arr_of (input?."api_key_entries")) 0 _ H1) as H. by destruct (add_keys _ _ _ _ _ _).
Qed.
Lemma existsb_same (l l' : list jsval) v : map (fun row => row?."id") l = map (fun row => row?."id") l' -> existsb (has "id" v) l = existsb (has "id" v) l'.
Proof.
  revert l'. induction l as [|x l IH]; intros [|y l'] H; try done. cbn in H. injection H as Hx H. cbn [existsb]. unfold has at 1 3. by rewrite Hx, (IH l').
Qed.
Lemma sound_updateEndpoint rec t : sound t -> sound (updateEndpoint rec t) /\ (forall v, existsb (has "id" v) (t_eps (updateEndpoint rec t)) = existsb (has "id" v) (t_eps t)).
Proof.
  intros Hs. set (f := fun row => if has "id" (rec?."id") row then with_field (ep_row rec) "id" (row?."id") else row).
  assert (Hf : forall row, f row?."id" = row?."id") by (intros row; unfold f; case_match; [apply get_with_field_eq|done]).
  assert (He : forall v, existsb (has "id" v) (map f (t_eps t)) = existsb (has "id" v) (t_eps t)).
  { intros v. apply existsb_same. rewrite map_map. by apply map_ext. }
  split; [|done]. apply sound_eps; [done| |intros v Hv; by rewrite He]. apply Forall_forall. intros row (x & -> & Hx)%list_elem_of_fmap. change (exists s, f x?."id" = JStr s). rewrite Hf.
  destruct Hs as (Hi & _). rewrite Forall_forall in Hi. by apply Hi.
Qed.
Lemma sound_update ids now id patch t : sound t -> sound (update ids now id patch t).1.
Proof.
  intros Hs. unfold update. destruct (truthy (getHydrated id t)) eqn:E; [|done]. cbn [negb]. destruct (patched _ _ _) as [e|rec]; [done|].
  destruct (sound_updateEndpoint rec t Hs) as [H1 H2]. destruct (patch?."models") as [| | | | |models|]; try done.
  destruct (replaceModels _ _ _ _) as [t2 [e|v]] eqn:Er; destruct (sound_replace _ _ _ _ _ _ H1 ltac:(rewrite H2; by apply found_owned) Er) as (H3 & _); done.
Qed.
Lemma sound_remove id t : sound t -> sound (removeEndpoint id t).1.
Proof.
  intros (Hi & Hk & Hm). assert (H : forall l, Forall (owned t) l -> Forall (owned (removeEndpoint id t).1) (without_rows "endpoint_id" id l)).
  { intros l Hl. apply Forall_forall. intros row [Hr Hid]%without_rows_elem. rewrite Forall_forall in Hl. specialize (Hl row Hr). unfold owned in *. cbn.
    apply existsb_exists in Hl as (ep & Hep & Hh). apply existsb_exists. exists ep. split; [|done]. apply list_elem_of_In, without_rows_elem.
    apply list_elem_of_In in Hep. split; [done|]. rewrite Forall_forall in Hi. destruct (Hi ep Hep) as [s Es].
    apply (has_string "id" s) in Hh; [|done]. destruct (has "id" id ep) eqn:E; [|done]. apply (has_string "id" s) in E; [|done].
    unfold has in Hid. rewrite Hh, E in Hid. cbn in Hid. by rewrite String.eqb_refl in Hid. }
  split; [|split; by apply H]. apply Forall_forall. intros ep [He _]%without_rows_elem. rewrite Forall_forall in Hi. by apply Hi.
Qed.
Lemma sound_filtered_keys id t : sound t -> sound (removeKey id t).1.
Proof.
  intros Hs. apply (sound_same_eps t); [done| |apply Hs|done]. destruct Hs as (_ & Hk & _). rewrite Forall_forall in *. intros row [Hr _]%without_rows_elem. by apply Hk.
Qed.
(** Rows of keys that keep their endpoint. *)
Lemma sound_map_keys f t : (forall row, f row?."endpoint_id" = row?."endpoint_id") -> sound t -> sound (with_key_rows (map f (t_keys t)) t).
Proof.
  intros Hf Hs. apply (sound_same_eps t); [done| |apply Hs|done]. destruct Hs as (_ & Hk & _). apply Forall_forall. intros row (x & -> & Hx)%list_elem_of_fmap.
  rewrite Forall_forall in Hk. unfold owned. rewrite Hf. by apply Hk.
Qed.
Lemma sound_updateKey id patch t : sound t -> sound (updateKey id patch t).1.
Proof.
  intros Hs. unfold updateKey. destruct (List.find _ _) as [row|]; [|done]. apply sound_map_keys; [|done]. intros r. case_match; [|done].
  unfold write_key. cbn [fold_left fst snd]. by rewrite !get_with_field_ne.
Qed.
Lemma sound_cooldown id until t : sound t -> sound (setKeyCooldown id until t).
Proof. apply sound_map_keys. intros row. by apply cool_row_get. Qed.

(** Nothing is removed for an endpoint that is not there. *)
Lemma remove_nothing id t : sound t -> (removeEndpoint id t).2 = false -> (removeEndpoint id t).1 = t.
Proof.
  intros (Hi & Hk & Hm) H. cbn in *. assert (Hn : forall l, Forall (owned t) l -> without_rows "endpoint_id" id l = l).
  { intros l Hl. apply without_none. destruct (existsb _ l) eqn:E; [|done]. apply existsb_exists in E as (row & Hr & Hh). apply list_elem_of_In in Hr.
    rewrite Forall_forall in Hl. specialize (Hl row Hr). unfold owned in Hl. apply existsb_exists in Hl as (ep & Hep & He). apply list_elem_of_In in Hep.
    rewrite Forall_forall in Hi. destruct (Hi ep Hep) as [s Es]. apply (has_string "id" s) in He; [|done]. apply (has_string _ s) in Hh; [|done]. subst id.
    assert (existsb (has "id" (JStr s)) (t_eps t) = true); [|congruence]. apply existsb_exists. exists ep. split; [by apply list_elem_of_In|].
    by apply (has_string "id" s). }
  rewrite (without_none "id" id (t_eps t) H), !Hn by done. by destruct t.
Qed.

(** What the panel does, and the rests that the calls of clients write. *)
Inductive reachable : admin -> Prop :=
| reach_empty : reachable {| a_tables := {| t_eps := []; t_keys := []; t_models := [] |}; a_pool := new_scheduler |}
| reach_route ids now forward r a : reachable a -> reachable (serve_route ids now forward r a).1
| reach_rest id until a : reachable a -> reachable (reloaded (setKeyCooldown id (JStr until) (a_tables a)) a)
| reach_pick model now a : reachable a -> reachable {| a_tables := a_tables a; a_pool := (pick (a_pool a) model now).1 |}.
Lemma sound_route ids now forward r a : sound (a_tables a) -> sound (a_tables (serve_route ids now forward r a).1).
Proof.
  intros Hs. destruct r as [|body|body|id body|id|id body|id body|kid|kid body]; cbn [serve_route]; try done.
  - pose proof (sound_create ids now (body ||| JObj []) _ Hs) as H. by destruct (create _ _ _ _) as [t [e|v]].
  - pose proof (sound_update ids now id (body ||| JObj []) _ Hs) as H. destruct (update _ _ _ _ _) as [t [e|v]]; [done|]. by destruct (truthy v).
  - pose proof (sound_remove id _ Hs) as H. by destruct (removeEndpoint id _) as [t []].
  - destruct (truthy (getHydrated id (a_tables a))) eqn:E; [|done]. cbn [negb]. destruct (List.find _ _); [|done].
    destruct (fetchUpstreamModels _ _ _ _ _ _ _ _) as [e|[p models]]; [done|]. destruct (is_bool _ _); [done|]. unfold mergeFetchedModels. rewrite E. cbn [negb].
    destruct (replaceModels _ _ _ _) as [t [e|v]] eqn:Er; destruct (sound_replace _ _ _ _ _ _ Hs (found_owned _ _ E) Er) as (H & _); done.
  - destruct (addKey _ _ _ _ _ _) as [t [e|v]] eqn:E; destruct (sound_addKey _ _ _ _ _ _ _ _ Hs E) as (H & _); done.
  - pose proof (sound_filtered_keys kid _ Hs) as H. by destruct (removeKey kid _) as [t []].
  - pose proof (sound_updateKey kid (body ||| JObj []) _ Hs) as H. destruct (updateKey _ _ _) as [t v]. by destruct (truthy v).
Qed.
Lemma sound_reachable a : reachable a -> sound (a_tables a).
Proof.
  induction 1 as [|ids now forward r a H IH|id until a H IH|model now a H IH]; [done|by apply sound_route|by apply sound_cooldown|done].
Qed.


Definition may_leave (r : route) : Prop := match r with PostEndpoint _ | PatchEndpoint _ _ => True | _ => False end.
Definition agrees (a : admin) (r : route) (x : admin * answer) : Prop :=
  if (x.2.1 <? 400)%Z then x.1 = a \/ synced x.1 else a_pool x.1 = a_pool a /\ (a_tables x.1 = a_tables a \/ may_leave r).
Lemma agrees_same a r x : agrees a r (a, x).
Proof. unfold agrees. cbn [fst snd]. case_match; [by left|]. split; [done|by left]. Qed.
Lemma agrees_left t a r status v : (400 <= status)%Z -> t = a_tables a \/ may_leave r -> agrees a r (left_behind t a, (status, v)).
Proof. intros H Ht. unfold agrees. cbn [fst snd]. by rewrite (proj2 (Z.ltb_ge _ _) H). Qed.
Lemma agrees_reloaded t a r status v : (status < 400)%Z -> agrees a r (reloaded t a, (status, v)).
Proof. intros H. unfold agrees. cbn [fst snd]. rewrite (proj2 (Z.ltb_lt _ _) H). by right. Qed.
Lemma route_agrees ids now forward r a : sound (a_tables a) -> agrees a r (serve_route ids now forward r a).
Proof.
  intros Hs.
  destruct r as [|body|body|id body|id|id body|id body|kid|kid body]; cbn [serve_route]; try apply agrees_same.
  - destruct (create _ _ _ _) as [t [e|v]]; [apply agrees_left; [done|by right]|by apply agrees_reloaded].
  - destruct (update _ _ _ _ _) as [t [e|v]]; [apply agrees_left; [done|by right]|]. destruct (truthy v); [by apply agrees_reloaded|apply agrees_left; [done|by right]].
  - pose proof (remove_nothing id _ Hs) as H. destruct (removeEndpoint id _) as [t []]; [by apply agrees_reloaded|]. apply agrees_left; [done|]. left. by apply H.
  - destruct (negb _) eqn:E; [apply agrees_same|]. destruct (List.find _ _); [|apply agrees_same].
    destruct (fetchUpstreamModels _ _ _ _ _ _ _ _) as [e|[p models]]; [apply agrees_same|]. destruct (is_bool _ _); [apply agrees_same|]. unfold mergeFetchedModels. rewrite E.
    apply negb_false_iff in E. cbn iota. destruct (replaceModels _ _ _ _) as [t [e|v]] eqn:Er; [|by apply agrees_reloaded].
    destruct (sound_replace _ _ _ _ _ _ Hs (found_owned _ _ E) Er) as (_ & _ & H). apply agrees_left; [done|]. left. by apply (H e).
  - destruct (addKey _ _ _ _ _ _) as [t [e|v]] eqn:E; [|by apply agrees_reloaded]. destruct (sound_addKey _ _ _ _ _ _ _ _ Hs E) as (_ & _ & H).
    apply agrees_left; [by destruct (is_str _ _)|left; by apply (H e)].
  - assert (H : (removeKey kid (a_tables a)).2 = false -> (removeKey kid (a_tables a)).1 = a_tables a).
    { cbn. intros H. rewrite without_none by done. by destruct (a_tables a). }
    destruct (removeKey kid _) as [t []]; [by apply agrees_reloaded|]. apply agrees_left; [done|]. left. by apply H.
  - assert (H : forall t v, updateKey kid (body ||| JObj []) (a_tables a) = (t, v) -> truthy v = false -> t = a_tables a).
    { intros t v. unfold updateKey. destruct (List.find _ _); intros [= <- <-]; done. }
    destruct (updateKey _ _ _) as [t v]. destruct (truthy v) eqn:E; [by apply agrees_reloaded|]. apply agrees_left; [done|]. left. by apply (H t v).
Qed.

(** C20: The panel and the pool agree on the endpoints.  After any routes and rests, every key and model belongs to an
    endpoint; a route that answers well leaves everything as it is or gives the pool exactly the endpoints of the
    tables; one that answers with an error leaves the pool alone, and the tables too unless it creates or
    edits an endpoint. *)
Theorem panel_and_pool_agree a : reachable a ->
  (Forall (owned (a_tables a)) (t_keys (a_tables a)) /\ Forall (owned (a_tables a)) (t_models (a_tables a))) /\
  forall ids now forward r, let '(b, (status, _)) := serve_route ids now forward r a in
  if (status <? 400)%Z then b = a \/ synced b
  else a_pool b = a_pool a /\ (a_tables b = a_tables a \/ may_leave r).
Proof.
  intros Hr. pose proof (sound_reachable a Hr) as Hs. split; [apply Hs|]. intros ids now forward r.
  pose proof (route_agrees ids now forward r a Hs) as H. destruct (serve_route _ _ _ _ _) as [b [status v]]. exact H.
Qed.

(** ** A panel that is run *)

Definition offline (c : call) : reply := inl TYPE_ERROR.
Definition drawn (prefix : string) (n : nat) : string := (prefix ++ Z_to_string (Z.of_nat n))%string.
Definition no_admin : admin := {| a_tables := {| t_eps := []; t_keys := []; t_models := [] |}; a_pool := new_scheduler |}.
Definition endpoint_body (keys : list string) : jsval :=
  JObj [("kind", JStr "claude"); ("name", JStr "main"); ("auth_scheme", JStr "bearer"); ("models", JArr [JObj [("name", JStr "claude-opus-4-6")]]);
        ("api_key_entries", JArr (map (fun k => JObj [("api_key", JStr k)]) keys))].
Definition served (r : route) (a : admin) : admin * answer := serve_route drawn 1000 offline r a.
Lemma panel_and_pool_agree_witness : (served (PostEndpoint (endpoint_body ["sk-1"])) no_admin).2.1 = 201%Z /\
  ((served (PostEndpoint (endpoint_body ["sk-1"])) no_admin).1 = no_admin \/ synced (served (PostEndpoint (endpoint_body ["sk-1"])) no_admin).1).
Proof.
  pose proof (proj2 (panel_and_pool_agree no_admin reach_empty) drawn 1000%Z offline (PostEndpoint (endpoint_body ["sk-1"]))) as H.
  assert (Hs : (served (PostEndpoint (endpoint_body ["sk-1"])) no_admin).2.1 = 201%Z) by (vm_compute; reflexivity).
  fold (served (PostEndpoint (endpoint_body ["sk-1"])) no_admin) in H. destruct (served _ _) as [b [status v]]. cbn [fst snd] in *. subst status.
  exact (conj eq_refl H).
Defined.

(** An endpoint with a key that is too short: the answer is an error, and the endpoint is there, unknown to the pool. *)
Example error_leaves_endpoint :
  let '(a, (status, v)) := served (PostEndpoint (endpoint_body ["sk-1"; "sk"])) no_admin in
  (status, v?."error"?."code", length (listHydrated (a_tables a)), length (t_keys (a_tables a)), length (endpoints (a_pool a))) = (400%Z, JStr "key_too_short", 1%nat, 1%nat, 0%nat).
Proof. vm_compute. reflexivity. Qed.
(** What the panel shows of an endpoint, written back, loses the scheme of its credential: its keys are sent in another header. *)
Example scheme_lost :
  let a := (served (PostEndpoint (endpoint_body ["sk-1"])) no_admin).1 in
  let shown a := match list_view false (a_tables a) with v :: _ => v | [] => JNull end in
  let b := (served (PatchEndpoint (shown a?."id") (JObj [("headers", shown a?."headers")])) a).1 in
  (shown a?."auth_scheme", shown b?."auth_scheme") = (JStr "authorization_bearer", JStr "x_api_key").
Proof. vm_compute. reflexivity. Qed.
(** The suffix that is shown of a key of four characters is that key. *)
Example short_key_shown :
  map (fun k => public_key false k?."key_suffix") [JObj [("api_key", JStr "sk-1")]] = [JStr "sk-1"].
Proof. reflexivity. Qed.
