(* ===== verification/Handler.v ===== *)
(** * A request of a client (src/src/lib/protocol/handle-protocol.mjs, [readBody] of src/src/lib/http/respond.mjs, the catch
    of src/src/server.mjs)

    The handler puts the components together: the credential, the body, the health snapshot, the
    rules of the operator, the platform and the model, the guards, and then one of three hops, to a
    Codex slot, to an endpoint of another provider, or to a slot of the pool.  [server] is what is kept between
    requests, [world] what a request meets: the configuration, the clock, what is drawn, the slots and
    endpoints, and what the modules of the client's identity say.  The logs of requests are not
    modelled. *)

From stdpp Require Import gmap strings.
From S2P Require Import Prelude.
From S2P Require Import JsValue.
From S2P Require Import JsRegex.
From S2P Require Import JsText.
From S2P Require Import Eligibility.
From S2P Require Import Errors.
From S2P Require Import SlotEngine.
From S2P Require Import ModelPolicy.
From S2P Require Import WebSearch.
From S2P Require Import CacheTtl.
From S2P Require Import Thinking.
From S2P Require Import QuotaRecord.
From S2P Require Import AccountQuota.
From S2P Require Import Sanitize.
From S2P Require Import JsonParse.
From S2P Require Import Convert.
From S2P Require Import Respond.
From S2P Require Import Streams.
From S2P Require Import AnthropicPolicy.
From S2P Require Import Catalog.
From S2P Require Import Refusals.
From S2P Require Import Sticky.
From S2P Require Import ApiKeys.
From S2P Require Import Access.
From S2P Require Import VmFiles.
From S2P Require Import CodexRequest.
From S2P Require Import CodexHop.
From S2P Require Import WorkerStream.
From S2P Require Import KernelHop.
From S2P Require Import ApiPool.
From S2P Require Import Inbound.
From S2P Require Import Intercept.
From S2P Require Import Keepalive.
From S2P Require Import Health.
From S2P Require Import Downstream.
From S2P Require Import ApiCall.
From S2P Require Import Failover.
#[local] Open Scope string_scope.
#[local] Open Scope list_scope.
#[local] Open Scope js_scope.

(** ** The body (respond.mjs) *)

Definition INVALID (code message : jsval) : jsval := makeError (err (ErrorType?."INVALID_REQUEST") code message 400).
Definition too_large (max received : Z) : jsval :=
  makeError (with_details (err (ErrorType?."INVALID_REQUEST") (ErrorCode?."BODY_TOO_LARGE")
    (JStr ("Request body exceeds limit of " ++ Z_to_string max ++ " bytes")%string) 413)
    (JObj [("max_bytes", jint max); ("received", jint received)])).
(** The bytes of the chunks, or how many had come when they were too many. *)
Fixpoint gather (max received : Z) (chunks : list string) (bytes : string) : Z + string :=
  match chunks with
  | [] => inr bytes
  | c :: chunks =>
    let received := (received + Z.of_nat (String.length c))%Z in
    if (max <? received)%Z then inl received else gather max received chunks (bytes ++ c)%string
  end.
(** [broken]: the error of the socket after the chunks; [parse_error]: the message of [JSON.parse]. *)
Definition readBody (parse_error : string -> string) (max : Z) (chunks : list string) (broken : option string) : jsval + jsval :=
  match gather max 0 chunks "", broken with
  | inl received, _ => inl (too_large max received)
  | inr _, Some message => inl (makeError (err (ErrorType?."API") (JStr "request_stream_error") (JStr message) 400))
  | inr bytes, None =>
    let raw := decode bytes in
    if negb (nonempty raw) then inr (JObj [])
    else match json_parse raw with
         | Some v => inr v
         | None => inl (makeError (with_details (err (ErrorType?."INVALID_REQUEST") (ErrorCode?."INVALID_JSON")
                          (JStr ("Request body is not valid JSON: " ++ parse_error raw)%string) 400)
                          (JObj [("parse_error", JStr (parse_error raw))])))
         end
  end.

(** ** What is kept, and what is met *)

Record stats := { t_errors : nat; t_requests : nat; t_routes : gmap string nat; t_passthrough : nat; t_rewrite : nat; t_convert : nat }.
Record server := {
  v_gateway : gateway; v_refusals : Refusals.table; v_catalog : Catalog.catalog; v_sticky : Sticky.table; v_quota : quota;
  v_pool : scheduler; v_endpoints : list jsval; v_files : fields; v_turns : Turns.store; v_needs : gmap string Z; v_stats : stats
}.

Record request := {
  q_req : jsval;              (* headers, socket *)
  q_protocol : string; q_path : string;
  q_chunks : list string; q_broken : option string
}.

(** What is left of a request: a key taken and given back, the hops with the body they were given, and what was charged
    to a key. *)
Inductive effect :=
| KeyTaken (id : string)
| KeyReleased (id : string)
| Pooled (body : jsval) (l : list Failover.effect)
| Forwarded (body : jsval)
| CodexHops (l : list CodexHop.effect)
| Charged (id : string) (usage model : jsval).

Record world := {
  (* configuration *)
  w_sha256 : string -> string; w_hmac : string -> string; w_seal : string -> string -> string -> string * string;
  w_secret : string; w_admin : string; w_capacity : num; w_refill : num; w_api_key : string;
  w_max_body : Z; w_rewrite : bool; w_rules : list (rule jsval); w_distill : jsval; w_refusal_flag : jsval; w_refusal_setting : option jsval;
  w_routing : jsval; w_routing_file : option jsval; w_policy : jsval; w_sticky_config : Sticky.config; w_failover_config : Failover.config;
  w_keepalive_ms : jsval; w_multiplier : jsval -> num; w_monitor : option monitor;
  (* the modules of identity *)
  w_official_traffic : jsval -> jsval -> bool; w_official_ua : string -> bool; w_regex : string -> string -> option bool;
  w_class : jsval -> jsval -> string; w_proxied : jsval -> bool; w_persona : jsval -> jsval; w_hidden : jsval -> jsval -> jsval;
  w_prepare : nat -> jsval -> selected -> bool -> answer; w_hidden_at : nat -> jsval;
  (* the clock, and what is drawn *)
  w_now : Z; w_later : Z; w_iv : string; w_request_id : jsval; w_random : nat -> string; w_parse_error : string -> string; w_written : bool;
  (* the hops *)
  w_codex : CodexHop.env;
  w_forward : call -> reply; w_rested : bool; w_clock : nat -> Z; w_at_429 : Z; w_started : Z;
  w_pool : Failover.env; w_hop : nat -> KernelHop.env; w_wraps : nat -> wraps;
  (* in attempt [n], at the [i]-th thing shown: the clock, what is drawn, and the timer before it with whether the client had left *)
  w_at : nat -> nat -> Z; w_drawn : nat -> nat -> string; w_ticks : nat -> nat -> list (Z * bool)
}.

(** ** One request under way *)

Record run := { u_server : server; u_acts : acts; u_effects : list effect }.
(** An exception: what the catch of the server reads of it. *)
Record exn := { x_status : jsval; x_text : jsval }.
Inductive ending := Finished (u : run) | Failed (u : run) (e : exn).
Definition TypeError : exn := {| x_status := JUndef; x_text := JStr "Cannot read properties of undefined" |}.

Definition on_server (f : server -> server) (u : run) : run := {| u_server := f (u_server u); u_acts := u_acts u; u_effects := u_effects u |}.
Definition set_acts (r : acts) (u : run) : run := {| u_server := u_server u; u_acts := r; u_effects := u_effects u |}.
Definition act_now (a : act) (u : run) : run := set_acts (u_acts u ++ [a]) u.
Definition emit (e : effect) (u : run) : run := {| u_server := u_server u; u_acts := u_acts u; u_effects := u_effects u ++ [e] |}.

Definition with_gateway (g : gateway) (s : server) : server :=
  {| v_gateway := g; v_refusals := v_refusals s; v_catalog := v_catalog s; v_sticky := v_sticky s; v_quota := v_quota s; v_pool := v_pool s;
     v_endpoints := v_endpoints s; v_files := v_files s; v_turns := v_turns s; v_needs := v_needs s; v_stats := v_stats s |}.
Definition with_refusals (t : Refusals.table) (s : server) : server :=
  {| v_gateway := v_gateway s; v_refusals := t; v_catalog := v_catalog s; v_sticky := v_sticky s; v_quota := v_quota s; v_pool := v_pool s;
     v_endpoints := v_endpoints s; v_files := v_files s; v_turns := v_turns s; v_needs := v_needs s; v_stats := v_stats s |}.
Definition with_catalog (c : Catalog.catalog) (s : server) : server :=
  {| v_gateway := v_gateway s; v_refusals := v_refusals s; v_catalog := c; v_sticky := v_sticky s; v_quota := v_quota s; v_pool := v_pool s;
     v_endpoints := v_endpoints s; v_files := v_files s; v_turns := v_turns s; v_needs := v_needs s; v_stats := v_stats s |}.
Definition with_sticky (t : Sticky.table) (s : server) : server :=
  {| v_gateway := v_gateway s; v_refusals := v_refusals s; v_catalog := v_catalog s; v_sticky := t; v_quota := v_quota s; v_pool := v_pool s;
     v_endpoints := v_endpoints s; v_files := v_files s; v_turns := v_turns s; v_needs := v_needs s; v_stats := v_stats s |}.
Definition with_quota (q : quota) (s : server) : server :=
  {| v_gateway := v_gateway s; v_refusals := v_refusals s; v_catalog := v_catalog s; v_sticky := v_sticky s; v_quota := q; v_pool := v_pool s;
     v_endpoints := v_endpoints s; v_files := v_files s; v_turns := v_turns s; v_needs := v_needs s; v_stats := v_stats s |}.
Definition with_pool (p : scheduler) (eps : list jsval) (s : server) : server :=
  {| v_gateway := v_gateway s; v_refusals := v_refusals s; v_catalog := v_catalog s; v_sticky := v_sticky s; v_quota := v_quota s; v_pool := p;
     v_endpoints := eps; v_files := v_files s; v_turns := v_turns s; v_needs := v_needs s; v_stats := v_stats s |}.
Definition with_codex (r : CodexHop.run) (s : server) : server :=
  {| v_gateway := v_gateway s; v_refusals := v_refusals s; v_catalog := v_catalog s; v_sticky := v_sticky s; v_quota := v_quota s; v_pool := v_pool s;
     v_endpoints := v_endpoints s; v_files := n_files r; v_turns := n_turns r; v_needs := n_needs r; v_stats := v_stats s |}.
Definition with_stats (t : stats) (s : server) : server :=
  {| v_gateway := v_gateway s; v_refusals := v_refusals s; v_catalog := v_catalog s; v_sticky := v_sticky s; v_quota := v_quota s; v_pool := v_pool s;
     v_endpoints := v_endpoints s; v_files := v_files s; v_turns := v_turns s; v_needs := v_needs s; v_stats := t |}.
Definition keys_of (u : run) : ApiKeys.store := g_keys (v_gateway (u_server u)).
Definition set_keys (k : ApiKeys.store) (u : run) : run := on_server (fun s => with_gateway (with_keys (v_gateway s) k) s) u.

(** [errors] and [requests] more, counted in the statistics. *)
Definition count_both (errors requests : nat) (s : server) : server :=
  let t := v_stats s in
  with_stats {| t_errors := errors + t_errors t; t_requests := requests + t_requests t; t_routes := t_routes t;
                t_passthrough := t_passthrough t; t_rewrite := t_rewrite t; t_convert := t_convert t |} s.
Definition count_error (u : run) : run := on_server (count_both 1 0) u.
Definition count_route (protocol : string) (s : server) : server :=
  let s := count_both 0 1 s in
  let t := v_stats s in
  with_stats {| t_errors := t_errors t; t_requests := t_requests t; t_routes := <[protocol := S (default 0%nat (t_routes t !! protocol))]> (t_routes t);
                t_passthrough := t_passthrough t; t_rewrite := t_rewrite t; t_convert := t_convert t |} s.
Definition count_mode (mode : string) (s : server) : server :=
  let t := v_stats s in
  let hit m := if String.eqb mode m then 1%nat else 0%nat in
  with_stats {| t_errors := t_errors t; t_requests := t_requests t; t_routes := t_routes t; t_passthrough := hit "passthrough" + t_passthrough t;
                t_rewrite := hit "rewrite" + t_rewrite t;
                t_convert := (if String.eqb mode "passthrough" || String.eqb mode "rewrite" then 0 else 1) + t_convert t |} s.

(** [json(res, status, body)], of an error as well. *)
Definition json (status body : jsval) (u : run) : run := act_now (Json status body) u.
Definition respond (error : jsval) (u : run) : run := json (error?."status") (error?."body") u.
Definition refuse (error : jsval) (u : run) : run := respond error (count_error u).

Section Handler.
Context (w : world) (q : request).

Definition headers : jsval := q_req q?."headers".
Definition is_messages : bool := String.eqb (q_protocol q) "anthropic.messages".

Definition mapProtocolClientError (result : jsval) : jsval :=
  rewritePoolErrorForClient (mapUpstreamError (result?."status" ||| jint 503) (result?."body") (result?."headers" ||| JObj [])) (result?."body").

(** ** The key of the client *)

Definition key_error (r : refusal) : jsval :=
  makeError (with_details (err (if (r_status r =? 429)%Z then ErrorType?."RATE_LIMIT" else ErrorType?."PERMISSION")
    (JStr (r_code r)) (JStr (r_message r)) (r_status r)) (r_detail r ||| JUndef)).
(** [hop] with the key of the client taken, and given back whatever it leaves; the left is a refusal. *)
Definition holding_key {A} (record : jsval) (hop : run -> run * A) (u : run) : (run * refusal) + (run * A) :=
  if negb (truthy record) then inr (hop u)
  else
    let id := to_string (record?."id") in
    match ApiKeys.acquire (keys_of u) (g_users (v_gateway (u_server u))) record (w_now w) with
    | (k, Some r) => inl (set_keys k u, r)
    | (k, None) =>
      let '(u, x) := hop (emit (KeyTaken id) (set_keys k u)) in
      inr (emit (KeyReleased id) (set_keys (ApiKeys.release (keys_of u) id) u), x)
    end.
(** [apiKeyStore.recordUsage] with the rate of the group of the key. *)
Definition charge (record usage model : jsval) (u : run) : run :=
  let id := to_string (record?."id") in
  let '(k, _) := ApiKeys.recordUsage (keys_of u) id (usage ||| JObj []) model (w_multiplier w (record?."group_id" ?? jint 1)) (w_later w) in
  emit (Charged id usage model) (set_keys k u).

(** ** A hop to a slot of the pool *)

(** What is shown of a stream, in its order. *)
Inductive shown := Committed | Shown (line : string).
Definition is_commit (s : shown) : bool := match s with Committed => true | Shown _ => false end.
Definition show_line (names : fields) (line : string) (l : list shown) : list shown * option thrown :=
  if includes line "kin_response_headers" then (l, None)
  else match restoreToolNamesInSSELine line names with
       | Some line => (l ++ [Shown line], None)
       | None => (l, Some TYPE_ERROR)
       end.
Definition tool_names (meta : jsval) : fields := entries (meta?."toolNames" ||| JObj []).
Definition stream_hop (onCommit : list shown -> list shown) (n : nat) (meta : jsval) (s : selected) : option ((thrown + jsval) * list shown) :=
  option_map (fun x => (x.1.1.1, x.1.2))
    (dispatchStreamInference onCommit (show_line (tool_names meta)) (w_hop w n) (s_obj s?."exec") (w_routing w) (s_obj s?."slotWaitMs")
       (w_wraps w n) []).

Definition set_truthy (k : string) (v result : jsval) : jsval := if truthy v then with_field result k v else result.
(** None: a TypeError of the tool names. *)
Definition assembled (result : jsval) (l : list shown) (names : fields) : option jsval :=
  let message := a_message (fold_left (fun a s => match s with Shown line => applyClaudeSSELineToMessage line a | Committed => a end) l
                              createClaudeMessageAssembler) in
  let result := if truthy message
                then set_truthy "stopReason" (message?."stop_reason") (set_truthy "model" (message?."model")
                       (set_truthy "usage" (message?."usage") (with_field result "body" message)))
                else result in
  result ← (if truthy (result?."body") then b ← restoreToolNames (result?."body") names; Some (with_field result "body" b) else Some result);
  Some (finalizeAssembledAssistantHop result).
Definition streamAndAssembleClaudeMessage (n : nat) (meta : jsval) (s : selected) : answer :=
  match stream_hop (fun l => l) n meta s with
  | Some (inl t, l) => Threw (t_code t) (JStr (t_message t)) false
  | Some (inr result, l) =>
    match assembled result l (tool_names meta) with
    | Some result => Answered result false
    | None => Threw JUndef (x_text TypeError) false
    end
  | None => Threw JUndef JUndef false
  end.
Definition on_commit (l : list shown) : list shown := l ++ [Committed].
Definition callAttempt (stream : bool) (n : nat) (body meta : jsval) (s : selected) : answer :=
  if negb stream then streamAndAssembleClaudeMessage n meta s
  else match stream_hop on_commit n meta s with
       | Some (inl t, l) => Threw (t_code t) (JStr (t_message t)) (existsb is_commit l)
       | Some (inr result, l) => Answered result (existsb is_commit l)
       | None => Threw JUndef JUndef false
       end.

(** What the client is written meanwhile. *)
Record writer := { r_keep : keepalive; r_conv : converter; r_acts : acts }.
Definition user_agent : jsval := headers?."user-agent" ||| headers?."User-Agent" ||| JStr "".
Definition keepalive_ms : jsval := JNum (to_number (w_routing w?."failover"?."stream_keepalive_ms" ?? w_keepalive_ms w ?? jint 15000)).
(** The timer; a client that has left is not written to. *)
Definition tick (x : writer) (t : Z * bool) : writer :=
  let '(k, chunk) := Keepalive.on_event keepalive_ms user_agent (q_protocol q) (r_keep x) (t.1, Tick false) in
  {| r_keep := k; r_conv := r_conv x; r_acts := match chunk with Some c => if t.2 then r_acts x else write c (r_acts x) | None => r_acts x end |}.
Definition show (n i : nat) (x : writer) (s : shown) : writer :=
  match s with
  | Committed => {| r_keep := r_keep x; r_conv := r_conv x; r_acts := if is_messages then open_stream (r_acts x) else r_acts x |}
  | Shown line =>
    let line := hidePersonaUsageInSseLine line (w_hidden_at w n) in
    let '(c, r) := write_line (w_at w n i) (w_drawn w n i) line (r_conv x) (r_acts x) in
    {| r_keep := observeLine (r_keep x) (w_at w n i) line; r_conv := c; r_acts := r |}
  end.
Fixpoint show_all (n i : nat) (l : list shown) (x : writer) : writer :=
  let x := fold_left tick (w_ticks w n i) x in
  match l with [] => x | s :: l => show_all n (S i) l (show n i x s) end.
Definition write_hop (inbound : jsval) (n : nat) (s : selected) (body meta : jsval) (r : acts) : acts :=
  match stream_hop on_commit n meta s with
  | Some (_, l) =>
    r_acts (show_all n 0 l {| r_keep := Keepalive.start keepalive_ms createDownstreamKeepalive;
                              r_conv := converter_for (q_protocol q) (inbound?."model" ||| body?."model") (w_random w 0) (w_random w 1); r_acts := r |})
  | None => r
  end.
Fixpoint write_hops (inbound : jsval) (l : list Failover.effect) (r : acts) : acts :=
  match l with
  | [] => r
  | ECall n s body meta :: l => write_hops inbound l (write_hop inbound n s body meta r)
  | _ :: l => write_hops inbound l r
  end.

Definition bind_effect (t : Sticky.table) (e : Failover.effect) : Sticky.table :=
  match e with
  | EBind key acc vm hit => Sticky.bind (w_sticky_config w) t key {| p_account := Some acc; p_vm := Some vm; p_session := None |} hit (w_later w)
  | EUnbindAccount acc vm => (unbindByAccount t (Some acc) (Some vm)).1
  | _ => t
  end.
Definition pool_env (stream : bool) : Failover.env :=
  let e := w_pool w in
  {| e_started := e_started e; e_now := e_now e; e_aborted := e_aborted e; e_select := e_select e; e_apply := w_prepare w;
     e_call := callAttempt stream; e_on_attempt := e_on_attempt e; e_fails := e_fails e; e_classify_now := e_classify_now e; e_hop_ms := e_hop_ms e;
     e_slept := e_slept e; e_account := e_account e |}.
(** What is hidden once the attempts of a log were prepared. *)
Definition hidden_after (hide : jsval) (l : list Failover.effect) : jsval :=
  fold_left (fun hide e => match e with EBegin n _ => w_hidden_at w n | _ => hide end) l hide.
(** [getFailoverRunner().run]: its promise settles with a result or an error. *)
Definition pool_hop (stream : bool) (inbound hide : jsval) (rq : Failover.request) (u : run) : run * (exn + jsval * jsval) :=
  let '(l, x) := Failover.run (w_failover_config w) (repairAnthropicRequest (w_policy w)) rq (pool_env stream) in
  let u := on_server (fun s => with_sticky (fold_left bind_effect l (v_sticky s)) s) (emit (Pooled (rq_body rq) l) u) in
  let u := if stream then set_acts (write_hops inbound l (u_acts u)) u else u in
  (u, match x with
      | Returned r => inr (r, hidden_after hide l)
      | Rejected e => inl {| x_status := e?."status"; x_text := e?."message" ||| JStr (to_string e) |}
      | Next _ => inl TypeError
      end).

(** ** What follows a hop *)

Definition client_stream (inbound : jsval) : bool := isClientStream inbound headers.
Definition cancelled_code (mapped : jsval) : bool := is_str (mapped?."body"?."error"?."code") "client_cancelled".
Definition DONE : string := ("data: [DONE]" ++ newline ++ newline)%string.
(** [res.write('data: [DONE]')] of a result that is ok, and [res.end()]. *)
Definition end_stream (result : jsval) (u : run) : run :=
  let r := if truthy (result?."ok") && negb is_messages then u_acts u ++ [Write DONE] else u_acts u in
  set_acts (r ++ [End]) u.
(** An answer in the protocol of the client; none: a TypeError. *)
Definition output_of (message requested : jsval) : option jsval :=
  if is_messages then Some message
  else if String.eqb (q_protocol q) "openai.chat" then fromClaudeToOpenAIChat (w_later w) message requested
  else if String.eqb (q_protocol q) "openai.completions" then fromClaudeToOpenAICompletions (w_later w) message requested
  else fromClaudeToResponses (w_later w) (w_random w 4) (w_random w 5) message requested.

Definition api_hop (stream : bool) (inbound body hide : jsval) (u : run) : run * (exn + jsval) :=
  let delivery := if is_str (headers?."x-kin-delivery" ||| w_routing w?."failover"?."delivery_mode") "verified" then "verified" else "realtime" in
  let s := u_server u in
  let o := runApiInference (q_protocol q) inbound stream delivery (fun line => hidePersonaUsageInSseLine line hide) (w_clock w) (w_random w)
             (w_random w 2) (w_random w 3) (w_forward w) (w_rested w) body (w_now w) (w_at_429 w) (w_started w) (v_pool s) (v_endpoints s) (u_acts u) in
  (emit (Forwarded body) (on_server (with_pool (o_pool o) (o_store o)) (set_acts (o_response o) u)),
   match o_result o with inl t => inl {| x_status := JUndef; x_text := JStr (t_message t) |} | inr result => inr result end).
Definition api_settled (inbound result hide : jsval) (u : run) : ending :=
  let failed (counted : bool) :=
    let mapped := mapProtocolClientError result in Finished (respond mapped (if counted then count_error u else u)) in
  if client_stream inbound then
    if negb (headersSent (u_acts u)) then failed (negb (isClientCancelledResult result)) else Finished (end_stream result u)
  else if negb (truthy (result?."ok")) then failed true
  else match output_of (hidePersonaUsageOnMessage (result?."body") hide) (inbound?."model") with
       | Some output => Finished (json (jint 200) output u)
       | None => Failed u TypeError
       end.
Definition api_branch (req inbound body hide : jsval) (u : run) : ending :=
  let record := req?."apiKeyRecord" in
  match holding_key record (api_hop (client_stream inbound) inbound body hide) u with
  | inl (u, r) => Finished (refuse (key_error r) u)
  | inr (u, inl e) => Failed u e
  | inr (u, inr result) =>
    let usage := result?."body"?."usage" ||| result?."usage" ||| JNull in
    let u := if truthy (result?."ok") && truthy record then charge record usage (result?."model" ||| inbound?."model" ||| JNull) u else u in
    api_settled inbound result hide u
  end.

(** ** After a hop to the pool *)

Definition refusal_enabled : bool := isRefusalGuardEnabled (w_refusal_flag w) (w_refusal_setting w).
Definition remember_refusal (inbound body result extra : jsval) (u : run) : run :=
  on_server (fun s => with_refusals (rememberRefusal (w_sha256 w) refusal_enabled (v_refusals s) inbound body result extra (w_request_id w) (w_later w)) s) u.
(** The fields of the log that are read again. *)
Definition log_fields (stop code message : jsval) : jsval := JObj [("stop_reason", stop); ("error_code", code); ("error_message", message)].
Definition first_log (result : jsval) : jsval :=
  let stop := result?."body"?."stop_reason" ||| result?."stopReason" ||| JNull in
  if is_str (result?."finalState") "content_filter" || is_str stop "refusal"
  then log_fields stop (JStr "content_filter_refusal") (JStr "upstream stop_reason=refusal") else log_fields stop JNull JNull.
Definition last_log (result log : jsval) : jsval :=
  let message default := result?."body"?."error"?."message" ||| JStr default in
  if truthy (result?."ok") then log
  else if isClientCancelledResult result
  then log_fields (log?."stop_reason") (JStr "client_cancelled") (message "Client closed the connection")
  else log_fields (log?."stop_reason") (result?."body"?."error"?."code" ||| JStr "stream_incomplete") (message "Stream did not reach a verified terminal state").

Definition limit_text (result log : jsval) : string :=
  join newline (map to_string (List.filter truthy
    [log?."error_message"; result?."body"?."error"?."message"; result?."error"?."message"; if is_string (result?."error") then result?."error" else JStr ""])).
Definition ingest (result log usage : jsval) (u : run) : run :=
  let text := limit_text result log in
  let real := isHealthRealBypass headers in
  let exhausted := negb (truthy (result?."ok")) && (is_num (JNum (to_number (result?."status"))) 429 || rx_test_i (lit "hit your limit") text) in
  on_server (fun s => with_quota (ingestHeaders (v_quota s) (to_string (result?."accountId"))
    (extraHeadersFromLimitError (JStr text) (result?."headers" ||| JObj [])) (if real then JNull else usage)
    (JObj [("exhausted", JBool exhausted); ("status", result?."status"); ("countRequest", JBool (negb real))]) (w_later w)).1 s) u.

Definition stream_settled (inbound body result log : jsval) (u : run) : ending :=
  if negb (headersSent (u_acts u)) then
    let mapped := mapProtocolClientError result in
    Finished (respond mapped (if isClientCancelledResult result || cancelled_code mapped then u else count_error u))
  else
    let u := if truthy (result?."ok") || isClientCancelledResult result then u else count_error u in
    Finished (end_stream result (remember_refusal inbound body result (last_log result log) u)).
Definition debug_fields (result : jsval) : jsval :=
  JObj [("vm_id", result?."vmId"); ("account_id", result?."accountId"); ("attempts", result?."attemptCount"); ("terminal_state", result?."finalState")].
Definition json_settled (inbound result hide : jsval) (ctx : context jsval) (u : run) : ending :=
  if negb (truthy (result?."ok")) || isIncompleteAssistantMessage result then
    let mapped := mapProtocolClientError (if isIncompleteAssistantMessage result then incompleteAssistantClientError result else result) in
    Finished (respond mapped (if cancelled_code mapped then u else count_error u))
  else
    let message := hidePersonaUsageOnMessage (result?."body") hide in
    match output_of (if is_messages then own message else message) (inbound?."model") with
    | None => Failed u TypeError
    | Some output =>
      let output := if is_messages && is_str (headers?."x-kin-debug") "1" then with_field output "kin" (debug_fields result) else output in
      let ctx := intercept_values (w_rules w) "before_client"
                   {| x_path := x_path ctx; x_protocol := x_protocol ctx; x_body := output; x_headers := x_headers ctx |} in
      Finished (json (jint 200) (x_body ctx) u)
    end.
Definition pool_settled (req inbound : jsval) (ctx : context jsval) (body result hide : jsval) (cacheTtl : option ttl) (u : run) : ending :=
  let result := finalizeAssembledAssistantHop result in
  let usage := result?."body"?."usage" ||| result?."usage" ||| JNull in
  match (match cacheTtl with Some t => if truthy usage then applyCacheTtlToUsage usage (ttl_val t) else Some usage | None => Some usage end) with
  | None => Failed u TypeError
  | Some usage =>
    let log := first_log result in
    let u := remember_refusal inbound body result log u in
    let record := req?."apiKeyRecord" in
    let u := if truthy (result?."accountId") then
               let u := ingest result log usage u in
               if truthy record && negb (isHealthRealBypass headers)
               then charge record usage (result?."body"?."model" ||| result?."model" ||| inbound?."model" ||| JNull) u else u
             else u in
    if client_stream inbound then stream_settled inbound body result log u else json_settled inbound result hide ctx u
  end.
Definition pool_branch (req inbound : jsval) (ctx : context jsval) (body hide : jsval) (cacheTtl : option ttl) (u : run) : ending :=
  match officialMessagesBody body None with
  | None => Failed u TypeError
  | Some canonical =>
    let '(t, key) := extractPoolKey (w_sha256 w) (w_sticky_config w) (v_sticky (u_server u)) req inbound (w_now w) in
    let u := on_server (with_sticky t) u in
    let rq := {| rq_body := canonical; rq_model := canonical?."model"; rq_stickyKey := match key with Some k => JStr k | None => JNull end;
                 rq_stickyKeys := jstrs (collectPoolKeys (w_sha256 w) (w_sticky_config w) req inbound);
                 rq_pinVmId := match pinnedVmId headers (is_str (req?."apiKeyKind") "master") with Some vm => JStr vm | None => JNull end |} in
    match holding_key (req?."apiKeyRecord") (pool_hop (client_stream inbound) inbound hide rq) u with
    | inl (u, r) => Finished (refuse (key_error r) u)
    | inr (u, inl e) => Failed u e
    | inr (u, inr (result, hide)) => pool_settled req inbound ctx body result hide cacheTtl u
    end
  end.

(** ** The guards of a request to a Claude model *)

Definition isZeroInjectMode : bool :=
  let compat := w_routing w?."compatibility" in
  let word v := to_lower (trim (str_or_empty v)) in
  String.eqb (word (compat?."persona_inject")) "zero" || String.eqb (word (compat?."persona_preset")) "zero".
Definition client_class (inbound : jsval) : jsval := JStr (w_class w headers inbound).
Definition official_traffic (inbound : jsval) : bool := w_official_traffic w headers inbound || w_proxied w inbound.

(** The tool of web search is added for a client that has none of its own. *)
Definition with_web_search (inbound body : jsval) : jsval :=
  let class := client_class inbound in
  let official := official_traffic inbound in
  if isOfficialClaudeClient class || official then body
  else ensureClaudeWebSearch body (shouldInjectClaudeWebSearch (JBool official) class headers inbound).
Definition claude_hop (req inbound : jsval) (ctx : context jsval) (u : run) : ending :=
  let official := official_traffic inbound in
  let cacheTtl := resolveCacheTtl headers inbound JUndef (w_routing_file w) official in
  let plain := with_web_search inbound (x_body ctx) in
  let body := w_persona w plain in
  let hide := w_hidden w plain body in
  if String.eqb (resolveInferenceBackend req headers) "api" then api_branch req inbound body hide u
  else pool_branch req inbound ctx body hide cacheTtl u.
Definition guarded (req inbound : jsval) (ctx : context jsval) (u : run) : ending :=
  let official := official_traffic inbound || isOfficialClaudeClient (client_class inbound) in
  match Refusals.applyDistillGuard inbound (x_body ctx) official isZeroInjectMode (w_distill w) (w_request_id w) with
  | Some (blocked, _) => Finished (refuse blocked u)
  | None =>
    let '(t, hit) := Refusals.applyRefusalGuard (w_sha256 w) refusal_enabled (v_refusals (u_server u)) inbound (x_body ctx) (w_request_id w) (w_now w) in
    let u := on_server (with_refusals t) u in
    match hit with Some (blocked, _) => Finished (respond blocked u) | None => claude_hop req inbound ctx u end
  end.

Definition with_body (body : jsval) (ctx : context jsval) : context jsval :=
  {| x_path := x_path ctx; x_protocol := x_protocol ctx; x_body := body; x_headers := x_headers ctx |}.
Definition asked (header : string) : bool := String.eqb (str_or_empty (headers?.header)) "1".
Definition converted (req inbound : jsval) (ctx : context jsval) (u : run) : ending :=
  let opts := {| rewrite := w_rewrite w || asked "x-kin-rewrite"; strict_passthrough := asked "x-kin-strict-passthrough" |} in
  match toClaudeMessages (w_policy w) (w_random w) (q_protocol q) (x_body ctx) opts with
  | None => Failed u TypeError
  | Some (claude, mode) =>
    let u := on_server (fun s => count_mode mode (count_route (q_protocol q) s)) u in
    guarded req inbound (intercept_values (w_rules w) "before_upstream" (with_body claude ctx)) u
  end.

(** The message of a model that is not accepted. *)
Definition model_message (model : jsval) (code : string) : string :=
  let m := trim (str_or_empty model) in
  if String.eqb code "model_required" then "model is required. Use a model from the gateway model catalog."
  else if String.eqb code "model_disabled" then ("model '" ++ m ++ "' is disabled by gateway model policy.")%string
  else if foreign (stripClaudeCode1mSuffix (last_segment m))
  then ("model '" ++ m ++ "' is not supported. Only official Claude and Codex models are accepted.")%string
  else ("model '" ++ m ++ "' is not recognized by the gateway model catalog. Request rejected; no hop.")%string.
Definition model_error (model : jsval) (code : string) : jsval :=
  mapModelError (JObj [("error", JObj [("message", JStr (model_message model code)); ("type", JStr "invalid_request_error"); ("code", JStr code)])]).
Definition with_param_model (e : error_args) : jsval := makeError (with_param e (JStr "model")).
Definition claude (req inbound : jsval) (ctx : context jsval) (u : run) : ending :=
  if String.eqb (q_protocol q) "openai.responses" then
    Finished (refuse (with_param_model (err (ErrorType?."INVALID_REQUEST") (JStr "protocol_not_allowed")
      (JStr "Claude models are not accepted on /v1/responses") 400)) u)
  else if String.eqb (resolveInferenceBackend req headers) "api" then converted req inbound ctx u
  else
    let model := x_body ctx?."model" in
    let '(verdict, c) := validateOfficialModel (w_policy w) (num_of_Z (w_now w)) (v_catalog (u_server u)) model in
    let u := on_server (with_catalog c) u in
    match verdict with
    | Catalog.Rejected code => Finished (refuse (model_error model code) u)
    | Catalog.Accepted m _ _ _ => converted req inbound (with_body (with_own (x_body ctx) "model" (JStr m)) ctx) u
    end.

(** ** A request to a Codex model *)

Definition mode_name (m : route_mode) : string := match m with Native => "native" | ConvertMode => "convert" | Reject => "reject" end.
Definition rotate_value (r : rotate) : jsval :=
  JObj [("enabled", JBool (CodexRequest.r_enabled r)); ("inject_state", JBool (inject_state r)); ("auto_collect", JBool (auto_collect r));
        ("state_lengths", JArr (map JNum (state_lengths r))); ("state_ttl_seconds", JNum (state_ttl_seconds r)); ("probe_model", JStr (probe_model r))].
(** What [normalizeCodexRouting] returns, with Messages converted. *)
Definition messages_routing (c : routing) : jsval :=
  let protocols := JObj (map (fun p => (p.1, CodexRequest.entry (mode_name p.2.1) p.2.2)) (c_protocols c)) in
  JObj [("enabled", JBool (c_enabled c)); ("protocols", with_field protocols "anthropic.messages" (CodexRequest.entry "convert" true));
        ("convert", JObj [("chat_to_codex", JBool (chat_to_codex c)); ("completions_to_codex", JBool (completions_to_codex c));
                          ("anthropic_to_codex", JBool true)]);
        ("clients", JObj (map (fun p => (p.1, JStr (if p.2 : bool then "allow" else "reject"))) (c_clients c)));
        ("plugin", JObj [("rotate", rotate_value (c_rotate c))])].
Definition act_of (e : CodexHop.effect) : option act :=
  match e with
  | CodexHop.SendHeaders => Some SseHeaders
  | CodexHop.Write chunk => Some (Write chunk)
  | CodexHop.EndStream => Some End
  | CodexHop.Json status body => Some (Json status body)
  | _ => None
  end.
Definition codex_run (u : run) : CodexHop.run :=
  let s := u_server u in
  {| n_files := v_files s; n_turns := v_turns s; n_needs := v_needs s; n_log := JObj []; n_errors := 0; n_requests := 0;
     n_sse := CodexAnswer.createAnthropicSseState; n_headersSent := headersSent (u_acts u); n_effects := [] |}.
Definition codex_counts (r : CodexHop.run) (s : server) : server :=
  count_both (n_errors r) 0 (match n_requests r with O => s | S _ => count_route (q_protocol q) s end).
Definition codex (req inbound : jsval) (ctx : context jsval) (u : run) : ending :=
  let raw := w_routing w?."codex" in
  let raw := if is_messages then messages_routing (normalizeCodexRouting raw) else raw in
  let cq := {| CodexHop.q_headers := headers; q_master := is_str (req?."apiKeyKind") "master"; CodexHop.q_path := JStr (x_path ctx);
               q_body := x_body ctx; q_inbound := inbound |} in
  let x := handleCodexProtocol (w_codex w) (q_protocol q) raw cq (codex_run u) in
  let r := run_of x in
  let u := on_server (fun s => codex_counts r (with_codex r s)) u in
  let u := emit (CodexHops (n_effects r)) (set_acts (u_acts u ++ omap act_of (n_effects r)) u) in
  match x with Concluded _ => Finished u | Escaped _ message => Failed u {| x_status := JUndef; x_text := JStr message |} end.

(** ** From the socket to the platform *)

Definition WORKSPACE_REMOVED : string :=
  "x-kin-workspace: vm is no longer supported. Go slot workers only relay Messages; tools execute on the client.".
Definition before_convert (inbound : jsval) : context jsval :=
  intercept_values (w_rules w) "before_convert"
    {| x_path := q_path q; x_protocol := q_protocol q; x_body := sanitizeInboundBody inbound (defaultSeedPolicy JUndef);
       x_headers := entries headers |}.
Definition inspected (req inbound : jsval) (u : run) : ending :=
  if negb (String.eqb (resolveWorkspaceMode headers inbound) "client")
  then Finished (refuse (INVALID (JStr "vm_workspace_removed") (JStr WORKSPACE_REMOVED)) u)
  else
    let ctx := before_convert inbound in
    match validateRequestBody (q_protocol q) (x_body ctx) with
    | Invalid error => Finished (refuse error u)
    | Valid _ =>
      match detectInboundPlatform (x_body ctx?."model") with
      | Unsupported code message => Finished (refuse (with_param_model (err (ErrorType?."INVALID_REQUEST") (JStr code) (JStr message) 400)) u)
      | OnOpenai _ => codex req inbound ctx u
      | OnAnthropic _ => claude req inbound ctx u
      end
    end.

(** The snapshot of a probe, in place of a hop. *)
Definition from_snapshot (inbound snapshot cfg : jsval) (u : run) (otherwise : ending) : ending :=
  let counted := on_server (count_route (q_protocol q)) u in
  match synthesizeProtocolResponse (w_now w) (w_random w 6) (w_random w 7) (q_protocol q) inbound snapshot cfg with
  | None => Failed u TypeError
  | Some body =>
    if negb (truthy body) then otherwise
    else if client_stream inbound then
      let opened := act_now SseHeaders counted in
      match formatHealthSse (w_now w) (w_random w 6) (w_random w 7) (q_protocol q) inbound snapshot cfg with
      | Some s => Finished (act_now End (act_now (Write s) opened))
      | None => Failed opened TypeError
      end
    else Finished (json (jint 200) body counted)
  end.
Definition health_unavailable (snapshot : jsval) (u : run) : run :=
  let body := healthUnavailableError snapshot (w_request_id w) in
  json (jint 503) (JObj [("error", body?."error")]) (count_error (on_server (count_route (q_protocol q)) u)).
Definition received (req inbound : jsval) (u : run) : ending :=
  match w_monitor w with
  | None => inspected req inbound u
  | Some m =>
    match decideHealthIntercept (w_official_traffic w) (w_official_ua w) (w_regex w) headers inbound (m_config m) (m_snapshot m) (w_now w) with
    | Pass => inspected req inbound u
    | Health.Unavailable snapshot => Finished (health_unavailable snapshot u)
    | Cache snapshot => from_snapshot inbound (snapshot ||| JObj []) (m_config m) u (inspected req inbound u)
    end
  end.
Definition admitted (req : jsval) (u : run) : ending :=
  match readBody (w_parse_error w) (w_max_body w) (q_chunks q) (q_broken q) with
  | inl error => Finished (refuse error u)
  | inr inbound => received req inbound u
  end.
Definition handleProtocol (s : server) : ending :=
  let u := {| u_server := s; u_acts := []; u_effects := [] |} in
  match requireAuth (w_sha256 w) (w_hmac w) (w_seal w) (w_secret w) (w_admin w) (w_capacity w) (w_refill w) (w_api_key w) (v_gateway s) headers
          (w_iv w) (w_now w) (w_written w) with
  | None => Failed u {| x_status := JUndef; x_text := JStr "URI malformed" |}
  | Some (g, Access.Rejected error) => Finished (respond error (on_server (with_gateway g) u))
  | Some (g, Granted auth) => admitted (spread (q_req q) auth) (on_server (with_gateway g) u)
  end.

(** The handler of the server, with its catch. *)
Definition serve (s : server) : run :=
  match handleProtocol s with
  | Finished u => u
  | Failed u e =>
    let u := count_error u in
    if headersSent (u_acts u) then act_now End u
    else json (x_status e ||| jint 500) (JObj [("error", JObj [("message", x_text e); ("type", JStr "server_error")])]) u
  end.
End Handler.
