(* ===== verification/HandlerFacts.v ===== *)
(** * Requests from end to end (Handler)

    Whatever a request meets, it is answered once; the key of a client is held around its hop and
    given back; what is sent to a slot or an endpoint has passed every guard. *)

From stdpp Require Import gmap strings.
From S2P Require Import Prelude.
From S2P Require Import JsValue.
From S2P Require Import JsText.
From S2P Require Import JsJson.
From S2P Require Import Errors.
From S2P Require Import Sanitize.
From S2P Require Import QuotaFacts.
From S2P Require Import Refusals.
From S2P Require Import Sticky.
From S2P Require Import ApiKeys.
From S2P Require Import ApiKeyFacts.
From S2P Require Import Access.
From S2P Require Import CodexHop.
From S2P Require Import CodexHopFacts.
From S2P Require Import WorkerStream.
From S2P Require Import WorkerStreamFacts.
From S2P Require Import KernelHop.
From S2P Require Import KernelHopFacts.
From S2P Require Import Inbound.
From S2P Require Import Intercept.
From S2P Require Import Keepalive.
From S2P Require Import Health.
From S2P Require Import Downstream.
From S2P Require Import ApiCall.
From S2P Require Import Failover.
From S2P Require Import Handler.
#[local] Open Scope string_scope.
#[local] Open Scope list_scope.
#[local] Open Scope js_scope.

(** ** What the client is written *)

Section Answered.
Context (w : world) (q : request).

Lemma open_stream_shown r : open_or_empty r -> open_or_empty (open_stream r).
Proof. intros H. destruct (open_stream_ok r H) as (ws & -> & Hw). right. by exists ws. Qed.

Lemma tick_shown x t : open_or_empty (r_acts x) -> open_or_empty (r_acts (tick w q x t)).
Proof. intros H. unfold tick. destruct (Keepalive.on_event _ _ _ _ _) as [k [c|]]; cbn; [|done]. destruct t.2; [done|by apply write_ok]. Qed.
Lemma ticks_shown ts x : open_or_empty (r_acts x) -> open_or_empty (r_acts (fold_left (tick w q) ts x)).
Proof. revert x. induction ts as [|t ts IH]; intros x H; cbn [fold_left]; [done|]. by apply IH, tick_shown. Qed.
Lemma show_shown n i x s : open_or_empty (r_acts x) -> open_or_empty (r_acts (show w q n i x s)).
Proof.
  intros H. destruct s as [|line]; cbn [show].
  - cbn. destruct (is_messages q); [by apply open_stream_shown|done].
  - match goal with |- context [write_line ?a ?b ?l ?c ?r] => pose proof (write_line_ok a b l c r H) as Hw; destruct (write_line a b l c r) end. exact Hw.
Qed.
Lemma show_all_shown n l i x : open_or_empty (r_acts x) -> open_or_empty (r_acts (show_all w q n i l x)).
Proof.
  revert i x. induction l as [|s l IH]; intros i x H; cbn [show_all]; [by apply ticks_shown|]. by apply IH, show_shown, ticks_shown.
Qed.
Lemma write_hop_shown inbound n s body meta r : open_or_empty r -> open_or_empty (write_hop w q inbound n s body meta r).
Proof. intros H. unfold write_hop. destruct (stream_hop _ _ _ _ _) as [[? l]|]; [|done]. by apply show_all_shown. Qed.
Lemma write_hops_shown inbound l r : open_or_empty r -> open_or_empty (write_hops w q inbound l r).
Proof. revert r. induction l as [|e l IH]; intros r H; cbn [write_hops]; [done|]. destruct e; (by apply IH) || (by apply IH, write_hop_shown). Qed.

(** What a hop may do to the response: a stream is opened and written when the client streams, nothing else. *)
Definition shows (stream : bool) (r r' : acts) : Prop := open_or_empty r' /\ (stream = false -> r' = r).

Lemma pool_hop_shows stream inbound hide rq u : open_or_empty (u_acts u) -> shows stream (u_acts u) (u_acts (pool_hop w q stream inbound hide rq u).1).
Proof.
  intros H. unfold pool_hop. destruct (Failover.run _ _ _ _) as [l x]. cbn [fst]. destruct stream; cbn; [|done]. split; [by apply write_hops_shown|done].
Qed.
Lemma api_hop_shows stream inbound body hide u : open_or_empty (u_acts u) -> shows stream (u_acts u) (u_acts (api_hop w q stream inbound body hide u).1).
Proof.
  intros H. unfold api_hop. cbn [fst emit on_server u_acts set_acts].
  match goal with |- context [runApiInference ?p ?i ?s ?d ?h ?c ?r ?d1 ?d2 ?f ?y ?b ?a ?a4 ?st ?po ?ep _] =>
    exact (api_response p i s d h c r d1 d2 f y b a a4 st po ep (u_acts u) H) end.
Qed.

(** ** Endings that answer once *)

(** What the catch of the server can still answer, or what is answered. *)
Definition answering (e : ending) : Prop :=
  match e with Finished u => answered_once (u_acts u) | Failed u _ => open_or_empty (u_acts u) end.

Lemma json_answering status body u : u_acts u = [] -> answering (Finished (json status body u)).
Proof. intros H. unfold json, act_now. cbn. rewrite H. left. by exists status, body. Qed.
Lemma respond_answering error u : u_acts u = [] -> answering (Finished (respond error u)).
Proof. apply json_answering. Qed.
Lemma refuse_answering error u : u_acts u = [] -> answering (Finished (refuse error u)).
Proof. intros H. by apply respond_answering. Qed.
Lemma unsent_empty r : open_or_empty r -> headersSent r = false -> r = [].
Proof. intros [->|(ws & -> & _)]; done. Qed.
Lemma end_stream_answering result u : open_or_empty (u_acts u) -> headersSent (u_acts u) = true -> answering (Finished (end_stream q result u)).
Proof.
  intros H Hs. unfold end_stream. cbn. destruct (_ && _).
  - destruct H as [H|(ws & E & Hw)]; [by rewrite H in Hs|]. right. exists (ws ++ [Downstream.Write DONE]). rewrite E.
    split; [done|]. by rewrite forallb_app, Hw.
  - by apply end_answers.
Qed.
End Answered.

(** ** The key of the client *)

Definition key_id (record : jsval) : string := to_string (record?."id").
Definition taken (record : jsval) : list effect := if truthy record then [KeyTaken (key_id record)] else [].
Definition given_back (record : jsval) : list effect := if truthy record then [KeyReleased (key_id record)] else [].

(** The response, the log and the gateway of a request. *)
Definition same_response (u v : run) : Prop := u_acts u = u_acts v /\ u_effects u = u_effects v.

Lemma holding_key_spec {A} w record (hop : run -> run * A) u :
  match holding_key w record hop u with
  | inl (u', r) => same_response u' u /\ truthy record = true
  | inr (u', x) =>
    exists u1 u2, hop u1 = (u2, x) /\ u_acts u1 = u_acts u /\ u_effects u1 = u_effects u ++ taken record /\
      u_acts u' = u_acts u2 /\ u_effects u' = u_effects u2 ++ given_back record /\
      (truthy record = true -> exists k, ApiKeys.acquire (keys_of u) (g_users (v_gateway (u_server u))) record (w_now w) = (k, None))
  end.
Proof.
  unfold holding_key, taken, given_back, key_id. destruct (truthy record); cbn [negb].
  - destruct (ApiKeys.acquire _ _ _ _) as [k [r|]] eqn:E; [done|]. destruct (hop _) as [u2 x] eqn:Eh.
    exists (emit (KeyTaken (to_string (record?."id"))) (set_keys k u)), u2. split_and!; try done. intros _. by exists k.
  - destruct (hop u) as [u2 x] eqn:Eh. exists u, u2. rewrite !app_nil_r. split_and!; done.
Qed.

#[export] Hint Resolve json_answering respond_answering refuse_answering : handler.

(** ** Every branch *)

Section Branches.
Context (w : world) (q : request).

Lemma api_settled_answering inbound result hide u : shows (client_stream q inbound) [] (u_acts u) -> answering (api_settled w q inbound result hide u).
Proof.
  intros [Hs Hn]. unfold api_settled. destruct (client_stream q inbound).
  - destruct (headersSent (u_acts u)) eqn:E; cbn [negb]; [by apply end_stream_answering|].
    apply respond_answering. by destruct (negb _); apply unsent_empty.
  - specialize (Hn eq_refl). destruct (negb _); [by apply respond_answering|]. destruct (output_of _ _ _ _); [by apply json_answering|exact Hs].
Qed.
Lemma api_branch_answering req inbound body hide u : u_acts u = [] -> answering (api_branch w q req inbound body hide u).
Proof.
  intros H. unfold api_branch. pose proof (holding_key_spec w (req?."apiKeyRecord") (api_hop w q (client_stream q inbound) inbound body hide) u) as Hk.
  destruct (holding_key _ _ _ _) as [[u' r]|[u' x]].
  - destruct Hk as ([Ha _] & _). apply refuse_answering. congruence.
  - destruct Hk as (u1 & u2 & Eh & H1 & _ & H2 & _). pose proof (api_hop_shows w q (client_stream q inbound) inbound body hide u1) as Hs.
    rewrite Eh, H1, H in Hs. cbn [fst] in Hs. rewrite <- H2 in Hs. specialize (Hs (or_introl eq_refl)). destruct x as [e|result]; [apply Hs|].
    apply api_settled_answering. destruct (_ && _); [|exact Hs]. unfold charge. by destruct (ApiKeys.recordUsage _ _ _ _ _ _).
Qed.

Lemma stream_settled_answering inbound body result log u : open_or_empty (u_acts u) -> answering (stream_settled w q inbound body result log u).
Proof.
  intros H. unfold stream_settled. destruct (headersSent (u_acts u)) eqn:E; cbn [negb].
  - apply end_stream_answering; by destruct (_ || _).
  - apply respond_answering. by destruct (_ || _); apply unsent_empty.
Qed.
Lemma json_settled_answering inbound result hide ctx u : u_acts u = [] -> answering (json_settled w q inbound result hide ctx u).
Proof.
  intros H. unfold json_settled. destruct (_ || _); [apply respond_answering; by destruct (cancelled_code _)|].
  destruct (output_of _ _ _ _); [by apply json_answering|]. by left.
Qed.
Lemma charge_acts record usage model u : u_acts (charge w record usage model u) = u_acts u.
Proof. unfold charge. by destruct (ApiKeys.recordUsage _ _ _ _ _ _). Qed.
Lemma pool_settled_answering req inbound ctx body result hide ttl u :
  shows (client_stream q inbound) [] (u_acts u) -> answering (pool_settled w q req inbound ctx body result hide ttl u).
Proof.
  intros [Hs Hn]. unfold pool_settled. destruct (match ttl with Some _ => _ | None => _ end); [|exact Hs]. cbn zeta.
  match goal with |- context [if client_stream q inbound then stream_settled _ _ _ _ _ _ ?v else _] => set (u' := v) end.
  assert (E : u_acts u' = u_acts u). { unfold u'. destruct (truthy _); [|done]. destruct (_ && _); [by rewrite charge_acts|done]. }
  destruct (client_stream q inbound); [apply stream_settled_answering; by rewrite E|apply json_settled_answering; rewrite E; by apply Hn].
Qed.
Lemma pool_branch_answering req inbound ctx body hide ttl u : u_acts u = [] -> answering (pool_branch w q req inbound ctx body hide ttl u).
Proof.
  intros H. unfold pool_branch. destruct (officialMessagesBody body None) as [canonical|]; [|by left].
  destruct (extractPoolKey _ _ _ _ _ _) as [t key]. cbn zeta.
  match goal with |- context [holding_key w ?rec ?hop ?v] => pose proof (holding_key_spec w rec hop v) as Hk; destruct (holding_key w rec hop v) as [[u' r]|[u' x]] end.
  - destruct Hk as ([Ha _] & _). apply refuse_answering. rewrite Ha. exact H.
  - destruct Hk as (u1 & u2 & Eh & H1 & _ & H2 & _). cbn [u_acts on_server] in H1. rewrite H in H1.
    pose proof (f_equal (fun r => u_acts r.1) Eh) as Ea. cbn [fst] in Ea.
    match type of Eh with pool_hop w q ?s ?i ?h ?rq _ = _ => pose proof (pool_hop_shows w q s i h rq u1) as Hs end.
    rewrite Ea, H1, <- H2 in Hs. specialize (Hs (or_introl eq_refl)). destruct x as [e|[result hide']]; [apply Hs|]. by apply pool_settled_answering.
Qed.
End Branches.

(** ** The ways of a request *)

Section Paths.
Context (w : world) (q : request) (s : server).

(** Nothing has been answered or sent; [g]: the gateway once the credential was read. *)
Definition fresh (g : gateway) (u : run) : Prop :=
  u_acts u = [] /\ u_effects u = [] /\ v_gateway (u_server u) = g /\ v_refusals (u_server u) = v_refusals s /\ v_catalog (u_server u) = v_catalog s.
(** An ending before any hop. *)
Definition early (g : gateway) (e : ending) : Prop :=
  answering e /\ match e with Finished u | Failed u _ => u_effects u = [] /\ v_gateway (u_server u) = g end.

Lemma early_json g status body u : fresh g u -> early g (Finished (json status body u)).
Proof. intros (Ha & He & Hg & _). split; [by apply json_answering|done]. Qed.
Lemma early_respond g error u : fresh g u -> early g (Finished (respond error u)).
Proof. apply early_json. Qed.
Lemma fresh_server g f u : (forall v, v_gateway (f v) = v_gateway v /\ v_refusals (f v) = v_refusals v /\ v_catalog (f v) = v_catalog v) ->
  fresh g u -> fresh g (on_server f u).
Proof. intros Hf (Ha & He & Hg & Hr & Hc). destruct (Hf (u_server u)) as (H1 & H2 & H3). unfold fresh. cbn. by rewrite H1, H2, H3. Qed.
Lemma fresh_count g u : fresh g u -> fresh g (count_error u).
Proof. by apply fresh_server. Qed.
Lemma early_refuse g error u : fresh g u -> early g (Finished (refuse error u)).
Proof. intros H. by apply early_respond, fresh_count. Qed.
Lemma early_throw g e u : fresh g u -> early g (Failed u e).
Proof. intros (Ha & He & Hg & _). split; [by left|done]. Qed.

(** What a request to a Claude model has passed when a hop begins. *)
Definition cleared (req inbound : jsval) (model body : jsval) : Prop :=
  q_protocol q <> "openai.responses" /\
  (resolveInferenceBackend req (headers q) = "api" \/
   exists m a want1m pending, (Catalog.validateOfficialModel (w_policy w) (num_of_Z (w_now w)) (v_catalog s) model).1 = Catalog.Accepted m a want1m pending) /\
  Refusals.applyDistillGuard inbound body (official_traffic w q inbound || isOfficialClaudeClient (client_class w q inbound)) (isZeroInjectMode w)
    (w_distill w) (w_request_id w) = None /\
  (refusal_enabled w = true -> Refusals.get (v_refusals s) (JStr (Refusals.refusalFingerprint (w_sha256 w) body inbound)) = None).

(** The body that a hop is given for a body that was cleared: with the tool of web search, and the persona. *)
Definition dressed (inbound body : jsval) : jsval := w_persona w (with_web_search w q inbound body).

(** A run that differs from a fresh one in its statistics, the catalog and the refusals that were hit. *)
Definition ready (g : gateway) (u : run) : Prop := u_acts u = [] /\ u_effects u = [] /\ v_gateway (u_server u) = g.

Inductive way (g : gateway) (req inbound : jsval) : ending -> Prop :=
| way_early e : early g e -> way g req inbound e
| way_codex ctx m u : ready g u -> detectInboundPlatform (x_body ctx?."model") = OnOpenai m -> ctx = before_convert w q inbound ->
    way g req inbound (codex w q req inbound ctx u)
| way_api body hide u : ready g u -> cleared req inbound (x_body (before_convert w q inbound)?."model") body ->
    way g req inbound (api_branch w q req inbound (dressed inbound body) hide u)
| way_pool body ctx hide ttl u : ready g u -> cleared req inbound (x_body (before_convert w q inbound)?."model") body ->
    way g req inbound (pool_branch w q req inbound ctx (dressed inbound body) hide ttl u).

Lemma refusal_cleared inbound body t : (Refusals.applyRefusalGuard (w_sha256 w) (refusal_enabled w) t inbound body (w_request_id w) (w_now w)).2 = None ->
  refusal_enabled w = true -> Refusals.get t (JStr (Refusals.refusalFingerprint (w_sha256 w) body inbound)) = None.
Proof. unfold Refusals.applyRefusalGuard. intros H Ht. rewrite Ht in H. cbn [negb] in H. by destruct (Refusals.get _ _). Qed.

Lemma guarded_way g req inbound ctx u : u_acts u = [] -> u_effects u = [] -> v_gateway (u_server u) = g -> v_refusals (u_server u) = v_refusals s ->
  q_protocol q <> "openai.responses" ->
  (resolveInferenceBackend req (headers q) = "api" \/
   exists m a want1m pending, (Catalog.validateOfficialModel (w_policy w) (num_of_Z (w_now w)) (v_catalog s) (x_body (before_convert w q inbound)?."model")).1
     = Catalog.Accepted m a want1m pending) ->
  way g req inbound (guarded w q req inbound ctx u).
Proof.
  intros Ha He Hg Hr Hp Hm. unfold guarded. destruct (Refusals.applyDistillGuard _ _ _ _ _ _) as [[blocked l]|] eqn:Ed.
  { apply way_early. split; [by apply refuse_answering|done]. }
  destruct (Refusals.applyRefusalGuard _ _ _ _ _ _ _) as [t hit] eqn:Er. rewrite Hr in Er. destruct hit as [[blocked l]|].
  { apply way_early. split; [by apply respond_answering|done]. }
  assert (Hc : cleared req inbound (x_body (before_convert w q inbound)?."model") (x_body ctx)).
  { split_and!; [done|done|exact Ed|]. intros Hon. apply (refusal_cleared inbound (x_body ctx)); [by rewrite Er|done]. }
  unfold claude_hop. cbn zeta. destruct (String.eqb (resolveInferenceBackend req (headers q)) "api"); by econstructor.
Qed.

Lemma claude_way g req inbound u : fresh g u -> way g req inbound (claude w q req inbound (before_convert w q inbound) u).
Proof.
  intros Hf. unfold claude. destruct (String.eqb (q_protocol q) "openai.responses") eqn:Ep; [by apply way_early, early_refuse|].
  apply String.eqb_neq in Ep.
  assert (Hcv : forall ctx v, fresh g v \/ ready g v /\ v_refusals (u_server v) = v_refusals s ->
    (resolveInferenceBackend req (headers q) = "api" \/
     exists m a want1m pending, (Catalog.validateOfficialModel (w_policy w) (num_of_Z (w_now w)) (v_catalog s) (x_body (before_convert w q inbound)?."model")).1
       = Catalog.Accepted m a want1m pending) -> way g req inbound (converted w q req inbound ctx v)).
  { intros ctx v Hv Hm. assert (Hv' : ready g v /\ v_refusals (u_server v) = v_refusals s).
    { destruct Hv as [(? & ? & ? & ? & ?)|?]; done. }
    destruct Hv' as ((Ha & He & Hg) & Hr). unfold converted. destruct (Convert.toClaudeMessages _ _ _ _ _) as [[c mode]|].
    - by apply guarded_way.
    - apply way_early. split; [by left|done]. }
  destruct (String.eqb (resolveInferenceBackend req (headers q)) "api") eqn:Eb.
  { apply String.eqb_eq in Eb. apply Hcv; by left. }
  destruct Hf as (Ha & He & Hg & Hr & Hc). rewrite Hc. destruct (Catalog.validateOfficialModel _ _ _ _) as [verdict c] eqn:Ev. destruct verdict as [m a l p|code].
  - apply Hcv; [by right|]. right. exists m, a, l, p. done.
  - apply way_early. split; [by apply refuse_answering|done].
Qed.

Lemma inspected_way g req inbound u : fresh g u ->
  early g (inspected w q req inbound u) \/
  resolveWorkspaceMode (headers q) inbound = "client" /\
  (exists body, validateRequestBody (q_protocol q) (x_body (before_convert w q inbound)) = Valid body) /\ way g req inbound (inspected w q req inbound u).
Proof.
  intros Hf. unfold inspected. destruct (String.eqb (resolveWorkspaceMode (headers q) inbound) "client") eqn:Ew; cbn [negb]; [|left; by apply early_refuse].
  apply String.eqb_eq in Ew. destruct (validateRequestBody _ _) as [body|error]; [|left; by apply early_refuse].
  destruct (detectInboundPlatform _) as [m|m|code message] eqn:Em; [| |left; by apply early_refuse]; right; (split; [done|split; [by exists body|]]).
  - eapply way_codex; [|exact Em|done]. destruct Hf as (? & ? & ? & _). done.
  - by apply claude_way.
Qed.
Lemma from_snapshot_way g inbound snapshot cfg u e : fresh g u ->
  from_snapshot w q inbound snapshot cfg u e = e \/ early g (from_snapshot w q inbound snapshot cfg u e).
Proof.
  intros Hf. unfold from_snapshot. destruct (synthesizeProtocolResponse _ _ _ _ _ _ _) as [body|]; [|right; by apply early_throw].
  destruct (negb (truthy body)); [by left|]. right. assert (Hc : fresh g (on_server (count_route (q_protocol q)) u)) by by apply fresh_server.
  destruct (client_stream q inbound); [|by apply early_json]. destruct Hc as (Ha & He & Hg & _). unfold act_now, set_acts.
  destruct (formatHealthSse _ _ _ _ _ _ _) as [chunk|]; (split; [|done]); cbn [answering u_acts]; rewrite Ha.
  - right. by exists [Downstream.Write chunk].
  - right. by exists [].
Qed.
Lemma received_way g req inbound u : fresh g u ->
  early g (received w q req inbound u) \/
  resolveWorkspaceMode (headers q) inbound = "client" /\
  (exists body, validateRequestBody (q_protocol q) (x_body (before_convert w q inbound)) = Valid body) /\ way g req inbound (received w q req inbound u).
Proof.
  intros Hf. pose proof (inspected_way g req inbound u Hf) as Hi. unfold received. destruct (w_monitor w) as [m|]; [|exact Hi].
  destruct (decideHealthIntercept _ _ _ _ _ _ _ _) as [|snapshot|snapshot]; [exact Hi| |].
  - match goal with |- context [from_snapshot w q inbound ?sn ?c u ?e] => destruct (from_snapshot_way g inbound sn c u e Hf) as [E|He] end; [by rewrite E|by left].
  - left. apply early_json. by apply fresh_count, fresh_server.
Qed.

#[local] Notation authenticated := (requireAuth (w_sha256 w) (w_hmac w) (w_seal w) (w_secret w) (w_admin w) (w_capacity w) (w_refill w) (w_api_key w)
  (v_gateway s) (headers q) (w_iv w) (w_now w) (w_written w)).
#[local] Notation body_read := (readBody (w_parse_error w) (w_max_body w) (q_chunks q) (q_broken q)).

Inductive handled : ending -> Prop :=
| handled_early g e : (g = v_gateway s \/ exists x, authenticated = Some (g, x)) -> early g e -> handled e
| handled_on g auth inbound e : authenticated = Some (g, Granted auth) -> body_read = inr inbound ->
    resolveWorkspaceMode (headers q) inbound = "client" ->
    (exists body, validateRequestBody (q_protocol q) (x_body (before_convert w q inbound)) = Valid body) ->
    way g (spread (q_req q) auth) inbound e -> handled e.

Lemma handle_ways : handled (handleProtocol w q s).
Proof.
  unfold handleProtocol. cbn zeta. set (u := {| u_server := s; u_acts := []; u_effects := [] |}).
  destruct authenticated as [[g x]|] eqn:Ea; [|apply (handled_early (v_gateway s)); [by left|by apply early_throw]].
  assert (Hf : fresh g (on_server (with_gateway g) u)) by done.
  assert (Hg : g = v_gateway s \/ exists x, authenticated = Some (g, x)) by (right; by exists x).
  destruct x as [error|auth]; [apply (handled_early g); [done|by apply early_respond]|].
  unfold admitted. destruct body_read as [error|inbound] eqn:Eb; [apply (handled_early g); [done|by apply early_refuse]|].
  destruct (received_way g (spread (q_req q) auth) inbound _ Hf) as [He|(Hw & Hv & Hway)]; [by apply (handled_early g)|].
  by eapply handled_on.
Qed.
End Paths.

(** ** One answer *)

Lemma probed_silent pre : visits CODEX_FAILOVER_MAX pre -> omap act_of pre = [].
Proof.
  intros (parts & -> & _ & Hv). induction Hv as [|p parts (vmId & Hp & _) _ IH]; [done|]. cbn [concat]. rewrite omap_app, IH, app_nil_r.
  clear IH. induction Hp as [|e p [He _] _ IH]; [done|]. cbn [omap list_omap]. by destruct e.
Qed.
Lemma written_acts ws : omap act_of (map CodexHop.Write ws) = map Downstream.Write ws /\ forallb is_write (map Downstream.Write ws) = true.
Proof. induction ws as [|c ws [IH1 IH2]]; [done|]. cbn. split; [by rewrite <- IH1|exact IH2]. Qed.
Lemma tried_answers l : tried CODEX_FAILOVER_MAX l -> answered_once (omap act_of l).
Proof.
  intros (p & r & -> & Hp & Hr). rewrite omap_app, probed_silent by done. cbn [app].
  destruct Hr as [(status & body & ->)|(ws & ->)]; [left; by exists status, body|]. right.
  exists (map Downstream.Write ws). destruct (written_acts ws) as [H1 H2]. split; [|exact H2].
  cbn. f_equal. rewrite omap_app. f_equal. exact H1.
Qed.
Lemma broken_off_open l : left_open CODEX_FAILOVER_MAX l -> open_or_empty (omap act_of l).
Proof.
  intros (p & r & -> & Hp & Hr). rewrite omap_app, probed_silent by done. cbn [app].
  destruct Hr as [->|(ws & ->)]; [by left|]. right. exists (map Downstream.Write ws). destruct (written_acts ws) as [H1 H2]. split; [|exact H2].
  cbn. f_equal. exact H1.
Qed.
Lemma codex_answering w q req inbound ctx u : u_acts u = [] -> answering (codex w q req inbound ctx u).
Proof.
  intros H. unfold codex. cbn zeta.
  match goal with |- context [handleCodexProtocol ?e ?p ?raw ?cq ?r] => destruct (codex_ends e p raw cq r) as (l & El & Hl); [cbn; by rewrite H|];
    destruct (handleCodexProtocol e p raw cq r) as [r'|r' m] end;
    unfold after in El; cbn in El; cbn; rewrite H, El; cbn [app]; [by apply tried_answers|by apply broken_off_open].
Qed.

Lemma way_answering w q s g req inbound e : way w q s g req inbound e -> answering e.
Proof.
  intros Hw. destruct Hw as [e [He _]|ctx m u (Ha & _) _ _|body hide u (Ha & _) _|body ctx hide ttl u (Ha & _) _].
  - exact He.
  - by apply codex_answering.
  - by apply api_branch_answering.
  - by apply pool_branch_answering.
Qed.

(** C2: Every request is answered exactly once: with a status and a body, or with a stream that is opened
    once, written, and ended.  That holds whatever it meets: any body, any answers of slots and endpoints in
    any of the protocols, retries after a part was shown, and exceptions at any step, those of the Codex slots
    included, which the server answers or ends the stream for. *)
Theorem request_answered_once w q s : answered_once (u_acts (serve w q s)).
Proof.
  unfold serve. assert (Ha : answering (handleProtocol w q s)).
  { destruct (handle_ways w q s) as [g e _ [He _]|g auth inbound e _ _ _ _ Hw]; [exact He|by eapply way_answering]. }
  destruct (handleProtocol w q s) as [v|v e]; cbn [answering] in Ha; [done|].
  destruct (headersSent _) eqn:E; [by apply end_answers|by apply json_answers].
Qed.

(** ** The key of a client *)

Lemma given_back_running s id k : id <> "" -> running (ApiKeys.release s id) k = if String.eqb k id then Z.max 0 (running s id - 1) else running s k.
Proof.
  intros H. unfold ApiKeys.release, nonempty. rewrite (proj2 (String.eqb_neq id "") H). cbn [negb]. unfold running at 1. cbn [ApiKeys.inflight].
  destruct (String.eqb_spec k id) as [->|Hk].
  - destruct (Z.leb_spec (running s id - 1) 0); [rewrite lookup_delete_eq|rewrite lookup_insert_eq]; cbn; lia.
  - destruct (_ <=? 0)%Z; [rewrite lookup_delete_ne by congruence|rewrite lookup_insert_ne by congruence]; done.
Qed.
Lemma taken_running s us rec now k0 k : ApiKeys.acquire s us rec now = (k0, None) ->
  running k0 k = if String.eqb k (key_id rec) then (running s (key_id rec) + 1)%Z else running s k.
Proof.
  intros E. pose proof (acquire_spec s us rec now) as Ha. rewrite E in Ha. destruct Ha as (_ & Hi & _). cbn [fst] in Hi.
  unfold running at 1. rewrite Hi. unfold key_id. destruct (String.eqb_spec k (to_string (rec?."id"))) as [->|Hk].
  - by rewrite lookup_insert_eq.
  - by rewrite lookup_insert_ne by congruence.
Qed.
Lemma refusal_running s us rec now k0 r k : ApiKeys.acquire s us rec now = (k0, Some r) -> running k0 k = running s k.
Proof. intros E. pose proof (acquire_spec s us rec now) as Ha. rewrite E in Ha. destruct Ha as (_ & Hi & _). cbn [fst] in Hi. unfold running. by rewrite Hi. Qed.

Lemma holding_key_running {A} w record (hop : run -> run * A) u :
  (forall v, v_gateway (u_server (hop v).1) = v_gateway (u_server v)) -> (forall k, 0 <= running (keys_of u) k)%Z ->
  (truthy record = true -> key_id record <> "") ->
  forall k, running (match holding_key w record hop u with inl x => keys_of x.1 | inr x => keys_of x.1 end) k = running (keys_of u) k.
Proof.
  intros Hg Hn Hid k. unfold holding_key. destruct (truthy record); cbn [negb].
  - specialize (Hid eq_refl). destruct (ApiKeys.acquire _ _ _ _) as [k0 [r|]] eqn:E; [by eapply refusal_running|].
    set (v := emit (KeyTaken _) (set_keys k0 u)). specialize (Hg v). destruct (hop v) as [u2 x]. cbn [fst] in *.
    assert (Hk : keys_of u2 = k0) by (unfold keys_of; by rewrite Hg). unfold keys_of at 1. cbn [fst].
    change (running (ApiKeys.release (keys_of u2) (key_id record)) k = running (keys_of u) k).
    rewrite given_back_running by done. rewrite Hk, !(taken_running _ _ _ _ _ _ E), String.eqb_refl.
    destruct (String.eqb_spec k (key_id record)) as [->|]; [|done]. specialize (Hn (key_id record)). lia.
  - destruct (hop u) as [u2 x] eqn:Eh. cbn [fst]. specialize (Hg u). rewrite Eh in Hg. unfold keys_of. cbn [fst] in Hg. by rewrite Hg.
Qed.

(** The log and the gateway are those of [u]. *)
Definition kept (u : run) (e : ending) : Prop :=
  match e with Finished v | Failed v _ => u_effects v = u_effects u /\ v_gateway (u_server v) = v_gateway (u_server u) end.

(** Nothing but the hops to Codex slots, or one hop with the key of the client around it and then at most
    one charge to that key; [P] holds of the hop. *)
Definition hop_effect (e : effect) : bool := match e with Pooled _ _ | Forwarded _ => true | _ => false end.
Inductive traced_by (P : effect -> Prop) (record : jsval) : list effect -> Prop :=
| traced_nothing : traced_by P record []
| traced_codex l : P (CodexHops l) -> traced_by P record [CodexHops l]
| traced_hop h : hop_effect h = true -> P h -> traced_by P record (taken record ++ [h] ++ given_back record)
| traced_charged h usage model : hop_effect h = true -> P h -> truthy record = true ->
    traced_by P record (taken record ++ [h] ++ given_back record ++ [Charged (key_id record) usage model]).
Definition traced : jsval -> list effect -> Prop := traced_by (fun _ => True).
(** An effect on the key [record] itself. *)
Definition on_key (record : jsval) (e : effect) : Prop :=
  truthy record = true /\ match e with KeyTaken id | KeyReleased id | Charged id _ _ => id = key_id record | _ => False end.

Lemma traced_weaken P record l : traced_by P record l -> traced record l.
Proof. intros []; by constructor. Qed.
Lemma traced_in P record l e : traced_by P record l -> e ∈ l -> P e \/ on_key record e.
Proof.
  assert (Ht : forall e, e ∈ taken record -> on_key record e).
  { intros e'. unfold taken, on_key. destruct (truthy record); [|set_solver]. by intros ->%list_elem_of_singleton. }
  assert (Hg : forall e, e ∈ given_back record -> on_key record e).
  { intros e'. unfold given_back, on_key. destruct (truthy record); [|set_solver]. by intros ->%list_elem_of_singleton. }
  intros [|c Hp|h _ Hp|h usage model _ Hp Hr] He; rewrite ?elem_of_app, ?list_elem_of_singleton in He; [set_solver|subst; by left|..].
  - destruct He as [He|[->|He]]; [right; by apply Ht|by left|right; by apply Hg].
  - destruct He as [He|[->|[He| ->]]]; [right; by apply Ht|by left|right; by apply Hg|by right].
Qed.

(** How a request with the key [record] ends: its log, and the requests running under each key. *)
Definition settles (P : effect -> Prop) (record : jsval) (g : gateway) (e : ending) : Prop :=
  match e with
  | Finished v | Failed v _ =>
    traced_by P record (u_effects v) /\ ((truthy record = true -> key_id record <> "") -> forall k, running (keys_of v) k = running (g_keys g) k)
  end.

Section Traces.
Context (w : world) (q : request).

Lemma charge_effects record usage model u : u_effects (charge w record usage model u) = u_effects u ++ [Charged (key_id record) usage model].
Proof. unfold charge. by destruct (ApiKeys.recordUsage _ _ _ _ _ _). Qed.
Lemma charge_running record usage model u k : running (keys_of (charge w record usage model u)) k = running (keys_of u) k.
Proof.
  unfold charge, ApiKeys.recordUsage. destruct (negb _); [done|]. destruct (ApiKeys.Repo.recordUsage _ _ _ _ _) as [t rec]. done.
Qed.

Lemma api_hop_log stream inbound body hide u : let r := api_hop w q stream inbound body hide u in
  u_effects r.1 = u_effects u ++ [Forwarded body] /\ v_gateway (u_server r.1) = v_gateway (u_server u).
Proof. by unfold api_hop. Qed.
Lemma pool_hop_log stream inbound hide rq u : let r := pool_hop w q stream inbound hide rq u in
  exists l, u_effects r.1 = u_effects u ++ [Pooled (rq_body rq) l] /\ v_gateway (u_server r.1) = v_gateway (u_server u).
Proof. unfold pool_hop. cbn zeta. destruct (Failover.run _ _ _ _) as [l x]. exists l. by destruct stream. Qed.

Lemma api_settled_kept inbound result hide u : kept u (api_settled w q inbound result hide u).
Proof.
  unfold api_settled. destruct (client_stream q inbound).
  - destruct (negb _); [by destruct (negb _)|done].
  - destruct (negb _); [done|]. by destruct (output_of _ _ _ _).
Qed.
Lemma stream_settled_kept inbound body result log u : kept u (stream_settled w q inbound body result log u).
Proof. unfold stream_settled. destruct (negb _); by destruct (_ || _). Qed.
Lemma json_settled_kept inbound result hide ctx u : kept u (json_settled w q inbound result hide ctx u).
Proof. unfold json_settled. destruct (_ || _); [by destruct (cancelled_code _)|]. by destruct (output_of _ _ _ _). Qed.

(** After the hop: the log may gain a charge. *)
Context (P : effect -> Prop).
Definition hop_done (record : jsval) (g : gateway) (u : run) : Prop :=
  exists h, hop_effect h = true /\ P h /\ u_effects u = taken record ++ [h] ++ given_back record /\
    ((truthy record = true -> key_id record <> "") -> forall k, running (keys_of u) k = running (g_keys g) k).
Lemma done_settles record g u e : hop_done record g u -> kept u e -> settles P record g e.
Proof.
  intros (h & Hh & Hp & He & Hk) H. destruct e as [v|v x]; destruct H as [E Eg]; (split; [rewrite E, He; by constructor|]);
    intros Hid k; unfold keys_of; rewrite Eg; by apply Hk.
Qed.
Lemma charged_settles record g u usage model e : hop_done record g u -> truthy record = true -> kept (charge w record usage model u) e -> settles P record g e.
Proof.
  intros (h & Hh & Hp & He & Hk) Ht H. assert (Hc : u_effects (charge w record usage model u) = taken record ++ [h] ++ given_back record ++ [Charged (key_id record) usage model]).
  { by rewrite charge_effects, He, <- !app_assoc. }
  destruct e as [v|v x]; destruct H as [E Eg]; (split; [rewrite E, Hc; by constructor|]);
    intros Hid k; unfold keys_of at 1; rewrite Eg; change (running (keys_of (charge w record usage model u)) k = running (g_keys g) k);
    rewrite charge_running; by apply Hk.
Qed.

Lemma held_done {A} record (hop : run -> run * A) g u u' x : ready g u -> (forall k, 0 <= running (g_keys g) k)%Z ->
  (forall v, exists h, hop_effect h = true /\ P h /\ u_effects (hop v).1 = u_effects v ++ [h] /\ v_gateway (u_server (hop v).1) = v_gateway (u_server v)) ->
  holding_key w record hop u = inr (u', x) -> hop_done record g u'.
Proof.
  intros (Ha & He & Hg) Hn Hhop E. pose proof (holding_key_spec w record hop u) as Hs. rewrite E in Hs.
  destruct Hs as (u1 & u2 & Eh & _ & H1 & _ & H2 & _). destruct (Hhop u1) as (h & Hh & Hp & H3 & _). rewrite Eh in H3. cbn [fst] in H3.
  exists h. split_and!; [done|done|by rewrite H2, H3, H1, He, <- !app_assoc|]. intros Hid k. assert (Hku : keys_of u = g_keys g) by (unfold keys_of; by rewrite Hg).
  pose proof (holding_key_running w record hop u) as Hr. rewrite E, Hku in Hr. apply Hr; [|done|done].
  intros v. by destruct (Hhop v) as (? & _ & _ & _ & ->).
Qed.
Lemma held_refused {A} record (hop : run -> run * A) g u u' r : ready g u -> holding_key w record hop u = inl (u', r) ->
  settles P record g (Finished (refuse (key_error r) u')).
Proof.
  intros (Ha & He & Hg) E. pose proof (holding_key_spec w record hop u) as Hs. rewrite E in Hs. destruct Hs as [[_ H2] Ht].
  split; [change (traced_by P record (u_effects u')); rewrite H2, He; constructor|]. intros _ k. change (running (keys_of u') k = running (g_keys g) k).
  unfold holding_key in E. rewrite Ht in E. cbn [negb] in E. destruct (ApiKeys.acquire _ _ _ _) as [k0 [r0|]] eqn:Ea.
  - injection E as <- _. change (running k0 k = running (g_keys g) k). rewrite (refusal_running _ _ _ _ _ _ _ Ea). unfold keys_of. by rewrite Hg.
  - by destruct (hop _).
Qed.

Lemma api_branch_settles g req inbound body hide u : P (Forwarded body) -> ready g u -> (forall k, 0 <= running (g_keys g) k)%Z ->
  settles P (req?."apiKeyRecord") g (api_branch w q req inbound body hide u).
Proof.
  intros Hp Hr Hn. unfold api_branch. cbn zeta. destruct (holding_key _ _ _ _) as [[u' r]|[u' x]] eqn:E; [by eapply held_refused|].
  eapply held_done in E; [|done..|]. 2:{ intros v. exists (Forwarded body). split; [done|]. split; [exact Hp|]. apply api_hop_log. }
  destruct x as [e|result]; [by eapply done_settles|]. destruct (_ && _) eqn:Ec.
  - apply andb_true_iff in Ec as [_ Ht]. eapply charged_settles; [exact E|exact Ht|]. apply api_settled_kept.
  - eapply done_settles; [exact E|]. apply api_settled_kept.
Qed.
Lemma hop_done_server record g f u : (forall v, v_gateway (f v) = v_gateway v) -> hop_done record g u -> hop_done record g (on_server f u).
Proof.
  intros Hf (h & Hh & Hp & He & Hk). exists h. split_and!; [done|done|done|]. intros Hid k. unfold keys_of. cbn [on_server u_server]. rewrite Hf. by apply Hk.
Qed.
Lemma pool_settled_settles g req inbound ctx body result hide ttl u : hop_done (req?."apiKeyRecord") g u ->
  settles P (req?."apiKeyRecord") g (pool_settled w q req inbound ctx body result hide ttl u).
Proof.
  intros Hd. unfold pool_settled. destruct (match ttl with Some _ => _ | None => _ end) as [usage|]; [|by eapply done_settles].
  cbn zeta. set (result' := Errors.finalizeAssembledAssistantHop result). set (u1 := remember_refusal _ _ _ _ _ _).
  assert (H1 : hop_done (req?."apiKeyRecord") g u1) by by apply hop_done_server.
  assert (Hk : forall v, kept v (if client_stream q inbound then stream_settled w q inbound body result' (first_log result') v else json_settled w q inbound result' hide ctx v)).
  { intros v. destruct (client_stream q inbound); [apply stream_settled_kept|apply json_settled_kept]. }
  destruct (truthy (result'?."accountId")); [|by eapply done_settles].
  assert (H2 : hop_done (req?."apiKeyRecord") g (ingest w q result' (first_log result') usage u1)) by by apply hop_done_server.
  destruct (_ && _) eqn:Ec; [|by eapply done_settles]. apply andb_true_iff in Ec as [Ht _]. by eapply charged_settles.
Qed.
Lemma pool_branch_settles g req inbound ctx body hide ttl u :
  (forall canonical l, officialMessagesBody body None = Some canonical -> P (Pooled canonical l)) -> ready g u -> (forall k, 0 <= running (g_keys g) k)%Z ->
  settles P (req?."apiKeyRecord") g (pool_branch w q req inbound ctx body hide ttl u).
Proof.
  intros Hp Hr Hn. unfold pool_branch. destruct (officialMessagesBody body None) as [canonical|] eqn:Eb.
  2: { destruct Hr as (Ha & He & Hg). split; [rewrite He; constructor|]. intros _ k. unfold keys_of. by rewrite Hg. }
  destruct (extractPoolKey _ _ _ _ _ _) as [t key]. cbn zeta.
  match goal with |- context [holding_key w ?rec ?hop ?v] => assert (Hv : ready g v) by done; destruct (holding_key w rec hop v) as [[u' r]|[u' x]] eqn:E end;
    [by eapply held_refused|].
  eapply held_done in E; [|done..|].
  2: { intros v. match goal with |- context [pool_hop w q ?s ?i ?h ?rq v] => destruct (pool_hop_log s i h rq v) as (l & H1 & H2) end.
    exists (Pooled canonical l). split_and!; [done|by apply Hp|exact H1|exact H2]. }
  destruct x as [e|[result hide']]; [by eapply done_settles|]. by apply pool_settled_settles.
Qed.
Lemma codex_settles record g req inbound ctx u : (forall l, P (CodexHops l)) -> ready g u -> settles P record g (codex w q req inbound ctx u).
Proof.
  intros Hp (Ha & He & Hg). unfold codex. cbn zeta. destruct (handleCodexProtocol _ _ _ _ _) as [r|r m]; (split;
    [cbn; rewrite He; by constructor|intros _ k; unfold keys_of; cbn -[g_keys]; unfold codex_counts; destruct (n_requests r); cbn; by rewrite Hg]).
Qed.
End Traces.

(** What a hop is given, of a request whose body is [inbound]: a body that was cleared, and dressed. *)
Definition hands (w : world) (q : request) (s : server) (req inbound : jsval) (e : effect) : Prop :=
  let model := x_body (before_convert w q inbound)?."model" in
  match e with
  | CodexHops _ => exists m, detectInboundPlatform model = OnOpenai m
  | Forwarded body => exists claude, cleared w q s req inbound model claude /\ body = dressed w q inbound claude
  | Pooled body _ => exists claude, cleared w q s req inbound model claude /\ officialMessagesBody (dressed w q inbound claude) None = Some body
  | _ => False
  end.
Lemma way_settles w q s g req inbound e : (forall k, 0 <= running (g_keys g) k)%Z -> way w q s g req inbound e ->
  settles (hands w q s req inbound) (req?."apiKeyRecord") g e.
Proof.
  intros Hn Hw. destruct Hw as [e [_ He]|ctx m u Hr Hm ->|body hide u Hr Hc|body ctx hide ttl u Hr Hc].
  - destruct e as [v|v x]; destruct He as [He Hg]; (split; [rewrite He; constructor|]); intros _ k; unfold keys_of; by rewrite Hg.
  - apply codex_settles; [|done]. intros l. by exists m.
  - apply api_branch_settles; [|done..]. by exists body.
  - apply pool_branch_settles; [|done..]. intros canonical l E. by exists body.
Qed.

Lemma authenticate_running hmac seal secret s users token iv k :
  running (ApiKeys.authenticate hmac seal secret s users token iv).1 k = running s k.
Proof.
  unfold ApiKeys.authenticate. destruct (negb _); [done|]. destruct (truthy _); [done|]. destruct (List.find _ _) as [rec|]; [|done].
  by destruct (ApiKeys.Repo.update _ _).
Qed.
Lemma requireAuth_running digest hmac seal secret admin capacity refill api_key g headers iv now written g' x k :
  requireAuth digest hmac seal secret admin capacity refill api_key g headers iv now written = Some (g', x) -> running (g_keys g') k = running (g_keys g) k.
Proof.
  unfold requireAuth. destruct (presented headers) as [token|]; [|done]. destruct (negb _); [by intros [= <- _]|].
  destruct (Security.Sessions.verifyPanelSession _ _ _ _ _ _ _) as [ss session]. cbn zeta.
  assert (Hrated : forall g1 key req, g_keys (rated capacity refill g1 key now req).1 = g_keys g1).
  { intros g1 key req. unfold rated. by destruct (Security.RateLimiter.allow _ _ _ _ _). }
  destruct (truthy session); [intros [= E]; apply (f_equal (fun p => g_keys p.1)) in E; rewrite Hrated in E; cbn in E; by rewrite <- E|].
  destruct (String.eqb token api_key); [intros [= E]; apply (f_equal (fun p => g_keys p.1)) in E; rewrite Hrated in E; cbn in E; by rewrite <- E|].
  unfold managed. pose proof (authenticate_running hmac seal secret (g_keys g) (g_users g) token iv k) as Hr. cbn [with_sessions g_keys g_users].
  destruct (ApiKeys.authenticate _ _ _ _ _ _ _) as [k1 [code|record]]; [by intros [= <- _]|].
  destruct (canAccept_effects k1 (g_users g) record now) as (_ & Hi & _). destruct (ApiKeys.canAccept _ _ _ _) as [k2 [r|]]; cbn [fst] in *.
  - intros [= <- _]. cbn. unfold running in *. by rewrite Hi.
  - intros [= E]. apply (f_equal (fun p => g_keys p.1)) in E. rewrite Hrated in E. cbn in E. rewrite <- E. unfold running in *. by rewrite Hi.
Qed.

(** What the gateway grants a request, and the key it was granted to: none for the master key, a session of the panel,
    or a request that is refused. *)
Definition granted (w : world) (q : request) (s : server) : option (gateway * access) :=
  requireAuth (w_sha256 w) (w_hmac w) (w_seal w) (w_secret w) (w_admin w) (w_capacity w) (w_refill w) (w_api_key w)
    (v_gateway s) (headers q) (w_iv w) (w_now w) (w_written w).
Definition key_of (w : world) (q : request) (s : server) : jsval :=
  match granted w q s with Some (_, Granted auth) => spread (q_req q) auth?."apiKeyRecord" | _ => JUndef end.

Definition effects_of (e : ending) : list effect := match e with Finished v | Failed v _ => u_effects v end.
Lemma serve_effects w q s : u_effects (serve w q s) = effects_of (handleProtocol w q s) /\
  keys_of (serve w q s) = match handleProtocol w q s with Finished v | Failed v _ => keys_of v end.
Proof. unfold serve. destruct (handleProtocol w q s) as [v|v x]; [done|]. cbn zeta. by destruct (headersSent _). Qed.

(** C4: A client's key is held exactly around the hop: a request takes the key it was authenticated with, and no other,
    makes one hop (to an endpoint, or all the attempts of the pool), gives that key back whatever the hop came to, and
    charges it at most once, after that; a request that makes no hop neither takes nor charges a key.  After
    any request as many requests run under every key as before it, whatever counts, not negative, the store starts
    with. *)
Theorem key_held_around_hop w q s : (forall id, 0 <= running (g_keys (v_gateway s)) id)%Z ->
  traced (key_of w q s) (u_effects (serve w q s)) /\
  ((truthy (key_of w q s) = true -> key_id (key_of w q s) <> "") ->
   forall id, running (keys_of (serve w q s)) id = running (g_keys (v_gateway s)) id).
Proof.
  intros Hn. destruct (serve_effects w q s) as [-> ->].
  assert (Hg : forall g x, granted w q s = Some (g, x) -> forall k, running (g_keys g) k = running (g_keys (v_gateway s)) k).
  { intros g x E k. by eapply requireAuth_running. }
  assert (H : exists P, settles P (key_of w q s) (v_gateway s) (handleProtocol w q s)).
  { assert (Hto : forall P g e, (forall k, running (g_keys g) k = running (g_keys (v_gateway s)) k) -> settles P (key_of w q s) g e ->
      settles P (key_of w q s) (v_gateway s) e).
    { intros P g e Hk. destruct e as [v|v y]; intros [H1 H2]; (split; [exact H1|]); intros Hid k; rewrite <- Hk; by apply H2. }
    destruct (handle_ways w q s) as [g e Hr [_ He]|g auth inbound e Ha _ _ _ Hw].
    - exists (fun _ => True). apply (Hto _ g); [by destruct Hr as [->|[x Hx]]; [|eapply Hg]|].
      destruct e as [v|v x]; destruct He as [He Hv]; (split; [rewrite He; constructor|]); intros _ k; unfold keys_of; by rewrite Hv.
    - exists (hands w q s (spread (q_req q) auth) inbound). apply (Hto _ g); [by eapply Hg|].
      unfold key_of. rewrite (Ha : granted w q s = _). apply way_settles; [|exact Hw]. intros k. by rewrite (Hg _ _ Ha). }
  destruct H as [P H]. destruct (handleProtocol w q s) as [v|v x]; destruct H as [H1 H2]; (split; [by eapply traced_weaken|exact H2]).
Qed.

(** ** What is sent has passed the guards *)

Lemma held_admitted {A} w record (hop : run -> run * A) g u : ready g u ->
  match holding_key w record hop u with
  | inl (u', _) => u_effects u' = []
  | inr _ => truthy record = true -> exists k, ApiKeys.acquire (g_keys g) (g_users g) record (w_now w) = (k, None)
  end.
Proof.
  intros (Ha & He & Hg). pose proof (holding_key_spec w record hop u) as Hs. destruct (holding_key w record hop u) as [[u' r]|[u' x]].
  - destruct Hs as [[_ H] _]. congruence.
  - destruct Hs as (u1 & u2 & _ & _ & _ & _ & _ & H). unfold keys_of in H. by rewrite Hg in H.
Qed.
(** The key [record] admits one more request. *)
Definition admits (w : world) (g : gateway) (record : jsval) : Prop :=
  truthy record = true -> exists k, ApiKeys.acquire (g_keys g) (g_users g) record (w_now w) = (k, None).
Lemma api_branch_admitted w q g req inbound body hide u : ready g u -> effects_of (api_branch w q req inbound body hide u) <> [] ->
  admits w g (req?."apiKeyRecord").
Proof.
  intros Hr. unfold api_branch. cbn zeta. pose proof (held_admitted w (req?."apiKeyRecord") (api_hop w q (client_stream q inbound) inbound body hide) g u Hr) as H.
  destruct (holding_key _ _ _ _) as [[u' r]|[u' x]]; [|done]. intros Hne. by destruct Hne.
Qed.
Lemma pool_branch_admitted w q g req inbound ctx body hide ttl u : ready g u -> effects_of (pool_branch w q req inbound ctx body hide ttl u) <> [] ->
  admits w g (req?."apiKeyRecord").
Proof.
  intros Hr. unfold pool_branch. destruct (officialMessagesBody body None) as [canonical|]; [|intros Hne; destruct Hne; by destruct Hr as (_ & H & _)].
  destruct (extractPoolKey _ _ _ _ _ _) as [t key]. cbn zeta.
  match goal with |- context [holding_key w ?rec ?hop ?v] => pose proof (held_admitted w rec hop g v Hr) as H; destruct (holding_key w rec hop v) as [[u' r]|[u' x]] end; [|done].
  intros Hne. by destruct Hne.
Qed.
Lemma way_admitted w q s g req inbound e x : way w q s g req inbound e -> x ∈ effects_of e ->
  (exists l, x = CodexHops l) \/ admits w g (req?."apiKeyRecord").
Proof.
  intros Hw Hx. assert (Hne : effects_of e <> []) by (intros E; rewrite E in Hx; set_solver).
  destruct Hw as [e [_ He]|ctx m u (_ & Hu & _) _ _|body hide u Hr _|body ctx hide ttl u Hr _].
  - destruct e as [v|v y]; destruct He as [He _]; by destruct Hne.
  - left. unfold codex in Hx. cbn zeta in Hx. destruct (handleCodexProtocol _ _ _ _ _) as [r|r m']; cbn in Hx; rewrite Hu in Hx;
      apply list_elem_of_singleton in Hx; by eexists.
  - right. by eapply api_branch_admitted.
  - right. by eapply pool_branch_admitted.
Qed.

(** C3: Nothing leaves the gateway unless every guard was passed: a request with any effect on a slot, an
    endpoint or a key has a credential that the gateway grants, a body within the limit that is valid in its
    protocol, and a workspace of the client.  A hop to Codex slots is of a Codex model.  Any other hop is given exactly
    the body that the identity modules make of a body that was cleared: the protocol is not Responses, the model is one
    of the catalog that is enabled unless the key is for endpoints, that body is no harvest, and no refusal of the
    provider is remembered for its fingerprint, taken before the persona is put on it.  The key that is taken, given
    back and charged is that of the credential, and admits the request.  (The counts of running requests that the store
    starts with are not negative.) *)
Theorem upstream_guarded w q s e : (forall id, 0 <= running (g_keys (v_gateway s)) id)%Z -> e ∈ u_effects (serve w q s) ->
  exists g auth inbound,
    granted w q s = Some (g, Granted auth) /\
    readBody (w_parse_error w) (w_max_body w) (q_chunks q) (q_broken q) = inr inbound /\
    resolveWorkspaceMode (headers q) inbound = "client" /\
    (exists body, validateRequestBody (q_protocol q) (x_body (before_convert w q inbound)) = Valid body) /\
    (hands w q s (spread (q_req q) auth) inbound e \/ on_key (key_of w q s) e) /\
    ((exists l, e = CodexHops l) \/ admits w g (key_of w q s)).
Proof.
  intros Hn. destruct (serve_effects w q s) as [-> _]. intros He.
  destruct (handle_ways w q s) as [g x _ [_ Hx]|g auth inbound x Ha Hb Hw Hv Hway].
  { destruct x as [v|v y]; destruct Hx as [Hx _]; cbn [effects_of] in He; rewrite Hx in He; set_solver. }
  assert (Hk : key_of w q s = spread (q_req q) auth?."apiKeyRecord") by (unfold key_of; by rewrite (Ha : granted w q s = _)).
  exists g, auth, inbound. split_and!; [done..| |].
  - assert (Hg : forall k, (0 <= running (g_keys g) k)%Z) by (intros k; by rewrite (requireAuth_running _ _ _ _ _ _ _ _ _ _ _ _ _ _ _ _ Ha)).
    rewrite Hk. pose proof (way_settles w q s g _ inbound x Hg Hway) as Hs. eapply traced_in; [|exact He]. by destruct x as [v|v y]; destruct Hs.
  - rewrite Hk. by eapply way_admitted.
Qed.

(** ** Streams are never taken for complete *)

(** The body of a stream that ended well. *)
Definition EMPTY_MESSAGE : jsval := JObj [("type", JStr "message"); ("role", JStr "assistant"); ("content", JArr [])].
Definition empty_if_ok (result : jsval) : Prop := is_obj result = true /\ (truthy (result?."ok") = true -> result?."body" = EMPTY_MESSAGE).

Lemma empty_with result f : empty_if_ok result -> has_key "ok" f = false -> has_key "body" f = false -> empty_if_ok (spread result (JObj f)).
Proof. intros [Ho He] H1 H2. split; [by destruct result|]. by rewrite !get_spread_other. Qed.
Lemma failed_empty result : is_obj result = true -> truthy (result?."ok") = false -> empty_if_ok result.
Proof. intros Ho He. split; [done|]. by rewrite He. Qed.
Lemma stream_empty {C : Type} (onCommit : C -> C) onEvent elapsed answer c : empty_if_ok (streamGoWorker onCommit onEvent elapsed answer c).1.
Proof.
  split; [apply stream_is_obj|]. unfold streamGoWorker. destruct answer as [t|r]; [done|]. destruct (negb _).
  { cbn [fst]. unfold rejected. by destruct (readAll _ _). }
  destruct (read_stream _ _ _ _ _) as [[p c'] [t|]]; [done|]. cbn [fst]. unfold verdict. destruct (streamMetaFromHeaders _) as [[? ?] ?].
  intros [[_ H%negb_true_iff]%andb_prop _]%andb_prop. unfold get. cbn. unfold or_else. by rewrite H.
Qed.

Section Streams.
Context (w : world).

Lemma empty_marked result k : k <> "ok" -> k <> "body" -> empty_if_ok result -> empty_if_ok (KernelHop.marked result k).
Proof. intros H1 H2 [Ho He]. split; [done|]. by rewrite !get_marked by (congruence || done). Qed.
Lemma ensure_failure_empty result ensured : truthy ((credentialEnsureFailure result ensured)?."ok") = false.
Proof. unfold credentialEnsureFailure. cbn zeta. by rewrite get_spread_head. Qed.
Lemma unavailable_empty ready f : has_key "ok" f = false -> has_key "body" f = false -> empty_if_ok (spread (rustUnavailableResult ready) (JObj f)).
Proof. intros H1 H2. apply empty_with; [|done..]. by apply failed_empty. Qed.


#[local] Notation send n := (streamRustKernel on_commit (show_line n)).
Lemma send_empty names e n c : empty_if_ok (send names e n c).1.
Proof.
  unfold streamRustKernel. pose proof (stream_empty on_commit (show_line names) (e_elapsed e n) (e_reply e n) c) as [Ho He].
  destruct (streamGoWorker _ _ _ _ _) as [r c']. cbn [fst] in *. split; [by apply remap_is_obj|]. by rewrite !get_remap.
Qed.
Lemma send_all_empty names e exec v c : let '(r, _, _, _) := send_all e exec (send names e) v c in empty_if_ok r.1.
Proof.
  unfold send_all, send_twice. pose proof (send_empty names e 0 c) as H0. destruct (send names e 0 c) as [r0 c0]. cbn [fst] in H0.
  assert (Hr : forall r n v c, empty_if_ok r -> let '(r', _, _, _) := send_renewed e exec (send names e) n r v c in empty_if_ok r'.1).
  { intros r n v' c' Hr. unfold send_renewed. destruct (negb _); [done|]. destruct (e_ensured e) as [t|ensured]; [done|]. destruct (negb _).
    - apply failed_empty; [done|]. apply ensure_failure_empty.
    - destruct (recycle _ _ _) as [w' l]. pose proof (send_empty names e n c') as H1. destruct (send names e n c') as [r1 c1]. by apply empty_marked. }
  destruct (_ && _).
  - pose proof (send_empty names e 1 c0) as H1. destruct (send names e 1 c0) as [r1 c1]. apply Hr. by apply empty_marked.
  - by apply Hr.
Qed.
Lemma hop_empty n meta s result l : stream_hop w on_commit n meta s = Some (inr result, l) -> empty_if_ok result.
Proof.
  unfold stream_hop, dispatchStreamInference, runHop. destruct (resolveHopEngine _ _) as [reason []].
  { intros [= <- _]. by apply unavailable_empty. }
  destruct (prepareRust _ _ _ _ _) as [[[v l0] [t|ready]]|]; [done| |done]. cbn [mbind option_bind]. destruct (negb _).
  { intros [= <- _]. by apply unavailable_empty. }
  match goal with |- context [send_all ?e ?x ?sd ?v ?c] => pose proof (send_all_empty (tool_names meta) e x v c) as H; destruct (send_all e x sd v c) as [[[r v'] c'] l1] end.
  destruct (finish_hop _ _ _ _) as [v2 l2]. destruct r as [r [t|]]; cbn [fst snd option_map] in *; [done|]. intros [= <- _]. destruct H as [Ho He].
  apply empty_with; [|done..]. split; [by destruct r|].
  by rewrite !get_own_obj.
Qed.
End Streams.

(** C17: A hop for a client that streams never counts as a success.  What a stream leaves when it ends well
    is a message without content, which the loop and the handler take for one that broke off: whatever the slot
    sent, the result is no verified success and is no longer ok when the handler is done with it. *)
Theorem stream_never_verified w n body meta s result commit :
  callAttempt w true n body meta s = Answered result commit -> truthy (result?."ok") = true ->
  verifiedSuccess result = false /\ (Errors.finalizeAssembledAssistantHop result)?."ok" = JBool false.
Proof.
  unfold callAttempt. cbn [negb]. destruct (stream_hop w on_commit n meta s) as [[[t|r] l]|] eqn:E; [done| |done]. intros [= <- _] Hok.
  apply hop_empty in E as [Ho He]. specialize (He Hok).
  assert (Hc : Errors.isCompleteAssistantMessage r = false).
  { unfold Errors.isCompleteAssistantMessage, Errors.body_of. rewrite He. by rewrite andb_false_r. }
  split; [unfold verifiedSuccess; by rewrite Hc, andb_false_r|]. unfold Errors.finalizeAssembledAssistantHop. rewrite Hc, Hok, orb_true_r.
  rewrite !get_with_field_ne by done. apply get_with_field_eq.
Qed.

(** ** Requests that are run *)

Definition stream_of (events : list string) : reply :=
  inr {| WorkerStream.statusCode := 200; r_headers := JObj []; WorkerStream.failure := None; WorkerStream.trailers := JObj [];
         WorkerStream.chunks := events |}.
Definition message_start : string :=
  event_line "message_start" [("message", JObj [("id", JStr "msg_1"); ("type", JStr "message"); ("role", JStr "assistant");
    ("model", JStr "claude-opus-4-6"); ("content", JArr []); ("usage", JObj [("input_tokens", jint 3)])])].
Definition stops (reason : string) : list string :=
  [event_line "message_delta" [("delta", JObj [("stop_reason", JStr reason)]); ("usage", JObj [("output_tokens", jint 2)])]; newline;
   event_line "message_stop" []; newline].
Definition says_hello : reply := stream_of
  ([message_start; newline;
    event_line "content_block_start" [("index", jint 0); ("content_block", JObj [("type", JStr "text"); ("text", JStr "")])]; newline;
    event_line "content_block_delta" [("index", jint 0); ("delta", JObj [("type", JStr "text_delta"); ("text", JStr "hello")])]; newline;
    event_line "content_block_stop" [("index", jint 0)]; newline] ++ stops "end_turn").
Definition refuses : reply := stream_of ([message_start; newline] ++ stops "refusal").
Definition hop_with (r : reply) : KernelHop.env :=
  {| KernelHop.e_bin := "kin-kernel"; e_newer := false; e_peek := 100; e_prepared := 100; e_health := JObj [("ok", JBool true)]; e_first := JUndef; e_took := 0;
     e_polled := fun _ => JUndef; e_extra := fun _ => 0%N; e_linked := fun _ => None; e_renewed := None; KernelHop.e_started := inr JUndef; e_begin := 100; e_sent := fun _ => 200%Z; e_recycled := 200;
     e_end := 300; e_reply := fun _ => r; e_elapsed := fun _ _ => 7%Z; e_ensured := inr (JObj [("ok", JBool true)]) |}.
Definition slot_of_account (id : string) : selected :=
  {| s_account := id; s_vm := ("vm-" ++ id)%string; s_obj := JObj [("exec", slot_exec ("vm-" ++ id))] |}.

(** A gateway with two slots that reply with [r], and a persona. *)
Definition sample_world (r : reply) (persona : jsval -> jsval) : world :=
  {| w_sha256 := Refusals.marked; w_hmac := fun k => k; w_seal := fun k _ _ => (k, k); w_secret := ""; w_admin := "admin"; w_capacity := Fin 60; w_refill := Fin 1;
     w_api_key := "master-key"; w_max_body := 1000; w_rewrite := false; w_rules := []; w_distill := JUndef; w_refusal_flag := JUndef;
     w_refusal_setting := None; w_routing := JObj []; w_routing_file := None; w_policy := ModelPolicy.seedDefaultPolicy "2026-01-01T00:00:00.000Z";
     w_sticky_config := mergeStickyConfig (JObj []); w_failover_config := DEFAULTS; w_keepalive_ms := jint 15000; w_multiplier := fun _ => Fin 1;
     w_monitor := None; w_official_traffic := fun _ _ => false; w_official_ua := fun _ => false; w_regex := fun _ _ => None;
     w_class := fun _ _ => "unknown"; w_proxied := fun _ => false; w_persona := persona; w_hidden := fun _ _ => jint 0;
     w_prepare := fun _ body _ _ => Answered (JObj [("body", body); ("meta", JObj [("toolNames", JObj [])])]) false; w_hidden_at := fun _ => jint 0;
     w_now := 1700000000000; w_later := 1700000001000; w_iv := "iv"; w_request_id := JStr "req_1"; w_random := fun _ => "r";
     w_parse_error := fun _ => "bad"; w_written := true; w_codex := CodexHopFacts.sample_env; w_forward := fun _ => inl TYPE_ERROR; w_rested := true;
     w_clock := fun _ => 0%Z; w_at_429 := 0; w_started := 0;
     w_pool := Failover.sample_env (map slot_of_account ["a"; "b"]) (fun _ => Answered JNull false); w_hop := fun _ => hop_with r; w_wraps := fun _ => no_wraps;
     w_at := fun _ _ => 0%Z; w_drawn := fun _ _ => "d"; w_ticks := fun _ _ => [] |}.
Definition fresh_counters : fields :=
  map (fun k => (k, jint 0)) ["requests"; "quota_requests_used"; "tokens_in"; "tokens_out"; "quota_used"].
Definition client_key : string * jsval :=
  ("k1", JObj ([("id", JStr "k1"); ("key_hash", JStr "sk-vm-1"); ("status", JStr "active"); ("max_concurrency", jint 2)] ++ fresh_counters)).
Definition sample_server : server :=
  {| v_gateway := {| g_users := []; g_keys := ApiKeyFacts.idle [client_key];
                     g_sessions := {| Security.Sessions.sessions := []; Security.Sessions.file := None |}; g_buckets := ∅ |};
     v_refusals := ∅; v_catalog := Catalog.clearModelsCache; v_sticky := ∅; v_quota := QuotaFacts.sample_quota; v_pool := ApiPool.new_scheduler;
     v_endpoints := []; v_files := []; v_turns := []; v_needs := ∅;
     v_stats := {| t_errors := 0; t_requests := 0; t_routes := ∅; t_passthrough := 0; t_rewrite := 0; t_convert := 0 |} |}.
Definition hi (stream : bool) : string :=
  default "" (stringify (JObj [("model", JStr "claude-opus-4-6"); ("stream", JBool stream); ("max_tokens", jint 16);
                               ("messages", JArr [JObj [("role", JStr "user"); ("content", JStr "hi")]])])).
Definition asks (protocol : string) (stream : bool) : Handler.request :=
  {| q_req := JObj [("headers", JObj [("authorization", JStr "Bearer sk-vm-1")])]; q_protocol := protocol; q_path := "/v1"; q_chunks := [hi stream];
     q_broken := None |}.
#[local] Notation chat_stream := (serve (sample_world says_hello (fun body => body)) (asks "openai.chat" true) sample_server).

(** A chat stream: its first chunk, a text, the end of the turn, and [DONE]; its key is taken, given back and charged. *)
Lemma request_answered_once_witness : length (u_acts chat_stream) = 5%nat /\ answered_once (u_acts chat_stream).
Proof. split; [vm_compute; reflexivity|apply request_answered_once]. Defined.

Lemma idle_sample id : (0 <= running (g_keys (v_gateway sample_server)) id)%Z.
Proof. cbn. unfold running. cbn. by rewrite lookup_empty. Qed.
Lemma key_held_around_hop_witness : length (u_effects chat_stream) = 4%nat /\
  traced (key_of (sample_world says_hello (fun body => body)) (asks "openai.chat" true) sample_server) (u_effects chat_stream).
Proof. split; [vm_compute; reflexivity|]. exact (proj1 (key_held_around_hop _ _ sample_server idle_sample)). Defined.

Definition is_pooled (e : effect) : bool := match e with Pooled _ _ => true | _ => false end.
Lemma has_pooled l : existsb is_pooled l = true -> exists body t, Pooled body t ∈ l.
Proof. intros (e & He & Hp)%existsb_exists. destruct e as [| |body t| | |]; try done. exists body, t. by apply list_elem_of_In. Qed.
Lemma upstream_guarded_witness : exists body l inbound auth, Pooled body l ∈ u_effects chat_stream /\
  readBody (fun _ => "bad") 1000 [hi true] None = inr inbound /\
  (hands (sample_world says_hello (fun body => body)) (asks "openai.chat" true) sample_server (spread (q_req (asks "openai.chat" true)) auth) inbound (Pooled body l) \/
   on_key (key_of (sample_world says_hello (fun body => body)) (asks "openai.chat" true) sample_server) (Pooled body l)).
Proof.
  assert (Hp : existsb is_pooled (u_effects chat_stream) = true) by (vm_compute; reflexivity).
  destruct (has_pooled _ Hp) as (body & l & Hin).
  destruct (upstream_guarded _ _ sample_server (Pooled body l) idle_sample Hin) as (g & auth & inbound & _ & Hb & _ & _ & H & _).
  exists body, l, inbound, auth. exact (conj Hin (conj Hb H)).
Defined.

(** A stream that the worker ended well. *)
#[local] Notation streamed := (callAttempt (sample_world says_hello (fun body => body)) true 1 JNull (JObj [("toolNames", JObj [])]) (slot_of_account "a")).
Definition went_well (a : answer) : bool := match a with Answered r _ => truthy (r?."ok") | _ => false end.
Lemma went_well_some a : went_well a = true -> exists r commit, a = Answered r commit /\ truthy (r?."ok") = true.
Proof. destruct a as [r commit|]; [|done]. by exists r, commit. Qed.
Lemma streamed_well : went_well streamed = true.
Proof. vm_compute. reflexivity. Qed.
Lemma stream_never_verified_witness : exists r commit, streamed = Answered r commit /\ truthy (r?."ok") = true /\ verifiedSuccess r = false.
Proof.
  destruct (went_well_some _ streamed_well) as (r & commit & E & H). exists r, commit.
  exact (conj E (conj H (proj1 (stream_never_verified _ _ _ _ _ _ _ E H)))).
Defined.

(** A key is taken, given back and charged for an answer. *)
Example hello_charged :
  let u := serve (sample_world says_hello (fun body => body)) (asks "anthropic.messages" false) sample_server in
  match u_acts u, u_effects u with
  | [Json status body], [KeyTaken a; Pooled _ _; KeyReleased b; Charged c usage model] =>
    (status, body?."content", [a; b; c], usage?."output_tokens", model, running (keys_of u) "k1",
     ApiKeys.Repo.getById (rows (keys_of u)) "k1"?."requests") =
    (jint 200, JArr [JObj [("type", JStr "text"); ("text", JStr "hello")]], ["k1"; "k1"; "k1"], jint 2, JStr "claude-opus-4-6", 0%Z, jint 1)
  | _, _ => False
  end.
Proof. vm_compute. reflexivity. Qed.

(** The same request twice: the statuses of the answers, and whether the second one made a hop. *)
Definition twice (w : world) (q : Handler.request) : list jsval * bool :=
  let u := serve w q sample_server in
  let v := serve w q (u_server u) in
  (map (fun a => match a with Json status _ => status | _ => JNull end) (u_acts u ++ u_acts v), negb (length (u_effects v) =? 0)%nat).

(** A prompt that the provider refused is refused at once when it comes again; but it is remembered after the persona
    was put on the body and looked up before, so with a persona it is sent again. *)
Example refusal_recognised : twice (sample_world refuses (fun body => body)) (asks "anthropic.messages" false) = ([jint 502; jint 403], false).
Proof. vm_compute. reflexivity. Qed.
Example refusal_sent_again :
  twice (sample_world refuses (fun body => with_field body "system" (JStr "You are Claude Code"))) (asks "anthropic.messages" false) =
  ([jint 502; jint 502], true).
Proof. vm_compute. reflexivity. Qed.
